(* ===== verification/_CoqProject ===== *)
-Q . S2P
Prelude.v
Def.v
ListSeg.v
InetChksum.v
Ip4Addr.v
Mem.v
Memp.v
Timeouts.v
Pbuf.v
PbufMem.v
PbufRef.v
PbufChain.v
PbufData.v
Header.v
Ip4.v
Ip4Frag.v
Icmp.v
IcmpSpec.v
Reass.v
ReassQueue.v
ReassFree.v
ReassStep.v
ReassSpec.v
Igmp.v
IgmpSpec.v
IgmpSafe.v
Udp.v
UdpSpec.v
UdpInput.v
UdpOutput.v
Ip4Input.v
Ip4InputSpec.v
Ip4Forward.v
Etharp.v
EtharpTable.v
EtharpSpec.v
EtharpCorrect.v
Netif.v
NetifSpec.v
EndToEnd.v
