(* ===== verification/Prelude.v ===== *)
(** * Verification of the lwIP core under embeddedRTPS

    The repository builds the embeddedRTPS middleware on Linux on top of lwIP; the
    middleware itself is a git submodule that is empty here, so the program that
    is verified is the lwIP 2.1 core in src/lwip/src: the parts below UDP multicast,
    which the middleware uses for all its traffic.

    ** The parts and the files

    Each file models one C module (all paths under src/lwip/src) and proves its
    theorems; a definition has the name of the C function it translates.

    - Prelude.v: machine integers, assertions, error codes, notations, tactics and
      generic lemmas.
    - Def.v: core/def.c, byte order and strings.
    - ListSeg.v: linked lists in a store by address, used by Pbuf*, Igmp*, Udp* and Netif*.
    - InetChksum.v: core/inet_chksum.c, the three checksum algorithms and the
      pseudo header checksums over packet chains.
    - Ip4Addr.v: core/ipv4/ip4_addr.c, classification, parser and printer; struct
      netif as the IPv4 modules read it.
    - Mem.v: core/mem.c, the heap, on a byte memory: the block headers are read from
      and written to the bytes of the heap.
    - Memp.v: core/memp.c, the pools; the class [ElementPool] is what a client of one
      pool relies on, and the pools are an instance.
    - Timeouts.v: core/timeouts.c, the sorted list of timeouts with wrapping time.
    - Pbuf.v: core/pbuf.c, all operations on packet buffers: a store of the struct
      pbufs by address and a byte memory for their data.  The heap and the pbuf pools
      are reached through the class [PacketMemory].  PbufMem.v discharges it with Mem.v
      and Memp.v; PbufRef.v proves the reference counts, PbufChain.v the operations that
      change chains, PbufData.v those that move data.
    - Header.v, Ip4.v, Ip4Frag.v: core/ipv4/ip4.c (routing and output) and the
      fragmentation of core/ipv4/ip4_frag.c.  The output function of an interface is
      the class [LinkLayer]: what it is given is recorded, and it returns the packet
      with the contents and references it had.
    - Icmp.v, IcmpSpec.v: core/ipv4/icmp.c, echo replies and error messages.
    - Reass.v: the reassembly of core/ipv4/ip4_frag.c, with the links of the queue in the
      memory of the fragments.  ReassQueue.v has the abstract queue and the invariant that
      relates it to memory, ReassFree.v the lemmas on dropping datagrams and the timer,
      ReassStep.v those on one fragment, ReassSpec.v the theorems.
    - Igmp.v, IgmpSpec.v, IgmpSafe.v: core/ipv4/igmp.c, multicast membership: the
      definitions, the lemmas on lists, messages and timers, and the theorems.
    - Udp.v: core/udp.c, the control blocks, sending and receiving; the receive callback
      is a parameter, a function on the whole state.  UdpSpec.v has the theorems on the
      control blocks, UdpInput.v those on receiving, UdpOutput.v those on sending.
    - Ip4Input.v: ip4_input and ip4_forward of core/ipv4/ip4.c, on the state of all the
      modules above together; tcp_input is a parameter.  Ip4InputSpec.v has the theorems on
      input, Ip4Forward.v those on forwarding.
    - Etharp.v: core/ipv4/etharp.c and netif/ethernet.c, the ARP table with the packets
      that wait and the Ethernet headers; the driver and ip4_input are parameters.
      EtharpTable.v has the choice of an entry, EtharpSpec.v the invariant and the
      operations, EtharpCorrect.v the timer, the input of frames and the theorems.
    - Netif.v, NetifSpec.v: core/netif.c, the list of the interfaces, on the states of
      Etharp.v, Igmp.v and Udp.v, which it calls; tcp_netif_ip_addr_changed is a parameter
      with the class [TcpPromise], the init function of the driver an argument.
    - EndToEnd.v: a datagram from udp_sendto_if_src on one host to the callback of
      udp_input on another.

    A packet that comes in goes through ip4_input to the reassembly, ICMP, IGMP or UDP;
    UDP, ICMP and IGMP send through the functions of Ip4.v, which work on packets of Pbuf.v
    with checksums of InetChksum.v, and allocate from the heap and the pools; udp_input
    answers through icmp_dest_unreach.  Below, etharp_output is the output function of an
    Ethernet interface and ethernet_input hands what comes in to ip4_input or etharp_input.

    ** State and effects

    Global variables of a module are a record that its operations take and return.
    Pointers are addresses ([Z], [NULL] is 0).  LWIP_ASSERT and LWIP_ERROR both abort in
    this build and are [Trap] of the type [outcome], as is following a dangling pointer;
    a theorem that says [... = Ret ...] includes that no assertion is reached.  Integers
    are kept at the width of the C type ([u8], [u16], [u32], [s32]).  Options have
    their defaults of opt.h (the lwipopts.h of the build is in a submodule) with
    LWIP_IGMP on; those that matter to the proofs are the classes [MemOptions] and
    [PbufOptions] with their laws.  The machine is little endian with 8 byte pointers.

    ** What the theorems show

    - Mem: a represented heap stays well formed; mem_malloc is first fit and gives
      fresh memory; mem_free merges, mem_trim keeps the data; a client that frees what
      it got never meets an assertion.
    - Memp: the free lists partition the elements; with the sanity checks.
    - Timeouts: the list is sorted, due timers fire in order, cyclic timers do not
      drift.
    - Pbuf: one invariant (every stored pbuf has the count of references that chains
      and clients hold, and lies in memory of its own) that every operation keeps;
      chains are freed to the first shared pbuf; copying, filling, searching and
      coalescing have the meaning they have on the list of the bytes of the chain.
    - InetChksum: the algorithms compute one function, the Internet checksum; a
      checksum verifies; a changed byte is detected.
    - Ip4: a packet sent has a correct header with a valid checksum and goes to the
      routed interface; fragments are those of RFC 791 when the MTU minus the header is a
      multiple of 8.
    - Reassembly: ip4_reass implements a queue of datagrams with sorted fragments that do
      not overlap; the fragments of ip4_frag give back the datagram in whatever order they
      come; the timer drops what is not complete in time and nothing is left behind; every
      datagram given up with its first fragment there is reported to its source, unless
      there is no route or the heap is full at that moment ([expiry], [expiries]).
    - IGMP: a state machine; no sequence of operations breaks the invariant or meets
      an assertion; joining, leaving and messages have their effect and no other; a
      delayed report is sent when its timer says.
    - ICMP: valid echo requests are answered with a valid reply and nothing else is; error
      messages quote the packet, with right checksums.
    - UDP: the list holds exactly the bound control blocks whatever the calls; binding
      keeps ports and addresses apart; the search for a port ends; a datagram sent has
      right headers and checksums, and every way in which none is sent is named
      ([send_outcome]); one received reaches the control block that the list
      gives for it, or is answered or dropped; what is sent is accepted.
    - Input: the bytes of a packet, the interfaces and the groups decide whether ip4_input
      drops it, hands it to a protocol, queues it or forwards it; every module gets its
      packets as its own theorems want them; a datagram sent by one host reaches the
      callback on the other with the same data; a forwarded packet keeps a valid checksum.
    - ARP and Ethernet: the table has one entry for an address, holds its packets with
      right reference counts and gives up the least valuable entry when it is full; a
      packet for an unknown host waits and goes out to the address of the answer, with the
      timer and the traffic of other hosts in between ([arp_resolution], [meanwhile]); every
      branch of output and input sends the frames it should and no other; without traffic the table empties itself ([arp_table_expires]).
    - Interfaces: whatever the calls, the numbers on the list differ and the default is on
      it ([netif_reachable_safe]); adding, removing, a change of address and the up, down
      and link events have their effect on the list and on ARP, IGMP and UDP and no other.
    - Where the code does not do what it means to there is a theorem for that: the
      lost more fragments flag ([ip4_frag_lost_mf]), the wrapping counter of uses
      ([igmp_use_wraps]), the bytes from behind a short packet in an error message
      ([icmp_response_overread]), the clash of two control blocks after a change of
      address ([udp_addr_change_clash]), data behind the last fragment
      ([reass_beyond_last]), a packet with the TTL 0 that is forwarded
      ([ip4_forward_ttl_zero]), the endless search for a number with 255 interfaces
      ([netif_add_full]), the dangling pointer after pbuf_dechain of a long chain, and
      others named in the files.

    ** Loops

    Loops over lists and memory are structural where they can be.  The others take fuel
    from the state: the size of the heap for walks over blocks, the number of stored
    pbufs, groups, datagrams, control blocks or interfaces for walks over chains, the number of ports, the length for fragments;
    the search for the number of an interface takes 255 ([netif_add] has it as an argument,
    since with 255 interfaces no number is enough).  That the fuel is
    enough is part of every theorem with [= Ret]: running out is a [Trap].

    ** Not modelled

    TCP, IPv6, DHCP, DNS, the socket API, the applications and the other link layers
    are not used by the middleware on top or are threads and callbacks of the
    operating system.  The functions of the other modules take the list of interfaces as
    an argument; [view] is that list for a state of Netif.v.  The ARP module is not an instance of [LinkLayer]:
    it asks more of a packet (room for the Ethernet header, no empty pbuf at its end) and of
    the interface (an address of 6 bytes) than that class does, so its theorems stand on
    their own state.  Debug output is left out, statistics too but for the counters that
    theorems mention. *)

From stdpp Require Export base tactics numbers list gmap strings.
From Stdlib Require Export ZArith Lia.

#[local] Open Scope Z_scope.

(** ** Machine integers

    A C unsigned integer of width [w] is a [Z] kept in [0 .. 2^w); every
    conversion the source performs (a cast, a store into a narrower object, an
    unsigned operation that can wrap) is one of the functions below. *)

Definition u8 (z : Z) : Z := z mod 2 ^ 8.
Definition u16 (z : Z) : Z := z mod 2 ^ 16.
Definition u32 (z : Z) : Z := z mod 2 ^ 32.
Definition size_t (z : Z) : Z := z mod 2 ^ 64.

(** Two's complement reinterpretation of a 32 bit pattern as [int]. *)
Definition s32 (z : Z) : Z := let m := z mod 2 ^ 32 in if m <? 2 ^ 31 then m else m - 2 ^ 32.

(** A byte value, and a 16 and a 32 bit value. *)
Definition is_u8 (z : Z) : Prop := 0 <= z < 2 ^ 8.
Definition is_u16 (z : Z) : Prop := 0 <= z < 2 ^ 16.
Definition is_u32 (z : Z) : Prop := 0 <= z < 2 ^ 32.

#[global] Instance is_u8_dec z : Decision (is_u8 z).
Proof. unfold is_u8. apply _. Defined.
#[global] Instance is_u16_dec z : Decision (is_u16 z).
Proof. unfold is_u16. apply _. Defined.
#[global] Instance is_u32_dec z : Decision (is_u32 z).
Proof. unfold is_u32. apply _. Defined.

(** ** Assertions

    The build keeps [LWIP_ASSERT] (LWIP_NOASSERT is not defined), whose
    platform hook prints the message and calls abort(); an operation that can
    reach an assertion returns an [outcome]. *)

Inductive outcome (A : Type) : Type :=
| Ret (a : A)
| Trap (why : string).
Arguments Ret {A} a.
Arguments Trap {A} why.

#[global] Instance outcome_ret : MRet outcome := @Ret.
#[global] Instance outcome_bind : MBind outcome := λ A B f m,
  match m with Ret a => f a | Trap w => Trap w end.

Definition LWIP_ASSERT (why : string) (c : bool) : outcome unit :=
  if c then Ret tt else Trap why.

(** LWIP_ERROR runs its handler after the same hook, which does not return. *)
Definition LWIP_ERROR (why : string) (c : bool) : outcome unit := LWIP_ASSERT why c.

(** err_t (include/lwip/err.h). *)
Inductive err_t :=
| ERR_OK | ERR_MEM | ERR_BUF | ERR_TIMEOUT | ERR_RTE | ERR_INPROGRESS | ERR_VAL
| ERR_WOULDBLOCK | ERR_USE | ERR_ALREADY | ERR_ISCONN | ERR_CONN | ERR_IF
| ERR_ABRT | ERR_RST | ERR_CLSD | ERR_ARG.

#[global] Instance err_t_eq_dec : EqDecision err_t.
Proof. solve_decision. Defined.

(** ** Facts on the integer conversions *)

Lemma u8_range z : is_u8 (u8 z).
Proof. unfold is_u8, u8. apply Z.mod_pos_bound. lia. Qed.

Lemma u16_range z : is_u16 (u16 z).
Proof. unfold is_u16, u16. apply Z.mod_pos_bound. lia. Qed.

Lemma u32_range z : is_u32 (u32 z).
Proof. unfold is_u32, u32. apply Z.mod_pos_bound. lia. Qed.

Lemma u8_small z : 0 <= z < 256 -> u8 z = z.
Proof. intros. unfold u8. apply Z.mod_small. lia. Qed.

Lemma u16_small z : 0 <= z < 65536 -> u16 z = z.
Proof. intros. unfold u16. apply Z.mod_small. lia. Qed.

Lemma u32_small z : 0 <= z < 4294967296 -> u32 z = z.
Proof. intros. unfold u32. apply Z.mod_small. lia. Qed.

Lemma size_t_small z : 0 <= z < 18446744073709551616 -> size_t z = z.
Proof. intros. unfold size_t. apply Z.mod_small. lia. Qed.

(** [wrap_solve] closes linear goals in which conversions occur: it replaces
    each conversion by its quotient-and-remainder equations. *)
Ltac unfold_c :=
  unfold is_u8, is_u16, is_u32, u8, u16, u32, size_t in *;
  change (2 ^ 8) with 256 in *; change (2 ^ 16) with 65536 in *;
  change (2 ^ 32) with 4294967296 in *;
  change (2 ^ 64) with 18446744073709551616 in *.

Ltac wrap_solve := unfold_c; Z.div_mod_to_equations; lia.

Create HintDb wrap.
#[export] Hint Rewrite u8_small u16_small u32_small size_t_small using lia : wrap.
#[export] Hint Resolve u8_range u16_range u32_range : wrap.

(** Shifts and masks by constants, as arithmetic. *)
Lemma shiftl8 z : Z.shiftl z 8 = z * 256.
Proof. rewrite Z.shiftl_mul_pow2 by lia. reflexivity. Qed.

Lemma shiftl16 z : Z.shiftl z 16 = z * 65536.
Proof. rewrite Z.shiftl_mul_pow2 by lia. reflexivity. Qed.

Lemma shiftl24 z : Z.shiftl z 24 = z * 16777216.
Proof. rewrite Z.shiftl_mul_pow2 by lia. reflexivity. Qed.

Lemma shiftr8 z : Z.shiftr z 8 = z / 256.
Proof. rewrite Z.shiftr_div_pow2 by lia. reflexivity. Qed.

Lemma shiftr16 z : Z.shiftr z 16 = z / 65536.
Proof. rewrite Z.shiftr_div_pow2 by lia. reflexivity. Qed.

Lemma shiftr24 z : Z.shiftr z 24 = z / 16777216.
Proof. rewrite Z.shiftr_div_pow2 by lia. reflexivity. Qed.

Lemma land_ff z : Z.land z 0xff = z mod 256.
Proof. change 0xff with (Z.ones 8). rewrite Z.land_ones by lia. reflexivity. Qed.

Lemma land_ffff z : Z.land z 0xffff = z mod 65536.
Proof. change 0xffff with (Z.ones 16). rewrite Z.land_ones by lia. reflexivity. Qed.

Lemma land_1 z : Z.land z 1 = z mod 2.
Proof. change 1 with (Z.ones 1). rewrite Z.land_ones by lia. reflexivity. Qed.

(** A disjoint [or] is a sum: the low operand is below [2^n], the high operand
    a multiple of it. *)
Lemma lor_disjoint_add n a b :
  0 <= n -> 0 <= a < 2 ^ n -> Z.lor a (Z.shiftl b n) = a + b * 2 ^ n.
Proof.
  intros Hn Ha. rewrite <- Z.shiftl_mul_pow2 by lia.
  rewrite <- Z.add_lor_land. enough (Z.land a (Z.shiftl b n) = 0) by lia.
  apply Z.bits_inj'. intros i Hi.
  rewrite Z.land_spec, Z.bits_0.
  destruct (decide (i < n)).
  - rewrite Z.shiftl_spec_low by lia. apply andb_false_r.
  - rewrite <- (Z.mod_small a (2 ^ n)) by lia.
    rewrite Z.mod_pow2_bits_high by lia. reflexivity.
Qed.

Lemma lor_disjoint_mul n a b :
  0 <= n -> 0 <= a < 2 ^ n -> Z.lor a (b * 2 ^ n) = a + b * 2 ^ n.
Proof.
  intros Hn Ha. rewrite <- Z.shiftl_mul_pow2 by lia.
  rewrite lor_disjoint_add, Z.shiftl_mul_pow2; lia.
Qed.

(** A mask that keeps the [w] bits above bit [n]. *)
Lemma land_field z n w :
  0 <= n -> 0 <= w -> Z.land z (Z.shiftl (Z.ones w) n) = (z / 2 ^ n) mod 2 ^ w * 2 ^ n.
Proof.
  intros Hn Hw. rewrite <- Z.land_ones, <- Z.shiftr_div_pow2, <- Z.shiftl_mul_pow2 by lia.
  rewrite Z.shiftl_land. apply Z.bits_inj'. intros i Hi.
  rewrite !Z.land_spec. destruct (decide (i < n)).
  - rewrite (Z.shiftl_spec_low (Z.ones w)) by lia. by rewrite !andb_false_r.
  - rewrite (Z.shiftl_spec (Z.shiftr z n)), Z.shiftr_spec by lia.
    f_equal. f_equal. lia.
Qed.

(** Clearing the low bits with a mask of the upper ones rounds down. *)
Lemma land_high w k x :
  0 <= k <= w -> 0 <= x < 2 ^ w -> Z.land x (2 ^ w - 2 ^ k) = x / 2 ^ k * 2 ^ k.
Proof.
  intros Hk Hx. replace (2 ^ w - 2 ^ k) with (Z.shiftl (Z.ones (w - k)) k).
  - rewrite land_field by lia. f_equal. apply Z.mod_small.
    assert (0 < 2 ^ k) by (apply Z.pow_pos_nonneg; lia).
    split; [apply Z.div_pos; lia|]. apply Z.div_lt_upper_bound; [lia|].
    rewrite <- Z.pow_add_r by lia. replace (k + (w - k)) with w by lia. lia.
  - rewrite Z.shiftl_mul_pow2, Z.ones_equiv, <- Z.sub_1_r, Z.mul_sub_distr_r, <- Z.pow_add_r by lia.
    replace (w - k + k) with w by lia. lia.
Qed.

(** ** Boolean conditions of the source *)

Lemma LWIP_ASSERT_ok why c : c = true -> LWIP_ASSERT why c = Ret tt.
Proof. by intros ->. Qed.

Lemma LWIP_ERROR_ok why c : c = true -> LWIP_ERROR why c = Ret tt.
Proof. by intros ->. Qed.

(** Turns the boolean comparisons of the model into propositions. *)
Ltac bool_to_prop :=
  repeat match goal with
  | H : (_ <? _) = true |- _ => apply Z.ltb_lt in H
  | H : (_ <? _) = false |- _ => apply Z.ltb_ge in H
  | H : (_ <=? _) = true |- _ => apply Z.leb_le in H
  | H : (_ <=? _) = false |- _ => apply Z.leb_gt in H
  | H : (_ =? _) = true |- _ => apply Z.eqb_eq in H
  | H : (_ =? _) = false |- _ => apply Z.eqb_neq in H
  | H : (_ >? _) = _ |- _ => rewrite Z.gtb_ltb in H
  | H : (_ >=? _) = _ |- _ => rewrite Z.geb_leb in H
  | H : (_ && _) = true |- _ => apply andb_true_iff in H as [? ?]
  | H : (_ || _) = false |- _ => apply orb_false_iff in H as [? ?]
  | H : negb _ = true |- _ => apply negb_true_iff in H
  | H : negb _ = false |- _ => apply negb_false_iff in H
  end.

(** Case analysis on the condition of the first [if] of the goal. *)
Ltac case_if :=
  match goal with
  | |- context [if ?c then _ else _] =>
      lazymatch type of c with
      | bool => let E := fresh "E" in destruct c eqn:E; bool_to_prop
      | _ => destruct c
      end
  end.
