(* ===== verification/Def.v ===== *)
(** * Byte order and string helpers (src/lwip/src/core/def.c, include/lwip/def.h)

    A C string is the [list Z] of its characters up to, and without, the
    terminating 0 (character codes 0..255); reading past the last character
    therefore yields 0.  A pointer into a string that the code returns is the
    offset from the start of that string.  The target is little endian. *)

From S2P Require Import Prelude.

#[local] Open Scope Z_scope.
#[local] Coercion Z.of_nat : nat >-> Z.

(** ** Byte order *)

Definition PP_HTONS (x : Z) : Z :=
  u16 (Z.lor (Z.shiftl (Z.land x 0x00ff) 8) (Z.shiftr (Z.land x 0xff00) 8)).

Definition PP_HTONL (x : Z) : Z :=
  Z.lor (Z.lor (Z.lor (u32 (Z.shiftl (Z.land x 0x000000ff) 24))
                      (u32 (Z.shiftl (Z.land x 0x0000ff00) 8)))
               (Z.shiftr (Z.land x 0x00ff0000) 8))
        (Z.shiftr (Z.land x 0xff000000) 24).

Definition lwip_htons (n : Z) : Z := PP_HTONS n.
Definition lwip_htonl (n : Z) : Z := PP_HTONL n.

(** The bytes of a 32 bit object in memory, lowest address first, and the
    object those bytes make up. *)
Definition le_bytes4 (x : Z) : list Z :=
  [x mod 256; x / 256 mod 256; x / 65536 mod 256; x / 16777216 mod 256].
Definition le_word4 (b0 b1 b2 b3 : Z) : Z := b0 + b1 * 256 + b2 * 65536 + b3 * 16777216.

(** ** Strings *)

(** C library [strncmp]: compares at most [n] characters. *)
Fixpoint strncmp (s1 s2 : list Z) (n : nat) : Z :=
  match n with
  | O => 0
  | S n =>
      let c1 := hd 0 s1 in
      let c2 := hd 0 s2 in
      if negb (c1 =? c2) then c1 - c2
      else if c1 =? 0 then 0 else strncmp (tl s1) (tl s2) n
  end.

(** The [for] loop of lwip_strnstr: [p] is the rest of the buffer, [off] its
    offset from the start. *)
Fixpoint strnstr_loop (token : list Z) (n : Z) (p : list Z) (off : Z) : option Z :=
  match p with
  | [] => None
  | c :: p' =>
      if off + Z.of_nat (length token) <=? n then
        if (c =? hd 0 token) && (strncmp p token (length token) =? 0) then Some off
        else strnstr_loop token n p' (off + 1)
      else None
  end.

Definition lwip_strnstr (buffer token : list Z) (n : Z) : option Z :=
  let tokenlen := Z.of_nat (length token) in
  if tokenlen =? 0 then Some 0 else strnstr_loop token n buffer 0.

(** The body of the comparison loops: [true] when the loop returns 1. *)
Definition chars_differ (c1 c2 : Z) : bool :=
  if negb (c1 =? c2) then
    let c1_upc := Z.lor c1 0x20 in
    if (0x61 <=? c1_upc) && (c1_upc <=? 0x7a) then
      let c2_upc := Z.lor c2 0x20 in
      negb (c1_upc =? c2_upc)
    else true
  else false.

Fixpoint lwip_stricmp (str1 str2 : list Z) : Z :=
  let c1 := hd 0 str1 in
  let c2 := hd 0 str2 in
  if chars_differ c1 c2 then 1
  else match str1 with
       | [] => 0
       | _ :: str1' => lwip_stricmp str1' (tl str2)
       end.

Fixpoint lwip_strnicmp (str1 str2 : list Z) (len : Z) : Z :=
  let c1 := hd 0 str1 in
  let c2 := hd 0 str2 in
  if chars_differ c1 c2 then 1
  else
    let len := size_t (len - 1) in
    match str1 with
    | [] => 0
    | _ :: str1' => if negb (len =? 0) then lwip_strnicmp str1' (tl str2) len else 0
    end.

(** ** Number formatting *)

(** The digit loop of lwip_itoa.  [tmp] and [res] are offsets into [buf]. *)
Fixpoint itoa_loop (fuel : nat) (n : Z) (tmp res : nat) (buf : list Z) : Z * nat * list Z :=
  match fuel with
  | O => (n, tmp, buf)
  | S fuel =>
      if negb (n =? 0) && Nat.ltb res tmp then
        let val := 0x30 + Z.rem n 10 in
        let tmp := Nat.pred tmp in
        itoa_loop fuel (Z.quot n 10) tmp res (<[tmp := val]> buf)
      else (n, tmp, buf)
  end.

(** memmove within one buffer: [len] bytes from offset [src] to [dst]. *)
Definition memmove_within (buf : list Z) (dst src len : nat) : list Z :=
  take dst buf ++ take len (drop src buf) ++ drop (dst + len) buf.

(** lwip_itoa on the buffer [result] of [bufsize] bytes; [None] where the
    negation of [number] overflows [int]. *)
Definition lwip_itoa (result : list Z) (number : Z) : option (list Z) :=
  let bufsize := length result in
  if number =? - 2 ^ 31 then None
  else
    let n := if 0 <=? number then number else - number in
    if Nat.ltb bufsize 2 then
      Some (if Nat.eqb bufsize 1 then <[0%nat := 0]> result else result)
    else
      let '(res, buf) :=
        if number <? 0 then (1%nat, <[0%nat := 0x2d]> result) else (0%nat, result) in
      let tmp := Nat.pred bufsize in
      let buf := <[tmp := 0]> buf in
      let '(n, tmp, buf) := itoa_loop bufsize n tmp res buf in
      if negb (n =? 0) then Some (<[0%nat := 0]> buf)
      else if default 0 (buf !! tmp) =? 0 then
        Some (<[S res := 0]> (<[res := 0x30]> buf))
      else Some (memmove_within buf res tmp (bufsize - tmp)).

(** The C string held by a buffer. *)
Fixpoint cstr (buf : list Z) : list Z :=
  match buf with
  | [] => []
  | c :: buf => if c =? 0 then [] else c :: cstr buf
  end.

(** ** Specifications *)

(** ASCII lower case. *)
Definition tolower (c : Z) : Z := if (0x41 <=? c) && (c <=? 0x5a) then c + 0x20 else c.

(** A character of a C string: not the terminator. *)
Definition is_char (c : Z) : Prop := 1 <= c < 256.

(** The value of a string of decimal digits, read left to right. *)
Definition dec_value (s : list Z) : Z := fold_left (λ a c, a * 10 + (c - 0x30)) s 0.

Definition is_digit (c : Z) : Prop := 0x30 <= c <= 0x39.

(** [atoi] on what lwip_itoa prints: an optional sign and then digits. *)
Definition atoi (s : list Z) : Z :=
  match s with
  | c :: s' => if c =? 0x2d then - dec_value s' else dec_value s
  | [] => 0
  end.

(** [token] occurs in [buffer] at offset [i]. *)
Definition occurs_at (token buffer : list Z) (i : nat) : Prop :=
  take (length token) (drop i buffer) = token.

(** ** Lemmas: byte order *)

Lemma PP_HTONS_arith x : is_u16 x -> PP_HTONS x = x mod 256 * 256 + x / 256.
Proof.
  intros Hx. unfold PP_HTONS. change 0xff00 with (Z.shiftl (Z.ones 8) 8).
  rewrite land_ff, land_field, shiftr8 by lia. change (2 ^ 8) with 256.
  rewrite Z.div_mul by lia. rewrite Z.lor_comm, lor_disjoint_add by wrap_solve.
  wrap_solve.
Qed.

Lemma PP_HTONL_arith x :
  is_u32 x ->
  PP_HTONL x = le_word4 (x / 16777216) (x / 65536 mod 256) (x / 256 mod 256) (x mod 256).
Proof.
  intros Hx. unfold PP_HTONL, le_word4.
  change 0xff00 with (Z.shiftl (Z.ones 8) 8). change 0xff0000 with (Z.shiftl (Z.ones 8) 16).
  change 0xff000000 with (Z.shiftl (Z.ones 8) 24).
  rewrite land_ff, !land_field, shiftr8, shiftr24, shiftl8, shiftl24 by lia.
  change (2 ^ 8) with 256; change (2 ^ 16) with 65536; change (2 ^ 24) with 16777216.
  rewrite !u32_small by wrap_solve.
  replace (x / 256 mod 256 * 256 * 256) with (x / 256 mod 256 * 2 ^ 16) by lia.
  replace (x / 65536 mod 256 * 65536 / 256) with (x / 65536 mod 256 * 2 ^ 8)
    by (change (2 ^ 8) with 256; Z.div_mod_to_equations; lia).
  rewrite Z.div_mul by lia. rewrite Z.lor_comm.
  rewrite (Z.lor_comm (Z.lor _ _) (_ * 2 ^ 8)), Z.lor_assoc.
  rewrite lor_disjoint_mul by wrap_solve.
  rewrite (Z.lor_comm (x mod 256 * 16777216)), Z.lor_assoc.
  rewrite lor_disjoint_mul by wrap_solve.
  change 16777216 with (2 ^ 24) at 2. rewrite lor_disjoint_mul by wrap_solve.
  wrap_solve.
Qed.

Lemma u32_split x :
  is_u32 x -> exists b0 b1 b2 b3, is_u8 b0 /\ is_u8 b1 /\ is_u8 b2 /\ is_u8 b3
                                  /\ x = le_word4 b0 b1 b2 b3.
Proof.
  intros Hx. exists (x mod 256), (x / 256 mod 256), (x / 65536 mod 256), (x / 16777216).
  unfold le_word4. repeat split; wrap_solve.
Qed.

Section Word4.
Context (b0 b1 b2 b3 : Z) (H0 : is_u8 b0) (H1 : is_u8 b1) (H2 : is_u8 b2) (H3 : is_u8 b3).

Lemma le_word4_bytes :
  le_word4 b0 b1 b2 b3 mod 256 = b0 /\ le_word4 b0 b1 b2 b3 / 256 mod 256 = b1
  /\ le_word4 b0 b1 b2 b3 / 65536 mod 256 = b2 /\ le_word4 b0 b1 b2 b3 / 16777216 = b3.
Proof. unfold le_word4. repeat split; wrap_solve. Qed.

Lemma le_word4_range : is_u32 (le_word4 b0 b1 b2 b3).
Proof. unfold le_word4. wrap_solve. Qed.

Lemma le_bytes4_word4 : le_bytes4 (le_word4 b0 b1 b2 b3) = [b0; b1; b2; b3].
Proof.
  destruct le_word4_bytes as (E0 & E1 & E2 & E3). unfold le_bytes4.
  rewrite E0, E1, E2, E3. repeat f_equal. wrap_solve.
Qed.

Lemma PP_HTONL_word4 : PP_HTONL (le_word4 b0 b1 b2 b3) = le_word4 b3 b2 b1 b0.
Proof.
  destruct le_word4_bytes as (E0 & E1 & E2 & E3).
  rewrite PP_HTONL_arith by apply le_word4_range. by rewrite E0, E1, E2, E3.
Qed.

End Word4.

Lemma lwip_htons_range x : is_u16 x -> is_u16 (lwip_htons x).
Proof. intros. unfold lwip_htons. rewrite PP_HTONS_arith by done. wrap_solve. Qed.

Lemma lwip_htonl_range x : is_u32 x -> is_u32 (lwip_htonl x).
Proof.
  intros (b0 & b1 & b2 & b3 & ? & ? & ? & ? & ->)%u32_split. unfold lwip_htonl.
  rewrite PP_HTONL_word4 by done. by apply le_word4_range.
Qed.

Lemma lwip_htons_inv x : is_u16 x -> lwip_htons (lwip_htons x) = x.
Proof.
  intros Hx. pose proof (lwip_htons_range x Hx) as Hr. unfold lwip_htons in *.
  rewrite (PP_HTONS_arith (PP_HTONS x)), PP_HTONS_arith by done. wrap_solve.
Qed.

Lemma lwip_htonl_inv x : is_u32 x -> lwip_htonl (lwip_htonl x) = x.
Proof.
  intros (b0 & b1 & b2 & b3 & ? & ? & ? & ? & ->)%u32_split. unfold lwip_htonl.
  by rewrite !PP_HTONL_word4.
Qed.

Lemma le_bytes4_range x : Forall is_u8 (le_bytes4 x).
Proof. repeat constructor; wrap_solve. Qed.

Lemma lwip_htonl_bytes x : is_u32 x -> le_bytes4 (lwip_htonl x) = reverse (le_bytes4 x).
Proof.
  intros (b0 & b1 & b2 & b3 & ? & ? & ? & ? & ->)%u32_split. unfold lwip_htonl.
  rewrite PP_HTONL_word4, !le_bytes4_word4 by done. reflexivity.
Qed.

(** ** Lemmas: case-insensitive comparison *)

Lemma chars_differ_spec c1 c2 :
  0 <= c1 < 256 -> 0 <= c2 < 256 -> chars_differ c1 c2 = negb (tolower c1 =? tolower c2).
Proof.
  intros H1 H2.
  cut (forallb (λ i, forallb (λ j,
         bool_decide (chars_differ (Z.of_nat i) (Z.of_nat j)
                      = negb (tolower (Z.of_nat i) =? tolower (Z.of_nat j)))) (seq 0 256))
       (seq 0 256) = true); [|vm_compute; reflexivity].
  rewrite forallb_forall. intros H.
  specialize (H (Z.to_nat c1)). rewrite forallb_forall in H.
  specialize (H ltac:(apply in_seq; lia) (Z.to_nat c2) ltac:(apply in_seq; lia)).
  rewrite bool_decide_eq_true in H. by rewrite !Z2Nat.id in H by lia.
Qed.

Lemma tolower_pos c : is_char c -> tolower c <> 0.
Proof. unfold is_char, tolower. intros. case_if; lia. Qed.

Lemma hd_char_range s : Forall is_char s -> 0 <= hd 0 s < 256.
Proof. destruct 1; cbn; unfold is_char in *; lia. Qed.

Lemma tl_chars s : Forall is_char s -> Forall is_char (tl s).
Proof. by destruct 1. Qed.

Lemma stricmp_eq s1 s2 :
  Forall is_char s1 -> Forall is_char s2 ->
  lwip_stricmp s1 s2 = if decide (map tolower s1 = map tolower s2) then 0 else 1.
Proof.
  intros H1. revert s2. induction H1 as [|c1 s1 Hc1 H1 IH]; intros s2 H2; cbn [lwip_stricmp].
  - rewrite chars_differ_spec; [|cbn; lia|by apply hd_char_range].
    destruct H2 as [|c2 s2 Hc2 H2]; [done|]. cbn.
    pose proof (tolower_pos c2 Hc2). change (tolower 0) with 0.
    destruct (tolower c2) eqn:E; [lia|..]; cbn; by case_decide.
  - rewrite chars_differ_spec; [|unfold is_char in Hc1; cbn; lia|by apply hd_char_range].
    destruct H2 as [|c2 s2 Hc2 H2]; cbn.
    + pose proof (tolower_pos c1 Hc1). change (tolower 0) with 0.
      destruct (tolower c1 =? 0) eqn:E; bool_to_prop; [lia|]. cbn. by case_decide.
    + destruct (tolower c1 =? tolower c2) eqn:E; bool_to_prop; cbn.
      * rewrite IH by done. repeat case_decide; congruence.
      * case_decide; congruence.
Qed.

Lemma strnicmp_eq s1 s2 len :
  Forall is_char s1 -> Forall is_char s2 -> 0 < len < 2 ^ 64 ->
  lwip_strnicmp s1 s2 len =
  if decide (map tolower (take (Z.to_nat len) s1) = map tolower (take (Z.to_nat len) s2))
  then 0 else 1.
Proof.
  intros H1. revert s2 len. induction H1 as [|c1 s1 Hc1 H1 IH]; intros s2 len H2 Hlen;
    cbn [lwip_strnicmp]; destruct (Z.to_nat len) as [|n] eqn:En; try lia.
  - rewrite chars_differ_spec; [|cbn; lia|by apply hd_char_range].
    destruct H2 as [|c2 s2 Hc2 H2]; [done|]. cbn.
    pose proof (tolower_pos c2 Hc2). change (tolower 0) with 0.
    destruct (tolower c2) eqn:E; [lia|..]; cbn; by case_decide.
  - rewrite chars_differ_spec; [|unfold is_char in Hc1; cbn; lia|by apply hd_char_range].
    destruct H2 as [|c2 s2 Hc2 H2]; cbn.
    + pose proof (tolower_pos c1 Hc1). change (tolower 0) with 0.
      destruct (tolower c1 =? 0) eqn:E; bool_to_prop; [lia|]. cbn. by case_decide.
    + rewrite size_t_small by lia.
      destruct (tolower c1 =? tolower c2) eqn:E; bool_to_prop; cbn; [|case_decide; congruence].
      destruct (len - 1 =? 0) eqn:E1; bool_to_prop; cbn.
      * assert (n = 0%nat) as -> by lia. rewrite !take_0. case_decide; cbn in *; congruence.
      * rewrite IH by (done || lia). replace (Z.to_nat (len - 1)) with n by lia.
        repeat case_decide; congruence.
Qed.

(** ** Lemmas: substring search *)

Lemma strncmp_zero s1 s2 n :
  Forall is_char s2 -> (n <= length s2)%nat ->
  strncmp s1 s2 n = 0 <-> take n s1 = take n s2.
Proof.
  revert s1 s2. induction n as [|n IH]; intros s1 s2 H2 Hn; [done|].
  destruct H2 as [|c2 s2 Hc2 H2]; cbn in Hn; [lia|]. cbn [strncmp hd tl].
  destruct s1 as [|c1 s1]; cbn [hd tl].
  - unfold is_char in Hc2. destruct (0 =? c2) eqn:E; bool_to_prop; [lia|]. cbn [negb].
    split; [lia|done].
  - destruct (c1 =? c2) eqn:E; bool_to_prop; cbn [negb]; subst.
    + unfold is_char in Hc2. destruct (c2 =? 0) eqn:E; bool_to_prop; [lia|].
      rewrite IH by (done || lia). cbn [take firstn]. split; [congruence|by intros [=]].
    + split; [lia|]. cbn. congruence.
Qed.

Lemma strnstr_loop_spec token n p off r :
  Forall is_char token -> token <> [] ->
  strnstr_loop token n p off = r ->
  match r with
  | Some k => exists i : nat, k = off + i /\ occurs_at token p i
              /\ off + i + length token <= n
              /\ forall j, (j < i)%nat -> ~ occurs_at token p j
  | None => forall i : nat, off + i + length token <= n -> ~ occurs_at token p i
  end.
Proof.
  intros Ht Hne. revert off r. induction p as [|c p IH]; intros off r <-; cbn [strnstr_loop].
  - intros i _ Ho. unfold occurs_at in Ho. rewrite drop_nil, take_nil in Ho. congruence.
  - assert (Hocc : (c =? hd 0 token) && (strncmp (c :: p) token (length token) =? 0) = true
                   <-> occurs_at token (c :: p) 0).
    { unfold occurs_at. rewrite andb_true_iff, !Z.eqb_eq, strncmp_zero by (done || lia).
      rewrite (take_ge token) by lia. cbn [drop]. split; [tauto|]. intros Ho.
      split; [|done]. destruct token; [done|]. by injection Ho. }
    destruct (off + length token <=? n) eqn:E1; bool_to_prop.
    + destruct ((c =? hd 0 token) && _) eqn:E2.
      * exists 0%nat. split; [lia|]. split; [by apply Hocc|]. split; [lia|]. intros; lia.
      * assert (H0 : ~ occurs_at token (c :: p) 0) by (intros Ho; apply Hocc in Ho; congruence).
        specialize (IH (off + 1) _ eq_refl).
        destruct (strnstr_loop token n p (off + 1)) as [k|].
        -- destruct IH as (i & -> & Ho & Hn & Hmin). exists (S i). split; [lia|].
           split; [done|]. split; [lia|]. intros [|j] Hj; [done|]. apply Hmin. lia.
        -- intros [|i] Hi; [done|]. apply IH. lia.
    + intros i Hi. lia.
Qed.

(** ** Lemmas: number formatting *)

Lemma dec_value_acc s a :
  fold_left (λ a c, a * 10 + (c - 0x30)) s a = a * 10 ^ length s + dec_value s.
Proof.
  unfold dec_value. revert a. induction s as [|c s IH]; intros a; cbn [fold_left length]; [lia|].
  rewrite IH, (IH (0 * 10 + _)), Nat2Z.inj_succ, Z.pow_succ_r by lia. lia.
Qed.

Lemma dec_value_cons c s : dec_value (c :: s) = (c - 0x30) * 10 ^ length s + dec_value s.
Proof. unfold dec_value at 1. cbn [fold_left]. rewrite dec_value_acc. lia. Qed.

Lemma dec_value_nonneg s : Forall is_digit s -> 0 <= dec_value s < 10 ^ length s.
Proof.
  induction 1 as [|c s Hc H IH]; [done|]. rewrite dec_value_cons. cbn [length].
  rewrite Nat2Z.inj_succ, Z.pow_succ_r by lia. unfold is_digit in Hc. nia.
Qed.

Lemma cstr_app s buf : Forall (λ c, c <> 0) s -> cstr (s ++ 0 :: buf) = s.
Proof.
  induction 1 as [|c s Hc H IH]; cbn; [done|].
  destruct (c =? 0) eqn:E; bool_to_prop; [done|]. by rewrite IH.
Qed.

Lemma digits_nonzero s : Forall is_digit s -> Forall (λ c, c <> 0) s.
Proof. intros H. eapply Forall_impl; [exact H|]. unfold is_digit. lia. Qed.

Lemma dec_value_snoc s c : dec_value (s ++ [c]) = dec_value s * 10 + (c - 0x30).
Proof. unfold dec_value. by rewrite fold_left_app. Qed.

(** Writing just in front of the part of a list that is kept. *)
Lemma drop_insert_pred (buf : list Z) tmp x :
  (0 < tmp < length buf)%nat ->
  drop (Nat.pred tmp) (<[Nat.pred tmp := x]> buf) = x :: drop tmp buf.
Proof.
  intros Ht. rewrite insert_take_drop by lia.
  rewrite drop_app_ge by (rewrite length_take; lia).
  rewrite length_take, Nat.min_l, Nat.sub_diag by lia. cbn [drop skipn].
  by replace (S (Nat.pred tmp)) with tmp by lia.
Qed.

(** The loop writes the low digits of [n] in front of [tmp], until the number
    is used up or the buffer is full. *)
Lemma itoa_loop_spec fuel n tmp res buf :
  0 <= n -> (res <= tmp < length buf)%nat -> (tmp - res <= fuel)%nat ->
  exists n' ds,
    itoa_loop fuel n tmp res buf
    = (n', (tmp - length ds)%nat, take (tmp - length ds) buf ++ ds ++ drop tmp buf)
    /\ Forall is_digit ds /\ (length ds <= tmp - res)%nat
    /\ 0 <= n' /\ n = n' * 10 ^ length ds + dec_value ds
    /\ (n' = 0 \/ (tmp - length ds = res)%nat).
Proof.
  revert n tmp buf. induction fuel as [|fuel IH]; intros n tmp buf Hn Ht Hf.
  - exists n, []. cbn. rewrite Nat.sub_0_r, take_drop. repeat split; try lia. constructor.
  - cbn [itoa_loop].
    destruct (negb (n =? 0) && Nat.ltb res tmp) eqn:E.
    + bool_to_prop. apply Nat.ltb_lt in H0.
      destruct (IH (Z.quot n 10) (Nat.pred tmp) (<[Nat.pred tmp := 0x30 + Z.rem n 10]> buf))
        as (n' & ds & E' & Hd & Hl & Hn' & Hv & Hend).
      * apply Z.quot_pos; lia.
      * rewrite length_insert. lia.
      * lia.
      * exists n', (ds ++ [0x30 + Z.rem n 10]). rewrite E', length_app. cbn [length].
        replace (tmp - (length ds + 1))%nat with (Nat.pred tmp - length ds)%nat by lia.
        assert (Hr : 0 <= Z.rem n 10 < 10) by (apply Z.rem_bound_pos; lia).
        repeat split; try lia.
        -- f_equal. rewrite take_insert_ge by lia. f_equal.
           by rewrite <- app_assoc, drop_insert_pred by lia.
        -- apply Forall_app. split; [done|]. repeat constructor; unfold is_digit; lia.
        -- rewrite dec_value_snoc, Nat2Z.inj_add, Z.pow_add_r by lia.
           pose proof (Z.quot_rem' n 10). change (10 ^ 1%nat) with 10. lia.
    + exists n, []. cbn. rewrite Nat.sub_0_r, take_drop.
      repeat split; try lia; [constructor|]. apply andb_false_iff in E as [E|E].
      * bool_to_prop. lia.
      * apply Nat.ltb_ge in E. lia.
Qed.

(** The magnitude fits the digits that remain beside the sign and the
    terminating 0. *)
Definition itoa_fits (bufsize : nat) (number : Z) : Prop :=
  Z.abs number < 10 ^ (bufsize - 1 - if number <? 0 then 1 else 0).

(** What lwip_itoa leaves in the buffer once the sign is written at offset
    [res] and the terminator at the end. *)
Lemma itoa_body_spec buf res n :
  0 <= n -> (2 <= length buf)%nat -> (res <= 1)%nat ->
  default 1 (buf !! Nat.pred (length buf)) = 0 ->
  exists n' ds,
    itoa_loop (length buf) n (Nat.pred (length buf)) res buf
    = (n', (Nat.pred (length buf) - length ds)%nat,
       take (Nat.pred (length buf) - length ds) buf ++ ds ++ [0])
    /\ Forall is_digit ds /\ (length ds <= Nat.pred (length buf) - res)%nat
    /\ 0 <= n' /\ n = n' * 10 ^ length ds + dec_value ds
    /\ (n' = 0 \/ (Nat.pred (length buf) - length ds = res)%nat).
Proof.
  intros Hn Hl Hr Hz.
  destruct (itoa_loop_spec (length buf) n (Nat.pred (length buf)) res buf)
    as (n' & ds & E & H); try lia.
  exists n', ds. rewrite E. split; [|done]. do 2 f_equal. f_equal.
  destruct (buf !! Nat.pred (length buf)) as [z|] eqn:Ez; cbn in Hz; [|lia]. subst z.
  rewrite (drop_S _ 0 _ Ez). f_equal. apply drop_ge. lia.
Qed.

(** The printed string: the sign bytes [sg] in front of the digits. *)
Section ItoaPrint.
Context (sg buf : list Z) (n : Z).
Context (Hn : 0 <= n) (Hsg : (length sg <= 1)%nat) (Hbuf : (1 <= length buf)%nat).
Context (H0 : n = 0 -> sg = []) (Hfull : (2 <= length (sg ++ buf))%nat).
Context (Hsgnz : Forall (λ c, c <> 0) sg) (Hlast : default 1 (last buf) = 0).

Definition itoa_finish (n' : Z) (tmp : nat) (b : list Z) : list Z :=
  if negb (n' =? 0) then <[0%nat := 0]> b
  else if default 0 (b !! tmp) =? 0 then <[S (length sg) := 0]> (<[length sg := 0x30]> b)
  else memmove_within b (length sg) tmp (length (sg ++ buf) - tmp).

(** The buffer after the loop: sign, untouched bytes, digits, terminator. *)
Lemma itoa_layout :
  exists n' ds junk,
    itoa_loop (length (sg ++ buf)) n (Nat.pred (length (sg ++ buf))) (length sg) (sg ++ buf)
    = (n', (length sg + length junk)%nat, sg ++ junk ++ ds ++ [0])
    /\ Forall is_digit ds /\ length buf = (length junk + length ds + 1)%nat
    /\ 0 <= n' /\ n = n' * 10 ^ length ds + dec_value ds
    /\ (n' = 0 \/ junk = []).
Proof.
  destruct (itoa_body_spec (sg ++ buf) (length sg) n) as (n' & ds & E & Hd & Hl & Hn' & Hv & Hend);
    try done.
  { rewrite length_app, lookup_app_r by lia.
    replace (Nat.pred (length sg + length buf) - length sg)%nat with (Nat.pred (length buf)) by lia.
    by rewrite <- last_lookup. }
  rewrite length_app in *.
  exists n', ds, (take (Nat.pred (length buf) - length ds) buf).
  rewrite length_take, E. repeat split; try done; try lia.
  - f_equal; [f_equal; lia|].
    replace (Nat.pred (length sg + length buf) - length ds)%nat
      with (length sg + (Nat.pred (length buf) - length ds))%nat by lia.
    by rewrite take_app_add, <- app_assoc.
  - destruct Hend as [?|Hend]; [by left|right].
    replace (Nat.pred (length buf) - length ds)%nat with 0%nat by lia. apply take_0.
Qed.

Lemma itoa_finish_spec n' ds junk :
  Forall is_digit ds -> length buf = (length junk + length ds + 1)%nat ->
  0 <= n' -> n = n' * 10 ^ length ds + dec_value ds -> n' = 0 \/ junk = [] ->
  let out := itoa_finish n' (length sg + length junk) (sg ++ junk ++ ds ++ [0]) in
  length out = length (sg ++ buf)
  /\ (n < 10 ^ (length buf - 1) ->
        exists ds', cstr out = sg ++ ds' /\ Forall is_digit ds' /\ ds' <> [] /\ dec_value ds' = n)
  /\ (10 ^ (length buf - 1) <= n -> cstr out = []).
Proof.
  intros Hd Hl Hn' Hv Hend out. subst out. unfold itoa_finish.
  pose proof (dec_value_nonneg ds Hd) as Hb.
  destruct (n' =? 0) eqn:E; bool_to_prop; cbn [negb].
  - subst n'. assert (Hle : n < 10 ^ (length buf - 1)).
    { eapply Z.lt_le_trans; [|apply (Z.pow_le_mono_r 10 (length ds))]; lia. }
    rewrite !lookup_app_r by lia. replace (_ - _ - _)%nat with 0%nat by lia.
    destruct ds as [|d ds]; cbn [app lookup list_lookup default from_option id].
    + assert (n = 0) as -> by (cbn in Hv; lia). rewrite (H0 eq_refl) in *. cbn in Hfull.
      destruct junk as [|j0 [|j1 junk]]; cbn in Hl; [lia|..]; cbn.
      * repeat split; [lia| |lia]. exists [0x30]. repeat constructor; try done; unfold is_digit; lia.
      * rewrite length_app. cbn. repeat split; [lia| |lia].
        exists [0x30]. repeat constructor; try done; unfold is_digit; lia.
    + inversion Hd; subst. unfold is_digit in H2.
      replace (d =? 0) with false by lia.
      unfold memmove_within. cbn [length] in Hl.
      rewrite take_app_length, drop_app_add', drop_app_length by lia.
      rewrite (take_ge (d :: ds ++ [0])) by (cbn; rewrite !length_app in *; cbn; lia).
      split; [|split; [|lia]].
      * rewrite !length_app, length_drop, !length_app. cbn. rewrite !length_app. cbn. lia.
      * intros _. exists (d :: ds). split; [|done].
        rewrite <- (app_assoc (d :: ds) [0]), app_assoc. apply cstr_app.
        apply Forall_app. split; [done|]. by apply digits_nonzero.
  - destruct Hend as [? | ->]; [lia|]. cbn [app length] in *.
    assert (10 ^ length ds <= n) by nia.
    replace (length buf - 1) with (Z.of_nat (length ds)) by lia.
    rewrite length_insert, !length_app. cbn. split; [lia|]. split; [lia|]. intros _.
    destruct sg, ds; done.
Qed.

End ItoaPrint.

Lemma last_terminated (buf : list Z) i :
  i = Nat.pred (length buf) -> (1 <= length buf)%nat -> default 1 (last (<[i := 0]> buf)) = 0.
Proof.
  intros -> Hl. rewrite last_lookup, length_insert, list_lookup_insert_eq by lia. done.
Qed.

(** lwip_itoa, on a buffer of at least two bytes and a number whose negation
    is an [int], in terms of the two steps above. *)
Lemma lwip_itoa_unfold result number :
  (2 <= length result)%nat -> - 2 ^ 31 < number ->
  exists sg buf,
    sg = (if number <? 0 then [0x2d] else []) /\ length (sg ++ buf) = length result
    /\ default 1 (last buf) = 0
    /\ lwip_itoa result number =
       let '(n', tmp, b) := itoa_loop (length (sg ++ buf)) (Z.abs number)
                              (Nat.pred (length (sg ++ buf))) (length sg) (sg ++ buf) in
       Some (itoa_finish sg buf n' tmp b).
Proof.
  intros Hl Hmin. unfold lwip_itoa.
  replace (number =? - 2 ^ 31) with false by lia.
  replace (Nat.ltb (length result) 2) with false by (symmetry; apply Nat.ltb_ge; lia).
  replace (if 0 <=? number then number else - number) with (Z.abs number) by (case_if; lia).
  destruct (number <? 0) eqn:E.
  - destruct result as [|r result]; cbn in Hl; [lia|].
    exists [0x2d], (<[Nat.pred (length result) := 0]> result).
    split; [done|]. split; [cbn; by rewrite length_insert|].
    split; [apply last_terminated; cbn; lia|].
    cbn [app length Nat.pred insert list_insert].
    replace (<[length result:=0]> (0x2d :: result))
      with (0x2d :: <[Nat.pred (length result):=0]> result)
      by (destruct result; cbn in *; [lia|done]).
    rewrite length_insert. destruct (itoa_loop _ _ _ _ _) as [[n' tmp] b].
    unfold itoa_finish. cbn [app length]. rewrite length_insert. by repeat case_if.
  - exists [], (<[Nat.pred (length result) := 0]> result).
    split; [done|]. split; [cbn; by rewrite length_insert|].
    split; [apply last_terminated; cbn; lia|].
    cbn [app length]. rewrite length_insert.
    destruct (itoa_loop _ _ _ _ _) as [[n' tmp] b].
    unfold itoa_finish. cbn [app length]. rewrite length_insert. by repeat case_if.
Qed.

(** ** Properties *)

(** lwip_itoa writes only inside its buffer; when the magnitude fits, the
    string left in the buffer reads back as the number, and otherwise the
    buffer holds the empty string. *)
Theorem lwip_itoa_correct result number :
  (2 <= length result)%nat -> - 2 ^ 31 < number < 2 ^ 31 ->
  exists out, lwip_itoa result number = Some out
    /\ length out = length result
    /\ (itoa_fits (length result) number -> atoi (cstr out) = number /\ cstr out <> [])
    /\ (~ itoa_fits (length result) number -> cstr out = []).
Proof.
  intros Hl Hr. destruct (lwip_itoa_unfold result number) as (sg & buf & Hsg & Hlen & Hlast & ->);
    [done|lia|].
  assert (Hsl : length sg = if number <? 0 then 1%nat else 0%nat) by (subst sg; by case_if).
  rewrite length_app in Hlen.
  assert (H1 : (length sg <= 1)%nat) by (rewrite Hsl; case_if; lia).
  assert (H2 : (1 <= length buf)%nat) by lia.
  assert (H3 : (2 <= length (sg ++ buf))%nat) by (rewrite length_app; lia).
  assert (H4 : Z.abs number = 0 -> sg = []) by (intros; subst sg; case_if; [lia|done]).
  assert (H5 : Forall (λ c, c <> 0) sg) by (subst sg; case_if; by repeat constructor).
  destruct (itoa_layout sg buf (Z.abs number)) as (n' & ds & junk & -> & Hd & Hb & Hn' & Hv & Hend);
    try done; [lia|].
  destruct (itoa_finish_spec sg buf (Z.abs number)) with (n' := n') (ds := ds) (junk := junk)
    as (Hlo & Hok & Hbad); try done; [lia|].
  rewrite length_app in Hlo.
  eexists. split; [reflexivity|]. split; [lia|].
  assert (Hex : itoa_fits (length result) number <-> Z.abs number < 10 ^ (length buf - 1)).
  { unfold itoa_fits. replace (length result - 1 - _) with (length buf - 1); [done|].
    rewrite Hsl in *. case_if; lia. }
  split; intros Hf; rewrite Hex in Hf; [|apply Hbad; lia].
  destruct (Hok Hf) as (ds' & -> & Hd' & Hne & Hval). subst sg.
  destruct ds' as [|d ds']; [done|]. case_if; cbn [app atoi].
  - rewrite Z.eqb_refl. split; [lia|done].
  - apply Forall_cons in Hd' as [Hdig _]. unfold is_digit in Hdig.
    replace (d =? 0x2d) with false by lia. split; [lia|done].
Qed.

Lemma lwip_itoa_correct_witness :
  exists out, lwip_itoa (replicate 6 7) (-1234) = Some out
    /\ length out = 6%nat
    /\ (itoa_fits 6 (-1234) -> atoi (cstr out) = -1234 /\ cstr out <> [])
    /\ (~ itoa_fits 6 (-1234) -> cstr out = []).
Proof. apply (lwip_itoa_correct (replicate 6 7) (-1234)); cbn; lia. Defined.

(** lwip_strnstr returns the first offset at which the token occurs within the
    first [n] bytes of the string, and NULL exactly when there is none. *)
Theorem lwip_strnstr_first buffer token n :
  Forall is_char token -> 0 <= n ->
  match lwip_strnstr buffer token n with
  | Some k => exists i : nat, k = i /\ occurs_at token buffer i
              /\ (token = [] \/ i + length token <= n)
              /\ forall j, (j < i)%nat -> ~ occurs_at token buffer j
  | None => forall i : nat, i + length token <= n -> ~ occurs_at token buffer i
  end.
Proof.
  intros Ht Hn. unfold lwip_strnstr. destruct token as [|c token].
  { cbn. exists 0%nat. unfold occurs_at. cbn. rewrite take_0. repeat split; auto; lia. }
  rewrite (proj2 (Z.eqb_neq (length (c :: token)) 0)) by (rewrite length_cons; lia).
  pose proof (strnstr_loop_spec (c :: token) n buffer 0 _ Ht ltac:(done) eq_refl) as H.
  destruct (strnstr_loop _ _ _ _) as [k|].
  - destruct H as (i & -> & Ho & Hle & Hmin). exists i. repeat split; auto; lia.
  - intros i Hi. apply H. lia.
Qed.

Lemma lwip_strnstr_first_witness :
  match lwip_strnstr [0x61; 0x62; 0x63; 0x62; 0x63] [0x62; 0x63] 5 with
  | Some k => exists i : nat, k = i /\ occurs_at [0x62; 0x63] [0x61; 0x62; 0x63; 0x62; 0x63] i
              /\ ([0x62; 0x63] = [] \/ i + 2%nat <= 5)
              /\ forall j, (j < i)%nat -> ~ occurs_at [0x62; 0x63] [0x61; 0x62; 0x63; 0x62; 0x63] j
  | None => forall i : nat, i + 2%nat <= 5 -> ~ occurs_at [0x62; 0x63] [0x61; 0x62; 0x63; 0x62; 0x63] i
  end.
Proof.
  apply (lwip_strnstr_first [0x61; 0x62; 0x63; 0x62; 0x63] [0x62; 0x63] 5); [|lia].
  repeat constructor; unfold is_char; lia.
Defined.

(** lwip_stricmp and lwip_strnicmp return 0 exactly when the strings (their
    first [len] characters, for a positive [len]) agree up to ASCII case, and 1
    otherwise. *)
Theorem lwip_stricmp_strnicmp_correct s1 s2 len :
  Forall is_char s1 -> Forall is_char s2 -> 0 < len < 2 ^ 64 ->
  lwip_stricmp s1 s2 = (if decide (map tolower s1 = map tolower s2) then 0 else 1)
  /\ lwip_strnicmp s1 s2 len =
     (if decide (map tolower (take (Z.to_nat len) s1) = map tolower (take (Z.to_nat len) s2))
      then 0 else 1).
Proof. intros. split; [by apply stricmp_eq|by apply strnicmp_eq]. Qed.

Lemma lwip_stricmp_strnicmp_correct_witness :
  lwip_stricmp [0x41; 0x62] [0x61; 0x43]
  = (if decide (map tolower [0x41; 0x62] = map tolower [0x61; 0x43]) then 0 else 1)
  /\ lwip_strnicmp [0x41; 0x62] [0x61; 0x43] 1 =
     (if decide (map tolower (take (Z.to_nat 1) [0x41; 0x62])
                 = map tolower (take (Z.to_nat 1) [0x61; 0x43])) then 0 else 1).
Proof.
  apply (lwip_stricmp_strnicmp_correct [0x41; 0x62] [0x61; 0x43] 1);
    repeat constructor; unfold is_char; lia.
Defined.

(** a comparison of at most 0 characters is not empty: the do-while loop of
    lwip_strnicmp compares the first characters, the counter wraps around and
    two strings that differ (even in their first character) compare unequal. *)
Theorem lwip_strnicmp_zero_len : lwip_strnicmp [0x61] [0x62] 0 = 1
  /\ lwip_strnicmp [0x61; 0x61] [0x61; 0x62] 0 = 1.
Proof. split; vm_compute; reflexivity. Qed.
