(* ===== verification/ListSeg.v ===== *)
(** * Linked lists of structures in memory

    A list of structures linked by a field that holds the address of the next one,
    in a map from addresses to structures. *)

From S2P Require Import Prelude Def.

#[local] Open Scope Z_scope.

Section ListSeg.
Context {A : Type} (next : A -> Z).

(** From [p] the links run through the structures [l] and end at [e]. *)
Fixpoint lseg (m : gmap Z A) (p : Z) (l : list (Z * A)) (e : Z) : Prop :=
  match l with
  | [] => p = e
  | (a, x) :: l => p = a /\ m !! a = Some x /\ lseg m (next x) l e
  end.

(** The list with the structure [x] at [a]. *)
Definition upd (a : Z) (x : A) (l : list (Z * A)) : list (Z * A) :=
  (λ y, if decide (y.1 = a) then (a, x) else y) <$> l.

Lemma lseg_app m p l1 l2 e : lseg m p (l1 ++ l2) e <-> exists q, lseg m p l1 q /\ lseg m q l2 e.
Proof.
  revert p. induction l1 as [|[a x] l1 IH]; intros p; cbn.
  - split; [intros Hs; by exists p|by intros (q & -> & Hs)].
  - rewrite IH. split; [intros (-> & Ha & q & H1 & H2); by exists q|intros (q & (-> & Ha & H1) & H2); eauto].
Qed.

Lemma lseg_lookup m p l e a x : lseg m p l e -> (a, x) ∈ l -> m !! a = Some x.
Proof.
  revert p. induction l as [|[b y] l IH]; intros p Hs Hin; [by apply not_elem_of_nil in Hin|].
  destruct Hs as (-> & Hb & Hs). apply elem_of_cons in Hin as [[= -> ->]|Hin]; [done|by eapply IH].
Qed.

Lemma lseg_frame m m' p l e : lseg m p l e -> (forall a x, (a, x) ∈ l -> m' !! a = m !! a) -> lseg m' p l e.
Proof.
  revert p. induction l as [|[a x] l IH]; intros p Hs Hm; [done|]. destruct Hs as (-> & Ha & Hs). cbn.
  rewrite (Hm a x) by (by left). split_and!; [done|done|]. apply IH; [done|]. intros b y Hb. apply (Hm b y). by right.
Qed.

Lemma lseg_insert m p l e a x : lseg m p l e -> a ∉ l.*1 -> lseg (<[a := x]> m) p l e.
Proof.
  intros Hs Ha. eapply lseg_frame; [done|]. intros b y Hb. apply lookup_insert_ne. intros <-. apply Ha, list_elem_of_fmap. by exists (a, y).
Qed.

Lemma lseg_delete m p l e a : lseg m p l e -> a ∉ l.*1 -> lseg (delete a m) p l e.
Proof.
  intros Hs Ha. eapply lseg_frame; [done|]. intros b y Hb. apply lookup_delete_ne. intros <-. apply Ha, list_elem_of_fmap. by exists (a, y).
Qed.

(** A suffix is determined by where it starts. *)
Lemma lseg_det m p l l' e : lseg m p l e -> lseg m p l' e -> m !! e = None -> l = l'.
Proof.
  intros Hs Hs' He. revert p l' Hs Hs'. induction l as [|[a x] l IH]; intros p [|[a' x'] l'] Hs Hs'; cbn in *; [done|..].
  - destruct Hs' as (-> & Ha & _). subst. congruence.
  - destruct Hs as (-> & Ha & _). subst. congruence.
  - destruct Hs as (-> & Ha & Hs), Hs' as (<- & Ha' & Hs'). rewrite Ha in Ha'. injection Ha' as <-. f_equal. by eapply IH.
Qed.

Lemma lseg_NoDup m p l e : lseg m p l e -> m !! e = None -> NoDup l.*1.
Proof.
  intros Hs He. revert p Hs. induction l as [|[a x] l IH]; intros p Hs; [constructor|]. pose proof Hs as (-> & Ha & Hs').
  constructor; [|by eapply IH]. intros Hin. apply list_elem_of_fmap in Hin as ([b y] & Hab & Hin). cbn in Hab. subst b.
  apply list_elem_of_split in Hin as (l1 & l2 & ->). apply lseg_app in Hs' as (q & H1 & Hq). pose proof Hq as (-> & Hy & _).
  pose proof (lseg_det m a _ _ e Hs Hq He) as E. apply (f_equal length) in E. cbn in E. rewrite length_app in E. cbn in E. lia.
Qed.

Lemma lseg_length m p l e : lseg m p l e -> m !! e = None -> (length l <= size m)%nat.
Proof.
  intros Hs He. pose proof (lseg_NoDup _ _ _ _ Hs He) as Hn. rewrite <- (length_fmap fst).
  replace (size m) with (length (map_to_list m).*1) by (rewrite length_fmap; apply length_map_to_list).
  apply submseteq_length, NoDup_submseteq; [done|]. intros a Ha. apply list_elem_of_fmap in Ha as ([b x] & -> & Ha).
  apply list_elem_of_fmap. exists (b, x). split; [done|]. apply elem_of_map_to_list. by eapply lseg_lookup.
Qed.

Lemma upd_fst a x l : (upd a x l).*1 = l.*1.
Proof.
  unfold upd. rewrite <- list_fmap_compose. apply list_fmap_ext. intros i [b y] _. cbn. by case_decide.
Qed.

Lemma upd_id a x l : a ∉ l.*1 -> upd a x l = l.
Proof.
  intros Ha. unfold upd. rewrite <- (list_fmap_id l) at 2. apply list_fmap_ext. intros i [b y] Hi. cbn. case_decide; [|done].
  exfalso. apply Ha. subst. apply list_elem_of_fmap. exists (a, y). split; [done|]. by eapply list_elem_of_lookup_2.
Qed.

Lemma upd_length a x l : length (upd a x l) = length l.
Proof. apply length_fmap. Qed.

Lemma upd_app a x l1 l2 : upd a x (l1 ++ l2) = upd a x l1 ++ upd a x l2.
Proof. apply fmap_app. Qed.

Lemma upd_cons_eq a x y l : upd a x ((a, y) :: l) = (a, x) :: upd a x l.
Proof. unfold upd. cbn. by rewrite decide_True. Qed.

Lemma upd_cons_ne a b x y l : b <> a -> upd a x ((b, y) :: l) = (b, y) :: upd a x l.
Proof. intros Hb. unfold upd. cbn. by rewrite decide_False. Qed.

(** Changing one structure, but not its link. *)
Lemma lseg_upd m p l e a x x' :
  lseg m p l e -> m !! a = Some x -> next x' = next x -> lseg (<[a := x']> m) p (upd a x' l) e.
Proof.
  intros Hs Ha Hn. revert p Hs. induction l as [|[b y] l IH]; intros p Hs; [done|]. destruct Hs as (-> & Hb & Hs).
  destruct (decide (b = a)) as [->|Hne].
  - rewrite upd_cons_eq. cbn. rewrite lookup_insert_eq. split_and!; [done|done|]. rewrite Hn. rewrite Hb in Ha. injection Ha as ->. by apply IH.
  - rewrite upd_cons_ne by done. cbn. rewrite lookup_insert_ne by done. split_and!; [done|done|]. by apply IH.
Qed.
End ListSeg.

(** ** The addresses of the structures *)

Lemma keys_insert {A} (G : gmap Z A) a g : G !! a = None -> (map_to_list (<[a := g]> G)).*1 ≡ₚ a :: (map_to_list G).*1.
Proof. intros Ha. by rewrite map_to_list_insert. Qed.

Lemma keys_update {A} (G : gmap Z A) a g g' : G !! a = Some g -> (map_to_list (<[a := g']> G)).*1 ≡ₚ (map_to_list G).*1.
Proof.
  intros Ha. rewrite <- (insert_delete_id G a g) at 2 by done. rewrite <- insert_delete_eq.
  rewrite !map_to_list_insert by apply lookup_delete_eq. done.
Qed.

Lemma elem_of_keys {A} (G : gmap Z A) a : a ∈ (map_to_list G).*1 <-> is_Some (G !! a).
Proof.
  rewrite list_elem_of_fmap. split.
  - intros ([b g] & -> & Hb). apply elem_of_map_to_list in Hb. by exists g.
  - intros [g Hg]. exists (a, g). split; [done|]. by apply elem_of_map_to_list.
Qed.
