(* ===== verification/InetChksum.v ===== *)
(** * The Internet checksum (src/lwip/src/core/inet_chksum.c, include/lwip/inet_chksum.h)

    The three versions of lwip_standard_chksum that LWIP_CHKSUM_ALGORITHM
    selects, the pbuf-chain checksums built on version 2 (the default) and the
    pseudo-header variants.  A region of memory is its start address and the
    list of its bytes, the address because versions 2 and 3 treat an odd or a
    non-word-aligned start specially; a pbuf chain is the list of the regions
    ([payload], [len]) of its pbufs.  Loads of 16 and 32 bit words are little
    endian. *)

From S2P Require Import Prelude Def.

#[local] Open Scope Z_scope.
#[local] Coercion Z.of_nat : nat >-> Z.

(** ** Macros of inet_chksum.h *)

Definition SWAP_BYTES_IN_WORD (w : Z) : Z :=
  Z.lor (u32 (Z.shiftl (Z.land w 0xff) 8)) (Z.shiftr (Z.land w 0xff00) 8).

Definition FOLD_U32T (u : Z) : Z := u32 (Z.shiftr u 16 + Z.land u 0xffff).

(** Little endian loads. *)
Definition load16 (b0 b1 : Z) : Z := b0 + 256 * b1.
Definition load32 (b0 b1 b2 b3 : Z) : Z := b0 + 256 * b1 + 65536 * b2 + 16777216 * b3.

(** ** Version 1: big endian words, host order irrelevant *)

Fixpoint chksum1_loop (acc : Z) (octets : list Z) : Z :=
  match octets with
  | o0 :: o1 :: rest =>
      let src := u16 (Z.shiftl o0 8) in
      let src := Z.lor src o1 in
      chksum1_loop (u32 (acc + src)) rest
  | [o0] => let src := u16 (Z.shiftl o0 8) in u32 (acc + src)
  | [] => acc
  end.

Definition lwip_standard_chksum_1 (data : list Z) : Z :=
  let acc := chksum1_loop 0 data in
  let acc := u32 (Z.shiftr acc 16 + Z.land acc 0xffff) in
  let acc := if negb (Z.land acc 0xffff0000 =? 0)
             then u32 (Z.shiftr acc 16 + Z.land acc 0xffff) else acc in
  lwip_htons (u16 acc).

(** ** Version 2: 16 bit loads after aligning to an even address *)

(** The bulk loop; it returns the sum and the bytes (at most one) left over. *)
Fixpoint chksum2_loop (sum : Z) (ps : list Z) : Z * list Z :=
  match ps with
  | b0 :: b1 :: rest => chksum2_loop (u32 (sum + load16 b0 b1)) rest
  | _ => (sum, ps)
  end.

(** The store of the left-over byte into byte 0 of [t]. *)
Definition set_t0 (t : Z) (tail : list Z) : Z :=
  match tail with [] => t | b :: _ => b + 256 * (t / 256) end.

Definition lwip_standard_chksum_2 (addr : Z) (data : list Z) : Z :=
  let odd := Z.land addr 1 in
  let '(t, pb) :=
    match data with
    | b :: pb => if negb (odd =? 0) then (256 * b, pb) else (0, data)
    | [] => (0, data)
    end in
  let '(sum, tail) := chksum2_loop 0 pb in
  let t := set_t0 t tail in
  let sum := u32 (sum + t) in
  let sum := FOLD_U32T sum in
  let sum := FOLD_U32T sum in
  let sum := if negb (odd =? 0) then SWAP_BYTES_IN_WORD sum else sum in
  u16 sum.

(** ** Version 3: unrolled 32 bit loads with end-around carry *)

(** [tmp = sum + *pl++; if (tmp < sum) tmp++]. *)
Definition add_carry (sum w : Z) : Z :=
  let tmp := u32 (sum + w) in
  if tmp <? sum then u32 (tmp + 1) else tmp.

Fixpoint chksum3_loop (sum : Z) (pl : list Z) : Z * list Z :=
  match pl with
  | b0 :: b1 :: b2 :: b3 :: b4 :: b5 :: b6 :: b7 :: rest =>
      let tmp := add_carry sum (load32 b0 b1 b2 b3) in
      let sum := add_carry tmp (load32 b4 b5 b6 b7) in
      chksum3_loop sum rest
  | _ => (sum, pl)
  end.

Definition lwip_standard_chksum_3 (addr : Z) (data : list Z) : Z :=
  let odd := Z.land addr 1 in
  let '(t, pb, addr) :=
    match data with
    | b :: pb => if negb (odd =? 0) then (256 * b, pb, addr + 1) else (0, data, addr)
    | [] => (0, data, addr)
    end in
  let '(sum, ps) :=
    match pb with
    | b0 :: b1 :: ps => if negb (Z.land addr 3 =? 0) then (load16 b0 b1, ps) else (0, pb)
    | _ => (0, pb)
    end in
  let '(sum, ps) := chksum3_loop sum ps in
  let sum := FOLD_U32T sum in
  let '(sum, tail) := chksum2_loop sum ps in
  let t := set_t0 t tail in
  let sum := u32 (sum + t) in
  let sum := FOLD_U32T sum in
  let sum := FOLD_U32T sum in
  let sum := if negb (odd =? 0) then SWAP_BYTES_IN_WORD sum else sum in
  u16 sum.

(** LWIP_CHKSUM with the default LWIP_CHKSUM_ALGORITHM. *)
Definition LWIP_CHKSUM (addr : Z) (data : list Z) : Z := lwip_standard_chksum_2 addr data.

Definition inet_chksum (addr : Z) (data : list Z) : Z := u16 (Z.lnot (LWIP_CHKSUM addr data)).

(** ** Checksums over a pbuf chain *)

(** The [payload] and the bytes of one pbuf. *)
Definition seg : Type := Z * list Z.

(** One iteration of the chain loops: add the checksum of the pbuf, fold, and
    swap after a pbuf of odd length. *)
Definition chain_step (chk : Z) (odd_len : bool) (st : Z * bool) : Z * bool :=
  let '(acc, swapped) := st in
  let acc := u32 (acc + chk) in
  let acc := FOLD_U32T acc in
  if odd_len then (SWAP_BYTES_IN_WORD acc, negb swapped) else (acc, swapped).

Definition chain_loop (p : list seg) (acc : Z) : Z * bool :=
  fold_left (λ st '(addr, data),
               chain_step (LWIP_CHKSUM addr data) (negb (length data mod 2 =? 0)) st)
            p (acc, false).

(** Undo a pending swap. *)
Definition chain_end (st : Z * bool) : Z :=
  let '(acc, swapped) := st in if swapped then SWAP_BYTES_IN_WORD acc else acc.

Definition inet_chksum_pbuf (p : list seg) : Z :=
  let acc := chain_end (chain_loop p 0) in
  u16 (Z.lnot (Z.land acc 0xffff)).

(** The end of both pseudo checksums: protocol, length and the final folds. *)
Definition pseudo_end (acc proto proto_len : Z) : Z :=
  let acc := u32 (acc + lwip_htons (u16 proto)) in
  let acc := u32 (acc + lwip_htons proto_len) in
  let acc := FOLD_U32T acc in
  let acc := FOLD_U32T acc in
  u16 (Z.lnot (Z.land acc 0xffff)).

Definition inet_cksum_pseudo_base (p : list seg) (proto proto_len acc : Z) : Z :=
  pseudo_end (chain_end (chain_loop p acc)) proto proto_len.

(** [acc + (addr & 0xffff) + ((addr >> 16) & 0xffff)] on u32_t. *)
Definition add_addr_halves (acc addr : Z) : Z :=
  let acc := u32 (acc + Z.land addr 0xffff) in
  u32 (acc + Z.land (Z.shiftr addr 16) 0xffff).

Definition inet_chksum_pseudo (p : list seg) (proto proto_len src dest : Z) : Z :=
  let acc := add_addr_halves 0 src in
  let acc := add_addr_halves acc dest in
  let acc := FOLD_U32T acc in
  let acc := FOLD_U32T acc in
  inet_cksum_pseudo_base p proto proto_len acc.

(** The loop over the four words of the two IPv6 addresses. *)
Fixpoint ip6_addr_loop (acc : Z) (src dest : list Z) : Z :=
  match src, dest with
  | s :: src, d :: dest => ip6_addr_loop (add_addr_halves (add_addr_halves acc s) d) src dest
  | _, _ => acc
  end.

Definition ip6_chksum_pseudo (p : list seg) (proto proto_len : Z) (src dest : list Z) : Z :=
  let acc := ip6_addr_loop 0 src dest in
  let acc := FOLD_U32T acc in
  let acc := FOLD_U32T acc in
  inet_cksum_pseudo_base p proto proto_len acc.

(** ip_addr_t: the four words of the union (an IPv4 address is the first of
    them) and the type tag. *)
Record ip_addr : Type := { u_addr : list Z; ip_type : Z }.
Definition IPADDR_TYPE_V4 : Z := 0.
Definition IPADDR_TYPE_V6 : Z := 6.
Definition IP_IS_V6 (a : ip_addr) : bool := ip_type a =? IPADDR_TYPE_V6.
Definition ip_2_ip4 (a : ip_addr) : Z := hd 0 (u_addr a).
Definition ip_2_ip6 (a : ip_addr) : list Z := u_addr a.

Definition ip_chksum_pseudo (p : list seg) (proto proto_len : Z) (src dest : ip_addr) : Z :=
  if IP_IS_V6 dest
  then ip6_chksum_pseudo p proto proto_len (ip_2_ip6 src) (ip_2_ip6 dest)
  else inet_chksum_pseudo p proto proto_len (ip_2_ip4 src) (ip_2_ip4 dest).

(** ** Partial checksums (the first [chksum_len] bytes, for UDP-Lite) *)

Fixpoint partial_loop (p : list seg) (chksum_len : Z) (st : Z * bool) : outcome (Z * bool) :=
  match p with
  | [] => Ret st
  | (addr, data) :: p =>
      if 0 <? chksum_len then
        let chklen := Z.of_nat (length data) in
        let chklen := if chksum_len <? chklen then chksum_len else chklen in
        let chk := LWIP_CHKSUM addr (take (Z.to_nat chklen) data) in
        let chksum_len := u16 (chksum_len - chklen) in
        LWIP_ASSERT "delete me" (chksum_len <? 0x7fff);;
        partial_loop p chksum_len (chain_step chk (negb (length data mod 2 =? 0)) st)
      else Ret st
  end.

Definition inet_cksum_pseudo_partial_base (p : list seg) (proto proto_len chksum_len acc : Z)
  : outcome Z :=
  st ← partial_loop p chksum_len (acc, false);
  Ret (pseudo_end (chain_end st) proto proto_len).

Definition inet_chksum_pseudo_partial (p : list seg) (proto proto_len chksum_len src dest : Z)
  : outcome Z :=
  let acc := add_addr_halves 0 src in
  let acc := add_addr_halves acc dest in
  let acc := FOLD_U32T acc in
  let acc := FOLD_U32T acc in
  inet_cksum_pseudo_partial_base p proto proto_len chksum_len acc.

Definition ip6_chksum_pseudo_partial (p : list seg) (proto proto_len chksum_len : Z)
    (src dest : list Z) : outcome Z :=
  let acc := ip6_addr_loop 0 src dest in
  let acc := FOLD_U32T acc in
  let acc := FOLD_U32T acc in
  inet_cksum_pseudo_partial_base p proto proto_len chksum_len acc.

Definition ip_chksum_pseudo_partial (p : list seg) (proto proto_len chksum_len : Z)
    (src dest : ip_addr) : outcome Z :=
  if IP_IS_V6 dest
  then ip6_chksum_pseudo_partial p proto proto_len chksum_len (ip_2_ip6 src) (ip_2_ip6 dest)
  else inet_chksum_pseudo_partial p proto proto_len chksum_len (ip_2_ip4 src) (ip_2_ip4 dest).

(** lwip_chksum_copy: the copied bytes and their checksum. *)
Definition lwip_chksum_copy (dst_addr : Z) (src : list Z) : list Z * Z :=
  (src, LWIP_CHKSUM dst_addr src).

(** ** Specification: RFC 1071

    The ones' complement sum of a list of 16 bit words, in its canonical form:
    0 only for the empty sum, otherwise a value in 1 .. 0xffff that is congruent
    to the plain sum modulo 0xffff. *)

Definition oc_norm (x : Z) : Z := if x =? 0 then 0 else 1 + (x - 1) mod 65535.

(** The plain sum of the little endian 16 bit words of a byte string, an odd
    last byte padded with 0. *)
Fixpoint word_sum (data : list Z) : Z :=
  match data with
  | b0 :: b1 :: rest => b0 + 256 * b1 + word_sum rest
  | [b0] => b0
  | [] => 0
  end.

Definition rfc1071_sum (data : list Z) : Z := oc_norm (word_sum data).
Definition rfc1071_checksum (data : list Z) : Z := 65535 - rfc1071_sum data.

(** The bytes of all pbufs of a chain. *)
Definition chain_bytes (p : list seg) : list Z := concat (map snd p).

(** The IPv4 pseudo header of RFC 768/793, as bytes on the wire; addresses are
    in network byte order. *)
Definition pseudo_header (src dest proto proto_len : Z) : list Z :=
  le_bytes4 src ++ le_bytes4 dest ++ [0; proto] ++ [proto_len / 256; proto_len mod 256].

(** The IPv6 pseudo header of RFC 2460; the upper-layer length fits 16 bits. *)
Definition pseudo_header6 (src dest : list Z) (proto proto_len : Z) : list Z :=
  (src ≫= le_bytes4) ++ (dest ≫= le_bytes4)
  ++ [0; 0; proto_len / 256; proto_len mod 256] ++ [0; 0; 0; proto].

(** Two non-negative sums with the same ones' complement value. *)
Definition oceq (x y : Z) : Prop :=
  0 <= x /\ 0 <= y /\ (x = 0 <-> y = 0) /\ x mod 65535 = y mod 65535.

(** A pbuf chain with byte contents and u16_t lengths. *)
Definition seg_ok (s : seg) : Prop := Forall is_u8 (snd s) /\ length (snd s) < 65536.

(** ** Ones' complement arithmetic *)

Create HintDb oc.

Lemma oceq_refl x : 0 <= x -> oceq x x.
Proof. unfold oceq. lia. Qed.

#[export] Instance oceq_sym : Symmetric oceq.
Proof. unfold oceq. intros x y. lia. Qed.

#[export] Instance oceq_trans : Transitive oceq.
Proof. unfold oceq. intros x y z. lia. Qed.

(** [oceq] is a congruence for sums and for byte swaps (multiplication by 256). *)
#[export] Instance oceq_add : Proper (oceq ==> oceq ==> oceq) Z.add.
Proof.
  intros x x' (? & ? & ? & Hx) y y' (? & ? & ? & Hy). unfold oceq. repeat split; try lia.
  by rewrite Z.add_mod, Hx, Hy, <- Z.add_mod by lia.
Qed.

#[export] Instance oceq_mul256 : Proper (oceq ==> oceq) (Z.mul 256).
Proof.
  intros x x' (? & ? & ? & Hx). unfold oceq. repeat split; try lia.
  by rewrite Z.mul_mod, Hx, <- Z.mul_mod by lia.
Qed.

Lemma oceq_mod_eq x y k : 0 <= x -> 0 <= y -> (x = 0 <-> y = 0) -> x = y + k * 65535 -> oceq x y.
Proof. intros ? ? ? ->. unfold oceq. rewrite Z.mod_add by lia. lia. Qed.

(** 65536 is 1 in this arithmetic, so a word of any two bytes is its byte swap
    times 256. *)
Lemma oceq_65536 x : 0 <= x -> oceq (256 * (256 * x)) x.
Proof. intros. apply oceq_mod_eq with (k := x); lia. Qed.

Lemma oc_norm_range x : 0 <= x -> is_u16 (oc_norm x).
Proof. intros. unfold oc_norm. case_if; wrap_solve. Qed.

Lemma oc_norm_oceq x : 0 <= x -> oceq (oc_norm x) x.
Proof.
  intros. unfold oc_norm. case_if; [subst; by apply oceq_refl|].
  apply oceq_mod_eq with (k := - ((x - 1) / 65535)); Z.div_mod_to_equations; lia.
Qed.

(** The canonical form is determined by the class. *)
Lemma oc_norm_proper x y : oceq x y -> oc_norm x = oc_norm y.
Proof.
  intros (Hx & Hy & H0 & Hm). unfold oc_norm.
  destruct (Z.eqb_spec x 0), (Z.eqb_spec y 0); try lia.
  f_equal. by rewrite <- (Zminus_mod_idemp_l x), Hm, Zminus_mod_idemp_l.
Qed.

Lemma oc_norm_small x : is_u16 x -> oc_norm x = x.
Proof. intros. unfold oc_norm. case_if; [lia|]. rewrite Z.mod_small; unfold_c; lia. Qed.

Lemma oc_norm_unique r x : is_u16 r -> oceq r x -> r = oc_norm x.
Proof. intros Hr Hx. rewrite <- (oc_norm_small r Hr). by apply oc_norm_proper. Qed.

(** ** The macros in this arithmetic *)

Lemma FOLD_arith u : is_u32 u -> FOLD_U32T u = u / 65536 + u mod 65536.
Proof. intros. unfold FOLD_U32T. rewrite shiftr16, land_ffff. wrap_solve. Qed.

Lemma FOLD_oceq u : is_u32 u -> oceq (FOLD_U32T u) u.
Proof.
  intros. rewrite FOLD_arith by done.
  apply oceq_mod_eq with (k := - (u / 65536)); wrap_solve.
Qed.

Lemma FOLD_17 u : 0 <= u <= 0x1fffe -> is_u16 (FOLD_U32T u).
Proof. intros. rewrite FOLD_arith by wrap_solve. wrap_solve. Qed.

Lemma FOLD_once u : is_u32 u -> 0 <= FOLD_U32T u <= 0x1fffe.
Proof. intros. rewrite FOLD_arith by done. wrap_solve. Qed.

Lemma FOLD_FOLD u : is_u32 u -> is_u16 (FOLD_U32T (FOLD_U32T u)) /\ oceq (FOLD_U32T (FOLD_U32T u)) u.
Proof.
  intros Hu. pose proof (FOLD_once u Hu). split; [by apply FOLD_17|].
  transitivity (FOLD_U32T u); apply FOLD_oceq; [wrap_solve|done].
Qed.

Lemma SWAP_arith w : is_u16 w -> SWAP_BYTES_IN_WORD w = w mod 256 * 256 + w / 256.
Proof.
  intros Hw. unfold SWAP_BYTES_IN_WORD. change 0xff00 with (Z.shiftl (Z.ones 8) 8).
  rewrite land_ff, land_field, shiftr8, u32_small by (rewrite ?shiftl8; wrap_solve).
  change (2 ^ 8) with 256. rewrite Z.div_mul by lia.
  rewrite Z.lor_comm, lor_disjoint_add by wrap_solve. wrap_solve.
Qed.

Lemma SWAP_range w : is_u16 w -> is_u16 (SWAP_BYTES_IN_WORD w).
Proof. intros. rewrite SWAP_arith by done. wrap_solve. Qed.

Lemma SWAP_oceq w : is_u16 w -> oceq (SWAP_BYTES_IN_WORD w) (256 * w).
Proof.
  intros. rewrite SWAP_arith by done.
  apply oceq_mod_eq with (k := - (w / 256)); wrap_solve.
Qed.

(** ** Word sums of byte strings *)

Lemma word_sum_nonneg data : Forall is_u8 data -> 0 <= word_sum data.
Proof.
  revert data. fix IH 1. intros [|b0 [|b1 data]] H; cbn; [lia| |].
  - inversion H; subst. unfold_c. lia.
  - inversion H as [|? ? Hb0 H']; subst. inversion H' as [|? ? Hb1 H'']; subst.
    specialize (IH data H''). unfold_c. lia.
Qed.

(** Induction on a list two elements at a time. *)
Lemma list_pair_ind (P : list Z -> Prop) :
  P [] -> (forall a, P [a]) -> (forall a b l, P l -> P (a :: b :: l)) -> forall l, P l.
Proof. intros H0 H1 H2. fix IH 1. intros [|a [|b l]]; [exact H0|apply H1|apply H2, IH]. Qed.

Lemma word_sum_bound data :
  Forall is_u8 data -> 0 <= word_sum data <= 65535 * ((length data + 1) / 2).
Proof.
  induction data as [|a|a b data IH] using list_pair_ind; intros H; cbn [word_sum length].
  - done.
  - inversion H; subst. change ((1%nat + 1) / 2) with 1. unfold_c. lia.
  - inversion H as [|? ? Ha H']; subst. inversion H' as [|? ? Hb H'']; subst.
    specialize (IH H''). rewrite !Nat2Z.inj_succ.
    replace (Z.succ (Z.succ (length data)) + 1) with (length data + 1 + 1 * 2) by lia.
    rewrite Z.div_add by lia. unfold_c. lia.
Qed.

(** Appending: the second part keeps its bytes' weights after an even number
    of bytes and has them swapped after an odd one. *)
Lemma word_sum_cons_oceq b data :
  is_u8 b -> Forall is_u8 data -> oceq (word_sum (b :: data)) (b + 256 * word_sum data).
Proof.
  intros Hb. revert b Hb. induction data as [|c data IH]; intros b Hb H; cbn [word_sum].
  - apply oceq_mod_eq with (k := 0); unfold_c; lia.
  - inversion H as [|? ? Hc H']; subst.
    pose proof (word_sum_nonneg data H'). specialize (IH c Hc H').
    assert (E : oceq (256 * word_sum (c :: data)) (256 * (c + 256 * word_sum data)))
      by by apply oceq_mul256.
    transitivity (b + 256 * (c + 256 * word_sum data)).
    + apply oceq_mod_eq with (k := - word_sum data); unfold_c; lia.
    + apply oceq_add; [apply oceq_refl; unfold_c; lia|]. by symmetry.
Qed.

Lemma word_sum_app_oceq d1 d2 :
  Forall is_u8 d1 -> Forall is_u8 d2 ->
  oceq (word_sum (d1 ++ d2))
       (word_sum d1 + (if length d1 mod 2 =? 0 then word_sum d2 else 256 * word_sum d2)).
Proof.
  intros H1 H2. pose proof (word_sum_nonneg d2 H2). revert H1.
  induction d1 as [|a|a b d1 IH] using list_pair_ind; intros H1; cbn [app length word_sum].
  - exact (oceq_refl (word_sum d2) H).
  - inversion H1; subst. by apply word_sum_cons_oceq.
  - inversion H1 as [|? ? Ha H']; subst. inversion H' as [|? ? Hb H'']; subst.
    specialize (IH H''). rewrite <- (Z.add_assoc _ (word_sum d1)), !Nat2Z.inj_succ.
    replace (Z.succ (Z.succ (length d1))) with (length d1 + 1 * 2) by lia.
    rewrite Z.mod_add by lia.
    apply oceq_add; [apply oceq_refl; unfold_c; lia|done].
Qed.

(** ** The three algorithms compute the RFC 1071 sum *)

(** The 16 bit loop accumulates the word sum of the even-length prefix and
    leaves the odd byte, if any. *)
Lemma chksum2_loop_spec data sum :
  Forall is_u8 data -> 0 <= sum -> sum + word_sum data < 2 ^ 32 ->
  exists s tail, chksum2_loop sum data = (s, tail) /\ 0 <= s
    /\ s + word_sum tail = sum + word_sum data
    /\ (tail = [] /\ length data mod 2 = 0
        \/ exists b, tail = [b] /\ is_u8 b /\ length data mod 2 = 1).
Proof.
  revert sum. induction data as [|a|a b data IH] using list_pair_ind; intros sum H Hs Hb;
    cbn [chksum2_loop].
  - exists sum, []. repeat split; try lia. by left.
  - inversion H; subst. exists sum, [a]. repeat split; eauto.
  - inversion H as [|? ? Ha H']; subst. inversion H' as [|? ? Hb' H'']; subst.
    cbn [word_sum] in Hb. pose proof (word_sum_nonneg data H'').
    assert (E : u32 (sum + load16 a b) = sum + load16 a b)
      by (apply u32_small; unfold load16; unfold_c; lia).
    rewrite E. destruct (IH (sum + load16 a b)) as (s & tail & -> & Hs' & Hsum & Hlen);
      [done|unfold load16; unfold_c; lia|unfold load16; lia|].
    exists s, tail. cbn [word_sum length]. rewrite !Nat2Z.inj_succ.
    replace (Z.succ (Z.succ (length data))) with (length data + 1 * 2) by lia.
    rewrite Z.mod_add by lia. unfold load16 in Hsum. repeat split; auto; lia.
Qed.

(** Version 1's loop, in terms of the byte-swapped word sum. *)
Lemma chksum1_loop_spec data acc :
  Forall is_u8 data -> 0 <= acc -> acc + 65535 * ((length data + 1) / 2) < 2 ^ 32 ->
  0 <= chksum1_loop acc data < 2 ^ 32
  /\ (chksum1_loop acc data = 0 <-> acc = 0 /\ word_sum data = 0)
  /\ oceq (chksum1_loop acc data) (acc + 256 * word_sum data).
Proof.
  revert acc. induction data as [|a|a b data IH] using list_pair_ind; intros acc H Hacc Hb;
    cbn [chksum1_loop word_sum].
  - change ((length (@nil Z) + 1) / 2) with 0 in Hb. repeat split; try lia.
    rewrite Z.mul_0_r, Z.add_0_r. by apply oceq_refl.
  - inversion H; subst. change ((length [a] + 1) / 2) with 1 in Hb.
    rewrite shiftl8. rewrite u16_small, u32_small by (unfold_c; lia).
    repeat split; try (unfold_c; lia).
    apply oceq_mod_eq with (k := 0); unfold_c; lia.
  - inversion H as [|? ? Ha H']; subst. inversion H' as [|? ? Hb' H'']; subst.
    cbn [length] in Hb. rewrite !Nat2Z.inj_succ in Hb.
    replace (Z.succ (Z.succ (length data)) + 1) with (length data + 1 + 1 * 2) in Hb by lia.
    rewrite Z.div_add in Hb by lia.
    pose proof (word_sum_nonneg data H''). pose proof (word_sum_bound data H'').
    assert (E : u32 (acc + Z.lor (u16 (Z.shiftl a 8)) b) = acc + (b + a * 256)).
    { rewrite u16_small, Z.lor_comm, lor_disjoint_add by (rewrite ?shiftl8; unfold_c; lia).
      apply u32_small. unfold_c. lia. }
    rewrite E. destruct (IH (acc + (b + a * 256))) as (Hr & Hz & Ho); [done|unfold_c; lia|unfold_c; lia|].
    split; [done|]. split; [unfold_c; lia|].
    etransitivity; [exact Ho|].
    apply oceq_mod_eq with (k := - b); unfold_c; lia.
Qed.

Lemma add_carry_oceq sum w : is_u32 sum -> is_u32 w -> is_u32 (add_carry sum w)
  /\ oceq (add_carry sum w) (sum + w).
Proof.
  intros Hs Hw. unfold add_carry. split.
  - case_if; apply u32_range.
  - destruct (decide (sum + w < 2 ^ 32)).
    + rewrite u32_small by (unfold_c; lia).
      replace (sum + w <? sum) with false by (unfold_c; lia). apply oceq_refl. unfold_c; lia.
    + assert (u32 (sum + w) = sum + w - 2 ^ 32) as ->.
      { unfold u32. rewrite <- (Z.mod_add _ (-1)) by lia. rewrite Z.mod_small; unfold_c; lia. }
      replace (sum + w - 2 ^ 32 <? sum) with true by (unfold_c; lia).
      rewrite u32_small by (unfold_c; lia).
      apply oceq_mod_eq with (k := - 65537); unfold_c; lia.
Qed.

Lemma load32_u32 b0 b1 b2 b3 :
  is_u8 b0 -> is_u8 b1 -> is_u8 b2 -> is_u8 b3 -> is_u32 (load32 b0 b1 b2 b3)
  /\ oceq (load32 b0 b1 b2 b3) (b0 + 256 * b1 + (b2 + 256 * b3)).
Proof.
  intros. unfold load32. split; [unfold_c; lia|].
  apply oceq_mod_eq with (k := b2 + 256 * b3); unfold_c; lia.
Qed.

(** Induction on a list eight elements at a time. *)
Lemma list_oct_ind (P : list Z -> Prop) :
  (forall l, (length l < 8)%nat -> P l) ->
  (forall b0 b1 b2 b3 b4 b5 b6 b7 l, P l ->
     P (b0 :: b1 :: b2 :: b3 :: b4 :: b5 :: b6 :: b7 :: l)) ->
  forall l, P l.
Proof.
  intros H0 H8. fix IH 1.
  intros [|b0 [|b1 [|b2 [|b3 [|b4 [|b5 [|b6 [|b7 l]]]]]]]]; try (apply H0; cbn; lia).
  apply H8, IH.
Qed.

Lemma chksum3_loop_short sum l : (length l < 8)%nat -> chksum3_loop sum l = (sum, l).
Proof.
  destruct l as [|b0 [|b1 [|b2 [|b3 [|b4 [|b5 [|b6 [|b7 l]]]]]]]]; cbn; intros; try done. lia.
Qed.

Lemma chksum3_loop_spec data sum :
  Forall is_u8 data -> is_u32 sum ->
  exists s tail, chksum3_loop sum data = (s, tail) /\ is_u32 s /\ Forall is_u8 tail
    /\ (length tail < 8)%nat /\ length tail mod 2 = length data mod 2
    /\ oceq (s + word_sum tail) (sum + word_sum data).
Proof.
  revert sum. induction data as [l Hl|b0 b1 b2 b3 b4 b5 b6 b7 data IH] using list_oct_ind;
    intros sum H Hs.
  - rewrite chksum3_loop_short by done. exists sum, l. split_and!; try done.
    apply oceq_refl. pose proof (word_sum_nonneg l H). unfold_c. lia.
  - cbn [chksum3_loop]. do 8 (apply Forall_cons in H as [? H]).
    destruct (load32_u32 b0 b1 b2 b3) as [Hw Ow]; try done.
    destruct (load32_u32 b4 b5 b6 b7) as [Hw' Ow']; try done.
    destruct (add_carry_oceq sum _ Hs Hw) as [Hc Oc].
    destruct (add_carry_oceq _ _ Hc Hw') as [Hc' Oc'].
    destruct (IH _ H Hc') as (s & tail & -> & Hs' & Ht & Hlt & Hm & Ho).
    exists s, tail. split_and!; try done.
    { cbn [length]. rewrite Hm, !Nat2Z.inj_succ. Z.div_mod_to_equations. lia. }
    etransitivity; [exact Ho|]. cbn [word_sum]. pose proof (word_sum_nonneg data H).
    transitivity (sum + load32 b0 b1 b2 b3 + load32 b4 b5 b6 b7 + word_sum data).
    { apply oceq_add; [|by apply oceq_refl]. etransitivity; [exact Oc'|].
      apply oceq_add; [done|apply oceq_refl; unfold_c; lia]. }
    replace (sum + (b0 + 256 * b1 + _))
      with (sum + (b0 + 256 * b1 + (b2 + 256 * b3)) + (b4 + 256 * b5 + (b6 + 256 * b7)) + word_sum data)
      by lia.
    apply oceq_add; [apply oceq_add; [apply oceq_add; [|exact Ow]|exact Ow']|].
    all: apply oceq_refl; unfold_c; lia.
Qed.

(** The common end of versions 2 and 3: a sum and the end bytes, folded and
    swapped back for an odd start. *)
Definition chksum_end (odd : bool) (sum : Z) : Z :=
  let sum := FOLD_U32T (FOLD_U32T (u32 sum)) in
  u16 (if odd then SWAP_BYTES_IN_WORD sum else sum).

Lemma chksum_end_spec (odd : bool) sum target :
  0 <= sum < 2 ^ 32 -> oceq (if odd then 256 * sum else sum) target ->
  chksum_end odd sum = oc_norm target.
Proof.
  intros Hs Ho. unfold chksum_end. rewrite u32_small by (unfold_c; lia).
  destruct (FOLD_FOLD sum) as [Hr Hf]; [unfold_c; lia|].
  destruct odd.
  - pose proof (SWAP_range _ Hr). rewrite u16_small by (unfold_c; lia).
    apply oc_norm_unique; [done|]. etransitivity; [by apply SWAP_oceq|].
    etransitivity; [by apply oceq_mul256|done].
  - rewrite u16_small by (unfold_c; lia). apply oc_norm_unique; [done|]. by etransitivity.
Qed.

Lemma land1_odd addr : negb (Z.land addr 1 =? 0) = Z.odd addr.
Proof.
  rewrite land_1, Zmod_odd. by destruct (Z.odd addr).
Qed.

(** The end bytes in [t]: the left-over byte below, the first byte of an odd
    start above. *)
Lemma set_t0_sum b s tail :
  Forall is_u8 tail -> (length tail < 2)%nat ->
  s + set_t0 (256 * b) tail = s + word_sum tail + 256 * b.
Proof.
  intros Ht Hl. destruct tail as [|c [|]]; cbn [set_t0 word_sum length] in *; [lia| |lia].
  replace (256 * b / 256) with b by (rewrite Z.mul_comm, Z.div_mul; lia). lia.
Qed.

Lemma set_t0_sum0 s tail :
  Forall is_u8 tail -> (length tail < 2)%nat -> s + set_t0 0 tail = s + word_sum tail.
Proof. intros Ht Hl. pose proof (set_t0_sum 0 s tail Ht Hl) as E. change (256 * 0) with 0 in E. lia. Qed.

(** With an odd start, the bytes after the first are summed at swapped
    positions. *)
Lemma odd_start_oceq b pb s :
  is_u8 b -> Forall is_u8 pb -> oceq s (word_sum pb) ->
  oceq (256 * (s + 256 * b)) (word_sum (b :: pb)).
Proof.
  intros Hb Hpb Ho. pose proof (word_sum_nonneg pb Hpb).
  etransitivity; [|symmetry; by apply word_sum_cons_oceq].
  transitivity (256 * (word_sum pb + 256 * b)).
  - apply oceq_mul256, oceq_add; [done|apply oceq_refl; unfold_c; lia].
  - apply oceq_mod_eq with (k := b); unfold_c; lia.
Qed.

(** What the 16 bit loop leaves: at most one byte. *)
Lemma chksum2_tail data sum :
  Forall is_u8 data -> 0 <= sum -> sum + word_sum data < 2 ^ 32 ->
  exists s tail, chksum2_loop sum data = (s, tail) /\ Forall is_u8 tail /\ (length tail < 2)%nat
    /\ s + word_sum tail = sum + word_sum data.
Proof.
  intros H Hs Hb. destruct (chksum2_loop_spec data sum) as (s & tail & E & _ & Hsum & Hlen); try done.
  exists s, tail. split; [done|].
  destruct Hlen as [[-> _]|(c & -> & Hc & _)]; cbn [length]; split_and!; auto with lia.
Qed.

Lemma chksum2_correct addr data :
  Forall is_u8 data -> length data <= 0x20000 ->
  lwip_standard_chksum_2 addr data = rfc1071_sum data.
Proof.
  intros H Hl. unfold lwip_standard_chksum_2, rfc1071_sum. rewrite land1_odd.
  pose proof (word_sum_bound data H).
  assert (Hhalf : (length data + 1) / 2 <= 65536) by (Z.div_mod_to_equations; lia).
  destruct (Z.odd addr); [destruct data as [|b pb]|]; [done|..].
  - apply Forall_cons in H as [Hb Hpb]. pose proof (word_sum_bound pb Hpb).
    assert ((length pb + 1) / 2 <= 65536)
      by (rewrite length_cons in Hl; Z.div_mod_to_equations; lia).
    destruct (chksum2_tail pb 0) as (s & tail & -> & Ht & Ht2 & Hsum); [done|lia|lia|].
    rewrite set_t0_sum, Hsum, Z.add_0_l by done. apply (chksum_end_spec true).
    + unfold_c. lia.
    + apply odd_start_oceq; try done. apply oceq_refl. lia.
  - replace (match data with [] => _ | _ => _ end) with (0, data) by by destruct data.
    destruct (chksum2_tail data 0) as (s & tail & -> & Ht & Ht2 & Hsum); [done|lia|lia|].
    rewrite set_t0_sum0, Hsum by done.
    apply (chksum_end_spec false); [lia|]. apply oceq_refl. lia.
Qed.

Lemma chksum1_correct data :
  Forall is_u8 data -> length data <= 0x20000 ->
  lwip_standard_chksum_1 data = rfc1071_sum data.
Proof.
  intros H Hl. unfold lwip_standard_chksum_1, rfc1071_sum.
  assert ((length data + 1) / 2 <= 65536) by (Z.div_mod_to_equations; lia).
  destruct (chksum1_loop_spec data 0) as (Hr & _ & Ho); [done|lia|lia|].
  set (acc := chksum1_loop 0 data) in *. fold (FOLD_U32T acc).
  pose proof (FOLD_once acc Hr) as H1. pose proof (FOLD_oceq acc Hr) as O1.
  set (a1 := FOLD_U32T acc) in *. fold (FOLD_U32T a1).
  assert (E : is_u16 (if negb (Z.land a1 0xffff0000 =? 0) then FOLD_U32T a1 else a1)
              /\ oceq (if negb (Z.land a1 0xffff0000 =? 0) then FOLD_U32T a1 else a1) acc).
  { change 0xffff0000 with (Z.shiftl (Z.ones 16) 16). rewrite land_field by lia.
    change (2 ^ 16) with 65536. case_if.
    - split; [apply FOLD_17; unfold_c; lia|]. etransitivity; [|exact O1].
      apply FOLD_oceq. unfold_c. lia.
    - split; [|done]. wrap_solve. }
  destruct E as [E1 E2]. set (a2 := if negb _ then _ else _) in *.
  rewrite u16_small by (unfold_c; lia). unfold lwip_htons. rewrite PP_HTONS_arith by done.
  rewrite <- SWAP_arith by done. apply oc_norm_unique; [by apply SWAP_range|].
  etransitivity; [by apply SWAP_oceq|].
  transitivity (256 * (256 * word_sum data)).
  - apply oceq_mul256. etransitivity; [exact E2|]. exact Ho.
  - apply oceq_65536, word_sum_nonneg, H.
Qed.

(** The middle of version 3, from the even address [addr] on: word alignment,
    the 32 bit loop, a fold and the 16 bit loop. *)
Definition chksum3_middle (addr : Z) (pb : list Z) : Z * list Z :=
  let '(sum, ps) :=
    match pb with
    | b0 :: b1 :: ps => if negb (Z.land addr 3 =? 0) then (load16 b0 b1, ps) else (0, pb)
    | _ => (0, pb)
    end in
  let '(sum, ps) := chksum3_loop sum ps in
  let sum := FOLD_U32T sum in
  chksum2_loop sum ps.

Lemma chksum3_middle_spec addr pb :
  Forall is_u8 pb ->
  exists s tail, chksum3_middle addr pb = (s, tail) /\ Forall is_u8 tail /\ (length tail < 2)%nat
    /\ 0 <= s + word_sum tail < 2 ^ 24 /\ oceq (s + word_sum tail) (word_sum pb).
Proof.
  intros H. unfold chksum3_middle.
  assert (Hhead : exists s0 ps,
    match pb with
    | b0 :: b1 :: ps => if negb (Z.land addr 3 =? 0) then (load16 b0 b1, ps) else (0, pb)
    | _ => (0, pb)
    end = (s0, ps) /\ is_u32 s0 /\ Forall is_u8 ps /\ s0 + word_sum ps = word_sum pb).
  { destruct pb as [|b0 [|b1 ps]]; [by eexists _, _|by eexists _, _|].
    do 2 (pose proof H as [? H']%Forall_cons; clear H; rename H' into H).
    case_if; eexists _, _; (split; [reflexivity|]); split_and!; auto; unfold load16; unfold_c; lia. }
  destruct Hhead as (s0 & ps & -> & Hs0 & Hps & <-).
  destruct (chksum3_loop_spec ps s0) as (s & tail & -> & Hs & Ht & Hlt & _ & Ho); try done.
  pose proof (FOLD_once s Hs). pose proof (FOLD_oceq s Hs). pose proof (word_sum_bound tail Ht).
  assert ((length tail + 1) / 2 <= 4) by (Z.div_mod_to_equations; lia).
  destruct (chksum2_tail tail (FOLD_U32T s)) as (s' & tail' & -> & Ht' & Hl' & Hsum); [done|lia|lia|].
  exists s', tail'. split_and!; try done; try lia.
  rewrite Hsum. etransitivity; [|exact Ho]. apply oceq_add; [done|apply oceq_refl; lia].
Qed.

Lemma chksum3_correct addr data :
  Forall is_u8 data -> lwip_standard_chksum_3 addr data = rfc1071_sum data.
Proof.
  intros H. unfold lwip_standard_chksum_3, rfc1071_sum. rewrite land1_odd.
  destruct (Z.odd addr); [destruct data as [|b pb]|]; [reflexivity|..].
  - apply Forall_cons in H as [Hb Hpb].
    destruct (chksum3_middle_spec (addr + 1) pb Hpb) as (s & tail & E & Ht & Hl & Hr & Ho).
    unfold chksum3_middle in E. cbn [negb]. cbv zeta.
    destruct (match pb with [] => _ | _ => _ end) as [s0 ps].
    destruct (chksum3_loop s0 ps) as [s1 ps1]. rewrite E.
    rewrite set_t0_sum by done. apply (chksum_end_spec true); [unfold_c; lia|].
    by apply odd_start_oceq.
  - replace (match data with [] => _ | _ => _ end) with (0, data, addr) by by destruct data.
    destruct (chksum3_middle_spec addr data H) as (s & tail & E & Ht & Hl & Hr & Ho).
    unfold chksum3_middle in E.
    destruct (match data with [] => _ | _ => _ end) as [s0 ps].
    destruct (chksum3_loop s0 ps) as [s1 ps1]. rewrite E.
    rewrite set_t0_sum0 by done. by apply (chksum_end_spec false); [unfold_c; lia|].
Qed.

(** ** Chains of pbufs *)

(** The loop state [(acc, swapped)] stands for the sum [S]. *)
Definition chain_inv (st : Z * bool) (S : Z) : Prop :=
  is_u16 (fst st) /\ 0 <= S /\ oceq (fst st) (if snd st then 256 * S else S).

Lemma LWIP_CHKSUM_correct addr data :
  Forall is_u8 data -> length data < 65536 ->
  LWIP_CHKSUM addr data = rfc1071_sum data.
Proof. intros H Hl. apply chksum2_correct; [done|lia]. Qed.

Lemma chain_step_inv st S addr data o :
  chain_inv st S -> seg_ok (addr, data) ->
  chain_inv (chain_step (LWIP_CHKSUM addr data) o st)
            (S + if snd st then 256 * word_sum data else word_sum data).
Proof.
  destruct st as [acc sw]. intros (Hacc & HS & Ho) [Hd Hl]. cbn [fst snd] in *.
  rewrite LWIP_CHKSUM_correct by done. unfold rfc1071_sum, chain_step.
  pose proof (word_sum_nonneg data Hd) as HW. set (W := word_sum data) in *.
  pose proof (oc_norm_range W HW). pose proof (oc_norm_oceq W HW) as OW.
  rewrite u32_small by (unfold_c; lia).
  assert (Hf : is_u16 (FOLD_U32T (acc + oc_norm W))) by (apply FOLD_17; unfold_c; lia).
  assert (Of : oceq (FOLD_U32T (acc + oc_norm W)) ((if sw then 256 * S else S) + W)).
  { etransitivity; [apply FOLD_oceq; unfold_c; lia|]. by apply oceq_add. }
  set (f := FOLD_U32T _) in *.
  assert (Of' : oceq f (if sw then 256 * (S + 256 * W) else S + W)).
  { etransitivity; [exact Of|]. destruct sw; [|apply oceq_refl; lia].
    apply oceq_mod_eq with (k := - W); lia. }
  unfold chain_inv. destruct o; cbn [fst snd]; (split; [by try apply SWAP_range|]).
  - split; [destruct sw; lia|]. etransitivity; [by apply SWAP_oceq|].
    etransitivity; [apply oceq_mul256; exact Of'|].
    destruct sw; cbn [negb]; [apply oceq_65536; lia|apply oceq_refl; lia].
  - split; [destruct sw; lia|]. by destruct sw.
Qed.

Lemma odd_length_app (d1 d2 : list Z) :
  negb (length (d1 ++ d2) mod 2 =? 0) = xorb (negb (length d1 mod 2 =? 0)) (negb (length d2 mod 2 =? 0)).
Proof.
  rewrite length_app, Nat2Z.inj_add, !Zmod_odd, Z.odd_add.
  by destruct (Z.odd (length d1)), (Z.odd (length d2)).
Qed.

(** The loop over a chain, started after the bytes [done_] were processed. *)
Lemma chain_inv_proper st S S' : chain_inv st S -> oceq S S' -> chain_inv st S'.
Proof.
  intros (H1 & H2 & H3) Ho. unfold chain_inv. split; [done|]. split; [apply Ho|].
  etransitivity; [exact H3|]. destruct (snd st); [by apply oceq_mul256|done].
Qed.

Lemma chain_step_app st acc0 sofar addr data :
  Forall is_u8 sofar -> seg_ok (addr, data) -> 0 <= acc0 ->
  snd st = negb (length sofar mod 2 =? 0) ->
  chain_inv st (acc0 + word_sum sofar) ->
  let st' := chain_step (LWIP_CHKSUM addr data) (negb (length data mod 2 =? 0)) st in
  chain_inv st' (acc0 + word_sum (sofar ++ data))
  /\ snd st' = negb (length (sofar ++ data) mod 2 =? 0).
Proof.
  intros Hs Hd H0 Hsw Hi st'. split.
  - eapply chain_inv_proper; [by apply chain_step_inv|].
    pose proof (word_sum_app_oceq sofar data Hs (proj1 Hd)) as Ho.
    rewrite Hsw, <- Z.add_assoc. apply oceq_add; [by apply oceq_refl|].
    symmetry. etransitivity; [exact Ho|].
    pose proof (word_sum_nonneg sofar Hs). pose proof (word_sum_nonneg data (proj1 Hd)).
    apply oceq_add; [by apply oceq_refl|]. destruct (_ =? 0); cbn [negb]; apply oceq_refl; lia.
  - subst st'. destruct st as [acc sw]. cbn in Hsw. subst sw. rewrite odd_length_app.
    unfold chain_step. cbn [snd]. destruct (negb (length data mod 2 =? 0)); cbn [snd];
      by destruct (_ =? 0).
Qed.

Lemma chain_bytes_ok p : Forall seg_ok p -> Forall is_u8 (chain_bytes p).
Proof.
  induction 1 as [|[a d] p Hd Hp IH]; [done|]. unfold chain_bytes. cbn.
  apply Forall_app. split; [apply Hd|exact IH].
Qed.

Lemma chain_loop_spec p acc0 :
  Forall seg_ok p -> is_u16 acc0 -> chain_inv (chain_loop p acc0) (acc0 + word_sum (chain_bytes p)).
Proof.
  intros Hp Ha. unfold chain_loop.
  cut (forall sofar st, Forall is_u8 sofar -> snd st = negb (length sofar mod 2 =? 0) ->
         chain_inv st (acc0 + word_sum sofar) ->
         chain_inv (fold_left (λ st '(addr, data),
                     chain_step (LWIP_CHKSUM addr data) (negb (length data mod 2 =? 0)) st) p st)
                   (acc0 + word_sum (sofar ++ chain_bytes p))).
  { intros Hgen. apply (Hgen []); [done|done|]. unfold chain_inv. cbn.
    split; [done|]. split; [unfold_c; lia|]. rewrite Z.add_0_r. apply oceq_refl. unfold_c; lia. }
  induction Hp as [|[addr data] p Hd Hp IH]; intros sofar st Hs Hsw Hi.
  - unfold chain_bytes. cbn. by rewrite app_nil_r.
  - destruct (chain_step_app st acc0 sofar addr data) as [Hi' Hsw']; try done; [unfold_c; lia|].
    cbn [fold_left]. unfold chain_bytes in *. cbn [map concat snd]. rewrite app_assoc.
    apply IH; [|done|done]. apply Forall_app. split; [done|apply Hd].
Qed.

Lemma chain_end_spec st S : chain_inv st S -> is_u16 (chain_end st) /\ oceq (chain_end st) S.
Proof.
  destruct st as [acc sw]. intros (Ha & HS & Ho). cbn in *. destruct sw; [|done].
  split; [by apply SWAP_range|]. etransitivity; [by apply SWAP_oceq|].
  etransitivity; [apply oceq_mul256; exact Ho|]. by apply oceq_65536.
Qed.

Lemma complement_u16 a : is_u16 a -> u16 (Z.lnot (Z.land a 0xffff)) = 65535 - a.
Proof.
  intros. rewrite land_ffff, Z.mod_small by (unfold_c; lia). unfold Z.lnot. wrap_solve.
Qed.

(** ** Pseudo headers *)

Lemma word_sum_le_bytes4 x : is_u32 x -> word_sum (le_bytes4 x) = x mod 65536 + x / 65536.
Proof. intros. unfold le_bytes4. cbn [word_sum]. wrap_solve. Qed.

Lemma word_sum_app_even d1 d2 :
  length d1 mod 2 = 0 -> word_sum (d1 ++ d2) = word_sum d1 + word_sum d2.
Proof.
  induction d1 as [|a|a b d1 IH] using list_pair_ind; cbn [app word_sum]; [lia|done|].
  rewrite !length_cons, !Nat2Z.inj_succ.
  replace (Z.succ (Z.succ (length d1))) with (length d1 + 1 * 2) by lia.
  rewrite Z.mod_add by lia. intros H. rewrite IH by done. lia.
Qed.

Lemma add_addr_halves_spec acc x :
  0 <= acc < 2 ^ 31 -> is_u32 x ->
  add_addr_halves acc x = acc + word_sum (le_bytes4 x)
  /\ 0 <= word_sum (le_bytes4 x) <= 131070.
Proof.
  intros Ha Hx. rewrite word_sum_le_bytes4 by done. unfold add_addr_halves.
  rewrite !land_ffff, shiftr16. change (2 ^ 31) with 2147483648 in Ha. split; wrap_solve.
Qed.

Lemma htons_word x : is_u16 x -> lwip_htons x = word_sum [x / 256; x mod 256].
Proof. intros. unfold lwip_htons. rewrite PP_HTONS_arith by done. cbn [word_sum]. lia. Qed.

Lemma pseudo_end_spec acc S proto proto_len :
  is_u16 acc -> oceq acc S -> is_u8 proto -> is_u16 proto_len ->
  pseudo_end acc proto proto_len
  = 65535 - oc_norm (S + 256 * proto + word_sum [proto_len / 256; proto_len mod 256]).
Proof.
  intros Ha Ho Hp Hl. unfold pseudo_end.
  assert (Ep : lwip_htons (u16 proto) = 256 * proto).
  { rewrite u16_small by (unfold_c; lia). rewrite htons_word by (unfold_c; lia).
    cbn [word_sum]. rewrite Z.div_small, Z.mod_small; unfold_c; lia. }
  rewrite Ep, (htons_word proto_len) by done.
  assert (Hw : is_u16 (word_sum [proto_len / 256; proto_len mod 256]))
    by (cbn [word_sum]; wrap_solve).
  set (L := word_sum _) in *.
  rewrite (u32_small (acc + _)) by (unfold_c; lia). rewrite u32_small by (unfold_c; lia).
  destruct (FOLD_FOLD (acc + 256 * proto + L)) as [Hr Hf]; [unfold_c; lia|].
  rewrite complement_u16 by done. f_equal. apply oc_norm_unique; [done|].
  etransitivity; [exact Hf|]. apply oceq_add; [apply oceq_add; [done|]|];
    apply oceq_refl; unfold_c; lia.
Qed.

(** The sum of the pseudo header, folded twice, is what the chain loop starts
    with. *)
Lemma pseudo_start src dest :
  is_u32 src -> is_u32 dest ->
  let acc := FOLD_U32T (FOLD_U32T (add_addr_halves (add_addr_halves 0 src) dest)) in
  is_u16 acc /\ oceq acc (word_sum (le_bytes4 src) + word_sum (le_bytes4 dest)).
Proof.
  intros Hs Hd.
  destruct (add_addr_halves_spec 0 src) as [-> B1]; [lia|done|].
  destruct (add_addr_halves_spec (0 + word_sum (le_bytes4 src)) dest) as [-> B2]; [lia|done|].
  destruct (FOLD_FOLD (0 + word_sum (le_bytes4 src) + word_sum (le_bytes4 dest))) as [? Ho];
    [unfold_c; lia|]. done.
Qed.

Lemma pseudo_header_sum src dest proto proto_len data :
  word_sum (pseudo_header src dest proto proto_len ++ data)
  = word_sum (le_bytes4 src) + word_sum (le_bytes4 dest) + word_sum data
    + 256 * proto + word_sum [proto_len / 256; proto_len mod 256].
Proof. unfold pseudo_header, le_bytes4. cbn [app word_sum]. lia. Qed.

(** The IPv6 loop adds the halves of all eight address words. *)
Lemma ip6_addr_loop_spec src dest acc :
  length src = length dest -> Forall is_u32 src -> Forall is_u32 dest -> 0 <= acc ->
  acc + 262140 * length src < 2 ^ 31 ->
  ip6_addr_loop acc src dest
  = acc + word_sum (src ≫= le_bytes4) + word_sum (dest ≫= le_bytes4)
  /\ 0 <= word_sum (src ≫= le_bytes4) + word_sum (dest ≫= le_bytes4) <= 262140 * length src.
Proof.
  revert dest acc. induction src as [|s src IH]; intros [|d dest] acc Hl Hs Hd Ha Hb; try done.
  { cbn. lia. }
  apply Forall_cons in Hs as [Hs1 Hs]. apply Forall_cons in Hd as [Hd1 Hd].
  rewrite length_cons, Nat2Z.inj_succ in Hb. cbn [ip6_addr_loop].
  destruct (add_addr_halves_spec acc s) as [-> B1]; [lia|done|].
  destruct (add_addr_halves_spec (acc + word_sum (le_bytes4 s)) d) as [-> B2]; [lia|done|].
  destruct (IH dest (acc + word_sum (le_bytes4 s) + word_sum (le_bytes4 d))) as [-> B3];
    [by injection Hl|done|done|lia|lia|].
  cbn [mbind list_bind]. rewrite !word_sum_app_even by done.
  rewrite length_cons, Nat2Z.inj_succ. lia.
Qed.

Lemma bind_le_bytes4_even (l : list Z) : length (l ≫= le_bytes4) mod 2 = 0.
Proof.
  induction l as [|x l IH]; [done|]. cbn [mbind list_bind].
  rewrite length_app. cbn [le_bytes4 length]. change (length (list_bind _ _ le_bytes4 l))
    with (length (l ≫= le_bytes4)). rewrite Nat2Z.inj_add. Z.div_mod_to_equations. lia.
Qed.

Lemma pseudo_header6_sum src dest proto proto_len data :
  word_sum (pseudo_header6 src dest proto proto_len ++ data)
  = word_sum (src ≫= le_bytes4) + word_sum (dest ≫= le_bytes4) + word_sum data
    + 256 * proto + word_sum [proto_len / 256; proto_len mod 256].
Proof.
  unfold pseudo_header6. rewrite <- !app_assoc.
  rewrite word_sum_app_even by apply bind_le_bytes4_even.
  rewrite word_sum_app_even by apply bind_le_bytes4_even. cbn [app word_sum]. lia.
Qed.

(** The checksum of a chain behind any start value that stands for the word
    sum [S] of an even number of bytes. *)
Lemma pseudo_base_spec p proto proto_len acc S :
  Forall seg_ok p -> is_u8 proto -> is_u16 proto_len -> is_u16 acc -> oceq acc S ->
  inet_cksum_pseudo_base p proto proto_len acc
  = 65535 - oc_norm (S + word_sum (chain_bytes p) + 256 * proto
                     + word_sum [proto_len / 256; proto_len mod 256]).
Proof.
  intros Hp Hpr Hpl Ha Ho. unfold inet_cksum_pseudo_base.
  destruct (chain_end_spec _ _ (chain_loop_spec p acc Hp Ha)) as [Hr He].
  apply pseudo_end_spec; try done. etransitivity; [exact He|].
  pose proof (word_sum_nonneg _ (chain_bytes_ok p Hp)).
  apply oceq_add; [done|by apply oceq_refl].
Qed.

(** The partial loop covers exactly the first [chksum_len] bytes. *)
Lemma partial_loop_spec p acc0 :
  Forall seg_ok p -> 0 <= acc0 ->
  forall clen sofar st,
  0 <= clen < 0x7fff -> Forall is_u8 sofar -> snd st = negb (length sofar mod 2 =? 0) ->
  chain_inv st (acc0 + word_sum sofar) ->
  exists st', partial_loop p clen st = Ret st'
    /\ chain_inv st' (acc0 + word_sum (sofar ++ take (Z.to_nat clen) (chain_bytes p))).
Proof.
  intros Hp H0. induction Hp as [|[addr data] p Hd Hp IH]; intros clen sofar st Hc Hs Hsw Hi;
    cbn [partial_loop].
  { exists st. unfold chain_bytes. cbn. by rewrite take_nil, app_nil_r. }
  unfold chain_bytes. cbn [map concat snd]. fold (chain_bytes p).
  destruct (0 <? clen) eqn:E; bool_to_prop.
  2:{ exists st. assert (clen = 0) as -> by lia. by rewrite take_0, app_nil_r. }
  destruct Hd as [Hd Hdl]. cbn [snd] in *.
  destruct (clen <? length data) eqn:E2; bool_to_prop.
  - rewrite Z.sub_diag. change (u16 0) with 0. cbn [LWIP_ASSERT mbind outcome_bind Z.ltb].
    set (d := take (Z.to_nat clen) data).
    assert (Hd' : seg_ok (addr, d)).
    { split; [by apply Forall_take|]. cbn. unfold d. rewrite length_take. lia. }
    eexists. split.
    { change (0 <? 32767) with true. cbn. destruct p as [|[]]; reflexivity. }
    rewrite take_app_le by lia. fold d.
    eapply chain_inv_proper; [by apply chain_step_inv|].
    rewrite Hsw, <- Z.add_assoc. apply oceq_add; [by apply oceq_refl|]. symmetry.
    etransitivity; [by apply word_sum_app_oceq; [|apply Hd']|].
    pose proof (word_sum_nonneg sofar Hs). pose proof (word_sum_nonneg d (proj1 Hd')).
    apply oceq_add; [by apply oceq_refl|]. destruct (_ =? 0); cbn [negb]; apply oceq_refl; lia.
  - rewrite Nat2Z.id, take_ge by lia. rewrite u16_small by lia.
    rewrite LWIP_ASSERT_ok by (apply Z.ltb_lt; lia). cbn [mbind outcome_bind].
    destruct (chain_step_app st acc0 sofar addr data) as [Hi' Hsw']; try done.
    destruct (IH (clen - length data) (sofar ++ data)
                (chain_step (LWIP_CHKSUM addr data) (negb (length data mod 2 =? 0)) st))
      as (st' & -> & Hinv); [lia|by apply Forall_app|done|done|].
    exists st'. split; [done|].
    rewrite <- app_assoc in Hinv. rewrite take_app_ge by lia.
    by replace (Z.to_nat clen - length data)%nat with (Z.to_nat (clen - length data)) by lia.
Qed.

Lemma inet_chksum_range addr d : is_u16 (inet_chksum addr d).
Proof. unfold inet_chksum. apply u16_range. Qed.

(** A 16 bit field at an even offset that holds the checksum of the packet. *)
Lemma chksum_field_verifies addr addr' d1 d2 :
  Forall is_u8 d1 -> Forall is_u8 d2 -> length d1 mod 2 = 0 ->
  length (d1 ++ [0; 0] ++ d2) < 65536 ->
  let c := inet_chksum addr (d1 ++ [0; 0] ++ d2) in
  inet_chksum addr' (d1 ++ [c mod 256; c / 256] ++ d2) = 0.
Proof.
  intros H1 H2 He Hl c.
  assert (H0 : Forall is_u8 [0; 0]) by (repeat constructor; unfold is_u8; lia).
  pose proof (word_sum_nonneg d1 H1). pose proof (word_sum_nonneg d2 H2).
  set (A := word_sum d1 + word_sum d2).
  assert (HA : 0 <= A) by lia.
  pose proof (oc_norm_range A HA) as Hn. pose proof (oc_norm_oceq A HA) as Ho.
  assert (Hc : c = 65535 - oc_norm A).
  { unfold c, inet_chksum. rewrite LWIP_CHKSUM_correct; [|by rewrite !Forall_app|lia].
    unfold rfc1071_sum. rewrite word_sum_app_even by done. cbn [app word_sum].
    replace (word_sum d1 + (0 + 256 * 0 + word_sum d2)) with A by lia.
    unfold Z.lnot. wrap_solve. }
  assert (Hb : Forall is_u8 [c mod 256; c / 256]).
  { rewrite Hc. repeat constructor; wrap_solve. }
  unfold inet_chksum. rewrite LWIP_CHKSUM_correct.
  - unfold rfc1071_sum. rewrite word_sum_app_even by done. cbn [app word_sum].
    replace (word_sum d1 + (c mod 256 + 256 * (c / 256) + word_sum d2)) with (A + c)
      by (Z.div_mod_to_equations; lia).
    rewrite <- (oc_norm_unique 65535); [done|unfold_c; lia|].
    destruct Ho as (_ & _ & Hz & Hm). unfold oceq. split_and!; [lia|unfold_c; lia|unfold_c; lia|].
    rewrite Hc. replace (A + (65535 - oc_norm A)) with (A - oc_norm A + 1 * 65535) by lia.
    rewrite Z.mod_add, Zminus_mod, Hm, Z.sub_diag by lia. done.
  - by rewrite !Forall_app.
  - revert Hl. rewrite !length_app. cbn [length]. lia.
Qed.

(** ** Properties *)

(** C34: the three versions of lwip_standard_chksum compute the same value, the
    ones' complement sum of RFC 1071, for every buffer of at most 0x20000 bytes
    and whatever the alignment of its start (version 3 for every length). *)
Theorem chksum_algorithms_agree addr addr' data :
  Forall is_u8 data ->
  lwip_standard_chksum_3 addr' data = rfc1071_sum data
  /\ (length data <= 0x20000 ->
      lwip_standard_chksum_1 data = rfc1071_sum data
      /\ lwip_standard_chksum_2 addr data = rfc1071_sum data).
Proof.
  intros H. split; [by apply chksum3_correct|].
  intros Hl. split; [by apply chksum1_correct|by apply chksum2_correct].
Qed.

Lemma chksum_algorithms_agree_witness :
  lwip_standard_chksum_3 2 [1; 2; 255; 254; 3; 200; 7; 9; 11] = 53782
  /\ lwip_standard_chksum_1 [1; 2; 255; 254; 3; 200; 7; 9; 11] = 53782
  /\ lwip_standard_chksum_2 7 [1; 2; 255; 254; 3; 200; 7; 9; 11] = 53782.
Proof.
  destruct (chksum_algorithms_agree 7 2 [1; 2; 255; 254; 3; 200; 7; 9; 11]) as [H3 H12].
  - repeat constructor; unfold is_u8; lia.
  - destruct H12 as [H1 H2]; [cbn; lia|]. rewrite H3, H1, H2. vm_compute. auto.
Defined.

Lemma chksum_pbuf_rfc p : Forall seg_ok p -> inet_chksum_pbuf p = rfc1071_checksum (chain_bytes p).
Proof.
  intros Hp. unfold inet_chksum_pbuf, rfc1071_checksum, rfc1071_sum.
  assert (H0 : is_u16 0) by (unfold_c; lia).
  destruct (chain_end_spec _ _ (chain_loop_spec p 0 Hp H0)) as [Hr He].
  rewrite complement_u16 by done. f_equal. by apply oc_norm_unique.
Qed.

(** inet_chksum_pbuf of a chain is the RFC 1071 checksum of the concatenated
    bytes of its pbufs: neither the way a packet is cut into pbufs (with odd
    lengths in the middle) nor the alignment of the payloads matters. *)
Theorem inet_chksum_pbuf_correct p :
  Forall seg_ok p -> inet_chksum_pbuf p = rfc1071_checksum (chain_bytes p).
Proof. apply chksum_pbuf_rfc. Qed.

Lemma inet_chksum_pbuf_correct_witness :
  inet_chksum_pbuf [(1, [69; 0; 1]); (4, [200]); (3, [17; 5; 6; 7; 8])]
  = rfc1071_checksum [69; 0; 1; 200; 17; 5; 6; 7; 8].
Proof.
  apply (inet_chksum_pbuf_correct [(1, [69; 0; 1]); (4, [200]); (3, [17; 5; 6; 7; 8])]).
  repeat constructor; cbn; unfold is_u8; lia.
Defined.

Lemma chksum_pseudo_rfc p proto proto_len src dest :
  Forall seg_ok p -> is_u8 proto -> is_u16 proto_len -> is_u32 src -> is_u32 dest ->
  inet_chksum_pseudo p proto proto_len src dest = rfc1071_checksum (pseudo_header src dest proto proto_len ++ chain_bytes p).
Proof.
  intros Hp Hpr Hpl Hs Hd. destruct (pseudo_start src dest Hs Hd) as [Hr Ho]. unfold inet_chksum_pseudo, rfc1071_checksum, rfc1071_sum.
  by rewrite pseudo_header_sum, (pseudo_base_spec _ _ _ _ _ Hp Hpr Hpl Hr Ho).
Qed.

(** ip_chksum_pseudo returns the RFC 1071 checksum of the IPv4 (or IPv6)
    pseudo header followed by the bytes of the chain, the value a transport
    header carries. *)
Theorem ip_chksum_pseudo_correct p proto proto_len src dest :
  Forall seg_ok p -> is_u8 proto -> is_u16 proto_len ->
  length (u_addr src) = 4%nat -> length (u_addr dest) = 4%nat ->
  Forall is_u32 (u_addr src) -> Forall is_u32 (u_addr dest) ->
  ip_chksum_pseudo p proto proto_len src dest
  = rfc1071_checksum
      ((if IP_IS_V6 dest then pseudo_header6 (u_addr src) (u_addr dest) proto proto_len
        else pseudo_header (ip_2_ip4 src) (ip_2_ip4 dest) proto proto_len) ++ chain_bytes p).
Proof.
  intros Hp Hpr Hpl Ls Ld Hs Hd. unfold ip_chksum_pseudo, rfc1071_checksum, rfc1071_sum.
  destruct (IP_IS_V6 dest).
  - unfold ip6_chksum_pseudo, ip_2_ip6.
    destruct (ip6_addr_loop_spec (u_addr src) (u_addr dest) 0) as [-> Hb];
      [congruence|done|done|lia|rewrite Ls; cbn; lia|].
    rewrite pseudo_header6_sum, Z.add_0_l. rewrite Ls in Hb.
    destruct (FOLD_FOLD (word_sum (u_addr src ≫= le_bytes4)
                         + word_sum (u_addr dest ≫= le_bytes4))) as [Hr Ho]; [unfold_c; lia|].
    by rewrite (pseudo_base_spec _ _ _ _ _ Hp Hpr Hpl Hr Ho).
  - assert (H4 : is_u32 (ip_2_ip4 src) /\ is_u32 (ip_2_ip4 dest)).
    { unfold ip_2_ip4. destruct Hs, Hd; try done. }
    apply chksum_pseudo_rfc; try done; apply H4.
Qed.

Lemma ip_chksum_pseudo_correct_witness :
  ip_chksum_pseudo [(0, [1; 2; 3]); (3, [4; 5])] 17 5
    {| u_addr := [0x0100007f; 0; 0; 0]; ip_type := IPADDR_TYPE_V4 |}
    {| u_addr := [0x010000e0; 0; 0; 0]; ip_type := IPADDR_TYPE_V4 |}
  = rfc1071_checksum (pseudo_header 0x0100007f 0x010000e0 17 5 ++ [1; 2; 3; 4; 5]).
Proof.
  apply (ip_chksum_pseudo_correct [(0, [1; 2; 3]); (3, [4; 5])] 17 5
    {| u_addr := [0x0100007f; 0; 0; 0]; ip_type := IPADDR_TYPE_V4 |}
    {| u_addr := [0x010000e0; 0; 0; 0]; ip_type := IPADDR_TYPE_V4 |});
    repeat constructor; cbn; unfold is_u8, is_u16, is_u32; lia.
Defined.

(** a packet whose 16 bit checksum field (at an even offset) holds the
    inet_chksum of the packet computed with that field zero checks to 0 at the
    receiver, at any alignment there. *)
Theorem inet_chksum_verifies addr addr' d1 d2 :
  Forall is_u8 d1 -> Forall is_u8 d2 -> length d1 mod 2 = 0 ->
  length (d1 ++ [0; 0] ++ d2) < 65536 ->
  let c := inet_chksum addr (d1 ++ [0; 0] ++ d2) in
  inet_chksum addr' (d1 ++ [c mod 256; c / 256] ++ d2) = 0.
Proof. apply chksum_field_verifies. Qed.

Lemma inet_chksum_verifies_witness :
  let c := inet_chksum 0 ([69; 0; 0; 20; 1; 2] ++ [0; 0] ++ [10; 0; 0; 1; 9]) in
  inet_chksum 1 ([69; 0; 0; 20; 1; 2] ++ [c mod 256; c / 256] ++ [10; 0; 0; 1; 9]) = 0.
Proof.
  apply (inet_chksum_verifies 0 1 [69; 0; 0; 20; 1; 2] [10; 0; 0; 1; 9]);
    try (repeat constructor; cbn; unfold is_u8; lia); reflexivity.
Defined.

(** a packet that verifies no longer does after any change of one byte. *)
Theorem inet_chksum_detects_byte_change addr addr' d1 b b' d2 :
  Forall is_u8 d1 -> Forall is_u8 d2 -> is_u8 b -> is_u8 b' -> b <> b' ->
  length (d1 ++ b :: d2) < 65536 ->
  inet_chksum addr (d1 ++ b :: d2) = 0 -> inet_chksum addr' (d1 ++ b' :: d2) <> 0.
Proof.
  intros H1 H2 Hb Hb' Hne Hl.
  assert (Hz : forall a x, is_u8 x -> inet_chksum a (d1 ++ x :: d2) = 0 ->
             word_sum (d1 ++ x :: d2) mod 65535 = 0).
  { intros a x Hx. unfold inet_chksum. rewrite LWIP_CHKSUM_correct.
    - assert (Hx2 : Forall is_u8 (d1 ++ x :: d2)) by (apply Forall_app; auto).
      pose proof (word_sum_nonneg _ Hx2) as Hw. unfold rfc1071_sum.
      pose proof (oc_norm_range _ Hw). pose proof (oc_norm_oceq _ Hw) as (_ & _ & _ & Hm).
      intros E. assert (Ei : oc_norm (word_sum (d1 ++ x :: d2)) = 65535)
        by (unfold Z.lnot in E; wrap_solve).
      by rewrite <- Hm, Ei.
    - apply Forall_app; auto.
    - revert Hl. rewrite !length_app. cbn [length]. lia. }
  intros E%Hz E'%Hz; [|done..].
  assert (Hd : exists w, (w = 1 \/ w = 256)
             /\ word_sum (d1 ++ b :: d2) - word_sum (d1 ++ b' :: d2) = w * (b - b')).
  { clear -d1. induction d1 as [|x|x y d1 IH] using list_pair_ind; cbn [app word_sum].
    - destruct d2; [exists 1; cbn; lia|]. exists 1. cbn [word_sum]. lia.
    - exists 256. lia.
    - destruct IH as (w & Hw & IH). exists w. lia. }
  destruct Hd as (w & Hw & Hd). revert Hd E E' Hw. unfold_c.
  generalize (word_sum (d1 ++ b :: d2)) (word_sum (d1 ++ b' :: d2)). intros s s' Hd E E' Hw.
  Z.div_mod_to_equations. nia.
Qed.

Lemma inet_chksum_detects_byte_change_witness :
  inet_chksum 0 ([1; 2] ++ 254 :: [253]) = 0 /\ inet_chksum 0 ([1; 2] ++ 255 :: [253]) <> 0.
Proof.
  split; [reflexivity|].
  apply (inet_chksum_detects_byte_change 0 0 [1; 2] 254 255 [253]);
    try (repeat constructor; cbn; unfold is_u8; lia); reflexivity.
Defined.

(** inet_chksum_pseudo_partial (UDP-Lite) covers the pseudo header and
    exactly the first [chksum_len] bytes of the chain, and reaches no assertion,
    when [chksum_len] is below 0x7fff. *)
Theorem inet_chksum_pseudo_partial_correct p proto proto_len clen src dest :
  Forall seg_ok p -> is_u8 proto -> is_u16 proto_len -> 0 <= clen < 0x7fff ->
  is_u32 src -> is_u32 dest ->
  inet_chksum_pseudo_partial p proto proto_len clen src dest
  = Ret (rfc1071_checksum (pseudo_header src dest proto proto_len
                           ++ take (Z.to_nat clen) (chain_bytes p))).
Proof.
  intros Hp Hpr Hpl Hc Hs Hd.
  destruct (pseudo_start src dest Hs Hd) as [Hr Ho].
  unfold inet_chksum_pseudo_partial, inet_cksum_pseudo_partial_base.
  set (acc := FOLD_U32T _) in *.
  assert (Ha : 0 <= acc) by (unfold_c; lia).
  destruct (partial_loop_spec p acc Hp Ha clen [] (acc, false)) as (st & -> & Hi); try done.
  { unfold chain_inv. cbn. rewrite Z.add_0_r. split_and!; [done|done|by apply oceq_refl]. }
  cbn [mbind outcome_bind app] in *. destruct (chain_end_spec _ _ Hi) as [He Hoe].
  f_equal. unfold rfc1071_checksum, rfc1071_sum. rewrite pseudo_header_sum.
  apply pseudo_end_spec; try done. etransitivity; [exact Hoe|].
  apply oceq_add; [done|]. apply oceq_refl, word_sum_nonneg, Forall_take, chain_bytes_ok, Hp.
Qed.

Lemma inet_chksum_pseudo_partial_correct_witness :
  inet_chksum_pseudo_partial [(0, [1; 2; 3]); (3, [4; 5])] 136 5 4 0x0100007f 0x010000e0
  = Ret (rfc1071_checksum (pseudo_header 0x0100007f 0x010000e0 136 5
                           ++ take (Z.to_nat 4) [1; 2; 3; 4; 5])).
Proof.
  apply (inet_chksum_pseudo_partial_correct [(0, [1; 2; 3]); (3, [4; 5])] 136 5 4);
    repeat constructor; cbn; unfold is_u8, is_u16, is_u32; lia.
Defined.

(** the leftover assertion of the partial loop aborts the stack on a legal
    request: a first pbuf that leaves 0x7fff or more bytes to be covered. *)
Theorem partial_assertion_fires addr data p proto proto_len clen src dest :
  0 < clen < 65536 -> length data + 0x7fff <= clen ->
  inet_chksum_pseudo_partial ((addr, data) :: p) proto proto_len clen src dest = Trap "delete me".
Proof.
  intros Hc Hl. unfold inet_chksum_pseudo_partial, inet_cksum_pseudo_partial_base.
  cbn [partial_loop]. replace (0 <? clen) with true by lia.
  replace (clen <? length data) with false by lia.
  rewrite u16_small by lia. by replace (clen - length data <? 0x7fff) with false by lia.
Qed.

Lemma partial_assertion_fires_witness :
  inet_chksum_pseudo_partial [(0, [1; 2; 3; 4]); (4, replicate (Z.to_nat 33000) 7)] 136 33004 33004 1 2
  = Trap "delete me".
Proof.
  apply (partial_assertion_fires 0 [1; 2; 3; 4] [(4, replicate (Z.to_nat 33000) 7)]); cbn; lia.
Defined.
