(* ===== verification/Ip4Addr.v ===== *)
(** * IPv4 addresses (src/lwip/src/core/ipv4/ip4_addr.c, include/lwip/ip4_addr.h)

    An address is the 32 bit object of the source, in network byte order: its
    first byte in memory is the most significant part of the address.  Strings
    are as in Def.v.  The file holds the classification macros, the broadcast
    and netmask tests, the parser [ip4addr_aton] and the printer
    [ip4addr_ntoa_r], and the grammar they implement. *)

From S2P Require Import Prelude Def.

#[local] Open Scope Z_scope.
#[local] Coercion Z.of_nat : nat >-> Z.

(** ** Constants and classification macros *)

Definition IPADDR_NONE : Z := 0xffffffff.
Definition IPADDR_ANY : Z := 0.
Definition IPADDR_BROADCAST : Z := 0xffffffff.

Definition ip4_addr_isany_val (addr : Z) : bool := addr =? IPADDR_ANY.
Definition ip4_addr_cmp (addr1 addr2 : Z) : bool := addr1 =? addr2.
Definition ip4_addr_netcmp (addr1 addr2 mask : Z) : bool := Z.land addr1 mask =? Z.land addr2 mask.
Definition ip4_addr_ismulticast (addr : Z) : bool :=
  Z.land addr (PP_HTONL 0xf0000000) =? PP_HTONL 0xe0000000.
Definition ip4_addr_islinklocal (addr : Z) : bool :=
  Z.land addr (PP_HTONL 0xffff0000) =? PP_HTONL 0xa9fe0000.
Definition ip4_addr_isloopback (addr : Z) : bool :=
  Z.land addr (PP_HTONL 0xff000000) =? PP_HTONL (Z.shiftl 127 24).

(** Byte [idx] of an address, counted from the lowest memory address. *)
Definition ip4_addr_get_byte (addr : Z) (idx : nat) : Z := default 0 (le_bytes4 addr !! idx).

(** ** Network interfaces

    The part of struct netif that the IPv4 modules read. *)
Record netif := Netif {
  netif_num : Z;
  netif_ip4_addr : Z;
  netif_ip4_netmask : Z;
  netif_ip4_gw : Z;
  netif_flags : Z;
  netif_hwaddr : list Z;
  netif_mtu : Z;
  netif_igmp_mac_filter : bool
}.

#[global] Instance netif_eq_dec : EqDecision netif.
Proof. solve_decision. Defined.

Definition NETIF_FLAG_BROADCAST : Z := 0x02.

(** ** Broadcast and netmask tests *)

Definition ip4_addr_isbroadcast_u32 (addr : Z) (nif : netif) : bool :=
  if (u32 (Z.lnot addr) =? IPADDR_ANY) || (addr =? IPADDR_ANY) then true
  else if Z.land (netif_flags nif) NETIF_FLAG_BROADCAST =? 0 then false
  else if addr =? netif_ip4_addr nif then false
  else if ip4_addr_netcmp addr (netif_ip4_addr nif) (netif_ip4_netmask nif)
          && (Z.land addr (u32 (Z.lnot (netif_ip4_netmask nif)))
              =? Z.land IPADDR_BROADCAST (u32 (Z.lnot (netif_ip4_netmask nif))))
  then true
  else false.

(** The first loop of ip4_addr_netmask_valid: the mask at the first zero bit. *)
Fixpoint first_zero_loop (fuel : nat) (nm mask : Z) : Z :=
  match fuel with
  | O => mask
  | S fuel =>
      if negb (mask =? 0) then
        if Z.land nm mask =? 0 then mask else first_zero_loop fuel nm (Z.shiftr mask 1)
      else mask
  end.

(** The second loop: [false] at a one. *)
Fixpoint no_more_ones_loop (fuel : nat) (nm mask : Z) : bool :=
  match fuel with
  | O => true
  | S fuel =>
      if negb (mask =? 0) then
        if negb (Z.land nm mask =? 0) then false else no_more_ones_loop fuel nm (Z.shiftr mask 1)
      else true
  end.

Definition ip4_addr_netmask_valid (netmask : Z) : bool :=
  let nm_hostorder := lwip_htonl netmask in
  let mask := first_zero_loop 33 nm_hostorder (Z.shiftl 1 31) in
  no_more_ones_loop 33 nm_hostorder mask.

(** ** Parsing *)

Definition lwip_isdigit (c : Z) : bool := (0x30 <=? c) && (c <=? 0x39).
Definition lwip_islower (c : Z) : bool := (0x61 <=? c) && (c <=? 0x7a).
Definition lwip_isxdigit (c : Z) : bool :=
  lwip_isdigit c || ((0x61 <=? c) && (c <=? 0x66)) || ((0x41 <=? c) && (c <=? 0x46)).
Definition lwip_isspace (c : Z) : bool :=
  (c =? 0x20) || (c =? 0x0c) || (c =? 0x0a) || (c =? 0x0d) || (c =? 0x09) || (c =? 0x0b).

(** The inner loop: collects the digits of one number in [base]. *)
Fixpoint number_loop (base val : Z) (cp : list Z) : Z * list Z :=
  match cp with
  | [] => (val, [])
  | c :: cp' =>
      if lwip_isdigit c then number_loop base (u32 (u32 (val * base) + u32 (c - 0x30))) cp'
      else if (base =? 16) && lwip_isxdigit c then
        number_loop base (Z.lor (u32 (Z.shiftl val 4))
                                (u32 (c + 10 - (if lwip_islower c then 0x61 else 0x41)))) cp'
      else (val, cp)
  end.

(** The head of the outer loop: base prefix and number. *)
Definition collect_number (cp : list Z) : Z * list Z :=
  if hd 0 cp =? 0x30 then
    let cp := tl cp in
    if (hd 0 cp =? 0x78) || (hd 0 cp =? 0x58) then number_loop 16 0 (tl cp)
    else number_loop 8 0 cp
  else number_loop 10 0 cp.

(** The outer loop.  [slots] is the number of entries of [parts] that may still
    be stored (pp < parts + 3), [parts] holds the stored ones; the result is
    [val], the stored parts and the rest of the string, or [None] (return 0). *)
Fixpoint parts_loop (slots : nat) (parts : list Z) (cp : list Z) : option (Z * list Z * list Z) :=
  if negb (lwip_isdigit (hd 0 cp)) then None
  else
    let '(val, cp) := collect_number cp in
    if hd 0 cp =? 0x2e then
      match slots with
      | O => None
      | S slots => parts_loop slots (parts ++ [val]) (tl cp)
      end
    else Some (val, parts, cp).

(** ip4addr_aton: [Ret (Some addr)] when it returns 1 having stored [addr]. *)
Definition ip4addr_aton (cp : list Z) : outcome (option Z) :=
  match parts_loop 3 [] cp with
  | None => Ret None
  | Some (val, parts, cp) =>
      if negb (hd 0 cp =? 0) && negb (lwip_isspace (hd 0 cp)) then Ret None
      else
        match parts with
        | [] => Ret (Some (lwip_htonl val))
        | [p0] =>
            if 0xffffff <? val then Ret None
            else if 0xff <? p0 then Ret None
            else Ret (Some (lwip_htonl (Z.lor val (u32 (Z.shiftl p0 24)))))
        | [p0; p1] =>
            if 0xffff <? val then Ret None
            else if (0xff <? p0) || (0xff <? p1) then Ret None
            else Ret (Some (lwip_htonl (Z.lor val (Z.lor (u32 (Z.shiftl p0 24))
                                                         (u32 (Z.shiftl p1 16))))))
        | [p0; p1; p2] =>
            if 0xff <? val then Ret None
            else if (0xff <? p0) || (0xff <? p1) || (0xff <? p2) then Ret None
            else Ret (Some (lwip_htonl (Z.lor val (Z.lor (Z.lor (u32 (Z.shiftl p0 24))
                                                                (u32 (Z.shiftl p1 16)))
                                                         (u32 (Z.shiftl p2 8))))))
        | _ => Trap "unhandled"
        end
  end.

Definition ipaddr_addr (cp : list Z) : outcome Z :=
  r ← ip4addr_aton cp;
  Ret (match r with Some val => val | None => IPADDR_NONE end).

(** ** Printing *)

Definition IP4ADDR_STRLEN_MAX : nat := 16.

(** The do-while loop that stores the digits of one byte into [inv], lowest
    first; a byte strictly decreases, so its value bounds the iterations. *)
Fixpoint inv_loop (fuel : nat) (ap : Z) (inv : list Z) : list Z :=
  match fuel with
  | O => inv
  | S fuel =>
      let rem := Z.modulo ap 10 in
      let ap := ap / 10 in
      let inv := inv ++ [0x30 + rem] in
      if negb (ap =? 0) then inv_loop fuel ap inv else inv
  end.

(** One guarded store through [rp]; [len] is also the offset of [rp]. *)
Definition ntoa_put (buflen : Z) (c : Z) (st : nat * list Z) : bool * (nat * list Z) :=
  let '(len, buf) := st in
  if buflen <=? len then (false, (S len, buf)) else (true, (S len, <[len := c]> buf)).

Fixpoint put_digits (buflen : Z) (inv : list Z) (i : nat) (st : nat * list Z)
  : bool * (nat * list Z) :=
  match i with
  | O => (true, st)
  | S i =>
      let '(ok, st) := ntoa_put buflen (default 0 (inv !! i)) st in
      if ok then put_digits buflen inv i st else (false, st)
  end.

Fixpoint ntoa_loop (buflen : Z) (ap : list Z) (st : nat * list Z) : bool * (nat * list Z) :=
  match ap with
  | [] => (true, st)
  | b :: ap =>
      let inv := inv_loop (S (Z.to_nat b)) b [] in
      let '(ok, st) := put_digits buflen inv (length inv) st in
      if negb ok then (false, st)
      else
        let '(ok, st) := ntoa_put buflen 0x2e st in
        if negb ok then (false, st) else ntoa_loop buflen ap st
  end.

(** ip4addr_ntoa_r: whether the result is non-NULL, and the buffer. *)
Definition ip4addr_ntoa_r (addr : Z) (buf : list Z) (buflen : Z) : bool * list Z :=
  let '(ok, (len, buf)) := ntoa_loop buflen (le_bytes4 addr) (0%nat, buf) in
  if ok then (true, <[Nat.pred len := 0]> buf) else (false, buf).

Definition ip4addr_ntoa (addr : Z) (str : list Z) : bool * list Z :=
  ip4addr_ntoa_r addr str IP4ADDR_STRLEN_MAX.

(** ** Specification *)

(** The value of a digit string in a base, a hexadecimal digit of either case. *)
Definition digit_value (c : Z) : Z :=
  if lwip_isdigit c then c - 0x30 else if lwip_islower c then c - 0x61 + 10 else c - 0x41 + 10.
Definition base_value (base : Z) (s : list Z) : Z :=
  fold_left (λ a c, a * base + digit_value c) s 0.

(** The numerals the parser reads, with their values.  Note that after a
    leading zero the digits 8 and 9 are still read (in base 8), that "0x" alone
    is a numeral and that values are taken modulo 2^32. *)
Inductive numeral : list Z -> Z -> Prop :=
| numeral_dec c s :
    lwip_isdigit c = true -> c <> 0x30 -> Forall (λ c, lwip_isdigit c = true) s ->
    numeral (c :: s) (u32 (base_value 10 (c :: s)))
| numeral_oct s :
    Forall (λ c, lwip_isdigit c = true) s ->
    numeral (0x30 :: s) (u32 (base_value 8 s))
| numeral_hex x s :
    x = 0x78 \/ x = 0x58 -> Forall (λ c, lwip_isxdigit c = true) s ->
    numeral (0x30 :: x :: s) (u32 (base_value 16 s)).

(** The parts of an address: all but the last are one byte, the last one fills
    the remaining bytes. *)
Fixpoint parts_value (parts : list Z) (val : Z) (width : Z) : option Z :=
  match parts with
  | [] => if val <? 2 ^ width then Some val else None
  | p :: parts =>
      if p <? 256 then
        v ← parts_value parts val (width - 8); Some (p * 2 ^ (width - 8) + v)
      else None
  end.

(** What may follow the address: the end of the string or white space. *)
Definition tail_ok (rest : list Z) : bool := (hd 0 rest =? 0) || lwip_isspace (hd 0 rest).

(** [dotted toks last rest]: the tokens, each followed by a dot, then the last
    token and the rest. *)
Fixpoint dotted (toks : list (list Z)) (last rest : list Z) : list Z :=
  match toks with
  | [] => last ++ rest
  | t :: toks => t ++ 0x2e :: dotted toks last rest
  end.

(** The address grammar: at most four numerals separated by dots. *)
Definition denotes (cp : list Z) (addr : Z) : Prop :=
  exists toks last rest parts val host,
    cp = dotted toks last rest /\ (length toks <= 3)%nat /\ tail_ok rest = true
    /\ Forall2 numeral toks parts /\ numeral last val
    /\ parts_value parts val 32 = Some host /\ addr = lwip_htonl host.

(** The decimal numeral of a byte, and the dotted quad of four bytes. *)
Definition byte_string (b : Z) : list Z :=
  if b <? 10 then [0x30 + b]
  else if b <? 100 then [0x30 + b / 10; 0x30 + b mod 10]
  else [0x30 + b / 100; 0x30 + b / 10 mod 10; 0x30 + b mod 10].

Definition quad_string (addr : Z) : list Z :=
  match le_bytes4 addr with
  | [b0; b1; b2; b3] =>
      dotted [byte_string b0; byte_string b1; byte_string b2] (byte_string b3) []
  | _ => []
  end.

(** ** Lemmas: parsing one number *)

(** The characters the inner loop consumes in a base. *)
Definition in_base (base c : Z) : bool := lwip_isdigit c || ((base =? 16) && lwip_isxdigit c).

(** A character at which the collection of a number stops. *)
Definition stops (base : Z) (rest : list Z) : Prop :=
  match rest with [] => True | c :: _ => in_base base c = false end.

Lemma span_exists base cp :
  exists s rest, cp = s ++ rest /\ Forall (λ c, in_base base c = true) s /\ stops base rest.
Proof.
  induction cp as [|c cp (s & rest & -> & Hs & Hr)]; [by exists [], []|].
  destruct (in_base base c) eqn:E.
  - exists (c :: s), rest. auto.
  - exists [], (c :: s ++ rest). auto.
Qed.

Lemma digit_value_range c : lwip_isxdigit c = true -> 0 <= digit_value c < 16.
Proof.
  unfold lwip_isxdigit, digit_value, lwip_islower, lwip_isdigit. intros H.
  repeat case_if; lia.
Qed.

Lemma isdigit_isxdigit c : lwip_isdigit c = true -> lwip_isxdigit c = true.
Proof. unfold lwip_isxdigit. by intros ->. Qed.

(** One hexadecimal letter, read as the source reads it. *)
Lemma hex_letter_step v c :
  lwip_isdigit c = false -> lwip_isxdigit c = true ->
  Z.lor (u32 (Z.shiftl (u32 v) 4)) (u32 (c + 10 - (if lwip_islower c then 0x61 else 0x41)))
  = u32 (v * 16 + digit_value c).
Proof.
  intros Hd Hx. pose proof (digit_value_range c Hx) as Hr. unfold digit_value in *.
  rewrite Hd in *.
  set (d := if lwip_islower c then c - 0x61 + 10 else c - 0x41 + 10) in *.
  replace (c + 10 - (if lwip_islower c then 0x61 else 0x41)) with d
    by (subst d; destruct (lwip_islower c); lia).
  rewrite (u32_small d) by lia.
  rewrite Z.shiftl_mul_pow2 by lia.
  replace (u32 (u32 v * 2 ^ 4)) with (v mod 2 ^ 28 * 2 ^ 4)
    by (change (2 ^ 4) with 16; change (2 ^ 28) with 268435456; wrap_solve).
  rewrite Z.lor_comm, lor_disjoint_mul by lia.
  change (2 ^ 4) with 16; change (2 ^ 28) with 268435456. wrap_solve.
Qed.

Lemma digit_step base v c :
  lwip_isdigit c = true ->
  u32 (u32 (u32 v * base) + u32 (c - 0x30)) = u32 (v * base + digit_value c).
Proof.
  intros Hd. unfold digit_value. rewrite Hd. unfold u32.
  rewrite <- Z.add_mod by lia.
  by rewrite <- Z.add_mod_idemp_l, Z.mul_mod_idemp_l, Z.add_mod_idemp_l by lia.
Qed.

Lemma number_loop_spec base v s rest :
  Forall (λ c, in_base base c = true) s -> stops base rest ->
  number_loop base (u32 v) (s ++ rest)
  = (u32 (fold_left (λ a c, a * base + digit_value c) s v), rest).
Proof.
  intros Hs Hr. revert v. induction Hs as [|c s Hc Hs IH]; intros v; cbn [app fold_left].
  - destruct rest as [|c rest]; [done|]. cbn in Hr. unfold in_base in Hr.
    apply orb_false_iff in Hr as [Hd Hx]. cbn. by rewrite Hd, Hx.
  - cbn [number_loop]. unfold in_base in Hc. destruct (lwip_isdigit c) eqn:Hd.
    + by rewrite digit_step, IH.
    + cbn in Hc. rewrite Hc. apply andb_true_iff in Hc as [Hb Hx]. bool_to_prop. subst base.
      by rewrite hex_letter_step, IH.
Qed.

Lemma number_loop_0 base s rest :
  Forall (λ c, in_base base c = true) s -> stops base rest ->
  number_loop base 0 (s ++ rest) = (u32 (base_value base s), rest).
Proof. intros. change 0 with (u32 0). by apply number_loop_spec. Qed.

Lemma in_base_digits base s :
  base <> 16 -> Forall (λ c, in_base base c = true) s <-> Forall (λ c, lwip_isdigit c = true) s.
Proof.
  intros Hb. apply Forall_iff. intros c. unfold in_base.
  replace (base =? 16) with false by lia. cbn. by rewrite orb_false_r.
Qed.

Lemma in_base_hex s :
  Forall (λ c, in_base 16 c = true) s <-> Forall (λ c, lwip_isxdigit c = true) s.
Proof.
  apply Forall_iff. intros c. unfold in_base, lwip_isxdigit. cbn. by destruct (lwip_isdigit c).
Qed.

(** The rest of the string after a number: end, space or dot. *)
Definition delim (rest : list Z) : Prop :=
  hd 0 rest = 0 \/ lwip_isspace (hd 0 rest) = true \/ hd 0 rest = 0x2e.

Lemma delim_char c :
  c = 0 \/ lwip_isspace c = true \/ c = 0x2e ->
  lwip_isxdigit c = false /\ lwip_isdigit c = false /\ c <> 0x78 /\ c <> 0x58 /\ c <> 0x30.
Proof.
  unfold lwip_isspace. rewrite !orb_true_iff, !Z.eqb_eq. intros H.
  destruct_or!; subst; by split_and!.
Qed.

Lemma delim_stops base rest : delim rest -> stops base rest.
Proof.
  destruct rest as [|c rest]; [done|]. intros (Hx & Hd & _)%delim_char.
  cbn in *. unfold in_base. by rewrite Hd, Hx, andb_false_r.
Qed.

Lemma collect_number_complete t v rest :
  numeral t v -> delim rest -> lwip_isdigit (hd 0 (t ++ rest)) = true
  /\ collect_number (t ++ rest) = (v, rest).
Proof.
  intros Ht Hr. destruct Ht as [c s Hc Hn Hs|s Hs|x s Hx Hs]; cbn [app hd].
  - split; [done|]. unfold collect_number. cbn [hd tl app].
    replace (c =? 0x30) with false by lia. apply (number_loop_0 10 (c :: s)).
    + apply in_base_digits; [lia|]. by constructor.
    + by apply delim_stops.
  - split; [done|]. unfold collect_number. cbn [hd tl app]. rewrite Z.eqb_refl.
    assert (Hx : (hd 0 (s ++ rest) =? 0x78) || (hd 0 (s ++ rest) =? 0x58) = false).
    { destruct Hs as [|c s Hc Hs]; cbn [app hd].
      - apply delim_char in Hr. lia.
      - unfold lwip_isdigit in Hc. lia. }
    rewrite Hx. apply number_loop_0; [|by apply delim_stops].
    by apply in_base_digits.
  - split; [done|]. unfold collect_number. cbn [hd tl app]. rewrite Z.eqb_refl.
    replace ((x =? 0x78) || (x =? 0x58)) with true by lia.
    apply number_loop_0; [|by apply delim_stops]. by apply in_base_hex.
Qed.

Lemma collect_number_sound cp v rest :
  lwip_isdigit (hd 0 cp) = true -> collect_number cp = (v, rest) ->
  exists t, cp = t ++ rest /\ numeral t v.
Proof.
  intros Hd. destruct cp as [|c cp]; [done|]. cbn [hd] in Hd. unfold collect_number.
  cbn [hd tl]. destruct (c =? 0x30) eqn:E0; bool_to_prop.
  - subst c. destruct ((hd 0 cp =? 0x78) || (hd 0 cp =? 0x58)) eqn:Ex.
    + destruct cp as [|x cp]; [done|]. cbn [hd tl] in *.
      destruct (span_exists 16 cp) as (s & r & -> & Hs & Hr).
      rewrite number_loop_0 by done. intros [= <- <-].
      exists (0x30 :: x :: s). split; [done|]. constructor; [lia|by apply in_base_hex].
    + destruct (span_exists 8 cp) as (s & r & -> & Hs & Hr).
      rewrite number_loop_0 by done. intros [= <- <-].
      exists (0x30 :: s). split; [done|]. constructor. by apply (in_base_digits 8).
  - destruct (span_exists 10 (c :: cp)) as (s & r & Hcp & Hs & Hr).
    rewrite Hcp, number_loop_0 by done. intros [= <- <-]. exists s. split; [done|].
    apply in_base_digits in Hs; [|lia].
    destruct Hs as [|c' s Hc' Hs].
    + cbn in Hcp. subst r. cbn in Hr. unfold in_base in Hr. by rewrite Hd in Hr.
    + cbn in Hcp. injection Hcp as <- ->. by constructor.
Qed.

Lemma numeral_u32 t v : numeral t v -> is_u32 v.
Proof. destruct 1; apply u32_range. Qed.

(** ** Lemmas: the parts *)

Lemma parts_loop_complete toks parts last val rest slots ps :
  Forall2 numeral toks parts -> numeral last val -> tail_ok rest = true -> (length toks <= slots)%nat ->
  parts_loop slots ps (dotted toks last rest) = Some (val, ps ++ parts, rest).
Proof.
  intros Ht Hl Hr. revert slots ps. induction Ht as [|t v toks parts Ht Hts IH]; intros slots ps Hlen.
  - assert (Hd : delim rest).
    { unfold delim. unfold tail_ok in Hr. apply orb_true_iff in Hr. rewrite Z.eqb_eq in Hr. tauto. }
    assert (Hdot : (hd 0 rest =? 0x2e) = false).
    { unfold tail_ok, lwip_isspace in Hr. lia. }
    destruct (collect_number_complete last val rest Hl Hd) as [H1 H2].
    cbn [dotted]. unfold parts_loop. destruct slots; rewrite H1, H2; cbn [negb].
    all: by rewrite Hdot, app_nil_r.
  - cbn in Hlen. destruct slots as [|slots]; [lia|].
    destruct (collect_number_complete t v (0x2e :: dotted toks last rest) Ht) as [H1 H2];
      [by do 2 right|].
    cbn [dotted parts_loop]. rewrite H1, H2. cbn [negb hd tl Z.eqb Pos.eqb].
    rewrite IH by lia. by rewrite <- app_assoc.
Qed.

Lemma parts_loop_sound slots ps cp val ps' rest :
  parts_loop slots ps cp = Some (val, ps', rest) ->
  exists toks parts last,
    cp = dotted toks last rest /\ (length toks <= slots)%nat /\ Forall2 numeral toks parts
    /\ numeral last val /\ ps' = ps ++ parts.
Proof.
  revert ps cp. induction slots as [|slots IH]; intros ps cp; cbn [parts_loop];
    (destruct (lwip_isdigit (hd 0 cp)) eqn:Hd; [|done]); cbn [negb];
    destruct (collect_number cp) as [v r] eqn:Ec;
    destruct (collect_number_sound _ _ _ Hd Ec) as (t & -> & Ht);
    (destruct (hd 0 r =? 0x2e) eqn:E; [|intros [= <- <- <-]; exists [], [], t;
       rewrite app_nil_r; split_and!; (done || cbn; lia || constructor)]); [done|].
  intros H. apply IH in H as (toks & parts & last & Htl & Hlen & Hts & Hl & ->).
  exists (t :: toks), (v :: parts), last. bool_to_prop.
  destruct r as [|c r]; [done|]. cbn in E, Htl. subst c r.
  split_and!; [done|cbn; lia|by constructor|done|by rewrite <- app_assoc].
Qed.

Lemma parts_value_range parts val w host :
  Forall is_u32 parts -> 0 <= val -> (8 * length parts <= w) ->
  parts_value parts val w = Some host -> 0 <= host < 2 ^ w.
Proof.
  intros Hp Hv. revert w host. induction Hp as [|p parts Hp Hps IH]; intros w host Hw; cbn.
  - case_if; [|done]. intros [= <-]. lia.
  - cbn in Hw. case_if; [|done]. destruct (parts_value _ _ _) as [v|] eqn:Ev; [|done].
    intros [= <-]. apply IH in Ev; [|lia]. unfold is_u32 in Hp.
    replace (2 ^ w) with (256 * 2 ^ (w - 8)); [nia|].
    change 256 with (2 ^ 8). rewrite <- Z.pow_add_r by lia. f_equal. lia.
Qed.

Lemma lor_part val p n :
  0 <= n -> 0 <= val < 2 ^ n -> 0 <= p < 256 -> p * 2 ^ n < 4294967296 ->
  Z.lor val (u32 (Z.shiftl p n)) = val + p * 2 ^ n.
Proof.
  intros Hn Hv Hp Hm. rewrite Z.shiftl_mul_pow2 by lia.
  rewrite u32_small by nia. by apply lor_disjoint_mul.
Qed.

(** The switch of ip4addr_aton computes the value of the parts. *)
Lemma aton_switch cp val parts rest :
  parts_loop 3 [] cp = Some (val, parts, rest) ->
  ip4addr_aton cp =
  Ret (if tail_ok rest then lwip_htonl <$> parts_value parts val 32 else None).
Proof.
  intros Hp. destruct (parts_loop_sound _ _ _ _ _ _ Hp) as (toks & ps & last & _ & Hl & Hts & Hlast & E).
  cbn in E. subst ps.
  assert (Hlen : (length parts <= 3)%nat) by (by rewrite <- (Forall2_length _ _ _ Hts)).
  assert (Hps : Forall is_u32 parts).
  { clear -Hts. induction Hts; constructor; eauto using numeral_u32. }
  apply numeral_u32 in Hlast. unfold ip4addr_aton. rewrite Hp.
  rewrite <- negb_orb. fold (tail_ok rest). destruct (tail_ok rest); [cbn [negb]|done].
  unfold is_u32 in Hlast. change (2 ^ 32) with 4294967296 in Hlast.
  destruct parts as [|p0 [|p1 [|p2 [|]]]]; cbn in Hlen; [| | | |lia];
    repeat (apply Forall_cons in Hps as [? Hps]); unfold is_u32 in *; cbn [parts_value].
  all: change (2 ^ (32 - 8 - 8 - 8)) with 256; change (2 ^ (32 - 8 - 8)) with 65536;
    change (2 ^ (32 - 8)) with 16777216.
  - by replace (val <? 2 ^ 32) with true by lia.
  - repeat case_if; try (lia || done). cbn. rewrite lor_part by lia.
    do 3 f_equal. lia.
  - repeat case_if; try (lia || done). cbn.
    rewrite (Z.lor_comm (u32 _)), Z.lor_assoc by lia.
    rewrite (lor_part val p1), (lor_part _ p0) by lia. do 3 f_equal. lia.
  - repeat case_if; try (lia || done). cbn.
    rewrite (Z.lor_comm (Z.lor _ _) (u32 _)), (Z.lor_comm (u32 (Z.shiftl p0 24))), !Z.lor_assoc.
    rewrite (lor_part val p2), (lor_part _ p1), (lor_part _ p0) by lia. do 3 f_equal. lia.
Qed.

Lemma aton_complete cp addr : denotes cp addr -> ip4addr_aton cp = Ret (Some addr).
Proof.
  intros (toks & last & rest & parts & val & host & -> & Hl & Hr & Hts & Hlast & Hv & ->).
  rewrite (aton_switch _ val parts rest) by (by apply (parts_loop_complete toks parts last val rest 3 [])).
  by rewrite Hr, Hv.
Qed.

Lemma aton_sound cp addr : ip4addr_aton cp = Ret (Some addr) -> denotes cp addr.
Proof.
  destruct (parts_loop 3 [] cp) as [[[val parts] rest]|] eqn:Hp.
  - rewrite (aton_switch _ _ _ _ Hp). destruct (tail_ok rest) eqn:Hr; [|done].
    destruct (parts_value parts val 32) as [host|] eqn:Hv; [|done]. intros [= <-].
    destruct (parts_loop_sound _ _ _ _ _ _ Hp) as (toks & ps & last & -> & Hl & Hts & Hlast & E).
    cbn in E. subst ps. exists toks, last, rest, parts, val, host. by split_and!.
  - unfold ip4addr_aton. by rewrite Hp.
Qed.

Lemma aton_never_traps cp : exists r, ip4addr_aton cp = Ret r.
Proof.
  destruct (parts_loop 3 [] cp) as [[[val parts] rest]|] eqn:Hp.
  - rewrite (aton_switch _ _ _ _ Hp). eauto.
  - unfold ip4addr_aton. rewrite Hp. eauto.
Qed.

(** ** Lemmas: printing *)

(** Guarded stores of a list of characters. *)
Fixpoint put_all (buflen : Z) (cs : list Z) (st : nat * list Z) : bool * (nat * list Z) :=
  match cs with
  | [] => (true, st)
  | c :: cs =>
      let '(ok, st) := ntoa_put buflen c st in
      if ok then put_all buflen cs st else (false, st)
  end.

Lemma put_all_app buflen a b st :
  put_all buflen (a ++ b) st =
  (let '(ok, st) := put_all buflen a st in if ok then put_all buflen b st else (false, st)).
Proof.
  revert st. induction a as [|c a IH]; intros st; [done|]. cbn [app put_all].
  destruct (ntoa_put buflen c st) as [[] st']; [apply IH|done].
Qed.

Lemma put_digits_all buflen inv i st :
  (i <= length inv)%nat -> put_digits buflen inv i st = put_all buflen (rev (take i inv)) st.
Proof.
  revert st. induction i as [|i IH]; intros st Hi; [done|].
  destruct (lookup_lt_is_Some_2 inv i) as [c Hc]; [lia|].
  erewrite take_S_r, rev_app_distr by done. cbn [rev app put_digits put_all].
  rewrite Hc. cbn [default from_option id].
  destruct (ntoa_put buflen c st) as [[] st']; [|done]. apply IH. lia.
Qed.

Lemma inv_loop_byte b :
  is_u8 b -> rev (inv_loop (S (Z.to_nat b)) b []) = byte_string b
             /\ (length (inv_loop (S (Z.to_nat b)) b []) <= 3)%nat.
Proof.
  intros Hb. set (f := λ n : nat, inv_loop (S n) (Z.of_nat n) []).
  cut (forallb (λ n, bool_decide (rev (f n) = byte_string (Z.of_nat n))
                     && (length (f n) <=? 3)%nat) (seq 0 256) = true);
    [|vm_compute; reflexivity].
  rewrite forallb_forall. intros H.
  specialize (H (Z.to_nat b) ltac:(apply in_seq; unfold_c; lia)).
  apply andb_true_iff in H as [H1 H2]. rewrite bool_decide_eq_true in H1.
  apply Nat.leb_le in H2. unfold f in *. by rewrite Z2Nat.id in H1, H2 by (unfold_c; lia).
Qed.

(** The characters the loop of ip4addr_ntoa_r stores. *)
Definition ntoa_text (bs : list Z) : list Z := bs ≫= (λ b, byte_string b ++ [0x2e]).

Lemma ntoa_loop_all buflen bs st :
  Forall is_u8 bs -> ntoa_loop buflen bs st = put_all buflen (ntoa_text bs) st.
Proof.
  intros Hb. revert st. induction Hb as [|b bs Hb Hbs IH]; intros st; [done|].
  cbn [ntoa_loop ntoa_text mbind list_bind]. fold (ntoa_text bs).
  rewrite put_digits_all, take_ge, (proj1 (inv_loop_byte b Hb)) by lia.
  rewrite <- app_assoc, put_all_app. destruct (put_all buflen (byte_string b) st) as [[] st'];
    [|done].
  cbn [negb app put_all]. destruct (ntoa_put buflen 0x2e st') as [[] st'']; [|done].
  cbn [negb]. apply IH.
Qed.

Lemma put_all_ok buflen cs pre suf :
  length pre + length cs <= buflen -> buflen <= length (pre ++ suf) ->
  put_all buflen cs (length pre, pre ++ suf)
  = (true, (length (pre ++ cs), (pre ++ cs) ++ drop (length cs) suf)).
Proof.
  revert pre suf. induction cs as [|c cs IH]; intros pre suf H1 H2; cbn [put_all].
  - by rewrite drop_0, app_nil_r.
  - cbn [length] in H1. unfold ntoa_put. replace (buflen <=? length pre) with false by lia.
    rewrite length_app in H2. destruct suf as [|x suf]; cbn [length] in H2; [lia|].
    replace (<[length pre := c]> (pre ++ x :: suf)) with ((pre ++ [c]) ++ suf)
      by (rewrite insert_app_r_alt, Nat.sub_diag, <- app_assoc by lia; done).
    replace (S (length pre)) with (length (pre ++ [c])) by (rewrite length_app; cbn; lia).
    rewrite IH by (rewrite !length_app; cbn; lia).
    cbn [drop length]. by rewrite <- app_assoc.
Qed.

Lemma put_all_fail buflen cs (st : nat * list Z) :
  st.1 <= buflen < st.1 + length cs -> fst (put_all buflen cs st) = false.
Proof.
  destruct st as [len buf]. cbn. revert len buf. induction cs as [|c cs IH]; intros len buf H;
    cbn in *; [lia|]. case_if; cbn; [done|]. apply IH. lia.
Qed.

Lemma put_all_frame buflen cs (st : nat * list Z) :
  0 <= buflen ->
  let buf' := (put_all buflen cs st).2.2 in
  length buf' = length st.2 /\ drop (Z.to_nat buflen) buf' = drop (Z.to_nat buflen) st.2.
Proof.
  intros Hb. revert st. induction cs as [|c cs IH]; intros [len buf]; cbn; [done|].
  case_if; cbn; [done|]. destruct (IH (S len, <[len:=c]> buf)) as [IH1 IH2]. cbn in *.
  rewrite IH1, IH2, length_insert, drop_insert_lt by lia. done.
Qed.

Lemma ntoa_text_quad addr : ntoa_text (le_bytes4 addr) = quad_string addr ++ [0x2e].
Proof.
  unfold quad_string. cbn -[byte_string Z.div Z.modulo]. rewrite !app_nil_r.
  by repeat (rewrite <- app_assoc; cbn [app]).
Qed.

Lemma byte_string_chars b :
  is_u8 b -> Forall (λ c, lwip_isdigit c = true) (byte_string b)
             /\ (1 <= length (byte_string b) <= 3)%nat.
Proof.
  intros Hb. unfold byte_string, lwip_isdigit. repeat case_if; split; cbn [length];
    repeat constructor; wrap_solve.
Qed.

Lemma quad_string_chars addr :
  Forall (λ c, c <> 0) (quad_string addr) /\ (7 <= length (quad_string addr) <= 15)%nat.
Proof.
  unfold quad_string. pose proof (le_bytes4_range addr) as H.
  destruct (le_bytes4 addr) as [|b0 [|b1 [|b2 [|b3 [|]]]]] eqn:E; try done.
  repeat (apply Forall_cons in H as [?%byte_string_chars H]). clear E H.
  assert (Hd : forall s, Forall (λ c, lwip_isdigit c = true) s -> Forall (λ c, c <> 0) s).
  { intros s Hs. eapply Forall_impl; [exact Hs|]. unfold lwip_isdigit. intros. lia. }
  split.
  - cbn [dotted]. rewrite app_nil_r. repeat (apply Forall_app; split; [apply Hd; tauto|]; constructor; [lia|]).
    apply Hd; tauto.
  - cbn [dotted]. rewrite app_nil_r. repeat (rewrite length_app; cbn [length]). lia.
Qed.

Lemma ntoa_r_success addr buf buflen :
  length (quad_string addr) < buflen -> buflen <= length buf ->
  ip4addr_ntoa_r addr buf buflen
  = (true, quad_string addr ++ 0 :: drop (S (length (quad_string addr))) buf).
Proof.
  intros H1 H2. unfold ip4addr_ntoa_r. rewrite ntoa_loop_all by apply le_bytes4_range.
  rewrite ntoa_text_quad. change (0%nat, buf) with (length (@nil Z), [] ++ buf).
  rewrite put_all_ok by (cbn [app]; rewrite ?length_app; cbn [length]; lia).
  cbn [app]. rewrite !length_app. cbn [length]. f_equal.
  replace (Nat.pred (length (quad_string addr) + 1)) with (length (quad_string addr)) by lia.
  replace (length (quad_string addr) + 1)%nat with (S (length (quad_string addr))) by lia.
  rewrite <- app_assoc. rewrite insert_app_r_alt, Nat.sub_diag by lia. done.
Qed.

Lemma ntoa_r_null addr buf buflen :
  0 <= buflen <= length (quad_string addr) -> fst (ip4addr_ntoa_r addr buf buflen) = false.
Proof.
  intros H. unfold ip4addr_ntoa_r. rewrite ntoa_loop_all by apply le_bytes4_range.
  pose proof (put_all_fail buflen (ntoa_text (le_bytes4 addr)) (0%nat, buf)) as Hf.
  rewrite ntoa_text_quad, length_app in *. cbn [fst length] in Hf.
  destruct (put_all _ _ _) as [ok [len b]]. cbn [fst] in Hf. rewrite Hf by lia. done.
Qed.

Lemma byte_numeral b : is_u8 b -> numeral (byte_string b) b.
Proof.
  intros Hb. assert (Hd : forall d, 0 <= d < 10 -> digit_value (48 + d) = d).
  { intros d Hd. unfold digit_value. replace (lwip_isdigit (48 + d)) with true
      by (unfold lwip_isdigit; lia). lia. }
  destruct (decide (b = 0)) as [->|Hz]; [by apply (numeral_oct [])|].
  assert (Hv : u32 (base_value 10 (byte_string b)) = b).
  { unfold byte_string, base_value. repeat case_if; cbn [fold_left];
      rewrite !Hd by wrap_solve; wrap_solve. }
  destruct (byte_string b) as [|c s] eqn:E.
  { by destruct (byte_string_chars b Hb) as [_ Hl]; rewrite E in Hl; cbn in Hl; lia. }
  destruct (byte_string_chars b Hb) as [Hc _]. rewrite E in Hc. apply Forall_cons in Hc as [Hc Hs].
  rewrite <- Hv. constructor; [done| |done].
  revert E. unfold byte_string. repeat case_if; intros [= <- _]; wrap_solve.
Qed.

Lemma quad_denotes addr : is_u32 addr -> denotes (quad_string addr) addr.
Proof.
  intros Ha. destruct (u32_split addr Ha) as (b0 & b1 & b2 & b3 & H0 & H1 & H2 & H3 & ->).
  unfold quad_string. rewrite le_bytes4_word4 by done.
  exists [byte_string b0; byte_string b1; byte_string b2], (byte_string b3), [], [b0; b1; b2], b3,
    (le_word4 b3 b2 b1 b0).
  split_and!; [done|done|done| |by apply byte_numeral| |].
  - repeat constructor; by apply byte_numeral.
  - cbn [parts_value]. unfold_c. change (2 ^ (32 - 8 - 8 - 8)) with 256.
    repeat (rewrite (proj2 (Z.ltb_lt _ 256)) by lia). cbn. f_equal. unfold le_word4. lia.
  - unfold lwip_htonl. by rewrite PP_HTONL_word4.
Qed.

(** ** Lemmas: netmasks *)

(** The loop variable when [k] bit positions are left to look at. *)
Definition mask_at (k : nat) : Z := match k with O => 0 | S k => 2 ^ k end.

Lemma mask_at_shift k : Z.shiftr (mask_at (S k)) 1 = mask_at k.
Proof.
  cbn [mask_at]. rewrite Z.shiftr_div_pow2 by lia. destruct k as [|k]; [done|].
  cbn [mask_at]. rewrite Nat2Z.inj_succ, Z.pow_succ_r, Z.mul_comm by lia. apply Z.div_mul. lia.
Qed.

Lemma mask_at_nonzero k : (mask_at (S k) =? 0) = false.
Proof. cbn. apply Z.eqb_neq, Z.pow_nonzero; lia. Qed.

Lemma land_mask_at nm k : (Z.land nm (mask_at (S k)) =? 0) = negb (Z.testbit nm k).
Proof.
  cbn [mask_at]. assert (E : Z.land nm (2 ^ k) = Z.b2z (Z.testbit nm k) * 2 ^ k).
  { apply Z.bits_inj'. intros i Hi. rewrite Z.land_spec, Z.pow2_bits_eqb by lia.
    rewrite <- Z.shiftl_mul_pow2 by lia. destruct (decide (i = k)) as [->|Hne].
    - rewrite Z.eqb_refl, andb_true_r, Z.shiftl_spec by lia. rewrite Z.sub_diag.
      by destruct (Z.testbit nm k).
    - replace (Z.of_nat k =? i) with false by lia. rewrite andb_false_r.
      rewrite Z.shiftl_spec by lia. destruct (decide (i < k)).
      + by rewrite Z.testbit_neg_r by lia.
      + destruct (Z.testbit nm k); cbn; [|by rewrite Z.bits_0].
        symmetry. apply Z.bits_above_log2; [lia|]. cbn. lia. }
  rewrite E. assert (0 < 2 ^ k) by (apply Z.pow_pos_nonneg; lia).
  destruct (Z.testbit nm k); cbn [Z.b2z negb]; lia.
Qed.

Lemma first_zero_loop_spec fuel nm k :
  (k < fuel)%nat ->
  exists j, first_zero_loop fuel nm (mask_at k) = mask_at j /\ (j <= k)%nat
            /\ (forall i, (j <= i < k)%nat -> Z.testbit nm i = true)
            /\ (forall j', j = S j' -> Z.testbit nm j' = false).
Proof.
  revert k. induction fuel as [|fuel IH]; intros k Hk; [lia|]. cbn [first_zero_loop].
  destruct k as [|k]; [exists 0%nat; split_and!; (done || lia)|].
  rewrite mask_at_nonzero, land_mask_at. cbn [negb].
  destruct (Z.testbit nm k) eqn:E; cbn [negb].
  - rewrite mask_at_shift. destruct (IH k) as (j & -> & Hj & H1 & H2); [lia|].
    exists j. split_and!; [done|lia| |done].
    intros i Hi. destruct (decide (i = k)) as [->|]; [done|]. apply H1. lia.
  - exists (S k). split_and!; [done|lia|lia|by intros j' [= <-]].
Qed.

Lemma no_more_ones_spec fuel nm k :
  (k < fuel)%nat ->
  no_more_ones_loop fuel nm (mask_at k) = true <-> (forall i, (i < k)%nat -> Z.testbit nm i = false).
Proof.
  revert k. induction fuel as [|fuel IH]; intros k Hk; [lia|]. cbn [no_more_ones_loop].
  destruct k as [|k]; [cbn; split; [lia|done]|].
  rewrite mask_at_nonzero, land_mask_at, negb_involutive, mask_at_shift. cbn [negb].
  destruct (Z.testbit nm k) eqn:E.
  - split; [done|]. intros H. by rewrite H in E by lia.
  - rewrite IH by lia. split; intros H i Hi; [|apply H; lia].
    destruct (decide (i = k)) as [->|]; [done|]. apply H. lia.
Qed.

(** The bits of a prefix mask. *)
Lemma prefix_mask_bits j i :
  0 <= j <= 32 -> 0 <= i -> Z.testbit (2 ^ 32 - 2 ^ j) i = (j <=? i) && (i <? 32).
Proof.
  intros Hj Hi. replace (2 ^ 32 - 2 ^ j) with (Z.shiftl (Z.ones (32 - j)) j).
  - rewrite Z.shiftl_spec, Z.testbit_ones by lia. repeat case_if; lia.
  - rewrite Z.shiftl_mul_pow2, Z.ones_equiv by lia.
    rewrite <- Z.sub_1_r, Z.mul_sub_distr_r, <- Z.pow_add_r by lia.
    f_equal; [f_equal|]; lia.
Qed.

(** ** Lemmas: directed broadcast *)

Lemma lnot32_bits m i : is_u32 m -> 0 <= i -> Z.testbit (u32 (Z.lnot m)) i = negb (Z.testbit m i) && (i <? 32).
Proof.
  intros Hm Hi. unfold u32. destruct (decide (i < 32)).
  - rewrite Z.mod_pow2_bits_low, Z.lnot_spec by lia.
    replace (i <? 32) with true by lia. by rewrite andb_true_r.
  - rewrite Z.mod_pow2_bits_high by lia. replace (i <? 32) with false by lia.
    by rewrite andb_false_r.
Qed.

Lemma u32_bits_high x i : is_u32 x -> 32 <= i -> Z.testbit x i = false.
Proof.
  intros Hx Hi. unfold is_u32 in Hx. rewrite <- (Z.mod_small x (2 ^ 32)) by lia.
  by apply Z.mod_pow2_bits_high.
Qed.

(** The address with network part of [ip] and all host bits one. *)
Lemma directed_broadcast addr ip m :
  is_u32 addr -> is_u32 ip -> is_u32 m ->
  ip4_addr_netcmp addr ip m
  && (Z.land addr (u32 (Z.lnot m)) =? Z.land IPADDR_BROADCAST (u32 (Z.lnot m))) = true
  <-> addr = Z.lor (Z.land ip m) (u32 (Z.lnot m)).
Proof.
  intros Ha Hi Hm. unfold ip4_addr_netcmp. rewrite andb_true_iff, !Z.eqb_eq.
  change IPADDR_BROADCAST with (Z.ones 32). split.
  - intros [E1 E2]. apply Z.bits_inj'. intros i Hn.
    apply (f_equal (λ x, Z.testbit x i)) in E1, E2. revert E1 E2.
    rewrite Z.lor_spec, !Z.land_spec, Z.testbit_ones, lnot32_bits by (done || lia).
    destruct (decide (i < 32)).
    + replace (i <? 32) with true by lia. replace (0 <=? i) with true by lia.
      destruct (Z.testbit addr i), (Z.testbit ip i), (Z.testbit m i); cbn; congruence.
    + rewrite !u32_bits_high by (done || lia). by replace (i <? 32) with false by lia.
  - intros ->. split; apply Z.bits_inj'; intros i Hn;
      rewrite !Z.land_spec, !Z.lor_spec, !Z.land_spec, ?Z.testbit_ones, !lnot32_bits by (done || lia).
    + by destruct (Z.testbit ip i), (Z.testbit m i), (i <? 32).
    + replace (0 <=? i) with true by lia.
      by destruct (Z.testbit ip i), (Z.testbit m i), (i <? 32).
Qed.

Lemma lnot32_zero addr : is_u32 addr -> (u32 (Z.lnot addr) =? IPADDR_ANY) = (addr =? IPADDR_BROADCAST).
Proof.
  intros Ha. unfold Z.lnot, IPADDR_ANY, IPADDR_BROADCAST. apply eq_true_iff_eq.
  rewrite !Z.eqb_eq. wrap_solve.
Qed.

(** ** Properties *)

(** ip4addr_aton accepts exactly the strings of the address grammar (one to
    four numerals, decimal, octal or hexadecimal, separated by dots, the last
    filling the remaining bytes, then the end of the string or white space), and
    stores the address they denote; its "unhandled" assertion is unreachable. *)
Theorem ip4addr_aton_correct cp :
  (forall addr, ip4addr_aton cp = Ret (Some addr) <-> denotes cp addr)
  /\ (ip4addr_aton cp = Ret None <-> ~ exists addr, denotes cp addr).
Proof.
  split; [split; [apply aton_sound|apply aton_complete]|].
  destruct (aton_never_traps cp) as [[addr|] Hr]; rewrite Hr; split; try done.
  - intros H. destruct H. exists addr. by apply aton_sound.
  - intros _ [addr Hd%aton_complete]. congruence.
Qed.

(** ip4addr_ntoa_r never stores past [buflen] bytes, returns NULL exactly
    when the dotted quad and its terminator do not fit, and otherwise leaves the
    dotted quad of the four address bytes in the buffer. *)
Theorem ip4addr_ntoa_r_correct addr buf buflen :
  0 <= buflen <= length buf ->
  let '(ok, buf') := ip4addr_ntoa_r addr buf buflen in
  length buf' = length buf
  /\ drop (Z.to_nat buflen) buf' = drop (Z.to_nat buflen) buf
  /\ (ok = true <-> length (quad_string addr) < buflen)
  /\ (ok = true -> cstr buf' = quad_string addr).
Proof.
  intros Hb. destruct (ip4addr_ntoa_r addr buf buflen) as [ok buf'] eqn:E.
  destruct (decide (length (quad_string addr) < buflen)) as [Hl|Hl].
  - rewrite ntoa_r_success in E by lia. injection E as <- <-.
    split_and!; [|..|done|].
    + rewrite length_app. cbn [length]. rewrite length_drop. lia.
    + rewrite drop_app_ge by lia. destruct (Z.to_nat buflen - length (quad_string addr))%nat as [|n] eqn:En;
        [lia|]. cbn [drop]. rewrite drop_drop. f_equal. lia.
    + intros _. apply cstr_app, quad_string_chars.
  - pose proof (ntoa_r_null addr buf buflen) as Hn. rewrite E in Hn. cbn [fst] in Hn.
    assert (ok = false) as -> by (apply Hn; lia). unfold ip4addr_ntoa_r in E.
    rewrite ntoa_loop_all in E by apply le_bytes4_range.
    pose proof (put_all_frame buflen (ntoa_text (le_bytes4 addr)) (0%nat, buf)) as Hf.
    destruct (put_all _ _ _) as [[] [len b]]; [done|]. injection E as <-. cbn [fst snd] in Hf.
    destruct Hf as [Hf1 Hf2]; [lia|]. split_and!; [done|done| |done]. split; [done|lia].
Qed.

Lemma ip4addr_ntoa_r_correct_witness :
  let '(ok, buf') := ip4addr_ntoa_r 0x0100000a (replicate 12 7) 9 in
  length buf' = 12%nat /\ drop (Z.to_nat 9) buf' = drop (Z.to_nat 9) (replicate 12 7)
  /\ (ok = true <-> length (quad_string 0x0100000a) < 9)
  /\ (ok = true -> cstr buf' = quad_string 0x0100000a).
Proof. apply (ip4addr_ntoa_r_correct 0x0100000a (replicate 12 7) 9). cbn. lia. Defined.

(** C37: printing and parsing are inverse: for every address, ip4addr_ntoa into
    its 16 byte buffer succeeds and ip4addr_aton reads the address back. *)
Theorem ip4addr_aton_ntoa addr str :
  is_u32 addr -> length str = IP4ADDR_STRLEN_MAX ->
  exists str', ip4addr_ntoa addr str = (true, str') /\ ip4addr_aton (cstr str') = Ret (Some addr).
Proof.
  intros Ha Hl. destruct (quad_string_chars addr) as [Hc Hq]. unfold IP4ADDR_STRLEN_MAX in Hl.
  eexists. split.
  - unfold ip4addr_ntoa, IP4ADDR_STRLEN_MAX. apply ntoa_r_success; lia.
  - rewrite cstr_app by done. by apply aton_complete, quad_denotes.
Qed.

Lemma ip4addr_aton_ntoa_witness :
  exists str', ip4addr_ntoa 0xfe01a8c0 (replicate 16 0) = (true, str')
               /\ ip4addr_aton (cstr str') = Ret (Some 0xfe01a8c0).
Proof. apply (ip4addr_aton_ntoa 0xfe01a8c0 (replicate 16 0)); [unfold is_u32; lia|reflexivity]. Defined.

(** the numerals ip4addr_aton accepts go beyond those of C: a value is taken
    modulo 2^32, the digits 8 and 9 are accepted after a leading 0, and a bare
    "0x" is zero. *)
Theorem ip4addr_aton_not_c_numerals :
  (* "4294967297" *)
  ip4addr_aton [0x34;0x32;0x39;0x34;0x39;0x36;0x37;0x32;0x39;0x37] = Ret (Some (lwip_htonl 1))
  (* "09" *)
  /\ ip4addr_aton [0x30; 0x39] = Ret (Some (lwip_htonl 9))
  (* "0x" *)
  /\ ip4addr_aton [0x30; 0x78] = Ret (Some 0).
Proof. by split_and!. Qed.

(** ip4_addr_netmask_valid accepts exactly the prefix masks: [n] one bits
    (most significant first, in host order) followed by zero bits. *)
Theorem ip4_addr_netmask_valid_correct netmask :
  is_u32 netmask ->
  ip4_addr_netmask_valid netmask = true
  <-> exists n, 0 <= n <= 32 /\ lwip_htonl netmask = 2 ^ 32 - 2 ^ (32 - n).
Proof.
  intros Hm%lwip_htonl_range. unfold ip4_addr_netmask_valid.
  set (nm := lwip_htonl netmask) in *. change (Z.shiftl 1 31) with (mask_at 32).
  destruct (first_zero_loop_spec 33 nm 32) as (j & -> & Hj & H1 & H0); [lia|].
  rewrite no_more_ones_spec by lia. split.
  - intros Hz. exists (32 - j). split; [lia|]. replace (32 - (32 - j)) with (Z.of_nat j) by lia.
    apply Z.bits_inj'. intros i Hi. rewrite prefix_mask_bits by lia.
    destruct (Z_of_nat_complete i Hi) as [k ->]. symmetry.
    destruct (decide (k < 32)); [|rewrite u32_bits_high by (done || lia); apply andb_false_iff; lia].
    destruct (decide (k < j)); [rewrite Hz by lia; apply andb_false_iff; lia|].
    rewrite H1 by lia. apply andb_true_iff. lia.
  - intros (n & Hn & E) i Hi. destruct j as [|j]; [lia|].
    specialize (H0 j eq_refl). rewrite E, prefix_mask_bits in * by lia.
    apply andb_false_iff in H0. apply andb_false_iff. lia.
Qed.

Lemma ip4_addr_netmask_valid_correct_witness :
  ip4_addr_netmask_valid 0x00f0ffff = true
  <-> exists n, 0 <= n <= 32 /\ lwip_htonl 0x00f0ffff = 2 ^ 32 - 2 ^ (32 - n).
Proof. apply (ip4_addr_netmask_valid_correct 0x00f0ffff). unfold is_u32. lia. Defined.

(** an address is a broadcast address for an interface exactly when it is
    all ones, all zeros, or the interface supports broadcast and the address is
    not its own but has its network part and all host bits one. *)
Theorem ip4_addr_isbroadcast_correct addr nif :
  is_u32 addr -> is_u32 (netif_ip4_addr nif) -> is_u32 (netif_ip4_netmask nif) ->
  ip4_addr_isbroadcast_u32 addr nif = true
  <-> addr = IPADDR_BROADCAST \/ addr = IPADDR_ANY
      \/ (Z.testbit (netif_flags nif) 1 = true /\ addr <> netif_ip4_addr nif
          /\ addr = Z.lor (Z.land (netif_ip4_addr nif) (netif_ip4_netmask nif))
                          (u32 (Z.lnot (netif_ip4_netmask nif)))).
Proof.
  intros Ha Hi Hm. unfold ip4_addr_isbroadcast_u32. rewrite lnot32_zero by done.
  change NETIF_FLAG_BROADCAST with (mask_at 2). rewrite (land_mask_at _ 1).
  change (Z.of_nat 1) with 1. pose proof (directed_broadcast addr _ _ Ha Hi Hm) as Hd.
  destruct (ip4_addr_netcmp _ _ _ && _).
  all: destruct (addr =? IPADDR_BROADCAST) eqn:E1, (addr =? IPADDR_ANY) eqn:E2; cbn [orb];
    bool_to_prop; [tauto..|].
  all: destruct (Z.testbit _ 1); cbn [negb]; [|naive_solver].
  all: destruct (addr =? netif_ip4_addr nif) eqn:E3; bool_to_prop; naive_solver.
Qed.

Lemma ip4_addr_isbroadcast_correct_witness :
  ip4_addr_isbroadcast_u32 0xff01a8c0 (Netif 0 0x0501a8c0 0x00ffffff 0 2 [] 1500 false) = true.
Proof.
  apply (ip4_addr_isbroadcast_correct 0xff01a8c0 (Netif 0 0x0501a8c0 0x00ffffff 0 2 [] 1500 false));
    cbn; unfold is_u32; try lia. right. right. by vm_compute.
Defined.
