(* ===== verification/Mem.v ===== *)
(** * The heap allocator (src/lwip/src/core/mem.c, the heap that is used when
    neither MEM_LIBC_MALLOC nor MEM_USE_POOLS is set)

    The heap is the byte array [ram]; a pointer into it is its offset from
    [ram], which LWIP_MEM_ALIGN makes a multiple of MEM_ALIGNMENT, and a
    [struct mem] is read from and written to the bytes at its offset.  The
    operations of the allocator run under [mem_mutex]
    (LWIP_ALLOW_MEM_FREE_FROM_OTHER_CONTEXT is 0), one at a time.  The
    abstract heap is a list of blocks, [malloc_abs], [free_abs] and [trim_abs]
    are the operations on it, and the theorems say that the pointer structure
    implements them. *)

From S2P Require Import Prelude.

#[local] Open Scope Z_scope.
#[local] Coercion Z.of_nat : nat >-> Z.

(** ** Options (include/lwip/opt.h) *)

Class MemOptions := {
  MEM_ALIGNMENT : Z;
  MEM_SIZE : Z;
  MIN_SIZE : Z
}.

Section Heap.
Context `{MemOptions}.

(** sizeof(mem_size_t): u32_t when MEM_SIZE is above 64000, u16_t otherwise. *)
Definition sizeof_mem_size_t : nat := if 64000 <? MEM_SIZE then 4 else 2.
Definition mem_size_t (z : Z) : Z := z mod 256 ^ sizeof_mem_size_t.

(** sizeof(struct mem), with the padding after [used]. *)
Definition sizeof_struct_mem : Z := 3 * sizeof_mem_size_t.

Definition LWIP_MEM_ALIGN_SIZE (size : Z) : Z :=
  Z.land (u32 (size + MEM_ALIGNMENT - 1)) (u32 (Z.lnot (MEM_ALIGNMENT - 1))).

Definition MIN_SIZE_ALIGNED : Z := LWIP_MEM_ALIGN_SIZE MIN_SIZE.
Definition SIZEOF_STRUCT_MEM : Z := LWIP_MEM_ALIGN_SIZE sizeof_struct_mem.
Definition MEM_SIZE_ALIGNED : Z := LWIP_MEM_ALIGN_SIZE MEM_SIZE.

(** ** Memory *)

Abbreviation bytes := (gmap Z Z).

Definition byte (m : bytes) (i : Z) : Z := default 0 (m !! i).

(** Little endian loads and stores of [n] bytes. *)
Fixpoint load (n : nat) (m : bytes) (o : Z) : Z :=
  match n with
  | O => 0
  | S n => byte m o + 256 * load n m (o + 1)
  end.

Fixpoint store (n : nat) (m : bytes) (o v : Z) : bytes :=
  match n with
  | O => m
  | S n => store n (<[o := v mod 256]> m) (o + 1) (v / 256)
  end.

(** The fields of the struct mem at an offset. *)
Definition mem_next (m : bytes) (o : Z) : Z := load sizeof_mem_size_t m o.
Definition mem_prev (m : bytes) (o : Z) : Z := load sizeof_mem_size_t m (o + sizeof_mem_size_t).
Definition mem_used (m : bytes) (o : Z) : Z := load 1 m (o + 2 * sizeof_mem_size_t).

Definition set_next (m : bytes) (o v : Z) : bytes := store sizeof_mem_size_t m o v.
Definition set_prev (m : bytes) (o v : Z) : bytes :=
  store sizeof_mem_size_t m (o + sizeof_mem_size_t) v.
Definition set_used (m : bytes) (o v : Z) : bytes := store 1 m (o + 2 * sizeof_mem_size_t) v.

(** ** State: the heap and its statistics (lwip_stats.mem) *)

Record heap := Heap {
  ram : bytes;
  ram_end : Z;
  lfree : Z;
  stat_used : Z;
  stat_max : Z;
  stat_err : Z
}.

Definition with_ram (h : heap) (m : bytes) : heap :=
  Heap m (ram_end h) (lfree h) (stat_used h) (stat_max h) (stat_err h).
Definition with_lfree (h : heap) (l : Z) : heap :=
  Heap (ram h) (ram_end h) l (stat_used h) (stat_max h) (stat_err h).

Definition MEM_STATS_INC_USED (y : Z) (h : heap) : heap :=
  let used := mem_size_t (stat_used h + y) in
  Heap (ram h) (ram_end h) (lfree h) used (if stat_max h <? used then used else stat_max h)
       (stat_err h).
Definition MEM_STATS_DEC_USED (y : Z) (h : heap) : heap :=
  Heap (ram h) (ram_end h) (lfree h) (mem_size_t (stat_used h - y)) (stat_max h) (stat_err h).
Definition MEM_STATS_INC_ERR (h : heap) : heap :=
  Heap (ram h) (ram_end h) (lfree h) (stat_used h) (stat_max h) (u16 (stat_err h + 1)).

(** ** Operations *)

Definition ptr_to_mem (ptr : Z) : Z := ptr.
Definition mem_to_ptr (mem : Z) : Z := mem_size_t mem.

Definition plug_holes (h : heap) (mem : Z) : outcome heap :=
  LWIP_ASSERT "plug_holes: mem >= ram" (0 <=? mem);;
  LWIP_ASSERT "plug_holes: mem < ram_end" (mem <? ram_end h);;
  LWIP_ASSERT "plug_holes: mem->used == 0" (mem_used (ram h) mem =? 0);;
  LWIP_ASSERT "plug_holes: mem->next <= MEM_SIZE_ALIGNED"
    (mem_next (ram h) mem <=? MEM_SIZE_ALIGNED);;
  let nmem := ptr_to_mem (mem_next (ram h) mem) in
  let h :=
    if negb (mem =? nmem) && (mem_used (ram h) nmem =? 0) && negb (nmem =? ram_end h) then
      let h := if lfree h =? nmem then with_lfree h mem else h in
      let h := with_ram h (set_next (ram h) mem (mem_next (ram h) nmem)) in
      if negb (mem_next (ram h) nmem =? MEM_SIZE_ALIGNED) then
        with_ram h (set_prev (ram h) (ptr_to_mem (mem_next (ram h) nmem)) (mem_to_ptr mem))
      else h
    else h in
  let pmem := ptr_to_mem (mem_prev (ram h) mem) in
  Ret (if negb (pmem =? mem) && (mem_used (ram h) pmem =? 0) then
         let h := if lfree h =? mem then with_lfree h pmem else h in
         let h := with_ram h (set_next (ram h) pmem (mem_next (ram h) mem)) in
         if negb (mem_next (ram h) mem =? MEM_SIZE_ALIGNED) then
           with_ram h (set_prev (ram h) (ptr_to_mem (mem_next (ram h) mem)) (mem_to_ptr pmem))
         else h
       else h).

(** mem_init on the static state [h] (ram_heap can hold anything); creating the
    mutex succeeds. *)
Definition mem_init (h : heap) : outcome heap :=
  LWIP_ASSERT "Sanity check alignment" (Z.land SIZEOF_STRUCT_MEM (MEM_ALIGNMENT - 1) =? 0);;
  let m := ram h in
  let mem := 0 in
  let m := set_next m mem (mem_size_t MEM_SIZE_ALIGNED) in
  let m := set_prev m mem 0 in
  let m := set_used m mem 0 in
  let ram_end := ptr_to_mem (mem_size_t MEM_SIZE_ALIGNED) in
  let m := set_used m ram_end 1 in
  let m := set_next m ram_end (mem_size_t MEM_SIZE_ALIGNED) in
  let m := set_prev m ram_end (mem_size_t MEM_SIZE_ALIGNED) in
  let lfree := 0 in
  Ret (Heap m ram_end lfree (stat_used h) (stat_max h) (stat_err h)).

Definition mem_link_valid (h : heap) (mem : Z) : bool :=
  let m := ram h in
  let rmem_idx := mem_to_ptr mem in
  let nmem := ptr_to_mem (mem_next m mem) in
  let pmem := ptr_to_mem (mem_prev m mem) in
  if (MEM_SIZE_ALIGNED <? mem_next m mem) || (MEM_SIZE_ALIGNED <? mem_prev m mem)
     || (negb (mem_prev m mem =? rmem_idx) && negb (mem_next m pmem =? rmem_idx))
     || (negb (nmem =? ram_end h) && negb (mem_prev m nmem =? rmem_idx))
  then false else true.

(** A call of LWIP_MEM_ILLEGAL_FREE is a failed assertion. *)
Definition LWIP_MEM_ILLEGAL_FREE (msg : string) : outcome unit := LWIP_ASSERT msg false.

(** mem_free; [None] is the NULL pointer. *)
Definition mem_free (h : heap) (rmem : option Z) : outcome heap :=
  match rmem with
  | None => Ret h
  | Some rmem =>
      if negb (Z.land rmem (MEM_ALIGNMENT - 1) =? 0) then
        LWIP_MEM_ILLEGAL_FREE "mem_free: sanity check alignment";; Ret h
      else
        let mem := rmem - SIZEOF_STRUCT_MEM in
        if (mem <? 0) || (ram_end h <? rmem + MIN_SIZE_ALIGNED) then
          LWIP_MEM_ILLEGAL_FREE "mem_free: illegal memory";; Ret h
        else if mem_used (ram h) mem =? 0 then
          LWIP_MEM_ILLEGAL_FREE "mem_free: illegal memory: double free";; Ret h
        else if negb (mem_link_valid h mem) then
          LWIP_MEM_ILLEGAL_FREE "mem_free: illegal memory: non-linked: double free";; Ret h
        else
          let h := with_ram h (set_used (ram h) mem 0) in
          let h := if mem <? lfree h then with_lfree h mem else h in
          let h := MEM_STATS_DEC_USED (mem_next (ram h) mem - mem_size_t mem) h in
          plug_holes h mem
  end.

(** mem_trim on a non-NULL pointer. *)
Definition mem_trim (h : heap) (rmem new_size : Z) : outcome (option Z * heap) :=
  let newsize := mem_size_t (LWIP_MEM_ALIGN_SIZE new_size) in
  let newsize := if newsize <? MIN_SIZE_ALIGNED then mem_size_t MIN_SIZE_ALIGNED else newsize in
  if (MEM_SIZE_ALIGNED <? newsize) || (newsize <? new_size) then Ret (None, h)
  else
    LWIP_ASSERT "mem_trim: legal memory" ((0 <=? rmem) && (rmem <? ram_end h));;
    if (rmem <? 0) || (ram_end h <=? rmem) then Ret (Some rmem, h)
    else
      let mem := rmem - SIZEOF_STRUCT_MEM in
      let ptr := mem_to_ptr mem in
      let size := mem_size_t (mem_size_t (mem_next (ram h) mem - ptr) - SIZEOF_STRUCT_MEM) in
      LWIP_ASSERT "mem_trim can only shrink memory" (newsize <=? size);;
      if size <? newsize then Ret (None, h)
      else if newsize =? size then Ret (Some rmem, h)
      else
        let mem2 := ptr_to_mem (mem_next (ram h) mem) in
        if mem_used (ram h) mem2 =? 0 then
          LWIP_ASSERT "invalid next ptr" (negb (mem_next (ram h) mem =? MEM_SIZE_ALIGNED));;
          let next := mem_next (ram h) mem2 in
          let ptr2 := mem_size_t (ptr + SIZEOF_STRUCT_MEM + newsize) in
          let h := if lfree h =? mem2 then with_lfree h (ptr_to_mem ptr2) else h in
          let mem2 := ptr_to_mem ptr2 in
          let h := with_ram h (set_used (ram h) mem2 0) in
          let h := with_ram h (set_next (ram h) mem2 next) in
          let h := with_ram h (set_prev (ram h) mem2 ptr) in
          let h := with_ram h (set_next (ram h) mem ptr2) in
          let h := if negb (mem_next (ram h) mem2 =? MEM_SIZE_ALIGNED)
                   then with_ram h (set_prev (ram h) (ptr_to_mem (mem_next (ram h) mem2)) ptr2)
                   else h in
          Ret (Some rmem, MEM_STATS_DEC_USED (size - newsize) h)
        else if newsize + SIZEOF_STRUCT_MEM + MIN_SIZE_ALIGNED <=? size then
          let ptr2 := mem_size_t (ptr + SIZEOF_STRUCT_MEM + newsize) in
          LWIP_ASSERT "invalid next ptr" (negb (mem_next (ram h) mem =? MEM_SIZE_ALIGNED));;
          let mem2 := ptr_to_mem ptr2 in
          let h := if mem2 <? lfree h then with_lfree h mem2 else h in
          let h := with_ram h (set_used (ram h) mem2 0) in
          let h := with_ram h (set_next (ram h) mem2 (mem_next (ram h) mem)) in
          let h := with_ram h (set_prev (ram h) mem2 ptr) in
          let h := with_ram h (set_next (ram h) mem ptr2) in
          let h := if negb (mem_next (ram h) mem2 =? MEM_SIZE_ALIGNED)
                   then with_ram h (set_prev (ram h) (ptr_to_mem (mem_next (ram h) mem2)) ptr2)
                   else h in
          Ret (Some rmem, MEM_STATS_DEC_USED (size - newsize) h)
        else Ret (Some rmem, h).

(** The while loop that looks for the next free block; every step moves up by
    at least one block. *)
Fixpoint adjust_lfree_loop (fuel : nat) (h : heap) (cur : Z) : outcome Z :=
  match fuel with
  | O => Trap "adjust_lfree_loop: fuel"
  | S fuel =>
      if negb (mem_used (ram h) cur =? 0) && negb (cur =? ram_end h)
      then adjust_lfree_loop fuel h (ptr_to_mem (mem_next (ram h) cur))
      else Ret cur
  end.

(** The body of the search loop of mem_malloc once a block [mem] fits: marking
    and splitting it, ... *)
Definition malloc_mark (h : heap) (size ptr : Z) : outcome heap :=
  let mem := ptr_to_mem ptr in
  if size + SIZEOF_STRUCT_MEM + MIN_SIZE_ALIGNED
       <=? size_t (mem_next (ram h) mem - (ptr + SIZEOF_STRUCT_MEM)) then
    let ptr2 := mem_size_t (ptr + SIZEOF_STRUCT_MEM + size) in
    LWIP_ASSERT "invalid next ptr" (negb (ptr2 =? MEM_SIZE_ALIGNED));;
    let mem2 := ptr_to_mem ptr2 in
    let h := with_ram h (set_used (ram h) mem2 0) in
    let h := with_ram h (set_next (ram h) mem2 (mem_next (ram h) mem)) in
    let h := with_ram h (set_prev (ram h) mem2 ptr) in
    let h := with_ram h (set_next (ram h) mem ptr2) in
    let h := with_ram h (set_used (ram h) mem 1) in
    let h := if negb (mem_next (ram h) mem2 =? MEM_SIZE_ALIGNED)
             then with_ram h (set_prev (ram h) (ptr_to_mem (mem_next (ram h) mem2)) ptr2)
             else h in
    Ret (MEM_STATS_INC_USED (size + SIZEOF_STRUCT_MEM) h)
  else
    let h := with_ram h (set_used (ram h) mem 1) in
    Ret (MEM_STATS_INC_USED (mem_next (ram h) mem - mem_to_ptr mem) h).

(** ... updating [lfree], ... *)
Definition malloc_lfree (h : heap) (mem : Z) : outcome heap :=
  if mem =? lfree h then
    cur ← adjust_lfree_loop (S (Z.to_nat MEM_SIZE_ALIGNED)) h (lfree h);
    let h := with_lfree h cur in
    LWIP_ASSERT "mem_malloc: !lfree->used"
      ((lfree h =? ram_end h) || (mem_used (ram h) (lfree h) =? 0));;
    Ret h
  else Ret h.

(** ... and the checks before the return. *)
Definition malloc_take (h : heap) (size ptr : Z) : outcome (option Z * heap) :=
  let mem := ptr_to_mem ptr in
  h ← malloc_mark h size ptr;
  h ← malloc_lfree h mem;
  LWIP_ASSERT "mem_malloc: allocated memory not above ram_end."
    (mem + SIZEOF_STRUCT_MEM + size <=? ram_end h);;
  LWIP_ASSERT "mem_malloc: allocated memory properly aligned."
    (Z.modulo (mem + SIZEOF_STRUCT_MEM) MEM_ALIGNMENT =? 0);;
  LWIP_ASSERT "mem_malloc: sanity check alignment" (Z.land mem (MEM_ALIGNMENT - 1) =? 0);;
  Ret (Some (mem + SIZEOF_STRUCT_MEM), h).

(** The search loop. *)
Fixpoint malloc_loop (fuel : nat) (h : heap) (size ptr : Z) : outcome (option Z * heap) :=
  match fuel with
  | O => Trap "malloc_loop: fuel"
  | S fuel =>
      if ptr <? u32 (MEM_SIZE_ALIGNED - size) then
        let mem := ptr_to_mem ptr in
        if (mem_used (ram h) mem =? 0)
           && (size <=? size_t (mem_next (ram h) mem - (ptr + SIZEOF_STRUCT_MEM)))
        then malloc_take h size ptr
        else malloc_loop fuel h size (mem_next (ram h) (ptr_to_mem ptr))
      else Ret (None, MEM_STATS_INC_ERR h)
  end.

Definition mem_malloc (h : heap) (size_in : Z) : outcome (option Z * heap) :=
  if size_in =? 0 then Ret (None, h)
  else
    let size := mem_size_t (LWIP_MEM_ALIGN_SIZE size_in) in
    let size := if size <? MIN_SIZE_ALIGNED then mem_size_t MIN_SIZE_ALIGNED else size in
    if (MEM_SIZE_ALIGNED <? size) || (size <? size_in) then Ret (None, h)
    else malloc_loop (S (Z.to_nat MEM_SIZE_ALIGNED)) h size (mem_to_ptr (lfree h)).

(** memset of [n] bytes at [o]. *)
Fixpoint memset (n : nat) (m : bytes) (o c : Z) : bytes :=
  match n with
  | O => m
  | S n => memset n (<[o := c]> m) (o + 1) c
  end.

Definition mem_calloc (h : heap) (count size : Z) : outcome (option Z * heap) :=
  let alloc_size := size_t (count * size) in
  if negb (mem_size_t alloc_size =? alloc_size) then Ret (None, h)
  else
    '(p, h) ← mem_malloc h (mem_size_t alloc_size);
    match p with
    | Some q => Ret (p, with_ram h (memset (Z.to_nat alloc_size) (ram h) q 0))
    | None => Ret (p, h)
    end.

(** ** The abstract heap

    A heap is a list of blocks that lie next to each other from offset 0 to
    MEM_SIZE_ALIGNED; the length of a block includes its struct mem. *)

Record blk := Blk { len : Z; used : bool }.

(** First fit, with the remainder split off when it can hold a block. *)
Fixpoint malloc_abs (c : Z) (bs : list blk) (size : Z) : option (Z * list blk) :=
  match bs with
  | [] => None
  | b :: bs =>
      if negb (used b) && (SIZEOF_STRUCT_MEM + size <=? len b) then
        Some (c + SIZEOF_STRUCT_MEM,
              if size + SIZEOF_STRUCT_MEM + MIN_SIZE_ALIGNED <=? len b - SIZEOF_STRUCT_MEM
              then Blk (SIZEOF_STRUCT_MEM + size) true
                   :: Blk (len b - (SIZEOF_STRUCT_MEM + size)) false :: bs
              else Blk (len b) true :: bs)
      else
        '(p, bs) ← malloc_abs (c + len b) bs size; Some (p, b :: bs)
  end.

(** Adding a block in front, merged with the next one when both are free. *)
Definition cons_blk (b : blk) (bs : list blk) : list blk :=
  match bs with
  | b' :: bs' => if negb (used b) && negb (used b') then Blk (len b + len b') false :: bs' else b :: bs
  | [] => [b]
  end.

Definition coalesce (bs : list blk) : list blk := foldr cons_blk [] bs.

(** Marks the block at offset [o] free. *)
Fixpoint mark_free (c : Z) (bs : list blk) (o : Z) : list blk :=
  match bs with
  | [] => []
  | b :: bs => if c =? o then Blk (len b) false :: bs else b :: mark_free (c + len b) bs o
  end.

Definition free_abs (bs : list blk) (o : Z) : list blk := coalesce (mark_free 0 bs o).

(** Shrinks the block at offset [o] to [newsize] bytes of data: the rest goes to
    the free block behind it, or becomes a free block when it can hold one. *)
Fixpoint trim_abs (c : Z) (bs : list blk) (o newsize : Z) : list blk :=
  match bs with
  | [] => []
  | b :: bs' =>
      if c =? o then
        let rest := len b - (SIZEOF_STRUCT_MEM + newsize) in
        match bs' with
        | Blk l2 false :: bs2 =>
            if rest =? 0 then bs
            else Blk (SIZEOF_STRUCT_MEM + newsize) true :: Blk (l2 + rest) false :: bs2
        | _ =>
            if SIZEOF_STRUCT_MEM + MIN_SIZE_ALIGNED <=? rest
            then Blk (SIZEOF_STRUCT_MEM + newsize) true :: Blk rest false :: bs'
            else bs
        end
      else b :: trim_abs (c + len b) bs' o newsize
  end.

(** The size the allocator uses for a request of [n] bytes. *)
Definition request (n : Z) : Z := Z.max MIN_SIZE_ALIGNED (LWIP_MEM_ALIGN_SIZE n).

(** Offset behind the blocks, offset of the last block, of the first free one,
    and the bytes of the blocks in use. *)
Fixpoint end_of (c : Z) (bs : list blk) : Z :=
  match bs with [] => c | b :: bs => end_of (c + len b) bs end.
Fixpoint last_of (p c : Z) (bs : list blk) : Z :=
  match bs with [] => p | b :: bs => last_of c (c + len b) bs end.
Fixpoint first_free (c : Z) (bs : list blk) : Z :=
  match bs with [] => c | b :: bs => if used b then first_free (c + len b) bs else c end.
Fixpoint used_bytes (bs : list blk) : Z :=
  match bs with [] => 0 | b :: bs => (if used b then len b else 0) + used_bytes bs end.

(** A block has room for a struct mem and MIN_SIZE_ALIGNED bytes and is aligned. *)
Definition blk_ok (b : blk) : Prop :=
  SIZEOF_STRUCT_MEM + MIN_SIZE_ALIGNED <= len b /\ (MEM_ALIGNMENT | len b).

(** No two free blocks next to each other. *)
Definition used_hd (bs : list blk) : bool := match bs with [] => true | b :: _ => used b end.
Fixpoint no_holes (bs : list blk) : Prop :=
  match bs with
  | [] => True
  | b :: bs => used b || used_hd bs = true /\ no_holes bs
  end.

(** Offset [i] belongs to the data of a block in use. *)
Fixpoint in_data (c : Z) (bs : list blk) (i : Z) : Prop :=
  match bs with
  | [] => False
  | b :: bs =>
      (used b = true /\ c + SIZEOF_STRUCT_MEM <= i < c + len b) \/ in_data (c + len b) bs i
  end.

(** The allocation map: the data pointer of each block in use, with the number of
    bytes it gives its owner. *)
Fixpoint used_map (c : Z) (bs : list blk) : gmap Z Z :=
  match bs with
  | [] => ∅
  | b :: bs =>
      if used b then <[c + SIZEOF_STRUCT_MEM := len b - SIZEOF_STRUCT_MEM]> (used_map (c + len b) bs)
      else used_map (c + len b) bs
  end.

(** Offset [i] lies in an allocated region. *)
Definition allocated (U : gmap Z Z) (i : Z) : Prop := exists q k, U !! q = Some k /\ q <= i < q + k.

(** ** Representation invariant *)

(** The struct mems of the blocks [bs] from offset [c] on; [p] is the offset of
    the block before. *)
Fixpoint seg (m : bytes) (p c : Z) (bs : list blk) : Prop :=
  match bs with
  | [] => True
  | b :: bs =>
      mem_next m c = c + len b /\ mem_prev m c = p /\ mem_used m c = Z.b2z (used b)
      /\ seg m c (c + len b) bs
  end.

Record heap_shape (h : heap) (bs : list blk) : Prop := {
  rep_ram_end : ram_end h = MEM_SIZE_ALIGNED;
  rep_seg : seg (ram h) 0 0 bs;
  rep_end : end_of 0 bs = MEM_SIZE_ALIGNED;
  rep_sentinel : mem_used (ram h) MEM_SIZE_ALIGNED = 1;
  rep_blks : Forall blk_ok bs;
  rep_lfree : lfree h = first_free 0 bs;
  rep_stat : stat_used h = used_bytes bs
}.

Record heap_rep (h : heap) (bs : list blk) : Prop := {
  rep_shape :> heap_shape h bs;
  rep_no_holes : no_holes bs
}.

(** The heap as its clients see it: an invariant and the allocation map. *)
Definition heap_ok (h : heap) (U : gmap Z Z) : Prop :=
  exists bs, heap_rep h bs /\ U = used_map 0 bs.

End Heap.

(** ** What the options must satisfy *)

Class MemOptionsOk `{MemOptions} := {
  align_pow2 : exists k, 0 <= k <= 12 /\ MEM_ALIGNMENT = 2 ^ k;
  mem_size_range : 0 < MEM_SIZE < 2 ^ 31;
  min_size_range : 0 < MIN_SIZE < 2 ^ 31;
  heap_room : SIZEOF_STRUCT_MEM + MIN_SIZE_ALIGNED <= MEM_SIZE_ALIGNED;
  heap_fits : MEM_SIZE_ALIGNED < 256 ^ sizeof_mem_size_t
}.

(** The defaults of opt.h (and of contrib/ports/unix/lib/lwipopts.h), and the
    values of contrib/examples/example_app/lwipopts.h. *)
#[export] Instance opt_h_options : MemOptions :=
  {| MEM_ALIGNMENT := 1; MEM_SIZE := 1600; MIN_SIZE := 12 |}.

Definition example_app_options : MemOptions :=
  {| MEM_ALIGNMENT := 4; MEM_SIZE := 10240; MIN_SIZE := 12 |}.

#[export] Instance opt_h_options_ok : MemOptionsOk.
Proof.
  split; [exists 0|..]; vm_compute; intuition congruence.
Qed.

Lemma example_app_options_ok : @MemOptionsOk example_app_options.
Proof.
  split; [exists 2|..]; vm_compute; intuition congruence.
Qed.

(** ** Lemmas: bytes *)

Section Proofs.
Context `{MemOptionsOk}.

Abbreviation bytes := (gmap Z Z).
Abbreviation S_ := SIZEOF_STRUCT_MEM.
Abbreviation MIN := MIN_SIZE_ALIGNED.
Abbreviation MSA := MEM_SIZE_ALIGNED.
Abbreviation W := (Z.of_nat sizeof_mem_size_t).

#[local] Arguments mem_next : simpl never.
#[local] Arguments mem_prev : simpl never.
#[local] Arguments mem_used : simpl never.

Lemma byte_insert (m : bytes) i v j : byte (<[i := v]> m) j = if decide (i = j) then v else byte m j.
Proof.
  unfold byte. case_decide as E; [subst; by rewrite lookup_insert_eq|by rewrite lookup_insert_ne].
Qed.

Lemma byte_store (n : nat) (m : bytes) o v i : i < o \/ o + n <= i -> byte (store n m o v) i = byte m i.
Proof.
  revert m o v. induction n as [|n IH]; intros m o v Hi; cbn [store]; [done|].
  rewrite IH by lia. rewrite byte_insert. case_decide; [lia|done].
Qed.

Lemma load_ext (n : nat) (m m' : bytes) o :
  (forall i, o <= i < o + n -> byte m' i = byte m i) -> load n m' o = load n m o.
Proof.
  revert o. induction n as [|n IH]; intros o Hi; cbn [load]; [done|].
  rewrite Hi, IH by (intros; try apply Hi; lia). done.
Qed.

Lemma load_store (n : nat) (m : bytes) o v : 0 <= v < 256 ^ n -> load n (store n m o v) o = v.
Proof.
  revert m o v. induction n as [|n IH]; intros m o v Hv; cbn [load store].
  - change (256 ^ 0%nat) with 1 in Hv. lia.
  - rewrite byte_store by lia. rewrite byte_insert, decide_True by done. rewrite IH.
    + Z.div_mod_to_equations. lia.
    + rewrite Nat2Z.inj_succ, Z.pow_succ_r in Hv by lia. Z.div_mod_to_equations. lia.
Qed.

Lemma load_store_other (n n' : nat) (m : bytes) o v o' :
  o' + n' <= o \/ o + n <= o' -> load n' (store n m o v) o' = load n' m o'.
Proof. intros Ho. apply load_ext. intros. apply byte_store. lia. Qed.

(** ** Lemmas: the options *)

Lemma W_pos : W = 2 \/ W = 4.
Proof. unfold sizeof_mem_size_t. destruct (_ <? _); auto. Qed.

Lemma mem_size_t_small z : 0 <= z < 256 ^ W -> mem_size_t z = z.
Proof. intros. unfold mem_size_t. by apply Z.mod_small. Qed.

Lemma align_pos : 0 < MEM_ALIGNMENT <= 4096.
Proof.
  destruct align_pow2 as (k & Hk & ->). split; [apply Z.pow_pos_nonneg; lia|].
  change 4096 with (2 ^ 12). apply Z.pow_le_mono_r; lia.
Qed.

Lemma align_size_eq size :
  0 <= size -> size + MEM_ALIGNMENT - 1 < 2 ^ 32 ->
  LWIP_MEM_ALIGN_SIZE size = (size + MEM_ALIGNMENT - 1) / MEM_ALIGNMENT * MEM_ALIGNMENT.
Proof.
  intros Hs Hb. pose proof align_pos as Ha. unfold LWIP_MEM_ALIGN_SIZE.
  rewrite (u32_small (_ - 1)) by lia.
  assert (Hx : 0 <= size + MEM_ALIGNMENT - 1 < 2 ^ 32) by lia. clear Hs Hb.
  generalize dependent (size + MEM_ALIGNMENT - 1). intros x Hx.
  destruct align_pow2 as (k & Hk & E). rewrite E in *.
  replace (u32 (Z.lnot (2 ^ k - 1))) with (2 ^ 32 - 2 ^ k) by (unfold Z.lnot; wrap_solve).
  apply land_high; lia.
Qed.

Lemma align_size_spec size :
  0 <= size -> size + MEM_ALIGNMENT - 1 < 2 ^ 32 ->
  size <= LWIP_MEM_ALIGN_SIZE size < size + MEM_ALIGNMENT
  /\ (MEM_ALIGNMENT | LWIP_MEM_ALIGN_SIZE size).
Proof.
  intros Hs Hb. pose proof align_pos. rewrite align_size_eq by lia.
  split; [|by apply Z.divide_factor_r]. Z.div_mod_to_equations. nia.
Qed.

(** The facts on the options that the proofs use. *)
Lemma options_facts :
  0 < MEM_ALIGNMENT /\ 3 * W <= S_ /\ 0 < MIN /\ S_ + MIN <= MSA /\ MSA < 256 ^ W
  /\ 256 ^ W <= 2 ^ 32 /\ (MEM_ALIGNMENT | S_) /\ (MEM_ALIGNMENT | MIN) /\ (MEM_ALIGNMENT | MSA).
Proof.
  pose proof align_pos. pose proof W_pos. pose proof mem_size_range. pose proof min_size_range.
  pose proof heap_room. pose proof heap_fits. unfold S_, MIN, MSA in *.
  destruct (align_size_spec sizeof_struct_mem); [unfold sizeof_struct_mem; lia..|].
  destruct (align_size_spec MIN_SIZE); [lia..|]. destruct (align_size_spec MEM_SIZE); [lia..|].
  unfold sizeof_struct_mem in *.
  split_and!; try (done || lia). destruct W_pos as [-> | ->]; done.
Qed.

(** The low bits of an aligned offset. *)
Lemma aligned_land o : (MEM_ALIGNMENT | o) -> Z.land o (MEM_ALIGNMENT - 1) = 0.
Proof.
  destruct align_pow2 as (k & Hk & ->). intros Hd.
  replace (2 ^ k - 1) with (Z.ones k) by (rewrite Z.ones_equiv; lia).
  rewrite Z.land_ones by lia. apply Z.mod_divide; [lia|done].
Qed.

(** ** Lemmas: the fields of a struct mem *)

Definition hdr (m : bytes) (o : Z) : Z * Z * Z := (mem_next m o, mem_prev m o, mem_used m o).

Lemma hdr_ext (m m' : bytes) o :
  (forall i, o <= i < o + S_ -> byte m' i = byte m i) -> hdr m' o = hdr m o.
Proof.
  intros Hi. destruct options_facts as (_ & HS & _). pose proof W_pos.
  unfold hdr, mem_next, mem_prev, mem_used.
  by rewrite !(load_ext _ m m') by (intros; apply Hi; lia).
Qed.

Lemma byte_set_next (m : bytes) o v i : i < o \/ o + S_ <= i -> byte (set_next m o v) i = byte m i.
Proof. intros. destruct options_facts as (_ & HS & _). apply byte_store. lia. Qed.

Lemma byte_set_prev (m : bytes) o v i : i < o \/ o + S_ <= i -> byte (set_prev m o v) i = byte m i.
Proof. intros. destruct options_facts as (_ & HS & _). apply byte_store. lia. Qed.

Lemma byte_set_used (m : bytes) o v i : i < o \/ o + S_ <= i -> byte (set_used m o v) i = byte m i.
Proof. intros. destruct options_facts as (_ & HS & _). pose proof W_pos. apply byte_store. lia. Qed.

Ltac fields :=
  unfold mem_next, mem_prev, mem_used, set_next, set_prev, set_used;
  pose proof W_pos; rewrite ?load_store, ?load_store_other by lia; done.

Lemma next_set_next (m : bytes) o v : 0 <= v < 256 ^ W -> mem_next (set_next m o v) o = v.
Proof. intros. fields. Qed.
Lemma next_set_prev (m : bytes) o v : mem_next (set_prev m o v) o = mem_next m o.
Proof. fields. Qed.
Lemma next_set_used (m : bytes) o v : mem_next (set_used m o v) o = mem_next m o.
Proof. fields. Qed.
Lemma prev_set_next (m : bytes) o v : mem_prev (set_next m o v) o = mem_prev m o.
Proof. fields. Qed.
Lemma prev_set_prev (m : bytes) o v : 0 <= v < 256 ^ W -> mem_prev (set_prev m o v) o = v.
Proof. intros. fields. Qed.
Lemma prev_set_used (m : bytes) o v : mem_prev (set_used m o v) o = mem_prev m o.
Proof. fields. Qed.
Lemma used_set_next (m : bytes) o v : mem_used (set_next m o v) o = mem_used m o.
Proof. fields. Qed.
Lemma used_set_prev (m : bytes) o v : mem_used (set_prev m o v) o = mem_used m o.
Proof. fields. Qed.
Lemma used_set_used (m : bytes) o v : 0 <= v < 256 -> mem_used (set_used m o v) o = v.
Proof. intros. unfold mem_used, set_used. apply load_store. done. Qed.

(** A store in one struct mem does not change another one. *)
Section Apart.
Context (m : bytes) (o v o' : Z) (Ho : o' + S_ <= o \/ o + S_ <= o').
Lemma hdr_set_next : hdr (set_next m o v) o' = hdr m o'.
Proof. apply hdr_ext. intros. apply byte_set_next. lia. Qed.
Lemma hdr_set_prev : hdr (set_prev m o v) o' = hdr m o'.
Proof. apply hdr_ext. intros. apply byte_set_prev. lia. Qed.
Lemma hdr_set_used : hdr (set_used m o v) o' = hdr m o'.
Proof. apply hdr_ext. intros. apply byte_set_used. lia. Qed.
Lemma next_set_next_ne : mem_next (set_next m o v) o' = mem_next m o'.
Proof. by pose proof hdr_set_next as [= ]. Qed.
Lemma next_set_prev_ne : mem_next (set_prev m o v) o' = mem_next m o'.
Proof. by pose proof hdr_set_prev as [= ]. Qed.
Lemma next_set_used_ne : mem_next (set_used m o v) o' = mem_next m o'.
Proof. by pose proof hdr_set_used as [= ]. Qed.
Lemma prev_set_next_ne : mem_prev (set_next m o v) o' = mem_prev m o'.
Proof. by pose proof hdr_set_next as [= ]. Qed.
Lemma prev_set_prev_ne : mem_prev (set_prev m o v) o' = mem_prev m o'.
Proof. by pose proof hdr_set_prev as [= ]. Qed.
Lemma prev_set_used_ne : mem_prev (set_used m o v) o' = mem_prev m o'.
Proof. by pose proof hdr_set_used as [= ]. Qed.
Lemma used_set_next_ne : mem_used (set_next m o v) o' = mem_used m o'.
Proof. by pose proof hdr_set_next as [= ]. Qed.
Lemma used_set_prev_ne : mem_used (set_prev m o v) o' = mem_used m o'.
Proof. by pose proof hdr_set_prev as [= ]. Qed.
Lemma used_set_used_ne : mem_used (set_used m o v) o' = mem_used m o'.
Proof. by pose proof hdr_set_used as [= ]. Qed.
End Apart.

(** [hdr_simpl]: evaluates the reads of struct mem fields after stores; [lia]
    tells the struct mems apart. *)
Ltac hdr_simpl :=
  repeat first
    [ rewrite next_set_prev | rewrite next_set_used | rewrite prev_set_next
    | rewrite prev_set_used | rewrite used_set_next | rewrite used_set_prev
    | rewrite next_set_next by lia | rewrite prev_set_prev by lia | rewrite used_set_used by lia
    | rewrite next_set_next_ne by lia | rewrite next_set_prev_ne by lia
    | rewrite next_set_used_ne by lia | rewrite prev_set_next_ne by lia
    | rewrite prev_set_prev_ne by lia | rewrite prev_set_used_ne by lia
    | rewrite used_set_next_ne by lia | rewrite used_set_prev_ne by lia
    | rewrite used_set_used_ne by lia ].

Ltac bytes_simpl :=
  repeat first
    [ rewrite byte_set_next by lia | rewrite byte_set_prev by lia | rewrite byte_set_used by lia ].

(** ** Lemmas: block lists *)

Lemma end_of_app c bs1 bs2 : end_of c (bs1 ++ bs2) = end_of (end_of c bs1) bs2.
Proof. revert c. induction bs1 as [|b bs1 IH]; intros c; cbn; [done|apply IH]. Qed.

Lemma last_of_app p c bs1 bs2 :
  last_of p c (bs1 ++ bs2) = last_of (last_of p c bs1) (end_of c bs1) bs2.
Proof. revert p c. induction bs1 as [|b bs1 IH]; intros p c; cbn; [done|apply IH]. Qed.

Lemma end_of_shift c bs : end_of c bs = c + end_of 0 bs.
Proof.
  revert c. induction bs as [|b bs IH]; intros c; cbn; [lia|].
  rewrite (IH (c + len b)), (IH (0 + len b)). lia.
Qed.

Lemma end_of_ge c bs : Forall blk_ok bs -> c <= end_of c bs.
Proof.
  destruct options_facts as (_ & HS & HM & _). pose proof W_pos.
  intros Hb. revert c. induction Hb as [|b bs [Hb _] Hbs IH]; intros c; cbn; [lia|].
  specialize (IH (c + len b)). lia.
Qed.

Lemma end_of_aligned c bs :
  Forall blk_ok bs -> (MEM_ALIGNMENT | c) -> (MEM_ALIGNMENT | end_of c bs).
Proof.
  intros Hb. revert c. induction Hb as [|b bs [_ Hb] Hbs IH]; intros c Hc; cbn; [done|].
  apply IH. by apply Z.divide_add_r.
Qed.

Lemma seg_app m p c bs1 bs2 :
  seg m p c (bs1 ++ bs2) <-> seg m p c bs1 /\ seg m (last_of p c bs1) (end_of c bs1) bs2.
Proof.
  revert p c. induction bs1 as [|b bs1 IH]; intros p c; cbn; [tauto|]. rewrite IH. tauto.
Qed.

(** The struct mems of a segment depend only on the bytes of its blocks. *)
Lemma seg_frame (m m' : bytes) p c bs :
  Forall blk_ok bs -> (forall i, c <= i < end_of c bs -> byte m' i = byte m i) ->
  seg m p c bs -> seg m' p c bs.
Proof.
  destruct options_facts as (_ & HS & HM & _).
  intros Hb. revert p c. induction Hb as [|b bs [Hb _] Hbs IH]; intros p c Hi; [done|].
  cbn. cbn in Hi. pose proof (end_of_ge (c + len b) bs Hbs). pose proof W_pos.
  assert (Hh : hdr m' c = hdr m c) by (apply hdr_ext; intros; apply Hi; lia).
  injection Hh as -> -> ->. intros (? & ? & ? & ?). split_and!; try done.
  apply IH; [|done]. intros. apply Hi. lia.
Qed.

Lemma no_holes_app bs1 b bs2 :
  no_holes (bs1 ++ b :: bs2) <-> no_holes (bs1 ++ [b]) /\ no_holes (b :: bs2).
Proof.
  induction bs1 as [|b1 bs1 IH]; cbn [app no_holes].
  - cbn. rewrite orb_true_r. intuition.
  - rewrite IH. replace (used_hd (bs1 ++ b :: bs2)) with (used_hd (bs1 ++ [b])) by (by destruct bs1).
    cbn [no_holes]. tauto.
Qed.

Lemma used_bytes_app bs1 bs2 : used_bytes (bs1 ++ bs2) = used_bytes bs1 + used_bytes bs2.
Proof. induction bs1 as [|b bs1 IH]; cbn; [lia|]. rewrite IH. lia. Qed.

Lemma used_bytes_range c bs : Forall blk_ok bs -> 0 <= used_bytes bs <= end_of c bs - c.
Proof.
  destruct options_facts as (_ & HS & HM & _). pose proof W_pos.
  intros Hb. revert c. induction Hb as [|b bs [Hb _] Hbs IH]; intros c; cbn; [lia|].
  specialize (IH (c + len b)). destruct (used b); lia.
Qed.

Lemma first_free_app c bs1 bs2 :
  Forall (λ b, used b = true) bs1 -> first_free c (bs1 ++ bs2) = first_free (end_of c bs1) bs2.
Proof.
  intros Hu. revert c. induction Hu as [|b bs1 Hb Hu IH]; intros c; cbn; [done|].
  rewrite Hb. apply IH.
Qed.

Lemma first_free_le c bs : Forall blk_ok bs -> c <= first_free c bs <= end_of c bs.
Proof.
  destruct options_facts as (_ & HS & HM & _). pose proof W_pos.
  intros Hb. revert c. induction Hb as [|b bs [Hb _] Hbs IH]; intros c; cbn; [lia|].
  pose proof (end_of_ge (c + len b) bs Hbs). specialize (IH (c + len b)). destruct (used b); lia.
Qed.

Lemma in_data_app c bs1 bs2 i :
  in_data c (bs1 ++ bs2) i <-> in_data c bs1 i \/ in_data (end_of c bs1) bs2 i.
Proof. revert c. induction bs1 as [|b bs1 IH]; intros c; cbn; [tauto|]. rewrite IH. tauto. Qed.

Lemma in_data_range c bs i :
  Forall blk_ok bs -> in_data c bs i -> c + S_ <= i < end_of c bs.
Proof.
  destruct options_facts as (_ & HS & HM & _). pose proof W_pos.
  intros Hb. revert c. induction Hb as [|b bs [Hb _] Hbs IH]; intros c; cbn; [done|].
  pose proof (end_of_ge (c + len b) bs Hbs). intros [[_ Hi]|Hi%IH]; lia.
Qed.

Lemma first_free_cases c bs :
  Forall blk_ok bs ->
  Forall (λ b, used b = true) bs
  \/ (forall X, first_free c (bs ++ X) = first_free c bs) /\ first_free c bs < end_of c bs.
Proof.
  destruct options_facts as (_ & HS & HM & _). pose proof W_pos.
  intros Hb. revert c. induction Hb as [|b bs [Hb _] Hbs IH]; intros c; [by left|].
  pose proof (end_of_ge (c + len b) bs Hbs). cbn. destruct (used b) eqn:E.
  - destruct (IH (c + len b)) as [IH'|[IH1 IH2]]; [left; by constructor|right; auto].
  - right. split; [done|lia].
Qed.

Lemma length_blocks c bs : Forall blk_ok bs -> length bs <= end_of c bs - c.
Proof.
  destruct options_facts as (_ & HS & HM & _). pose proof W_pos.
  intros Hb. revert c. induction Hb as [|b bs [Hb _] Hbs IH]; intros c; cbn [length end_of]; [lia|].
  specialize (IH (c + len b)). lia.
Qed.

(** ** Lemmas: relinking the next block *)

(** The conditional store of the prev pointer of the block at [c]. *)
Definition relink (m : bytes) (c p : Z) : bytes := if negb (c =? MSA) then set_prev m c p else m.

Lemma byte_relink (m : bytes) c p i :
  c = MSA \/ i < c \/ c + S_ <= i -> byte (relink m c p) i = byte m i.
Proof.
  intros Hi. unfold relink. destruct (c =? MSA) eqn:E; cbn [negb]; bool_to_prop; [done|].
  apply byte_set_prev. lia.
Qed.

Lemma end_of_room c bs : Forall blk_ok bs -> end_of c bs = MSA -> c = MSA \/ c + S_ + MIN <= MSA.
Proof.
  intros [|b bs' [Hb _] Hbs] He; cbn in He; [auto|]. pose proof (end_of_ge (c + len b) bs' Hbs). lia.
Qed.

Lemma relink_seg (m : bytes) p c bs p' :
  Forall blk_ok bs -> end_of c bs = MSA -> 0 <= p' < 256 ^ W ->
  seg m p c bs -> seg (relink m c p') p' c bs.
Proof.
  destruct options_facts as (_ & HS & HM & _). pose proof W_pos.
  intros Hb He Hp. unfold relink. destruct Hb as [|b bs [Hb _] Hbs]; [done|]. cbn in He |- *.
  pose proof (end_of_ge (c + len b) bs Hbs).
  replace (c =? MSA) with false by lia. cbn [negb]. intros (E1 & E2 & E3 & E4).
  hdr_simpl. split_and!; try done. eapply seg_frame; [done| |exact E4].
  intros. bytes_simpl. done.
Qed.

Lemma with_ram_if (b : bool) h m :
  (if b then with_ram h m else h) = with_ram h (if b then m else ram h).
Proof. by destruct b, h. Qed.

(** ** Lemmas: taking a heap apart at a block, and putting it together *)

Lemma last_of_range p c bs :
  Forall blk_ok bs ->
  (bs = [] /\ last_of p c bs = p) \/ c <= last_of p c bs <= end_of c bs - (S_ + MIN).
Proof.
  intros Hb. revert p c. induction Hb as [|b bs [Hb _] Hbs IH]; intros p c; [by left|].
  right. cbn. pose proof (end_of_ge (c + len b) bs Hbs).
  destruct options_facts as (_ & HS & HM & _). pose proof W_pos.
  destruct (IH c (c + len b)) as [[-> ->]|IH']; cbn; lia.
Qed.

Record at_block (h : heap) (bs1 : list blk) (b : blk) (bs2 : list blk) (p c : Z) : Prop := {
  at_ok1 : Forall blk_ok bs1;
  at_ok : blk_ok b;
  at_ok2 : Forall blk_ok bs2;
  at_range : 0 <= c /\ c + len b <= MSA;
  at_aligned : (MEM_ALIGNMENT | c);
  at_prev : (bs1 = [] /\ p = 0 /\ c = 0) \/ 0 <= p <= c - (S_ + MIN);
  at_end : end_of (c + len b) bs2 = MSA;
  at_seg1 : seg (ram h) 0 0 bs1;
  at_next : mem_next (ram h) c = c + len b;
  at_prev_eq : mem_prev (ram h) c = p;
  at_used : mem_used (ram h) c = Z.b2z (used b);
  at_seg2 : seg (ram h) c (c + len b) bs2
}.

Lemma rep_at h bs1 b bs2 :
  heap_shape h (bs1 ++ b :: bs2) -> at_block h bs1 b bs2 (last_of 0 0 bs1) (end_of 0 bs1).
Proof.
  intros [_ Hs He _ Hb _ _]. apply Forall_app in Hb as [Hb1 Hb2].
  apply Forall_cons in Hb2 as [Hb Hb2]. rewrite end_of_app in He. cbn in He.
  apply seg_app in Hs as [Hs1 Hs2]. cbn in Hs2. destruct Hs2 as (E1 & E2 & E3 & E4).
  pose proof (end_of_ge 0 bs1 Hb1). pose proof (end_of_ge (end_of 0 bs1 + len b) bs2 Hb2).
  constructor; try done.
  - lia.
  - apply end_of_aligned; [done|apply Z.divide_0_r].
  - destruct (last_of_range 0 0 bs1 Hb1) as [[-> ?]|?]; [by left|right; lia].
Qed.

Lemma rep_build h' m bs1 p c X :
  Forall blk_ok bs1 -> Forall blk_ok X -> p = last_of 0 0 bs1 -> c = end_of 0 bs1 ->
  end_of c X = MSA -> ram_end h' = MSA -> mem_used m MSA = 1 -> seg m 0 0 bs1 ->
  (forall i, i < c \/ MSA <= i -> byte (ram h') i = byte m i) ->
  seg (ram h') p c X -> lfree h' = first_free 0 (bs1 ++ X) ->
  stat_used h' = used_bytes (bs1 ++ X) ->
  heap_shape h' (bs1 ++ X).
Proof.
  intros H1 HX -> -> He Hr Hu Hs1 Hm HsX Hl Hst. constructor; try done.
  - apply seg_app. split; [|done]. eapply seg_frame; [done| |exact Hs1]. intros. apply Hm. lia.
  - by rewrite end_of_app.
  - assert (Hh : hdr (ram h') MSA = hdr m MSA) by (apply hdr_ext; intros; apply Hm; lia).
    injection Hh as _ _ ->. done.
  - by apply Forall_app.
Qed.

(** What taking a block of length [l] for [size] bytes leaves. *)
Definition take_blk (l size : Z) : list blk :=
  if size + S_ + MIN <=? l - S_ then [Blk (S_ + size) true; Blk (l - (S_ + size)) false]
  else [Blk l true].

Lemma take_blk_facts l size :
  blk_ok (Blk l false) -> S_ + size <= l -> MIN <= size -> (MEM_ALIGNMENT | size) ->
  Forall blk_ok (take_blk l size) /\ (forall c, end_of c (take_blk l size) = c + l)
  /\ used_bytes (take_blk l size) = (if size + S_ + MIN <=? l - S_ then S_ + size else l).
Proof.
  intros [Hl Ha] Hs Hm Hd. cbn in Hl, Ha. unfold take_blk.
  destruct options_facts as (_ & _ & HM & _ & _ & _ & HSd & _).
  case_if; split_and!; try (intros; cbn; lia); repeat constructor; cbn; try lia; try done.
  - by apply Z.divide_add_r.
  - apply Z.divide_sub_r; [done|]. by apply Z.divide_add_r.
Qed.

Lemma size_t_diff a b : 0 <= a - b < 2 ^ 32 -> size_t (a - b) = a - b.
Proof. intros. apply size_t_small. lia. Qed.

Lemma malloc_mark_spec h bs1 l bs2 p c size :
  at_block h bs1 (Blk l false) bs2 p c -> ram_end h = MSA ->
  S_ + size <= l -> MIN <= size -> (MEM_ALIGNMENT | size) ->
  0 <= stat_used h <= MSA - l ->
  exists h1, malloc_mark h size c = Ret h1
    /\ ram_end h1 = MSA /\ lfree h1 = lfree h
    /\ stat_used h1 = stat_used h + used_bytes (take_blk l size)
    /\ seg (ram h1) p c (take_blk l size ++ bs2)
    /\ (forall i, i < c \/ MSA <= i \/ in_data (c + l) bs2 i -> byte (ram h1) i = byte (ram h) i).
Proof.
  intros [_ Hb Hb2 Hr Ha Hp He Hs1 En Ep Eu Es2] Hre Hs Hm Hd Hst. cbn [len used Z.b2z] in *.
  destruct options_facts as (_ & HS & HM & Hroom & Hfit & H32 & HdS & _ & _).
  destruct (take_blk_facts l size Hb Hs Hm Hd) as (_ & _ & Hub). pose proof W_pos.
  assert (Hdat : forall i, in_data (c + l) bs2 i -> c + l + S_ <= i < MSA).
  { intros i Hi. apply in_data_range in Hi; [lia|done]. }
  pose proof (end_of_room _ _ Hb2 He) as Hrm.
  unfold malloc_mark, ptr_to_mem. rewrite En, size_t_diff by lia.
  replace (c + l - (c + S_)) with (l - S_) by lia. rewrite Hub. unfold take_blk.
  destruct (size + S_ + MIN <=? l - S_) eqn:E; bool_to_prop.
  - rewrite mem_size_t_small by lia.
    replace (c + S_ + size =? MSA) with false by lia. cbn [LWIP_ASSERT negb mbind outcome_bind].
    cbn [ram with_ram]. rewrite with_ram_if. cbn [ram with_ram].
    set (m1 := set_used _ c 1). fold (relink m1 (mem_next m1 (c + S_ + size)) (c + S_ + size)).
    assert (En2 : mem_next m1 (c + S_ + size) = c + l) by (unfold m1; hdr_simpl; lia).
    rewrite En2. eexists. split; [done|].
    cbn [MEM_STATS_INC_USED ram ram_end lfree stat_used with_ram].
    rewrite mem_size_t_small by lia. split_and!; [done|done|lia| |].
    + assert (Hs2 : seg m1 c (c + l) bs2).
      { eapply seg_frame; [done| |exact Es2]. intros i Hi. unfold m1. bytes_simpl. done. }
      apply (relink_seg _ _ _ _ (c + S_ + size)) in Hs2; [|done|done|lia].
      set (m2 := relink _ _ _) in *.
      assert (Hh : forall o, o + S_ <= c + l -> hdr m2 o = hdr m1 o).
      { intros o Ho. apply hdr_ext. intros i Hi. apply byte_relink. lia. }
      cbn [app seg len used Z.b2z]. rewrite !Z.add_assoc.
      pose proof (Hh c ltac:(lia)) as [= -> -> ->].
      assert (Hh2 : hdr m2 (c + S_ + size) = hdr m1 (c + S_ + size)) by (apply Hh; lia).
      injection Hh2 as -> -> ->.
      replace (c + S_ + size + (l - (S_ + size))) with (c + l) by lia.
      unfold m1. hdr_simpl. split_and!; done || lia.
    + intros i Hi. rewrite byte_relink by (destruct Hi as [?|[?|?%Hdat]]; lia).
      unfold m1. destruct Hi as [?|[?|?%Hdat]]; bytes_simpl; done.
  - cbn [MEM_STATS_INC_USED ram ram_end lfree stat_used with_ram]. eexists. split; [done|].
    hdr_simpl. rewrite En. unfold mem_to_ptr.
    cbn [MEM_STATS_INC_USED ram ram_end lfree stat_used with_ram].
    rewrite !mem_size_t_small by (rewrite ?mem_size_t_small; lia).
    split_and!; [done|done|lia| |].
    + cbn [app seg len used Z.b2z]. hdr_simpl. split_and!; try done.
      eapply seg_frame; [done| |exact Es2]. intros i Hi. bytes_simpl. done.
    + intros i Hi. destruct Hi as [?|[?|?%Hdat]]; bytes_simpl; done.
Qed.

(** ** Lemmas: the lowest free block *)

Lemma adjust_lfree_spec fuel h p c bs :
  Forall blk_ok bs -> end_of c bs = MSA -> ram_end h = MSA -> mem_used (ram h) MSA = 1 ->
  seg (ram h) p c bs -> (length bs < fuel)%nat ->
  adjust_lfree_loop fuel h c = Ret (first_free c bs).
Proof.
  intros Hb He Hr Hu. revert p c He fuel.
  induction Hb as [|b bs [Hb _] Hbs IH]; intros p c He fuel Hs Hf;
    (destruct fuel as [|fuel]; [cbn in Hf; lia|]); cbn [adjust_lfree_loop].
  - cbn in He. subst c. rewrite Hr, Z.eqb_refl, andb_false_r. done.
  - cbn in He, Hs, Hf. destruct Hs as (E1 & E2 & E3 & E4). cbn [first_free].
    rewrite E3, Hr. destruct options_facts as (_ & HS & HM & _). pose proof W_pos.
    pose proof (end_of_ge (c + len b) bs Hbs).
    replace (c =? MSA) with false by lia. rewrite andb_true_r.
    destruct (used b); cbn [Z.b2z Z.eqb negb]; [|done].
    unfold ptr_to_mem. rewrite E1. eapply IH; [done|done|lia].
Qed.

Lemma first_free_hdr (m : bytes) p c bs :
  seg m p c bs -> first_free c bs = end_of c bs \/ mem_used m (first_free c bs) = 0.
Proof.
  revert p c. induction bs as [|b bs IH]; intros p c; cbn; [auto|].
  intros (_ & _ & E & Hs). destruct (used b); [by eapply IH|by right].
Qed.

Lemma no_holes_replace bs1 b X b' Y :
  no_holes (bs1 ++ b :: X) -> (used b = true -> used b' = true) -> no_holes (b' :: Y) ->
  no_holes (bs1 ++ b' :: Y).
Proof.
  rewrite (no_holes_app bs1 b X), (no_holes_app bs1 b' Y). intros [H1 _] Hb' HY. split; [|done].
  induction bs1 as [|b1 bs1 IH]; cbn in *; [by rewrite orb_true_r|].
  destruct H1 as [Hb1 H1]. split; [|by apply IH].
  destruct bs1; cbn in *; [|done]. destruct (used b1), (used b); try done. by rewrite Hb'.
Qed.

(** ** Lemmas: malloc *)

Lemma malloc_lfree_spec h bs1 p c X :
  Forall blk_ok bs1 -> Forall blk_ok X -> c = end_of 0 bs1 -> end_of c X = MSA -> used_hd X = true ->
  ram_end h = MSA -> mem_used (ram h) MSA = 1 -> seg (ram h) p c X ->
  (exists b Y, used b = false /\ lfree h = first_free 0 (bs1 ++ b :: Y)) ->
  malloc_lfree h c = Ret (with_lfree h (first_free 0 (bs1 ++ X))).
Proof.
  intros H1 HX -> He Hu Hr Hue Hs (b & Y & Hb & Hl). unfold malloc_lfree.
  destruct (first_free_cases 0 bs1 H1) as [Hall|[Hff Hlt]].
  - rewrite Hl, !first_free_app by done. cbn [first_free]. rewrite Hb, Z.eqb_refl.
    pose proof (length_blocks (end_of 0 bs1) X HX). pose proof (end_of_ge 0 bs1 H1).
    rewrite (adjust_lfree_spec _ h p _ X) by (done || lia). cbn [mbind outcome_bind].
    cbn [lfree ram ram_end with_lfree]. rewrite LWIP_ASSERT_ok; [done|].
    apply orb_true_iff. rewrite Hr, !Z.eqb_eq, <- He. eapply first_free_hdr, Hs.
  - rewrite Hff in *. replace (end_of 0 bs1 =? lfree h) with false by lia.
    rewrite <- Hl. by destruct h.
Qed.

Lemma malloc_take_spec h bs1 l bs2 size :
  heap_rep h (bs1 ++ Blk l false :: bs2) ->
  S_ + size <= l -> MIN <= size -> (MEM_ALIGNMENT | size) ->
  exists h', malloc_take h size (end_of 0 bs1) = Ret (Some (end_of 0 bs1 + S_), h')
    /\ heap_rep h' (bs1 ++ take_blk l size ++ bs2)
    /\ (forall i, in_data 0 (bs1 ++ Blk l false :: bs2) i -> byte (ram h') i = byte (ram h) i).
Proof.
  intros HR Hs Hm Hd. pose proof (rep_at _ _ _ _ HR) as Hat.
  destruct HR as [[Hre _ _ Hue Hbs Hlf Hst] Hnh]. pose proof Hat as [Hb1 Hb Hb2 Hr Ha Hp He Hs1 _ _ _ _].
  set (c := end_of 0 bs1) in *. cbn [len] in *.
  destruct (take_blk_facts l size Hb Hs Hm Hd) as (Hok & Hend & Hub).
  pose proof (used_bytes_range 0 _ Hb1) as Hu1. pose proof (used_bytes_range (c + l) _ Hb2) as Hu2.
  rewrite used_bytes_app in Hst. cbn [used_bytes used] in Hst. fold c in Hu1.
  destruct (malloc_mark_spec h bs1 l bs2 _ c size Hat Hre Hs Hm Hd) as
    (h1 & Em & Hre1 & Hl1 & Hst1 & Hseg1 & Hby); [lia|].
  destruct options_facts as (_ & HS & HM & Hroom & Hfit & _ & HdS & _).
  assert (HX : Forall blk_ok (take_blk l size ++ bs2)) by (by apply Forall_app).
  assert (Hue1 : mem_used (ram h1) MSA = 1).
  { assert (Hh : hdr (ram h1) MSA = hdr (ram h) MSA) by (apply hdr_ext; intros; apply Hby; lia).
    by injection Hh as _ _ ->. }
  assert (HeX : end_of c (take_blk l size ++ bs2) = MSA) by (by rewrite end_of_app, Hend).
  assert (Hhd : used_hd (take_blk l size ++ bs2) = true) by (unfold take_blk; by case_if).
  unfold malloc_take, ptr_to_mem. rewrite Em. cbn [mbind outcome_bind].
  rewrite (malloc_lfree_spec h1 bs1 (last_of 0 0 bs1) c (take_blk l size ++ bs2));
    [|done..|exists (Blk l false), bs2; split; [done|congruence]].
  cbn [mbind outcome_bind ram_end with_lfree]. rewrite Hre1, !LWIP_ASSERT_ok; cbn [mbind outcome_bind].
  - eexists. split; [done|]. split; [split|].
    + apply (rep_build _ (ram h) bs1 (last_of 0 0 bs1) c); cbn [ram ram_end lfree stat_used with_lfree];
        try done.
      * intros i Hi. apply Hby. tauto.
      * rewrite Hst1, Hst, !used_bytes_app. lia.
    + unfold take_blk. case_if; cbn [app]; (eapply no_holes_replace; [exact Hnh|done|]);
          apply no_holes_app in Hnh as [_ Hnh]; cbn in Hnh |- *; tauto.
    + cbn [ram with_lfree]. intros i Hi. apply Hby. apply in_data_app in Hi as [Hi|Hi].
      * apply in_data_range in Hi; [|done]. fold c in Hi. lia.
      * fold c in Hi. cbn in Hi. destruct Hi as [[Hi _]|Hi]; [done|auto].
  - apply Z.leb_le. lia.
  - pose proof align_pos. apply Z.eqb_eq, Z.mod_divide; [lia|]. by apply Z.divide_add_r.
  - rewrite aligned_land by done. done.
Qed.

Lemma malloc_abs_small c bs size :
  Forall blk_ok bs -> end_of c bs - c < S_ + size -> malloc_abs c bs size = None.
Proof.
  destruct options_facts as (_ & HS & HM & _). pose proof W_pos.
  intros Hb. revert c. induction Hb as [|b bs [Hb _] Hbs IH]; intros c He; cbn; [done|].
  cbn in He. pose proof (end_of_ge (c + len b) bs Hbs).
  replace (S_ + size <=? len b) with false by lia. rewrite andb_false_r.
  by rewrite IH by lia.
Qed.

Lemma malloc_loop_spec fuel h bs1 bs size :
  heap_rep h (bs1 ++ bs) -> MIN <= size <= MSA -> (MEM_ALIGNMENT | size) -> (length bs < fuel)%nat ->
  match malloc_abs (end_of 0 bs1) bs size with
  | Some (q, bs') =>
      exists h', malloc_loop fuel h size (end_of 0 bs1) = Ret (Some q, h')
        /\ heap_rep h' (bs1 ++ bs')
        /\ (forall i, in_data 0 (bs1 ++ bs) i -> byte (ram h') i = byte (ram h) i)
  | None => malloc_loop fuel h size (end_of 0 bs1) = Ret (None, MEM_STATS_INC_ERR h)
  end.
Proof.
  intros HR Hs Hd. destruct options_facts as (_ & HS & HM & Hroom & Hfit & H32 & _). pose proof W_pos.
  revert bs1 HR fuel. induction bs as [|b bs IH]; intros bs1 HR fuel Hf;
    (destruct fuel as [|fuel]; [cbn in Hf; lia|]); cbn [malloc_abs malloc_loop].
  - rewrite app_nil_r in HR. rewrite (rep_end _ _ HR), u32_small by lia.
    by replace (MSA <? MSA - size) with false by lia.
  - pose proof (rep_at _ _ _ _ HR) as [Hb1 [Hb Hba] Hb2 Hr _ _ He _ En _ Eu _].
    set (c := end_of 0 bs1) in *. rewrite u32_small by lia.
    destruct (c <? MSA - size) eqn:Ec; bool_to_prop.
    + unfold ptr_to_mem. rewrite Eu, En, size_t_diff by lia.
      replace (size <=? c + len b - (c + S_)) with (S_ + size <=? len b) by lia.
      replace (Z.b2z (used b) =? 0) with (negb (used b)) by (by destruct (used b)).
      destruct (negb (used b) && (S_ + size <=? len b)) eqn:E.
      * bool_to_prop. destruct b as [l u]. cbn [used len] in *. subst u.
        destruct (malloc_take_spec h bs1 l bs size HR) as (h' & Et & HR' & Hby); [done|lia|done|].
        fold c in Et. rewrite Et. eexists. split; [done|]. split; [|done].
        revert HR'. unfold take_blk. by destruct (size + S_ + MIN <=? l - S_).
      * specialize (IH (bs1 ++ [b])). rewrite <- app_assoc, end_of_app in IH. cbn [app end_of] in IH.
        fold c in IH. specialize (IH HR fuel ltac:(cbn in Hf; lia)).
        destruct (malloc_abs (c + len b) bs size) as [[q bs']|]; cbn [mbind option_bind]; [|done].
        destruct IH as (h' & -> & HR' & Hby). exists h'. by rewrite <- app_assoc in HR'.
    + replace (S_ + size <=? len b) with false by lia. rewrite andb_false_r.
      by rewrite malloc_abs_small by (done || lia).
Qed.

Lemma first_free_split c bs :
  exists bs1 bs2, bs = bs1 ++ bs2 /\ Forall (λ b, used b = true) bs1 /\ first_free c bs = end_of c bs1.
Proof.
  revert c. induction bs as [|b bs IH]; intros c; [by exists [], []|]. cbn.
  destruct (used b) eqn:E; [|by exists [], (b :: bs)].
  destruct (IH (c + len b)) as (bs1 & bs2 & -> & Hu & ->). exists (b :: bs1), bs2. auto.
Qed.

Lemma malloc_abs_skip c bs1 bs2 size :
  Forall (λ b, used b = true) bs1 ->
  malloc_abs c (bs1 ++ bs2) size =
  ('(p, bs) ← malloc_abs (end_of c bs1) bs2 size; Some (p, bs1 ++ bs)).
Proof.
  intros Hu. revert c. induction Hu as [|b bs1 Hb Hu IH]; intros c; cbn [app malloc_abs end_of].
  - by destruct (malloc_abs c bs2 size) as [[]|].
  - rewrite Hb. cbn [negb andb]. rewrite IH.
    by destruct (malloc_abs (end_of (c + len b) bs1) bs2 size) as [[]|].
Qed.

Lemma divide_gap a b c : 0 < c -> (c | a) -> (c | b) -> a < b -> a + c <= b.
Proof.
  intros Hc [x ->] [y ->] Hl. assert (x < y) by (by apply (Z.mul_lt_mono_pos_r c)). nia.
Qed.

Lemma align_word : (MEM_ALIGNMENT | 256 ^ W).
Proof.
  destruct align_pow2 as (k & Hk & ->).
  assert (E : 256 ^ W = 2 ^ (8 * W)) by (change 256 with (2 ^ 8); rewrite <- Z.pow_mul_r by lia; done).
  rewrite E. exists (2 ^ (8 * W - k)). pose proof W_pos. rewrite <- Z.pow_add_r by lia. f_equal. lia.
Qed.

(** A request that is not above the heap size is rounded up without wrapping. *)
Lemma request_spec n :
  0 <= n <= MSA ->
  (if mem_size_t (LWIP_MEM_ALIGN_SIZE n) <? MIN then mem_size_t MIN
   else mem_size_t (LWIP_MEM_ALIGN_SIZE n)) = request n
  /\ n <= request n /\ MIN <= request n <= MSA /\ (MEM_ALIGNMENT | request n).
Proof.
  intros Hn. destruct options_facts as (HA & HS & HM & Hroom & Hfit & H32 & HdS & HdM & HdMSA).
  pose proof W_pos. pose proof (divide_gap _ _ _ HA HdMSA align_word Hfit).
  destruct (align_size_spec n) as [Hr Hdv]; [lia|lia|].
  assert (Hle : LWIP_MEM_ALIGN_SIZE n <= MSA).
  { destruct (decide (LWIP_MEM_ALIGN_SIZE n <= MSA)); [done|].
    pose proof (divide_gap _ _ _ HA HdMSA Hdv). lia. }
  rewrite !mem_size_t_small by lia. unfold request.
  split; [case_if; lia|]. split_and!; [lia..|].
  by destruct (Z.max_spec MIN (LWIP_MEM_ALIGN_SIZE n)) as [[_ ->]|[_ ->]].
Qed.

Lemma mem_malloc_abs h bs n :
  heap_rep h bs -> 0 <= n < 256 ^ W ->
  if (n =? 0) || (MSA <? n) then mem_malloc h n = Ret (None, h)
  else match malloc_abs 0 bs (request n) with
       | Some (q, bs') =>
           exists h', mem_malloc h n = Ret (Some q, h') /\ heap_rep h' bs'
             /\ (forall i, in_data 0 bs i -> byte (ram h') i = byte (ram h) i)
       | None => mem_malloc h n = Ret (None, MEM_STATS_INC_ERR h)
       end.
Proof.
  intros HR Hn. unfold mem_malloc. destruct (n =? 0) eqn:E0; [done|]. cbn [orb]. bool_to_prop.
  destruct (MSA <? n) eqn:E1; bool_to_prop.
  - set (size := if _ <? MIN then _ else _).
    replace ((MSA <? size) || (size <? n)) with true; [done|].
    symmetry. apply orb_true_iff. rewrite !Z.ltb_lt. lia.
  - destruct (request_spec n) as (-> & Hr1 & Hr2 & Hd); [lia|].
    replace ((MSA <? request n) || (request n <? n)) with false by lia.
    destruct (first_free_split 0 bs) as (bs1 & bs2 & -> & Hu & Hff).
    rewrite malloc_abs_skip by done.
    pose proof (rep_blks _ _ HR) as Hb. pose proof (length_blocks 0 _ Hb) as Hl.
    rewrite (rep_end _ _ HR), length_app in Hl. apply Forall_app in Hb as [Hb1 Hb2].
    pose proof (malloc_loop_spec (S (Z.to_nat MSA)) h bs1 bs2 (request n) HR Hr2 Hd ltac:(lia)) as HL.
    pose proof (rep_end _ _ HR) as He. rewrite end_of_app in He.
    pose proof (end_of_ge 0 bs1 Hb1). pose proof (end_of_ge (end_of 0 bs1) bs2 Hb2).
    destruct options_facts as (_ & _ & _ & _ & Hfit & _).
    unfold mem_to_ptr. rewrite (rep_lfree _ _ HR), Hff, mem_size_t_small by lia.
    by destruct (malloc_abs (end_of 0 bs1) bs2 (request n)) as [[q bs']|].
Qed.

(** ** Lemmas: free *)

Lemma mark_free_at bs1 b bs2 c :
  Forall blk_ok bs1 -> mark_free c (bs1 ++ b :: bs2) (end_of c bs1) = bs1 ++ Blk (len b) false :: bs2.
Proof.
  destruct options_facts as (_ & HS & HM & _). pose proof W_pos.
  intros Hb. revert c. induction Hb as [|b1 bs1 [Hb1 _] Hbs IH]; intros c; cbn [app mark_free end_of].
  - by rewrite Z.eqb_refl.
  - pose proof (end_of_ge (c + len b1) bs1 Hbs).
    replace (c =? end_of (c + len b1) bs1) with false by lia. by rewrite IH.
Qed.

Lemma coalesce_id bs : no_holes bs -> coalesce bs = bs.
Proof.
  induction bs as [|b bs IH]; [done|]. intros [Hb Hn]. cbn. fold (coalesce bs). rewrite IH by done.
  destruct bs as [|b' bs]; [done|]. cbn in Hb |- *. by destruct (used b), (used b').
Qed.

(** Two free blocks merge into one in front of the rest. *)
Lemma cons_blk_used b bs : used b || used_hd bs = true -> cons_blk b bs = b :: bs.
Proof. destruct bs as [|b' bs]; [done|]. cbn. by destruct (used b), (used b'). Qed.

Lemma foldr_cons_id bs1 b X b' Y :
  no_holes (bs1 ++ b :: X) -> (used b = true -> used b' = true) ->
  foldr cons_blk (b' :: Y) bs1 = bs1 ++ b' :: Y.
Proof.
  intros Hn Hb. induction bs1 as [|b1 bs1 IH]; [done|]. cbn [app no_holes] in Hn.
  destruct Hn as [Hb1 Hn]. cbn [foldr app]. rewrite IH by done. apply cons_blk_used.
  destruct bs1 as [|]; cbn in *; [|done]. destruct (used b1), (used b); try done. by rewrite Hb.
Qed.

(** Combining two neighbouring free blocks, as plug_holes does it twice. *)
Definition merge (h : heap) (a b : Z) : heap :=
  let h := if lfree h =? b then with_lfree h a else h in
  let h := with_ram h (set_next (ram h) a (mem_next (ram h) b)) in
  with_ram h (relink (ram h) (mem_next (ram h) b) (mem_to_ptr a)).

Lemma merge_spec h A la lb B a :
  heap_shape h (A ++ Blk la false :: Blk lb false :: B) -> a = end_of 0 A ->
  heap_shape (merge h a (a + la)) (A ++ Blk (la + lb) false :: B)
  /\ (forall i, in_data 0 (A ++ Blk la false :: Blk lb false :: B) i ->
               byte (ram (merge h a (a + la))) i = byte (ram h) i).
Proof.
  intros HR ->. pose proof (rep_at _ _ _ _ HR) as [Hb1 Hb Hb2 Hr Ha Hp He Hs1 En Ep Eu Es2].
  set (a := end_of 0 A) in *. cbn [len used Z.b2z seg end_of] in *.
  apply Forall_cons in Hb2 as [Hbb Hb2]. destruct Es2 as (En2 & Ep2 & Eu2 & Es2).
  destruct HR as [Hre _ _ Hue _ Hlf Hst]. pose proof (end_of_room _ _ Hb2 He) as Hrm.
  destruct options_facts as (_ & HS & HM & Hroom & Hfit & _ & _). pose proof W_pos.
  destruct Hb as [Hb Hbd], Hbb as [Hbb Hbbd]. cbn [len] in *.
  pose proof (end_of_ge (a + la + lb) _ Hb2) as Hge. pose proof (first_free_le 0 _ Hb1) as Hffle.
  assert (Hl : lfree h <= a).
  { rewrite Hlf. destruct (first_free_cases 0 A Hb1) as [Hu|[Hff _]].
    - rewrite first_free_app by done. cbn. unfold a. lia.
    - rewrite Hff. unfold a. lia. }
  unfold merge, mem_to_ptr. replace (lfree h =? a + la) with false by lia.
  cbn [ram with_ram]. hdr_simpl. rewrite En2, (mem_size_t_small a) by lia.
  set (m1 := set_next (ram h) a (a + la + lb)).
  assert (Hby : forall i, i < a \/ MSA <= i \/ in_data (a + la + lb) B i ->
            byte (relink m1 (a + la + lb) a) i = byte (ram h) i).
  { intros i Hi. assert (Hi' : i < a \/ (a + la + lb) <= i /\ (MSA <= i \/ a + la + lb + S_ <= i)).
    { destruct Hi as [?|[?|Hi%in_data_range]]; [lia..|done]. }
    rewrite byte_relink by lia. unfold m1. bytes_simpl. done. }
  split.
  - apply (rep_build _ (ram h) A (last_of 0 0 A) a); cbn [ram ram_end lfree stat_used with_ram]; try done.
    + constructor; [|done]. split; cbn; [lia|by apply Z.divide_add_r].
    + cbn. by rewrite Z.add_assoc.
    + intros i Hi. apply Hby. tauto.
    + assert (Hs2 : seg m1 (a + la) (a + la + lb) B).
      { eapply seg_frame; [done| |exact Es2]. intros i Hi. unfold m1. bytes_simpl. done. }
      apply (relink_seg _ _ _ _ a) in Hs2; [|done|done|lia].
      assert (Hh : hdr (relink m1 (a + la + lb) a) a = hdr m1 a).
      { apply hdr_ext. intros i Hi. apply byte_relink. lia. }
      cbn [seg len used Z.b2z]. rewrite Z.add_assoc. injection Hh as -> -> ->.
      unfold m1 at 1 2 3. hdr_simpl. split_and!; try done; lia.
    + rewrite Hlf. destruct (first_free_cases 0 A Hb1) as [Hu|[Hff _]].
      * by rewrite !first_free_app.
      * by rewrite !Hff.
    + rewrite Hst, !used_bytes_app. cbn. lia.
  - cbn [ram with_ram]. intros i Hi. apply Hby. apply in_data_app in Hi as [Hi|Hi].
    + apply in_data_range in Hi; [|done]. fold a in Hi. lia.
    + fold a in Hi. cbn in Hi. destruct Hi as [[Hi _]|[[Hi _]|Hi]]; [done|done|auto].
Qed.

(** The two halves of plug_holes. *)
Definition plug_forward (h : heap) (mem : Z) : heap :=
  let nmem := mem_next (ram h) mem in
  if negb (mem =? nmem) && (mem_used (ram h) nmem =? 0) && negb (nmem =? ram_end h)
  then merge h mem nmem else h.
Definition plug_backward (h : heap) (mem : Z) : heap :=
  let pmem := mem_prev (ram h) mem in
  if negb (pmem =? mem) && (mem_used (ram h) pmem =? 0) then merge h pmem mem else h.

Lemma plug_holes_halves h mem :
  0 <= mem < ram_end h -> mem_used (ram h) mem = 0 -> mem_next (ram h) mem <= MSA ->
  plug_holes h mem = Ret (plug_backward (plug_forward h mem) mem).
Proof.
  intros Hm Hu Hn. unfold plug_holes. rewrite !LWIP_ASSERT_ok by lia. cbn [mbind outcome_bind].
  unfold ptr_to_mem. rewrite !with_ram_if. reflexivity.
Qed.

Lemma plug_forward_spec h bs1 l bs2 c :
  heap_shape h (bs1 ++ Blk l false :: bs2) -> no_holes bs2 -> c = end_of 0 bs1 ->
  exists l' bs2', cons_blk (Blk l false) bs2 = Blk l' false :: bs2'
    /\ no_holes (Blk l' false :: bs2')
    /\ heap_shape (plug_forward h c) (bs1 ++ Blk l' false :: bs2')
    /\ (forall i, in_data 0 (bs1 ++ Blk l false :: bs2) i ->
          in_data 0 (bs1 ++ Blk l' false :: bs2') i
          /\ byte (ram (plug_forward h c)) i = byte (ram h) i).
Proof.
  intros HR Hn ->. pose proof (rep_at _ _ _ _ HR) as [Hb1 [Hb _] Hb2 Hr Ha Hp He Hs1 En Ep Eu Es2].
  destruct options_facts as (_ & HS & HM & Hroom & Hfit & _ & _). pose proof W_pos.
  cbn [len used] in *. unfold plug_forward. rewrite En, (rep_ram_end _ _ HR).
  replace (end_of 0 bs1 =? end_of 0 bs1 + l) with false by lia. cbn [negb andb].
  destruct bs2 as [|b2 bs3].
  - cbn in He. rewrite He, Z.eqb_refl, andb_false_r. exists l, []. split_and!; done.
  - apply Forall_cons in Hb2 as [[Hbb _] Hb3]. cbn [seg end_of] in Es2, He.
    destruct Es2 as (_ & _ & Eu2 & _). rewrite Eu2.
    pose proof (end_of_ge (end_of 0 bs1 + l + len b2) bs3 Hb3).
    replace (end_of 0 bs1 + l =? MSA) with false by lia. rewrite andb_true_r.
    destruct b2 as [l2 u2]. cbn [used len] in *. destruct u2; cbn [Z.b2z Z.eqb].
    + exists l, (Blk l2 true :: bs3). split_and!; done.
    + exists (l + l2), bs3. destruct (merge_spec h bs1 l l2 bs3 (end_of 0 bs1) HR) as [HR' Hby]; [done|].
      split_and!; [done| |done|].
      * by destruct Hn.
      * intros i Hi. split; [|by apply Hby]. revert Hi. rewrite !in_data_app. cbn [in_data used len].
        rewrite !Z.add_assoc. intuition congruence.
Qed.

Lemma plug_backward_spec h bs1 l bs2 c :
  heap_shape h (bs1 ++ Blk l false :: bs2) -> no_holes (bs1 ++ [Blk l true]) ->
  no_holes (Blk l false :: bs2) -> c = end_of 0 bs1 ->
  heap_rep (plug_backward h c) (foldr cons_blk (Blk l false :: bs2) bs1)
  /\ (forall i, in_data 0 (bs1 ++ Blk l false :: bs2) i -> byte (ram (plug_backward h c)) i = byte (ram h) i).
Proof.
  intros HR Hn1 Hn2 ->. pose proof (rep_at _ _ _ _ HR) as [Hb1 [Hb _] Hb2 Hr Ha Hp He Hs1 En Ep Eu Es2].
  destruct options_facts as (_ & HS & HM & Hroom & Hfit & _ & _). pose proof W_pos.
  unfold plug_backward. rewrite Ep.
  destruct bs1 as [|b0 bs0 _] using rev_ind.
  - cbn. split; [by split|done].
  - rewrite last_of_app, end_of_app. cbn [last_of end_of].
    apply Forall_app in Hb1 as [Hb0 Hb1]. apply Forall_cons in Hb1 as [[Hbb _] _].
    replace (end_of 0 bs0 =? end_of 0 bs0 + len b0) with false by lia. cbn [negb andb].
    apply seg_app in Hs1 as [_ Hs1]. cbn in Hs1. destruct Hs1 as (_ & _ & Eu0 & _). rewrite Eu0.
    rewrite foldr_app. cbn [foldr]. rewrite <- !app_assoc in *. cbn [app] in *.
    destruct b0 as [l0 u0]. cbn [used len] in *. destruct u0; cbn [Z.b2z Z.eqb].
    + rewrite cons_blk_used by done.
      erewrite (foldr_cons_id bs0 (Blk l0 true)); [|exact Hn1|done].
      split; [|done]. split; [done|]. eapply no_holes_replace; [exact Hn1|done|]. by split.
    + change (cons_blk (Blk l0 false) (Blk l false :: bs2)) with (Blk (l0 + l) false :: bs2).
      erewrite (foldr_cons_id bs0 (Blk l0 false)); [|exact Hn1|done].
      destruct (merge_spec h bs0 l0 l bs2 (end_of 0 bs0) HR) as [HR' Hby]; [done|].
      split; [|done]. split; [done|].
      eapply no_holes_replace; [exact Hn1|done|]. destruct Hn2. by split.
Qed.

Lemma plug_holes_spec h bs1 l bs2 c :
  heap_shape h (bs1 ++ Blk l false :: bs2) -> no_holes (bs1 ++ Blk l true :: bs2) ->
  c = end_of 0 bs1 ->
  exists h', plug_holes h c = Ret h' /\ heap_rep h' (coalesce (bs1 ++ Blk l false :: bs2))
    /\ (forall i, in_data 0 (bs1 ++ Blk l false :: bs2) i -> byte (ram h') i = byte (ram h) i).
Proof.
  intros HR Hn Hc. pose proof (rep_at _ _ _ _ HR) as [Hb1 [Hb _] Hb2 Hr Ha Hp He Hs1 En Ep Eu Es2].
  destruct options_facts as (_ & HS & HM & _). pose proof W_pos.
  cbn [len used Z.b2z] in *. rewrite <- Hc in *. apply no_holes_app in Hn as [Hn1 [_ Hn2]].
  rewrite plug_holes_halves by (rewrite ?(rep_ram_end _ _ HR); lia).
  destruct (plug_forward_spec h bs1 l bs2 c HR Hn2 Hc) as (l' & bs2' & Ec & Hn' & HR' & Hby).
  destruct (plug_backward_spec _ bs1 l' bs2' c HR') as [HR'' Hby']; [|done|done|].
  { by eapply no_holes_replace. }
  eexists. split; [done|]. split.
  - unfold coalesce. rewrite foldr_app. cbn [foldr]. fold (coalesce bs2).
    by rewrite coalesce_id, Ec.
  - intros i Hi. destruct (Hby i Hi) as [Hi' <-]. by apply Hby'.
Qed.

Lemma seg_last (m : bytes) p c bs b :
  seg m p c (bs ++ [b]) -> mem_next m (last_of p c (bs ++ [b])) = end_of c (bs ++ [b]).
Proof.
  rewrite seg_app, last_of_app, end_of_app. cbn. by intros (_ & -> & _).
Qed.

Lemma link_valid_at h bs1 b bs2 c :
  heap_shape h (bs1 ++ b :: bs2) -> c = end_of 0 bs1 -> mem_link_valid h c = true.
Proof.
  intros HR ->. pose proof (rep_at _ _ _ _ HR) as [Hb1 [Hb _] Hb2 Hr Ha Hp He Hs1 En Ep Eu Es2].
  destruct options_facts as (_ & HS & HM & Hroom & Hfit & _). pose proof W_pos.
  unfold mem_link_valid, ptr_to_mem, mem_to_ptr.
  rewrite En, Ep, mem_size_t_small, (rep_ram_end _ _ HR) by lia.
  assert (E1 : negb (last_of 0 0 bs1 =? end_of 0 bs1)
               && negb (mem_next (ram h) (last_of 0 0 bs1) =? end_of 0 bs1) = false).
  { destruct bs1 as [|b0 bs0 _] using rev_ind; [done|].
    rewrite (seg_last _ _ _ _ _ Hs1), Z.eqb_refl. by rewrite andb_false_r. }
  assert (E2 : negb (end_of 0 bs1 + len b =? MSA)
               && negb (mem_prev (ram h) (end_of 0 bs1 + len b) =? end_of 0 bs1) = false).
  { destruct bs2 as [|b2 bs3]; [cbn in He; rewrite He, Z.eqb_refl; done|].
    destruct Es2 as (_ & -> & _). by rewrite Z.eqb_refl, andb_false_r. }
  rewrite E1, E2.
  replace (MSA <? end_of 0 bs1 + len b) with false by lia.
  by replace (MSA <? last_of 0 0 bs1) with false by lia.
Qed.

(** The pointer to the data of the block at [c] passes the first checks. *)
Lemma mem_free_checks h bs1 b bs2 c :
  heap_shape h (bs1 ++ b :: bs2) -> c = end_of 0 bs1 ->
  Z.land (c + S_) (MEM_ALIGNMENT - 1) = 0 /\ c + S_ - S_ = c /\ 0 <= c
  /\ c + S_ + MIN <= ram_end h.
Proof.
  intros HR ->. pose proof (rep_at _ _ _ _ HR) as [Hb1 [Hb _] Hb2 Hr Ha Hp He Hs1 En Ep Eu Es2].
  destruct options_facts as (_ & _ & _ & _ & _ & _ & HdS & _).
  rewrite (rep_ram_end _ _ HR).
  split_and!; [|lia..]. apply aligned_land. by apply Z.divide_add_r.
Qed.

Lemma mem_free_at h bs1 l bs2 c :
  heap_rep h (bs1 ++ Blk l true :: bs2) -> c = end_of 0 bs1 ->
  exists h', mem_free h (Some (c + S_)) = Ret h'
    /\ heap_rep h' (free_abs (bs1 ++ Blk l true :: bs2) c)
    /\ (forall i, in_data 0 (bs1 ++ Blk l false :: bs2) i -> byte (ram h') i = byte (ram h) i).
Proof.
  intros HR Hc. pose proof (rep_at _ _ _ _ HR) as [Hb1 Hb Hb2 Hr Ha Hp He Hs1 En Ep Eu Es2].
  destruct (mem_free_checks _ _ _ _ _ (rep_shape _ _ HR) Hc) as (C1 & C2 & C3 & C4).
  pose proof (link_valid_at _ _ _ _ _ (rep_shape _ _ HR) Hc) as C5.
  destruct options_facts as (_ & HS & HM & Hroom & Hfit & _). pose proof W_pos.
  destruct HR as [[Hre _ _ Hue _ Hlf Hst] Hnh]. cbn [len used Z.b2z] in *. rewrite <- Hc in *.
  pose proof (used_bytes_range 0 _ Hb1) as Hu1. rewrite <- Hc in Hu1.
  pose proof (used_bytes_range (c + l) _ Hb2) as Hu2.
  rewrite used_bytes_app in Hst. cbn [used_bytes used len] in Hst.
  pose proof Hb as [Hbl _]. cbn [len] in Hbl.
  unfold mem_free. rewrite C1, C2, C5. cbn [Z.eqb negb].
  replace ((c <? 0) || (ram_end h <? c + S_ + MIN)) with false by lia.
  rewrite Eu. change (1 =? 0) with false. cbn [ram with_ram lfree].
  set (h1 := if c <? lfree h then _ else _).
  assert (E1 : ram h1 = set_used (ram h) c 0 /\ ram_end h1 = ram_end h /\ stat_used h1 = stat_used h
               /\ lfree h1 = if c <? lfree h then c else lfree h).
  { unfold h1. by destruct (c <? lfree h). }
  destruct E1 as (E1 & E2 & E3 & E4).
  assert (HR1 : heap_shape (MEM_STATS_DEC_USED (mem_next (ram h1) c - mem_size_t c) h1)
                  (bs1 ++ Blk l false :: bs2)).
  { apply (rep_build _ (ram h) bs1 (last_of 0 0 bs1) c);
      cbn [ram ram_end lfree stat_used MEM_STATS_DEC_USED]; rewrite ?E1, ?E2, ?E3, ?E4; try done.
    - by constructor.
    - intros i Hi. bytes_simpl. done.
    - cbn [seg len used Z.b2z]. hdr_simpl. split_and!; try done.
      eapply seg_frame; [done| |exact Es2]. intros i Hi. destruct Hb as [Hb _]. cbn in Hb.
      bytes_simpl. done.
    - rewrite Hlf. destruct (first_free_cases 0 bs1 Hb1) as [Hu|[Hff Hlt]].
      + rewrite !first_free_app, <- Hc by done. cbn [first_free used len].
        pose proof (first_free_le (c + l) bs2 Hb2). destruct Hb as [Hb _]. cbn in Hb.
        by replace (c <? first_free (c + l) bs2) with true by lia.
      + rewrite !Hff. by replace (c <? first_free 0 bs1) with false by lia.
    - hdr_simpl. rewrite En, (mem_size_t_small c), mem_size_t_small by lia.
      rewrite used_bytes_app. cbn [used_bytes used len]. lia. }
  destruct (plug_holes_spec _ _ _ _ _ HR1 Hnh Hc) as (h' & Ep' & HR' & Hby).
  exists h'. split; [done|]. split.
  - unfold free_abs. subst c. by rewrite mark_free_at.
  - intros i Hi. rewrite Hby by done. cbn [ram MEM_STATS_DEC_USED]. rewrite E1.
    rewrite in_data_app, <- Hc in Hi. cbn [in_data used len] in Hi.
    assert (i < c \/ c + S_ <= i).
    { destruct Hb as [Hb _]. cbn in Hb. destruct Hi as [Hi|[[Hi _]|Hi]]; [|done|].
      - apply in_data_range in Hi; [lia|done].
      - apply in_data_range in Hi; [lia|done]. }
    bytes_simpl. done.
Qed.

Lemma mem_free_double h bs1 l bs2 c :
  heap_shape h (bs1 ++ Blk l false :: bs2) -> c = end_of 0 bs1 ->
  mem_free h (Some (c + S_)) = Trap "mem_free: illegal memory: double free".
Proof.
  intros HR Hc. destruct (mem_free_checks _ _ _ _ _ HR Hc) as (C1 & C2 & C3 & C4).
  pose proof (rep_at _ _ _ _ HR) as [Hb1 Hb Hb2 Hr Ha Hp He Hs1 En Ep Eu Es2]. rewrite <- Hc in *.
  unfold mem_free. rewrite C1, C2. cbn [Z.eqb negb].
  replace ((c <? 0) || (ram_end h <? c + S_ + MIN)) with false by lia.
  rewrite Eu. reflexivity.
Qed.

(** ** Lemmas: trim *)

(** The stores with which both branches of mem_trim put a free block at [c2],
    between the block at [c] and the blocks from [N] on. *)
Definition split_stores (m : bytes) (c c2 N : Z) : bytes :=
  relink (set_next (set_prev (set_next (set_used m c2 0) c2 N) c2 c) c c2) N c2.

Lemma split_stores_spec (m : bytes) p c c2 q N bs :
  Forall blk_ok bs -> end_of N bs = MSA -> seg m q N bs ->
  mem_prev m c = p -> mem_used m c = 1 -> 0 <= c -> c + S_ <= c2 -> c2 + S_ <= N ->
  seg (split_stores m c c2 N) p c (Blk (c2 - c) true :: Blk (N - c2) false :: bs)
  /\ (forall i, i < c \/ c + S_ <= i < c2 \/ MSA <= i \/ in_data N bs i ->
        byte (split_stores m c c2 N) i = byte m i).
Proof.
  intros Hb He Hs Ep Eu Hc Hc2 HN.
  destruct options_facts as (_ & HS & HM & Hroom & Hfit & _). pose proof W_pos.
  pose proof (end_of_room _ _ Hb He) as Hrm. unfold split_stores. set (m1 := set_next _ c c2).
  split.
  - assert (Hs1 : seg m1 q N bs).
    { eapply seg_frame; [done| |exact Hs]. intros i Hi. unfold m1. bytes_simpl. done. }
    apply (relink_seg _ _ _ _ c2) in Hs1; [|done|done|lia].
    assert (Hh : hdr (relink m1 N c2) c = hdr m1 c).
    { apply hdr_ext. intros i Hi. apply byte_relink. lia. }
    assert (Hh2 : hdr (relink m1 N c2) c2 = hdr m1 c2).
    { apply hdr_ext. intros i Hi. apply byte_relink. lia. }
    cbn [seg len used Z.b2z]. replace (c + (c2 - c)) with c2 by lia.
    replace (c2 + (N - c2)) with N by lia. injection Hh as -> -> ->. injection Hh2 as -> -> ->.
    unfold m1 at 1 2 3 4 5 6. hdr_simpl. split_and!; done.
  - intros i Hi.
    assert (Hi' : i < c \/ c + S_ <= i < c2 \/ N <= i /\ (MSA <= i \/ N + S_ <= i)).
    { destruct Hi as [?|[?|[?|Hi]]]; [lia..|]. apply in_data_range in Hi; [lia|done]. }
    rewrite byte_relink by lia. unfold m1. bytes_simpl. done.
Qed.

Lemma trim_abs_at bs1 b bs2 newsize c :
  Forall blk_ok bs1 ->
  trim_abs c (bs1 ++ b :: bs2) (end_of c bs1) newsize
  = bs1 ++ trim_abs (end_of c bs1) (b :: bs2) (end_of c bs1) newsize.
Proof.
  destruct options_facts as (_ & HS & HM & _). pose proof W_pos.
  intros Hb. revert c. induction Hb as [|b1 bs1 [Hb1 _] Hbs IH]; intros c; [done|].
  cbn [app end_of]. pose proof (end_of_ge (c + len b1) bs1 Hbs).
  rewrite <- IH. cbn [trim_abs].
  by replace (c =? end_of (c + len b1) bs1) with false by lia.
Qed.

(** A block that is replaced by a used block, a free block and the blocks [bs]
    from [N] on. *)
Lemma trim_rep h h' bs1 l bs2 c c2 N bs q :
  heap_rep h (bs1 ++ Blk l true :: bs2) -> c = end_of 0 bs1 -> Forall blk_ok bs ->
  end_of N bs = MSA -> seg (ram h) q N bs -> no_holes bs -> used_hd bs = true ->
  S_ + MIN <= c2 - c -> S_ + MIN <= N - c2 -> (MEM_ALIGNMENT | c2) -> (MEM_ALIGNMENT | N) ->
  used_bytes bs = used_bytes bs2 ->
  ram h' = split_stores (ram h) c c2 N -> ram_end h' = ram_end h ->
  (Forall (λ b, used b = true) bs1 -> lfree h' = c2) ->
  (first_free 0 bs1 < c -> lfree h' = lfree h) ->
  stat_used h' = stat_used h - (l - (c2 - c)) ->
  heap_rep h' (bs1 ++ Blk (c2 - c) true :: Blk (N - c2) false :: bs)
  /\ (forall i, in_data 0 (bs1 ++ Blk (c2 - c) true :: Blk (N - c2) false :: bs) i ->
        byte (ram h') i = byte (ram h) i).
Proof.
  intros HR Hc Hok He Hs Hn Hhd Hl1 Hl2 Hd2 HdN Hub Er Ere Hlf1 Hlf2 Hst'.
  pose proof (rep_at _ _ _ _ HR) as [Hb1 [Hb _] Hb2 Hr Ha Hp _ Hs1 En Ep Eu Es2].
  destruct HR as [[Hre _ _ Hue _ Hlf Hst] Hnh]. cbn [len used Z.b2z] in *. rewrite <- Hc in *.
  destruct options_facts as (_ & HS & HM & Hroom & Hfit & _). pose proof W_pos.
  destruct (split_stores_spec (ram h) _ c c2 q N bs Hok He Hs Ep Eu) as [Hseg Hby]; [lia..|].
  split; [split|].
  - apply (rep_build _ (ram h) bs1 (last_of 0 0 bs1) c); try (done || congruence).
    + repeat constructor; cbn; try done; by apply Z.divide_sub_r.
    + cbn. by replace (c + (c2 - c) + (N - c2)) with N by lia.
    + rewrite Er. intros i Hi. apply Hby. tauto.
    + destruct (first_free_cases 0 bs1 Hb1) as [Hu|[Hff Hlt]].
      * rewrite Hlf1, first_free_app, <- Hc by done. cbn. lia.
      * rewrite Hlf2, Hff, Hlf, Hff by lia. done.
    + rewrite Hst', Hst, !used_bytes_app. cbn [used_bytes used len]. lia.
  - eapply no_holes_replace; [exact Hnh|done|]. cbn. by rewrite Hhd.
  - rewrite Er. intros i Hi. apply Hby. apply in_data_app in Hi as [Hi|Hi].
    + apply in_data_range in Hi; [|done]. lia.
    + rewrite <- Hc in Hi. cbn [in_data used len] in Hi.
      replace (c + (c2 - c) + (N - c2)) with N in Hi by lia.
      destruct Hi as [[_ Hi]|[[Hi _]|Hi]]; [lia|done|auto].
Qed.

(** mem_trim up to the decision what to do with the rest of the block. *)
Lemma mem_trim_start h bs1 l bs2 c n :
  heap_rep h (bs1 ++ Blk l true :: bs2) -> c = end_of 0 bs1 -> 0 <= n <= l - S_ ->
  MIN <= request n <= l - S_ /\ (MEM_ALIGNMENT | request n)
  /\ mem_size_t (mem_size_t (c + l - c) - S_) = l - S_ /\ l <= MSA.
Proof.
  intros HR Hc Hn. pose proof (rep_at _ _ _ _ HR) as [Hb1 [Hb Hd] Hb2 Hr Ha Hp _ Hs1 En Ep Eu Es2].
  cbn [len] in *. destruct options_facts as (HA & HS & HM & Hroom & Hfit & H32 & HdS & HdM & _).
  pose proof W_pos. assert (MEM_ALIGNMENT <= S_) by (apply Z.divide_pos_le; [lia|done]).
  destruct (request_spec n) as (_ & R1 & R2 & R3); [lia|].
  rewrite !mem_size_t_small by (rewrite ?mem_size_t_small; lia).
  split_and!; [lia| |done|lia|lia].
  assert (Hdl : (MEM_ALIGNMENT | l - S_)) by (by apply Z.divide_sub_r).
  destruct (align_size_spec n) as [Hr1 Hr2]; [lia..|].
  unfold request in *. destruct (decide (LWIP_MEM_ALIGN_SIZE n <= l - S_)); [lia|].
  pose proof (divide_gap _ _ _ HA Hdl Hr2). lia.
Qed.

(** The part of mem_trim behind the size checks. *)
Definition trim_rest (h : heap) (c l r : Z) : outcome (option Z * heap) :=
  let mem2 := c + l in
  if mem_used (ram h) mem2 =? 0 then
    LWIP_ASSERT "invalid next ptr" (negb (c + l =? MSA));;
    let N := mem_next (ram h) mem2 in
    let h := if lfree h =? mem2 then with_lfree h (c + S_ + r) else h in
    Ret (Some (c + S_), MEM_STATS_DEC_USED (l - S_ - r) (with_ram h (split_stores (ram h) c (c + S_ + r) N)))
  else if r + S_ + MIN <=? l - S_ then
    LWIP_ASSERT "invalid next ptr" (negb (c + l =? MSA));;
    let h := if c + S_ + r <? lfree h then with_lfree h (c + S_ + r) else h in
    Ret (Some (c + S_), MEM_STATS_DEC_USED (l - S_ - r) (with_ram h (split_stores (ram h) c (c + S_ + r) (c + l))))
  else Ret (Some (c + S_), h).

Lemma mem_trim_unfold h bs1 l bs2 c n :
  heap_rep h (bs1 ++ Blk l true :: bs2) -> c = end_of 0 bs1 -> 0 <= n <= l - S_ ->
  (forall l2 u bs3, bs2 = Blk l2 u :: bs3 -> c + l + l2 <= MSA) ->
  mem_trim h (c + S_) n
  = if request n =? l - S_ then Ret (Some (c + S_), h) else trim_rest h c l (request n).
Proof.
  intros HR Hc Hn Hb3. destruct (mem_trim_start _ _ _ _ _ _ HR Hc Hn) as (R1 & R2 & Es & Hl).
  pose proof (rep_at _ _ _ _ HR) as [Hb1 [Hb Hd] Hb2 Hr Ha Hp He Hs1 En Ep Eu Es2].
  cbn [len used Z.b2z] in *. rewrite <- Hc in *.
  destruct options_facts as (HA & HS & HM & Hroom & Hfit & _ & HdS & HdM & _). pose proof W_pos.
  destruct (request_spec n) as (Erq & R3 & R4 & R5); [lia|].
  unfold mem_trim. cbv zeta. rewrite Erq.
  replace ((MSA <? request n) || (request n <? n)) with false by lia.
  rewrite (rep_ram_end _ _ HR).
  replace ((0 <=? c + S_) && (c + S_ <? MSA)) with true by lia.
  replace ((c + S_ <? 0) || (MSA <=? c + S_)) with false by lia.
  replace (c + S_ - S_) with c by lia. unfold mem_to_ptr. rewrite (mem_size_t_small c), En by lia.
  rewrite Es. replace (request n <=? l - S_) with true by lia.
  replace (l - S_ <? request n) with false by lia.
  cbn [LWIP_ASSERT mbind outcome_bind].
  destruct (request n =? l - S_) eqn:E; [done|]. bool_to_prop.
  unfold ptr_to_mem, trim_rest. rewrite (mem_size_t_small (c + S_ + request n)) by lia.
  destruct (mem_used (ram h) (c + l) =? 0) eqn:E0.
  - destruct (c + l =? MSA) eqn:Ee; [done|]. cbn [LWIP_ASSERT negb mbind outcome_bind].
    rewrite with_ram_if. unfold split_stores, relink.
    assert (HN : 0 <= mem_next (ram h) (c + l) < 256 ^ W).
    { destruct bs2 as [|[l2 u] bs3]; [cbn in He; lia|]. destruct Es2 as (-> & _).
      specialize (Hb3 l2 u bs3 eq_refl). apply Forall_cons in Hb2 as [[Hb2 _] _]. cbn in Hb2 |- *. lia. }
    destruct (lfree h =? c + l); cbn [ram with_ram with_lfree]; hdr_simpl; reflexivity.
  - destruct (request n + S_ + MIN <=? l - S_) eqn:E1; [|done]. bool_to_prop.
    destruct (c + l =? MSA) eqn:Ee; [done|]. cbn [LWIP_ASSERT negb mbind outcome_bind].
    rewrite with_ram_if. unfold split_stores, relink.
    destruct (c + S_ + request n <? lfree h); cbn [ram with_ram with_lfree]; hdr_simpl; rewrite ?En; hdr_simpl;
      reflexivity.
Qed.

Lemma rep_next_room h bs1 l bs2 c :
  heap_shape h (bs1 ++ Blk l true :: bs2) -> c = end_of 0 bs1 ->
  forall l2 u bs3, bs2 = Blk l2 u :: bs3 -> c + l + l2 <= MSA.
Proof.
  intros HR -> l2 u bs3 ->. pose proof (rep_at _ _ _ _ HR) as [_ _ Hb2 _ _ _ He _ _ _ _ _].
  apply Forall_cons in Hb2 as [_ Hb3]. cbn in He.
  pose proof (end_of_ge (end_of 0 bs1 + l + l2) bs3 Hb3). lia.
Qed.

Lemma trim_rest_spec h bs1 l bs2 c r :
  heap_rep h (bs1 ++ Blk l true :: bs2) -> c = end_of 0 bs1 ->
  MIN <= r < l - S_ -> (MEM_ALIGNMENT | r) ->
  (bs2 = [] -> l - S_ < r + S_ + MIN) ->
  exists h', trim_rest h c l r = Ret (Some (c + S_), h')
    /\ heap_rep h' (bs1 ++ trim_abs c (Blk l true :: bs2) c r)
    /\ (forall i, in_data 0 (bs1 ++ trim_abs c (Blk l true :: bs2) c r) i ->
          byte (ram h') i = byte (ram h) i).
Proof.
  intros HR Hc Hr Hd Hlast. pose proof (rep_next_room _ _ _ _ _ (rep_shape _ _ HR) Hc) as Hroom2.
  pose proof (rep_at _ _ _ _ HR) as [Hb1 [Hb Hbd] Hb2 Hcr Ha Hp He Hs1 En Ep Eu Es2].
  cbn [len used Z.b2z] in *. rewrite <- Hc in *.
  destruct options_facts as (HA & HS & HM & Hroom & Hfit & _ & HdS & HdM & _). pose proof W_pos.
  pose proof (rep_stat _ _ HR) as Hst. rewrite used_bytes_app in Hst. cbn [used_bytes used len] in Hst.
  pose proof (used_bytes_range 0 _ Hb1) as Hu1. rewrite <- Hc in Hu1.
  pose proof (used_bytes_range (c + l) _ Hb2) as Hu2.
  assert (HdC : (MEM_ALIGNMENT | c + S_ + r)) by (by repeat apply Z.divide_add_r).
  assert (HdL : (MEM_ALIGNMENT | c + l)) by (by apply Z.divide_add_r).
  pose proof (rep_lfree _ _ HR) as Hlf.
  assert (Hnh : no_holes bs2) by (apply rep_no_holes, no_holes_app in HR as [_ [_ HR]]; done).
  assert (Hff : Forall (λ b, used b = true) bs1 -> lfree h = first_free (c + l) bs2).
  { intros Hu. rewrite Hlf, first_free_app, <- Hc by done. done. }
  assert (Hff2 : first_free 0 bs1 < c -> lfree h = first_free 0 bs1).
  { intros Hlt. rewrite Hlf. destruct (first_free_cases 0 bs1 Hb1) as [Hu|[-> _]]; [|done].
    pose proof (first_free_app 0 bs1 [] Hu) as E. rewrite app_nil_r in E. cbn in E. lia. }
  unfold trim_rest. cbn [trim_abs len]. rewrite Z.eqb_refl.
  destruct bs2 as [|[l2 u2] bs3].
  - cbn in He. rewrite He, (rep_sentinel _ _ HR). change (1 =? 0) with false.
    specialize (Hlast eq_refl). replace (r + S_ + MIN <=? l - S_) with false by lia.
    replace (S_ + MIN <=? l - (S_ + r)) with false by lia. by exists h.
  - apply Forall_cons in Hb2 as [[Hbl2 Hbd2] Hb3]. cbn [seg len used end_of] in *.
    destruct Es2 as (En2 & Ep2 & Eu2 & Es3). rewrite Eu2, En2.
    specialize (Hroom2 l2 u2 bs3 eq_refl). destruct Hnh as [Hhd Hnh3].
    replace (c + l =? MSA) with false by lia. cbn [LWIP_ASSERT negb mbind outcome_bind].
    destruct u2; cbn [Z.b2z Z.eqb].
    + replace (r + S_ + MIN <=? l - S_) with (S_ + MIN <=? l - (S_ + r)) by lia.
      case_if; [|by exists h].
      eexists. split; [done|].
      replace (S_ + r) with (c + S_ + r - c) by lia.
      replace (l - (c + S_ + r - c)) with (c + l - (c + S_ + r)) by lia.
      apply (trim_rep h _ bs1 l (Blk l2 true :: bs3) c _ _ _ c HR Hc);
        try (done || lia); try (by destruct (_ <? lfree h)).
      * constructor; [|done]. by split.
      * intros Hu. rewrite (Hff Hu). cbn [first_free used len].
        pose proof (first_free_le (c + l + l2) bs3 Hb3).
        by replace (c + S_ + r <? first_free (c + l + l2) bs3) with true by lia.
      * intros Hlt. pose proof (Hff2 Hlt). by replace (c + S_ + r <? lfree h) with false by lia.
      * cbn [stat_used MEM_STATS_DEC_USED with_ram]. cbn [used_bytes used len] in *.
        replace (stat_used (if c + S_ + r <? lfree h then with_lfree h (c + S_ + r) else h))
          with (stat_used h) by (by destruct (_ <? _)).
        rewrite mem_size_t_small by lia. lia.
    + replace (l - (S_ + r) =? 0) with false by lia.
      eexists. split; [done|].
      replace (l2 + (l - (S_ + r))) with (c + l + l2 - (c + S_ + r)) by lia.
      replace (S_ + r) with (c + S_ + r - c) by lia.
      apply (trim_rep h _ bs1 l (Blk l2 false :: bs3) c _ _ _ (c + l) HR Hc);
        try (done || lia); try (by destruct (lfree h =? c + l)).
      * by apply Z.divide_add_r.
      * intros Hu. rewrite (Hff Hu). cbn [first_free used len]. by rewrite Z.eqb_refl.
      * intros Hlt. pose proof (Hff2 Hlt). by replace (lfree h =? c + l) with false by lia.
      * cbn [stat_used MEM_STATS_DEC_USED with_ram]. cbn [used_bytes used len] in *.
        replace (stat_used (if lfree h =? c + l then with_lfree h (c + S_ + r) else h))
          with (stat_used h) by (by destruct (_ =? _)).
        rewrite mem_size_t_small by lia. lia.
Qed.

Lemma mem_trim_at h bs1 l bs2 c n :
  heap_rep h (bs1 ++ Blk l true :: bs2) -> c = end_of 0 bs1 -> 0 <= n <= l - S_ ->
  (bs2 = [] -> l - S_ < request n + S_ + MIN) ->
  exists h', mem_trim h (c + S_) n = Ret (Some (c + S_), h')
    /\ heap_rep h' (trim_abs 0 (bs1 ++ Blk l true :: bs2) c (request n))
    /\ (forall i, in_data 0 (trim_abs 0 (bs1 ++ Blk l true :: bs2) c (request n)) i ->
          byte (ram h') i = byte (ram h) i).
Proof.
  intros HR Hc Hn Hlast. destruct (mem_trim_start _ _ _ _ _ _ HR Hc Hn) as (R1 & R2 & Es & Hl).
  rewrite (mem_trim_unfold _ _ _ _ _ _ HR Hc Hn (rep_next_room _ _ _ _ _ (rep_shape _ _ HR) Hc)).
  pose proof (rep_at _ _ _ _ HR) as [Hb1 _ _ _ _ _ _ _ _ _ _ _].
  subst c. rewrite trim_abs_at by done. set (c := end_of 0 bs1) in *.
  destruct (request n =? l - S_) eqn:E; bool_to_prop.
  - exists h. split; [done|]. replace (trim_abs c (Blk l true :: bs2) c (request n)) with (Blk l true :: bs2);
      [done|]. cbn [trim_abs len]. rewrite Z.eqb_refl.
    destruct options_facts as (_ & HS & HM & _). pose proof W_pos.
    destruct bs2 as [|[l2 []] bs3]; [..|by replace (l - (S_ + request n) =? 0) with true by lia];
      by replace (S_ + MIN <=? l - (S_ + request n)) with false by lia.
  - apply trim_rest_spec; try done. lia.
Qed.

Lemma mem_trim_last h bs1 l c n :
  heap_rep h (bs1 ++ [Blk l true]) -> c = end_of 0 bs1 -> 0 <= n <= l - S_ ->
  request n + S_ + MIN <= l - S_ ->
  mem_trim h (c + S_) n = Trap "invalid next ptr".
Proof.
  intros HR Hc Hn Hfit. rewrite (mem_trim_unfold _ _ _ _ _ _ HR Hc Hn) by done.
  pose proof (rep_at _ _ _ _ HR) as [_ _ _ _ _ _ He _ _ _ _ _]. cbn in He. rewrite <- Hc in He.
  destruct options_facts as (_ & HS & HM & _). pose proof W_pos.
  replace (request n =? l - S_) with false by lia. unfold trim_rest.
  rewrite He, (rep_sentinel _ _ HR), Z.eqb_refl. change (1 =? 0) with false.
  by replace (request n + S_ + MIN <=? l - S_) with true by lia.
Qed.

(** ** Lemmas: the allocation map *)

Lemma used_map_range c bs q k :
  Forall blk_ok bs -> used_map c bs !! q = Some k -> c + S_ <= q /\ MIN <= k /\ q + k <= end_of c bs.
Proof.
  destruct options_facts as (_ & HS & HM & _). pose proof W_pos.
  intros Hb. revert c. induction Hb as [|b bs [Hb _] Hbs IH]; intros c; cbn; [done|].
  pose proof (end_of_ge (c + len b) bs Hbs). intros Hq.
  assert (Hq' : (q = c + S_ /\ k = len b - S_) \/ used_map (c + len b) bs !! q = Some k).
  { destruct (used b); [|auto]. apply lookup_insert_Some in Hq as [[<- <-]|[_ Hq]]; auto. }
  destruct Hq' as [[-> ->]|Hq'%IH]; lia.
Qed.

Lemma used_map_fresh c bs q : Forall blk_ok bs -> q < c + S_ -> used_map c bs !! q = None.
Proof.
  intros Hb Hq. destruct (used_map c bs !! q) as [k|] eqn:E; [|done].
  apply used_map_range in E; [lia|done].
Qed.

Lemma used_map_app_lookup c bs1 bs2 q :
  Forall blk_ok bs1 -> Forall blk_ok bs2 ->
  used_map c (bs1 ++ bs2) !! q
  = if q <? end_of c bs1 then used_map c bs1 !! q else used_map (end_of c bs1) bs2 !! q.
Proof.
  intros K1 K2. destruct options_facts as (_ & HS & HM & _). pose proof W_pos.
  revert c. induction K1 as [|b bs1 [Hb _] K1 IH]; intros c; cbn [app used_map end_of].
  - case_if; [|done]. rewrite used_map_fresh by (done || lia). done.
  - specialize (IH (c + len b)). pose proof (end_of_ge (c + len b) bs1 K1).
    destruct (used b); [|exact IH]. destruct (decide (q = c + S_)) as [->|Hne].
    + rewrite !lookup_insert_eq. by replace (c + S_ <? end_of (c + len b) bs1) with true by lia.
    + by rewrite !lookup_insert_ne by done.
Qed.

(** Replacing the block at [c] by blocks that end where it ended. *)
Lemma used_map_replace bs1 X Y bs2 :
  Forall blk_ok bs1 -> Forall blk_ok X -> Forall blk_ok Y -> Forall blk_ok bs2 ->
  end_of (end_of 0 bs1) X = end_of (end_of 0 bs1) Y ->
  forall q, used_map 0 (bs1 ++ Y ++ bs2) !! q
    = if (end_of 0 bs1 <=? q) && (q <? end_of (end_of 0 bs1) Y)
      then used_map (end_of 0 bs1) Y !! q else used_map 0 (bs1 ++ X ++ bs2) !! q.
Proof.
  intros H1 HX HY H2 He q. rewrite !used_map_app_lookup by (done || by apply Forall_app).
  rewrite He. pose proof (end_of_ge (end_of 0 bs1) Y HY). repeat case_if; try done; lia.
Qed.

Lemma used_map_split c bs q k :
  Forall blk_ok bs -> used_map c bs !! q = Some k ->
  exists bs1 l bs2, bs = bs1 ++ Blk l true :: bs2 /\ q = end_of c bs1 + S_ /\ k = l - S_.
Proof.
  intros Hb. revert c. induction Hb as [|b bs Hb Hbs IH]; intros c; cbn; [done|]. intros Hq.
  destruct b as [l u]. cbn in Hq.
  assert (Hq' : (u = true /\ q = c + S_ /\ k = l - S_) \/ used_map (c + l) bs !! q = Some k).
  { destruct u; [|auto]. apply lookup_insert_Some in Hq as [[<- <-]|[_ Hq]]; auto. }
  destruct Hq' as [(-> & -> & ->)|(bs1 & l' & bs2 & -> & -> & ->)%IH].
  - by exists [], l, bs.
  - by exists (Blk l u :: bs1), l', bs2.
Qed.

Lemma in_data_allocated c bs i : Forall blk_ok bs -> in_data c bs i <-> allocated (used_map c bs) i.
Proof.
  intros Hb. split.
  - revert c. induction Hb as [|b bs [Hb _] Hbs IH]; intros c; cbn; [done|].
    intros [[Hu Hi]|(q & k & Hq & Hi)%IH].
    + rewrite Hu. exists (c + S_), (len b - S_). rewrite lookup_insert_eq. split; [done|lia].
    + exists q, k. split; [|done]. destruct (used b); [|done].
      rewrite lookup_insert_ne; [done|]. apply used_map_range in Hq; [|done].
      destruct options_facts as (_ & HS & HM & _). pose proof W_pos. lia.
  - intros (q & k & Hq & Hi). destruct (used_map_split _ _ _ _ Hb Hq) as (bs1 & l & bs2 & -> & -> & ->).
    apply in_data_app. right. cbn. left. split; [done|lia].
Qed.

Lemma used_map_coalesce c bs : used_map c (coalesce bs) = used_map c bs.
Proof.
  revert c. induction bs as [|b bs IH]; intros c; [done|]. cbn [coalesce foldr]. fold (coalesce bs).
  transitivity (used_map c (b :: coalesce bs)).
  - destruct (coalesce bs) as [|b' bs']; [done|]. cbn [cons_blk].
    destruct b as [l []], b' as [l' []]; cbn; try done. by rewrite Z.add_assoc.
  - cbn. by rewrite IH.
Qed.

Lemma malloc_abs_split c bs size :
  match malloc_abs c bs size with
  | Some (q, bs') =>
      exists bs1 l bs2, bs = bs1 ++ Blk l false :: bs2 /\ bs' = bs1 ++ take_blk l size ++ bs2
        /\ q = end_of c bs1 + S_ /\ S_ + size <= l
        /\ Forall (λ b, used b = false -> len b < S_ + size) bs1
  | None => Forall (λ b, used b = false -> len b < S_ + size) bs
  end.
Proof.
  revert c. induction bs as [|b bs IH]; intros c; cbn [malloc_abs]; [done|].
  destruct (negb (used b) && (S_ + size <=? len b)) eqn:E.
  - bool_to_prop. destruct b as [l u]. cbn in *. subst u. exists [], l, bs.
    split_and!; [done| |done|done|done]. unfold take_blk. by case_if.
  - assert (Hb : used b = false -> len b < S_ + size).
    { intros Hu. rewrite Hu in E. cbn in E. lia. }
    specialize (IH (c + len b)). destruct (malloc_abs (c + len b) bs size) as [[q bs']|]; cbn.
    + destruct IH as (bs1 & l & bs2 & -> & -> & -> & Hs & Hf). exists (b :: bs1), l, bs2.
      split_and!; try done. by constructor.
    + by constructor.
Qed.

(** ** Lemmas: the operations on the allocation map *)

Lemma mem_init_rep h :
  stat_used h = 0 -> exists h', mem_init h = Ret h' /\ heap_rep h' [Blk MSA false].
Proof.
  intros Hst. destruct options_facts as (HA & HS & HM & Hroom & Hfit & _ & HdS & HdM & HdMSA).
  pose proof W_pos. unfold mem_init. rewrite aligned_land by done. cbn [LWIP_ASSERT mbind outcome_bind Z.eqb].
  rewrite !mem_size_t_small by lia. unfold ptr_to_mem. eexists. split; [done|]. split; [|by split].
  constructor; cbn [ram ram_end lfree stat_used]; try done.
  - cbn [seg len used Z.b2z]. hdr_simpl. split_and!; done || lia.
  - hdr_simpl. done.
  - repeat constructor; cbn; [lia|done].
Qed.

Lemma heap_ok_ok_blks h bs : heap_rep h bs -> Forall blk_ok bs.
Proof. intros HR. apply (rep_blks _ _ HR). Qed.

Lemma heap_ok_range h U q k :
  heap_ok h U -> U !! q = Some k -> S_ <= q /\ MIN <= k /\ q + k <= MSA /\ (MEM_ALIGNMENT | q).
Proof.
  intros (bs & HR & ->) Hq. pose proof (rep_blks _ _ HR) as Hb.
  pose proof (used_map_range _ _ _ _ Hb Hq). rewrite (rep_end _ _ HR) in *.
  split_and!; [lia..|]. destruct (used_map_split _ _ _ _ Hb Hq) as (bs1 & l & bs2 & -> & -> & ->).
  apply Forall_app in Hb as [Hb1 _]. destruct options_facts as (_ & _ & _ & _ & _ & _ & HdS & _).
  apply Z.divide_add_r; [|done]. apply end_of_aligned; [done|apply Z.divide_0_r].
Qed.

Lemma heap_ok_disjoint h U q1 k1 q2 k2 :
  heap_ok h U -> U !! q1 = Some k1 -> U !! q2 = Some k2 -> q1 < q2 -> q1 + k1 + S_ <= q2.
Proof.
  intros (bs & HR & ->) Hq1 Hq2 Hlt. pose proof (rep_blks _ _ HR) as Hb.
  destruct (used_map_split _ _ _ _ Hb Hq1) as (bs1 & l & bs2 & -> & -> & ->).
  apply Forall_app in Hb as [Hb1 Hb2]. rewrite used_map_app_lookup in Hq2 by done.
  revert Hq2. case_if; intros Hq2.
  { apply used_map_range in Hq2; [|done]. destruct options_facts as (_ & HS & HM & _). pose proof W_pos. lia. }
  cbn [used_map used len] in Hq2. apply lookup_insert_Some in Hq2 as [[? _]|[_ Hq2]]; [lia|].
  apply Forall_cons in Hb2 as [_ Hb2]. apply used_map_range in Hq2; [lia|done].
Qed.

Lemma take_blk_map l size c :
  used_map c (take_blk l size)
  = {[ c + S_ := if size + S_ + MIN <=? l - S_ then size else l - S_ ]}.
Proof. unfold take_blk. case_if; cbn; [|done]. by replace (S_ + size - S_) with size by lia. Qed.

Lemma heap_ok_malloc h U n :
  heap_ok h U -> 0 <= n < 256 ^ W ->
  exists r h', mem_malloc h n = Ret (r, h') /\
    match r with
    | Some q => exists k, n <= k /\ U !! q = None /\ heap_ok h' (<[q := k]> U)
                  /\ (forall i, allocated U i -> byte (ram h') i = byte (ram h) i)
    | None => heap_ok h' U /\ ram h' = ram h
    end.
Proof.
  intros (bs & HR & ->) Hn. pose proof (mem_malloc_abs h bs n HR Hn) as HM.
  destruct ((n =? 0) || (MSA <? n)) eqn:E.
  { exists None, h. split; [done|]. split; [by exists bs|done]. }
  apply orb_false_iff in E as [E0 E1]. bool_to_prop.
  destruct (request_spec n) as (_ & R1 & R2 & R3); [lia|].
  pose proof (malloc_abs_split 0 bs (request n)) as Hsp.
  destruct (malloc_abs 0 bs (request n)) as [[q bs']|].
  - destruct HM as (h' & Em & HR' & Hby). exists (Some q), h'. split; [done|].
    destruct Hsp as (bs1 & l & bs2 & -> & -> & -> & Hs & _).
    pose proof (rep_blks _ _ HR) as Hb. pose proof Hb as Hb'.
    apply Forall_app in Hb as [Hb1 Hb2]. apply Forall_cons in Hb2 as [Hb Hb2].
    destruct (take_blk_facts l (request n) Hb Hs ltac:(lia) R3) as (Hok & Hend & _).
    set (c := end_of 0 bs1) in *.
    exists (if request n + S_ + MIN <=? l - S_ then request n else l - S_).
    destruct options_facts as (_ & HS & HMn & _). pose proof W_pos.
    assert (Hfresh : used_map 0 (bs1 ++ Blk l false :: bs2) !! (c + S_) = None).
    { rewrite used_map_app_lookup by (done || by constructor). fold c. case_if; [lia|].
      cbn [used_map used len]. apply used_map_fresh; [done|]. lia. }
    split_and!; [case_if; lia|done| |].
    + exists (bs1 ++ take_blk l (request n) ++ bs2). split; [done|]. apply map_eq. intros x.
      rewrite (used_map_replace bs1 [Blk l false] (take_blk l (request n)) bs2) by
        (done || (by apply Forall_singleton) || (by rewrite Hend)).
      fold c. rewrite Hend, take_blk_map. destruct (decide (x = c + S_)) as [->|Hne].
      * rewrite lookup_insert_eq. replace ((c <=? c + S_) && (c + S_ <? c + l)) with true by lia.
        by rewrite lookup_singleton_eq.
      * rewrite lookup_insert_ne by done. case_if; [|done].
        rewrite lookup_singleton_ne by done.
        rewrite used_map_app_lookup by (done || by constructor). fold c.
        replace (x <? c) with false by lia. cbn [app used_map used len].
        apply used_map_fresh; [done|]. lia.
    + intros i Hi. apply Hby. by apply in_data_allocated.
  - exists None, (MEM_STATS_INC_ERR h). split; [done|]. split; [|done]. exists bs. split; [|done].
    destruct HR as [[] ?]. by split.
Qed.

Lemma used_map_mark bs1 l bs2 :
  Forall blk_ok (bs1 ++ Blk l true :: bs2) ->
  used_map 0 (bs1 ++ Blk l false :: bs2)
  = delete (end_of 0 bs1 + S_) (used_map 0 (bs1 ++ Blk l true :: bs2)).
Proof.
  intros Hb. apply Forall_app in Hb as [Hb1 Hb2]. apply Forall_cons in Hb2 as [Hb Hb2].
  apply map_eq. intros x. rewrite (used_map_replace bs1 [Blk l true] [Blk l false] bs2) by
      (done || by apply Forall_singleton). destruct options_facts as (_ & HS & HM & _). pose proof W_pos.
  cbn [end_of app len used used_map]. destruct (decide (x = end_of 0 bs1 + S_)) as [->|Hne].
  - rewrite lookup_delete_eq. destruct Hb as [Hb _]. cbn in Hb.
    by replace ((end_of 0 bs1 <=? _) && (_ <? end_of 0 bs1 + l)) with true by lia.
  - rewrite lookup_delete_ne by done. case_if; [|done].
    rewrite used_map_app_lookup by (done || by constructor).
    replace (x <? end_of 0 bs1) with false by lia. cbn [used_map used len].
    rewrite lookup_insert_ne by done. symmetry. apply used_map_fresh; [done|]. lia.
Qed.

Lemma free_abs_map h bs q k :
  heap_rep h bs -> used_map 0 bs !! q = Some k ->
  exists h', mem_free h (Some q) = Ret h'
    /\ heap_rep h' (free_abs bs (q - S_))
    /\ used_map 0 (free_abs bs (q - S_)) = delete q (used_map 0 bs)
    /\ (forall i, allocated (delete q (used_map 0 bs)) i -> byte (ram h') i = byte (ram h) i).
Proof.
  intros HR Hq. pose proof (rep_blks _ _ HR) as Hb.
  destruct (used_map_split _ _ _ _ Hb Hq) as (bs1 & l & bs2 & -> & -> & ->).
  replace (end_of 0 bs1 + S_ - S_) with (end_of 0 bs1) by lia.
  destruct (mem_free_at _ _ _ _ _ HR eq_refl) as (h' & Ef & HR' & Hby).
  rewrite <- used_map_mark by done. exists h'. split_and!; [done|done|..].
  - unfold free_abs. rewrite mark_free_at, used_map_coalesce; [done|]. by apply Forall_app in Hb as [? _].
  - intros i Hi. apply Hby. apply in_data_allocated; [|done].
    rewrite Forall_app, Forall_cons in *. destruct Hb as (? & ? & ?). done.
Qed.

Lemma heap_ok_free h U q k :
  heap_ok h U -> U !! q = Some k ->
  exists h', mem_free h (Some q) = Ret h' /\ heap_ok h' (delete q U)
    /\ (forall i, allocated (delete q U) i -> byte (ram h') i = byte (ram h) i).
Proof.
  intros (bs & HR & ->) Hq. destruct (free_abs_map _ _ _ _ HR Hq) as (h' & Ef & HR' & HU & Hby).
  exists h'. split_and!; [done| |done]. eexists. split; [exact HR'|done].
Qed.

Lemma trim_abs_map c l bs r :
  blk_ok (Blk l true) -> Forall blk_ok bs -> MIN <= r <= l - S_ ->
  exists k, r <= k <= l - S_ /\ used_map c (trim_abs c (Blk l true :: bs) c r)
                              = <[c + S_ := k]> (used_map c (Blk l true :: bs)).
Proof.
  intros [Hl _] Hb Hr. cbn in Hl. destruct options_facts as (_ & HS & HM & _). pose proof W_pos.
  cbn [trim_abs len]. rewrite Z.eqb_refl.
  assert (Hsame : exists k, r <= k <= l - S_ /\ used_map c (Blk l true :: bs)
                              = <[c + S_ := k]> (used_map c (Blk l true :: bs))).
  { exists (l - S_). split; [lia|]. cbn. by rewrite insert_insert_eq. }
  assert (Hsplit : forall N bs3, used_map (c + l) bs = used_map N bs3 -> c + S_ + r + (N - (c + S_ + r)) = N ->
    exists k, r <= k <= l - S_ /\ used_map c (Blk (S_ + r) true :: Blk (N - (c + S_ + r)) false :: bs3)
                              = <[c + S_ := k]> (used_map c (Blk l true :: bs))).
  { intros N bs3 E EN. exists r. split; [lia|]. cbn [used_map used len]. rewrite insert_insert_eq.
    rewrite E. replace (S_ + r - S_) with r by lia. f_equal. f_equal. lia. }
  destruct bs as [|[l2 []] bs3].
  - case_if; [|done]. replace (l - (S_ + r)) with (c + l - (c + S_ + r)) by lia. apply Hsplit; [done|lia].
  - case_if; [|done]. replace (l - (S_ + r)) with (c + l - (c + S_ + r)) by lia. apply Hsplit; [done|lia].
  - case_if; [done|]. replace (l2 + (l - (S_ + r))) with (c + l + l2 - (c + S_ + r)) by lia.
    apply Hsplit; [done|lia].
Qed.

Lemma used_map_app_eq c bs1 X Y :
  Forall blk_ok bs1 -> Forall blk_ok X -> Forall blk_ok Y -> forall k,
  used_map (end_of c bs1) Y = <[end_of c bs1 + S_ := k]> (used_map (end_of c bs1) X) ->
  used_map c (bs1 ++ Y) = <[end_of c bs1 + S_ := k]> (used_map c (bs1 ++ X)).
Proof.
  intros H1' HX HY k E. destruct options_facts as (_ & HS & HM & _). pose proof W_pos.
  apply map_eq. intros x. rewrite used_map_app_lookup by done.
  destruct (decide (x = end_of c bs1 + S_)) as [->|Hne].
  - rewrite lookup_insert_eq, E, lookup_insert_eq.
    by replace (end_of c bs1 + S_ <? end_of c bs1) with false by lia.
  - rewrite lookup_insert_ne, used_map_app_lookup, E, lookup_insert_ne by done. done.
Qed.

Lemma heap_ok_trim h U q k n :
  heap_ok h U -> U !! q = Some k -> 0 <= n <= k ->
  (exists h' k', mem_trim h q n = Ret (Some q, h') /\ n <= k' <= k /\ heap_ok h' (<[q := k']> U)
     /\ (forall i, allocated (<[q := k']> U) i -> byte (ram h') i = byte (ram h) i))
  \/ (q + k = MSA /\ request n + S_ + MIN <= k /\ mem_trim h q n = Trap "invalid next ptr").
Proof.
  intros (bs & HR & ->) Hq Hn. pose proof (rep_blks _ _ HR) as Hb.
  destruct (used_map_split _ _ _ _ Hb Hq) as (bs1 & l & bs2 & -> & -> & ->).
  destruct (mem_trim_start _ _ _ _ _ _ HR eq_refl Hn) as (R1 & R2 & _ & Hl).
  apply Forall_app in Hb as [Hb1 Hb2]. apply Forall_cons in Hb2 as [Hb Hb2].
  destruct (decide (bs2 = [] /\ request n + S_ + MIN <= l - S_)) as [[-> Hfit]|Hno].
  - right. pose proof (rep_end _ _ HR) as He. rewrite end_of_app in He. cbn in He.
    split_and!; [lia|done|]. by eapply mem_trim_last.
  - left. destruct (mem_trim_at h bs1 l bs2 _ n HR eq_refl Hn) as (h' & Et & HR' & Hby).
    { intros ->. destruct (decide (request n + S_ + MIN <= l - S_)); [|lia]. by destruct Hno. }
    destruct (trim_abs_map (end_of 0 bs1) l bs2 (request n) Hb Hb2 R1) as (k' & Hk & Em).
    destruct options_facts as (_ & HS & _). pose proof W_pos.
    exists h', k'. destruct (request_spec n) as (_ & Hrn & _); [lia|].
    pose proof (rep_blks _ _ HR') as Hb'. rewrite trim_abs_at in HR', Hby, Hb' by done.
    apply Forall_app in Hb' as [_ Hb'].
    assert (HU : used_map 0 (bs1 ++ trim_abs (end_of 0 bs1) (Blk l true :: bs2) (end_of 0 bs1) (request n))
                 = <[end_of 0 bs1 + S_ := k']> (used_map 0 (bs1 ++ Blk l true :: bs2))).
    { apply used_map_app_eq; [done|by constructor|done|done]. }
    split_and!; [done|lia|lia| |].
    + eexists. split; [exact HR'|]. by rewrite HU.
    + intros i Hi. apply Hby, in_data_allocated; [|by rewrite HU]. by apply Forall_app.
Qed.

Lemma heap_ok_write h U i v :
  heap_ok h U -> allocated U i -> heap_ok (with_ram h (<[i := v]> (ram h))) U.
Proof.
  intros (bs & HR & ->) (q & k & Hq & Hi). pose proof (rep_blks _ _ HR) as Hb.
  destruct options_facts as (_ & HS & HM & _). pose proof W_pos.
  exists bs. split; [|done]. destruct (used_map_split _ _ _ _ Hb Hq) as (bs1 & l & bs2 & -> & -> & ->).
  pose proof (rep_at _ _ _ _ HR) as [Hb1 [Hbl _] Hb2 Hr Ha Hp He Hs1 En Ep Eu Es2].
  set (c := end_of 0 bs1) in *. cbn [len used] in *.
  assert (Hby : forall j, j <> i -> byte (<[i := v]> (ram h)) j = byte (ram h) j).
  { intros j Hj. rewrite byte_insert, decide_False by done. done. }
  pose proof HR as [[Hre _ _ Hue _ Hlf Hst] Hnh]. split; [|done].
  assert (Hh : hdr (<[i := v]> (ram h)) c = hdr (ram h) c) by (apply hdr_ext; intros; apply Hby; lia).
  assert (HhE : hdr (<[i := v]> (ram h)) MSA = hdr (ram h) MSA) by (apply hdr_ext; intros; apply Hby; lia).
  constructor; cbn [ram ram_end lfree stat_used with_ram]; try done.
  - apply seg_app. split.
    + eapply seg_frame; [done| |exact Hs1]. intros j Hj. fold c in Hj. apply Hby. lia.
    + fold c. cbn [seg len used]. injection Hh as -> -> ->. split_and!; try done.
      eapply seg_frame; [done| |exact Es2]. intros j Hj. apply Hby. lia.
  - by rewrite (rep_end _ _ HR).
  - injection HhE as _ _ ->. done.
Qed.

Lemma heap_ok_empty h :
  heap_ok h ∅ -> heap_rep h [Blk MSA false].
Proof.
  intros (bs & HR & HU). pose proof (rep_end _ _ HR) as He. pose proof (rep_no_holes _ _ HR) as Hn.
  destruct options_facts as (_ & HS & HM & Hroom & _). pose proof W_pos.
  destruct bs as [|[l u] bs]; [cbn in He; lia|].
  destruct u; [by apply symmetry in HU; cbn in HU; apply insert_non_empty in HU|].
  destruct bs as [|[l2 u2] bs].
  - cbn in He. by replace MSA with l by lia.
  - destruct Hn as [Hn _]. cbn in Hn. subst u2. cbn in HU. by apply symmetry, insert_non_empty in HU.
Qed.

Lemma byte_memset n (m : bytes) o v i :
  byte (memset n m o v) i = if decide (o <= i < o + Z.of_nat n) then v else byte m i.
Proof.
  revert m o. induction n as [|n IH]; intros m o; cbn [memset].
  - by rewrite decide_False by lia.
  - rewrite IH, byte_insert. repeat case_decide; done || lia.
Qed.

Lemma heap_ok_memset h U q k n v :
  heap_ok h U -> U !! q = Some k -> 0 <= n <= k ->
  heap_ok (with_ram h (memset (Z.to_nat n) (ram h) q v)) U.
Proof.
  intros Hok Hq Hn. assert (Hgen : forall j h o, heap_ok h U -> q <= o -> o + Z.of_nat j <= q + k ->
    heap_ok (with_ram h (memset j (ram h) o v)) U).
  { induction j as [|j IH]; intros h1 o Hok1 Ho1 Ho2; cbn [memset].
    - by destruct h1.
    - specialize (IH (with_ram h1 (<[o := v]> (ram h1))) (o + 1)). apply IH; [|lia..].
      apply heap_ok_write; [done|]. exists q, k. split; [done|lia]. }
  apply Hgen; [done|lia..].
Qed.
End Proofs.

(** ** Clients of the heap

    A client owns the pointers it got: [L] maps them to the sizes it asked for.
    It may allocate, give back and shrink what it owns, and write to the bytes
    it owns. *)
Section Client.
Context `{MemOptions}.

Inductive client_step : heap * gmap Z Z -> heap * gmap Z Z -> Prop :=
| client_malloc h L n r h' :
    0 <= n < 256 ^ sizeof_mem_size_t -> mem_malloc h n = Ret (r, h') ->
    client_step (h, L) (h', match r with Some q => <[q := n]> L | None => L end)
| client_free h L q n h' :
    L !! q = Some n -> mem_free h (Some q) = Ret h' -> client_step (h, L) (h', delete q L)
| client_trim h L q n n' r h' :
    L !! q = Some n -> 0 <= n' <= n -> mem_trim h q n' = Ret (r, h') ->
    client_step (h, L) (h', <[q := n']> L)
| client_write h L q n i v :
    L !! q = Some n -> q <= i < q + n ->
    client_step (h, L) (with_ram h (<[i := v]> (ram h)), L).

(** What the client owns is what the allocation map gives it, or less. *)
Definition owns (L U : gmap Z Z) : Prop :=
  forall q, match L !! q, U !! q with
            | Some n, Some k => 0 <= n <= k
            | None, None => True
            | _, _ => False
            end.

Definition client_inv (s : heap * gmap Z Z) : Prop := exists U, heap_ok s.1 U /\ owns s.2 U.
End Client.

Section ClientProofs.
Context `{MemOptionsOk}.

Lemma owns_lookup L U q n : owns L U -> L !! q = Some n -> exists k, U !! q = Some k /\ 0 <= n <= k.
Proof. intros Ho Hq. specialize (Ho q). rewrite Hq in Ho. destruct (U !! q); [eauto|done]. Qed.

Lemma owns_insert L U q n k : owns L U -> 0 <= n <= k -> owns (<[q := n]> L) (<[q := k]> U).
Proof.
  intros Ho Hn x. destruct (decide (x = q)) as [->|Hne].
  - by rewrite !lookup_insert_eq.
  - rewrite !lookup_insert_ne by done. apply Ho.
Qed.

Lemma owns_delete L U q : owns L U -> owns (delete q L) (delete q U).
Proof.
  intros Ho x. destruct (decide (x = q)) as [->|Hne].
  - by rewrite !lookup_delete_eq.
  - rewrite !lookup_delete_ne by done. apply Ho.
Qed.

Lemma client_step_inv s s' : client_step s s' -> client_inv s -> client_inv s'.
Proof.
  intros Hs (U & Hok & Ho). unfold client_inv. destruct Hs as [h L n r h' Hn E|h L q n h' Hq E|h L q n n' r h' Hq Hn E|h L q n i v Hq Hi];
    cbn [fst snd] in *.
  - destruct (heap_ok_malloc h U n Hok Hn) as (r' & h'' & E' & Hr). rewrite E in E'. injection E' as <- <-.
    destruct r as [q|].
    + destruct Hr as (k & Hk & _ & Hok' & _). exists (<[q := k]> U). split; [done|].
      apply owns_insert; [done|lia].
    + exists U. by destruct Hr.
  - destruct (owns_lookup _ _ _ _ Ho Hq) as (k & Hk & _).
    destruct (heap_ok_free _ _ _ _ Hok Hk) as (h'' & E' & Hok' & _). rewrite E in E'. injection E' as <-.
    exists (delete q U). split; [done|]. by apply owns_delete.
  - destruct (owns_lookup _ _ _ _ Ho Hq) as (k & Hk & Hnk).
    destruct (heap_ok_trim _ _ _ _ n' Hok Hk) as [(h'' & k' & E' & Hk' & Hok' & _)|(_ & _ & E')];
      [lia| |congruence]. rewrite E in E'. injection E' as _ <-.
    exists (<[q := k']> U). split; [done|]. apply owns_insert; [done|lia].
  - destruct (owns_lookup _ _ _ _ Ho Hq) as (k & Hk & Hnk). exists U. split; [|done].
    apply heap_ok_write; [done|]. exists q, k. split; [done|lia].
Qed.

Lemma client_reach_inv s s' : rtc client_step s s' -> client_inv s -> client_inv s'.
Proof. induction 1; eauto using client_step_inv. Qed.

Lemma client_init_inv h0 h : stat_used h0 = 0 -> mem_init h0 = Ret h -> client_inv (h, ∅).
Proof.
  intros Hst E. destruct (mem_init_rep h0 Hst) as (h' & E' & HR). rewrite E in E'. injection E' as <-.
  exists ∅. split; [by exists [Blk MEM_SIZE_ALIGNED false]|]. intros q. by rewrite lookup_empty.
Qed.

(** ** Properties *)

(** C29: mem_malloc implements first fit: on a well-formed heap it reaches no
    assertion and terminates; it returns the first free block with room for the
    request, split when the rest can hold another block, and the heap is again
    well formed (doubly linked, no two free neighbours, lfree lowest free);
    it returns NULL only for a request of 0 bytes, or above the heap size, or
    when every free block is too small. *)
Theorem mem_malloc_first_fit h bs n :
  heap_rep h bs -> 0 <= n < 256 ^ sizeof_mem_size_t ->
  exists r h', mem_malloc h n = Ret (r, h') /\
    match r with
    | Some q => exists bs', malloc_abs 0 bs (request n) = Some (q, bs') /\ heap_rep h' bs'
    | None => heap_rep h' bs
              /\ (n = 0 \/ MEM_SIZE_ALIGNED < n
                  \/ Forall (λ b, used b = false -> len b < SIZEOF_STRUCT_MEM + request n) bs)
    end.
Proof.
  intros HR Hn. pose proof (mem_malloc_abs h bs n HR Hn) as Hm.
  destruct ((n =? 0) || (MEM_SIZE_ALIGNED <? n)) eqn:E.
  { exists None, h. split_and!; [done|done|]. apply orb_true_iff in E. lia. }
  pose proof (malloc_abs_split 0 bs (request n)) as Hsp.
  destruct (malloc_abs 0 bs (request n)) as [[q bs']|].
  - destruct Hm as (h' & -> & HR' & _). exists (Some q), h'. split; [done|]. by exists bs'.
  - exists None, (MEM_STATS_INC_ERR h). split_and!; [done| |auto]. destruct HR as [[] ?]. by split.
Qed.

(** what mem_malloc returns is new memory: a region of at least the requested
    size, aligned and inside the heap, apart from every region handed out before;
    no byte of those regions changes. *)
Theorem mem_malloc_fresh h U n :
  heap_ok h U -> 0 <= n < 256 ^ sizeof_mem_size_t ->
  exists r h', mem_malloc h n = Ret (r, h') /\
    match r with
    | Some q =>
        exists k, n <= k /\ heap_ok h' (<[q := k]> U) /\ (MEM_ALIGNMENT | q)
          /\ SIZEOF_STRUCT_MEM <= q /\ q + k <= MEM_SIZE_ALIGNED
          /\ (forall q' k', U !! q' = Some k' -> q' + k' <= q \/ q + k <= q')
          /\ (forall i, allocated U i -> byte (ram h') i = byte (ram h) i)
    | None => heap_ok h' U /\ ram h' = ram h
    end.
Proof.
  intros Hok Hn. destruct (heap_ok_malloc h U n Hok Hn) as (r & h' & E & Hr). exists r, h'.
  split; [done|]. destruct r as [q|]; [|done]. destruct Hr as (k & Hk & Hf & Hok' & Hby).
  exists k. assert (Hq : <[q := k]> U !! q = Some k) by apply lookup_insert_eq.
  destruct (heap_ok_range _ _ _ _ Hok' Hq) as (R1 & R2 & R3 & R4). split_and!; try done.
  intros q' k' Hq'. assert (Hne : q <> q') by congruence.
  assert (Hq2 : <[q := k]> U !! q' = Some k') by (by rewrite lookup_insert_ne).
  destruct options_facts as (_ & HS & _). pose proof W_pos.
  destruct (decide (q < q')).
  - pose proof (heap_ok_disjoint _ _ _ _ _ _ Hok' Hq Hq2). lia.
  - pose proof (heap_ok_disjoint _ _ _ _ _ _ Hok' Hq2 Hq). lia.
Qed.

(** C31: mem_free of an allocated pointer reaches no assertion, gives the block
    back and merges it with its free neighbours; every other region keeps its
    contents, and the heap is again well formed. *)
Theorem mem_free_correct h bs q k :
  heap_rep h bs -> used_map 0 bs !! q = Some k ->
  exists h', mem_free h (Some q) = Ret h'
    /\ heap_rep h' (free_abs bs (q - SIZEOF_STRUCT_MEM))
    /\ used_map 0 (free_abs bs (q - SIZEOF_STRUCT_MEM)) = delete q (used_map 0 bs)
    /\ (forall i, allocated (delete q (used_map 0 bs)) i -> byte (ram h') i = byte (ram h) i).
Proof.
  apply free_abs_map.
Qed.

(** a second mem_free of the same pointer, or of any pointer to a block that
    is not in use, is detected: the call stops at the double free check. *)
Theorem mem_free_double_detected h bs1 l bs2 :
  heap_rep h (bs1 ++ Blk l false :: bs2) ->
  mem_free h (Some (end_of 0 bs1 + SIZEOF_STRUCT_MEM))
  = Trap "mem_free: illegal memory: double free".
Proof. intros HR. exact (mem_free_double h bs1 l bs2 _ (rep_shape _ _ HR) eq_refl). Qed.

(** mem_trim of an allocated pointer to at most its size returns the pointer,
    keeps the contents of what is left and of every other region, and leaves a
    well formed heap in which at least the requested bytes stay allocated; the
    one exception is the last block of the heap, see mem_trim_last_block. *)
Theorem mem_trim_correct h U q k n :
  heap_ok h U -> U !! q = Some k -> 0 <= n <= k ->
  q + k < MEM_SIZE_ALIGNED \/ k < request n + SIZEOF_STRUCT_MEM + MIN_SIZE_ALIGNED ->
  exists h' k', mem_trim h q n = Ret (Some q, h') /\ n <= k' <= k /\ heap_ok h' (<[q := k']> U)
    /\ (forall i, allocated (<[q := k']> U) i -> byte (ram h') i = byte (ram h) i).
Proof.
  intros Hok Hq Hn Hlast. destruct (heap_ok_trim _ _ _ _ _ Hok Hq Hn) as [Ht|(E1 & E2 & _)]; [done|lia].
Qed.

(** when the block at the very end of the heap is shrunk enough for the rest
    to hold a block, mem_trim aborts at the assertion "invalid next ptr", although
    the code behind it handles mem2->next == MEM_SIZE_ALIGNED. *)
Theorem mem_trim_last_block h bs1 l n :
  heap_rep h (bs1 ++ [Blk l true]) -> 0 <= n <= l - SIZEOF_STRUCT_MEM ->
  request n + SIZEOF_STRUCT_MEM + MIN_SIZE_ALIGNED <= l - SIZEOF_STRUCT_MEM ->
  mem_trim h (end_of 0 bs1 + SIZEOF_STRUCT_MEM) n = Trap "invalid next ptr".
Proof. intros HR Hn Hf. by apply (mem_trim_last h bs1 l). Qed.

(** mem_calloc returns NULL when the product does not fit mem_size_t, and
    otherwise a new region whose count * size bytes are all zero. *)
Theorem mem_calloc_correct h U count size :
  heap_ok h U -> 0 <= count < 256 ^ sizeof_mem_size_t -> 0 <= size < 256 ^ sizeof_mem_size_t ->
  exists r h', mem_calloc h count size = Ret (r, h') /\
    match r with
    | Some q => count * size < 256 ^ sizeof_mem_size_t
        /\ (exists k, count * size <= k /\ U !! q = None /\ heap_ok h' (<[q := k]> U))
        /\ (forall i, q <= i < q + count * size -> byte (ram h') i = 0)
        /\ (forall i, allocated U i -> byte (ram h') i = byte (ram h) i)
    | None => heap_ok h' U /\ ram h' = ram h
    end.
Proof.
  intros Hok Hc Hs. destruct options_facts as (_ & HS & _ & _ & _ & H32 & _). pose proof W_pos.
  unfold mem_calloc. rewrite size_t_small by nia.
  destruct (mem_size_t (count * size) =? count * size) eqn:E; cbn [negb]; bool_to_prop.
  2:{ exists None, h. done. }
  assert (Hf : 0 <= count * size < 256 ^ sizeof_mem_size_t).
  { rewrite <- E. unfold mem_size_t. apply Z.mod_pos_bound. lia. }
  rewrite E. destruct (heap_ok_malloc h U (count * size) Hok Hf) as (r & h' & -> & Hr).
  cbn [mbind outcome_bind]. destruct r as [q|]; [|exists None, h'; done].
  destruct Hr as (k & Hk & Hfr & Hok' & Hby). eexists (Some q), _. split; [done|].
  assert (Hq : <[q := k]> U !! q = Some k) by apply lookup_insert_eq.
  cbn [ram with_ram]. split_and!; [lia| | |].
  - exists k. split_and!; [done|done|]. eapply heap_ok_memset; [done|done|lia].
  - intros i Hi. rewrite byte_memset, decide_True by lia. done.
  - intros i (q' & k' & Hq' & Hi). rewrite byte_memset, decide_False; [apply Hby; by exists q', k'|].
    assert (Hq2 : <[q := k]> U !! q' = Some k') by (rewrite lookup_insert_ne by congruence; done).
    destruct (Z.lt_trichotomy q q') as [Hl|[->|Hl]]; [|congruence|].
    + pose proof (heap_ok_disjoint _ _ _ _ _ _ Hok' Hq Hq2 Hl). lia.
    + pose proof (heap_ok_disjoint _ _ _ _ _ _ Hok' Hq2 Hq Hl). lia.
Qed.

(** C30: in every state that client operations (allocations, frees and trims of
    owned pointers, writes to owned bytes, in any order) reach from mem_init, the
    regions the client owns are aligned, inside the heap and pairwise apart, a
    free of any of them goes through, and once everything is freed the heap is
    one free block again. *)
Theorem mem_client_safe h0 h1 h L :
  stat_used h0 = 0 -> mem_init h0 = Ret h1 -> rtc client_step (h1, ∅) (h, L) ->
  (forall q n, L !! q = Some n ->
     SIZEOF_STRUCT_MEM <= q /\ q + n <= MEM_SIZE_ALIGNED /\ (MEM_ALIGNMENT | q)
     /\ (exists h', mem_free h (Some q) = Ret h'))
  /\ (forall q1 n1 q2 n2, L !! q1 = Some n1 -> L !! q2 = Some n2 -> q1 <> q2 ->
       q1 + n1 <= q2 \/ q2 + n2 <= q1)
  /\ (L = ∅ -> heap_rep h [Blk MEM_SIZE_ALIGNED false]).
Proof.
  intros Hst Hi Hr. destruct (client_reach_inv _ _ Hr (client_init_inv _ _ Hst Hi)) as (U & Hok & Ho).
  cbn [fst snd] in *. destruct options_facts as (_ & HS & _). pose proof W_pos. split_and!.
  - intros q n Hq. destruct (owns_lookup _ _ _ _ Ho Hq) as (k & Hk & Hn).
    destruct (heap_ok_range _ _ _ _ Hok Hk) as (R1 & R2 & R3 & R4).
    destruct (heap_ok_free _ _ _ _ Hok Hk) as (h' & E & _). split_and!; [lia|lia|done|eauto].
  - intros q1 n1 q2 n2 Hq1 Hq2 Hne. destruct (owns_lookup _ _ _ _ Ho Hq1) as (k1 & Hk1 & Hn1).
    destruct (owns_lookup _ _ _ _ Ho Hq2) as (k2 & Hk2 & Hn2).
    destruct (decide (q1 < q2)) as [Hl|Hl].
    + pose proof (heap_ok_disjoint _ _ _ _ _ _ Hok Hk1 Hk2 Hl). lia.
    + pose proof (heap_ok_disjoint _ _ _ _ _ _ Hok Hk2 Hk1). lia.
  - intros ->. apply heap_ok_empty. replace ∅ with U; [done|]. apply map_eq. intros q.
    specialize (Ho q). rewrite lookup_empty in *. by destruct (U !! q).
Qed.
End ClientProofs.

(** ** Witnesses

    The heap with the default options: after mem_init, and with one, two and all
    of its blocks in use. *)
Definition heap_bss : heap := Heap ∅ 0 0 0 0 0.
Definition run {A} (d : A) (m : outcome A) : A := match m with Ret a => a | Trap _ => d end.
Definition heap0 : heap := Eval vm_compute in run heap_bss (mem_init heap_bss).
Definition heap1 : heap := Eval vm_compute in snd (run (None, heap0) (mem_malloc heap0 100)).
Definition heap_full : heap := Eval vm_compute in snd (run (None, heap0) (mem_malloc heap0 1590)).

Lemma heap0_rep : heap_rep heap0 [Blk 1600 false].
Proof.
  destruct (mem_init_rep heap_bss eq_refl) as (h & E & HR).
  assert (E' : mem_init heap_bss = Ret heap0) by (vm_compute; reflexivity).
  rewrite E' in E. injection E as <-. exact HR.
Qed.

Lemma heap1_rep : heap_rep heap1 [Blk 106 true; Blk 1494 false].
Proof.
  pose proof (mem_malloc_abs heap0 _ 100 heap0_rep ltac:(vm_compute; intuition congruence)) as Hm.
  vm_compute in Hm. destruct Hm as (h & E & HR & _). injection E as <-. exact HR.
Qed.

Lemma heap_full_rep : heap_rep heap_full [Blk 1600 true].
Proof.
  pose proof (mem_malloc_abs heap0 _ 1590 heap0_rep ltac:(vm_compute; intuition congruence)) as Hm.
  vm_compute in Hm. destruct Hm as (h & E & HR & _). injection E as <-. exact HR.
Qed.

Lemma heap1_ok : heap_ok heap1 {[6 := 100]}.
Proof. exists [Blk 106 true; Blk 1494 false]. split; [exact heap1_rep|reflexivity]. Qed.

Lemma mem_malloc_first_fit_witness :
  exists r h', mem_malloc heap1 20 = Ret (r, h') /\
    match r with
    | Some q => exists bs', malloc_abs 0 [Blk 106 true; Blk 1494 false] (request 20) = Some (q, bs')
                  /\ heap_rep h' bs'
    | None => heap_rep h' [Blk 106 true; Blk 1494 false]
        /\ (20 = 0 \/ MEM_SIZE_ALIGNED < 20
            \/ Forall (λ b, used b = false -> len b < SIZEOF_STRUCT_MEM + request 20)
                 [Blk 106 true; Blk 1494 false])
    end.
Proof.
  apply (mem_malloc_first_fit heap1 [Blk 106 true; Blk 1494 false] 20 heap1_rep).
  vm_compute; intuition congruence.
Defined.

Lemma mem_malloc_fresh_witness :
  exists r h', mem_malloc heap1 20 = Ret (r, h') /\
    match r with
    | Some q =>
        exists k, 20 <= k /\ heap_ok h' (<[q := k]> {[6 := 100]}) /\ (MEM_ALIGNMENT | q)
          /\ SIZEOF_STRUCT_MEM <= q /\ q + k <= MEM_SIZE_ALIGNED
          /\ (forall q' k', ({[6 := 100]} : gmap Z Z) !! q' = Some k' -> q' + k' <= q \/ q + k <= q')
          /\ (forall i, allocated {[6 := 100]} i -> byte (ram h') i = byte (ram heap1) i)
    | None => heap_ok h' {[6 := 100]} /\ ram h' = ram heap1
    end.
Proof.
  apply (mem_malloc_fresh heap1 {[6 := 100]} 20 heap1_ok). vm_compute; intuition congruence.
Defined.

Lemma mem_free_correct_witness :
  exists h', mem_free heap1 (Some 6) = Ret h' /\ heap_rep h' [Blk 1600 false].
Proof.
  destruct (mem_free_correct heap1 [Blk 106 true; Blk 1494 false] 6 100 heap1_rep eq_refl)
    as (h' & E & HR & _). exists h'. split; [exact E|exact HR].
Defined.

Lemma mem_free_double_detected_witness :
  mem_free heap0 (Some 6) = Trap "mem_free: illegal memory: double free".
Proof. exact (mem_free_double_detected heap0 [] 1600 [] heap0_rep). Defined.

Lemma mem_trim_correct_witness :
  exists h' k', mem_trim heap1 6 40 = Ret (Some 6, h') /\ 40 <= k' <= 100
    /\ heap_ok h' (<[6 := k']> {[6 := 100]})
    /\ (forall i, allocated (<[6 := k']> {[6 := 100]}) i -> byte (ram h') i = byte (ram heap1) i).
Proof.
  apply (mem_trim_correct heap1 {[6 := 100]} 6 100 40 heap1_ok); [reflexivity|lia|].
  left. vm_compute. reflexivity.
Defined.

Lemma mem_trim_last_block_witness : mem_trim heap_full 6 100 = Trap "invalid next ptr".
Proof.
  apply (mem_trim_last_block heap_full [] 1600 100 heap_full_rep); vm_compute; intuition congruence.
Defined.

Lemma mem_calloc_correct_witness :
  exists r h', mem_calloc heap1 5 8 = Ret (r, h') /\
    match r with
    | Some q => 5 * 8 < 256 ^ sizeof_mem_size_t
        /\ (exists k, 5 * 8 <= k /\ ({[6 := 100]} : gmap Z Z) !! q = None /\ heap_ok h' (<[q := k]> {[6 := 100]}))
        /\ (forall i, q <= i < q + 5 * 8 -> byte (ram h') i = 0)
        /\ (forall i, allocated {[6 := 100]} i -> byte (ram h') i = byte (ram heap1) i)
    | None => heap_ok h' {[6 := 100]} /\ ram h' = ram heap1
    end.
Proof.
  apply (mem_calloc_correct heap1 {[6 := 100]} 5 8 heap1_ok); vm_compute; intuition congruence.
Defined.

Lemma mem_client_safe_witness :
  (exists h', mem_free heap1 (Some 6) = Ret h')
  /\ rtc client_step (heap0, ∅) (heap1, {[6 := 100]}).
Proof.
  assert (Hr : rtc client_step (heap0, ∅) (heap1, {[6 := 100]})).
  { apply rtc_once. apply (client_malloc heap0 ∅ 100 (Some 6) heap1).
    - vm_compute; intuition congruence.
    - vm_compute. reflexivity. }
  split; [|exact Hr].
  assert (Hi : mem_init heap_bss = Ret heap0) by (vm_compute; reflexivity).
  assert (Hs : stat_used heap_bss = 0) by reflexivity.
  pose proof (mem_client_safe heap_bss heap0 heap1 {[6 := 100]} Hs Hi Hr) as [Hq _].
  destruct (Hq 6 100 (lookup_singleton_eq 6 100)) as (_ & _ & _ & Hf). exact Hf.
Defined.
