(* ===== verification/Memp.v ===== *)
(** * Memory pools (src/lwip/src/core/memp.c)

    Every pool is an array of equal elements whose free ones form a linked list
    threaded through their first bytes.  Addresses are numbers, NULL is 0; the
    memory of all pools is one byte map.  The pools themselves
    (include/lwip/priv/memp_std.h, sizes of C structures) are a list of
    descriptors, an argument of the operations.  MEMP_MEM_MALLOC and
    MEMP_OVERFLOW_CHECK are 0, so MEMP_SIZE is 0. *)

From S2P Require Import Prelude Mem.

#[local] Open Scope Z_scope.
#[local] Coercion Z.of_nat : nat >-> Z.

Abbreviation bytes := (gmap Z Z).

(** ** Data *)

(** struct memp_desc: the constant part of a pool. *)
Record memp_desc := MempDesc { d_size : Z; d_num : nat; d_base : Z }.

(** struct stats_mem (the counters are 16 bit). *)
Record stats_mem := StatsMem { st_err : Z; st_avail : Z; st_used : Z; st_max : Z }.

(** The variables of a pool: its free list head and its statistics. *)
Record pool := Pool { tab : Z; stats : stats_mem }.

Record memp_state := MempState { mp_mem : bytes; mp_pools : list pool }.

Definition MEMP_SIZE : Z := 0.

(** struct memp: the link at the start of a free element. *)
Definition memp_next (m : bytes) (memp : Z) : Z := load 8 m memp.
Definition set_memp_next (m : bytes) (memp v : Z) : bytes := store 8 m memp v.

(** ** The promise of one pool to its clients

    What timeouts.c and igmp.c rely on: a fixed number of elements, none of them
    handed out twice. *)
Class ElementPool (St : Type) := {
  pool_cap : nat;
  pool_holds : St -> list Z -> Prop;
  pool_malloc : St -> outcome (option Z * St);
  pool_free : St -> Z -> outcome St;
  pool_holds_perm st xs ys : xs ≡ₚ ys -> pool_holds st xs -> pool_holds st ys;
  pool_holds_NoDup st xs : pool_holds st xs -> NoDup xs;
  pool_holds_cap st xs : pool_holds st xs -> (length xs <= pool_cap)%nat;
  pool_holds_pos st xs : pool_holds st xs -> Forall (λ e, 0 < e) xs;
  pool_malloc_law st xs :
    pool_holds st xs ->
    if decide (length xs < pool_cap)%nat then
      exists e st', pool_malloc st = Ret (Some e, st') /\ pool_holds st' (e :: xs)
    else exists st', pool_malloc st = Ret (None, st') /\ pool_holds st' xs;
  pool_free_law st e xs :
    pool_holds st (e :: xs) -> exists st', pool_free st e = Ret st' /\ pool_holds st' xs
}.

Section Operations.
Context `{MemOptions}.

Definition LWIP_MEM_ALIGN (addr : Z) : Z :=
  Z.land (size_t (addr + MEM_ALIGNMENT - 1)) (size_t (Z.lnot (MEM_ALIGNMENT - 1))).

(** ** Operations *)

(** The loop that links the elements. *)
Fixpoint init_loop (n : nat) (desc : memp_desc) (m : bytes) (tab memp : Z) : bytes * Z :=
  match n with
  | O => (m, tab)
  | S n =>
      let m := set_memp_next m memp tab in
      let tab := memp in
      init_loop n desc m tab (memp + MEMP_SIZE + d_size desc)
  end.

Definition memp_init_pool (desc : memp_desc) (m : bytes) (p : pool) : bytes * pool :=
  let '(m, tab) := init_loop (d_num desc) desc m 0 (LWIP_MEM_ALIGN (d_base desc)) in
  (m, Pool tab (StatsMem (st_err (stats p)) (d_num desc) (st_used (stats p)) (st_max (stats p)))).

Definition do_memp_malloc_pool (m : bytes) (p : pool) : outcome (option Z * pool) :=
  let memp := tab p in
  let s := stats p in
  if negb (memp =? 0) then
    let tab := memp_next m memp in
    LWIP_ASSERT "memp_malloc: memp properly aligned" (Z.modulo memp MEM_ALIGNMENT =? 0);;
    let used := u16 (st_used s + 1) in
    let max := if st_max s <? used then used else st_max s in
    Ret (Some (memp + MEMP_SIZE), Pool tab (StatsMem (st_err s) (st_avail s) used max))
  else
    Ret (None, Pool (tab p) (StatsMem (u16 (st_err s + 1)) (st_avail s) (st_used s) (st_max s))).

Definition do_memp_free_pool (m : bytes) (p : pool) (mem : Z) : outcome (bytes * pool) :=
  LWIP_ASSERT "memp_free: mem properly aligned" (Z.modulo mem MEM_ALIGNMENT =? 0);;
  let memp := mem - MEMP_SIZE in
  let s := stats p in
  let s := StatsMem (st_err s) (st_avail s) (u16 (st_used s - 1)) (st_max s) in
  let m := set_memp_next m memp (tab p) in
  Ret (m, Pool memp s).

(** memp_init: every pool in turn. *)
Fixpoint memp_init_loop (descs : list memp_desc) (m : bytes) (ps : list pool) : bytes * list pool :=
  match descs, ps with
  | desc :: descs, p :: ps =>
      let '(m, p) := memp_init_pool desc m p in
      let '(m, ps) := memp_init_loop descs m ps in
      (m, p :: ps)
  | _, _ => (m, ps)
  end.

Definition memp_init (descs : list memp_desc) (st : memp_state) : memp_state :=
  let '(m, ps) := memp_init_loop descs (mp_mem st) (mp_pools st) in MempState m ps.

(** memp_malloc; LWIP_ERROR is an assertion in this build. *)
Definition memp_malloc (st : memp_state) (type : nat) : outcome (option Z * memp_state) :=
  match mp_pools st !! type with
  | None => Trap "memp_malloc: type < MEMP_MAX"
  | Some p =>
      '(memp, p) ← do_memp_malloc_pool (mp_mem st) p;
      Ret (memp, MempState (mp_mem st) (<[type := p]> (mp_pools st)))
  end.

(** memp_free; [None] is the NULL pointer. *)
Definition memp_free (st : memp_state) (type : nat) (mem : option Z) : outcome memp_state :=
  match mp_pools st !! type with
  | None => Trap "memp_free: type < MEMP_MAX"
  | Some p =>
      match mem with
      | None => Ret st
      | Some mem =>
          '(m, p) ← do_memp_free_pool (mp_mem st) p mem;
          Ret (MempState m (<[type := p]> (mp_pools st)))
      end
  end.

(** memp_malloc_pool and memp_free_pool on a pool of the caller ([None]: a NULL
    descriptor). *)
Definition memp_malloc_pool (m : bytes) (p : option pool) : outcome (option Z * option pool) :=
  match p with
  | None => Trap "invalid pool desc"
  | Some p => '(r, p) ← do_memp_malloc_pool m p; Ret (r, Some p)
  end.

Definition memp_free_pool (m : bytes) (p : option pool) (mem : option Z) : outcome (bytes * option pool) :=
  match p, mem with
  | None, _ => Trap "invalid pool desc"
  | Some p, None => Ret (m, Some p)
  | Some p, Some mem => '(m, p) ← do_memp_free_pool m p mem; Ret (m, Some p)
  end.

(** memp_sanity (used with MEMP_SANITY_CHECK): Floyd's cycle check on the free
    list.  The first pointer moves one element per step, so the number of
    elements bounds the steps; [None] is running out of fuel. *)
Fixpoint sanity_loop (fuel : nat) (m : bytes) (t h : Z) : option bool :=
  match fuel with
  | O => None
  | S fuel =>
      if negb (t =? 0) && negb (h =? 0) then
        if t =? h then Some false
        else sanity_loop fuel m (memp_next m t)
               (if negb (memp_next m h =? 0) then memp_next m (memp_next m h) else 0)
      else Some true
  end.

Definition memp_sanity (desc : memp_desc) (m : bytes) (p : pool) : option bool :=
  let t := tab p in
  if negb (t =? 0) then sanity_loop (S (d_num desc)) m t (memp_next m t) else Some true.

(** ** Specification *)

(** The addresses of the elements of a pool. *)
Definition elems (desc : memp_desc) : list Z :=
  (λ i : nat, LWIP_MEM_ALIGN (d_base desc) + i * d_size desc) <$> seq 0 (d_num desc).

(** The free list: element addresses linked from [a] to NULL. *)
Fixpoint free_list (m : bytes) (a : Z) (fl : list Z) : Prop :=
  match fl with
  | [] => a = 0
  | e :: fl => a = e /\ e <> 0 /\ free_list m (memp_next m e) fl
  end.

(** A pool with the elements [xs] handed out: free and handed out elements
    together are the elements of the pool, each once. *)
Definition pool_rep (desc : memp_desc) (m : bytes) (p : pool) (xs : list Z) : Prop :=
  exists fl, free_list m (tab p) fl /\ fl ++ xs ≡ₚ elems desc /\ st_used (stats p) = length xs.

(** What a pool declaration provides: aligned elements that can hold a link. *)
Definition desc_ok (desc : memp_desc) : Prop :=
  8 <= d_size desc < 65536 /\ (MEM_ALIGNMENT | d_size desc) /\ (d_num desc < 65536)
  /\ 0 < d_base desc
  /\ d_base desc + MEM_ALIGNMENT + d_num desc * d_size desc <= 2 ^ 64.

(** The memory of a pool. *)
Definition in_pool (desc : memp_desc) (i : Z) : Prop :=
  LWIP_MEM_ALIGN (d_base desc) <= i < LWIP_MEM_ALIGN (d_base desc) + d_num desc * d_size desc.

(** The pools of the program: descriptors whose memories do not overlap. *)
Definition descs_ok (descs : list memp_desc) : Prop :=
  Forall desc_ok descs
  /\ forall t1 t2 d1 d2 i, descs !! t1 = Some d1 -> descs !! t2 = Some d2 -> t1 <> t2 ->
       in_pool d1 i -> ~ in_pool d2 i.

(** All pools, with the elements handed out from each. *)
Definition memp_rep (descs : list memp_desc) (st : memp_state) (XS : list (list Z)) : Prop :=
  length (mp_pools st) = length descs /\ length XS = length descs
  /\ forall t desc, descs !! t = Some desc ->
       exists p xs, mp_pools st !! t = Some p /\ XS !! t = Some xs
                    /\ pool_rep desc (mp_mem st) p xs.

End Operations.

#[local] Arguments memp_next : simpl never.
#[local] Arguments set_memp_next : simpl never.

Section Proofs.
Context `{MemOptionsOk}.

(** ** Lemmas: elements *)

Lemma align_addr_spec addr :
  0 <= addr -> addr + MEM_ALIGNMENT - 1 < 2 ^ 64 ->
  addr <= LWIP_MEM_ALIGN addr < addr + MEM_ALIGNMENT /\ (MEM_ALIGNMENT | LWIP_MEM_ALIGN addr).
Proof.
  intros Ha Hb. pose proof align_pos as Hp. unfold LWIP_MEM_ALIGN.
  rewrite (size_t_small (_ - 1)) by lia.
  assert (E : Z.land (addr + MEM_ALIGNMENT - 1) (size_t (Z.lnot (MEM_ALIGNMENT - 1)))
              = (addr + MEM_ALIGNMENT - 1) / MEM_ALIGNMENT * MEM_ALIGNMENT).
  { assert (Hx : 0 <= addr + MEM_ALIGNMENT - 1 < 2 ^ 64) by lia.
    generalize dependent (addr + MEM_ALIGNMENT - 1). intros x _ Hx.
    destruct align_pow2 as (k & Hk & Ek). rewrite Ek in *.
    replace (size_t (Z.lnot (2 ^ k - 1))) with (2 ^ 64 - 2 ^ k) by (unfold Z.lnot; wrap_solve).
    apply land_high; lia. }
  rewrite E. split; [|by apply Z.divide_factor_r]. Z.div_mod_to_equations. nia.
Qed.

Section Desc.
Context (desc : memp_desc) (Hd : desc_ok desc).
Abbreviation A0 := (LWIP_MEM_ALIGN (d_base desc)).

Lemma desc_base : 0 < A0 /\ (MEM_ALIGNMENT | A0) /\ A0 + d_num desc * d_size desc < 2 ^ 64.
Proof.
  destruct Hd as (Hs & Hsd & Hn & Hb & Hr). pose proof align_pos.
  destruct (align_addr_spec (d_base desc)) as [K1 K2]; [lia|nia|]. split_and!; [lia|done|lia].
Qed.

Lemma elem_of_elems e : e ∈ elems desc <-> exists i : nat, i < d_num desc /\ e = A0 + i * d_size desc.
Proof.
  unfold elems. rewrite list_elem_of_fmap. split.
  - intros (i & -> & Hi%elem_of_seq). exists i. split; [lia|done].
  - intros (i & Hi & ->). exists i. split; [done|]. apply elem_of_seq. lia.
Qed.

Lemma elems_facts e :
  e ∈ elems desc -> 0 < e < 2 ^ 64 /\ (MEM_ALIGNMENT | e)
  /\ (forall i, e <= i < e + d_size desc -> in_pool desc i).
Proof.
  rewrite elem_of_elems. intros (i & Hi & ->). destruct desc_base as (Hb & Hbd & Hr).
  destruct Hd as (Hs & Hsd & Hn & _). split_and!; [nia|nia| |].
  - apply Z.divide_add_r; [done|]. by apply Z.divide_mul_r.
  - intros j Hj. unfold in_pool. nia.
Qed.

Lemma elems_apart e e' :
  e ∈ elems desc -> e' ∈ elems desc -> e <> e' -> e + d_size desc <= e' \/ e' + d_size desc <= e.
Proof.
  rewrite !elem_of_elems. intros (i & _ & ->) (j & _ & ->) Hne.
  destruct Hd as (Hs & _). assert (i <> j) by (intros ->; done). destruct (decide (i < j)); nia.
Qed.

Lemma elems_NoDup : NoDup (elems desc).
Proof.
  unfold elems. apply NoDup_fmap_2_strong; [|apply NoDup_seq].
  intros i j _ _ E. destruct Hd as (Hs & _). nia.
Qed.

Lemma length_elems : length (elems desc) = d_num desc.
Proof. unfold elems. by rewrite length_fmap, length_seq. Qed.

(** ** Lemmas: the free list *)

Lemma memp_next_store m e v : 0 <= v < 2 ^ 64 -> memp_next (set_memp_next m e v) e = v.
Proof. intros. unfold memp_next, set_memp_next. by apply load_store. Qed.

Lemma free_list_frame m m' a fl :
  (forall e i, e ∈ fl -> e <= i < e + 8 -> byte m' i = byte m i) ->
  free_list m a fl -> free_list m' a fl.
Proof.
  revert a. induction fl as [|e fl IH]; intros a Hb; cbn; [done|].
  intros (-> & He & Hf). split_and!; [done|done|].
  assert (E : memp_next m' e = memp_next m e).
  { apply load_ext. intros i Hi. apply (Hb e); [by left|lia]. }
  rewrite E. apply IH; [|done]. intros e' i He' Hi. apply (Hb e'); [by right|done].
Qed.

Lemma free_list_push m a fl e :
  free_list m a fl -> e ∈ elems desc -> (forall x, x ∈ fl -> x ∈ elems desc) -> e ∉ fl ->
  0 <= a < 2 ^ 64 -> free_list (set_memp_next m e a) e (e :: fl).
Proof.
  intros Hf He Hfl Hne Ha. destruct (elems_facts e He) as (Hr & _). cbn.
  split_and!; [done|lia|]. rewrite memp_next_store by done.
  eapply free_list_frame; [|exact Hf]. intros x i Hx Hi. apply byte_store.
  destruct Hd as (Hs & _). destruct (elems_apart e x He (Hfl x Hx)); [by intros ->|lia..].
Qed.

Lemma free_list_head m a fl :
  free_list m a fl -> (forall x, x ∈ fl -> x ∈ elems desc) -> 0 <= a < 2 ^ 64.
Proof.
  destruct fl as [|e fl]; cbn; [lia|]. intros (-> & _) Hx.
  destruct (elems_facts e (Hx e ltac:(by left))) as (Hr & _). lia.
Qed.

Lemma pool_rep_mem m p xs :
  pool_rep desc m p xs -> (forall x, x ∈ xs -> x ∈ elems desc) /\ NoDup xs /\ (length xs <= d_num desc)%nat.
Proof.
  intros (fl & _ & HP & _). pose proof elems_NoDup as Hn. rewrite <- HP in Hn.
  apply NoDup_app in Hn as (_ & _ & Hn). split_and!; [|done|].
  - intros x Hx. rewrite <- HP. set_solver.
  - rewrite <- length_elems, <- HP, length_app. lia.
Qed.

(** A pool whose memory and head are unchanged. *)
Lemma pool_rep_frame m m' p xs :
  (forall i, in_pool desc i -> byte m' i = byte m i) -> pool_rep desc m p xs -> pool_rep desc m' p xs.
Proof.
  intros Hm (fl & Hf & HP & Hu). exists fl. split_and!; [|done|done].
  eapply free_list_frame; [|exact Hf]. intros e i He Hi. apply Hm.
  assert (Hel : e ∈ elems desc) by (rewrite <- HP; set_solver).
  destruct (elems_facts e Hel) as (_ & _ & Hin). apply Hin. destruct Hd as (Hs & _). lia.
Qed.

(** ** Lemmas: the operations on one pool *)

Lemma malloc_pool_spec m p xs :
  pool_rep desc m p xs ->
  if decide (length xs < d_num desc) then
    exists e p', do_memp_malloc_pool m p = Ret (Some e, p') /\ pool_rep desc m p' (e :: xs)
      /\ e ∈ elems desc /\ e ∉ xs /\ (MEM_ALIGNMENT | e)
  else exists p', do_memp_malloc_pool m p = Ret (None, p') /\ pool_rep desc m p' xs.
Proof.
  intros HR. destruct (pool_rep_mem m p xs HR) as (_ & _ & Hlen). destruct HR as (fl & Hf & HP & Hu).
  assert (Hl : (length fl + length xs = d_num desc)%nat) by (by rewrite <- length_elems, <- HP, length_app).
  unfold do_memp_malloc_pool. destruct fl as [|e fl]; cbn in Hf, Hl.
  - rewrite Hf. cbn [Z.eqb negb]. rewrite decide_False by lia.
    eexists. split; [done|]. exists []. done.
  - destruct Hf as (E & He & Hf). rewrite E. rewrite decide_True by lia.
    replace (e =? 0) with false by lia. cbn [negb].
    assert (Hel : e ∈ elems desc) by (rewrite <- HP; set_solver).
    destruct (elems_facts e Hel) as (_ & Hal & _).
    rewrite LWIP_ASSERT_ok by (pose proof align_pos; apply Z.eqb_eq, Z.mod_divide; [lia|done]).
    cbn [mbind outcome_bind]. unfold MEMP_SIZE. rewrite Z.add_0_r.
    destruct Hd as (_ & _ & Hn & _).
    eexists e, _. split; [done|]. split_and!; [|done| |done].
    + exists fl. cbn [tab stats st_used]. split_and!; [done| |].
      * rewrite <- HP. by rewrite <- Permutation_middle.
      * rewrite Hu, u16_small by lia. cbn [length]. lia.
    + pose proof elems_NoDup as Hnd. rewrite <- HP in Hnd. cbn in Hnd.
      apply NoDup_cons in Hnd as [Hni _]. set_solver.
Qed.

Lemma free_pool_spec m p xs e :
  pool_rep desc m p (e :: xs) ->
  exists m' p', do_memp_free_pool m p e = Ret (m', p') /\ pool_rep desc m' p' xs
    /\ (forall i, i < e \/ e + 8 <= i -> byte m' i = byte m i).
Proof.
  intros HR. destruct (pool_rep_mem _ _ _ HR) as (Hx & Hnd & Hlen). destruct HR as (fl & Hf & HP & Hu).
  assert (Hel : e ∈ elems desc) by (apply Hx; by left). destruct (elems_facts e Hel) as (_ & Hal & _).
  unfold do_memp_free_pool.
  rewrite LWIP_ASSERT_ok by (pose proof align_pos; apply Z.eqb_eq, Z.mod_divide; [lia|done]).
  cbn [mbind outcome_bind]. unfold MEMP_SIZE. rewrite Z.sub_0_r.
  assert (Hfl : forall x, x ∈ fl -> x ∈ elems desc) by (intros x Hxf; rewrite <- HP; set_solver).
  eexists _, _. split; [done|]. split.
  - exists (e :: fl). cbn [tab stats st_used]. split_and!.
    + apply free_list_push; [done|done|done| |by eapply free_list_head].
      intros Hin. pose proof elems_NoDup as Hn. rewrite <- HP in Hn.
      apply NoDup_app in Hn as (_ & Hdis & _). apply (Hdis e Hin). by left.
    + rewrite <- HP. cbn. by rewrite Permutation_middle.
    + destruct Hd as (_ & _ & Hn & _). rewrite Hu, u16_small by (cbn [length] in *; lia). cbn [length]. lia.
  - intros i Hi. apply byte_store. lia.
Qed.

Lemma init_loop_spec n m tab fl i m' tab' :
  (i + n <= d_num desc)%nat -> free_list m tab fl ->
  (forall x, x ∈ fl -> exists j : nat, (j < i)%nat /\ x = A0 + j * d_size desc) ->
  init_loop n desc m tab (A0 + i * d_size desc) = (m', tab') ->
  free_list m' tab' (rev ((λ j : nat, A0 + j * d_size desc) <$> seq i n) ++ fl)
  /\ (forall j, ~ in_pool desc j -> byte m' j = byte m j).
Proof.
  revert m tab fl i. induction n as [|n IH]; intros m tab0 fl i Hi Hf Hfl; cbn [init_loop].
  - intros [= <- <-]. cbn. done.
  - unfold MEMP_SIZE. replace (A0 + i * d_size desc + 0 + d_size desc) with (A0 + S i * d_size desc) by lia.
    set (e := A0 + i * d_size desc) in *. intros E.
    assert (He : e ∈ elems desc) by (apply elem_of_elems; exists i; split; [lia|done]).
    assert (Hflx : forall x, x ∈ fl -> x ∈ elems desc).
    { intros x (j & Hj & ->)%Hfl. apply elem_of_elems. exists j. split; [lia|done]. }
    apply (IH _ _ (e :: fl) (S i)) in E.
    + destruct E as [E1 E2]. split.
      * cbn [seq fmap list_fmap rev]. rewrite <- app_assoc. exact E1.
      * intros j Hj. rewrite E2 by done. apply byte_store.
        destruct (elems_facts e He) as (_ & _ & Hin). destruct Hd as (Hs & _).
        destruct (decide (j < e \/ e + 8 <= j)) as [?|Hno]; [done|]. exfalso. apply Hj, Hin. lia.
    + lia.
    + apply free_list_push; [done|done|done| |by eapply free_list_head].
      intros (j & Hj & E')%Hfl. destruct Hd as (Hs & _). unfold e in E'. nia.
    + intros x [->|Hx]%elem_of_cons; [exists i; split; [lia|done]|].
      destruct (Hfl x Hx) as (j & Hj & ->). exists j. split; [lia|done].
Qed.

Lemma init_pool_spec m p :
  st_used (stats p) = 0 ->
  let '(m', p') := memp_init_pool desc m p in
  pool_rep desc m' p' [] /\ (forall j, ~ in_pool desc j -> byte m' j = byte m j).
Proof.
  intros Hu. unfold memp_init_pool. destruct (init_loop _ _ _ _ _) as [m' tab'] eqn:E.
  replace A0 with (A0 + 0%nat * d_size desc) in E by lia.
  destruct (init_loop_spec (d_num desc) m 0 [] 0 m' tab') as [Hf Hb]; [lia|done|set_solver|done|].
  split; [|done]. rewrite app_nil_r in Hf. eexists. split; [exact Hf|]. split; [|done].
  rewrite app_nil_r, <- Permutation_rev. done.
Qed.


Lemma sanity_loop_spec fuel m t h pre fh :
  free_list m t (pre ++ fh) -> free_list m h fh -> pre <> [] -> NoDup (pre ++ fh) ->
  (length (pre ++ fh) < fuel)%nat -> sanity_loop fuel m t h = Some true.
Proof.
  revert t h pre fh. induction fuel as [|fuel IH]; intros t h pre fh Ht Hh Hp Hn Hf; [lia|].
  destruct pre as [|e pre]; [done|]. destruct Ht as (-> & He & Ht). cbn [sanity_loop].
  replace (e =? 0) with false by lia. cbn [negb andb].
  destruct fh as [|x fh]; [cbn in Hh; by subst h|]. destruct Hh as (-> & Hx & Hh).
  replace (x =? 0) with false by lia. cbn [negb].
  rewrite NoDup_app in Hn. destruct Hn as (Hn1 & Hdis & Hn2).
  replace (e =? x) with false.
  2:{ symmetry. apply Z.eqb_neq. intros ->. apply (Hdis x); by left. }
  apply NoDup_cons in Hn1 as [Hn1' Hn1].
  assert (Hnd : NoDup (pre ++ x :: fh)).
  { apply NoDup_app. split_and!; [done| |done]. intros y Hy. apply Hdis. by right. }
  destruct fh as [|y fh].
  - cbn in Hh. rewrite Hh. cbn [Z.eqb negb]. destruct fuel; [cbn in Hf; lia|].
    cbn [sanity_loop]. by rewrite andb_false_r.
  - destruct Hh as (Hy & Hy0 & Hh). rewrite Hy. replace (y =? 0) with false by lia. cbn [negb].
    apply (IH _ _ (pre ++ [x; y]) fh).
    + rewrite <- app_assoc. exact Ht.
    + done.
    + by destruct pre.
    + by rewrite <- app_assoc.
    + rewrite <- app_assoc. cbn in Hf |- *. revert Hf. rewrite !length_app. cbn [length]. lia.
Qed.

Lemma memp_sanity_spec m p xs : pool_rep desc m p xs -> memp_sanity desc m p = Some true.
Proof.
  intros (fl & Hf & HP & _). unfold memp_sanity. destruct fl as [|e fl]; cbn in Hf.
  - by rewrite Hf.
  - destruct Hf as (-> & He & Hf). replace (e =? 0) with false by lia. cbn [negb].
    pose proof elems_NoDup as Hn. rewrite <- HP in Hn. rewrite NoDup_app in Hn. destruct Hn as [Hn _].
    apply (sanity_loop_spec _ _ _ _ [e] fl); [done|done|done|done|].
    pose proof length_elems as Hl. rewrite <- HP, length_app in Hl. cbn [app]. lia.
Qed.

Lemma pool_rep_perm m p xs ys : xs ≡ₚ ys -> pool_rep desc m p xs -> pool_rep desc m p ys.
Proof.
  intros Hxy (fl & Hf & HP & Hu). exists fl. by rewrite <- Hxy.
Qed.

End Desc.

(** ** Lemmas: all pools *)

Lemma memp_rep_update descs st XS t desc m' p' xs' :
  descs_ok descs -> memp_rep descs st XS -> descs !! t = Some desc -> pool_rep desc m' p' xs' ->
  (forall i, ~ in_pool desc i -> byte m' i = byte (mp_mem st) i) ->
  memp_rep descs (MempState m' (<[t := p']> (mp_pools st))) (<[t := xs']> XS).
Proof.
  intros [Hok Hdis] (Hl1 & Hl2 & HR) Ht Hp Hm. unfold memp_rep. cbn [mp_mem mp_pools].
  rewrite !length_insert. split_and!; [done|done|]. intros t' d' Ht'.
  pose proof (lookup_lt_Some _ _ _ Ht).
  destruct (decide (t = t')) as [<-|Hne].
  - rewrite Ht in Ht'. injection Ht' as <-. exists p', xs'. rewrite !list_lookup_insert_eq by lia. done.
  - rewrite !list_lookup_insert_ne by done. destruct (HR t' d' Ht') as (p & xs & E1 & E2 & HRp).
    exists p, xs. split_and!; [done|done|]. eapply pool_rep_frame; [|..|exact HRp].
    + by eapply Forall_lookup_1.
    + intros i Hi. apply Hm. intros Hi'. by apply (Hdis t t' desc d' i).
Qed.

Lemma memp_rep_pool descs st XS t desc xs :
  memp_rep descs st XS -> descs !! t = Some desc -> XS !! t = Some xs ->
  exists p, mp_pools st !! t = Some p /\ pool_rep desc (mp_mem st) p xs.
Proof.
  intros (_ & _ & HR) Ht Hxs. destruct (HR t desc Ht) as (p & xs' & E1 & E2 & HRp).
  rewrite Hxs in E2. injection E2 as <-. eauto.
Qed.

Lemma memp_init_loop_spec descs m ps :
  descs_ok descs -> Forall (λ p, st_used (stats p) = 0) ps -> length ps = length descs ->
  let '(m', ps') := memp_init_loop descs m ps in
  memp_rep descs (MempState m' ps') (replicate (length descs) [])
  /\ (forall i, (forall t d, descs !! t = Some d -> ~ in_pool d i) -> byte m' i = byte m i).
Proof.
  revert m ps. induction descs as [|desc descs IH]; intros m ps [Hok Hdis] Hu Hl.
  - destruct ps; [|done]. cbn. split; [|done]. split_and!; done.
  - destruct ps as [|p ps]; [done|]. apply Forall_cons in Hok as [Hd Hok].
    apply Forall_cons in Hu as [Hu Hus]. cbn [memp_init_loop length replicate].
    pose proof (init_pool_spec desc Hd m p Hu) as Hi. destruct (memp_init_pool desc m p) as [m1 p1].
    destruct Hi as [Hp1 Hm1].
    assert (Hok' : descs_ok descs).
    { split; [done|]. intros t1 t2 d1 d2 i E1 E2 Hne. apply (Hdis (S t1) (S t2)); [done|done|lia]. }
    specialize (IH m1 ps Hok' Hus ltac:(cbn in Hl; lia)).
    destruct (memp_init_loop descs m1 ps) as [m2 ps2]. destruct IH as [(Hl1 & Hl2 & IH) Hm2].
    split.
    + split_and!; cbn [mp_pools length] in *; [lia|by rewrite length_replicate|].
      intros [|t] d Ht; cbn in Ht |- *.
      * injection Ht as <-. exists p1, []. split_and!; [done|done|].
        eapply pool_rep_frame; [done| |exact Hp1]. intros i Hi. apply Hm2.
        intros t d Ht Hi'. by apply (Hdis 0%nat (S t) desc d i).
      * apply (IH t d Ht).
    + intros i Hi. rewrite Hm2, Hm1; [done|..].
      * by apply (Hi 0%nat).
      * intros t d Ht. by apply (Hi (S t)).
Qed.

(** Elements of different pools, and different elements of a pool, are apart. *)
Lemma elems_all_apart descs t t' d d' e x :
  descs_ok descs -> descs !! t = Some d -> descs !! t' = Some d' ->
  e ∈ elems d -> x ∈ elems d' -> (t = t' -> e <> x) ->
  e + d_size d <= x \/ x + d_size d' <= e.
Proof.
  intros [Hok Hdis] Ht Ht' He Hx Hne.
  assert (Hd : desc_ok d) by (by eapply Forall_lookup_1).
  assert (Hd' : desc_ok d') by (by eapply Forall_lookup_1).
  destruct (decide (t = t')) as [<-|Hn].
  - rewrite Ht in Ht'. injection Ht' as <-. apply elems_apart; auto.
  - destruct (elems_facts d Hd e He) as (_ & _ & Hi). destruct (elems_facts d' Hd' x Hx) as (_ & _ & Hi').
    destruct Hd as (Hs & _), Hd' as (Hs' & _).
    destruct (decide (e + d_size d <= x \/ x + d_size d' <= e)) as [|Hno]; [done|]. exfalso.
    apply (Hdis t t' d d' (Z.max e x)); [done..| |]; [apply Hi|apply Hi']; lia.
Qed.

Lemma memp_malloc_spec descs st XS t desc xs :
  descs_ok descs -> memp_rep descs st XS -> descs !! t = Some desc -> XS !! t = Some xs ->
  if decide (length xs < d_num desc) then
    exists e st', memp_malloc st t = Ret (Some e, st')
      /\ memp_rep descs st' (<[t := e :: xs]> XS) /\ mp_mem st' = mp_mem st
      /\ (MEM_ALIGNMENT | e) /\ e ∈ elems desc /\ e ∉ xs
  else exists st', memp_malloc st t = Ret (None, st') /\ memp_rep descs st' XS /\ mp_mem st' = mp_mem st.
Proof.
  intros Hok HR Ht Hxs. destruct (memp_rep_pool _ _ _ _ _ _ HR Ht Hxs) as (p & Ep & HRp).
  assert (Hd : desc_ok desc) by (destruct Hok; by eapply Forall_lookup_1).
  pose proof (malloc_pool_spec desc Hd _ _ _ HRp) as Hm. unfold memp_malloc. rewrite Ep.
  case_decide.
  - destruct Hm as (e & p' & -> & HRp' & He & Hne & Hal). cbn [mbind outcome_bind].
    eexists e, _. split; [done|]. split_and!; try done. by eapply memp_rep_update.
  - destruct Hm as (p' & -> & HRp'). cbn [mbind outcome_bind]. eexists. split; [done|].
    split; [|done]. rewrite <- (list_insert_id XS t xs) by done. by eapply memp_rep_update.
Qed.

Lemma memp_free_spec descs st XS t desc xs e xs' :
  descs_ok descs -> memp_rep descs st XS -> descs !! t = Some desc -> XS !! t = Some xs ->
  xs ≡ₚ e :: xs' ->
  exists st', memp_free st t (Some e) = Ret st' /\ memp_rep descs st' (<[t := xs']> XS)
    /\ (forall i, i < e \/ e + 8 <= i -> byte (mp_mem st') i = byte (mp_mem st) i).
Proof.
  intros Hok HR Ht Hxs HP. destruct (memp_rep_pool _ _ _ _ _ _ HR Ht Hxs) as (p & Ep & HRp).
  assert (Hd : desc_ok desc) by (destruct Hok; by eapply Forall_lookup_1).
  pose proof HRp as HRp0. apply (pool_rep_perm desc _ _ _ _ HP) in HRp.
  destruct (free_pool_spec desc Hd _ _ _ _ HRp) as (m' & p' & Ef & HRp' & Hb).
  unfold memp_free. rewrite Ep, Ef. cbn [mbind outcome_bind]. eexists _. split; [done|].
  split; [|done]. eapply memp_rep_update; [done..|]. intros i Hi. apply Hb.
  assert (He : e ∈ xs) by (rewrite HP; by left).
  destruct (pool_rep_mem desc Hd _ _ _ HRp0) as (Hx & _).
  destruct (elems_facts desc Hd e (Hx e He)) as (_ & _ & Hin). destruct Hd as (Hs & _).
  destruct (decide (i < e \/ e + 8 <= i)) as [|Hno]; [done|]. exfalso. apply Hi, Hin. lia.
Qed.

(** The pools of memp.c keep that promise. *)
Program Definition memp_element_pool (descs : list memp_desc) (t : nat) (desc : memp_desc)
  (Hok : descs_ok descs) (Ht : descs !! t = Some desc) : ElementPool memp_state := {|
  pool_cap := d_num desc;
  pool_holds st xs := exists XS ys, memp_rep descs st XS /\ XS !! t = Some ys /\ ys ≡ₚ xs;
  pool_malloc st := memp_malloc st t;
  pool_free st e := memp_free st t (Some e)
|}.
Next Obligation.
  intros descs t desc Hok Ht st xs ys Hp (XS & zs & HR & Hxs & HP). exists XS, zs.
  split_and!; [done|done|]. by rewrite HP.
Qed.
Next Obligation.
  intros descs t desc Hok Ht st xs (XS & ys & HR & Hxs & HP). rewrite <- HP.
  destruct (memp_rep_pool _ _ _ _ _ _ HR Ht Hxs) as (p & _ & HRp).
  eapply pool_rep_mem; [|exact HRp]. destruct Hok. by eapply Forall_lookup_1.
Qed.
Next Obligation.
  intros descs t desc Hok Ht st xs (XS & ys & HR & Hxs & HP). rewrite <- HP.
  destruct (memp_rep_pool _ _ _ _ _ _ HR Ht Hxs) as (p & _ & HRp).
  eapply pool_rep_mem; [|exact HRp]. destruct Hok. by eapply Forall_lookup_1.
Qed.
Next Obligation.
  intros descs t desc Hok Ht st xs (XS & ys & HR & Hxs & HP). rewrite <- HP.
  destruct (memp_rep_pool _ _ _ _ _ _ HR Ht Hxs) as (p & _ & HRp).
  assert (Hd : desc_ok desc) by (destruct Hok; by eapply Forall_lookup_1).
  destruct (pool_rep_mem desc Hd _ _ _ HRp) as (Hx & _). apply Forall_forall. intros e He. apply (elems_facts desc Hd e), Hx, He.
Qed.
Next Obligation.
  intros descs t desc Hok Ht st xs (XS & ys & HR & Hxs & HP).
  pose proof (memp_malloc_spec _ _ _ _ _ _ Hok HR Ht Hxs) as Hm.
  assert (Hlt : (t < length XS)%nat) by (by eapply lookup_lt_Some).
  apply Permutation_length in HP as Hlen. rewrite Hlen in Hm. repeat case_decide; try lia.
  - destruct Hm as (e & st' & E & HR' & _). exists e, st'. split; [done|].
    eexists _, _. split; [exact HR'|]. rewrite list_lookup_insert_eq by done. split; [done|].
    by constructor.
  - destruct Hm as (st' & E & HR' & _). exists st'. split; [done|]. by exists XS, ys.
Qed.
Next Obligation.
  intros descs t desc Hok Ht st e xs (XS & ys & HR & Hxs & HP).
  destruct (memp_free_spec _ _ _ _ _ _ _ _ Hok HR Ht Hxs HP) as (st' & E & HR' & _).
  exists st'. split; [done|]. eexists _, xs. split; [exact HR'|].
  rewrite list_lookup_insert_eq by (by eapply lookup_lt_Some). done.
Qed.

(** ** Properties *)

(** memp_init turns all elements of every pool into free ones. *)
Theorem memp_init_correct descs st :
  descs_ok descs -> Forall (λ p, st_used (stats p) = 0) (mp_pools st) ->
  length (mp_pools st) = length descs ->
  memp_rep descs (memp_init descs st) (replicate (length descs) []).
Proof.
  intros Hok Hu Hl. unfold memp_init.
  pose proof (memp_init_loop_spec descs (mp_mem st) (mp_pools st) Hok Hu Hl) as HI.
  by destruct (memp_init_loop _ _ _) as [m ps], HI.
Qed.

(** memp_malloc succeeds exactly while fewer than the declared number of
    elements are handed out; the element it returns is aligned and apart from
    every element handed out from any pool, and no memory changes. *)
Theorem memp_malloc_correct descs st XS t desc xs :
  descs_ok descs -> memp_rep descs st XS -> descs !! t = Some desc -> XS !! t = Some xs ->
  if decide (length xs < d_num desc) then
    exists e st', memp_malloc st t = Ret (Some e, st')
      /\ memp_rep descs st' (<[t := e :: xs]> XS) /\ mp_mem st' = mp_mem st
      /\ (MEM_ALIGNMENT | e)
      /\ (forall t' d' xs' x, descs !! t' = Some d' -> XS !! t' = Some xs' -> x ∈ xs' ->
            e + d_size desc <= x \/ x + d_size d' <= e)
  else exists st', memp_malloc st t = Ret (None, st') /\ memp_rep descs st' XS /\ mp_mem st' = mp_mem st.
Proof.
  intros Hok HR Ht Hxs. pose proof (memp_malloc_spec _ _ _ _ _ _ Hok HR Ht Hxs) as Hm.
  case_decide; [|done]. destruct Hm as (e & st' & E & HR' & Em & Hal & He & Hne).
  exists e, st'. split_and!; [done..|]. intros t' d' xs' x Ht' Hxs' Hx.
  destruct (memp_rep_pool _ _ _ _ _ _ HR Ht' Hxs') as (p2 & _ & HR2).
  assert (Hd' : desc_ok d') by (destruct Hok; by eapply Forall_lookup_1).
  destruct (pool_rep_mem d' Hd' _ _ _ HR2) as (Hx' & _).
  apply (elems_all_apart descs t t'); [done..|by apply Hx'|].
  intros <-. rewrite Hxs in Hxs'. injection Hxs' as <-. by intros ->.
Qed.

(** memp_free of an element handed out puts it back into its pool; only its
    link, its first 8 bytes, is written. *)
Theorem memp_free_correct descs st XS t desc xs e :
  descs_ok descs -> memp_rep descs st XS -> descs !! t = Some desc -> XS !! t = Some xs -> e ∈ xs ->
  exists st' xs', memp_free st t (Some e) = Ret st' /\ xs ≡ₚ e :: xs'
    /\ memp_rep descs st' (<[t := xs']> XS)
    /\ (forall i, i < e \/ e + 8 <= i -> byte (mp_mem st') i = byte (mp_mem st) i).
Proof.
  intros Hok HR Ht Hxs He. destruct (proj1 (elem_of_Permutation _ _) He) as (xs' & HP).
  destruct (memp_free_spec _ _ _ _ _ _ _ _ Hok HR Ht Hxs HP) as (st' & E & HR' & Hb).
  exists st', xs'. by split_and!.
Qed.

(** in every state of a pool the cycle check memp_sanity terminates and
    finds its free list free of cycles. *)
Theorem memp_sanity_correct descs st XS t desc p :
  descs_ok descs -> memp_rep descs st XS -> descs !! t = Some desc -> mp_pools st !! t = Some p ->
  memp_sanity desc (mp_mem st) p = Some true.
Proof.
  intros [Hok _] (_ & _ & HR) Ht Hp. destruct (HR t desc Ht) as (p' & xs & E & _ & HRp).
  rewrite Hp in E. injection E as <-. eapply memp_sanity_spec; [|exact HRp]. by eapply Forall_lookup_1.
Qed.
End Proofs.

(** ** Witnesses: two pools, with the default options *)

Definition two_descs : list memp_desc := [MempDesc 16 3 1000; MempDesc 24 2 2000].
Definition pool_bss : pool := Pool 0 (StatsMem 0 0 0 0).
Definition memp0 : memp_state := memp_init two_descs (MempState ∅ [pool_bss; pool_bss]).
Definition memp1 : memp_state :=
  match memp_malloc memp0 1 with Ret (_, st) => st | Trap _ => memp0 end.

Lemma two_descs_ok : descs_ok two_descs.
Proof.
  split.
  - repeat constructor; try (vm_compute; intuition congruence); [exists 16|exists 24]; reflexivity.
  - assert (H0 : forall i, in_pool (MempDesc 16 3 1000) i -> 1000 <= i < 1048) by (intros i; exact id).
    assert (H1 : forall i, in_pool (MempDesc 24 2 2000) i -> 2000 <= i < 2048) by (intros i; exact id).
    intros [|[|t1]] [|[|t2]] d1 d2 i E1 E2 Hne; try done; cbn in E1, E2;
      injection E1 as <-; injection E2 as <-; intros I1 I2.
    + apply H0 in I1. apply H1 in I2. lia.
    + apply H1 in I1. apply H0 in I2. lia.
Qed.

Lemma memp0_rep : memp_rep two_descs memp0 [[]; []].
Proof.
  apply (memp_init_loop_spec two_descs ∅ [pool_bss; pool_bss] two_descs_ok); [|done].
  repeat constructor.
Qed.

Lemma memp1_rep : memp_rep two_descs memp1 [[]; [2024]].
Proof.
  pose proof (malloc_pool_spec (MempDesc 24 2 2000)) as Hm.
  destruct (memp_rep_pool two_descs memp0 [[]; []] 1 (MempDesc 24 2 2000) [] memp0_rep eq_refl eq_refl)
    as (p & Ep & HRp).
  assert (Hd : desc_ok (MempDesc 24 2 2000)) by (destruct two_descs_ok as [Hok _]; by inversion Hok; inversion H2).
  specialize (Hm Hd _ _ _ HRp). destruct (decide _) as [_|Hno]; [|cbn in Hno; lia].
  assert (Ep' : mp_pools memp0 !! 1%nat = Some (Pool 2024 (StatsMem 0 2 0 0))) by (vm_compute; reflexivity).
  rewrite Ep' in Ep. injection Ep as <-.
  assert (E' : do_memp_malloc_pool (mp_mem memp0) (Pool 2024 (StatsMem 0 2 0 0))
               = Ret (Some 2024, Pool 2000 (StatsMem 0 2 1 1))) by (vm_compute; reflexivity).
  rewrite E' in Hm. destruct Hm as (e & p' & E & HRp' & _). injection E as <- <-.
  assert (Hm1 : memp1 = MempState (mp_mem memp0) (<[1%nat := Pool 2000 (StatsMem 0 2 1 1)]> (mp_pools memp0))).
  { unfold memp1, memp_malloc. rewrite Ep', E'. reflexivity. }
  rewrite Hm1.
  apply (memp_rep_update two_descs memp0 [[]; []] 1 (MempDesc 24 2 2000) (mp_mem memp0) _ [2024]
           two_descs_ok memp0_rep eq_refl HRp').
  done.
Qed.

Lemma memp_init_correct_witness :
  memp_rep two_descs (memp_init two_descs (MempState ∅ [pool_bss; pool_bss])) [[]; []].
Proof.
  apply (memp_init_correct two_descs (MempState ∅ [pool_bss; pool_bss]) two_descs_ok);
    [repeat constructor|reflexivity].
Defined.

Lemma memp_malloc_correct_witness :
  exists e st', memp_malloc memp1 1 = Ret (Some e, st') /\ memp_rep two_descs st' [[]; [e; 2024]].
Proof.
  pose proof (memp_malloc_correct two_descs memp1 [[]; [2024]] 1 (MempDesc 24 2 2000) [2024]
    two_descs_ok memp1_rep eq_refl eq_refl) as Hm.
  destruct (decide _) as [_|Hno]; [|cbn in Hno; lia].
  destruct Hm as (e & st' & E & HR & _). exists e, st'. split; [exact E|exact HR].
Defined.

Lemma memp_free_correct_witness :
  exists st' xs', memp_free memp1 1 (Some 2024) = Ret st' /\ [2024] ≡ₚ 2024 :: xs'
    /\ memp_rep two_descs st' [[]; xs'].
Proof.
  destruct (memp_free_correct two_descs memp1 [[]; [2024]] 1 (MempDesc 24 2 2000) [2024] 2024
    two_descs_ok memp1_rep eq_refl eq_refl ltac:(by left)) as (st' & xs' & E & HP & HR & _).
  exists st', xs'. split_and!; [exact E|exact HP|exact HR].
Defined.

Lemma memp_sanity_correct_witness :
  exists p, mp_pools memp1 !! 1%nat = Some p /\ memp_sanity (MempDesc 24 2 2000) (mp_mem memp1) p = Some true.
Proof.
  destruct (memp_rep_pool _ _ _ 1 (MempDesc 24 2 2000) [2024] memp1_rep eq_refl eq_refl) as (p & Ep & _).
  exists p. split; [exact Ep|].
  exact (memp_sanity_correct two_descs memp1 [[]; [2024]] 1 _ p two_descs_ok memp1_rep eq_refl Ep).
Defined.
