(* ===== verification/Timeouts.v ===== *)
(** * Timeouts (src/lwip/src/core/timeouts.c)

    The list of pending timeouts, sorted by due time on the 32 bit millisecond
    clock that wraps around.  The list is the chain from [next_timeout] on, each
    structure with its address in the pool MEMP_SYS_TIMEOUT, which is used
    through the interface [ElementPool].  The clock (sys_now, in the port) is a
    field of the state; the handlers, functions of other modules, and the TCP
    state the TCP timer asks for are arguments. *)

From Stdlib Require Import Sorting.Sorted.
From S2P Require Import Prelude Mem Memp.

#[local] Open Scope Z_scope.
#[local] Coercion Z.of_nat : nat >-> Z.

(** ** Time *)

Definition LWIP_MAX_TIMEOUT : Z := 0x7fffffff.
Definition LWIP_UINT32_MAX : Z := 0xffffffff.
Definition SYS_TIMEOUTS_SLEEPTIME_INFINITE : Z := 0xFFFFFFFF.

Definition TIME_LESS_THAN (t compare_to : Z) : bool := LWIP_MAX_TIMEOUT <? u32 (t - compare_to).

(** ** Data *)

(** The functions a timeout can call: the two of this file and those of other
    modules. *)
Inductive handler := cyclic_timer_h | tcp_timer_h | user_h (f : nat).

#[global] Instance handler_eq_dec : EqDecision handler.
Proof. solve_decision. Defined.

(** struct sys_timeo; [t_addr] is where it lies, [h] may be NULL. *)
Record sys_timeo := SysTimeo { t_addr : Z; time : Z; h : option handler; arg : Z }.

Definition TCP_TMR_INTERVAL : Z := 250.

Section Timeouts.
Context {St : Type} `{ElementPool St}.

(** The variables of the module, the pool and the clock. *)
Record timers := Timers {
  next_timeout : list sys_timeo;
  current_timeout_due_time : Z;
  tcpip_tcp_timer_active : bool;
  pool_st : St;
  clock : Z
}.

Definition sys_now (s : timers) : Z := clock s.

Definition with_list (s : timers) (l : list sys_timeo) : timers :=
  Timers l (current_timeout_due_time s) (tcpip_tcp_timer_active s) (pool_st s) (clock s).
Definition with_pool (s : timers) (p : St) : timers :=
  Timers (next_timeout s) (current_timeout_due_time s) (tcpip_tcp_timer_active s) p (clock s).
Definition with_due (s : timers) (d : Z) : timers :=
  Timers (next_timeout s) d (tcpip_tcp_timer_active s) (pool_st s) (clock s).
Definition with_active (s : timers) (b : bool) : timers :=
  Timers (next_timeout s) (current_timeout_due_time s) b (pool_st s) (clock s).

(** ** Adding a timeout *)

(** The for loop of sys_timeout_abs: [t] is the current element, [rest] the
    list behind it. *)
Fixpoint insert_after (timeout t : sys_timeo) (rest : list sys_timeo) : list sys_timeo :=
  match rest with
  | [] => [t; timeout]
  | t' :: rest' =>
      if TIME_LESS_THAN (time timeout) (time t') then t :: timeout :: rest
      else t :: insert_after timeout t' rest'
  end.

Definition insert_timeout (timeout : sys_timeo) (l : list sys_timeo) : list sys_timeo :=
  match l with
  | [] => [timeout]
  | t :: rest =>
      if TIME_LESS_THAN (time timeout) (time t) then timeout :: l
      else insert_after timeout t rest
  end.

Definition sys_timeout_abs (s : timers) (abs_time : Z) (handler : option handler) (arg : Z)
  : outcome timers :=
  '(r, p) ← pool_malloc (pool_st s);
  match r with
  | None => Trap "sys_timeout: timeout != NULL, pool MEMP_SYS_TIMEOUT is empty"
  | Some addr =>
      let timeout := SysTimeo addr abs_time handler arg in
      Ret (with_list (with_pool s p) (insert_timeout timeout (next_timeout s)))
  end.

Definition sys_timeout (s : timers) (msecs : Z) (handler : option handler) (arg : Z) : outcome timers :=
  LWIP_ASSERT "Timeout time too long, max is LWIP_UINT32_MAX/4 msecs" (msecs <=? LWIP_UINT32_MAX / 4);;
  let next_timeout_time := u32 (sys_now s + msecs) in
  sys_timeout_abs s next_timeout_time handler arg.

(** ** Removing a timeout *)

Definition matches (handler : option handler) (arg' : Z) (t : sys_timeo) : bool :=
  bool_decide (h t = handler) && (arg t =? arg').

(** The search of sys_untimeout: the unlinked element and the list without it. *)
Fixpoint unlink_first (handler : option handler) (arg : Z) (l : list sys_timeo)
  : option (sys_timeo * list sys_timeo) :=
  match l with
  | [] => None
  | t :: rest =>
      if matches handler arg t then Some (t, rest)
      else '(x, rest) ← unlink_first handler arg rest; Some (x, t :: rest)
  end.

Definition sys_untimeout (s : timers) (handler : option handler) (arg : Z) : outcome timers :=
  match unlink_first handler arg (next_timeout s) with
  | None => Ret s
  | Some (t, l) =>
      p ← pool_free (pool_st s) (t_addr t);
      Ret (with_pool (with_list s l) p)
  end.

(** ** Firing *)

Section Handlers.
Context (user_handler : nat -> Z -> timers -> outcome timers).
Context (cyclic_handler : nat -> timers -> outcome timers) (tcp_tmr : timers -> outcome timers).
Context (tcp_pcbs : timers -> bool) (lwip_cyclic_timers : list Z) (LWIP_TCP : bool).

Definition tcpip_tcp_timer (s : timers) : outcome timers :=
  s ← tcp_tmr s;
  if tcp_pcbs s then sys_timeout s TCP_TMR_INTERVAL (Some tcp_timer_h) 0
  else Ret (with_active s false).

Definition tcp_timer_needed (s : timers) : outcome timers :=
  if negb (tcpip_tcp_timer_active s) && tcp_pcbs s then
    sys_timeout (with_active s true) TCP_TMR_INTERVAL (Some tcp_timer_h) 0
  else Ret s.

(** lwip_cyclic_timer; [arg] is the index of the entry of lwip_cyclic_timers. *)
Definition lwip_cyclic_timer (s : timers) (arg : Z) : outcome timers :=
  let interval_ms := default 0 (lwip_cyclic_timers !! Z.to_nat arg) in
  s ← cyclic_handler (Z.to_nat arg) s;
  let now := sys_now s in
  let next_timeout_time := u32 (current_timeout_due_time s + interval_ms) in
  if TIME_LESS_THAN next_timeout_time now then
    sys_timeout_abs s (u32 (now + interval_ms)) (Some cyclic_timer_h) arg
  else sys_timeout_abs s next_timeout_time (Some cyclic_timer_h) arg.

(** The loop of sys_timeouts_init from index [i] on. *)
Fixpoint init_timers_loop (intervals : list Z) (i : nat) (s : timers) : outcome timers :=
  match intervals with
  | [] => Ret s
  | interval_ms :: intervals =>
      s ← sys_timeout s interval_ms (Some cyclic_timer_h) i;
      init_timers_loop intervals (S i) s
  end.

Definition sys_timeouts_init (s : timers) : outcome timers :=
  let i := if LWIP_TCP then 1%nat else 0%nat in
  init_timers_loop (drop i lwip_cyclic_timers) i s.

(** Calling a handler. *)
Definition call (f : handler) (a : Z) (s : timers) : outcome timers :=
  match f with
  | cyclic_timer_h => lwip_cyclic_timer s a
  | tcp_timer_h => tcpip_tcp_timer s
  | user_h n => user_handler n a s
  end.

(** The loop of sys_check_timeouts; [now] was read before it.  A handler can add
    timeouts that are due at once, so the number of rounds depends on the
    handlers. *)
Fixpoint check_loop (fuel : nat) (now : Z) (s : timers) : outcome timers :=
  match fuel with
  | O => Trap "sys_check_timeouts: fuel"
  | S fuel =>
      match next_timeout s with
      | [] => Ret s
      | tmptimeout :: rest =>
          if TIME_LESS_THAN now (time tmptimeout) then Ret s
          else
            let s := with_list s rest in
            let s := with_due s (time tmptimeout) in
            p ← pool_free (pool_st s) (t_addr tmptimeout);
            let s := with_pool s p in
            s ← match h tmptimeout with
                | Some f => call f (arg tmptimeout) s
                | None => Ret s
                end;
            check_loop fuel now s
      end
  end.

Definition sys_check_timeouts (fuel : nat) (s : timers) : outcome timers :=
  let now := sys_now s in check_loop fuel now s.

End Handlers.

(** ** Rebasing and sleeping *)

Definition sys_restart_timeouts (s : timers) : timers :=
  match next_timeout s with
  | [] => s
  | t0 :: _ =>
      let now := sys_now s in
      let base := time t0 in
      with_list s ((λ t, SysTimeo (t_addr t) (u32 (u32 (time t - base) + now)) (h t) (arg t))
                     <$> next_timeout s)
  end.

Definition sys_timeouts_sleeptime (s : timers) : outcome Z :=
  match next_timeout s with
  | [] => Ret SYS_TIMEOUTS_SLEEPTIME_INFINITE
  | t :: _ =>
      let now := sys_now s in
      if TIME_LESS_THAN (time t) now then Ret 0
      else
        let ret := u32 (time t - now) in
        LWIP_ASSERT "invalid sleeptime" (ret <=? LWIP_MAX_TIMEOUT);;
        Ret ret
  end.

(** ** Specification *)

(** The place of a time on the clock, seen from [base]. *)
Definition off (base t : Z) : Z := u32 (t - base).

(** The pending timeouts lie within half the clock range from [base] on, and are
    sorted there. *)
Definition in_window (base : Z) (t : sys_timeo) : Prop :=
  is_u32 (time t) /\ off base (time t) <= LWIP_MAX_TIMEOUT.
Definition before (base : Z) (t t' : sys_timeo) : Prop := off base (time t) <= off base (time t').
Definition list_sorted (base : Z) (l : list sys_timeo) : Prop :=
  Forall (in_window base) l /\ StronglySorted (before base) l.

(** The pool holds exactly the structures of the list. *)
Definition timers_ok (s : timers) : Prop := pool_holds (pool_st s) (t_addr <$> next_timeout s).

End Timeouts.

Section Proofs.
Context {St : Type} `{ElementPool St}.
Abbreviation tm := (@timers St).

(** ** Lemmas: the wrapping clock *)

Lemma off_range base t : is_u32 (off base t).
Proof. apply u32_range. Qed.

Lemma less_than_window base a b :
  off base a <= LWIP_MAX_TIMEOUT -> off base b <= LWIP_MAX_TIMEOUT ->
  TIME_LESS_THAN a b = (off base a <? off base b).
Proof.
  intros Ha Hb. unfold TIME_LESS_THAN.
  assert (E : u32 (a - b) = u32 (off base a - off base b)).
  { unfold off, u32. rewrite <- Zminus_mod. f_equal. lia. }
  rewrite E. pose proof (off_range base a). pose proof (off_range base b).
  unfold LWIP_MAX_TIMEOUT in *. apply eq_true_iff_eq. rewrite !Z.ltb_lt. wrap_solve.
Qed.

(** ** Lemmas: inserting *)

Definition inserted (base : Z) (t : sys_timeo) (l l' : list sys_timeo) : Prop :=
  exists l1 l2, l = l1 ++ l2 /\ l' = l1 ++ t :: l2
    /\ Forall (λ x, off base (time x) <= off base (time t)) l1
    /\ Forall (λ x, off base (time t) < off base (time x)) l2.

Lemma sorted_tail base t l : list_sorted base (t :: l) -> in_window base t /\ list_sorted base l
  /\ Forall (λ x, off base (time t) <= off base (time x)) l.
Proof.
  intros [Hw Hs]. apply Forall_cons in Hw as [Ht Hw]. apply StronglySorted_inv in Hs as [Hs Hh].
  by split_and!.
Qed.

Lemma insert_after_spec base t x rest :
  list_sorted base (x :: rest) -> in_window base t -> off base (time x) <= off base (time t) ->
  inserted base t (x :: rest) (insert_after t x rest).
Proof.
  intros Hs Ht. revert x Hs. induction rest as [|y rest IH]; intros x Hs Hx; cbn [insert_after].
  - exists [x], []. split_and!; [done|done|by repeat constructor|constructor].
  - destruct (sorted_tail _ _ _ Hs) as (Hwx & Hs' & Hmin).
    destruct (sorted_tail _ _ _ Hs') as (Hwy & Hs'' & Hmin').
    rewrite (less_than_window base) by (apply Ht || apply Hwy).
    destruct (off base (time t) <? off base (time y)) eqn:E; bool_to_prop.
    + exists [x], (y :: rest). split_and!; [done|done|by repeat constructor|].
      constructor; [done|]. eapply Forall_impl; [exact Hmin'|]. cbn. intros. lia.
    + destruct (IH y Hs' E) as (l1 & l2 & E1 & E2 & H1 & H2).
      exists (x :: l1), l2. rewrite E1, E2. split_and!; [done|done|by constructor|done].
Qed.

Lemma insert_timeout_spec base t l :
  list_sorted base l -> in_window base t -> inserted base t l (insert_timeout t l).
Proof.
  intros Hs Ht. destruct l as [|x rest]; cbn [insert_timeout].
  - exists [], []. split_and!; [done|done|constructor|constructor].
  - destruct (sorted_tail _ _ _ Hs) as (Hwx & Hs' & Hmin).
    rewrite (less_than_window base) by (apply Ht || apply Hwx).
    destruct (off base (time t) <? off base (time x)) eqn:E; bool_to_prop.
    + exists [], (x :: rest). split_and!; [done|done|constructor|].
      constructor; [done|]. eapply Forall_impl; [exact Hmin|]. cbn. intros. lia.
    + by apply insert_after_spec.
Qed.

Lemma sorted_app base l1 l2 :
  StronglySorted (before base) (l1 ++ l2) <->
  StronglySorted (before base) l1 /\ StronglySorted (before base) l2
  /\ Forall (λ x, Forall (before base x) l2) l1.
Proof.
  induction l1 as [|x l1 IH]; cbn [app].
  - split; [intros; split_and!; [constructor|done|constructor]|tauto].
  - split.
    + intros Hs. apply StronglySorted_inv in Hs as [Hs Hf]. apply IH in Hs as (S1 & S2 & S3).
      apply Forall_app in Hf as [F1 F2]. split_and!; [by constructor|done|by constructor].
    + intros (S1 & S2 & S3). apply StronglySorted_inv in S1 as [S1 F1].
      apply Forall_cons in S3 as [F2 S3]. constructor; [tauto|]. by apply Forall_app.
Qed.

Lemma inserted_sorted base t l l' :
  list_sorted base l -> in_window base t -> inserted base t l l' -> list_sorted base l'.
Proof.
  intros [Hw Hs] Ht (l1 & l2 & -> & -> & H1 & H2). apply Forall_app in Hw as [W1 W2].
  apply sorted_app in Hs as (S1 & S2 & S3). split.
  - apply Forall_app. split; [done|by constructor].
  - apply sorted_app. split_and!; [done| |].
    + constructor; [done|]. eapply Forall_impl; [exact H2|]. unfold before. cbn. intros. lia.
    + apply Forall_forall. intros x Hx. constructor.
      * rewrite Forall_forall in H1. apply H1, Hx.
      * rewrite Forall_forall in S3. by apply S3.
Qed.

Lemma inserted_perm base t l l' : inserted base t l l' -> l' ≡ₚ t :: l.
Proof. intros (l1 & l2 & -> & -> & _). by rewrite <- Permutation_middle. Qed.

(** ** Lemmas: adding through the pool *)

Lemma timeout_abs_spec s base abs f a :
  timers_ok s -> list_sorted base (next_timeout s) -> is_u32 abs -> off base abs <= LWIP_MAX_TIMEOUT ->
  if decide (length (next_timeout s) < pool_cap)%nat then
    exists addr s', sys_timeout_abs s abs f a = Ret s' /\ timers_ok s'
      /\ inserted base (SysTimeo addr abs f a) (next_timeout s) (next_timeout s')
      /\ list_sorted base (next_timeout s') /\ clock s' = clock s
      /\ current_timeout_due_time s' = current_timeout_due_time s
      /\ tcpip_tcp_timer_active s' = tcpip_tcp_timer_active s
  else sys_timeout_abs s abs f a
       = Trap "sys_timeout: timeout != NULL, pool MEMP_SYS_TIMEOUT is empty".
Proof.
  intros Hok Hs Ha Hw. unfold sys_timeout_abs. pose proof (pool_malloc_law _ _ Hok) as Hm.
  rewrite length_fmap in Hm. case_decide.
  - destruct Hm as (addr & p & -> & Hp). cbn [mbind outcome_bind].
    set (t := SysTimeo addr abs f a).
    assert (Ht : in_window base t) by (by split).
    pose proof (insert_timeout_spec base t _ Hs Ht) as Hi.
    exists addr. eexists. split; [done|]. cbn [next_timeout with_list with_pool clock
      current_timeout_due_time tcpip_tcp_timer_active]. split_and!; try done.
    + unfold timers_ok. cbn [pool_st next_timeout with_list with_pool].
      eapply pool_holds_perm; [|exact Hp]. rewrite (inserted_perm _ _ _ _ Hi). done.
    + by eapply inserted_sorted.
  - destruct Hm as (p & -> & _). done.
Qed.

(** ** Lemmas: removing *)

Lemma unlink_first_spec f a l :
  match unlink_first f a l with
  | Some (t, l') =>
      exists l1 l2, l = l1 ++ t :: l2 /\ l' = l1 ++ l2 /\ h t = f /\ arg t = a
        /\ Forall (λ x, ~ (h x = f /\ arg x = a)) l1
  | None => Forall (λ x, ~ (h x = f /\ arg x = a)) l
  end.
Proof.
  induction l as [|t l IH]; cbn [unlink_first]; [constructor|].
  unfold matches at 1. destruct (bool_decide (h t = f)) eqn:E1; cbn [andb].
  - apply bool_decide_eq_true in E1. destruct (arg t =? a) eqn:E2; bool_to_prop.
    + exists [], l. split_and!; [done..|constructor].
    + destruct (unlink_first f a l) as [[x l']|]; cbn.
      * destruct IH as (l1 & l2 & -> & -> & Hh & Hx & Hf). exists (t :: l1), l2. split_and!; try done.
        constructor; [tauto|done].
      * constructor; [tauto|done].
  - apply bool_decide_eq_false in E1. destruct (unlink_first f a l) as [[x l']|]; cbn.
    + destruct IH as (l1 & l2 & -> & -> & Hh & Hx & Hf). exists (t :: l1), l2. split_and!; try done.
      constructor; [tauto|done].
    + constructor; [tauto|done].
Qed.

Lemma sorted_remove base l1 t l2 : list_sorted base (l1 ++ t :: l2) -> list_sorted base (l1 ++ l2).
Proof.
  intros [Hw Hs]. apply Forall_app in Hw as [W1 W2]. apply Forall_cons in W2 as [_ W2].
  apply sorted_app in Hs as (S1 & S2 & S3). apply StronglySorted_inv in S2 as [S2 _].
  split; [by apply Forall_app|]. apply sorted_app. split_and!; [done|done|].
  eapply Forall_impl; [exact S3|]. cbn. intros x Hx. by apply Forall_cons in Hx as [_ Hx].
Qed.

Lemma off_add base t d :
  0 <= d -> off base t + d < 2 ^ 32 -> off base (u32 (t + d)) = off base t + d.
Proof.
  intros Hd Hb. unfold off in *. unfold u32 in *. rewrite Zminus_mod_idemp_l.
  replace (t + d - base) with (t - base + d) by lia.
  rewrite <- Z.add_mod_idemp_l by lia. apply Z.mod_small.
  pose proof (Z.mod_pos_bound (t - base) (2 ^ 32)). lia.
Qed.

(** ** Lemmas: firing *)

(** One round of sys_check_timeouts for the timeout [t]. *)
Definition fire (run : handler -> Z -> tm -> outcome tm) (t : sys_timeo) (s : tm)
  : outcome tm :=
  p ← pool_free (pool_st s) (t_addr t);
  let s := with_pool (with_due (with_list s (tl (next_timeout s))) (time t)) p in
  match h t with Some f => run f (arg t) s | None => Ret s end.

(** The rounds for a list of timeouts. *)
Fixpoint fire_list (run : handler -> Z -> tm -> outcome tm) (l : list sys_timeo) (s : tm)
  : outcome tm :=
  match l with
  | [] => Ret s
  | t :: l => s ← fire run t s; fire_list run l s
  end.

(** The timeouts that are due at [now]. *)
Definition due_part (base now : Z) (l : list sys_timeo) : list sys_timeo :=
  filter (λ t, off base (time t) <= off base now) l.

(** The clock has moved on from [now], at most up to [hi]. *)
Definition clock_ok (base now hi : Z) (s : tm) : Prop :=
  is_u32 (clock s) /\ off base now <= off base (clock s) <= hi.

(** The handler of the timeout [t] returns and keeps the module in order: it may
    add and remove timeouts, but none that is due at [now].  It is called with
    the structure of [t] given back, and its due time at hand. *)
Definition tame (run : handler -> Z -> tm -> outcome tm) (base now hi : Z) (t : sys_timeo) : Prop :=
  forall f s, h t = Some f ->
    timers_ok s -> list_sorted base (next_timeout s) -> (length (next_timeout s) < pool_cap)%nat ->
    current_timeout_due_time s = time t -> clock_ok base now hi s ->
    exists s', run f (arg t) s = Ret s' /\ timers_ok s' /\ list_sorted base (next_timeout s')
      /\ clock_ok base now hi s'
      /\ due_part base now (next_timeout s') = due_part base now (next_timeout s).

Lemma due_part_nil base now l :
  list_sorted base l -> off base now <= LWIP_MAX_TIMEOUT -> due_part base now l = [] ->
  match l with [] => True | t :: _ => TIME_LESS_THAN now (time t) = true end.
Proof.
  destruct l as [|t l]; [done|]. intros Hs Hn. unfold due_part. rewrite filter_cons. case_decide; [done|].
  intros _. destruct (sorted_tail _ _ _ Hs) as (Ht & _).
  rewrite (less_than_window base) by (done || apply Ht). lia.
Qed.

Lemma due_part_cons base now l t due :
  list_sorted base l -> off base now <= LWIP_MAX_TIMEOUT -> due_part base now l = t :: due ->
  exists rest, l = t :: rest /\ TIME_LESS_THAN now (time t) = false /\ due_part base now rest = due.
Proof.
  intros Hs Hn. destruct l as [|x l]; [done|].
  destruct (sorted_tail _ _ _ Hs) as (Hx & _ & Hmin). unfold due_part. rewrite filter_cons.
  case_decide as Hd.
  - intros [= -> <-]. exists l. split_and!; [done| |done].
    rewrite (less_than_window base) by (done || apply Hx). lia.
  - intros E. exfalso. assert (Ht : t ∈ filter (λ t, off base (time t) <= off base now) l) by (rewrite E; by left).
    apply list_elem_of_filter in Ht as [Ht Hin]. rewrite Forall_forall in Hmin. specialize (Hmin t Hin). cbn in Hmin. lia.
Qed.

Lemma fire_tame run base now hi t rest s :
  tame run base now hi t -> timers_ok s -> list_sorted base (next_timeout s) ->
  next_timeout s = t :: rest -> clock_ok base now hi s ->
  exists s', fire run t s = Ret s' /\ timers_ok s' /\ list_sorted base (next_timeout s')
    /\ clock_ok base now hi s' /\ due_part base now (next_timeout s') = due_part base now rest.
Proof.
  intros Htame Hok Hs Hl Hc. pose proof (pool_holds_cap _ _ Hok) as Hcap.
  unfold timers_ok in Hok. rewrite Hl in Hok, Hs, Hcap. cbn in Hok, Hcap. rewrite length_fmap in Hcap.
  destruct (pool_free_law _ _ _ Hok) as (p & Ef & Hp). unfold fire. rewrite Ef, Hl. cbn [mbind outcome_bind tl].
  destruct (sorted_tail _ _ _ Hs) as (_ & Hs' & _). set (s1 := with_pool _ p).
  destruct (h t) as [f|] eqn:Hf.
  - apply (Htame f s1); try done.
  - exists s1. done.
Qed.

Lemma check_loop_fire user cyc tcp pcbs cycl fuel base now hi s due :
  let run := call user cyc tcp pcbs cycl in
  off base now <= LWIP_MAX_TIMEOUT -> Forall (tame run base now hi) due ->
  timers_ok s -> list_sorted base (next_timeout s) -> clock_ok base now hi s ->
  due_part base now (next_timeout s) = due -> (length due < fuel)%nat ->
  exists s', check_loop user cyc tcp pcbs cycl fuel now s = Ret s'
    /\ fire_list run due s = Ret s' /\ timers_ok s' /\ list_sorted base (next_timeout s')
    /\ due_part base now (next_timeout s') = [].
Proof.
  intros run Hn Ht. revert s fuel. induction Ht as [|t due Ht Hts IH]; intros s fuel Hok Hs Hc Hd Hf;
    (destruct fuel as [|fuel]; [cbn in Hf; lia|]); cbn [check_loop fire_list].
  - exists s. split_and!; try done. pose proof (due_part_nil _ _ _ Hs Hn Hd) as Hr.
    destruct (next_timeout s) as [|t rest]; [done|]. by rewrite Hr.
  - destruct (due_part_cons _ _ _ _ _ Hs Hn Hd) as (rest & Hl & Htl & Hd').
    destruct (fire_tame run base now hi t rest s Ht Hok Hs Hl Hc) as (s1 & E1 & Hok1 & Hs1 & Hc1 & Hd1).
    destruct (IH s1 fuel Hok1 Hs1 Hc1) as (s2 & E2 & E3 & Hrest); [congruence|cbn in Hf; lia|].
    exists s2. split_and!; [|by rewrite E1|apply Hrest..].
    rewrite Hl, Htl. unfold fire in E1. rewrite Hl in E1. cbn [tl] in E1. cbn [pool_st with_due with_list].
    destruct (pool_free (pool_st s) (t_addr t)) as [p|]; [|done]. cbn [mbind outcome_bind] in E1 |- *.
    fold run. rewrite E1. cbn [mbind outcome_bind]. exact E2.
Qed.

(** The cyclic timers are tame, unless one is late by exactly its interval. *)
Lemma cyclic_next cyc cycl s base a ms :
  cyc (Z.to_nat a) s = Ret s -> cycl !! Z.to_nat a = Some ms ->
  timers_ok s -> list_sorted base (next_timeout s) -> 0 <= ms ->
  off base (clock s) + ms <= LWIP_MAX_TIMEOUT ->
  off base (current_timeout_due_time s) + ms <= LWIP_MAX_TIMEOUT ->
  (length (next_timeout s) < pool_cap)%nat ->
  exists addr s' T, lwip_cyclic_timer cyc cycl s a = Ret s' /\ timers_ok s'
    /\ inserted base (SysTimeo addr T (Some cyclic_timer_h) a) (next_timeout s) (next_timeout s')
    /\ list_sorted base (next_timeout s') /\ clock s' = clock s
    /\ off base T = (if off base (current_timeout_due_time s) + ms <? off base (clock s)
                     then off base (clock s) + ms else off base (current_timeout_due_time s) + ms).
Proof.
  intros Hcy Hms Hok Hs Hp Hw1 Hw2 Hcap. unfold lwip_cyclic_timer. rewrite Hms, Hcy.
  cbn [mbind outcome_bind default from_option id]. unfold sys_now, LWIP_MAX_TIMEOUT in *.
  pose proof (off_range base (clock s)). pose proof (off_range base (current_timeout_due_time s)).
  assert (E1 : off base (u32 (clock s + ms)) = off base (clock s) + ms) by (apply off_add; lia).
  assert (E2 : off base (u32 (current_timeout_due_time s + ms))
               = off base (current_timeout_due_time s) + ms) by (apply off_add; lia).
  rewrite (less_than_window base) by (unfold LWIP_MAX_TIMEOUT; unfold_c; lia). rewrite E2.
  pose (T := if off base (current_timeout_due_time s) + ms <? off base (clock s)
             then u32 (clock s + ms) else u32 (current_timeout_due_time s + ms)).
  assert (HT : off base T = if off base (current_timeout_due_time s) + ms <? off base (clock s)
             then off base (clock s) + ms else off base (current_timeout_due_time s) + ms).
  { unfold T. by case_if. }
  pose proof (timeout_abs_spec s base T (Some cyclic_timer_h) a Hok Hs) as Ht.
  rewrite decide_True in Ht by done.
  destruct Ht as (addr & s' & E & Hok' & Hins & Hs' & Hc & _).
  { unfold T. case_if; apply u32_range. }
  { rewrite HT. unfold LWIP_MAX_TIMEOUT. case_if; lia. }
  exists addr, s', T. split_and!; try done. revert E. unfold T. by case_if.
Qed.

Lemma inserted_due_part base now t l l' :
  inserted base t l l' -> off base now < off base (time t) -> due_part base now l' = due_part base now l.
Proof.
  intros (l1 & l2 & -> & -> & _) Ht. unfold due_part. rewrite !filter_app, filter_cons.
  by rewrite decide_False by lia.
Qed.

Lemma cyclic_tame user cyc tcp pcbs cycl base now hi t ms :
  (forall i s, cyc i s = Ret s) -> h t = Some cyclic_timer_h -> cycl !! Z.to_nat (arg t) = Some ms ->
  0 < ms -> hi + ms <= LWIP_MAX_TIMEOUT -> off base (time t) <= off base now ->
  off base (time t) + ms <> off base now ->
  tame (call user cyc tcp pcbs cycl) base now hi t.
Proof.
  intros Hcy Hh Hms Hp Hw Hd Hne f s Hf Hok Hs Hcap Hdue [Hc1 Hc2].
  rewrite Hh in Hf. injection Hf as <-. cbn [call].
  destruct (cyclic_next cyc cycl s base (arg t) ms) as (addr & s' & T & E & Hok' & Hins & Hs' & Hc & HT);
    rewrite ?Hdue; try done; try lia.
  assert (clock_ok base now hi s') by (unfold clock_ok; by rewrite Hc).
  exists s'. split; [done|]. split; [done|]. split; [done|]. split; [done|].
  eapply inserted_due_part; [exact Hins|]. cbn [time]. rewrite HT, Hdue. case_if; lia.
Qed.

(** ** Lemmas: start-up *)

Lemma init_loop_timers intervals i s base :
  timers_ok s -> list_sorted base (next_timeout s) -> is_u32 (clock s) ->
  Forall (λ ms, 0 <= ms <= LWIP_UINT32_MAX / 4) intervals ->
  off base (clock s) + LWIP_UINT32_MAX / 4 <= LWIP_MAX_TIMEOUT ->
  (length (next_timeout s) + length intervals <= pool_cap)%nat ->
  exists s' new, init_timers_loop intervals i s = Ret s' /\ timers_ok s'
    /\ list_sorted base (next_timeout s') /\ next_timeout s' ≡ₚ new ++ next_timeout s
    /\ Forall2 (λ t (j : nat * Z), h t = Some cyclic_timer_h /\ arg t = Z.of_nat j.1
                  /\ time t = u32 (clock s + j.2)) new
         (zip (seq i (length intervals)) intervals).
Proof.
  revert i s. induction intervals as [|ms intervals IH]; intros i s Hok Hs Hc Hi Hw Hcap.
  - exists s, []. split_and!; try done.
  - apply Forall_cons in Hi as [Hms Hi]. cbn [length] in Hcap. cbn [init_timers_loop].
    unfold sys_timeout at 1. rewrite LWIP_ASSERT_ok by (apply Z.leb_le; lia). cbn [mbind outcome_bind].
    unfold LWIP_UINT32_MAX, LWIP_MAX_TIMEOUT in *. change (0xffffffff / 4) with 1073741823 in *.
    assert (Hoff : off base (u32 (clock s + ms)) = off base (clock s) + ms) by (apply off_add; lia).
    pose proof (timeout_abs_spec s base (u32 (clock s + ms)) (Some cyclic_timer_h) i Hok Hs
                  (u32_range _)) as Ht. unfold LWIP_MAX_TIMEOUT in Ht. rewrite Hoff in Ht.
    specialize (Ht ltac:(lia)). unfold sys_now. rewrite decide_True in Ht by lia.
    destruct Ht as (addr & s1 & -> & Hok1 & Hins & Hs1 & Hc1 & _). cbn [mbind outcome_bind].
    pose proof (inserted_perm _ _ _ _ Hins) as Hp.
    destruct (IH (S i) s1) as (s' & new & E & Hok' & Hs' & Hp' & Hnew); rewrite ?Hc1; try done.
    { rewrite Hp. cbn [length]. lia. }
    exists s', (SysTimeo addr (u32 (clock s + ms)) (Some cyclic_timer_h) i :: new).
    split_and!; try done.
    + rewrite Hp', Hp. cbn. by rewrite Permutation_middle.
    + cbn. constructor; [done|]. by rewrite Hc1 in Hnew.
Qed.

(** ** Properties *)

(** C35: sys_timeout puts the new timeout behind every pending one that is due no
    later and before every one that is due later, counted on the wrapping clock
    from [base] (at most half the clock range back): the list stays sorted and
    keeps its elements, and the pool has handed out exactly the pending
    timeouts.  When the pool is empty the assertion fires. *)
Theorem sys_timeout_sorted s base ms f a :
  timers_ok s -> list_sorted base (next_timeout s) -> 0 <= ms <= LWIP_UINT32_MAX / 4 ->
  off base (clock s) + ms <= LWIP_MAX_TIMEOUT ->
  if decide (length (next_timeout s) < pool_cap)%nat then
    exists addr s' l1 l2, sys_timeout s ms f a = Ret s' /\ timers_ok s'
      /\ next_timeout s = l1 ++ l2
      /\ next_timeout s' = l1 ++ SysTimeo addr (u32 (clock s + ms)) f a :: l2
      /\ Forall (λ t, off base (time t) <= off base (clock s) + ms) l1
      /\ Forall (λ t, off base (clock s) + ms < off base (time t)) l2
      /\ list_sorted base (next_timeout s')
  else sys_timeout s ms f a
       = Trap "sys_timeout: timeout != NULL, pool MEMP_SYS_TIMEOUT is empty".
Proof.
  intros Hok Hs Hms Hw. unfold sys_timeout. rewrite LWIP_ASSERT_ok by (apply Z.leb_le; lia).
  cbn [mbind outcome_bind]. unfold sys_now, LWIP_MAX_TIMEOUT in *.
  assert (Hoff : off base (u32 (clock s + ms)) = off base (clock s) + ms) by (apply off_add; lia).
  pose proof (timeout_abs_spec s base (u32 (clock s + ms)) f a Hok Hs (u32_range _)) as Ht.
  rewrite Hoff in Ht. specialize (Ht Hw). case_decide; [|done].
  destruct Ht as (addr & s' & E & Hok' & (l1 & l2 & E1 & E2 & F1 & F2) & Hs' & _).
  cbn [time] in F1, F2. rewrite Hoff in F1, F2. exists addr, s', l1, l2. by split_and!.
Qed.

(** C36: sys_check_timeouts calls, in due order and once each, the handlers of
    exactly the timeouts that are due at the time it read, returns their
    structures to the pool and stops with none of them left.  Handlers may add and
    remove timeouts as long as those are not due already ([tame]). *)
Theorem sys_check_timeouts_fires_due user cyc tcp pcbs cycl fuel s base hi :
  let run := call user cyc tcp pcbs cycl in
  let due := due_part base (clock s) (next_timeout s) in
  Forall (tame run base (clock s) hi) due ->
  timers_ok s -> list_sorted base (next_timeout s) ->
  is_u32 (clock s) -> off base (clock s) <= hi -> off base (clock s) <= LWIP_MAX_TIMEOUT ->
  (length due < fuel)%nat ->
  exists s', sys_check_timeouts user cyc tcp pcbs cycl fuel s = Ret s'
    /\ fire_list run due s = Ret s' /\ timers_ok s' /\ list_sorted base (next_timeout s')
    /\ due_part base (clock s) (next_timeout s') = [].
Proof.
  intros run due Ht Hok Hs Hc Hhi Hw Hf.
  by apply (check_loop_fire user cyc tcp pcbs cycl fuel base (clock s) hi s due).
Qed.

(** sys_untimeout removes the first pending timeout with that handler and
    argument, and nothing else, and gives its structure back to the pool; it does
    nothing when there is none. *)
Theorem sys_untimeout_first s f a :
  timers_ok s ->
  exists s', sys_untimeout s f a = Ret s' /\ timers_ok s'
    /\ ((exists l1 t l2, next_timeout s = l1 ++ t :: l2 /\ next_timeout s' = l1 ++ l2
           /\ h t = f /\ arg t = a /\ Forall (λ x, ~ (h x = f /\ arg x = a)) l1)
        \/ (s' = s /\ Forall (λ x, ~ (h x = f /\ arg x = a)) (next_timeout s)))
    /\ (forall base, list_sorted base (next_timeout s) -> list_sorted base (next_timeout s')).
Proof.
  intros Hok. unfold sys_untimeout. pose proof (unlink_first_spec f a (next_timeout s)) as Hu.
  destruct (unlink_first f a (next_timeout s)) as [[t l]|].
  - destruct Hu as (l1 & l2 & El & -> & Hf & Ha & Hn). unfold timers_ok in Hok. rewrite El in Hok.
    eapply pool_holds_perm in Hok; [|rewrite fmap_app; cbn; symmetry; apply Permutation_middle].
    destruct (pool_free_law _ _ _ Hok) as (p & -> & Hp). cbn [mbind outcome_bind].
    eexists. split; [done|]. cbn [next_timeout with_pool with_list]. split_and!.
    + unfold timers_ok. cbn. by rewrite fmap_app.
    + left. exists l1, t, l2. done.
    + intros base. rewrite El. apply sorted_remove.
  - exists s. split_and!; auto.
Qed.

(** sys_timeouts_sleeptime never reaches its assertion; the time it returns is
    0 when the first timeout is due, and otherwise the least waiting time after
    which it is. *)
Theorem sys_timeouts_sleeptime_correct (s : tm) t rest :
  next_timeout s = t :: rest -> is_u32 (time t) -> is_u32 (clock s) ->
  exists r, sys_timeouts_sleeptime s = Ret r /\ 0 <= r <= LWIP_MAX_TIMEOUT
    /\ (r = 0 <-> TIME_LESS_THAN (clock s) (time t) = false \/ u32 (time t - clock s) = 2 ^ 31)
    /\ (forall d, 0 <= d < r -> TIME_LESS_THAN (u32 (clock s + d)) (time t) = true)
    /\ (0 < r -> TIME_LESS_THAN (u32 (clock s + r)) (time t) = false).
Proof.
  intros Hl Ht Hc. unfold sys_timeouts_sleeptime. rewrite Hl. unfold sys_now.
  unfold TIME_LESS_THAN, LWIP_MAX_TIMEOUT.
  assert (Hd : exists x, is_u32 x /\ u32 (time t - clock s) = x
    /\ u32 (clock s - time t) = (if x =? 0 then 0 else 2 ^ 32 - x)
    /\ (forall d, 0 <= d <= x -> u32 (u32 (clock s + d) - time t) = if d =? x then 0 else 2 ^ 32 - (x - d))).
  { exists (u32 (time t - clock s)). split_and!; [apply u32_range|done| |].
    - destruct (u32 (time t - clock s) =? 0) eqn:E; bool_to_prop; wrap_solve.
    - intros d Hd. destruct (d =? u32 (time t - clock s)) eqn:E; bool_to_prop; wrap_solve. }
  destruct Hd as (x & Hx & -> & -> & Hd).
  destruct (0x7fffffff <? x) eqn:E; bool_to_prop.
  - exists 0. split_and!; [done|lia|lia| |lia|lia].
    split; [intros _|done]. destruct (x =? 0) eqn:E0; bool_to_prop; [lia|].
    destruct (decide (x = 2 ^ 31)); [by right|left]. unfold_c. lia.
  - rewrite LWIP_ASSERT_ok by (apply Z.leb_le; lia). exists x. cbn [mbind outcome_bind].
    split_and!; [done|unfold_c; lia|lia| | |].
    + destruct (x =? 0) eqn:E0; bool_to_prop; [split; [by left|done]|].
      split; [lia|]. intros [Hb|Hb]; [|unfold_c; lia]. unfold_c. lia.
    + intros d Hd'. rewrite Hd by lia. replace (d =? x) with false by lia. unfold_c. lia.
    + intros _. rewrite Hd by (unfold_c; lia). by rewrite Z.eqb_refl.
Qed.

(** sys_restart_timeouts makes the first timeout due now and keeps the
    distances between the timeouts, hence the order. *)
Theorem sys_restart_timeouts_rebases (s : tm) t0 rest :
  next_timeout s = t0 :: rest -> is_u32 (clock s) -> list_sorted (time t0) (next_timeout s) ->
  let s' := sys_restart_timeouts s in
  list_sorted (clock s) (next_timeout s')
  /\ Forall2 (λ t t', off (clock s) (time t') = off (time t0) (time t)
               /\ t_addr t' = t_addr t /\ h t' = h t /\ arg t' = arg t)
       (next_timeout s) (next_timeout s').
Proof.
  intros Hl Hc [Hw Hs] s'.
  assert (Hoff : forall x, off (clock s) (u32 (u32 (x - time t0) + clock s)) = off (time t0) x).
  { intros x. unfold off, u32. rewrite Zminus_mod_idemp_l.
    replace ((x - time t0) mod 2 ^ 32 + clock s - clock s) with ((x - time t0) mod 2 ^ 32) by lia.
    by rewrite Z.mod_mod. }
  assert (El : next_timeout s' = (λ t, SysTimeo (t_addr t) (u32 (u32 (time t - time t0) + clock s)) (h t) (arg t))
                 <$> next_timeout s).
  { unfold s', sys_restart_timeouts. rewrite Hl at 1. cbn. by rewrite Hl. }
  rewrite El. generalize dependent (next_timeout s). intros l Hl Hw Hs _. clear Hl. split; [split|].
  - apply Forall_fmap. eapply Forall_impl; [exact Hw|]. intros t [_ Ht]. split; cbn; [apply u32_range|].
    by rewrite Hoff.
  - induction Hs as [|t l Hs IH Hf]; cbn; constructor.
    + apply IH. by apply Forall_cons in Hw as [_ Hw].
    + apply Forall_fmap. eapply Forall_impl; [exact Hf|]. unfold before. cbn. intros x Hx. by rewrite !Hoff.
  - apply Forall2_fmap_r. apply Forall_Forall2_diag. apply Forall_true. intros t. cbn. by rewrite Hoff.
Qed.

(** lwip_cyclic_timer keeps its period without drift: after its handler it is
    due one interval after it was due, however late it was called, and one
    interval from now only when that moment is already past. *)
Theorem lwip_cyclic_timer_no_drift cyc cycl s base a ms :
  cyc (Z.to_nat a) s = Ret s -> cycl !! Z.to_nat a = Some ms ->
  timers_ok s -> list_sorted base (next_timeout s) -> 0 <= ms ->
  off base (clock s) + ms <= LWIP_MAX_TIMEOUT ->
  off base (current_timeout_due_time s) + ms <= LWIP_MAX_TIMEOUT ->
  (length (next_timeout s) < pool_cap)%nat ->
  exists addr s' T, lwip_cyclic_timer cyc cycl s a = Ret s' /\ timers_ok s'
    /\ inserted base (SysTimeo addr T (Some cyclic_timer_h) a) (next_timeout s) (next_timeout s')
    /\ off base T = (if off base (current_timeout_due_time s) + ms <? off base (clock s)
                     then off base (clock s) + ms else off base (current_timeout_due_time s) + ms).
Proof.
  intros H1 H2 H3 H4 H5 H6 H7 H8.
  destruct (cyclic_next cyc cycl s base a ms H1 H2 H3 H4 H5 H6 H7 H8)
    as (addr & s' & T & E & Hok & Hi & _ & _ & HT). exists addr, s', T. done.
Qed.

(** sys_timeouts_init schedules every cyclic timer (all but the TCP timer when
    TCP is in) exactly once, one interval from now, in a sorted list. *)
Theorem sys_timeouts_init_correct cycl (LWIP_TCP : bool) s :
  timers_ok s -> next_timeout s = [] -> is_u32 (clock s) ->
  Forall (λ ms, 0 <= ms <= LWIP_UINT32_MAX / 4) cycl -> (length cycl <= pool_cap)%nat ->
  let i := if LWIP_TCP then 1%nat else 0%nat in
  exists s' new, sys_timeouts_init cycl LWIP_TCP s = Ret s' /\ timers_ok s'
    /\ list_sorted (clock s) (next_timeout s') /\ next_timeout s' ≡ₚ new
    /\ Forall2 (λ t (j : nat * Z), h t = Some cyclic_timer_h /\ arg t = Z.of_nat j.1
                  /\ time t = u32 (clock s + j.2)) new
         (zip (seq i (length cycl - i)) (drop i cycl)).
Proof.
  intros Hok Hl Hc Hi Hcap i. unfold sys_timeouts_init. fold i.
  destruct (init_loop_timers (drop i cycl) i s (clock s)) as (s' & new & E & Hok' & Hs' & Hp & Hnew).
  - done.
  - rewrite Hl. split; constructor.
  - done.
  - by apply Forall_drop.
  - unfold off. rewrite Z.sub_diag. vm_compute. congruence.
  - rewrite Hl, length_drop. cbn. lia.
  - exists s', new. rewrite Hl, app_nil_r in Hp. rewrite length_drop in Hnew. by split_and!.
Qed.
End Proofs.

(** ** Witnesses: the pool of memp.c, shortly before the clock wraps *)

#[local] Instance timeo_pool : ElementPool memp_state :=
  memp_element_pool two_descs 0 (MempDesc 16 3 1000) two_descs_ok eq_refl.

Definition timers0 : timers := Timers [] 0 false memp0 0xfffffff0.
Definition then_timeout (s : timers) (ms : Z) (f : handler) (a : Z) : timers :=
  match sys_timeout s ms (Some f) a with Ret s => s | Trap _ => s end.
Definition timers1 : timers := then_timeout timers0 100 (user_h 7) 1.
Definition timers2 : timers := then_timeout timers1 10 cyclic_timer_h 2.

(** The clock has moved on past both timeouts, and wrapped. *)
Definition timers3 : timers :=
  Timers (next_timeout timers2) 0 false (pool_st timers2) 100.

Lemma timers0_ok : timers_ok timers0.
Proof. exists [[]; []], []. split; [exact memp0_rep|done]. Qed.

Lemma then_timeout_ok s base ms f a :
  timers_ok s -> list_sorted base (next_timeout s) -> 0 <= ms <= LWIP_UINT32_MAX / 4 ->
  off base (clock s) + ms <= LWIP_MAX_TIMEOUT -> (length (next_timeout s) < pool_cap)%nat ->
  timers_ok (then_timeout s ms f a) /\ list_sorted base (next_timeout (then_timeout s ms f a)).
Proof.
  intros Hok Hs Hms Hw Hcap. unfold then_timeout, sys_timeout, sys_now.
  rewrite LWIP_ASSERT_ok by (apply Z.leb_le; lia). cbn [mbind outcome_bind].
  pose proof (timeout_abs_spec s base (u32 (clock s + ms)) (Some f) a Hok Hs (u32_range _)) as Ht.
  rewrite off_add, decide_True in Ht by (done || unfold LWIP_MAX_TIMEOUT in *; lia).
  destruct (Ht Hw) as (addr & s' & -> & Hok' & _ & Hs' & _). done.
Qed.

Lemma timers1_ok : timers_ok timers1 /\ list_sorted 0xfffffff0 (next_timeout timers1).
Proof.
  apply then_timeout_ok; [exact timers0_ok|split; [exact (Forall_nil_2 _)|exact (SSorted_nil _)]|vm_compute; split; congruence|vm_compute; congruence|].
  vm_compute. lia.
Qed.

Lemma timers2_ok : timers_ok timers2 /\ list_sorted 0xfffffff0 (next_timeout timers2).
Proof.
  apply then_timeout_ok; [apply timers1_ok..|vm_compute; split; congruence| |].
  - vm_compute. congruence.
  - vm_compute. lia.
Qed.

Lemma timers2_list : next_timeout timers2
  = [SysTimeo 1016 0xfffffffa (Some cyclic_timer_h) 2; SysTimeo 1032 84 (Some (user_h 7)) 1].
Proof. vm_compute. reflexivity. Qed.

Lemma timers3_ok : timers_ok timers3 /\ list_sorted 0xfffffff0 (next_timeout timers3).
Proof. exact timers2_ok. Qed.

(** A user handler that re-arms nothing, and cyclic handlers without effect on
    the timers. *)
Definition user0 (n : nat) (a : Z) (s : timers (St := memp_state)) : outcome timers := Ret s.
Definition cyc0 (i : nat) (s : timers (St := memp_state)) : outcome timers := Ret s.
Definition intervals0 : list Z := [250; 1000; 100].
Definition run0 : handler -> Z -> timers -> outcome timers := call user0 cyc0 Ret (λ _, false) intervals0.

Lemma sys_timeout_sorted_witness :
  exists addr s' l1 l2, sys_timeout timers1 10 (Some cyclic_timer_h) 2 = Ret s'
    /\ next_timeout timers1 = l1 ++ l2
    /\ next_timeout s' = l1 ++ SysTimeo addr 0xfffffffa (Some cyclic_timer_h) 2 :: l2
    /\ list_sorted 0xfffffff0 (next_timeout s').
Proof.
  pose proof (sys_timeout_sorted timers1 0xfffffff0 10 (Some cyclic_timer_h) 2
    (proj1 timers1_ok) (proj2 timers1_ok) ltac:(vm_compute; split; congruence) ltac:(vm_compute; congruence)) as Ht.
  destruct (decide _) as [_|Hno]; [|exfalso; apply Hno; vm_compute; lia].
  destruct Ht as (addr & s' & l1 & l2 & E & _ & E1 & E2 & _ & _ & Hs).
  exists addr, s', l1, l2. split_and!; [exact E|exact E1|exact E2|exact Hs].
Defined.

Lemma sys_check_timeouts_fires_due_witness :
  exists s', sys_check_timeouts user0 cyc0 Ret (λ _, false) intervals0 3 timers3 = Ret s'
    /\ fire_list run0 (next_timeout timers2) timers3 = Ret s'
    /\ due_part 0xfffffff0 100 (next_timeout s') = [].
Proof.
  assert (Hdue : due_part 0xfffffff0 (clock timers3) (next_timeout timers3) = next_timeout timers2)
    by (vm_compute; reflexivity).
  destruct (sys_check_timeouts_fires_due user0 cyc0 Ret (λ _, false) intervals0 3 timers3 0xfffffff0 1000)
    as (s' & E & Ef & _ & _ & Hd).
  - rewrite Hdue, timers2_list. repeat constructor.
    + eapply cyclic_tame with (ms := 100); try done; vm_compute; congruence.
    + intros f s Hf Hok Hs _ _ Hc. injection Hf as <-. exists s.
      exact (conj eq_refl (conj Hok (conj Hs (conj Hc eq_refl)))).
  - apply timers3_ok.
  - apply timers3_ok.
  - vm_compute; split; congruence.
  - vm_compute; congruence.
  - vm_compute; congruence.
  - rewrite Hdue. vm_compute. lia.
  - exists s'. rewrite Hdue in Ef. split_and!; [exact E|exact Ef|exact Hd].
Defined.

Lemma sys_untimeout_first_witness :
  exists s', sys_untimeout timers2 (Some (user_h 7)) 1 = Ret s' /\ timers_ok s'.
Proof.
  destruct (sys_untimeout_first timers2 (Some (user_h 7)) 1 (proj1 timers2_ok)) as (s' & E & Hok & _).
  exists s'. by split.
Defined.

Lemma sys_timeouts_sleeptime_correct_witness : sys_timeouts_sleeptime timers2 = Ret 10.
Proof.
  destruct (sys_timeouts_sleeptime_correct timers2 _ _ timers2_list) as (r & E & _);
    [vm_compute; split; congruence..|].
  rewrite E. vm_compute in E. by injection E as ->.
Defined.

Lemma sys_restart_timeouts_rebases_witness :
  list_sorted 100 (next_timeout (sys_restart_timeouts timers3)).
Proof.
  apply (sys_restart_timeouts_rebases timers3 _ _ timers2_list); [vm_compute; split; congruence|].
  change (next_timeout timers3) with (next_timeout timers2). rewrite timers2_list. split; repeat constructor; vm_compute; congruence.
Defined.

Lemma lwip_cyclic_timer_no_drift_witness :
  exists addr s' T, lwip_cyclic_timer cyc0 intervals0 timers1 2 = Ret s'
    /\ inserted 0xffffffc0 (SysTimeo addr T (Some cyclic_timer_h) 2) (next_timeout timers1) (next_timeout s').
Proof.
  destruct (lwip_cyclic_timer_no_drift cyc0 intervals0 timers1 0xffffffc0 2 100)
    as (addr & s' & T & E & _ & Hi & _).
  - reflexivity.
  - reflexivity.
  - apply timers1_ok.
  - assert (El : next_timeout timers1 = [SysTimeo 1032 84 (Some (user_h 7)) 1]) by (vm_compute; reflexivity).
    rewrite El. split; repeat constructor; vm_compute; congruence.
  - lia.
  - vm_compute; congruence.
  - vm_compute; congruence.
  - vm_compute. lia.
  - exists addr, s', T. by split.
Defined.

Lemma sys_timeouts_init_correct_witness :
  exists s' new, sys_timeouts_init intervals0 true timers0 = Ret s'
    /\ next_timeout s' ≡ₚ new /\ (arg <$> new) = [1; 2].
Proof.
  destruct (sys_timeouts_init_correct intervals0 true timers0 timers0_ok eq_refl)
    as (s' & new & E & _ & _ & Hp & Hnew).
  - vm_compute; split; congruence.
  - repeat constructor; vm_compute; congruence.
  - vm_compute. lia.
  - exists s', new. split_and!; [exact E|exact Hp|].
    cbn in Hnew. inversion Hnew as [|t1 ? ? ? (_ & Ha1 & _) Hnew' E1 E2]; subst.
    inversion Hnew' as [|t2 ? ? ? (_ & Ha2 & _) Hnew'' E3 E4]; subst. inversion Hnew''; subst.
    cbn. by rewrite Ha1, Ha2.
Defined.
