(* ===== verification/Pbuf.v ===== *)
(** * Packet buffers (src/lwip/src/core/pbuf.c, include/lwip/pbuf.h)

    The data and the operations of the pbuf module.  Pointers are numbers, NULL
    is 0.  The structures in use are the map [pbufs]; a pbuf that was given back
    is not in it any more, so that every later access is a [Trap].  The bytes of
    all payloads and of the buffers of the callers are the map [data].  Where
    the structures come from, the heap and two pools, is the interface
    [PacketMemory], which PbufMem.v builds from mem.c and memp.c.  A loop that
    follows [next] has as many rounds as there are pbufs in use, which is
    enough for every chain. *)

From S2P Require Import Prelude Def InetChksum Mem Memp.

#[local] Open Scope Z_scope.
#[local] Coercion Z.of_nat : nat >-> Z.

(** ** Options (include/lwip/opt.h) *)

Class PbufOptions := {
  PBUF_POOL_BUFSIZE : Z;
  PBUF_LINK_ENCAPSULATION_HLEN : Z;
  PBUF_LINK_HLEN : Z;
  PBUF_IP_HLEN : Z
}.

Definition NULL : Z := 0.
Definition NETIF_NO_INDEX : Z := 0.

(** ** Types (include/lwip/pbuf.h) *)

Definition PBUF_TYPE_FLAG_STRUCT_DATA_CONTIGUOUS : Z := 0x80.
Definition PBUF_TYPE_FLAG_DATA_VOLATILE : Z := 0x40.
Definition PBUF_TYPE_ALLOC_SRC_MASK : Z := 0x0F.
Definition PBUF_ALLOC_FLAG_RX : Z := 0x0100.
Definition PBUF_ALLOC_FLAG_DATA_CONTIGUOUS : Z := 0x0200.
Definition PBUF_TYPE_ALLOC_SRC_MASK_STD_HEAP : Z := 0x00.
Definition PBUF_TYPE_ALLOC_SRC_MASK_STD_MEMP_PBUF : Z := 0x01.
Definition PBUF_TYPE_ALLOC_SRC_MASK_STD_MEMP_PBUF_POOL : Z := 0x02.

Definition PBUF_RAM : Z :=
  Z.lor (Z.lor PBUF_ALLOC_FLAG_DATA_CONTIGUOUS PBUF_TYPE_FLAG_STRUCT_DATA_CONTIGUOUS)
        PBUF_TYPE_ALLOC_SRC_MASK_STD_HEAP.
Definition PBUF_ROM : Z := PBUF_TYPE_ALLOC_SRC_MASK_STD_MEMP_PBUF.
Definition PBUF_REF : Z :=
  Z.lor PBUF_TYPE_FLAG_DATA_VOLATILE PBUF_TYPE_ALLOC_SRC_MASK_STD_MEMP_PBUF.
Definition PBUF_POOL : Z :=
  Z.lor (Z.lor PBUF_ALLOC_FLAG_RX PBUF_TYPE_FLAG_STRUCT_DATA_CONTIGUOUS)
        PBUF_TYPE_ALLOC_SRC_MASK_STD_MEMP_PBUF_POOL.

Definition PBUF_FLAG_IS_CUSTOM : Z := 0x02.
Definition PBUF_FLAG_TCP_FIN : Z := 0x20.

(** struct pbuf; LWIP_PBUF_REF_T is u8_t. *)
Record pbuf := Pbuf {
  p_next : Z;
  p_payload : Z;
  p_tot_len : Z;
  p_len : Z;
  p_type_internal : Z;
  p_flags : Z;
  p_ref : Z;
  p_if_idx : Z
}.

Definition with_next (b : pbuf) (x : Z) : pbuf :=
  Pbuf x (p_payload b) (p_tot_len b) (p_len b) (p_type_internal b) (p_flags b) (p_ref b) (p_if_idx b).
Definition with_payload (b : pbuf) (x : Z) : pbuf :=
  Pbuf (p_next b) x (p_tot_len b) (p_len b) (p_type_internal b) (p_flags b) (p_ref b) (p_if_idx b).
Definition with_tot_len (b : pbuf) (x : Z) : pbuf :=
  Pbuf (p_next b) (p_payload b) x (p_len b) (p_type_internal b) (p_flags b) (p_ref b) (p_if_idx b).
Definition with_len (b : pbuf) (x : Z) : pbuf :=
  Pbuf (p_next b) (p_payload b) (p_tot_len b) x (p_type_internal b) (p_flags b) (p_ref b) (p_if_idx b).
Definition with_flags (b : pbuf) (x : Z) : pbuf :=
  Pbuf (p_next b) (p_payload b) (p_tot_len b) (p_len b) (p_type_internal b) x (p_ref b) (p_if_idx b).
Definition with_ref (b : pbuf) (x : Z) : pbuf :=
  Pbuf (p_next b) (p_payload b) (p_tot_len b) (p_len b) (p_type_internal b) (p_flags b) x (p_if_idx b).

Definition pbuf_get_allocsrc (b : pbuf) : Z := Z.land (p_type_internal b) PBUF_TYPE_ALLOC_SRC_MASK.
Definition pbuf_match_allocsrc (b : pbuf) (type : Z) : bool :=
  pbuf_get_allocsrc b =? Z.land type PBUF_TYPE_ALLOC_SRC_MASK.

(** ** Memory *)

Definition read_bytes (m : bytes) (a : Z) (n : nat) : list Z := (λ i : nat, byte m (a + i)) <$> seq 0 n.

Fixpoint write_bytes (m : bytes) (a : Z) (l : list Z) : bytes :=
  match l with
  | [] => m
  | x :: l => write_bytes (<[a := x]> m) (a + 1) l
  end.

Definition MEMCPY (m : bytes) (dst src len : Z) : bytes :=
  write_bytes m dst (read_bytes m src (Z.to_nat len)).

Section Options.
Context `{MemOptions} `{PbufOptions}.

Definition sizeof_struct_pbuf : Z := 24.
Definition SIZEOF_STRUCT_PBUF : Z := LWIP_MEM_ALIGN_SIZE sizeof_struct_pbuf.
Definition PBUF_POOL_BUFSIZE_ALIGNED : Z := LWIP_MEM_ALIGN_SIZE PBUF_POOL_BUFSIZE.

Definition PBUF_TRANSPORT_HLEN : Z := 20.
Definition PBUF_TRANSPORT : Z :=
  PBUF_LINK_ENCAPSULATION_HLEN + PBUF_LINK_HLEN + PBUF_IP_HLEN + PBUF_TRANSPORT_HLEN.
Definition PBUF_IP : Z := PBUF_LINK_ENCAPSULATION_HLEN + PBUF_LINK_HLEN + PBUF_IP_HLEN.
Definition PBUF_LINK : Z := PBUF_LINK_ENCAPSULATION_HLEN + PBUF_LINK_HLEN.
Definition PBUF_RAW_TX : Z := PBUF_LINK_ENCAPSULATION_HLEN.
Definition PBUF_RAW : Z := 0.

(** What a block of memory is, for the allocators: an element of MEMP_PBUF_POOL,
    one of MEMP_PBUF, [n] bytes of the heap, or a structure of a driver. *)
Inductive block := BPool | BRef | BHeap (n : Z) | BCustom.

#[global] Instance block_eq_dec : EqDecision block.
Proof. solve_decision. Defined.

Definition block_size (k : block) : Z :=
  match k with
  | BPool => SIZEOF_STRUCT_PBUF + PBUF_POOL_BUFSIZE_ALIGNED
  | BRef | BCustom => SIZEOF_STRUCT_PBUF
  | BHeap n => n
  end.

Definition count_blocks (k : block) (B : gmap Z block) : nat := size (filter (λ ab, ab.2 = k) B).

(** ** The memory the pbuf module works on

    [mem_holds st B]: the blocks handed out and not given back yet are those of
    [B].  The pools have a fixed number of elements; mem_malloc can fail.
    [trim_ok] is the condition under which mem_trim does not abort.
    [pm_custom_free_function st p] is the function pointer in the custom pbuf [p],
    and [pm_try_callback] is tcpip_try_callback(pbuf_free_ooseq_callback), which
    says whether the callback could be queued. *)
Class PacketMemory (St : Type) := {
  num_pool : nat;
  num_ref : nat;
  mem_holds : St -> gmap Z block -> Prop;
  pm_malloc_pool : St -> outcome (option Z * St);
  pm_free_pool : St -> Z -> outcome St;
  pm_malloc_ref : St -> outcome (option Z * St);
  pm_free_ref : St -> Z -> outcome St;
  pm_mem_malloc : St -> Z -> outcome (option Z * St);
  pm_mem_free : St -> Z -> outcome St;
  pm_mem_trim : St -> Z -> Z -> outcome (option Z * St);
  pm_custom_free_function : St -> Z -> option (St -> outcome St);
  pm_try_callback : St -> bool * St;
  trim_ok : St -> Z -> Z -> Prop;
  mem_holds_range st B a k :
    mem_holds st B -> B !! a = Some k ->
    0 < a /\ a + block_size k <= 2 ^ 63 /\ (MEM_ALIGNMENT | a);
  mem_holds_disjoint st B a k a' k' :
    mem_holds st B -> B !! a = Some k -> B !! a' = Some k' -> a <> a' ->
    a + block_size k <= a' \/ a' + block_size k' <= a;
  mem_holds_heap st B a n :
    mem_holds st B -> B !! a = Some (BHeap n) -> 0 <= n < 256 ^ sizeof_mem_size_t;
  malloc_pool_law st B :
    mem_holds st B ->
    if decide (count_blocks BPool B < num_pool)%nat then
      exists a st', pm_malloc_pool st = Ret (Some a, st') /\ B !! a = None /\ mem_holds st' (<[a := BPool]> B)
    else exists st', pm_malloc_pool st = Ret (None, st') /\ mem_holds st' B;
  malloc_ref_law st B :
    mem_holds st B ->
    if decide (count_blocks BRef B < num_ref)%nat then
      exists a st', pm_malloc_ref st = Ret (Some a, st') /\ B !! a = None /\ mem_holds st' (<[a := BRef]> B)
    else exists st', pm_malloc_ref st = Ret (None, st') /\ mem_holds st' B;
  mem_malloc_law st B n :
    mem_holds st B -> 0 <= n < 256 ^ sizeof_mem_size_t ->
    exists r st', pm_mem_malloc st n = Ret (r, st') /\
      match r with
      | Some a => exists k, n <= k /\ B !! a = None /\ mem_holds st' (<[a := BHeap k]> B)
      | None => mem_holds st' B
      end;
  free_pool_law st B a :
    mem_holds st B -> B !! a = Some BPool ->
    exists st', pm_free_pool st a = Ret st' /\ mem_holds st' (delete a B);
  free_ref_law st B a :
    mem_holds st B -> B !! a = Some BRef ->
    exists st', pm_free_ref st a = Ret st' /\ mem_holds st' (delete a B);
  mem_free_law st B a n :
    mem_holds st B -> B !! a = Some (BHeap n) ->
    exists st', pm_mem_free st a = Ret st' /\ mem_holds st' (delete a B);
  mem_trim_law st B a k n :
    mem_holds st B -> B !! a = Some (BHeap k) -> 0 <= n <= k -> trim_ok st a n ->
    exists st' k', pm_mem_trim st a n = Ret (Some a, st') /\ n <= k' <= k
      /\ mem_holds st' (<[a := BHeap k']> B);
  custom_free_law st B a :
    mem_holds st B -> B !! a = Some BCustom ->
    exists f st', pm_custom_free_function st a = Some f /\ f st = Ret st' /\ mem_holds st' (delete a B);
  try_callback_law st B : mem_holds st B -> mem_holds (pm_try_callback st).2 B
}.

End Options.

Section Operations.
Context `{MemOptions} `{PbufOptions} {St : Type} `{!PacketMemory St}.

(** ** State *)

Record pstate := PState {
  pbufs : gmap Z pbuf;
  data : bytes;
  pmem : St;
  pbuf_free_ooseq_pending : bool
}.

Definition with_pbufs (s : pstate) (m : gmap Z pbuf) : pstate :=
  PState m (data s) (pmem s) (pbuf_free_ooseq_pending s).
Definition with_data (s : pstate) (d : bytes) : pstate :=
  PState (pbufs s) d (pmem s) (pbuf_free_ooseq_pending s).
Definition with_pmem (s : pstate) (st : St) : pstate :=
  PState (pbufs s) (data s) st (pbuf_free_ooseq_pending s).
Definition with_pending (s : pstate) (b : bool) : pstate := PState (pbufs s) (data s) (pmem s) b.

(** The structure a pointer refers to, and an assignment to it. *)
Definition deref (s : pstate) (p : Z) : outcome pbuf :=
  match pbufs s !! p with Some b => Ret b | None => Trap "invalid pointer to struct pbuf" end.
Definition set_pbuf (s : pstate) (p : Z) (b : pbuf) : pstate := with_pbufs s (<[p := b]> (pbufs s)).

(** The rounds of a loop over a chain. *)
Definition chain_fuel (s : pstate) : nat := S (size (pbufs s)).

(** ** Allocation and reference counting *)

Definition pbuf_pool_is_empty (s : pstate) : pstate :=
  let queued := pbuf_free_ooseq_pending s in
  let s := with_pending s true in
  if negb queued then
    let '(ok, st) := pm_try_callback (pmem s) in
    let s := with_pmem s st in
    if ok then s else with_pending s false
  else s.

Definition pbuf_init_alloced_pbuf (s : pstate) (p payload tot_len len type flags : Z) : pstate :=
  set_pbuf s p (Pbuf NULL payload tot_len len (u8 type) flags 1 NETIF_NO_INDEX).

(** Giving the memory of the pbuf [p] with the contents [b] back. *)
Definition pbuf_dealloc (s : pstate) (p : Z) (b : pbuf) : outcome pstate :=
  let alloc_src := pbuf_get_allocsrc b in
  st ← (if negb (Z.land (p_flags b) PBUF_FLAG_IS_CUSTOM =? 0) then
          match pm_custom_free_function (pmem s) p with
          | None => Trap "pc->custom_free_function != NULL"
          | Some f => f (pmem s)
          end
        else if alloc_src =? PBUF_TYPE_ALLOC_SRC_MASK_STD_MEMP_PBUF_POOL then pm_free_pool (pmem s) p
        else if alloc_src =? PBUF_TYPE_ALLOC_SRC_MASK_STD_MEMP_PBUF then pm_free_ref (pmem s) p
        else if alloc_src =? PBUF_TYPE_ALLOC_SRC_MASK_STD_HEAP then pm_mem_free (pmem s) p
        else Trap "invalid pbuf type");
  Ret (with_pmem (with_pbufs s (delete p (pbufs s))) st).

Fixpoint free_loop (fuel : nat) (s : pstate) (p count : Z) : outcome (Z * pstate) :=
  if p =? NULL then Ret (count, s)
  else
    match fuel with
    | O => Trap "pbuf_free: fuel"
    | S fuel =>
        b ← deref s p;
        LWIP_ASSERT "pbuf_free: p->ref > 0" (0 <? p_ref b);;
        let ref := u8 (p_ref b - 1) in
        let s := set_pbuf s p (with_ref b ref) in
        if ref =? 0 then
          let q := p_next b in
          s ← pbuf_dealloc s p b;
          free_loop fuel s q (u8 (count + 1))
        else Ret (count, s)
    end.

Definition pbuf_free (s : pstate) (p : Z) : outcome (Z * pstate) :=
  if p =? NULL then Trap "p != NULL"
  else free_loop (chain_fuel s) s p 0.

Definition pbuf_alloc_reference (s : pstate) (payload length type : Z) : outcome (Z * pstate) :=
  LWIP_ASSERT "invalid pbuf_type" ((type =? PBUF_REF) || (type =? PBUF_ROM));;
  '(p, st) ← pm_malloc_ref (pmem s);
  let s := with_pmem s st in
  match p with
  | None => Ret (NULL, s)
  | Some p => Ret (p, pbuf_init_alloced_pbuf s p payload length length type 0)
  end.

(** The loop of the case PBUF_POOL; [p] is the head of the chain so far, [last]
    its last pbuf. *)
Fixpoint alloc_pool_loop (fuel : nat) (s : pstate) (type p last rem_len offset : Z)
  : outcome (Z * pstate) :=
  match fuel with
  | O => Trap "pbuf_alloc: fuel"
  | S fuel =>
      '(q, st) ← pm_malloc_pool (pmem s);
      let s := with_pmem s st in
      match q with
      | None =>
          let s := pbuf_pool_is_empty s in
          s ← (if negb (p =? NULL) then '(_, s) ← pbuf_free s p; Ret s else Ret s);
          Ret (NULL, s)
      | Some q =>
          let room := u32 (PBUF_POOL_BUFSIZE_ALIGNED - LWIP_MEM_ALIGN_SIZE offset) in
          let qlen := Z.min rem_len (u16 room) in
          let payload := LWIP_MEM_ALIGN (q + SIZEOF_STRUCT_PBUF + offset) in
          let s := pbuf_init_alloced_pbuf s q payload rem_len qlen type 0 in
          LWIP_ASSERT "pbuf_alloc: pbuf q->payload properly aligned" (payload mod MEM_ALIGNMENT =? 0);;
          LWIP_ASSERT "PBUF_POOL_BUFSIZE must be bigger than MEM_ALIGNMENT" (0 <? room);;
          s ← (if p =? NULL then Ret s
               else b ← deref s last; Ret (set_pbuf s last (with_next b q)));
          let p := if p =? NULL then q else p in
          let rem_len := u16 (rem_len - qlen) in
          if 0 <? rem_len then alloc_pool_loop fuel s type p q rem_len 0
          else Ret (p, s)
      end
  end.

(** The case PBUF_RAM. *)
Definition alloc_ram (s : pstate) (offset length type : Z) : outcome (Z * pstate) :=
  let payload_len := u16 (u32 (LWIP_MEM_ALIGN_SIZE offset + LWIP_MEM_ALIGN_SIZE length)) in
  let alloc_len := mem_size_t (u32 (LWIP_MEM_ALIGN_SIZE SIZEOF_STRUCT_PBUF + payload_len)) in
  if (payload_len <? LWIP_MEM_ALIGN_SIZE length) || (alloc_len <? LWIP_MEM_ALIGN_SIZE length)
  then Ret (NULL, s)
  else
    '(p, st) ← pm_mem_malloc (pmem s) alloc_len;
    let s := with_pmem s st in
    match p with
    | None => Ret (NULL, s)
    | Some p =>
        let payload := LWIP_MEM_ALIGN (p + SIZEOF_STRUCT_PBUF + offset) in
        let s := pbuf_init_alloced_pbuf s p payload length length type 0 in
        LWIP_ASSERT "pbuf_alloc: pbuf->payload properly aligned" (payload mod MEM_ALIGNMENT =? 0);;
        Ret (p, s)
    end.

Definition pbuf_alloc (s : pstate) (layer length type : Z) : outcome (Z * pstate) :=
  let offset := u16 layer in
  if (type =? PBUF_REF) || (type =? PBUF_ROM) then pbuf_alloc_reference s NULL length type
  else if type =? PBUF_POOL then alloc_pool_loop (S (Z.to_nat length)) s type NULL NULL length offset
  else if type =? PBUF_RAM then alloc_ram s offset length type
  else Trap "pbuf_alloc: erroneous type".

(** [p] is the structure of the caller. *)
Definition pbuf_alloced_custom (s : pstate) (l length type p payload_mem payload_mem_len : Z) : Z * pstate :=
  let offset := u16 l in
  if payload_mem_len <? u32 (LWIP_MEM_ALIGN_SIZE offset + length) then (NULL, s)
  else
    let payload :=
      if negb (payload_mem =? NULL) then payload_mem + LWIP_MEM_ALIGN_SIZE offset else NULL in
    (p, pbuf_init_alloced_pbuf s p payload length length type PBUF_FLAG_IS_CUSTOM).

Definition pbuf_ref (s : pstate) (p : Z) : outcome pstate :=
  if negb (p =? NULL) then
    b ← deref s p;
    let ref := u8 (p_ref b + 1) in
    let s := set_pbuf s p (with_ref b ref) in
    LWIP_ASSERT "pbuf ref overflow" (0 <? ref);;
    Ret s
  else Ret s.

(** ** Headers *)

Definition pbuf_add_header_impl (s : pstate) (p header_size_increment : Z) (force : bool)
  : outcome (Z * pstate) :=
  LWIP_ASSERT "p != NULL" (negb (p =? NULL));;
  if (p =? NULL) || (0xFFFF <? header_size_increment) then Ret (1, s)
  else if header_size_increment =? 0 then Ret (0, s)
  else
    b ← deref s p;
    let increment_magnitude := u16 header_size_increment in
    if u16 (increment_magnitude + p_tot_len b) <? increment_magnitude then Ret (1, s)
    else
      let payload := p_payload b - header_size_increment in
      let modify :=
        set_pbuf s p
          (with_tot_len (with_len (with_payload b payload) (u16 (p_len b + increment_magnitude)))
             (u16 (p_tot_len b + increment_magnitude))) in
      if negb (Z.land (p_type_internal b) PBUF_TYPE_FLAG_STRUCT_DATA_CONTIGUOUS =? 0) then
        if payload <? p + SIZEOF_STRUCT_PBUF then Ret (1, s) else Ret (0, modify)
      else if force then Ret (0, modify)
      else Ret (1, s).

Definition pbuf_add_header (s : pstate) (p header_size_increment : Z) : outcome (Z * pstate) :=
  pbuf_add_header_impl s p header_size_increment false.
Definition pbuf_add_header_force (s : pstate) (p header_size_increment : Z) : outcome (Z * pstate) :=
  pbuf_add_header_impl s p header_size_increment true.

Definition pbuf_remove_header (s : pstate) (p header_size_decrement : Z) : outcome (Z * pstate) :=
  LWIP_ASSERT "p != NULL" (negb (p =? NULL));;
  if (p =? NULL) || (0xFFFF <? header_size_decrement) then Ret (1, s)
  else if header_size_decrement =? 0 then Ret (0, s)
  else
    b ← deref s p;
    let increment_magnitude := u16 header_size_decrement in
    LWIP_ERROR "increment_magnitude <= p->len" (increment_magnitude <=? p_len b);;
    Ret (0, set_pbuf s p
              (with_tot_len (with_len (with_payload b (p_payload b + header_size_decrement))
                                      (u16 (p_len b - increment_magnitude)))
                 (u16 (p_tot_len b - increment_magnitude)))).

(** [header_size_increment] is an s16_t. *)
Definition pbuf_header_impl (s : pstate) (p header_size_increment : Z) (force : bool)
  : outcome (Z * pstate) :=
  if header_size_increment <? 0 then pbuf_remove_header s p (- header_size_increment)
  else pbuf_add_header_impl s p header_size_increment force.

Definition pbuf_header (s : pstate) (p header_size_increment : Z) : outcome (Z * pstate) :=
  pbuf_header_impl s p header_size_increment false.
Definition pbuf_header_force (s : pstate) (p header_size_increment : Z) : outcome (Z * pstate) :=
  pbuf_header_impl s p header_size_increment true.

Fixpoint free_header_loop (fuel : nat) (s : pstate) (p free_left : Z) : outcome (Z * pstate) :=
  if (free_left =? 0) || (p =? NULL) then Ret (p, s)
  else
    match fuel with
    | O => Trap "pbuf_free_header: fuel"
    | S fuel =>
        b ← deref s p;
        if p_len b <=? free_left then
          let f := p in
          let s := set_pbuf s f (with_next b NULL) in
          '(_, s) ← pbuf_free s f;
          free_header_loop fuel s (p_next b) (u16 (free_left - p_len b))
        else
          '(_, s) ← pbuf_remove_header s p free_left;
          free_header_loop fuel s p 0
    end.

Definition pbuf_free_header (s : pstate) (q size : Z) : outcome (Z * pstate) :=
  free_header_loop (chain_fuel s) s q size.

(** ** Chains *)

Fixpoint clen_loop (fuel : nat) (s : pstate) (p len : Z) : outcome Z :=
  if p =? NULL then Ret len
  else
    match fuel with
    | O => Trap "pbuf_clen: fuel"
    | S fuel => b ← deref s p; clen_loop fuel s (p_next b) (u16 (len + 1))
    end.

Definition pbuf_clen (s : pstate) (p : Z) : outcome Z := clen_loop (chain_fuel s) s p 0.

(** The for loop of pbuf_cat: the last pbuf of the chain. *)
Fixpoint cat_loop (fuel : nat) (s : pstate) (p t : Z) : outcome (Z * pstate) :=
  match fuel with
  | O => Trap "pbuf_cat: fuel"
  | S fuel =>
      b ← deref s p;
      if p_next b =? NULL then Ret (p, s)
      else
        tb ← deref s t;
        cat_loop fuel (set_pbuf s p (with_tot_len b (u16 (p_tot_len b + p_tot_len tb)))) (p_next b) t
  end.

Definition pbuf_cat (s : pstate) (h t : Z) : outcome pstate :=
  LWIP_ERROR "(h != NULL) && (t != NULL) (programmer violates API)"
    (negb (h =? NULL) && negb (t =? NULL));;
  '(p, s) ← cat_loop (chain_fuel s) s h t;
  b ← deref s p;
  LWIP_ASSERT "p->tot_len == p->len (of last pbuf in chain)" (p_tot_len b =? p_len b);;
  LWIP_ASSERT "p->next == NULL" (p_next b =? NULL);;
  tb ← deref s t;
  Ret (set_pbuf s p (with_next (with_tot_len b (u16 (p_tot_len b + p_tot_len tb))) t)).

Definition pbuf_chain (s : pstate) (h t : Z) : outcome pstate :=
  s ← pbuf_cat s h t;
  pbuf_ref s t.

Definition pbuf_dechain (s : pstate) (p : Z) : outcome (Z * pstate) :=
  b ← deref s p;
  let q := p_next b in
  '(tail_gone, s) ← (if negb (q =? NULL) then
      qb ← deref s q;
      LWIP_ASSERT "p->tot_len == p->len + q->tot_len" (p_tot_len qb =? p_tot_len b - p_len b);;
      let s := set_pbuf s q (with_tot_len qb (u16 (p_tot_len b - p_len b))) in
      b ← deref s p;
      let s := set_pbuf s p (with_tot_len (with_next b NULL) (p_len b)) in
      pbuf_free s q
    else Ret (1, s));
  b ← deref s p;
  LWIP_ASSERT "p->tot_len == p->len" (p_tot_len b =? p_len b);;
  Ret (if 0 <? tail_gone then NULL else q, s).

(** The while loop of pbuf_realloc: the new last pbuf and its length. *)
Fixpoint realloc_loop (fuel : nat) (s : pstate) (q rem_len shrink : Z) : outcome (Z * Z * pstate) :=
  match fuel with
  | O => Trap "pbuf_realloc: fuel"
  | S fuel =>
      b ← deref s q;
      if p_len b <? rem_len then
        let s := set_pbuf s q (with_tot_len b (u16 (p_tot_len b - shrink))) in
        LWIP_ASSERT "pbuf_realloc: q != NULL" (negb (p_next b =? NULL));;
        realloc_loop fuel s (p_next b) (u16 (rem_len - p_len b)) shrink
      else Ret (q, rem_len, s)
  end.

Definition pbuf_realloc (s : pstate) (p new_len : Z) : outcome pstate :=
  LWIP_ASSERT "pbuf_realloc: p != NULL" (negb (p =? NULL));;
  b ← deref s p;
  if p_tot_len b <=? new_len then Ret s
  else
    let shrink := u16 (p_tot_len b - new_len) in
    '(q, rem_len, s) ← realloc_loop (chain_fuel s) s p new_len shrink;
    b ← deref s q;
    '(q, s) ← (if pbuf_match_allocsrc b PBUF_TYPE_ALLOC_SRC_MASK_STD_HEAP && negb (rem_len =? p_len b)
                  && (Z.land (p_flags b) PBUF_FLAG_IS_CUSTOM =? 0) then
                 '(r, st) ← pm_mem_trim (pmem s) q (mem_size_t (p_payload b - q + rem_len));
                 match r with
                 | None => Trap "mem_trim returned q == NULL"
                 | Some q => Ret (q, with_pmem s st)
                 end
               else Ret (q, s));
    b ← deref s q;
    let b := with_tot_len (with_len b rem_len) rem_len in
    let s := set_pbuf s q b in
    s ← (if negb (p_next b =? NULL) then '(_, s) ← pbuf_free s (p_next b); Ret s else Ret s);
    b ← deref s q;
    Ret (set_pbuf s q (with_next b NULL)).

(** ** Copying *)

(** pbuf_copy() does not allow packet queues: the check on a pbuf it goes on to. *)
Definition no_queue (s : pstate) (p : Z) : outcome unit :=
  if negb (p =? NULL) then
    b ← deref s p;
    if p_len b =? p_tot_len b then
      LWIP_ERROR "pbuf_copy() does not allow packet queues!" (p_next b =? NULL)
    else Ret tt
  else Ret tt.

Fixpoint copy_loop (fuel : nat) (s : pstate) (p_to p_from offset_to offset_from : Z)
  : outcome (err_t * pstate) :=
  match fuel with
  | O => Trap "pbuf_copy: fuel"
  | S fuel =>
      bt ← deref s p_to;
      bf ← deref s p_from;
      let len :=
        if size_t (p_len bf - offset_from) <=? size_t (p_len bt - offset_to)
        then size_t (p_len bf - offset_from) else size_t (p_len bt - offset_to) in
      let s := with_data s (MEMCPY (data s) (p_payload bt + offset_to) (p_payload bf + offset_from) len) in
      let offset_to := size_t (offset_to + len) in
      let offset_from := size_t (offset_from + len) in
      LWIP_ASSERT "offset_to <= p_to->len" (offset_to <=? p_len bt);;
      LWIP_ASSERT "offset_from <= p_from->len" (offset_from <=? p_len bf);;
      let '(offset_from, p_from) :=
        if p_len bf <=? offset_from then (0, p_next bf) else (offset_from, p_from) in
      '(offset_to, p_to) ← (if offset_to =? p_len bt then
          LWIP_ERROR "p_to != NULL" (negb (p_next bt =? NULL) || (p_from =? NULL));;
          Ret (0, p_next bt)
        else Ret (offset_to, p_to));
      no_queue s p_from;;
      no_queue s p_to;;
      if negb (p_from =? NULL) then copy_loop fuel s p_to p_from offset_to offset_from
      else Ret (ERR_OK, s)
  end.

Definition pbuf_copy (s : pstate) (p_to p_from : Z) : outcome (err_t * pstate) :=
  LWIP_ERROR "pbuf_copy: target not big enough to hold source"
    (negb (p_to =? NULL) && negb (p_from =? NULL));;
  bt ← deref s p_to;
  bf ← deref s p_from;
  LWIP_ERROR "pbuf_copy: target not big enough to hold source" (p_tot_len bf <=? p_tot_len bt);;
  copy_loop (chain_fuel s + chain_fuel s) s p_to p_from 0 0.

Fixpoint copy_partial_loop (fuel : nat) (s : pstate) (p dataptr len offset left copied_total : Z)
  : outcome (Z * pstate) :=
  if (len =? 0) || (p =? NULL) then Ret (copied_total, s)
  else
    match fuel with
    | O => Trap "pbuf_copy_partial: fuel"
    | S fuel =>
        b ← deref s p;
        if negb (offset =? 0) && (p_len b <=? offset) then
          copy_partial_loop fuel s (p_next b) dataptr len (u16 (offset - p_len b)) left copied_total
        else
          let buf_copy_len := u16 (p_len b - offset) in
          let buf_copy_len := if len <? buf_copy_len then len else buf_copy_len in
          let s := with_data s (MEMCPY (data s) (dataptr + left) (p_payload b + offset) buf_copy_len) in
          copy_partial_loop fuel s (p_next b) dataptr (u16 (len - buf_copy_len)) 0
            (u16 (left + buf_copy_len)) (u16 (copied_total + buf_copy_len))
    end.

Definition pbuf_copy_partial (s : pstate) (buf dataptr len offset : Z) : outcome (Z * pstate) :=
  LWIP_ERROR "pbuf_copy_partial: invalid buf" (negb (buf =? NULL));;
  LWIP_ERROR "pbuf_copy_partial: invalid dataptr" (negb (dataptr =? NULL));;
  copy_partial_loop (chain_fuel s) s buf dataptr len offset 0 0.

(** pbuf_skip_const: the pbuf and the offset in it. *)
Fixpoint skip_loop (fuel : nat) (s : pstate) (q offset_left : Z) : outcome (Z * Z) :=
  if q =? NULL then Ret (q, offset_left)
  else
    match fuel with
    | O => Trap "pbuf_skip: fuel"
    | S fuel =>
        b ← deref s q;
        if p_len b <=? offset_left then skip_loop fuel s (p_next b) (u16 (offset_left - p_len b))
        else Ret (q, offset_left)
    end.

Definition pbuf_skip_const (s : pstate) (in_ in_offset : Z) : outcome (Z * Z) :=
  skip_loop (chain_fuel s) s in_ in_offset.
Definition pbuf_skip (s : pstate) (in_ in_offset : Z) : outcome (Z * Z) :=
  pbuf_skip_const s in_ in_offset.

Definition pbuf_get_contiguous (s : pstate) (p buffer bufsize len offset : Z) : outcome (Z * pstate) :=
  LWIP_ERROR "pbuf_get_contiguous: invalid buf" (negb (p =? NULL));;
  LWIP_ERROR "pbuf_get_contiguous: invalid dataptr" (negb (buffer =? NULL));;
  LWIP_ERROR "pbuf_get_contiguous: invalid dataptr" (len <=? bufsize);;
  '(q, out_offset) ← pbuf_skip_const s p offset;
  if negb (q =? NULL) then
    b ← deref s q;
    if out_offset + len <=? p_len b then Ret (p_payload b + out_offset, s)
    else
      '(copied, s) ← pbuf_copy_partial s q buffer len out_offset;
      if negb (copied =? len) then Ret (NULL, s) else Ret (buffer, s)
  else Ret (NULL, s).

Fixpoint take_loop (fuel : nat) (s : pstate) (p dataptr total_copy_len copied_total : Z)
  : outcome (Z * pstate) :=
  if total_copy_len =? 0 then Ret (copied_total, s)
  else
    match fuel with
    | O => Trap "pbuf_take: fuel"
    | S fuel =>
        LWIP_ASSERT "pbuf_take: invalid pbuf" (negb (p =? NULL));;
        b ← deref s p;
        let buf_copy_len := if p_len b <? total_copy_len then p_len b else total_copy_len in
        let s := with_data s (MEMCPY (data s) (p_payload b) (dataptr + copied_total) buf_copy_len) in
        take_loop fuel s (p_next b) dataptr (size_t (total_copy_len - buf_copy_len))
          (size_t (copied_total + buf_copy_len))
    end.

Definition pbuf_take (s : pstate) (buf dataptr len : Z) : outcome (err_t * pstate) :=
  LWIP_ERROR "pbuf_take: invalid buf" (negb (buf =? NULL));;
  LWIP_ERROR "pbuf_take: invalid dataptr" (negb (dataptr =? NULL));;
  b ← deref s buf;
  LWIP_ERROR "pbuf_take: buf not large enough" (len <=? p_tot_len b);;
  '(copied_total, s) ← take_loop (chain_fuel s) s buf dataptr len 0;
  LWIP_ASSERT "did not copy all data" (copied_total =? len);;
  Ret (ERR_OK, s).

Definition pbuf_take_at (s : pstate) (buf dataptr len offset : Z) : outcome (err_t * pstate) :=
  '(q, target_offset) ← pbuf_skip s buf offset;
  if negb (q =? NULL) then
    b ← deref s q;
    if target_offset + len <=? p_tot_len b then
      LWIP_ASSERT "check pbuf_skip result" (target_offset <? p_len b);;
      let first_copy_len := u16 (Z.min (p_len b - target_offset) len) in
      let s := with_data s (MEMCPY (data s) (p_payload b + target_offset) dataptr first_copy_len) in
      let remaining_len := u16 (len - first_copy_len) in
      let src_ptr := dataptr + first_copy_len in
      if 0 <? remaining_len then pbuf_take s (p_next b) src_ptr remaining_len
      else Ret (ERR_OK, s)
    else Ret (ERR_MEM, s)
  else Ret (ERR_MEM, s).

Definition pbuf_clone (s : pstate) (layer type p : Z) : outcome (Z * pstate) :=
  b ← deref s p;
  '(q, s) ← pbuf_alloc s layer (p_tot_len b) type;
  if q =? NULL then Ret (NULL, s)
  else
    '(err, s) ← pbuf_copy s q p;
    LWIP_ASSERT "pbuf_copy failed" (bool_decide (err = ERR_OK));;
    Ret (q, s).

Definition pbuf_coalesce (s : pstate) (p layer : Z) : outcome (Z * pstate) :=
  b ← deref s p;
  if p_next b =? NULL then Ret (p, s)
  else
    '(q, s) ← pbuf_clone s layer PBUF_RAM p;
    if q =? NULL then Ret (p, s)
    else '(_, s) ← pbuf_free s p; Ret (q, s).

Definition pbuf_fill_chksum (s : pstate) (p start_offset dataptr len chksum : Z)
  : outcome (err_t * Z * pstate) :=
  LWIP_ASSERT "p != NULL" (negb (p =? NULL));;
  LWIP_ASSERT "dataptr != NULL" (negb (dataptr =? NULL));;
  LWIP_ASSERT "len != 0" (negb (len =? 0));;
  b ← deref s p;
  if (p_len b <=? start_offset) || (p_len b <? start_offset + len) then Ret (ERR_ARG, chksum, s)
  else
    let dst_ptr := p_payload b + start_offset in
    let '(bs, copy_chksum) := lwip_chksum_copy dst_ptr (read_bytes (data s) dataptr (Z.to_nat len)) in
    let s := with_data s (write_bytes (data s) dst_ptr bs) in
    let copy_chksum :=
      if negb (Z.land start_offset 1 =? 0) then u16 (SWAP_BYTES_IN_WORD copy_chksum) else copy_chksum in
    let acc := u32 (chksum + copy_chksum) in
    Ret (ERR_OK, u16 (FOLD_U32T acc), s).

(** ** Single bytes and comparisons *)

Definition pbuf_try_get_at (s : pstate) (p offset : Z) : outcome Z :=
  '(q, q_idx) ← pbuf_skip_const s p offset;
  if negb (q =? NULL) then
    b ← deref s q;
    if q_idx <? p_len b then Ret (byte (data s) (p_payload b + q_idx)) else Ret (-1)
  else Ret (-1).

Definition pbuf_get_at (s : pstate) (p offset : Z) : outcome Z :=
  ret ← pbuf_try_get_at s p offset;
  if 0 <=? ret then Ret (u8 ret) else Ret 0.

Definition pbuf_put_at (s : pstate) (p offset x : Z) : outcome pstate :=
  '(q, q_idx) ← pbuf_skip s p offset;
  if negb (q =? NULL) then
    b ← deref s q;
    if q_idx <? p_len b then Ret (with_data s (<[p_payload b + q_idx := x]> (data s))) else Ret s
  else Ret s.

(** The for loop of pbuf_memcmp, from [i] on, [todo] rounds left. *)
Fixpoint memcmp_loop (todo : nat) (s : pstate) (q start s2 i : Z) : outcome Z :=
  match todo with
  | O => Ret 0
  | S todo =>
      a ← pbuf_get_at s q (u16 (start + i));
      let b := byte (data s) (s2 + i) in
      if negb (a =? b) then Ret (u16 (Z.min (i + 1) 0xFFFF))
      else memcmp_loop todo s q start s2 (u16 (i + 1))
  end.

(** The loop to the pbuf with the offset is that of pbuf_skip_const. *)
Definition pbuf_memcmp (s : pstate) (p offset s2 n : Z) : outcome Z :=
  b ← deref s p;
  if p_tot_len b <? offset + n then Ret 0xffff
  else
    '(q, start) ← skip_loop (chain_fuel s) s p offset;
    memcmp_loop (Z.to_nat n) s q start s2 0.

Fixpoint memfind_loop (fuel : nat) (s : pstate) (p mem mem_len max_cmp_start i : Z) : outcome Z :=
  if i <=? max_cmp_start then
    match fuel with
    | O => Trap "pbuf_memfind: fuel"
    | S fuel =>
        plus ← pbuf_memcmp s p i mem mem_len;
        if plus =? 0 then Ret i
        else memfind_loop fuel s p mem mem_len max_cmp_start (u16 (i + 1))
    end
  else Ret 0xFFFF.

Definition pbuf_memfind (s : pstate) (p mem mem_len start_offset : Z) : outcome Z :=
  b ← deref s p;
  let max_cmp_start := u16 (p_tot_len b - mem_len) in
  if mem_len + start_offset <=? p_tot_len b
  then memfind_loop (Z.to_nat 0x10000) s p mem mem_len max_cmp_start start_offset
  else Ret 0xFFFF.

(** strlen, as far as [bound]. *)
Fixpoint strlen (bound : nat) (m : bytes) (a : Z) : Z :=
  match bound with
  | O => 0
  | S bound => if byte m a =? 0 then 0 else 1 + strlen bound m (a + 1)
  end.

Definition pbuf_strstr (s : pstate) (p substr : Z) : outcome Z :=
  b ← deref s p;
  if (substr =? NULL) || (byte (data s) substr =? 0) || (p_tot_len b =? 0xFFFF) then Ret 0xFFFF
  else
    let substr_len := strlen (Z.to_nat 0xFFFF) (data s) substr in
    if 0xFFFF <=? substr_len then Ret 0xFFFF
    else pbuf_memfind s p substr (u16 substr_len) 0.

(** ** Splitting (LWIP_WND_SCALE) *)

(** The first loop: the last pbuf before the sum of the lengths overflows, and the
    next one. *)
Fixpoint split_find_loop (fuel : nat) (s : pstate) (tot_len_front i r : Z) : outcome (Z * Z) :=
  if r =? NULL then Ret (i, r)
  else
    match fuel with
    | O => Trap "pbuf_split_64k: fuel"
    | S fuel =>
        rb ← deref s r;
        if tot_len_front <=? u16 (tot_len_front + p_len rb)
        then split_find_loop fuel s (u16 (tot_len_front + p_len rb)) r (p_next rb)
        else Ret (i, r)
    end.

Fixpoint split_tot_loop (fuel : nat) (s : pstate) (i r : Z) : outcome pstate :=
  if i =? NULL then Ret s
  else
    match fuel with
    | O => Trap "pbuf_split_64k: fuel"
    | S fuel =>
        ib ← deref s i;
        rb ← deref s r;
        let tot_len := u16 (p_tot_len ib - p_tot_len rb) in
        let s := set_pbuf s i (with_tot_len ib tot_len) in
        LWIP_ASSERT "tot_len/len mismatch in last pbuf"
          (negb (p_next ib =? NULL) || (tot_len =? p_len ib));;
        split_tot_loop fuel s (p_next ib) r
    end.

(** The result is [*rest]. *)
Definition pbuf_split_64k (s : pstate) (p : Z) : outcome (Z * pstate) :=
  if p =? NULL then Ret (NULL, s)
  else
    b ← deref s p;
    if p_next b =? NULL then Ret (NULL, s)
    else
      '(i, r) ← split_find_loop (chain_fuel s) s (p_len b) p (p_next b);
      ib ← deref s i;
      let s := set_pbuf s i (with_next ib NULL) in
      if negb (r =? NULL) then
        s ← split_tot_loop (chain_fuel s) s p r;
        b ← deref s p;
        if negb (Z.land (p_flags b) PBUF_FLAG_TCP_FIN =? 0) then
          rb ← deref s r;
          Ret (r, set_pbuf s r (with_flags rb (Z.lor (p_flags rb) PBUF_FLAG_TCP_FIN)))
        else Ret (r, s)
      else Ret (NULL, s).

End Operations.
