(* ===== verification/PbufMem.v ===== *)
(** * The memory of the pbuf module (src/lwip/src/core/mem.c, memp.c)

    The interface [PacketMemory] of Pbuf.v, built from the heap of Mem.v and the
    pools of Memp.v: PBUF_RAM pbufs come from mem_malloc, pool pbufs and
    references from two pools, and custom pbufs from a third one whose free
    function is memp_free, as the zero-copy example of the manual has it.  Where
    the heap and the pools lie is a parameter. *)

From S2P Require Import Prelude Def InetChksum Mem Memp Pbuf.

#[local] Open Scope Z_scope.
#[local] Coercion Z.of_nat : nat >-> Z.

(** ** Layout *)

(** The address of the heap, the pools, and which of them are MEMP_PBUF_POOL,
    MEMP_PBUF and the pool of the driver; the length of the mailbox of the
    tcpip thread. *)
Class PbufLayout := {
  heap_base : Z;
  pool_descs : list memp_desc;
  t_pool : nat;
  t_ref : nat;
  t_custom : nat;
  mbox_size : nat
}.

Definition slots `{PbufLayout} : list (nat * block) := [(t_pool, BPool); (t_ref, BRef); (t_custom, BCustom)].

Class PbufLayoutOk `{MemOptions} `{PbufOptions} `{PbufLayout} := {
  layout_descs : descs_ok pool_descs;
  layout_slots : NoDup slots.*1;
  layout_sizes t k : (t, k) ∈ slots ->
    exists d, pool_descs !! t = Some d /\ 0 < block_size k <= d_size d;
  layout_heap : 0 < heap_base /\ (MEM_ALIGNMENT | heap_base) /\ heap_base + MEM_SIZE_ALIGNED <= 2 ^ 63;
  layout_apart t d i : pool_descs !! t = Some d -> in_pool d i ->
    i < 2 ^ 63 /\ (i < heap_base \/ heap_base + MEM_SIZE_ALIGNED <= i)
}.

(** ** State and operations *)

Record pmem_state := PMem { m_heap : heap; m_memp : memp_state; m_mbox : nat }.

Section Operations.
Context `{MemOptions} `{PbufOptions} `{PbufLayout}.

Definition with_memp (st : pmem_state) (mp : memp_state) : pmem_state := PMem (m_heap st) mp (m_mbox st).
Definition with_heap (st : pmem_state) (h : heap) : pmem_state := PMem h (m_memp st) (m_mbox st).

Definition memp_take (t : nat) (st : pmem_state) : outcome (option Z * pmem_state) :=
  '(r, mp) ← memp_malloc (m_memp st) t; Ret (r, with_memp st mp).
Definition memp_give (t : nat) (st : pmem_state) (a : Z) : outcome pmem_state :=
  mp ← memp_free (m_memp st) t (Some a); Ret (with_memp st mp).

Definition heap_malloc (st : pmem_state) (n : Z) : outcome (option Z * pmem_state) :=
  '(r, h) ← mem_malloc (m_heap st) n; Ret (option_map (Z.add heap_base) r, with_heap st h).
Definition heap_free (st : pmem_state) (a : Z) : outcome pmem_state :=
  h ← mem_free (m_heap st) (Some (a - heap_base)); Ret (with_heap st h).
Definition heap_trim (st : pmem_state) (a n : Z) : outcome (option Z * pmem_state) :=
  '(r, h) ← mem_trim (m_heap st) (a - heap_base) n; Ret (option_map (Z.add heap_base) r, with_heap st h).

Definition try_callback (st : pmem_state) : bool * pmem_state :=
  if (m_mbox st <? mbox_size)%nat then (true, PMem (m_heap st) (m_memp st) (S (m_mbox st))) else (false, st).

(** ** The blocks in use *)

Definition slot_ok (XS : list (list Z)) (B : gmap Z block) (tk : nat * block) : Prop :=
  exists xs, XS !! tk.1 = Some xs /\ forall a, a ∈ xs <-> B !! a = Some tk.2.

Definition blocks_of (st : pmem_state) (B : gmap Z block) : Prop :=
  exists U XS, heap_ok (m_heap st) U /\ memp_rep pool_descs (m_memp st) XS
    /\ (forall q k, U !! q = Some k <-> B !! (heap_base + q) = Some (BHeap k))
    /\ Forall (slot_ok XS B) slots.

Definition trim_possible (st : pmem_state) (a n : Z) : Prop :=
  forall U k, heap_ok (m_heap st) U -> U !! (a - heap_base) = Some k ->
    a - heap_base + k < MEM_SIZE_ALIGNED \/ k < request n + SIZEOF_STRUCT_MEM + MIN_SIZE_ALIGNED.
End Operations.

Section Proofs.
Context `{MO : MemOptions} {MOk : MemOptionsOk} `{PO : PbufOptions} `{PL : PbufLayout} {LOk : PbufLayoutOk}.

Lemma slots_inj t t' k : (t, k) ∈ slots -> (t', k) ∈ slots -> t = t'.
Proof.
  unfold slots. rewrite !elem_of_cons. intros Hs Ht.
  destruct Hs as [E|[E|[E|Hn]]]; [..|by apply not_elem_of_nil in Hn];
    destruct Ht as [E'|[E'|[E'|Hn]]]; try (by apply not_elem_of_nil in Hn); simplify_eq; done.
Qed.

Lemma slots_kind t k k' : (t, k) ∈ slots -> (t, k') ∈ slots -> k = k'.
Proof.
  pose proof layout_slots as Hd. unfold slots in *. cbn in Hd. rewrite !elem_of_cons.
  apply NoDup_cons in Hd as [N1 Hd]. apply NoDup_cons in Hd as [N2 _].
  rewrite !elem_of_cons in N1. rewrite elem_of_cons in N2. intros Hs Ht.
  destruct Hs as [E|[E|[E|Hn]]]; [..|by apply not_elem_of_nil in Hn];
    destruct Ht as [E'|[E'|[E'|Hn]]]; try (by apply not_elem_of_nil in Hn); pose proof (f_equal fst E); pose proof (f_equal fst E'); pose proof (f_equal snd E); pose proof (f_equal snd E');
    cbn in *; subst; try done; exfalso; intuition congruence.
Qed.

Lemma slot_not_heap t k n : (t, k) ∈ slots -> k <> BHeap n.
Proof.
  unfold slots. rewrite !elem_of_cons. intros [E|[E|[E|Hn]]]; [..|by apply not_elem_of_nil in Hn]; simplify_eq; done.
Qed.

Lemma slot_elems st B U XS t k a :
  heap_ok (m_heap st) U -> memp_rep pool_descs (m_memp st) XS -> Forall (slot_ok XS B) slots ->
  (t, k) ∈ slots -> B !! a = Some k -> exists d, pool_descs !! t = Some d /\ a ∈ elems d /\ 0 < block_size k <= d_size d.
Proof.
  intros _ HR Hs Ht Ha. rewrite Forall_forall in Hs. destruct (Hs _ Ht) as (xs & Hxs & Hx). cbn in *.
  destruct (layout_sizes t k Ht) as (d & Hd & Hsz). exists d. split_and!; [done| |lia|lia].
  destruct (memp_rep_pool _ _ _ _ _ _ HR Hd Hxs) as (p & _ & HRp).
  assert (Hdo : desc_ok d) by (destruct layout_descs; by eapply Forall_lookup_1).
  apply (pool_rep_mem d Hdo _ _ _ HRp). by apply Hx.
Qed.

Lemma count_slot (xs : list Z) (B : gmap Z block) k :
  NoDup xs -> (forall a, a ∈ xs <-> B !! a = Some k) -> count_blocks k B = length xs.
Proof.
  intros Hd Hx. unfold count_blocks. rewrite <- size_dom, <- (size_list_to_set (C := gset Z)) by done. f_equal.
  apply set_eq. intros a. rewrite elem_of_dom, elem_of_list_to_set, Hx. split.
  - intros [k' Hk]. apply map_lookup_filter_Some in Hk as [Hk E]. cbn in E. by subst.
  - intros Ha. exists k. by apply map_lookup_filter_Some.
Qed.

(** The kinds of blocks: an element of a slot, or heap. *)
Lemma block_slot k : (exists n, k = BHeap n) \/ exists t, (t, k) ∈ slots.
Proof.
  destruct k; [right; exists t_pool|right; exists t_ref|left; eauto|right; exists t_custom];
    unfold slots; rewrite !elem_of_cons; auto.
Qed.

(** Where a block lies. *)
Lemma blocks_range st B a k :
  blocks_of st B -> B !! a = Some k -> 0 < a /\ a + block_size k <= 2 ^ 63 /\ (MEM_ALIGNMENT | a).
Proof.
  intros (U & XS & HU & HR & Hh & Hs) Ha. destruct layout_heap as (L1 & L2 & L3).
  destruct (block_slot k) as [[n ->]|[t Ht]].
  - replace a with (heap_base + (a - heap_base)) in Ha by lia. apply Hh in Ha.
    destruct (heap_ok_range _ _ _ _ HU Ha) as (R1 & R2 & R3 & R4). destruct options_facts as (_ & HS & _).
    pose proof W_pos. cbn [block_size]. split_and!; [lia|lia|]. replace a with (heap_base + (a - heap_base)) by lia.
    by apply Z.divide_add_r.
  - destruct (slot_elems _ _ _ _ _ _ _ HU HR Hs Ht Ha) as (d & Hd & He & Hsz).
    assert (Hdo : desc_ok d) by (destruct layout_descs; by eapply Forall_lookup_1).
    destruct (elems_facts d Hdo a He) as (E1 & E2 & E3).
    destruct (layout_apart t d (a + d_size d - 1) Hd) as [E4 _]; [apply E3; destruct Hdo; lia|].
    split_and!; [lia|lia|done].
Qed.

Lemma blocks_heap st B a n : blocks_of st B -> B !! a = Some (BHeap n) -> 0 <= n < 256 ^ sizeof_mem_size_t.
Proof.
  intros (U & XS & HU & HR & Hh & Hs) Ha. replace a with (heap_base + (a - heap_base)) in Ha by lia.
  apply Hh in Ha. destruct (heap_ok_range _ _ _ _ HU Ha) as (R1 & R2 & R3 & _).
  destruct options_facts as (_ & HS & HM & _ & HB & _). pose proof W_pos. lia.
Qed.

Lemma heap_pool_apart t d e n q :
  pool_descs !! t = Some d -> e ∈ elems d -> 0 < n <= d_size d -> 0 <= q ->
  forall k, 0 < k -> q + k <= MEM_SIZE_ALIGNED -> heap_base + q + k <= e \/ e + n <= heap_base + q.
Proof.
  intros Hd He Hn Hq k Hk Hr. assert (Hdo : desc_ok d) by (destruct layout_descs; by eapply Forall_lookup_1).
  destruct (elems_facts d Hdo e He) as (_ & _ & Hin).
  destruct (decide (heap_base + q + k <= e \/ e + n <= heap_base + q)) as [|Hno]; [done|]. exfalso.
  destruct (layout_apart t d (Z.max e (heap_base + q)) Hd) as [_ Ha]; [apply Hin; lia|]. lia.
Qed.

Lemma blocks_disjoint st B a k a' k' :
  blocks_of st B -> B !! a = Some k -> B !! a' = Some k' -> a <> a' ->
  a + block_size k <= a' \/ a' + block_size k' <= a.
Proof.
  intros (U & XS & HU & HR & Hh & Hs) Ha Ha' Hne. destruct options_facts as (_ & HS & HM & _). pose proof W_pos.
  assert (Hheap : forall x n, B !! x = Some (BHeap n) -> U !! (x - heap_base) = Some n
            /\ 0 <= x - heap_base /\ 0 < n /\ x - heap_base + n <= MEM_SIZE_ALIGNED).
  { intros x n Hx. replace x with (heap_base + (x - heap_base)) in Hx by lia. apply Hh in Hx.
    destruct (heap_ok_range _ _ _ _ HU Hx) as (R1 & R2 & R3 & _). split; [done|lia]. }
  destruct (block_slot k) as [[n ->]|[t Ht]], (block_slot k') as [[n' ->]|[t' Ht']]; cbn [block_size].
  - destruct (Hheap _ _ Ha) as (Hu & _), (Hheap _ _ Ha') as (Hu' & _).
    destruct (decide (a < a')).
    + pose proof (heap_ok_disjoint _ _ _ _ _ _ HU Hu Hu'). lia.
    + pose proof (heap_ok_disjoint _ _ _ _ _ _ HU Hu' Hu). lia.
  - destruct (Hheap _ _ Ha) as (_ & Q1 & Q2 & Q3).
    destruct (slot_elems _ _ _ _ _ _ _ HU HR Hs Ht' Ha') as (d & Hd & He & Hsz).
    destruct (heap_pool_apart _ _ _ _ _ Hd He Hsz Q1 n Q2 Q3); lia.
  - destruct (Hheap _ _ Ha') as (_ & Q1 & Q2 & Q3).
    destruct (slot_elems _ _ _ _ _ _ _ HU HR Hs Ht Ha) as (d & Hd & He & Hsz).
    destruct (heap_pool_apart _ _ _ _ _ Hd He Hsz Q1 n' Q2 Q3); lia.
  - destruct (slot_elems _ _ _ _ _ _ _ HU HR Hs Ht Ha) as (d & Hd & He & Hsz).
    destruct (slot_elems _ _ _ _ _ _ _ HU HR Hs Ht' Ha') as (d' & Hd' & He' & Hsz').
    destruct (elems_all_apart _ _ _ _ _ _ _ layout_descs Hd Hd' He He'); [done|lia|lia].
Qed.

(** An element that the pool hands out is no block in use. *)
Lemma elem_fresh st B U XS t k e xs d :
  heap_ok (m_heap st) U -> memp_rep pool_descs (m_memp st) XS ->
  (forall q n, U !! q = Some n <-> B !! (heap_base + q) = Some (BHeap n)) -> Forall (slot_ok XS B) slots ->
  (t, k) ∈ slots -> XS !! t = Some xs -> pool_descs !! t = Some d -> e ∈ elems d -> e ∉ xs -> B !! e = None.
Proof.
  intros HU HR Hh Hs Ht Hxs Hd He Hne. destruct (B !! e) as [k'|] eqn:Ee; [exfalso|done].
  destruct (layout_sizes t k Ht) as (d' & Hd' & Hsz). rewrite Hd in Hd'. injection Hd' as <-.
  destruct (block_slot k') as [[n ->]|[t' Ht']].
  - replace e with (heap_base + (e - heap_base)) in Ee by lia. apply Hh in Ee.
    destruct (heap_ok_range _ _ _ _ HU Ee) as (R1 & R2 & R3 & _). destruct options_facts as (_ & HS & HM & _).
    pose proof W_pos. assert (Hq : 0 <= e - heap_base) by lia.
    destruct (heap_pool_apart t d e (block_size k) (e - heap_base) Hd He Hsz Hq n); lia.
  - destruct (slot_elems _ _ _ _ _ _ _ HU HR Hs Ht' Ee) as (d' & Hd' & He' & Hsz').
    destruct (decide (t = t')) as [<-|Htn].
    + rewrite (slots_kind _ _ _ Ht' Ht) in Ee. rewrite Forall_forall in Hs. destruct (Hs _ Ht) as (ys & Hys & Hy).
      cbn in *. rewrite Hxs in Hys. injection Hys as <-. by apply Hne, Hy.
    + destruct (elems_all_apart _ _ _ _ _ _ _ layout_descs Hd Hd' He He'); [done|lia|lia].
Qed.

Lemma take_law t k st B :
  (t, k) ∈ slots -> blocks_of st B ->
  let n := default 0%nat (d_num <$> pool_descs !! t) in
  if decide (count_blocks k B < n)%nat then
    exists a st', memp_take t st = Ret (Some a, st') /\ B !! a = None /\ blocks_of st' (<[a := k]> B)
  else exists st', memp_take t st = Ret (None, st') /\ blocks_of st' B.
Proof.
  intros Ht (U & XS & HU & HR & Hh & Hs). destruct (layout_sizes t k Ht) as (d & Hd & Hsz). rewrite Hd. cbn.
  pose proof Hs as Hs'. rewrite Forall_forall in Hs'. destruct (Hs' _ Ht) as (xs & Hxs & Hx). cbn in Hxs, Hx.
  assert (Hdo : desc_ok d) by (destruct layout_descs; by eapply Forall_lookup_1).
  destruct (memp_rep_pool _ _ _ _ _ _ HR Hd Hxs) as (p & _ & HRp).
  destruct (pool_rep_mem d Hdo _ _ _ HRp) as (_ & Hnd & _).
  rewrite (count_slot xs B k Hnd Hx). unfold memp_take.
  pose proof (memp_malloc_spec _ _ _ _ _ _ layout_descs HR Hd Hxs) as Hm. repeat case_decide; try lia.
  - destruct Hm as (e & mp & -> & HR' & _ & _ & He & Hne). cbn [mbind outcome_bind].
    exists e. eexists. split; [done|]. assert (HB : B !! e = None) by (by eapply elem_fresh). split; [done|].
    exists U, (<[t := e :: xs]> XS). split_and!; [done|done| |].
    + intros q n'. rewrite Hh. destruct (decide (heap_base + q = e)) as [<-|Hq].
      * rewrite HB, lookup_insert_eq. split; [done|]. intros [= ->]. by eapply slot_not_heap in Ht.
      * by rewrite lookup_insert_ne by done.
    + apply Forall_forall. intros [t' k'] Ht'. destruct (Hs' _ Ht') as (ys & Hys & Hy). cbn in Hys, Hy.
      destruct (decide (t' = t)) as [->|Htn].
      * rewrite (slots_kind _ _ _ Ht' Ht). exists (e :: xs). cbn.
        rewrite list_lookup_insert_eq by (by eapply lookup_lt_Some). split; [done|]. intros a.
        rewrite elem_of_cons. destruct (decide (a = e)) as [->|Ha]; [rewrite lookup_insert_eq; tauto|].
        rewrite lookup_insert_ne by done. rewrite Hx. tauto.
      * exists ys. cbn. rewrite list_lookup_insert_ne by done. split; [done|]. intros a. rewrite Hy.
        destruct (decide (a = e)) as [->|Ha]; [|by rewrite lookup_insert_ne by done].
        rewrite HB, lookup_insert_eq. split; [done|]. intros [= <-]. by destruct Htn; eapply slots_inj.
  - destruct Hm as (mp & -> & HR' & _). cbn [mbind outcome_bind]. eexists. split; [done|]. by exists U, XS.
Qed.

Lemma give_law t k st B a :
  (t, k) ∈ slots -> blocks_of st B -> B !! a = Some k ->
  exists st', memp_give t st a = Ret st' /\ blocks_of st' (delete a B).
Proof.
  intros Ht (U & XS & HU & HR & Hh & Hs) Ha. destruct (layout_sizes t k Ht) as (d & Hd & Hsz).
  pose proof Hs as Hs'. rewrite Forall_forall in Hs'. destruct (Hs' _ Ht) as (xs & Hxs & Hx). cbn in Hxs, Hx.
  destruct (proj1 (elem_of_Permutation xs a) (proj2 (Hx a) Ha)) as (xs' & HP).
  assert (Hdo : desc_ok d) by (destruct layout_descs; by eapply Forall_lookup_1).
  destruct (memp_rep_pool _ _ _ _ _ _ HR Hd Hxs) as (p & _ & HRp).
  destruct (pool_rep_mem d Hdo _ _ _ HRp) as (_ & Hnd & _). rewrite HP in Hnd. apply NoDup_cons in Hnd as [Hna _].
  destruct (memp_free_spec _ _ _ _ _ _ _ _ layout_descs HR Hd Hxs HP) as (mp & E & HR' & _).
  unfold memp_give. rewrite E. cbn [mbind outcome_bind]. eexists. split; [done|].
  exists U, (<[t := xs']> XS). split_and!; [done|done| |].
  - intros q n'. rewrite Hh. destruct (decide (heap_base + q = a)) as [<-|Hq].
    + rewrite Ha, lookup_delete_eq. split; [|done]. intros [= ->]. by eapply slot_not_heap in Ht.
    + by rewrite lookup_delete_ne by done.
  - apply Forall_forall. intros [t' k'] Ht'. destruct (Hs' _ Ht') as (ys & Hys & Hy). cbn in Hys, Hy.
    destruct (decide (t' = t)) as [->|Htn].
    + rewrite (slots_kind _ _ _ Ht' Ht). exists xs'. cbn.
      rewrite list_lookup_insert_eq by (by eapply lookup_lt_Some). split; [done|]. intros x.
      destruct (decide (x = a)) as [->|Hxa]; [rewrite lookup_delete_eq; done|].
      rewrite lookup_delete_ne by done. rewrite <- Hx, HP, elem_of_cons. tauto.
    + exists ys. cbn. rewrite list_lookup_insert_ne by done. split; [done|]. intros x. rewrite Hy.
      destruct (decide (x = a)) as [->|Hxa]; [|by rewrite lookup_delete_ne by done].
      rewrite Ha, lookup_delete_eq. split; [|done]. intros [= ->]. by destruct Htn; eapply slots_inj.
Qed.

(** A change of the heap at [q], where no element of a pool lies. *)
Lemma heap_change st B U XS h q o :
  memp_rep pool_descs (m_memp st) XS -> heap_ok h (partial_alter (λ _, o) q U) ->
  (forall q n, U !! q = Some n <-> B !! (heap_base + q) = Some (BHeap n)) -> Forall (slot_ok XS B) slots ->
  (B !! (heap_base + q) = None \/ exists n, B !! (heap_base + q) = Some (BHeap n)) ->
  blocks_of (with_heap st h) (partial_alter (λ _, BHeap <$> o) (heap_base + q) B).
Proof.
  intros HR HU Hh Hs Hq. exists (partial_alter (λ _, o) q U), XS. split_and!; [done|done| |].
  - intros q' n. destruct (decide (q' = q)) as [->|Hne].
    + rewrite !lookup_partial_alter_eq. destruct o; cbn; [|done]. split; congruence.
    + rewrite !lookup_partial_alter_ne by lia. apply Hh.
  - rewrite Forall_forall in Hs. apply Forall_forall. intros [t k] Ht.
    destruct (Hs _ Ht) as (xs & Hxs & Hx). exists xs. split; [done|]. intros a. rewrite Hx. cbn.
    destruct (decide (heap_base + q = a)) as [<-|Hne]; [|by rewrite lookup_partial_alter_ne by done].
    rewrite lookup_partial_alter_eq. pose proof (slot_not_heap t k) as Hk. split.
    + intros E. destruct Hq as [Hq|[n Hq]]; rewrite Hq in E; [done|]. injection E as <-. by destruct (Hk n).
    + destruct o as [n|]; [|done]. cbn. intros [= <-]. by destruct (Hk n).
Qed.

Lemma heap_malloc_law st B n :
  blocks_of st B -> 0 <= n < 256 ^ sizeof_mem_size_t ->
  exists r st', heap_malloc st n = Ret (r, st') /\
    match r with
    | Some a => exists k, n <= k /\ B !! a = None /\ blocks_of st' (<[a := BHeap k]> B)
    | None => blocks_of st' B
    end.
Proof.
  intros (U & XS & HU & HR & Hh & Hs) Hn. destruct (heap_ok_malloc _ _ n HU Hn) as (r & h & E & Hr).
  unfold heap_malloc. rewrite E. cbn [mbind outcome_bind]. eexists _, _. split; [done|].
  destruct r as [q|]; cbn [option_map].
  - destruct Hr as (k & Hk & Hq & HU' & _). exists k.
    assert (HB : B !! (heap_base + q) = None).
    { destruct (B !! (heap_base + q)) as [k'|] eqn:Eq; [exfalso|done].
      destruct (block_slot k') as [[n' ->]|[t Ht]]; [apply Hh in Eq; congruence|].
      destruct (slot_elems _ _ _ _ _ _ _ HU HR Hs Ht Eq) as (d & Hd & He & Hsz).
      destruct (heap_ok_range _ _ q k HU' (lookup_insert_eq _ _ _)) as (R1 & R2 & R3 & _).
      destruct options_facts as (_ & HS & HM & _). pose proof W_pos. assert (Hq0 : 0 <= q) by lia.
      destruct (heap_pool_apart t d _ _ q Hd He Hsz Hq0 k); lia. }
    split_and!; [done|done|]. apply (heap_change st B U XS h q (Some k)); try done. by left.
  - destruct Hr as [HU' _]. by exists U, XS.
Qed.

Lemma heap_free_law st B a n :
  blocks_of st B -> B !! a = Some (BHeap n) -> exists st', heap_free st a = Ret st' /\ blocks_of st' (delete a B).
Proof.
  intros (U & XS & HU & HR & Hh & Hs) Ha. pose proof Ha as Ha0.
  replace a with (heap_base + (a - heap_base)) in Ha by lia. pose proof (proj2 (Hh _ _) Ha) as Hq.
  destruct (heap_ok_free _ _ _ _ HU Hq) as (h & E & HU' & _). unfold heap_free. rewrite E. cbn [mbind outcome_bind].
  eexists. split; [done|]. replace (delete a B) with (delete (heap_base + (a - heap_base)) B) by (f_equal; lia).
  apply (heap_change st B U XS h (a - heap_base) None); try done. right. by exists n.
Qed.

Lemma heap_trim_law st B a k n :
  blocks_of st B -> B !! a = Some (BHeap k) -> 0 <= n <= k -> trim_possible st a n ->
  exists st' k', heap_trim st a n = Ret (Some a, st') /\ n <= k' <= k /\ blocks_of st' (<[a := BHeap k']> B).
Proof.
  intros (U & XS & HU & HR & Hh & Hs) Ha Hn Ht. pose proof Ha as Ha0.
  replace a with (heap_base + (a - heap_base)) in Ha by lia. pose proof (proj2 (Hh _ _) Ha) as Hq.
  pose proof (Ht _ _ HU Hq) as Hok.
  destruct (heap_ok_trim _ _ _ _ _ HU Hq Hn) as [(h & k' & E & Hk & HU' & _)|(Hend & Hbig & _)]; [|lia].
  unfold heap_trim. rewrite E. cbn [mbind outcome_bind option_map].
  replace (heap_base + (a - heap_base)) with a by lia. eexists _, k'. split_and!; [done|lia|lia|].
  replace (<[a := BHeap k']> B) with (<[heap_base + (a - heap_base) := BHeap k']> B) by (f_equal; lia).
  apply (heap_change st B U XS h (a - heap_base) (Some k')); try done. right. by exists k.
Qed.

(** mem_trim is never asked to shrink what is no heap block. *)
Lemma pool_trim_possible st B a k n :
  blocks_of st B -> B !! a = Some k -> (forall m, k <> BHeap m) -> trim_possible st a n.
Proof.
  intros (U & XS & HU & HR & Hh & Hs) Ha Hk U' k' HU' Hq. exfalso.
  destruct (block_slot k) as [[m ->]|[t Ht]]; [by destruct (Hk m)|].
  destruct (slot_elems _ _ _ _ _ _ _ HU HR Hs Ht Ha) as (d & Hd & He & Hsz).
  destruct (heap_ok_range _ _ _ _ HU' Hq) as (R1 & R2 & R3 & _). destruct options_facts as (_ & HS & HM & _).
  pose proof W_pos. assert (Hq0 : 0 <= a - heap_base) by lia.
  destruct (heap_pool_apart t d a (block_size k) (a - heap_base) Hd He Hsz Hq0 k'); lia.
Qed.

(** ** The interface *)

Lemma slot_pool : (t_pool, BPool) ∈ slots.
Proof. unfold slots. rewrite !elem_of_cons. auto. Qed.
Lemma slot_ref : (t_ref, BRef) ∈ slots.
Proof. unfold slots. rewrite !elem_of_cons. auto. Qed.
Lemma slot_custom : (t_custom, BCustom) ∈ slots.
Proof. unfold slots. rewrite !elem_of_cons. auto. Qed.

Lemma custom_law st B a :
  blocks_of st B -> B !! a = Some BCustom ->
  exists f st', Some (λ st, memp_give t_custom st a) = Some f /\ f st = Ret st' /\ blocks_of st' (delete a B).
Proof.
  intros HB Ha. destruct (give_law _ _ _ _ _ slot_custom HB Ha) as (st' & E & HB').
  exists (λ st, memp_give t_custom st a), st'. done.
Qed.

Lemma callback_law st B : blocks_of st B -> blocks_of (try_callback st).2 B.
Proof. intros HB. unfold try_callback. case_if; done. Qed.

#[export] Instance packet_memory : PacketMemory pmem_state := {|
  num_pool := default 0%nat (d_num <$> pool_descs !! t_pool);
  num_ref := default 0%nat (d_num <$> pool_descs !! t_ref);
  mem_holds := blocks_of;
  pm_malloc_pool := memp_take t_pool;
  pm_free_pool := memp_give t_pool;
  pm_malloc_ref := memp_take t_ref;
  pm_free_ref := memp_give t_ref;
  pm_mem_malloc := heap_malloc;
  pm_mem_free := heap_free;
  pm_mem_trim := heap_trim;
  pm_custom_free_function st a := Some (λ st, memp_give t_custom st a);
  pm_try_callback := try_callback;
  trim_ok := trim_possible;
  mem_holds_range := blocks_range;
  mem_holds_disjoint := blocks_disjoint;
  mem_holds_heap := blocks_heap;
  malloc_pool_law st B := take_law t_pool BPool st B slot_pool;
  malloc_ref_law st B := take_law t_ref BRef st B slot_ref;
  mem_malloc_law := heap_malloc_law;
  free_pool_law st B a := give_law t_pool BPool st B a slot_pool;
  free_ref_law st B a := give_law t_ref BRef st B a slot_ref;
  mem_free_law := heap_free_law;
  mem_trim_law := heap_trim_law;
  custom_free_law := custom_law;
  try_callback_law := callback_law
|}.
End Proofs.

(** ** An instance: the default options, four pool pbufs and 300 references *)

#[export] Instance opt_h_pbuf_options : PbufOptions :=
  {| PBUF_POOL_BUFSIZE := 590; PBUF_LINK_ENCAPSULATION_HLEN := 0; PBUF_LINK_HLEN := 14; PBUF_IP_HLEN := 20 |}.

#[export] Instance layout0 : PbufLayout :=
  {| heap_base := 4096;
     pool_descs := [MempDesc 614 4 10000; MempDesc 24 300 20000; MempDesc 32 4 30000];
     t_pool := 0; t_ref := 1; t_custom := 2; mbox_size := 1 |}.

Lemma layout0_region t d i :
  pool_descs (PbufLayout := layout0) !! t = Some d -> in_pool d i ->
  (t = 0%nat /\ 10000 <= i < 12456) \/ (t = 1%nat /\ 20000 <= i < 27200) \/ (t = 2%nat /\ 30000 <= i < 30128).
Proof.
  assert (E0 : LWIP_MEM_ALIGN 10000 = 10000) by (vm_compute; reflexivity).
  assert (E1 : LWIP_MEM_ALIGN 20000 = 20000) by (vm_compute; reflexivity).
  assert (E2 : LWIP_MEM_ALIGN 30000 = 30000) by (vm_compute; reflexivity).
  unfold in_pool. destruct t as [|[|[|t]]]; cbn [pool_descs layout0 lookup list_lookup]; [..|done];
    intros [= <-]; cbn [d_base d_num d_size]; rewrite ?E0, ?E1, ?E2; lia.
Qed.

#[export] Instance layout0_ok : PbufLayoutOk.
Proof.
  assert (EM : MEM_SIZE_ALIGNED = 1600) by (vm_compute; reflexivity). split.
  - split.
    + repeat constructor; try (vm_compute; intuition congruence); [exists 614|exists 24|exists 32]; reflexivity.
    + intros t1 t2 d1 d2 i E1 E2 Hne I1 I2.
      pose proof (layout0_region _ _ _ E1 I1). pose proof (layout0_region _ _ _ E2 I2). lia.
  - repeat constructor; cbn; rewrite ?elem_of_cons, ?elem_of_nil; lia.
  - intros t k. unfold slots. rewrite !elem_of_cons, elem_of_nil.
    intros [[= -> ->]|[[= -> ->]|[[= -> ->]|[]]]]; eexists; (split; [reflexivity|]); vm_compute; intuition congruence.
  - rewrite EM. split_and!; [done|exists 4096; reflexivity|done].
  - intros t d i Hd Hi. rewrite EM. pose proof (layout0_region _ _ _ Hd Hi). cbn [heap_base layout0]. lia.
Qed.

Definition pmem0 : pmem_state :=
  PMem (match mem_init (Heap ∅ 0 0 0 0 0) with Ret h => h | Trap _ => Heap ∅ 0 0 0 0 0 end)
       (memp_init pool_descs (MempState ∅ [pool_bss; pool_bss; pool_bss])) 0.

Lemma pmem0_blocks : blocks_of pmem0 ∅.
Proof.
  destruct (mem_init_rep (Heap ∅ 0 0 0 0 0) eq_refl) as (h & E & HR).
  exists ∅, [[]; []; []]. split; [|split; [|split]].
  - unfold pmem0. rewrite E. eexists. split; [exact HR|]. done.
  - pose proof (memp_init_loop_spec pool_descs ∅ [pool_bss; pool_bss; pool_bss] layout_descs
      ltac:(repeat constructor) eq_refl) as HM.
    unfold pmem0, memp_init. cbn [m_memp mp_mem mp_pools].
    destruct (memp_init_loop pool_descs ∅ [pool_bss; pool_bss; pool_bss]) as [m ps]. exact (proj1 HM).
  - intros q k. by rewrite !lookup_empty.
  - repeat constructor; exists []; (split; [reflexivity|]); intros a; rewrite lookup_empty;
      (split; [by intros ?%not_elem_of_nil|done]).
Qed.
