(* ===== verification/PbufRef.v ===== *)
(** * Reference counts of packet buffers (src/lwip/src/core/pbuf.c)

    The invariant of the pbuf module: every structure in use has its block of
    memory, its payload lies in that block, no pointer dangles, and the
    reference count of a pbuf is the number of pointers to it, from other pbufs
    ([preds]) and from outside ([ext]).  Every operation that allocates, links,
    unlinks or frees keeps it. *)

From S2P Require Import Prelude ListSeg Mem Memp Pbuf PbufMem.

#[local] Open Scope Z_scope.
#[local] Coercion Z.of_nat : nat >-> Z.

(** ** The invariant *)

(** The number of pbufs whose [next] is [a]. *)
Definition preds (m : gmap Z pbuf) (a : Z) : nat := size (filter (λ xb, p_next xb.2 = a) m).

(** The pointers from outside: one more, and one less, to [p]. *)
Definition ext_add (ext : Z -> nat) (p : Z) : Z -> nat :=
  λ a, if decide (a = p) then S (ext a) else ext a.
Definition ext_sub (ext : Z -> nat) (p : Z) : Z -> nat :=
  λ a, if decide (a = p) then pred (ext a) else ext a.

(** [seg m p l e]: [l] are the pbufs, with their addresses, on the way from [p] to
    [e]. *)
Abbreviation seg := (lseg p_next).

Section Invariant.
Context `{MemOptions} `{PbufOptions} {St : Type} `{!PacketMemory St}.
Abbreviation pst := (@pstate St).

Definition is_custom (b : pbuf) : bool := negb (Z.land (p_flags b) PBUF_FLAG_IS_CUSTOM =? 0).
Definition is_contiguous (b : pbuf) : bool :=
  negb (Z.land (p_type_internal b) PBUF_TYPE_FLAG_STRUCT_DATA_CONTIGUOUS =? 0).

(** The type of a pbuf says where its memory comes from. *)
Definition kind_ok (b : pbuf) (k : block) : Prop :=
  match k with
  | BPool => is_custom b = false /\ pbuf_get_allocsrc b = PBUF_TYPE_ALLOC_SRC_MASK_STD_MEMP_PBUF_POOL
             /\ is_contiguous b = true
  | BRef => is_custom b = false /\ pbuf_get_allocsrc b = PBUF_TYPE_ALLOC_SRC_MASK_STD_MEMP_PBUF
            /\ is_contiguous b = false
  | BHeap _ => is_custom b = false /\ pbuf_get_allocsrc b = PBUF_TYPE_ALLOC_SRC_MASK_STD_HEAP
               /\ is_contiguous b = true
  | BCustom => is_custom b = true
  end.

(** The payload of a pbuf that carries its data lies behind its structure, in its
    block. *)
Definition payload_ok (a : Z) (b : pbuf) (k : block) : Prop :=
  match k with
  | BPool | BHeap _ => a + SIZEOF_STRUCT_PBUF <= p_payload b /\ p_payload b + p_len b <= a + block_size k
  | BRef | BCustom => True
  end.

Definition node_ok (a : Z) (b : pbuf) (k : block) : Prop :=
  kind_ok b k /\ payload_ok a b k /\ is_u16 (p_len b) /\ is_u16 (p_tot_len b).

Record pbuf_inv (s : pst) (B : gmap Z block) (ext : Z -> nat) : Prop := PbufInv {
  inv_holds : mem_holds (pmem s) B;
  inv_dom a : is_Some (pbufs s !! a) <-> is_Some (B !! a);
  inv_node a b k : pbufs s !! a = Some b -> B !! a = Some k -> node_ok a b k;
  inv_refs a b : pbufs s !! a = Some b -> p_ref b = ext a + preds (pbufs s) a /\ 1 <= p_ref b < 256;
  inv_next a b : pbufs s !! a = Some b -> p_next b <> NULL -> is_Some (pbufs s !! p_next b);
  inv_ext a : a <> NULL -> (0 < ext a)%nat -> is_Some (pbufs s !! a)
}.

(** ** Lemmas: predecessors *)

Definition link_to (b : pbuf) (a : Z) : nat := if decide (p_next b = a) then 1 else 0.

Lemma preds_insert_new m x b a :
  m !! x = None -> preds (<[x := b]> m) a = (link_to b a + preds m a)%nat.
Proof.
  intros Hx. unfold preds, link_to. case_decide as Hd.
  - rewrite map_filter_insert_True by done. rewrite map_size_insert_None; [done|].
    apply map_lookup_filter_None. by left.
  - rewrite map_filter_insert_False by done. by rewrite delete_id.
Qed.

Lemma preds_delete m x b a :
  m !! x = Some b -> preds m a = (link_to b a + preds (delete x m) a)%nat.
Proof.
  intros Hx. rewrite <- (insert_delete_id m x b) at 1 by done.
  apply preds_insert_new, lookup_delete_eq.
Qed.

Lemma preds_insert m x b b' a :
  m !! x = Some b ->
  (link_to b a + preds (<[x := b']> m) a = link_to b' a + preds m a)%nat.
Proof.
  intros Hx. rewrite <- insert_delete_eq. rewrite preds_insert_new by apply lookup_delete_eq.
  rewrite (preds_delete m x b a Hx). lia.
Qed.

Lemma preds_insert_same m x b b' a :
  m !! x = Some b -> p_next b' = p_next b -> preds (<[x := b']> m) a = preds m a.
Proof. intros Hx Hn. pose proof (preds_insert m x b b' a Hx) as E. unfold link_to in E. rewrite Hn in E. lia. Qed.

Lemma preds_pos m x b : m !! x = Some b -> (0 < preds m (p_next b))%nat.
Proof. intros Hx. rewrite (preds_delete m x b) by done. unfold link_to. rewrite decide_True by done. lia. Qed.

Lemma preds_zero m a : preds m a = 0%nat -> forall x b, m !! x = Some b -> p_next b <> a.
Proof. intros E x b Hx <-. pose proof (preds_pos m x b Hx). lia. Qed.

(** ** Lemmas: the invariant *)

Lemma inv_ext_eq s B ext ext' :
  (forall a, a <> NULL -> ext a = ext' a) -> pbuf_inv s B ext -> pbuf_inv s B ext'.
Proof.
  intros E HI. pose proof (inv_holds _ _ _ HI) as Hh.
  split; try apply HI.
  - intros a b Ha. destruct (inv_refs _ _ _ HI a b Ha) as [Hr Hb].
    destruct (proj1 (inv_dom _ _ _ HI a) ltac:(eauto)) as [k Hk].
    pose proof (mem_holds_range _ _ _ _ Hh Hk). rewrite <- E by (unfold NULL; lia). done.
  - intros a Ha Hp. apply (inv_ext _ _ _ HI a Ha). by rewrite E.
Qed.

Lemma inv_lookup s B ext a b :
  pbuf_inv s B ext -> pbufs s !! a = Some b ->
  exists k, B !! a = Some k /\ node_ok a b k /\ 0 < a.
Proof.
  intros HI Ha. destruct (proj1 (inv_dom _ _ _ HI a) ltac:(eauto)) as [k Hk].
  exists k. split_and!; [done|by eapply inv_node|].
  apply (mem_holds_range _ _ _ _ (inv_holds _ _ _ HI) Hk).
Qed.

Lemma inv_not_null s B ext : pbuf_inv s B ext -> pbufs s !! NULL = None.
Proof.
  intros HI. destruct (pbufs s !! NULL) eqn:E; [|done].
  destruct (inv_lookup _ _ _ _ _ HI E) as (k & _ & _ & Hp). unfold NULL in Hp. lia.
Qed.

Lemma inv_held s B ext a : pbuf_inv s B ext -> a <> NULL -> (0 < ext a)%nat -> exists b, pbufs s !! a = Some b.
Proof. intros HI Ha Hp. by apply (inv_ext _ _ _ HI). Qed.

Lemma ext_add_sub ext p a : (0 < ext p)%nat -> ext_add (ext_sub ext p) p a = ext a.
Proof. intros Hp. unfold ext_add, ext_sub. repeat case_decide; subst; lia. Qed.

(** Changing one structure: the counts must fit the pointers that come and go. *)
Lemma inv_set s B ext (ext' : Z -> nat) p b b' :
  pbuf_inv s B ext -> pbufs s !! p = Some b ->
  (forall k, B !! p = Some k -> node_ok p b k -> node_ok p b' k) ->
  (p_next b' <> NULL -> is_Some (pbufs s !! p_next b')) ->
  (forall a c, pbufs s !! a = Some c -> a <> NULL ->
     let r := if decide (a = p) then p_ref b' else p_ref c in
     r - p_ref c = ext' a - ext a + link_to b' a - link_to b a /\ 1 <= r < 256) ->
  (forall a, a <> NULL -> (0 < ext' a)%nat -> is_Some (pbufs s !! a)) ->
  pbuf_inv (set_pbuf s p b') B ext'.
Proof.
  intros HI Hp Hk Hn Hr He.
  assert (Hsome : forall a, is_Some (<[p := b']> (pbufs s) !! a) <-> is_Some (pbufs s !! a)).
  { intros a. rewrite lookup_insert_is_Some. destruct (decide (p = a)) as [<-|]; [|tauto]. split; eauto. }
  split; cbn [set_pbuf with_pbufs pbufs pmem].
  - apply HI.
  - intros a. rewrite Hsome. apply HI.
  - intros a c k Ha HB. apply lookup_insert_Some in Ha as [[<- <-]|[_ Ha]]; [|by eapply HI].
    apply Hk; [done|]. by eapply HI.
  - intros a c Ha. assert (exists c0, pbufs s !! a = Some c0 /\ p_ref c = if decide (a = p) then p_ref b' else p_ref c0)
      as (c0 & Ha0 & ->).
    { destruct (decide (a = p)) as [->|Hne]; [rewrite lookup_insert_eq in Ha; exists b; by simplify_eq|].
      rewrite lookup_insert_ne in Ha by done. by exists c. }
    destruct (inv_lookup _ _ _ _ _ HI Ha0) as (_ & _ & _ & Hpos).
    destruct (Hr a c0 Ha0) as [Er Hb]; [unfold NULL; lia|]. split; [|done].
    destruct (inv_refs _ _ _ HI _ _ Ha0) as [E0 _]. pose proof (preds_insert _ _ _ b' a Hp). lia.
  - intros a c Ha Hnn. rewrite Hsome.
    apply lookup_insert_Some in Ha as [[<- <-]|[_ Ha]]; [by apply Hn|by apply (inv_next _ _ _ HI a)].
  - intros a Ha Hpos. rewrite Hsome. by apply He.
Qed.

Lemma inv_update s B ext p b b' :
  pbuf_inv s B ext -> pbufs s !! p = Some b -> p_next b' = p_next b -> p_ref b' = p_ref b ->
  (forall k, B !! p = Some k -> node_ok p b k -> node_ok p b' k) ->
  pbuf_inv (set_pbuf s p b') B ext.
Proof.
  intros HI Hp Hn Hr Hk. eapply inv_set; [exact HI|done|done| | |apply HI].
  - rewrite Hn. by apply (inv_next _ _ _ HI p).
  - intros a c Ha _ r. destruct (inv_refs _ _ _ HI _ _ Ha). unfold link_to. rewrite Hn.
    assert (r = p_ref c) by (unfold r; case_decide; congruence). lia.
Qed.

(** The memory behind the structures may change as long as it holds the same blocks. *)
Lemma inv_pmem s B ext st : pbuf_inv s B ext -> mem_holds st B -> pbuf_inv (with_pmem s st) B ext.
Proof. intros HI Hst. destruct HI. by split. Qed.

(** One pointer less to a pbuf that keeps another one. *)
Lemma inv_decrement s B ext p b :
  pbuf_inv s B (ext_add ext p) -> pbufs s !! p = Some b -> 1 < p_ref b ->
  pbuf_inv (set_pbuf s p (with_ref b (p_ref b - 1))) B ext.
Proof.
  intros HI Hp Hr. eapply inv_set; [exact HI|done|done|by apply (inv_next _ _ _ HI p b)| |].
  - intros a c Ha _ r. destruct (inv_refs _ _ _ HI _ _ Ha). unfold link_to, ext_add, r. cbn [with_ref p_next p_ref].
    repeat case_decide; simplify_eq; lia.
  - intros a Ha Hpos. apply (inv_ext _ _ _ HI); [done|]. unfold ext_add. case_decide; lia.
Qed.

(** The last pointer to a pbuf goes: its memory is given back, and the pointer in
    it to the next one is now held by the caller. *)
Lemma inv_release s B ext p b st :
  pbuf_inv s B (ext_add ext p) -> pbufs s !! p = Some b -> p_ref b = 1 -> mem_holds st (delete p B) ->
  pbuf_inv (with_pmem (with_pbufs s (delete p (pbufs s))) st) (delete p B) (ext_add ext (p_next b)).
Proof.
  intros HI Hp Hr Hst. destruct (inv_refs _ _ _ HI _ _ Hp) as [Er _]. unfold ext_add in Er at 1.
  rewrite decide_True in Er by done. rewrite Hr in Er.
  assert (E0 : ext p = 0%nat) by lia. assert (P0 : preds (pbufs s) p = 0%nat) by lia.
  pose proof (preds_zero _ _ P0) as Hno.
  split; cbn [with_pmem with_pbufs pbufs pmem].
  - done.
  - intros a. rewrite !lookup_delete_is_Some. rewrite (inv_dom _ _ _ HI a). tauto.
  - intros a c k Ha HB. apply lookup_delete_Some in Ha as [_ Ha]. apply lookup_delete_Some in HB as [_ HB].
    by eapply HI.
  - intros a c Ha. apply lookup_delete_Some in Ha as [Hne Ha].
    destruct (inv_refs _ _ _ HI _ _ Ha) as [Ea Hb]. unfold ext_add in Ea. rewrite decide_False in Ea by done.
    split; [|done]. rewrite Ea, (preds_delete _ p b a Hp). unfold ext_add, link_to.
    repeat case_decide; subst; lia.
  - intros a c Ha Hnn. apply lookup_delete_Some in Ha as [_ Ha]. apply lookup_delete_is_Some.
    split; [|by apply (inv_next _ _ _ HI a)]. intros ->. by eapply Hno.
  - intros a Ha Hpos. apply lookup_delete_is_Some. unfold ext_add in Hpos. case_decide as Hd.
    + subst a. split; [|by apply (inv_next _ _ _ HI p)]. intros Heq. by eapply (Hno p b).
    + split; [intros ->; lia|]. apply (inv_ext _ _ _ HI); [done|]. unfold ext_add. case_decide; lia.
Qed.

(** ** Lemmas: freeing *)

Lemma dealloc_spec s B p b k :
  mem_holds (pmem s) B -> B !! p = Some k -> kind_ok b k ->
  exists st, pbuf_dealloc s p b = Ret (with_pmem (with_pbufs s (delete p (pbufs s))) st)
    /\ mem_holds st (delete p B).
Proof.
  intros Hh Hk Ho. unfold pbuf_dealloc. fold (is_custom b). destruct k; cbn [kind_ok] in Ho.
  - destruct Ho as (-> & -> & _). destruct (free_pool_law _ _ _ Hh Hk) as (st & E & Hst).
    cbn. rewrite E. by exists st.
  - destruct Ho as (-> & -> & _). destruct (free_ref_law _ _ _ Hh Hk) as (st & E & Hst).
    cbn. rewrite E. by exists st.
  - destruct Ho as (-> & -> & _). destruct (mem_free_law _ _ _ _ Hh Hk) as (st & E & Hst).
    cbn. rewrite E. by exists st.
  - rewrite Ho. destruct (custom_free_law _ _ _ Hh Hk) as (f & st & -> & E & Hst).
    cbn. rewrite E. by exists st.
Qed.

(** What pbuf_free leaves of the structures: some are gone, others have another
    count. *)
Definition only_refs (m m' : gmap Z pbuf) : Prop :=
  forall a b', m' !! a = Some b' -> exists b, m !! a = Some b /\ b' = with_ref b (p_ref b').

Lemma only_refs_refl m : only_refs m m.
Proof. intros a b Ha. exists b. split; [done|by destruct b]. Qed.

Lemma only_refs_trans m1 m2 m3 : only_refs m1 m2 -> only_refs m2 m3 -> only_refs m1 m3.
Proof.
  intros H12 H23 a b3 Ha. destruct (H23 a b3 Ha) as (b2 & Ha2 & E3).
  destruct (H12 a b2 Ha2) as (b1 & Ha1 & E2). exists b1. split; [done|]. rewrite E3, E2. by destruct b1.
Qed.

Lemma only_refs_delete m p : only_refs m (delete p m).
Proof. intros a b Ha. apply lookup_delete_Some in Ha as [_ Ha]. by apply only_refs_refl. Qed.

Lemma only_refs_set m p b r : m !! p = Some b -> only_refs m (<[p := with_ref b r]> m).
Proof.
  intros Hp a c Ha. apply lookup_insert_Some in Ha as [[<- <-]|[_ Ha]]; [|by apply only_refs_refl].
  exists b. by split.
Qed.

Lemma only_refs_preds m m' a : only_refs m m' -> (preds m' a <= preds m a)%nat.
Proof.
  intros Ho. unfold preds. rewrite <- !size_dom. apply subseteq_size. intros x. rewrite !elem_of_dom. intros [b' Hb'].
  apply map_lookup_filter_Some in Hb' as [Hb' Hn]. destruct (Ho _ _ Hb') as (b & Hb & Eb). exists b. apply map_lookup_filter_Some.
  split; [done|]. cbn in *. rewrite Eb in Hn. exact Hn.
Qed.

Lemma free_loop_inv fuel s B ext p count :
  pbuf_inv s B (ext_add ext p) -> (size (pbufs s) <= fuel)%nat ->
  exists c s' B', free_loop fuel s p count = Ret (c, s') /\ pbuf_inv s' B' ext /\ B' ⊆ B
    /\ data s' = data s /\ only_refs (pbufs s) (pbufs s').
Proof.
  revert s B p count. induction fuel as [|fuel IH]; intros s B p count HI Hf; cbn [free_loop];
    (destruct (p =? NULL) eqn:Hp; bool_to_prop;
     [exists count, s, B; split_and!; try done; [|by apply only_refs_refl];
      eapply inv_ext_eq; [|exact HI]; intros a Ha; unfold ext_add; rewrite decide_False by congruence; done|]);
    (destruct (inv_held _ _ _ p HI Hp) as [b Hb]; [unfold ext_add; rewrite decide_True by done; lia|]).
  { apply Nat.le_0_r, map_size_empty_iff in Hf. by rewrite Hf in Hb. }
  unfold deref. rewrite Hb. cbn [mbind outcome_bind].
  destruct (inv_refs _ _ _ HI _ _ Hb) as [_ Hr].
  rewrite LWIP_ASSERT_ok by (apply Z.ltb_lt; lia). cbn [mbind outcome_bind].
  rewrite u8_small by lia. destruct (p_ref b - 1 =? 0) eqn:E; bool_to_prop.
  - destruct (inv_lookup _ _ _ _ _ HI Hb) as (k & Hk & (Hkind & _) & _).
    destruct (dealloc_spec (set_pbuf s p (with_ref b (p_ref b - 1))) B p b k (inv_holds _ _ _ HI) Hk Hkind)
      as (st & -> & Hst).
    cbn [mbind outcome_bind set_pbuf with_pbufs pbufs]. rewrite delete_insert_eq.
    pose proof (inv_release _ _ _ _ _ st HI Hb ltac:(lia) Hst) as HI'.
    destruct (IH _ _ _ (u8 (count + 1)) HI') as (c & s' & B' & E' & HI2 & HB & Hd & Ho).
    { cbn [with_pmem with_pbufs pbufs]. rewrite map_size_delete_Some by (by eexists). lia. }
    exists c, s', B'. split_and!; [exact E'|done|etrans; [exact HB|apply delete_subseteq]|done|].
    eapply only_refs_trans; [apply only_refs_delete|exact Ho].
  - exists count. eexists _, B. split_and!; [done|apply inv_decrement; [done..|lia]|done|done|].
    by apply only_refs_set.
Qed.

Lemma free_inv s B ext p :
  pbuf_inv s B (ext_add ext p) -> p <> NULL ->
  exists c s' B', pbuf_free s p = Ret (c, s') /\ pbuf_inv s' B' ext /\ B' ⊆ B
    /\ data s' = data s /\ only_refs (pbufs s) (pbufs s').
Proof.
  intros HI Hp. unfold pbuf_free. rewrite (proj2 (Z.eqb_neq p NULL)) by done.
  apply free_loop_inv; [done|]. unfold chain_fuel. lia.
Qed.

(** ** Lemmas: pointers gained, links made and cut *)

(** A pbuf held by one reference is not changed when others are freed. *)
Lemma free_keeps_held s B B' ext p s' r b :
  pbuf_inv s B (ext_add ext p) -> pbuf_inv s' B' ext -> only_refs (pbufs s) (pbufs s') ->
  pbufs s !! r = Some b -> r <> NULL -> (0 < ext r)%nat -> p_ref b = 1 -> pbufs s' !! r = Some b.
Proof.
  intros HI HI' Ho Hb Hn He Hr. destruct (inv_held _ _ _ r HI' Hn He) as (b' & Hb'). destruct (Ho _ _ Hb') as (b0 & Hb0 & Eb).
  rewrite Hb in Hb0. injection Hb0 as <-. destruct (inv_refs _ _ _ HI _ _ Hb) as [R _]. destruct (inv_refs _ _ _ HI' _ _ Hb') as [R' Hpos].
  pose proof (only_refs_preds _ _ r Ho). rewrite Hb', Eb. f_equal. assert (Er : p_ref b' = p_ref b).
  { unfold ext_add in R. case_decide; lia. }
  rewrite Er. by destruct b.
Qed.

Lemma fresh_unreferenced s B ext a :
  pbuf_inv s B ext -> a <> NULL -> pbufs s !! a = None -> ext a = 0%nat /\ preds (pbufs s) a = 0%nat.
Proof.
  intros HI Ha Hn. split.
  - destruct (ext a) eqn:E; [done|]. destruct (inv_held _ _ _ a HI Ha) as [b Hb]; [lia|]. by rewrite Hb in Hn.
  - unfold preds. apply map_size_empty_iff, map_empty_filter_2. intros x b Hx Hb. cbn in Hb. subst a.
    destruct (inv_next _ _ _ HI x b Hx Ha) as [c Hc]. by rewrite Hc in Hn.
Qed.

Lemma inv_new s B ext st p b k :
  pbuf_inv s B ext -> mem_holds st (<[p := k]> B) -> B !! p = None -> node_ok p b k ->
  p_next b = NULL -> p_ref b = 1 ->
  pbuf_inv (set_pbuf (with_pmem s st) p b) (<[p := k]> B) (ext_add ext p).
Proof.
  intros HI Hst HB Hk Hn Hr.
  destruct (mem_holds_range _ _ p k Hst (lookup_insert_eq _ _ _)) as (Hp & _).
  assert (Hnew : pbufs s !! p = None).
  { destruct (pbufs s !! p) eqn:E; [|done]. destruct (proj1 (inv_dom _ _ _ HI p) ltac:(eauto)) as [k' Hk'].
    by rewrite Hk' in HB. }
  assert (Hnull : p <> NULL) by (unfold NULL; lia).
  destruct (fresh_unreferenced _ _ _ _ HI Hnull Hnew) as [E0 P0].
  split; cbn [set_pbuf with_pbufs with_pmem pbufs pmem].
  - done.
  - intros a. rewrite !lookup_insert_is_Some. rewrite (inv_dom _ _ _ HI a). tauto.
  - intros a c k' Ha Hk'. destruct (decide (a = p)) as [->|Hne].
    + rewrite lookup_insert_eq in Ha. rewrite lookup_insert_eq in Hk'. congruence.
    + rewrite lookup_insert_ne in Ha by done. rewrite lookup_insert_ne in Hk' by done. by eapply HI.
  - intros a c Ha. rewrite preds_insert_new by done. unfold link_to. rewrite Hn.
    apply lookup_insert_Some in Ha as [[<- <-]|[Hne Ha]].
    + rewrite decide_False by done. unfold ext_add. rewrite decide_True by done. lia.
    + destruct (inv_refs _ _ _ HI _ _ Ha) as [Er Hb]. unfold ext_add. rewrite decide_False by done.
      rewrite decide_False; [done|]. intros <-. destruct (inv_lookup _ _ _ _ _ HI Ha) as (? & _ & _ & ?).
      unfold NULL in *. lia.
  - intros a c Ha Hnn. apply lookup_insert_is_Some.
    apply lookup_insert_Some in Ha as [[<- <-]|[Hne Ha]]; [done|].
    destruct (decide (p = p_next c)); [by left|right]. split; [done|]. by apply (inv_next _ _ _ HI a).
  - intros a Ha Hpos. apply lookup_insert_is_Some. destruct (decide (p = a)); [by left|right].
    split; [done|]. apply (inv_ext _ _ _ HI); [done|]. unfold ext_add in Hpos. by rewrite decide_False in Hpos by done.
Qed.

(** A pointer of the caller becomes the [next] of a pbuf that had none. *)
Lemma inv_link s B ext l b b' t :
  pbuf_inv s B (ext_add ext t) -> pbufs s !! l = Some b -> p_next b = NULL -> t <> NULL ->
  p_next b' = t -> p_ref b' = p_ref b -> (forall k, B !! l = Some k -> node_ok l b k -> node_ok l b' k) ->
  pbuf_inv (set_pbuf s l b') B ext.
Proof.
  intros HI Hl Hn Ht Hn' Hr Hk. eapply inv_set; [exact HI|done|done| | |].
  - rewrite Hn'. intros _. apply (inv_ext _ _ _ HI); [done|]. unfold ext_add. rewrite decide_True by done. lia.
  - intros a c Ha Hnull r. destruct (inv_refs _ _ _ HI _ _ Ha). unfold link_to, ext_add, r. rewrite Hn, Hn'.
    repeat case_decide; simplify_eq; lia || congruence.
  - intros a Ha Hpos. apply (inv_ext _ _ _ HI); [done|]. unfold ext_add. case_decide; lia.
Qed.

(** The [next] of a pbuf is cut: the pointer is the caller's now. *)
Lemma inv_unlink s B ext l b b' :
  pbuf_inv s B ext -> pbufs s !! l = Some b -> p_next b' = NULL -> p_ref b' = p_ref b ->
  (forall k, B !! l = Some k -> node_ok l b k -> node_ok l b' k) ->
  pbuf_inv (set_pbuf s l b') B (ext_add ext (p_next b)).
Proof.
  intros HI Hl Hn' Hr Hk. eapply inv_set; [exact HI|done|done|done| |].
  - intros a c Ha Hnull r. destruct (inv_refs _ _ _ HI _ _ Ha). unfold link_to, ext_add, r. rewrite Hn'.
    repeat case_decide; simplify_eq; lia || congruence.
  - intros a Ha Hpos. unfold ext_add in Hpos. case_decide as Hd.
    + subst a. by apply (inv_next _ _ _ HI l).
    + by apply (inv_ext _ _ _ HI).
Qed.

(** ** Lists of pbufs *)

Definition total (l : list (Z * pbuf)) : Z := foldr (λ x n, p_len x.2 + n) 0 l.

(** The invariant on [tot_len] of struct pbuf, for one packet. *)
Fixpoint tot_ok (l : list (Z * pbuf)) : Prop :=
  match l with
  | [] => True
  | (a, b) :: l => is_u16 (p_len b) /\ p_tot_len b = p_len b + total l /\ is_u16 (p_tot_len b) /\ tot_ok l
  end.

(** A packet: a chain of pbufs that ends with NULL. *)
Definition chain (s : pst) (p : Z) (l : list (Z * pbuf)) : Prop := seg (pbufs s) p l NULL /\ tot_ok l.

Definition dels {A} (m : gmap Z A) (xs : list Z) : gmap Z A := fold_left (λ m x, delete x m) xs m.

Lemma lookup_dels {A} (m : gmap Z A) xs a : dels m xs !! a = if decide (a ∈ xs) then None else m !! a.
Proof.
  revert m. induction xs as [|x xs IH]; intros m; cbn [dels fold_left].
  - by rewrite decide_False by (by apply not_elem_of_nil).
  - fold (dels (delete x m) xs). rewrite IH. destruct (decide (a = x)) as [->|Hne].
    + rewrite (decide_True (P := x ∈ x :: xs)) by (by left). case_decide; [done|apply lookup_delete_eq].
    + rewrite lookup_delete_ne by done. apply decide_ext. rewrite elem_of_cons. tauto.
Qed.

Lemma pseg_app m p l1 l2 e : seg m p (l1 ++ l2) e <-> exists q, seg m p l1 q /\ seg m q l2 e.
Proof. apply lseg_app. Qed.

Lemma seg_lookup m p l e a b : seg m p l e -> (a, b) ∈ l -> m !! a = Some b.
Proof. apply lseg_lookup. Qed.

Lemma pseg_frame m m' p l e : seg m p l e -> (forall a b, (a, b) ∈ l -> m' !! a = m !! a) -> seg m' p l e.
Proof. apply lseg_frame. Qed.

Lemma seg_insert m p l e x b : seg m p l e -> x ∉ l.*1 -> seg (<[x := b]> m) p l e.
Proof. apply lseg_insert. Qed.

(** Two ways with the same start and end (NULL, which is no pbuf) are the same. *)
Lemma seg_null_unique m p l l' : m !! NULL = None -> seg m p l NULL -> seg m p l' NULL -> l = l'.
Proof. intros Hn Hs Hs'. by eapply lseg_det. Qed.

Lemma seg_NoDup m p l : m !! NULL = None -> seg m p l NULL -> NoDup l.*1.
Proof. intros Hn Hs. by eapply lseg_NoDup. Qed.

Lemma seg_size m p l : m !! NULL = None -> seg m p l NULL -> (length l <= size m)%nat.
Proof. intros Hn Hs. by eapply lseg_length. Qed.

(** A pbuf to which no pbuf points is not on the way from another one. *)
Lemma seg_unreferenced m p l e x :
  seg m p l e -> (forall a b, m !! a = Some b -> p_next b <> x) -> p <> x -> (x ∉ l.*1) /\ e <> x.
Proof.
  revert p. induction l as [|[a b] l IH]; intros p; cbn [lseg fmap list_fmap fst].
  - intros -> _ Hp. split; [apply not_elem_of_nil|done].
  - intros (-> & Ha & Hs) Hno Hp. destruct (IH _ Hs Hno (Hno _ _ Ha)) as [H1 H2]. split; [|done].
    intros [->|Hin]%elem_of_cons; [done|by apply H1].
Qed.

Lemma total_app l1 l2 : total (l1 ++ l2) = total l1 + total l2.
Proof. unfold total. induction l1 as [|x l1 IH]; cbn; [done|]. rewrite IH. lia. Qed.

Lemma tot_ok_total l : tot_ok l -> 0 <= total l.
Proof.
  induction l as [|[a b] l IH]; [done|]. intros (Hu & _ & _ & Hl). specialize (IH Hl).
  change (total ((a, b) :: l)) with (p_len b + total l). unfold_c. lia.
Qed.

(** ** Lemmas: freeing, in detail *)

(** One pointer less to the pbuf [e]. *)
Definition dec (m : gmap Z pbuf) (e : Z) : gmap Z pbuf :=
  match m !! e with Some b => <[e := with_ref b (p_ref b - 1)]> m | None => m end.

Lemma free_loop_prefix fuel s B ext p count l e :
  pbuf_inv s B (ext_add ext p) -> (size (pbufs s) <= fuel)%nat -> is_u8 count ->
  seg (pbufs s) p l e -> Forall (λ x, p_ref x.2 = 1) l ->
  (e = NULL \/ exists b, pbufs s !! e = Some b /\ 1 < p_ref b) ->
  exists s', free_loop fuel s p count = Ret (u8 (count + length l), s')
    /\ pbuf_inv s' (dels B l.*1) ext /\ pbufs s' = dec (dels (pbufs s) l.*1) e
    /\ data s' = data s /\ pbuf_free_ooseq_pending s' = pbuf_free_ooseq_pending s.
Proof.
  revert s B p count l. induction fuel as [|fuel IH]; intros s B p count l HI Hf Hc Hs Hr He.
  { assert (E : pbufs s = ∅) by (apply map_size_empty_iff; lia).
    destruct l as [|[a b] l]; [|destruct Hs as (_ & Ha & _); by rewrite E in Ha]. cbn in Hs. subst e.
    destruct He as [->|(b & Hb & _)]; [|by rewrite E in Hb].
    exists s. cbn. rewrite Z.add_0_r, u8_small by (unfold_c; lia). split_and!; try done.
    - eapply inv_ext_eq; [|exact HI]. intros a Ha. unfold ext_add. by rewrite decide_False by congruence.
    - unfold dec. by rewrite E. }
  destruct l as [|[a b] l]; cbn [lseg] in Hs; cbn [free_loop].
  - subst e. cbn [length fmap list_fmap dels fold_left]. rewrite Nat2Z.inj_0, Z.add_0_r, (u8_small count) by (unfold_c; lia).
    destruct He as [->|(b & Hb & Hgt)].
    + rewrite Z.eqb_refl. exists s. split_and!; try done.
      * eapply inv_ext_eq; [|exact HI]. intros a Ha. unfold ext_add. by rewrite decide_False by congruence.
      * unfold dec. by rewrite (inv_not_null _ _ _ HI).
    + destruct (inv_lookup _ _ _ _ _ HI Hb) as (k & _ & _ & Hpos). destruct (inv_refs _ _ _ HI _ _ Hb).
      rewrite (proj2 (Z.eqb_neq p NULL)) by (unfold NULL; lia). unfold deref. rewrite Hb. cbn [mbind outcome_bind].
      rewrite LWIP_ASSERT_ok by (apply Z.ltb_lt; lia). cbn [mbind outcome_bind].
      rewrite u8_small by lia. rewrite (proj2 (Z.eqb_neq (p_ref b - 1) 0)) by lia.
      eexists. split_and!; [done|by apply inv_decrement|unfold dec; by rewrite Hb|done|done].
  - destruct Hs as (-> & Ha & Hs). apply Forall_cons in Hr as [Hb Hr]. cbn in Hb.
    destruct (inv_lookup _ _ _ _ _ HI Ha) as (k & Hk & (Hkind & _) & Hpos).
    rewrite (proj2 (Z.eqb_neq a NULL)) by (unfold NULL; lia). unfold deref. rewrite Ha. cbn [mbind outcome_bind].
    rewrite Hb. cbn [LWIP_ASSERT Z.ltb Z.compare mbind outcome_bind Z.sub]. change (u8 (1 - 1)) with 0. cbn [Z.eqb].
    destruct (dealloc_spec (set_pbuf s a (with_ref b 0)) B a b k (inv_holds _ _ _ HI) Hk Hkind)
      as (st & -> & Hst). cbn [mbind outcome_bind set_pbuf with_pbufs pbufs]. rewrite delete_insert_eq.
    pose proof (inv_release _ _ _ _ _ st HI Ha Hb Hst) as HI'.
    destruct (inv_refs _ _ _ HI _ _ Ha) as [Er _]. unfold ext_add in Er. rewrite decide_True in Er by done.
    assert (Hno : forall x c, pbufs s !! x = Some c -> p_next c <> a) by (apply preds_zero; lia).
    destruct (seg_unreferenced _ _ _ _ a Hs Hno (Hno _ _ Ha)) as [Hal Hae].
    destruct (IH _ _ _ (u8 (count + 1)) l HI') as (s' & E & HI2 & Hp & Hd & Hpend).
    + cbn [with_pmem with_pbufs pbufs]. rewrite map_size_delete_Some by (by eexists). lia.
    + apply u8_range.
    + eapply pseg_frame; [exact Hs|]. intros x c Hx. apply lookup_delete_ne. intros <-.
      apply Hal, list_elem_of_fmap. by exists (a, c).
    + done.
    + destruct He as [->|(c & Hc' & Hgt)]; [by left|right]. exists c.
      cbn [with_pmem with_pbufs pbufs]. by rewrite lookup_delete_ne by done.
    + exists s'. split_and!; [|done|done|done|done].
      etrans; [exact E|]. do 2 f_equal. cbn [length]. wrap_solve.
Qed.
End Invariant.

(** ** Options: room for the headers in a pool pbuf *)

Class PbufOptionsOk `{MemOptions} `{PbufOptions} := {
  hlen_range : 0 <= PBUF_LINK_ENCAPSULATION_HLEN /\ 0 <= PBUF_LINK_HLEN /\ 20 <= PBUF_IP_HLEN
               /\ PBUF_TRANSPORT <= 4096;
  bufsize_range : 0 <= PBUF_POOL_BUFSIZE <= 60000;
  bufsize_room : LWIP_MEM_ALIGN_SIZE PBUF_TRANSPORT < PBUF_POOL_BUFSIZE_ALIGNED
}.

Section Alloc.
Context `{MO : MemOptions} {MOk : MemOptionsOk} `{PO : PbufOptions} {POk : PbufOptionsOk} {St : Type} `{!PacketMemory St}.
Abbreviation pst := (@pstate St).
Abbreviation SP := SIZEOF_STRUCT_PBUF.
Abbreviation BUF := PBUF_POOL_BUFSIZE_ALIGNED.

(** ** Lemmas: alignment *)

Lemma align_unique x a b :
  x <= a < x + MEM_ALIGNMENT -> x <= b < x + MEM_ALIGNMENT -> (MEM_ALIGNMENT | a) -> (MEM_ALIGNMENT | b) -> a = b.
Proof. intros Ha Hb [i ->] [j ->]. pose proof align_pos. enough (i = j) by congruence. nia. Qed.

Lemma align_size_u16 n : 0 <= n < 65536 -> n <= LWIP_MEM_ALIGN_SIZE n < n + 4096 /\ (MEM_ALIGNMENT | LWIP_MEM_ALIGN_SIZE n).
Proof. intros Hn. pose proof align_pos. destruct (align_size_spec n); [lia..|]. split; [lia|done]. Qed.

Lemma align_size_mono n n' : 0 <= n <= n' -> n' < 65536 -> LWIP_MEM_ALIGN_SIZE n <= LWIP_MEM_ALIGN_SIZE n'.
Proof. intros Hn Hn'. pose proof align_pos. rewrite !align_size_eq by lia. apply Z.mul_le_mono_nonneg_r; [lia|]. apply Z.div_le_mono; lia. Qed.

Lemma sizeof_pbuf_facts : 24 <= SP < 24 + 4096 /\ (MEM_ALIGNMENT | SP) /\ LWIP_MEM_ALIGN_SIZE SP = SP.
Proof.
  unfold SP. destruct (align_size_u16 sizeof_struct_pbuf) as [A1 A2]; [unfold sizeof_struct_pbuf; lia|].
  unfold sizeof_struct_pbuf in *. split_and!; [lia|lia|done|].
  destruct (align_size_spec (LWIP_MEM_ALIGN_SIZE 24)) as [A3 A4]; [lia|pose proof align_pos; lia|].
  pose proof align_pos. symmetry. apply (align_unique (LWIP_MEM_ALIGN_SIZE 24)); [lia|lia|done|done].
Qed.

Lemma align_payload p offset :
  0 < p -> (MEM_ALIGNMENT | p) -> 0 <= offset < 65536 -> p + SP + offset <= 2 ^ 63 ->
  LWIP_MEM_ALIGN (p + SP + offset) = p + SP + LWIP_MEM_ALIGN_SIZE offset.
Proof.
  intros Hp Ha Ho Hb. destruct sizeof_pbuf_facts as (HS & HdS & _). pose proof align_pos.
  destruct (align_addr_spec (p + SP + offset)) as [A1 A2]; [lia..|].
  destruct (align_size_spec offset) as [A3 A4]; [lia..|].
  apply (align_unique (p + SP + offset)); [lia|lia|done|]. apply Z.divide_add_r; [by apply Z.divide_add_r|done].
Qed.

Lemma layer_facts layer :
  0 <= layer <= PBUF_TRANSPORT ->
  layer <= LWIP_MEM_ALIGN_SIZE layer < 8192 /\ LWIP_MEM_ALIGN_SIZE layer < BUF /\ BUF < 65536
  /\ u16 layer = layer.
Proof.
  intros Hl. pose proof hlen_range as (? & ? & ? & ?). pose proof bufsize_range. pose proof bufsize_room.
  destruct (align_size_u16 layer) as [A1 _]; [lia|]. pose proof (align_size_mono layer PBUF_TRANSPORT).
  unfold BUF in *. destruct (align_size_u16 PBUF_POOL_BUFSIZE) as [A2 _]; [lia|].
  split_and!; [lia|lia|lia|lia|apply u16_small; lia].
Qed.

(** ** Lemmas: a chain from the pool *)

(** The lengths of the pbufs for [rem] bytes when the first one has [room]. *)
Fixpoint pool_lens (fuel : nat) (rem room : Z) : list Z :=
  match fuel with
  | O => []
  | S fuel => if rem <=? room then [rem] else room :: pool_lens fuel (rem - room) BUF
  end.

Definition adds (B : gmap Z block) (xs : list Z) (k : block) : gmap Z block :=
  fold_left (λ B x, <[x := k]> B) xs B.

Lemma lookup_adds B xs k a : a ∈ xs -> adds B xs k !! a = Some k.
Proof.
  intros Ha. assert (Hg : forall B, a ∈ xs \/ B !! a = Some k -> adds B xs k !! a = Some k); [|by apply Hg; left].
  clear. induction xs as [|x xs IH]; intros B Hor; cbn [adds fold_left].
  - destruct Hor as [Hn|]; [by apply not_elem_of_nil in Hn|done].
  - apply IH. destruct (decide (a = x)) as [->|Hne]; [right; apply lookup_insert_eq|].
    rewrite lookup_insert_ne by done. rewrite elem_of_cons in Hor. tauto.
Qed.

Lemma count_insert B a k : B !! a = None -> count_blocks k (<[a := k]> B) = S (count_blocks k B).
Proof.
  intros Ha. unfold count_blocks. rewrite map_filter_insert_True by done.
  rewrite map_size_insert_None; [done|]. apply map_lookup_filter_None. by left.
Qed.

(** What the last pbuf of the chain so far points to after a new one. *)
Definition relink (p last q a : Z) (o : option pbuf) : option pbuf :=
  if decide (p <> NULL /\ a = last) then (λ b, with_next b q) <$> o else o.

Lemma pool_append s B ext p last l st q bq :
  pbuf_inv s B (ext_add ext p) -> seg (pbufs s) p l NULL -> Forall (λ x, p_ref x.2 = 1) l ->
  (p = NULL /\ l = [] \/ p <> NULL /\ exists l0 lb, l = l0 ++ [(last, lb)]) ->
  mem_holds st (<[q := BPool]> B) -> B !! q = None -> node_ok q bq BPool -> p_next bq = NULL -> p_ref bq = 1 ->
  let s1 := set_pbuf (with_pmem s st) q bq in
  let p1 := if p =? NULL then q else p in
  exists s2 l1,
    (if p =? NULL then Ret s1 else b ← deref s1 last; Ret (set_pbuf s1 last (with_next b q))) = Ret s2
    /\ pbuf_inv s2 (<[q := BPool]> B) (ext_add ext p1) /\ pbufs s !! q = None /\ 0 < q
    /\ pbufs s2 !! q = Some bq /\ (forall a, a <> q -> pbufs s2 !! a = relink p last q a (pbufs s !! a))
    /\ seg (pbufs s2) p1 l1 NULL /\ l1.*1 = l.*1 ++ [q] /\ Forall (λ x, p_ref x.2 = 1) l1
    /\ (exists l0, l1 = l0 ++ [(q, bq)]) /\ data s2 = data s
    /\ pbuf_free_ooseq_pending s2 = pbuf_free_ooseq_pending s.
Proof.
  intros HI Hs Hr Hl Hst HB Hq Hn1 Hr1 s1 p1.
  destruct (mem_holds_range _ _ q BPool Hst (lookup_insert_eq _ _ _)) as (Hpos & _).
  assert (Hnew : pbufs s !! q = None).
  { destruct (pbufs s !! q) eqn:E; [|done]. destruct (proj1 (inv_dom _ _ _ HI q) ltac:(eauto)) as [k Hk].
    by rewrite Hk in HB. }
  pose proof (inv_new _ _ _ _ _ _ _ HI Hst HB Hq Hn1 Hr1) as HI1. fold s1 in HI1.
  destruct Hl as [[-> ->]|[Hp (l0 & lb & ->)]].
  - exists s1, [(q, bq)]. unfold p1. rewrite Z.eqb_refl. split_and!; try done.
    + eapply inv_ext_eq; [|exact HI1]. intros a Ha. unfold ext_add. by rewrite (decide_False (P := a = NULL)) by done.
    + cbn. by rewrite lookup_insert_eq.
    + intros a Ha. cbn. rewrite lookup_insert_ne by done. unfold relink. by rewrite decide_False by tauto.
    + cbn. by rewrite lookup_insert_eq.
    + repeat constructor. done.
    + by exists [].
  - assert (Hlast : pbufs s !! last = Some lb) by (eapply seg_lookup; [exact Hs|apply elem_of_app; right; by left]).
    assert (Hne : last <> q) by congruence.
    apply pseg_app in Hs as (x & Hs0 & (-> & _ & Hend)). cbn in Hend.
    assert (Hnd : NoDup (l0 ++ [(last, lb)]).*1).
    { eapply seg_NoDup; [exact (inv_not_null _ _ _ HI)|]. apply pseg_app. exists last. split; [exact Hs0|by cbn]. }
    rewrite fmap_app in Hnd. apply NoDup_app in Hnd as (_ & Hnd & _).
    assert (Hl0 : last ∉ l0.*1) by (intros Hin; apply (Hnd last Hin); by left).
    assert (Hq0 : q ∉ l0.*1).
    { intros Hin. apply list_elem_of_fmap in Hin as ([q' c] & -> & Hin).
      pose proof (seg_lookup _ _ _ _ _ _ Hs0 Hin). cbn in *. congruence. }
    assert (Hl1 : pbufs s1 !! last = Some lb) by (cbn; by rewrite lookup_insert_ne by done).
    exists (set_pbuf s1 last (with_next lb q)), (l0 ++ [(last, with_next lb q); (q, bq)]).
    unfold p1. rewrite (proj2 (Z.eqb_neq p NULL)) by done. unfold deref. rewrite Hl1.
    split_and!; try done.
    + eapply inv_link; [exact HI1|done|done|unfold NULL; lia|done|done|]. by intros k Hk.
    + cbn. rewrite lookup_insert_ne, lookup_insert_eq by done. done.
    + intros a Ha. cbn. unfold relink. destruct (decide (a = last)) as [->|Hal].
      * rewrite lookup_insert_eq, decide_True, Hlast by done. done.
      * rewrite !lookup_insert_ne, decide_False by (done || tauto). done.
    + apply pseg_app. exists last. split.
      * apply seg_insert; [|done]. apply seg_insert; done.
      * cbn. rewrite lookup_insert_eq, lookup_insert_ne, lookup_insert_eq by done. done.
    + rewrite !fmap_app. cbn. by rewrite <- app_assoc.
    + apply Forall_app in Hr as [Hr0 Hrl]. apply Forall_cons in Hrl as [Hrl _].
      apply Forall_app. split; [done|]. by repeat constructor.
    + exists (l0 ++ [(last, with_next lb q)]). by rewrite <- app_assoc.
Qed.

(** A pbuf as pbuf_alloc initialises it. *)
Definition alloced (type : Z) (b : pbuf) : Prop :=
  p_type_internal b = u8 type /\ p_flags b = 0 /\ p_ref b = 1 /\ p_if_idx b = NETIF_NO_INDEX.

Lemma pool_node_ok q rem qlen offset :
  0 < q -> (MEM_ALIGNMENT | q) -> q + block_size BPool <= 2 ^ 63 ->
  0 <= offset < 65536 -> 0 <= qlen <= BUF - LWIP_MEM_ALIGN_SIZE offset -> is_u16 qlen -> is_u16 rem ->
  let payload := LWIP_MEM_ALIGN (q + SP + offset) in
  node_ok q (Pbuf NULL payload rem qlen (u8 PBUF_POOL) 0 1 NETIF_NO_INDEX) BPool
  /\ payload mod MEM_ALIGNMENT = 0.
Proof.
  intros Hq Ha Hb Ho Hl Hu Hu' payload. unfold payload.
  destruct (align_size_u16 offset Ho) as [A1 A2]. destruct sizeof_pbuf_facts as (HS & HdS & _).
  cbn [block_size] in Hb. pose proof (align_payload q offset Hq Ha Ho) as ->; [|lia].
  split; [|apply Z.mod_divide; [pose proof align_pos; lia|]; repeat apply Z.divide_add_r; done].
  split_and!; try done. cbn [payload_ok p_payload p_len block_size]. lia.
Qed.

(** The pool is empty: what was allocated so far is given back. *)
Lemma pool_exhausted s B ext p l st :
  pbuf_inv s B (ext_add ext p) -> seg (pbufs s) p l NULL -> Forall (λ x, p_ref x.2 = 1) l ->
  (p = NULL /\ l = [] \/ p <> NULL) -> mem_holds st B ->
  exists s', (s2 ← (if negb (p =? NULL)
                   then '(_, s2) ← pbuf_free (pbuf_pool_is_empty (with_pmem s st)) p; Ret s2
                   else Ret (pbuf_pool_is_empty (with_pmem s st)));
             Ret (NULL, s2)) = Ret (NULL, s')
    /\ pbuf_inv s' (dels B l.*1) ext /\ pbufs s' = dels (pbufs s) l.*1 /\ data s' = data s.
Proof.
  intros HI Hs Hr Hl Hst.
  assert (He : exists s1, pbuf_pool_is_empty (with_pmem s st) = s1 /\ pbuf_inv s1 B (ext_add ext p)
            /\ pbufs s1 = pbufs s /\ data s1 = data s).
  { eexists. split; [done|]. unfold pbuf_pool_is_empty. pose proof (try_callback_law st B Hst) as Ht.
    cbn [with_pmem with_pending pmem pbuf_free_ooseq_pending] in *.
    destruct (pm_try_callback st) as [ok st2]. cbn [snd] in Ht.
    destruct (negb _); [destruct ok|]; (split; [|done]); destruct HI; by split. }
  destruct He as (s1 & -> & HI1 & Ep & Ed).
  destruct Hl as [[-> ->]|Hp].
  - rewrite Z.eqb_refl. cbn [negb mbind outcome_bind]. exists s1. split_and!; try done.
    eapply inv_ext_eq; [|exact HI1]. intros a Ha. unfold ext_add. by rewrite decide_False by done.
  - rewrite (proj2 (Z.eqb_neq p NULL)) by done. cbn [negb]. unfold pbuf_free.
    rewrite (proj2 (Z.eqb_neq p NULL)) by done.
    destruct (free_loop_prefix (chain_fuel s1) s1 B ext p 0 l NULL) as (s' & -> & HI' & Ep' & Ed' & _);
      [done|unfold chain_fuel; lia|done|by rewrite Ep|done|by left|].
    cbn [mbind outcome_bind]. exists s'. split_and!; [done|done| |congruence].
    rewrite Ep'. unfold dec. rewrite lookup_dels, Ep, (inv_not_null _ _ _ HI). by case_decide.
Qed.

(** Removing the chain with its new pbuf is removing the chain so far. *)
Lemma dels_append {A} (m m' : gmap Z A) l l1 q :
  l1 = l ++ [q] -> m !! q = None -> (forall a, a <> q -> a ∉ l -> m' !! a = m !! a) -> dels m' l1 = dels m l.
Proof.
  intros -> Hq Hm. apply map_eq. intros a. rewrite !lookup_dels, !(decide_ext _ _ _ _ (elem_of_app l [q] a)).
  destruct (decide (a ∈ l)) as [Hin|Hno].
  - by rewrite decide_True by (by left).
  - destruct (decide (a = q)) as [->|Hne].
    + by rewrite decide_True by (right; by left).
    + rewrite decide_False; [by apply Hm|]. rewrite list_elem_of_singleton. tauto.
Qed.

Lemma alloc_pool_spec (fuel : nat) s B ext p last l rem offset :
  pbuf_inv s B (ext_add ext p) -> seg (pbufs s) p l NULL -> Forall (λ x, p_ref x.2 = 1) l ->
  (p = NULL /\ l = [] \/ p <> NULL /\ exists l0 lb, l = l0 ++ [(last, lb)]) ->
  0 <= offset < 65536 -> LWIP_MEM_ALIGN_SIZE offset < BUF < 65536 -> is_u16 rem -> rem < fuel ->
  let lens := pool_lens fuel rem (BUF - LWIP_MEM_ALIGN_SIZE offset) in
  if decide (count_blocks BPool B + length lens <= num_pool)%nat then
    exists p' s' q1 l', alloc_pool_loop fuel s PBUF_POOL p last rem offset = Ret (p', s')
      /\ p' = (if p =? NULL then q1 else p) /\ q1 <> NULL /\ seg (pbufs s') q1 l' NULL /\ tot_ok l'
      /\ (λ x, p_len x.2) <$> l' = lens /\ total l' = rem
      /\ Forall (λ x, alloced PBUF_POOL x.2 /\ pbufs s !! x.1 = None) l'
      /\ (forall a, a ∉ l'.*1 -> pbufs s' !! a = relink p last q1 a (pbufs s !! a))
      /\ pbuf_inv s' (adds B l'.*1 BPool) (ext_add ext p') /\ data s' = data s
      /\ pbuf_free_ooseq_pending s' = pbuf_free_ooseq_pending s
  else
    exists s', alloc_pool_loop fuel s PBUF_POOL p last rem offset = Ret (NULL, s')
      /\ pbuf_inv s' (dels B l.*1) ext /\ pbufs s' = dels (pbufs s) l.*1 /\ data s' = data s.
Proof.
  revert s B p last l rem offset. induction fuel as [|fuel IH]; intros s B p last l rem offset HI Hs Hr Hl Ho Hroom Hrem Hf lens;
    [unfold_c; lia|].
  unfold lens. cbn [alloc_pool_loop pool_lens].
  pose proof (malloc_pool_law _ _ (inv_holds _ _ _ HI)) as Hm.
  destruct (decide (count_blocks BPool B < num_pool)%nat) as [Hc|Hc].
  2:{ destruct Hm as (st & -> & Hst). cbn [mbind outcome_bind]. rewrite decide_False by (case_if; cbn [length]; lia).
      apply (pool_exhausted s B ext p l st); try done. destruct Hl as [?|[? _]]; auto. }
  destruct Hm as (q & st & -> & HB & Hst). cbn [mbind outcome_bind].
  destruct (mem_holds_range _ _ q BPool Hst (lookup_insert_eq _ _ _)) as (Hq & Hqb & Hqa).
  set (room := BUF - LWIP_MEM_ALIGN_SIZE offset) in *.
  destruct (align_size_u16 offset Ho) as [A1 _].
  rewrite (u32_small room), (u16_small room) by lia.
  assert (Hlen : 0 <= Z.min rem room <= room /\ is_u16 (Z.min rem room)) by (unfold_c; lia).
  destruct (pool_node_ok q rem (Z.min rem room) offset Hq Hqa Hqb Ho ltac:(lia) ltac:(tauto) Hrem) as [Hnode Hal].
  rewrite (LWIP_ASSERT_ok "pbuf_alloc: pbuf q->payload properly aligned") by (by apply Z.eqb_eq).
  rewrite LWIP_ASSERT_ok by (apply Z.ltb_lt; lia). cbn [mbind outcome_bind].
  unfold pbuf_init_alloced_pbuf. set (bq := Pbuf NULL _ rem (Z.min rem room) _ _ _ _) in *.
  destruct (pool_append s B ext p last l st q bq HI Hs Hr Hl Hst HB Hnode eq_refl eq_refl)
    as (s2 & l1 & -> & HI2 & Hnew & _ & Hq2 & Hother & Hs2 & Hl1 & Hr2 & (l0 & El1) & Hd2 & Hp2).
  cbn [mbind outcome_bind]. set (p1 := if p =? NULL then q else p) in *.
  destruct (rem <=? room) eqn:Hle; bool_to_prop.
  - rewrite Z.min_l, Z.sub_diag by lia. change (0 <? u16 0) with false. cbn [length].
    rewrite decide_True by lia. exists p1, s2, q, [(q, bq)]. unfold bq in *. rewrite Z.min_l in * by lia.
    split_and!; try done.
    + unfold NULL. lia.
    + cbn. unfold_c. lia.
    + cbn. unfold total. cbn. lia.
    + repeat constructor; done.
    + intros a Ha. apply Hother. intros ->. apply Ha. by left.
  - rewrite Z.min_r in * by lia. rewrite (u16_small (rem - room)) by (unfold_c; lia).
    rewrite (proj2 (Z.ltb_lt 0 (rem - room))) by lia. cbn [length].
    assert (E0 : LWIP_MEM_ALIGN_SIZE 0 = 0).
    { destruct (align_size_spec 0) as [[B1 B2] B3]; [lia|pose proof align_pos; lia|].
      pose proof align_pos. apply (align_unique 0); [lia|lia|done|apply Z.divide_0_r]. }
    assert (Hp1 : p1 <> NULL).
    { unfold p1. destruct (p =? NULL) eqn:Ep; bool_to_prop; [unfold NULL; lia|done]. }
    specialize (IH s2 (<[q := BPool]> B) p1 q l1 (rem - room) 0 HI2 Hs2 Hr2).
    rewrite E0, Z.sub_0_r in IH. specialize (IH ltac:(right; split; [done|by eauto]) ltac:(lia) ltac:(lia)
      ltac:(unfold_c; lia) ltac:(lia)). cbn zeta in IH. rewrite (count_insert B q BPool HB) in IH.
    destruct (decide (S (count_blocks BPool B) + _ <= num_pool)%nat) as [Hn|Hn].
    + rewrite decide_True by lia.
      destruct IH as (p' & s' & q2 & l2 & -> & -> & Hq2n & Hs' & Ht' & Hlens & Htot & Hall & Hoth & HI' & Hd' & Hpd').
      rewrite (proj2 (Z.eqb_neq p1 NULL)) in * by done.
      assert (Hq2' : q ∉ l2.*1).
      { intros Hin. apply list_elem_of_fmap in Hin as ([a b] & -> & Hin). rewrite Forall_forall in Hall.
        destruct (Hall _ Hin) as [_ Hno]. cbn in *. congruence. }
      assert (Hbq : pbufs s' !! q = Some (with_next bq q2)).
      { rewrite Hoth by done. unfold relink. by rewrite decide_True, Hq2. }
      exists p1, s', q, ((q, with_next bq q2) :: l2). split_and!; try done.
      * unfold NULL; lia.
      * cbn. rewrite Z.min_r by lia. unfold_c. split_and!; try done; lia.
      * cbn. rewrite Z.min_r by lia. f_equal. exact Hlens.
      * change (Z.min rem room + total l2 = rem). lia.
      * constructor; [done|]. eapply Forall_impl; [exact Hall|]. intros [a b] [Ha1 Ha2]. split; [done|].
        cbn in *. destruct (decide (a = q)) as [->|Hne]; [done|]. rewrite Hother in Ha2 by done.
        unfold relink in Ha2. case_decide; [|done]. by destruct (pbufs s !! a).
      * intros a Ha. cbn [fmap list_fmap fst] in Ha. apply not_elem_of_cons in Ha as [Ha1 Ha2].
        rewrite Hoth by done. unfold relink at 1. rewrite decide_False by tauto. by apply Hother.
      * congruence.
      * congruence.
    + rewrite decide_False by lia. destruct IH as (s' & -> & HI' & Ep & Ed). exists s'.
      split_and!; [done| | |congruence].
      * rewrite <- (dels_append B (<[q := BPool]> B) l.*1 l1.*1 q Hl1 HB); [done|].
        intros a Ha _. by apply lookup_insert_ne.
      * rewrite Ep. apply (dels_append _ _ _ _ q Hl1 Hnew). intros a Ha Hno. rewrite Hother by done.
        unfold relink. rewrite decide_False; [done|]. intros [Hpn ->].
        destruct Hl as [[? _]|[_ (l00 & lb & ->)]]; [done|]. apply Hno. rewrite fmap_app.
        apply elem_of_app. right. by left.
Qed.

(** ** Lemmas: the other allocations *)

Lemma alloc_ram_spec s B ext layer length :
  pbuf_inv s B ext -> 0 <= layer <= PBUF_TRANSPORT -> is_u16 length ->
  let room := LWIP_MEM_ALIGN_SIZE layer + LWIP_MEM_ALIGN_SIZE length in
  if decide (room < 65536 /\ SP + room < 256 ^ sizeof_mem_size_t) then
    exists r st, pm_mem_malloc (pmem s) (SP + room) = Ret (r, st) /\
      match r with
      | None => alloc_ram s layer length PBUF_RAM = Ret (NULL, with_pmem s st)
                /\ pbuf_inv (with_pmem s st) B ext
      | Some p =>
          let b := Pbuf NULL (p + SP + LWIP_MEM_ALIGN_SIZE layer) length length (u8 PBUF_RAM) 0 1 NETIF_NO_INDEX in
          exists k, alloc_ram s layer length PBUF_RAM = Ret (p, set_pbuf (with_pmem s st) p b)
            /\ SP + room <= k /\ p <> NULL /\ pbufs s !! p = None
            /\ pbuf_inv (set_pbuf (with_pmem s st) p b) (<[p := BHeap k]> B) (ext_add ext p)
      end
  else alloc_ram s layer length PBUF_RAM = Ret (NULL, s).
Proof.
  intros HI Hl Hlen room. destruct (layer_facts layer Hl) as (A1 & A2 & A3 & _).
  destruct (align_size_u16 length) as [A4 _]; [unfold_c; lia|]. destruct sizeof_pbuf_facts as (HS & HdS & HSS).
  pose proof W_pos as HW. assert (Hlen' : 0 <= length < 65536) by exact Hlen. unfold alloc_ram. rewrite HSS. fold room.
  assert (Hroom : 0 <= room < 2 * 65536 - 8192) by (unfold room; unfold_c; lia).
  rewrite (u32_small room) by lia. assert (Hu : is_u16 (u16 room)) by apply u16_range.
  rewrite (u32_small (SP + u16 room)) by (unfold_c; lia).
  case_decide as Hc.
  - destruct Hc as [C1 C2]. rewrite (u16_small room), mem_size_t_small by lia.
    rewrite (proj2 (Z.ltb_ge room _)) by (unfold room; lia).
    rewrite (proj2 (Z.ltb_ge (SP + room) _)) by (unfold room; lia). cbn [orb].
    destruct (mem_malloc_law _ _ (SP + room) (inv_holds _ _ _ HI)) as (r & st & E & Hr); [lia|].
    exists r, st. split; [done|]. rewrite E. cbn [mbind outcome_bind]. destruct r as [p|]; [|by split; [|apply inv_pmem]].
    destruct Hr as (k & Hk & HB & Hst).
    destruct (mem_holds_range _ _ p _ Hst (lookup_insert_eq _ _ _)) as (Hp & Hpb & Hpa). cbn [block_size] in Hpb.
    exists k. rewrite align_payload by (done || unfold room in *; lia).
    rewrite LWIP_ASSERT_ok.
    2:{ apply Z.eqb_eq, Z.mod_divide; [pose proof align_pos; lia|]. repeat apply Z.divide_add_r; try done.
        apply align_size_u16. pose proof hlen_range. lia. }
    cbn [mbind outcome_bind]. unfold pbuf_init_alloced_pbuf. split_and!; [done|done|unfold NULL; lia| |].
    + destruct (pbufs s !! p) eqn:Ep; [|done]. destruct (proj1 (inv_dom _ _ _ HI p) ltac:(eauto)) as [k' Hk'].
      by rewrite Hk' in HB.
    + apply inv_new; try done. split_and!; try done. cbn [payload_ok p_payload p_len block_size]. unfold room in Hk. lia.
  - assert (Hor : (u16 room <? LWIP_MEM_ALIGN_SIZE length) || (mem_size_t (SP + u16 room) <? LWIP_MEM_ALIGN_SIZE length) = true);
      [|by rewrite Hor].
    apply orb_true_iff. rewrite !Z.ltb_lt. destruct (decide (room < 65536)) as [C1|C1].
    + right. rewrite u16_small by lia. unfold mem_size_t. destruct HW as [HW|HW]; rewrite HW in *.
      * change (256 ^ 2) with 65536 in *. unfold room in *. Z.div_mod_to_equations. lia.
      * exfalso. apply Hc. split; [done|]. change (256 ^ 4) with 4294967296. lia.
    + left. unfold room in *. wrap_solve.
Qed.

Lemma alloc_ref_spec s B ext payload length type :
  pbuf_inv s B ext -> is_u16 length -> type = PBUF_REF \/ type = PBUF_ROM ->
  if decide (count_blocks BRef B < num_ref)%nat then
    exists p st, let b := Pbuf NULL payload length length (u8 type) 0 1 NETIF_NO_INDEX in
      pbuf_alloc_reference s payload length type = Ret (p, set_pbuf (with_pmem s st) p b)
      /\ p <> NULL /\ pbufs s !! p = None
      /\ pbuf_inv (set_pbuf (with_pmem s st) p b) (<[p := BRef]> B) (ext_add ext p)
  else
    exists st, pbuf_alloc_reference s payload length type = Ret (NULL, with_pmem s st)
      /\ pbuf_inv (with_pmem s st) B ext.
Proof.
  intros HI Hlen Ht. unfold pbuf_alloc_reference. rewrite LWIP_ASSERT_ok by (by destruct Ht as [-> | ->]).
  cbn [mbind outcome_bind]. pose proof (malloc_ref_law _ _ (inv_holds _ _ _ HI)) as Hm. case_decide.
  - destruct Hm as (p & st & -> & HB & Hst). cbn [mbind outcome_bind]. exists p, st.
    destruct (mem_holds_range _ _ p _ Hst (lookup_insert_eq _ _ _)) as (Hp & _). unfold pbuf_init_alloced_pbuf.
    split_and!; [done|unfold NULL; lia| |].
    + destruct (pbufs s !! p) eqn:Ep; [|done]. destruct (proj1 (inv_dom _ _ _ HI p) ltac:(eauto)) as [k' Hk'].
      by rewrite Hk' in HB.
    + apply inv_new; try done. split_and!; try done; by destruct Ht as [-> | ->].
  - destruct Hm as (st & -> & Hst). exists st. split; [done|]. by apply inv_pmem.
Qed.
End Alloc.

(** ** Properties *)

Section Properties.
Context `{MO : MemOptions} {MOk : MemOptionsOk} `{PO : PbufOptions} {POk : PbufOptionsOk} {St : Type} `{!PacketMemory St}.
Abbreviation pst := (@pstate St).

(** C32: pbuf_free gives one pointer back and keeps the reference counts exact:
    on a pointer the caller holds it never reaches an assertion, frees only memory
    that nothing refers to any more (no pointer dangles afterwards), returns every
    structure to the allocator it came from, and changes nothing else but counts. *)
Theorem pbuf_free_keeps_refcounts (s : pst) B ext p :
  pbuf_inv s B ext -> p <> NULL -> (0 < ext p)%nat ->
  exists c s' B', pbuf_free s p = Ret (c, s') /\ pbuf_inv s' B' (ext_sub ext p) /\ B' ⊆ B
    /\ data s' = data s /\ only_refs (pbufs s) (pbufs s').
Proof.
  intros HI Hp He. apply free_inv; [|done]. eapply inv_ext_eq; [|exact HI].
  intros a _. by rewrite ext_add_sub.
Qed.

(** on a chain whose first pbufs have one reference each, up to a pbuf with
    more or to the end, pbuf_free frees exactly those pbufs, takes one reference off
    the next one, and returns their number modulo 256 (1->1->2 becomes ......1). *)
Theorem pbuf_free_frees_prefix (s : pst) B ext p l e :
  pbuf_inv s B ext -> p <> NULL -> (0 < ext p)%nat -> seg (pbufs s) p l e ->
  Forall (λ x, p_ref x.2 = 1) l -> (e = NULL \/ exists b, pbufs s !! e = Some b /\ 1 < p_ref b) ->
  exists s', pbuf_free s p = Ret (u8 (length l), s')
    /\ pbuf_inv s' (dels B l.*1) (ext_sub ext p) /\ pbufs s' = dec (dels (pbufs s) l.*1) e.
Proof.
  intros HI Hp He Hs Hr Hend. unfold pbuf_free. rewrite (proj2 (Z.eqb_neq p NULL)) by done.
  destruct (free_loop_prefix (chain_fuel s) s B (ext_sub ext p) p 0 l e) as (s' & E & HI' & Ep & _); try done.
  - eapply inv_ext_eq; [|exact HI]. intros a _. by rewrite ext_add_sub.
  - unfold chain_fuel. lia.
  - by exists s'.
Qed.

(** pbuf_alloc of a pool chain succeeds exactly when the pool has the pbufs it
    takes (the first with room for the headers of [layer], the others full).  It
    returns a new chain with the requested total length, each pbuf with one
    reference, consistent [tot_len], and its payload inside its own block; nothing
    else changes.  When the pool runs out half way, all is as before: nothing
    leaks. *)
Theorem pbuf_alloc_pool_correct (s : pst) B ext layer len :
  pbuf_inv s B ext -> 0 <= layer <= PBUF_TRANSPORT -> is_u16 len ->
  let lens := pool_lens (S (Z.to_nat len)) len (PBUF_POOL_BUFSIZE_ALIGNED - LWIP_MEM_ALIGN_SIZE layer) in
  if decide (count_blocks BPool B + length lens <= num_pool)%nat then
    exists p s' l, pbuf_alloc s layer len PBUF_POOL = Ret (p, s')
      /\ p <> NULL /\ chain s' p l /\ total l = len /\ (λ x, p_len x.2) <$> l = lens
      /\ Forall (λ x, alloced PBUF_POOL x.2 /\ pbufs s !! x.1 = None) l
      /\ (forall a, a ∉ l.*1 -> pbufs s' !! a = pbufs s !! a)
      /\ pbuf_inv s' (adds B l.*1 BPool) (ext_add ext p) /\ data s' = data s
  else
    exists s', pbuf_alloc s layer len PBUF_POOL = Ret (NULL, s')
      /\ pbuf_inv s' B ext /\ pbufs s' = pbufs s /\ data s' = data s.
Proof.
  intros HI Hl Hlen lens. destruct (layer_facts layer Hl) as (A1 & A2 & A3 & A4).
  pose proof (alloc_pool_spec (S (Z.to_nat len)) s B ext NULL NULL [] len layer) as Ha.
  unfold pbuf_alloc. rewrite A4. cbn [Z.eqb PBUF_POOL PBUF_REF PBUF_ROM orb].
  change (PBUF_POOL =? PBUF_REF) with false. change (PBUF_POOL =? PBUF_ROM) with false.
  change (PBUF_POOL =? PBUF_POOL) with true. cbn [orb].
  assert (HI' : pbuf_inv s B (ext_add ext NULL)).
  { eapply inv_ext_eq; [|exact HI]. intros a Hn. unfold ext_add. by rewrite decide_False by done. }
  specialize (Ha HI' eq_refl (Forall_nil_2 _) (or_introl (conj eq_refl eq_refl)) ltac:(lia) ltac:(lia) Hlen
    ltac:(unfold_c; lia)). fold lens in Ha. cbn zeta in Ha. case_decide.
  - destruct Ha as (p & s' & q & l & E & -> & Hq & Hs & Ht & Hln & Htot & Hall & Hoth & HI2 & Hd & _).
    rewrite Z.eqb_refl in *. exists q, s', l. by split_and!.
  - destruct Ha as (s' & E & HI2 & Hp & Hd). by exists s'.
Qed.

(** pbuf_alloc of a PBUF_RAM pbuf asks the heap for the structure, the aligned
    header room of [layer] and the aligned payload, and returns NULL without asking
    exactly when that size does not fit its integer type (bug #50040).  Otherwise
    it returns NULL exactly when the heap does, or one new pbuf with that payload,
    [layer] bytes of room before it, and all of it inside the block. *)
Theorem pbuf_alloc_ram_correct (s : pst) B ext layer len :
  pbuf_inv s B ext -> 0 <= layer <= PBUF_TRANSPORT -> is_u16 len ->
  let room := LWIP_MEM_ALIGN_SIZE layer + LWIP_MEM_ALIGN_SIZE len in
  if decide (room < 65536 /\ SIZEOF_STRUCT_PBUF + room < 256 ^ sizeof_mem_size_t) then
    exists r st, pm_mem_malloc (pmem s) (SIZEOF_STRUCT_PBUF + room) = Ret (r, st) /\
      match r with
      | None => pbuf_alloc s layer len PBUF_RAM = Ret (NULL, with_pmem s st)
                /\ pbuf_inv (with_pmem s st) B ext
      | Some p =>
          exists s' b k, pbuf_alloc s layer len PBUF_RAM = Ret (p, s') /\ chain s' p [(p, b)]
            /\ p_len b = len /\ alloced PBUF_RAM b /\ p <> NULL /\ pbufs s !! p = None
            /\ pbufs s' = <[p := b]> (pbufs s) /\ data s' = data s
            /\ p + SIZEOF_STRUCT_PBUF + layer <= p_payload b /\ p_payload b + len <= p + k
            /\ pbuf_inv s' (<[p := BHeap k]> B) (ext_add ext p)
      end
  else pbuf_alloc s layer len PBUF_RAM = Ret (NULL, s).
Proof.
  intros HI Hl Hlen room. destruct (layer_facts layer Hl) as (A1 & A2 & A3 & A4).
  pose proof (alloc_ram_spec s B ext layer len HI Hl Hlen) as Ha. cbn zeta in Ha. fold room in Ha.
  unfold pbuf_alloc. rewrite A4. change (PBUF_RAM =? PBUF_REF) with false. change (PBUF_RAM =? PBUF_ROM) with false.
  change (PBUF_RAM =? PBUF_POOL) with false. change (PBUF_RAM =? PBUF_RAM) with true. cbn [orb].
  case_decide; [|done]. destruct Ha as (r & st & E & Ha). exists r, st. split; [done|].
  destruct r as [p|]; [|done]. destruct Ha as (k & E' & Hk & Hp & Hnew & HI'). cbn zeta in *.
  set (b := Pbuf NULL _ len len _ _ _ _) in *. exists (set_pbuf (with_pmem s st) p b), b, k.
  destruct (align_size_u16 len) as [A5 _]; [unfold_c; lia|]. assert (Hl' : is_u16 len) by done.
  split; [done|]. split.
  - split; [split_and!; [done|apply lookup_insert_eq|done]|]. split_and!; try done. cbn. lia.
  - split_and!; try done; unfold b, room in *; cbn [p_payload]; lia.
Qed.
End Properties.

(** ** Witnesses *)

#[export] Instance opt_h_pbuf_options_ok : PbufOptionsOk.
Proof. split; vm_compute; intuition congruence. Qed.

Definition ps0 : pstate := PState ∅ ∅ pmem0 false.
Definition no_ext : Z -> nat := λ _, 0%nat.

Lemma ps0_inv : pbuf_inv ps0 ∅ no_ext.
Proof.
  split; cbn.
  - exact pmem0_blocks.
  - intros a. rewrite !lookup_empty. done.
  - intros a b k. by rewrite lookup_empty.
  - intros a b. by rewrite lookup_empty.
  - intros a b. by rewrite lookup_empty.
  - unfold no_ext. lia.
Qed.

(** A packet of 1000 bytes: two pbufs from the pool. *)
Definition alloc0 : Z * pstate :=
  match pbuf_alloc ps0 PBUF_RAW 1000 PBUF_POOL with Ret r => r | Trap _ => (NULL, ps0) end.
Definition p1 : Z := fst alloc0.
Definition ps1 : pstate := snd alloc0.

Lemma ps1_inv :
  exists l, p1 <> NULL /\ chain ps1 p1 l /\ (λ x, p_len x.2) <$> l = [590; 410]
    /\ Forall (λ x, p_ref x.2 = 1) l /\ pbuf_inv ps1 (adds ∅ l.*1 BPool) (ext_add no_ext p1).
Proof.
  pose proof (alloc_pool_spec (S (Z.to_nat 1000)) ps0 ∅ no_ext NULL NULL [] 1000 0) as Ha.
  specialize (Ha ltac:(eapply inv_ext_eq; [|exact ps0_inv]; intros a Hn; unfold ext_add; by rewrite decide_False)
    eq_refl (Forall_nil_2 _) (or_introl (conj eq_refl eq_refl)) ltac:(lia) ltac:(vm_compute; intuition congruence)
    ltac:(unfold_c; lia) ltac:(lia)).
  assert (El : pool_lens (S (Z.to_nat 1000)) 1000 (PBUF_POOL_BUFSIZE_ALIGNED - LWIP_MEM_ALIGN_SIZE 0) = [590; 410])
    by (vm_compute; reflexivity).
  cbn zeta in Ha. rewrite El in Ha. destruct (decide _) as [_|Hno]; [|exfalso; apply Hno; vm_compute; lia].
  destruct Ha as (p & s' & q & l & E & -> & Hq & Hs & Ht & Hln & _ & Hall & _ & HI & _).
  assert (Er : alloc0 = (q, s')).
  { unfold alloc0, pbuf_alloc. change (u16 PBUF_RAW) with 0.
    change ((PBUF_POOL =? PBUF_REF) || (PBUF_POOL =? PBUF_ROM)) with false.
    change (PBUF_POOL =? PBUF_POOL) with true. cbv iota. by rewrite E. }
  exists l. unfold p1, ps1. rewrite Er. cbn [fst snd].
  split; [exact Hq|]. split; [exact (conj Hs Ht)|]. split; [exact Hln|]. split; [|exact HI].
  eapply Forall_impl; [exact Hall|]. intros x [(_ & _ & Hx & _) _]. exact Hx.
Qed.

Lemma pbuf_free_keeps_refcounts_witness :
  exists B c s' B', pbuf_free ps1 p1 = Ret (c, s') /\ pbuf_inv s' B' (ext_sub (ext_add no_ext p1) p1) /\ B' ⊆ B.
Proof.
  destruct ps1_inv as (l & Hp & _ & _ & _ & HI).
  destruct (pbuf_free_keeps_refcounts ps1 _ _ p1 HI Hp) as (c & s' & B' & E & HI' & HB & _).
  - unfold ext_add. rewrite decide_True; [lia|reflexivity].
  - exists (adds ∅ l.*1 BPool), c, s', B'. split_and!; [exact E|exact HI'|exact HB].
Defined.

Lemma pbuf_free_frees_prefix_witness :
  exists s', pbuf_free ps1 p1 = Ret (2, s') /\ pbufs s' !! p1 = None.
Proof.
  destruct ps1_inv as (l & Hp & [Hs _] & Hln & Hr & HI).
  destruct (pbuf_free_frees_prefix ps1 _ _ p1 l NULL HI Hp) as (s' & E & _ & Ep).
  - unfold ext_add. rewrite decide_True; [lia|reflexivity].
  - exact Hs.
  - exact Hr.
  - left. reflexivity.
  - assert (Hlen : length l = 2%nat) by (apply (f_equal length) in Hln; by rewrite length_fmap in Hln).
    exists s'. split; [rewrite Hlen in E; exact E|]. rewrite Ep. unfold dec.
    destruct l as [|[a b] l]; [discriminate Hlen|]. destruct Hs as (-> & _).
    assert (Hd : forall m, dels m ((a, b) :: l).*1 !! a = (None : option pbuf)).
    { intros m. rewrite lookup_dels. rewrite decide_True; [reflexivity|]. left. }
    destruct (dels (pbufs ps1) ((a, b) :: l).*1 !! NULL) eqn:En; [|apply Hd].
    rewrite lookup_insert_ne by congruence. apply Hd.
Defined.

Lemma pbuf_alloc_pool_correct_witness :
  exists p s' l, pbuf_alloc ps0 PBUF_RAW 1000 PBUF_POOL = Ret (p, s') /\ chain s' p l
    /\ (λ x, p_len x.2) <$> l = [590; 410].
Proof.
  pose proof (pbuf_alloc_pool_correct ps0 ∅ no_ext 0 1000 ps0_inv ltac:(vm_compute; intuition congruence)
    ltac:(vm_compute; intuition congruence)) as Ha. cbn zeta in Ha.
  destruct (decide _) as [_|Hno]; [|exfalso; apply Hno; vm_compute; lia].
  destruct Ha as (p & s' & l & E & _ & Hc & _ & Hl & _). exists p, s', l. split; [exact E|split; [exact Hc|]].
  rewrite Hl. vm_compute. reflexivity.
Defined.

Lemma pbuf_alloc_ram_correct_witness :
  exists p s' b, pbuf_alloc ps0 PBUF_TRANSPORT 100 PBUF_RAM = Ret (p, s') /\ chain s' p [(p, b)] /\ p_len b = 100.
Proof.
  assert (Hl : 0 <= PBUF_TRANSPORT <= PBUF_TRANSPORT) by (vm_compute; intuition congruence).
  assert (Hn : is_u16 100) by (vm_compute; intuition congruence).
  pose proof (pbuf_alloc_ram_correct ps0 ∅ no_ext PBUF_TRANSPORT 100 ps0_inv Hl Hn) as Ha. cbn zeta in Ha.
  destruct (decide _) as [_|Hno]; [|exfalso; apply Hno; vm_compute; split; reflexivity].
  destruct Ha as (r & st & Em & Ha).
  assert (Hr : exists q, r = Some q).
  { assert (Ef : match pm_mem_malloc (pmem ps0) (SIZEOF_STRUCT_PBUF + (LWIP_MEM_ALIGN_SIZE PBUF_TRANSPORT + LWIP_MEM_ALIGN_SIZE 100))
                 with Ret (Some _, _) => true | _ => false end = true) by (vm_compute; reflexivity).
    rewrite Em in Ef. destruct r as [q|]; [by exists q|discriminate Ef]. }
  destruct Hr as [q ->]. destruct Ha as (s' & b & k & E & Hc & Hb & _).
  exists q, s', b. split; [exact E|split; [exact Hc|exact Hb]].
Defined.
