(* ===== verification/PbufChain.v ===== *)
(** * Chains of packet buffers (src/lwip/src/core/pbuf.c)

    Concatenation, chaining and dechaining, the header functions and shrinking:
    what they do to the packet (its list of pbufs, its lengths and its bytes) and
    that they keep the invariant of PbufRef.v. *)

From S2P Require Import Prelude ListSeg Mem Memp Pbuf PbufMem PbufRef.

#[local] Open Scope Z_scope.
#[local] Coercion Z.of_nat : nat >-> Z.

(** ** The bytes of a packet *)

Definition node_bytes (d : bytes) (x : Z * pbuf) : list Z :=
  read_bytes d (p_payload x.2) (Z.to_nat (p_len x.2)).
Definition contents (d : bytes) (l : list (Z * pbuf)) : list Z := concat (node_bytes d <$> l).

Lemma contents_cons d x l : contents d (x :: l) = node_bytes d x ++ contents d l.
Proof. done. Qed.

Lemma contents_app d l1 l2 : contents d (l1 ++ l2) = contents d l1 ++ contents d l2.
Proof. unfold contents. by rewrite fmap_app, concat_app. Qed.

(** Two lists of pbufs with the same structures as far as the data and the owner
    are concerned: only links and totals may differ. *)
Definition same_data (x y : Z * pbuf) : Prop :=
  x.1 = y.1 /\ p_payload x.2 = p_payload y.2 /\ p_len x.2 = p_len y.2
  /\ p_type_internal x.2 = p_type_internal y.2 /\ p_flags x.2 = p_flags y.2 /\ p_if_idx x.2 = p_if_idx y.2
  /\ p_ref x.2 = p_ref y.2.

Lemma same_contents d l l' : Forall2 same_data l l' -> contents d l = contents d l' /\ total l = total l'.
Proof.
  intros Hs. induction Hs as [|x y l l' (_ & Hp & Hl & _) _ [IH1 IH2]]; [done|].
  rewrite !contents_cons. unfold node_bytes. rewrite Hp, Hl, IH1. split; [done|]. cbn. rewrite Hl. f_equal. exact IH2.
Qed.

Lemma read_bytes_length m a n : length (read_bytes m a n) = n.
Proof. unfold read_bytes. by rewrite length_fmap, length_seq. Qed.

Lemma tot_ok_lens l : tot_ok l -> Forall (λ x, is_u16 (p_len x.2)) l.
Proof. induction l as [|[a b] l IH]; [constructor|]. intros (Hu & _ & _ & Hl). constructor; [done|by apply IH]. Qed.

Lemma contents_length d l : Forall (λ x, is_u16 (p_len x.2)) l -> Z.of_nat (length (contents d l)) = total l.
Proof.
  intros Hl. induction Hl as [|[a b] l Hu Hl IH]; [done|]. rewrite contents_cons, length_app.
  unfold node_bytes. rewrite read_bytes_length, Nat2Z.inj_add, IH. cbn [snd] in *.
  change (total ((a, b) :: l)) with (p_len b + total l). unfold_c. lia.
Qed.

Section Chains.
Context `{MO : MemOptions} {MOk : MemOptionsOk} `{PO : PbufOptions} {POk : PbufOptionsOk} {St : Type} `{!PacketMemory St}.
Abbreviation pst := (@pstate St).

(** ** Lemmas: counting *)

Lemma deref_ok (s : pst) p b : pbufs s !! p = Some b -> deref s p = Ret b.
Proof. intros Hp. unfold deref. by rewrite Hp. Qed.

Lemma inv_increment s B ext p b :
  pbuf_inv s B ext -> pbufs s !! p = Some b -> p_ref b < 255 ->
  pbuf_inv (set_pbuf s p (with_ref b (p_ref b + 1))) B (ext_add ext p).
Proof.
  intros HI Hp Hr. eapply inv_set; [exact HI|done|done|by apply (inv_next _ _ _ HI p b)| |].
  - intros a c Ha _ r. destruct (inv_refs _ _ _ HI _ _ Ha). unfold link_to, ext_add, r. cbn [with_ref p_next p_ref].
    repeat case_decide; simplify_eq; lia.
  - intros a Ha Hpos. unfold ext_add in Hpos. case_decide; [subst; by exists b|by apply (inv_ext _ _ _ HI)].
Qed.

Lemma ref_spec s B ext p b :
  pbuf_inv s B ext -> pbufs s !! p = Some b -> p_ref b < 255 ->
  pbuf_ref s p = Ret (set_pbuf s p (with_ref b (p_ref b + 1)))
  /\ pbuf_inv (set_pbuf s p (with_ref b (p_ref b + 1))) B (ext_add ext p).
Proof.
  intros HI Hp Hr. split; [|by apply inv_increment]. unfold pbuf_ref, deref.
  destruct (inv_lookup _ _ _ _ _ HI Hp) as (_ & _ & _ & Hpos). destruct (inv_refs _ _ _ HI _ _ Hp).
  rewrite (proj2 (Z.eqb_neq p NULL)) by (unfold NULL; lia). cbn [negb]. rewrite Hp. cbn [mbind outcome_bind].
  rewrite u8_small by lia. by rewrite LWIP_ASSERT_ok by (apply Z.ltb_lt; lia).
Qed.

(** ** Lemmas: concatenation *)

Definition add_tot (n : Z) (x : Z * pbuf) : Z * pbuf := (x.1, with_tot_len x.2 (u16 (p_tot_len x.2 + n))).

Lemma add_tot_addrs n l : (add_tot n <$> l).*1 = l.*1.
Proof. rewrite <- list_fmap_compose. by apply list_fmap_ext. Qed.

Lemma seg_cons_next s B ext a b l :
  pbuf_inv s B ext -> seg (pbufs s) a ((a, b) :: l) NULL -> l <> [] -> p_next b <> NULL.
Proof.
  intros HI (_ & _ & Hs) Hl Hn. destruct l as [|[x c] l]; [done|]. destruct Hs as (<- & Hx & _).
  rewrite Hn, (inv_not_null _ _ _ HI) in Hx. done.
Qed.

Lemma cat_loop_spec fuel s B ext h t tb l a b :
  pbuf_inv s B ext -> seg (pbufs s) h (l ++ [(a, b)]) NULL -> pbufs s !! t = Some tb ->
  t ∉ (l ++ [(a, b)]).*1 -> (length l < fuel)%nat ->
  exists s', cat_loop fuel s h t = Ret (a, s')
    /\ seg (pbufs s') h ((add_tot (p_tot_len tb) <$> l) ++ [(a, b)]) NULL /\ pbuf_inv s' B ext
    /\ (forall x, x ∉ l.*1 -> pbufs s' !! x = pbufs s !! x) /\ data s' = data s.
Proof.
  revert s h fuel. induction l as [|[x c] l IH]; intros s h fuel HI Hs Ht Hnt Hf;
    (destruct fuel as [|fuel]; [cbn in Hf; lia|]); cbn [cat_loop].
  - destruct Hs as (-> & Ha & Hn). unfold deref. rewrite Ha. cbn [mbind outcome_bind].
    cbn in Hn. rewrite Hn, Z.eqb_refl. exists s. split_and!; try done.
  - pose proof (seg_NoDup _ _ _ (inv_not_null _ _ _ HI) Hs) as Hnd. cbn [app fmap list_fmap fst] in Hnd.
    apply NoDup_cons in Hnd as [Hx _]. cbn [app fmap list_fmap fst] in Hnt. apply not_elem_of_cons in Hnt as [Htx Hnt].
    pose proof (seg_cons_next _ _ _ x c (l ++ [(a, b)]) HI) as Hne.
    destruct Hs as (-> & Hc & Hs). unfold deref. rewrite Hc. cbn [mbind outcome_bind].
    rewrite (proj2 (Z.eqb_neq _ NULL)) by (apply Hne; [done|by destruct l]). rewrite Ht. cbn [mbind outcome_bind].
    set (c' := with_tot_len c (u16 (p_tot_len c + p_tot_len tb))).
    assert (HI' : pbuf_inv (set_pbuf s x c') B ext).
    { eapply inv_update; [exact HI|exact Hc|done|done|]. intros k _ (K1 & K2 & K3 & _). split_and!; try done.
      apply u16_range. }
    destruct (IH (set_pbuf s x c') (p_next c) fuel HI') as (s' & E & Hs' & HI2 & Hfr & Hd).
    + by apply seg_insert.
    + cbn. by rewrite lookup_insert_ne by done.
    + done.
    + cbn in Hf. lia.
    + assert (Hx' : x ∉ l.*1) by (intros Hin; apply Hx; rewrite fmap_app; apply elem_of_app; by left).
      exists s'. split_and!; [exact E| |done| |exact Hd].
      * cbn. split_and!; [done| |exact Hs']. rewrite Hfr by done. cbn. by rewrite lookup_insert_eq.
      * intros y Hy. cbn [fmap list_fmap fst] in Hy. apply not_elem_of_cons in Hy as [Hyx Hy].
        rewrite Hfr by done. cbn. by rewrite lookup_insert_ne by done.
Qed.

Lemma tot_ok_last l a b :
  tot_ok (l ++ [(a, b)]) -> p_tot_len b = p_len b /\ is_u16 (p_len b) /\ p_len b <= total (l ++ [(a, b)]).
Proof.
  induction l as [|[x c] l IH]; cbn [app tot_ok]; intros Hth.
  - destruct Hth as (Hu & E & _). cbn in E. split_and!; [lia|done..|]. cbn. lia.
  - destruct Hth as (Hu & _ & _ & Hl). destruct (IH Hl) as (E & Hu' & Hle). split_and!; [done..|].
    change (p_len b <= p_len c + total (l ++ [(a, b)])). unfold_c. lia.
Qed.

Lemma tot_ok_cat l a b lt n b' :
  tot_ok (l ++ [(a, b)]) -> tot_ok lt -> total lt = n -> total (l ++ [(a, b)]) + n < 65536 ->
  p_len b' = p_len b -> p_tot_len b' = p_len b + n ->
  tot_ok ((add_tot n <$> l) ++ (a, b') :: lt)
  /\ total ((add_tot n <$> l) ++ (a, b') :: lt) = total (l ++ [(a, b)]) + n.
Proof.
  intros Hl Hlt Hn Hb Hlen Htot. pose proof (tot_ok_total _ Hlt).
  induction l as [|[x c] l IH]; cbn [app fmap list_fmap add_tot] in *.
  - destruct Hl as (Hu & E & _). cbn in Hb. change (total ((a, b') :: lt)) with (p_len b' + total lt).
    change (total [(a, b)]) with (p_len b + 0) in *. rewrite Hlen. split; [|lia].
    cbn [tot_ok]. rewrite Hlen, Htot. split_and!; try done; unfold_c; lia.
  - destruct Hl as (Hu & E & Hu' & Hl). pose proof (tot_ok_total _ Hl).
    change (total ((x, c) :: l ++ [(a, b)])) with (p_len c + total (l ++ [(a, b)])) in *.
    destruct (IH Hl) as [IH1 IH2]; [unfold_c; lia|].
    change (total (add_tot n (x, c) :: _)) with (p_len c + total ((add_tot n <$> l) ++ (a, b') :: lt)).
    unfold add_tot at 1. cbn [fst snd tot_ok with_tot_len p_len p_tot_len]. rewrite IH2, E. rewrite u16_small by (unfold_c; lia).
    split; [|lia]. split_and!; try done; unfold_c; lia.
Qed.

Lemma cat_spec s B ext h t lh lt :
  pbuf_inv s B (ext_add ext t) -> chain s h lh -> chain s t lt -> lh <> [] -> lt <> [] ->
  lh.*1 ## lt.*1 -> total lh + total lt < 65536 ->
  exists s' lh', pbuf_cat s h t = Ret s' /\ chain s' h (lh' ++ lt) /\ Forall2 same_data lh lh'
    /\ (forall x, x ∉ lh.*1 -> pbufs s' !! x = pbufs s !! x) /\ data s' = data s /\ pbuf_inv s' B ext.
Proof.
  intros HI [Hsh Hth] [Hst Htt] Hlh Hlt Hdis Hsum.
  destruct lt as [|[t' tb] lt]; [done|]. pose proof Hst as (<- & Htb & _).
  destruct (inv_lookup _ _ _ _ _ HI Htb) as (_ & _ & _ & Htpos).
  destruct (exists_last Hlh) as (l & [a b] & ->). clear Hlh.
  assert (Hh : h <> NULL).
  { intros ->. destruct l as [|[x c] l]; destruct Hsh as (<- & Hx & _); by rewrite (inv_not_null _ _ _ HI) in Hx. }
  assert (Htl : t ∉ (l ++ [(a, b)]).*1) by (intros Hin; apply (Hdis t Hin); by left).
  unfold pbuf_cat. rewrite (proj2 (Z.eqb_neq h NULL)), (proj2 (Z.eqb_neq t NULL)) by (done || unfold NULL; lia).
  cbn [negb andb LWIP_ERROR LWIP_ASSERT mbind outcome_bind].
  pose proof (seg_size _ _ _ (inv_not_null _ _ _ HI) Hsh) as Hsz. rewrite length_app in Hsz. cbn in Hsz.
  destruct (cat_loop_spec (chain_fuel s) s B _ h t tb l a b HI Hsh Htb Htl) as (s1 & -> & Hs1 & HI1 & Hfr & Hd);
    [unfold chain_fuel; lia|]. cbn [mbind outcome_bind].
  pose proof (seg_NoDup _ _ _ (inv_not_null _ _ _ HI) Hsh) as Hnd. rewrite fmap_app in Hnd.
  apply NoDup_app in Hnd as (_ & Hnd & _).
  assert (Hal : a ∉ l.*1) by (intros Hin; apply (Hnd a Hin); by left).
  assert (Ha1 : pbufs s1 !! a = Some b) by (eapply seg_lookup; [exact Hs1|apply elem_of_app; right; by left]).
  assert (Ht1 : pbufs s1 !! t = Some tb).
  { rewrite Hfr; [done|]. intros Hin. apply Htl. rewrite fmap_app. apply elem_of_app. by left. }
  assert (Hta : t <> a). { intros ->. apply Htl. rewrite fmap_app. apply elem_of_app. right. by left. }
  pose proof Hs1 as Hsplit. apply pseg_app in Hsplit as (q & Hs0 & (-> & _ & Hn)). cbn in Hn.
  assert (Htb' : p_tot_len tb = total ((t, tb) :: lt) /\ is_u16 (p_tot_len tb)).
  { destruct Htt as (_ & E & Hu & _). by split. }
  destruct Htb' as [Etb Hutb].
  pose proof (tot_ok_last _ _ _ Hth) as Hbt.
  destruct Hbt as (Ebt & Hub & Hble).
  unfold deref. rewrite Ha1, Ht1. cbn [mbind outcome_bind]. rewrite Hn.
  rewrite Ebt, !Z.eqb_refl. cbn [LWIP_ASSERT mbind outcome_bind].
  pose proof (tot_ok_total _ Htt). rewrite u16_small by (unfold_c; lia).
  set (b' := with_next _ t).
  exists (set_pbuf s1 a b'), ((add_tot (p_tot_len tb) <$> l) ++ [(a, b')]).
  assert (Hs2 : seg (<[a := b']> (pbufs s1)) h (((add_tot (p_tot_len tb) <$> l) ++ [(a, b')]) ++ (t, tb) :: lt) NULL).
  { rewrite <- app_assoc. cbn [app]. apply pseg_app. exists a. split.
    - apply seg_insert; [done|]. by rewrite add_tot_addrs.
    - cbn [lseg]. split_and!; [done|by rewrite lookup_insert_eq|done|by rewrite lookup_insert_ne by done|].
      apply seg_insert; [|].
      + destruct Hst as (_ & _ & Hst). eapply pseg_frame; [exact Hst|]. intros x c Hx. apply Hfr.
        intros Hin. apply (Hdis x); [rewrite fmap_app; apply elem_of_app; by left|].
        right. apply list_elem_of_fmap. by exists (x, c).
      + intros Hin. apply (Hdis a); [rewrite fmap_app; apply elem_of_app; right; by left|by right]. }
  split_and!; [done|split; [exact Hs2|]| | |exact Hd|].
  - rewrite <- app_assoc. cbn [app]. eapply (tot_ok_cat l a b); try done. cbn. lia.
  - apply Forall2_app; [|by repeat constructor]. clear. induction l; constructor; [done|apply IHl].
  - intros x Hx. rewrite fmap_app in Hx. apply not_elem_of_app in Hx as [Hx1 Hx2].
    cbn. rewrite lookup_insert_ne; [by apply Hfr|]. intros ->. apply Hx2. by left.
  - eapply inv_link; [exact HI1|exact Ha1|done|unfold NULL; lia|done|done|]. intros k _ (K1 & K2 & K3 & _).
    split_and!; try done. cbn. unfold_c. lia.
Qed.

(** ** Lemmas: dechaining *)

Lemma set_pbuf_id (s : pst) p b : pbufs s !! p = Some b -> set_pbuf s p b = s.
Proof. intros Hp. unfold set_pbuf, with_pbufs. rewrite insert_id by done. by destruct s. Qed.

Lemma lookup_dec_other m e a : a <> e -> dec m e !! a = m !! a.
Proof. intros Ha. unfold dec. destruct (m !! e); [|done]. by rewrite lookup_insert_ne by done. Qed.

(** pbuf_dechain up to the call of pbuf_free and what follows it; the counts are
    1 on [l1], and above 1 on the pbuf after it, if any. *)
Lemma dechain_spec s B ext p b l1 l2 :
  pbuf_inv s B ext -> chain s p ((p, b) :: l1 ++ l2) -> l1 ++ l2 <> [] ->
  Forall (λ x, p_ref x.2 = 1) l1 -> match l2 with [] => True | x :: _ => 1 < p_ref x.2 end ->
  exists s', pbuf_dechain s p = Ret (if 0 <? u8 (length l1) then NULL else p_next b, s')
    /\ pbuf_inv s' (dels B l1.*1) ext
    /\ pbufs s' = dec (dels (<[p := with_tot_len (with_next b NULL) (p_len b)]> (pbufs s)) l1.*1)
                      (match l2 with [] => NULL | x :: _ => x.1 end)
    /\ data s' = data s.
Proof.
  intros HI [Hs Ht] Hl Hr He. set (l := l1 ++ l2) in *.
  pose proof (seg_cons_next _ _ _ _ _ _ HI Hs Hl) as Hq.
  pose proof (seg_NoDup _ _ _ (inv_not_null _ _ _ HI) Hs) as Hnd. cbn [fmap list_fmap fst] in Hnd.
  apply NoDup_cons in Hnd as [Hpl _]. destruct Hs as (_ & Hp & Hs). destruct Ht as (Hu & Et & Hut & Ht).
  assert (exists qb, pbufs s !! p_next b = Some qb /\ p_tot_len qb = total l /\ p_next b <> p) as (qb & Hqb & Eq & Hqp).
  { destruct l as [|[q qb] l']; [done|]. destruct Hs as (-> & Hqb & _). destruct Ht as (_ & E & _).
    exists qb. split_and!; [done|done|]. intros ->. apply Hpl. by left. }
  unfold pbuf_dechain, deref. rewrite Hp. cbn [mbind outcome_bind].
  rewrite (proj2 (Z.eqb_neq _ NULL)) by done. cbn [negb]. rewrite Hqb. cbn [mbind outcome_bind].
  rewrite (proj2 (Z.eqb_eq (p_tot_len qb) _)) by lia. cbn [LWIP_ASSERT mbind outcome_bind].
  replace (u16 (p_tot_len b - p_len b)) with (p_tot_len qb)
    by (pose proof (tot_ok_total _ Ht); rewrite u16_small; unfold_c; lia).
  replace (with_tot_len qb (p_tot_len qb)) with qb by (by destruct qb). rewrite (set_pbuf_id s) by done.
  rewrite Hp. cbn [mbind outcome_bind]. set (b' := with_tot_len (with_next b NULL) (p_len b)).
  assert (HI1 : pbuf_inv (set_pbuf s p b') B (ext_add ext (p_next b))).
  { apply inv_unlink; [done..|]. intros k _ (K1 & K2 & K3 & _). by split_and!. }
  set (e := match l2 with [] => NULL | x :: _ => x.1 end) in *.
  assert (Hs1 : seg (pbufs (set_pbuf s p b')) (p_next b) l NULL) by (by apply seg_insert).
  assert (Hs2 : seg (pbufs (set_pbuf s p b')) (p_next b) l1 e).
  { unfold l in Hs1. apply pseg_app in Hs1 as (x & S1 & S2). unfold e. destruct l2 as [|[y c] l2]; [by cbn in S2; subst|].
    by destruct S2 as (-> & _). }
  assert (He' : e = NULL \/ exists c, pbufs (set_pbuf s p b') !! e = Some c /\ 1 < p_ref c).
  { unfold e, l in *. destruct l2 as [|[y c] l2]; [by left|right]. exists c. split; [|done].
    eapply seg_lookup; [exact Hs1|]. apply elem_of_app. right. by left. }
  unfold pbuf_free. rewrite (proj2 (Z.eqb_neq _ NULL)) by done.
  destruct (free_loop_prefix (chain_fuel (set_pbuf s p b')) (set_pbuf s p b') B ext (p_next b) 0 l1 e)
    as (s' & -> & HI' & Ep & Hd & _); [done|unfold chain_fuel; lia|done|done|done|done|]. cbn [mbind outcome_bind].
  assert (Hp' : pbufs s' !! p = Some b').
  { rewrite Ep, lookup_dec_other.
    - rewrite lookup_dels, decide_False; [apply lookup_insert_eq|]. intros Hin. apply Hpl. unfold l.
      rewrite fmap_app. apply elem_of_app. by left.
    - unfold e, l in *. destruct l2 as [|[y c] l2]; [intros ->; by rewrite (inv_not_null _ _ _ HI) in Hp|].
      intros ->. apply Hpl. rewrite fmap_app. apply elem_of_app. right. by left. }
  rewrite Hp'. cbn [mbind outcome_bind b' with_tot_len with_next p_tot_len p_len]. rewrite Z.eqb_refl.
  cbn [LWIP_ASSERT mbind outcome_bind]. exists s'. by split_and!.
Qed.

(** ** Lemmas: reading *)

Lemma read_bytes_app m a n1 n2 : read_bytes m a (n1 + n2) = read_bytes m a n1 ++ read_bytes m (a + n1) n2.
Proof.
  unfold read_bytes. rewrite seq_app, fmap_app. f_equal. cbn [Nat.add].
  replace (seq n1 n2) with (Nat.add n1 <$> seq 0 n2) by (rewrite fmap_add_seq; f_equal; lia).
  rewrite <- list_fmap_compose. apply list_fmap_ext. intros _ i _. cbn. f_equal. lia.
Qed.

Lemma node_bytes_split d a b n :
  0 <= n <= p_len b ->
  node_bytes d (a, b) = read_bytes d (p_payload b) (Z.to_nat n)
                        ++ read_bytes d (p_payload b + n) (Z.to_nat (p_len b - n)).
Proof.
  intros Hn. unfold node_bytes. cbn [snd]. replace (Z.to_nat (p_len b)) with (Z.to_nat n + Z.to_nat (p_len b - n))%nat by lia.
  rewrite read_bytes_app. by replace (p_payload b + Z.to_nat n) with (p_payload b + n) by lia.
Qed.

(** ** Lemmas: headers *)

Lemma remove_header_spec s B ext p b l n :
  pbuf_inv s B ext -> chain s p ((p, b) :: l) -> 0 <= n <= p_len b ->
  let b' := with_tot_len (with_len (with_payload b (p_payload b + n)) (p_len b - n)) (p_tot_len b - n) in
  pbuf_remove_header s p n = Ret (0, set_pbuf s p b') /\ chain (set_pbuf s p b') p ((p, b') :: l)
  /\ pbuf_inv (set_pbuf s p b') B ext
  /\ contents (data s) ((p, b') :: l) = drop (Z.to_nat n) (contents (data s) ((p, b) :: l)).
Proof.
  intros HI [Hs Ht] Hn b'. pose proof (seg_NoDup _ _ _ (inv_not_null _ _ _ HI) Hs) as Hnd.
  cbn [fmap list_fmap fst] in Hnd. apply NoDup_cons in Hnd as [Hpl _].
  destruct Hs as (_ & Hp & Hs). destruct Ht as (Hu & Et & Hut & Ht). pose proof (tot_ok_total _ Ht).
  destruct (inv_lookup _ _ _ _ _ HI Hp) as (_ & _ & _ & Hpos). split_and!.
  - unfold pbuf_remove_header. rewrite (proj2 (Z.eqb_neq p NULL)) by (unfold NULL; lia).
    cbn [negb LWIP_ASSERT mbind outcome_bind orb]. rewrite (proj2 (Z.ltb_ge 0xFFFF n)) by (unfold_c; lia).
    destruct (n =? 0) eqn:En; bool_to_prop.
    + subst n. rewrite <- (set_pbuf_id s p b Hp) at 1. do 3 f_equal. unfold b'. rewrite !Z.sub_0_r, Z.add_0_r. by destruct b.
    + unfold deref. rewrite Hp. cbn [mbind outcome_bind]. rewrite (u16_small n) by (unfold_c; lia).
      rewrite LWIP_ERROR_ok by (apply Z.leb_le; lia). cbn [mbind outcome_bind].
      by rewrite !u16_small by (unfold_c; lia).
  - split; [split_and!; [done|apply lookup_insert_eq|by apply seg_insert]|].
    unfold b'. cbn. unfold_c. split_and!; try done; lia.
  - apply (inv_update s B ext p b b'); [done|done|done|done|]. intros k _ (K1 & K2 & K3 & K4).
    split_and!; [by destruct k|destruct k; cbn in *; unfold_c; lia|cbn; unfold_c; lia|cbn; unfold_c; lia].
  - rewrite !contents_cons, (node_bytes_split _ _ _ n Hn), <- app_assoc, drop_app_ge by (rewrite read_bytes_length; lia).
    by rewrite read_bytes_length, Nat.sub_diag, drop_0.
Qed.

Lemma add_header_spec s B ext p b l n force :
  pbuf_inv s B ext -> chain s p ((p, b) :: l) -> 0 <= n <= 0xFFFF ->
  let ok := (n =? 0) || ((p_tot_len b + n <? 65536)
            && (if is_contiguous b then p + SIZEOF_STRUCT_PBUF <=? p_payload b - n else force)) in
  let b' := with_tot_len (with_len (with_payload b (p_payload b - n)) (p_len b + n)) (p_tot_len b + n) in
  if ok then
    pbuf_add_header_impl s p n force = Ret (0, set_pbuf s p b')
    /\ chain (set_pbuf s p b') p ((p, b') :: l) /\ pbuf_inv (set_pbuf s p b') B ext
    /\ contents (data s) ((p, b') :: l)
       = read_bytes (data s) (p_payload b - n) (Z.to_nat n) ++ contents (data s) ((p, b) :: l)
  else pbuf_add_header_impl s p n force = Ret (1, s).
Proof.
  intros HI [Hs Ht] Hn ok b'. pose proof (seg_NoDup _ _ _ (inv_not_null _ _ _ HI) Hs) as Hnd.
  cbn [fmap list_fmap fst] in Hnd. apply NoDup_cons in Hnd as [Hpl _].
  destruct Hs as (_ & Hp & Hs). destruct Ht as (Hu & Et & Hut & Ht). pose proof (tot_ok_total _ Ht).
  destruct (inv_lookup _ _ _ _ _ HI Hp) as (_ & _ & _ & Hpos).
  assert (Hrun : pbuf_add_header_impl s p n force = if ok then Ret (0, set_pbuf s p b') else Ret (1, s)).
  { unfold pbuf_add_header_impl, ok. rewrite (proj2 (Z.eqb_neq p NULL)) by (unfold NULL; lia).
    cbn [negb LWIP_ASSERT mbind outcome_bind orb]. rewrite (proj2 (Z.ltb_ge 0xFFFF n)) by lia.
    destruct (n =? 0) eqn:En; bool_to_prop; cbn [orb].
    - subst n. rewrite <- (set_pbuf_id s p b Hp) at 1. do 3 f_equal. unfold b'. rewrite Z.sub_0_r, !Z.add_0_r. by destruct b.
    - unfold deref. rewrite Hp. cbn [mbind outcome_bind]. rewrite (u16_small n) by lia.
      fold (is_contiguous b). destruct (p_tot_len b + n <? 65536) eqn:Eb; bool_to_prop; cbn [andb].
      + rewrite (u16_small (n + _)), !u16_small by (unfold_c; lia). rewrite (proj2 (Z.ltb_ge _ n)) by (unfold_c; lia).
        destruct (is_contiguous b); [|by destruct force]. rewrite (Z.leb_antisym (p_payload b - n)). by case_if.
      + replace (u16 (n + p_tot_len b) <? n) with true; [done|]. symmetry. apply Z.ltb_lt. wrap_solve. }
  rewrite Hrun. destruct ok eqn:Eok; [|done]. unfold ok in Eok.
  assert (Hb : p_tot_len b + n < 65536 /\ (n = 0 \/ is_contiguous b = true -> p + SIZEOF_STRUCT_PBUF <= p_payload b - n \/ n = 0)).
  { apply orb_true_iff in Eok as [E|E]; bool_to_prop; [unfold_c; lia|]. split; [lia|]. intros [->|Hc]; [by right|].
    rewrite Hc in *. bool_to_prop. by left. }
  destruct Hb as [Hb1 Hb2]. split_and!; [done| | |].
  - split; [split_and!; [done|apply lookup_insert_eq|by apply seg_insert]|].
    unfold b'. cbn. unfold_c. split_and!; try done; lia.
  - apply (inv_update s B ext p b b'); [done|done|done|done|]. intros k _ (K1 & K2 & K3 & K4).
    split_and!; [by destruct k| |cbn; unfold_c; lia|cbn; unfold_c; lia].
    destruct k; cbn in *; try done; destruct K1 as (_ & _ & Kc); destruct (Hb2 (or_intror Kc)); lia.
  - rewrite !contents_cons, app_assoc. f_equal. rewrite (node_bytes_split _ _ b' n) by (unfold b'; cbn; unfold_c; lia).
    unfold b'. cbn [p_payload p_len with_tot_len with_len with_payload]. unfold node_bytes. cbn [snd].
    replace (p_payload b - n + n) with (p_payload b) by lia. by replace (p_len b + n - n) with (p_len b) by lia.
Qed.

(** ** Lemmas: pbuf_free touches only the chain it is called on *)

Definition map_state (f : pst -> pst) (o : outcome (Z * pst)) : outcome (Z * pst) :=
  match o with Ret (c, s) => Ret (c, f s) | Trap w => Trap w end.

Lemma set_pbuf_comm (s : pst) p x b c : p <> x -> set_pbuf (set_pbuf s x c) p b = set_pbuf (set_pbuf s p b) x c.
Proof. intros Hne. unfold set_pbuf, with_pbufs. cbn [pbufs data pmem pbuf_free_ooseq_pending]. by rewrite insert_insert_ne. Qed.

Lemma dealloc_pbufs (s s' : pst) p b :
  pbuf_dealloc s p b = Ret s' -> exists st, s' = with_pmem (with_pbufs s (delete p (pbufs s))) st.
Proof.
  unfold pbuf_dealloc. destruct (if negb _ then _ else _) as [st|w]; [|done].
  intros [= <-]. by exists st.
Qed.

Lemma dealloc_frame (s : pst) p b x c :
  p <> x -> pbuf_dealloc (set_pbuf s x c) p b
            = match pbuf_dealloc s p b with Ret s' => Ret (set_pbuf s' x c) | Trap w => Trap w end.
Proof.
  intros Hne. unfold pbuf_dealloc. change (pmem (set_pbuf s x c)) with (pmem s).
  destruct (if negb _ then _ else _) as [st|w]; [|done].
  unfold mbind, outcome_bind, set_pbuf, with_pbufs, with_pmem. cbn [pbufs data pmem pbuf_free_ooseq_pending].
  by rewrite delete_insert_ne.
Qed.

(** A round of pbuf_free on a pbuf: the rest of the chain is still there. *)
Lemma seg_after_dealloc (s s' : pst) p b r l :
  pbufs s !! NULL = None -> seg (pbufs s) p ((p, b) :: l) NULL -> p <> NULL ->
  pbuf_dealloc (set_pbuf s p (with_ref b r)) p b = Ret s' ->
  pbufs s' !! NULL = None /\ seg (pbufs s') (p_next b) l NULL /\ pbufs s' = delete p (pbufs s).
Proof.
  intros Hn Hs Hp E. destruct (dealloc_pbufs _ _ _ _ E) as [st ->].
  assert (Ep : pbufs (with_pmem (with_pbufs (set_pbuf s p (with_ref b r))
            (delete p (pbufs (set_pbuf s p (with_ref b r))))) st) = delete p (pbufs s)) by apply delete_insert_eq.
  rewrite Ep. pose proof (seg_NoDup _ _ _ Hn Hs) as Hnd. apply NoDup_cons in Hnd as [Hpl _].
  destruct Hs as (_ & _ & Hs). split_and!; [by rewrite lookup_delete_ne| |done].
  eapply pseg_frame; [exact Hs|]. intros a e Ha. apply lookup_delete_ne. intros <-.
  apply Hpl, list_elem_of_fmap. by exists (p, e).
Qed.

Lemma free_loop_frame fuel (s : pst) p count l x c :
  pbufs s !! NULL = None -> seg (pbufs s) p l NULL -> x ∉ l.*1 ->
  free_loop fuel (set_pbuf s x c) p count = map_state (λ s, set_pbuf s x c) (free_loop fuel s p count).
Proof.
  revert s p count l. induction fuel as [|fuel IH]; intros s p count l Hn Hs Hx; cbn [free_loop];
    (destruct (p =? NULL) eqn:Ep; bool_to_prop; [done|]); [done|].
  destruct l as [|[p' b] l]; [done|]. cbn [fmap list_fmap fst] in Hx. apply not_elem_of_cons in Hx as [Hxp Hx].
  pose proof Hs as (<- & Hp & _).
  assert (Hpx : pbufs (set_pbuf s x c) !! p = Some b) by (etrans; [by apply lookup_insert_ne|done]).
  unfold deref. rewrite Hp, Hpx. cbn [mbind outcome_bind].
  destruct (0 <? p_ref b); cbn [LWIP_ASSERT mbind outcome_bind]; [|done].
  rewrite set_pbuf_comm by done. destruct (u8 (p_ref b - 1) =? 0); [|done].
  rewrite dealloc_frame by done.
  destruct (pbuf_dealloc (set_pbuf s p _) p b) as [s1|w] eqn:Ed; cbn [mbind outcome_bind]; [|done].
  destruct (seg_after_dealloc _ _ _ _ _ _ Hn Hs Ep Ed) as (Hn1 & Hs1 & _). by apply (IH s1 _ _ l).
Qed.

Lemma free_loop_untouched fuel (s : pst) p count l x c s' :
  pbufs s !! NULL = None -> seg (pbufs s) p l NULL -> x ∉ l.*1 ->
  free_loop fuel s p count = Ret (c, s') -> pbufs s' !! x = pbufs s !! x.
Proof.
  intros Hn Hs Hx E. destruct (pbufs s !! x) as [b|] eqn:Ex.
  - pose proof (free_loop_frame fuel s p count l x b Hn Hs Hx) as Ef. rewrite (set_pbuf_id s x b Ex), E in Ef.
    cbn in Ef. injection Ef as Ef. rewrite Ef. cbn. by rewrite lookup_insert_eq.
  - clear Hx. revert s p count l Hn Hs Ex E. induction fuel as [|fuel IH]; intros s p count l Hn Hs Ex; cbn [free_loop];
      (destruct (p =? NULL) eqn:Ep; bool_to_prop; [by intros [= _ <-]|]); [done|].
    destruct l as [|[p' b] l]; [done|]. pose proof Hs as (<- & Hp & _).
    unfold deref. rewrite Hp. cbn [mbind outcome_bind]. assert (Hxp : p <> x) by congruence.
    destruct (0 <? p_ref b); cbn [LWIP_ASSERT mbind outcome_bind]; [|done].
    destruct (u8 (p_ref b - 1) =? 0).
    + destruct (pbuf_dealloc (set_pbuf s p _) p b) as [s1|w] eqn:Ed; cbn [mbind outcome_bind]; [|done].
      destruct (seg_after_dealloc _ _ _ _ _ _ Hn Hs Ep Ed) as (Hn1 & Hs1 & E1). apply (IH s1 _ _ l); try done.
      rewrite E1, lookup_delete_ne by done. done.
    + intros [= _ <-]. etrans; [by apply lookup_insert_ne|done].
Qed.

(** ** Lemmas: shrinking *)

Definition sub_tot (n : Z) (x : Z * pbuf) : Z * pbuf := (x.1, with_tot_len x.2 (u16 (p_tot_len x.2 - n))).

Lemma sub_tot_addrs n l : (sub_tot n <$> l).*1 = l.*1.
Proof. rewrite <- list_fmap_compose. by apply list_fmap_ext. Qed.

Lemma realloc_loop_spec fuel s B ext q l rem shrink :
  pbuf_inv s B ext -> seg (pbufs s) q l NULL -> tot_ok l -> l <> [] -> 0 <= rem <= total l -> (length l <= fuel)%nat ->
  exists l0 x b l2 s', l = l0 ++ (x, b) :: l2
    /\ realloc_loop fuel s q rem shrink = Ret (x, rem - total l0, s')
    /\ 0 <= rem - total l0 <= p_len b /\ (l0 <> [] -> 0 < rem - total l0)
    /\ seg (pbufs s') q ((sub_tot shrink <$> l0) ++ (x, b) :: l2) NULL
    /\ pbuf_inv s' B ext /\ data s' = data s /\ pmem s' = pmem s
    /\ (forall y, y ∉ l0.*1 -> pbufs s' !! y = pbufs s !! y).
Proof.
  revert s q l rem. induction fuel as [|fuel IH]; intros s q l rem HI Hs Ht Hl Hrem Hf; [destruct l; cbn in Hf; [done|lia]|].
  destruct l as [|[q' b] l]; [done|]. pose proof (seg_NoDup _ _ _ (inv_not_null _ _ _ HI) Hs) as Hnd.
  cbn [fmap list_fmap fst] in Hnd. apply NoDup_cons in Hnd as [Hql _].
  pose proof (seg_cons_next _ _ _ q' b l HI) as Hne.
  pose proof Hs as (<- & Hb & Hs'). pose proof Ht as (Hu & Et & Hut & Ht'). cbn [realloc_loop]. unfold deref. rewrite Hb.
  cbn [mbind outcome_bind]. change (total ((q, b) :: l)) with (p_len b + total l) in Hrem.
  destruct (p_len b <? rem) eqn:E; bool_to_prop.
  - assert (Hl' : l <> []). { intros ->. cbn in Hrem. lia. }
    rewrite LWIP_ASSERT_ok by (apply negb_true_iff, Z.eqb_neq; auto). cbn [mbind outcome_bind].
    pose proof (tot_ok_total _ Ht'). rewrite (u16_small (rem - p_len b)) by (unfold_c; lia).
    set (b' := with_tot_len b _). set (s1 := set_pbuf s q b').
    assert (HI1 : pbuf_inv s1 B ext).
    { apply (inv_update s B ext q b b'); [done..|]. intros k _ (K1 & K2 & K3 & _). split_and!; try done. apply u16_range. }
    destruct (IH s1 (p_next b) l (rem - p_len b) HI1) as (l0 & x & c & l2 & s' & -> & Er & R1 & R2 & Hseg & HI' & Hd & Hpm & Hfr);
      [by apply seg_insert|done|done|lia|cbn in Hf; lia|].
    exists ((q, b) :: l0), x, c, l2, s'. change (total ((q, b) :: l0)) with (p_len b + total l0).
    replace (rem - (p_len b + total l0)) with (rem - p_len b - total l0) by lia.
    assert (Hq0 : q ∉ l0.*1) by (intros Hin; apply Hql; rewrite fmap_app; apply elem_of_app; by left).
    split_and!; try done; [lia|lia| | |].
    + intros _. destruct l0; [cbn; lia|]. by apply R2.
    + cbn. split_and!; [done| |done]. rewrite Hfr by done. apply lookup_insert_eq.
    + intros y Hy. cbn [fmap list_fmap fst] in Hy. apply not_elem_of_cons in Hy as [Hyq Hy].
      rewrite Hfr by done. by apply lookup_insert_ne.
  - exists [], q, b, l, s. cbn [total foldr]. rewrite Z.sub_0_r. split_and!; try done; lia.
Qed.

Lemma tot_ok_shrink l0 x b l2 b' rem shrink :
  tot_ok (l0 ++ (x, b) :: l2) -> 0 <= rem <= p_len b -> p_len b' = rem -> p_tot_len b' = rem ->
  shrink = total (l0 ++ (x, b) :: l2) - (total l0 + rem) ->
  tot_ok ((sub_tot shrink <$> l0) ++ [(x, b')]) /\ total ((sub_tot shrink <$> l0) ++ [(x, b')]) = total l0 + rem.
Proof.
  intros Ht Hrem Hl Htot ->. rewrite total_app. replace (_ - _) with (total ((x, b) :: l2) - rem) by lia.
  induction l0 as [|[y c] l0 IH]; cbn [app fmap list_fmap].
  - destruct Ht as (Hu & _ & _ & _). change (total [(x, b')]) with (p_len b' + 0). change (total []) with 0.
    split; [|lia]. cbn. unfold_c. lia.
  - destruct Ht as (Hu & E & Hu' & Ht). destruct (IH Ht) as [IH1 IH2]. pose proof (tot_ok_total _ Ht) as Hge.
    rewrite total_app in E, Hge. set (n := total ((x, b) :: l2) - rem) in *.
    assert (Hx : rem <= total ((x, b) :: l2)).
    { clear -Ht Hrem. induction l0 as [|[z e] l0 IH]; [|destruct Ht as (_ & _ & _ & Ht); by apply IH].
      destruct Ht as (_ & _ & _ & Ht). pose proof (tot_ok_total _ Ht).
      change (total ((x, b) :: l2)) with (p_len b + total l2). lia. }
    assert (Hl0 : 0 <= total l0).
    { clear -Ht. induction l0 as [|[z e] l0 IH]; [done|]. destruct Ht as (Hz & _ & _ & Ht).
      change (total ((z, e) :: l0)) with (p_len e + total l0). specialize (IH Ht). unfold_c. lia. }
    change (total (sub_tot n (y, c) :: _)) with (p_len c + total ((sub_tot n <$> l0) ++ [(x, b')])).
    change (total ((y, c) :: l0)) with (p_len c + total l0). rewrite IH2. split; [|lia].
    unfold sub_tot at 1. cbn [tot_ok fst snd with_tot_len p_len p_tot_len]. rewrite IH2, E.
    rewrite u16_small by (unfold_c; lia). split_and!; try done; unfold_c; lia.
Qed.

(** A block shrinks together with the payload in it. *)
Lemma inv_trim s B ext x b b' st k k' :
  pbuf_inv s B ext -> pbufs s !! x = Some b -> B !! x = Some k -> mem_holds st (<[x := k']> B) -> node_ok x b' k' ->
  p_next b' = p_next b -> p_ref b' = p_ref b ->
  pbuf_inv (set_pbuf (with_pmem s st) x b') (<[x := k']> B) ext.
Proof.
  intros HI Hx HB Hst Hn Hnx Hr.
  assert (Hsome : forall (A : Type) (m : gmap Z A) v a, is_Some (m !! x) -> is_Some (<[x := v]> m !! a) <-> is_Some (m !! a)).
  { intros A m v a Hm. rewrite lookup_insert_is_Some. destruct (decide (x = a)) as [<-|]; [|tauto]. split; eauto. }
  split; cbn [set_pbuf with_pbufs with_pmem pbufs pmem].
  - done.
  - intros a. rewrite !Hsome by eauto. apply HI.
  - intros a c k0 Ha Hk0. destruct (decide (a = x)) as [->|Hne].
    + rewrite lookup_insert_eq in Ha. rewrite lookup_insert_eq in Hk0. congruence.
    + rewrite lookup_insert_ne in Ha by done. rewrite lookup_insert_ne in Hk0 by done. by eapply HI.
  - intros a c Ha. rewrite (preds_insert_same _ _ b) by done.
    apply lookup_insert_Some in Ha as [[<- <-]|[_ Ha]]; [|by apply HI]. rewrite Hr. by apply HI.
  - intros a c Ha Hnn. rewrite Hsome by eauto.
    apply lookup_insert_Some in Ha as [[<- <-]|[_ Ha]]; [|by apply (inv_next _ _ _ HI a)].
    rewrite Hnx in *. by apply (inv_next _ _ _ HI x).
  - intros a Ha Hpos. rewrite Hsome by eauto. by apply (inv_ext _ _ _ HI).
Qed.

(** The end of pbuf_realloc: the rest of the chain is freed and cut off. *)
Lemma realloc_finish s B ext p l0 x b l2 :
  pbuf_inv s B ext -> seg (pbufs s) p (l0 ++ (x, b) :: l2) NULL ->
  exists s' B', (s1 ← (if negb (p_next b =? NULL) then '(_, s1) ← pbuf_free s (p_next b); Ret s1 else Ret s);
                 b1 ← deref s1 x; Ret (set_pbuf s1 x (with_next b1 NULL))) = Ret s'
    /\ pbuf_inv s' B' ext /\ B' ⊆ B /\ seg (pbufs s') p (l0 ++ [(x, with_next b NULL)]) NULL /\ data s' = data s
    /\ (forall y, y ∉ x :: l2.*1 -> pbufs s' !! y = pbufs s !! y).
Proof.
  intros HI Hs. pose proof (inv_not_null _ _ _ HI) as Hnull. pose proof (seg_NoDup _ _ _ Hnull Hs) as Hnd.
  rewrite fmap_app in Hnd. cbn [fmap list_fmap fst] in Hnd. apply NoDup_app in Hnd as (_ & Hnd1 & Hnd2).
  apply NoDup_cons in Hnd2 as [Hxl _]. apply pseg_app in Hs as (x' & Hs0 & (-> & Hx & Hs2)).
  set (b' := with_next b NULL). set (s1 := set_pbuf s x b').
  assert (HI1 : pbuf_inv s1 B (ext_add ext (p_next b))).
  { apply (inv_unlink s B ext x b b'); [done..|]. intros k _ (K1 & K2 & K3 & K4). by split_and!. }
  assert (Hs1 : seg (pbufs s1) (p_next b) l2 NULL) by (by apply seg_insert).
  assert (Hs01 : seg (pbufs s1) p (l0 ++ [(x, b')]) NULL).
  { apply pseg_app. exists x. split.
    - apply seg_insert; [done|]. intros Hin. apply (Hnd1 x Hin). by left.
    - cbn [lseg]. split_and!; [done|apply lookup_insert_eq|done]. }
  destruct (p_next b =? NULL) eqn:En; bool_to_prop; cbn [negb].
  - cbn [mbind outcome_bind]. unfold deref. rewrite Hx. cbn [mbind outcome_bind].
    exists s1, B. split_and!; try done.
    + eapply inv_ext_eq; [|exact HI1]. intros a Ha. unfold ext_add. rewrite decide_False; [done|]. by rewrite En.
    + intros y Hy. apply not_elem_of_cons in Hy as [Hy _]. by apply lookup_insert_ne.
  - destruct (free_loop_inv (chain_fuel s1) s1 B ext (p_next b) 0 HI1) as (c & s2 & B' & E & HI2 & HB & Hd & _);
      [unfold chain_fuel; lia|].
    assert (Hkeep : forall y, y ∉ l2.*1 -> pbufs s2 !! y = pbufs s1 !! y).
    { intros y Hy. eapply free_loop_untouched; [by eapply inv_not_null|exact Hs1|done|exact E]. }
    assert (Hx2 : pbufs s2 !! x = Some b') by (rewrite Hkeep by done; apply lookup_insert_eq).
    assert (Es : s = set_pbuf s1 x b).
    { unfold s1, set_pbuf, with_pbufs. cbn [pbufs data pmem pbuf_free_ooseq_pending]. rewrite insert_insert_eq, insert_id by done.
      by destruct s. }
    assert (Ef : pbuf_free s (p_next b) = Ret (c, set_pbuf s2 x b)).
    { unfold pbuf_free. rewrite (proj2 (Z.eqb_neq _ NULL)) by done.
      replace (chain_fuel s) with (chain_fuel s1)
        by (unfold chain_fuel; f_equal; apply map_size_insert_Some; by eexists).
      rewrite Es at 1. rewrite (free_loop_frame _ s1 _ _ l2) by (done || by eapply inv_not_null). by rewrite E. }
    rewrite Ef. cbn [mbind outcome_bind]. unfold deref.
    assert (Hx3 : pbufs (set_pbuf s2 x b) !! x = Some b) by apply lookup_insert_eq.
    rewrite Hx3. cbn [mbind outcome_bind]. exists s2, B'. split_and!; try done.
    + unfold set_pbuf, with_pbufs. cbn [pbufs data pmem pbuf_free_ooseq_pending]. rewrite insert_insert_eq, insert_id by done.
      by destruct s2.
    + eapply pseg_frame; [exact Hs01|]. intros a e Ha. apply Hkeep. intros Hin.
      apply elem_of_app in Ha as [Ha|Ha].
      * apply (Hnd1 a); [apply list_elem_of_fmap; by exists (a, e)|by right].
      * apply list_elem_of_singleton in Ha as [= -> ->]. done.
    + intros y Hy. apply not_elem_of_cons in Hy as [Hyx Hy]. rewrite Hkeep by done. by apply lookup_insert_ne.
Qed.

(** Adjusting the lengths of the new last pbuf, with its memory. *)
Lemma realloc_adjust s B ext x b rem :
  pbuf_inv s B ext -> pbufs s !! x = Some b -> 0 <= rem <= p_len b ->
  trim_ok (pmem s) x (p_payload b - x + rem) ->
  let b' := with_tot_len (with_len b rem) rem in
  exists s1 B', (if pbuf_match_allocsrc b PBUF_TYPE_ALLOC_SRC_MASK_STD_HEAP && negb (rem =? p_len b)
                    && (Z.land (p_flags b) PBUF_FLAG_IS_CUSTOM =? 0) then
                   '(r, st) ← pm_mem_trim (pmem s) x (mem_size_t (p_payload b - x + rem));
                   match r with
                   | None => Trap "mem_trim returned q == NULL"
                   | Some q => Ret (q, with_pmem s st)
                   end
                 else Ret (x, s)) = Ret (x, s1)
    /\ pbufs s1 = pbufs s /\ data s1 = data s /\ pbuf_inv (set_pbuf s1 x b') B' ext /\ dom B' = dom B.
Proof.
  intros HI Hx Hrem Htrim b'. destruct (inv_lookup _ _ _ _ _ HI Hx) as (k & HB & (K1 & K2 & K3 & K4) & Hpos).
  assert (Hrun : pbuf_inv (set_pbuf s x b') B ext).
  { apply (inv_update s B ext x b b'); [done..|]. intros k' _ (L1 & L2 & L3 & L4).
    split_and!; [by destruct k'|destruct k'; cbn in *; unfold_c; lia|cbn; unfold_c; lia|cbn; unfold_c; lia]. }
  destruct (pbuf_match_allocsrc b PBUF_TYPE_ALLOC_SRC_MASK_STD_HEAP && negb (rem =? p_len b)
            && (Z.land (p_flags b) PBUF_FLAG_IS_CUSTOM =? 0)) eqn:E; [|by exists s, B].
  apply andb_true_iff in E as [E Ec]. apply andb_true_iff in E as [Em _].
  assert (Hcust : is_custom b = false) by (unfold is_custom; by rewrite Ec).
  unfold pbuf_match_allocsrc in Em. apply Z.eqb_eq in Em. change (Z.land PBUF_TYPE_ALLOC_SRC_MASK_STD_HEAP _) with 0 in Em.
  destruct k as [| |n|]; cbn [kind_ok] in K1;
    [destruct K1 as (_ & K1 & _); rewrite K1 in Em; discriminate Em
    |destruct K1 as (_ & K1 & _); rewrite K1 in Em; discriminate Em| |congruence].
  cbn [payload_ok block_size] in K2. pose proof (mem_holds_heap _ _ _ _ (inv_holds _ _ _ HI) HB).
  destruct sizeof_pbuf_facts as (HS & _). rewrite mem_size_t_small by lia.
  destruct (mem_trim_law _ _ _ _ (p_payload b - x + rem) (inv_holds _ _ _ HI) HB) as (st & k' & -> & Hk & Hst);
    [unfold_c; lia|done|]. cbn [mbind outcome_bind].
  exists (with_pmem s st), (<[x := BHeap k']> B). split_and!; try done.
  - eapply inv_trim; [exact HI|exact Hx|exact HB|exact Hst| |done|done].
    split_and!; try done; cbn; [lia|unfold_c; lia|unfold_c; lia].
  - apply dom_insert_lookup_L. by exists (BHeap n).
Qed.

(** What is left of a pbuf: its lengths and its link may change. *)
Definition trimmed (x y : Z * pbuf) : Prop :=
  y.1 = x.1 /\ p_payload y.2 = p_payload x.2 /\ p_type_internal y.2 = p_type_internal x.2 /\ p_flags y.2 = p_flags x.2
  /\ p_ref y.2 = p_ref x.2 /\ p_if_idx y.2 = p_if_idx x.2.

Lemma realloc_spec s B ext p l new_len :
  pbuf_inv s B ext -> chain s p l -> l <> [] -> 0 <= new_len < total l ->
  (forall a b n, (a, b) ∈ l -> trim_ok (pmem s) a n) ->
  exists s' l' B', pbuf_realloc s p new_len = Ret s' /\ chain s' p l' /\ total l' = new_len
    /\ contents (data s) l' = take (Z.to_nat new_len) (contents (data s) l)
    /\ data s' = data s /\ pbuf_inv s' B' ext /\ dom B' ⊆ dom B
    /\ (exists k, Forall2 trimmed (take (S k) l) l') /\ (exists x r y r', l = x :: r /\ l' = y :: r' /\ p_len y.2 = Z.min (p_len x.2) new_len)
    /\ (forall y, y ∉ l.*1 -> pbufs s' !! y = pbufs s !! y).
Proof.
  intros HI [Hs Ht] Hl Hn Htrim. destruct l as [|[p' pb] lr] eqn:El; [done|]. rewrite <- El in *.
  assert (Hp : pbufs s !! p = Some pb /\ p <> NULL /\ p_tot_len pb = total l).
  { rewrite El in Hs, Ht. destruct Hs as (<- & Hp & _). destruct Ht as (_ & E & _). rewrite El.
    split_and!; [done| |done]. intros ->. by rewrite (inv_not_null _ _ _ HI) in Hp. }
  destruct Hp as (Hp & Hpn & Htot).
  assert (Hb : total l < 65536) by (rewrite El in Ht; destruct Ht as (_ & _ & Hu & _); rewrite <- Htot; unfold_c; lia).
  unfold pbuf_realloc. rewrite LWIP_ASSERT_ok by (apply negb_true_iff, Z.eqb_neq; done). rewrite (deref_ok _ _ _ Hp).
  cbn [mbind outcome_bind]. rewrite (proj2 (Z.leb_gt _ new_len)) by lia.
  rewrite (u16_small (p_tot_len pb - new_len)), Htot by lia.
  pose proof (seg_size _ _ _ (inv_not_null _ _ _ HI) Hs) as Hsz.
  destruct (realloc_loop_spec (chain_fuel s) s B ext p l new_len (total l - new_len) HI Hs Ht ltac:(by rewrite El) ltac:(lia))
    as (l0 & x & b & l2 & s1 & E & -> & Hrem & Hrem0 & Hs1 & HI1 & Hd1 & Hpm1 & Hfr1); [unfold chain_fuel; lia|].
  cbn [mbind outcome_bind]. set (rem := new_len - total l0) in *. set (shrink := total l - new_len) in *.
  assert (Hx : pbufs s1 !! x = Some b) by (eapply seg_lookup; [exact Hs1|apply elem_of_app; right; by left]).
  rewrite (deref_ok _ _ _ Hx). cbn [mbind outcome_bind].
  destruct (realloc_adjust s1 B ext x b rem HI1 Hx Hrem) as (s2 & B2 & -> & Ep2 & Ed2 & HI2 & HB2).
  { rewrite Hpm1. apply (Htrim x b). rewrite E. apply elem_of_app. right. by left. }
  cbn [mbind outcome_bind]. rewrite <- Ep2 in Hx. rewrite (deref_ok _ _ _ Hx). cbn [mbind outcome_bind].
  set (b' := with_tot_len (with_len b rem) rem) in *. change (p_next b) with (p_next b').
  pose proof (seg_NoDup _ _ _ (inv_not_null _ _ _ HI1) Hs1) as Hnd. rewrite fmap_app in Hnd.
  apply NoDup_app in Hnd as (_ & Hnd1 & Hnd2). apply NoDup_cons in Hnd2 as [Hxl _].
  assert (Hs3 : seg (pbufs (set_pbuf s2 x b')) p ((sub_tot shrink <$> l0) ++ (x, b') :: l2) NULL).
  { cbn [set_pbuf with_pbufs pbufs]. rewrite Ep2. apply pseg_app in Hs1 as (y & S0 & (-> & _ & S2)). apply pseg_app. exists x.
    split; [apply seg_insert; [done|]; intros Hin; apply (Hnd1 x Hin); by left|].
    cbn [lseg]. split_and!; [done|apply lookup_insert_eq|by apply seg_insert]. }
  destruct (realloc_finish _ B2 ext p _ x b' l2 HI2 Hs3) as (s' & B' & -> & HI' & HB' & Hs' & Hd' & Hfr').
  destruct (tot_ok_shrink l0 x b l2 (with_next b' NULL) rem shrink) as [Htok Htl]; try done.
  { by rewrite <- E. } { unfold shrink. rewrite <- E. unfold rem. lia. }
  exists s', ((sub_tot shrink <$> l0) ++ [(x, with_next b' NULL)]), B'. split_and!; try done.
  - rewrite Htl. unfold rem. lia.
  - rewrite E, !contents_app, contents_cons. change (contents (data s) []) with (@nil Z). rewrite app_nil_r.
    destruct (same_contents (data s) l0 (sub_tot shrink <$> l0)) as [<- _].
    { clear. induction l0; constructor; [done|apply IHl0]. }
    assert (Hl0 : Z.of_nat (length (contents (data s) l0)) = total l0).
    { apply contents_length. apply tot_ok_lens in Ht. rewrite E in Ht. by apply Forall_app in Ht as [Ht _]. }
    rewrite contents_cons, (node_bytes_split _ x b rem) by lia.
    rewrite take_app_ge by (unfold rem in Hrem; lia). f_equal. rewrite <- app_assoc, take_app_le.
    + rewrite take_ge; [done|]. rewrite read_bytes_length. unfold rem. lia.
    + rewrite read_bytes_length. unfold rem. lia.
  - cbn in Hd'. congruence.
  - apply subseteq_dom in HB'. rewrite <- HB2. done.
  - exists (length l0). rewrite E, cons_middle, app_assoc, take_app_length' by (rewrite length_app; cbn; lia). apply Forall2_app; [|by repeat constructor].
    clear. induction l0; constructor; [done|apply IHl0].
  - destruct l0 as [|[y c] l0]; [exists (x, b), l2, (x, with_next b' NULL), []; split; [done|]; split; [done|]; cbn in *; lia|].
    eexists (y, c), _, _, _. split; [done|]. split; [done|]. specialize (Hrem0 ltac:(done)). rewrite El in Ht, E. injection E as E1 E2 E3.
    assert (0 <= total l0). { rewrite E3 in Ht. apply tot_ok_lens in Ht. apply Forall_cons in Ht as [_ Ht]. apply Forall_app in Ht as [Ht _]. rewrite <- (contents_length (data s) l0 Ht). lia. }
    cbn [snd sub_tot fst p_len with_tot_len]. subst rem. change (total ((y, c) :: l0)) with (p_len c + total l0) in Hrem0. lia.
  - intros y Hy. rewrite E, fmap_app in Hy. apply not_elem_of_app in Hy as [Hy0 Hy]. rewrite Hfr' by done. apply not_elem_of_cons in Hy as [Hyx Hy].
    cbn [set_pbuf with_pbufs pbufs]. rewrite lookup_insert_ne by done. rewrite Ep2. by apply Hfr1.
Qed.

(** ** Lemmas: removing headers that span pbufs *)

(** One round: the first pbuf is cut off and given up. *)
Lemma free_first s B ext p b l :
  pbuf_inv s B (ext_add ext p) -> seg (pbufs s) p ((p, b) :: l) NULL ->
  exists c s' B', pbuf_free (set_pbuf s p (with_next b NULL)) p = Ret (c, s')
    /\ pbuf_inv s' B' (ext_add ext (p_next b)) /\ B' ⊆ B /\ data s' = data s /\ seg (pbufs s') (p_next b) l NULL.
Proof.
  intros HI Hs. pose proof (seg_NoDup _ _ _ (inv_not_null _ _ _ HI) Hs) as Hnd. apply NoDup_cons in Hnd as [Hpl _].
  destruct Hs as (_ & Hp & Hs). destruct (inv_lookup _ _ _ _ _ HI Hp) as (_ & _ & _ & Hpos).
  assert (Hpn : p <> NULL) by (unfold NULL; lia). set (s1 := set_pbuf s p (with_next b NULL)).
  assert (HI1 : pbuf_inv s1 B (ext_add (ext_add ext (p_next b)) p)).
  { eapply inv_ext_eq; [|apply (inv_unlink s B (ext_add ext p) p b (with_next b NULL)); [done..|]].
    - intros a _. unfold ext_add. repeat case_decide; done.
    - intros k _ (K1 & K2 & K3 & K4). by split_and!. }
  assert (Hs1 : seg (pbufs s1) p [(p, with_next b NULL)] NULL)
    by (cbn [lseg]; split_and!; [done|apply lookup_insert_eq|done]).
  unfold pbuf_free. rewrite (proj2 (Z.eqb_neq p NULL)) by done.
  destruct (free_loop_inv (chain_fuel s1) s1 B _ p 0 HI1) as (c & s' & B' & E & HI' & HB & Hd & _);
    [unfold chain_fuel; lia|].
  exists c, s', B'. split_and!; try done. eapply pseg_frame; [exact Hs|]. intros a e Ha.
  assert (Hap : a <> p). { intros ->. apply Hpl, list_elem_of_fmap. by exists (p, e). }
  transitivity (pbufs s1 !! a); [|apply lookup_insert_ne; congruence].
  eapply free_loop_untouched; [by eapply inv_not_null|exact Hs1| |exact E].
  intros Hin. apply list_elem_of_singleton in Hin. by cbn in Hin.
Qed.

Lemma free_header_loop_spec fuel s B ext p l n :
  pbuf_inv s B (ext_add ext p) -> chain s p l -> 0 <= n < 65536 -> (length l < fuel)%nat ->
  exists p' s' l' B', free_header_loop fuel s p n = Ret (p', s') /\ chain s' p' l'
    /\ contents (data s) l' = drop (Z.to_nat n) (contents (data s) l)
    /\ data s' = data s /\ pbuf_inv s' B' (ext_add ext p') /\ B' ⊆ B.
Proof.
  revert s B p l n. induction fuel as [|fuel IH]; intros s B p l n HI [Hs Ht] Hn Hf; [lia|]. cbn [free_header_loop].
  destruct (n =? 0) eqn:E0; bool_to_prop; cbn [orb].
  { subst n. exists p, s, l, B. split_and!; try done. }
  destruct l as [|[p' b] l].
  { cbn in Hs. subst p. rewrite Z.eqb_refl. exists NULL, s, [], B. split_and!; try done. symmetry. apply drop_nil. }
  pose proof Hs as (<- & Hp & Hs'). pose proof Ht as (Hu & Et & Hut & Ht').
  destruct (inv_lookup _ _ _ _ _ HI Hp) as (_ & _ & _ & Hpos). assert (Hpn : p <> NULL) by (unfold NULL; lia).
  rewrite (proj2 (Z.eqb_neq p NULL)) by done. rewrite (deref_ok _ _ _ Hp). cbn [mbind outcome_bind].
  destruct (p_len b <=? n) eqn:El; bool_to_prop.
  - destruct (free_first _ _ _ _ _ _ HI Hs) as (c & s1 & B1 & -> & HI1 & HB1 & Hd1 & Hs1). cbn [mbind outcome_bind].
    rewrite u16_small by (unfold_c; lia).
    destruct (IH s1 B1 (p_next b) l (n - p_len b) HI1) as (p' & s' & l' & B' & E & Hc & Hcont & Hd & HI' & HB');
      [by split|unfold_c; lia|cbn in Hf; lia|].
    exists p', s', l', B'. split_and!; [done|done| |congruence|done|by etrans].
    rewrite Hd1 in Hcont. rewrite Hcont, contents_cons, drop_app_ge by (unfold node_bytes; rewrite read_bytes_length; cbn; lia).
    unfold node_bytes at 1. rewrite read_bytes_length. cbn [snd]. f_equal. unfold_c. lia.
  - destruct (remove_header_spec s B (ext_add ext p) p b l n HI) as (-> & Hc & HI' & Hcont); [by split|lia|].
    cbn [mbind outcome_bind]. destruct fuel as [|fuel]; [cbn in Hf; lia|]. cbn [free_header_loop Z.eqb orb].
    eexists p, _, _, B. exact (conj eq_refl (conj Hc (conj Hcont (conj eq_refl (conj HI' (reflexivity B)))))).
Qed.

Lemma tot_ok_replace l a b b' l2 :
  p_len b' = p_len b -> p_tot_len b' = p_tot_len b -> tot_ok (l ++ (a, b) :: l2) -> tot_ok (l ++ (a, b') :: l2).
Proof.
  intros Hl Ht. induction l as [|[x c] l IH]; cbn [app tot_ok].
  - by rewrite Hl, Ht.
  - intros (U1 & U2 & U3 & U4). split_and!; [done| |done|by apply IH]. rewrite U2, !total_app.
    cbn. rewrite Hl. done.
Qed.

(** Putting two packets together: only links and totals of the first one change, and
    the count of the second. *)
Lemma chain_two_spec s B ext h t lh tb lt :
  pbuf_inv s B ext -> (0 < ext t)%nat -> chain s h lh -> chain s t ((t, tb) :: lt) -> lh <> [] ->
  lh.*1 ## ((t, tb) :: lt).*1 -> total lh + total ((t, tb) :: lt) < 65536 -> p_ref tb < 255 ->
  let tb' := with_ref tb (p_ref tb + 1) in
  exists s' lh', pbuf_chain s h t = Ret s' /\ chain s' h (lh' ++ (t, tb') :: lt) /\ chain s' t ((t, tb') :: lt)
    /\ Forall2 same_data lh lh' /\ data s' = data s /\ pbuf_inv s' B ext.
Proof.
  intros HI He Hh Ht Hlh Hdis Hsum Href tb'. pose proof Ht as [(_ & Htb & _) _].
  destruct (cat_spec s B (ext_sub ext t) h t lh ((t, tb) :: lt)) as (s1 & lh' & E1 & [Hc1 Ht1] & Hsame & Hfr & Hd1 & HI1); try done.
  { eapply inv_ext_eq; [|exact HI]. intros a _. by rewrite ext_add_sub. }
  assert (Htb1 : pbufs s1 !! t = Some tb).
  { rewrite Hfr; [done|]. intros Hin. apply (Hdis t Hin). by left. }
  destruct (ref_spec s1 B (ext_sub ext t) t tb HI1 Htb1 Href) as [E2 HI2]. exists (set_pbuf s1 t tb'), lh'.
  assert (Ha : lh'.*1 = lh.*1). { clear -Hsame. induction Hsame as [|x y l l' (E & _) _ IH]; [done|]. cbn. by rewrite E, IH. }
  assert (Htl : chain (set_pbuf s1 t tb') t ((t, tb') :: lt)).
  { destruct Ht as [Hst Htt]. split; [|exact Htt].
    pose proof (seg_NoDup _ _ _ (inv_not_null _ _ _ HI) Hst) as Hnd. apply NoDup_cons in Hnd as [Hntl _].
    destruct Hst as (_ & _ & Hst). cbn [lseg]. split_and!; [done|apply lookup_insert_eq|]. apply seg_insert; [|done].
    eapply pseg_frame; [exact Hst|]. intros a c Hin. apply Hfr. intros Hin'. apply (Hdis a Hin'). right.
    apply list_elem_of_fmap. by exists (a, c). }
  split; [unfold pbuf_chain; rewrite E1; cbn [mbind outcome_bind]; exact E2|]. split; [split|].
  - apply pseg_app in Hc1 as (q & Hq & Hq'). pose proof Hq' as (-> & _). apply pseg_app. exists t. split; [|apply Htl].
    apply seg_insert; [done|]. rewrite Ha. intros Hin. apply (Hdis t Hin). by left.
  - by apply (tot_ok_replace lh' t tb tb' lt).
  - do 3 (split; [done|]). eapply inv_ext_eq; [|exact HI2]. intros a _. by rewrite ext_add_sub.
Qed.

(** ** Properties *)

(** pbuf_chain makes one packet of two: the chain from [h] has the bytes of
    the first packet followed by those of the second, with consistent [tot_len];
    [t] still is a packet with the second part, both pointers of the caller stay
    counted, and no byte is copied. *)
Theorem pbuf_chain_correct s B ext h t lh t' tb lt :
  pbuf_inv s B ext -> (0 < ext t)%nat -> chain s h lh -> chain s t ((t', tb) :: lt) -> lh <> [] ->
  lh.*1 ## ((t', tb) :: lt).*1 -> total lh + total ((t', tb) :: lt) < 65536 -> p_ref tb < 255 ->
  exists s' lh' tb', pbuf_chain s h t = Ret s' /\ chain s' h (lh' ++ (t', tb') :: lt) /\ chain s' t ((t', tb') :: lt)
    /\ contents (data s') (lh' ++ (t', tb') :: lt) = contents (data s) lh ++ contents (data s) ((t', tb) :: lt)
    /\ total (lh' ++ (t', tb') :: lt) = total lh + total ((t', tb) :: lt)
    /\ data s' = data s /\ p_ref tb' = p_ref tb + 1 /\ pbuf_inv s' B ext.
Proof.
  intros HI He Hh Ht Hlh Hdis Hsum Href. pose proof Ht as [(<- & _) _].
  destruct (chain_two_spec s B ext h t lh tb lt HI He Hh Ht Hlh Hdis Hsum Href) as (s' & lh' & E & Hc & Htl & Hsame & Hd & HI').
  destruct (same_contents (data s) _ _ Hsame) as [Ec El]. exists s', lh', (with_ref tb (p_ref tb + 1)). split_and!; try done.
  - rewrite Hd, contents_app, <- Ec. done.
  - rewrite total_app, <- El. done.
Qed.

(** pbuf_dechain takes the first pbuf off its packet: it becomes a packet of
    its own with its own bytes, the invariant holds, and the result is the rest of
    the packet with one reference less when that rest had another holder ([l1] is
    empty), NULL when its first pbufs [l1] were freed; fewer than 256 of them. *)
Theorem pbuf_dechain_correct s B ext p b l1 l2 :
  pbuf_inv s B ext -> chain s p ((p, b) :: l1 ++ l2) -> l1 ++ l2 <> [] -> (length l1 < 256)%nat ->
  Forall (λ x, p_ref x.2 = 1) l1 -> match l2 with [] => True | x :: _ => 1 < p_ref x.2 end ->
  exists r s' b', pbuf_dechain s p = Ret (r, s') /\ pbuf_inv s' (dels B l1.*1) ext /\ data s' = data s
    /\ chain s' p [(p, b')] /\ contents (data s') [(p, b')] = node_bytes (data s) (p, b)
    /\ r = (match l1, l2 with [], (q, _) :: _ => q | _, _ => NULL end)
    /\ match l2 with
       | [] => True
       | (q, c) :: l => chain s' q ((q, with_ref c (p_ref c - 1)) :: l)
       end.
Proof.
  intros HI Hc Hl Hlen Hr He. destruct (dechain_spec s B ext p b l1 l2 HI Hc Hl Hr He) as (s' & E & HI' & Ep & Hd).
  destruct Hc as [Hs Ht]. pose proof (seg_NoDup _ _ _ (inv_not_null _ _ _ HI) Hs) as Hnd.
  cbn [fmap list_fmap fst] in Hnd. change (list_fmap _ _ fst (l1 ++ l2)) with (l1 ++ l2).*1 in Hnd.
  apply NoDup_cons in Hnd as [Hpl Hnd]. rewrite fmap_app in Hpl, Hnd. apply not_elem_of_app in Hpl as [Hp1 Hp2].
  apply NoDup_app in Hnd as (_ & Hnd & Hnd2). pose proof Hs as (_ & Hp & Hs'). destruct Ht as (Hu & Et & Hut & Ht).
  set (b' := with_tot_len (with_next b NULL) (p_len b)) in *. eexists _, s', b'.
  split; [exact E|]. split; [done|]. split; [done|].
  set (e := match l2 with [] => NULL | x :: _ => x.1 end) in *.
  assert (Hpe : p <> e).
  { intros ->. unfold e in *. destruct l2 as [|[q c] l2]; [by rewrite (inv_not_null _ _ _ HI) in Hp|]. apply Hp2. by left. }
  assert (Hpb : pbufs s' !! p = Some b').
  { rewrite Ep, lookup_dec_other, lookup_dels, decide_False by done. apply lookup_insert_eq. }
  split; [split; [by cbn|cbn; unfold_c; lia]|]. split; [cbn; by rewrite Hd, app_nil_r|]. split.
  - destruct l1 as [|x l1].
    + change (0 <? u8 0%nat) with false. cbn [app] in *. destruct l2 as [|[q c] l2]; [done|]. by destruct Hs' as (-> & _).
    + rewrite u8_small by (cbn [length] in *; lia). rewrite (proj2 (Z.ltb_lt 0 _)) by (cbn [length]; lia). done.
  - destruct l2 as [|[q c] l2]; [done|]. apply pseg_app in Hs' as (y & _ & Hs2). pose proof Hs2 as (-> & Hc & Hs3).
    assert (Ht2 : tot_ok ((q, c) :: l2)) by (clear -Ht; induction l1 as [|[z d] l1 IH]; [exact Ht|apply IH, Ht]).
    split; [|exact Ht2]. cbn [fst] in e. apply NoDup_cons in Hnd2 as [Hql _]. cbn [lseg]. split_and!; [done| |].
    + rewrite Ep. unfold dec, e. rewrite lookup_dels, decide_False; [|intros Hin; apply (Hnd _ Hin); by left].
      rewrite lookup_insert_ne by (intros ->; apply Hp2; by left). rewrite Hc. apply lookup_insert_eq.
    + eapply pseg_frame; [exact Hs3|]. intros a f Ha.
      assert (Hain : a ∈ l2.*1) by (apply list_elem_of_fmap; by exists (a, f)).
      rewrite Ep, lookup_dec_other by (unfold e; cbn; intros ->; done).
      rewrite lookup_dels, decide_False by (intros Hin; apply (Hnd _ Hin); by right).
      apply lookup_insert_ne. intros ->. apply Hp2. by right.
Qed.

(** pbuf_free counts the pbufs it frees in a u8_t: when the rest of a packet
    is 256 pbufs that nobody else holds, pbuf_dechain frees them all and returns,
    instead of NULL, the pointer to the first of them, which is no pbuf any more. *)
Theorem pbuf_dechain_dangling s B ext p b l :
  pbuf_inv s B ext -> chain s p ((p, b) :: l) -> length l = 256%nat -> Forall (λ x, p_ref x.2 = 1) l ->
  exists s', pbuf_dechain s p = Ret (p_next b, s') /\ p_next b <> NULL /\ pbufs s' !! p_next b = None.
Proof.
  intros HI Hc Hlen Hr. destruct (dechain_spec s B ext p b l []) as (s' & E & HI' & Ep & _); rewrite ?app_nil_r; try done.
  { intros ->. done. }
  destruct Hc as [Hs _]. pose proof (seg_cons_next _ _ _ _ _ _ HI Hs) as Hn. exists s'. rewrite Hlen in E. split_and!; [exact E| |].
  - apply Hn. by intros ->.
  - destruct l as [|[q c] l]; [done|]. destruct Hs as (_ & _ & (-> & Hq & _)).
    rewrite Ep, lookup_dec_other by (intros ->; by rewrite (inv_not_null _ _ _ HI) in Hq).
    rewrite lookup_dels, decide_True; [done|]. by left.
Qed.

(** pbuf_remove_header undoes pbuf_add_header. *)
Lemma remove_undoes_add s B ext p b l n s1 :
  pbuf_inv s B ext -> chain s p ((p, b) :: l) -> 0 <= n <= 0xFFFF -> pbuf_add_header s p n = Ret (0, s1) -> pbuf_remove_header s1 p n = Ret (0, s).
Proof.
  intros HI Hc Hn E1. pose proof (add_header_spec s B ext p b l n false HI Hc Hn) as Ha. cbn zeta in Ha.
  unfold pbuf_add_header in E1. destruct (_ || _); [|congruence]. destruct Ha as (E & Hc' & HI' & _).
  rewrite E in E1. injection E1 as <-. pose proof Hc as [(_ & Hp & _) (Hu & _)].
  destruct (remove_header_spec _ B ext p _ l n HI' Hc') as (-> & _); [cbn; unfold_c; lia|]. do 2 f_equal.
  unfold set_pbuf, with_pbufs. cbn [pbufs data pmem pbuf_free_ooseq_pending]. rewrite insert_insert_eq.
  rewrite insert_id; [by destruct s|]. rewrite Hp. f_equal. destruct b. unfold with_tot_len, with_len, with_payload. cbn.
  f_equal; lia.
Qed.

(** C33: pbuf_add_header reveals [n] bytes in front of the payload exactly when
    the total length stays a u16_t and, for a pbuf that carries its data, they lie
    behind its structure; otherwise it fails and changes nothing.  The bytes of the
    packet are then the [n] bytes found there followed by the old ones, and
    pbuf_remove_header of [n] bytes restores the state from before. *)
Theorem pbuf_add_header_correct s B ext p b l n :
  pbuf_inv s B ext -> chain s p ((p, b) :: l) -> 0 <= n <= 0xFFFF ->
  if (n =? 0) || ((p_tot_len b + n <? 65536) && is_contiguous b && (p + SIZEOF_STRUCT_PBUF <=? p_payload b - n)) then
    exists s' b', pbuf_add_header s p n = Ret (0, s') /\ chain s' p ((p, b') :: l)
      /\ p_payload b' = p_payload b - n /\ data s' = data s /\ pbuf_inv s' B ext
      /\ contents (data s') ((p, b') :: l)
         = read_bytes (data s) (p_payload b - n) (Z.to_nat n) ++ contents (data s) ((p, b) :: l)
      /\ pbuf_remove_header s' p n = Ret (0, s)
  else pbuf_add_header s p n = Ret (1, s).
Proof.
  intros HI Hc Hn. pose proof (add_header_spec s B ext p b l n false HI Hc Hn) as Ha. cbn zeta in Ha.
  assert (Eb : (n =? 0) || ((p_tot_len b + n <? 65536) && is_contiguous b && (p + SIZEOF_STRUCT_PBUF <=? p_payload b - n))
    = (n =? 0) || ((p_tot_len b + n <? 65536)
            && (if is_contiguous b then p + SIZEOF_STRUCT_PBUF <=? p_payload b - n else false))).
  { destruct (is_contiguous b); by rewrite ?andb_true_r, ?andb_false_r. }
  rewrite Eb. destruct (_ || _); [|exact Ha]. destruct Ha as (E & Hc' & HI' & Hcont). eexists _, _.
  split; [exact E|]. split; [exact Hc'|]. split; [done|]. split; [done|]. split; [exact HI'|]. split; [exact Hcont|].
  by eapply remove_undoes_add.
Qed.

(** pbuf_remove_header hides the first [n] bytes of a packet when its first
    pbuf has that many (and aborts when not), and undoes pbuf_add_header exactly. *)
Theorem pbuf_remove_header_correct s B ext p b l n :
  pbuf_inv s B ext -> chain s p ((p, b) :: l) -> 0 <= n <= 0xFFFF ->
  (if n <=? p_len b then
     exists s' b', pbuf_remove_header s p n = Ret (0, s') /\ chain s' p ((p, b') :: l) /\ data s' = data s
       /\ pbuf_inv s' B ext
       /\ contents (data s') ((p, b') :: l) = drop (Z.to_nat n) (contents (data s) ((p, b) :: l))
   else pbuf_remove_header s p n = Trap "increment_magnitude <= p->len")
  /\ (forall s1, pbuf_add_header s p n = Ret (0, s1) -> pbuf_remove_header s1 p n = Ret (0, s)).
Proof.
  intros HI Hc Hn. split.
  - destruct (n <=? p_len b) eqn:E; bool_to_prop.
    + destruct (remove_header_spec s B ext p b l n HI Hc ltac:(lia)) as (E1 & Hc1 & HI1 & Hcont). eexists _, _.
      split; [exact E1|]. split; [exact Hc1|]. split; [done|]. split; [exact HI1|exact Hcont].
    + pose proof Hc as [(_ & Hp & _) (Hu & _)]. destruct (inv_lookup _ _ _ _ _ HI Hp) as (_ & _ & _ & Hpos).
      unfold pbuf_remove_header. rewrite (proj2 (Z.eqb_neq p NULL)) by (unfold NULL; lia).
      cbn [negb LWIP_ASSERT mbind outcome_bind orb]. rewrite (proj2 (Z.ltb_ge 0xFFFF n)) by lia.
      rewrite (proj2 (Z.eqb_neq n 0)) by (unfold_c; lia). rewrite (deref_ok _ _ _ Hp). cbn [mbind outcome_bind].
      rewrite (u16_small n) by lia. unfold LWIP_ERROR, LWIP_ASSERT. by rewrite (proj2 (Z.leb_gt n (p_len b))) by lia.
  - intros s1 E1. by eapply remove_undoes_add.
Qed.

(** pbuf_realloc cuts a packet to its first [new_len] bytes: the lengths of
    all pbufs left are consistent, the rest is freed, a PBUF_RAM pbuf gives the
    memory behind its data back, and no pointer dangles; a larger length does
    nothing.  (mem_trim aborts on the last block of the heap, hence [trim_ok].) *)
Theorem pbuf_realloc_correct s B ext p l new_len :
  pbuf_inv s B ext -> chain s p l -> l <> [] -> 0 <= new_len ->
  (forall a b n, (a, b) ∈ l -> trim_ok (pmem s) a n) ->
  if new_len <? total l then
    exists s' l' B', pbuf_realloc s p new_len = Ret s' /\ chain s' p l' /\ total l' = new_len
      /\ contents (data s') l' = take (Z.to_nat new_len) (contents (data s) l)
      /\ data s' = data s /\ pbuf_inv s' B' ext /\ dom B' ⊆ dom B
  else pbuf_realloc s p new_len = Ret s.
Proof.
  intros HI Hc Hl Hn Htrim. destruct (new_len <? total l) eqn:E; bool_to_prop.
  - destruct (realloc_spec s B ext p l new_len HI Hc Hl ltac:(lia) Htrim) as (s' & l' & B' & E1 & Hc' & Ht & Hcont & Hd & HI' & HB & _).
    exists s', l', B'. rewrite Hd. by split_and!.
  - destruct l as [|[p' b] l]; [done|]. destruct Hc as [(<- & Hp & _) (_ & Et & _)].
    unfold pbuf_realloc. rewrite LWIP_ASSERT_ok.
    2:{ apply negb_true_iff, Z.eqb_neq. intros ->. by rewrite (inv_not_null _ _ _ HI) in Hp. }
    rewrite (deref_ok _ _ _ Hp). cbn [mbind outcome_bind]. rewrite (proj2 (Z.leb_le _ new_len)); [done|].
    rewrite Et. exact E.
Qed.

(** pbuf_free_header drops the first [size] bytes of a packet, over pbuf
    borders: the pbufs that become empty are given up, and the result is the
    packet with the remaining bytes (NULL when none is left). *)
Theorem pbuf_free_header_correct s B ext p l size :
  pbuf_inv s B (ext_add ext p) -> chain s p l -> is_u16 size ->
  exists p' s' l' B', pbuf_free_header s p size = Ret (p', s') /\ chain s' p' l'
    /\ contents (data s') l' = drop (Z.to_nat size) (contents (data s) l)
    /\ data s' = data s /\ pbuf_inv s' B' (ext_add ext p') /\ B' ⊆ B.
Proof.
  intros HI Hc Hn. pose proof (seg_size _ _ _ (inv_not_null _ _ _ HI) (proj1 Hc)).
  destruct (free_header_loop_spec (chain_fuel s) s B ext p l size HI Hc Hn) as (p' & s' & l' & B' & E & Hc' & Hcont & Hd & HI' & HB);
    [unfold chain_fuel; lia|]. exists p', s', l', B'. rewrite Hd. by split_and!.
Qed.

(** ** Lemmas: a long packet of one-byte references *)

Lemma build_refs n s B ext p b l :
  pbuf_inv s B (ext_add ext p) -> chain s p ((p, b) :: l) -> Forall (λ x, p_ref x.2 = 1) l ->
  total ((p, b) :: l) + Z.of_nat n < 65536 -> (count_blocks BRef B + n <= num_ref)%nat ->
  exists s' B' b' l', pbuf_inv s' B' (ext_add ext p) /\ chain s' p ((p, b') :: l')
    /\ length l' = (length l + n)%nat /\ Forall (λ x, p_ref x.2 = 1) l'.
Proof.
  revert s B b l. induction n as [|n IH]; intros s B b l HI Hc Hr Hsum Hcnt.
  { exists s, B, b, l. rewrite Nat.add_0_r. by split_and!. }
  pose proof (alloc_ref_spec s B (ext_add ext p) NULL 1 PBUF_REF HI ltac:(unfold_c; lia) (or_introl eq_refl)) as Ha.
  rewrite decide_True in Ha by lia. cbn zeta in Ha. destruct Ha as (q & st & _ & Hq & Hnew & HI1).
  set (qb := Pbuf NULL NULL 1 1 _ 0 1 _) in *. set (s1 := set_pbuf (with_pmem s st) q qb) in *.
  assert (Hql : q ∉ ((p, b) :: l).*1).
  { intros Hin. apply list_elem_of_fmap in Hin as ([a c] & -> & Hin).
    pose proof (seg_lookup _ _ _ _ _ _ (proj1 Hc) Hin). cbn in *. congruence. }
  assert (Hc1 : chain s1 p ((p, b) :: l)).
  { destruct Hc as [Hs Ht]. split; [|done]. by apply seg_insert. }
  assert (Hcq : chain s1 q [(q, qb)]).
  { split; [cbn [lseg]; split_and!; [done|apply lookup_insert_eq|done]|]. cbn. unfold_c. lia. }
  destruct (cat_spec s1 (<[q := BRef]> B) (ext_add ext p) p q ((p, b) :: l) [(q, qb)] HI1 Hc1 Hcq)
    as (s2 & lh' & _ & Hc2 & Hsame & _ & _ & HI2); try done.
  { intros a Ha Hb. apply list_elem_of_singleton in Hb. cbn in Hb. subst a. done. }
  { change (total [(q, qb)]) with (1 + 0). lia. }
  inversion Hsame as [|x [y b'] lx ly (Exy & _ & El & _) Hsame' E1 E2]. subst. cbn in Exy, El. subst y.
  assert (HrefB : B !! q = None).
  { destruct (B !! q) eqn:EB; [|done]. destruct (proj2 (inv_dom _ _ _ HI q) ltac:(eauto)) as [c Hc0]. congruence. }
  destruct (IH s2 (<[q := BRef]> B) b' (ly ++ [(q, qb)]) HI2 Hc2) as (s' & B' & b'' & l' & HI' & Hc' & Hlen & Hr').
  - apply Forall_app. split; [|by repeat constructor]. clear -Hr Hsame'. induction Hsame' as [|x y l l' (_ & _ & _ & _ & _ & _ & E) _ IH]; [done|].
    apply Forall_cons in Hr as [Hx Hr]. constructor; [congruence|by apply IH].
  - change (total ((p, b') :: ly ++ [(q, qb)])) with (p_len b' + total (ly ++ [(q, qb)])).
    change (total ((p, b) :: l)) with (p_len b + total l) in Hsum. rewrite total_app.
    destruct (same_contents (data s) _ _ Hsame') as [_ <-]. change (total [(q, qb)]) with 1. lia.
  - rewrite count_insert by done. lia.
  - exists s', B', b'', l'. split_and!; try done. rewrite Hlen, length_app. cbn.
    apply Forall2_length in Hsame'. lia.
Qed.
End Chains.

(** ** Witnesses: the packet of PbufRef.v and a second one in RAM *)

Definition alloc1 : Z * pstate :=
  match pbuf_alloc ps1 PBUF_TRANSPORT 100 PBUF_RAM with Ret r => r | Trap _ => (NULL, ps1) end.
Definition p2 : Z := fst alloc1.
Definition ps2 : pstate := snd alloc1.

Lemma ps2_inv :
  exists B b1 a2 b2 b, pbuf_inv ps2 B (ext_add (ext_add no_ext p1) p2)
    /\ chain ps2 p1 [(p1, b1); (a2, b2)] /\ chain ps2 p2 [(p2, b)] /\ [(p1, b1); (a2, b2)].*1 ## [(p2, b)].*1
    /\ p_len b1 = 590 /\ p_len b2 = 410 /\ p_ref b1 = 1 /\ p_ref b2 = 1
    /\ p_len b = 100 /\ p_ref b = 1 /\ p_tot_len b = 100 /\ is_contiguous b = true
    /\ p_payload b = p2 + SIZEOF_STRUCT_PBUF + 54
    /\ Forall (λ x, is_contiguous x.2 = true /\ is_custom x.2 = false) [(p1, b1); (a2, b2); (p2, b)].
Proof.
  destruct ps1_inv as (l & Hp & Hc & Hln & Hr & HI).
  assert (Hl : 0 <= PBUF_TRANSPORT <= PBUF_TRANSPORT) by (vm_compute; intuition congruence).
  assert (Hn : is_u16 100) by (vm_compute; intuition congruence).
  pose proof (alloc_ram_spec ps1 _ _ PBUF_TRANSPORT 100 HI Hl Hn) as Ha. cbn zeta in Ha.
  destruct (decide _) as [_|Hno]; [|exfalso; apply Hno; vm_compute; split; reflexivity].
  destruct Ha as (r & st & Em & Ha).
  assert (Ef : match pm_mem_malloc (pmem ps1) (SIZEOF_STRUCT_PBUF + (LWIP_MEM_ALIGN_SIZE PBUF_TRANSPORT + LWIP_MEM_ALIGN_SIZE 100))
               with Ret (Some _, _) => true | _ => false end = true) by (vm_compute; reflexivity).
  rewrite Em in Ef. destruct r as [q|]; [|discriminate Ef]. clear Ef. destruct Ha as (k & E & Hk & Hq & Hnew & HI').
  assert (Er : alloc1 = (q, set_pbuf (with_pmem ps1 st) q (Pbuf NULL (q + SIZEOF_STRUCT_PBUF + LWIP_MEM_ALIGN_SIZE PBUF_TRANSPORT)
                             100 100 (u8 PBUF_RAM) 0 1 NETIF_NO_INDEX))).
  { unfold alloc1, pbuf_alloc. change (u16 PBUF_TRANSPORT) with PBUF_TRANSPORT.
    change ((PBUF_RAM =? PBUF_REF) || (PBUF_RAM =? PBUF_ROM)) with false. change (PBUF_RAM =? PBUF_POOL) with false.
    change (PBUF_RAM =? PBUF_RAM) with true. cbv iota. by rewrite E. }
  unfold ps2, p2. rewrite Er. cbn [fst snd]. set (b := Pbuf NULL _ 100 100 _ 0 1 _) in *.
  assert (Hql : q ∉ l.*1).
  { intros Hin. apply list_elem_of_fmap in Hin as ([a c] & -> & Hin). destruct Hc as [Hs _].
    pose proof (seg_lookup _ _ _ _ _ _ Hs Hin) as Hx. cbn [fst] in Hnew. rewrite Hnew in Hx. discriminate Hx. }
  destruct l as [|[a1 b1] [|[a2 b2] [|? ?]]]; try discriminate Hln. injection Hln as L1 L2.
  pose proof (proj1 (proj1 Hc)) as Ea. subst a1.
  exists (<[q := BHeap k]> (adds ∅ [(p1, b1); (a2, b2)].*1 BPool)), b1, a2, b2, b.
  split; [exact HI'|]. split; [|split; [|split]].
  - destruct Hc as [Hs Htok]. split; [|exact Htok]. apply seg_insert; [exact Hs|exact Hql].
  - split; [|cbn; unfold_c; lia]. cbn [lseg]. split; [reflexivity|]. split; [apply lookup_insert_eq|reflexivity].
  - intros a Ha Hb. apply list_elem_of_singleton in Hb. cbn [fst] in Hb. subst a. exact (Hql Ha).
  - apply Forall_cons in Hr as [R1 Hr]. apply Forall_cons in Hr as [R2 _].
    split; [exact L1|]. split; [exact L2|]. split; [exact R1|]. split; [exact R2|]. repeat (split; [reflexivity|]).
    assert (Hkc : forall x c, (x, c) ∈ [(p1, b1); (a2, b2)] -> is_contiguous c = true /\ is_custom c = false).
    { intros x c Hin. assert (Hx : adds ∅ [(p1, b1); (a2, b2)].*1 BPool !! x = Some BPool).
      { apply lookup_adds, list_elem_of_fmap. exists (x, c). split; [reflexivity|exact Hin]. }
      destruct (inv_node _ _ _ HI x c BPool (seg_lookup _ _ _ _ _ _ (proj1 Hc) Hin) Hx) as ((K1 & _ & K2) & _).
      split; [exact K2|exact K1]. }
    constructor; [apply (Hkc p1); left|]. constructor; [apply (Hkc a2); right; left|].
    constructor; [split; reflexivity|constructor].
Qed.

Lemma pbuf_chain_correct_witness :
  exists s' l, pbuf_chain ps2 p1 p2 = Ret s' /\ chain s' p1 l /\ total l = 1100.
Proof.
  destruct ps2_inv as (B & b1 & a2 & b2 & b & HI & Hc1 & Hc2 & Hdis & L1 & L2 & _ & _ & L & R & _).
  destruct (pbuf_chain_correct ps2 B _ p1 p2 [(p1, b1); (a2, b2)] p2 b [] HI)
    as (s' & lh' & tb' & E & Hc & _ & _ & Htot & _).
  - unfold ext_add. rewrite (decide_True (P := p2 = p2)) by reflexivity. lia.
  - exact Hc1.
  - exact Hc2.
  - discriminate.
  - exact Hdis.
  - unfold total. cbn. rewrite L1, L2, L. lia.
  - rewrite R. lia.
  - exists s', (lh' ++ [(p2, tb')]). split; [exact E|]. split; [exact Hc|]. rewrite Htot. unfold total. cbn. rewrite L1, L2, L. lia.
Defined.

Lemma pbuf_dechain_correct_witness :
  exists s' b', pbuf_dechain ps2 p1 = Ret (NULL, s') /\ chain s' p1 [(p1, b')].
Proof.
  destruct ps2_inv as (B & b1 & a2 & b2 & b & HI & Hc1 & _ & _ & _ & _ & _ & R2 & _).
  destruct (pbuf_dechain_correct ps2 B _ p1 b1 [(a2, b2)] [] HI Hc1) as (r & s' & b' & E & _ & _ & Hc & _ & -> & _).
  - discriminate.
  - cbn. lia.
  - repeat constructor. exact R2.
  - exact I.
  - exists s', b'. split; [exact E|exact Hc].
Defined.

Lemma pbuf_add_header_correct_witness :
  exists s' b', pbuf_add_header ps2 p2 20 = Ret (0, s') /\ chain s' p2 [(p2, b')].
Proof.
  destruct ps2_inv as (B & b1 & a2 & b2 & b & HI & _ & Hc2 & _ & _ & _ & _ & _ & _ & _ & T & C & P & _).
  pose proof (pbuf_add_header_correct ps2 B _ p2 b [] 20 HI Hc2 ltac:(lia)) as Ha.
  assert (Hroom : forall x y, (x + y <=? x + y + 54 - 20) = true) by (intros; apply Z.leb_le; lia).
  rewrite T, C, P, Hroom in Ha.
  destruct Ha as (s' & b' & E & Hc & _). exists s', b'. split; [exact E|exact Hc].
Defined.

Lemma pbuf_remove_header_correct_witness :
  exists s' b', pbuf_remove_header ps2 p2 8 = Ret (0, s') /\ chain s' p2 [(p2, b')].
Proof.
  destruct ps2_inv as (B & b1 & a2 & b2 & b & HI & _ & Hc2 & _ & _ & _ & _ & _ & L & _).
  destruct (pbuf_remove_header_correct ps2 B _ p2 b [] 8 HI Hc2 ltac:(lia)) as [Ha _].
  rewrite L in Ha. destruct Ha as (s' & b' & E & Hc & _). exists s', b'. split; [exact E|exact Hc].
Defined.

Lemma pbuf_free_header_correct_witness :
  exists p' s' l', pbuf_free_header ps1 p1 600 = Ret (p', s') /\ chain s' p' l'.
Proof.
  destruct ps1_inv as (l & _ & Hc & _ & _ & HI).
  destruct (pbuf_free_header_correct ps1 _ no_ext p1 l 600 HI Hc) as (p' & s' & l' & B' & E & Hc' & _).
  - vm_compute. intuition congruence.
  - exists p', s', l'. split; [exact E|exact Hc'].
Defined.

Lemma pbuf_realloc_correct_witness :
  exists s' l', pbuf_realloc ps1 p1 700 = Ret s' /\ chain s' p1 l' /\ total l' = 700.
Proof.
  destruct ps1_inv as (l & _ & Hc & Hln & _ & HI).
  assert (Ht : total l = 1000).
  { clear -Hln. destruct l as [|[a1 b1] [|[a2 b2] [|? ?]]]; try discriminate Hln. injection Hln as E1 E2.
    unfold total. cbn. rewrite E1, E2. reflexivity. }
  pose proof (pbuf_realloc_correct ps1 _ _ p1 l 700 HI Hc) as Hr. rewrite Ht in Hr.
  destruct Hr as (s' & l' & B' & E & Hc' & Ht' & _).
  - intros ->. discriminate Ht.
  - lia.
  - intros a b n Ha. eapply pool_trim_possible; [exact (inv_holds _ _ _ HI)|apply lookup_adds|discriminate].
    apply list_elem_of_fmap. exists (a, b). split; [reflexivity|exact Ha].
  - exists s', l'. split; [exact E|]. split; [exact Hc'|exact Ht'].
Defined.

Lemma pbuf_dechain_dangling_witness :
  exists (s s' : pstate (St := pmem_state)) p q, pbuf_dechain s p = Ret (q, s') /\ q <> NULL /\ pbufs s' !! q = None.
Proof.
  pose proof (alloc_ref_spec ps0 ∅ no_ext NULL 1 PBUF_REF ps0_inv ltac:(vm_compute; intuition congruence)
    (or_introl eq_refl)) as Ha.
  destruct (decide _) as [_|Hno]; [|exfalso; apply Hno; vm_compute; lia].
  destruct Ha as (p & st & _ & _ & _ & HI). set (b := Pbuf NULL NULL 1 1 _ 0 1 _) in *.
  destruct (build_refs 256 _ _ no_ext p b [] HI) as (s' & B' & b' & l' & HI' & Hc' & Hlen & Hr).
  - split; [|cbn; unfold_c; lia]. cbn [lseg]. split; [reflexivity|]. split; [apply lookup_insert_eq|reflexivity].
  - constructor.
  - unfold total. cbn. lia.
  - rewrite count_insert by apply lookup_empty. vm_compute. lia.
  - destruct (pbuf_dechain_dangling s' B' _ p b' l' HI' Hc' Hlen Hr) as (s2 & E & Hn & Hg).
    exists s', s2, p, (p_next b'). split; [exact E|]. split; [exact Hn|exact Hg].
Defined.
