(* ===== verification/PbufData.v ===== *)
(** * The data of packet buffers (src/lwip/src/core/pbuf.c)

    The functions that read, write, search and copy the bytes of a packet.  The
    specification forgets the pbufs: a packet is the list of the addresses of its
    bytes ([addrs]), reading maps over that list and writing stores values at a
    part of it ([scatter]).  Each loop of pbuf.c refines one such list operation. *)

From S2P Require Import Prelude ListSeg Mem Memp Pbuf PbufMem PbufRef PbufChain.

#[local] Open Scope Z_scope.
#[local] Coercion Z.of_nat : nat >-> Z.

(** ** Lists of addresses *)

Definition range (a : Z) (n : nat) : list Z := (λ i : nat, a + i) <$> seq 0 n.
Definition node_addrs (x : Z * pbuf) : list Z := range (p_payload x.2) (Z.to_nat (p_len x.2)).
Definition addrs (l : list (Z * pbuf)) : list Z := concat (node_addrs <$> l).

(** Stores the values [vs] at the addresses [xs]. *)
Fixpoint scatter (d : bytes) (xs vs : list Z) : bytes :=
  match xs, vs with
  | x :: xs, v :: vs => scatter (<[x := v]> d) xs vs
  | _, _ => d
  end.

(** Every byte of the memory is one. *)
Definition bytes_ok (d : bytes) : Prop := forall a, is_u8 (byte d a).

(** Every pbuf of the packet has bytes behind it, up to the last one. *)
Fixpoint no_empty_tail (l : list (Z * pbuf)) : Prop :=
  match l with
  | [] => True
  | _ :: l => (l <> [] -> 0 < total l) /\ no_empty_tail l
  end.

Lemma range_length a n : length (range a n) = n.
Proof. unfold range. by rewrite length_fmap, length_seq. Qed.

Lemma range_app a n1 n2 : range a (n1 + n2) = range a n1 ++ range (a + n1) n2.
Proof.
  unfold range. rewrite seq_app, fmap_app. f_equal. cbn [Nat.add].
  replace (seq n1 n2) with (Nat.add n1 <$> seq 0 n2) by (rewrite fmap_add_seq; f_equal; lia).
  rewrite <- list_fmap_compose. apply list_fmap_ext. intros _ i _. cbn. lia.
Qed.

Lemma elem_of_range x a n : x ∈ range a n <-> a <= x < a + n.
Proof.
  unfold range. rewrite list_elem_of_fmap. split.
  - intros (i & -> & Hi). apply elem_of_seq in Hi. lia.
  - intros Hx. exists (Z.to_nat (x - a)). split; [lia|]. apply elem_of_seq. lia.
Qed.

Lemma range_NoDup a n : NoDup (range a n).
Proof. unfold range. apply NoDup_fmap_2, NoDup_seq. intros i j. lia. Qed.

Lemma range_take a n k : (k <= n)%nat -> take k (range a n) = range a k.
Proof. intros Hk. replace n with (k + (n - k))%nat by lia. rewrite range_app. by rewrite take_app_length' by (by rewrite range_length). Qed.

Lemma range_drop a n k : (k <= n)%nat -> drop k (range a n) = range (a + k) (n - k).
Proof.
  intros Hk. replace n with (k + (n - k))%nat at 1 by lia. rewrite range_app.
  by rewrite drop_app_length' by (by rewrite range_length).
Qed.

Lemma read_bytes_range d a n : read_bytes d a n = byte d <$> range a n.
Proof. unfold read_bytes, range. by rewrite <- list_fmap_compose. Qed.

Lemma contents_addrs d l : contents d l = byte d <$> addrs l.
Proof.
  unfold contents, addrs. induction l as [|x l IH]; [done|]. cbn [fmap list_fmap concat].
  rewrite fmap_app, <- IH. f_equal. apply read_bytes_range.
Qed.

Lemma addrs_cons x l : addrs (x :: l) = node_addrs x ++ addrs l.
Proof. done. Qed.

Lemma addrs_app l1 l2 : addrs (l1 ++ l2) = addrs l1 ++ addrs l2.
Proof. unfold addrs. by rewrite fmap_app, concat_app. Qed.

Lemma addrs_length l : tot_ok l -> Z.of_nat (length (addrs l)) = total l.
Proof.
  intros Ht. rewrite <- (contents_length ∅ l) by (by apply tot_ok_lens). by rewrite contents_addrs, length_fmap.
Qed.

Lemma node_addrs_length a b : is_u16 (p_len b) -> Z.of_nat (length (node_addrs (a, b))) = p_len b.
Proof. intros Hu. unfold node_addrs. rewrite range_length. cbn. unfold_c. lia. Qed.

(** ** Lemmas: storing *)

Lemma scatter_frame d xs vs y : y ∉ xs -> byte (scatter d xs vs) y = byte d y.
Proof.
  revert d vs. induction xs as [|x xs IH]; intros d vs Hy; [done|]. destruct vs as [|v vs]; [done|].
  apply not_elem_of_cons in Hy as [Hne Hy]. cbn [scatter]. rewrite IH by done. rewrite byte_insert. by rewrite decide_False.
Qed.

Lemma scatter_frame_list d xs vs ys : xs ## ys -> byte (scatter d xs vs) <$> ys = byte d <$> ys.
Proof.
  intros Hd. apply list_fmap_ext. intros i y Hy. apply scatter_frame. intros Hx. apply (Hd y Hx).
  by eapply list_elem_of_lookup_2.
Qed.

Lemma scatter_read d xs vs : NoDup xs -> length xs = length vs -> byte (scatter d xs vs) <$> xs = vs.
Proof.
  revert d vs. induction xs as [|x xs IH]; intros d vs Hn Hl; destruct vs as [|v vs]; try done.
  apply NoDup_cons in Hn as [Hx Hn]. cbn [scatter fmap list_fmap]. f_equal.
  - rewrite scatter_frame by done. rewrite byte_insert. by rewrite decide_True.
  - apply IH; [done|]. injection Hl as Hl. done.
Qed.

Lemma scatter_app d xs1 xs2 vs1 vs2 :
  length xs1 = length vs1 -> scatter d (xs1 ++ xs2) (vs1 ++ vs2) = scatter (scatter d xs1 vs1) xs2 vs2.
Proof.
  revert d vs1. induction xs1 as [|x xs1 IH]; intros d vs1 Hl; destruct vs1 as [|v vs1]; try done.
  cbn [app scatter]. apply IH. injection Hl as Hl. done.
Qed.

Lemma write_bytes_scatter d a l : write_bytes d a l = scatter d (range a (length l)) l.
Proof.
  revert d a. induction l as [|v l IH]; intros d a; [done|]. cbn [write_bytes length]. rewrite IH.
  change (S (length l)) with (1 + length l)%nat. rewrite range_app. cbn [range seq fmap list_fmap app scatter].
  by rewrite Z.add_0_r.
Qed.

Lemma MEMCPY_scatter d dst src len :
  MEMCPY d dst src len = scatter d (range dst (Z.to_nat len)) (byte d <$> range src (Z.to_nat len)).
Proof. unfold MEMCPY. rewrite write_bytes_scatter, read_bytes_length. by rewrite read_bytes_range. Qed.

(** Storing at a part of a packet replaces that part of its bytes. *)
Lemma scatter_part d xs vs k :
  NoDup xs -> (k + length vs <= length xs)%nat ->
  byte (scatter d (take (length vs) (drop k xs)) vs) <$> xs
  = take k (byte d <$> xs) ++ vs ++ drop (k + length vs) (byte d <$> xs).
Proof.
  intros Hn Hl. rewrite <- (take_drop k xs) in Hn at 1. rewrite <- (take_drop (length vs) (drop k xs)) in Hn.
  apply NoDup_app in Hn as (N1 & N2 & N3). apply NoDup_app in N3 as (N3 & N4 & N5).
  rewrite <- (take_drop k xs) at 2. rewrite <- (take_drop (length vs) (drop k xs)) at 2. rewrite !fmap_app. f_equal; [|f_equal].
  - rewrite scatter_frame_list, fmap_take; [done|]. intros y H1 H2. apply (N2 y H2). by apply elem_of_app; left.
  - apply scatter_read; [done|]. rewrite length_take, length_drop. lia.
  - rewrite scatter_frame_list; [|intros y H1 H2; by apply (N4 y H1)]. by rewrite drop_drop, fmap_drop.
Qed.

Lemma take_split {A} k n (xs ys : list A) :
  n = Nat.min k (length xs) -> take k (xs ++ ys) = take n xs ++ take (k - n) ys.
Proof.
  intros ->. destruct (decide (k <= length xs)%nat).
  - rewrite Nat.min_l by lia. rewrite take_app_le by lia. by rewrite Nat.sub_diag, app_nil_r.
  - rewrite Nat.min_r by lia. rewrite take_app_ge by lia. by rewrite (take_ge xs (length xs)).
Qed.

(** Two copies, one behind the other, of data outside of what the first one writes. *)
Lemma scatter_twice d xs1 xs2 ys1 ys2 :
  length xs1 = length ys1 -> xs1 ## ys2 ->
  scatter (scatter d xs1 (byte d <$> ys1)) xs2 (byte (scatter d xs1 (byte d <$> ys1)) <$> ys2)
  = scatter d (xs1 ++ xs2) (byte d <$> ys1 ++ ys2).
Proof.
  intros Hl Hdis. rewrite scatter_frame_list by done. rewrite fmap_app, scatter_app; [done|]. by rewrite length_fmap.
Qed.

Section Data.
Context `{MO : MemOptions} {MOk : MemOptionsOk} `{PO : PbufOptions} {POk : PbufOptionsOk} {St : Type} `{!PacketMemory St}.
Abbreviation pst := (@pstate St).

(** ** Lemmas: packets *)

Lemma chain_cons (s : pst) p a b l :
  chain s p ((a, b) :: l) ->
  p = a /\ pbufs s !! a = Some b /\ chain s (p_next b) l /\ is_u16 (p_len b) /\ p_tot_len b = p_len b + total l
  /\ is_u16 (p_tot_len b) /\ 0 <= total l.
Proof. intros [(-> & Hp & Hs) (Hu & Ht & Hut & Hl)]. split_and!; try done. by apply tot_ok_total. Qed.

Lemma chain_null (s : pst) p l : chain s p l -> pbufs s !! NULL = None -> p = NULL <-> l = [].
Proof.
  intros [Hs _] Hnull. destruct l as [|[a b] l]; [done|]. destruct Hs as (-> & Hp & _). split; [|done].
  intros ->. by rewrite Hnull in Hp.
Qed.

Lemma chain_total (s : pst) p l : chain s p l -> 0 <= total l < 65536.
Proof.
  intros Hc. destruct l as [|[a b] l]; [cbn; lia|]. apply chain_cons in Hc as (_ & _ & _ & Hu & Ht & Hut & Hl).
  cbn. unfold total in *. unfold_c. lia.
Qed.

Lemma chain_fuel_ok (s : pst) p l : pbufs s !! NULL = None -> chain s p l -> (length l < chain_fuel s)%nat.
Proof. intros Hn [Hs _]. pose proof (seg_size _ _ _ Hn Hs). unfold chain_fuel. lia. Qed.

Lemma chain_app (s : pst) p l1 l2 : chain s p (l1 ++ l2) -> exists q, seg (pbufs s) p l1 q /\ chain s q l2.
Proof.
  intros [Hs Ht]. apply pseg_app in Hs as (q & H1 & H2). exists q. split; [done|]. split; [done|].
  clear -Ht. induction l1 as [|[a b] l1 IH]; [done|]. destruct Ht as (_ & _ & _ & Ht). by apply IH.
Qed.

(** ** Lemmas: skipping *)

Lemma skip_spec fuel (s : pst) p l off :
  pbufs s !! NULL = None -> chain s p l -> (length l < fuel)%nat -> is_u16 off ->
  exists l1 l2 q, l = l1 ++ l2 /\ skip_loop fuel s p off = Ret (q, off - total l1) /\ chain s q l2
    /\ 0 <= off - total l1 /\ match l2 with [] => q = NULL | (a, b) :: _ => a = q /\ off - total l1 < p_len b end.
Proof.
  intros Hnull. revert fuel p off. induction l as [|[a b] l IH]; intros fuel p off Hc Hf Hu.
  - exists [], [], p. destruct Hc as [-> Ht]. cbn [total foldr]. rewrite Z.sub_0_r.
    split_and!; [done|by destruct fuel|done|unfold_c; lia|done].
  - pose proof (proj2 (not_iff_compat (chain_null _ _ _ Hc Hnull)) ltac:(done)) as Hp.
    apply chain_cons in Hc as Hc'. destruct Hc' as (-> & Hb & Hc' & Hlen & Htot & Hut & Hl).
    destruct fuel as [|fuel]; [cbn in Hf; lia|]. cbn [skip_loop]. rewrite (proj2 (Z.eqb_neq a NULL)) by done.
    rewrite (deref_ok _ _ _ Hb). cbn [mbind outcome_bind]. case_if.
    + rewrite (u16_small (off - _)) by (unfold_c; lia).
      destruct (IH fuel (p_next b) (off - p_len b)) as (l1 & l2 & q & -> & Es & Hq & H0 & Hm); [done|cbn in Hf; lia|unfold_c; lia|].
      exists ((a, b) :: l1), l2, q. rewrite Es. cbn [total foldr snd] in *. fold (total l1) in *.
      replace (off - (p_len b + total l1)) with (off - p_len b - total l1) by lia. by split_and!.
    + exists [], ((a, b) :: l), a. cbn [total foldr]. rewrite Z.sub_0_r. split_and!; try done. unfold_c; lia.
Qed.

(** ** Lemmas: copying out of a packet *)

Lemma node_addrs_part a b off n :
  0 <= off -> 0 <= n -> off + n <= p_len b ->
  range (p_payload b + off) (Z.to_nat n) = take (Z.to_nat n) (drop (Z.to_nat off) (node_addrs (a, b))).
Proof.
  intros H1 H2 H3. unfold node_addrs. cbn [snd]. rewrite range_drop by lia. rewrite range_take by lia. f_equal. lia.
Qed.

Lemma copy_partial_spec fuel (s : pst) p l dst len off left :
  pbufs s !! NULL = None -> chain s p l -> (length l < fuel)%nat ->
  is_u16 off -> 0 <= len -> 0 <= left -> left + len < 65536 ->
  range dst (Z.to_nat (left + len)) ## addrs l ->
  let xs := take (Z.to_nat len) (drop (Z.to_nat off) (addrs l)) in
  copy_partial_loop fuel s p dst len off left left
  = Ret (left + length xs, with_data s (scatter (data s) (range (dst + left) (length xs)) (byte (data s) <$> xs))).
Proof.
  intros Hnull. revert fuel s p len off left Hnull.
  induction l as [|[a b] l IH]; intros fuel s p len off left Hnull Hc Hf Hu Hlen Hleft Hsum Hdis xs.
  - destruct Hc as [-> _]. unfold xs. cbn. rewrite drop_nil, take_nil.
    destruct fuel; cbn; rewrite orb_true_r, Z.add_0_r; by destruct s.
  - pose proof (proj2 (not_iff_compat (chain_null _ _ _ Hc Hnull)) ltac:(done)) as Hp.
    apply chain_cons in Hc as (-> & Hb & Hc & Hbl & Htot & Hut & Hl).
    destruct fuel as [|fuel]; [cbn in Hf; lia|]. cbn [copy_partial_loop]. rewrite (proj2 (Z.eqb_neq a NULL)), orb_false_r by done.
    pose proof (node_addrs_length a b Hbl) as Hna. rewrite addrs_cons in Hdis.
    case_if; [unfold xs; subst len; cbn; rewrite Z.add_0_r; by destruct s|].
    rewrite (deref_ok _ _ _ Hb). cbn [mbind outcome_bind].
    case_if.
    + rewrite (u16_small (off - _)) by (unfold_c; lia).
      rewrite IH; try done; [|cbn in Hf; lia|unfold_c; lia|].
      2:{ intros x H1 H2. apply (Hdis x H1), elem_of_app. by right. }
      unfold xs. rewrite addrs_cons, drop_app_ge by lia.
      replace (Z.to_nat off - length (node_addrs (a, b)))%nat with (Z.to_nat (off - p_len b)) by lia. done.
    + assert (Hoff : 0 <= off <= p_len b).
      { apply andb_false_iff in E0 as [E0|E0]; bool_to_prop; unfold_c; lia. }
      rewrite (u16_small (p_len b - off)) by (unfold_c; lia).
      set (n := if len <? p_len b - off then len else p_len b - off).
      assert (Hn : n = Z.min len (p_len b - off)) by (unfold n; case_if; lia).
      rewrite (u16_small (len - n)), (u16_small (left + n)) by (unfold_c; lia).
      rewrite MEMCPY_scatter, (node_addrs_part a b) by lia.
      set (X := take (Z.to_nat n) (drop (Z.to_nat off) (node_addrs (a, b)))).
      assert (HX : length X = Z.to_nat n) by (unfold X; rewrite length_take, length_drop; lia).
      rewrite (IH fuel (with_data s _)); try done; [|cbn in Hf; lia|lia|lia|lia|].
      2:{ intros x H1 H2. apply (Hdis x); [|apply elem_of_app; by right]. by replace (left + len) with (left + n + (len - n)) by lia. }
      change (Z.to_nat 0) with 0%nat. rewrite drop_0. cbn [with_data data]. set (Y := take (Z.to_nat (len - n)) (addrs l)).
      assert (Hxs : xs = X ++ Y).
      { unfold xs, X, Y. rewrite addrs_cons, drop_app_le by lia. rewrite (take_split _ (Z.to_nat n)) by (rewrite length_drop; lia).
        do 2 f_equal. lia. }
      rewrite Hxs, length_app, HX. f_equal. f_equal; [lia|]. unfold with_data. cbn [data pbufs pmem pbuf_free_ooseq_pending]. f_equal.
      replace (dst + (left + n)) with (dst + left + Z.to_nat n) by lia. rewrite scatter_twice, range_app; [done|by rewrite range_length|].
      intros x H1 H2. apply (Hdis x); [apply elem_of_range; apply elem_of_range in H1; lia|].
      apply elem_of_app. right. unfold Y in H2. eapply subseteq_take. exact H2.
Qed.

(** ** Lemmas: copying into a packet *)

Lemma take_loop_spec fuel (s : pst) p l src n copied :
  pbufs s !! NULL = None -> chain s p l -> (length l < fuel)%nat -> 0 <= n <= total l -> 0 <= copied -> copied + n < 65536 ->
  range (src + copied) (Z.to_nat n) ## addrs l ->
  take_loop fuel s p src n copied
  = Ret (copied + n, with_data s (scatter (data s) (take (Z.to_nat n) (addrs l)) (byte (data s) <$> range (src + copied) (Z.to_nat n)))).
Proof.
  intros Hnull. revert fuel s p n copied Hnull.
  induction l as [|[a b] l IH]; intros fuel s p n copied Hnull Hc Hf Hn Hcop Hsum Hdis.
  - cbn in Hn. replace n with 0 by lia. destruct fuel; cbn; rewrite Z.add_0_r; by destruct s.
  - pose proof (proj2 (not_iff_compat (chain_null _ _ _ Hc Hnull)) ltac:(done)) as Hp.
    apply chain_cons in Hc as (-> & Hb & Hc & Hbl & Htot & Hut & Hl).
    destruct fuel as [|fuel]; [cbn in Hf; lia|]. cbn [take_loop]. pose proof (node_addrs_length a b Hbl) as Hna.
    case_if; [subst n; cbn; rewrite Z.add_0_r; by destruct s|].
    rewrite LWIP_ASSERT_ok by (apply negb_true_iff, Z.eqb_neq; done). cbn [mbind outcome_bind].
    rewrite (deref_ok _ _ _ Hb). cbn [mbind outcome_bind]. cbn [total foldr snd] in Hn. fold (total l) in Hn.
    set (k := if p_len b <? n then p_len b else n).
    assert (Hk : k = Z.min n (p_len b)) by (unfold k; case_if; lia).
    rewrite (size_t_small (n - k)), (size_t_small (copied + k)) by (unfold_c; lia).
    rewrite MEMCPY_scatter. rewrite addrs_cons in Hdis.
    assert (HR : range (p_payload b) (Z.to_nat k) = take (Z.to_nat k) (node_addrs (a, b))).
    { unfold node_addrs. rewrite range_take by (cbn; unfold_c; lia). done. }
    assert (Hsplit : range (src + copied) (Z.to_nat n) = range (src + copied) (Z.to_nat k) ++ range (src + (copied + k)) (Z.to_nat (n - k))).
    { replace (Z.to_nat n) with (Z.to_nat k + Z.to_nat (n - k))%nat by (unfold_c; lia). rewrite range_app. do 2 f_equal. unfold_c; lia. }
    rewrite Hsplit in Hdis. rewrite (IH fuel (with_data s _)); try done; [|cbn in Hf; lia|unfold_c; lia|unfold_c; lia|unfold_c; lia|].
    2:{ intros x H1 H2. apply (Hdis x); apply elem_of_app; by right. }
    cbn [with_data data]. f_equal. f_equal; [lia|]. unfold with_data. cbn [data pbufs pmem pbuf_free_ooseq_pending]. f_equal.
    rewrite scatter_twice; [|by rewrite !range_length|].
    2:{ intros x H1 H2. apply (Hdis x); apply elem_of_app; [by right|left]. rewrite HR in H1. by eapply subseteq_take. }
    rewrite HR, Hsplit, addrs_cons, (take_split (Z.to_nat n) (Z.to_nat k)) by lia. do 3 f_equal. unfold_c; lia.
Qed.

(** ** Lemmas: copying between packets *)

(** The position [o] in the pbuf [p], with the pbufs [l] and the addresses [xs]
    from there on. *)
Definition at_pos (s : pst) (p o : Z) (l : list (Z * pbuf)) (xs : list Z) : Prop :=
  chain s p l /\ no_empty_tail l /\ match l with [] => o = 0 | (a, b) :: _ => 0 <= o <= p_len b end
  /\ xs = drop (Z.to_nat o) (addrs l).

Lemma pos_advance (s : pst) p o b l xs n :
  at_pos s p o ((p, b) :: l) xs -> 0 <= n <= p_len b - o ->
  let full := o + n =? p_len b in
  at_pos s (if full then p_next b else p) (if full then 0 else o + n) (if full then l else (p, b) :: l) (drop (Z.to_nat n) xs)
  /\ range (p_payload b + o) (Z.to_nat n) = take (Z.to_nat n) xs /\ (Z.to_nat n <= length xs)%nat.
Proof.
  intros (Hc & Hne & Ho & ->) Hn full. pose proof Hc as Hc'. apply chain_cons in Hc' as (_ & Hb & Hc' & Hbl & Ht & Hut & Hl).
  pose proof (node_addrs_length p b Hbl) as Hna. rewrite addrs_cons. split_and!.
  - rewrite drop_drop. unfold full. case_if.
    + split_and!; [done|by destruct Hne| |].
      * destruct l as [|[a' b'] l']; [done|]. apply chain_cons in Hc' as (_ & _ & _ & Hbl' & _). unfold_c. lia.
      * change (Z.to_nat 0) with 0%nat. rewrite drop_0. rewrite drop_app_ge by lia.
        by replace (Z.to_nat o + Z.to_nat n - length (node_addrs (p, b)))%nat with 0%nat by lia.
    + split_and!; [done|done|lia|lia|]. rewrite addrs_cons. f_equal. lia.
  - rewrite (node_addrs_part p) by lia. rewrite drop_app_le by lia. rewrite take_app_le; [done|]. rewrite length_drop. lia.
  - rewrite length_drop, length_app. lia.
Qed.

Lemma pos_more (s : pst) p o b l xs n :
  at_pos s p o ((p, b) :: l) xs -> o + n = p_len b -> 0 <= n -> l <> [] -> (Z.to_nat n < length xs)%nat.
Proof.
  intros (Hc & [Hne _] & Ho & ->) Hn Hn0 Hl. apply chain_cons in Hc as (_ & Hb & [_ Hc] & Hbl & Ht & Hut & _).
  pose proof (node_addrs_length p b Hbl) as Hna. pose proof (addrs_length l Hc) as Hal. specialize (Hne Hl).
  rewrite addrs_cons, length_drop, length_app. lia.
Qed.

Lemma no_queue_ok (s : pst) p o l xs : pbufs s !! NULL = None -> at_pos s p o l xs -> no_queue s p = Ret tt.
Proof.
  intros Hnull (Hc & Hne & _). unfold no_queue. pose proof (chain_null _ _ _ Hc Hnull) as Hp.
  destruct l as [|[a b] l]; [by rewrite (proj2 Hp)|]. apply chain_cons in Hc as (-> & Hb & Hc & Hbl & Ht & Hut & Hl).
  rewrite (proj2 (Z.eqb_neq a NULL)) by (by intros Ha; apply Hp in Ha). cbn [negb]. rewrite (deref_ok _ _ _ Hb).
  cbn [mbind outcome_bind]. case_if; [|done]. destruct Hne as [Hne _]. destruct l as [|x l].
  - destruct Hc as [-> _]. done.
  - specialize (Hne ltac:(done)). lia.
Qed.

Lemma pos_null (s : pst) p o l xs : pbufs s !! NULL = None -> at_pos s p o l xs -> p = NULL <-> l = [].
Proof. intros Hnull (Hc & _). by apply (chain_null s). Qed.

Lemma pos_nil (s : pst) p o xs : at_pos s p o [] xs -> xs = [].
Proof. intros (_ & _ & _ & ->). apply drop_nil. Qed.

Lemma pos_head (s : pst) p o a b l xs : at_pos s p o ((a, b) :: l) xs -> a = p.
Proof. intros ([(-> & _) _] & _). done. Qed.

Lemma pos_nonnull (s : pst) p o l xs :
  pbufs s !! NULL = None -> at_pos s p o l xs -> (0 < length xs)%nat -> (p =? NULL) = false.
Proof.
  intros Hnull Hp Hx. apply Z.eqb_neq. intros E. apply (pos_null _ _ _ _ _ Hnull Hp) in E. subst l.
  apply pos_nil in Hp. subst xs. cbn in Hx. lia.
Qed.

Lemma pos_inside (s : pst) p o b l xs : at_pos s p o ((p, b) :: l) xs -> o < p_len b -> (0 < length xs)%nat.
Proof.
  intros (Hc & _ & Ho & ->) Hlt. apply chain_cons in Hc as (_ & _ & _ & Hbl & _).
  pose proof (node_addrs_length p b Hbl). rewrite addrs_cons, length_drop, length_app. lia.
Qed.

(** Copying a first part of two position lists, and then the rest. *)
Lemma scatter_step d k m (xs ys : list Z) :
  (k <= length ys)%nat -> (k <= length xs)%nat -> take k xs ## ys -> m = length (drop k ys) ->
  scatter (scatter d (take k xs) (byte d <$> take k ys)) (take m (drop k xs))
    (byte (scatter d (take k xs) (byte d <$> take k ys)) <$> drop k ys)
  = scatter d (take (length ys) xs) (byte d <$> ys).
Proof.
  intros H1 H2 Hdis ->. rewrite scatter_twice.
  - rewrite (take_drop k ys). f_equal. rewrite length_drop. rewrite <- (take_drop k xs) at 3.
    rewrite (take_split _ k) by (rewrite length_take; lia). by rewrite take_take, Nat.min_id.
  - rewrite !length_take. lia.
  - intros x A1 A2. apply (Hdis x A1). rewrite <- (take_drop k ys). apply elem_of_app. by right.
Qed.

Lemma copy_loop_spec fuel (s : pst) pt bt lt pf bf lf ot of_ xs ys :
  pbufs s !! NULL = None -> at_pos s pt ot ((pt, bt) :: lt) xs -> at_pos s pf of_ ((pf, bf) :: lf) ys ->
  (length ys <= length xs)%nat -> xs ## ys -> (length lt + length lf + 1 < fuel)%nat ->
  copy_loop fuel s pt pf ot of_
  = Ret (ERR_OK, with_data s (scatter (data s) (take (length ys) xs) (byte (data s) <$> ys))).
Proof.
  revert s pt bt lt pf bf lf ot of_ xs ys. induction fuel as [|fuel IH];
    intros s pt bt lt pf bf lf ot of_ xs ys Hnull Ht Hf Hle Hdis Hfuel; [lia|].
  pose proof Ht as (Hct & _ & Hot & _). pose proof Hf as (Hcf & _ & Hof & _).
  apply chain_cons in Hct as (_ & Hbt & Hct & Hlt & Htt & Hutt & _).
  apply chain_cons in Hcf as (_ & Hbf & Hcf & Hlf & Htf & Hutf & _).
  cbn [copy_loop]. rewrite (deref_ok _ _ _ Hbt), (deref_ok _ _ _ Hbf). cbn [mbind outcome_bind].
  rewrite (size_t_small (p_len bf - of_)), (size_t_small (p_len bt - ot)) by (unfold_c; lia).
  set (n := if p_len bf - of_ <=? p_len bt - ot then _ else _).
  assert (Hn : n = Z.min (p_len bf - of_) (p_len bt - ot)) by (unfold n; case_if; lia).
  rewrite (size_t_small (ot + n)), (size_t_small (of_ + n)) by (unfold_c; lia). rewrite MEMCPY_scatter.
  destruct (pos_advance _ _ _ _ _ _ n Ht ltac:(lia)) as (Ht' & Rt & Lt).
  destruct (pos_advance _ _ _ _ _ _ n Hf ltac:(lia)) as (Hf' & Rf & Lf). rewrite Rt, Rf.
  set (s' := with_data s _).
  rewrite (LWIP_ASSERT_ok "offset_to <= p_to->len") by (apply Z.leb_le; lia).
  rewrite (LWIP_ASSERT_ok "offset_from <= p_from->len") by (apply Z.leb_le; lia). cbn [mbind outcome_bind].
  assert (Hdis' : take (Z.to_nat n) xs ## ys) by (intros x A1 A2; apply (Hdis x); [by eapply subseteq_take|done]).
  assert (Hdisd : drop (Z.to_nat n) xs ## drop (Z.to_nat n) ys)
    by (intros x A1 A2; apply (Hdis x); by eapply subseteq_drop).
  replace (p_len bf <=? of_ + n) with (of_ + n =? p_len bf) by (apply eq_bool_prop_intro; rewrite !Is_true_true; rewrite Z.eqb_eq, Z.leb_le; lia).
  assert (Hfin : forall p_to o_to lt' p_from o_from lf',
    at_pos s p_to o_to lt' (drop (Z.to_nat n) xs) -> at_pos s p_from o_from lf' (drop (Z.to_nat n) ys) ->
    (lf' <> [] -> (0 < length (drop (Z.to_nat n) ys))%nat) -> (length lt' + length lf' < S fuel)%nat ->
    (no_queue s' p_from ≫= λ _, no_queue s' p_to ≫= λ _,
       if negb (p_from =? NULL) then copy_loop fuel s' p_to p_from o_to o_from else Ret (ERR_OK, s'))
    = Ret (ERR_OK, with_data s (scatter (data s) (take (length ys) xs) (byte (data s) <$> ys)))).
  { intros p_to o_to lt' p_from o_from lf' At Af Hpos Hfu.
    rewrite (no_queue_ok s' _ _ _ _ Hnull Af), (no_queue_ok s' _ _ _ _ Hnull At). cbn [mbind outcome_bind].
    pose proof (pos_null _ _ _ _ _ Hnull Af) as Nf. destruct lf' as [|[a b] lf'].
    - rewrite (proj2 Nf) by done. cbn [negb Z.eqb]. apply pos_nil in Af. do 2 f_equal. unfold s', with_data. f_equal.
      assert (Hys : length ys = Z.to_nat n) by (apply (f_equal length) in Af; rewrite length_drop in Af; cbn in Af; lia).
      by rewrite Hys, (take_ge ys) by lia.
    - rewrite (proj2 (Z.eqb_neq p_from NULL)) by (intros ->; by apply (not_iff_compat Nf)). cbn [negb].
      specialize (Hpos ltac:(done)). destruct lt' as [|[a' b'] lt'].
      { apply pos_nil in At. rewrite length_drop in Hpos. apply (f_equal length) in At. rewrite length_drop in At. cbn in At. lia. }
      pose proof (pos_head _ _ _ _ _ _ _ At). pose proof (pos_head _ _ _ _ _ _ _ Af). subst a a'.
      rewrite (IH s' _ _ _ _ _ _ _ _ _ _ Hnull At Af); [|rewrite !length_drop; lia|done|cbn in Hfu; lia].
      unfold s', with_data. cbn [data pbufs pmem pbuf_free_ooseq_pending]. do 3 f_equal. apply scatter_step; try done. }
  destruct (of_ + n =? p_len bf) eqn:Ef; bool_to_prop; cbv beta iota.
  - assert (Hpos : lf <> [] -> (0 < length (drop (Z.to_nat n) ys))%nat).
    { intros Hne. pose proof (pos_more _ _ _ _ _ _ n Hf Ef ltac:(lia) Hne). rewrite length_drop. lia. }
    destruct (ot + n =? p_len bt) eqn:Et; bool_to_prop; cbv iota.
    + rewrite LWIP_ERROR_ok; [cbn [mbind outcome_bind]; by apply (Hfin _ _ lt _ _ lf); [..|lia]|].
      pose proof (pos_null _ _ _ _ _ Hnull Hf') as Nf. destruct (p_next bf =? NULL) eqn:Enf; [apply orb_true_r|]. bool_to_prop.
      rewrite (pos_nonnull _ _ _ _ _ Hnull Ht'); [done|]. specialize (Hpos ltac:(tauto)). rewrite length_drop in *. lia.
    + cbn [mbind outcome_bind]. by apply (Hfin _ _ ((pt, bt) :: lt) _ _ lf); [..|cbn; lia].
  - assert (Hpos : (0 < length (drop (Z.to_nat n) ys))%nat) by (apply (pos_inside _ _ _ _ _ _ Hf'); lia).
    destruct (ot + n =? p_len bt) eqn:Et; bool_to_prop; cbv iota.
    + rewrite LWIP_ERROR_ok; [cbn [mbind outcome_bind]; by apply (Hfin _ _ lt _ _ ((pf, bf) :: lf)); [..|cbn; lia]|].
      rewrite (pos_nonnull _ _ _ _ _ Hnull Ht'); [done|]. rewrite length_drop in *. lia.
    + lia.
Qed.

(** ** Lemmas: single bytes *)

Lemma total_app_cons l1 a b l2 : total (l1 ++ (a, b) :: l2) = total l1 + (p_len b + total l2).
Proof. rewrite total_app. done. Qed.

Lemma skip_addr (s : pst) p l off :
  pbufs s !! NULL = None -> chain s p l -> is_u16 off ->
  exists q o, pbuf_skip_const s p off = Ret (q, o) /\
    match addrs l !! Z.to_nat off with
    | Some x => exists l1 b l2, l = l1 ++ (q, b) :: l2 /\ chain s q ((q, b) :: l2) /\ q <> NULL /\ pbufs s !! q = Some b
                /\ o = off - total l1 /\ 0 <= o < p_len b /\ x = p_payload b + o
                /\ drop (Z.to_nat off) (addrs l) = drop (Z.to_nat o) (addrs ((q, b) :: l2))
    | None => q = NULL
    end.
Proof.
  intros Hnull Hc Hu. destruct (skip_spec _ s p l off Hnull Hc (chain_fuel_ok _ _ _ Hnull Hc) Hu)
    as (l1 & l2 & q & -> & E & Hq & H0 & Hm). exists q, (off - total l1). split; [done|].
  destruct Hc as [Hs Ht]. pose proof (addrs_length _ Ht) as Hal. rewrite addrs_app in *.
  assert (Hal1 : Z.of_nat (length (addrs l1)) = total l1).
  { rewrite <- (contents_length ∅); [by rewrite contents_addrs, length_fmap|]. apply tot_ok_lens in Ht. by apply Forall_app in Ht as [? _]. }
  destruct l2 as [|[a b] l2].
  - rewrite app_nil_r. rewrite lookup_ge_None_2 by (unfold_c; lia). done.
  - destruct Hm as [-> Hlt]. pose proof Hq as Hq'. apply chain_cons in Hq' as (_ & Hb & _ & Hbl & _).
    pose proof (node_addrs_length q b Hbl) as Hna. rewrite lookup_app_r by (unfold_c; lia). rewrite addrs_cons, lookup_app_l by (unfold_c; lia).
    unfold node_addrs, range at 1. rewrite list_lookup_fmap, lookup_seq_lt by (cbn; unfold_c; lia). cbn [fmap option_fmap option_map].
    exists l1, b, l2. split_and!; try done.
    + intros ->. by rewrite Hnull in Hb.
    + cbn. lia.
    + rewrite drop_app_ge by (unfold_c; lia). f_equal. unfold_c. lia.
Qed.

Lemma try_get_at_spec (s : pst) p l off :
  pbufs s !! NULL = None -> chain s p l -> is_u16 off ->
  pbuf_try_get_at s p off = Ret (match addrs l !! Z.to_nat off with Some x => byte (data s) x | None => -1 end).
Proof.
  intros Hnull Hc Hu. unfold pbuf_try_get_at. destruct (skip_addr s p l off Hnull Hc Hu) as (q & o & -> & Hm).
  cbn [mbind outcome_bind]. destruct (addrs l !! _) as [x|]; [|by subst q].
  destruct Hm as (l1 & b & l2 & _ & _ & Hq & Hb & _ & Ho & -> & _). rewrite (proj2 (Z.eqb_neq q NULL)) by done. cbn [negb].
  rewrite (deref_ok _ _ _ Hb). cbn [mbind outcome_bind]. by rewrite (proj2 (Z.ltb_lt o _)) by lia.
Qed.

Lemma get_at_spec (s : pst) p l off :
  pbufs s !! NULL = None -> chain s p l -> is_u16 off -> bytes_ok (data s) ->
  pbuf_get_at s p off = Ret (default 0 (contents (data s) l !! Z.to_nat off)).
Proof.
  intros Hnull Hc Hu Hd. unfold pbuf_get_at. rewrite (try_get_at_spec s p l off) by done. cbn [mbind outcome_bind].
  rewrite contents_addrs, list_lookup_fmap. destruct (addrs l !! _) as [x|]; [|done]. cbn [fmap option_fmap option_map default].
  pose proof (Hd x) as Hx. unfold_c. rewrite (proj2 (Z.leb_le 0 (byte _ _))) by lia.
  by rewrite Z.mod_small by lia.
Qed.

(** ** Lemmas: comparing and searching *)

(** The index of the first difference of two lists. *)
Fixpoint first_diff (xs ys : list Z) : option nat :=
  match xs, ys with
  | x :: xs, y :: ys => if decide (x = y) then S <$> first_diff xs ys else Some 0%nat
  | _, _ => None
  end.

Lemma first_diff_None xs ys : length xs = length ys -> first_diff xs ys = None <-> xs = ys.
Proof.
  revert ys. induction xs as [|x xs IH]; intros [|y ys] Hl; try done. injection Hl as Hl. cbn [first_diff].
  case_decide as Hxy; [subst|by split; [|intros [= ]]]. rewrite fmap_None, IH by done. split; [by intros ->|by intros [= ->]].
Qed.

Lemma read_bytes_S d a n : read_bytes d a (S n) = byte d a :: read_bytes d (a + 1) n.
Proof.
  change (S n) with (1 + n)%nat. rewrite read_bytes_app. cbn. by rewrite Z.add_0_r.
Qed.

Lemma memcmp_loop_spec (todo : nat) (s : pst) q l start s2 i :
  pbufs s !! NULL = None -> chain s q l -> bytes_ok (data s) -> 0 <= start -> 0 <= i -> start + i + todo <= total l ->
  memcmp_loop todo s q start s2 i
  = Ret (match first_diff (take todo (drop (Z.to_nat (start + i)) (contents (data s) l))) (read_bytes (data s) (s2 + i) todo) with
         | None => 0 | Some k => Z.min (i + k + 1) 0xFFFF end).
Proof.
  intros Hnull Hc Hd Hs. revert i. induction todo as [|todo IH]; intros i Hi Hle; [done|].
  pose proof (chain_total _ _ _ Hc) as Htot. cbn [memcmp_loop].
  rewrite (u16_small (start + i)) by lia. rewrite (get_at_spec s q l) by (done || unfold_c; lia). cbn [mbind outcome_bind].
  pose proof (contents_length (data s) l (tot_ok_lens _ (proj2 Hc))) as Hcl.
  destruct (lookup_lt_is_Some_2 (contents (data s) l) (Z.to_nat (start + i))) as [x Hx]; [lia|].
  rewrite Hx. rewrite (drop_S _ x) by done. rewrite read_bytes_S. cbn [take first_diff default].
  destruct (decide (x = byte (data s) (s2 + i))) as [->|Hne].
  - rewrite Z.eqb_refl. cbn [negb]. rewrite (u16_small (i + 1)) by lia. rewrite IH by lia.
    replace (S (Z.to_nat (start + i))) with (Z.to_nat (start + (i + 1))) by lia.
    replace (s2 + i + 1) with (s2 + (i + 1)) by lia. destruct (first_diff _ _); [|done]. cbn. do 2 f_equal. lia.
  - rewrite (proj2 (Z.eqb_neq x _)) by done. cbn [negb]. f_equal. rewrite u16_small by lia. f_equal. lia.
Qed.

Lemma memcmp_spec (s : pst) p l off s2 n :
  pbufs s !! NULL = None -> chain s p l -> l <> [] -> bytes_ok (data s) -> is_u16 off -> is_u16 n ->
  pbuf_memcmp s p off s2 n
  = Ret (if total l <? off + n then 0xffff
         else match first_diff (take (Z.to_nat n) (drop (Z.to_nat off) (contents (data s) l))) (read_bytes (data s) s2 (Z.to_nat n)) with
              | None => 0 | Some k => Z.min (k + 1) 0xFFFF end).
Proof.
  intros Hnull Hc Hl Hd Hu Hn. destruct l as [|[a b] l]; [done|]. pose proof Hc as Hc'.
  apply chain_cons in Hc' as (-> & Hb & _ & Hbl & Ht & Hut & _). unfold pbuf_memcmp. rewrite (deref_ok _ _ _ Hb). cbn [mbind outcome_bind].
  rewrite Ht. change (p_len b + total l) with (total ((a, b) :: l)). case_if; [done|].
  destruct (skip_spec _ s a _ off Hnull Hc (chain_fuel_ok _ _ _ Hnull Hc) Hu) as (l1 & l2 & q & El & E1 & Hq & H0 & Hm).
  rewrite E1. cbn [mbind outcome_bind]. rewrite El in *. rewrite total_app in E.
  rewrite (memcmp_loop_spec _ s q l2) by (done || unfold_c; lia). rewrite !Z.add_0_r, contents_app.
  assert (Hl1 : Z.of_nat (length (contents (data s) l1)) = total l1).
  { apply contents_length. destruct Hc as [_ Hc]. apply tot_ok_lens in Hc. by apply Forall_app in Hc as [? _]. }
  rewrite (drop_app_ge (contents (data s) l1)) by (unfold_c; lia).
  replace (Z.to_nat off - length (contents (data s) l1))%nat with (Z.to_nat (off - total l1)) by (unfold_c; lia). done.
Qed.

Definition occurs_at (c m : list Z) (j : Z) : Prop := take (length m) (drop (Z.to_nat j) c) = m.

Lemma memcmp_occurs (s : pst) p l off s2 n :
  pbufs s !! NULL = None -> chain s p l -> l <> [] -> bytes_ok (data s) -> is_u16 off -> is_u16 n -> off + n <= total l ->
  exists r, pbuf_memcmp s p off s2 n = Ret r
    /\ (r = 0 <-> occurs_at (contents (data s) l) (read_bytes (data s) s2 (Z.to_nat n)) off).
Proof.
  intros Hnull Hc Hl Hd Hu Hn Hle. rewrite (memcmp_spec s p l) by done. eexists. split; [done|].
  rewrite (proj2 (Z.ltb_ge (total l) _)) by lia. unfold occurs_at. rewrite read_bytes_length.
  pose proof (contents_length (data s) l (tot_ok_lens _ (proj2 Hc))) as Hcl.
  rewrite <- first_diff_None by (rewrite length_take, length_drop, read_bytes_length; unfold_c; lia).
  destruct (first_diff _ _); [|done]. split; [lia|done].
Qed.

Lemma memfind_loop_spec (fuel : nat) (s : pst) p l mem n i :
  pbufs s !! NULL = None -> chain s p l -> l <> [] -> bytes_ok (data s) -> is_u16 n -> n <= total l -> is_u16 i -> 65536 - i <= fuel ->
  let occ := occurs_at (contents (data s) l) (read_bytes (data s) mem (Z.to_nat n)) in
  exists r, memfind_loop fuel s p mem n (total l - n) i = Ret r /\
    ((i <= r <= total l - n /\ occ r /\ forall j, i <= j < r -> ~ occ j)
     \/ (r = 0xFFFF /\ forall j, i <= j <= total l - n -> ~ occ j)).
Proof.
  intros Hnull Hc Hl Hd Hn Hnl. revert i. induction fuel as [|fuel IH]; intros i Hi Hf occ; [unfold_c; lia|].
  pose proof (chain_total _ _ _ Hc) as Htot. cbn [memfind_loop]. case_if; [|exists 0xFFFF; split; [done|right; split; [done|lia]]].
  destruct (memcmp_occurs s p l i mem n) as (r & E1 & Hr); try done; [lia|]. rewrite E1. cbn [mbind outcome_bind]. fold (occ i) in Hr.
  case_if.
  - exists i. split; [done|]. left. split_and!; [lia|lia|tauto|]. intros j Hj. lia.
  - assert (Hni : ~ occ i) by tauto.
    assert (i + 1 < 65536).
    { destruct (decide (i = total l - n)) as [->|]; [|unfold_c; lia]. destruct (decide (n = 0)) as [->|]; [|unfold_c; lia]. by destruct Hni. }
    rewrite (u16_small (i + 1)) by (unfold_c; lia). destruct (IH (i + 1)) as (r' & E' & Hr'); [unfold_c; lia|lia|].
    exists r'. split; [done|]. destruct Hr' as [(? & ? & Hno)|(-> & Hno)]; [left|right]; split_and!; try done; try lia;
      intros j Hj; (destruct (decide (j = i)) as [->|]; [done|apply Hno; lia]).
Qed.

(** ** Lemmas: packets that carry their data *)

(** The data of the pbufs of a packet is in the blocks of the pbufs. *)
Definition own_data (l : list (Z * pbuf)) : Prop :=
  Forall (λ x, is_contiguous x.2 = true /\ is_custom x.2 = false) l.

Lemma own_data_block (s : pst) B ext a b x :
  pbuf_inv s B ext -> pbufs s !! a = Some b -> is_contiguous b = true -> is_custom b = false -> x ∈ node_addrs (a, b) ->
  exists k, B !! a = Some k /\ a <= x < a + block_size k.
Proof.
  intros HI Hb Hcg Hcu Hx. destruct (proj1 (inv_dom _ _ _ HI a) ltac:(eauto)) as [k Hk]. exists k. split; [done|].
  destruct (inv_node _ _ _ HI a b k Hb Hk) as (Hkind & Hp & Hu & _). apply elem_of_range in Hx. cbn [snd] in Hx.
  destruct sizeof_pbuf_facts as [? _]. unfold_c. destruct k; cbn [kind_ok payload_ok] in *; try lia; exfalso; intuition congruence.
Qed.

Lemma own_data_disjoint (s : pst) B ext a b a' b' :
  pbuf_inv s B ext -> pbufs s !! a = Some b -> pbufs s !! a' = Some b' -> a <> a' ->
  is_contiguous b = true -> is_custom b = false -> is_contiguous b' = true -> is_custom b' = false ->
  node_addrs (a, b) ## node_addrs (a', b').
Proof.
  intros HI Hb Hb' Hne Hc1 Hc2 Hc3 Hc4 x Hx Hx'. destruct (own_data_block _ _ _ _ _ _ HI Hb Hc1 Hc2 Hx) as (k & Hk & R1).
  destruct (own_data_block _ _ _ _ _ _ HI Hb' Hc3 Hc4 Hx') as (k' & Hk' & R2).
  destruct (mem_holds_disjoint _ _ _ _ _ _ (inv_holds _ _ _ HI) Hk Hk' Hne); lia.
Qed.

Lemma elem_of_addrs x l : x ∈ addrs l <-> exists y, y ∈ l /\ x ∈ node_addrs y.
Proof.
  unfold addrs. rewrite list_elem_of_In, in_concat. setoid_rewrite <- list_elem_of_In. split.
  - intros (ys & Hy & Hx). apply list_elem_of_fmap in Hy as (y & -> & Hy). eauto.
  - intros (y & Hy & Hx). exists (node_addrs y). split; [by apply list_elem_of_fmap_2|done].
Qed.

Lemma own_data_apart (s : pst) B ext l l' :
  pbuf_inv s B ext -> (forall a b, (a, b) ∈ l -> pbufs s !! a = Some b) -> (forall a b, (a, b) ∈ l' -> pbufs s !! a = Some b) ->
  own_data l -> own_data l' -> l.*1 ## l'.*1 -> addrs l ## addrs l'.
Proof.
  intros HI H1 H2 O1 O2 Hdis x Hx Hx'. apply elem_of_addrs in Hx as ([a b] & Ha & Hx). apply elem_of_addrs in Hx' as ([a' b'] & Ha' & Hx').
  pose proof (proj1 (Forall_forall _ _) O1 _ Ha) as [? ?]. pose proof (proj1 (Forall_forall _ _) O2 _ Ha') as [? ?].
  apply (own_data_disjoint s B ext a b a' b' HI (H1 _ _ Ha) (H2 _ _ Ha')) with x; try done.
  intros ->. apply (Hdis a'); apply list_elem_of_fmap; [by exists (a', b)|by exists (a', b')].
Qed.

Lemma own_data_NoDup (s : pst) B ext p l e :
  pbuf_inv s B ext -> seg (pbufs s) p l e -> NoDup l.*1 -> own_data l -> NoDup (addrs l).
Proof.
  intros HI. revert p. induction l as [|[a b] l IH]; intros p Hs Hnd Ho; [constructor|].
  apply NoDup_cons in Hnd as [Hna Hnd]. apply Forall_cons in Ho as [Hab Ho]. pose proof Hs as (-> & Hb & Hs').
  rewrite addrs_cons. apply NoDup_app. split_and!; [apply range_NoDup| |by eapply IH].
  intros x Hx Hx'. apply (own_data_apart s B ext [(a, b)] l HI) with x; try done.
  - intros a' b' Hin. apply list_elem_of_singleton in Hin as [= -> ->]. done.
  - intros a' b' Hin. by eapply seg_lookup.
  - by constructor.
  - intros y Hy Hy'. apply list_elem_of_singleton in Hy. cbn in Hy. by subst y.
  - unfold addrs. cbn. by rewrite app_nil_r.
Qed.

Lemma own_chain_NoDup (s : pst) B ext p l : pbuf_inv s B ext -> chain s p l -> own_data l -> NoDup (addrs l).
Proof.
  intros HI [Hs _] Ho. eapply own_data_NoDup; [done|done| |done]. by eapply seg_NoDup; [eapply inv_not_null|].
Qed.

(** ** Lemmas: writing at an offset *)

Lemma take_spec (s : pst) p l src len :
  pbufs s !! NULL = None -> chain s p l -> l <> [] -> src <> NULL -> is_u16 len -> len <= total l ->
  range src (Z.to_nat len) ## addrs l ->
  pbuf_take s p src len
  = Ret (ERR_OK, with_data s (scatter (data s) (take (Z.to_nat len) (addrs l)) (byte (data s) <$> range src (Z.to_nat len)))).
Proof.
  intros Hnull Hc Hl Hsrc Hu Hle Hdis. destruct l as [|[a b] l]; [done|]. pose proof (chain_fuel_ok _ _ _ Hnull Hc) as Hf.
  pose proof (not_iff_compat (chain_null _ _ _ Hc Hnull)) as Hp. pose proof Hc as Hc'.
  apply chain_cons in Hc' as (-> & Hb & _ & _ & Ht & _). unfold pbuf_take.
  rewrite (LWIP_ERROR_ok "pbuf_take: invalid buf") by (by apply negb_true_iff, Z.eqb_neq, Hp).
  rewrite (LWIP_ERROR_ok "pbuf_take: invalid dataptr") by (by apply negb_true_iff, Z.eqb_neq).
  cbn [mbind outcome_bind]. rewrite (deref_ok _ _ _ Hb). cbn [mbind outcome_bind].
  rewrite (LWIP_ERROR_ok "pbuf_take: buf not large enough") by (apply Z.leb_le; rewrite Ht; exact Hle). cbn [mbind outcome_bind].
  rewrite (take_loop_spec _ s a ((a, b) :: l) src len 0) by (rewrite ?Z.add_0_r; done || unfold_c; lia). cbn [mbind outcome_bind].
  rewrite Z.eqb_refl, Z.add_0_r. done.
Qed.

Lemma take_at_spec (s : pst) p l src len off :
  pbufs s !! NULL = None -> chain s p l -> src <> NULL -> is_u16 len -> is_u16 off -> off < total l -> off + len <= total l ->
  0 <= src -> range src (Z.to_nat len) ## addrs l ->
  pbuf_take_at s p src len off
  = Ret (ERR_OK, with_data s (scatter (data s) (take (Z.to_nat len) (drop (Z.to_nat off) (addrs l))) (byte (data s) <$> range src (Z.to_nat len)))).
Proof.
  intros Hnull Hc Hsrc Hu Ho Hlt Hle Hs0 Hdis. unfold pbuf_take_at, pbuf_skip.
  destruct (skip_addr s p l off Hnull Hc Ho) as (q & o & -> & Hm). cbn [mbind outcome_bind].
  pose proof (addrs_length _ (proj2 Hc)) as Hal.
  destruct (lookup_lt_is_Some_2 (addrs l) (Z.to_nat off)) as [x Hx]; [unfold_c; lia|]. rewrite Hx in Hm.
  destruct Hm as (l1 & b & l2 & -> & Hq & Hqn & Hb & -> & Hob & -> & Hd). rewrite (proj2 (Z.eqb_neq q NULL)) by done.
  cbn [negb]. rewrite (deref_ok _ _ _ Hb). cbn [mbind outcome_bind]. pose proof Hq as Hq'.
  apply chain_cons in Hq' as (_ & _ & Hc2 & Hbl & Htb & Hutb & Ht2). set (o := off - total l1) in *.
  rewrite total_app_cons in *. rewrite (proj2 (Z.leb_le (o + len) _)) by lia.
  rewrite (LWIP_ASSERT_ok "check pbuf_skip result") by (apply Z.ltb_lt; lia). cbn [mbind outcome_bind].
  set (n := Z.min (p_len b - o) len). rewrite (u16_small n), (u16_small (len - n)) by (unfold_c; lia).
  pose proof (node_addrs_length q b Hbl) as Hna. rewrite Hd, addrs_cons, drop_app_le by lia. rewrite MEMCPY_scatter.
  rewrite (take_split _ (Z.to_nat n)) by (rewrite length_drop; unfold_c; lia). rewrite (node_addrs_part q) by (unfold_c; lia).
  replace (Z.to_nat len - Z.to_nat n)%nat with (Z.to_nat (len - n)) by (unfold_c; lia).
  set (X := take (Z.to_nat n) _). assert (HX : length X = Z.to_nat n) by (unfold X; rewrite length_take, length_drop; unfold_c; lia).
  case_if; [|replace (Z.to_nat (len - n)) with 0%nat by lia; replace n with len by (unfold_c; lia); by rewrite take_0, app_nil_r].
  assert (Hsplit : range src (Z.to_nat len) = range src (Z.to_nat n) ++ range (src + n) (Z.to_nat (len - n))).
  { replace (Z.to_nat len) with (Z.to_nat n + Z.to_nat (len - n))%nat by (unfold_c; lia). rewrite range_app. do 2 f_equal. unfold_c; lia. }
  assert (HXl : X ⊆ addrs (l1 ++ (q, b) :: l2)).
  { intros y Hy. rewrite addrs_app, addrs_cons. apply elem_of_app. right. apply elem_of_app. left.
    unfold X in Hy. eapply subseteq_drop, subseteq_take. exact Hy. }
  assert (Hl2 : l2 <> []) by (intros ->; cbn in Hle; lia).
  rewrite (take_spec (with_data s _) (p_next b) l2); try done; [| |unfold_c; lia|lia|].
  - unfold with_data. cbn [data pbufs pmem pbuf_free_ooseq_pending]. do 3 f_equal. rewrite Hsplit. apply scatter_twice.
    + by rewrite HX, range_length.
    + intros y Hy1 Hy2. apply (Hdis y); [|by apply HXl]. rewrite Hsplit. apply elem_of_app. by right.
  - unfold NULL in *. unfold_c. lia.
  - intros y Hy1 Hy2. apply (Hdis y); [rewrite Hsplit; apply elem_of_app; by right|].
    rewrite addrs_app, addrs_cons. apply elem_of_app. right. apply elem_of_app. by right.
Qed.

Lemma take_at_fail (s : pst) p l src len off :
  pbufs s !! NULL = None -> chain s p l -> is_u16 len -> is_u16 off -> ~ (off < total l /\ off + len <= total l) ->
  pbuf_take_at s p src len off = Ret (ERR_MEM, s).
Proof.
  intros Hnull Hc Hu Ho Hno. unfold pbuf_take_at, pbuf_skip. destruct (skip_addr s p l off Hnull Hc Ho) as (q & o & -> & Hm).
  cbn [mbind outcome_bind]. pose proof (addrs_length _ (proj2 Hc)) as Hal. destruct (addrs l !! Z.to_nat off) as [x|] eqn:Hx; [|by subst q].
  apply lookup_lt_Some in Hx. destruct Hm as (l1 & b & l2 & -> & Hq & Hqn & Hb & -> & Hob & _). rewrite (proj2 (Z.eqb_neq q NULL)) by done.
  cbn [negb]. rewrite (deref_ok _ _ _ Hb). cbn [mbind outcome_bind]. apply chain_cons in Hq as (_ & _ & _ & _ & Htb & _).
  rewrite total_app_cons in *. by rewrite (proj2 (Z.leb_gt _ (p_tot_len b))) by (unfold_c; lia).
Qed.

Lemma put_at_spec (s : pst) p l off x :
  pbufs s !! NULL = None -> chain s p l -> is_u16 off ->
  pbuf_put_at s p off x = Ret (match addrs l !! Z.to_nat off with Some a => with_data s (<[a := x]> (data s)) | None => s end).
Proof.
  intros Hnull Hc Hu. unfold pbuf_put_at, pbuf_skip. destruct (skip_addr s p l off Hnull Hc Hu) as (q & o & -> & Hm).
  cbn [mbind outcome_bind]. destruct (addrs l !! _) as [y|]; [|by subst q].
  destruct Hm as (l1 & b & l2 & _ & _ & Hq & Hb & _ & Ho & -> & _). rewrite (proj2 (Z.eqb_neq q NULL)) by done. cbn [negb].
  rewrite (deref_ok _ _ _ Hb). cbn [mbind outcome_bind]. by rewrite (proj2 (Z.ltb_lt o _)) by lia.
Qed.

Lemma pos_start (s : pst) p l : chain s p l -> no_empty_tail l -> at_pos s p 0 l (addrs l).
Proof.
  intros Hc Hn. split_and!; [done|done| |done]. destruct l as [|[a b] l]; [done|].
  apply chain_cons in Hc as (_ & _ & _ & Hu & _). unfold_c. lia.
Qed.

Lemma copy_spec s B ext p_to p_from lt lf :
  pbuf_inv s B ext -> chain s p_to lt -> chain s p_from lf -> lt <> [] -> lf <> [] ->
  addrs lt ## addrs lf -> no_empty_tail lt -> no_empty_tail lf -> total lf <= total lt ->
  pbuf_copy s p_to p_from
  = Ret (ERR_OK, with_data s (scatter (data s) (take (length (addrs lf)) (addrs lt)) (byte (data s) <$> addrs lf)))
  /\ (length (addrs lf) <= length (addrs lt))%nat.
Proof.
  intros HI Ht Hf Hlt Hlf Hdis Nt Nf Hle. pose proof (inv_not_null _ _ _ HI) as Hnull.
  pose proof (addrs_length _ (proj2 Ht)) as At. pose proof (addrs_length _ (proj2 Hf)) as Af.
  pose proof (chain_fuel_ok _ _ _ Hnull Ht) as Ft. pose proof (chain_fuel_ok _ _ _ Hnull Hf) as Ff.
  pose proof (pos_start _ _ _ Ht Nt) as Pt. pose proof (pos_start _ _ _ Hf Nf) as Pf.
  destruct lt as [|[a bt] lt]; [done|]. destruct lf as [|[a' bf] lf]; [done|].
  pose proof (not_iff_compat (chain_null _ _ _ Ht Hnull)) as Nnt. pose proof (not_iff_compat (chain_null _ _ _ Hf Hnull)) as Nnf.
  pose proof Ht as Ht'. apply chain_cons in Ht' as (-> & Hbt & _ & _ & Tt & _).
  pose proof Hf as Hf'. apply chain_cons in Hf' as (-> & Hbf & _ & _ & Tf & _).
  split; [|lia]. unfold pbuf_copy. rewrite (proj2 (Z.eqb_neq a NULL)) by (by apply Nnt).
  rewrite (proj2 (Z.eqb_neq a' NULL)) by (by apply Nnf). cbn [negb andb LWIP_ERROR LWIP_ASSERT mbind outcome_bind].
  rewrite (deref_ok _ _ _ Hbt), (deref_ok _ _ _ Hbf). cbn [mbind outcome_bind].
  rewrite LWIP_ERROR_ok by (apply Z.leb_le; rewrite Tt, Tf; exact Hle). cbn [mbind outcome_bind].
  apply (copy_loop_spec _ s a bt lt a' bf lf); try done; [lia|cbn [length] in *; lia].
Qed.

(** ** Lemmas: cloning *)

Lemma inv_data (s : pst) B ext d : pbuf_inv s B ext -> pbuf_inv (with_data s d) B ext.
Proof. intros [? ? ? ? ? ?]. by split. Qed.

Lemma ext_add_comm (ext : Z -> nat) p q a : ext_add (ext_add ext p) q a = ext_add (ext_add ext q) p a.
Proof. unfold ext_add. by repeat case_decide. Qed.

(** What pbuf_alloc asks the heap for, and whether that fits its type. *)
Definition ram_request (layer len : Z) : Z :=
  SIZEOF_STRUCT_PBUF + (LWIP_MEM_ALIGN_SIZE layer + LWIP_MEM_ALIGN_SIZE len).
Definition ram_fits (layer len : Z) : Prop :=
  LWIP_MEM_ALIGN_SIZE layer + LWIP_MEM_ALIGN_SIZE len < 65536 /\ ram_request layer len < 256 ^ sizeof_mem_size_t.

Lemma alloc_ram_one (s : pst) B ext layer len :
  pbuf_inv s B ext -> 0 <= layer <= PBUF_TRANSPORT -> is_u16 len ->
  (exists st, (ram_fits layer len -> pm_mem_malloc (pmem s) (ram_request layer len) = Ret (None, st))
     /\ pbuf_alloc s layer len PBUF_RAM = Ret (NULL, with_pmem s st) /\ pbuf_inv (with_pmem s st) B ext)
  \/ (exists q st k x, let b := Pbuf NULL x len len (u8 PBUF_RAM) 0 1 NETIF_NO_INDEX in
        pbuf_alloc s layer len PBUF_RAM = Ret (q, set_pbuf (with_pmem s st) q b)
        /\ x = q + SIZEOF_STRUCT_PBUF + LWIP_MEM_ALIGN_SIZE layer /\ q <> NULL /\ pbufs s !! q = None
        /\ pbuf_inv (set_pbuf (with_pmem s st) q b) (<[q := BHeap k]> B) (ext_add ext q)).
Proof.
  intros HI Hl Hlen. destruct (layer_facts layer Hl) as (A1 & A2 & A3 & A4).
  pose proof (alloc_ram_spec s B ext layer len HI Hl Hlen) as Ha. cbn zeta in Ha. unfold pbuf_alloc. rewrite A4.
  change (PBUF_RAM =? PBUF_REF) with false. change (PBUF_RAM =? PBUF_ROM) with false.
  change (PBUF_RAM =? PBUF_POOL) with false. change (PBUF_RAM =? PBUF_RAM) with true. cbn [orb].
  case_decide as Hfit; [|left; exists (pmem s); rewrite Ha; split_and!; [done|by destruct s|by apply inv_pmem; [|apply HI]]].
  destruct Ha as (r & st & Em & Ha). destruct r as [q|]; [|left; by exists st].
  destruct Ha as (k & E & _ & Hq & Hnew & HI'). right. by exists q, st, k, (q + SIZEOF_STRUCT_PBUF + LWIP_MEM_ALIGN_SIZE layer).
Qed.

(** The data of the pbufs of a packet is in blocks in use. *)
Definition in_blocks (B : gmap Z block) (l : list (Z * pbuf)) : Prop :=
  forall x, x ∈ addrs l -> exists a k, B !! a = Some k /\ a <= x < a + block_size k.

Lemma own_in_blocks (s : pst) B ext p l e : pbuf_inv s B ext -> seg (pbufs s) p l e -> own_data l -> in_blocks B l.
Proof.
  intros HI Hs Ho x Hx. apply elem_of_addrs in Hx as ([a b] & Hin & Hx). pose proof (proj1 (Forall_forall _ _) Ho _ Hin) as [? ?].
  destruct (own_data_block s B ext a b x HI) as (k & Hk & R); try done; [by eapply seg_lookup|]. by exists a, k.
Qed.

(** pbuf_clone into one pbuf of the heap: a new packet with the same bytes, the old
    one and its references as they were. *)
Lemma clone_ram_spec (s : pst) B ext layer p l :
  pbuf_inv s B ext -> chain s p l -> l <> [] -> in_blocks B l -> no_empty_tail l -> 0 <= layer <= PBUF_TRANSPORT ->
  (exists st, (ram_fits layer (total l) -> pm_mem_malloc (pmem s) (ram_request layer (total l)) = Ret (None, st))
     /\ pbuf_clone s layer PBUF_RAM p = Ret (NULL, with_pmem s st) /\ pbuf_inv (with_pmem s st) B ext)
  \/ (exists q s' b k, pbuf_clone s layer PBUF_RAM p = Ret (q, s') /\ pbufs s' = <[q := b]> (pbufs s) /\ pbufs s !! q = None
        /\ q <> NULL /\ p_next b = NULL /\ p_len b = total l /\ p_tot_len b = total l
        /\ node_bytes (data s') (q, b) = contents (data s) l
        /\ pbuf_inv s' (<[q := BHeap k]> B) (ext_add ext q)
        /\ p_payload b = q + SIZEOF_STRUCT_PBUF + LWIP_MEM_ALIGN_SIZE layer
        /\ forall y, y ∉ node_addrs (q, b) -> byte (data s') y = byte (data s) y).
Proof.
  intros HI Hc Hl Hown Hne Hlay. pose proof (chain_total _ _ _ Hc) as Htot.
  destruct (alloc_ram_one s B ext layer (total l) HI Hlay) as [(st & Em & E & HI')|(q & st & k & x & E & Ex & Hq & Hnew & HI')]; [unfold_c; lia|left|right].
  - exists st. split; [exact Em|]. split; [|done]. destruct l as [|[a bp] l]; [done|]. apply chain_cons in Hc as (-> & Hb & _ & _ & Ht & _).
    unfold pbuf_clone. rewrite (deref_ok _ _ _ Hb). cbn [mbind outcome_bind]. rewrite Ht.
    change (p_len bp + total l) with (total ((a, bp) :: l)). by rewrite E.
  - set (b := Pbuf NULL x _ _ _ _ _ _) in *. set (s1 := set_pbuf (with_pmem s st) q b) in *.
    assert (Hc1 : chain s1 p l).
    { destruct Hc as [Hs Ht]. split; [|done]. apply seg_insert; [done|]. intros Hin. apply list_elem_of_fmap in Hin as ([a c] & -> & Hin).
      pose proof (seg_lookup _ _ _ _ _ _ Hs Hin) as Hx. cbn in Hnew. congruence. }
    assert (Hcq : chain s1 q [(q, b)]).
    { split; [split_and!; [done|apply lookup_insert_eq|done]|]. cbn. split_and!; try lia; unfold_c; lia. }
    assert (Hdis : addrs [(q, b)] ## addrs l).
    { intros y Hy1 Hy2. destruct (Hown y Hy2) as (a & ka & Ha & Ra). rewrite addrs_cons, app_nil_r in Hy1.
      assert (Hb : pbufs s1 !! q = Some b) by apply lookup_insert_eq. destruct (own_data_block s1 _ _ q b y HI' Hb eq_refl eq_refl Hy1) as (kq & Hkq & Rq).
      assert (a <> q) as Haq. { intros ->. destruct (proj2 (inv_dom _ _ _ HI q) ltac:(eauto)) as [? Hsome]. congruence. }
      destruct (mem_holds_disjoint _ _ _ _ _ _ (inv_holds _ _ _ HI') (eq_trans (lookup_insert_ne B q a _ (not_eq_sym Haq)) Ha) Hkq Haq); lia. }
    assert (Hone : no_empty_tail [(q, b)]) by (by split).
    assert (Hle : total l <= total [(q, b)]) by (cbn; lia).
    destruct (copy_spec s1 _ _ q p [(q, b)] l HI' Hcq Hc1 ltac:(done) Hl Hdis Hone Hne Hle) as [Ec Hal].
    pose proof (addrs_length _ (proj2 Hcq)) as Aq. pose proof (addrs_length _ (proj2 Hc)) as Al. cbn [total foldr snd p_len b] in Aq.
    set (d' := scatter _ _ _) in Ec. exists q, (with_data s1 d'), b, k. split_and!; try done.
    + destruct l as [|[a bp] l]; [done|]. apply chain_cons in Hc as (-> & Hb & _ & _ & Ht & _).
      unfold pbuf_clone. rewrite (deref_ok _ _ _ Hb). cbn [mbind outcome_bind]. rewrite Ht.
      change (p_len bp + total l) with (total ((a, bp) :: l)). rewrite E. cbn [mbind outcome_bind].
      rewrite (proj2 (Z.eqb_neq q NULL)) by done. fold s1. rewrite Ec. done.
    + cbn [with_data data]. unfold d'. rewrite contents_addrs.
      assert (Hnode : forall d, node_bytes d (q, b) = byte d <$> addrs [(q, b)]).
      { intros d. unfold addrs. cbn [fmap list_fmap concat]. rewrite app_nil_r. apply read_bytes_range. }
      rewrite Hnode, take_ge by lia. change (data s1) with (data s). apply scatter_read; [|rewrite length_fmap; lia].
      unfold addrs. cbn [fmap list_fmap concat]. rewrite app_nil_r. apply range_NoDup.
    + by apply inv_data.
    + intros y Hy. cbn [with_data data]. unfold d'. rewrite take_ge by lia. change (data s1) with (data s). apply scatter_frame.
      by rewrite addrs_cons, app_nil_r.
Qed.

(** pbuf_copy_partial as a whole. *)
Lemma copy_out_spec s B ext p l dst len off :
  pbuf_inv s B ext -> chain s p l -> l <> [] -> dst <> NULL -> is_u16 len -> is_u16 off ->
  range dst (Z.to_nat len) ## addrs l ->
  let xs := take (Z.to_nat len) (drop (Z.to_nat off) (contents (data s) l)) in
  exists s', pbuf_copy_partial s p dst len off = Ret (Z.of_nat (length xs), s')
    /\ s' = with_data s (write_bytes (data s) dst xs)
    /\ read_bytes (data s') dst (length xs) = xs /\ contents (data s') l = contents (data s) l.
Proof.
  intros HI Hc Hl Hdst Hu Ho Hdis xs. pose proof (inv_not_null _ _ _ HI) as Hnull.
  pose proof (not_iff_compat (chain_null _ _ _ Hc Hnull)) as Hp. pose proof (chain_fuel_ok _ _ _ Hnull Hc) as Hf.
  set (ys := take (Z.to_nat len) (drop (Z.to_nat off) (addrs l))).
  assert (Hxs : xs = byte (data s) <$> ys) by (unfold xs, ys; by rewrite contents_addrs, fmap_take, fmap_drop).
  assert (Hlen : length xs = length ys) by (by rewrite Hxs, length_fmap).
  exists (with_data s (write_bytes (data s) dst xs)). split_and!; [|done| |].
  - unfold pbuf_copy_partial. rewrite (LWIP_ERROR_ok "pbuf_copy_partial: invalid buf") by (by apply negb_true_iff, Z.eqb_neq, Hp).
    rewrite (LWIP_ERROR_ok "pbuf_copy_partial: invalid dataptr") by (by apply negb_true_iff, Z.eqb_neq). cbn [mbind outcome_bind].
    rewrite (copy_partial_spec _ s p l dst len off 0) by (rewrite ?Z.add_0_l; done || unfold_c; lia). fold ys.
    by rewrite write_bytes_scatter, Hlen, Hxs, Z.add_0_r, Z.add_0_l.
  - cbn [with_data data]. rewrite write_bytes_scatter, read_bytes_range. apply scatter_read; [apply range_NoDup|by rewrite range_length].
  - cbn [with_data data]. rewrite write_bytes_scatter, !contents_addrs. apply scatter_frame_list. intros x Hx Hx'. apply (Hdis x); [|done].
    apply elem_of_range. apply elem_of_range in Hx. rewrite Hlen in Hx. unfold ys in Hx. rewrite length_take in Hx. lia.
Qed.

(** ** Properties *)

(** pbuf_copy_partial copies out exactly the bytes [offset .. offset + len) of
    the packet, over pbuf borders, as many of them as there are, and returns their
    number; nothing but the start of the buffer changes. *)
Theorem pbuf_copy_partial_correct s B ext p l dst len off :
  pbuf_inv s B ext -> chain s p l -> l <> [] -> dst <> NULL -> is_u16 len -> is_u16 off ->
  range dst (Z.to_nat len) ## addrs l ->
  let xs := take (Z.to_nat len) (drop (Z.to_nat off) (contents (data s) l)) in
  exists s', pbuf_copy_partial s p dst len off = Ret (Z.of_nat (length xs), s')
    /\ s' = with_data s (write_bytes (data s) dst xs)
    /\ read_bytes (data s') dst (length xs) = xs /\ contents (data s') l = contents (data s) l.
Proof. apply copy_out_spec. Qed.

(** pbuf_take_at writes the caller's bytes over the bytes of the packet from
    [offset] on, over pbuf borders, and leaves the rest of the packet and all other
    memory as it is; it returns ERR_MEM and does nothing exactly when the packet
    ends before.  pbuf_take is the case of offset 0. *)
Theorem pbuf_take_at_correct s B ext p l src len off :
  pbuf_inv s B ext -> chain s p l -> own_data l -> l <> [] -> 0 < src -> is_u16 len -> is_u16 off ->
  range src (Z.to_nat len) ## addrs l ->
  let xs := read_bytes (data s) src (Z.to_nat len) in
  (if decide (off < total l /\ off + len <= total l) then
     exists s', pbuf_take_at s p src len off = Ret (ERR_OK, s') /\ s' = with_data s (data s')
       /\ contents (data s') l = take (Z.to_nat off) (contents (data s) l) ++ xs
                                  ++ drop (Z.to_nat (off + len)) (contents (data s) l)
       /\ forall x, x ∉ addrs l -> byte (data s') x = byte (data s) x
   else pbuf_take_at s p src len off = Ret (ERR_MEM, s))
  /\ (len <= total l ->
      exists s', pbuf_take s p src len = Ret (ERR_OK, s') /\ s' = with_data s (data s')
        /\ contents (data s') l = xs ++ drop (Z.to_nat len) (contents (data s) l)
        /\ forall x, x ∉ addrs l -> byte (data s') x = byte (data s) x).
Proof.
  intros HI Hc Hown Hl Hsrc Hu Ho Hdis xs. pose proof (inv_not_null _ _ _ HI) as Hnull.
  pose proof (own_chain_NoDup _ _ _ _ _ HI Hc Hown) as Hnd. pose proof (addrs_length _ (proj2 Hc)) as Hal.
  assert (Hxl : length xs = Z.to_nat len) by apply read_bytes_length. split; [case_decide as Hcase|].
  - destruct Hcase as [H1 H2]. eexists. split; [apply (take_at_spec s p l); try done; unfold NULL; lia|]. split; [done|].
    cbn [with_data data]. rewrite <- read_bytes_range. fold xs. rewrite <- Hxl. split.
    + rewrite !contents_addrs, scatter_part by (done || unfold_c; lia). do 3 f_equal. unfold_c. lia.
    + intros x Hx. apply scatter_frame. intros Hin. apply Hx. by eapply subseteq_drop, subseteq_take.
  - by apply (take_at_fail s p l).
  - intros Hle. eexists. split; [apply (take_spec s p l); try done; unfold NULL; lia|]. split; [done|].
    cbn [with_data data]. rewrite <- read_bytes_range. fold xs. rewrite <- Hxl. split.
    + rewrite !contents_addrs. pose proof (scatter_part (data s) (addrs l) xs 0 Hnd) as Hp. rewrite drop_0 in Hp.
      rewrite Hp by lia. by rewrite take_0.
    + intros x Hx. apply scatter_frame. intros Hin. apply Hx. by eapply subseteq_take.
Qed.

(** pbuf_put_at stores one byte of the packet and pbuf_get_at reads one back:
    after the store the packet is the old one with that byte replaced; offsets
    behind the end store nothing and read 0. *)
Theorem pbuf_put_get_at s B ext p l off x off' :
  pbuf_inv s B ext -> chain s p l -> own_data l -> bytes_ok (data s) -> is_u16 off -> is_u16 off' -> is_u8 x ->
  exists s', pbuf_put_at s p off x = Ret s' /\ chain s' p l
    /\ contents (data s') l = <[Z.to_nat off := x]> (contents (data s) l)
    /\ pbuf_get_at s' p off' = Ret (default 0 (<[Z.to_nat off := x]> (contents (data s) l) !! Z.to_nat off')).
Proof.
  intros HI Hc Hown Hd Hu Hu' Hx. pose proof (inv_not_null _ _ _ HI) as Hnull.
  pose proof (own_chain_NoDup _ _ _ _ _ HI Hc Hown) as Hnd. eexists. split; [by apply (put_at_spec s p l)|].
  destruct (addrs l !! Z.to_nat off) as [a|] eqn:Ha.
  - assert (Hcont : contents (<[a := x]> (data s)) l = <[Z.to_nat off := x]> (contents (data s) l)).
    { rewrite !contents_addrs. apply list_eq. intros i. rewrite list_lookup_fmap.
      destruct (decide (i = Z.to_nat off)) as [->|Hne].
      - rewrite list_lookup_insert_eq by (rewrite length_fmap; by eapply lookup_lt_Some). rewrite Ha. cbn. by rewrite byte_insert, decide_True.
      - rewrite list_lookup_insert_ne, list_lookup_fmap by done. destruct (addrs l !! i) as [y|] eqn:Hy; [|done]. cbn. f_equal.
        rewrite byte_insert, decide_False; [done|]. intros ->. apply Hne. by eapply NoDup_lookup. }
    split; [done|]. split; [done|]. rewrite (get_at_spec _ p l); try done.
    + cbn [with_data data]. by rewrite Hcont.
    + intros y. cbn [with_data data]. rewrite byte_insert. case_decide; [done|apply Hd].
  - apply lookup_ge_None in Ha. rewrite list_insert_ge by (rewrite contents_addrs, length_fmap; done).
    split; [done|]. split; [done|]. by apply get_at_spec.
Qed.

(** pbuf_memfind returns the first offset from [start] on where the bytes given
    occur in the packet, or 0xFFFF when there is none; pbuf_memcmp returns 0xFFFF
    when the packet is too short, 0 when the bytes agree and one more than the index
    of the first difference otherwise. *)
Theorem pbuf_memfind_first s B ext p l mem n start :
  pbuf_inv s B ext -> chain s p l -> l <> [] -> bytes_ok (data s) -> is_u16 n -> is_u16 start ->
  let m := read_bytes (data s) mem (Z.to_nat n) in
  let occ := occurs_at (contents (data s) l) m in
  (exists r, pbuf_memfind s p mem n start = Ret r /\
    ((start <= r <= total l - n /\ occ r /\ forall j, start <= j < r -> ~ occ j)
     \/ (r = 0xFFFF /\ forall j, start <= j <= total l - n -> ~ occ j)))
  /\ pbuf_memcmp s p start mem n
     = Ret (if total l <? start + n then 0xffff
            else match first_diff (take (Z.to_nat n) (drop (Z.to_nat start) (contents (data s) l))) m with
                 | None => 0 | Some k => Z.min (k + 1) 0xFFFF end).
Proof.
  intros HI Hc Hl Hd Hn Hs m occ. pose proof (inv_not_null _ _ _ HI) as Hnull. split; [|by apply memcmp_spec].
  pose proof (chain_total _ _ _ Hc) as Htot. destruct l as [|[a b] l]; [done|]. pose proof Hc as Hc'.
  apply chain_cons in Hc' as (-> & Hb & _ & _ & Ht & _). unfold pbuf_memfind. rewrite (deref_ok _ _ _ Hb). cbn [mbind outcome_bind].
  rewrite Ht. change (p_len b + total l) with (total ((a, b) :: l)). case_if.
  - rewrite (u16_small (total _ - n)) by (unfold_c; lia). apply memfind_loop_spec; try done; unfold_c; lia.
  - exists 0xFFFF. split; [done|]. right. split; [done|]. intros j Hj. lia.
Qed.

(** pbuf_copy copies a packet into another one that is large enough, whatever
    the borders of the pbufs on both sides are: the target starts with the bytes of
    the source, its other bytes and everything else stay as they are. *)
Theorem pbuf_copy_correct s B ext p_to p_from lt lf :
  pbuf_inv s B ext -> chain s p_to lt -> chain s p_from lf -> lt <> [] -> lf <> [] ->
  own_data lt -> addrs lt ## addrs lf -> no_empty_tail lt -> no_empty_tail lf -> total lf <= total lt ->
  exists s', pbuf_copy s p_to p_from = Ret (ERR_OK, s') /\ s' = with_data s (data s')
    /\ contents (data s') lt = contents (data s) lf ++ drop (Z.to_nat (total lf)) (contents (data s) lt)
    /\ contents (data s') lf = contents (data s) lf
    /\ forall x, x ∉ addrs lt -> byte (data s') x = byte (data s) x.
Proof.
  intros HI Ht Hf Hlt Hlf Hown Hdis Nt Nf Hle. destruct (copy_spec s B ext p_to p_from lt lf HI Ht Hf Hlt Hlf Hdis Nt Nf Hle) as [E Hal].
  pose proof (own_chain_NoDup _ _ _ _ _ HI Ht Hown) as Hnd. eexists. split; [exact E|]. split; [done|]. cbn [with_data data].
  rewrite !contents_addrs. split_and!.
  - pose proof (scatter_part (data s) (addrs lt) (byte (data s) <$> addrs lf) 0 Hnd) as Hp. rewrite drop_0, length_fmap in Hp.
    rewrite Hp by lia. rewrite take_0. cbn [app Nat.add]. do 2 f_equal. pose proof (addrs_length _ (proj2 Hf)). lia.
  - apply scatter_frame_list. intros x H1 H2. apply (Hdis x); [by eapply subseteq_take|done].
  - intros x Hx. apply scatter_frame. intros Hin. apply Hx. by eapply subseteq_take.
Qed.

(** pbuf_coalesce turns a packet of several pbufs into one pbuf of the heap with
    the same bytes and drops the caller's reference to the old one; a packet of one
    pbuf is returned as it is, and so is any packet when the heap has no room (or
    the size does not fit its type). *)
Theorem pbuf_coalesce_correct s B ext p l layer :
  pbuf_inv s B (ext_add ext p) -> chain s p l -> l <> [] -> own_data l -> no_empty_tail l -> 0 <= layer <= PBUF_TRANSPORT ->
  if decide (length l = 1%nat) then pbuf_coalesce s p layer = Ret (p, s)
  else
    (exists s', (ram_fits layer (total l) -> pm_mem_malloc (pmem s) (ram_request layer (total l)) = Ret (None, pmem s'))
       /\ pbuf_coalesce s p layer = Ret (p, s') /\ pbuf_inv s' B (ext_add ext p)
       /\ pbufs s' = pbufs s /\ data s' = data s)
    \/ (exists q s' b B', pbuf_coalesce s p layer = Ret (q, s') /\ q <> NULL /\ pbufs s !! q = None
          /\ chain s' q [(q, b)] /\ contents (data s') [(q, b)] = contents (data s) l
          /\ pbuf_inv s' B' (ext_add ext q)).
Proof.
  intros HI Hc Hl Hown Hne Hlay. pose proof (chain_total _ _ _ Hc) as Htot. unfold pbuf_coalesce.
  pose proof (clone_ram_spec s B _ layer p l HI Hc Hl (own_in_blocks s B _ p l NULL HI (proj1 Hc) Hown) Hne Hlay) as Hclone.
  destruct l as [|[a bp] l]; [done|]. pose proof (chain_cons _ _ _ _ _ Hc) as (-> & Hb & Hc' & _).
  rewrite (deref_ok _ _ _ Hb). cbn [mbind outcome_bind]. pose proof (chain_null _ _ _ Hc' (inv_not_null _ _ _ HI)) as Hnn.
  case_decide as Hlen; [destruct l; [|done]; by rewrite (proj2 Hnn)|].
  rewrite (proj2 (Z.eqb_neq (p_next bp) NULL)) by (rewrite Hnn; by intros ->).
  destruct Hclone as [(st & Em & E & HI')|(q & s1 & b & k & E & Ep & Hq & Hqn & Hbn & Hbl & Hbt & Hcont & HI' & _)].
  { left. exists (with_pmem s st). split; [exact Em|]. rewrite E. cbn [mbind outcome_bind]. by rewrite Z.eqb_refl. }
  right. rewrite E. cbn [mbind outcome_bind]. rewrite (proj2 (Z.eqb_neq q NULL)) by done.
  assert (HI2 : pbuf_inv s1 (<[q := BHeap k]> B) (ext_add (ext_add ext q) a)).
  { eapply inv_ext_eq; [|exact HI']. intros x _. apply ext_add_comm. }
  assert (Ha : a <> NULL) by (intros ->; by rewrite (inv_not_null _ _ _ HI) in Hb).
  destruct (free_inv s1 _ (ext_add ext q) a HI2 Ha) as (c & s2 & B' & Ef & HI3 & _ & Hd & Ho). rewrite Ef. cbn [mbind outcome_bind].
  destruct (inv_held _ _ _ q HI3 Hqn) as [b' Hb']; [unfold ext_add; rewrite decide_True by done; lia|].
  destruct (Ho q b' Hb') as (b1 & Hb1 & Eb). rewrite Ep, lookup_insert_eq in Hb1. injection Hb1 as <-.
  exists q, s2, b', B'. split_and!; try done.
  - split; [split_and!; [done|done|by rewrite Eb]|]. rewrite Eb. cbn. rewrite Hbl, Hbt. split_and!; try done; unfold_c; lia.
  - rewrite Eb, Hd. rewrite <- Hcont. unfold contents. cbn [fmap list_fmap concat]. by rewrite app_nil_r.
Qed.

(** pbuf_get_contiguous gives a pointer to [len] contiguous bytes with the value
    of the bytes [offset .. offset + len) of the packet: into the packet when they are
    in one pbuf, to the caller's buffer otherwise; NULL when the packet ends before. *)
Theorem pbuf_get_contiguous_correct s B ext p l buffer bufsize len off :
  pbuf_inv s B ext -> chain s p l -> l <> [] -> buffer <> NULL -> is_u16 len -> is_u16 off -> len <= bufsize ->
  range buffer (Z.to_nat len) ## addrs l -> off < total l ->
  exists r s', pbuf_get_contiguous s p buffer bufsize len off = Ret (r, s')
    /\ contents (data s') l = contents (data s) l
    /\ if off + len <=? total l
       then read_bytes (data s') r (Z.to_nat len) = take (Z.to_nat len) (drop (Z.to_nat off) (contents (data s) l))
       else r = NULL.
Proof.
  intros HI Hc Hl Hbuf Hu Ho Hsz Hdis Hlt. pose proof (inv_not_null _ _ _ HI) as Hnull.
  pose proof (not_iff_compat (chain_null _ _ _ Hc Hnull)) as Hp. pose proof (addrs_length _ (proj2 Hc)) as Hal.
  unfold pbuf_get_contiguous. rewrite (LWIP_ERROR_ok "pbuf_get_contiguous: invalid buf") by (by apply negb_true_iff, Z.eqb_neq, Hp).
  rewrite (LWIP_ERROR_ok "pbuf_get_contiguous: invalid dataptr" (negb _)) by (by apply negb_true_iff, Z.eqb_neq).
  rewrite (LWIP_ERROR_ok "pbuf_get_contiguous: invalid dataptr") by (by apply Z.leb_le). cbn [mbind outcome_bind].
  destruct (skip_addr s p l off Hnull Hc Ho) as (q & o & -> & Hm). cbn [mbind outcome_bind].
  destruct (lookup_lt_is_Some_2 (addrs l) (Z.to_nat off)) as [x Hx]; [unfold_c; lia|]. rewrite Hx in Hm.
  destruct Hm as (l1 & b & l2 & -> & Hq & Hqn & Hb & -> & Hob & -> & Hd). rewrite (proj2 (Z.eqb_neq q NULL)) by done.
  cbn [negb]. rewrite (deref_ok _ _ _ Hb). cbn [mbind outcome_bind]. rewrite total_app_cons in *.
  pose proof Hq as Hq'. apply chain_cons in Hq' as (_ & _ & _ & Hbl & _ & _ & Ht2). pose proof (node_addrs_length q b Hbl) as Hna.
  set (o := off - total l1) in *. rewrite contents_addrs, <- fmap_drop, <- fmap_take, Hd.
  assert (Hsub : addrs ((q, b) :: l2) ⊆ addrs (l1 ++ (q, b) :: l2)).
  { rewrite addrs_app. intros y Hy. apply elem_of_app. by right. }
  assert (Al2 : Z.of_nat (length (addrs ((q, b) :: l2))) = p_len b + total l2) by apply (addrs_length _ (proj2 Hq)).
  case_if.
  - eexists _, s. split; [done|]. rewrite contents_addrs. split; [done|]. rewrite (proj2 (Z.leb_le (off + len) _)) by lia.
    rewrite read_bytes_range. f_equal. rewrite (node_addrs_part q) by (unfold_c; lia). rewrite addrs_cons, drop_app_le by lia.
    rewrite take_app_le; [done|]. rewrite length_drop. unfold_c. lia.
  - unfold pbuf_copy_partial. rewrite (LWIP_ERROR_ok "pbuf_copy_partial: invalid buf") by (by apply negb_true_iff, Z.eqb_neq).
    rewrite (LWIP_ERROR_ok "pbuf_copy_partial: invalid dataptr") by (by apply negb_true_iff, Z.eqb_neq). cbn [mbind outcome_bind].
    rewrite (copy_partial_spec _ s q ((q, b) :: l2) buffer len o 0); try done;
      [|by apply (chain_fuel_ok s q)|unfold_c; lia..|rewrite Z.add_0_l; intros y H1 H2; by apply (Hdis y), Hsub].
    cbn [mbind outcome_bind]. rewrite !Z.add_0_l, Z.add_0_r. set (ys := take (Z.to_nat len) (drop (Z.to_nat o) (addrs ((q, b) :: l2)))).
    assert (Hys : Z.of_nat (length ys) = Z.min len (p_len b + total l2 - o)) by (unfold ys; rewrite length_take, length_drop; unfold_c; lia).
    assert (Hk : byte (scatter (data s) (range buffer (length ys)) (byte (data s) <$> ys)) <$> addrs (l1 ++ (q, b) :: l2)
                 = byte (data s) <$> addrs (l1 ++ (q, b) :: l2)).
    { apply scatter_frame_list. intros y H1 H2. apply (Hdis y); [|done]. apply elem_of_range. apply elem_of_range in H1. unfold_c. lia. }
    destruct (off + len <=? total l1 + (p_len b + total l2)) eqn:E2; bool_to_prop.
    + rewrite (proj2 (Z.eqb_eq _ len)) by lia. cbn [negb]. eexists buffer, _. split; [done|]. cbn [with_data data].
      rewrite contents_addrs. split; [exact Hk|]. rewrite read_bytes_range. replace (Z.to_nat len) with (length ys) by lia.
      apply scatter_read; [apply range_NoDup|]. by rewrite range_length, length_fmap.
    + rewrite (proj2 (Z.eqb_neq _ len)) by lia. cbn [negb]. eexists NULL, _. split; [done|]. cbn [with_data data].
      rewrite contents_addrs. by split.
Qed.
End Data.

(** ** Witnesses: the packets of PbufRef.v and PbufChain.v *)

(** The list of pbufs from [p] on. *)
Fixpoint packet {St} (fuel : nat) (s : pstate (St := St)) (p : Z) : list (Z * pbuf) :=
  match fuel, pbufs s !! p with
  | S fuel, Some b => (p, b) :: packet fuel s (p_next b)
  | _, _ => []
  end.

Definition l1 : list (Z * pbuf) := packet 4 ps1 p1.
Definition l2a : list (Z * pbuf) := packet 4 ps2 p1.
Definition l2b : list (Z * pbuf) := packet 4 ps2 p2.

(** A buffer of an application, outside of the pools and the heap. *)
Definition buffer0 : Z := 100000.

Lemma outside_pools l n : forallb (λ x, x <? buffer0) (addrs l) = true -> range buffer0 n ## addrs l.
Proof.
  intros Hb x Hx Hx'. apply elem_of_range in Hx. rewrite forallb_forall in Hb.
  apply list_elem_of_In in Hx'. specialize (Hb x Hx'). bool_to_prop. lia.
Qed.

Lemma l1_ok :
  (exists B, pbuf_inv ps1 B (ext_add no_ext p1)) /\ chain ps1 p1 l1 /\ l1 <> [] /\ own_data l1 /\ no_empty_tail l1
  /\ bytes_ok (data ps1) /\ forall n, range buffer0 n ## addrs l1.
Proof.
  split; [destruct ps1_inv as (l & _ & _ & _ & _ & HI); eexists; exact HI|].
  split; [split; [vm_compute; repeat split|vm_compute; intuition congruence]|].
  split; [vm_compute; discriminate|]. split; [vm_compute; repeat constructor|].
  split; [vm_compute; intuition congruence|]. split.
  - intros a. assert (Hd : data ps1 = ∅) by (vm_compute; reflexivity). rewrite Hd. vm_compute. intuition congruence.
  - intros n. apply outside_pools. vm_compute. reflexivity.
Qed.

Lemma pbuf_copy_partial_correct_witness :
  exists s', pbuf_copy_partial ps1 p1 buffer0 100 550 = Ret (100, s') /\ length (read_bytes (data s') buffer0 100) = 100%nat.
Proof.
  destruct l1_ok as ([B HI] & Hc & Hne & _ & _ & _ & Hout).
  destruct (pbuf_copy_partial_correct ps1 B _ p1 l1 buffer0 100 550 HI Hc Hne) as (s' & E & _).
  - discriminate.
  - vm_compute. intuition congruence.
  - vm_compute. intuition congruence.
  - apply Hout.
  - exists s'. split; [|apply read_bytes_length]. rewrite E. f_equal.
Defined.

Lemma pbuf_take_at_correct_witness :
  exists s', pbuf_take_at ps1 p1 buffer0 100 550 = Ret (ERR_OK, s') /\ s' = with_data ps1 (data s').
Proof.
  destruct l1_ok as ([B HI] & Hc & Hne & Hown & _ & _ & Hout).
  destruct (pbuf_take_at_correct ps1 B _ p1 l1 buffer0 100 550 HI Hc Hown Hne) as [Ha _].
  - reflexivity.
  - vm_compute. intuition congruence.
  - vm_compute. intuition congruence.
  - apply Hout.
  - destruct (decide _) as [_|Hno]; [|exfalso; apply Hno; vm_compute; intuition congruence].
    destruct Ha as (s' & E & Es & _). exists s'. split; [exact E|exact Es].
Defined.

Lemma pbuf_put_get_at_witness : exists s', pbuf_put_at ps1 p1 700 7 = Ret s' /\ pbuf_get_at s' p1 700 = Ret 7.
Proof.
  destruct l1_ok as ([B HI] & Hc & Hne & Hown & _ & Hb & _).
  destruct (pbuf_put_get_at ps1 B _ p1 l1 700 7 700 HI Hc Hown Hb) as (s' & E & _ & _ & G).
  - vm_compute. intuition congruence.
  - vm_compute. intuition congruence.
  - vm_compute. intuition congruence.
  - exists s'. split; [exact E|]. rewrite G. f_equal.
Defined.

Lemma pbuf_memfind_first_witness :
  exists r, pbuf_memfind ps1 p1 buffer0 4 588 = Ret r /\ pbuf_memcmp ps1 p1 588 buffer0 4 = Ret 0.
Proof.
  destruct l1_ok as ([B HI] & Hc & Hne & _ & _ & Hb & _).
  destruct (pbuf_memfind_first ps1 B _ p1 l1 buffer0 4 588 HI Hc Hne Hb) as [(r & E & _) E2].
  - vm_compute. intuition congruence.
  - vm_compute. intuition congruence.
  - exists r. split; [exact E|]. rewrite E2. vm_compute. reflexivity.
Defined.

Lemma pbuf_copy_correct_witness : exists s', pbuf_copy ps2 p1 p2 = Ret (ERR_OK, s') /\ length (contents (data s') l2b) = 100%nat.
Proof.
  destruct ps2_inv as (B & b1 & a2 & b2 & b & HI & _).
  destruct (pbuf_copy_correct ps2 B _ p1 p2 l2a l2b HI) as (s' & E & _).
  - split; [vm_compute; repeat split|vm_compute; intuition congruence].
  - split; [vm_compute; repeat split|vm_compute; intuition congruence].
  - vm_compute. discriminate.
  - vm_compute. discriminate.
  - vm_compute. repeat constructor.
  - intros x Hx Hx'.
    assert (Hd : forallb (λ x, negb (bool_decide (x ∈ addrs l2b))) (addrs l2a) = true) by (vm_compute; reflexivity).
    rewrite forallb_forall in Hd. apply list_elem_of_In in Hx. specialize (Hd x Hx).
    apply negb_true_iff, bool_decide_eq_false in Hd. exact (Hd Hx').
  - vm_compute. intuition congruence.
  - vm_compute. intuition congruence.
  - vm_compute. intuition congruence.
  - exists s'. split; [exact E|]. rewrite contents_addrs, length_fmap. vm_compute. reflexivity.
Defined.

Lemma pbuf_coalesce_correct_witness : exists q s', pbuf_coalesce ps1 p1 PBUF_RAW = Ret (q, s') /\ q <> NULL.
Proof.
  destruct l1_ok as ([B HI] & Hc & Hne & Hown & Htail & _).
  pose proof (pbuf_coalesce_correct ps1 B no_ext p1 l1 PBUF_RAW HI Hc Hne Hown Htail) as Ha.
  destruct (decide _) as [Hlen|_]; [vm_compute in Hlen; discriminate Hlen|].
  destruct Ha as [(s' & _ & E & _)|(q & s' & b & B' & E & Hq & _)].
  - vm_compute. intuition congruence.
  - exists p1, s'. split; [exact E|vm_compute; discriminate].
  - exists q, s'. split; [exact E|]. exact Hq.
Defined.

Lemma pbuf_get_contiguous_correct_witness :
  exists r s', pbuf_get_contiguous ps1 p1 buffer0 100 80 550 = Ret (r, s') /\ contents (data s') l1 = contents (data ps1) l1.
Proof.
  destruct l1_ok as ([B HI] & Hc & Hne & _ & _ & _ & Hout).
  destruct (pbuf_get_contiguous_correct ps1 B _ p1 l1 buffer0 100 80 550 HI Hc Hne) as (r & s' & E & Hk & _).
  - discriminate.
  - vm_compute. intuition congruence.
  - vm_compute. intuition congruence.
  - vm_compute. intuition congruence.
  - apply Hout.
  - vm_compute. reflexivity.
  - exists r, s'. split; [exact E|exact Hk].
Defined.
