(* ===== verification/Header.v ===== *)
(** * Protocol headers in memory

    The structures of the protocol headers (include/lwip/prot/*.h) are packed, and
    the code reads and writes their fields in the payload of packets.  A header of
    [N] bytes at [a] is the list of its bytes: a store into a field replaces a part
    of the list, a load reads one.  With a list of known length both compute. *)

From S2P Require Import Prelude Def ListSeg InetChksum Mem Memp Pbuf PbufMem PbufRef PbufChain PbufData.

#[local] Open Scope Z_scope.
#[local] Coercion Z.of_nat : nat >-> Z.

(** The [n] low bytes of a value, lowest first, and the value of a byte list. *)
Fixpoint le_list (n : nat) (v : Z) : list Z :=
  match n with
  | O => []
  | S n => v mod 256 :: le_list n (v / 256)
  end.
Fixpoint le_val (l : list Z) : Z :=
  match l with
  | [] => 0
  | b :: l => b + 256 * le_val l
  end.

(** The list [l] with [vs] in place of the elements from [k] on. *)
Definition splice (k : nat) (vs l : list Z) : list Z := take k l ++ vs ++ drop (k + length vs) l.

Lemma le_list_length n v : length (le_list n v) = n.
Proof. revert v. induction n as [|n IH]; intros v; [done|]. cbn. by rewrite IH. Qed.

Lemma le_list_bytes n v : Forall is_u8 (le_list n v).
Proof. revert v. induction n as [|n IH]; intros v; constructor; [unfold_c; Z.div_mod_to_equations; lia|apply IH]. Qed.

Lemma le_val_list n v : 0 <= v < 256 ^ Z.of_nat n -> le_val (le_list n v) = v.
Proof.
  revert v. induction n as [|n IH]; intros v Hv; [cbn in *; lia|]. cbn [le_list le_val].
  rewrite Nat2Z.inj_succ, Z.pow_succ_r in Hv by lia. rewrite IH; [Z.div_mod_to_equations; lia|].
  split; [apply Z.div_pos; lia|]. apply Z.div_lt_upper_bound; lia.
Qed.

Lemma store_write_bytes n m o v : store n m o v = write_bytes m o (le_list n v).
Proof. revert m o v. induction n as [|n IH]; intros m o v; [done|]. cbn. apply IH. Qed.

Lemma load_le_val n m o : load n m o = le_val (read_bytes m o n).
Proof. revert o. induction n as [|n IH]; intros o; [done|]. rewrite read_bytes_S. cbn. by rewrite IH. Qed.

Lemma splice_length k vs l : (k + length vs <= length l)%nat -> length (splice k vs l) = length l.
Proof. intros Hk. unfold splice. rewrite !length_app, length_take, length_drop. lia. Qed.

Lemma read_part m a k n N : (k + n <= N)%nat -> read_bytes m (a + k) n = take n (drop k (read_bytes m a N)).
Proof.
  intros Hk. rewrite !read_bytes_range, <- fmap_drop, <- fmap_take, range_drop, range_take by lia. done.
Qed.

Lemma read_splice m a k vs N :
  (k + length vs <= N)%nat -> read_bytes (write_bytes m (a + k) vs) a N = splice k vs (read_bytes m a N).
Proof.
  intros Hk. rewrite !read_bytes_range, write_bytes_scatter.
  replace (range (a + k) (length vs)) with (take (length vs) (drop k (range a N))).
  - apply scatter_part; [apply range_NoDup|by rewrite range_length].
  - rewrite range_drop, range_take by lia. done.
Qed.

Lemma read_store m a k n v N :
  (k + n <= N)%nat -> read_bytes (store n m (a + k) v) a N = splice k (le_list n v) (read_bytes m a N).
Proof. intros Hk. rewrite store_write_bytes. apply read_splice. by rewrite le_list_length. Qed.

Lemma load_part m a k n N : (k + n <= N)%nat -> load n m (a + k) = le_val (take n (drop k (read_bytes m a N))).
Proof. intros Hk. rewrite load_le_val. by rewrite (read_part m a k n N). Qed.

(** The same for the offsets of the code. *)
Lemma read_store_at m a o n v N :
  0 <= o -> (Z.to_nat o + n <= N)%nat ->
  read_bytes (store n m (a + o) v) a N = splice (Z.to_nat o) (le_list n v) (read_bytes m a N).
Proof. intros Ho Hk. rewrite <- read_store by done. by rewrite Z2Nat.id. Qed.

Lemma read_store_0 m a n v N :
  (n <= N)%nat -> read_bytes (store n m a v) a N = splice 0 (le_list n v) (read_bytes m a N).
Proof. intros Hk. rewrite <- read_store by done. by rewrite Z.add_0_r. Qed.

Lemma load_at m a o n N :
  0 <= o -> (Z.to_nat o + n <= N)%nat -> load n m (a + o) = le_val (take n (drop (Z.to_nat o) (read_bytes m a N))).
Proof. intros Ho Hk. rewrite <- load_part by done. by rewrite Z2Nat.id. Qed.

Lemma load_0 m a n N : (n <= N)%nat -> load n m a = le_val (take n (read_bytes m a N)).
Proof. intros Hk. rewrite <- (Z.add_0_r a) at 1. rewrite (load_at m a 0 n N) by lia. done. Qed.

Lemma byte_write_bytes m a vs x : ~ (a <= x < a + length vs) -> byte (write_bytes m a vs) x = byte m x.
Proof. intros Hx. rewrite write_bytes_scatter. apply scatter_frame. by rewrite elem_of_range. Qed.

Lemma bytes_ok_insert d x v : bytes_ok d -> is_u8 v -> bytes_ok (<[x := v]> d).
Proof. intros Hd Hv y. rewrite byte_insert. by case_decide. Qed.

Lemma bytes_ok_write d a vs : bytes_ok d -> Forall is_u8 vs -> bytes_ok (write_bytes d a vs).
Proof.
  revert d a. induction vs as [|v vs IH]; intros d a Hd Hv; [done|]. apply Forall_cons in Hv as [? ?].
  cbn. apply IH; [by apply bytes_ok_insert|done].
Qed.

Lemma bytes_ok_store n d a v : bytes_ok d -> bytes_ok (store n d a v).
Proof. intros Hd. rewrite store_write_bytes. apply bytes_ok_write; [done|apply le_list_bytes]. Qed.

Lemma bytes_ok_read d a n : bytes_ok d -> Forall is_u8 (read_bytes d a n).
Proof. intros Hd. rewrite read_bytes_range. apply Forall_fmap, Forall_true. intros x. apply Hd. Qed.

#[export] Hint Resolve bytes_ok_store bytes_ok_write bytes_ok_read bytes_ok_insert le_list_bytes : wrap.

(** Computes the splices of a header written out. *)
Ltac splices :=
  repeat match goal with
  | |- context [Z.to_nat (Zpos ?p)] =>
      let n := eval vm_compute in (Z.to_nat (Zpos p)) in change (Z.to_nat (Zpos p)) with n
  end;
  lazy beta iota zeta delta [splice take drop app length le_list Nat.add].

(** Writes out a list of [n] known bytes; [H] is the equation of its length. *)
Tactic Notation "explode" integer(n) ident(l) ident(H) :=
  do n (destruct l as [|? l]; [discriminate H|]); destruct l; [|discriminate H].
