(* ===== verification/Ip4.v ===== *)
(** * IPv4: routing and output (src/lwip/src/core/ipv4/ip4.c, ip4_frag.c)

    ip4_route, the ip4_output functions and ip4_frag.  The IP header is written
    into the payload of the packet, field by field, as the code writes it (little
    endian stores of values in network byte order).  netif->output, the function of
    the network interface that sends a packet (etharp_output for Ethernet), is the
    class [LinkLayer].

    Options: LWIP_IGMP 1 (with it LWIP_MULTICAST_TX_OPTIONS and IP_OPTIONS_SEND),
    ENABLE_LOOPBACK 0, inline checksums, no hooks, and for ip4_frag
    LWIP_NETIF_TX_SINGLE_PBUF 1. *)

From S2P Require Import Prelude Def ListSeg InetChksum Ip4Addr Mem Memp Pbuf PbufMem PbufRef PbufChain PbufData Header.

#[local] Open Scope Z_scope.
#[local] Coercion Z.of_nat : nat >-> Z.

(** ** struct ip_hdr (include/lwip/prot/ip4.h) *)

Definition IP_HLEN : Z := 20.
Definition IP_HLEN_MAX : Z := 60.
Definition IP_DF : Z := 0x4000.
Definition IP_MF : Z := 0x2000.
Definition IP_OFFMASK : Z := 0x1fff.

Definition IP_PROTO_ICMP : Z := 1.
Definition IP_PROTO_IGMP : Z := 2.
Definition IP_PROTO_UDP : Z := 17.
Definition IP_PROTO_TCP : Z := 6.

Definition iph_vhl (m : bytes) (h : Z) : Z := load 1 m h.
Definition IPH_V (m : bytes) (h : Z) : Z := Z.shiftr (iph_vhl m h) 4.
Definition IPH_HL (m : bytes) (h : Z) : Z := Z.land (iph_vhl m h) 0x0f.
Definition IPH_HL_BYTES (m : bytes) (h : Z) : Z := u8 (IPH_HL m h * 4).
Definition IPH_TOS (m : bytes) (h : Z) : Z := load 1 m (h + 1).
Definition IPH_LEN (m : bytes) (h : Z) : Z := load 2 m (h + 2).
Definition IPH_ID (m : bytes) (h : Z) : Z := load 2 m (h + 4).
Definition IPH_OFFSET (m : bytes) (h : Z) : Z := load 2 m (h + 6).
Definition IPH_OFFSET_BYTES (m : bytes) (h : Z) : Z := u16 (Z.land (lwip_htons (IPH_OFFSET m h)) IP_OFFMASK * 8).
Definition IPH_TTL (m : bytes) (h : Z) : Z := load 1 m (h + 8).
Definition IPH_PROTO (m : bytes) (h : Z) : Z := load 1 m (h + 9).
Definition IPH_CHKSUM (m : bytes) (h : Z) : Z := load 2 m (h + 10).
Definition iph_src (m : bytes) (h : Z) : Z := load 4 m (h + 12).
Definition iph_dest (m : bytes) (h : Z) : Z := load 4 m (h + 16).

Definition IPH_VHL_SET (m : bytes) (h v hl : Z) : bytes := store 1 m h (u8 (Z.lor (Z.shiftl v 4) hl)).
Definition IPH_TOS_SET (m : bytes) (h x : Z) : bytes := store 1 m (h + 1) x.
Definition IPH_LEN_SET (m : bytes) (h x : Z) : bytes := store 2 m (h + 2) x.
Definition IPH_ID_SET (m : bytes) (h x : Z) : bytes := store 2 m (h + 4) x.
Definition IPH_OFFSET_SET (m : bytes) (h x : Z) : bytes := store 2 m (h + 6) x.
Definition IPH_TTL_SET (m : bytes) (h x : Z) : bytes := store 1 m (h + 8) (u8 x).
Definition IPH_PROTO_SET (m : bytes) (h x : Z) : bytes := store 1 m (h + 9) (u8 x).
Definition IPH_CHKSUM_SET (m : bytes) (h x : Z) : bytes := store 2 m (h + 10) x.
Definition iph_src_set (m : bytes) (h x : Z) : bytes := store 4 m (h + 12) x.
Definition iph_dest_set (m : bytes) (h x : Z) : bytes := store 4 m (h + 16) x.

(** ** Routing *)

Definition NETIF_FLAG_UP : Z := 0x01.
Definition NETIF_FLAG_LINK_UP : Z := 0x04.
Definition NETIF_FLAG_IGMP : Z := 0x20.
Definition netif_is_up (nif : netif) : bool := negb (Z.land (netif_flags nif) NETIF_FLAG_UP =? 0).
Definition netif_is_link_up (nif : netif) : bool := negb (Z.land (netif_flags nif) NETIF_FLAG_LINK_UP =? 0).

(** netif_list in its order, netif_default and ip4_default_multicast_netif. *)
Record netifs := Netifs {
  netif_list : list netif;
  netif_default : option netif;
  ip4_default_multicast_netif : option netif
}.

Definition ip4_set_default_multicast_netif (ns : netifs) (nif : option netif) : netifs :=
  Netifs (netif_list ns) (netif_default ns) nif.

(** The test of ip4_route on one interface of the list. *)
Definition route_matches (dest : Z) (nif : netif) : bool :=
  netif_is_up nif && netif_is_link_up nif && negb (ip4_addr_isany_val (netif_ip4_addr nif))
  && (ip4_addr_netcmp dest (netif_ip4_addr nif) (netif_ip4_netmask nif)
      || ((Z.land (netif_flags nif) NETIF_FLAG_BROADCAST =? 0) && ip4_addr_cmp dest (netif_ip4_gw nif))).

Fixpoint route_loop (l : list netif) (dest : Z) : option netif :=
  match l with
  | [] => None
  | nif :: l => if route_matches dest nif then Some nif else route_loop l dest
  end.

Definition ip4_route (ns : netifs) (dest : Z) : option netif :=
  match (if ip4_addr_ismulticast dest then ip4_default_multicast_netif ns else None) with
  | Some nif => Some nif
  | None =>
      match route_loop (netif_list ns) dest with
      | Some nif => Some nif
      | None =>
          match netif_default ns with
          | None => None
          | Some nif =>
              if negb (netif_is_up nif) || negb (netif_is_link_up nif) || ip4_addr_isany_val (netif_ip4_addr nif)
              then None else Some nif
          end
      end
  end.

(** ** The link layer below *)

(** The packet [l] of [s] in [s']: the same pbufs, up to the reference counts, with
    the same bytes. *)
Definition same_packet `{MemOptions} `{PbufOptions} {St : Type} `{!PacketMemory St} (s s' : pstate (St := St)) (q : Z)
    (l l' : list (Z * pbuf)) : Prop :=
  chain s' q l' /\ Forall2 (λ x y, y = (x.1, with_ref x.2 (p_ref y.2))) l l' /\ contents (data s') l' = contents (data s) l.

(** netif->output(netif, p, dest): it does not consume the packet; it may keep
    pointers of its own to it (a driver that queues it calls pbuf_ref), counted by
    [link_holds].  [link_log] lists the packets handed to it: the interface, the
    address and the bytes.  The other packets stay as they are, but for references the
    link layer drops. *)
Class LinkLayer (Lk St : Type) `{MemOptions} `{PbufOptions} `{!PacketMemory St} := {
  link_output : netif -> pstate (St := St) -> Lk -> Z -> Z -> outcome (err_t * pstate (St := St) * Lk);
  link_holds : Lk -> Z -> nat;
  link_log : Lk -> list (Z * Z * list Z);
  link_output_law nif s lk B ext p b l dest :
    pbuf_inv s B (λ a, (ext a + link_holds lk a)%nat) -> chain s p ((p, b) :: l) -> (0 < ext p)%nat -> p_ref b = 1 ->
    exists e s' lk' B', link_output nif s lk p dest = Ret (e, s', lk')
      /\ pbuf_inv s' B' (λ a, (ext a + link_holds lk' a)%nat)
      /\ link_log lk' = link_log lk ++ [(netif_num nif, dest, contents (data s) ((p, b) :: l))]
      /\ forall q lq, chain s q lq -> (0 < ext q)%nat -> own_data lq -> lq.*1 ## ((p, b) :: l).*1 ->
         exists lq', same_packet s s' q lq lq'
}.

Lemma same_packet_refl (l : list (Z * pbuf)) : Forall2 (λ x y, y = (x.1, with_ref x.2 (p_ref y.2))) l l.
Proof. induction l as [|[a []] l IH]; by constructor. Qed.

Section Output.
Context `{MO : MemOptions} `{PO : PbufOptions} {St : Type} `{!PacketMemory St} {Lk : Type} `{!LinkLayer Lk St}.

(** The state: the packets, the link layer and the IP header ID of the next
    outgoing packet. *)
Record net := Net { n_ps : pstate (St := St); n_lk : Lk; ip_id : Z }.

Definition with_ps (n : net) (s : pstate) : net := Net s (n_lk n) (ip_id n).
Definition with_id (n : net) (i : Z) : net := Net (n_ps n) (n_lk n) i.

(** netif->output *)
Definition netif_output (n : net) (nif : netif) (p dest : Z) : outcome (err_t * net) :=
  '(e, s, lk) ← link_output nif (n_ps n) (n_lk n) p dest;
  Ret (e, Net s lk (ip_id n)).

(** The loop of ip4_frag over the data left; [header] is original_iphdr. *)
Fixpoint frag_loop (fuel : nat) (n : net) (nif : netif) (dest p header nfb mf_set left ofo poff : Z)
  : outcome (err_t * net) :=
  if left =? 0 then Ret (ERR_OK, n)
  else
    match fuel with
    | O => Trap "ip4_frag: fuel"
    | S fuel =>
        let fragsize := Z.min left (u16 (nfb * 8)) in
        '(rambuf, s) ← pbuf_alloc (n_ps n) PBUF_IP fragsize PBUF_RAM;
        if rambuf =? NULL then Ret (ERR_MEM, with_ps n s)
        else
          rb ← deref s rambuf;
          LWIP_ASSERT "this needs a pbuf in one piece!" ((p_len rb =? p_tot_len rb) && (p_next rb =? NULL));;
          '(copied, s) ← pbuf_copy_partial s p (p_payload rb) fragsize poff;
          let poff := u16 (poff + copied) in
          '(r, s) ← pbuf_add_header s rambuf IP_HLEN;
          if negb (r =? 0) then '(_, s) ← pbuf_free s rambuf; Ret (ERR_MEM, with_ps n s)
          else
            rb ← deref s rambuf;
            let iphdr := p_payload rb in
            let m := MEMCPY (data s) iphdr header IP_HLEN in
            let last := left <=? netif_mtu nif - IP_HLEN in
            let tmp := Z.land IP_OFFMASK ofo in
            let tmp := if negb last || negb (mf_set =? 0) then Z.lor tmp IP_MF else tmp in
            let m := IPH_OFFSET_SET m iphdr (lwip_htons tmp) in
            let m := IPH_LEN_SET m iphdr (lwip_htons (u16 (fragsize + IP_HLEN))) in
            let m := IPH_CHKSUM_SET m iphdr 0 in
            let m := IPH_CHKSUM_SET m iphdr (inet_chksum iphdr (read_bytes m iphdr (Z.to_nat IP_HLEN))) in
            '(_, n) ← netif_output (with_ps n (with_data s m)) nif rambuf dest;
            '(_, s) ← pbuf_free (n_ps n) rambuf;
            frag_loop fuel (with_ps n s) nif dest p header nfb mf_set
              (u16 (left - fragsize)) (u16 (ofo + nfb)) poff
    end.

Definition ip4_frag (n : net) (p : Z) (nif : netif) (dest : Z) : outcome (err_t * net) :=
  let nfb := u16 (Z.quot (netif_mtu nif - IP_HLEN) 8) in
  b ← deref (n_ps n) p;
  let iphdr := p_payload b in
  if negb (IPH_HL_BYTES (data (n_ps n)) iphdr =? IP_HLEN) then Ret (ERR_VAL, n)
  else
    LWIP_ERROR "ip4_frag(): pbuf too short" (IP_HLEN <=? p_len b);;
    let tmp := lwip_htons (IPH_OFFSET (data (n_ps n)) iphdr) in
    let ofo := Z.land tmp IP_OFFMASK in
    let mf_set := Z.land tmp IP_MF in
    let left := u16 (p_tot_len b - IP_HLEN) in
    frag_loop (Z.to_nat left) n nif dest p iphdr nfb mf_set left ofo IP_HLEN.

(** ** Output *)

(** The loop over the words of the options. *)
Fixpoint opt_sum (words : nat) (m : bytes) (a chk_sum : Z) : Z :=
  match words with
  | O => chk_sum
  | S words => opt_sum words m (a + 2) (u32 (chk_sum + load 2 m a))
  end.

(** The part that writes the IP options: the new state, ip_hlen and chk_sum, or the
    error. *)
Definition write_options (n : net) (p : Z) (ip_options : list Z) (optlen : Z) : outcome (err_t * net * Z * Z) :=
  if optlen =? 0 then Ret (ERR_OK, n, IP_HLEN, 0)
  else if IP_HLEN_MAX - IP_HLEN <? optlen then Ret (ERR_VAL, n, 0, 0)
  else
    let optlen_aligned := u16 (Z.land (optlen + 3) (Z.lnot 3)) in
    '(r, s) ← pbuf_add_header (n_ps n) p optlen_aligned;
    if negb (r =? 0) then Ret (ERR_BUF, with_ps n s, 0, 0)
    else
      b ← deref s p;
      let m := write_bytes (data s) (p_payload b) (take (Z.to_nat optlen) ip_options) in
      let m := if optlen <? optlen_aligned
               then memset (Z.to_nat (optlen_aligned - optlen)) m (p_payload b + optlen) 0 else m in
      let chk_sum := opt_sum (Z.to_nat (optlen_aligned / 2)) m (p_payload b) 0 in
      Ret (ERR_OK, with_ps n (with_data s m), u16 (IP_HLEN + optlen_aligned), chk_sum).

(** The part that writes the IP header at [iphdr]. *)
Definition write_header (m : bytes) (iphdr tot_len : Z) (src : option Z) (dest ttl tos proto ip_hlen id chk_sum : Z) : bytes :=
  let m := IPH_TTL_SET m iphdr ttl in
  let m := IPH_PROTO_SET m iphdr proto in
  let chk_sum := u32 (chk_sum + PP_HTONS (Z.lor proto (Z.shiftl ttl 8))) in
  let m := iph_dest_set m iphdr dest in
  let chk_sum := u32 (chk_sum + Z.land (iph_dest m iphdr) 0xFFFF) in
  let chk_sum := u32 (chk_sum + Z.shiftr (iph_dest m iphdr) 16) in
  let m := IPH_VHL_SET m iphdr 4 (ip_hlen / 4) in
  let m := IPH_TOS_SET m iphdr tos in
  let chk_sum := u32 (chk_sum + PP_HTONS (Z.lor tos (Z.shiftl (iph_vhl m iphdr) 8))) in
  let m := IPH_LEN_SET m iphdr (lwip_htons tot_len) in
  let chk_sum := u32 (chk_sum + IPH_LEN m iphdr) in
  let m := IPH_OFFSET_SET m iphdr 0 in
  let m := IPH_ID_SET m iphdr (lwip_htons id) in
  let chk_sum := u32 (chk_sum + IPH_ID m iphdr) in
  let m := iph_src_set m iphdr (default IPADDR_ANY src) in
  let chk_sum := u32 (chk_sum + Z.land (iph_src m iphdr) 0xFFFF) in
  let chk_sum := u32 (chk_sum + Z.shiftr (iph_src m iphdr) 16) in
  let chk_sum := u32 (Z.shiftr chk_sum 16 + Z.land chk_sum 0xFFFF) in
  let chk_sum := u32 (Z.shiftr chk_sum 16 + chk_sum) in
  let chk_sum := u32 (Z.lnot chk_sum) in
  store 2 m (iphdr + 10) (u16 chk_sum).

(** [dest] is None for LWIP_IP_HDRINCL, [src] for a NULL pointer. *)
Definition ip4_output_if_opt_src (n : net) (p : Z) (src dest : option Z) (ttl tos proto : Z) (nif : netif)
    (ip_options : list Z) (optlen : Z) : outcome (err_t * net) :=
  b ← deref (n_ps n) p;
  LWIP_ASSERT "p->ref == 1" (p_ref b =? 1);;
  let finish n dest :=
    b ← deref (n_ps n) p;
    if negb (netif_mtu nif =? 0) && (netif_mtu nif <? p_tot_len b) then ip4_frag n p nif dest
    else netif_output n nif p dest in
  match dest with
  | Some dest =>
      '(e, n, ip_hlen, chk_sum) ← write_options n p ip_options optlen;
      if negb (bool_decide (e = ERR_OK)) then Ret (e, n)
      else
        '(r, s) ← pbuf_add_header (n_ps n) p IP_HLEN;
        if negb (r =? 0) then Ret (ERR_BUF, with_ps n s)
        else
          b ← deref s p;
          LWIP_ASSERT "check that first pbuf can hold struct ip_hdr" (IP_HLEN <=? p_len b);;
          let m := write_header (data s) (p_payload b) (p_tot_len b) src dest ttl tos proto ip_hlen (ip_id n) chk_sum in
          let n := with_ps (with_id n (u16 (ip_id n + 1))) (with_data s m) in
          finish n dest
  | None =>
      if p_len b <? IP_HLEN then Ret (ERR_BUF, n)
      else finish n (iph_dest (data (n_ps n)) (p_payload b))
  end.

Definition ip4_output_if_opt (n : net) (p : Z) (src dest : option Z) (ttl tos proto : Z) (nif : netif)
    (ip_options : list Z) (optlen : Z) : outcome (err_t * net) :=
  let src_used :=
    match dest with
    | Some _ => if ip4_addr_isany_val (default IPADDR_ANY src) then Some (netif_ip4_addr nif) else src
    | None => src
    end in
  ip4_output_if_opt_src n p src_used dest ttl tos proto nif ip_options optlen.

Definition ip4_output_if (n : net) (p : Z) (src dest : option Z) (ttl tos proto : Z) (nif : netif) : outcome (err_t * net) :=
  ip4_output_if_opt n p src dest ttl tos proto nif [] 0.

Definition ip4_output_if_src (n : net) (p : Z) (src dest : option Z) (ttl tos proto : Z) (nif : netif) : outcome (err_t * net) :=
  ip4_output_if_opt_src n p src dest ttl tos proto nif [] 0.

Definition ip4_output (ns : netifs) (n : net) (p : Z) (src : option Z) (dest ttl tos proto : Z) : outcome (err_t * net) :=
  b ← deref (n_ps n) p;
  LWIP_ASSERT "p->ref == 1" (p_ref b =? 1);;
  match ip4_route ns dest with
  | None => Ret (ERR_RTE, n)
  | Some nif => ip4_output_if n p src (Some dest) ttl tos proto nif
  end.
End Output.

(** ** Specification: the bytes of an IP header (RFC 791) *)

(** Addresses are in network byte order, [chk] is the checksum as stored. *)
Definition ip_header (hlen tos tot_len id off ttl proto chk src dest : Z) : list Z :=
  [64 + hlen / 4; tos; tot_len / 256; tot_len mod 256; id / 256; id mod 256; off / 256; off mod 256;
   ttl; proto; chk mod 256; chk / 256] ++ le_bytes4 src ++ le_bytes4 dest.

(** ** Lemmas: the header checksum *)

(** A checksum field that holds the complement of the sum of the other words. *)
Lemma chksum_field_ok addr data A S :
  Forall is_u8 data -> length data < 65536 -> word_sum data = A + (65535 - S) -> is_u16 S -> oceq S A ->
  inet_chksum addr data = 0.
Proof.
  intros Hd Hl Hw HS (H1 & H2 & Hz & Hm). unfold inet_chksum. rewrite LWIP_CHKSUM_correct by done.
  unfold rfc1071_sum. rewrite Hw. rewrite <- (oc_norm_unique 65535); [done|unfold_c; lia|].
  unfold oceq. split_and!; [lia|unfold_c; lia|unfold_c; lia|].
  replace (A + (65535 - S)) with (A - S + 1 * 65535) by lia.
  rewrite Z.mod_add, Zminus_mod, Hm, Z.sub_diag by lia. done.
Qed.

(** The two folds at the end of the header and the complement. *)
Lemma fold_complement c :
  is_u32 c ->
  let f := u32 (Z.shiftr c 16 + Z.land c 0xFFFF) in
  exists S, u16 (u32 (Z.lnot (u32 (Z.shiftr f 16 + f)))) = 65535 - S /\ is_u16 S /\ oceq S c.
Proof.
  intros Hc f. assert (Hf : f = c / 65536 + c mod 65536) by (unfold f; rewrite shiftr16, land_ffff; wrap_solve).
  clearbody f. exists ((f / 65536 + f) mod 65536). split_and!.
  - rewrite shiftr16. unfold Z.lnot. wrap_solve.
  - wrap_solve.
  - destruct (decide (f < 65536)).
    + apply oceq_mod_eq with (k := - (c / 65536)); wrap_solve.
    + apply oceq_mod_eq with (k := - (c / 65536) - 1); wrap_solve.
Qed.

(** Additions at width 32 that do not wrap, the innermost first. *)
Ltac u32_plain :=
  repeat match goal with
  | |- context [u32 ?x] =>
      lazymatch x with
      | context [u32 _] => fail
      | _ => rewrite (u32_small x) by (unfold_c; Z.div_mod_to_equations; lia)
      end
  end.

Lemma le_list4 x : le_list 4 x = le_bytes4 x.
Proof. cbn. unfold le_bytes4. by rewrite !Z.div_div by lia. Qed.

Lemma ip_header_bytes hlen tos tot_len id off ttl proto chk src dest :
  20 <= hlen <= 60 -> is_u8 tos -> is_u16 tot_len -> is_u16 id -> is_u16 off -> is_u8 ttl -> is_u8 proto -> is_u16 chk ->
  Forall is_u8 (ip_header hlen tos tot_len id off ttl proto chk src dest).
Proof.
  intros. unfold ip_header. rewrite !Forall_app. split_and!; try apply le_bytes4_range. repeat constructor; try done; wrap_solve.
Qed.

Lemma ip_header_sum hlen tos tot_len id off ttl proto chk src dest :
  is_u16 tot_len -> is_u16 id -> is_u16 off -> is_u16 chk -> is_u32 src -> is_u32 dest ->
  word_sum (ip_header hlen tos tot_len id off ttl proto chk src dest)
  = (64 + hlen / 4 + 256 * tos) + lwip_htons tot_len + lwip_htons id + lwip_htons off + (ttl + 256 * proto) + chk
    + (src mod 65536 + src / 65536) + (dest mod 65536 + dest / 65536).
Proof.
  intros. unfold ip_header. rewrite !word_sum_app_even by done. rewrite !word_sum_le_bytes4 by done.
  cbn [word_sum]. unfold lwip_htons. rewrite !PP_HTONS_arith by done. Z.div_mod_to_equations. lia.
Qed.

Lemma vhl_arith hlen : 20 <= hlen <= 60 -> hlen mod 4 = 0 -> u8 (Z.lor (Z.shiftl 4 4) (hlen / 4)) = 64 + hlen / 4.
Proof.
  intros H1 H2. change (Z.shiftl 4 4) with (4 * 2 ^ 4). rewrite Z.lor_comm, lor_disjoint_mul by (Z.div_mod_to_equations; lia).
  wrap_solve.
Qed.

(** [hi << 8 | lo] in network byte order is the little endian word of the bytes
    [hi], [lo]. *)
Lemma htons_pair hi lo : is_u8 hi -> is_u8 lo -> PP_HTONS (Z.lor lo (Z.shiftl hi 8)) = hi + 256 * lo.
Proof.
  intros H1 H2. rewrite lor_disjoint_add by (unfold_c; lia). rewrite PP_HTONS_arith by wrap_solve. wrap_solve.
Qed.

(** What write_header leaves in memory: the header of RFC 791 whose checksum, with
    the sum [word_sum opts] of the options behind it, is valid. *)
Lemma write_header_spec m a tot_len src dest ttl tos proto hlen id opts addr :
  is_u16 tot_len -> is_u32 dest -> is_u32 (default IPADDR_ANY src) -> is_u8 ttl -> is_u8 tos -> is_u8 proto -> is_u16 id ->
  20 <= hlen <= 60 -> hlen mod 4 = 0 -> Forall is_u8 opts -> length opts <= 40 ->
  let m' := write_header m a tot_len src dest ttl tos proto hlen id (word_sum opts) in
  exists chk, is_u16 chk
    /\ read_bytes m' a 20 = ip_header hlen tos tot_len id 0 ttl proto chk (default IPADDR_ANY src) dest
    /\ inet_chksum addr (read_bytes m' a 20 ++ opts) = 0
    /\ forall x, ~ (a <= x < a + 20) -> byte m' x = byte m x.
Proof.
  intros Htl Hd Hs Httl Htos Hpr Hid Hh1 Hh2 Ho Hol m'. unfold m', write_header. set (sr := default IPADDR_ANY src) in *.
  pose proof (lwip_htons_range _ Htl) as Htl'. pose proof (lwip_htons_range _ Hid) as Hid'.
  unfold iph_dest, iph_src, iph_vhl, IPH_LEN, IPH_ID, iph_dest_set, iph_src_set, IPH_ID_SET, IPH_LEN_SET, IPH_TOS_SET, IPH_VHL_SET.
  rewrite vhl_arith by done.
  rewrite (load_store_other 1 1 (store 1 _ _ _)) by lia.
  rewrite !load_store by (cbn; unfold_c; Z.div_mod_to_equations; lia).
  rewrite !htons_pair by (unfold_c; Z.div_mod_to_equations; lia). rewrite !land_ffff, !shiftr16.
  pose proof (word_sum_bound opts Ho) as Hws. assert (Hws' : 0 <= word_sum opts <= 65535 * 20).
  { split; [lia|]. etrans; [apply Hws|]. apply Z.mul_le_mono_nonneg_l; [lia|]. Z.div_mod_to_equations; lia. }
  set (W := word_sum opts + (ttl + 256 * proto) + dest mod 65536 + dest / 65536 + (64 + hlen / 4 + 256 * tos)
            + lwip_htons tot_len + lwip_htons id + sr mod 65536 + sr / 65536).
  match goal with |- context [u32 (?c + sr / 65536)] => set (c0 := u32 (c + sr / 65536)) end.
  assert (Hc : c0 = W /\ is_u32 W).
  { unfold c0, W. clear -Htl' Hid' Hd Hs Httl Htos Hpr Hh1 Hh2 Hws'. u32_plain. split; [lia|]. unfold_c. Z.div_mod_to_equations. lia. }
  destruct Hc as [-> HW]. destruct (fold_complement W HW) as (S & ES & HS & Hoc). rewrite land_ffff, !shiftr16 in ES.
  rewrite ES. exists (65535 - S).
  assert (Hb : read_bytes (store 2 (store 4 (store 2 (IPH_OFFSET_SET (store 2 (store 1 (store 1 (store 4
      (IPH_PROTO_SET (IPH_TTL_SET m a ttl) a proto) (a + 16) dest) a (64 + hlen / 4)) (a + 1) tos) (a + 2) (lwip_htons tot_len)) a 0)
      (a + 4) (lwip_htons id)) (a + 12) sr) (a + 10) (65535 - S)) a 20
    = ip_header hlen tos tot_len id 0 ttl proto (65535 - S) sr dest).
  { unfold IPH_OFFSET_SET, IPH_PROTO_SET, IPH_TTL_SET.
    do 2 rewrite read_store_at by lia. rewrite read_store_at by lia. rewrite read_store_at by lia. rewrite read_store_at by lia.
    rewrite read_store_at by lia. rewrite read_store_0 by lia. rewrite !read_store_at by lia.
    assert (HL : length (read_bytes m a 20) = 20%nat) by apply read_bytes_length.
    generalize dependent (read_bytes m a 20). intros h HL. explode 20 h HL. splices. unfold ip_header, le_bytes4. cbn [app]. rewrite !Z.div_div by lia.
    unfold lwip_htons. rewrite !PP_HTONS_arith by done.
    repeat match goal with |- _ :: _ = _ :: _ => apply f_equal2 end; try done; wrap_solve. }
  split; [unfold_c; lia|]. split; [exact Hb|]. split.
  - rewrite Hb. apply chksum_field_ok with (A := W) (S := S); try done.
    + apply Forall_app. split; [apply ip_header_bytes; try done; unfold_c; lia|done].
    + rewrite length_app. cbn [ip_header le_bytes4 app length]. lia.
    + rewrite word_sum_app_even by done. rewrite ip_header_sum by (done || (unfold_c; lia)).
      change (lwip_htons 0) with 0. unfold W. lia.
  - intros x Hx. unfold IPH_OFFSET_SET, IPH_PROTO_SET, IPH_TTL_SET. rewrite !byte_store by lia. done.
Qed.

Section OutputFacts.
Context `{MO : MemOptions} {MOk : MemOptionsOk} `{PO : PbufOptions} {POk : PbufOptionsOk} {St : Type} `{!PacketMemory St}
  {Lk : Type} `{LL : !LinkLayer Lk St}.
Abbreviation pst := (@pstate St).

(** ** Lemmas: putting a header in front of a packet *)

(** The pbuf [b] with its payload moved back by [k] bytes. *)
Definition grown (b : pbuf) (k : Z) : pbuf :=
  with_tot_len (with_len (with_payload b (p_payload b - k)) (p_len b + k)) (p_tot_len b + k).

(** Room for [k] bytes in front of the packet, apart from the data of the other
    pbufs. *)
Definition headroom (p : Z) (b : pbuf) (l : list (Z * pbuf)) (k : Z) : Prop :=
  is_contiguous b = true /\ p + SIZEOF_STRUCT_PBUF <= p_payload b - k /\ p_tot_len b + k < 65536
  /\ range (p_payload b - k) (Z.to_nat k) ## addrs l.

Lemma headroom_grown p b l j k : 0 <= j -> 0 <= k -> headroom p b l (j + k) -> headroom p b l j /\ headroom p (grown b j) l k.
Proof.
  intros Hj Hk (H1 & H2 & H3 & H4). split.
  - split_and!; try done; try lia. intros x Hx. apply H4. apply elem_of_range. apply elem_of_range in Hx. lia.
  - split_and!; try done; cbn; try lia. intros x Hx. apply H4. apply elem_of_range. apply elem_of_range in Hx. lia.
Qed.

Lemma contents_frame d d' l : (forall x, x ∈ addrs l -> byte d' x = byte d x) -> contents d' l = contents d l.
Proof.
  intros Hx. rewrite !contents_addrs. apply list_fmap_ext. intros i x Hi. apply Hx. by eapply list_elem_of_lookup_2.
Qed.

(** pbuf_add_header, and then any stores into the new header. *)
Lemma prepend_spec (s : pst) B ext p b l k :
  pbuf_inv s B ext -> chain s p ((p, b) :: l) -> 0 <= k <= 0xFFFF -> headroom p b l k ->
  pbuf_add_header s p k = Ret (0, set_pbuf s p (grown b k))
  /\ forall m, (forall x, ~ (p_payload b - k <= x < p_payload b) -> byte m x = byte (data s) x) ->
     let s' := with_data (set_pbuf s p (grown b k)) m in
     chain s' p ((p, grown b k) :: l) /\ pbuf_inv s' B ext
     /\ contents m ((p, grown b k) :: l) = read_bytes m (p_payload b - k) (Z.to_nat k) ++ contents (data s) ((p, b) :: l).
Proof.
  intros HI Hc Hk (Hcg & Hroom & Htot & Hdis). pose proof (add_header_spec s B ext p b l k false HI Hc Hk) as Ha. cbn zeta in Ha.
  rewrite Hcg, (proj2 (Z.leb_le _ _) Hroom), (proj2 (Z.ltb_lt _ _) Htot), orb_true_r in Ha. fold (grown b k) in Ha.
  destruct Ha as (E & Hc' & HI' & _). split; [exact E|]. intros m Hm s'. split; [exact Hc'|]. split; [by apply inv_data|].
  pose proof (chain_cons _ _ _ _ _ Hc) as (_ & _ & _ & Hbl & _). rewrite !contents_cons.
  rewrite (contents_frame (data s) m l).
  2:{ intros x Hx. apply Hm. intros Hin. apply (Hdis x); [apply elem_of_range; lia|done]. }
  rewrite app_assoc. f_equal. unfold node_bytes. cbn [snd grown p_payload p_len with_tot_len with_len with_payload].
  replace (Z.to_nat (p_len b + k)) with (Z.to_nat k + Z.to_nat (p_len b))%nat by (unfold_c; lia). rewrite read_bytes_app. f_equal.
  replace (p_payload b - k + Z.to_nat k) with (p_payload b) by lia. rewrite !read_bytes_range. apply list_fmap_ext. intros i x Hx.
  apply Hm. apply list_elem_of_lookup_2, elem_of_range in Hx. lia.
Qed.

(** ** Lemmas: the options *)

Definition pad4 (opts : list Z) : list Z := opts ++ replicate (Z.to_nat (- Z.of_nat (length opts) mod 4)) 0.

Lemma pad4_length opts : Z.of_nat (length (pad4 opts)) = (length opts + 3) / 4 * 4.
Proof. unfold pad4. rewrite length_app, length_replicate. Z.div_mod_to_equations. lia. Qed.

Lemma pad4_bytes opts : Forall is_u8 opts -> Forall is_u8 (pad4 opts).
Proof. intros Ho. unfold pad4. apply Forall_app. split; [done|]. apply Forall_replicate. unfold_c. lia. Qed.

Lemma opt_sum_spec (words : nat) m a c :
  Forall is_u8 (read_bytes m a (2 * words)) -> 0 <= c -> c + 65535 * words < 2 ^ 32 ->
  opt_sum words m a c = c + word_sum (read_bytes m a (2 * words)).
Proof.
  revert a c. induction words as [|w IH]; intros a c Hm Hc Hb; [cbn; lia|].
  replace (2 * S w)%nat with (S (S (2 * w))) in * by lia. rewrite !read_bytes_S in *. cbn [opt_sum word_sum load].
  rewrite !Forall_cons in Hm. destruct Hm as (B0 & B1 & Hm). change (2 ^ 32) with 4294967296 in *.
  rewrite u32_small by (unfold_c; lia). replace (a + 1 + 1) with (a + 2) in * by lia. rewrite IH by (done || unfold_c; lia). lia.
Qed.

Lemma land_not3 x : 0 <= x -> Z.land x (Z.lnot 3) = x / 4 * 4.
Proof.
  intros Hx. change 3 with (Z.ones 2). rewrite <- Z.ldiff_land, Z.ldiff_ones_r by lia.
  by rewrite Z.shiftr_div_pow2, Z.shiftl_mul_pow2 by lia.
Qed.

Lemma read_options m a opts :
  let m1 := write_bytes m a opts in
  let k := (length opts + 3) / 4 * 4 in
  let m2 := if length opts <? k then memset (Z.to_nat (k - length opts)) m1 (a + length opts) 0 else m1 in
  read_bytes m2 a (length (pad4 opts)) = pad4 opts /\ (forall x, ~ (a <= x < a + k) -> byte m2 x = byte m x).
Proof.
  intros m1 k m2. pose proof (pad4_length opts) as Hp. fold k in Hp.
  assert (Hm2 : forall x, byte m2 x = if decide (a + length opts <= x < a + k) then 0 else byte m1 x).
  { intros x. unfold m2. case_if; [|by rewrite decide_False by lia]. rewrite byte_memset. apply decide_ext. lia. }
  split_and!.
  - apply list_eq. intros i. destruct (decide (i < length (pad4 opts))%nat) as [Hi|Hi].
    2:{ rewrite !lookup_ge_None_2 by (rewrite ?read_bytes_length; lia). done. }
    unfold read_bytes. rewrite list_lookup_fmap, lookup_seq_lt by lia. cbn. rewrite Hm2. unfold pad4. case_decide as Hd.
    + rewrite lookup_app_r by lia. rewrite lookup_replicate_2; [done|]. unfold pad4 in Hi. rewrite length_app, length_replicate in Hi. lia.
    + rewrite lookup_app_l by lia. pose proof (read_splice m a 0 opts (length opts) ltac:(lia)) as Hr.
      rewrite Z.add_0_r in Hr. unfold splice in Hr. rewrite take_0, drop_ge, app_nil_r in Hr by (rewrite read_bytes_length; lia).
      apply (f_equal (λ q, q !! i)) in Hr. cbn [app] in Hr. rewrite <- Hr. unfold read_bytes. rewrite list_lookup_fmap, lookup_seq_lt by lia. done.
  - intros x Hx. rewrite Hm2, decide_False by lia. apply byte_write_bytes. unfold k in Hx. Z.div_mod_to_equations. lia.
Qed.

(** The state of the packet in [n], with the references the link layer holds. *)
Definition net_inv (n : net (Lk := Lk)) (B : gmap Z block) (ext : Z -> nat) : Prop :=
  pbuf_inv (n_ps n) B (λ a, (ext a + link_holds (n_lk n) a)%nat).

Definition net_ok (n : net (Lk := Lk)) (B : gmap Z block) (ext : Z -> nat) : Prop := net_inv n B ext /\ is_u16 (ip_id n).

Lemma write_options_spec n B ext p b l opts :
  net_inv n B ext -> chain (n_ps n) p ((p, b) :: l) -> Forall is_u8 opts -> length opts <= 40 ->
  let k := Z.of_nat (length (pad4 opts)) in
  headroom p b l k ->
  exists m, let s' := with_data (set_pbuf (n_ps n) p (grown b k)) m in
    write_options n p opts (length opts) = Ret (ERR_OK, with_ps n s', 20 + k, word_sum (pad4 opts))
    /\ chain s' p ((p, grown b k) :: l) /\ net_inv (with_ps n s') B ext
    /\ contents m ((p, grown b k) :: l) = pad4 opts ++ contents (data (n_ps n)) ((p, b) :: l)
    /\ forall x, ~ (p_payload b - k <= x < p_payload b) -> byte m x = byte (data (n_ps n)) x.
Proof.
  intros HI Hc Ho Hl k Hroom. pose proof (pad4_length opts) as Hk. fold k in Hk.
  assert (Hk40 : 0 <= k <= 40 /\ k mod 2 = 0) by (rewrite Hk; Z.div_mod_to_equations; lia).
  destruct (prepend_spec (n_ps n) B _ p b l k HI Hc ltac:(lia) Hroom) as [E Hpre].
  unfold write_options. case_if.
  - assert (opts = []) as -> by (destruct opts; [done|cbn in E0; lia]). exists (data (n_ps n)).
    assert (k = 0) as Hk0 by (rewrite Hk; reflexivity). rewrite Hk0 in *.
    destruct (Hpre (data (n_ps n)) ltac:(done)) as (Hc' & HI' & Hcont). split_and!; try done.
    do 4 f_equal. pose proof (chain_cons _ _ _ _ _ Hc) as (_ & Hb & _).
    assert (Eg : grown b 0 = b) by (unfold grown; rewrite Z.sub_0_r, !Z.add_0_r; by destruct b).
    rewrite Eg, set_pbuf_id by done. by destruct n as [[] ? ?].
  - rewrite (proj2 (Z.ltb_ge (IP_HLEN_MAX - IP_HLEN) _)) by (unfold IP_HLEN_MAX, IP_HLEN; lia).
    rewrite land_not3 by lia. rewrite <- Hk. rewrite (u16_small k) by lia. rewrite E. cbn [mbind outcome_bind negb Z.eqb].
    unfold deref at 1. cbn [set_pbuf with_pbufs pbufs]. rewrite lookup_insert_eq. cbn [mbind outcome_bind grown p_payload with_tot_len with_len with_payload].
    rewrite Nat2Z.id, firstn_all. cbn [set_pbuf with_pbufs data].
    destruct (read_options (data (n_ps n)) (p_payload b - k) opts) as (Hr & Hfr). cbn zeta in Hr, Hfr. rewrite <- Hk in Hr, Hfr.
    set (m := if length opts <? k then _ else _) in *. exists m.
    destruct (Hpre m) as (Hc' & HI' & Hcont); [intros x Hx; apply Hfr; lia|]. rewrite Hcont.
    replace (Z.to_nat k) with (length (pad4 opts)) by lia. rewrite Hr. split_and!; try done; [|intros x Hx; apply Hfr; lia].
    assert (Hk2 : (2 * Z.to_nat (k / 2))%nat = length (pad4 opts)) by (Z.div_mod_to_equations; lia).
    rewrite opt_sum_spec by (rewrite ?Hk2, ?Hr; try (by apply pad4_bytes); Z.div_mod_to_equations; lia). rewrite Hk2, Hr.
    by rewrite (u16_small (IP_HLEN + k)) by (unfold IP_HLEN; lia).
Qed.

(** Handing a packet to the interface. *)
Lemma netif_output_spec n B ext nif p b l dest :
  net_inv n B ext -> chain (n_ps n) p ((p, b) :: l) -> (0 < ext p)%nat -> p_ref b = 1 ->
  exists e n' B', netif_output n nif p dest = Ret (e, n') /\ net_inv n' B' ext /\ ip_id n' = ip_id n
    /\ link_log (n_lk n') = link_log (n_lk n) ++ [(netif_num nif, dest, contents (data (n_ps n)) ((p, b) :: l))]
    /\ forall q lq, chain (n_ps n) q lq -> (0 < ext q)%nat -> own_data lq -> lq.*1 ## ((p, b) :: l).*1 ->
       exists lq', same_packet (n_ps n) (n_ps n') q lq lq'.
Proof.
  intros HI Hc He Hr. destruct (link_output_law nif _ _ B ext p b l dest HI Hc He Hr) as (e & s' & lk' & B' & E & HI' & Hlog & Hfr).
  unfold netif_output. rewrite E. by exists e, (Net s' lk' (ip_id n)), B'.
Qed.

(** The whole of ip4_output_if_opt_src on a packet that fits the MTU; other packets
    that are held stay. *)
Lemma output_opt_src_full n B ext p b l src dest ttl tos proto nif opts addr :
  net_inv n B ext -> chain (n_ps n) p ((p, b) :: l) -> (0 < ext p)%nat -> p_ref b = 1 ->
  is_u16 (ip_id n) -> is_u32 (default IPADDR_ANY src) -> is_u32 dest -> is_u8 ttl -> is_u8 tos -> is_u8 proto ->
  Forall is_u8 opts -> length opts <= 40 ->
  let hlen := 20 + Z.of_nat (length (pad4 opts)) in
  headroom p b l hlen -> netif_mtu nif = 0 \/ p_tot_len b + hlen <= netif_mtu nif ->
  exists e n' B' chk,
    ip4_output_if_opt_src n p src (Some dest) ttl tos proto nif opts (length opts) = Ret (e, n')
    /\ net_inv n' B' ext /\ ip_id n' = u16 (ip_id n + 1)
    /\ let hdr := ip_header hlen tos (p_tot_len b + hlen) (ip_id n) 0 ttl proto chk (default IPADDR_ANY src) dest ++ pad4 opts in
       link_log (n_lk n') = link_log (n_lk n) ++ [(netif_num nif, dest, hdr ++ contents (data (n_ps n)) ((p, b) :: l))]
       /\ (inet_chksum addr hdr = 0 /\ is_u16 chk)
       /\ forall q lq, chain (n_ps n) q lq -> (0 < ext q)%nat -> own_data lq -> lq.*1 ## ((p, b) :: l).*1 ->
          range (p_payload b - hlen) (Z.to_nat hlen) ## addrs lq -> exists lq', same_packet (n_ps n) (n_ps n') q lq lq'.
Proof.
  intros HI Hc He Hr Hid Hs Hd Httl Htos Hpr Hopt Hol hlen Hroom Hmtu. set (k := Z.of_nat (length (pad4 opts))) in *.
  pose proof (pad4_length opts) as Hk. fold k in Hk. assert (Hk40 : 0 <= k <= 40 /\ k mod 4 = 0) by (rewrite Hk; Z.div_mod_to_equations; lia).
  unfold hlen in *. rewrite Z.add_comm in Hroom. destruct (headroom_grown p b l k 20 ltac:(lia) ltac:(lia) Hroom) as [R1 R2].
  destruct (write_options_spec n B ext p b l opts HI Hc Hopt Hol R1) as (m1 & Eo & Hc1 & HI1 & Hcont1 & Hfr1).
  fold k in Eo, Hc1, HI1, Hcont1, Hfr1. set (s1 := with_data (set_pbuf (n_ps n) p (grown b k)) m1) in *.
  destruct (prepend_spec s1 B _ p (grown b k) l 20 HI1 Hc1 ltac:(lia) R2) as [Eh Hpre].
  pose proof (chain_cons _ _ _ _ _ Hc) as (_ & Hb & _ & Hbl & Ht & Hut & Htl).
  unfold ip4_output_if_opt_src. rewrite (deref_ok _ _ _ Hb). cbn [mbind outcome_bind]. rewrite LWIP_ASSERT_ok by (by apply Z.eqb_eq).
  cbn [mbind outcome_bind]. rewrite Eo. cbn [mbind outcome_bind]. rewrite bool_decide_true by done. cbn [negb with_ps n_ps n_lk ip_id].
  unfold IP_HLEN. rewrite Eh. cbn [mbind outcome_bind negb Z.eqb]. set (b2 := grown (grown b k) 20) in *.
  rewrite (deref_ok (set_pbuf s1 p b2) p b2) by apply lookup_insert_eq. cbn [mbind outcome_bind].
  rewrite LWIP_ASSERT_ok by (apply Z.leb_le; cbn; unfold_c; lia). cbn [mbind outcome_bind].
  destruct (write_header_spec m1 (p_payload b2) (p_tot_len b2) src dest ttl tos proto (20 + k) (ip_id n) (pad4 opts) addr)
    as (chk & Hchk & Hrd & Hval & Hfr); try done.
  { destruct R2 as (_ & _ & R2 & _). cbn in *. unfold_c. lia. } { lia. } { Z.div_mod_to_equations; lia. }
  { by apply pad4_bytes. } { lia. }
  set (m2 := write_header _ _ _ _ _ _ _ _ _ _ _) in *. change (data (set_pbuf s1 p b2)) with m1.
  set (n2 := with_ps _ (with_data (set_pbuf s1 p b2) m2)).
  destruct (Hpre m2) as (Hc2 & HI2 & Hcont2); [intros x Hx; apply Hfr; change (p_payload b2) with (p_payload (grown b k) - 20); lia|].
  rewrite (deref_ok _ p b2) by apply lookup_insert_eq. cbn [mbind outcome_bind].
  assert (Et : p_tot_len b2 = p_tot_len b + (20 + k)) by (cbn; lia).
  replace (negb (netif_mtu nif =? 0) && (netif_mtu nif <? p_tot_len b2)) with false.
  2:{ symmetry. rewrite Et. apply andb_false_iff. rewrite negb_false_iff, Z.eqb_eq, Z.ltb_ge. exact Hmtu. }
  destruct (netif_output_spec n2 B ext nif p b2 l dest HI2 Hc2 He Hr) as (e & n' & B' & Eout & HI' & Hid' & Hlog & Hkeep).
  exists e, n', B', chk. rewrite Eout, Hid', Hlog. do 3 (split; [done|]). cbv zeta. split; [|split].
  - change (n_lk n2) with (n_lk n). do 3 f_equal. change (data (n_ps n2)) with m2. rewrite Hcont2.
    change (p_payload (grown b k) - 20) with (p_payload b2). change (Z.to_nat 20) with 20%nat. rewrite Hrd, Et. change (data s1) with m1.
    by rewrite Hcont1, app_assoc.
  - split; [|done]. by rewrite <- Et, <- Hrd.
  - intros q lq Hq Heq Hown Hdis Hrange.
    assert (Hq2 : chain (n_ps n2) q lq).
    { split; [|apply Hq]. unfold n2, s1. cbn. do 2 (apply seg_insert; [|intros Hin; apply (Hdis p Hin); by left]). apply Hq. }
    assert (Ed : contents (data (n_ps n2)) lq = contents (data (n_ps n)) lq).
    { apply contents_frame. intros x Hx. change (data (n_ps n2)) with m2.
      assert (Hx' : ~ (p_payload b - (20 + k) <= x < p_payload b)) by (intros Hx'; apply (Hrange x); [apply elem_of_range; lia|done]).
      rewrite Hfr by (cbn; lia). apply Hfr1. lia. }
    assert (Hdis2 : lq.*1 ## ((p, b2) :: l).*1) by exact Hdis. destruct (Hkeep q lq Hq2 Heq Hown Hdis2) as (lq' & K1 & K2 & K3). exists lq'. split; [done|]. split; [done|]. by rewrite K3.
Qed.


Lemma output_opt_src_spec n B ext p b l src dest ttl tos proto nif opts addr :
  net_inv n B ext -> chain (n_ps n) p ((p, b) :: l) -> (0 < ext p)%nat -> p_ref b = 1 ->
  is_u16 (ip_id n) -> is_u32 (default IPADDR_ANY src) -> is_u32 dest -> is_u8 ttl -> is_u8 tos -> is_u8 proto ->
  Forall is_u8 opts -> length opts <= 40 ->
  let hlen := 20 + Z.of_nat (length (pad4 opts)) in
  headroom p b l hlen -> netif_mtu nif = 0 \/ p_tot_len b + hlen <= netif_mtu nif ->
  exists e n' B' chk,
    ip4_output_if_opt_src n p src (Some dest) ttl tos proto nif opts (length opts) = Ret (e, n')
    /\ net_inv n' B' ext /\ ip_id n' = u16 (ip_id n + 1)
    /\ let hdr := ip_header hlen tos (p_tot_len b + hlen) (ip_id n) 0 ttl proto chk (default IPADDR_ANY src) dest ++ pad4 opts in
       link_log (n_lk n') = link_log (n_lk n) ++ [(netif_num nif, dest, hdr ++ contents (data (n_ps n)) ((p, b) :: l))]
       /\ (inet_chksum addr hdr = 0 /\ is_u16 chk).
Proof.
  intros HI Hc He Hr Hid Hs Hd Httl Htos Hpr Hopt Hol hlen Hroom Hmtu.
  destruct (output_opt_src_full n B ext p b l src dest ttl tos proto nif opts addr HI Hc He Hr Hid Hs Hd Httl Htos Hpr Hopt Hol Hroom Hmtu)
    as (e & n' & B' & chk & H1 & H2 & H3 & H4 & H5 & _). by exists e, n', B', chk.
Qed.

(** The same for ip4_output_if, which takes the address of the interface for the
    source any. *)
Lemma output_if_full n B ext p b l src dest ttl tos proto nif addr :
  net_inv n B ext -> chain (n_ps n) p ((p, b) :: l) -> (0 < ext p)%nat -> p_ref b = 1 ->
  is_u16 (ip_id n) -> is_u32 (default IPADDR_ANY src) -> is_u32 dest -> is_u8 ttl -> is_u8 tos -> is_u8 proto -> headroom p b l 20 ->
  is_u32 (netif_ip4_addr nif) -> netif_mtu nif = 0 \/ p_tot_len b + 20 <= netif_mtu nif ->
  exists e n' B' chk, ip4_output_if n p src (Some dest) ttl tos proto nif = Ret (e, n')
    /\ net_inv n' B' ext /\ ip_id n' = u16 (ip_id n + 1)
    /\ let from := if ip4_addr_isany_val (default IPADDR_ANY src) then netif_ip4_addr nif else default IPADDR_ANY src in
       let hdr := ip_header 20 tos (p_tot_len b + 20) (ip_id n) 0 ttl proto chk from dest in
       link_log (n_lk n') = link_log (n_lk n) ++ [(netif_num nif, dest, hdr ++ contents (data (n_ps n)) ((p, b) :: l))]
       /\ inet_chksum addr hdr = 0
       /\ forall q lq, chain (n_ps n) q lq -> (0 < ext q)%nat -> own_data lq -> lq.*1 ## ((p, b) :: l).*1 ->
          range (p_payload b - 20) 20 ## addrs lq -> exists lq', same_packet (n_ps n) (n_ps n') q lq lq'.
Proof.
  intros HI Hc He Hr Hid Hs Hd Httl Htos Hpr Hroom Hna Hmtu.
  unfold ip4_output_if, ip4_output_if_opt. set (from := if ip4_addr_isany_val _ then Some _ else _).
  assert (Hfrom : default IPADDR_ANY from = if ip4_addr_isany_val (default IPADDR_ANY src) then netif_ip4_addr nif else default IPADDR_ANY src)
    by (unfold from; by case_if).
  destruct (output_opt_src_full n B ext p b l from dest ttl tos proto nif [] addr) as (e & n' & B' & chk & E & HI' & Hid' & Hlog & [Hv _] & Hkeep);
    try done; [rewrite Hfrom; by case_if|].
  rewrite Hfrom, app_nil_r in *. exists e, n', B', chk. do 3 (split; [done|]). split; [done|]. split; [done|]. exact Hkeep.
Qed.

Lemma output_if_spec n B ext p b l src dest ttl tos proto nif addr :
  net_inv n B ext -> chain (n_ps n) p ((p, b) :: l) -> (0 < ext p)%nat -> p_ref b = 1 ->
  is_u16 (ip_id n) -> is_u32 (default IPADDR_ANY src) -> is_u32 dest -> is_u8 ttl -> is_u8 tos -> is_u8 proto -> headroom p b l 20 ->
  is_u32 (netif_ip4_addr nif) -> netif_mtu nif = 0 \/ p_tot_len b + 20 <= netif_mtu nif ->
  exists e n' B' chk, ip4_output_if n p src (Some dest) ttl tos proto nif = Ret (e, n')
    /\ net_inv n' B' ext /\ ip_id n' = u16 (ip_id n + 1)
    /\ let from := if ip4_addr_isany_val (default IPADDR_ANY src) then netif_ip4_addr nif else default IPADDR_ANY src in
       let hdr := ip_header 20 tos (p_tot_len b + 20) (ip_id n) 0 ttl proto chk from dest in
       link_log (n_lk n') = link_log (n_lk n) ++ [(netif_num nif, dest, hdr ++ contents (data (n_ps n)) ((p, b) :: l))]
       /\ inet_chksum addr hdr = 0.
Proof.
  intros HI Hc He Hr Hid Hs Hd Httl Htos Hpr Hroom Hna Hmtu.
  destruct (output_if_full n B ext p b l src dest ttl tos proto nif addr HI Hc He Hr Hid Hs Hd Httl Htos Hpr Hroom Hna Hmtu)
    as (e & n' & B' & chk & H1 & H2 & H3 & H4 & H5 & _). by exists e, n', B', chk.
Qed.

(** ** Properties *)

(** C3: ip4_output sends a packet that fits the MTU on the interface ip4_route
    chooses (and returns ERR_RTE and does nothing when there is none), behind a
    correct IPv4 header (RFC 791: version, header length, total length, the next
    identification, no fragmentation, TTL, protocol and addresses as requested, the
    address of the interface when the source is any) with a checksum that a receiver
    accepts; the interface gets exactly these bytes, the identification advances
    modulo 2^16 and no reference is lost. *)
Theorem ip4_output_correct ns n B ext p b l src dest ttl tos proto addr :
  net_inv n B ext -> chain (n_ps n) p ((p, b) :: l) -> (0 < ext p)%nat -> p_ref b = 1 ->
  is_u16 (ip_id n) -> is_u32 (default IPADDR_ANY src) -> is_u32 dest -> is_u8 ttl -> is_u8 tos -> is_u8 proto ->
  headroom p b l 20 ->
  match ip4_route ns dest with
  | None => ip4_output ns n p src dest ttl tos proto = Ret (ERR_RTE, n)
  | Some nif =>
      is_u32 (netif_ip4_addr nif) -> netif_mtu nif = 0 \/ p_tot_len b + 20 <= netif_mtu nif ->
      exists e n' B' chk, ip4_output ns n p src dest ttl tos proto = Ret (e, n')
        /\ net_inv n' B' ext /\ ip_id n' = u16 (ip_id n + 1)
        /\ let from := if ip4_addr_isany_val (default IPADDR_ANY src) then netif_ip4_addr nif else default IPADDR_ANY src in
           let hdr := ip_header 20 tos (p_tot_len b + 20) (ip_id n) 0 ttl proto chk from dest in
           link_log (n_lk n') = link_log (n_lk n) ++ [(netif_num nif, dest, hdr ++ contents (data (n_ps n)) ((p, b) :: l))]
           /\ inet_chksum addr hdr = 0
  end.
Proof.
  intros HI Hc He Hr Hid Hs Hd Httl Htos Hpr Hroom. pose proof (chain_cons _ _ _ _ _ Hc) as (_ & Hb & _).
  unfold ip4_output. rewrite (deref_ok _ _ _ Hb). cbn [mbind outcome_bind]. rewrite LWIP_ASSERT_ok by (by apply Z.eqb_eq).
  cbn [mbind outcome_bind]. destruct (ip4_route ns dest) as [nif|]; [|done]. intros Hna Hmtu. by apply (output_if_spec n B ext p b l).
Qed.
End OutputFacts.

(** ** An interface that sends every packet at once *)

Section Wire.
Context `{MO : MemOptions} `{PO : PbufOptions} {St : Type} `{!PacketMemory St}.

Lemma packet_chain (s : pstate (St := St)) p l fuel :
  pbufs s !! NULL = None -> seg (pbufs s) p l NULL -> (length l < fuel)%nat -> packet fuel s p = l.
Proof.
  intros Hnull. revert p fuel. induction l as [|[a b] l IH]; intros p fuel Hs Hf; (destruct fuel as [|fuel]; [cbn in Hf; lia|]).
  - cbn in Hs. subst p. cbn. by rewrite Hnull.
  - destruct Hs as (-> & Hb & Hs). cbn. rewrite Hb. f_equal. apply IH; [done|cbn in Hf; lia].
Qed.

#[export, refine] Instance wire : LinkLayer (list (Z * Z * list Z)) St := {|
  link_output nif s lk p dest :=
    Ret (ERR_OK, s, lk ++ [(netif_num nif, dest, contents (data s) (packet (chain_fuel s) s p))]);
  link_holds _ _ := 0%nat;
  link_log lk := lk
|}.
Proof.
  intros nif s lk B ext p b l dest HI Hc He Hr. eexists _, s, _, B. split; [done|]. split; [done|].
  rewrite (packet_chain s p ((p, b) :: l)); [|by eapply inv_not_null|apply Hc|eapply chain_fuel_ok; [by eapply inv_not_null|done]].
  split; [done|]. intros q lq Hq _ _ _. exists lq. split_and!; [done| |done]. apply same_packet_refl.
Defined.
End Wire.

(** ** Witnesses *)

(** The packet in RAM of PbufChain.v with 54 bytes of headroom. *)
Definition nif0 : netif := Netif 1 0x0a01a8c0 0x00ffffff 0x0101a8c0 0x27 [2; 0; 0; 0; 0; 1] 1500 true.
Definition net0 : net (Lk := list (Z * Z * list Z)) := Net ps2 [] 0xffff.

Definition netifs0 : netifs := Netifs [nif0] None None.

Lemma ip4_output_correct_witness :
  exists e n', ip4_output netifs0 net0 p2 None 0x0201a8c0 64 0 17 = Ret (e, n') /\ ip_id n' = 0.
Proof.
  destruct ps2_inv as (B & b1 & a2 & b2 & b & HI & _ & Hc2 & _ & _ & _ & _ & _ & L & R & T & C & P & _).
  pose proof (ip4_output_correct netifs0 net0 B (ext_add (ext_add no_ext p1) p2) p2 b [] None 0x0201a8c0 64 0 17 0) as Ha.
  change (ip4_route netifs0 0x0201a8c0) with (Some nif0) in Ha. cbv iota in Ha. rewrite T in Ha.
  destruct Ha as (e & n' & B' & chk & E & _ & Hid & _).
  - eapply inv_ext_eq; [|exact HI]. intros a _. cbn [link_holds wire]. lia.
  - exact Hc2.
  - unfold ext_add. rewrite (decide_True (P := p2 = p2)) by reflexivity. lia.
  - exact R.
  - vm_compute. intuition congruence.
  - vm_compute. intuition congruence.
  - vm_compute. intuition congruence.
  - vm_compute. intuition congruence.
  - vm_compute. intuition congruence.
  - vm_compute. intuition congruence.
  - split; [exact C|]. rewrite P, T. split; [lia|]. split; [lia|].
    intros x Hx Hx'. apply not_elem_of_nil in Hx'. exact Hx'.
  - vm_compute. intuition congruence.
  - right. vm_compute. intuition congruence.
  - exists e, n'. split; [exact E|exact Hid].
Defined.
