(* ===== verification/Ip4Frag.v ===== *)
(** * IPv4 fragmentation (src/lwip/src/core/ipv4/ip4_frag.c)

    What ip4_frag hands to the interface, for every MTU: the fragments of RFC 791 of the
    packet, in order, when the MTU minus the header is a multiple of 8; and the packets
    that lose the "more fragments" flag when it is not. *)

From S2P Require Import Prelude Def ListSeg InetChksum Ip4Addr Mem Memp Pbuf PbufMem PbufRef PbufChain PbufData Header Ip4.

#[local] Open Scope Z_scope.
#[local] Coercion Z.of_nat : nat >-> Z.

(** ** Specification *)

(** The header [h] with the total length, the offset field and the checksum. *)
Definition frag_header (h : list Z) (len off chk : Z) : list Z :=
  splice 10 [chk mod 256; chk / 256] (splice 6 [off / 256; off mod 256] (splice 2 [len / 256; len mod 256] h)).

(** Fragment [i] of the payload [P] in pieces of [nfb] blocks of 8 bytes; the packet
    itself starts at block [ofo] of its datagram, [mf] when more follow it. *)
Definition fragment (h P : list Z) (nfb ofo : Z) (mf : bool) (i : nat) (chk : Z) : list Z :=
  let size := Z.to_nat (8 * nfb) in
  let d := take size (drop (i * size) P) in
  let more := mf || bool_decide ((i * size + size < length P)%nat) in
  frag_header h (20 + length d) ((ofo + i * nfb) mod 8192 + if more then 8192 else 0) chk ++ d.

(** The same with the test of the code for the last fragment: what is left of the payload
    fits in [room] bytes, the MTU without the header. *)
Definition fragment_out (h P : list Z) (nfb ofo : Z) (mf : bool) (room : Z) (i : nat) (chk : Z) : list Z :=
  let size := Z.to_nat (8 * nfb) in
  let d := take size (drop (i * size) P) in
  let more := mf || (room <? length P - i * (8 * nfb)) in
  frag_header h (20 + length d) ((ofo + i * nfb) mod 8192 + if more then 8192 else 0) chk ++ d.

(** The two agree when the fragments fill the MTU. *)
Lemma fragment_out_full h P nfb ofo mf room i chk : 0 <= nfb -> room = 8 * nfb -> fragment_out h P nfb ofo mf room i chk = fragment h P nfb ofo mf i chk.
Proof.
  intros Hn ->. unfold fragment_out, fragment. do 5 f_equal. destruct mf; [done|]. cbn [orb].
  destruct (Z.ltb_spec (8 * nfb) (length P - i * (8 * nfb))); [rewrite bool_decide_true|rewrite bool_decide_false]; try done; lia.
Qed.

(** ** Lemmas *)

(** Writing the checksum into a header that has none. *)
Lemma header_sealed m1 a h len off addr :
  read_bytes m1 a 20 = frag_header h len off 0 -> length h = 20%nat -> Forall is_u8 h -> is_u16 len -> is_u16 off ->
  let m2 := IPH_CHKSUM_SET m1 a (inet_chksum a (read_bytes m1 a 20)) in
  exists chk, read_bytes m2 a 20 = frag_header h len off chk /\ inet_chksum addr (frag_header h len off chk) = 0.
Proof.
  intros Hm1 HL Hb Hlen Hoff m2. set (chk := inet_chksum a (read_bytes m1 a 20)) in m2. exists chk.
  assert (Hsplit : forall c, frag_header h len off c
    = take 10 (frag_header h len off 0) ++ [c mod 256; c / 256] ++ drop 12 (frag_header h len off 0)).
  { intros c. clear m2 Hm1 chk. explode 20 h HL. unfold frag_header. splices. done. }
  assert (Hbytes : Forall is_u8 (frag_header h len off 0)).
  { clear m2 Hm1 chk Hsplit. explode 20 h HL. unfold frag_header. splices.
    rewrite !Forall_cons in Hb. destruct_and! Hb. repeat constructor; try done; wrap_solve. }
  assert (HL0 : length (frag_header h len off 0) = 20%nat) by (clear -HL; explode 20 h HL; reflexivity).
  pose proof (chksum_field_verifies a addr (take 10 (frag_header h len off 0)) (drop 12 (frag_header h len off 0))) as Hv.
  change [0; 0] with [0 mod 256; 0 / 256] in Hv. rewrite <- Hsplit in Hv. cbn zeta in Hv. rewrite <- Hsplit in Hv.
  assert (Echk : chk = inet_chksum a (frag_header h len off 0)) by (unfold chk; by rewrite Hm1). split.
  - unfold m2, IPH_CHKSUM_SET. rewrite read_store_at by lia. rewrite Hm1, (Hsplit chk).
    assert (Hu : is_u16 chk) by apply inet_chksum_range.
    clear -HL0 Hu. generalize dependent (frag_header h len off 0). intros y HL0. explode 20 y HL0. splices.
    repeat match goal with |- _ :: _ = _ :: _ => apply f_equal2 end; try done; wrap_solve.
  - rewrite Echk. apply Hv; [by apply Forall_take|by apply Forall_drop|rewrite length_take, HL0; reflexivity|lia].
Qed.

Lemma frag_header_spec m a src h len off addr :
  read_bytes m src 20 = h -> Forall is_u8 h -> is_u16 len -> is_u16 off ->
  let m1 := IPH_CHKSUM_SET (IPH_LEN_SET (IPH_OFFSET_SET (MEMCPY m a src 20) a (lwip_htons off)) a (lwip_htons len)) a 0 in
  let m2 := IPH_CHKSUM_SET m1 a (inet_chksum a (read_bytes m1 a 20)) in
  exists chk, read_bytes m2 a 20 = frag_header h len off chk
    /\ inet_chksum addr (frag_header h len off chk) = 0
    /\ forall x, ~ (a <= x < a + 20) -> byte m2 x = byte m x.
Proof.
  intros Hh Hb Hlen Hoff m1 m2. assert (HL : length h = 20%nat) by (by rewrite <- Hh, read_bytes_length).
  assert (Hm1 : read_bytes m1 a 20 = frag_header h len off 0).
  { unfold m1, IPH_CHKSUM_SET, IPH_LEN_SET, IPH_OFFSET_SET, MEMCPY. change (Z.to_nat 20) with 20%nat. rewrite Hh.
    rewrite !read_store_at by lia. replace (write_bytes m a h) with (write_bytes m (a + 0%nat) h) by (by rewrite Z.add_0_r).
    rewrite read_splice by lia. pose proof (read_bytes_length m a 20) as HM. clear m1 m2 Hh.
    generalize dependent (read_bytes m a 20). intros y HM. explode 20 y HM. explode 20 h HL. unfold frag_header. splices.
    unfold lwip_htons. rewrite !PP_HTONS_arith by done.
    repeat match goal with |- _ :: _ = _ :: _ => apply f_equal2 end; try done; wrap_solve. }
  destruct (header_sealed m1 a h len off addr Hm1 HL Hb Hlen Hoff) as (chk & E1 & E2). exists chk. split_and!; [done|done|].
  intros x Hx. unfold m2, m1, IPH_CHKSUM_SET, IPH_LEN_SET, IPH_OFFSET_SET, MEMCPY. rewrite !byte_store by lia.
  apply byte_write_bytes. rewrite read_bytes_length. lia.
Qed.

Section Frag.
Context `{MO : MemOptions} {MOk : MemOptionsOk} `{PO : PbufOptions} {POk : PbufOptionsOk} {St : Type} `{!PacketMemory St}
  {Lk : Type} `{LL : !LinkLayer Lk St}.
Abbreviation pst := (@pstate St).

(** The packet memory [s] is what a request for [len] bytes behind an IP header left that
    the heap refused. *)
Definition refused (s : pst) B ext (len : Z) : Prop :=
  exists st, pbuf_inv (with_pmem s st) B ext /\ (ram_fits PBUF_IP len -> pm_mem_malloc st (ram_request PBUF_IP len) = Ret (None, pmem s)).

(** ** Lemmas: packets that stay as they are *)

Lemma upto_refs_tot (l l' : list (Z * pbuf)) :
  Forall2 (λ x y, y = (x.1, with_ref x.2 (p_ref y.2))) l l' ->
  total l' = total l /\ (tot_ok l -> tot_ok l') /\ (own_data l -> own_data l') /\ l'.*1 = l.*1
  /\ (forall d, contents d l' = contents d l) /\ addrs l' = addrs l.
Proof.
  intros HF. induction HF as [|[a b] [a' b'] l l' E _ (IH1 & IH2 & IH3 & IH4 & IH5 & IH6)]; [done|]. cbn in E. injection E as -> E.
  assert (E2 : p_len b' = p_len b /\ p_payload b' = p_payload b /\ p_tot_len b' = p_tot_len b
    /\ is_contiguous b' = is_contiguous b /\ is_custom b' = is_custom b) by (rewrite E; by destruct b).
  destruct E2 as (E2 & E3 & E4 & E5 & E6). split_and!.
  - change (p_len b' + total l' = p_len b + total l). by rewrite E2, IH1.
  - cbn [tot_ok]. rewrite E2, E4, IH1. tauto.
  - unfold own_data. rewrite !Forall_cons. cbn. rewrite E5, E6. tauto.
  - cbn. by rewrite IH4.
  - intros d. rewrite !contents_cons, IH5. unfold node_bytes. cbn. by rewrite E2, E3.
  - rewrite !addrs_cons, IH6. unfold node_addrs. cbn. by rewrite E2, E3.
Qed.

Lemma upto_refs_trans (l1 l2 l3 : list (Z * pbuf)) :
  Forall2 (λ x y, y = (x.1, with_ref x.2 (p_ref y.2))) l1 l2 -> Forall2 (λ x y, y = (x.1, with_ref x.2 (p_ref y.2))) l2 l3 ->
  Forall2 (λ x y, y = (x.1, with_ref x.2 (p_ref y.2))) l1 l3.
Proof.
  intros H1. revert l3. induction H1 as [|[a1 b1] [a2 b2] l1 l2 E1 _ IH]; intros l3 H2; inversion_clear H2 as [|? [a3 b3] ? ? E2]; constructor; auto.
  cbn in *. injection E1 as -> E1. injection E2 as -> E2. f_equal. rewrite E2, E1. by destruct b1.
Qed.

Lemma same_packet_trans (s1 s2 s3 : pst) q l1 l2 l3 : same_packet s1 s2 q l1 l2 -> same_packet s2 s3 q l2 l3 -> same_packet s1 s3 q l1 l3.
Proof. intros (_ & F1 & E1) (Hc & F2 & E2). split_and!; [done|by eapply upto_refs_trans|by rewrite E2]. Qed.

(** pbuf_free of another pointer keeps a packet that is still held. *)
Lemma free_keeps (s s' : pst) B ext q l :
  pbufs s !! NULL = None -> pbuf_inv s' B ext -> only_refs (pbufs s) (pbufs s') -> data s' = data s -> chain s q l -> (0 < ext q)%nat -> q <> NULL ->
  exists l', same_packet s s' q l l'.
Proof.
  intros Hnull HI Ho Hd [Hs Ht] He Hq.
  assert (Hseg : is_Some (pbufs s' !! q) -> exists l', seg (pbufs s') q l' NULL /\ Forall2 (λ x y, y = (x.1, with_ref x.2 (p_ref y.2))) l l').
  { clear Ht He Hq. revert q Hs. induction l as [|[a b] l IH]; intros q Hs [b' Hb'].
    - cbn in Hs. subst q. by rewrite (inv_not_null _ _ _ HI) in Hb'.
    - destruct Hs as (-> & Hb & Hs). destruct (Ho _ _ Hb') as (c & Hc & E). rewrite Hb in Hc. injection Hc as <-.
      assert (En : p_next b' = p_next b) by (rewrite E; by destruct b). destruct (decide (p_next b = NULL)) as [Hn|Hn].
      + assert (l = []) as ->. { destruct l as [|[x y] l]; [done|]. destruct Hs as (<- & Hx & _). rewrite Hn in Hx.
          congruence. }
        exists [(a, b')]. split; [split_and!; [done|done|cbn; congruence]|by repeat constructor; cbn; f_equal].
      + destruct (IH _ Hs) as (l' & Hs' & HF). { rewrite <- En. apply (inv_next _ _ _ HI _ _ Hb'). by rewrite En. }
        exists ((a, b') :: l'). split; [cbn; by rewrite En|]. constructor; [by cbn; f_equal|done]. }
  destruct (Hseg (inv_ext _ _ _ HI q Hq He)) as (l' & Hs' & HF). exists l'. destruct (upto_refs_tot _ _ HF) as (_ & Ht' & _ & _ & Hc & _).
  split_and!; [split; auto|done|by rewrite Hd].
Qed.

(** A change of another structure, or of bytes that are not the packet's. *)
Lemma store_keeps (s s' : pst) q l x b :
  chain s q l -> pbufs s' = <[x := b]> (pbufs s) -> x ∉ l.*1 -> (forall y, y ∈ addrs l -> byte (data s') y = byte (data s) y) ->
  same_packet s s' q l l.
Proof.
  intros [Hs Ht] E Hx Hd. split_and!; [split; [rewrite E; by apply seg_insert|done]|apply same_packet_refl|by apply contents_frame].
Qed.


(** ** Lemmas: one fragment *)

(** The block of a pbuf is apart from the data of the others. *)
Lemma block_apart (s : pst) B ext l q k y :
  pbuf_inv s B ext -> (forall a b, (a, b) ∈ l -> pbufs s !! a = Some b) -> own_data l -> q ∉ l.*1 -> B !! q = Some k ->
  q <= y < q + block_size k -> y ∉ addrs l.
Proof.
  intros HI Hl Ho Hq Hk Hy Hin. apply elem_of_addrs in Hin as ([a b] & Ha & Hin). pose proof (proj1 (Forall_forall _ _) Ho _ Ha) as [? ?].
  destruct (own_data_block _ _ _ _ _ _ HI (Hl _ _ Ha) ltac:(done) ltac:(done) Hin) as (k' & Hk' & Hr).
  assert (a <> q) by (intros ->; apply Hq, list_elem_of_fmap; by exists (q, b)).
  destruct (mem_holds_disjoint _ _ _ _ _ _ (inv_holds _ _ _ HI) Hk Hk'); [done|lia|lia].
Qed.

(** The pbuf for a fragment: allocated, with the data of the fragment in it. *)
Lemma frag_data_spec (s : pst) B ext p l fragsize poff :
  pbuf_inv s B ext -> chain s p l -> own_data l -> l <> [] -> is_u16 fragsize -> is_u16 poff -> fragsize + 20 < 65536 ->
  poff + fragsize <= total l ->
  (exists st, pbuf_alloc s PBUF_IP fragsize PBUF_RAM = Ret (NULL, with_pmem s st) /\ pbuf_inv (with_pmem s st) B ext /\ refused (with_pmem s st) B ext fragsize)
  \/ exists q st k x, let b := Pbuf NULL x fragsize fragsize (u8 PBUF_RAM) 0 1 NETIF_NO_INDEX in
       let s1 := set_pbuf (with_pmem s st) q b in
       let xs := take (Z.to_nat fragsize) (drop (Z.to_nat poff) (contents (data s) l)) in
       let s2 := with_data s1 (write_bytes (data s) x xs) in
       pbuf_alloc s PBUF_IP fragsize PBUF_RAM = Ret (q, s1) /\ q <> NULL /\ (q ∉ l.*1)
       /\ pbuf_copy_partial s1 p x fragsize poff = Ret (fragsize, s2)
       /\ pbuf_inv s2 (<[q := BHeap k]> B) (ext_add ext q) /\ chain s2 q [(q, b)] /\ headroom q b [] 20
       /\ contents (data s2) [(q, b)] = xs /\ same_packet s s2 p l l
       /\ (forall y, q <= y < x + fragsize -> y ∉ addrs l).
Proof.
  intros HI Hc Ho Hl Hf Hp Hf20 Hbound.
  assert (Hlay : 0 <= PBUF_IP <= PBUF_TRANSPORT) by (pose proof hlen_range; unfold PBUF_IP, PBUF_TRANSPORT, PBUF_TRANSPORT_HLEN, PBUF_IP_HLEN in *; lia).
  destruct (alloc_ram_one s B ext PBUF_IP fragsize HI Hlay Hf) as [(st & Hno & E & HI')|(q & st & k & x & E & Hx & Hq & Hnew & HI')];
    [left; exists st; split; [done|]; split; [done|]; exists (pmem s); split; [by destruct s|done]|right].
  exists q, st, k, x. set (b := Pbuf NULL x _ _ _ _ _ _) in *. intros b' s1 xs s2. change (set_pbuf (with_pmem s st) q b) with s1 in E, HI'.
  assert (Hnin : q ∉ l.*1).
  { intros Hin. apply list_elem_of_fmap in Hin as ([a c] & -> & Hin). pose proof (seg_lookup _ _ _ _ _ _ (proj1 Hc) Hin) as Hx'. cbn in Hnew. congruence. }
  assert (Hroom : q + SIZEOF_STRUCT_PBUF <= x - 20 /\ q <= x).
  { pose proof hlen_range as (? & ? & ? & ?). destruct (layer_facts _ Hlay) as (? & _). destruct sizeof_pbuf_facts as (? & _). unfold PBUF_IP in *. lia. }
  assert (Hs1 : same_packet s s1 p l l) by (by apply (store_keeps s s1 p l q b)).
  destruct (inv_node _ _ _ HI' q b (BHeap k)) as (_ & (_ & Hblk) & _); [apply lookup_insert_eq|apply lookup_insert_eq|]. cbn [p_payload p_len b block_size] in Hblk.
  assert (Hap : forall y, q <= y < x + fragsize -> y ∉ addrs l).
  { intros y Hy. apply (block_apart s1 _ _ l q (BHeap k) y HI'); [|done|done|apply lookup_insert_eq|cbn; lia].
    intros a c Hin. by eapply seg_lookup; [apply Hs1|]. }
  destruct (copy_out_spec s1 _ _ p l x fragsize poff HI') as (s2' & Ecp & Es2 & Hrd & Hcont); try done; [apply Hs1|unfold NULL; pose proof sizeof_pbuf_facts; destruct (mem_holds_range _ _ _ _ (inv_holds _ _ _ HI') (lookup_insert_eq B q (BHeap k))); lia| |].
  { intros y Hy. apply Hap. apply elem_of_range in Hy. lia. }
  change (data s1) with (data s) in *. fold xs in Ecp, Es2, Hrd. subst s2'.
  assert (Hlen : length xs = Z.to_nat fragsize).
  { unfold xs. rewrite length_take, length_drop, contents_addrs, length_fmap. pose proof (addrs_length _ (proj2 Hc)). unfold_c. lia. }
  rewrite Hlen, Z2Nat.id in Ecp by (unfold_c; lia). split_and!; try done.
  - by apply inv_data.
  - split; [split_and!; [done|apply lookup_insert_eq|done]|]. cbn. split_and!; try done; lia.
  - split_and!; [done|cbn; lia|cbn; lia|]. intros y _ Hy. by apply not_elem_of_nil in Hy.
  - rewrite contents_cons. change (contents (data s2) []) with (@nil Z). rewrite app_nil_r. change (read_bytes (data s2) x (Z.to_nat fragsize) = xs). by rewrite <- Hlen.
  - split_and!; [apply Hs1|apply Hs1|exact Hcont].
Qed.

(** The packet [q] is handed to the interface and freed; the packet [p] stays. *)
Lemma send_and_free n B ext q rb nif dest p l :
  net_inv n B (ext_add ext q) -> chain (n_ps n) q [(q, rb)] -> p_ref rb = 1 -> q <> NULL ->
  chain (n_ps n) p l -> own_data l -> (0 < ext p)%nat -> p <> NULL -> q ∉ l.*1 ->
  exists e c n' s' B' l', netif_output n nif q dest = Ret (e, n') /\ pbuf_free (n_ps n') q = Ret (c, s')
    /\ net_inv (with_ps n' s') B' ext /\ ip_id n' = ip_id n /\ same_packet (n_ps n) s' p l l'
    /\ link_log (n_lk n') = link_log (n_lk n) ++ [(netif_num nif, dest, contents (data (n_ps n)) [(q, rb)])].
Proof.
  intros HI Hcq Hr Hq Hc Ho He Hp Hnin. assert (He' : forall a, (ext a <= ext_add ext q a)%nat) by (intros a; unfold ext_add; case_decide; lia).
  destruct (netif_output_spec n B (ext_add ext q) nif q rb [] dest HI Hcq) as (e & n' & B' & E & HI' & Hid & Hlog & Hfr); [|done|].
  { unfold ext_add. rewrite decide_True by done. lia. }
  destruct (Hfr p l Hc) as (l1 & Hs1); [specialize (He' p); lia|done| |].
  { intros a Ha Ha'. apply list_elem_of_singleton in Ha'. cbn in Ha'. by subst a. }
  destruct (free_inv (n_ps n') B' (λ a, (ext a + link_holds (n_lk n') a)%nat) q) as (c & s' & B2 & Ef & HI2 & _ & Hd & Hor); [|done|].
  { eapply inv_ext_eq; [|exact HI']. intros a _. unfold ext_add. case_decide; lia. }
  destruct (free_keeps (n_ps n') s' B2 _ p l1 (inv_not_null _ _ _ HI') HI2 Hor Hd) as (l2 & Hs2); [apply Hs1|lia|done|].
  exists e, c, n', s', B2, l2. split_and!; try done. by eapply same_packet_trans.
Qed.

Lemma land_offmask x : Z.land IP_OFFMASK x = x mod 8192.
Proof. unfold IP_OFFMASK. rewrite Z.land_comm. change 0x1fff with (Z.ones 13). by rewrite Z.land_ones. Qed.

Lemma lor_mf x : 0 <= x < 8192 -> Z.lor x IP_MF = x + 8192.
Proof. intros Hx. unfold IP_MF. change 0x2000 with (1 * 2 ^ 13). apply lor_disjoint_mul; lia. Qed.

(** One round of the loop: either there is no memory, or one more fragment goes out. *)
Lemma frag_step fuel n B ext p b l nif dest nfb mf_set left ofo poff addr :
  net_inv n B ext -> chain (n_ps n) p ((p, b) :: l) -> own_data ((p, b) :: l) -> (0 < ext p)%nat ->
  let C := contents (data (n_ps n)) ((p, b) :: l) in
  20 <= p_len b -> Forall is_u8 (take 20 C) -> 0 < nfb -> 20 + 8 * nfb < 65536 -> 0 < left -> is_u16 ofo -> 0 <= poff ->
  poff + left = total ((p, b) :: l) ->
  let size := Z.min left (8 * nfb) in
  let off := ofo mod 8192 + if (netif_mtu nif - 20 <? left) || negb (mf_set =? 0) then 8192 else 0 in
  let run := frag_loop (S fuel) n nif dest p (p_payload b) nfb mf_set left ofo poff in
  (exists n' B', run = Ret (ERR_MEM, n') /\ net_inv n' B' ext /\ ip_id n' = ip_id n /\ link_log (n_lk n') = link_log (n_lk n)
     /\ refused (n_ps n') B' (λ a, (ext a + link_holds (n_lk n') a)%nat) size)
  \/ exists n' B' l' chk,
       run = frag_loop fuel n' nif dest p (p_payload b) nfb mf_set (left - size) (u16 (ofo + nfb)) (poff + size)
       /\ net_inv n' B' ext /\ ip_id n' = ip_id n /\ same_packet (n_ps n) (n_ps n') p ((p, b) :: l) l'
       /\ let hdr := frag_header (take 20 C) (size + 20) off chk in
          link_log (n_lk n') = link_log (n_lk n) ++ [(netif_num nif, dest, hdr ++ take (Z.to_nat size) (drop (Z.to_nat poff) C))]
          /\ inet_chksum addr hdr = 0.
Proof.
  intros HI Hc Ho He C Hlen Hh Hnfb Hsz Hleft Hofo Hpoff Htot size off run.
  pose proof (chain_total _ _ _ Hc) as HT. pose proof (chain_cons _ _ _ _ _ Hc) as (_ & Hb & _).
  unfold run. cbn [frag_loop]. rewrite (proj2 (Z.eqb_neq left 0)) by lia. rewrite (u16_small (nfb * 8)) by lia.
  replace (Z.min left (nfb * 8)) with size by (unfold size; f_equal; lia).
  destruct (frag_data_spec (n_ps n) B _ p ((p, b) :: l) size poff HI Hc Ho ltac:(done)) as [(st & E & HI' & Hno)|(q & st & k & x & H)];
    [unfold_c; lia..| |].
  - left. rewrite E. cbn [mbind outcome_bind]. rewrite Z.eqb_refl. by exists (with_ps n (with_pmem (n_ps n) st)), B.
  - right. cbn zeta in H. set (rb := Pbuf NULL x _ _ _ _ _ _) in *. destruct H as (E & Hq & Hnin & Ecp & HI2 & Hcq & Hroom & Hdat & Hsame & Hap).
    set (s1 := set_pbuf (with_pmem (n_ps n) st) q rb) in *. set (s2 := with_data s1 _) in *.
    rewrite E. cbn [mbind outcome_bind]. rewrite (proj2 (Z.eqb_neq q NULL)) by done.
    rewrite (deref_ok s1 q rb) by apply lookup_insert_eq. cbn [mbind outcome_bind]. rewrite LWIP_ASSERT_ok by (cbn; by rewrite Z.eqb_refl).
    cbn [mbind outcome_bind]. change (p_payload rb) with x. rewrite Ecp. cbn [mbind outcome_bind].
    destruct (prepend_spec s2 _ _ q rb [] 20 HI2 Hcq ltac:(lia) Hroom) as [Eh Hpre]. unfold IP_HLEN. rewrite Eh. cbn [mbind outcome_bind negb Z.eqb].
    rewrite (deref_ok (set_pbuf s2 q (grown rb 20)) q (grown rb 20)) by apply lookup_insert_eq. cbn [mbind outcome_bind].
    rewrite <- Z.ltb_antisym, land_offmask.
    replace (if (netif_mtu nif - 20 <? left) || negb (mf_set =? 0) then Z.lor (ofo mod 8192) IP_MF else ofo mod 8192) with off
      by (unfold off; case_if; [symmetry; apply lor_mf; Z.div_mod_to_equations; lia|lia]).
    rewrite (u16_small (size + 20)) by (unfold_c; lia). rewrite (u16_small (left - size)), (u16_small (poff + size)) by (unfold_c; lia).
    change (p_payload (grown rb 20)) with (x - 20). change (data (set_pbuf s2 q (grown rb 20))) with (data s2). cbv zeta.
    assert (Hsrc : read_bytes (data s2) (p_payload b) 20 = take 20 C).
    { destruct Hsame as (_ & _ & Hcont). fold C in Hcont. rewrite <- Hcont, contents_cons. unfold node_bytes. cbn [snd].
      rewrite take_app_le by (rewrite read_bytes_length; lia).
      rewrite <- (Z.add_0_r (p_payload b)) at 1. rewrite (read_part _ _ 0 20 (Z.to_nat (p_len b))) by lia. done. }
    destruct (frag_header_spec (data s2) (x - 20) (p_payload b) (take 20 C) (size + 20) off addr Hsrc Hh) as (chk & Hrd & Hv & Hfr).
    { unfold_c; lia. } { unfold off, is_u16. case_if; Z.div_mod_to_equations; lia. }
    set (m1 := IPH_CHKSUM_SET (IPH_LEN_SET _ _ _) _ 0) in *. set (m2 := IPH_CHKSUM_SET m1 _ _) in *.
    change (Z.to_nat 20) with 20%nat. fold m2.
    assert (Hm : forall y, ~ (x - 20 <= y < x) -> byte m2 y = byte (data s2) y) by (intros y Hy; apply Hfr; lia).
    destruct (Hpre m2 Hm) as (Hcq2 & HI3 & Hcont2). set (s3 := with_data (set_pbuf s2 q (grown rb 20)) m2) in *.
    assert (Hsame3 : same_packet s2 s3 p ((p, b) :: l) ((p, b) :: l)).
    { eapply store_keeps; [apply Hsame|done|done|]. intros y Hy. apply Hm. intros Hin. apply (Hap y); [|done]. destruct Hroom as (_ & Hroom & _).
      destruct sizeof_pbuf_facts as (? & _). cbn in Hroom. unfold size. lia. }
    destruct (send_and_free (with_ps n s3) (<[q := BHeap k]> B) ext q (grown rb 20) nif dest p ((p, b) :: l)) as (e & c & n' & s' & B' & l' & Eo & Ef & HIo & Hid & Hs' & Hlog);
      try done; [|apply Hsame3|by intros ->; rewrite (inv_not_null _ _ _ HI) in Hb|].
    { eapply inv_ext_eq; [|exact HI3]. intros a _. unfold ext_add. cbn. case_decide; lia. }
    rewrite Eo. cbn [mbind outcome_bind]. rewrite Ef. cbn [mbind outcome_bind].
    exists (with_ps n' s'), B', l', chk. split_and!; try done.
    + eapply same_packet_trans; [|exact Hs']. by eapply same_packet_trans.
    + cbn [with_ps n_lk]. rewrite Hlog. cbn [with_ps n_lk n_ps]. do 3 f_equal. change (data s3) with m2. rewrite Hcont2.
      change (p_payload rb - 20) with (x - 20). change (Z.to_nat 20) with 20%nat. by rewrite Hrd, Hdat.
Qed.

(** ** Lemmas: the loop *)

Lemma same_packet_head (s s' : pst) p b l l' :
  same_packet s s' p ((p, b) :: l) l' -> exists r l2, l' = (p, with_ref b r) :: l2.
Proof. intros (_ & HF & _). inversion_clear HF as [|? [a c] ? l2 E]. cbn in E. injection E as -> ->. by exists (p_ref (with_ref b (p_ref c))), l2. Qed.

(** The number of fragments. *)
Definition frag_count (L nfb : Z) : Z := (L + 8 * nfb - 1) / (8 * nfb).

Lemma frag_header_length h len off chk : length h = 20%nat -> length (frag_header h len off chk) = 20%nat.
Proof. intros HL. by explode 20 h HL. Qed.

(** What one round sends is the fragment of the specification. *)
Lemma fragment_round C nfb ofo mf (i : nat) chk mtu :
  let P := drop 20 C in
  let rest := length P - i * (8 * nfb) in
  0 < rest -> 0 < nfb ->
  frag_header (take 20 C) (Z.min rest (8 * nfb) + 20) (u16 (ofo + i * nfb) mod 8192 + if (mtu - 20 <? rest) || mf then 8192 else 0) chk
    ++ take (Z.to_nat (Z.min rest (8 * nfb))) (drop (Z.to_nat (20 + i * (8 * nfb))) C)
  = fragment_out (take 20 C) P nfb ofo mf (mtu - 20) i chk.
Proof.
  intros P rest Hr Hn. unfold fragment_out. set (size := Z.to_nat (8 * nfb)).
  assert (Hd : take (Z.to_nat (Z.min rest (8 * nfb))) (drop (Z.to_nat (20 + i * (8 * nfb))) C) = take size (drop (i * size) P)).
  { unfold P. rewrite drop_drop. replace (Z.to_nat (20 + i * (8 * nfb))) with (20 + i * size)%nat by (unfold size; lia).
    destruct (decide (rest <= 8 * nfb)); [|f_equal; unfold size; lia].
    rewrite !take_ge; [done|rewrite length_drop..]; unfold rest, P in *; rewrite length_drop in *; unfold size; lia. }
  rewrite Hd. f_equal. f_equal.
  - rewrite <- Hd, length_take, length_drop. unfold rest, P in *. rewrite length_drop in *. lia.
  - f_equal; [unfold u16; Z.div_mod_to_equations; lia|]. by rewrite orb_comm.
Qed.

Lemma frag_loop_0 fuel (n : net (Lk := Lk)) nif dest p h nfb mf_set ofo poff : frag_loop fuel n nif dest p h nfb mf_set 0 ofo poff = Ret (ERR_OK, n).
Proof. by destruct fuel. Qed.

Lemma frag_loop_spec (fuel : nat) n B ext p b l nif dest nfb mf_set ofo addr C (i : nat) :
  net_inv n B ext -> chain (n_ps n) p ((p, b) :: l) -> own_data ((p, b) :: l) -> (0 < ext p)%nat ->
  contents (data (n_ps n)) ((p, b) :: l) = C ->
  20 <= p_len b -> Forall is_u8 (take 20 C) -> 0 < nfb -> 20 + 8 * nfb <= netif_mtu nif -> netif_mtu nif < 65536 -> is_u16 ofo ->
  let P := drop 20 C in
  let rest := Z.max 0 (length P - i * (8 * nfb)) in
  rest <= fuel -> i <= frag_count (length P) nfb ->
  exists e n' B' fs, frag_loop fuel n nif dest p (p_payload b) nfb mf_set rest (u16 (ofo + i * nfb)) (20 + Z.min (length P) (i * (8 * nfb))) = Ret (e, n')
    /\ net_inv n' B' ext /\ ip_id n' = ip_id n
    /\ link_log (n_lk n') = link_log (n_lk n) ++ map (λ f, (netif_num nif, dest, f)) fs
    /\ (forall (j : nat) f, fs !! j = Some f -> exists chk, f = fragment_out (take 20 C) P nfb ofo (negb (mf_set =? 0)) (netif_mtu nif - 20) (i + j) chk
          /\ inet_chksum addr (take 20 f) = 0)
    /\ (e = ERR_OK /\ i + length fs = frag_count (length P) nfb
        \/ e = ERR_MEM /\ i + length fs < frag_count (length P) nfb
           /\ refused (n_ps n') B' (λ a, (ext a + link_holds (n_lk n') a)%nat) (Z.min (length P - (i + length fs) * (8 * nfb)) (8 * nfb))).
Proof.
  revert n B b l i. induction fuel as [|fuel IH]; intros n B b l i HI Hc Ho He HC Hlen Hh Hnfb Hmtu Hm Hofo P rest Hf Hi;
    (destruct (decide (rest = 0)) as [Hz|Hz];
     [rewrite Hz, frag_loop_0; exists ERR_OK, n, B, []; rewrite app_nil_r; split_and!; try done; left; split; [done|]; cbn;
      assert (frag_count (length P) nfb <= i); [|lia]; unfold frag_count; apply Z.lt_succ_r, Z.div_lt_upper_bound; lia|]);
    [lia|].
  - assert (HP : i * (8 * nfb) < length P) by lia. assert (Hcnt : i + 1 <= frag_count (length P) nfb).
    { unfold frag_count. apply Z.div_le_lower_bound; lia. }
    assert (HlC : Z.of_nat (length C) = total ((p, b) :: l)) by (rewrite <- HC, contents_addrs, length_fmap; exact (addrs_length _ (proj2 Hc))).
    assert (HlP : Z.of_nat (length P) = total ((p, b) :: l) - 20).
    { unfold P. rewrite length_drop. pose proof (chain_cons _ _ _ _ _ Hc) as (_ & _ & _ & _ & Ht & _ & Htl).
      change (total ((p, b) :: l)) with (p_len b + total l) in *. lia. }
    destruct (frag_step fuel n B ext p b l nif dest nfb mf_set rest (u16 (ofo + i * nfb)) (20 + Z.min (length P) (i * (8 * nfb))) addr)
      as [(n' & B' & E & HI' & Hid & Hlog & Hno)|(n' & B' & l' & chk & E & HI' & Hid & Hsame & Hlog & Hv)]; try done; try lia.
    + by rewrite HC.
    + apply u16_range.
    + exists ERR_MEM, n', B', []. rewrite app_nil_r. rewrite E. split_and!; try done. right. cbn. split; [done|]. split; [lia|].
      replace (length P - (i + 0%nat) * (8 * nfb)) with rest by lia. exact Hno.
    + rewrite E. destruct (same_packet_head _ _ _ _ _ _ Hsame) as (r & l2 & ->).
      destruct Hsame as (Hc' & HF & HC'). rewrite HC in HC'. destruct (upto_refs_tot _ _ HF) as (_ & _ & Ho' & _).
      destruct (IH n' B' (with_ref b r) l2 (S i) HI' Hc' (Ho' Ho) He HC' Hlen Hh Hnfb Hmtu Hm Hofo) as (e & n2 & B2 & fs & E2 & HI2 & Hid2 & Hlog2 & Hfs & Hend).
      { fold P. lia. } { fold P. lia. } fold P in E2, Hfs, Hend. cbn [with_ref p_payload] in E2.
      exists e, n2, B2, (fragment_out (take 20 C) P nfb ofo (negb (mf_set =? 0)) (netif_mtu nif - 20) i chk :: fs). split_and!; try done; try congruence.
      * rewrite <- E2. f_equal; [lia| |lia]. unfold u16. Z.div_mod_to_equations. lia.
      * rewrite Hlog2, Hlog, <- app_assoc. cbn [app map]. do 3 f_equal. rewrite HC.
        replace rest with (length P - i * (8 * nfb)) by lia. rewrite (Z.min_r (length P) (i * (8 * nfb))) by lia. apply fragment_round; [fold P; lia|done].
      * intros [|j] f Hf'; cbn in Hf'; [injection Hf' as <-|]; [|destruct (Hfs j f Hf') as (c & Ec); exists c; by rewrite Nat.add_succ_r].
        exists chk. rewrite Nat.add_0_r. split; [done|]. rewrite <- (fragment_round C nfb ofo _ i chk (netif_mtu nif)) by (done || (fold P; lia)). fold P.
        replace (length P - i * (8 * nfb)) with rest by lia. rewrite take_app_length'; [by rewrite HC in Hv|].
        symmetry. apply frag_header_length. rewrite length_take. lia.
      * cbn [length]. destruct Hend as [[-> ?]|(-> & ? & Hno)]; [left; split; [done|lia]|right; split; [done|split; [lia|]]].
        replace (i + S (length fs))%Z with (S i + length fs)%Z by lia. exact Hno.
Qed.

(** The data of the fragments, one after the other. *)
Lemma fragments_concat h P nfb ofo mf room fs (i : nat) :
  length h = 20%nat -> (forall (j : nat) f, fs !! j = Some f -> exists chk, f = fragment_out h P nfb ofo mf room (i + j) chk) ->
  let size := Z.to_nat (8 * nfb) in
  concat (drop 20 <$> fs) = take (length fs * size) (drop (i * size) P).
Proof.
  intros Hh Hfs size. revert i Hfs. induction fs as [|f fs IH]; intros i Hfs; [done|]. cbn [fmap list_fmap concat length].
  destruct (Hfs 0%nat f eq_refl) as (chk & ->). rewrite Nat.add_0_r. unfold fragment_out at 1. fold size.
  rewrite drop_app_length' by (by rewrite frag_header_length).
  rewrite (IH (S i)) by (intros j f Hf; rewrite Nat.add_succ_l, <- Nat.add_succ_r; by apply Hfs).
  replace (S i * size)%nat with (i * size + size)%nat by lia. rewrite <- drop_drop. apply take_take_drop.
Qed.

(** What ip4_frag sends, for every MTU. *)
Lemma frag_any n B ext p b l nif dest addr :
  net_inv n B ext -> chain (n_ps n) p ((p, b) :: l) -> own_data ((p, b) :: l) -> (0 < ext p)%nat ->
  let C := contents (data (n_ps n)) ((p, b) :: l) in
  20 <= p_len b -> Forall is_u8 (take 20 C) -> IPH_HL_BYTES (data (n_ps n)) (p_payload b) = 20 ->
  28 <= netif_mtu nif < 65536 ->
  let nfb := (netif_mtu nif - 20) / 8 in
  let field := lwip_htons (IPH_OFFSET (data (n_ps n)) (p_payload b)) in
  let mf := negb (Z.land field IP_MF =? 0) in
  exists e n' B' fs, ip4_frag n p nif dest = Ret (e, n') /\ net_inv n' B' ext
    /\ link_log (n_lk n') = link_log (n_lk n) ++ map (λ f, (netif_num nif, dest, f)) fs
    /\ (forall (i : nat) f, fs !! i = Some f ->
          (exists chk, f = fragment_out (take 20 C) (drop 20 C) nfb (field mod 8192) mf (netif_mtu nif - 20) i chk)
          /\ inet_chksum addr (take 20 f) = 0 /\ length f <= netif_mtu nif)
    /\ (e = ERR_OK /\ length fs = frag_count (p_tot_len b - 20) nfb :> Z /\ concat (drop 20 <$> fs) = drop 20 C
        \/ e = ERR_MEM /\ length fs < frag_count (p_tot_len b - 20) nfb
           /\ refused (n_ps n') B' (λ a, (ext a + link_holds (n_lk n') a)%nat) (Z.min (p_tot_len b - 20 - length fs * (8 * nfb)) (8 * nfb))).
Proof.
  intros HI Hc Ho He C Hlen Hh Hhl Hmtu nfb field mf. pose proof (chain_cons _ _ _ _ _ Hc) as (_ & Hb & _ & _ & Ht & Hut & Htl).
  assert (HlC : Z.of_nat (length C) = p_tot_len b) by (unfold C; rewrite contents_addrs, length_fmap, Ht; exact (addrs_length _ (proj2 Hc))).
  assert (HlP : Z.of_nat (length (drop 20 C)) = p_tot_len b - 20) by (rewrite length_drop; lia).
  unfold ip4_frag. rewrite (deref_ok _ _ _ Hb). cbn [mbind outcome_bind]. rewrite Hhl. cbn [negb Z.eqb].
  change (negb (20 =? IP_HLEN)) with false. cbv iota. rewrite LWIP_ERROR_ok by (by apply Z.leb_le). cbn [mbind outcome_bind].
  rewrite Z.quot_div_nonneg by (unfold IP_HLEN; lia). change (netif_mtu nif - IP_HLEN) with (netif_mtu nif - 20). fold nfb.
  assert (Hn : 0 < nfb /\ 20 + 8 * nfb <= netif_mtu nif) by (unfold nfb; Z.div_mod_to_equations; lia). destruct Hn as [Hn Hm].
  rewrite (u16_small nfb), (u16_small (p_tot_len b - IP_HLEN)) by (unfold_c; unfold IP_HLEN; lia). fold field.
  replace (Z.land field IP_OFFMASK) with (field mod 8192) by (rewrite Z.land_comm; symmetry; apply land_offmask).
  destruct (frag_loop_spec (Z.to_nat (p_tot_len b - IP_HLEN)) n B ext p b l nif dest nfb (Z.land field IP_MF) (field mod 8192) addr C 0)
    as (e & n' & B' & fs & E & HI' & Hid & Hlog & Hfs & Hend); try done; try lia.
  { unfold is_u16. Z.div_mod_to_equations. lia. } { rewrite HlP. unfold IP_HLEN. lia. }
  { unfold frag_count. apply Z.div_pos; lia. }
  rewrite HlP, Z.mul_0_l, Z.sub_0_r, Z.max_r, Z.mul_0_l, Z.add_0_r, Z.min_r, u16_small in E by (unfold is_u16; Z.div_mod_to_equations; lia).
  exists e, n', B', fs. split_and!; try done.
  - intros i f Hf. destruct (Hfs i f Hf) as (chk & -> & Hv). split_and!; [by exists chk|done|].
    unfold fragment_out. rewrite length_app, frag_header_length by (rewrite length_take; lia). rewrite length_take. lia.
  - rewrite HlP in Hend. destruct Hend as [[-> Hk]|(-> & Hk & Hno)]; [left|right; split; [done|split; [lia|exact Hno]]]. split_and!; [done|lia|].
    rewrite (fragments_concat (take 20 C) (drop 20 C) nfb (field mod 8192) mf (netif_mtu nif - 20) fs 0).
    + rewrite drop_0, take_ge; [done|]. assert (p_tot_len b - 20 <= length fs * (8 * nfb)); [|lia].
      unfold frag_count in Hk. replace (Z.of_nat (length fs)) with ((p_tot_len b - 20 + 8 * nfb - 1) / (8 * nfb)) by lia.
      pose proof (Z.mul_div_le (p_tot_len b - 20 + 8 * nfb - 1) (8 * nfb)). pose proof (Z.mod_pos_bound (p_tot_len b - 20 + 8 * nfb - 1) (8 * nfb)).
      pose proof (Z.div_mod (p_tot_len b - 20 + 8 * nfb - 1) (8 * nfb)). lia.
    + rewrite length_take. lia.
    + intros j f Hf. destruct (Hfs j f Hf) as (chk & -> & _). by exists chk.
Qed.

(** When the fragments fill the MTU they are those of RFC 791. *)
Lemma frag_spec n B ext p b l nif dest addr :
  net_inv n B ext -> chain (n_ps n) p ((p, b) :: l) -> own_data ((p, b) :: l) -> (0 < ext p)%nat ->
  let C := contents (data (n_ps n)) ((p, b) :: l) in
  20 <= p_len b -> Forall is_u8 (take 20 C) -> IPH_HL_BYTES (data (n_ps n)) (p_payload b) = 20 ->
  28 <= netif_mtu nif < 65536 -> (netif_mtu nif - 20) mod 8 = 0 ->
  let nfb := (netif_mtu nif - 20) / 8 in
  let field := lwip_htons (IPH_OFFSET (data (n_ps n)) (p_payload b)) in
  let mf := negb (Z.land field IP_MF =? 0) in
  exists e n' B' fs, ip4_frag n p nif dest = Ret (e, n') /\ net_inv n' B' ext
    /\ link_log (n_lk n') = link_log (n_lk n) ++ map (λ f, (netif_num nif, dest, f)) fs
    /\ (forall (i : nat) f, fs !! i = Some f ->
          (exists chk, f = fragment (take 20 C) (drop 20 C) nfb (field mod 8192) mf i chk)
          /\ inet_chksum addr (take 20 f) = 0 /\ length f <= netif_mtu nif)
    /\ (e = ERR_OK /\ length fs = frag_count (p_tot_len b - 20) nfb :> Z /\ concat (drop 20 <$> fs) = drop 20 C
        \/ e = ERR_MEM /\ length fs < frag_count (p_tot_len b - 20) nfb
           /\ refused (n_ps n') B' (λ a, (ext a + link_holds (n_lk n') a)%nat) (Z.min (p_tot_len b - 20 - length fs * (8 * nfb)) (8 * nfb))).
Proof.
  intros HI Hc Ho He C Hlen Hh Hhl Hmtu H8 nfb field mf.
  destruct (frag_any n B ext p b l nif dest addr HI Hc Ho He Hlen Hh Hhl Hmtu) as (e & n' & B' & fs & E & HI' & Hlog & Hfs & Hend).
  exists e, n', B', fs. split; [exact E|]. split; [done|]. split; [done|]. split; [|exact Hend]. intros i f Hf. destruct (Hfs i f Hf) as [(chk & ->) Hrest]. split; [|exact Hrest].
  exists chk. apply fragment_out_full; unfold nfb; Z.div_mod_to_equations; lia.
Qed.

(** ** Properties *)

(** C4: ip4_frag, on a packet in its own memory with a header of 20 bytes, for an
    interface whose MTU (from 28) minus the header is a multiple of 8, sends the fragments of
    RFC 791 of the packet, in order: fragment [i] has the header of the packet with its
    own length, offset, "more fragments" flag and a valid checksum, carries the next
    MTU - 20 bytes at most, and none is longer than the MTU.  Either all are sent, the
    result is ERR_OK and their data is the data of the packet; or the heap refused the
    memory for the next one, the result is ERR_MEM and a proper prefix was sent.  No
    reference is lost. *)
Theorem ip4_frag_correct n B ext p b l nif dest addr :
  net_inv n B ext -> chain (n_ps n) p ((p, b) :: l) -> own_data ((p, b) :: l) -> (0 < ext p)%nat ->
  let C := contents (data (n_ps n)) ((p, b) :: l) in
  20 <= p_len b -> Forall is_u8 (take 20 C) -> IPH_HL_BYTES (data (n_ps n)) (p_payload b) = 20 ->
  28 <= netif_mtu nif < 65536 -> (netif_mtu nif - 20) mod 8 = 0 ->
  let nfb := (netif_mtu nif - 20) / 8 in
  let field := lwip_htons (IPH_OFFSET (data (n_ps n)) (p_payload b)) in
  let mf := negb (Z.land field IP_MF =? 0) in
  exists e n' B' fs, ip4_frag n p nif dest = Ret (e, n') /\ net_inv n' B' ext
    /\ link_log (n_lk n') = link_log (n_lk n) ++ map (λ f, (netif_num nif, dest, f)) fs
    /\ (forall (i : nat) f, fs !! i = Some f ->
          (exists chk, f = fragment (take 20 C) (drop 20 C) nfb (field mod 8192) mf i chk)
          /\ inet_chksum addr (take 20 f) = 0 /\ length f <= netif_mtu nif)
    /\ (e = ERR_OK /\ length fs = frag_count (p_tot_len b - 20) nfb :> Z /\ concat (drop 20 <$> fs) = drop 20 C
        \/ e = ERR_MEM /\ length fs < frag_count (p_tot_len b - 20) nfb
           /\ refused (n_ps n') B' (λ a, (ext a + link_holds (n_lk n') a)%nat) (Z.min (p_tot_len b - 20 - length fs * (8 * nfb)) (8 * nfb))).
Proof. apply frag_spec. Qed.

(** when the MTU minus the header is not a multiple of 8, ip4_frag recognises the last
    fragment by the MTU and not by the size of the fragments.  Whenever what is left of
    a whole datagram from fragment [i] on is longer than a fragment and fits the MTU, and
    the call succeeds, fragment [i] goes out without the "more fragments" flag although
    fragment [i + 1] follows it. *)
Theorem ip4_frag_lost_mf n B ext p b l nif dest n' (i : nat) :
  net_inv n B ext -> chain (n_ps n) p ((p, b) :: l) -> own_data ((p, b) :: l) -> (0 < ext p)%nat ->
  let C := contents (data (n_ps n)) ((p, b) :: l) in
  20 <= p_len b -> Forall is_u8 (take 20 C) -> IPH_HL_BYTES (data (n_ps n)) (p_payload b) = 20 ->
  28 <= netif_mtu nif < 65536 ->
  let nfb := (netif_mtu nif - 20) / 8 in
  lwip_htons (IPH_OFFSET (data (n_ps n)) (p_payload b)) = 0 ->
  8 * nfb < p_tot_len b - 20 - i * (8 * nfb) <= netif_mtu nif - 20 ->
  ip4_frag n p nif dest = Ret (ERR_OK, n') ->
  exists fs f f', link_log (n_lk n') = link_log (n_lk n) ++ map (λ f, (netif_num nif, dest, f)) fs
    /\ fs !! i = Some f /\ fs !! S i = Some f'
    /\ (exists chk, f = frag_header (take 20 C) (20 + 8 * nfb) ((i * nfb) mod 8192) chk ++ take (Z.to_nat (8 * nfb)) (drop (i * Z.to_nat (8 * nfb)) (drop 20 C)))
    /\ 20 < length f'.
Proof.
  intros HI Hc Ho He C Hlen Hh Hhl Hmtu nfb Hoff Hrest E.
  destruct (frag_any n B ext p b l nif dest 0 HI Hc Ho He Hlen Hh Hhl Hmtu) as (e & n2 & B' & fs & E2 & _ & Hlog & Hfs & Hend). rewrite E in E2. injection E2 as <- <-.
  fold C in Hfs. fold nfb in Hfs, Hend. destruct Hend as [(_ & Hk & _)|[? _]]; [|done]. assert (Hn : 0 < nfb) by (unfold nfb; Z.div_mod_to_equations; lia).
  assert (HlP : Z.of_nat (length (drop 20 C)) = p_tot_len b - 20).
  { pose proof (chain_cons _ _ _ _ _ Hc) as (_ & _ & _ & _ & Ht & _ & Htl). unfold C. rewrite length_drop, contents_addrs, length_fmap.
    pose proof (addrs_length _ (proj2 Hc)) as HA. change (total ((p, b) :: l)) with (p_len b + total l) in *. lia. }
  assert (Hcnt : i + 2 <= frag_count (p_tot_len b - 20) nfb) by (unfold frag_count; apply Z.div_le_lower_bound; lia).
  destruct (lookup_lt_is_Some_2 fs i) as [f Hf]; [lia|]. destruct (lookup_lt_is_Some_2 fs (S i)) as [f' Hf']; [lia|].
  exists fs, f, f'. split; [exact Hlog|]. split; [done|]. split; [done|]. destruct (Hfs i f Hf) as [(chk & ->) _], (Hfs (S i) f' Hf') as [(chk' & ->) _].
  assert (Hm : forall j : nat, Z.of_nat (j * Z.to_nat (8 * nfb)) = j * (8 * nfb)) by (intros j; rewrite Nat2Z.inj_mul, Z2Nat.id; lia).
  pose proof (Hm i) as Hmi. pose proof (Hm (S i)) as Hmj. rewrite Hoff. assert (HlC : length (take 20 C) = 20%nat) by (rewrite length_take; rewrite length_drop in HlP; lia). split.
  - exists chk. unfold fragment_out. f_equal. rewrite length_take, length_drop. rewrite Z.mod_0_l, Z.add_0_l by lia. change (Z.land 0 IP_MF) with 0. cbn [Z.eqb negb orb].
    destruct (Z.ltb_spec (netif_mtu nif - 20) (length (drop 20 C) - i * (8 * nfb))); [lia|]. rewrite Z.add_0_r. f_equal. lia.
  - unfold fragment_out. rewrite length_app, frag_header_length, length_take, length_drop by done. lia.
Qed.
End Frag.

(** ** Witnesses *)

(** The packet in RAM of PbufChain.v with an IP header in front of 80 bytes. *)
Definition iphdr0 : list Z := [0x45; 0; 0; 100; 0; 7; 0; 0; 64; 17; 0; 0; 192; 168; 1; 10; 192; 168; 1; 2].
Definition frag_ps : pstate := with_data ps2 (write_bytes ∅ (p2 + SIZEOF_STRUCT_PBUF + 54) iphdr0).
Definition frag_net : net (Lk := list (Z * Z * list Z)) := Net frag_ps [] 0.
Definition nif36 : netif := Netif 1 0x0a01a8c0 0x00ffffff 0x0101a8c0 0x27 [2; 0; 0; 0; 0; 1] 36 true.

Lemma frag_net_facts : exists B b, net_inv frag_net B (ext_add (ext_add no_ext p1) p2) /\ chain (n_ps frag_net) p2 [(p2, b)] /\ own_data [(p2, b)]
  /\ p_len b = 100 /\ p_tot_len b = 100 /\ IPH_HL_BYTES (data (n_ps frag_net)) (p_payload b) = 20 /\ IPH_OFFSET (data (n_ps frag_net)) (p_payload b) = 0
  /\ Forall is_u8 (take 20 (contents (data (n_ps frag_net)) [(p2, b)])).
Proof.
  destruct ps2_inv as (B & b1 & a2 & b2 & b & HI & _ & Hc2 & _ & _ & _ & _ & _ & L & R & T & C & P & Ho). exists B, b.
  split; [eapply inv_ext_eq; [|apply inv_data; exact HI]; intros a _; cbn [link_holds wire]; lia|]. split; [exact Hc2|].
  split; [apply Forall_cons in Ho as [_ Ho]; apply Forall_cons in Ho as [_ Ho]; exact Ho|]. split; [exact L|]. split; [exact T|]. rewrite P. split; [vm_compute; reflexivity|].
  split; [vm_compute; reflexivity|]. apply Forall_take. unfold contents, node_bytes. cbn [fmap list_fmap concat snd]. rewrite app_nil_r. apply bytes_ok_read.
  apply bytes_ok_write; [intros a; vm_compute; intuition congruence|]. repeat constructor; vm_compute; intuition congruence.
Qed.

(** Five fragments with 16 bytes of data each. *)
Lemma ip4_frag_correct_witness :
  exists n' fs, ip4_frag frag_net p2 nif36 0x0201a8c0 = Ret (ERR_OK, n') /\ link_log (n_lk n') = map (λ f, (1, 0x0201a8c0, f)) fs /\ length fs = 5%nat.
Proof.
  destruct frag_net_facts as (B & b & HI & Hc & Ho & L & T & Hhl & Hoff & Hh).
  destruct (ip4_frag_correct frag_net B (ext_add (ext_add no_ext p1) p2) p2 b [] nif36 0x0201a8c0 0 HI Hc Ho) as (e & n' & B' & fs & E & _ & Hlog & _ & Hend).
  - unfold ext_add. rewrite (decide_True (P := p2 = p2)) by reflexivity. lia.
  - rewrite L. lia.
  - exact Hh.
  - exact Hhl.
  - vm_compute. intuition congruence.
  - vm_compute. reflexivity.
  - assert (Ee : match ip4_frag frag_net p2 nif36 0x0201a8c0 with Ret (e, _) => Some e | Trap _ => None end = Some ERR_OK) by (vm_compute; reflexivity).
    rewrite E in Ee. injection Ee as ->. exists n', fs. split; [exact E|]. split; [exact Hlog|].
    destruct Hend as [(_ & Hk & _)|[Hx _]]; [|discriminate Hx]. rewrite T in Hk. change (frag_count (100 - 20) ((netif_mtu nif36 - 20) / 8)) with 5 in Hk. lia.
Defined.

(** A packet with 17 bytes of data behind its header, and an MTU with room for 9. *)
Definition alloc37 : Z * pstate :=
  match pbuf_alloc ps0 PBUF_IP 37 PBUF_RAM with Ret r => r | Trap _ => (NULL, ps0) end.
Definition p37 : Z := fst alloc37.
Definition b37 : pbuf := match deref (snd alloc37) p37 with Ret b => b | Trap _ => Pbuf 0 0 0 0 0 0 0 0 end.
Definition net37 : net (Lk := list (Z * Z * list Z)) := Net (with_data (snd alloc37) (write_bytes ∅ (p_payload b37) iphdr0)) [] 0.
Definition nif29 : netif := Netif 1 0x0a01a8c0 0x00ffffff 0x0101a8c0 0x27 [2; 0; 0; 0; 0; 1] 29 true.
Definition sent37 : net (Lk := list (Z * Z * list Z)) := match ip4_frag net37 p37 nif29 0x0201a8c0 with Ret (_, n) => n | Trap _ => net37 end.

Lemma net37_facts : exists B, net_inv net37 B (ext_add no_ext p37) /\ chain (n_ps net37) p37 [(p37, b37)] /\ own_data [(p37, b37)].
Proof.
  assert (Hl : 0 <= PBUF_IP <= PBUF_TRANSPORT) by (vm_compute; intuition congruence). assert (Hn : is_u16 37) by (vm_compute; intuition congruence).
  destruct (alloc_ram_one ps0 ∅ no_ext PBUF_IP 37 ps0_inv Hl Hn) as [(st & _ & E & _)|(q & st & k & x & E & _ & _ & _ & HI)].
  { assert (Hq : match pbuf_alloc ps0 PBUF_IP 37 PBUF_RAM with Ret (q, _) => negb (q =? NULL) | Trap _ => false end = true) by (vm_compute; reflexivity). by rewrite E in Hq. }
  assert (Ea : alloc37 = (q, set_pbuf (with_pmem ps0 st) q (Pbuf NULL x 37 37 (u8 PBUF_RAM) 0 1 NETIF_NO_INDEX))) by (unfold alloc37; by rewrite E).
  assert (Ep : p37 = q) by (unfold p37; by rewrite Ea).
  assert (Eb : b37 = Pbuf NULL x 37 37 (u8 PBUF_RAM) 0 1 NETIF_NO_INDEX) by (unfold b37; rewrite Ep, Ea; cbn [snd]; rewrite (deref_ok _ _ _ (lookup_insert_eq _ _ _)); done).
  exists (<[q := BHeap k]> ∅). rewrite Eb, Ep. unfold net37. rewrite Ea. cbn [snd n_ps]. split; [|split].
  - eapply inv_ext_eq; [|apply inv_data; exact HI]. intros a _. cbn [link_holds wire n_lk]. lia.
  - split; [split_and!; [done|apply lookup_insert_eq|done]|]. cbn. split_and!; try done; lia.
  - repeat constructor; vm_compute; reflexivity.
Qed.

(** Of the 17 bytes the second fragment has 9 left, which fit the MTU, and carries 8. *)
Lemma ip4_frag_lost_mf_witness :
  ip4_frag net37 p37 nif29 0x0201a8c0 = Ret (ERR_OK, sent37)
  /\ exists fs f f', link_log (n_lk sent37) = map (λ f, (1, 0x0201a8c0, f)) fs /\ fs !! 1%nat = Some f /\ fs !! 2%nat = Some f'
     /\ take 2 (drop 6 f) = [0; 1] /\ 20 < length f'.
Proof.
  assert (E : ip4_frag net37 p37 nif29 0x0201a8c0 = Ret (ERR_OK, sent37)) by (vm_compute; reflexivity).
  split; [exact E|]. destruct net37_facts as (B & HI & Hc & Ho).
  destruct (ip4_frag_lost_mf net37 B (ext_add no_ext p37) p37 b37 [] nif29 0x0201a8c0 sent37 1 HI Hc Ho) as (fs & f & f' & Hlog & Hf & Hf' & (chk & Ef) & Hl).
  - unfold ext_add. rewrite (decide_True (P := p37 = p37)) by reflexivity. lia.
  - vm_compute. congruence.
  - vm_compute. repeat constructor; congruence.
  - vm_compute. reflexivity.
  - vm_compute. intuition congruence.
  - vm_compute. reflexivity.
  - vm_compute. intuition congruence.
  - exact E.
  - exists fs, f, f'. split; [exact Hlog|]. split; [exact Hf|]. split; [exact Hf'|]. split; [|exact Hl]. subst f. vm_compute. reflexivity.
Defined.
