(* ===== verification/Icmp.v ===== *)
(** * ICMP (src/lwip/src/core/ipv4/icmp.c)

    Echo requests are answered in place or in a copy; errors are reported to the sender
    of a packet.  The packet being processed is described by ip_data (struct ip_globals
    of include/lwip/ip.h), which ip4_input sets.

    Options: CHECKSUM_CHECK_ICMP and CHECKSUM_GEN_ICMP 1, no checksum control per
    interface, LWIP_MULTICAST_PING and LWIP_BROADCAST_PING 0. *)

From S2P Require Import Prelude Def ListSeg InetChksum Ip4Addr Mem Memp Pbuf PbufMem PbufRef PbufChain PbufData Header Ip4 Ip4Frag.

#[local] Open Scope Z_scope.
#[local] Coercion Z.of_nat : nat >-> Z.

(** ** Constants (include/lwip/prot/icmp.h, include/lwip/icmp.h, include/lwip/opt.h) *)

Definition ICMP_ER : Z := 0.
Definition ICMP_DUR : Z := 3.
Definition ICMP_ECHO : Z := 8.
Definition ICMP_TE : Z := 11.
Definition ICMP_DUR_PROTO : Z := 2.
Definition ICMP_DUR_PORT : Z := 3.
Definition ICMP_TE_FRAG : Z := 1.
Definition ICMP_TTL : Z := 255.
Definition ICMP_DEST_UNREACH_DATASIZE : Z := 8.
Definition SIZEOF_ICMP_ECHO_HDR : Z := 8.

(** struct icmp_echo_hdr *)
Definition ICMPH_TYPE (m : bytes) (h : Z) : Z := load 1 m h.
Definition icmph_chksum (m : bytes) (h : Z) : Z := load 2 m (h + 2).
Definition ICMPH_TYPE_SET (m : bytes) (h x : Z) : bytes := store 1 m h x.
Definition ICMPH_CODE_SET (m : bytes) (h x : Z) : bytes := store 1 m (h + 1) x.
Definition icmph_chksum_set (m : bytes) (h x : Z) : bytes := store 2 m (h + 2) x.
Definition icmph_id_set (m : bytes) (h x : Z) : bytes := store 2 m (h + 4) x.
Definition icmph_seqno_set (m : bytes) (h x : Z) : bytes := store 2 m (h + 6) x.

(** ip_data (include/lwip/ip.h): the interface that accepted the packet, the one that
    received it, its header in memory, the length of the header and the addresses. *)
Record ip_globals := IpGlobals {
  current_netif : netif;
  current_input_netif : netif;
  current_ip4_header : Z;
  current_ip_header_tot_len : Z;
  current_iphdr_src : Z;
  current_iphdr_dest : Z
}.

Section Icmp.
Context `{MO : MemOptions} `{PO : PbufOptions} {St : Type} `{!PacketMemory St} {Lk : Type} `{!LinkLayer Lk St}.

Abbreviation inet := (net (St := St) (Lk := Lk)).

(** The payloads that the loops of inet_chksum.c read from the chain at [p]. *)
Fixpoint segs_loop (fuel : nat) (s : pstate (St := St)) (p : Z) : outcome (list InetChksum.seg) :=
  if p =? NULL then Ret []
  else
    match fuel with
    | O => Trap "inet_chksum: fuel"
    | S fuel =>
        b ← deref s p;
        l ← segs_loop fuel s (p_next b);
        Ret ((p_payload b, read_bytes (data s) (p_payload b) (Z.to_nat (p_len b))) :: l)
    end.

Definition chain_segs (s : pstate (St := St)) (p : Z) : outcome (list InetChksum.seg) := segs_loop (chain_fuel s) s p.

(** pbuf_free as the last thing done to the packet. *)
Definition net_free (n : inet) (p : Z) : outcome inet :=
  '(_, s) ← pbuf_free (n_ps n) p; Ret (with_ps n s).

(** ** Echo *)

(** The part of the echo case that makes sure that there is room for the headers in
    front of the message: the packet to answer with, or None for the label icmperr. *)
Definition echo_room (n : inet) (p iphdr_in hlen : Z) : outcome (option Z * inet) :=
  '(r, s) ← pbuf_add_header (n_ps n) p (hlen + PBUF_LINK_HLEN + PBUF_LINK_ENCAPSULATION_HLEN);
  let n := with_ps n s in
  if negb (r =? 0) then
    b ← deref s p;
    let alloc_len := u16 (p_tot_len b + hlen) in
    if alloc_len <? p_tot_len b then Ret (None, n)
    else
      '(r, s) ← pbuf_alloc s PBUF_LINK alloc_len PBUF_RAM;
      let n := with_ps n s in
      if r =? NULL then Ret (None, n)
      else
        rb ← deref s r;
        if p_len rb <? hlen + SIZEOF_ICMP_ECHO_HDR then n ← net_free n r; Ret (None, n)
        else
          let s := with_data s (MEMCPY (data s) (p_payload rb) iphdr_in hlen) in
          '(e, s) ← pbuf_remove_header s r hlen;
          if negb (e =? 0) then Trap "icmp_input: moving r->payload to icmp header failed"
          else
            '(e, s) ← pbuf_copy s r p;
            let n := with_ps n s in
            if negb (bool_decide (e = ERR_OK)) then n ← net_free n r; Ret (None, n)
            else n ← net_free n p; Ret (Some r, n)
  else
    '(e, s) ← pbuf_remove_header s p (hlen + PBUF_LINK_HLEN + PBUF_LINK_ENCAPSULATION_HLEN);
    if negb (e =? 0) then Trap "icmp_input: restoring original p->payload failed"
    else Ret (Some p, with_ps n s).

(** The checksum of the reply: that of the request plus the change of the type. *)
Definition echo_chksum (c : Z) : Z :=
  if PP_HTONS (0xffff - Z.shiftl ICMP_ECHO 8) <? c then u16 (c + PP_HTONS (Z.shiftl ICMP_ECHO 8) + 1)
  else u16 (c + PP_HTONS (Z.shiftl ICMP_ECHO 8)).

(** The part that turns the request in [p] into the reply and sends it. *)
Definition echo_reply (n : inet) (ig : ip_globals) (p src hlen : Z) (inp : netif) : outcome inet :=
  b ← deref (n_ps n) p;
  let iecho := p_payload b in
  '(r, s) ← pbuf_add_header (n_ps n) p hlen;
  let n := with_ps n s in
  if negb (r =? 0) then Ret n
  else
    b ← deref s p;
    let iphdr := p_payload b in
    let m := iph_src_set (data s) iphdr src in
    let m := iph_dest_set m iphdr (current_iphdr_src ig) in
    let m := ICMPH_TYPE_SET m iecho ICMP_ER in
    let m := icmph_chksum_set m iecho (echo_chksum (icmph_chksum m iecho)) in
    let m := IPH_TTL_SET m iphdr ICMP_TTL in
    let m := IPH_CHKSUM_SET m iphdr 0 in
    let m := IPH_CHKSUM_SET m iphdr (inet_chksum iphdr (read_bytes m iphdr (Z.to_nat hlen))) in
    '(_, n) ← ip4_output_if (with_ps n (with_data s m)) p (Some src) None ICMP_TTL 0 IP_PROTO_ICMP inp;
    Ret n.

Definition icmp_input (n : inet) (ig : ip_globals) (p : Z) (inp : netif) : outcome inet :=
  let iphdr_in := current_ip4_header ig in
  let hlen := IPH_HL_BYTES (data (n_ps n)) iphdr_in in
  b ← deref (n_ps n) p;
  if hlen <? IP_HLEN then net_free n p
  else if p_len b <? 4 then net_free n p
  else if load 1 (data (n_ps n)) (p_payload b) =? ICMP_ECHO then
    let src := current_iphdr_dest ig in
    if ip4_addr_ismulticast (current_iphdr_dest ig) then net_free n p
    else if ip4_addr_isbroadcast_u32 (current_iphdr_dest ig) (current_netif ig) then net_free n p
    else if p_tot_len b <? SIZEOF_ICMP_ECHO_HDR then net_free n p
    else
      segs ← chain_segs (n_ps n) p;
      if negb (inet_chksum_pbuf segs =? 0) then net_free n p
      else
        '(q, n) ← echo_room n p iphdr_in hlen;
        match q with
        | None => net_free n p
        | Some p => n ← echo_reply n ig p src hlen inp; net_free n p
        end
  else net_free n p.

(** ** Errors *)

Definition icmp_send_response (ns : netifs) (n : inet) (p type code : Z) : outcome inet :=
  '(q, s) ← pbuf_alloc (n_ps n) PBUF_IP (SIZEOF_ICMP_ECHO_HDR + IP_HLEN + ICMP_DEST_UNREACH_DATASIZE) PBUF_RAM;
  let n := with_ps n s in
  if q =? NULL then Ret n
  else
    qb ← deref s q;
    LWIP_ASSERT "check that first pbuf can hold icmp message"
      (SIZEOF_ICMP_ECHO_HDR + IP_HLEN + ICMP_DEST_UNREACH_DATASIZE <=? p_len qb);;
    b ← deref s p;
    let iphdr := p_payload b in
    let icmphdr := p_payload qb in
    let m := ICMPH_TYPE_SET (data s) icmphdr type in
    let m := ICMPH_CODE_SET m icmphdr code in
    let m := icmph_id_set m icmphdr 0 in
    let m := icmph_seqno_set m icmphdr 0 in
    let m := MEMCPY m (icmphdr + SIZEOF_ICMP_ECHO_HDR) iphdr (IP_HLEN + ICMP_DEST_UNREACH_DATASIZE) in
    let iphdr_src := iph_src m iphdr in
    n ← match ip4_route ns iphdr_src with
        | Some nif =>
            let m := icmph_chksum_set m icmphdr 0 in
            let m := icmph_chksum_set m icmphdr (inet_chksum icmphdr (read_bytes m icmphdr (Z.to_nat (p_len qb)))) in
            '(_, n) ← ip4_output_if (with_ps n (with_data s m)) q None (Some iphdr_src) ICMP_TTL 0 IP_PROTO_ICMP nif;
            Ret n
        | None => Ret (with_ps n (with_data s m))
        end;
    net_free n q.

Definition icmp_dest_unreach (ns : netifs) (n : inet) (p t : Z) : outcome inet := icmp_send_response ns n p ICMP_DUR t.
Definition icmp_time_exceeded (ns : netifs) (n : inet) (p t : Z) : outcome inet := icmp_send_response ns n p ICMP_TE t.
End Icmp.
