(* ===== verification/IcmpSpec.v ===== *)
(** * Properties of ICMP

    The echo reply with its incrementally updated checksum, the copy of a packet that
    has no room for the link header, and the error messages. *)

From S2P Require Import Prelude Def ListSeg InetChksum Ip4Addr Mem Memp Pbuf PbufMem PbufRef PbufChain PbufData Header Ip4 Ip4Frag Icmp.

#[local] Open Scope Z_scope.
#[local] Coercion Z.of_nat : nat >-> Z.

(** ** Specification (RFC 792) *)

(** The IP header [h] of a request turned into that of the reply. *)
Definition reply_header (h : list Z) (src dest chk : Z) : list Z :=
  take 8 h ++ [ICMP_TTL] ++ take 1 (drop 9 h) ++ [chk mod 256; chk / 256] ++ le_bytes4 src ++ le_bytes4 dest ++ drop 20 h.

(** The message [d] of a request turned into that of the reply. *)
Definition reply_message (d : list Z) (chk : Z) : list Z :=
  [ICMP_ER] ++ take 1 (drop 1 d) ++ [chk mod 256; chk / 256] ++ drop 4 d.

(** A message with a valid checksum. *)
Definition echo_request (d : list Z) : Prop := take 1 d = [ICMP_ECHO] /\ 8 <= length d /\ rfc1071_checksum d = 0.

(** An error message about a packet that starts with the bytes [orig]. *)
Definition icmp_error (type code chk : Z) (orig : list Z) : list Z := [type; code; chk mod 256; chk / 256; 0; 0; 0; 0] ++ orig.

(** ** Lemmas: checksums and headers in memory *)

Lemma rfc_valid d : Forall is_u8 d -> rfc1071_checksum d = 0 <-> 0 < word_sum d /\ word_sum d mod 65535 = 0.
Proof.
  intros Hd. pose proof (word_sum_nonneg d Hd) as Hw. unfold rfc1071_checksum, rfc1071_sum, oc_norm.
  destruct (Z.eqb_spec (word_sum d) 0) as [E|E]; [lia|]. Z.div_mod_to_equations. lia.
Qed.

Lemma inet_chksum_rfc addr d : Forall is_u8 d -> length d < 65536 -> inet_chksum addr d = rfc1071_checksum d.
Proof.
  intros Hd Hl. unfold inet_chksum. rewrite LWIP_CHKSUM_correct by done. unfold rfc1071_checksum.
  assert (is_u16 (rfc1071_sum d)) by (apply oc_norm_range, word_sum_nonneg; done). unfold Z.lnot. wrap_solve.
Qed.

(** The checksum of the request with the change of the type added is the checksum of
    the reply. *)
Lemma echo_chksum_valid k c0 c1 d :
  Forall is_u8 (ICMP_ECHO :: k :: c0 :: c1 :: d) -> rfc1071_checksum (ICMP_ECHO :: k :: c0 :: c1 :: d) = 0 ->
  let c := echo_chksum (c0 + 256 * c1) in
  is_u16 c /\ rfc1071_checksum (ICMP_ER :: k :: c mod 256 :: c / 256 :: d) = 0.
Proof.
  intros Hd Hv c. rewrite rfc_valid in Hv by done. rewrite !Forall_cons in Hd. destruct Hd as (_ & Hk & H0 & H1 & Hd).
  pose proof (word_sum_nonneg d Hd) as Hw. cbn [word_sum] in Hv. unfold ICMP_ECHO, ICMP_ER in *.
  assert (Hc : c = if 65527 <? c0 + 256 * c1 then c0 + 256 * c1 + 9 - 65536 else c0 + 256 * c1 + 8).
  { unfold c, echo_chksum. change (PP_HTONS (0xffff - Z.shiftl ICMP_ECHO 8)) with 65527. change (PP_HTONS (Z.shiftl ICMP_ECHO 8)) with 8.
    case_if; bool_to_prop; wrap_solve. }
  assert (Hr : is_u16 c) by (rewrite Hc; case_if; bool_to_prop; unfold_c; lia). split; [done|].
  apply rfc_valid; [rewrite !Forall_cons; split_and!; try done; wrap_solve|]. cbn [word_sum].
  assert (E : c mod 256 + 256 * (c / 256) = c) by (Z.div_mod_to_equations; lia).
  assert (Hs : exists j, 0 + 256 * k + (c + word_sum d) = (8 + 256 * k + (c0 + 256 * c1 + word_sum d)) + j * 65535).
  { rewrite Hc. case_if; [exists (-1)|exists 0]; lia. }
  destruct Hs as [j Hs]. replace (0 + 256 * k + (c mod 256 + 256 * (c / 256) + word_sum d)) with (0 + 256 * k + (c + word_sum d)) by lia.
  split; [rewrite Hc; case_if; bool_to_prop; unfold_c; lia|]. rewrite Hs, Z.mod_add by lia. apply Hv.
Qed.

Lemma read_store_out m o (n : nat) v a (N : nat) : o + n <= a \/ a + N <= o -> read_bytes (store n m o v) a N = read_bytes m a N.
Proof.
  intros Ho. rewrite !read_bytes_range. apply list_fmap_ext. intros i x Hx. apply list_elem_of_lookup_2, elem_of_range in Hx.
  apply byte_store. lia.
Qed.

Lemma bytes_read_app m a N : 4 <= N -> read_bytes m a (Z.to_nat N) = read_bytes m a 4 ++ read_bytes m (a + 4) (Z.to_nat (N - 4)).
Proof. intros HN. replace (Z.to_nat N) with (4 + Z.to_nat (N - 4))%nat by lia. by rewrite read_bytes_app. Qed.

(** The stores of the echo reply, [a] the IP header and [a + hlen] the message. *)
Lemma echo_stores m a hlen (k : Z) src dest :
  20 <= hlen <= 60 -> 4 <= k -> is_u32 src -> is_u32 dest ->
  let h := read_bytes m a (Z.to_nat hlen) in
  let d := read_bytes m (a + hlen) (Z.to_nat k) in
  Forall is_u8 h ->
  let m1 := ICMPH_TYPE_SET (iph_dest_set (iph_src_set m a src) a dest) (a + hlen) ICMP_ER in
  let m2 := icmph_chksum_set m1 (a + hlen) (echo_chksum (icmph_chksum m1 (a + hlen))) in
  let m3 := IPH_CHKSUM_SET (IPH_TTL_SET m2 a ICMP_TTL) a 0 in
  let m4 := IPH_CHKSUM_SET m3 a (inet_chksum a (read_bytes m3 a (Z.to_nat hlen))) in
  exists chk, read_bytes m4 a (Z.to_nat hlen) = reply_header h src dest chk
    /\ inet_chksum 0 (reply_header h src dest chk) = 0
    /\ read_bytes m4 (a + hlen) (Z.to_nat k)
       = reply_message d (echo_chksum (le_val (take 2 (drop 2 d))))
    /\ forall x, ~ (a <= x < a + hlen + 4) -> byte m4 x = byte m x.
Proof.
  intros Hh Hk Hs Hd h d Hb m1 m2 m3 m4.
  assert (Hsplit : forall m', read_bytes m' a (Z.to_nat hlen) = read_bytes m' a 20 ++ read_bytes m' (a + 20) (Z.to_nat (hlen - 20))).
  { intros m'. replace (Z.to_nat hlen) with (20 + Z.to_nat (hlen - 20))%nat by lia. by rewrite read_bytes_app. }
  set (opt := read_bytes m (a + 20) (Z.to_nat (hlen - 20))).
  assert (Hopt3 : read_bytes m3 (a + 20) (Z.to_nat (hlen - 20)) = opt).
  { unfold m3, m2, m1, IPH_CHKSUM_SET, IPH_TTL_SET, icmph_chksum_set, ICMPH_TYPE_SET, iph_dest_set, iph_src_set. by rewrite !read_store_out by lia. }
  unfold h in *. rewrite (Hsplit m) in *. fold opt in Hb. fold opt.
  assert (HL : length (read_bytes m a 20) = 20%nat) by apply read_bytes_length.
  assert (H3 : exists t p', [t; p'] = take 2 (drop 8 (read_bytes m a 20))
             /\ read_bytes m3 a 20 = take 8 (read_bytes m a 20) ++ [ICMP_TTL; p'] ++ [0; 0] ++ le_bytes4 src ++ le_bytes4 dest).
  { unfold m3, m2, m1, IPH_CHKSUM_SET, IPH_TTL_SET, icmph_chksum_set, ICMPH_TYPE_SET, iph_dest_set, iph_src_set.
    do 2 rewrite read_store_at by lia. rewrite (read_store_out _ (a + hlen + 2)) by lia. rewrite (read_store_out _ (a + hlen)) by lia.
    rewrite !read_store_at by lia. clear m1 m2 m3 m4 Hopt3 Hb. generalize dependent (read_bytes m a 20). intros q HL. explode 20 q HL.
    eexists _, _. split; [reflexivity|]. unfold le_bytes4. splices. by rewrite !Z.div_div by lia. }
  destruct H3 as (t & p' & Etp & H3). set (c := inet_chksum a (read_bytes m3 a (Z.to_nat hlen))) in m4. exists c.
  pose proof (inet_chksum_range a (read_bytes m3 a (Z.to_nat hlen))) as Hc. fold c in Hc.
  assert (H4 : read_bytes m4 a (Z.to_nat hlen) = reply_header (read_bytes m a 20 ++ opt) src dest c).
  { rewrite (Hsplit m4). unfold m4, IPH_CHKSUM_SET. rewrite read_store_at, read_store_out, Hopt3, H3 by lia.
    clear -HL Etp Hc. generalize dependent (read_bytes m a 20). intros q HL Etp. explode 20 q HL. cbn in Etp. injection Etp as -> ->.
    unfold reply_header, le_bytes4. splices. cbn. repeat match goal with |- _ :: _ = _ :: _ => apply f_equal2 end; try done; wrap_solve. }
  split; [exact H4|]. split; [|split].
  - assert (E3 : read_bytes m3 a (Z.to_nat hlen)
             = (take 8 (read_bytes m a 20) ++ [ICMP_TTL; p']) ++ [0; 0] ++ (le_bytes4 src ++ le_bytes4 dest ++ opt)).
    { rewrite (Hsplit m3), H3, Hopt3. by rewrite <- !app_assoc. }
    assert (E4 : reply_header (read_bytes m a 20 ++ opt) src dest c
             = (take 8 (read_bytes m a 20) ++ [ICMP_TTL; p']) ++ [c mod 256; c / 256] ++ (le_bytes4 src ++ le_bytes4 dest ++ opt)).
    { clear -HL Etp. generalize dependent (read_bytes m a 20). intros q HL Etp. explode 20 q HL. cbn in Etp. injection Etp as -> ->. done. }
    rewrite E4. unfold c. rewrite E3. apply Forall_app in Hb as [Hb20 Hbo]. apply chksum_field_verifies.
    + apply Forall_app. split; [by apply Forall_take|].
      assert (Hp : Forall is_u8 [t; p']) by (rewrite Etp; by apply Forall_take, Forall_drop). rewrite !Forall_cons in *. split; [done|apply Hp].
    + rewrite !Forall_app. split_and!; [apply le_bytes4_range..|done].
    + rewrite length_app, length_take, HL. done.
    + rewrite !length_app, length_take, HL. unfold opt. rewrite read_bytes_length. cbn [length le_bytes4]. lia.
  - unfold d. rewrite !(bytes_read_app _ _ k) by lia.
    assert (Erest : read_bytes m4 (a + hlen + 4) (Z.to_nat (k - 4)) = read_bytes m (a + hlen + 4) (Z.to_nat (k - 4))).
    { unfold m4, m3, m2, m1, IPH_CHKSUM_SET, IPH_TTL_SET, icmph_chksum_set, ICMPH_TYPE_SET, iph_dest_set, iph_src_set. by rewrite !read_store_out by lia. }
    rewrite Erest. assert (HL4 : length (read_bytes m (a + hlen) 4) = 4%nat) by apply read_bytes_length.
    assert (E1 : read_bytes m1 (a + hlen) 4 = splice 0 [ICMP_ER] (read_bytes m (a + hlen) 4)).
    { unfold m1, ICMPH_TYPE_SET, iph_dest_set, iph_src_set. rewrite read_store_0 by lia. by rewrite !read_store_out by lia. }
    assert (El : icmph_chksum m1 (a + hlen) = le_val (take 2 (drop 2 (read_bytes m (a + hlen) 4)))).
    { unfold icmph_chksum. rewrite (load_at m1 (a + hlen) 2 2 4) by lia. rewrite E1. clear -HL4. generalize dependent (read_bytes m (a + hlen) 4).
      intros q HL4. explode 4 q HL4. done. }
    assert (E2 : read_bytes m2 (a + hlen) 4 = splice 2 (le_list 2 (echo_chksum (icmph_chksum m1 (a + hlen)))) (read_bytes m1 (a + hlen) 4)).
    { unfold m2, icmph_chksum_set. by rewrite read_store_at by lia. }
    assert (E4 : read_bytes m4 (a + hlen) 4 = read_bytes m2 (a + hlen) 4).
    { unfold m4, m3, IPH_CHKSUM_SET, IPH_TTL_SET. by rewrite !read_store_out by lia. }
    rewrite E4, E2, E1, El. clear -HL4. generalize dependent (read_bytes m (a + hlen) 4). intros q HL4. explode 4 q HL4.
    unfold reply_message. splices. cbn -[Z.div Z.modulo]. set (e := echo_chksum _). assert (is_u16 e) by (unfold e, echo_chksum; case_if; apply u16_range).
    repeat match goal with |- _ :: _ = _ :: _ => apply f_equal2 end; try done; wrap_solve.
  - intros x Hx. unfold m4, m3, m2, m1, IPH_CHKSUM_SET, IPH_TTL_SET, icmph_chksum_set, ICMPH_TYPE_SET, iph_dest_set, iph_src_set.
    by rewrite !byte_store by lia.
Qed.

Section Facts.
Context `{MO : MemOptions} {MOk : MemOptionsOk} `{PO : PbufOptions} {POk : PbufOptionsOk} {St : Type} `{!PacketMemory St}
  {Lk : Type} `{LL : !LinkLayer Lk St}.
Abbreviation inet := (net (St := St) (Lk := Lk)).
Abbreviation pst := (pstate (St := St)).

(** ** Lemmas: packets *)

Lemma net_free_spec (n : inet) B ext p :
  net_ok n B (ext_add ext p) -> p <> NULL ->
  exists n' B', net_free n p = Ret n' /\ net_ok n' B' ext /\ n_lk n' = n_lk n /\ ip_id n' = ip_id n
    /\ data (n_ps n') = data (n_ps n) /\ only_refs (pbufs (n_ps n)) (pbufs (n_ps n')).
Proof.
  intros [HI Hid] Hp. destruct (free_inv (n_ps n) B (λ a, (ext a + link_holds (n_lk n) a)%nat) p) as (c & s' & B' & E & HI' & _ & Hd & Ho); [|done|].
  { eapply inv_ext_eq; [|exact HI]. intros a _. unfold ext_add. case_decide; lia. }
  exists (with_ps n s'), B'. unfold net_free. rewrite E. by split_and!.
Qed.

Lemma same_packet_then (s1 s2 s3 : pst) q l1 l2 :
  same_packet s1 s2 q l1 l2 -> (exists l3, same_packet s2 s3 q l2 l3) -> exists l3, same_packet s1 s3 q l1 l3.
Proof. intros H12 (l3 & H23). exists l3. by eapply same_packet_trans. Qed.

(** Dropping references keeps the packets that are held. *)
Lemma only_refs_packet (s s' : pst) B ext q lq :
  pbufs s !! NULL = None -> pbuf_inv s' B ext -> only_refs (pbufs s) (pbufs s') -> data s' = data s -> chain s q lq -> q = NULL \/ is_Some (pbufs s' !! q) ->
  exists lq', same_packet s s' q lq lq'.
Proof.
  intros Hnull HI Ho Hd [Hs Ht]. revert q Hs. induction lq as [|[a b] l IH]; intros q Hs Hq.
  - cbn in Hs. subst q. exists []. split_and!; [done|by constructor|done].
  - destruct Hs as (-> & Hb & Hs). destruct Ht as (T1 & T2 & T3 & T4). destruct Hq as [->|[b' Hb']]; [congruence|].
    destruct (Ho _ _ Hb') as (b0 & Hb0 & E). rewrite Hb in Hb0. injection Hb0 as <-.
    destruct (IH T4 _ Hs) as (l' & [S1 S2] & F & C).
    { destruct (decide (p_next b = NULL)) as [|Hn]; [by left|right]. replace (p_next b) with (p_next b') by (by rewrite E). apply (inv_next _ _ _ HI a b' Hb'). by rewrite E. }
    exists ((a, b') :: l'). split; [split|split].
    + split_and!; [done|done|]. replace (p_next b') with (p_next b) by (by rewrite E). done.
    + assert (Et : total l' = total l) by (clear -F; induction F as [|x y l l' -> _ IH]; [done|]; cbn; f_equal; exact IH). cbn [tot_ok]. rewrite Et, E. exact (conj T1 (conj T2 (conj T3 S2))).
    + constructor; [cbn; by rewrite <- E|done].
    + rewrite !contents_cons, C. unfold node_bytes. cbn [snd]. rewrite E. cbn. by rewrite Hd.
Qed.

(** Sending a packet that has its IP header (LWIP_IP_HDRINCL) and fits the MTU. *)
Lemma hdrincl_spec (n : inet) B ext p b l src ttl tos proto nif :
  net_ok n B ext -> chain (n_ps n) p ((p, b) :: l) -> (0 < ext p)%nat -> p_ref b = 1 -> 20 <= p_len b ->
  netif_mtu nif = 0 \/ p_tot_len b <= netif_mtu nif ->
  exists e n' B', ip4_output_if n p src None ttl tos proto nif = Ret (e, n') /\ net_ok n' B' ext /\ ip_id n' = ip_id n
    /\ link_log (n_lk n') = link_log (n_lk n)
       ++ [(netif_num nif, iph_dest (data (n_ps n)) (p_payload b), contents (data (n_ps n)) ((p, b) :: l))].
Proof.
  intros [HI Hid] Hc He Hr Hl Hmtu. pose proof (chain_cons _ _ _ _ _ Hc) as (_ & Hb & _).
  destruct (netif_output_spec n B ext nif p b l (iph_dest (data (n_ps n)) (p_payload b)) HI Hc He Hr) as (e & n' & B' & E & HI' & Hid' & Hlog & _).
  exists e, n', B'. split; [|split; [split; [exact HI'|by rewrite Hid']|done]].
  unfold ip4_output_if, ip4_output_if_opt, ip4_output_if_opt_src. cbn zeta. rewrite !(deref_ok _ _ _ Hb). cbn [mbind outcome_bind].
  rewrite LWIP_ASSERT_ok by (by apply Z.eqb_eq). cbn [mbind outcome_bind]. unfold IP_HLEN. rewrite (proj2 (Z.ltb_ge _ _) Hl).
  replace (negb (netif_mtu nif =? 0) && (netif_mtu nif <? p_tot_len b)) with false; [done|].
  symmetry. apply andb_false_iff. rewrite negb_false_iff, Z.eqb_eq, Z.ltb_ge. exact Hmtu.
Qed.

(** The bytes the checksum functions see. *)
Lemma segs_spec fuel (s : pst) p l :
  pbufs s !! NULL = None -> chain s p l -> (length l < fuel)%nat ->
  exists segs, segs_loop fuel s p = Ret segs /\ chain_bytes segs = contents (data s) l
    /\ (Forall is_u8 (contents (data s) l) -> Forall seg_ok segs).
Proof.
  intros Hn. revert p l. induction fuel as [|fuel IH]; intros p l Hc Hf; [lia|]. cbn [segs_loop]. destruct l as [|[a b] l].
  { rewrite (proj2 (chain_null _ _ _ Hc Hn) eq_refl), Z.eqb_refl. exists []. by split_and!. }
  pose proof (chain_cons _ _ _ _ _ Hc) as (-> & Hb & Hc' & Hu & _). rewrite (proj2 (Z.eqb_neq a NULL)) by congruence.
  rewrite (deref_ok _ _ _ Hb). cbn [mbind outcome_bind]. destruct (IH _ _ Hc' ltac:(cbn in Hf; lia)) as (segs & E & Hs & Hok). rewrite E.
  eexists. split; [reflexivity|]. rewrite contents_cons. split; [unfold chain_bytes in *; cbn; by rewrite Hs|].
  intros [H1 H2]%Forall_app. constructor; [|by apply Hok]. split; [exact H1|]. cbn. rewrite read_bytes_length. unfold_c. lia.
Qed.

Lemma chain_segs_spec (s : pst) B ext p l :
  pbuf_inv s B ext -> chain s p l ->
  exists segs, chain_segs s p = Ret segs /\ chain_bytes segs = contents (data s) l /\ (Forall is_u8 (contents (data s) l) -> Forall seg_ok segs).
Proof. intros HI Hc. pose proof (inv_not_null _ _ _ HI) as Hn. apply segs_spec; [done|done|]. by apply (chain_fuel_ok s p l). Qed.

(** The header in front of the first pbuf and the data of the others are apart. *)
Lemma grown_apart (s : pst) B ext p b l k :
  pbuf_inv s B ext -> chain s p ((p, b) :: l) -> own_data ((p, b) :: l) -> 0 <= k -> p + SIZEOF_STRUCT_PBUF <= p_payload b - k ->
  p_tot_len b + k < 65536 -> range (p_payload b - k) (Z.to_nat (k + p_len b)) ## addrs l.
Proof.
  intros HI Hc Hown Hk Hroom Htot. pose proof (chain_cons _ _ _ _ _ Hc) as (_ & _ & _ & Hbl & Ht & Hut & Htl).
  assert (Hcg : is_contiguous b = true) by (apply Forall_cons in Hown as [[? _] _]; done).
  pose proof (add_header_spec s B ext p b l k false HI Hc ltac:(unfold_c; lia)) as Ha. cbn zeta in Ha.
  rewrite Hcg, (proj2 (Z.leb_le _ _) Hroom), (proj2 (Z.ltb_lt _ _) Htot), orb_true_r in Ha. destruct Ha as (_ & Hc' & HI' & _).
  assert (Hown' : own_data ((p, grown b k) :: l)) by (apply Forall_cons in Hown as [? ?]; by apply Forall_cons).
  pose proof (own_chain_NoDup _ _ _ _ _ HI' Hc' Hown') as Hnd. rewrite addrs_cons in Hnd. apply NoDup_app in Hnd as (_ & Hnd & _).
  intros x Hx Hx'. apply (Hnd x); [|exact Hx']. unfold node_addrs. cbn. rewrite Z.add_comm. exact Hx.
Qed.

(** The same for another packet. *)
Lemma head_apart (s : pst) B ext q b l k r lr :
  pbuf_inv s B ext -> chain s q ((q, b) :: l) -> own_data ((q, b) :: l) -> 0 <= k -> q + SIZEOF_STRUCT_PBUF <= p_payload b - k ->
  p_tot_len b + k < 65536 -> chain s r lr -> own_data lr -> q ∉ lr.*1 -> range (p_payload b - k) (Z.to_nat (k + p_len b)) ## addrs lr.
Proof.
  intros HI Hc Hown Hk Hroom Htot Hr Hor Hq. pose proof (chain_cons _ _ _ _ _ Hc) as (_ & _ & _ & Hbl & Ht & Hut & Htl).
  apply Forall_cons in Hown as [[Hcg Hcu] _]. cbn in Hcg, Hcu.
  pose proof (add_header_spec s B ext q b l k false HI Hc ltac:(unfold_c; lia)) as Ha. cbn zeta in Ha.
  rewrite Hcg, (proj2 (Z.leb_le _ _) Hroom), (proj2 (Z.ltb_lt _ _) Htot), orb_true_r in Ha. destruct Ha as (_ & _ & HI' & _).
  intros x Hx Hx'. apply (own_data_apart (set_pbuf s q (grown b k)) B ext [(q, grown b k)] lr HI') with x; try done.
  - intros a c Hin. apply list_elem_of_singleton in Hin as [= -> ->]. apply lookup_insert_eq.
  - intros a c Hin. assert (a <> q) by (intros ->; apply Hq, list_elem_of_fmap; by exists (q, c)). cbn. rewrite lookup_insert_ne by done. by eapply seg_lookup; [apply Hr|].
  - by apply Forall_singleton.
  - intros a Ha1 Ha2. apply list_elem_of_singleton in Ha1. cbn in Ha1. by subst a.
  - rewrite addrs_cons. apply elem_of_app. left. unfold node_addrs. cbn. rewrite Z.add_comm. exact Hx.
Qed.

(** ** Lemmas: the echo reply *)

(** The heap had no room for [len] bytes behind the headers of [layer]. *)
Definition heap_full (s : pst) (layer len : Z) : Prop :=
  exists st, ram_fits layer len -> pm_mem_malloc (pmem s) (ram_request layer len) = Ret (None, st).

(** The packet at [q] has the message [d], in front of it the IP header [h], and is
    held by one reference, which is ours. *)
Record answerable (n : inet) B ext q b l hlen (h d : list Z) : Prop := Answerable {
  an_ok : net_ok n B (ext_add ext q);
  an_chain : chain (n_ps n) q ((q, b) :: l);
  an_ref : p_ref b = 1;
  an_null : q <> NULL;
  an_cont : is_contiguous b = true;
  an_room : q + SIZEOF_STRUCT_PBUF <= p_payload b - hlen;
  an_len : 4 <= p_len b;
  an_tot : p_tot_len b + hlen < 65536;
  an_apart : range (p_payload b - hlen) (Z.to_nat (hlen + p_len b)) ## addrs l;
  an_data : contents (data (n_ps n)) ((q, b) :: l) = d;
  an_hdr : read_bytes (data (n_ps n)) (p_payload b - hlen) (Z.to_nat hlen) = h
}.

(** A fresh pbuf [q] with a copy of the header and of the message in [lp]. *)
Lemma copy_packet (s : pst) B ext p lp q x hlen k :
  let qb := Pbuf NULL x (total lp + hlen) (total lp + hlen) (u8 PBUF_RAM) 0 1 NETIF_NO_INDEX in
  pbuf_inv (set_pbuf s q qb) (<[q := BHeap k]> B) ext -> pbufs s !! q = None -> chain s p lp -> lp <> [] -> own_data lp -> no_empty_tail lp ->
  0 <= hlen -> total lp + hlen < 65536 -> 0 < total lp ->
  let qb' := Pbuf NULL (x + hlen) (total lp) (total lp) (u8 PBUF_RAM) 0 1 NETIF_NO_INDEX in
  forall src, exists m s',
    pbuf_remove_header (with_data (set_pbuf s q qb) (MEMCPY (data s) x src hlen)) q hlen = Ret (0, s')
    /\ pbuf_copy s' q p = Ret (ERR_OK, with_data s' m)
    /\ pbuf_inv (with_data s' m) (<[q := BHeap k]> B) ext /\ chain (with_data s' m) q [(q, qb')]
    /\ contents m [(q, qb')] = contents (data s) lp /\ read_bytes m x (Z.to_nat hlen) = read_bytes (data s) src (Z.to_nat hlen).
Proof.
  intros qb HI Hnew Hc Hne Hown Hnt Hh Htot Hpos qb' src. set (s1 := set_pbuf s q qb) in *. set (m1 := MEMCPY (data s) x src hlen).
  assert (Hnull : pbufs s1 !! NULL = None) by (eapply inv_not_null; exact HI). assert (Hqn : q <> NULL) by (intros ->; unfold s1 in Hnull; cbn in Hnull; by rewrite lookup_insert_eq in Hnull).
  assert (Hnul2 : pbufs s !! NULL = None) by (unfold s1 in Hnull; cbn in Hnull; by rewrite lookup_insert_ne in Hnull).
  assert (Hqlp : q ∉ lp.*1).
  { intros Hin. apply list_elem_of_fmap in Hin as ([a b] & -> & Hin). pose proof (seg_lookup _ _ _ _ _ _ (proj1 Hc) Hin) as Hl. cbn in Hnew. congruence. }
  assert (Hcq : chain (with_data s1 m1) q [(q, qb)]).
  { split; [split_and!; [done|apply lookup_insert_eq|done]|]. split_and!; [unfold_c; cbn; lia|cbn; lia|unfold_c; cbn; lia|done]. }
  destruct (remove_header_spec (with_data s1 m1) (<[q := BHeap k]> B) ext q qb [] hlen) as (E1 & Hc1 & HI1 & _); [by apply inv_data|done|cbn; lia|].
  assert (Eqb : with_tot_len (with_len (with_payload qb (p_payload qb + hlen)) (p_len qb - hlen)) (p_tot_len qb - hlen) = qb').
  { unfold qb, qb'. cbn. by rewrite Z.add_simpl_r. }
  rewrite Eqb in *. set (s2 := set_pbuf (with_data s1 m1) q qb') in *.
  assert (Hcp : chain s2 p lp).
  { split; [|apply Hc]. apply seg_insert; [|done]. apply seg_insert; [apply Hc|done]. }
  assert (Hcp1 : chain s1 p lp) by (split; [apply seg_insert; [apply Hc|done]|apply Hc]).
  assert (Hq1 : own_data [(q, qb)]) by (repeat constructor; done). assert (Hq2 : own_data [(q, qb')]) by (repeat constructor; done).
  assert (Hdis : lp.*1 ## [q]) by (intros a Ha ->%list_elem_of_singleton; done).
  assert (Hap1 : addrs [(q, qb)] ## addrs lp).
  { apply (own_data_apart s1 _ _ _ _ HI); try done; [intros a b; apply (seg_lookup _ _ _ _ _ _ (proj1 Hcq))
      |intros a b; apply (seg_lookup _ _ _ _ _ _ (proj1 Hcp1))|by intros a Ha Ha'; apply (Hdis a)]. }
  assert (Hap2 : addrs [(q, qb')] ## addrs lp).
  { apply (own_data_apart s2 _ _ _ _ HI1); try done; [intros a b; apply (seg_lookup _ _ _ _ _ _ (proj1 Hc1))
      |intros a b; apply (seg_lookup _ _ _ _ _ _ (proj1 Hcp))|by intros a Ha Ha'; apply (Hdis a)]. }
  assert (Htq : tot_ok [(q, qb')]) by apply Hc1. pose proof (addrs_length _ Htq) as Ll. pose proof (addrs_length lp (proj2 Hc)) as Lp.
  assert (Etq : total [(q, qb')] = total lp) by (cbn; lia).
  pose proof (proj1 (copy_spec s2 (<[q := BHeap k]> B) ext q p [(q, qb')] lp HI1 Hc1 Hcp ltac:(done) Hne Hap2 ltac:(done) Hnt ltac:(lia))) as Ecp.
  rewrite take_ge in Ecp by lia. change (data s2) with m1 in Ecp. set (m2 := scatter m1 _ _) in Ecp.
  exists m2, s2. split; [exact E1|]. split; [exact Ecp|]. split; [by apply inv_data|]. split; [exact Hc1|].
  assert (Hx : addrs [(q, qb)] = range x (Z.to_nat hlen) ++ addrs [(q, qb')]).
  { unfold addrs. cbn. rewrite !app_nil_r. unfold node_addrs. cbn. replace (Z.to_nat (total lp + hlen)) with (Z.to_nat hlen + Z.to_nat (total lp))%nat by lia.
    rewrite range_app. by rewrite Z2Nat.id by lia. }
  assert (Hap3 : range x (Z.to_nat hlen) ## addrs lp) by (intros a Ha; apply Hap1; rewrite Hx; apply elem_of_app; by left).
  split.
  - rewrite contents_addrs. unfold m2. rewrite scatter_read; [|by apply (own_chain_NoDup _ _ _ _ _ HI1 Hc1)|rewrite length_fmap; lia].
    rewrite contents_addrs. unfold m1. rewrite MEMCPY_scatter. by apply scatter_frame_list.
  - rewrite !read_bytes_range. unfold m2. rewrite scatter_frame_list.
    + unfold m1. rewrite MEMCPY_scatter. rewrite scatter_read; [done|apply range_NoDup|by rewrite length_fmap, !range_length].
    + intros a Ha Ha'. apply elem_of_range in Ha'. unfold addrs in Ha. cbn in Ha. rewrite app_nil_r in Ha. apply elem_of_range in Ha. cbn in Ha. lia.
Qed.

Lemma link_layer_range : 0 <= PBUF_LINK <= PBUF_TRANSPORT.
Proof. pose proof hlen_range as (? & ? & ? & ?). unfold PBUF_TRANSPORT, PBUF_TRANSPORT_HLEN, PBUF_IP, PBUF_LINK. lia. Qed.

(** In place: the payload is moved back and forth. *)
Lemma echo_room_in_place (n : inet) B ext p b l k :
  net_ok n B (ext_add ext p) -> chain (n_ps n) p ((p, b) :: l) -> 0 <= k <= 65535 ->
  match pbuf_add_header (n_ps n) p k with
  | Ret (r, s) =>
      r = 0 /\ pbuf_remove_header s p k = Ret (0, n_ps n) \/ r = 1 /\ s = n_ps n
  | Trap _ => False
  end.
Proof.
  intros [HI _] Hc Hk. pose proof (add_header_spec (n_ps n) B _ p b l k false HI Hc Hk) as Ha. cbn zeta in Ha. unfold pbuf_add_header.
  pose proof (chain_cons _ _ _ _ _ Hc) as (_ & Hb & _ & Hbl & _).
  case_match eqn:Hok; [|rewrite Ha; by right]. destruct Ha as (E & Hc1 & HI1 & _). rewrite E. left. split; [done|].
  destruct (remove_header_spec _ B _ p _ l k HI1 Hc1) as (E2 & _); [cbn; unfold_c; lia|]. rewrite E2. do 2 f_equal.
  match goal with |- set_pbuf (set_pbuf _ _ _) _ ?c = _ => assert (Ec : c = b) by (cbn; rewrite Z.sub_add, !Z.add_simpl_r; by destruct b) end.
  rewrite Ec. unfold set_pbuf. cbn. rewrite insert_insert_eq, (insert_id _ _ _ Hb). by destruct (n_ps n).
Qed.

Lemma echo_room_spec (n : inet) B ext p b l hlen h d :
  answerable n B ext p b l hlen h d -> own_data ((p, b) :: l) -> no_empty_tail ((p, b) :: l) -> 20 <= hlen <= 60 -> 8 <= p_tot_len b ->
  exists r n', echo_room n p (p_payload b - hlen) hlen = Ret (r, n') /\ link_log (n_lk n') = link_log (n_lk n) /\ ip_id n' = ip_id n
    /\ match r with
       | None => net_ok n' B (ext_add ext p) /\ heap_full (n_ps n) PBUF_LINK (p_tot_len b + hlen)
       | Some q => exists B' b' l', answerable n' B' ext q b' l' hlen h d /\ p_tot_len b' = p_tot_len b
       end.
Proof.
  intros HA Hown Hnt Hh Ht8. pose proof HA as [[HI Hid] Hc Hr Hp Hcg Hroom Hlen Htot Hap Hd Hhd].
  pose proof (chain_cons _ _ _ _ _ Hc) as (_ & Hb & _ & Hbl & Ht & Hut & Htl). pose proof hlen_range as (HL1 & HL2 & HL3 & HL4).
  assert (Hkr : 0 <= hlen + PBUF_LINK_HLEN + PBUF_LINK_ENCAPSULATION_HLEN <= 65535).
  { unfold PBUF_TRANSPORT, PBUF_TRANSPORT_HLEN, PBUF_IP in HL4. lia. }
  pose proof (echo_room_in_place n B ext p b l _ (an_ok _ _ _ _ _ _ _ _ _ HA) Hc Hkr) as Hpl. unfold echo_room.
  destruct (pbuf_add_header _ _ _) as [[r s]|] eqn:Ea; [|done]. cbn [mbind outcome_bind]. destruct Hpl as [[-> Erm]|[-> ->]]; cbn [negb Z.eqb].
  { rewrite Erm. cbn [mbind outcome_bind negb Z.eqb]. exists (Some p), n. split; [by destruct n|]. do 2 (split; [done|]). by exists B, b, l. }
  rewrite (deref_ok _ _ _ Hb). cbn [mbind outcome_bind]. rewrite u16_small by (unfold_c; lia). rewrite (proj2 (Z.ltb_ge _ _)) by lia.
  destruct (alloc_ram_one (n_ps n) B _ PBUF_LINK (p_tot_len b + hlen) HI link_layer_range ltac:(unfold_c; lia))
    as [(st & Em & E & HI')|(q & st & k & x & E & Hx & Hq & Hnew & HI')]; rewrite E; cbn [mbind outcome_bind].
  { rewrite Z.eqb_refl. exists None, (with_ps n (with_pmem (n_ps n) st)). cbn. split; [done|]. do 2 (split; [done|]). split; [done|]. by exists st. }
  rewrite (proj2 (Z.eqb_neq q NULL)) by done. erewrite deref_ok by apply lookup_insert_eq. cbn [mbind outcome_bind p_len p_payload].
  rewrite (proj2 (Z.ltb_ge _ _)) by (unfold SIZEOF_ICMP_ECHO_HDR; lia).
  assert (Etl : p_tot_len b = total ((p, b) :: l)) by exact Ht. rewrite Etl in *. cbn zeta in HI'.
  destruct (copy_packet (with_pmem (n_ps n) st) B _ p ((p, b) :: l) q x hlen k HI' Hnew Hc ltac:(done) Hown Hnt ltac:(lia) ltac:(lia) ltac:(lia) (p_payload b - hlen))
    as (m & s' & Erm & Ecp & HI2 & Hc2 & Hcont & Hhdr).
  cbn [set_pbuf with_pbufs with_pmem data] in Erm |- *. rewrite Erm. cbn [mbind outcome_bind negb Z.eqb]. rewrite Ecp.
  cbn [mbind outcome_bind]. rewrite bool_decide_true by done. cbn [negb]. set (qb := Pbuf NULL (x + hlen) _ _ _ _ _ _) in *.
  pose proof (chain_cons _ _ _ _ _ Hc2) as (_ & Hqb & _). set (n1 := with_ps _ (with_data s' m)).
  destruct (net_free_spec n1 (<[q := BHeap k]> B) (ext_add ext q) p) as (n' & B' & Ef & Hok' & Hlk & Hid' & Hdat & Hrefs); [|done|].
  { split; [|done]. eapply inv_ext_eq; [|exact HI2]. intros a _. unfold ext_add. cbn. repeat case_decide; lia. }
  rewrite Ef. cbn [mbind outcome_bind]. exists (Some q), n'. split; [done|]. split; [by rewrite Hlk|]. split; [by rewrite Hid'|].
  assert (Hqb' : pbufs (n_ps n') !! q = Some qb).
  { apply (free_keeps_held (n_ps n1) (<[q := BHeap k]> B) B' (λ a, (ext_add ext q a + link_holds (n_lk n') a)%nat) p (n_ps n')); try done.
    - rewrite Hlk. eapply inv_ext_eq; [|exact HI2]. intros a _. unfold ext_add. cbn. repeat case_decide; lia.
    - apply Hok'.
    - unfold ext_add. rewrite decide_True by done. lia. }
  destruct (layer_facts _ link_layer_range) as (Hlf & _).
  exists B', qb, []. split; [|done]. split; try done; cbn [p_payload p_len p_tot_len qb p_ref].
  - split; [split_and!; done|apply Hc2].
  - rewrite Hx. pose proof link_layer_range. lia.
  - lia.
  - intros a _ Ha. by apply not_elem_of_nil in Ha.
  - by rewrite Hdat, <- Hd.
  - rewrite Hdat. rewrite Z.add_simpl_r. by rewrite <- Hhd.
Qed.

Lemma reply_message_app d1 d2 chk : (4 <= length d1)%nat -> reply_message d1 chk ++ d2 = reply_message (d1 ++ d2) chk.
Proof.
  intros Hl. unfold reply_message. rewrite !drop_app_le by lia. rewrite <- !app_assoc. rewrite (take_app_le (drop 1 d1)); [done|]. rewrite length_drop. lia.
Qed.

Lemma echo_reply_spec (n : inet) B ext ig q b l hlen h d inp src :
  answerable n B ext q b l hlen h d -> 20 <= hlen <= 60 -> is_u32 src -> is_u32 (current_iphdr_src ig) -> Forall is_u8 h ->
  netif_mtu inp = 0 \/ p_tot_len b + hlen <= netif_mtu inp ->
  exists n' B' hchk, echo_reply n ig q src hlen inp = Ret n' /\ net_ok n' B' (ext_add ext q) /\ ip_id n' = ip_id n
    /\ let hdr := reply_header h src (current_iphdr_src ig) hchk in
       link_log (n_lk n') = link_log (n_lk n)
         ++ [(netif_num inp, current_iphdr_src ig, hdr ++ reply_message d (echo_chksum (le_val (take 2 (drop 2 d)))))]
       /\ inet_chksum 0 hdr = 0.
Proof.
  intros [[HI Hid] Hc Hr Hq Hcg Hroom Hlen Htot Hap Hd Hhd] Hh Hs Hcs Hb8 Hmtu. set (dest := current_iphdr_src ig) in *.
  pose proof (chain_cons _ _ _ _ _ Hc) as (_ & Hb & _ & Hbl & Ht & Hut & Htl).
  pose proof (add_header_spec (n_ps n) B _ q b l hlen false HI Hc ltac:(lia)) as Ha. cbn zeta in Ha.
  rewrite Hcg, (proj2 (Z.leb_le _ _) Hroom), (proj2 (Z.ltb_lt _ _) Htot), orb_true_r in Ha. fold (grown b hlen) in Ha. destruct Ha as (E & Hc1 & HI1 & _).
  destruct (echo_stores (data (n_ps n)) (p_payload b - hlen) hlen (p_len b) src dest Hh Hlen Hs Hcs) as (hchk & Hm1 & Hv & Hm2 & Hfr); [by rewrite Hhd|].
  rewrite Hhd in Hm1, Hv. rewrite Z.sub_add in Hm1, Hm2, Hfr.
  unfold echo_reply. rewrite (deref_ok _ _ _ Hb). cbn [mbind outcome_bind]. unfold pbuf_add_header. rewrite E. cbn [mbind outcome_bind negb Z.eqb].
  erewrite deref_ok by apply lookup_insert_eq. cbn [mbind outcome_bind]. change (p_payload (grown b hlen)) with (p_payload b - hlen).
  change (data (set_pbuf (n_ps n) q (grown b hlen))) with (data (n_ps n)). fold dest.
  set (m := IPH_CHKSUM_SET (IPH_CHKSUM_SET _ _ 0) _ _) in *. set (s1 := set_pbuf (n_ps n) q (grown b hlen)) in *.
  assert (Hcont : contents m ((q, grown b hlen) :: l) = reply_header h src dest hchk ++ reply_message d (echo_chksum (le_val (take 2 (drop 2 d))))).
  { rewrite contents_cons. rewrite (contents_frame (data (n_ps n)) m l).
    2:{ intros x Hx. apply Hfr. intros Hin. apply (Hap x); [apply elem_of_range; lia|done]. }
    unfold node_bytes. cbn [snd grown p_payload p_len with_tot_len with_len with_payload].
    replace (Z.to_nat (p_len b + hlen)) with (Z.to_nat hlen + Z.to_nat (p_len b))%nat by lia. rewrite read_bytes_app.
    replace (p_payload b - hlen + Z.to_nat hlen) with (p_payload b) by lia. rewrite Hm1, Hm2, <- app_assoc. f_equal.
    assert (HL : (4 <= length (read_bytes (data (n_ps n)) (p_payload b) (Z.to_nat (p_len b))))%nat) by (rewrite read_bytes_length; lia).
    rewrite reply_message_app by done. rewrite <- Hd, contents_cons. unfold node_bytes. cbn [snd].
    rewrite (drop_app_le _ _ 2), (take_app_le (drop 2 _)) by (rewrite ?length_drop; lia). done. }
  destruct (hdrincl_spec (with_ps (with_ps n s1) (with_data s1 m)) B (ext_add ext q) q (grown b hlen) l (Some src) ICMP_TTL 0 IP_PROTO_ICMP inp)
    as (e & n' & B' & Eo & Hok' & Hid' & Hlog); try done.
  { split; [by apply inv_data|done]. } { unfold ext_add. rewrite decide_True by done. lia. } { cbn. lia. }
  rewrite Eo. cbn [mbind outcome_bind]. exists n', B', hchk. split; [done|]. split; [done|]. split; [by rewrite Hid'|]. split; [|done].
  rewrite Hlog. cbn [with_ps n_lk n_ps with_data data]. rewrite Hcont. do 4 f_equal. change (p_payload (grown b hlen)) with (p_payload b - hlen).
  unfold iph_dest. rewrite (load_at m _ 16 4 20) by lia.
  replace (read_bytes m (p_payload b - hlen) 20) with (take 20 (read_bytes m (p_payload b - hlen) (Z.to_nat hlen))).
  2:{ pose proof (read_part m (p_payload b - hlen) 0 20 (Z.to_nat hlen) ltac:(lia)) as Hrp. rewrite Z.add_0_r, drop_0 in Hrp. by rewrite Hrp. }
  rewrite Hm1. assert (HL : (20 <= length h)%nat) by (rewrite <- Hhd, read_bytes_length; lia). unfold reply_header.
  do 20 (destruct h as [|? h]; [cbn in HL; lia|]). change (le_val (le_bytes4 dest) = dest). rewrite <- le_list4. by apply le_val_list.
Qed.

(** ** Lemmas: error messages *)

Lemma load_frame m m' a (n : nat) : (forall y, a <= y < a + n -> byte m' y = byte m y) -> load n m' a = load n m a.
Proof.
  intros Hy. rewrite !load_le_val. f_equal. rewrite !read_bytes_range. apply list_fmap_ext. intros i y Hi. apply Hy.
  by apply list_elem_of_lookup_2, elem_of_range in Hi.
Qed.

Lemma byte_MEMCPY m dst src len x : ~ (dst <= x < dst + len) -> byte (MEMCPY m dst src len) x = byte m x.
Proof. intros Hx. rewrite MEMCPY_scatter. apply scatter_frame. rewrite elem_of_range. lia. Qed.

Lemma response_stores m x a type code :
  x + 36 <= a \/ a + 28 <= x -> is_u8 type -> is_u8 code ->
  let orig := read_bytes m a 28 in
  Forall is_u8 orig ->
  let m1 := icmph_seqno_set (icmph_id_set (ICMPH_CODE_SET (ICMPH_TYPE_SET m x type) x code) x 0) x 0 in
  let m2 := MEMCPY m1 (x + SIZEOF_ICMP_ECHO_HDR) a (IP_HLEN + ICMP_DEST_UNREACH_DATASIZE) in
  let m3 := icmph_chksum_set m2 x 0 in
  let m4 := icmph_chksum_set m3 x (inet_chksum x (read_bytes m3 x 36)) in
  iph_src m2 a = iph_src m a
  /\ (exists chk, read_bytes m4 x 36 = icmp_error type code chk orig /\ inet_chksum 0 (icmp_error type code chk orig) = 0)
  /\ forall y, ~ (x <= y < x + 36) -> byte m2 y = byte m y /\ byte m4 y = byte m y.
Proof.
  intros Hdis Ht Hcd orig Ho m1 m2 m3 m4. unfold SIZEOF_ICMP_ECHO_HDR, IP_HLEN, ICMP_DEST_UNREACH_DATASIZE in m2.
  assert (F1 : forall y, a <= y < a + 28 -> byte m1 y = byte m y).
  { intros y Hy. unfold m1, icmph_seqno_set, icmph_id_set, ICMPH_CODE_SET, ICMPH_TYPE_SET. by rewrite !byte_store by lia. }
  assert (E8 : exists c0 c1, read_bytes m2 x 8 = [type; code; c0; c1; 0; 0; 0; 0]).
  { assert (E : read_bytes m2 x 8 = read_bytes m1 x 8).
    { rewrite !read_bytes_range. apply list_fmap_ext. intros i y Hy. apply list_elem_of_lookup_2, elem_of_range in Hy. apply byte_MEMCPY. lia. }
    rewrite E. unfold m1, icmph_seqno_set, icmph_id_set, ICMPH_CODE_SET, ICMPH_TYPE_SET. do 3 rewrite read_store_at by lia. rewrite read_store_0 by lia.
    assert (HL : length (read_bytes m x 8) = 8%nat) by apply read_bytes_length. clear -HL Ht Hcd. generalize dependent (read_bytes m x 8). intros q HL. explode 8 q HL.
    splices. rewrite !Z.mod_small by (unfold_c; lia). by eexists _, _. }
  destruct E8 as (c0 & c1 & E8).
  assert (E28 : read_bytes m2 (x + 8) 28 = orig).
  { rewrite !read_bytes_range. unfold m2. rewrite MEMCPY_scatter. rewrite scatter_read; [|apply range_NoDup|by rewrite length_fmap, !range_length].
    unfold orig. rewrite read_bytes_range. apply list_fmap_ext. intros i y Hy. apply list_elem_of_lookup_2, elem_of_range in Hy. apply F1. cbn in Hy. lia. }
  assert (Hsplit : forall m', read_bytes m' x 36 = read_bytes m' x 8 ++ read_bytes m' (x + 8) 28) by (intros m'; by rewrite <- read_bytes_app).
  assert (E3 : read_bytes m3 x 36 = icmp_error type code 0 orig).
  { rewrite Hsplit. unfold m3, icmph_chksum_set. rewrite read_store_at, read_store_out, E8, E28 by lia. done. }
  split; [|split].
  - unfold iph_src. apply load_frame. intros y Hy. unfold m2. rewrite byte_MEMCPY by lia. apply F1. lia.
  - set (c := inet_chksum x (read_bytes m3 x 36)) in m4. exists c. pose proof (inet_chksum_range x (read_bytes m3 x 36)) as Hc. fold c in Hc. split.
    + unfold m4, icmph_chksum_set. rewrite read_store_at, E3 by lia. unfold icmp_error. splices.
      repeat match goal with |- _ :: _ = _ :: _ => apply f_equal2 end; try done; wrap_solve.
    + unfold c. rewrite E3. apply (chksum_field_verifies x 0 [type; code] ([0; 0; 0; 0] ++ orig)).
      * by rewrite !Forall_cons.
      * apply Forall_app. split; [rewrite !Forall_cons; unfold_c; split_and!; try lia; constructor|done].
      * done.
      * rewrite !length_app. unfold orig. rewrite read_bytes_length. cbn. lia.
  - intros y Hy. assert (E2 : byte m2 y = byte m y).
    { unfold m2, m1, icmph_seqno_set, icmph_id_set, ICMPH_CODE_SET, ICMPH_TYPE_SET. rewrite byte_MEMCPY by lia. by rewrite !byte_store by lia. }
    split; [exact E2|]. unfold m4, m3, icmph_chksum_set. by rewrite !byte_store by lia.
Qed.

(** The interface can send 56 bytes. *)
Definition can_send (nif : netif) (len : Z) : Prop := is_u32 (netif_ip4_addr nif) /\ (netif_mtu nif = 0 \/ len <= netif_mtu nif).

Lemma ip_layer_range : 0 <= PBUF_IP <= PBUF_TRANSPORT /\ 20 <= PBUF_IP.
Proof. pose proof hlen_range as (? & ? & ? & ?). unfold PBUF_TRANSPORT, PBUF_TRANSPORT_HLEN, PBUF_IP. lia. Qed.

Lemma le_val4_range m a : Forall is_u8 (read_bytes m a 4) -> is_u32 (load 4 m a).
Proof.
  rewrite load_le_val. assert (HL : length (read_bytes m a 4) = 4%nat) by apply read_bytes_length. generalize dependent (read_bytes m a 4). intros q HL. explode 4 q HL.
  rewrite !Forall_cons. intros (? & ? & ? & ? & _). cbn. unfold_c. lia.
Qed.

Lemma iph_src_range m a : Forall is_u8 (read_bytes m a 28) -> is_u32 (iph_src m a).
Proof. intros Ho. apply le_val4_range. change (a + 12) with (a + 12%nat). rewrite (read_part m a 12 4 28) by lia. by apply Forall_take, Forall_drop. Qed.

(** The block of a pbuf that was in the store before [q] is apart from that of [q]. *)
Lemma fresh_apart (s : pst) B ext p k q qb k' x len :
  pbuf_inv s (<[q := BHeap k']> B) ext -> pbufs s !! q = Some qb -> is_contiguous qb = true -> is_custom qb = false -> B !! p = Some k -> p <> q ->
  p <= x -> x + len <= p + block_size k -> 0 < p_len qb -> p_payload qb + p_len qb <= x \/ x + len <= p_payload qb.
Proof.
  intros HI Hqb Hcg Hcu Hk Hne Hx1 Hx2 Hpos.
  assert (Hin : forall y, p_payload qb <= y < p_payload qb + p_len qb -> q <= y < q + block_size (BHeap k')).
  { intros y Hy. destruct (own_data_block s _ ext q qb y HI Hqb Hcg Hcu) as (k2 & Hk2 & R); [apply elem_of_range; cbn; lia|].
    rewrite lookup_insert_eq in Hk2. injection Hk2 as <-. exact R. }
  assert (Hk1 : <[q := BHeap k']> B !! p = Some k) by (by rewrite lookup_insert_ne). assert (Hk2 : <[q := BHeap k']> B !! q = Some (BHeap k')) by apply lookup_insert_eq.
  destruct (mem_holds_disjoint _ _ _ _ _ _ (inv_holds _ _ _ HI) Hk1 Hk2 Hne) as [Hd|Hd].
  - right. specialize (Hin (p_payload qb)). lia.
  - left. specialize (Hin (p_payload qb + p_len qb - 1)). lia.
Qed.

Lemma response_full ns (n : inet) B ext p b k type code :
  net_ok n B ext -> pbufs (n_ps n) !! p = Some b -> B !! p = Some k -> p <= p_payload b -> p_payload b + 28 <= p + block_size k ->
  is_u8 type -> is_u8 code ->
  let orig := read_bytes (data (n_ps n)) (p_payload b) 28 in
  let dest := iph_src (data (n_ps n)) (p_payload b) in
  Forall is_u8 orig -> (forall nif, ip4_route ns dest = Some nif -> can_send nif 56) ->
  exists n' B' fs, icmp_send_response ns n p type code = Ret n' /\ net_ok n' B' ext /\ link_log (n_lk n') = link_log (n_lk n) ++ fs
    /\ match ip4_route ns dest with
       | None => fs = []
       | Some nif =>
           heap_full (n_ps n) PBUF_IP 36 /\ fs = []
           \/ exists hchk chk, let hdr := ip_header 20 0 56 (ip_id n) 0 ICMP_TTL IP_PROTO_ICMP hchk (netif_ip4_addr nif) dest in
                fs = [(netif_num nif, dest, hdr ++ icmp_error type code chk orig)]
                /\ inet_chksum 0 hdr = 0 /\ inet_chksum 0 (icmp_error type code chk orig) = 0
       end
    /\ forall r lr, chain (n_ps n) r lr -> (0 < ext r)%nat -> r <> NULL -> own_data lr -> exists lr', same_packet (n_ps n) (n_ps n') r lr lr'.
Proof.
  intros [HI Hid] Hb Hk Hp1 Hp2 Ht Hcd orig dest Ho Hsend. destruct ip_layer_range as [Hlay Hl20]. unfold icmp_send_response.
  change (SIZEOF_ICMP_ECHO_HDR + IP_HLEN + ICMP_DEST_UNREACH_DATASIZE) with 36.
  destruct (alloc_ram_one (n_ps n) B _ PBUF_IP 36 HI Hlay ltac:(unfold_c; lia)) as [(st & Em & E & HI')|(q & st & k' & x & E & Hx & Hq & Hnew & HI')];
    rewrite E; cbn [mbind outcome_bind].
  { rewrite Z.eqb_refl. exists (with_ps n (with_pmem (n_ps n) st)), B, []. rewrite app_nil_r. do 2 (split; [done|]). split; [done|].
    split; [case_match; [left; split; [by exists st|done]|done]|].
    intros r lr Hr _ _ _. exists lr. split; [done|]. split; [apply same_packet_refl|done]. }
  rewrite (proj2 (Z.eqb_neq q NULL)) by done. cbn zeta in HI'. set (qb := Pbuf NULL x 36 36 _ _ _ _) in *. set (s1 := set_pbuf _ q qb) in *.
  rewrite (deref_ok s1 q qb) by apply lookup_insert_eq. cbn [mbind outcome_bind]. rewrite LWIP_ASSERT_ok by done. cbn [mbind outcome_bind].
  assert (Hpq : p <> q) by congruence. rewrite (deref_ok s1 p b) by (unfold s1; cbn; by rewrite lookup_insert_ne). cbn [mbind outcome_bind].
  change (p_payload qb) with x. change (p_len qb) with 36. change (data s1) with (data (n_ps n)).
  assert (Hap : x + 36 <= p_payload b \/ p_payload b + 28 <= x).
  { apply (fresh_apart s1 B _ p k q qb k' (p_payload b) 28 HI'); try done. apply lookup_insert_eq. }
  destruct (response_stores (data (n_ps n)) x (p_payload b) type code Hap Ht Hcd Ho) as (Esrc & (chk & Hrd & Hv) & Hfr).
  set (m2 := MEMCPY _ _ _ _) in *. rewrite Esrc. fold dest. change (Z.to_nat 36) with 36%nat. set (m4 := icmph_chksum_set (icmph_chksum_set m2 x 0) x _) in *.
  assert (HI1 : forall m, net_ok (with_ps n (with_data s1 m)) (<[q := BHeap k']> B) (ext_add ext q)).
  { intros m. split; [|done]. eapply inv_ext_eq; [|apply inv_data; exact HI']. intros a _. unfold ext_add. cbn. case_decide; lia. }
  assert (Hcq : forall m, chain (with_data s1 m) q [(q, qb)]).
  { intros m. split; [split_and!; [done|apply lookup_insert_eq|done]|]. split_and!; [unfold_c; cbn; lia|done|unfold_c; cbn; lia|done]. }
  assert (Hfresh : forall r lr, chain (n_ps n) r lr -> own_data lr ->
    q ∉ lr.*1 /\ range (x - 20) (Z.to_nat (20 + 36)) ## addrs lr
    /\ forall m, (forall y, ~ (x <= y < x + 36) -> byte m y = byte (data (n_ps n)) y) -> chain (with_data s1 m) r lr /\ contents m lr = contents (data (n_ps n)) lr).
  { intros r lr Hr Hor. assert (Hqr : q ∉ lr.*1).
    { intros Hin. apply list_elem_of_fmap in Hin as ([a c] & -> & Hin). pose proof (seg_lookup _ _ _ _ _ _ (proj1 Hr) Hin). cbn in *. congruence. }
    assert (Hr1 : chain s1 r lr) by (split; [apply seg_insert; [apply Hr|done]|apply Hr]). destruct (layer_facts _ Hlay) as (? & _).
    pose proof (head_apart s1 _ _ q qb [] 20 r lr HI' (Hcq (data s1)) ltac:(by apply Forall_singleton) ltac:(lia) ltac:(cbn; lia) ltac:(cbn; lia) Hr1 Hor Hqr) as Har.
    split; [done|]. split; [exact Har|]. intros m Hm. split; [exact Hr1|]. apply contents_frame. intros y Hy. apply Hm. intros Hy'. apply (Har y); [|done].
    apply elem_of_range. cbn. lia. }
  change (with_ps (with_ps n s1) (with_data s1 m4)) with (with_ps n (with_data s1 m4)).
  change (with_ps (with_ps n s1) (with_data s1 m2)) with (with_ps n (with_data s1 m2)).
  destruct (ip4_route ns dest) as [nif|] eqn:Er.
  - destruct (Hsend nif eq_refl) as [Hna Hmtu]. assert (Hdest : is_u32 dest) by (by apply iph_src_range).
    destruct (output_if_full (with_ps n (with_data s1 m4)) (<[q := BHeap k']> B) (ext_add ext q) q qb [] None dest ICMP_TTL 0 IP_PROTO_ICMP nif 0)
      as (e & n1 & B1 & hchk & Eo & HIo & Hido & Hlog & Hhv & Hkeep); try done; [apply HI1|apply Hcq|unfold ext_add; rewrite decide_True by done; lia| |].
    { destruct (layer_facts _ Hlay) as (? & _). split_and!; [done|cbn; lia|cbn; lia|]. intros y _ Hy. by apply not_elem_of_nil in Hy. }
    rewrite Eo. cbn [mbind outcome_bind].
    destruct (net_free_spec n1 B1 ext q) as (n' & B' & Ef & Hok' & Hlk & _ & Hd' & Horefs); [split; [done|rewrite Hido; apply u16_range]|done|].
    rewrite Ef. exists n', B', [(netif_num nif, dest, ip_header 20 0 56 (ip_id n) 0 ICMP_TTL IP_PROTO_ICMP hchk (netif_ip4_addr nif) dest ++ icmp_error type code chk orig)].
    split; [done|]. split; [done|]. split; [|split; [right; by exists hchk, chk|]].
    + rewrite Hlk, Hlog. assert (Ec : contents m4 [(q, qb)] = icmp_error type code chk orig).
      { rewrite contents_cons. change (contents m4 []) with (@nil Z). rewrite app_nil_r. exact Hrd. }
      by rewrite <- Ec.
    + intros r lr Hr Her Hrn Hor. destruct (Hfresh r lr Hr Hor) as (Hqr & Har & Hm). destruct (Hm m4 ltac:(intros y Hy; by apply Hfr)) as [Hc4 Ed4].
      destruct (Hkeep r lr Hc4) as (l1 & S1 & S2 & S3); [unfold ext_add; case_decide; lia|done| | |].
      { intros a Ha Ha'. apply list_elem_of_singleton in Ha'. cbn in Ha'. by subst a. }
      { intros y Hy. apply Har. apply elem_of_range in Hy. cbn in Hy. apply elem_of_range. lia. }
      apply (same_packet_then _ (n_ps n1) _ r lr l1); [by split; [|split; [|rewrite S3]]|].
      apply (only_refs_packet _ _ _ _ r l1 (inv_not_null _ _ _ HIo) (proj1 Hok') Horefs Hd' S1). right. apply (inv_ext _ _ _ (proj1 Hok')); [done|lia].
  - cbn [mbind outcome_bind]. destruct (net_free_spec (with_ps n (with_data s1 m2)) (<[q := BHeap k']> B) ext q) as (n' & B' & Ef & Hok' & Hlk & _ & Hd' & Horefs); [apply HI1|done|].
    rewrite Ef. exists n', B', []. rewrite app_nil_r. split; [done|]. split; [done|]. split; [by rewrite Hlk|]. split; [done|].
    intros r lr Hr Her Hrn Hor. destruct (Hfresh r lr Hr Hor) as (Hqr & _ & Hm). destruct (Hm m2 ltac:(intros y Hy; by apply Hfr)) as [Hc2 Ed2].
    destruct (only_refs_packet _ _ _ _ r lr (inv_not_null _ _ _ (proj1 (HI1 m2))) (proj1 Hok') Horefs Hd' Hc2) as (l2 & S1 & S2 & S3).
    { right. apply (inv_ext _ _ _ (proj1 Hok')); [done|lia]. }
    exists l2. split; [done|]. split; [done|]. by rewrite S3.
Qed.

Lemma response_spec ns (n : inet) B ext p b k type code :
  net_ok n B ext -> pbufs (n_ps n) !! p = Some b -> B !! p = Some k -> p <= p_payload b -> p_payload b + 28 <= p + block_size k ->
  is_u8 type -> is_u8 code ->
  let orig := read_bytes (data (n_ps n)) (p_payload b) 28 in
  let dest := iph_src (data (n_ps n)) (p_payload b) in
  Forall is_u8 orig -> (forall nif, ip4_route ns dest = Some nif -> can_send nif 56) ->
  exists n' B' fs, icmp_send_response ns n p type code = Ret n' /\ net_ok n' B' ext /\ link_log (n_lk n') = link_log (n_lk n) ++ fs
    /\ match ip4_route ns dest with
       | None => fs = []
       | Some nif =>
           heap_full (n_ps n) PBUF_IP 36 /\ fs = []
           \/ exists hchk chk, let hdr := ip_header 20 0 56 (ip_id n) 0 ICMP_TTL IP_PROTO_ICMP hchk (netif_ip4_addr nif) dest in
                fs = [(netif_num nif, dest, hdr ++ icmp_error type code chk orig)]
                /\ inet_chksum 0 hdr = 0 /\ inet_chksum 0 (icmp_error type code chk orig) = 0
       end.
Proof.
  intros Hok Hb Hk H1 H2 Ht Hcd orig dest Ho Hsend.
  destruct (response_full ns n B ext p b k type code Hok Hb Hk H1 H2 Ht Hcd Ho Hsend) as (n' & B' & fs & E1 & E2 & E3 & E4 & _). by exists n', B', fs.
Qed.

(** The start of the data of a packet lies in its block. *)
Lemma own_block (s : pst) B ext p b n :
  pbuf_inv s B ext -> pbufs s !! p = Some b -> is_contiguous b = true -> is_custom b = false -> 0 < n <= p_len b ->
  exists k, B !! p = Some k /\ p <= p_payload b /\ p_payload b + n <= p + block_size k.
Proof.
  intros HI Hb Hcg Hcu Hn.
  destruct (own_data_block _ _ _ _ _ (p_payload b) HI Hb Hcg Hcu) as (k & Hk & R1); [apply elem_of_range; cbn; lia|].
  destruct (own_data_block _ _ _ _ _ (p_payload b + n - 1) HI Hb Hcg Hcu) as (k2 & Hk2 & R2); [apply elem_of_range; cbn; lia|].
  exists k. rewrite Hk in Hk2. injection Hk2 as <-. split; [done|lia].
Qed.

Lemma IPH_HL_BYTES_range m a : 0 <= IPH_HL_BYTES m a <= 60.
Proof.
  unfold IPH_HL_BYTES, IPH_HL. change 15 with (Z.ones 4). rewrite Z.land_ones by lia. change (2 ^ 4) with 16.
  rewrite u8_small by (unfold_c; Z.div_mod_to_equations; lia). Z.div_mod_to_equations. lia.
Qed.

(** The first byte of a packet and the type of its message. *)
(** A field of a header at the start of a packet. *)
Lemma header_load (s : pst) p b l (k n : nat) :
  chain s p ((p, b) :: l) -> k + n <= p_len b ->
  load n (data s) (p_payload b + k) = le_val (take n (drop k (contents (data s) ((p, b) :: l)))).
Proof.
  intros Hc Hk. rewrite contents_cons. unfold node_bytes. cbn [snd]. rewrite (load_part _ _ k n (Z.to_nat (p_len b))) by lia.
  rewrite drop_app_le by (rewrite read_bytes_length; lia). rewrite take_app_le; [done|]. rewrite length_drop, read_bytes_length. lia.
Qed.

Lemma first_byte (s : pst) p b l :
  chain s p ((p, b) :: l) -> 0 < p_len b -> take 1 (contents (data s) ((p, b) :: l)) = [load 1 (data s) (p_payload b)].
Proof.
  intros Hc Hl. rewrite contents_cons. unfold node_bytes. cbn [snd]. replace (Z.to_nat (p_len b)) with (S (Z.to_nat (p_len b - 1))) by lia.
  rewrite read_bytes_S. cbn. by rewrite Z.add_0_r.
Qed.

#[local] Instance echo_request_dec d : Decision (echo_request d).
Proof. unfold echo_request. apply _. Defined.

(** ** Properties *)

(** The message [d], of which [first] bytes are in the first pbuf, behind an IP header of
    [hlen] bytes, asks for an answer: it is a valid echo request to an address that is
    neither multicast nor broadcast, the header is not too short, and the first pbuf has
    the type, the code and the checksum. *)
Definition wants_reply (hlen first : Z) (ig : ip_globals) (d : list Z) : Prop :=
  20 <= hlen /\ 4 <= first /\ echo_request d /\ ip4_addr_ismulticast (current_iphdr_dest ig) = false
  /\ ip4_addr_isbroadcast_u32 (current_iphdr_dest ig) (current_netif ig) = false.

#[local] Instance wants_reply_dec hlen first ig d : Decision (wants_reply hlen first ig d).
Proof. unfold wants_reply. apply _. Defined.

(** C27: icmp_input answers an echo request and nothing else.  The reply has the IP
    header of the request with the addresses exchanged, the TTL of the host and a valid
    checksum, and the message of the request as an echo reply; its checksum, which is
    that of the request plus the change, is valid.  It is sent unless there was no room
    for a copy of the packet.  The packet is freed in every case, also when the header or
    the message is too short.  A request that is answered is assumed to fit the MTU of the
    interface, so that the reply is one packet. *)
Theorem icmp_input_correct (n : inet) B ext ig p b l inp :
  net_ok n B (ext_add ext p) -> chain (n_ps n) p ((p, b) :: l) -> p <> NULL -> p_ref b = 1 -> own_data ((p, b) :: l) -> no_empty_tail ((p, b) :: l) ->
  let hlen := IPH_HL_BYTES (data (n_ps n)) (current_ip4_header ig) in
  let h := read_bytes (data (n_ps n)) (current_ip4_header ig) (Z.to_nat hlen) in
  let d := contents (data (n_ps n)) ((p, b) :: l) in
  current_ip4_header ig = p_payload b - hlen -> p + SIZEOF_STRUCT_PBUF <= p_payload b - hlen ->
  is_u32 (current_iphdr_src ig) -> is_u32 (current_iphdr_dest ig) -> Forall is_u8 h -> Forall is_u8 d -> p_tot_len b + hlen < 65536 ->
  (wants_reply hlen (p_len b) ig d -> netif_mtu inp = 0 \/ p_tot_len b + hlen <= netif_mtu inp) ->
  exists n' B' fs, icmp_input n ig p inp = Ret n' /\ net_ok n' B' ext /\ ip_id n' = ip_id n /\ link_log (n_lk n') = link_log (n_lk n) ++ fs
    /\ if decide (wants_reply hlen (p_len b) ig d) then
         fs = [] /\ heap_full (n_ps n) PBUF_LINK (p_tot_len b + hlen)
         \/ exists hchk chk, let hdr := reply_header h (current_iphdr_dest ig) (current_iphdr_src ig) hchk in
              fs = [(netif_num inp, current_iphdr_src ig, hdr ++ reply_message d chk)]
              /\ inet_chksum 0 hdr = 0 /\ rfc1071_checksum (reply_message d chk) = 0
       else fs = [].
Proof.
  intros Hok Hc Hp Hr Hown Hnt hlen h d Eh Hroom Hs Hde Hh8 Hd8 Htot Hmtu.
  pose proof (IPH_HL_BYTES_range (data (n_ps n)) (current_ip4_header ig)) as Hh60. fold hlen in Hh60.
  pose proof (chain_cons _ _ _ _ _ Hc) as (_ & Hb & _ & Hbl & Ht & Hut & Htl).
  assert (Hld : Z.of_nat (length d) = p_tot_len b).
  { unfold d. rewrite contents_addrs, length_fmap. etrans; [apply addrs_length, Hc|]. symmetry. exact Ht. }
  assert (Hfree : forall R : list (Z * Z * list Z) -> Prop, ~ wants_reply hlen (p_len b) ig d ->
    exists n' B' fs, net_free n p = Ret n' /\ net_ok n' B' ext /\ ip_id n' = ip_id n /\ link_log (n_lk n') = link_log (n_lk n) ++ fs
      /\ if decide (wants_reply hlen (p_len b) ig d) then R fs else fs = []).
  { intros R Hno. destruct (net_free_spec n B ext p Hok Hp) as (n' & B' & E & Hok' & Hlk & Hid & _). exists n', B', [].
    destruct (decide (wants_reply hlen (p_len b) ig d)); [done|]. rewrite Hlk, app_nil_r. by split_and!; try apply Hok'. }
  unfold icmp_input. fold hlen. rewrite (deref_ok _ _ _ Hb). cbn [mbind outcome_bind].
  unfold IP_HLEN. destruct (Z.ltb_spec hlen 20) as [|Hh]; [apply Hfree; intros (? & _); lia|]. destruct (Z.ltb_spec (p_len b) 4) as [|Hl4]; [apply Hfree; intros (_ & ? & _); lia|].
  pose proof (first_byte (n_ps n) p b l Hc ltac:(lia)) as Hfst. fold d in Hfst.
  destruct (Z.eqb_spec (load 1 (data (n_ps n)) (p_payload b)) ICMP_ECHO) as [Ety|Ety].
  2:{ apply Hfree. intros (_ & _ & (Hty & _) & _). congruence. }
  destruct (ip4_addr_ismulticast (current_iphdr_dest ig)) eqn:Emc; [apply Hfree; intros (_ & _ & _ & ? & _); congruence|].
  destruct (ip4_addr_isbroadcast_u32 (current_iphdr_dest ig) (current_netif ig)) eqn:Ebc; [apply Hfree; intros (_ & _ & _ & _ & ?); congruence|].
  destruct (Z.ltb_spec (p_tot_len b) SIZEOF_ICMP_ECHO_HDR) as [Hsh|Hsh].
  { apply Hfree. intros (_ & _ & (_ & Hl & _) & _). unfold SIZEOF_ICMP_ECHO_HDR in Hsh. lia. }
  destruct (chain_segs_spec (n_ps n) B _ p _ (proj1 Hok) Hc) as (segs & Es & Hseg & Hsok). rewrite Es. cbn [mbind outcome_bind].
  rewrite (chksum_pbuf_rfc segs (Hsok Hd8)), Hseg. fold d.
  destruct (Z.eqb_spec (rfc1071_checksum d) 0) as [Ev|Ev]; cbn [negb]; [|apply Hfree; intros (_ & _ & (_ & _ & ?) & _); congruence].
  assert (Hw : wants_reply hlen (p_len b) ig d) by (do 2 (split; [done|]); split; [split; [by rewrite Hfst, Ety|unfold SIZEOF_ICMP_ECHO_HDR in Hsh; split; [lia|done]]|done]). specialize (Hmtu Hw).
  destruct (decide (wants_reply hlen (p_len b) ig d)) as [_|]; [|done]. unfold SIZEOF_ICMP_ECHO_HDR in Hsh.
  assert (HA : answerable n B ext p b l hlen h d).
  { split; try done; [by apply Forall_cons in Hown as [[? _] _]|by apply (grown_apart (n_ps n) B _ p b l hlen (proj1 Hok)); try done; lia|unfold h; by rewrite Eh]. }
  rewrite Eh. destruct (echo_room_spec n B ext p b l hlen h d HA Hown Hnt ltac:(lia) ltac:(lia)) as (r & n1 & Er & Hlog1 & Hid1 & Hr1). rewrite Er. cbn [mbind outcome_bind].
  destruct r as [q|].
  - destruct Hr1 as (B1 & qb & lq & HA1 & Etot).
    destruct (echo_reply_spec n1 B1 ext ig q qb lq hlen h d inp (current_iphdr_dest ig) HA1 ltac:(lia) Hde Hs Hh8) as (n2 & B2 & hchk & E2 & Hok2 & Hid2 & Hlog2 & Hhv); [by rewrite Etot|].
    rewrite E2. cbn [mbind outcome_bind]. destruct (net_free_spec n2 B2 ext q Hok2 (an_null _ _ _ _ _ _ _ _ _ HA1)) as (n' & B' & E & Hok' & Hlk & Hid & _).
    rewrite E. eexists n', B', _. split; [done|]. split; [done|]. split; [congruence|]. split; [rewrite Hlk, Hlog2, Hlog1; reflexivity|].
    right. exists hchk. eexists. split; [reflexivity|]. split; [exact Hhv|]. clear - Hfst Hld Hd8 Ev Hsh Ety. rewrite Ety in Hfst.
    destruct d as [|t [|k [|c0 [|c1 d]]]]; cbn in Hld; try lia. injection Hfst as ->.
    destruct (echo_chksum_valid k c0 c1 d Hd8 Ev) as [_ Hv]. cbn [take drop le_val] in *. rewrite Z.mul_0_r, Z.add_0_r. exact Hv.
  - destruct Hr1 as [Hok1 Hfull]. destruct (net_free_spec n1 B ext p Hok1 Hp) as (n' & B' & E & Hok' & Hlk & Hid & _).
    rewrite E. exists n', B', []. rewrite app_nil_r. split; [done|]. split; [done|]. split; [congruence|]. split; [congruence|]. by left.
Qed.

(** C28: icmp_dest_unreach and icmp_time_exceeded send to the source of a packet an error
    message with its IP header and 8 bytes of its data, on the interface ip4_route
    chooses for that address, with valid checksums; they do nothing when there is no
    route or no memory. *)
Theorem icmp_error_correct ns (n : inet) B ext p b l code :
  net_ok n B ext -> chain (n_ps n) p ((p, b) :: l) -> own_data ((p, b) :: l) -> 28 <= p_len b -> is_u8 code ->
  let orig := take 28 (contents (data (n_ps n)) ((p, b) :: l)) in
  let dest := iph_src (data (n_ps n)) (p_payload b) in
  Forall is_u8 orig -> (forall nif, ip4_route ns dest = Some nif -> can_send nif 56) ->
  forall send type, (send, type) = (icmp_dest_unreach, ICMP_DUR) \/ (send, type) = (icmp_time_exceeded, ICMP_TE) ->
  exists n' B' fs, send ns n p code = Ret n'
    /\ net_ok n' B' ext /\ link_log (n_lk n') = link_log (n_lk n) ++ fs
    /\ match ip4_route ns dest with
       | None => fs = []
       | Some nif =>
           heap_full (n_ps n) PBUF_IP 36 /\ fs = []
           \/ exists hchk chk, let hdr := ip_header 20 0 56 (ip_id n) 0 ICMP_TTL IP_PROTO_ICMP hchk (netif_ip4_addr nif) dest in
                fs = [(netif_num nif, dest, hdr ++ icmp_error type code chk orig)]
                /\ inet_chksum 0 hdr = 0 /\ inet_chksum 0 (icmp_error type code chk orig) = 0
       end.
Proof.
  intros Hok Hc Hown Hlen Hcd orig dest Ho Hsend send type Htype. pose proof (chain_cons _ _ _ _ _ Hc) as (_ & Hb & _ & Hbl & _).
  apply Forall_cons in Hown as [[Hcg Hcu] _]. cbn in Hcg, Hcu.
  destruct (own_block (n_ps n) B _ p b 28 (proj1 Hok) Hb Hcg Hcu ltac:(lia)) as (k & Hk & R1 & R2).
  assert (Eo : orig = read_bytes (data (n_ps n)) (p_payload b) 28).
  { unfold orig. rewrite contents_cons. unfold node_bytes. cbn [snd]. rewrite take_app_le by (rewrite read_bytes_length; lia).
    rewrite !read_bytes_range, <- fmap_take, range_take by lia. done. }
  assert (Ht8 : is_u8 type) by (destruct Htype as [[= _ ->]|[= _ ->]]; unfold ICMP_DUR, ICMP_TE; unfold_c; lia).
  rewrite Eo in Ho |- *. destruct (response_spec ns n B ext p b k type code Hok Hb Hk R1 R2 Ht8 Hcd Ho Hsend) as (n' & B' & fs & E & H1 & H2 & H3).
  exists n', B', fs. split; [|done]. by destruct Htype as [[= -> ->]|[= -> ->]].
Qed.
(** icmp_send_response copies an IP header and 8 bytes whatever the length of the
    packet.  About a packet with less than 28 bytes in its first pbuf, in a buffer that is
    larger (as those of the pool are), the message that goes out carries these bytes and
    after them, up to 28, what an earlier user left behind the packet in the buffer. *)
Theorem icmp_response_overread ns (n : inet) B ext p b k type code nif :
  net_ok n B ext -> pbufs (n_ps n) !! p = Some b -> B !! p = Some k -> p <= p_payload b -> p_payload b + 28 <= p + block_size k ->
  is_u8 type -> is_u8 code -> 20 <= p_len b < 28 -> Forall is_u8 (read_bytes (data (n_ps n)) (p_payload b) 28) ->
  let dest := iph_src (data (n_ps n)) (p_payload b) in
  let m := data (n_ps n) in
  ip4_route ns dest = Some nif -> can_send nif 56 -> ~ heap_full (n_ps n) PBUF_IP 36 ->
  exists n' hdr chk, icmp_send_response ns n p type code = Ret n' /\ length hdr = 20%nat
    /\ link_log (n_lk n') = link_log (n_lk n) ++ [(netif_num nif, dest, hdr ++ icmp_error type code chk (node_bytes m (p, b) ++ read_bytes m (p_payload b + p_len b) (Z.to_nat (28 - p_len b))))].
Proof.
  intros Hok Hb Hk H1 H2 Ht Hcd Hlen Ho dest m Hr Hcs Hf.
  destruct (response_spec ns n B ext p b k type code Hok Hb Hk H1 H2 Ht Hcd Ho) as (n' & B' & fs & E & _ & Hlog & Hfs); [intros nif' Hr'; fold dest in Hr'; congruence|].
  fold dest in Hfs. rewrite Hr in Hfs. destruct Hfs as [[? _]|(hchk & chk & -> & _)]; [done|]. exists n', (ip_header 20 0 56 (ip_id n) 0 ICMP_TTL IP_PROTO_ICMP hchk (netif_ip4_addr nif) dest), chk. split; [exact E|]. split; [reflexivity|].
  rewrite Hlog. do 5 f_equal. unfold node_bytes. cbn [snd]. rewrite !read_bytes_range, <- fmap_app. f_equal.
  replace (p_payload b + p_len b) with (p_payload b + Z.to_nat (p_len b)) by lia. rewrite <- range_app. f_equal. lia.
Qed.
End Facts.

(** ** Witnesses *)

(** An echo request of 100 bytes behind its IP header in the packet in RAM of
    PbufChain.v. *)
Definition echo_at : Z := p2 + SIZEOF_STRUCT_PBUF + 54.
Definition echo_net : net (Lk := list (Z * Z * list Z)) :=
  Net (with_data ps2 (write_bytes (write_bytes ∅ (echo_at - 20) iphdr0) echo_at [8; 0; 0xf7; 0xff])) [] 0.
Definition echo_ig : ip_globals := IpGlobals nif0 nif0 (echo_at - 20) 20 0x0a01a8c0 0x0201a8c0.

Lemma echo_net_bytes : bytes_ok (data (n_ps echo_net)).
Proof.
  change (bytes_ok (write_bytes (write_bytes ∅ (echo_at - 20) iphdr0) echo_at [8; 0; 0xf7; 0xff])).
  assert (H0 : bytes_ok ∅) by (intros a; vm_compute; intuition congruence).
  assert (H1 : Forall is_u8 iphdr0) by (apply (bool_decide_unpack _); vm_compute; exact I).
  assert (H2 : Forall is_u8 [8; 0; 0xf7; 0xff]) by (apply (bool_decide_unpack _); vm_compute; exact I).
  apply bytes_ok_write; [apply bytes_ok_write; [exact H0|exact H1]|exact H2].
Qed.

Lemma icmp_input_correct_witness : exists n', icmp_input echo_net echo_ig p2 nif0 = Ret n' /\ length (link_log (n_lk n')) = 1%nat.
Proof.
  destruct ps2_inv as (B & b1 & a2 & b2 & b & HI & _ & Hc2 & _ & _ & _ & _ & _ & L & R & T & C & P & Ho).
  assert (Eh : IPH_HL_BYTES (data (n_ps echo_net)) (current_ip4_header echo_ig) = 20) by (vm_compute; reflexivity).
  destruct (icmp_input_correct echo_net B (ext_add no_ext p1) echo_ig p2 b [] nif0) as (n' & B' & fs & E & _).
  - split; [|vm_compute; intuition congruence]. eapply inv_ext_eq; [|apply inv_data; exact HI]. intros a _. cbn [link_holds wire]. lia.
  - exact Hc2.
  - vm_compute. congruence.
  - exact R.
  - apply Forall_cons in Ho as [_ Ho]. apply Forall_cons in Ho as [_ Ho]. exact Ho.
  - split; [congruence|exact I].
  - rewrite Eh, P. vm_compute. reflexivity.
  - rewrite Eh, P. lia.
  - vm_compute. intuition congruence.
  - vm_compute. intuition congruence.
  - apply bytes_ok_read, echo_net_bytes.
  - rewrite contents_cons, app_nil_r. apply bytes_ok_read, echo_net_bytes.
  - rewrite Eh, T. lia.
  - intros _. right. rewrite Eh, T. vm_compute. congruence.
  - exists n'. split; [exact E|]. assert (Ev : match icmp_input echo_net echo_ig p2 nif0 with Ret n => length (link_log (n_lk n)) | Trap _ => 0%nat end = 1%nat) by (vm_compute; reflexivity).
    rewrite E in Ev. exact Ev.
Defined.

Lemma icmp_error_correct_witness : exists n', icmp_dest_unreach netifs0 frag_net p2 ICMP_DUR_PROTO = Ret n'.
Proof.
  destruct ps2_inv as (B & b1 & a2 & b2 & b & HI & _ & Hc2 & _ & _ & _ & _ & _ & L & R & T & C & P & Ho).
  destruct (icmp_error_correct netifs0 frag_net B (ext_add (ext_add no_ext p1) p2) p2 b [] ICMP_DUR_PROTO) with (send := @icmp_dest_unreach _ _ _ _ _ _) (type := ICMP_DUR) as (n' & _ & _ & E & _).
  - split; [|vm_compute; intuition congruence]. eapply inv_ext_eq; [|apply inv_data; exact HI]. intros a _. cbn [link_holds wire]. lia.
  - exact Hc2.
  - apply Forall_cons in Ho as [_ Ho]. apply Forall_cons in Ho as [_ Ho]. exact Ho.
  - rewrite L. lia.
  - vm_compute. intuition congruence.
  - apply Forall_take. rewrite contents_cons, app_nil_r. apply bytes_ok_read.
    apply bytes_ok_write; [intros a; vm_compute; intuition congruence|]. repeat constructor; vm_compute; intuition congruence.
  - intros nif Hn. assert (Er : ip4_route netifs0 (iph_src (data (n_ps frag_net)) (p_payload b)) = Some nif0) by (rewrite P; vm_compute; reflexivity).
    rewrite Er in Hn. injection Hn as <-.
    split; [vm_compute; intuition congruence|right; vm_compute; congruence].
  - left. reflexivity.
  - exists n'. exact E.
Defined.

(** ** A packet that is only an IP header, in a buffer of the pool with old bytes behind it *)

Definition alloc20 : Z * pstate :=
  match pbuf_alloc ps0 PBUF_RAW 20 PBUF_POOL with Ret r => r | Trap _ => (NULL, ps0) end.
Definition p20 : Z := fst alloc20.
Definition b20 : pbuf := match pbufs (snd alloc20) !! p20 with Some b => b | None => Pbuf NULL 0 0 0 0 0 0 0 end.
Definition net20 : net (Lk := list (Z * Z * list Z)) := Net (with_data (snd alloc20) (write_bytes ∅ (p_payload b20) (iphdr0 ++ [1; 2; 3; 4; 5; 6; 7; 8]))) [] 0.

Lemma alloc20_inv : pbuf_inv (snd alloc20) {[p20 := BPool]} (ext_add no_ext p20).
Proof.
  pose proof (alloc_pool_spec (S (Z.to_nat 20)) ps0 ∅ no_ext NULL NULL [] 20 0) as Ha.
  specialize (Ha ltac:(eapply inv_ext_eq; [|exact ps0_inv]; intros a Hn; unfold ext_add; by rewrite decide_False)
    eq_refl (Forall_nil_2 _) (or_introl (conj eq_refl eq_refl)) ltac:(lia) ltac:(vm_compute; intuition congruence)
    ltac:(unfold_c; lia) ltac:(lia)).
  assert (El : pool_lens (S (Z.to_nat 20)) 20 (PBUF_POOL_BUFSIZE_ALIGNED - LWIP_MEM_ALIGN_SIZE 0) = [20]) by (vm_compute; reflexivity).
  cbn zeta in Ha. rewrite El in Ha. destruct (decide _) as [_|Hno]; [|exfalso; apply Hno; vm_compute; lia].
  destruct Ha as (p & s' & q & l & E & -> & Hq & Hs & Ht & Hln & _ & Hall & _ & HI & _).
  assert (Er : alloc20 = (q, s')).
  { unfold alloc20, pbuf_alloc. change (u16 PBUF_RAW) with 0. change ((PBUF_POOL =? PBUF_REF) || (PBUF_POOL =? PBUF_ROM)) with false.
    change (PBUF_POOL =? PBUF_POOL) with true. cbv iota. rewrite E. reflexivity. }
  unfold p20. rewrite Er. cbn [fst snd]. destruct l as [|[a c] [|? ?]]; try discriminate Hln. destruct Hs as (-> & _). exact HI.
Qed.

Lemma net20_room : ~ heap_full (n_ps net20) PBUF_IP 36.
Proof.
  intros [st Hst]. specialize (Hst ltac:(vm_compute; intuition congruence)).
  assert (E : match pm_mem_malloc (pmem (n_ps net20)) (ram_request PBUF_IP 36) with Ret (None, _) => true | _ => false end = false) by (vm_compute; reflexivity).
  rewrite Hst in E. discriminate E.
Qed.

Lemma icmp_response_overread_witness :
  exists n' hdr chk, icmp_send_response netifs0 net20 p20 ICMP_DUR ICMP_DUR_PROTO = Ret n'
    /\ (link_log (n_lk n')).*2 = [hdr ++ icmp_error ICMP_DUR ICMP_DUR_PROTO chk (iphdr0 ++ [1; 2; 3; 4; 5; 6; 7; 8])].
Proof.
  destruct (icmp_response_overread netifs0 net20 {[p20 := BPool]} (ext_add no_ext p20) p20 b20 BPool ICMP_DUR ICMP_DUR_PROTO nif0) as (n' & hdr & chk & E & _ & Hlog).
  - split; [|vm_compute; intuition congruence]. eapply inv_ext_eq; [|apply inv_data; exact alloc20_inv]. intros a _. cbn [link_holds wire]. lia.
  - vm_compute. reflexivity.
  - apply lookup_singleton_eq.
  - vm_compute. congruence.
  - vm_compute. congruence.
  - vm_compute. intuition congruence.
  - vm_compute. intuition congruence.
  - vm_compute. intuition congruence.
  - apply (bool_decide_unpack _). vm_compute. exact I.
  - vm_compute. reflexivity.
  - split; [vm_compute; intuition congruence|right; vm_compute; congruence].
  - exact net20_room.
  - exists n', hdr, chk. split; [exact E|]. rewrite Hlog. vm_compute. reflexivity.
Defined.
