(* ===== verification/Reass.v ===== *)
(** * IPv4 reassembly (src/lwip/src/core/ipv4/ip4_frag.c)

    The queue of incomplete datagrams: elements of the pool MEMP_REASSDATA linked by
    addresses, each with the fragments received so far.  The fragments are packets of
    Pbuf.v, sorted by offset; a fragment's links and offsets (struct ip_reass_helper)
    overwrite its IP header in the packet's own memory, as in the code.

    Options: IP_REASS_CHECK_OVERLAP, IP_REASS_FREE_OLDEST, LWIP_ICMP and
    CHECKSUM_GEN_IP 1. *)

From S2P Require Import Prelude Def ListSeg InetChksum Ip4Addr Mem Memp Pbuf PbufMem PbufRef PbufChain PbufData Header Ip4 Ip4Frag Icmp.

#[local] Open Scope Z_scope.
#[local] Coercion Z.of_nat : nat >-> Z.

(** ** Constants and structures (include/lwip/ip4_frag.h, opt.h) *)

Definition IP_REASS_MAXAGE : Z := 15.
Definition IP_REASS_MAX_PBUFS : Z := 10.
Definition IP_REASS_FLAG_LASTFRAG : Z := 0x01.

Inductive validate := TELEGRAM_FINISHED | PBUF_QUEUED | PBUF_DROPPED.
#[global] Instance validate_eq_dec : EqDecision validate.
Proof. solve_decision. Defined.

(** struct ip_reass_helper *)
Definition next_pbuf (m : bytes) (h : Z) : Z := load 8 m h.
Definition iprh_start (m : bytes) (h : Z) : Z := load 2 m (h + 8).
Definition iprh_end (m : bytes) (h : Z) : Z := load 2 m (h + 10).
Definition next_pbuf_set (m : bytes) (h x : Z) : bytes := store 8 m h x.
Definition iprh_start_set (m : bytes) (h x : Z) : bytes := store 2 m (h + 8) x.
Definition iprh_end_set (m : bytes) (h x : Z) : bytes := store 2 m (h + 10) x.
Definition SIZEOF_IP_REASS_HELPER : Z := 12.

(** struct ip_reassdata; the copied header is the list of its bytes. *)
Record ip_reassdata := IpReassdata {
  ipr_next : Z;
  ipr_p : Z;
  ipr_iphdr : list Z;
  datagram_len : Z;
  ipr_flags : Z;
  ipr_timer : Z
}.

Definition with_ipr_next (r : ip_reassdata) (x : Z) : ip_reassdata := IpReassdata x (ipr_p r) (ipr_iphdr r) (datagram_len r) (ipr_flags r) (ipr_timer r).
Definition with_ipr_p (r : ip_reassdata) (x : Z) : ip_reassdata := IpReassdata (ipr_next r) x (ipr_iphdr r) (datagram_len r) (ipr_flags r) (ipr_timer r).
Definition with_iphdr (r : ip_reassdata) (x : list Z) : ip_reassdata := IpReassdata (ipr_next r) (ipr_p r) x (datagram_len r) (ipr_flags r) (ipr_timer r).
Definition with_last (r : ip_reassdata) (len flags : Z) : ip_reassdata := IpReassdata (ipr_next r) (ipr_p r) (ipr_iphdr r) len flags (ipr_timer r).
Definition with_ipr_timer (r : ip_reassdata) (x : Z) : ip_reassdata := IpReassdata (ipr_next r) (ipr_p r) (ipr_iphdr r) (datagram_len r) (ipr_flags r) x.

(** IP_ADDRESSES_AND_ID_MATCH of a copied header and the header of a fragment. *)
Definition IP_ADDRESSES_AND_ID_MATCH (hdr : list Z) (m : bytes) (fraghdr : Z) : bool :=
  (le_val (take 4 (drop 12 hdr)) =? iph_src m fraghdr) && (le_val (take 4 (drop 16 hdr)) =? iph_dest m fraghdr)
  && (le_val (take 2 (drop 4 hdr)) =? IPH_ID m fraghdr).

Section Reass.
Context `{MO : MemOptions} `{PO : PbufOptions} {St : Type} `{!PacketMemory St} {Lk : Type} `{!LinkLayer Lk St}
  {Pl : Type} `{!ElementPool Pl}.

Abbreviation inet := (net (St := St) (Lk := Lk)).

(** ** State *)

(** The layers below, the datagrams by address, the list of them, the number of pbufs
    queued and the pool. *)
Record reass := Reass {
  r_net : inet;
  r_data : gmap Z ip_reassdata;
  reassdatagrams : Z;
  ip_reass_pbufcount : Z;
  r_pool : Pl
}.

Definition with_rnet (s : reass) (x : inet) : reass := Reass x (r_data s) (reassdatagrams s) (ip_reass_pbufcount s) (r_pool s).
Definition with_rdata (s : reass) (x : gmap Z ip_reassdata) : reass := Reass (r_net s) x (reassdatagrams s) (ip_reass_pbufcount s) (r_pool s).
Definition with_rhead (s : reass) (x : Z) : reass := Reass (r_net s) (r_data s) x (ip_reass_pbufcount s) (r_pool s).
Definition with_count (s : reass) (x : Z) : reass := Reass (r_net s) (r_data s) (reassdatagrams s) x (r_pool s).
Definition with_rpool (s : reass) (x : Pl) : reass := Reass (r_net s) (r_data s) (reassdatagrams s) (ip_reass_pbufcount s) x.

Definition r_mem (s : reass) : bytes := data (n_ps (r_net s)).
Definition with_rmem (s : reass) (m : bytes) : reass := with_rnet s (with_ps (r_net s) (with_data (n_ps (r_net s)) m)).

Definition ipr_at (s : reass) (a : Z) : outcome ip_reassdata :=
  match r_data s !! a with Some r => Ret r | None => Trap "ip4_reass: dangling pointer" end.
Definition set_ipr (s : reass) (a : Z) (r : ip_reassdata) : reass := with_rdata s (<[a := r]> (r_data s)).

(** The payload of a pbuf. *)
Definition payload_of (s : reass) (p : Z) : outcome Z := b ← deref (n_ps (r_net s)) p; Ret (p_payload b).

Definition frag_fuel (s : reass) : nat := S (size (pbufs (n_ps (r_net s)))).
Definition ipr_fuel (s : reass) : nat := S (size (r_data s)).

(** ** Removing datagrams *)

Definition ip_reass_dequeue_datagram (s : reass) (ipr prev : Z) : outcome reass :=
  r ← ipr_at s ipr;
  s ← (if reassdatagrams s =? ipr then Ret (with_rhead s (ipr_next r))
       else
         LWIP_ASSERT "sanity check linked list" (negb (prev =? NULL));;
         pr ← ipr_at s prev;
         Ret (set_ipr s prev (with_ipr_next pr (ipr_next r))));
  pool ← pool_free (r_pool s) ipr;
  Ret (with_rdata (with_rpool s pool) (delete ipr (r_data s))).

(** The loop of ip_reass_free_complete_datagram over the fragments from [p] on. *)
Fixpoint free_frags (fuel : nat) (s : reass) (p pbufs_freed : Z) : outcome (Z * reass) :=
  if p =? NULL then Ret (pbufs_freed, s)
  else
    match fuel with
    | O => Trap "ip4_reass: fuel"
    | S fuel =>
        iprh ← payload_of s p;
        let next := next_pbuf (r_mem s) iprh in
        clen ← pbuf_clen (n_ps (r_net s)) p;
        LWIP_ASSERT "pbufs_freed + clen <= 0xffff" (pbufs_freed + clen <=? 0xffff);;
        n ← net_free (r_net s) p;
        free_frags fuel (with_rnet s n) next (u16 (pbufs_freed + clen))
    end.

(** Telling the source when the first fragment has come, and freeing that. *)
Definition report_first (ns : netifs) (s : reass) (ipr : Z) : outcome (Z * reass) :=
  r ← ipr_at s ipr;
  iprh ← payload_of s (ipr_p r);
  if iprh_start (r_mem s) iprh =? 0 then
    let p := ipr_p r in
    let s := set_ipr s ipr (with_ipr_p r (next_pbuf (r_mem s) iprh)) in
    let s := with_rmem s (write_bytes (r_mem s) iprh (ipr_iphdr r)) in
    n ← icmp_time_exceeded ns (r_net s) p ICMP_TE_FRAG;
    let s := with_rnet s n in
    clen ← pbuf_clen (n_ps (r_net s)) p;
    LWIP_ASSERT "pbufs_freed + clen <= 0xffff" (clen <=? 0xffff);;
    n ← net_free (r_net s) p;
    Ret (u16 clen, with_rnet s n)
  else Ret (0, s).

Definition ip_reass_free_complete_datagram (ns : netifs) (s : reass) (ipr prev : Z) : outcome (Z * reass) :=
  LWIP_ASSERT "prev != ipr" (negb (prev =? ipr));;
  (if negb (prev =? NULL) then pr ← ipr_at s prev; LWIP_ASSERT "prev->next == ipr" (ipr_next pr =? ipr) else Ret tt);;
  '(pbufs_freed, s) ← report_first ns s ipr;
  r ← ipr_at s ipr;
  '(pbufs_freed, s) ← free_frags (frag_fuel s) s (ipr_p r) pbufs_freed;
  s ← ip_reass_dequeue_datagram s ipr prev;
  LWIP_ASSERT "ip_reass_pbufcount >= pbufs_freed" (pbufs_freed <=? ip_reass_pbufcount s);;
  Ret (pbufs_freed, with_count s (u16 (ip_reass_pbufcount s - pbufs_freed))).

(** The loop of ip_reass_tmr. *)
Fixpoint reass_tmr_loop (fuel : nat) (ns : netifs) (s : reass) (r prev : Z) : outcome reass :=
  if r =? NULL then Ret s
  else
    match fuel with
    | O => Trap "ip4_reass: fuel"
    | S fuel =>
        d ← ipr_at s r;
        if 0 <? ipr_timer d then reass_tmr_loop fuel ns (set_ipr s r (with_ipr_timer d (ipr_timer d - 1))) (ipr_next d) r
        else
          '(_, s) ← ip_reass_free_complete_datagram ns s r prev;
          reass_tmr_loop fuel ns s (ipr_next d) prev
    end.

Definition ip_reass_tmr (ns : netifs) (s : reass) : outcome reass := reass_tmr_loop (ipr_fuel s) ns s (reassdatagrams s) NULL.

(** The search for the oldest datagram other than that of [fraghdr]: the oldest one, the
    one before it and the number of other datagrams. *)
Fixpoint oldest_loop (fuel : nat) (s : reass) (fraghdr r oldest prev oldest_prev other_datagrams : Z) : outcome (Z * Z * Z) :=
  if r =? NULL then Ret (oldest, oldest_prev, other_datagrams)
  else
    match fuel with
    | O => Trap "ip4_reass: fuel"
    | S fuel =>
        d ← ipr_at s r;
        '(oldest, oldest_prev, other_datagrams) ←
          (if negb (IP_ADDRESSES_AND_ID_MATCH (ipr_iphdr d) (r_mem s) fraghdr) then
             if oldest =? NULL then Ret (r, prev, other_datagrams + 1)
             else
               o ← ipr_at s oldest;
               if ipr_timer d <=? ipr_timer o then Ret (r, prev, other_datagrams + 1) else Ret (oldest, oldest_prev, other_datagrams + 1)
           else Ret (oldest, oldest_prev, other_datagrams));
        oldest_loop fuel s fraghdr (ipr_next d) oldest (if negb (ipr_next d =? NULL) then r else prev) oldest_prev other_datagrams
    end.

(** The rounds of ip_reass_remove_oldest_datagram. *)
Fixpoint remove_oldest_loop (fuel : nat) (ns : netifs) (s : reass) (fraghdr pbufs_needed pbufs_freed : Z) : outcome (Z * reass) :=
  match fuel with
  | O => Trap "ip4_reass: fuel"
  | S fuel =>
      '(oldest, oldest_prev, other_datagrams) ← oldest_loop (ipr_fuel s) s fraghdr (reassdatagrams s) NULL NULL NULL 0;
      '(pbufs_freed, s) ←
        (if negb (oldest =? NULL) then
           '(k, s) ← ip_reass_free_complete_datagram ns s oldest oldest_prev;
           Ret (pbufs_freed + k, s)
         else Ret (pbufs_freed, s));
      if (pbufs_freed <? pbufs_needed) && (1 <? other_datagrams) then remove_oldest_loop fuel ns s fraghdr pbufs_needed pbufs_freed
      else Ret (pbufs_freed, s)
  end.

Definition ip_reass_remove_oldest_datagram (ns : netifs) (s : reass) (fraghdr pbufs_needed : Z) : outcome (Z * reass) :=
  remove_oldest_loop (ipr_fuel s) ns s fraghdr pbufs_needed 0.

(** ** Adding a fragment *)

Definition ip_reass_enqueue_new_datagram (ns : netifs) (s : reass) (fraghdr clen : Z) : outcome (Z * reass) :=
  '(ipr, pool) ← pool_malloc (r_pool s);
  let s := with_rpool s pool in
  '(ipr, s) ←
    (match ipr with
     | Some ipr => Ret (Some ipr, s)
     | None =>
         '(freed, s) ← ip_reass_remove_oldest_datagram ns s fraghdr clen;
         if clen <=? freed then
           '(ipr, pool) ← pool_malloc (r_pool s);
           Ret (ipr, with_rpool s pool)
         else Ret (None, s)
     end);
  match ipr with
  | None => Ret (NULL, s)
  | Some ipr =>
      let r := IpReassdata (reassdatagrams s) NULL (read_bytes (r_mem s) fraghdr (Z.to_nat IP_HLEN)) 0 0 IP_REASS_MAXAGE in
      Ret (ipr, with_rhead (set_ipr s ipr r) ipr)
  end.

(** The search for the place of the fragment [new_p] (its helper at [iprh]) in the list
    from [q] on: None when it is dropped; otherwise the fragment behind it, the helper
    before it and whether there was no hole so far. *)
Fixpoint place_loop (fuel : nat) (s : reass) (ipr new_p iprh q iprh_prev : Z) (valid : bool) : outcome (option (Z * Z * bool) * reass) :=
  if q =? NULL then Ret (Some (NULL, iprh_prev, valid), s)
  else
    match fuel with
    | O => Trap "ip4_reass: fuel"
    | S fuel =>
        iprh_tmp ← payload_of s q;
        let m := r_mem s in
        if iprh_start m iprh <? iprh_start m iprh_tmp then
          let m := next_pbuf_set m iprh q in
          let s := with_rmem s m in
          if negb (iprh_prev =? NULL) then
            if (iprh_start m iprh <? iprh_end m iprh_prev) || (iprh_start m iprh_tmp <? iprh_end m iprh) then Ret (None, s)
            else
              let m := next_pbuf_set m iprh_prev new_p in
              Ret (Some (q, iprh_prev, valid && (iprh_end m iprh_prev =? iprh_start m iprh)), with_rmem s m)
          else if iprh_start m iprh_tmp <? iprh_end m iprh then Ret (None, s)
          else
            r ← ipr_at s ipr;
            Ret (Some (q, iprh_prev, valid), set_ipr s ipr (with_ipr_p r new_p))
        else if iprh_start m iprh =? iprh_start m iprh_tmp then Ret (None, s)
        else if iprh_start m iprh <? iprh_end m iprh_tmp then Ret (None, s)
        else
          let valid := if negb (iprh_prev =? NULL) then valid && (iprh_end m iprh_prev =? iprh_start m iprh_tmp) else valid in
          place_loop fuel s ipr new_p iprh (next_pbuf m iprh_tmp) iprh_tmp valid
    end.

(** The loop that looks for holes behind the new fragment: whether there is none, and the
    last helper. *)
Fixpoint holes_loop (fuel : nat) (s : reass) (iprh q : Z) : outcome (bool * Z) :=
  if q =? NULL then Ret (true, iprh)
  else
    match fuel with
    | O => Trap "ip4_reass: fuel"
    | S fuel =>
        h ← payload_of s q;
        if negb (iprh_end (r_mem s) iprh =? iprh_start (r_mem s) h) then Ret (false, h) else holes_loop fuel s h (next_pbuf (r_mem s) h)
    end.

(** Linking a fragment that belongs behind all the others ([q] is NULL). *)
Definition append_frag (s : reass) (ipr new_p iprh q iprh_prev : Z) (valid : bool) : outcome (bool * reass) :=
  if q =? NULL then
    if negb (iprh_prev =? NULL) then
      LWIP_ASSERT "check fragments don't overlap" (iprh_end (r_mem s) iprh_prev <=? iprh_start (r_mem s) iprh);;
      let m := next_pbuf_set (r_mem s) iprh_prev new_p in
      Ret (valid && (iprh_end m iprh_prev =? iprh_start m iprh), with_rmem s m)
    else
      r ← ipr_at s ipr;
      LWIP_ASSERT "no previous fragment, this must be the first fragment!" (ipr_p r =? NULL);;
      Ret (valid, set_ipr s ipr (with_ipr_p r new_p))
  else Ret (valid, s).

(** Whether the datagram is complete. *)
Definition check_complete (s : reass) (ipr iprh : Z) (is_last valid : bool) : outcome validate :=
  r ← ipr_at s ipr;
  if is_last || negb (Z.land (ipr_flags r) IP_REASS_FLAG_LASTFRAG =? 0) then
    if valid then
      if ipr_p r =? NULL then Ret PBUF_QUEUED
      else
        first ← payload_of s (ipr_p r);
        if negb (iprh_start (r_mem s) first =? 0) then Ret PBUF_QUEUED
        else
          '(whole, h) ← holes_loop (frag_fuel s) s iprh (next_pbuf (r_mem s) iprh);
          if whole : bool then
            LWIP_ASSERT "sanity check" (negb (first =? h));;
            LWIP_ASSERT "validate_datagram:next_pbuf!=NULL" (next_pbuf (r_mem s) h =? NULL);;
            Ret TELEGRAM_FINISHED
          else Ret PBUF_QUEUED
    else Ret PBUF_QUEUED
  else Ret PBUF_QUEUED.

Definition ip_reass_chain_frag_into_datagram_and_validate (s : reass) (ipr new_p : Z) (is_last : bool) : outcome (validate * reass) :=
  fraghdr ← payload_of s new_p;
  let m := r_mem s in
  let len := lwip_htons (IPH_LEN m fraghdr) in
  let hlen := IPH_HL_BYTES m fraghdr in
  if len <? hlen then Ret (PBUF_DROPPED, s)
  else
    let len := u16 (len - hlen) in
    let offset := IPH_OFFSET_BYTES m fraghdr in
    LWIP_ASSERT "sizeof(struct ip_reass_helper) <= IP_HLEN" (SIZEOF_IP_REASS_HELPER <=? IP_HLEN);;
    let iprh := fraghdr in
    let m := next_pbuf_set m iprh NULL in
    let m := iprh_start_set m iprh offset in
    let m := iprh_end_set m iprh (u16 (offset + len)) in
    let s := with_rmem s m in
    if iprh_end m iprh <? offset then Ret (PBUF_DROPPED, s)
    else
      r ← ipr_at s ipr;
      '(place, s) ← place_loop (frag_fuel s) s ipr new_p iprh (ipr_p r) NULL true;
      match place with
      | None => Ret (PBUF_DROPPED, s)
      | Some (q, iprh_prev, valid) =>
          '(valid, s) ← append_frag s ipr new_p iprh q iprh_prev valid;
          v ← check_complete s ipr iprh is_last valid;
          Ret (v, s)
      end.

(** ** ip4_reass *)

(** The search for the datagram of the fragment. *)
Fixpoint find_ipr (fuel : nat) (s : reass) (fraghdr ipr : Z) : outcome Z :=
  if ipr =? NULL then Ret NULL
  else
    match fuel with
    | O => Trap "ip4_reass: fuel"
    | S fuel =>
        r ← ipr_at s ipr;
        if IP_ADDRESSES_AND_ID_MATCH (ipr_iphdr r) (r_mem s) fraghdr then Ret ipr else find_ipr fuel s fraghdr (ipr_next r)
    end.

(** The search for the datagram before [ipr]. *)
Fixpoint find_prev (fuel : nat) (s : reass) (ipr prev : Z) : outcome Z :=
  if prev =? NULL then Ret NULL
  else
    match fuel with
    | O => Trap "ip4_reass: fuel"
    | S fuel => r ← ipr_at s prev; if ipr_next r =? ipr then Ret prev else find_prev fuel s ipr (ipr_next r)
    end.

(** The loop that chains the fragments from [r] on behind [p]. *)
Fixpoint chain_frags (fuel : nat) (s : reass) (p r : Z) : outcome reass :=
  if r =? NULL then Ret s
  else
    match fuel with
    | O => Trap "ip4_reass: fuel"
    | S fuel =>
        iprh ← payload_of s r;
        '(_, ps) ← pbuf_remove_header (n_ps (r_net s)) r IP_HLEN;
        ps ← pbuf_cat ps p r;
        let s := with_rnet s (with_ps (r_net s) ps) in
        chain_frags fuel s p (next_pbuf (r_mem s) iprh)
    end.

(** pbuf_free at the label nullreturn. *)
Definition null_return (s : reass) (p : Z) : outcome (Z * reass) := n ← net_free (r_net s) p; Ret (NULL, with_rnet s n).

(** The label nullreturn_ipr. *)
Definition null_return_ipr (s : reass) (p ipr : Z) : outcome (Z * reass) :=
  LWIP_ASSERT "ipr != NULL" (negb (ipr =? NULL));;
  r ← ipr_at s ipr;
  s ← (if ipr_p r =? NULL then
         LWIP_ASSERT "not firstalthough just enqueued" (ipr =? reassdatagrams s);;
         ip_reass_dequeue_datagram s ipr NULL
       else Ret s);
  null_return s p.

(** The part of ip4_reass for a complete datagram. *)
Definition reass_finish (s : reass) (ipr : Z) : outcome (Z * reass) :=
  d ← ipr_at s ipr;
  let len := u16 (datagram_len d + IP_HLEN) in
  fraghdr ← payload_of s (ipr_p d);
  let r := next_pbuf (r_mem s) fraghdr in
  let m := write_bytes (r_mem s) fraghdr (ipr_iphdr d) in
  let m := IPH_LEN_SET m fraghdr (lwip_htons len) in
  let m := IPH_OFFSET_SET m fraghdr 0 in
  let m := IPH_CHKSUM_SET m fraghdr 0 in
  let m := IPH_CHKSUM_SET m fraghdr (inet_chksum fraghdr (read_bytes m fraghdr (Z.to_nat IP_HLEN))) in
  let s := with_rmem s m in
  let p := ipr_p d in
  s ← chain_frags (frag_fuel s) s p r;
  ipr_prev ← (if ipr =? reassdatagrams s then Ret NULL else find_prev (ipr_fuel s) s ipr (reassdatagrams s));
  s ← ip_reass_dequeue_datagram s ipr ipr_prev;
  clen ← pbuf_clen (n_ps (r_net s)) p;
  LWIP_ASSERT "ip_reass_pbufcount >= clen" (clen <=? ip_reass_pbufcount s);;
  Ret (p, with_count s (u16 (ip_reass_pbufcount s - clen))).

(** The part of ip4_reass that adds the fragment to the datagram [ipr]. *)
Definition reass_add (s : reass) (p fraghdr ipr offset len clen : Z) : outcome (Z * reass) :=
  let is_last := Z.land (IPH_OFFSET (r_mem s) fraghdr) (PP_HTONS IP_MF) =? 0 in
  let datagram_len := u16 (offset + len) in
  if is_last && ((datagram_len <? offset) || (0xFFFF - IP_HLEN <? datagram_len)) then null_return_ipr s p ipr
  else
    '(valid, s) ← ip_reass_chain_frag_into_datagram_and_validate s ipr p is_last;
    if decide (valid = PBUF_DROPPED) then null_return_ipr s p ipr
    else
      let s := with_count s (u16 (ip_reass_pbufcount s + clen)) in
      s ← (if is_last then r ← ipr_at s ipr; Ret (set_ipr s ipr (with_last r datagram_len (Z.lor (ipr_flags r) IP_REASS_FLAG_LASTFRAG))) else Ret s);
      if decide (valid = TELEGRAM_FINISHED) then reass_finish s ipr else Ret (NULL, s).

(** The limit on the number of pbufs: whether there are too many for the fragment. *)
Definition limit_pbufs (ns : netifs) (s : reass) (fraghdr clen : Z) : outcome (bool * reass) :=
  if IP_REASS_MAX_PBUFS <? ip_reass_pbufcount s + clen then
    '(freed, s) ← ip_reass_remove_oldest_datagram ns s fraghdr clen;
    Ret ((freed =? 0) || (IP_REASS_MAX_PBUFS <? ip_reass_pbufcount s + clen), s)
  else Ret (false, s).

Definition ip4_reass (ns : netifs) (s : reass) (p : Z) : outcome (Z * reass) :=
  fraghdr ← payload_of s p;
  if negb (IPH_HL_BYTES (r_mem s) fraghdr =? IP_HLEN) then null_return s p
  else
    let offset := IPH_OFFSET_BYTES (r_mem s) fraghdr in
    let len := lwip_htons (IPH_LEN (r_mem s) fraghdr) in
    let hlen := IPH_HL_BYTES (r_mem s) fraghdr in
    if len <? hlen then null_return s p
    else
      let len := u16 (len - hlen) in
      clen ← pbuf_clen (n_ps (r_net s)) p;
      '(full, s) ← limit_pbufs ns s fraghdr clen;
      if full : bool then null_return s p
      else
        ipr ← find_ipr (ipr_fuel s) s fraghdr (reassdatagrams s);
        if ipr =? NULL then
          '(ipr, s) ← ip_reass_enqueue_new_datagram ns s fraghdr clen;
          if ipr =? NULL then null_return s p else reass_add s p fraghdr ipr offset len clen
        else
          r ← ipr_at s ipr;
          let s :=
            if (Z.land (lwip_htons (IPH_OFFSET (r_mem s) fraghdr)) IP_OFFMASK =? 0)
               && negb (Z.land (lwip_htons (le_val (take 2 (drop 6 (ipr_iphdr r))))) IP_OFFMASK =? 0)
            then set_ipr s ipr (with_iphdr r (read_bytes (r_mem s) fraghdr (Z.to_nat IP_HLEN))) else s in
          reass_add s p fraghdr ipr offset len clen.
End Reass.
