(* ===== verification/ReassQueue.v ===== *)
(** * Reassembly: the queue of datagrams

    The specification of the queue (fragments sorted by offset, datagrams), the invariant
    that relates it to the memory of the code, and its lemmas. *)

From S2P Require Import Prelude Def ListSeg InetChksum Ip4Addr Mem Memp Pbuf PbufMem PbufRef PbufChain PbufData Header Ip4 Ip4Frag Icmp IcmpSpec Reass.

#[local] Open Scope Z_scope.
#[local] Coercion Z.of_nat : nat >-> Z.

(** ** Specification: fragments *)

(** A queued fragment: the addresses of its pbufs, its offset and its data. *)
Record frag := Frag { f_as : list Z; f_start : Z; f_data : list Z }.

Definition f_p (f : frag) : Z := default NULL (head (f_as f)).
Definition f_end (f : frag) : Z := f_start f + length (f_data f).

(** Sorted by offset and without overlap. *)
Fixpoint ordered (fs : list frag) : Prop :=
  match fs with
  | f :: ((g :: _) as r) => f_end f <= f_start g /\ f_start f < f_start g /\ ordered r
  | _ => True
  end.

(** The place of a fragment in a sorted list: the fragments before and behind it; None
    when it overlaps one of them. *)
Fixpoint place (f : frag) (fs : list frag) : option (list frag * list frag) :=
  match fs with
  | [] => Some ([], [])
  | g :: r =>
      if f_start f <? f_start g then if f_start g <? f_end f then None else Some ([], fs)
      else if f_start f =? f_start g then None
      else if f_start f <? f_end g then None
      else (λ ab, (g :: ab.1, ab.2)) <$> place f r
  end.

(** Each fragment starts where the one before it ends. *)
Fixpoint links (fs : list frag) : bool :=
  match fs with
  | f :: ((g :: _) as r) => (f_end f =? f_start g) && links r
  | _ => true
  end.

(** The fragments are all the data from the start on. *)
Definition whole (fs : list frag) : bool :=
  match fs with f :: _ => (f_start f =? 0) && links fs | [] => false end.

(** ** Specification: datagrams *)

(** A datagram in the queue: the address of its structure, the header of the packet it
    will be, the length and the flags, the timer and the fragments. *)
Record dgram := Dgram { dg_a : Z; dg_hdr : list Z; dg_len : Z; dg_flags : Z; dg_timer : Z; dg_fs : list frag }.

Definition frags (D : list dgram) : list frag := D ≫= dg_fs.
Definition nodes (fs : list frag) : list Z := fs ≫= f_as.

(** The pointers of the queue to the packet [a]. *)
Definition held (fs : list frag) (a : Z) : nat := length (filter (λ f, f_p f = a) fs).

Definition first_p (fs : list frag) : Z := match fs with f :: _ => f_p f | [] => NULL end.

(** The structure of the code for a datagram. *)
Definition reassdata_of (d : dgram) (next : Z) : ip_reassdata :=
  IpReassdata next (first_p (dg_fs d)) (dg_hdr d) (dg_len d) (dg_flags d) (dg_timer d).

(** The list of them. *)
Fixpoint dseg (m : gmap Z ip_reassdata) (p : Z) (D : list dgram) (e : Z) : Prop :=
  match D with
  | [] => p = e
  | d :: D => p = dg_a d /\ exists next, m !! p = Some (reassdata_of d next) /\ dseg m next D e
  end.

(** ** Lemmas: fragments *)

Lemma ordered_cons f fs : ordered (f :: fs) -> ordered fs.
Proof. destruct fs as [|g fs]; [done|]. by intros (_ & _ & ?). Qed.

Lemma ordered_head f fs : ordered (f :: fs) -> Forall (λ g, f_end f <= f_start g /\ f_start f < f_start g) fs.
Proof.
  revert f. induction fs as [|g fs IH]; intros f; [constructor|]. intros (H1 & H2 & H3). constructor; [done|]. eapply Forall_impl; [by apply IH|]. cbn. intros h [? ?].
  assert (f_start g <= f_end g) by (unfold f_end; lia). lia.
Qed.

Lemma place_app f fs a b : place f fs = Some (a, b) -> fs = a ++ b.
Proof.
  revert a b. induction fs as [|g r IH]; intros a b E; cbn in E; [by injection E as <- <-|]. destruct (f_start f <? f_start g); [destruct (f_start g <? f_end f); [done|by injection E as <- <-]|].
  destruct (f_start f =? f_start g); [done|]. destruct (f_start f <? f_end g); [done|]. destruct (place f r) as [[a' b']|]; [|done]. injection E as <- <-. cbn. f_equal. by apply IH.
Qed.

Lemma place_ordered f fs a b : ordered fs -> place f fs = Some (a, b) -> ordered (a ++ f :: b).
Proof.
  revert a b. induction fs as [|g r IH]; intros a b Ho E; cbn in E; [by injection E as <- <-|].
  destruct (Z.ltb_spec (f_start f) (f_start g)) as [Hlt|Hge].
  - destruct (Z.ltb_spec (f_start g) (f_end f)); [done|]. injection E as <- <-. by split.
  - destruct (Z.eqb_spec (f_start f) (f_start g)); [done|]. destruct (Z.ltb_spec (f_start f) (f_end g)) as [|Hg]; [done|].
    destruct (place f r) as [[a' b']|] eqn:Er; [|done]. injection E as <- <-. specialize (IH a' b' (ordered_cons _ _ Ho) eq_refl).
    pose proof (place_app _ _ _ _ Er) as ->. destruct a' as [|h a']; [cbn in *; split_and!; [lia|lia|exact IH]|]. destruct Ho as (O1 & O2 & _). by split_and!.
Qed.

Lemma links_app a f b : links (a ++ f :: b) = links (a ++ [f]) && links (f :: b).
Proof.
  induction a as [|g a IH]; [done|]. destruct a as [|h a]; [change (links ([g] ++ f :: b)) with ((f_end g =? f_start f) && links (f :: b)); by cbn; rewrite andb_true_r|].
  cbn [app links] in *. rewrite IH. by rewrite andb_assoc.
Qed.

(** ** Lemmas: datagrams *)

Lemma frags_app D1 D2 : frags (D1 ++ D2) = frags D1 ++ frags D2.
Proof. unfold frags. by rewrite bind_app. Qed.
Lemma frags_cons d D : frags (d :: D) = dg_fs d ++ frags D.
Proof. done. Qed.
Lemma nodes_app a b : nodes (a ++ b) = nodes a ++ nodes b.
Proof. unfold nodes. by rewrite bind_app. Qed.
Lemma nodes_cons f fs : nodes (f :: fs) = f_as f ++ nodes fs.
Proof. done. Qed.
Lemma held_app a b x : held (a ++ b) x = (held a x + held b x)%nat.
Proof. unfold held. by rewrite filter_app, length_app. Qed.
Lemma held_cons f fs x : held (f :: fs) x = ((if decide (f_p f = x) then 1 else 0) + held fs x)%nat.
Proof. unfold held. rewrite filter_cons. by case_decide. Qed.
Lemma held_pos f fs : f ∈ fs -> (0 < held fs (f_p f))%nat.
Proof. intros H. unfold held. assert (f ∈ filter (λ g, f_p g = f_p f) fs) as Hin by (by apply list_elem_of_filter). by destruct (filter _ fs); [apply not_elem_of_nil in Hin|cbn; lia]. Qed.

#[global] Instance nodes_perm : Proper ((≡ₚ) ==> (≡ₚ)) nodes.
Proof. intros a b H. unfold nodes. by rewrite H. Qed.
#[global] Instance frags_perm : Proper ((≡ₚ) ==> (≡ₚ)) frags.
Proof. intros a b H. unfold frags. by rewrite H. Qed.
Lemma held_perm a b x : a ≡ₚ b -> held a x = held b x.
Proof. intros H. unfold held. by rewrite H. Qed.

Lemma dseg_app m p D1 D2 e : dseg m p (D1 ++ D2) e <-> exists q, dseg m p D1 q /\ dseg m q D2 e.
Proof.
  revert p. induction D1 as [|d D1 IH]; intros p; cbn; [split; [by exists p|by intros (q & -> & ?)]|]. setoid_rewrite IH. split.
  - intros (-> & next & Hm & q & H1 & H2). exists q. split; [split; [done|by exists next]|done].
  - intros (q & (-> & next & Hm & H1) & H2). split; [done|]. exists next. split; [done|by exists q].
Qed.

Lemma dseg_frame m m' p D e : dseg m p D e -> (forall a, a ∈ dg_a <$> D -> m' !! a = m !! a) -> dseg m' p D e.
Proof.
  revert p. induction D as [|d D IH]; intros p Hs Hm; [done|]. destruct Hs as (-> & next & Hd & Hs). split; [done|]. exists next. rewrite Hm by (by left). split; [done|].
  apply IH; [done|]. intros a Ha. apply Hm. by right.
Qed.

Section Facts.
Context `{MO : MemOptions} {MOk : MemOptionsOk} `{PO : PbufOptions} {POk : PbufOptionsOk} {St : Type} `{!PacketMemory St} {Lk : Type} `{LL : !LinkLayer Lk St} {Pl : Type} `{EP : !ElementPool Pl}.
Abbreviation reass := (reass (St := St) (Lk := Lk) (Pl := Pl)).
Abbreviation inet := (net (St := St) (Lk := Lk)).
Abbreviation pst := (pstate (St := St)).

(** ** Lemmas: packets that are held once *)

Lemma preds_one (m : gmap Z pbuf) x b a : m !! x = Some b -> p_next b = a -> (1 <= preds m a)%nat.
Proof.
  intros Hx Ha. unfold preds. rewrite <- (map_size_singleton x b). apply map_subseteq_size. apply map_singleton_subseteq_l, map_lookup_filter_Some. done.
Qed.

Lemma preds_two (m : gmap Z pbuf) x b y c a : m !! x = Some b -> m !! y = Some c -> x <> y -> p_next b = a -> p_next c = a -> (2 <= preds m a)%nat.
Proof.
  intros Hx Hy Hne Ha Hc. unfold preds. replace 2%nat with (size (<[x := b]> ({[y := c]} : gmap Z pbuf))).
  - apply map_subseteq_size. apply insert_subseteq_l; [by apply map_lookup_filter_Some|]. by apply map_singleton_subseteq_l, map_lookup_filter_Some.
  - rewrite map_size_insert_None, map_size_singleton; [done|]. by apply lookup_singleton_None.
Qed.

(** A packet held by one pointer to its head, and linked to from nowhere else, shares no
    pbuf with another packet that is held. *)
Lemma once_apart (s : pst) B ext p lp q lq :
  pbuf_inv s B ext -> chain s p lp -> Forall (λ x, p_ref x.2 = 1) lp -> (0 < ext p)%nat -> chain s q lq -> (0 < ext q)%nat -> p <> q -> lp.*1 ## lq.*1.
Proof.
  intros HI [Hp _] Hr Hep [Hq _] Heq Hne. assert (Hpq : forall lp1 lp2, lp = lp1 ++ lp2 -> forall x b, (x, b) ∈ lp1 -> x ∉ lq.*1); [|intros x Hx Hx'; apply list_elem_of_fmap in Hx as ([x' b] & -> & Hin);
    by apply (Hpq lp [] ltac:(by rewrite app_nil_r) x' b Hin)].
  intros lp1. induction lp1 as [|[y c] lp1 IH] using rev_ind; intros lp2 E x b Hin Hx; [by apply not_elem_of_nil in Hin|].
  rewrite <- app_assoc in E. specialize (IH _ E). apply elem_of_app in Hin as [Hin|Hin]; [by apply (IH x b Hin)|]. apply list_elem_of_singleton in Hin as [= -> ->].
  assert (Hy : pbufs s !! y = Some c /\ p_ref c = 1).
  { split; [eapply seg_lookup; [exact Hp|]; rewrite E, elem_of_app; right; by left|]. rewrite E, Forall_app in Hr. destruct Hr as [_ Hr]. by apply Forall_cons in Hr as [? _]. }
  destruct Hy as [Hy Hyr]. destruct (inv_refs _ _ _ HI _ _ Hy) as [Hrefs _].
  apply list_elem_of_fmap in Hx as ([y' c'] & Ey & Hin'). cbn in Ey. subst y'. apply list_elem_of_split in Hin' as (l1 & l2 & El).
  destruct lp1 as [|[z d] lp1' _] using rev_ind.
  - rewrite E in Hp. cbn in Hp. destruct Hp as (<- & _). destruct l1 as [|[w e] l1 _] using rev_ind.
    + rewrite El in Hq. cbn in Hq. by destruct Hq as (-> & _).
    + rewrite El, <- app_assoc in Hq. apply pseg_app in Hq as (k & _ & Hw & Hwl & Hwn & _). pose proof (preds_one _ _ _ _ Hwl Hwn). lia.
  - rewrite E, <- app_assoc in Hp. apply pseg_app in Hp as (k & _ & Hz & Hzl & Hzn & _). pose proof (preds_one _ _ _ _ Hzl Hzn) as H1. destruct l1 as [|[w e] l1 _] using rev_ind.
    + rewrite El in Hq. cbn in Hq. destruct Hq as (-> & _). lia.
    + rewrite El, <- app_assoc in Hq. apply pseg_app in Hq as (k' & _ & Hw & Hwl & Hwn & _). destruct (decide (z = w)) as [->|Hzw].
      * apply (IH w d); [apply elem_of_app; right; by left|]. rewrite El, <- app_assoc, fmap_app, elem_of_app. right. by left.
      * pose proof (preds_two _ _ _ _ _ _ Hzl Hwl Hzw Hzn Hwn). lia.
Qed.

Lemma clen_spec (s : pst) p l : pbufs s !! NULL = None -> chain s p l -> length l < 65536 -> pbuf_clen s p = Ret (length l : Z).
Proof.
  intros Hn Hc Hl. unfold pbuf_clen. pose proof (chain_fuel_ok s p l Hn Hc) as Hf. destruct Hc as [Hs _]. change (Z.of_nat (length l)) with (0 + length l).
  assert (H0 : 0 <= 0) by lia. assert (Hb : 0 + length l < 65536) by lia. revert H0 Hb. generalize 0 at 2 3 4 5 as k. clear Hl.
  revert p Hs Hf. generalize (chain_fuel s) as fuel. induction l as [|[a b] l IH]; intros fuel p Hs Hf k Hk Hl.
  - cbn in Hs. subst p. destruct fuel; cbn; by rewrite Z.add_0_r.
  - destruct Hs as (-> & Hb & Hs). destruct fuel as [|fuel]; [cbn in Hf; lia|]. cbn [clen_loop]. rewrite (proj2 (Z.eqb_neq a NULL)) by congruence.
    rewrite (deref_ok _ _ _ Hb). cbn [mbind outcome_bind length] in *. rewrite u16_small by (unfold_c; lia). rewrite (IH fuel (p_next b) Hs ltac:(lia) (k + 1)) by lia. f_equal. lia.
Qed.

(** ** The invariant *)

(** The fragment [f] in memory, with the packet [(f_p f, b) :: l] and a helper structure
    whose link is [nxt]. *)
Record frag_at (s : pst) (f : frag) (nxt : Z) (b : pbuf) (l : list (Z * pbuf)) : Prop := FragAt {
  fa_as : f_as f = f_p f :: l.*1;
  fa_chain : chain s (f_p f) ((f_p f, b) :: l);
  fa_own : own_data ((f_p f, b) :: l);
  fa_len : 20 <= p_len b;
  fa_len0 : f_start f = 0 -> 28 <= p_len b;
  fa_next : le_val (take 8 (contents (data s) ((f_p f, b) :: l))) = nxt;
  fa_start : le_val (take 2 (drop 8 (contents (data s) ((f_p f, b) :: l)))) = f_start f;
  fa_end : le_val (take 2 (drop 10 (contents (data s) ((f_p f, b) :: l)))) = f_end f;
  fa_data : drop 20 (contents (data s) ((f_p f, b) :: l)) = f_data f;
  fa_bytes : Forall is_u8 (contents (data s) ((f_p f, b) :: l));
  fa_range : 0 <= f_start f /\ f_end f <= 65515
}.

(** The fragments linked from [p] to [e]. *)
Fixpoint fseg (s : pst) (p : Z) (fs : list frag) (e : Z) : Prop :=
  match fs with
  | [] => p = e
  | f :: r => p = f_p f /\ exists nxt b l, frag_at s f nxt b l /\ fseg s nxt r e
  end.

(** A datagram: its fragments are sorted; when the last one was seen, one of them is not
    at the start. *)
Record dgram_ok (s : pst) (d : dgram) : Prop := DgramOk {
  do_frags : fseg s (first_p (dg_fs d)) (dg_fs d) NULL;
  do_sorted : ordered (dg_fs d);
  do_hdr : length (dg_hdr d) = 20%nat /\ Forall is_u8 (dg_hdr d);
  do_timer : 0 <= dg_timer d <= IP_REASS_MAXAGE;
  do_last : Z.land (dg_flags d) IP_REASS_FLAG_LASTFRAG <> 0 -> Exists (λ f, f_start f <> 0) (dg_fs d);
  do_len : 0 <= dg_len d <= 65515;
  do_hl : le_val (take 1 (dg_hdr d)) mod 16 = 5
}.

Definition hold (ext : Z -> nat) (fs : list frag) : Z -> nat := λ a, (ext a + held fs a)%nat.

(** The list of the datagrams [D], which are the elements taken from the pool. *)
Record dlist (s : reass) (D : list dgram) : Prop := DList {
  dl_seg : dseg (r_data s) (reassdatagrams s) D NULL;
  dl_nodup : NoDup (dg_a <$> D);
  dl_dom a : is_Some (r_data s !! a) <-> a ∈ dg_a <$> D;
  dl_pool : pool_holds (r_pool s) (dg_a <$> D)
}.

(** The queue [D] in memory; [ext] are the pointers to packets from elsewhere. *)
Record reass_core (s : reass) (B : gmap Z block) (ext : Z -> nat) (D : list dgram) : Prop := ReassCore {
  ri_list : dlist s D;
  ri_net : net_ok (r_net s) B (hold ext (frags D));
  ri_dgrams : Forall (dgram_ok (n_ps (r_net s))) D;
  ri_apart : NoDup (nodes (frags D))
}.

(** The counter of pbufs, and its bound. *)
Definition counted (s : reass) (D : list dgram) : Prop :=
  ip_reass_pbufcount s = length (nodes (frags D)) /\ ip_reass_pbufcount s <= IP_REASS_MAX_PBUFS.

Definition full (D : list dgram) : Prop := Forall (λ d, dg_fs d <> []) D.

Definition reass_inv (s : reass) (B : gmap Z block) (ext : Z -> nat) (D : list dgram) : Prop :=
  reass_core s B ext D /\ counted s D /\ full D.

(** ** Lemmas: fragments in memory *)

Lemma block_below (s : pst) B ext a b : pbuf_inv s B ext -> pbufs s !! a = Some b -> 0 < a < 2 ^ 64.
Proof.
  intros HI Hb. destruct (proj1 (inv_dom _ _ _ HI a) ltac:(eauto)) as [k Hk]. destruct (mem_holds_range _ _ _ _ (inv_holds _ _ _ HI) Hk) as (H1 & H2 & _).
  assert (0 <= block_size k); [|lia]. pose proof sizeof_pbuf_facts as (? & _). pose proof bufsize_range as Hbs.
  assert (0 <= PBUF_POOL_BUFSIZE_ALIGNED) by (destruct (align_size_u16 PBUF_POOL_BUFSIZE) as [? _]; unfold PBUF_POOL_BUFSIZE_ALIGNED; lia).
 
  destruct k; cbn [block_size]; [lia|lia| |lia]. by destruct (mem_holds_heap _ _ _ _ (inv_holds _ _ _ HI) Hk).
Qed.

Lemma contents_write (s : pst) B ext p b l (k : nat) vs :
  pbuf_inv s B ext -> chain s p ((p, b) :: l) -> own_data ((p, b) :: l) -> k + length vs <= p_len b ->
  contents (write_bytes (data s) (p_payload b + k) vs) ((p, b) :: l) = splice k vs (contents (data s) ((p, b) :: l)).
Proof.
  intros HI Hc Hown Hk. pose proof (own_chain_NoDup _ _ _ _ _ HI Hc Hown) as Hnd. pose proof (addrs_length _ (proj2 Hc)) as Hal.
  assert (Ht : 0 <= total l) by (destruct Hc as [_ Ht]; cbn in Ht; apply tot_ok_total; apply Ht).
  change (total ((p, b) :: l)) with (p_len b + total l) in Hal.
  rewrite !contents_addrs, write_bytes_scatter. unfold splice. rewrite <- scatter_part; [|done|lia].
  do 3 f_equal. rewrite addrs_cons. unfold node_addrs. cbn [snd]. rewrite drop_app_le by (rewrite range_length; lia).
  rewrite take_app_le by (rewrite length_drop, range_length; lia). rewrite range_drop, range_take by lia. done.
Qed.

Lemma frag_lookup s f nxt b l : frag_at s f nxt b l -> pbufs s !! f_p f = Some b.
Proof. intros H. by destruct (fa_chain _ _ _ _ _ H) as [(_ & ? & _) _]. Qed.

(** The loads of the code. *)
Lemma frag_loads s f nxt b l :
  frag_at s f nxt b l ->
  next_pbuf (data s) (p_payload b) = nxt /\ iprh_start (data s) (p_payload b) = f_start f /\ iprh_end (data s) (p_payload b) = f_end f.
Proof.
  intros H. pose proof (fa_chain _ _ _ _ _ H) as Hc. pose proof (fa_len _ _ _ _ _ H).
  unfold next_pbuf, iprh_start, iprh_end. replace (load 8 (data s) (p_payload b)) with (load 8 (data s) (p_payload b + 0%nat)) by (f_equal; lia).
  change (p_payload b + 8) with (p_payload b + 8%nat). change (p_payload b + 10) with (p_payload b + 10%nat).
  rewrite !(header_load s (f_p f) b l) by (done || lia). split; [exact (fa_next _ _ _ _ _ H)|]. split; [exact (fa_start _ _ _ _ _ H)|exact (fa_end _ _ _ _ _ H)].
Qed.

Lemma frag_not_null s B ext f nxt b l : pbuf_inv s B ext -> frag_at s f nxt b l -> f_p f <> NULL.
Proof. intros HI H E. pose proof (frag_lookup _ _ _ _ _ H) as Hb. rewrite E, (inv_not_null _ _ _ HI) in Hb. done. Qed.

(** A fragment stays when its packet does. *)
Definition keeps (s s' : pst) (f : frag) : Prop :=
  forall l, chain s (f_p f) l -> own_data l -> l.*1 = f_as f -> exists l', same_packet s s' (f_p f) l l'.

Lemma keeps_refl s f : keeps s s f.
Proof. intros l Hc _ _. exists l. split; [done|]. split; [apply same_packet_refl|done]. Qed.

Lemma upto_refs_own (l l' : list (Z * pbuf)) : Forall2 (λ x y, y = (x.1, with_ref x.2 (p_ref y.2))) l l' -> own_data l -> own_data l' /\ l'.*1 = l.*1.
Proof.
  induction 1 as [|x y l l' E F IH]; intros Ho; [done|]. apply Forall_cons in Ho as [Hx Ho]. destruct (IH Ho) as [IH1 IH2]. rewrite E. cbn [fmap list_fmap fst].
  rewrite IH2. split; [constructor; [exact Hx|done]|done].
Qed.

Lemma keeps_trans s1 s2 s3 f : keeps s1 s2 f -> keeps s2 s3 f -> keeps s1 s3 f.
Proof.
  intros K1 K2 l Hc Ho Ha. destruct (K1 l Hc Ho Ha) as (l2 & H12). pose proof H12 as (Hc2 & F & _). destruct (upto_refs_own _ _ F Ho) as [Ho2 Ha2].
  apply (same_packet_then s1 s2 s3 _ _ _ H12). apply K2; [done|done|by rewrite Ha2].
Qed.

Lemma frag_at_keeps s s' f nxt b l : frag_at s f nxt b l -> keeps s s' f -> exists b' l', frag_at s' f nxt b' l' /\ p_payload b' = p_payload b /\ length l' = length l.
Proof.
  intros [H1 H2 H3 H4 H4' H5 H6 H7 H8 H9 H10] K. destruct (K _ H2 H3 ltac:(by rewrite H1)) as (lq & Hc & F & E). destruct (upto_refs_own _ _ F H3) as [Ho Ha].
  apply Forall2_cons_inv_l in F as ([a b'] & l' & Eb & F & ->). cbn [fst snd] in Eb. injection Eb as -> Eb. exists b', l'. cbn [fmap list_fmap fst] in Ha. injection Ha as Ha.
  split; [|split; [by rewrite Eb|symmetry; by eapply Forall2_length]]. split; rewrite ?E; try done; [by rewrite Ha|rewrite Eb; exact H4|rewrite Eb; exact H4'].
Qed.

Lemma fseg_keeps s s' p fs e : fseg s p fs e -> Forall (keeps s s') fs -> fseg s' p fs e.
Proof.
  revert p. induction fs as [|f r IH]; intros p Hf K; [done|]. destruct Hf as (-> & nxt & b & l & Hf & Hr). apply Forall_cons in K as [K Kr].
  destruct (frag_at_keeps _ _ _ _ _ _ Hf K) as (b' & l' & Hf' & _). split; [done|]. exists nxt, b', l'. split; [done|]. by apply IH.
Qed.

Lemma fseg_app s p a b e : fseg s p (a ++ b) e <-> exists q, fseg s p a q /\ fseg s q b e.
Proof.
  revert p. induction a as [|f a IH]; intros p; cbn; [split; [by exists p|by intros (q & -> & ?)]|]. setoid_rewrite IH. split.
  - intros (-> & nxt & pb & l & Hf & q & H1 & H2). exists q. split; [split; [done|by exists nxt, pb, l]|done].
  - intros (q & (-> & nxt & pb & l & Hf & H1) & H2). split; [done|]. exists nxt, pb, l. split; [done|by exists q].
Qed.

Lemma fseg_first s p fs : fseg s p fs NULL -> p = first_p fs.
Proof. destruct fs; [done|]. by intros (? & _). Qed.

Lemma fseg_elem s p fs e f : fseg s p fs e -> f ∈ fs -> exists nxt b l, frag_at s f nxt b l.
Proof.
  revert p. induction fs as [|g r IH]; intros p Hf Hin; [by apply not_elem_of_nil in Hin|]. destruct Hf as (-> & nxt & b & l & Hf & Hr).
  apply elem_of_cons in Hin as [->|Hin]; [by exists nxt, b, l|by eapply IH].
Qed.

Lemma dgram_ok_keeps s s' d : dgram_ok s d -> Forall (keeps s s') (dg_fs d) -> dgram_ok s' d.
Proof. intros [H1 H2 H3 H4 H5 H6 H7] K. split; try done. by eapply fseg_keeps. Qed.

Lemma dgrams_keep s s' D : Forall (dgram_ok s) D -> Forall (keeps s s') (frags D) -> Forall (dgram_ok s') D.
Proof.
  induction D as [|d D IH]; intros HD K; [done|]. apply Forall_cons in HD as [Hd HD]. rewrite frags_cons in K. apply Forall_app in K as [K1 K2]. constructor; [by eapply dgram_ok_keeps|by apply IH].
Qed.

(** ** Lemmas: writing the helper structure of a fragment *)

Lemma keeps_write (s : pst) B ext p b l g (k : nat) vs :
  pbuf_inv s B ext -> chain s p ((p, b) :: l) -> own_data ((p, b) :: l) -> k + length vs <= p_len b -> p :: l.*1 ## f_as g ->
  keeps s (with_data s (write_bytes (data s) (p_payload b + k) vs)) g.
Proof.
  intros HI Hc Ho Hk Hd lg Hcg Hog Ha. exists lg. split; [exact Hcg|]. split; [apply same_packet_refl|]. apply contents_frame. intros x Hx. apply byte_write_bytes. intros Hr.
  apply (own_data_apart s B ext ((p, b) :: l) lg HI) with x; try done.
  - intros a c Hin. eapply seg_lookup; [apply (proj1 Hc)|done].
  - intros a c Hin. eapply seg_lookup; [apply (proj1 Hcg)|done].
  - rewrite Ha. exact Hd.
  - rewrite addrs_cons. apply elem_of_app. left. apply elem_of_range. cbn [snd]. lia.
Qed.

Lemma frag_set_next (s : pst) B ext f nxt b l x :
  pbuf_inv s B ext -> frag_at s f nxt b l -> 0 <= x < 2 ^ 64 -> frag_at (with_data s (next_pbuf_set (data s) (p_payload b) x)) f x b l.
Proof.
  intros HI [H1 H2 H3 H4 H4' H5 H6 H7 H8 H9 H10] Hx. unfold next_pbuf_set. rewrite store_write_bytes. replace (p_payload b) with (p_payload b + 0%nat) at 1 by lia.
  assert (Hl8 : length (le_list 8 x) = 8%nat) by apply le_list_length. assert (Hb : 0%nat + length (le_list 8 x) <= p_len b) by lia.
  pose proof (contents_write s B ext _ b l 0 (le_list 8 x) HI H2 H3 Hb) as E. set (C := contents (data s) _) in *.
  assert (HC : (20 <= length C)%nat). { pose proof (contents_length (data s) _ (tot_ok_lens _ (proj2 H2))) as EC. fold C in EC. destruct H2 as [_ (_ & _ & _ & Ht)]. pose proof (tot_ok_total _ Ht).
    change (total ((f_p f, b) :: l)) with (p_len b + total l) in EC. lia. }
  unfold splice in E. rewrite Hl8, take_0 in E. change (0 + 8)%nat with 8%nat in E. cbn [app] in E.
  split; try done; cbn [data with_data]; rewrite E.
  - rewrite take_app_length' by (symmetry; exact Hl8). by apply le_val_list.
  - rewrite drop_app_length' by (symmetry; exact Hl8). exact H6.
  - rewrite drop_app_ge by lia. rewrite Hl8, drop_drop. exact H7.
  - rewrite drop_app_ge by lia. rewrite Hl8, drop_drop. exact H8.
  - apply Forall_app. split; [apply le_list_bytes|by apply Forall_drop].
Qed.

(** ** Lemmas: the place of a fragment *)

Definition payload_at (s : pst) (p : Z) : Z := match pbufs s !! p with Some b => p_payload b | None => NULL end.

(** The helper of the last fragment of [pre]. *)
Definition before (s : pst) (pre : list frag) : Z := match last pre with Some g => payload_at s (f_p g) | None => NULL end.

Lemma payload_not_null (s : pst) B ext f nxt b l : pbuf_inv s B ext -> frag_at s f nxt b l -> 0 < p_payload b.
Proof.
  intros HI H. pose proof (frag_lookup _ _ _ _ _ H) as Hb. pose proof (fa_len _ _ _ _ _ H). pose proof (block_below _ _ _ _ _ HI Hb).
  pose proof (fa_own _ _ _ _ _ H) as Ho. apply Forall_cons in Ho as [[Hcg Hcu] _]. destruct (own_block s B ext _ b 1 HI Hb Hcg Hcu ltac:(lia)) as (k & _ & ? & _). lia.
Qed.

Lemma before_snoc (s : pst) pre g b : pbufs s !! f_p g = Some b -> before s (pre ++ [g]) = p_payload b.
Proof. intros Hb. unfold before. rewrite last_snoc. unfold payload_at. by rewrite Hb. Qed.

Lemma links_snoc pre g h : links ((pre ++ [g]) ++ [h]) = links (pre ++ [g]) && (f_end g =? f_start h).
Proof. rewrite <- app_assoc. cbn [app]. rewrite links_app. cbn. by rewrite andb_true_r. Qed.

Lemma payload_of_ok (s : reass) p b : pbufs (n_ps (r_net s)) !! p = Some b -> payload_of s p = Ret (p_payload b).
Proof. intros Hb. unfold payload_of. by rewrite (deref_ok _ _ _ Hb). Qed.

Lemma keeps_set_next (s : pst) B ext f nxt b l g x :
  pbuf_inv s B ext -> frag_at s f nxt b l -> f_as f ## f_as g -> keeps s (with_data s (next_pbuf_set (data s) (p_payload b) x)) g.
Proof.
  intros HI Hf Hd. pose proof (fa_len _ _ _ _ _ Hf). assert (Hl8 : length (le_list 8 x) = 8%nat) by apply le_list_length. rewrite (fa_as _ _ _ _ _ Hf) in Hd.
  pose proof (keeps_write s B ext _ b l g 0 (le_list 8 x) HI (fa_chain _ _ _ _ _ Hf) (fa_own _ _ _ _ _ Hf) ltac:(lia) Hd) as K. by rewrite Z.add_0_r, <- store_write_bytes in K.
Qed.

(** The offsets of a fragment, when the link of a fragment is written. *)
Lemma offsets_set_next (s : pst) B ext f nxt b l g nxt' b' l' x :
  pbuf_inv s B ext -> frag_at s f nxt b l -> frag_at s g nxt' b' l' -> g = f \/ f_as f ## f_as g -> 0 <= x < 2 ^ 64 ->
  iprh_start (next_pbuf_set (data s) (p_payload b) x) (p_payload b') = f_start g /\ iprh_end (next_pbuf_set (data s) (p_payload b) x) (p_payload b') = f_end g.
Proof.
  intros HI Hf Hg Hor Hx. destruct Hor as [->|Hd].
  - pose proof (frag_lookup _ _ _ _ _ Hf) as Hb. pose proof (frag_lookup _ _ _ _ _ Hg) as Hb'. rewrite Hb in Hb'. injection Hb' as <-.
    pose proof (frag_loads _ _ _ _ _ (frag_set_next _ _ _ _ _ _ _ x HI Hf Hx)) as (_ & ? & ?). done.
  - destruct (frag_at_keeps _ _ _ _ _ _ Hg (keeps_set_next _ _ _ _ _ _ _ _ x HI Hf Hd)) as (b2 & l2 & Hg2 & Ep & _). pose proof (frag_loads _ _ _ _ _ Hg2) as (_ & E1 & E2). rewrite Ep in E1, E2. done.
Qed.

Lemma place_loop_spec (fuel : nat) (s : reass) B ext ipr r f b l p0 pre rest :
  pbuf_inv (n_ps (r_net s)) B ext -> frag_at (n_ps (r_net s)) f NULL b l -> Forall (λ g, f_as f ## f_as g) (pre ++ rest) -> Forall (λ g, f_end g <= f_start f) pre ->
  fseg (n_ps (r_net s)) p0 (pre ++ rest) NULL -> r_data s !! ipr = Some r -> (length rest < fuel)%nat ->
  let run := place_loop fuel s ipr (f_p f) (p_payload b) (first_p rest) (before (n_ps (r_net s)) pre) (links pre) in
  match place f rest with
  | None => exists m, run = Ret (None, with_rmem s m) /\ (m = r_mem s \/ exists x, 0 <= x < 2 ^ 64 /\ m = next_pbuf_set (r_mem s) (p_payload b) x)
  | Some (a, []) => run = Ret (Some (NULL, before (n_ps (r_net s)) (pre ++ a), links (pre ++ a)), s)
  | Some (a, q :: _) =>
      let m := next_pbuf_set (r_mem s) (p_payload b) (f_p q) in
      let h := before (n_ps (r_net s)) (pre ++ a) in
      run = if decide (pre ++ a = []) then Ret (Some (f_p q, NULL, true), set_ipr (with_rmem s m) ipr (with_ipr_p r (f_p f)))
            else Ret (Some (f_p q, h, links ((pre ++ a) ++ [f])), with_rmem s (next_pbuf_set m h (f_p f)))
  end.
Proof.
  intros HI Hf Hap Hle Hs Hr Hfuel. revert pre fuel Hap Hle Hs Hfuel. induction rest as [|g rest IH]; intros pre fuel Hap Hle Hs Hfuel; cbn zeta.
  { cbn [place]. rewrite app_nil_r. by destruct fuel. }
  destruct fuel as [|fuel]; [cbn in Hfuel; lia|]. pose proof Hs as Hs'. apply fseg_app in Hs' as (q & Hpre & (-> & nxt & bg & lg & Hg & Hrest)).
  pose proof (frag_lookup _ _ _ _ _ Hg) as Hbg. pose proof (frag_lookup _ _ _ _ _ Hf) as Hb. pose proof (block_below _ _ _ _ _ HI Hbg) as Hgr.
  pose proof (frag_loads _ _ _ _ _ Hg) as (Eg1 & Eg2 & Eg3). pose proof (frag_loads _ _ _ _ _ Hf) as (_ & Ef2 & Ef3).
  assert (Hdg : f_as f ## f_as g) by (apply Forall_app in Hap as [_ Hap]; by apply Forall_cons in Hap as [? _]).
  cbn [place_loop first_p]. rewrite (proj2 (Z.eqb_neq (f_p g) NULL)) by (unfold NULL; lia). rewrite (payload_of_ok _ _ _ Hbg). cbn [mbind outcome_bind]. unfold r_mem.
  rewrite Eg1, Eg2, Eg3, Ef2. cbn [place]. destruct (f_start f <? f_start g) eqn:Elt.
  - destruct (offsets_set_next _ _ _ _ _ _ _ _ _ _ _ (f_p g) HI Hf Hf ltac:(by left) ltac:(lia)) as [Of1 Of2].
    destruct (offsets_set_next _ _ _ _ _ _ _ _ _ _ _ (f_p g) HI Hf Hg ltac:(by right) ltac:(lia)) as [Og1 _].
    rewrite Of1, Of2, Og1. destruct pre as [|h pre _] using rev_ind.
    + cbn [before last negb Z.eqb app]. cbn [before last]. change (before _ []) with NULL. cbn [negb Z.eqb]. rewrite Z.eqb_refl. cbn [negb].
      destruct (f_start g <? f_end f); [eexists; split; [done|]; right; exists (f_p g); by split; [lia|]|].
      unfold ipr_at. cbn [r_data with_rmem with_rnet]. rewrite Hr. cbn [mbind outcome_bind links]. done.
    + clear IH. apply fseg_app in Hpre as (q & _ & (_ & nh & bh & lh & Hh & _)). pose proof (frag_lookup _ _ _ _ _ Hh) as Hbh. rewrite (before_snoc _ _ _ _ Hbh).
      assert (Hdh : f_as f ## f_as h). { rewrite <- app_assoc in Hap. apply Forall_app in Hap as [_ Hap]. by apply Forall_cons in Hap as [? _]. }
      pose proof (payload_not_null _ _ _ _ _ _ _ HI Hh). rewrite (proj2 (Z.eqb_neq (p_payload bh) NULL)) by (unfold NULL; lia). cbn [negb].
      destruct (offsets_set_next _ _ _ _ _ _ _ _ _ _ _ (f_p g) HI Hf Hh ltac:(by right) ltac:(lia)) as [Oh1 Oh2]. rewrite Oh2.
      apply Forall_app in Hle as [_ Hle]. apply Forall_cons in Hle as [Hle _]. rewrite (proj2 (Z.ltb_ge (f_start f) _)) by done. cbn [orb].
      destruct (f_start g <? f_end f); [eexists; split; [done|]; right; exists (f_p g); by split; [lia|]|].
      rewrite app_nil_r, decide_False by (intros E; by apply app_nil in E as [_ ?]). rewrite links_snoc.
      assert (HI1 : pbuf_inv (with_data (n_ps (r_net s)) (next_pbuf_set (data (n_ps (r_net s))) (p_payload b) (f_p g))) B ext) by (by apply inv_data).
      pose proof (frag_set_next _ _ _ _ _ _ _ (f_p g) HI Hf ltac:(lia)) as Hf1.
      destruct (frag_at_keeps _ _ _ _ _ _ Hh (keeps_set_next _ _ _ _ _ _ _ _ (f_p g) HI Hf Hdh)) as (bh1 & lh1 & Hh1 & Eh1 & _).
      pose proof (block_below _ _ _ _ _ HI Hb) as Hfr.
      destruct (offsets_set_next _ _ _ _ _ _ _ _ _ _ _ (f_p f) HI1 Hh1 Hf1 ltac:(right; intros y Hy Hy'; by apply (Hdh y)) ltac:(lia)) as [O1 _].
      destruct (offsets_set_next _ _ _ _ _ _ _ _ _ _ _ (f_p f) HI1 Hh1 Hh1 ltac:(by left) ltac:(lia)) as [_ O2]. rewrite Eh1 in O1, O2. cbn [data with_data] in O1, O2.
      by rewrite O1, O2, (before_snoc _ _ _ _ Hbh).
  - destruct (f_start f =? f_start g); [exists (r_mem s); split; [by destruct s as [[[]]]|by left]|].
    destruct (Z.ltb_spec (f_start f) (f_end g)) as [|Hge]; [exists (r_mem s); split; [by destruct s as [[[]]]|by left]|].
    specialize (IH (pre ++ [g]) fuel). rewrite <- !app_assoc in IH. cbn [app] in IH. specialize (IH Hap ltac:(apply Forall_app; by split; [|constructor]) Hs ltac:(cbn in Hfuel; lia)).
    rewrite (before_snoc _ _ _ _ Hbg) in IH. rewrite <- (fseg_first _ _ _ Hrest) in IH. cbn zeta in IH.
    replace (if negb (before (n_ps (r_net s)) pre =? NULL) then links pre && (iprh_end (data (n_ps (r_net s))) (before (n_ps (r_net s)) pre) =? f_start g) else links pre) with (links (pre ++ [g])).
    + destruct (place f rest) as [[a [|q c]]|]; cbn [fmap option_fmap option_map fst snd]; rewrite <- ?app_assoc; rewrite <- ?app_assoc in IH; cbn [app] in *; exact IH.
    + clear IH Hs. destruct pre as [|h pre _] using rev_ind; [done|]. apply fseg_app in Hpre as (q & _ & (_ & nh & bh & lh & Hh & _)). rewrite (before_snoc _ _ _ _ (frag_lookup _ _ _ _ _ Hh)).
      pose proof (payload_not_null _ _ _ _ _ _ _ HI Hh). rewrite (proj2 (Z.eqb_neq (p_payload bh) NULL)) by (unfold NULL; lia). cbn [negb].
      destruct (frag_loads _ _ _ _ _ Hh) as (_ & _ & ->). apply links_snoc.
Qed.

(** ** Lemmas: linking a fragment *)

Lemma fseg_link (s : pst) B ext f b l p0 pre h bh rest :
  pbuf_inv s B ext -> frag_at s f (first_p rest) b l -> Forall (λ g, f_as f ## f_as g) ((pre ++ [h]) ++ rest) -> NoDup (nodes ((pre ++ [h]) ++ rest)) ->
  fseg s p0 ((pre ++ [h]) ++ rest) NULL -> pbufs s !! f_p h = Some bh ->
  let s' := with_data s (next_pbuf_set (data s) (p_payload bh) (f_p f)) in
  fseg s' p0 ((pre ++ [h]) ++ f :: rest) NULL /\ forall g, f_as h ## f_as g -> keeps s s' g.
Proof.
  intros HI Hf Hap Hnd Hs Hbh s'. apply fseg_app in Hs as (q & Hs & Hrest). apply fseg_app in Hs as (q' & Hpre & (-> & nh & b' & lh & Hh & <-)).
  pose proof (frag_lookup _ _ _ _ _ Hh) as Hb'. rewrite Hbh in Hb'. injection Hb' as <-. pose proof (block_below _ _ _ _ _ HI (frag_lookup _ _ _ _ _ Hf)) as Hfr.
  assert (K : forall g, f_as h ## f_as g -> keeps s s' g) by (intros g Hd; by eapply keeps_set_next). split; [|done].
  rewrite !nodes_app in Hnd. apply NoDup_app in Hnd as (Hnd & Hnd2 & _). apply NoDup_app in Hnd as (_ & Hnd1 & _). cbn in Hnd1. rewrite app_nil_r in Hnd1.
  assert (Hin : forall g gs, g ∈ gs -> f_as g ⊆ nodes gs) by (intros g gs Hg x Hx; unfold nodes; apply list_elem_of_bind; by exists g).
  apply fseg_app. exists (f_p f). split.
  - apply fseg_app. exists (f_p h). split.
    + eapply fseg_keeps; [exact Hpre|]. apply Forall_forall. intros g Hg. apply K. intros x Hx Hx'. apply (Hnd1 x); [by apply (Hin g pre)|done].
    + split; [done|]. exists (f_p f), bh, lh. split; [|done]. eapply frag_set_next; [done|done|lia].
  - split; [done|]. rewrite <- (fseg_first _ _ _ Hrest) in Hf.
    assert (Hfh : f_as f ## f_as h) by (rewrite <- app_assoc in Hap; apply Forall_app in Hap as [_ Hap]; by apply Forall_cons in Hap as [? _]).
    destruct (frag_at_keeps _ s' _ _ _ _ Hf) as (b' & l' & Hf' & _); [apply K; intros x Hx Hx'; by apply (Hfh x)|]. exists nh, b', l'. split; [done|].
    eapply fseg_keeps; [exact Hrest|]. apply Forall_forall. intros g Hg. apply K. intros x Hx Hx'. apply (Hnd2 x); [apply elem_of_app; right; cbn; by rewrite app_nil_r|by apply (Hin g rest)].
Qed.

(** ** Lemmas: looking for holes *)

Lemma holes_loop_spec (fuel : nat) (s : reass) B ext f b l nxt rest :
  pbuf_inv (n_ps (r_net s)) B ext -> frag_at (n_ps (r_net s)) f nxt b l -> fseg (n_ps (r_net s)) nxt rest NULL -> (length rest < fuel)%nat ->
  exists h, holes_loop fuel s (p_payload b) nxt = Ret (links (f :: rest), h)
    /\ (links (f :: rest) = true -> exists g bg lg, last (f :: rest) = Some g /\ frag_at (n_ps (r_net s)) g NULL bg lg /\ h = p_payload bg).
Proof.
  intros HI. revert f b l nxt fuel. induction rest as [|g rest IH]; intros f b l nxt fuel Hf Hs Hfuel.
  - cbn in Hs. subst nxt. exists (p_payload b). split; [by destruct fuel|]. intros _. by exists f, b, l.
  - destruct Hs as (-> & nxt' & bg & lg & Hg & Hs). destruct fuel as [|fuel]; [cbn in Hfuel; lia|]. cbn [holes_loop].
    pose proof (frag_not_null _ _ _ _ _ _ _ HI Hg). rewrite (proj2 (Z.eqb_neq (f_p g) NULL)) by done. rewrite (payload_of_ok _ _ _ (frag_lookup _ _ _ _ _ Hg)). cbn [mbind outcome_bind]. unfold r_mem.
    destruct (frag_loads _ _ _ _ _ Hf) as (_ & _ & ->). destruct (frag_loads _ _ _ _ _ Hg) as (-> & -> & _). change (links (f :: g :: rest)) with ((f_end f =? f_start g) && links (g :: rest)).
    destruct (f_end f =? f_start g); cbn [negb andb]; [|by exists (p_payload bg)].
    destruct (IH g bg lg nxt' fuel Hg Hs ltac:(cbn in Hfuel; lia)) as (h & E & Hl). exists h. split; [done|]. intros H'. destruct (Hl H') as (g' & bg' & lg' & Eg & ?). by exists g', bg', lg'.
Qed.

(** ** Lemmas: a new fragment *)

Lemma splice_app (v1 v2 C : list Z) : (length v1 + length v2 <= length C)%nat ->
  splice (length v1) v2 (v1 ++ drop (length v1) C) = (v1 ++ v2) ++ drop (length (v1 ++ v2)) C.
Proof.
  intros Hl. unfold splice. rewrite take_app_length, <- app_assoc. do 2 f_equal. rewrite drop_app_ge by lia. rewrite drop_drop, length_app. f_equal. lia.
Qed.

(** Writing the helper structure over the header of a packet. *)
(** The helper structure in a packet, with any end, leaves the other packets alone. *)
Lemma helper_keeps (s : pst) B ext p b l off e g :
  pbuf_inv s B ext -> chain s p ((p, b) :: l) -> own_data ((p, b) :: l) -> 20 <= p_len b -> p :: l.*1 ## f_as g ->
  keeps s (with_data s (iprh_end_set (iprh_start_set (next_pbuf_set (data s) (p_payload b) NULL) (p_payload b) off) (p_payload b) e)) g.
Proof.
  intros HI Hc Ho Hl Hg. unfold iprh_end_set, iprh_start_set, next_pbuf_set. rewrite !store_write_bytes. rewrite <- (Z.add_0_r (p_payload b)) at 1.
  set (m1 := write_bytes (data s) _ _). set (m2 := write_bytes m1 _ _).
  apply (keeps_trans _ (with_data s m1)); [apply (keeps_write s B ext p b l g 0); try done; rewrite le_list_length; lia|].
  apply (keeps_trans _ (with_data s m2)); [apply (keeps_write (with_data s m1) B ext p b l g 8); [by apply inv_data|done|done|rewrite le_list_length; lia|done]|].
  apply (keeps_write (with_data s m2) B ext p b l g 10); [by apply inv_data|done|done|rewrite le_list_length; lia|done].
Qed.

Lemma helper_init (s : pst) B ext p b l off :
  pbuf_inv s B ext -> chain s p ((p, b) :: l) -> own_data ((p, b) :: l) -> 20 <= p_len b -> (off = 0 -> 28 <= p_len b) ->
  let C := contents (data s) ((p, b) :: l) in
  let f := Frag (p :: l.*1) off (drop 20 C) in
  Forall is_u8 C -> 0 <= off -> f_end f <= 65515 ->
  let m := iprh_end_set (iprh_start_set (next_pbuf_set (data s) (p_payload b) NULL) (p_payload b) off) (p_payload b) (f_end f) in
  frag_at (with_data s m) f NULL b l /\ forall g, f_as f ## f_as g -> keeps s (with_data s m) g.
Proof.
  intros HI Hc Ho Hl Hl0 C f HC Hoff Hend m. assert (L8 : forall x, length (le_list 8 x) = 8%nat) by (intros; apply le_list_length). assert (L2 : forall x, length (le_list 2 x) = 2%nat) by (intros; apply le_list_length).
  assert (HlC : (20 <= length C)%nat). { pose proof (contents_length (data s) _ (tot_ok_lens _ (proj2 Hc))) as EC. fold C in EC. destruct Hc as [_ (_ & _ & _ & Ht)]. pose proof (tot_ok_total _ Ht).
    change (total ((p, b) :: l)) with (p_len b + total l) in EC. lia. }
  set (v1 := le_list 8 NULL). set (v2 := le_list 2 off). set (v3 := le_list 2 (f_end f)).
  set (m1 := write_bytes (data s) (p_payload b + 0%nat) v1). set (m2 := write_bytes m1 (p_payload b + 8%nat) v2).
  assert (Em : m = write_bytes m2 (p_payload b + 10%nat) v3).
  { unfold m, iprh_end_set, iprh_start_set, next_pbuf_set. rewrite !store_write_bytes. unfold m2, m1. rewrite Z.add_0_r. done. }
  assert (E1 : contents m1 ((p, b) :: l) = v1 ++ drop (length v1) C).
  { unfold m1. rewrite (contents_write s B ext) by (done || (unfold v1; rewrite L8; lia)). exact (splice_app [] v1 C ltac:(unfold v1; rewrite L8; cbn [length]; lia)). }
  assert (E2 : contents m2 ((p, b) :: l) = (v1 ++ v2) ++ drop (length (v1 ++ v2)) C).
  { unfold m2. change m1 with (data (with_data s m1)) at 1. rewrite (contents_write (with_data s m1) B ext) by (first [by apply inv_data|done|unfold v2; rewrite L2; lia]).
    cbn [data with_data]. rewrite E1. apply (splice_app v1 v2). unfold v1, v2. rewrite L8, L2. lia. }
  assert (E3 : contents m ((p, b) :: l) = (v1 ++ v2 ++ v3) ++ drop 12 C).
  { rewrite Em. change m2 with (data (with_data s m2)) at 1. rewrite (contents_write (with_data s m2) B ext) by (first [by apply inv_data|done|unfold v3; rewrite L2; lia]).
    cbn [data with_data]. rewrite E2. replace 10%nat with (length (v1 ++ v2)) by (rewrite length_app; unfold v1, v2; rewrite L8, L2; done).
    rewrite splice_app by (rewrite length_app; unfold v1, v2, v3; rewrite L8, !L2; lia). by rewrite <- app_assoc. }
  assert (Hend0 : 0 <= f_end f) by (unfold f_end; cbn [f_start f]; lia).
  assert (V2 : le_val v2 = off) by (apply le_val_list; unfold f_end in Hend; cbn [f_start f] in Hend; cbn; lia).
  assert (V3 : le_val v3 = f_end f) by (apply le_val_list; cbn; lia). split.
  - split; try done; cbn [data with_data]; change (f_p f) with p; rewrite ?E3.
    + rewrite <- app_assoc, take_app_length' by (unfold v1; by rewrite L8). by apply le_val_list.
    + rewrite <- !app_assoc, drop_app_length', take_app_length' by (unfold v1, v2; by rewrite ?L8, ?L2). exact V2.
    + replace ((v1 ++ v2 ++ v3) ++ drop 12 C) with ((v1 ++ v2) ++ v3 ++ drop 12 C) by (by rewrite <- !app_assoc).
      rewrite drop_app_length', take_app_length' by (rewrite ?length_app; unfold v1, v2, v3; by rewrite ?L8, ?L2). exact V3.
    + rewrite drop_app_ge by (rewrite !length_app; unfold v1, v2, v3; rewrite ?L8, ?L2; cbn; lia). rewrite !length_app. unfold v1, v2, v3. rewrite L8, !L2, drop_drop. done.
    + rewrite !Forall_app. split; [split_and!; apply le_list_bytes|by apply Forall_drop].
  - intros g Hg. by apply (helper_keeps s B ext p b l).
Qed.

(** ** Lemmas: ip_reass_chain_frag_into_datagram_and_validate *)

Lemma elem_nodes f fs : f ∈ fs -> f_as f ⊆ nodes fs.
Proof. intros Hf x Hx. unfold nodes. apply list_elem_of_bind. by exists f. Qed.

Lemma apart_nodes (xs : list Z) fs : xs ## nodes fs -> Forall (λ g, xs ## f_as g) fs.
Proof. intros Hd. apply Forall_forall. intros g Hg x Hx Hx'. apply (Hd x Hx). by apply (elem_nodes g). Qed.

Lemma apart_perm (xs : list Z) a b : a ≡ₚ b -> xs ## nodes a -> xs ## nodes b.
Proof. intros Hp Hd x Hx Hx'. apply (Hd x Hx). by rewrite Hp. Qed.

(** The queue has no more fragments than there are pbufs. *)
Lemma frags_fuel (s : pst) p fs e : fseg s p fs e -> NoDup (nodes fs) -> (length fs <= size (pbufs s))%nat.
Proof.
  intros Hs Hnd. assert (Hl : (length fs <= length (nodes fs))%nat).
  { clear Hnd. revert p Hs. induction fs as [|f fs IH]; intros p Hs; [done|]. destruct Hs as (_ & nxt & b & l & Hf & Hs). rewrite nodes_cons, length_app, (fa_as _ _ _ _ _ Hf). cbn. specialize (IH _ Hs). lia. }
  assert (Hsub : nodes fs ⊆ (map_to_list (pbufs s)).*1).
  { intros x Hx. unfold nodes in Hx. apply list_elem_of_bind in Hx as (f & Hx & Hf). destruct (fseg_elem _ _ _ _ _ Hs Hf) as (nxt & b & l & Hat). apply elem_of_keys.
    rewrite (fa_as _ _ _ _ _ Hat) in Hx. change (f_p f :: l.*1) with (((f_p f, b) :: l).*1) in Hx. apply list_elem_of_fmap in Hx as ([y c] & -> & Hy). exists c.
    by eapply seg_lookup; [apply (proj1 (fa_chain _ _ _ _ _ Hat))|]. }
  pose proof (submseteq_length _ _ (NoDup_submseteq _ _ Hnd Hsub)) as H. rewrite length_fmap, length_map_to_list in H. lia.
Qed.

Definition with_fs (d : dgram) (fs : list frag) : dgram := Dgram (dg_a d) (dg_hdr d) (dg_len d) (dg_flags d) (dg_timer d) fs.

Lemma place_passed f fs a c : place f fs = Some (a, c) -> Forall (λ g, f_end g <= f_start f) a.
Proof.
  revert a c. induction fs as [|g r IH]; intros a c E; cbn in E; [injection E as <- <-; constructor|]. destruct (f_start f <? f_start g); [destruct (f_start g <? f_end f); [done|injection E as <- <-; constructor]|].
  destruct (f_start f =? f_start g); [done|]. destruct (Z.ltb_spec (f_start f) (f_end g)); [done|]. destruct (place f r) as [[a' c']|]; [|done]. injection E as <- <-. constructor; [done|by eapply IH].
Qed.

Lemma with_data_id (s : pst) : with_data s (data s) = s.
Proof. by destruct s. Qed.

Lemma set_ipr_id (s : reass) a r : r_data s !! a = Some r -> set_ipr s a r = s.
Proof. intros H. unfold set_ipr. rewrite insert_id by done. by destruct s. Qed.

(** The list of a datagram when the fragment [f], with its link set to [c], is linked
    behind [a]; [m] is the memory with that link. *)
Lemma link_behind (s : pst) B ext f b l a c m :
  pbuf_inv s B ext -> f_as f ## nodes (a ++ c) -> NoDup (nodes (a ++ c)) -> fseg s (first_p (a ++ c)) (a ++ c) NULL ->
  frag_at (with_data s m) f (first_p c) b l -> (forall g, f_as f ## f_as g -> keeps s (with_data s m) g) ->
  let m' := if decide (a = []) then m else next_pbuf_set m (before s a) (f_p f) in
  fseg (with_data s m') (first_p (a ++ f :: c)) (a ++ f :: c) NULL /\ forall g, f_as f ## f_as g -> nodes (a ++ c) ## f_as g -> keeps s (with_data s m') g.
Proof.
  intros HI Hap Hnd Hs Hf K. assert (Hs1 : fseg (with_data s m) (first_p (a ++ c)) (a ++ c) NULL).
  { eapply fseg_keeps; [exact Hs|]. eapply Forall_impl; [exact (apart_nodes _ _ Hap)|]. exact K. }
  destruct a as [|h a _] using rev_ind; cbn zeta.
  - cbn [app] in *. rewrite decide_True by done. split; [|intros g Hg _; by apply K]. split; [done|]. exists (first_p c), b, l. by split.
  - rewrite decide_False by (intros E; by apply app_nil in E as [_ ?]). pose proof Hs as Hh. apply fseg_app in Hh as (q & Hh & _). apply fseg_app in Hh as (q' & _ & (_ & nh & bh & lh & Hh & _)).
    pose proof (frag_lookup _ _ _ _ _ Hh) as Hbh. rewrite (before_snoc _ _ _ _ Hbh).
    destruct (fseg_link (with_data s m) B ext f b l (first_p ((a ++ [h]) ++ c)) a h bh c) as [Hs2 K2]; try done; [by apply inv_data|by apply apart_nodes|].
    replace (first_p ((a ++ [h]) ++ f :: c)) with (first_p ((a ++ [h]) ++ c)) by (by destruct a). split; [exact Hs2|]. intros g Hg Hg'. eapply keeps_trans; [by apply K|]. apply K2.
    intros x Hx Hx'. apply (Hg' x); [|done]. apply (elem_nodes h); [|done]. rewrite !elem_of_app. left. right. by left.
Qed.

(** Linking a fragment into the list of a datagram. *)
Lemma place_link_spec (s : reass) B ext d nxt f b l :
  let ps := n_ps (r_net s) in
  pbuf_inv ps B ext -> frag_at ps f NULL b l -> f_as f ## nodes (dg_fs d) -> NoDup (nodes (dg_fs d)) ->
  fseg ps (first_p (dg_fs d)) (dg_fs d) NULL -> r_data s !! dg_a d = Some (reassdata_of d nxt) ->
  let run := place_loop (frag_fuel s) s (dg_a d) (f_p f) (p_payload b) (first_p (dg_fs d)) NULL true in
  let kept m := forall g, f_as f ## f_as g -> nodes (dg_fs d) ## f_as g -> keeps ps (with_data ps m) g in
  match place f (dg_fs d) with
  | None => exists m, run = Ret (None, with_rmem s m) /\ forall g, f_as f ## f_as g -> keeps ps (with_data ps m) g
  | Some (a, c) =>
      exists q prev valid s1 m, run = Ret (Some (q, prev, valid), s1)
        /\ append_frag s1 (dg_a d) (f_p f) (p_payload b) q prev valid
           = Ret (links (a ++ [f]), set_ipr (with_rmem s m) (dg_a d) (reassdata_of (with_fs d (a ++ f :: c)) nxt))
        /\ kept m /\ fseg (with_data ps m) (first_p (a ++ f :: c)) (a ++ f :: c) NULL
  end.
Proof.
  intros ps HI Hf Hap Hnd Hs Hr. pose proof (place_loop_spec (frag_fuel s) s B ext (dg_a d) _ f b l (first_p (dg_fs d)) [] (dg_fs d) HI Hf (apart_nodes _ _ Hap) ltac:(constructor) Hs Hr) as Hrun.
  cbn zeta in *. cbn [app] in Hrun. change (before (n_ps (r_net s)) []) with NULL in Hrun. change (links []) with true in Hrun. specialize (Hrun ltac:(pose proof (frags_fuel _ _ _ _ Hs Hnd); unfold frag_fuel; fold ps; lia)).
  assert (Hfr : 0 < f_p f < 2 ^ 64) by (eapply block_below; [exact HI|by eapply frag_lookup]).
  assert (K1 : forall x g, f_as f ## f_as g -> keeps ps (with_data ps (next_pbuf_set (data ps) (p_payload b) x)) g) by (intros; by eapply keeps_set_next).
  destruct (place f (dg_fs d)) as [[a c]|] eqn:Ep.
  - pose proof (place_app _ _ _ _ Ep) as Ea. pose proof (place_passed _ _ _ _ Ep) as Hle. rewrite Ea in Hs, Hap, Hnd.
    assert (Hset : forall m, a <> [] -> set_ipr (with_rmem s m) (dg_a d) (reassdata_of (with_fs d (a ++ f :: c)) nxt) = with_rmem s m).
    { intros m Ha. apply set_ipr_id. cbn. rewrite Hr. unfold reassdata_of. cbn. rewrite Ea. by destruct a. }
    assert (Hq : c <> [] -> match c with q :: _ => 0 < f_p q < 2 ^ 64 | [] => False end).
    { intros Hc. destruct c as [|q c]; [done|]. apply fseg_app in Hs as (y & _ & (_ & nq & bq & lq & Hq & _)). eapply block_below; [exact HI|by eapply frag_lookup]. }
    assert (Hm : exists m0, frag_at (with_data ps m0) f (first_p c) b l /\ (forall g, f_as f ## f_as g -> keeps ps (with_data ps m0) g)
      /\ m0 = match c with [] => data ps | q :: _ => next_pbuf_set (data ps) (p_payload b) (f_p q) end).
    { eexists. split; [|split; [|reflexivity]]; destruct c as [|q c]; rewrite ?with_data_id; [done| |intros; apply keeps_refl|by apply K1]. eapply frag_set_next; [done|done|]. specialize (Hq ltac:(done)). cbn in Hq |- *. lia. }
    destruct Hm as (m0 & Hf0 & K0 & Em0). destruct (link_behind ps B ext f b l a c m0 HI Hap Hnd Hs Hf0 K0) as [Hseg Hk]. rewrite <- Ea in Hk.
    set (m' := if decide (a = []) then m0 else _) in *. destruct c as [|q c].
    + do 4 eexists. exists m'. split; [exact Hrun|]. split; [|split; [exact Hk|exact Hseg]]. unfold append_frag. rewrite Z.eqb_refl. rewrite app_nil_r in Hs, Ea. destruct (decide (a = [])) as [->|Ha].
      * change (before (n_ps (r_net s)) []) with NULL. rewrite Z.eqb_refl. cbn [negb]. unfold ipr_at. rewrite Hr. cbn [mbind outcome_bind]. rewrite LWIP_ASSERT_ok by (unfold reassdata_of; cbn; by rewrite Ea).
        cbn [mbind outcome_bind]. unfold m'. rewrite Em0. do 2 f_equal. unfold set_ipr. destruct s as [[[]]]. done.
      * destruct a as [|h a _] using rev_ind; [done|]. apply fseg_app in Hs as (y & _ & (_ & nh & bh & lh & Hh & _)). pose proof (frag_lookup _ _ _ _ _ Hh) as Hbh. rewrite !(before_snoc _ _ _ _ Hbh) in *.
        pose proof (payload_not_null _ _ _ _ _ _ _ HI Hh). rewrite (proj2 (Z.eqb_neq (p_payload bh) NULL)) by (unfold NULL; lia). cbn [negb]. unfold r_mem. fold ps.
        destruct (frag_loads _ _ _ _ _ Hh) as (_ & _ & ->). destruct (frag_loads _ _ _ _ _ Hf) as (_ & -> & _).
        apply Forall_app in Hle as [_ Hle]. apply Forall_cons in Hle as [Hle _]. rewrite LWIP_ASSERT_ok by (by apply Z.leb_le). cbn [mbind outcome_bind].
        assert (Hfh : f_as h ## f_as f) by (intros x Hx Hx'; apply (Hap x Hx'); apply (elem_nodes h); [rewrite app_nil_r; apply elem_of_app; right; by left|done]).
        destruct (offsets_set_next _ _ _ _ _ _ _ _ _ _ _ (f_p f) HI Hh Hf ltac:(by right) ltac:(lia)) as [-> _].
        destruct (offsets_set_next _ _ _ _ _ _ _ _ _ _ _ (f_p f) HI Hh Hh ltac:(by left) ltac:(lia)) as [_ ->].
        rewrite links_snoc, Hset by done. unfold m'. by rewrite (before_snoc _ _ _ _ Hbh), Em0.
    + specialize (Hq ltac:(done)). cbn in Hq. destruct (decide (a = [])) as [->|Ha].
      * do 4 eexists. exists m'. split; [exact Hrun|]. split; [|split; [exact Hk|exact Hseg]]. unfold append_frag. rewrite (proj2 (Z.eqb_neq (f_p q) NULL)) by (unfold NULL; lia).
        unfold m'. rewrite Em0. done.
      * do 4 eexists. exists m'. split; [exact Hrun|]. split; [|split; [exact Hk|exact Hseg]]. unfold append_frag. rewrite (proj2 (Z.eqb_neq (f_p q) NULL)) by (unfold NULL; lia).
        rewrite Hset by done. unfold m'. by rewrite Em0.
  - destruct Hrun as (m & E & Hm). exists m. split; [exact E|]. assert (K : forall g, f_as f ## f_as g -> keeps ps (with_data ps m) g).
    { destruct Hm as [->|(x & _ & ->)]; [intros; unfold r_mem; rewrite with_data_id; apply keeps_refl|by apply K1]. }
    exact K.
Qed.

Lemma dseg_lookup m p D1 d D2 e : dseg m p (D1 ++ d :: D2) e -> exists nxt, m !! dg_a d = Some (reassdata_of d nxt) /\ dseg m nxt D2 e.
Proof. intros H. apply dseg_app in H as (q & _ & (-> & nxt & ? & ?)). by exists nxt. Qed.

Lemma dseg_update m p D1 d D2 e d' nxt :
  dseg m p (D1 ++ d :: D2) e -> NoDup (dg_a <$> D1 ++ d :: D2) -> m !! dg_a d = Some (reassdata_of d nxt) -> dg_a d' = dg_a d ->
  dseg (<[dg_a d := reassdata_of d' nxt]> m) p (D1 ++ d' :: D2) e.
Proof.
  intros Hs Hnd Hm Ea. apply dseg_app in Hs as (q & H1 & (-> & nxt' & Hm' & H2)). rewrite Hm in Hm'. injection Hm' as <-. rewrite fmap_app, fmap_cons in Hnd.
  apply NoDup_app in Hnd as (_ & Hn1 & Hn2). apply NoDup_cons in Hn2 as [Hn2 _]. apply dseg_app. exists (dg_a d). split.
  - eapply dseg_frame; [exact H1|]. intros a Ha. apply lookup_insert_ne. intros <-. apply (Hn1 _ Ha). by left.
  - split; [done|]. exists nxt. split; [apply lookup_insert_eq|]. eapply dseg_frame; [exact H2|]. intros a Ha. apply lookup_insert_ne. by intros <-.
Qed.

Lemma dgrams_middle s s' D1 d d' D2 :
  Forall (dgram_ok s) (D1 ++ d :: D2) -> Forall (keeps s s') (frags (D1 ++ D2)) -> dgram_ok s' d' -> Forall (dgram_ok s') (D1 ++ d' :: D2).
Proof.
  intros HD K Hd'. rewrite frags_app in K. apply Forall_app in K as [K1 K2]. apply Forall_app in HD as [HD1 HD2]. apply Forall_cons in HD2 as [_ HD2].
  apply Forall_app. split; [by eapply dgrams_keep|]. constructor; [done|by eapply dgrams_keep].
Qed.

Lemma dlist_update (s s' : reass) D1 d d' D2 nxt :
  dlist s (D1 ++ d :: D2) -> dg_a d' = dg_a d -> r_data s !! dg_a d = Some (reassdata_of d nxt) ->
  r_data s' = <[dg_a d := reassdata_of d' nxt]> (r_data s) -> reassdatagrams s' = reassdatagrams s -> r_pool s' = r_pool s -> dlist s' (D1 ++ d' :: D2).
Proof.
  intros [H1 H2 H3 H4] Ea Hr E1 E2 E3. assert (Ef : dg_a <$> D1 ++ d' :: D2 = dg_a <$> D1 ++ d :: D2) by (by rewrite !fmap_app, !fmap_cons, Ea).
  split; rewrite ?Ef, ?E1, ?E2, ?E3; try done; [by apply dseg_update|]. intros a. rewrite <- H3. cbn. destruct (decide (a = dg_a d)) as [->|Hne]; [rewrite lookup_insert_eq, Hr; split; by eexists|by rewrite lookup_insert_ne].
Qed.

(** Replacing a datagram, with the layers below. *)
Lemma core_update (s : reass) B B' ext ext' D1 d d' D2 n nxt :
  reass_core s B ext (D1 ++ d :: D2) -> dg_a d' = dg_a d -> r_data s !! dg_a d = Some (reassdata_of d nxt) ->
  net_ok n B' (hold ext' (frags (D1 ++ d' :: D2))) -> dgram_ok (n_ps n) d' -> Forall (keeps (n_ps (r_net s)) (n_ps n)) (frags (D1 ++ D2)) -> NoDup (nodes (frags (D1 ++ d' :: D2))) ->
  reass_core (set_ipr (with_rnet s n) (dg_a d) (reassdata_of d' nxt)) B' ext' (D1 ++ d' :: D2).
Proof. intros [H1 H2 H3 H4] Ea Hr Hn Hd' K Hnd. split; try done; [by eapply (dlist_update s)|by eapply dgrams_middle]. Qed.

Lemma frags_middle D1 d D2 : frags (D1 ++ d :: D2) ≡ₚ dg_fs d ++ frags (D1 ++ D2).
Proof. rewrite !frags_app, frags_cons. rewrite Permutation_app_swap_app. done. Qed.

Lemma payload_apart (s : pst) B ext f nxt b l g nxt' b' l' :
  pbuf_inv s B ext -> frag_at s f nxt b l -> frag_at s g nxt' b' l' -> f_as f ## f_as g -> p_payload b <> p_payload b'.
Proof.
  intros HI Hf Hg Hd E. pose proof (fa_len _ _ _ _ _ Hf). pose proof (fa_len _ _ _ _ _ Hg). rewrite (fa_as _ _ _ _ _ Hf), (fa_as _ _ _ _ _ Hg) in Hd.
  apply (own_data_apart s B ext ((f_p f, b) :: l) ((f_p g, b') :: l') HI) with (p_payload b); try done.
  - intros a c Hin. eapply seg_lookup; [apply (proj1 (fa_chain _ _ _ _ _ Hf))|done].
  - intros a c Hin. eapply seg_lookup; [apply (proj1 (fa_chain _ _ _ _ _ Hg))|done].
  - apply (fa_own _ _ _ _ _ Hf).
  - apply (fa_own _ _ _ _ _ Hg).
  - rewrite addrs_cons. apply elem_of_app. left. apply elem_of_range. cbn [snd]. lia.
  - rewrite addrs_cons. apply elem_of_app. left. apply elem_of_range. cbn [snd]. lia.
Qed.

(** The verdict on a datagram with the new fragment. *)
Lemma check_complete_spec (s : reass) B ext ipr r d a f b l c is_last :
  let ps := n_ps (r_net s) in
  pbuf_inv ps B ext -> r_data s !! ipr = Some r -> ipr_p r = first_p (a ++ f :: c) -> ipr_flags r = dg_flags d ->
  fseg ps (first_p (a ++ f :: c)) (a ++ f :: c) NULL -> NoDup (nodes (a ++ f :: c)) -> frag_at ps f (first_p c) b l ->
  let final := is_last || negb (Z.land (dg_flags d) IP_REASS_FLAG_LASTFRAG =? 0) in
  (final = true -> Exists (λ f, f_start f <> 0) (a ++ f :: c)) ->
  check_complete s ipr (p_payload b) is_last (links (a ++ [f])) = Ret (if final && whole (a ++ f :: c) then TELEGRAM_FINISHED else PBUF_QUEUED).
Proof.
  intros ps HI Hr Ep Efl Hs Hnd Hf final Hlast. unfold check_complete, ipr_at. rewrite Hr. cbn [mbind outcome_bind]. rewrite Efl. fold final. destruct final eqn:El; [|done]. cbn [andb].
  destruct (a ++ f :: c) as [|g0 r0] eqn:Efs; [by destruct a|]. destruct Hs as (_ & n0 & b0 & l0 & Hg0 & Hr0). pose proof (frag_not_null _ _ _ _ _ _ _ HI Hg0) as Hn0.
  assert (Ew : whole (g0 :: r0) = (f_start g0 =? 0) && (links (a ++ [f]) && links (f :: c))) by (unfold whole; by rewrite <- Efs, links_app). rewrite Ew.
  destruct (links (a ++ [f])) eqn:Ela; [|by rewrite andb_false_r]. rewrite Ep. cbn [first_p]. rewrite (proj2 (Z.eqb_neq (f_p g0) NULL)) by done.
  rewrite (payload_of_ok _ _ _ (frag_lookup _ _ _ _ _ Hg0)). cbn [mbind outcome_bind]. unfold r_mem. fold ps. destruct (frag_loads _ _ _ _ _ Hg0) as (_ & -> & _). destruct (f_start g0 =? 0) eqn:E0; [|done]. cbn [negb andb].
  destruct (frag_loads _ _ _ _ _ Hf) as (-> & _).
  assert (Hsc : fseg ps (first_p c) c NULL).
  { assert (Hs : fseg ps (f_p g0) (a ++ f :: c) NULL) by (rewrite Efs; split; [done|by exists n0, b0, l0]). apply fseg_app in Hs as (q & _ & (_ & nq & bq & lq & _ & Hc)). by rewrite <- (fseg_first _ _ _ Hc). }
  assert (Hlen : (length c < frag_fuel s)%nat).
  { assert (NoDup (nodes c)) by (rewrite <- Efs, nodes_app, nodes_cons in Hnd; apply NoDup_app in Hnd as (_ & _ & Hnd); by apply NoDup_app in Hnd as (_ & _ & Hnd)).
    pose proof (frags_fuel _ _ _ _ Hsc ltac:(done)). unfold frag_fuel. fold ps. lia. }
  destruct (holes_loop_spec (frag_fuel s) s B ext f b l _ c HI Hf Hsc Hlen) as (h & -> & Hh). cbn [mbind outcome_bind]. destruct (links (f :: c)); [|done].
  destruct (Hh eq_refl) as (g & bg & lg & Eg & Hg & ->). 
  assert (Hlg : last (g0 :: r0) = Some g) by (rewrite <- Efs, last_app_cons; exact Eg). destruct (frag_loads _ _ _ _ _ Hg) as (En & _).
  enough (Hne : p_payload b0 <> p_payload bg) by (rewrite (proj2 (Z.eqb_neq _ _) Hne); cbn [negb LWIP_ASSERT mbind outcome_bind]; unfold ps; by rewrite En, Z.eqb_refl).
  destruct r0 as [|g1 r1 _] using rev_ind.
  - specialize (Hlast eq_refl). apply Exists_cons in Hlast as [Hl|Hl]; [|by apply Exists_nil in Hl]. bool_to_prop. done.
  - rewrite app_comm_cons, last_snoc in Hlg. injection Hlg as ->. apply (payload_apart ps B ext _ _ _ _ _ _ _ _ HI Hg0 Hg).
    rewrite nodes_cons, nodes_app in Hnd. apply NoDup_app in Hnd as (_ & Hnd & _). intros x Hx Hx'. apply (Hnd x Hx). apply elem_of_app. right. cbn. by rewrite app_nil_r.
Qed.

(** ** Incoming fragments *)

(** The packet [(p, b) :: l] as ip4_input hands it over: it carries its data and has the
    length its header says, and it is a fragment.  A first fragment has 8 bytes of data (of
    the next header) in its first pbuf.  The end of its data may be anywhere, but for one
    gap: of a fragment with more to follow it is not from 65516 to 65535, where the code
    takes it although no datagram is that long. *)
Record incoming (s : pst) (p : Z) (b : pbuf) (l : list (Z * pbuf)) : Prop := Incoming {
  in_chain : chain s p ((p, b) :: l);
  in_own : own_data ((p, b) :: l);
  in_bytes : Forall is_u8 (contents (data s) ((p, b) :: l));
  in_len : 20 <= p_len b;
  in_clen : length l < 65535;
  in_total : lwip_htons (IPH_LEN (data s) (p_payload b)) = p_tot_len b;
  in_first : IPH_OFFSET_BYTES (data s) (p_payload b) = 0 -> 28 <= p_len b;
  in_last : Z.land (IPH_OFFSET (data s) (p_payload b)) (PP_HTONS IP_MF) = 0 -> IPH_OFFSET_BYTES (data s) (p_payload b) <> 0;
  in_end : let e := IPH_OFFSET_BYTES (data s) (p_payload b) + (p_tot_len b - 20) in
    e <= 65515 \/ 65536 <= e \/ Z.land (IPH_OFFSET (data s) (p_payload b)) (PP_HTONS IP_MF) = 0
}.

(** The fragment it is. *)
Definition frag_of (s : pst) (p : Z) (b : pbuf) (l : list (Z * pbuf)) : frag :=
  Frag (p :: l.*1) (IPH_OFFSET_BYTES (data s) (p_payload b)) (drop 20 (contents (data s) ((p, b) :: l))).

Lemma frag_of_end s p b l : incoming s p b l -> f_end (frag_of s p b l) = IPH_OFFSET_BYTES (data s) (p_payload b) + (p_tot_len b - 20) /\ 20 <= p_tot_len b < 65536.
Proof.
  intros H. pose proof (contents_length (data s) _ (tot_ok_lens _ (proj2 (in_chain _ _ _ _ H)))) as Hl. destruct (in_chain _ _ _ _ H) as [_ (H1 & H2 & H3 & H4)].
  pose proof (tot_ok_total _ H4). pose proof (in_len _ _ _ _ H). unfold f_end, frag_of. cbn [f_start f_data]. rewrite length_drop. change (total ((p, b) :: l)) with (p_len b + total l) in *. unfold_c. lia.
Qed.

Lemma offset_bytes_range m h : is_u16 (IPH_OFFSET_BYTES m h).
Proof. apply u16_range. Qed.

Lemma held_add ext p f D x : f_p f = p -> hold (ext_add ext p) D x = hold ext (f :: D) x.
Proof. intros <-. unfold hold, ext_add. rewrite held_cons. repeat case_decide; subst; lia || congruence. Qed.

Lemma net_ok_ext (n : inet) B ext ext' : (forall a, ext a = ext' a) -> net_ok n B ext -> net_ok n B ext'.
Proof. intros E [H ?]. split; [|done]. eapply inv_ext_eq; [|exact H]. intros a _. cbn. by rewrite E. Qed.

Lemma net_ok_data (n : inet) B ext m : net_ok n B ext -> net_ok (with_ps n (with_data (n_ps n) m)) B ext.
Proof. intros [H ?]. split; [|done]. by apply inv_data. Qed.

Lemma core_mem (s : reass) B ext D m :
  reass_core s B ext D -> Forall (keeps (n_ps (r_net s)) (with_data (n_ps (r_net s)) m)) (frags D) -> reass_core (with_rmem s m) B ext D.
Proof. intros [[] H5 H6 H7] K. split; try done; [by apply net_ok_data|by eapply dgrams_keep]. Qed.

(** A fragment that ends beyond 16 bits is dropped. *)
Lemma chain_frag_far (s : reass) B ext D ipr p b l is_last :
  let m := r_mem s in
  reass_core s B (ext_add ext p) D -> incoming (n_ps (r_net s)) p b l -> IPH_HL_BYTES m (p_payload b) = 20 -> p :: l.*1 ## nodes (frags D) ->
  let f := frag_of (n_ps (r_net s)) p b l in
  65536 <= f_end f ->
  exists m', ip_reass_chain_frag_into_datagram_and_validate s ipr p is_last = Ret (PBUF_DROPPED, with_rmem s m') /\ reass_core (with_rmem s m') B (ext_add ext p) D
    /\ forall g, f_as f ## f_as g -> nodes (frags D) ## f_as g -> keeps (n_ps (r_net s)) (with_data (n_ps (r_net s)) m') g.
Proof.
  intros m HC Hin Hhl Hap f Hfar. pose proof (proj1 (ri_net _ _ _ _ HC)) as HI. set (ps := n_ps (r_net s)) in *. pose proof (in_chain _ _ _ _ Hin) as Hc. assert (Hb : pbufs ps !! p = Some b) by (by destruct Hc as [(_ & ? & _) _]).
  destruct (frag_of_end _ _ _ _ Hin) as [Hend Htot]. fold f in Hend. pose proof (offset_bytes_range (data ps) (p_payload b)) as Hoff. set (off := IPH_OFFSET_BYTES (data ps) (p_payload b)) in *.
  unfold ip_reass_chain_frag_into_datagram_and_validate. rewrite (payload_of_ok _ _ _ Hb). cbn [mbind outcome_bind]. fold m. rewrite Hhl.
  assert (Etl : lwip_htons (IPH_LEN m (p_payload b)) = p_tot_len b) by apply (in_total _ _ _ _ Hin). rewrite Etl. rewrite (proj2 (Z.ltb_ge _ 20)) by lia.
  rewrite LWIP_ASSERT_ok by done. cbn [mbind outcome_bind]. cbn zeta. change (IPH_OFFSET_BYTES m (p_payload b)) with off. rewrite (u16_small (p_tot_len b - 20)) by (unfold_c; lia).
  set (e := u16 (off + (p_tot_len b - 20))). assert (He : 0 <= e < off) by (unfold e; unfold_c; Z.div_mod_to_equations; lia).
  unfold iprh_end at 1, iprh_end_set at 1. rewrite load_store by (cbn; unfold_c; lia). rewrite (proj2 (Z.ltb_lt e off)) by lia.
  eexists. split; [done|]. assert (K : forall g, f_as f ## f_as g -> keeps ps (with_data ps (iprh_end_set (iprh_start_set (next_pbuf_set m (p_payload b) NULL) (p_payload b) off) (p_payload b) e)) g).
  { intros g Hg. apply (helper_keeps ps B _ p b l off e g HI Hc (in_own _ _ _ _ Hin) (in_len _ _ _ _ Hin) Hg). }
  split; [apply core_mem; [done|]; eapply Forall_impl; [by apply apart_nodes|exact K]|]. intros g Hg _. by apply K.
Qed.

Lemma chain_frag_spec (s : reass) B ext D1 d D2 p b l is_last :
  let D := D1 ++ d :: D2 in
  let m := r_mem s in
  reass_core s B (ext_add ext p) D -> incoming (n_ps (r_net s)) p b l -> IPH_HL_BYTES m (p_payload b) = 20 -> p :: l.*1 ## nodes (frags D) ->
  is_last = (Z.land (IPH_OFFSET m (p_payload b)) (PP_HTONS IP_MF) =? 0) ->
  let f := frag_of (n_ps (r_net s)) p b l in
  f_end f <= 65515 ->
  let run := ip_reass_chain_frag_into_datagram_and_validate s (dg_a d) p is_last in
  let kept m' := forall g, f_as f ## f_as g -> nodes (frags D) ## f_as g -> keeps (n_ps (r_net s)) (with_data (n_ps (r_net s)) m') g in
  match place f (dg_fs d) with
  | None => exists m', run = Ret (PBUF_DROPPED, with_rmem s m') /\ reass_core (with_rmem s m') B (ext_add ext p) D /\ kept m'
  | Some (a, c) =>
      let d' := with_fs d (a ++ f :: c) in
      let final := is_last || negb (Z.land (dg_flags d) IP_REASS_FLAG_LASTFRAG =? 0) in
      exists m' nxt, let s' := set_ipr (with_rmem s m') (dg_a d) (reassdata_of d' nxt) in
        run = Ret (if final && whole (dg_fs d') then TELEGRAM_FINISHED else PBUF_QUEUED, s') /\ reass_core s' B ext (D1 ++ d' :: D2)
        /\ (final = true -> Exists (λ f, f_start f <> 0) (dg_fs d')) /\ kept m'
  end.
Proof.
  intros D m HC Hin Hhl Hap Elast f Hmax run kept. pose proof HC as [[H1 H2 H3 H4] [HI Hid] H6 H7]. set (ps := n_ps (r_net s)) in *.
  pose proof (in_chain _ _ _ _ Hin) as Hc. assert (Hb : pbufs ps !! p = Some b) by (by destruct Hc as [(_ & ? & _) _]).
  destruct (frag_of_end _ _ _ _ Hin) as [Hend Htot]. fold f in Hend. pose proof (offset_bytes_range (data ps) (p_payload b)) as Hoff. set (off := IPH_OFFSET_BYTES (data ps) (p_payload b)) in *.
  destruct (helper_init ps B _ p b l off HI Hc (in_own _ _ _ _ Hin) (in_len _ _ _ _ Hin) (in_first _ _ _ _ Hin) (in_bytes _ _ _ _ Hin)) as [Hf0 K0]; [unfold_c; lia|change (f_end f <= 65515); lia|].
  change (Frag (p :: l.*1) off (drop 20 (contents (data ps) ((p, b) :: l)))) with f in Hf0, K0.
  unfold run, ip_reass_chain_frag_into_datagram_and_validate. rewrite (payload_of_ok _ _ _ Hb). cbn [mbind outcome_bind]. fold m. rewrite Hhl.
  assert (Etl : lwip_htons (IPH_LEN m (p_payload b)) = p_tot_len b) by apply (in_total _ _ _ _ Hin). rewrite Etl. rewrite (proj2 (Z.ltb_ge _ 20)) by lia.
  rewrite LWIP_ASSERT_ok by done. cbn [mbind outcome_bind]. cbn zeta. change (IPH_OFFSET_BYTES m (p_payload b)) with off. rewrite (u16_small (p_tot_len b - 20)) by (unfold_c; lia). rewrite (u16_small (off + _)) by (unfold_c; lia).
  rewrite <- Hend. change m with (data ps). set (m0 := iprh_end_set _ _ _) in *. set (s0 := with_rmem s m0).
  assert (Hf0' : frag_at (n_ps (r_net s0)) f NULL b l) by exact Hf0. destruct (frag_loads _ _ _ _ _ Hf0') as (_ & _ & Ee). cbn [n_ps r_net s0 with_rmem with_rnet with_ps data with_data] in Ee. fold ps in Ee. change (data (with_data ps m0)) with m0 in Ee.
  rewrite Ee. rewrite (proj2 (Z.ltb_ge _ off)) by lia. destruct (dseg_lookup _ _ _ _ _ _ H1) as (nxt & Hr & _). unfold ipr_at. change (r_data s0) with (r_data s). rewrite Hr. cbn [mbind outcome_bind].
  assert (Hap0 : Forall (λ g, f_as f ## f_as g) (frags D)) by (by apply apart_nodes). assert (HC0 : reass_core s0 B (ext_add ext p) D) by (apply core_mem; [done|]; eapply Forall_impl; [exact Hap0|exact K0]).
  pose proof (frags_middle D1 d D2) as Hperm. fold D in Hperm. assert (Hndp : NoDup (nodes (dg_fs d ++ frags (D1 ++ D2)))) by (by rewrite <- Hperm).
  assert (Happ : f_as f ## nodes (dg_fs d ++ frags (D1 ++ D2))) by (by eapply apart_perm). rewrite nodes_app in Hndp, Happ. apply NoDup_app in Hndp as (Hnd1 & Hnd2 & Hnd3).
  assert (Hd1 : f_as f ## nodes (dg_fs d)) by (intros x Hx Hx'; apply (Happ x Hx); apply elem_of_app; by left).
  assert (Hdo : dgram_ok (n_ps (r_net s0)) d) by (pose proof (ri_dgrams _ _ _ _ HC0) as H; apply Forall_app in H as [_ H]; by apply Forall_cons in H as [? _]).
  pose proof (place_link_spec s0 B _ d nxt f b l (proj1 (ri_net _ _ _ _ HC0)) Hf0' Hd1 Hnd1 (do_frags _ _ Hdo) Hr) as Hpl. cbn zeta in Hpl. change (ipr_p (reassdata_of d nxt)) with (first_p (dg_fs d)). change (f_p f) with p in Hpl.
  assert (Kothers : forall m1, (forall g, f_as f ## f_as g -> nodes (dg_fs d) ## f_as g -> keeps (n_ps (r_net s0)) (with_data (n_ps (r_net s0)) m1) g) -> Forall (keeps (n_ps (r_net s0)) (n_ps (r_net (with_rmem s0 m1)))) (frags (D1 ++ D2))).
  { intros m1 K. apply Forall_forall. intros g Hg. apply K; [intros x Hx Hx'; apply (Happ x Hx); apply elem_of_app; right; by apply (elem_nodes g)|]. intros x Hx Hx'. apply (Hnd2 x Hx). by apply (elem_nodes g). }
  destruct (place f (dg_fs d)) as [[a c]|] eqn:Ep.
  - destruct Hpl as (q & prev & valid & s1 & m1 & -> & Happend & K & Hseg). cbn [mbind outcome_bind]. rewrite Happend. cbn [mbind outcome_bind]. set (d' := with_fs d (a ++ f :: c)) in *.
    pose proof (place_app _ _ _ _ Ep) as Ea. set (final := is_last || _).
    assert (Hex : final = true -> Exists (λ f, f_start f <> 0) (dg_fs d')).
    { intros Hfin. cbn [dg_fs d' with_fs]. unfold final in Hfin. apply orb_true_iff in Hfin as [Hl|Hl].
      - apply Exists_exists. exists f. split; [apply elem_of_app; right; by left|]. apply (in_last _ _ _ _ Hin). rewrite Elast in Hl. by apply Z.eqb_eq.
      - apply negb_true_iff, Z.eqb_neq in Hl. pose proof (do_last _ _ Hdo Hl) as H. rewrite Ea in H. apply Exists_app. apply Exists_app in H as [H|H]; [by left|right; by right]. }
    assert (Hperm' : frags (D1 ++ d' :: D2) ≡ₚ f :: frags D) by (rewrite Hperm, frags_middle; cbn [dg_fs d' with_fs]; by rewrite Ea, <- Permutation_middle).
    assert (Hnd' : NoDup (nodes (frags (D1 ++ d' :: D2)))) by (rewrite Hperm', nodes_cons; apply NoDup_app; split_and!; [|done|done]; apply (seg_NoDup _ _ _ (inv_not_null _ _ _ HI) (proj1 Hc))).
    assert (Hd' : dgram_ok (n_ps (r_net (with_rmem s0 m1))) d').
    { destruct Hdo as [O1 O2 O3 O4 O5 O6]. split; try done; cbn [dg_fs d' with_fs]; [by eapply place_ordered|]. intros Hl. change (dg_flags d') with (dg_flags d) in Hl. apply Hex. unfold final. rewrite (proj2 (Z.eqb_neq _ _) Hl). apply orb_true_r. }
    assert (HC' : reass_core (set_ipr (with_rmem s0 m1) (dg_a d) (reassdata_of d' nxt)) B ext (D1 ++ d' :: D2)).
    { apply (core_update s0 B B (ext_add ext p) ext D1 d d' D2 _ nxt HC0); try done; [|by apply Kothers]. apply (net_ok_ext _ _ (hold (ext_add ext p) (frags D))); [|apply net_ok_data, HC0].
      intros x. rewrite (held_add _ _ f) by done. unfold hold. f_equal. symmetry. by apply held_perm. }
    exists m1, nxt. split; [|split; [exact HC'|split; [exact Hex|]]].
    2:{ intros g Hg1 Hg2. apply (keeps_trans _ (n_ps (r_net s0))); [by apply K0|]. apply K; [done|]. intros x Hx Hx'. apply (Hg2 x); [|done]. rewrite Hperm, nodes_app. apply elem_of_app. by left. }
    destruct (fseg_app (n_ps (r_net (with_rmem s0 m1))) (first_p (a ++ f :: c)) a (f :: c) NULL) as [Hsp _]. destruct (Hsp Hseg) as (y & _ & (_ & nf & bf & lf & Hff & Hcc)).
    assert (Ebf : bf = b). { pose proof (frag_lookup _ _ _ _ _ Hff) as Hb'. change (pbufs ps !! p = Some bf) in Hb'. congruence. } subst bf. rewrite (fseg_first _ _ _ Hcc) in Hff.
    rewrite (check_complete_spec _ B (λ x, (hold (ext_add ext p) (frags D) x + link_holds (n_lk (r_net s)) x)%nat) (dg_a d) (reassdata_of d' nxt) d a f b lf c is_last); try done; [apply inv_data, inv_data, HI|apply lookup_insert_eq|].
    rewrite Hperm', nodes_cons in Hnd'. apply NoDup_app in Hnd' as (Hx1 & _ & _).
    rewrite nodes_app, nodes_cons. rewrite Ea in Hnd1, Hd1. rewrite nodes_app in Hnd1, Hd1. rewrite Permutation_app_swap_app. apply NoDup_app. by split_and!.
  - destruct Hpl as (m1 & -> & K). exists m1. cbn [mbind outcome_bind]. split; [done|]. change (with_rmem s m1) with (with_rmem s0 m1). split; [apply core_mem; [done|]; eapply Forall_impl; [exact Hap0|exact K]|].
    intros g Hg1 Hg2. apply (keeps_trans _ (n_ps (r_net s0))); [by apply K0|by apply K].
Qed.

End Facts.
