(* ===== verification/ReassFree.v ===== *)
(** * Reassembly: giving datagrams up

    Removing a datagram from the queue: its fragments are freed, and when the first of
    them has come its source is told by an ICMP message.  The timer, and making room. *)

From S2P Require Import Prelude Def ListSeg InetChksum Ip4Addr Mem Memp Pbuf PbufMem PbufRef PbufChain PbufData Header Ip4 Ip4Frag Icmp IcmpSpec Reass ReassQueue.

#[local] Open Scope Z_scope.
#[local] Coercion Z.of_nat : nat >-> Z.

Section Facts.
Context `{MO : MemOptions} {MOk : MemOptionsOk} `{PO : PbufOptions} {POk : PbufOptionsOk} {St : Type} `{!PacketMemory St} {Lk : Type} `{LL : !LinkLayer Lk St} {Pl : Type} `{EP : !ElementPool Pl}.
Abbreviation reass := (reass (St := St) (Lk := Lk) (Pl := Pl)).
Abbreviation inet := (net (St := St) (Lk := Lk)).
Abbreviation pst := (pstate (St := St)).

Lemma ipr_at_ok (s : reass) a r : r_data s !! a = Some r -> ipr_at s a = Ret r.
Proof. intros H. unfold ipr_at. by rewrite H. Qed.

(** ** Lemmas: packets that stay *)

Definition stays (s s' : pst) (q : Z) : Prop := forall l, chain s q l -> own_data l -> exists l', same_packet s s' q l l'.

Lemma stays_keeps (s s' : pst) f : stays s s' (f_p f) -> keeps s s' f.
Proof. intros H l Hc Ho _. by apply H. Qed.

Lemma stays_refl (s : pst) q : stays s s q.
Proof. intros l Hc _. exists l. split; [done|]. split; [apply same_packet_refl|done]. Qed.

Lemma stays_trans (s1 s2 s3 : pst) q : stays s1 s2 q -> stays s2 s3 q -> stays s1 s3 q.
Proof.
  intros K1 K2 l Hc Ho. destruct (K1 l Hc Ho) as (l2 & H12). pose proof H12 as (Hc2 & F & _). destruct (upto_refs_own _ _ F Ho) as [Ho2 Ha2].
  apply (same_packet_then s1 s2 s3 _ _ _ H12). by apply K2.
Qed.

Lemma hold_pos ext f fs : f ∈ fs -> (0 < hold ext fs (f_p f))%nat.
Proof. intros Hf. unfold hold. pose proof (held_pos _ _ Hf). lia. Qed.

Lemma hold_cons ext f fs a : hold ext (f :: fs) a = ext_add (hold ext fs) (f_p f) a.
Proof. unfold hold, ext_add. rewrite held_cons. repeat case_decide; subst; lia || congruence. Qed.

(** Freeing a packet: those that are held otherwise stay. *)
Lemma net_free_stays (n : inet) B ext p :
  net_ok n B (ext_add ext p) -> p <> NULL ->
  exists n' B', net_free n p = Ret n' /\ net_ok n' B' ext /\ link_log (n_lk n') = link_log (n_lk n) /\ ip_id n' = ip_id n
    /\ forall q, q <> NULL -> (0 < ext q)%nat -> stays (n_ps n) (n_ps n') q.
Proof.
  intros Hok Hp. destruct (net_free_spec n B ext p Hok Hp) as (n' & B' & E & Hok' & Hlk & Hid & Hd & Ho). exists n', B'. split; [done|]. split; [done|]. split; [by rewrite Hlk|]. split; [done|].
  intros q Hq He l Hc _. apply (only_refs_packet _ _ B' _ q l (inv_not_null _ _ _ (proj1 Hok)) (proj1 Hok') Ho Hd Hc). right. apply (inv_ext _ _ _ (proj1 Hok')); [done|lia].
Qed.

(** ** Lemmas: freeing fragments *)

Lemma free_frags_spec (fuel : nat) (s : reass) B ext p fs rest k :
  net_ok (r_net s) B (hold ext (fs ++ rest)) -> fseg (n_ps (r_net s)) p fs NULL -> (length fs < fuel)%nat -> 0 <= k -> k + length (nodes fs) < 65536 ->
  exists n B', free_frags fuel s p k = Ret (k + length (nodes fs), with_rnet s n) /\ net_ok n B' (hold ext rest)
    /\ link_log (n_lk n) = link_log (n_lk (r_net s)) /\ ip_id n = ip_id (r_net s) /\ forall q, q <> NULL -> (0 < hold ext rest q)%nat -> stays (n_ps (r_net s)) (n_ps n) q.
Proof.
  revert fuel s B p k. induction fs as [|f fs IH]; intros fuel s B p k Hok Hs Hfuel Hk0 Hk.
  - cbn in Hs. subst p. exists (r_net s), B. split; [destruct fuel; cbn; rewrite Z.add_0_r; by destruct s|]. split; [done|]. do 2 (split; [done|]). intros; apply stays_refl.
  - destruct Hs as (-> & nxt & b & l & Hf & Hs). destruct fuel as [|fuel]; [cbn in Hfuel; lia|]. pose proof (frag_not_null _ _ _ _ _ _ _ (proj1 Hok) Hf) as Hnn. cbn [free_frags].
    rewrite (proj2 (Z.eqb_neq (f_p f) NULL)) by done. rewrite (payload_of_ok _ _ _ (frag_lookup _ _ _ _ _ Hf)). cbn [mbind outcome_bind]. unfold r_mem. destruct (frag_loads _ _ _ _ _ Hf) as (-> & _).
    rewrite nodes_cons, length_app in Hk. assert (Hlen : length (f_as f) = length ((f_p f, b) :: l)) by (rewrite (fa_as _ _ _ _ _ Hf); cbn; by rewrite length_fmap).
    rewrite (clen_spec _ _ _ (inv_not_null _ _ _ (proj1 Hok)) (fa_chain _ _ _ _ _ Hf)) by lia. cbn [mbind outcome_bind]. rewrite LWIP_ASSERT_ok by (apply Z.leb_le; lia). cbn [mbind outcome_bind].
    destruct (net_free_stays (r_net s) B (hold ext (fs ++ rest)) (f_p f)) as (n & B1 & -> & Hok1 & Hlk1 & Hid1 & K1); [|done|].
    { eapply net_ok_ext; [|exact Hok]. intros a. apply hold_cons. }
    cbn [mbind outcome_bind]. rewrite u16_small by (unfold_c; lia).
    assert (Hs1 : fseg (n_ps (r_net (with_rnet s n))) nxt fs NULL).
    { eapply fseg_keeps; [exact Hs|]. apply Forall_forall. intros g Hg. apply stays_keeps, K1; [|apply hold_pos, elem_of_app; by left].
      destruct (fseg_elem _ _ _ _ _ Hs Hg) as (ng & bg & lg & Hat). by eapply frag_not_null; [apply (proj1 Hok)|]. }
    destruct (IH fuel (with_rnet s n) B1 nxt (k + length ((f_p f, b) :: l))) as (n' & B' & -> & Hok' & Hlk' & Hid' & K'); [done|done|cbn in Hfuel; lia|lia|lia|].
    exists n', B'. split; [rewrite nodes_cons, length_app, Hlen; do 2 f_equal; lia|]. split; [done|]. split; [cbn in *; congruence|]. split; [cbn in *; congruence|]. intros q Hq He.
    eapply stays_trans; [apply K1; [done|unfold hold in *; rewrite held_app; lia]|]. by apply K'.
Qed.

(** ** Lemmas: taking a datagram out of the list *)

(** The address of the datagram before those behind [D]. *)
Definition prev_of (D : list dgram) : Z := match last D with Some d => dg_a d | None => NULL end.

Lemma dequeue_spec (s : reass) D1 d D2 :
  dlist s (D1 ++ d :: D2) ->
  exists s', ip_reass_dequeue_datagram s (dg_a d) (prev_of D1) = Ret s' /\ dlist s' (D1 ++ D2) /\ r_net s' = r_net s /\ ip_reass_pbufcount s' = ip_reass_pbufcount s.
Proof.
  intros [H1 H2 H3 H4]. destruct (dseg_lookup _ _ _ _ _ _ H1) as (nxt & Hr & Hnxt). unfold ip_reass_dequeue_datagram, ipr_at. rewrite Hr. cbn [mbind outcome_bind].
  assert (Hperm : dg_a <$> D1 ++ d :: D2 ≡ₚ dg_a d :: (dg_a <$> D1 ++ D2)) by (rewrite !fmap_app, fmap_cons; by rewrite <- Permutation_middle).
  assert (Hnd : NoDup (dg_a d :: (dg_a <$> D1 ++ D2))) by (by rewrite <- Hperm). apply NoDup_cons in Hnd as [Hd12 Hnd12].
  destruct (pool_free_law (r_pool s) (dg_a d) (dg_a <$> D1 ++ D2)) as (pool & Ef & Hpool); [by eapply pool_holds_perm|].
  enough (Hs1 : exists s1, (if reassdatagrams s =? dg_a d then Ret (with_rhead s nxt) else
      LWIP_ASSERT "sanity check linked list" (negb (prev_of D1 =? NULL));; pr ← ipr_at s (prev_of D1); Ret (set_ipr s (prev_of D1) (with_ipr_next pr nxt))) = Ret s1
    /\ dseg (r_data s1) (reassdatagrams s1) (D1 ++ D2) NULL /\ (forall a, is_Some (r_data s1 !! a) <-> is_Some (r_data s !! a)) /\ r_pool s1 = r_pool s /\ r_net s1 = r_net s /\ ip_reass_pbufcount s1 = ip_reass_pbufcount s).
  { destruct Hs1 as (s1 & E1 & Hseg & Hdom & Ep & En & Ec). unfold ipr_at in E1. cbn [ipr_next reassdata_of] in *. rewrite E1. cbn [mbind outcome_bind]. rewrite Ep, Ef. cbn [mbind outcome_bind].
    eexists. split; [done|]. split; [|by split]. split; cbn; [| |intros a|]; try done.
    - eapply dseg_frame; [exact Hseg|]. intros a Ha. apply lookup_delete_ne. by intros <-.
    - destruct (decide (a = dg_a d)) as [->|Hne]; [rewrite lookup_delete_eq; split; [by intros []|done]|]. rewrite lookup_delete_ne, Hdom, H3, Hperm, elem_of_cons by done. naive_solver. }
  destruct D1 as [|e E _] using rev_ind.
  - destruct H1 as (E1 & _). rewrite E1, Z.eqb_refl. exists (with_rhead s nxt). by split_and!.
  - rewrite <- app_assoc in H1. cbn [app] in H1. destruct (dseg_lookup _ _ _ _ _ _ H1) as (ne & He & (-> & _)). rewrite <- app_assoc in Hd12, Hnd12. cbn [app] in Hd12, Hnd12.
    assert (Hhd : reassdatagrams s <> dg_a d). { intros Eh. apply Hd12. rewrite <- Eh. destruct E as [|e0 E]; cbn in H1; destruct H1 as (-> & _); by left. }
    assert (Hpos : 0 < dg_a e). { pose proof (pool_holds_pos _ _ H4) as Hp. rewrite Forall_forall in Hp. apply Hp. rewrite <- app_assoc, fmap_app. apply elem_of_app. right. by left. }
    unfold prev_of. rewrite last_snoc. rewrite (proj2 (Z.eqb_neq _ _) Hhd). rewrite LWIP_ASSERT_ok by (apply negb_true_iff, Z.eqb_neq; unfold NULL; lia). cbn [mbind outcome_bind]. unfold ipr_at. rewrite He. cbn [mbind outcome_bind].
    eexists. split; [done|]. split; [|split; [|by split_and!]].
    + cbn. rewrite <- app_assoc. apply dseg_app in H1 as (y & HE & (-> & _)). apply dseg_app. exists (dg_a e).
      rewrite fmap_app, fmap_cons in Hnd12. apply NoDup_app in Hnd12 as (_ & Hn1 & Hn2). apply NoDup_cons in Hn2 as [Hn2 _]. split.
      * eapply dseg_frame; [exact HE|]. intros a Ha. apply lookup_insert_ne. intros <-. apply (Hn1 _ Ha). by left.
      * split; [done|]. exists nxt. split; [apply lookup_insert_eq|]. eapply dseg_frame; [exact Hnxt|]. intros a Ha. apply lookup_insert_ne. by intros <-.
    + intros a. cbn. destruct (decide (a = dg_a e)) as [->|Hne]; [rewrite lookup_insert_eq, He; split; by eexists|by rewrite lookup_insert_ne].
Qed.

(** ** Lemmas: giving up a datagram *)

(** Every route leads to an interface that can send an ICMP message. *)
Definition routes_ok (ns : netifs) : Prop := forall dest nif, ip4_route ns dest = Some nif -> can_send nif 56.

(** The ICMP messages about [d] when it is given up in the state [n]: none when the first
    fragment has not come or there is no route to its source; else one, unless the heap
    has no room for it. *)
Definition expiry (ns : netifs) (n : inet) (d : dgram) (out : list (Z * Z * list Z)) : Prop :=
  match dg_fs d with
  | [] => out = []
  | f :: _ =>
      let src := le_val (take 4 (drop 12 (dg_hdr d))) in
      if f_start f =? 0 then
        match ip4_route ns src with
        | None => out = []
        | Some nif =>
            heap_full (n_ps n) PBUF_IP 36 /\ out = []
            \/ exists hchk chk, let hdr := ip_header 20 0 56 (ip_id n) 0 ICMP_TTL IP_PROTO_ICMP hchk (netif_ip4_addr nif) src in
                 let msg := icmp_error ICMP_TE ICMP_TE_FRAG chk (dg_hdr d ++ take 8 (f_data f)) in
                 out = [(netif_num nif, src, hdr ++ msg)] /\ inet_chksum 0 hdr = 0 /\ inet_chksum 0 msg = 0
        end
      else out = []
  end.

Lemma read_contents (s : pst) p b l (n : nat) : n <= p_len b -> read_bytes (data s) (p_payload b) n = take n (contents (data s) ((p, b) :: l)).
Proof.
  intros Hn. rewrite contents_cons. unfold node_bytes. cbn [snd]. rewrite take_app_le by (rewrite read_bytes_length; lia). rewrite !read_bytes_range, <- fmap_take. f_equal. symmetry. apply range_take. lia.
Qed.

(** A header of 20 bytes written over the helper structure of a fragment. *)
Lemma restore_header (s : pst) B ext f nxt b l h :
  pbuf_inv s B ext -> frag_at s f nxt b l -> length h = 20%nat -> Forall is_u8 h ->
  let s' := with_data s (write_bytes (data s) (p_payload b) h) in
  contents (data s') ((f_p f, b) :: l) = h ++ f_data f /\ forall g, f_as f ## f_as g -> keeps s s' g.
Proof.
  intros HI Hf Hl Hu s'. pose proof (fa_len _ _ _ _ _ Hf). pose proof (contents_write s B ext (f_p f) b l 0 h HI (fa_chain _ _ _ _ _ Hf) (fa_own _ _ _ _ _ Hf) ltac:(lia)) as E. rewrite Z.add_0_r in E.
  split; [|intros g Hg; rewrite (fa_as _ _ _ _ _ Hf) in Hg;
    pose proof (keeps_write s B ext _ b l g 0 h HI (fa_chain _ _ _ _ _ Hf) (fa_own _ _ _ _ _ Hf) ltac:(lia) Hg) as K; by rewrite Z.add_0_r in K].
  cbn [data with_data s']. rewrite E. unfold splice. rewrite take_0, Hl. cbn [app Nat.add]. f_equal. exact (fa_data _ _ _ _ _ Hf).
Qed.

Lemma report_first_spec ns (s : reass) B ext D1 d D2 nxt :
  reass_core s B ext (D1 ++ d :: D2) -> dg_fs d <> [] -> r_data s !! dg_a d = Some (reassdata_of d nxt) -> length (nodes (dg_fs d)) < 65536 -> routes_ok ns ->
  exists n B' gs out, report_first ns s (dg_a d) = Ret (Z.of_nat (length (nodes (dg_fs d))) - length (nodes gs), set_ipr (with_rnet s n) (dg_a d) (reassdata_of (with_fs d gs) nxt))
    /\ net_ok n B' (hold ext (gs ++ frags (D1 ++ D2))) /\ fseg (n_ps n) (first_p gs) gs NULL /\ (length gs <= length (dg_fs d))%nat
    /\ (length (nodes gs) <= length (nodes (dg_fs d)))%nat /\ NoDup (nodes gs)
    /\ link_log (n_lk n) = link_log (n_lk (r_net s)) ++ out /\ expiry ns (r_net s) d out
    /\ forall g, f_p g <> NULL -> (0 < hold ext (frags (D1 ++ D2)) (f_p g))%nat -> nodes (dg_fs d) ## f_as g -> keeps (n_ps (r_net s)) (n_ps n) g.
Proof.
  intros [HL Hok HD Hnd] Hne Hr Hlen Hns. pose proof HL as [H1 H2 H3 H4]. set (ps := n_ps (r_net s)) in *. pose proof (frags_middle D1 d D2) as Hperm.
  assert (Hdo : dgram_ok ps d) by (apply Forall_app in HD as [_ HD]; by apply Forall_cons in HD as [? _]).
  assert (Hok1 : net_ok (r_net s) B (hold ext (dg_fs d ++ frags (D1 ++ D2)))) by (eapply net_ok_ext; [|exact Hok]; intros a; unfold hold; f_equal; by apply held_perm).
  rewrite Hperm, nodes_app in Hnd. apply NoDup_app in Hnd as (Hnd1 & Hnd12 & Hnd2). pose proof (proj1 Hok) as HI.
  destruct (dg_fs d) as [|f fs] eqn:Efs; [done|]. pose proof (do_frags _ _ Hdo) as Hs. rewrite Efs in Hs. destruct Hs as (_ & nf & b & l & Hf & Hs). pose proof (frag_lookup _ _ _ _ _ Hf) as Hb.
  unfold report_first, ipr_at. rewrite Hr. cbn [mbind outcome_bind]. change (ipr_p (reassdata_of d nxt)) with (first_p (dg_fs d)). rewrite Efs. cbn [first_p].
  rewrite (payload_of_ok _ _ _ Hb). cbn [mbind outcome_bind]. unfold r_mem. fold ps. destruct (frag_loads _ _ _ _ _ Hf) as (En & -> & _). rewrite En. destruct (Z.eqb_spec (f_start f) 0) as [E0|E0].
  2:{ exists (r_net s), B, (f :: fs), []. rewrite app_nil_r, Z.sub_diag. split; [|split_and!; try done; [split; [done|by exists nf, b, l]|unfold expiry; rewrite Efs; cbv zeta; by rewrite (proj2 (Z.eqb_neq _ _) E0)|intros; apply keeps_refl]].
      rewrite set_ipr_id; [by destruct s|]. cbn. rewrite Hr. f_equal. unfold reassdata_of, with_fs. cbn. by rewrite Efs. }
  (* the first fragment has come *)
  cbn zeta. set (n1 := with_ps (r_net s) (with_data ps (write_bytes (data ps) (p_payload b) (dg_hdr d)))).
  assert (Hst : with_rmem (set_ipr s (dg_a d) (with_ipr_p (reassdata_of d nxt) nf)) (write_bytes (data ps) (p_payload b) (dg_hdr d)) = set_ipr (with_rnet s n1) (dg_a d) (reassdata_of (with_fs d fs) nxt)).
  { rewrite (fseg_first _ _ _ Hs). done. }
  change (data (n_ps (r_net (set_ipr s (dg_a d) (with_ipr_p (reassdata_of d nxt) nf))))) with (data ps). change (ipr_iphdr (reassdata_of d nxt)) with (dg_hdr d). rewrite Hst. change (r_net (set_ipr (with_rnet s n1) _ _)) with n1.
  destruct (do_hdr _ _ Hdo) as [Hh20 Hhu]. destruct (restore_header ps B _ f nf b l (dg_hdr d) HI Hf Hh20 Hhu) as [Ec K0]. change (with_data ps (write_bytes (data ps) (p_payload b) (dg_hdr d))) with (n_ps n1) in Ec, K0.
  pose proof (fa_len0 _ _ _ _ _ Hf E0) as H28. pose proof (fa_own _ _ _ _ _ Hf) as Hown. pose proof Hown as Hown'. apply Forall_cons in Hown' as [[Hcg Hcu] _].
  destruct (own_block ps B _ (f_p f) b 28 HI Hb Hcg Hcu ltac:(lia)) as (k & Hk & Hk1 & Hk2).
  assert (Hc1 : chain (n_ps n1) (f_p f) ((f_p f, b) :: l)) by exact (fa_chain _ _ _ _ _ Hf).
  assert (Eorig : read_bytes (data (n_ps n1)) (p_payload b) 28 = dg_hdr d ++ take 8 (f_data f)).
  { rewrite (read_contents (n_ps n1) (f_p f) b l 28), Ec by lia. rewrite take_app_ge by lia. by rewrite Hh20. }
  assert (Esrc : iph_src (data (n_ps n1)) (p_payload b) = le_val (take 4 (drop 12 (dg_hdr d)))).
  { unfold iph_src. change (p_payload b + 12) with (p_payload b + 12%nat). rewrite (header_load (n_ps n1) (f_p f) b l) by (done || lia). rewrite Ec, drop_app_le by lia. by rewrite take_app_le by (rewrite length_drop; lia). }
  assert (Hu : Forall is_u8 (dg_hdr d ++ take 8 (f_data f))).
  { apply Forall_app. split; [done|]. apply Forall_take. rewrite <- (fa_data _ _ _ _ _ Hf). apply Forall_drop, (fa_bytes _ _ _ _ _ Hf). }
  destruct (response_full ns n1 B (hold ext ((f :: fs) ++ frags (D1 ++ D2))) (f_p f) b k ICMP_TE ICMP_TE_FRAG) as (n2 & B2 & out & E2 & Hok2 & Hlog2 & Hout & K2); try done; [by apply net_ok_data|by rewrite Eorig|by intros; eapply Hns|].
  unfold icmp_time_exceeded. rewrite E2. cbn [mbind outcome_bind]. pose proof (frag_not_null _ _ _ _ _ _ _ HI Hf) as Hnn.
  destruct (K2 (f_p f) _ Hc1 ltac:(apply hold_pos; by left) Hnn Hown) as (lf & Hcf & Ff & _). change (r_net (with_rnet _ n2)) with n2.
  rewrite nodes_cons, length_app in Hlen. assert (Hlf : length lf = length (f_as f)) by (rewrite <- (Forall2_length _ _ _ Ff), (fa_as _ _ _ _ _ Hf); cbn; by rewrite length_fmap).
  rewrite (clen_spec _ _ _ (inv_not_null _ _ _ (proj1 Hok2)) Hcf) by lia. cbn [mbind outcome_bind]. rewrite LWIP_ASSERT_ok by (apply Z.leb_le; lia). cbn [mbind outcome_bind].
  destruct (net_free_stays n2 B2 (hold ext (fs ++ frags (D1 ++ D2))) (f_p f)) as (n3 & B3 & -> & Hok3 & Hlog3 & _ & K3); [|done|].
  { eapply net_ok_ext; [|exact Hok2]. intros a. apply hold_cons. }
  cbn [mbind outcome_bind]. rewrite u16_small by (unfold_c; lia).
  exists n3, B3, fs, out. split; [|split; [exact Hok3|]].
  { rewrite nodes_cons, length_app, Hlf. f_equal. f_equal. lia. }
  rewrite nodes_cons in Hnd1, Hnd12. pose proof Hnd1 as Hnd1'. apply NoDup_app in Hnd1' as (_ & Hndf & Hndfs).
  assert (Kall : forall q, q <> NULL -> (0 < hold ext (fs ++ frags (D1 ++ D2)) q)%nat -> stays (n_ps n1) (n_ps n3) q).
  { intros q Hq He. apply (stays_trans _ (n_ps n2)); [|by apply K3]. intros lq Hcq Hoq. apply K2; try done. unfold hold in *. cbn [app]. rewrite held_cons. lia. }
  assert (Kf : forall g, f_p g <> NULL -> (0 < hold ext (fs ++ frags (D1 ++ D2)) (f_p g))%nat -> f_as f ## f_as g -> keeps ps (n_ps n3) g).
  { intros g Hgn Hg Hd. apply (keeps_trans _ (n_ps n1)); [by apply K0|by apply stays_keeps, Kall]. }
  split; [|split_and!].
  - rewrite <- (fseg_first _ _ _ Hs). eapply fseg_keeps; [exact Hs|]. apply Forall_forall. intros g Hg. apply Kf; [|apply hold_pos, elem_of_app; by left|].
    + destruct (fseg_elem _ _ _ _ _ Hs Hg) as (ng & bg & lg & Hat). by eapply frag_not_null.
    + intros x Hx Hx'. apply (Hndf x Hx). by apply (elem_nodes g).
  - cbn. lia.
  - rewrite nodes_cons, length_app. lia.
  - done.
  - rewrite Hlog3, Hlog2. done.
  - rewrite Esrc, Eorig in Hout. unfold expiry. rewrite Efs. cbv zeta. rewrite E0, Z.eqb_refl. destruct (ip4_route ns _); exact Hout.
  - intros g Hgn Hg Hd. apply Kf; [done|unfold hold in *; rewrite held_app; lia|]. intros x Hx Hx'. apply (Hd x); [|done]. rewrite nodes_cons. apply elem_of_app. by left.
Qed.

(** The packets that are held from elsewhere and share no pbuf with the queue stay. *)
Definition others_stay (s s' : reass) (ext : Z -> nat) (D : list dgram) : Prop :=
  forall g, f_p g <> NULL -> (0 < ext (f_p g))%nat -> nodes (frags D) ## f_as g -> keeps (n_ps (r_net s)) (n_ps (r_net s')) g.

Lemma prev_of_spec (s : reass) D1 d D2 :
  dlist s (D1 ++ d :: D2) -> prev_of D1 <> dg_a d /\ (prev_of D1 <> NULL -> exists e, r_data s !! prev_of D1 = Some (reassdata_of e (dg_a d))) /\ dg_a d <> NULL.
Proof.
  intros [H1 H2 H3 H4]. pose proof (pool_holds_pos _ _ H4) as Hp. rewrite fmap_app, fmap_cons in Hp, H2. apply Forall_app in Hp as [Hp1 Hp2]. apply Forall_cons in Hp2 as [Hp2 _].
  destruct D1 as [|e E _] using rev_ind; [split; [unfold prev_of; cbn; unfold NULL; lia|split; [done|unfold NULL; lia]]|]. unfold prev_of. rewrite last_snoc.
  apply NoDup_app in H2 as (_ & H2 & _). split_and!; [|intros _|unfold NULL; lia].
  - intros Ee. apply (H2 (dg_a e)); [rewrite fmap_app; apply elem_of_app; right; by left|]. rewrite Ee. by left.
  - rewrite <- app_assoc in H1. destruct (dseg_lookup _ _ _ _ _ _ H1) as (ne & He & (-> & _)). by exists e.
Qed.

Lemma free_complete_spec ns (s : reass) B ext D1 d D2 :
  reass_core s B ext (D1 ++ d :: D2) -> counted s (D1 ++ d :: D2) -> dg_fs d <> [] -> routes_ok ns ->
  exists s' B' out, ip_reass_free_complete_datagram ns s (dg_a d) (prev_of D1) = Ret (Z.of_nat (length (nodes (dg_fs d))), s')
    /\ reass_core s' B' ext (D1 ++ D2) /\ counted s' (D1 ++ D2) /\ link_log (n_lk (r_net s')) = link_log (n_lk (r_net s)) ++ out /\ expiry ns (r_net s) d out
    /\ others_stay s s' ext (D1 ++ d :: D2).
Proof.
  intros HC [Hcnt Hmax] Hne Hns. pose proof HC as [HL Hok HD Hnd]. pose proof (frags_middle D1 d D2) as Hperm. destruct (prev_of_spec _ _ _ _ HL) as (Hp1 & Hp2 & _).
  destruct (dseg_lookup _ _ _ _ _ _ (dl_seg _ _ HL)) as (nxt & Hr & _).
  assert (Hn : (length (nodes (frags (D1 ++ d :: D2))) = length (nodes (dg_fs d)) + length (nodes (frags (D1 ++ D2))))%nat) by (by rewrite Hperm, nodes_app, length_app).
  change IP_REASS_MAX_PBUFS with 10 in Hmax.
  unfold ip_reass_free_complete_datagram. rewrite LWIP_ASSERT_ok by (by apply negb_true_iff, Z.eqb_neq). cbn [mbind outcome_bind].
  assert (Epr : (if negb (prev_of D1 =? NULL) then pr ← ipr_at s (prev_of D1); LWIP_ASSERT "prev->next == ipr" (ipr_next pr =? dg_a d) else Ret tt) = Ret tt).
  { destruct (Z.eqb_spec (prev_of D1) NULL) as [|Hn0]; [done|]. cbn [negb]. destruct (Hp2 Hn0) as (e & He). unfold ipr_at. rewrite He. cbn [mbind outcome_bind]. apply LWIP_ASSERT_ok. cbn. apply Z.eqb_refl. }
  rewrite Epr. cbn [mbind outcome_bind].
  destruct (report_first_spec ns s B ext D1 d D2 nxt HC Hne Hr ltac:(lia) Hns) as (n1 & B1 & gs & out & -> & Hok1 & Hs1 & Hl1 & Hl2 & Hnd1 & Hlog1 & Hexp & K1). cbn [mbind outcome_bind].
  set (s1 := set_ipr (with_rnet s n1) (dg_a d) (reassdata_of (with_fs d gs) nxt)). unfold ipr_at. change (r_data s1) with (<[dg_a d := reassdata_of (with_fs d gs) nxt]> (r_data s)). rewrite lookup_insert_eq. cbn [mbind outcome_bind].
  change (ipr_p (reassdata_of (with_fs d gs) nxt)) with (first_p gs).
  destruct (free_frags_spec (frag_fuel s1) s1 B1 ext (first_p gs) gs (frags (D1 ++ D2)) (length (nodes (dg_fs d)) - length (nodes gs))) as (n2 & B2 & -> & Hok2 & Hlog2 & _ & K2); [done|done| |lia|lia|].
  { pose proof (frags_fuel _ _ _ _ Hs1 Hnd1). unfold frag_fuel. cbn. lia. }
  cbn [mbind outcome_bind]. rewrite Z.sub_add. assert (HL1 : dlist (with_rnet s1 n2) (D1 ++ with_fs d gs :: D2)) by (by eapply (dlist_update s)).
  destruct (dequeue_spec _ _ _ _ HL1) as (s3 & E3 & HL3 & En3 & Ec3). change (dg_a (with_fs d gs)) with (dg_a d) in E3. rewrite E3. cbn [mbind outcome_bind]. rewrite Ec3. change (ip_reass_pbufcount (with_rnet s1 n2)) with (ip_reass_pbufcount s).
  rewrite LWIP_ASSERT_ok by (apply Z.leb_le; lia). cbn [mbind outcome_bind]. rewrite u16_small by (unfold_c; lia). eexists _, B2, out. split; [done|].
  assert (K : forall g, f_p g <> NULL -> (0 < hold ext (frags (D1 ++ D2)) (f_p g))%nat -> nodes (dg_fs d) ## f_as g -> keeps (n_ps (r_net s)) (n_ps n2) g).
  { intros g Hg1 Hg2 Hg3. apply (keeps_trans _ (n_ps n1)); [by apply K1|by apply stays_keeps, K2]. }
  split; [|split; [|split; [|split; [done|]]]].
  - rewrite Hperm, nodes_app in Hnd. apply NoDup_app in Hnd as (_ & Hnd12 & Hnd2). split; [by destruct HL3| | |done].
    + cbn. rewrite En3. exact Hok2.
    + cbn. rewrite En3. apply Forall_app in HD as [HDa HDb]. apply Forall_cons in HDb as [_ HDb]. assert (HDab : Forall (dgram_ok (n_ps (r_net s))) (D1 ++ D2)) by (apply Forall_app; by split).
      eapply dgrams_keep; [exact HDab|]. apply Forall_forall. intros g Hg. apply K; [|by apply hold_pos|intros x Hx Hx'; apply (Hnd12 x Hx); by apply (elem_nodes g)].
      unfold frags in Hg. apply list_elem_of_bind in Hg as (e & Hg & He). rewrite Forall_forall in HDab. destruct (fseg_elem _ _ _ _ _ (do_frags _ _ (HDab e He)) Hg) as (ng & bg & lg & Hat). by eapply frag_not_null; [apply (proj1 Hok)|].
  - split; cbn [ip_reass_pbufcount with_count]; change IP_REASS_MAX_PBUFS with 10; lia.
  - cbn. rewrite En3. cbn. cbn in Hlog2. by rewrite Hlog2.
  - intros g Hg1 Hg2 Hg3. cbn. rewrite En3. apply K; [done|unfold hold; lia|]. intros x Hx Hx'. apply (Hg3 x); [|done]. rewrite Hperm, nodes_app. apply elem_of_app. by left.
Qed.

(** ** Lemmas: the timer *)

Lemma dlist_size (s : reass) D : dlist s D -> (length D <= size (r_data s))%nat.
Proof.
  intros [_ H2 H3 _]. assert (Hsub : dg_a <$> D ⊆ (map_to_list (r_data s)).*1) by (intros a Ha; apply elem_of_keys; by apply H3).
  pose proof (submseteq_length _ _ (NoDup_submseteq _ _ H2 Hsub)) as H. rewrite !length_fmap, length_map_to_list in H. lia.
Qed.

(** Changing a datagram, but not its fragments. *)
Lemma core_set (s : reass) B ext D1 d d' D2 nxt :
  reass_core s B ext (D1 ++ d :: D2) -> r_data s !! dg_a d = Some (reassdata_of d nxt) -> dg_a d' = dg_a d -> dg_fs d' = dg_fs d -> dgram_ok (n_ps (r_net s)) d' ->
  reass_core (set_ipr s (dg_a d) (reassdata_of d' nxt)) B ext (D1 ++ d' :: D2).
Proof.
  intros HC Hr Ea Ef Hd. assert (Efr : frags (D1 ++ d' :: D2) = frags (D1 ++ d :: D2)) by (by rewrite !frags_app, !frags_cons, Ef).
  replace (set_ipr s _ _) with (set_ipr (with_rnet s (r_net s)) (dg_a d) (reassdata_of d' nxt)) by (by destruct s).
  eapply core_update; [done|done|done| |done| |]; rewrite ?Efr; [apply HC| |apply HC]. apply Forall_forall. intros; apply keeps_refl.
Qed.

Definition with_timer (d : dgram) (t : Z) : dgram := Dgram (dg_a d) (dg_hdr d) (dg_len d) (dg_flags d) t (dg_fs d).

(** One second later: the datagrams that have time left. *)
Definition tick (D : list dgram) : list dgram := (λ d, with_timer d (dg_timer d - 1)) <$> filter (λ d, 0 < dg_timer d) D.

(** The messages about the datagrams [D], given up one after the other: the first in the
    state [n] of the buffers and the links, each of the others in the one that the calls of
    ip_reass_free_complete_datagram for those before it have left; [n'] is the last. *)
Inductive expiries (ns : netifs) (ext : Z -> nat) : inet -> list dgram -> inet -> list (Z * Z * list Z) -> Prop :=
| expiries_nil n : expiries ns ext n [] n []
| expiries_cons d D (s s1 : reass) B D1 D2 k n' o out :
    reass_core s B ext (D1 ++ d :: D2) -> ip_reass_free_complete_datagram ns s (dg_a d) (prev_of D1) = Ret (k, s1) -> expiry ns (r_net s) d o ->
    expiries ns ext (r_net s1) D n' out -> expiries ns ext (r_net s) (d :: D) n' (o ++ out).

Lemma expiries_one ns ext d (s s1 : reass) B D1 D2 k o :
  reass_core s B ext (D1 ++ d :: D2) -> ip_reass_free_complete_datagram ns s (dg_a d) (prev_of D1) = Ret (k, s1) -> expiry ns (r_net s) d o ->
  expiries ns ext (r_net s) [d] (r_net s1) o.
Proof. intros HC E He. rewrite <- (app_nil_r o). eapply expiries_cons; [done|done|done|constructor]. Qed.

(** The messages [out] about the datagrams [R] given up from the state [n] on. *)
Definition given_up (ns : netifs) (ext : Z -> nat) (n : inet) (R : list dgram) (out : list (Z * Z * list Z)) : Prop := exists n', expiries ns ext n R n' out.

Definition head_of (D : list dgram) : Z := match D with d :: _ => dg_a d | [] => NULL end.

Lemma dseg_head m p D : dseg m p D NULL -> p = head_of D.
Proof. destruct D; [done|]. by intros (? & _). Qed.

Lemma counted_frags (s s' : reass) D D' : counted s D -> frags D' = frags D -> ip_reass_pbufcount s' = ip_reass_pbufcount s -> counted s' D'.
Proof. intros [H1 H2] E1 E2. split; rewrite ?E1, E2; done. Qed.

Lemma others_stay_trans (s1 s2 s3 : reass) ext D D' : others_stay s1 s2 ext D -> others_stay s2 s3 ext D' -> nodes (frags D') ⊆ nodes (frags D) -> others_stay s1 s3 ext D.
Proof. intros H12 H23 Hs g Hg1 Hg2 Hg3. eapply keeps_trans; [by apply H12|]. apply H23; [done|done|]. intros x Hx Hx'. apply (Hg3 x); [by apply Hs|done]. Qed.

Lemma nodes_drop D1 d D2 : nodes (frags (D1 ++ D2)) ⊆ nodes (frags (D1 ++ d :: D2)).
Proof. rewrite !frags_app, frags_cons, !nodes_app. intros x. rewrite !elem_of_app. naive_solver. Qed.

Lemma reass_tmr_loop_spec (fuel : nat) ns (s : reass) B ext D1 R :
  reass_core s B ext (D1 ++ R) -> counted s (D1 ++ R) -> full R -> routes_ok ns -> (length R < fuel)%nat ->
  exists s' B' out, reass_tmr_loop fuel ns s (head_of R) (prev_of D1) = Ret s' /\ reass_core s' B' ext (D1 ++ tick R) /\ counted s' (D1 ++ tick R)
    /\ link_log (n_lk (r_net s')) = link_log (n_lk (r_net s)) ++ out /\ expiries ns ext (r_net s) (filter (λ d, ~ 0 < dg_timer d) R) (r_net s') out /\ others_stay s s' ext (D1 ++ R).
Proof.
  intros HC Hcn Hfull Hns. revert fuel s B D1 HC Hcn. induction R as [|d R IH]; intros fuel s B D1 HC Hcn Hfuel.
  { exists s, B, []. rewrite !app_nil_r in *. split; [by destruct fuel|]. split_and!; try done; [constructor|intros g _ _ _; apply keeps_refl]. }
  apply Forall_cons in Hfull as [Hne Hfull]. specialize (IH Hfull). destruct fuel as [|fuel]; [cbn in Hfuel; lia|]. pose proof (ri_list _ _ _ _ HC) as HL. destruct (prev_of_spec _ _ _ _ HL) as (_ & _ & Hn).
  destruct (dseg_lookup _ _ _ _ _ _ (dl_seg _ _ HL)) as (nxt & Hr & Hnxt). cbn [reass_tmr_loop head_of]. rewrite (proj2 (Z.eqb_neq (dg_a d) NULL)) by done. unfold ipr_at. rewrite Hr. cbn [mbind outcome_bind].
  change (ipr_timer (reassdata_of d nxt)) with (dg_timer d). change (ipr_next (reassdata_of d nxt)) with nxt. pose proof (dseg_head _ _ _ Hnxt) as ->. unfold tick. rewrite !filter_cons. destruct (Z.ltb_spec 0 (dg_timer d)) as [Ht|Ht].
  - rewrite decide_True by done. rewrite (decide_False (P := ~ 0 < dg_timer d)) by lia. set (d' := with_timer d (dg_timer d - 1)).
    assert (Hdo : dgram_ok (n_ps (r_net s)) d) by (pose proof (ri_dgrams _ _ _ _ HC) as HD; apply Forall_app in HD as [_ HD]; by apply Forall_cons in HD as [? _]).
    assert (HC' : reass_core (set_ipr s (dg_a d) (reassdata_of d' (head_of R))) B ext (D1 ++ d' :: R)).
    { apply core_set; try done. destruct Hdo as [O1 O2 O3 O4 O5 O6]. split; try done. cbn. lia. }
    assert (Efr : frags (D1 ++ d' :: R) = frags (D1 ++ d :: R)) by (by rewrite !frags_app, !frags_cons). assert (Ecm : D1 ++ d' :: R = (D1 ++ [d']) ++ R) by (by rewrite <- app_assoc). rewrite Ecm in HC', Efr.
    destruct (IH fuel _ B (D1 ++ [d']) HC') as (s' & B' & out & E & R1 & R2 & R3 & R4 & R5); [by eapply counted_frags|cbn in Hfuel; lia|].
    exists s', B', out. unfold prev_of in E. rewrite last_snoc in E. split; [exact E|]. fold (tick R) in *. rewrite <- app_assoc in R1, R2. split_and!; try done. intros g Hg1 Hg2 Hg3. apply R5; [done|done|by rewrite Efr].
  - rewrite decide_False by lia. rewrite (decide_True (P := ~ 0 < dg_timer d)) by lia.
    destruct (free_complete_spec ns s B ext D1 d R HC Hcn Hne Hns) as (s1 & B1 & o1 & Ef & HC1 & Hcn1 & Hlog1 & Hex1 & Hst1). rewrite Ef. cbn [mbind outcome_bind].
    destruct (IH fuel s1 B1 D1 HC1 Hcn1 ltac:(cbn in Hfuel; lia)) as (s' & B' & out & E & R1 & R2 & R3 & R4 & R5).
    exists s', B', (o1 ++ out). split; [exact E|]. fold (tick R). split_and!; try done.
    + by rewrite R3, Hlog1, app_assoc.
    + by eapply expiries_cons.
    + eapply others_stay_trans; [exact Hst1|exact R5|apply nodes_drop].
Qed.

Lemma tick_full D : full D -> full (tick D).
Proof. intros H. unfold full, tick. apply Forall_fmap, Forall_forall. intros d Hd. apply list_elem_of_filter in Hd as [_ Hd]. unfold full in H. rewrite Forall_forall in H. exact (H d Hd). Qed.

(** ** Lemmas: making room *)

(** Headers of fragments of the same datagram: source, destination and ID. *)
Definition same_datagram (h1 h2 : list Z) : bool :=
  (le_val (take 4 (drop 12 h1)) =? le_val (take 4 (drop 12 h2))) && (le_val (take 4 (drop 16 h1)) =? le_val (take 4 (drop 16 h2)))
  && (le_val (take 2 (drop 4 h1)) =? le_val (take 2 (drop 4 h2))).

Lemma match_header hdr m a : IP_ADDRESSES_AND_ID_MATCH hdr m a = same_datagram hdr (read_bytes m a 20).
Proof.
  unfold IP_ADDRESSES_AND_ID_MATCH, same_datagram, iph_src, iph_dest, IPH_ID.
  by rewrite (load_at m a 12 4 20), (load_at m a 16 4 20), (load_at m a 4 2 20) by lia.
Qed.

(** The datagrams of [D] other than that of the header [h]. *)
Definition other (h : list Z) (d : dgram) : bool := negb (same_datagram (dg_hdr d) h).
Definition others (h : list Z) (D : list dgram) : list dgram := filter (λ d, other h d = true) D.

(** The oldest of the other datagrams and the one before it. *)
Definition oldest_of (h : list Z) (D : list dgram) (o op : Z) : Prop :=
  (o = NULL /\ others h D = []) \/
  exists D1 d D2, D = D1 ++ d :: D2 /\ o = dg_a d /\ op = prev_of D1 /\ other h d = true /\ Forall (λ e, other h e = true -> dg_timer d <= dg_timer e) D.

Lemma others_app h D1 D2 : others h (D1 ++ D2) = others h D1 ++ others h D2.
Proof. apply filter_app. Qed.

Lemma others_nil h D e : others h D = [] -> e ∈ D -> other h e = true -> False.
Proof. intros E He Ho. assert (Hin : e ∈ others h D) by (by apply list_elem_of_filter). rewrite E in Hin. by apply not_elem_of_nil in Hin. Qed.

(** The oldest one when another datagram is looked at. *)
Lemma oldest_step h P d o op :
  oldest_of h P o op -> (o = NULL -> others h P = []) ->
  if other h d then
    (o = NULL -> oldest_of h (P ++ [d]) (dg_a d) (prev_of P))
    /\ (forall e, e ∈ P -> Forall (λ e', other h e' = true -> dg_timer e <= dg_timer e') P -> dg_timer d <= dg_timer e -> oldest_of h (P ++ [d]) (dg_a d) (prev_of P))
    /\ (forall D1 e D2, P = D1 ++ e :: D2 -> o = dg_a e -> op = prev_of D1 -> other h e = true -> Forall (λ e', other h e' = true -> dg_timer e <= dg_timer e') P -> dg_timer e <= dg_timer d -> oldest_of h (P ++ [d]) o op)
  else oldest_of h (P ++ [d]) o op.
Proof.
  intros Ho Hn. destruct (other h d) eqn:Ed.
  - split_and!.
    + intros E. right. exists P, d, []. split_and!; try done. apply Forall_app. split; [|by constructor]. apply Forall_forall. intros e He Hoe. by destruct (others_nil h P e (Hn E) He Hoe).
    + intros e He Hall Hle. right. exists P, d, []. split_and!; try done. apply Forall_app. split; [|by constructor]. eapply Forall_impl; [exact Hall|]. cbn. intros e' H1 H2. specialize (H1 H2). lia.
    + intros D1 e D2 -> -> -> Hoe Hall Hle. right. exists D1, e, (D2 ++ [d]). split_and!; try done; [by rewrite <- app_assoc|]. apply Forall_app. split; [done|]. by constructor.
  - destruct Ho as [[-> Ho]|(D1 & e & D2 & -> & -> & -> & Hoe & Hall)].
    + left. split; [done|]. rewrite others_app, Ho. unfold others. rewrite filter_cons, decide_False by congruence. done.
    + right. exists D1, e, (D2 ++ [d]). split_and!; try done; [by rewrite <- app_assoc|]. apply Forall_app. split; [done|]. constructor; [congruence|done].
Qed.

Lemma oldest_loop_spec (fuel : nat) (s : reass) h a P R o op prev k :
  dlist s (P ++ R) -> read_bytes (r_mem s) a 20 = h -> oldest_of h P o op -> (R <> [] -> prev = prev_of P) -> (length R < fuel)%nat ->
  exists o' op', oldest_loop fuel s a (head_of R) o prev op k = Ret (o', op', k + length (others h R)) /\ oldest_of h (P ++ R) o' op'.
Proof.
  intros HL Hh. revert fuel P o op prev k HL. induction R as [|d R IH]; intros fuel P o op prev k HL Ho Hprev Hfuel.
  { exists o, op. rewrite app_nil_r. split; [destruct fuel; cbn; by rewrite Z.add_0_r|done]. }
  destruct fuel as [|fuel]; [cbn in Hfuel; lia|]. destruct (prev_of_spec _ _ _ _ HL) as (_ & _ & Hn). rewrite (Hprev ltac:(done)). clear Hprev.
  destruct (dseg_lookup _ _ _ _ _ _ (dl_seg _ _ HL)) as (nxt & Hr & Hnxt). cbn [oldest_loop head_of]. rewrite (proj2 (Z.eqb_neq (dg_a d) NULL)) by done. rewrite (ipr_at_ok _ _ _ Hr). cbn [mbind outcome_bind].
  change (ipr_iphdr (reassdata_of d nxt)) with (dg_hdr d). change (ipr_timer (reassdata_of d nxt)) with (dg_timer d). change (ipr_next (reassdata_of d nxt)) with nxt. rewrite (dseg_head _ _ _ Hnxt), match_header, Hh. fold (other h d).
  assert (Ecm : P ++ d :: R = (P ++ [d]) ++ R) by (by rewrite <- app_assoc).
  assert (Hgo : forall o1 op1 (j : nat), oldest_of h (P ++ [d]) o1 op1 -> length (others h (d :: R)) = (j + length (others h R))%nat ->
    exists o' op', oldest_loop fuel s a (head_of R) o1 (if negb (head_of R =? NULL) then dg_a d else prev_of P) op1 (k + j) = Ret (o', op', k + length (others h (d :: R))) /\ oldest_of h (P ++ d :: R) o' op').
  { intros o1 op1 j Ho1 Hj. rewrite Ecm in HL |- *. destruct (IH fuel (P ++ [d]) o1 op1 (if negb (head_of R =? NULL) then dg_a d else prev_of P) (k + j) HL Ho1) as (o' & op' & E & Ho'); [|cbn in Hfuel; lia|].
    - intros HR. destruct R as [|e R]; [done|]. rewrite <- Ecm in HL. replace (P ++ d :: e :: R) with ((P ++ [d]) ++ e :: R) in HL by (by rewrite <- app_assoc). destruct (prev_of_spec _ _ _ _ HL) as (_ & _ & He).
      cbn [head_of]. rewrite (proj2 (Z.eqb_neq (dg_a e) NULL)) by done. unfold prev_of. by rewrite last_snoc.
    - exists o', op'. split; [rewrite E; do 2 f_equal; lia|done]. }
  assert (Hn0 : o = NULL -> others h P = []).
  { intros ->. destruct Ho as [[_ ?]|(D1 & e & D2 & -> & E & _)]; [done|]. rewrite <- app_assoc in HL. cbn [app] in HL. destruct (prev_of_spec _ _ _ _ HL) as (_ & _ & He). by rewrite <- E in He. }
  pose proof (oldest_step h P d o op Ho Hn0) as Hstep. destruct (other h d) eqn:Ed.
  - assert (Hj : length (others h (d :: R)) = (1 + length (others h R))%nat) by (unfold others; by rewrite filter_cons, decide_True). destruct Hstep as (S1 & S2 & S3).
    destruct (Z.eqb_spec o NULL) as [->|Hne]; [cbn [mbind outcome_bind]; apply (Hgo _ _ 1%nat); [by apply S1|done]|].
    destruct Ho as [[? _]|(D1 & e & D2 & EPP & -> & -> & Hoe & Hall)]; [done|].
    assert (He : exists ne, r_data s !! dg_a e = Some (reassdata_of e ne)). { rewrite EPP, <- app_assoc in HL. destruct (dseg_lookup _ _ _ _ _ _ (dl_seg _ _ HL)) as (ne & He & _). by exists ne. }
    destruct He as [ne He]. rewrite (ipr_at_ok _ _ _ He). cbn [mbind outcome_bind]. change (ipr_timer (reassdata_of e ne)) with (dg_timer e). destruct (Z.leb_spec (dg_timer d) (dg_timer e)) as [Hle|Hlt]; cbn [mbind outcome_bind].
    + apply (Hgo _ _ 1%nat); [|done]. apply (S2 e); [rewrite EPP; apply elem_of_app; right; by left|done|done].
    + apply (Hgo _ _ 1%nat); [|done]. apply (S3 D1 e D2); try done. lia.
  - cbn [mbind outcome_bind]. pose proof (Hgo o op 0%nat Hstep) as Hgo0. cbn [Nat.add] in Hgo0. rewrite Z.add_0_r in Hgo0. apply Hgo0. unfold others. by rewrite filter_cons, decide_False by congruence.
Qed.

(** The fields of a header. *)
Lemma header_fields m m' a : read_bytes m' a 20 = read_bytes m a 20 ->
  IPH_LEN m' a = IPH_LEN m a /\ IPH_OFFSET m' a = IPH_OFFSET m a /\ IPH_OFFSET_BYTES m' a = IPH_OFFSET_BYTES m a /\ IPH_HL_BYTES m' a = IPH_HL_BYTES m a.
Proof.
  intros E. unfold IPH_HL_BYTES, IPH_HL, iph_vhl, IPH_OFFSET_BYTES, IPH_LEN, IPH_OFFSET.
  rewrite !(load_at _ _ 2 2 20), !(load_at _ _ 6 2 20), !(load_0 _ _ 1 20) by lia. by rewrite E.
Qed.

(** An incoming packet is still there when a packet with its pbufs is kept. *)
Lemma incoming_keeps (s s' : pst) p b l g :
  incoming s p b l -> keeps s s' g -> f_as g = p :: l.*1 ->
  exists b' l', incoming s' p b' l' /\ p_payload b' = p_payload b /\ l'.*1 = l.*1 /\ length l' = length l
    /\ read_bytes (data s') (p_payload b) 20 = read_bytes (data s) (p_payload b) 20 /\ frag_of s' p b' l' = frag_of s p b l.
Proof.
  intros [H1 H2 H3 H4 H4c H5 H6 H7 H8] K Ea. assert (Ep : f_p g = p) by (unfold f_p; by rewrite Ea). destruct (K ((p, b) :: l)) as (lq & Hc & F & E); [by rewrite Ep|done|by rewrite Ea|]. rewrite Ep in Hc.
  destruct (upto_refs_own _ _ F H2) as [Ho Ha]. apply Forall2_cons_inv_l in F as ([a b'] & l' & Eb & F & ->). cbn [fst snd] in Eb. injection Eb as -> Eb. cbn [fmap list_fmap fst] in Ha. injection Ha as Ha.
  assert (Epay : p_payload b' = p_payload b) by (by rewrite Eb). assert (Elen : p_len b' = p_len b) by (by rewrite Eb). assert (Etot : p_tot_len b' = p_tot_len b) by (by rewrite Eb).
  assert (Er : read_bytes (data s') (p_payload b) 20 = read_bytes (data s) (p_payload b) 20).
  { rewrite (read_contents s p b l 20) by lia. rewrite <- E, <- Epay. apply read_contents. lia. }
  assert (Ell : length l' = length l) by (by rewrite <- (length_fmap fst l'), Ha, length_fmap).
  destruct (header_fields _ _ _ Er) as (E1 & E2 & E3 & E4). exists b', l'. split_and!; try done; [|unfold frag_of; by rewrite Ha, E, Epay, E3].
  split; rewrite ?Ell, ?E, ?Epay, ?Elen, ?Etot, ?E1, ?E2, ?E3; done.
Qed.

Lemma nodes_apart_stay (s s' : reass) ext D p b l :
  others_stay s s' ext D -> incoming (n_ps (r_net s)) p b l -> p <> NULL -> (0 < ext p)%nat -> p :: l.*1 ## nodes (frags D) ->
  exists b' l', incoming (n_ps (r_net s')) p b' l' /\ p_payload b' = p_payload b /\ l'.*1 = l.*1 /\ length l' = length l
    /\ read_bytes (r_mem s') (p_payload b) 20 = read_bytes (r_mem s) (p_payload b) 20 /\ frag_of (n_ps (r_net s')) p b' l' = frag_of (n_ps (r_net s)) p b l.
Proof.
  intros Hst Hin Hp He Hd. apply (incoming_keeps _ _ p b l (Frag (p :: l.*1) 0 []) Hin); [|done]. apply Hst; [done|done|]. intros x Hx Hx'. by apply (Hd x).
Qed.

(** What making room for the fragment with the header [h] does: [R] are the datagrams
    given up, each not younger than the others that stay. *)
Record made_room (h : list Z) (D R D' : list dgram) : Prop := MadeRoom {
  mr_perm : D ≡ₚ R ++ D';
  mr_sub : D' `sublist_of` D;
  mr_other : Forall (λ d, other h d = true) R;
  mr_oldest : Forall (λ d, Forall (λ e, other h e = true -> dg_timer d <= dg_timer e) D') R
}.

Lemma made_room_refl h D : made_room h D [] D.
Proof. split; [done|done|constructor|constructor]. Qed.

Lemma made_room_cons h D1 d D2 R D' :
  other h d = true -> Forall (λ e, other h e = true -> dg_timer d <= dg_timer e) (D1 ++ d :: D2) -> made_room h (D1 ++ D2) R D' -> made_room h (D1 ++ d :: D2) (d :: R) D'.
Proof.
  intros Ho Hall [H1 H2 H3 H4]. assert (Hsub : D1 ++ D2 `sublist_of` D1 ++ d :: D2) by (apply sublist_app; [done|by apply sublist_cons]).
  split; [cbn; rewrite <- H1; by rewrite Permutation_middle|by etrans|by constructor|]. constructor; [|done]. apply Forall_forall. intros e He. rewrite Forall_forall in Hall. apply Hall.
  eapply sublist_subseteq; [|exact He]. by etrans.
Qed.

Lemma full_sublist D D' : D' `sublist_of` D -> full D -> full D'.
Proof. intros Hs H. apply Forall_forall. intros d Hd. unfold full in H. rewrite Forall_forall in H. apply H. by eapply sublist_subseteq. Qed.

Lemma remove_oldest_spec (fuel : nat) ns (s : reass) B ext D p b l needed freed :
  let h := read_bytes (r_mem s) (p_payload b) 20 in
  reass_core s B ext D -> counted s D -> full D -> routes_ok ns -> incoming (n_ps (r_net s)) p b l -> p <> NULL -> (0 < ext p)%nat -> p :: l.*1 ## nodes (frags D) ->
  (length (others h D) < fuel)%nat ->
  exists s' B' R D' out, remove_oldest_loop fuel ns s (p_payload b) needed freed = Ret (freed + length (nodes (frags R)), s')
    /\ reass_core s' B' ext D' /\ counted s' D' /\ made_room h D R D' /\ (needed <= freed + length (nodes (frags R)) \/ others h D' = [])
    /\ link_log (n_lk (r_net s')) = link_log (n_lk (r_net s)) ++ out /\ expiries ns ext (r_net s) R (r_net s') out /\ others_stay s s' ext D.
Proof.
  revert s B D b l freed. induction fuel as [|fuel IH]; intros s B D b l freed h HC Hcn Hfull Hns Hin Hp He Hd Hfuel; [lia|]. cbn [remove_oldest_loop].
  pose proof (ri_list _ _ _ _ HC) as HL. destruct (oldest_loop_spec (ipr_fuel s) s h (p_payload b) [] D NULL NULL NULL 0 HL eq_refl) as (o & op & E & Ho); [by left|done|pose proof (dlist_size _ _ HL); unfold ipr_fuel; lia|].
  rewrite (dseg_head _ _ _ (dl_seg _ _ HL)), E. cbn [mbind outcome_bind app] in *. destruct Ho as [[-> Hno]|(D1 & d & D2 & -> & -> & -> & Hod & Hall)].
  - rewrite Z.eqb_refl. cbn [negb mbind outcome_bind]. rewrite Hno. cbn [length]. rewrite andb_false_r. exists s, B, [], D, []. change (Z.of_nat (length (nodes (frags [])))) with 0. rewrite Z.add_0_r, app_nil_r.
    split; [done|]. split; [done|]. split; [done|]. split; [apply made_room_refl|]. split; [by right|]. split; [done|]. split; [constructor|]. intros g _ _ _. apply keeps_refl.
  - destruct (prev_of_spec _ _ _ _ HL) as (_ & _ & Hn). rewrite (proj2 (Z.eqb_neq (dg_a d) NULL)) by done. cbn [negb]. unfold full in Hfull. pose proof Hfull as Hfull'. apply Forall_app in Hfull' as [Hf1 Hf2]. apply Forall_cons in Hf2 as [Hdne Hf2].
    destruct (free_complete_spec ns s B ext D1 d D2 HC Hcn Hdne Hns) as (s1 & B1 & o1 & Ef & HC1 & Hcn1 & Hlog1 & Hex1 & Hst1). rewrite Ef. cbn [mbind outcome_bind].
    assert (Hoth : length (others h (D1 ++ d :: D2)) = S (length (others h (D1 ++ D2)))) by (rewrite !others_app, !length_app; unfold others; rewrite filter_cons, decide_True by done; cbn; lia).
    assert (Hnr : forall R, length (nodes (frags (d :: R))) = (length (nodes (dg_fs d)) + length (nodes (frags R)))%nat) by (intros; by rewrite frags_cons, nodes_app, length_app).
    destruct ((freed + length (nodes (dg_fs d)) <? needed) && (1 <? 0 + length (others h (D1 ++ d :: D2)))) eqn:Ec.
    + destruct (nodes_apart_stay _ _ _ _ _ _ _ Hst1 Hin Hp He Hd) as (b1 & l1 & Hin1 & Eb1 & El1 & _ & Er1 & _).
      destruct (IH s1 B1 (D1 ++ D2) b1 l1 (freed + length (nodes (dg_fs d)))) as (s' & B' & R & D' & out & E' & HC' & Hcn' & Hmr & Hpost & Hlog' & Hex' & Hst'); try done.
      { apply Forall_app. by split. }
      { rewrite El1. intros x Hx Hx'. apply (Hd x Hx). by apply (nodes_drop D1 d D2). }
      { rewrite Eb1, Er1. fold h. lia. }
      rewrite Eb1, Er1 in *. fold h in Hmr, Hpost. exists s', B', (d :: R), D', (o1 ++ out). split; [rewrite E', Hnr; do 2 f_equal; lia|]. split_and!; try done.
      * by apply made_room_cons.
      * rewrite Hnr. destruct Hpost; [left; lia|by right].
      * by rewrite Hlog', Hlog1, app_assoc.
      * by eapply expiries_cons.
      * eapply others_stay_trans; [exact Hst1|exact Hst'|apply nodes_drop].
    + exists s1, B1, [d], (D1 ++ D2), o1. split; [rewrite Hnr; do 2 f_equal; cbn; lia|]. split_and!; try done.
      * apply made_room_cons; [done|done|apply made_room_refl].
      * rewrite Hnr. cbn [nodes frags mbind list_bind length]. apply andb_false_iff in Ec as [Ec|Ec]; [left; bool_to_prop; lia|right]. apply nil_length_inv. bool_to_prop. lia.
      * by eapply expiries_one.
Qed.

End Facts.
