(* ===== verification/ReassStep.v ===== *)
(** * Reassembly: what a fragment does

    The lemmas on the last steps of ip4_reass (chaining the fragments of a complete
    datagram) and on the whole function: what a fragment does to the queue. *)

From S2P Require Import Prelude Def ListSeg InetChksum Ip4Addr Mem Memp Pbuf PbufMem PbufRef PbufChain PbufData Header Ip4 Ip4Frag Icmp IcmpSpec Reass ReassQueue ReassFree.

#[local] Open Scope Z_scope.
#[local] Coercion Z.of_nat : nat >-> Z.

Section Facts.
Context `{MO : MemOptions} {MOk : MemOptionsOk} `{PO : PbufOptions} {POk : PbufOptionsOk} {St : Type} `{!PacketMemory St} {Lk : Type} `{LL : !LinkLayer Lk St} {Pl : Type} `{EP : !ElementPool Pl}.
Abbreviation reass := (reass (St := St) (Lk := Lk) (Pl := Pl)).
Abbreviation inet := (net (St := St) (Lk := Lk)).
Abbreviation pst := (pstate (St := St)).

(** ** Lemmas: chaining the fragments *)

Lemma keeps_pbufs (s s' : pst) g : (forall x, x ∈ f_as g -> pbufs s' !! x = pbufs s !! x) -> data s' = data s -> keeps s s' g.
Proof.
  intros Hp Hd l [Hs Ht] _ Ha. exists l. split; [split; [|done]|split; [apply same_packet_refl|by rewrite Hd]]. eapply pseg_frame; [exact Hs|]. intros a b Hin. apply Hp. rewrite <- Ha. apply list_elem_of_fmap. by exists (a, b).
Qed.

Lemma same_data_own l l' : Forall2 same_data l l' -> own_data l -> own_data l' /\ l'.*1 = l.*1.
Proof.
  induction 1 as [|x y l l' (E1 & _ & _ & E4 & E5 & _) F IH]; intros Ho; [done|]. apply Forall_cons in Ho as [[H1 H2] Ho]. destruct (IH Ho) as [IH1 IH2]. cbn [fmap list_fmap]. rewrite IH2, E1.
  split; [|done]. constructor; [|done]. unfold is_contiguous, is_custom in *. by rewrite <- E4, <- E5.
Qed.

Definition frag_bytes (fs : list frag) : list Z := concat (f_data <$> fs).

Lemma same_data_prefix l l1 l2 : Forall2 same_data l (take (length l) l1) -> Forall2 same_data l1 (take (length l1) l2) -> Forall2 same_data l (take (length l) l2).
Proof.
  revert l1 l2. induction l as [|x l IH]; intros l1 l2 H1 H2; [constructor|]. apply Forall2_cons_inv_l in H1 as (y & l1' & Hxy & H1 & E). destruct l1 as [|y0 l1]; [done|]. injection E as -> <-.
  apply Forall2_cons_inv_l in H2 as (z & l2' & Hyz & H2 & E). destruct l2 as [|z0 l2]; [done|]. injection E as -> <-. cbn. constructor; [|by eapply IH]. unfold same_data in *. intuition congruence.
Qed.

(** One round: the fragment [f] behind the packet at [p]. *)
Lemma chain_one (n : inet) B ext p lp f nxt b l rest :
  net_ok n B (hold ext (f :: rest)) -> chain (n_ps n) p lp -> lp <> [] -> own_data lp -> lp.*1 ## f_as f -> frag_at (n_ps n) f nxt b l -> total lp + length (f_data f) < 65536 ->
  exists ps1 ps2 lp', pbuf_remove_header (n_ps n) (f_p f) IP_HLEN = Ret (0, ps1) /\ pbuf_cat ps1 p (f_p f) = Ret ps2
    /\ net_ok (with_ps n ps2) B (hold ext rest) /\ chain ps2 p lp' /\ own_data lp' /\ lp'.*1 = lp.*1 ++ f_as f /\ data ps2 = data (n_ps n)
    /\ contents (data ps2) lp' = contents (data (n_ps n)) lp ++ f_data f /\ total lp' = total lp + length (f_data f)
    /\ Forall2 same_data lp (take (length lp) lp')
    /\ forall g, lp.*1 ## f_as g -> f_as f ## f_as g -> keeps (n_ps n) ps2 g.
Proof.
  intros [HI Hid] Hc Hne Ho Hd Hf Htot. pose proof (fa_chain _ _ _ _ _ Hf) as Hcf. pose proof (fa_len _ _ _ _ _ Hf) as Hlen. pose proof (frag_lookup _ _ _ _ _ Hf) as Hb.
  destruct (remove_header_spec (n_ps n) B _ (f_p f) b l IP_HLEN HI Hcf ltac:(unfold IP_HLEN; lia)) as (E1 & Hc1 & HI1 & Ec1).
  set (b' := with_tot_len _ _) in *. set (ps1 := set_pbuf (n_ps n) (f_p f) b') in *. rewrite (fa_data _ _ _ _ _ Hf : drop (Z.to_nat IP_HLEN) _ = _) in Ec1.
  assert (Hfp : f_p f ∉ lp.*1) by (intros Hin; apply (Hd _ Hin); rewrite (fa_as _ _ _ _ _ Hf); by left).
  assert (Hcp : chain ps1 p lp) by (split; [apply seg_insert; [apply Hc|done]|apply Hc]).
  assert (Htl : Z.of_nat (length (f_data f)) = total ((f_p f, b') :: l)) by (rewrite <- Ec1; apply (contents_length _ _ (tot_ok_lens _ (proj2 Hc1)))).
  destruct (cat_spec ps1 B (λ a, (hold ext rest a + link_holds (n_lk n) a)%nat) p (f_p f) lp ((f_p f, b') :: l)) as (ps2 & lp' & E2 & Hc2 & Hsame & Hfr & Hdat & HI2); try done; [| |lia|].
  { eapply inv_ext_eq; [|exact HI1]. intros a _. cbn. rewrite hold_cons. unfold ext_add. case_decide; lia. }
  { cbn [fmap list_fmap fst]. by rewrite <- (fa_as _ _ _ _ _ Hf). }
  destruct (same_data_own _ _ Hsame Ho) as [Ho' Ha']. destruct (same_contents (data ps2) _ _ Hsame) as [Ec2 Et2]. pose proof (fa_own _ _ _ _ _ Hf) as Hof. apply Forall_cons in Hof as [Hob Hol].
  exists ps1, ps2, (lp' ++ (f_p f, b') :: l). split; [done|]. split; [done|]. split; [split; [exact HI2|done]|]. split; [done|]. split; [|split; [|split; [done|split; [|split; [|split]]]]].
  - apply Forall_app. split; [done|]. constructor; [exact Hob|done].
  - rewrite fmap_app, Ha'. cbn [fmap list_fmap fst]. by rewrite <- (fa_as _ _ _ _ _ Hf).
  - rewrite contents_app, <- Ec2, Hdat. f_equal. exact Ec1.
  - rewrite total_app, <- Et2. lia.
  - rewrite take_app_length' by exact (Forall2_length _ _ _ Hsame). exact Hsame.
  - intros g Hg1 Hg2. apply keeps_pbufs; [|done]. intros x Hx. rewrite Hfr by (intros Hin; by apply (Hg1 x)). cbn. apply lookup_insert_ne. intros <-. apply (Hg2 (f_p f)); [|done]. rewrite (fa_as _ _ _ _ _ Hf). by left.
Qed.

Lemma chain_frags_spec (fuel : nat) (s : reass) B ext p lp fs rest q :
  net_ok (r_net s) B (hold ext (fs ++ rest)) -> chain (n_ps (r_net s)) p lp -> lp <> [] -> own_data lp -> lp.*1 ## nodes fs -> NoDup (nodes fs) -> fseg (n_ps (r_net s)) q fs NULL ->
  total lp + length (frag_bytes fs) < 65536 -> (length fs < fuel)%nat ->
  exists ps lp', chain_frags fuel s p q = Ret (with_rnet s (with_ps (r_net s) ps)) /\ net_ok (with_ps (r_net s) ps) B (hold ext rest) /\ chain ps p lp' /\ own_data lp' /\ lp'.*1 = lp.*1 ++ nodes fs
    /\ contents (data ps) lp' = contents (data (n_ps (r_net s))) lp ++ frag_bytes fs /\ Forall2 same_data lp (take (length lp) lp')
    /\ forall g, lp.*1 ## f_as g -> nodes fs ## f_as g -> keeps (n_ps (r_net s)) ps g.
Proof.
  revert fuel s lp q. induction fs as [|f fs IH]; intros fuel s lp q Hok Hc Hne Ho Hd Hnd Hs Htot Hfuel.
  { cbn in Hs. subst q. exists (n_ps (r_net s)), lp. split; [destruct fuel; cbn; by destruct s as [[]]|]. unfold frag_bytes. cbn. rewrite !app_nil_r. split_and!; try done; [rewrite take_ge by done; by apply Forall_Forall2_diag, Forall_true|]. intros; apply keeps_refl. }
  destruct Hs as (-> & nxt & b & l & Hf & Hs). destruct fuel as [|fuel]; [cbn in Hfuel; lia|]. pose proof (frag_not_null _ _ _ _ _ _ _ (proj1 Hok) Hf) as Hnn.
  rewrite nodes_cons in Hd, Hnd. apply NoDup_app in Hnd as (_ & Hnd1 & Hnd2). unfold frag_bytes in Htot. cbn [fmap list_fmap concat] in Htot. rewrite length_app in Htot.
  assert (Hdf : lp.*1 ## f_as f) by (intros x Hx Hx'; apply (Hd x Hx); apply elem_of_app; by left).
  destruct (chain_one (r_net s) B ext p lp f nxt b l (fs ++ rest) Hok Hc Hne Ho Hdf Hf) as (ps1 & ps2 & lp' & E1 & E2 & Hok2 & Hc2 & Ho2 & Ha2 & Hd2 & Ec2 & Et2 & Hsd & K2); [lia|].
  cbn [chain_frags]. rewrite (proj2 (Z.eqb_neq (f_p f) NULL)) by done. rewrite (payload_of_ok _ _ _ (frag_lookup _ _ _ _ _ Hf)). cbn [mbind outcome_bind]. rewrite E1. cbn [mbind outcome_bind]. rewrite E2. cbn [mbind outcome_bind]. unfold r_mem.
  cbn [r_net with_rnet n_ps with_ps]. rewrite Hd2. destruct (frag_loads _ _ _ _ _ Hf) as (-> & _).
  destruct (IH fuel (with_rnet s (with_ps (r_net s) ps2)) lp' nxt) as (ps & lp2 & E & R1 & R2 & R3 & R4 & R5 & Rsd & R6); try done.
  - intros ->. by destruct lp.
  - rewrite Ha2. intros x Hx Hx'. apply elem_of_app in Hx as [Hx|Hx]; [apply (Hd x Hx); apply elem_of_app; by right|by apply (Hnd1 x)].
  - eapply fseg_keeps; [exact Hs|]. apply Forall_forall. intros g Hg. apply K2.
    + intros x Hx Hx'. apply (Hd x Hx). apply elem_of_app. right. by apply (elem_nodes g).
    + intros x Hx Hx'. apply (Hnd1 x Hx). by apply (elem_nodes g).
  - rewrite Et2. unfold frag_bytes. lia.
  - cbn in Hfuel. lia.
  - exists ps, lp2. split; [exact E|]. split; [exact R1|]. do 2 (split; [done|]). split; [by rewrite R4, Ha2, <- app_assoc|]. split; [cbn [r_net with_rnet n_ps with_ps] in R5; by rewrite R5, Ec2, <- app_assoc|].
    split; [by eapply same_data_prefix|]. intros g Hg1 Hg2. assert (Hg2f : f_as f ## f_as g) by (intros x Hx Hx'; apply (Hg2 x); [rewrite nodes_cons; apply elem_of_app; by left|done]).
    apply (keeps_trans _ ps2); [by apply K2|]. apply R6; [|intros x Hx Hx'; apply (Hg2 x); [rewrite nodes_cons; apply elem_of_app; by right|done]].
    rewrite Ha2. intros x Hx Hx'. apply elem_of_app in Hx as [Hx|Hx]; [by apply (Hg1 x)|by apply (Hg2f x)].
Qed.

(** ** Lemmas: the complete datagram *)

Lemma keeps_frame (s : pst) B ext p b l g m :
  pbuf_inv s B ext -> chain s p ((p, b) :: l) -> own_data ((p, b) :: l) -> p :: l.*1 ## f_as g -> 20 <= p_len b ->
  (forall x, ~ (p_payload b <= x < p_payload b + 20) -> byte m x = byte (data s) x) -> keeps s (with_data s m) g.
Proof.
  intros HI Hc Ho Hd Hl Hm lg Hcg Hog Ha. exists lg. split; [exact Hcg|]. split; [apply same_packet_refl|]. apply contents_frame. intros x Hx. apply Hm. intros Hr.
  apply (own_data_apart s B ext ((p, b) :: l) lg HI) with x; try done.
  - intros a c Hin. eapply seg_lookup; [apply (proj1 Hc)|done].
  - intros a c Hin. eapply seg_lookup; [apply (proj1 Hcg)|done].
  - rewrite Ha. exact Hd.
  - rewrite addrs_cons. apply elem_of_app. left. apply elem_of_range. cbn [snd]. lia.
Qed.

Lemma contents_header (s : pst) B ext p b l m :
  pbuf_inv s B ext -> chain s p ((p, b) :: l) -> own_data ((p, b) :: l) -> 20 <= p_len b ->
  (forall x, ~ (p_payload b <= x < p_payload b + 20) -> byte m x = byte (data s) x) ->
  contents m ((p, b) :: l) = read_bytes m (p_payload b) 20 ++ drop 20 (contents (data s) ((p, b) :: l)).
Proof.
  intros HI Hc Ho Hl Hm. pose proof (own_chain_NoDup _ _ _ _ _ HI Hc Ho) as Hnd. rewrite !contents_addrs, <- fmap_drop, read_bytes_range.
  assert (E : addrs ((p, b) :: l) = range (p_payload b) 20 ++ drop 20 (addrs ((p, b) :: l))).
  { rewrite addrs_cons. unfold node_addrs. cbn [snd]. replace (Z.to_nat (p_len b)) with (20 + Z.to_nat (p_len b - 20))%nat by lia. rewrite range_app, <- app_assoc. by rewrite drop_app_length' by (by rewrite range_length). }
  rewrite E in Hnd. apply NoDup_app in Hnd as (_ & Hnd & _). rewrite E at 1. rewrite fmap_app. f_equal. apply list_fmap_ext. intros i x Hx. apply Hm. intros Hr.
  apply (Hnd x); [apply elem_of_range; lia|]. by apply list_elem_of_lookup_2 in Hx.
Qed.

Lemma splice_bytes o ys xs : Forall is_u8 xs -> Forall is_u8 ys -> Forall is_u8 (splice o ys xs).
Proof. intros Hx Hy. unfold splice. repeat apply Forall_app_2; [by apply Forall_take|done|by apply Forall_drop]. Qed.

(** The header of the datagram. *)
Lemma finish_header m a h len :
  length h = 20%nat -> Forall is_u8 h -> is_u16 len ->
  let m1 := IPH_CHKSUM_SET (IPH_OFFSET_SET (IPH_LEN_SET (write_bytes m a h) a (lwip_htons len)) a 0) a 0 in
  let m2 := IPH_CHKSUM_SET m1 a (inet_chksum a (read_bytes m1 a (Z.to_nat IP_HLEN))) in
  exists chk, read_bytes m2 a 20 = frag_header h len 0 chk /\ inet_chksum 0 (frag_header h len 0 chk) = 0 /\ Forall is_u8 (frag_header h len 0 chk) /\ forall x, ~ (a <= x < a + 20) -> byte m2 x = byte m x.
Proof.
  intros HL Hb Hlen m1 m2. assert (Hm1 : read_bytes m1 a 20 = frag_header h len 0 0).
  { unfold m1, IPH_CHKSUM_SET, IPH_LEN_SET, IPH_OFFSET_SET. rewrite !read_store_at by lia. replace (write_bytes m a h) with (write_bytes m (a + 0%nat) h) by (by rewrite Z.add_0_r).
    rewrite read_splice by lia. pose proof (read_bytes_length m a 20) as HM. clear m1 m2.
    generalize dependent (read_bytes m a 20). intros y HM. explode 20 y HM. explode 20 h HL. unfold frag_header. splices. unfold lwip_htons. rewrite !PP_HTONS_arith by done.
    repeat match goal with |- _ :: _ = _ :: _ => apply f_equal2 end; try done; wrap_solve. }
  destruct (header_sealed m1 a h len 0 0 Hm1 HL Hb Hlen ltac:(unfold_c; lia)) as (chk & E1 & E2). exists chk. split_and!; [exact E1|done| |].
  { rewrite <- E1. unfold m2, IPH_CHKSUM_SET. rewrite read_store_at, Hm1 by lia. unfold frag_header. unfold is_u16 in Hlen. change (2 ^ 16) with 65536 in Hlen.
    repeat apply splice_bytes; [done|..|apply le_list_bytes]; repeat constructor; unfold is_u8; change (2 ^ 8) with 256; Z.div_mod_to_equations; lia. }
  intros x Hx. unfold m2, m1, IPH_CHKSUM_SET, IPH_LEN_SET, IPH_OFFSET_SET. rewrite !byte_store by lia. apply byte_write_bytes. lia.
Qed.

Lemma find_prev_spec (fuel : nat) (s : reass) D0 D1 d D2 :
  dlist s (D0 ++ D1 ++ d :: D2) -> D1 <> [] -> (length D1 < fuel)%nat -> find_prev fuel s (dg_a d) (head_of D1) = Ret (prev_of D1).
Proof.
  revert fuel D0. induction D1 as [|e D1 IH]; intros fuel D0 HL Hne Hfuel; [done|]. destruct fuel as [|fuel]; [cbn in Hfuel; lia|].
  cbn [app] in HL. destruct (dseg_lookup _ _ _ _ _ _ (dl_seg _ _ HL)) as (nxt & He & Hnxt). destruct (prev_of_spec _ _ _ _ HL) as (_ & _ & Hn). cbn [find_prev head_of].
  rewrite (proj2 (Z.eqb_neq (dg_a e) NULL)) by done. rewrite (ipr_at_ok _ _ _ He). cbn [mbind outcome_bind]. change (ipr_next (reassdata_of e nxt)) with nxt. rewrite (dseg_head _ _ _ Hnxt).
  destruct D1 as [|e1 D1]; [cbn [app head_of]; by rewrite Z.eqb_refl|]. cbn [app head_of].
  assert (Hne1 : dg_a e1 <> dg_a d). { pose proof (dl_nodup _ _ HL) as Hnd. rewrite fmap_app in Hnd. apply NoDup_app in Hnd as (_ & _ & Hnd). cbn in Hnd. apply NoDup_cons in Hnd as [_ Hnd]. apply NoDup_cons in Hnd as [Hnd _].
    intros E. apply Hnd. rewrite E, fmap_app. apply elem_of_app. right. by left. }
  rewrite (proj2 (Z.eqb_neq _ _) Hne1). change (find_prev fuel s (dg_a d) (head_of (e1 :: D1)) = Ret (prev_of (e1 :: D1))). apply (IH fuel (D0 ++ [e])); [by rewrite <- app_assoc|done|cbn in *; lia].
Qed.

Lemma links_length e f fs : last (f :: fs) = Some e -> links (f :: fs) = true -> f_start f + length (frag_bytes (f :: fs)) = f_end e.
Proof.
  revert f. induction fs as [|g fs IH]; intros f Hl Hk; [injection Hl as <-; unfold frag_bytes, f_end; cbn; rewrite app_nil_r; done|].
  change (links (f :: g :: fs)) with ((f_end f =? f_start g) && links (g :: fs)) in Hk. apply andb_true_iff in Hk as [Hk1 Hk2]. bool_to_prop. specialize (IH g Hl Hk2). unfold frag_bytes in *. cbn [fmap list_fmap concat] in *. rewrite length_app. unfold f_end in Hk1. lia.
Qed.

(** The first pbuf has the IP header. *)
Definition long_first (l : list (Z * pbuf)) : Prop := exists q b r, l = (q, b) :: r /\ 20 <= p_len b.

Lemma same_data_long b p l lq : 20 <= p_len b -> Forall2 same_data ((p, b) :: l) (take (length ((p, b) :: l)) lq) -> long_first lq.
Proof.
  intros Hb H. apply Forall2_cons_inv_l in H as ([q c] & r & (E1 & E2 & E3 & _) & _ & E). destruct lq as [|x lq]; [done|]. injection E as -> _. exists q, c, lq. split; [done|]. cbn in E3. lia.
Qed.

Lemma finish_spec (s : reass) B ext D1 d D2 :
  reass_core s B ext (D1 ++ d :: D2) -> counted s (D1 ++ d :: D2) -> whole (dg_fs d) = true ->
  exists s' lq chk, reass_finish s (dg_a d) = Ret (first_p (dg_fs d), s') /\ reass_core s' B (ext_add ext (first_p (dg_fs d))) (D1 ++ D2) /\ counted s' (D1 ++ D2)
    /\ first_p (dg_fs d) <> NULL /\ chain (n_ps (r_net s')) (first_p (dg_fs d)) lq /\ own_data lq /\ lq.*1 = nodes (dg_fs d)
    /\ (let hdr := frag_header (dg_hdr d) (dg_len d + 20) 0 chk in contents (r_mem s') lq = hdr ++ frag_bytes (dg_fs d) /\ inet_chksum 0 hdr = 0)
    /\ (long_first lq /\ Forall is_u8 (frag_header (dg_hdr d) (dg_len d + 20) 0 chk)) /\ link_log (n_lk (r_net s')) = link_log (n_lk (r_net s)) /\ others_stay s s' ext (D1 ++ d :: D2).
Proof.
  intros [HL Hok HD Hnd] [Hcnt Hmax] Hw. pose proof (frags_middle D1 d D2) as Hperm. set (ps := n_ps (r_net s)) in *. pose proof (proj1 Hok) as HI.
  assert (Hdo : dgram_ok ps d) by (apply Forall_app in HD as [_ HD']; by apply Forall_cons in HD' as [? _]). destruct (dseg_lookup _ _ _ _ _ _ (dl_seg _ _ HL)) as (nxt & Hr & _).
  assert (Hn : (length (nodes (frags (D1 ++ d :: D2))) = length (nodes (dg_fs d)) + length (nodes (frags (D1 ++ D2))))%nat) by (by rewrite Hperm, nodes_app, length_app). change IP_REASS_MAX_PBUFS with 10 in Hmax.
  assert (Hndp : NoDup (nodes (dg_fs d ++ frags (D1 ++ D2)))) by (by rewrite <- Hperm). rewrite nodes_app in Hndp. apply NoDup_app in Hndp as (Hnd1 & Hnd12 & Hnd2).
  destruct (do_hdr _ _ Hdo) as [Hh20 Hhu]. pose proof (do_len _ _ Hdo) as Hdl. pose proof (do_frags _ _ Hdo) as Hs. destruct (dg_fs d) as [|f fs] eqn:Efs; [done|]. cbn [first_p] in *. destruct Hs as (_ & nf & b & l & Hf & Hs).
  pose proof (frag_lookup _ _ _ _ _ Hf) as Hb. pose proof (fa_chain _ _ _ _ _ Hf) as Hc. pose proof (fa_own _ _ _ _ _ Hf) as Hown. pose proof (fa_len _ _ _ _ _ Hf) as Hlen. pose proof (frag_not_null _ _ _ _ _ _ _ HI Hf) as Hnn.
  assert (Htot : 20 + length (frag_bytes (f :: fs)) < 65536).
  { unfold whole in Hw. apply andb_true_iff in Hw as [Hw0 Hw]. bool_to_prop. destruct (last (f :: fs)) as [e|] eqn:El; [|by apply last_None in El]. pose proof (links_length _ _ _ El Hw) as E.
    assert (He : exists ne be le, frag_at ps e ne be le) by (apply (fseg_elem ps (f_p f) (f :: fs) NULL); [split; [done|by exists nf, b, l]|by apply last_Some_elem_of]). destruct He as (ne & be & le & He). pose proof (fa_range _ _ _ _ _ He). lia. }
  unfold reass_finish. rewrite (ipr_at_ok _ _ _ Hr). cbn [mbind outcome_bind]. change (ipr_p (reassdata_of d nxt)) with (first_p (dg_fs d)). change (ipr_iphdr (reassdata_of d nxt)) with (dg_hdr d). change (datagram_len (reassdata_of d nxt)) with (dg_len d).
  rewrite Efs. cbn [first_p]. rewrite (payload_of_ok _ _ _ Hb). cbn [mbind outcome_bind]. cbn zeta. change (r_mem s) with (data ps). destruct (frag_loads _ _ _ _ _ Hf) as (-> & _). change (u16 (dg_len d + IP_HLEN)) with (u16 (dg_len d + 20)). rewrite !(u16_small (dg_len d + 20)) by (unfold_c; lia).
  destruct (finish_header (data ps) (p_payload b) (dg_hdr d) (dg_len d + 20) Hh20 Hhu ltac:(unfold_c; lia)) as (chk & Ehdr & Hchk & Hu8 & Hfr). cbn zeta in Ehdr, Hfr.
  set (m2 := IPH_CHKSUM_SET _ _ _) in *. set (s1 := with_rmem s m2).
  assert (Ec1 : contents m2 ((f_p f, b) :: l) = frag_header (dg_hdr d) (dg_len d + 20) 0 chk ++ f_data f).
  { rewrite (contents_header ps B _ (f_p f) b l m2 HI Hc Hown Hlen Hfr), Ehdr. f_equal. exact (fa_data _ _ _ _ _ Hf). }
  assert (Et1 : total ((f_p f, b) :: l) = 20 + length (f_data f)).
  { rewrite <- (contents_length m2 _ (tot_ok_lens _ (proj2 Hc))), Ec1, length_app, frag_header_length by done. lia. }
  assert (Hd1 : ((f_p f, b) :: l).*1 ## nodes fs). { rewrite nodes_cons in Hnd1. apply NoDup_app in Hnd1 as (_ & Hnd1 & _). cbn [fmap list_fmap fst]. rewrite <- (fa_as _ _ _ _ _ Hf). exact Hnd1. }
  assert (K1 : forall g, f_as f ## f_as g -> keeps ps (with_data ps m2) g) by (intros g Hg; rewrite (fa_as _ _ _ _ _ Hf) in Hg; by eapply keeps_frame).
  assert (Hndfs : NoDup (nodes fs)) by (rewrite nodes_cons in Hnd1; by apply NoDup_app in Hnd1 as (_ & _ & Hnd1)).
  assert (Hs1 : fseg (n_ps (r_net s1)) nf fs NULL).
  { eapply fseg_keeps; [exact Hs|]. apply Forall_forall. intros g Hg. apply K1. rewrite nodes_cons in Hnd1. apply NoDup_app in Hnd1 as (_ & Hnd1 & _). intros x Hx Hx'. apply (Hnd1 x Hx). by apply (elem_nodes g). }
  destruct (chain_frags_spec (frag_fuel s1) s1 B (ext_add ext (f_p f)) (f_p f) ((f_p f, b) :: l) fs (frags (D1 ++ D2)) nf) as (ps2 & lq & E2 & Hok2 & Hc2 & Ho2 & Ha2 & Ec2 & Hsd & K2); try done.
  { apply net_ok_data. eapply net_ok_ext; [|exact Hok]. intros a. rewrite (held_add ext (f_p f) f) by done. unfold hold. f_equal. by apply held_perm. }
  { rewrite Et1. unfold frag_bytes in *. cbn [fmap list_fmap concat] in Htot. rewrite length_app in Htot. lia. }
  { pose proof (frags_fuel _ _ _ _ Hs1 Hndfs). unfold frag_fuel. lia. }
  rewrite E2. cbn [mbind outcome_bind]. set (s2 := with_rnet s1 _). assert (HL2 : dlist s2 (D1 ++ d :: D2)) by (by destruct HL).
  assert (Eprev : (if dg_a d =? reassdatagrams s2 then Ret NULL else find_prev (ipr_fuel s2) s2 (dg_a d) (reassdatagrams s2)) = Ret (prev_of D1)).
  { rewrite (dseg_head _ _ _ (dl_seg _ _ HL2)). destruct D1 as [|e D1]; [cbn [app head_of]; by rewrite Z.eqb_refl|]. cbn [app head_of].
    assert (Hne : dg_a d <> dg_a e). { pose proof (dl_nodup _ _ HL2) as Hnd'. cbn in Hnd'. apply NoDup_cons in Hnd' as [Hnd' _]. intros E. apply Hnd'. rewrite <- E, fmap_app. apply elem_of_app. right. by left. }
    rewrite (proj2 (Z.eqb_neq _ _) Hne). apply (find_prev_spec (ipr_fuel s2) s2 [] (e :: D1) d D2 HL2); [done|]. pose proof (dlist_size _ _ HL2) as Hsz. cbn in Hsz. rewrite length_app in Hsz. unfold ipr_fuel. cbn. lia. }
  rewrite Eprev. cbn [mbind outcome_bind]. destruct (dequeue_spec s2 D1 d D2 HL2) as (s3 & -> & HL3 & En3 & Ecn3). cbn [mbind outcome_bind]. rewrite En3.
  assert (Hlq : length lq = length (nodes (f :: fs))) by (rewrite <- (length_fmap fst lq), Ha2, nodes_cons, (fa_as _ _ _ _ _ Hf); done).
  change (n_ps (r_net s2)) with ps2. rewrite (clen_spec ps2 _ lq (inv_not_null _ _ _ (proj1 Hok2)) Hc2) by lia. cbn [mbind outcome_bind]. rewrite Ecn3. change (ip_reass_pbufcount s2) with (ip_reass_pbufcount s). rewrite LWIP_ASSERT_ok by (apply Z.leb_le; lia). cbn [mbind outcome_bind].
  rewrite u16_small by (unfold_c; lia). eexists _, lq, chk. split; [done|].
  assert (K : forall g, nodes (f :: fs) ## f_as g -> keeps ps ps2 g).
  { intros g Hg. assert (Hgf : f_as f ## f_as g) by (intros x Hx Hx'; apply (Hg x); [rewrite nodes_cons; apply elem_of_app; by left|done]). apply (keeps_trans _ (with_data ps m2)); [by apply K1|].
    apply K2; [cbn [fmap list_fmap fst]; by rewrite <- (fa_as _ _ _ _ _ Hf)|]. intros x Hx Hx'. apply (Hg x); [rewrite nodes_cons; apply elem_of_app; by right|done]. }
  split; [|split; [|split; [done|split; [|split; [done|split; [|split; [|split; [split; [by eapply same_data_long|done]|split]]]]]]]].
  - split; [by destruct HL3|cbn; rewrite En3; exact Hok2| |done]. cbn. rewrite En3. apply Forall_app in HD as [HDa HDb]. apply Forall_cons in HDb as [_ HDb]. eapply (dgrams_keep ps); [apply Forall_app; by split|].
    apply Forall_forall. intros g Hg. apply K. intros x Hx Hx'. apply (Hnd12 x Hx). by apply (elem_nodes g).
  - split; cbn [ip_reass_pbufcount with_count]; change IP_REASS_MAX_PBUFS with 10; lia.
  - cbn. rewrite En3. exact Hc2.
  - rewrite Ha2, nodes_cons, (fa_as _ _ _ _ _ Hf). done.
  - split; [|done]. unfold r_mem. cbn. rewrite En3. cbn. rewrite Ec2. change (data (n_ps (r_net s1))) with m2. rewrite Ec1. unfold frag_bytes. cbn. by rewrite <- app_assoc.
  - cbn. by rewrite En3.
  - intros g _ _ Hg. cbn. rewrite En3. apply K. intros x Hx Hx'. apply (Hg x); [|done]. rewrite Hperm, nodes_app. apply elem_of_app. by left.
Qed.

(** ** Lemmas: the datagram of a fragment *)

Lemma find_ipr_spec (fuel : nat) (s : reass) h a D0 R :
  dlist s (D0 ++ R) -> read_bytes (r_mem s) a 20 = h -> (length R < fuel)%nat ->
  (Forall (λ d, other h d = true) R /\ find_ipr fuel s a (head_of R) = Ret NULL)
  \/ exists D1 d D2, R = D1 ++ d :: D2 /\ other h d = false /\ Forall (λ d, other h d = true) D1 /\ find_ipr fuel s a (head_of R) = Ret (dg_a d).
Proof.
  intros HL Hh. revert fuel D0 HL. induction R as [|d R IH]; intros fuel D0 HL Hfuel; [left; split; [constructor|by destruct fuel]|]. destruct fuel as [|fuel]; [cbn in Hfuel; lia|].
  destruct (dseg_lookup _ _ _ _ _ _ (dl_seg _ _ HL)) as (nxt & Hr & Hnxt). destruct (prev_of_spec _ _ _ _ HL) as (_ & _ & Hn). cbn [find_ipr head_of].
  rewrite (proj2 (Z.eqb_neq (dg_a d) NULL)) by done. rewrite (ipr_at_ok _ _ _ Hr). cbn [mbind outcome_bind]. change (ipr_iphdr (reassdata_of d nxt)) with (dg_hdr d). change (ipr_next (reassdata_of d nxt)) with nxt.
  rewrite match_header, Hh, (dseg_head _ _ _ Hnxt). destruct (same_datagram (dg_hdr d) h) eqn:E; [right; exists [], d, R; unfold other; rewrite E; split_and!; try done; constructor|].
  assert (Ho : other h d = true) by (unfold other; by rewrite E).
  destruct (IH fuel (D0 ++ [d])) as [[H1 H2]|(D1 & e & D2 & -> & H1 & H2 & H3)]; [by rewrite <- app_assoc|cbn in Hfuel; lia|left; split; [by constructor|done]|].
  right. exists (d :: D1), e, D2. split_and!; try done. by constructor.
Qed.

Definition new_dgram (a : Z) (h : list Z) : dgram := Dgram a h 0 0 IP_REASS_MAXAGE [].

Lemma header_hl m a : IPH_HL_BYTES m a = 20 -> le_val (take 1 (read_bytes m a 20)) mod 16 = 5.
Proof.
  unfold IPH_HL_BYTES, IPH_HL, iph_vhl. rewrite (load_0 _ _ 1 20) by lia. change 15 with (Z.ones 4). rewrite Z.land_ones by lia. change (2 ^ 4) with 16.
  pose proof (Z.mod_pos_bound (le_val (take 1 (read_bytes m a 20))) 16 ltac:(lia)). rewrite u8_small by (unfold_c; lia). lia.
Qed.

(** A datagram in front of the list. *)
Lemma push_spec (s : reass) B ext D h a pool :
  reass_core s B ext D -> pool_holds pool (a :: (dg_a <$> D)) -> length h = 20%nat -> Forall is_u8 h -> le_val (take 1 h) mod 16 = 5 ->
  reass_core (with_rhead (set_ipr (with_rpool s pool) a (reassdata_of (new_dgram a h) (reassdatagrams s))) a) B ext (new_dgram a h :: D).
Proof.
  intros [[H1 H2 H3 H4] H5 H6 H7] Hp Hh Hu Hhl. pose proof (pool_holds_NoDup _ _ Hp) as Hnd. apply NoDup_cons in Hnd as [Hna Hnd]. split; try done.
  - split; [|by constructor| |done].
    + split; [done|]. exists (reassdatagrams s). split; [apply lookup_insert_eq|]. eapply dseg_frame; [exact H1|]. intros x Hx. apply lookup_insert_ne. by intros <-.
    + intros x. cbn. rewrite elem_of_cons, <- H3. destruct (decide (x = a)) as [->|Hne]; [rewrite lookup_insert_eq; split; [by left|by eexists]|rewrite lookup_insert_ne by done; naive_solver].
  - constructor; [|done]. by split.
Qed.

Lemma nodes_pos (s : pst) D : full D -> Forall (dgram_ok s) D -> length (nodes (frags D)) = 0%nat -> D = [].
Proof.
  intros Hf HD E. destruct D as [|d D]; [done|]. apply Forall_cons in Hf as [Hne _]. apply Forall_cons in HD as [Hd _]. pose proof (do_frags _ _ Hd) as Hs. destruct (dg_fs d) as [|f fs] eqn:Ef; [done|].
  destruct Hs as (_ & nxt & b & l & Hat & _). rewrite frags_cons, Ef, nodes_app, nodes_cons, (fa_as _ _ _ _ _ Hat) in E. done.
Qed.

Lemma enqueue_spec ns (s : reass) B ext D p b l (clen : nat) :
  let h := read_bytes (r_mem s) (p_payload b) 20 in
  reass_core s B ext D -> counted s D -> full D -> routes_ok ns -> incoming (n_ps (r_net s)) p b l -> p <> NULL -> (0 < ext p)%nat -> p :: l.*1 ## nodes (frags D) ->
  Forall (λ d, other h d = true) D -> IPH_HL_BYTES (r_mem s) (p_payload b) = 20 -> (1 <= clen)%nat ->
  exists ipr s' B' R D' out, ip_reass_enqueue_new_datagram ns s (p_payload b) clen = Ret (ipr, s')
    /\ counted s' D' /\ made_room h D R D' /\ link_log (n_lk (r_net s')) = link_log (n_lk (r_net s)) ++ out /\ expiries ns ext (r_net s) R (r_net s') out /\ others_stay s s' ext D
    /\ (R <> [] -> (pool_cap <= length D)%nat)
    /\ (ipr = NULL /\ reass_core s' B' ext D' /\ D' = [] /\ (pool_cap <= length D)%nat \/ ipr <> NULL /\ reass_core s' B' ext (new_dgram ipr h :: D')).
Proof.
  intros h HC Hcn Hfull Hns Hin Hp He Hd Hoth Hhl Hcl. apply header_hl in Hhl. fold h in Hhl. unfold ip_reass_enqueue_new_datagram. pose proof (ri_list _ _ _ _ HC) as HL. pose proof (pool_malloc_law _ _ (dl_pool _ _ HL)) as Hm.
  assert (Hh20 : length h = 20%nat) by apply read_bytes_length.
  assert (Hhu : Forall is_u8 h). { unfold h, r_mem. rewrite (read_contents _ p b l 20) by (pose proof (in_len _ _ _ _ Hin); lia). apply Forall_take, (in_bytes _ _ _ _ Hin). }
  case_decide as Hcap.
  - destruct Hm as (e & pool & Em & Hpool). rewrite Em. cbn [mbind outcome_bind]. pose proof (pool_holds_pos _ _ Hpool) as Hpos. apply Forall_cons in Hpos as [Hpos _].
    eexists e, _, B, [], D, []. split; [done|]. split; [by destruct Hcn|]. split; [apply made_room_refl|]. split; [by rewrite app_nil_r|]. split; [constructor|]. split; [intros g _ _ _; apply keeps_refl|]. split; [done|].
    right. split; [unfold NULL; lia|]. exact (push_spec s B ext D h e pool HC Hpool Hh20 Hhu Hhl).
  - destruct Hm as (pool & Em & Hpool). rewrite Em. cbn [mbind outcome_bind]. rewrite length_fmap in Hcap. set (s1 := with_rpool s pool).
    assert (HC1 : reass_core s1 B ext D) by (destruct HC as [[] ? ? ?]; by split).
    destruct (remove_oldest_spec (ipr_fuel s1) ns s1 B ext D p b l clen 0 HC1 Hcn Hfull Hns Hin Hp He Hd) as (s2 & B2 & R & D' & out & E2 & HC2 & Hcn2 & Hmr & Hpost & Hlog & Hex & Hst).
    { pose proof (dlist_size _ _ (ri_list _ _ _ _ HC1)) as Hsz. unfold ipr_fuel. pose proof (length_filter (λ d, other (read_bytes (r_mem s1) (p_payload b) 20) d = true) D). unfold others. lia. }
    unfold ip_reass_remove_oldest_datagram. rewrite E2. cbn [mbind outcome_bind]. rewrite Z.add_0_l in *. change (read_bytes (r_mem s1) (p_payload b) 20) with h in *.
    destruct (Z.leb_spec clen (length (nodes (frags R)))) as [Hge|Hlt].
    + assert (HR : (1 <= length R)%nat) by (destruct R; [cbn in Hge; lia|cbn; lia]). pose proof (Permutation_length (mr_perm _ _ _ _ Hmr)) as Hpl. rewrite length_app in Hpl.
      pose proof (pool_holds_cap _ _ (dl_pool _ _ HL)) as Hc0. rewrite length_fmap in Hc0.
      pose proof (pool_malloc_law _ _ (dl_pool _ _ (ri_list _ _ _ _ HC2))) as Hm2. rewrite length_fmap, decide_True in Hm2 by lia. destruct Hm2 as (e & pool2 & Em2 & Hpool2).
      cbn [mbind outcome_bind]. rewrite Em2. cbn [mbind outcome_bind]. pose proof (pool_holds_pos _ _ Hpool2) as Hpos. apply Forall_cons in Hpos as [Hpos _].
      destruct (nodes_apart_stay _ _ _ _ _ _ _ Hst Hin Hp He Hd) as (b2 & l2 & _ & _ & _ & _ & Er2 & _). change (read_bytes (r_mem (with_rpool s2 pool2)) (p_payload b) (Z.to_nat IP_HLEN)) with (read_bytes (r_mem s2) (p_payload b) 20). rewrite Er2.
      change (read_bytes (r_mem s1) (p_payload b) 20) with h.
      eexists e, _, B2, R, D', out. split; [done|]. split; [by destruct Hcn2|]. split; [done|]. split; [done|]. split; [done|]. split; [done|]. split; [intros _; lia|]. right. split; [unfold NULL; lia|]. exact (push_spec s2 B2 ext D' h e pool2 HC2 Hpool2 Hh20 Hhu Hhl).
    + cbn [mbind outcome_bind]. exists NULL, s2, B2, R, D', out. split; [done|]. do 5 (split; [done|]). split; [intros _; lia|]. left. split; [done|]. split; [done|]. split; [|lia].
      destruct Hpost as [?|Hpost]; [lia|]. destruct D' as [|e D']; [done|]. exfalso. eapply (others_nil h (e :: D') e); [done|by left|]. rewrite Forall_forall in Hoth. apply Hoth. eapply sublist_subseteq; [apply (mr_sub _ _ _ _ Hmr)|by left].
Qed.

(** ** Lemmas: adding the fragment *)

(** The place of a fragment, None also when it ends beyond the longest datagram. *)
Definition placed (f : frag) (fs : list frag) : option (list frag * list frag) := if 65515 <? f_end f then None else place f fs.

Lemma placed_near f fs : f_end f <= 65515 -> placed f fs = place f fs.
Proof. intros H. unfold placed. by rewrite (proj2 (Z.ltb_ge _ _) H). Qed.

Lemma placed_place f fs r : placed f fs = Some r -> place f fs = Some r.
Proof. unfold placed. by destruct (65515 <? f_end f). Qed.

(** The queue without the datagram [d] when nothing of it has come. *)
Definition without_empty (D1 : list dgram) (d : dgram) (D2 : list dgram) : list dgram :=
  match dg_fs d with [] => D1 ++ D2 | _ => D1 ++ d :: D2 end.

(** The datagram [d] with the fragments [fs], when [f] was added; [fin] when it is the
    last one. *)
Definition put (f : frag) (fin : bool) (d : dgram) (fs : list frag) : dgram :=
  Dgram (dg_a d) (dg_hdr d) (if fin then f_end f else dg_len d) (if fin then Z.lor (dg_flags d) IP_REASS_FLAG_LASTFRAG else dg_flags d) (dg_timer d) fs.

Definition complete (d : dgram) : bool := negb (Z.land (dg_flags d) IP_REASS_FLAG_LASTFRAG =? 0) && whole (dg_fs d).

(** The packet at [q] is the datagram [d]: its header, with a valid checksum, and the
    data of the fragments. *)
Definition delivered (s : pst) (q : Z) (d : dgram) : Prop :=
  q <> NULL /\ exists lq chk, chain s q lq /\ own_data lq /\ lq.*1 = nodes (dg_fs d)
    /\ let hdr := frag_header (dg_hdr d) (dg_len d + 20) 0 chk in contents (data s) lq = hdr ++ frag_bytes (dg_fs d) /\ inet_chksum 0 hdr = 0 /\ long_first lq /\ Forall is_u8 hdr.

(** The packets held from elsewhere stay, but for that with the pbufs [xs]. *)
Definition rest_stay (s s' : reass) (ext : Z -> nat) (D : list dgram) (xs : list Z) : Prop :=
  forall g, f_p g <> NULL -> (0 < ext (f_p g))%nat -> nodes (frags D) ## f_as g -> xs ## f_as g -> keeps (n_ps (r_net s)) (n_ps (r_net s')) g.

Lemma hold_add ext p fs a : hold (ext_add ext p) fs a = ext_add (hold ext fs) p a.
Proof. unfold hold, ext_add. case_decide; lia. Qed.

(** The packet is dropped. *)
Lemma null_return_spec (s : reass) B ext D p :
  reass_core s B (ext_add ext p) D -> p <> NULL ->
  exists s' B', null_return s p = Ret (NULL, s') /\ reass_core s' B' ext D /\ ip_reass_pbufcount s' = ip_reass_pbufcount s
    /\ link_log (n_lk (r_net s')) = link_log (n_lk (r_net s)) /\ others_stay s s' ext D.
Proof.
  intros [HL Hok HD Hnd] Hp. destruct (net_free_stays (r_net s) B (hold ext (frags D)) p) as (n & B' & E & Hok' & Hlog & _ & K); [|done|].
  { eapply net_ok_ext; [|exact Hok]. intros a. apply hold_add. }
  unfold null_return. rewrite E. cbn [mbind outcome_bind]. exists (with_rnet s n), B'. split; [done|]. split; [|split; [done|split; [done|]]].
  - split; [by destruct HL|done| |done]. eapply dgrams_keep; [exact HD|]. apply Forall_forall. intros g Hg. apply stays_keeps, K; [|by apply hold_pos].
    unfold frags in Hg. apply list_elem_of_bind in Hg as (e & Hg & He). rewrite Forall_forall in HD. destruct (fseg_elem _ _ _ _ _ (do_frags _ _ (HD e He)) Hg) as (ng & bg & lg & Hat). by eapply frag_not_null; [apply (proj1 Hok)|].
  - intros g Hg1 Hg2 _. apply stays_keeps, K; [done|]. unfold hold. lia.
Qed.

(** The label nullreturn_ipr: a datagram that was just made goes too. *)
Lemma null_return_ipr_spec (s : reass) B ext D1 d D2 p :
  reass_core s B (ext_add ext p) (D1 ++ d :: D2) -> p <> NULL -> (dg_fs d = [] -> D1 = []) ->
  exists s' B', null_return_ipr s p (dg_a d) = Ret (NULL, s') /\ reass_core s' B' ext (without_empty D1 d D2) /\ ip_reass_pbufcount s' = ip_reass_pbufcount s
    /\ link_log (n_lk (r_net s')) = link_log (n_lk (r_net s)) /\ others_stay s s' ext (D1 ++ d :: D2).
Proof.
  intros HC Hp Hnew. pose proof (ri_list _ _ _ _ HC) as HL. destruct (prev_of_spec _ _ _ _ HL) as (_ & _ & Hdn). unfold null_return_ipr, without_empty.
  rewrite (proj2 (Z.eqb_neq (dg_a d) NULL) Hdn). cbn [negb LWIP_ASSERT mbind outcome_bind]. destruct (dseg_lookup _ _ _ _ _ _ (dl_seg _ _ HL)) as (nxt & Hr & _). rewrite (ipr_at_ok _ _ _ Hr). cbn [mbind outcome_bind].
  change (ipr_p (reassdata_of d nxt)) with (first_p (dg_fs d)). destruct (dg_fs d) as [|g gs] eqn:Eg.
  - rewrite (Hnew eq_refl) in *. cbn [first_p app]. rewrite Z.eqb_refl, (dseg_head _ _ _ (dl_seg _ _ HL)). cbn [app head_of]. rewrite Z.eqb_refl. cbn [LWIP_ASSERT mbind outcome_bind].
    destruct (dequeue_spec s [] d D2 HL) as (s1 & E1 & HL1 & En1 & Ec1). cbn [prev_of last] in E1. change (prev_of []) with NULL in E1. rewrite E1. cbn [mbind outcome_bind app] in *.
    assert (Efr : frags (d :: D2) = frags D2) by (rewrite frags_cons, Eg; done). destruct HC as [_ Hok HD Hnd]. rewrite Efr in Hok, Hnd. apply Forall_cons in HD as [_ HD].
    destruct (null_return_spec s1 B ext D2 p) as (s' & B' & E & HC' & Ecnt & Hlog & Hst); [|done|].
    { split; [done| | |done]; by rewrite En1. }
    exists s', B'. split; [done|]. split; [done|]. split; [congruence|]. split; [by rewrite Hlog, En1|]. unfold others_stay in *. rewrite Efr, <- En1. exact Hst.
  - assert (Hfn : g ∈ dg_fs d) by (rewrite Eg; by left). assert (Hnn : f_p g <> NULL).
    { pose proof (ri_dgrams _ _ _ _ HC) as HD. apply Forall_app in HD as [_ HD]. apply Forall_cons in HD as [Hdo _]. destruct (fseg_elem _ _ _ _ _ (do_frags _ _ Hdo) Hfn) as (ng & bg & lg & Hg).
      by eapply frag_not_null; [apply (proj1 (ri_net _ _ _ _ HC))|]. }
    cbn [first_p]. rewrite (proj2 (Z.eqb_neq _ _) Hnn). cbn [mbind outcome_bind]. by eapply null_return_spec.
Qed.

Lemma last_flag x : Z.land (Z.lor x IP_REASS_FLAG_LASTFRAG) IP_REASS_FLAG_LASTFRAG <> 0.
Proof. unfold IP_REASS_FLAG_LASTFRAG. intros E. apply (f_equal (λ z, Z.testbit z 0)) in E. rewrite Z.land_spec, Z.lor_spec, orb_true_r in E. done. Qed.

Lemma add_spec (s : reass) B ext D1 d D2 p b l :
  let D := D1 ++ d :: D2 in
  let m := r_mem s in
  reass_core s B (ext_add ext p) D -> counted s D -> full (D1 ++ D2) -> incoming (n_ps (r_net s)) p b l -> IPH_HL_BYTES m (p_payload b) = 20 -> p <> NULL -> p :: l.*1 ## nodes (frags D) ->
  Z.of_nat (length (nodes (frags D))) + S (length l) <= IP_REASS_MAX_PBUFS -> (dg_fs d = [] -> D1 = []) ->
  let f := frag_of (n_ps (r_net s)) p b l in
  let fin := Z.land (IPH_OFFSET m (p_payload b)) (PP_HTONS IP_MF) =? 0 in
  exists q s' B', reass_add s p (p_payload b) (dg_a d) (IPH_OFFSET_BYTES m (p_payload b)) (p_tot_len b - 20) (S (length l)) = Ret (q, s')
    /\ link_log (n_lk (r_net s')) = link_log (n_lk (r_net s)) /\ rest_stay s s' ext D (p :: l.*1)
    /\ match placed f (dg_fs d) with
       | None => q = NULL /\ reass_inv s' B' ext (without_empty D1 d D2)
       | Some (a, c) =>
           let d' := put f fin d (a ++ f :: c) in
           if complete d' then reass_inv s' B' (ext_add ext q) (D1 ++ D2) /\ delivered (n_ps (r_net s')) q d' else q = NULL /\ reass_inv s' B' ext (D1 ++ d' :: D2)
       end.
Proof.
  intros D m HC Hcn Hfull Hin Hhl Hp Hap Hmax Hnew f fin.
  destruct (frag_of_end _ _ _ _ Hin) as [Hend Htot]. pose proof (in_end _ _ _ _ Hin) as Hie. cbv zeta in Hie. fold f in Hend. pose proof (offset_bytes_range m (p_payload b)) as Hoff. change (data (n_ps (r_net s))) with m in *.
  assert (Hdropped : forall m', reass_core (with_rmem s m') B (ext_add ext p) D -> (forall g, f_as f ## f_as g -> nodes (frags D) ## f_as g -> keeps (n_ps (r_net s)) (with_data (n_ps (r_net s)) m') g) ->
    exists q s' B', null_return_ipr (with_rmem s m') p (dg_a d) = Ret (q, s') /\ link_log (n_lk (r_net s')) = link_log (n_lk (r_net s)) /\ rest_stay s s' ext D (p :: l.*1)
      /\ q = NULL /\ reass_inv s' B' ext (without_empty D1 d D2)).
  { intros m' HC' K. destruct (null_return_ipr_spec _ _ _ _ _ _ _ HC' Hp Hnew) as (s' & B' & E & HC2 & Ecnt & Hlog & K2). exists NULL, s', B'. split; [done|]. split; [done|]. split.
    - intros g Hg1 Hg2 Hg3 Hg4. apply (keeps_trans _ (n_ps (r_net (with_rmem s m')))); [by apply K|by apply K2].
    - split; [done|]. split; [done|]. assert (Efr : frags (without_empty D1 d D2) = frags D) by (unfold without_empty, D; destruct (dg_fs d) eqn:Ed; [rewrite !frags_app, frags_cons, Ed|]; done).
      split; [by eapply counted_frags|]. unfold without_empty. destruct (dg_fs d) eqn:Ed; [done|]. unfold full in *. apply Forall_app in Hfull as [? ?]. apply Forall_app. split; [done|]. constructor; [by rewrite Ed|done]. }
  unfold reass_add. fold m. fold fin. unfold placed. destruct (Z.ltb_spec 65515 (f_end f)) as [Hfar|Hnear].
  { destruct fin eqn:Efin; cbn [andb].
    - replace (_ || _) with true by (symmetry; apply orb_true_iff; rewrite !Z.ltb_lt; unfold IP_HLEN; rewrite Hend in Hfar; unfold_c; Z.div_mod_to_equations; lia).
      assert (Es : with_rmem s (r_mem s) = s) by (by destruct s as [[[]]]). destruct (Hdropped (r_mem s)) as (q & s' & B' & E & Hx); [by rewrite Es|intros; unfold r_mem; rewrite with_data_id; apply keeps_refl|]. rewrite Es in E. by exists q, s', B'.
    - apply Z.eqb_neq in Efin. destruct (chain_frag_far s B ext D (dg_a d) p b l false HC Hin Hhl Hap) as (m' & -> & HC' & K); [fold f; lia|]. cbn [mbind outcome_bind]. rewrite decide_True by done. by apply Hdropped. }
  pose proof (chain_frag_spec s B ext D1 d D2 p b l fin HC Hin Hhl Hap eq_refl Hnear) as Hcf. cbn zeta in Hcf. fold m f in Hcf.
  rewrite (u16_small (_ + _)) by (unfold_c; lia).
  replace (fin && _) with false by (symmetry; apply andb_false_iff; right; apply orb_false_iff; rewrite !Z.ltb_ge; unfold IP_HLEN; unfold_c; lia).
  destruct (place f (dg_fs d)) as [[a c]|] eqn:Ep.
  2:{ destruct Hcf as (m' & -> & HC' & K). cbn [mbind outcome_bind]. rewrite decide_True by done. by apply Hdropped. }
  destruct Hcf as (m' & nxt & -> & HC' & Hex & K). set (d1 := with_fs d (a ++ f :: c)) in *. set (s1 := set_ipr _ _ _) in *. cbn [mbind outcome_bind]. 
  set (d' := put f fin d (a ++ f :: c)). set (s2 := with_count s1 (u16 (ip_reass_pbufcount s1 + S (length l)))).
  pose proof (place_app _ _ _ _ Ep) as Ea. set (final := fin || negb (Z.land (dg_flags d) IP_REASS_FLAG_LASTFRAG =? 0)) in *.
  assert (Ecmp : final && whole (dg_fs d1) = complete d').
  { unfold complete, final, d', put. cbn [dg_flags dg_fs]. destruct fin; [|done]. cbn [orb]. by rewrite (proj2 (Z.eqb_neq _ _) (last_flag (dg_flags d))). }
  assert (Hperm : frags (D1 ++ d' :: D2) ≡ₚ f :: frags D) by (unfold D; rewrite !frags_middle; cbn [dg_fs d' put]; by rewrite Ea, <- Permutation_middle).
  assert (Hr1 : r_data s1 !! dg_a d = Some (reassdata_of d1 nxt)) by apply lookup_insert_eq.
  set (s3 := if fin then set_ipr s2 (dg_a d) (reassdata_of d' nxt) else s2).
  assert (E3 : (if fin then r ← ipr_at s2 (dg_a d); Ret (set_ipr s2 (dg_a d) (with_last r (IPH_OFFSET_BYTES m (p_payload b) + (p_tot_len b - 20)) (Z.lor (ipr_flags r) IP_REASS_FLAG_LASTFRAG))) else Ret s2) = Ret s3).
  { unfold s3, d', put. destruct fin; [|done]. rewrite (ipr_at_ok s2 _ _ Hr1). cbn [mbind outcome_bind]. by rewrite Hend. }
  assert (HC3 : reass_core s3 B ext (D1 ++ d' :: D2)).
  { assert (HC2 : reass_core s2 B ext (D1 ++ d1 :: D2)) by (destruct HC' as [[] ? ? ?]; by split). unfold s3. destruct fin eqn:Efin; [|exact HC2]. apply (core_set s2 B ext D1 d1 d' D2 nxt HC2 Hr1); try done.
    pose proof (ri_dgrams _ _ _ _ HC2) as HD. apply Forall_app in HD as [_ HD]. apply Forall_cons in HD as [[O1 O2 O3 O4 O5 O6 O7] _]. split; try done; [intros _; by apply Hex|]. cbn. unfold_c. lia. }
  assert (Hcn3 : counted s3 (D1 ++ d' :: D2)).
  { destruct Hcn as [Hcn _]. assert (Ecs : ip_reass_pbufcount s3 = ip_reass_pbufcount s + S (length l)).
    { transitivity (ip_reass_pbufcount s2); [unfold s3; by destruct fin|]. unfold s2, s1. cbn [ip_reass_pbufcount with_count set_ipr with_rdata with_rmem with_rnet]. apply u16_small. change IP_REASS_MAX_PBUFS with 10 in Hmax. unfold_c. lia. }
    split; rewrite Ecs; [|change (length (nodes (frags D))) with (length (nodes (frags D))) in Hmax; rewrite Hcn; exact Hmax]. rewrite Hperm, nodes_cons, length_app, Hcn. cbn [f_as f frag_of length]. rewrite length_fmap. unfold D. lia. }
  assert (Hst3 : n_ps (r_net s3) = with_data (n_ps (r_net s)) m') by (unfold s3; by destruct fin). assert (Hlk3 : n_lk (r_net s3) = n_lk (r_net s)) by (unfold s3; by destruct fin).
  rewrite Ecmp. destruct (complete d') eqn:Ecomp; rewrite decide_False by done; rewrite E3; cbn [mbind outcome_bind].
  - rewrite decide_True by done. change (reass_finish s3 (dg_a d)) with (reass_finish s3 (dg_a d')). destruct (finish_spec s3 B ext D1 d' D2 HC3 Hcn3) as (s' & lq & chk & -> & HC4 & Hcn4 & Hq & Hc4 & Ho4 & Ha4 & [Hcont Hchk] & Hlf & Hlog & K4); [by apply andb_true_iff in Ecomp as [_ ?]|].
    exists (first_p (dg_fs d')), s', B. split; [done|]. split; [by rewrite Hlog, Hlk3|]. split; [|split; [done|split; [done|by exists lq, chk]]]. intros g Hg1 Hg2 Hg3 Hg4.
    apply (keeps_trans _ (n_ps (r_net s3))); [rewrite Hst3; by apply K|]. apply K4; [done|done|]. intros x Hx Hx'. rewrite Hperm, nodes_cons in Hx. apply elem_of_app in Hx as [Hx|Hx]; [by apply (Hg4 x)|by apply (Hg3 x)].
  - rewrite decide_False by done. exists NULL, s3, B. split; [done|]. split; [by rewrite Hlk3|]. split; [intros g Hg1 Hg2 Hg3 Hg4; rewrite Hst3; by apply K|]. split; [done|]. split; [done|]. split; [done|].
    unfold full in *. apply Forall_app in Hfull as [? ?]. apply Forall_app. split; [done|]. constructor; [|done]. cbn. by destruct a.
Qed.

(** ** What a fragment does *)

Definition with_hdr (d : dgram) (h : list Z) : dgram := Dgram (dg_a d) h (dg_len d) (dg_flags d) (dg_timer d) (dg_fs d).

(** The offset, in blocks, in the header [h]. *)
Definition hdr_blocks (h : list Z) : Z := Z.land (lwip_htons (le_val (take 2 (drop 6 h)))) IP_OFFMASK.

(** The header of the first fragment is the one that counts. *)
Definition adopt (h : list Z) (d : dgram) : dgram :=
  if (hdr_blocks h =? 0) && negb (hdr_blocks (dg_hdr d) =? 0) then with_hdr d h else d.

(** The fragment [f] with the header [h], the last one when [fin], comes to the queue [D]:
    the queue behind it, and the datagram it completes.  A fragment that overlaps, or that
    ends beyond the longest datagram, is dropped; one of a datagram that is not there yet
    starts it. *)
Inductive absorbs (h : list Z) (f : frag) (fin : bool) : list dgram -> list dgram -> option dgram -> Prop :=
| absorbs_overlap D1 d D2 :
    other h d = false -> Forall (λ e, other h e = true) D1 -> placed f (dg_fs d) = None ->
    absorbs h f fin (D1 ++ d :: D2) (D1 ++ adopt h d :: D2) None
| absorbs_known D1 d D2 a c :
    other h d = false -> Forall (λ e, other h e = true) D1 -> placed f (dg_fs d) = Some (a, c) ->
    let d' := put f fin (adopt h d) (a ++ f :: c) in
    absorbs h f fin (D1 ++ d :: D2) (if complete d' then D1 ++ D2 else D1 ++ d' :: D2) (if complete d' then Some d' else None)
| absorbs_new D e :
    Forall (λ e, other h e = true) D -> f_end f <= 65515 -> absorbs h f fin D (put f fin (new_dgram e h) [f] :: D) None
| absorbs_far D :
    Forall (λ e, other h e = true) D -> 65515 < f_end f -> absorbs h f fin D D None.

(** Whether there is no room for the fragment with [k] pbufs next to the datagrams [D]. *)
Definition too_many (D : list dgram) (k : nat) : Prop := IP_REASS_MAX_PBUFS < Z.of_nat (length (nodes (frags D))) + k.
Definition pool_full (h : list Z) (D : list dgram) : Prop := Forall (λ d, other h d = true) D /\ (pool_cap <= length D)%nat.

(** ** Lemmas *)

Lemma sublist_length_eq {A} (l1 l2 : list A) : l1 `sublist_of` l2 -> length l1 = length l2 -> l1 = l2.
Proof. induction 1 as [|x l1 l2 H IH|x l1 l2 H IH]; intros E; [done|cbn in E; f_equal; apply IH; lia|]. apply sublist_length in H. cbn in E. lia. Qed.

Lemma made_room_nil h D D' : made_room h D [] D' -> D' = D.
Proof. intros [H1 H2 _ _]. apply sublist_length_eq; [done|]. by rewrite (Permutation_length H1). Qed.

Lemma made_room_nodes h D R D' : made_room h D R D' -> (length (nodes (frags D)) = length (nodes (frags R)) + length (nodes (frags D')))%nat.
Proof. intros [H1 _ _ _]. by rewrite H1, frags_app, nodes_app, length_app. Qed.

Lemma made_room_full h D R D' : made_room h D R D' -> full D -> full D'.
Proof. intros H. apply full_sublist, (mr_sub _ _ _ _ H). Qed.

Lemma made_room_apart h D R D' (xs : list Z) : made_room h D R D' -> xs ## nodes (frags D) -> xs ## nodes (frags D').
Proof. intros H Hd x Hx Hx'. apply (Hd x Hx). rewrite (mr_perm _ _ _ _ H), frags_app, nodes_app. apply elem_of_app. by right. Qed.

Lemma made_room_none (s : reass) B ext h D R D' : reass_core s B ext D -> full D -> made_room h D R D' -> length (nodes (frags R)) = 0%nat -> R = [].
Proof.
  intros HC Hf Hmr E. apply (nodes_pos (n_ps (r_net s))); [|pose proof (ri_dgrams _ _ _ _ HC) as HD|done]; [unfold full in *|]; rewrite (mr_perm _ _ _ _ Hmr) in *; by apply Forall_app in Hf as [? _] || (apply Forall_app in HD as [? _]).
Qed.

Lemma limit_spec ns (s : reass) B ext D p b l (clen : nat) :
  let h := read_bytes (r_mem s) (p_payload b) 20 in
  reass_core s B ext D -> counted s D -> full D -> routes_ok ns -> incoming (n_ps (r_net s)) p b l -> p <> NULL -> (0 < ext p)%nat -> p :: l.*1 ## nodes (frags D) -> (1 <= clen)%nat ->
  exists v s' B' R D' out, limit_pbufs ns s (p_payload b) clen = Ret (v, s') /\ reass_core s' B' ext D' /\ counted s' D' /\ made_room h D R D'
    /\ (R <> [] -> too_many D clen) /\ (if v : bool then too_many D' clen else Z.of_nat (length (nodes (frags D'))) + clen <= IP_REASS_MAX_PBUFS)
    /\ link_log (n_lk (r_net s')) = link_log (n_lk (r_net s)) ++ out /\ expiries ns ext (r_net s) R (r_net s') out /\ others_stay s s' ext D.
Proof.
  intros h HC Hcn Hfull Hns Hin Hp He Hd Hcl. unfold limit_pbufs, too_many. pose proof Hcn as [Ecn _]. rewrite Ecn. destruct (Z.ltb_spec IP_REASS_MAX_PBUFS (length (nodes (frags D)) + clen)) as [Hlt|Hge].
  2:{ exists false, s, B, [], D, []. rewrite app_nil_r. split; [done|]. do 2 (split; [done|]). split; [apply made_room_refl|]. do 3 (split; [done|]). split; [constructor|]. intros g _ _ _. apply keeps_refl. }
  unfold ip_reass_remove_oldest_datagram.
  destruct (remove_oldest_spec (ipr_fuel s) ns s B ext D p b l clen 0 HC Hcn Hfull Hns Hin Hp He Hd) as (s' & B' & R & D' & out & E & HC' & Hcn' & Hmr & Hpost & Hlog & Hex & Hst).
  { pose proof (dlist_size _ _ (ri_list _ _ _ _ HC)). unfold ipr_fuel. pose proof (length_filter (λ d, other (read_bytes (r_mem s) (p_payload b) 20) d = true) D). unfold others. lia. }
  rewrite E. cbn [mbind outcome_bind]. rewrite Z.add_0_l in *. pose proof Hcn' as [Ecn' _]. rewrite Ecn'. eexists _, s', B', R, D', out. split; [done|]. do 3 (split; [done|]). split; [done|]. split; [|done].
  pose proof (made_room_nodes _ _ _ _ Hmr) as Hn. destruct (Z.eqb_spec (length (nodes (frags R))) 0) as [E0|E0]; cbn [orb]; [lia|]. destruct (Z.ltb_spec IP_REASS_MAX_PBUFS (length (nodes (frags D')) + clen)); lia.
Qed.

Lemma rest_stay_trans (s1 s2 s3 : reass) ext p D D' xs :
  others_stay s1 s2 (ext_add ext p) D -> rest_stay s2 s3 ext D' xs -> (forall ys : list Z, nodes (frags D) ## ys -> nodes (frags D') ## ys) -> rest_stay s1 s3 ext D xs.
Proof.
  intros H12 H23 Hs g Hg1 Hg2 Hg3 Hg4. eapply keeps_trans; [apply H12; [done|unfold ext_add; case_decide; lia|done]|]. apply H23; [done|done|by apply Hs|done].
Qed.

Lemma hdr_blocks_eq m a : Z.land (lwip_htons (IPH_OFFSET m a)) IP_OFFMASK = hdr_blocks (read_bytes m a 20).
Proof. unfold hdr_blocks, IPH_OFFSET. by rewrite (load_at _ _ 6 2 20) by lia. Qed.

(** The datagram is there: its header is perhaps replaced, and the fragment added. *)
Lemma known_spec (s : reass) B ext D1 d D2 p b l :
  let D := D1 ++ d :: D2 in
  let m := r_mem s in
  let h := read_bytes m (p_payload b) 20 in
  reass_inv s B (ext_add ext p) D -> incoming (n_ps (r_net s)) p b l -> IPH_HL_BYTES m (p_payload b) = 20 -> p <> NULL -> p :: l.*1 ## nodes (frags D) ->
  Z.of_nat (length (nodes (frags D))) + S (length l) <= IP_REASS_MAX_PBUFS -> other h d = false -> Forall (λ e, other h e = true) D1 ->
  let f := frag_of (n_ps (r_net s)) p b l in
  let fin := Z.land (IPH_OFFSET m (p_payload b)) (PP_HTONS IP_MF) =? 0 in
  exists q s' B' D' res,
    (r ← ipr_at s (dg_a d);
     let s := if (Z.land (lwip_htons (IPH_OFFSET (r_mem s) (p_payload b))) IP_OFFMASK =? 0) && negb (Z.land (lwip_htons (le_val (take 2 (drop 6 (ipr_iphdr r))))) IP_OFFMASK =? 0)
              then set_ipr s (dg_a d) (with_iphdr r (read_bytes (r_mem s) (p_payload b) (Z.to_nat IP_HLEN))) else s in
     reass_add s p (p_payload b) (dg_a d) (IPH_OFFSET_BYTES m (p_payload b)) (p_tot_len b - 20) (S (length l))) = Ret (q, s')
    /\ reass_inv s' B' (match res with Some _ => ext_add ext q | None => ext end) D' /\ absorbs h f fin D D' res
    /\ match res with Some d => delivered (n_ps (r_net s')) q d | None => q = NULL end
    /\ link_log (n_lk (r_net s')) = link_log (n_lk (r_net s)) /\ rest_stay s s' ext D (p :: l.*1).
Proof.
  intros D m h (HC & Hcn & Hfull) Hin Hhl Hp Hap Hmax Hod Ho1 f fin. pose proof (ri_list _ _ _ _ HC) as HL. destruct (dseg_lookup _ _ _ _ _ _ (dl_seg _ _ HL)) as (nxt & Hr & _). rewrite (ipr_at_ok _ _ _ Hr). cbn [mbind outcome_bind]. cbn zeta.
  change (ipr_iphdr (reassdata_of d nxt)) with (dg_hdr d). rewrite hdr_blocks_eq. fold (hdr_blocks (dg_hdr d)). fold m h. change (read_bytes m (p_payload b) (Z.to_nat IP_HLEN)) with h.
  assert (Ead : adopt h d = if (hdr_blocks h =? 0) && negb (hdr_blocks (dg_hdr d) =? 0) then with_hdr d h else d) by done. set (ad := (hdr_blocks h =? 0) && negb (hdr_blocks (dg_hdr d) =? 0)) in *.
  set (s1 := if ad then set_ipr _ _ _ else s). assert (Ef : frags (D1 ++ adopt h d :: D2) = frags D) by (unfold D; rewrite !frags_app, !frags_cons, Ead; by destruct ad).
  assert (HC1 : reass_core s1 B (ext_add ext p) (D1 ++ adopt h d :: D2)).
  { unfold s1. rewrite Ead. destruct ad; [|done]. apply (core_set s B _ D1 d (with_hdr d h) D2 nxt HC Hr); try done. pose proof (ri_dgrams _ _ _ _ HC) as HD. apply Forall_app in HD as [_ HD]. apply Forall_cons in HD as [[O1 O2 O3 O4 O5 O6 O7] _].
    split; try done; [|by apply header_hl]. change (length h = 20%nat /\ Forall is_u8 h). split; [apply read_bytes_length|]. unfold h, m, r_mem. rewrite (read_contents _ p b l 20) by (pose proof (in_len _ _ _ _ Hin); lia). apply Forall_take, (in_bytes _ _ _ _ Hin). }
  assert (En : r_net s1 = r_net s) by (unfold s1; by destruct ad). assert (Ea : dg_a (adopt h d) = dg_a d) by (rewrite Ead; by destruct ad). assert (Efs : dg_fs (adopt h d) = dg_fs d) by (rewrite Ead; by destruct ad).
  assert (Hcn1 : counted s1 (D1 ++ adopt h d :: D2)) by (eapply counted_frags; [exact Hcn|done|unfold s1; by destruct ad]).
  assert (Hfull1 : full (D1 ++ D2)) by (unfold full in *; apply Forall_app in Hfull as [? Hf]; apply Forall_cons in Hf as [? ?]; by apply Forall_app).
  assert (Em : r_mem s1 = m) by (unfold r_mem; by rewrite En).
  assert (Hdne : dg_fs d <> []) by (unfold full in Hfull; apply Forall_app in Hfull as [_ Hf]; by apply Forall_cons in Hf as [? _]).
  destruct (add_spec s1 B ext D1 (adopt h d) D2 p b l HC1 Hcn1 Hfull1) as (q & s' & B' & E & Hlog & Hst & Hres); [by rewrite En|by rewrite Em|done|by rewrite Ef|by rewrite Ef|by rewrite Efs|].
  rewrite Em, Ea, En in *. rewrite E, Efs in *. fold f fin in Hres. assert (Hst' : rest_stay s s' ext D (p :: l.*1)) by (unfold rest_stay in *; rewrite Ef, En in Hst; exact Hst).
  destruct (placed f (dg_fs d)) as [[a c]|] eqn:Ep.
  - cbv zeta in Hres. set (d' := put f fin (adopt h d) (a ++ f :: c)) in *. exists q, s', B', (if complete d' then D1 ++ D2 else D1 ++ d' :: D2), (if complete d' then Some d' else None). split; [done|].
    assert (Habs : absorbs h f fin D (if complete d' then D1 ++ D2 else D1 ++ d' :: D2) (if complete d' then Some d' else None)) by (by apply absorbs_known).
    revert Habs Hres. destruct (complete d'); intros Habs [H1 H2]; by split_and!.
  - destruct Hres as [-> Hinv]. exists NULL, s', B', (D1 ++ adopt h d :: D2), None. split_and!; try done; [|by apply absorbs_overlap].
    unfold without_empty in Hinv. rewrite Efs in Hinv. by destruct (dg_fs d).
Qed.

(** Making room twice, when it was needed only once. *)
Lemma made_room_twice ns ext n n1 n2 h D R1 D1 R2 D2 o1 o2 :
  made_room h D R1 D1 -> made_room h D1 R2 D2 -> expiries ns ext n R1 n1 o1 -> expiries ns ext n1 R2 n2 o2 -> R1 = [] \/ R2 = [] ->
  exists R, made_room h D R D2 /\ expiries ns ext n R n2 (o1 ++ o2) /\ (R = R1 \/ R = R2 /\ D1 = D).
Proof.
  intros H1 H2 E1 E2 [->| ->].
  - pose proof (made_room_nil _ _ _ H1) as ->. inversion E1; subst. exists R2. split_and!; [done|done|by right].
  - pose proof (made_room_nil _ _ _ H2) as ->. inversion E2; subst. exists R1. rewrite app_nil_r. split_and!; [done|done|by left].
Qed.

(** The first fragment of a datagram does not complete it. *)
Lemma new_incomplete (s : pst) p b l e h :
  incoming s p b l -> complete (put (frag_of s p b l) (Z.land (IPH_OFFSET (data s) (p_payload b)) (PP_HTONS IP_MF) =? 0) (new_dgram e h) [frag_of s p b l]) = false.
Proof.
  intros Hin. unfold complete. cbn [dg_flags dg_fs put new_dgram]. destruct (Z.eqb_spec (Z.land (IPH_OFFSET (data s) (p_payload b)) (PP_HTONS IP_MF)) 0) as [E|E]; [|done].
  apply andb_false_iff. right. cbn. rewrite (proj2 (Z.eqb_neq _ _) (in_last _ _ _ _ Hin E)). done.
Qed.

Lemma reass_spec ns (s : reass) B ext D p b l :
  let m := r_mem s in
  let h := read_bytes m (p_payload b) 20 in
  reass_inv s B (ext_add ext p) D -> routes_ok ns -> incoming (n_ps (r_net s)) p b l -> p <> NULL -> p :: l.*1 ## nodes (frags D) ->
  let f := frag_of (n_ps (r_net s)) p b l in
  let fin := Z.land (IPH_OFFSET m (p_payload b)) (PP_HTONS IP_MF) =? 0 in
  let k := S (length l) in
  exists q s' B' R D0 D' res out, ip4_reass ns s p = Ret (q, s')
    /\ reass_inv s' B' (match res with Some _ => ext_add ext q | None => ext end) D'
    /\ made_room h D R D0 /\ (R <> [] -> too_many D k \/ pool_full h D)
    /\ ((IPH_HL_BYTES m (p_payload b) <> 20 \/ too_many D0 k \/ pool_full h D /\ D0 = []) /\ D' = D0 /\ res = None
        \/ IPH_HL_BYTES m (p_payload b) = 20 /\ absorbs h f fin D0 D' res)
    /\ match res with Some d => delivered (n_ps (r_net s')) q d | None => q = NULL end
    /\ link_log (n_lk (r_net s')) = link_log (n_lk (r_net s)) ++ out /\ given_up ns (ext_add ext p) (r_net s) R out
    /\ rest_stay s s' ext D (p :: l.*1).
Proof.
  intros m h (HC & Hcn & Hfull) Hns Hin Hp Hap f fin k. assert (Hb : pbufs (n_ps (r_net s)) !! p = Some b) by (by destruct (in_chain _ _ _ _ Hin) as [(_ & ? & _) _]).
  assert (Hdrop : forall s1 B1 R D0 out, reass_core s1 B1 (ext_add ext p) D0 -> counted s1 D0 -> made_room h D R D0 -> link_log (n_lk (r_net s1)) = link_log (n_lk (r_net s)) ++ out -> others_stay s s1 (ext_add ext p) D ->
    exists s' B', null_return s1 p = Ret (NULL, s') /\ reass_inv s' B' ext D0 /\ link_log (n_lk (r_net s')) = link_log (n_lk (r_net s)) ++ out /\ rest_stay s s' ext D (p :: l.*1)).
  { intros s1 B1 R D0 out HC1 Hcn1 Hmr Hlog Hst. destruct (null_return_spec s1 B1 ext D0 p HC1 Hp) as (s' & B' & E & HC' & Ecnt & Hlog' & Hst'). exists s', B'. split; [done|]. split; [|split; [by rewrite Hlog'|]].
    - split; [done|]. split; [by eapply counted_frags|by eapply made_room_full].
    - intros g Hg1 Hg2 Hg3 Hg4. eapply keeps_trans; [apply Hst; [done|unfold ext_add; case_decide; lia|done]|]. apply Hst'; [done|done|]. intros x Hx Hx'. apply (made_room_apart _ _ _ _ [x] Hmr) with x; [|by left|done].
      intros y Hy Hy'. apply list_elem_of_singleton in Hy as ->. by apply (Hg3 x). }
  assert (Hep : (0 < ext_add ext p p)%nat) by (unfold ext_add; rewrite decide_True by done; lia).
  unfold ip4_reass. rewrite (payload_of_ok _ _ _ Hb). cbn [mbind outcome_bind]. cbn zeta. fold m. destruct (Z.eqb_spec (IPH_HL_BYTES m (p_payload b)) IP_HLEN) as [Hhl|Hhl]; cbn [negb].
  2:{ destruct (Hdrop s B [] D []) as (s' & B' & E & H1 & H2 & H3); [done|done|apply made_room_refl|by rewrite app_nil_r|intros g _ _ _; apply keeps_refl|].
      exists NULL, s', B', [], D, D, None, []. split; [done|]. split; [done|]. split; [apply made_room_refl|]. split; [done|]. split; [left; split; [by left|done]|]. do 2 (split; [done|]). split; [eexists; constructor|done]. }
  change IP_HLEN with 20 in Hhl. destruct (frag_of_end _ _ _ _ Hin) as [_ Htot]. rewrite Hhl. assert (Etl : lwip_htons (IPH_LEN m (p_payload b)) = p_tot_len b) by apply (in_total _ _ _ _ Hin). rewrite Etl. rewrite (proj2 (Z.ltb_ge _ 20)) by lia.
  rewrite (clen_spec _ _ _ (inv_not_null _ _ _ (proj1 (ri_net _ _ _ _ HC))) (in_chain _ _ _ _ Hin)) by (pose proof (in_clen _ _ _ _ Hin); cbn [length]; lia). cbn [mbind outcome_bind]. rewrite (u16_small (p_tot_len b - 20)) by (unfold_c; lia).
  change (Z.of_nat (length ((p, b) :: l))) with (Z.of_nat k).
  destruct (limit_spec ns s B (ext_add ext p) D p b l k HC Hcn Hfull Hns Hin Hp Hep Hap ltac:(unfold k; lia)) as (v & s1 & B1 & R & D0 & out & E1 & HC1 & Hcn1 & Hmr1 & HR1 & Hv & Hlog1 & Hex1 & Hst1).
  rewrite E1. cbn [mbind outcome_bind]. fold m h in Hmr1. assert (Hgu1 : given_up ns (ext_add ext p) (r_net s) R out) by (by eexists). destruct v.
  { destruct (Hdrop s1 B1 R D0 out HC1 Hcn1 Hmr1 Hlog1 Hst1) as (s' & B' & E & H1 & H2 & H3). exists NULL, s', B', R, D0, D0, None, out. split; [done|]. split; [done|]. split; [done|]. split; [intros HR; left; by apply HR1|].
    split; [left; split; [right; by left|done]|]. by split_and!. }
  destruct (nodes_apart_stay _ _ _ _ _ _ _ Hst1 Hin Hp Hep Hap) as (b1 & l1 & Hin1 & Eb1 & El1 & Ell1 & Er1 & Ef1). pose proof (made_room_apart _ _ _ _ _ Hmr1 Hap) as Hap1.
  destruct (header_fields _ _ _ Er1) as (_ & Fo & Fob & Fhl). fold m in Fo, Fob, Fhl, Er1. fold h in Er1. assert (Etl1 : p_tot_len b1 = p_tot_len b).
  { rewrite <- (in_total _ _ _ _ Hin1), Eb1. rewrite <- Etl. f_equal. change (IPH_LEN (r_mem s1) (p_payload b) = IPH_LEN m (p_payload b)). by destruct (header_fields _ _ _ (eq_trans Er1 (eq_refl : h = read_bytes m (p_payload b) 20))) as (? & _). }
  pose proof (made_room_full _ _ _ _ Hmr1 Hfull) as Hfull1.
  destruct (find_ipr_spec (ipr_fuel s1) s1 h (p_payload b) [] D0 (ri_list _ _ _ _ HC1) Er1) as [[Hoth Efind]|(D1 & d & D2 & ED & Hod & Ho1 & Efind)]; [pose proof (dlist_size _ _ (ri_list _ _ _ _ HC1)); unfold ipr_fuel; lia| |];
    rewrite (dseg_head _ _ _ (dl_seg _ _ (ri_list _ _ _ _ HC1))), Efind; cbn [mbind outcome_bind].
  - rewrite Z.eqb_refl. rewrite <- Eb1 in Er1. rewrite <- Eb1.
    destruct (enqueue_spec ns s1 B1 (ext_add ext p) D0 p b1 l1 k) as (ipr & s2 & B2 & R2 & D2 & out2 & E2 & Hcn2 & Hmr2 & Hlog2 & Hex2 & Hst2 & HR2 & Hcase); rewrite ?Er1, ?El1; try done; [by rewrite Eb1, Fhl|unfold k; lia|].
    rewrite E2. cbn [mbind outcome_bind]. rewrite Er1 in Hmr2, Hcase.
    assert (Hcap : (pool_cap <= length D0)%nat -> R = []).
    { intros Hc. pose proof (pool_holds_cap _ _ (dl_pool _ _ (ri_list _ _ _ _ HC))) as Hc0. rewrite length_fmap in Hc0. pose proof (Permutation_length (mr_perm _ _ _ _ Hmr1)) as Hl. rewrite length_app in Hl. destruct R; [done|cbn in Hl; lia]. }
    destruct (made_room_twice ns (ext_add ext p) _ _ _ h D R D0 R2 D2 out out2 Hmr1 Hmr2 Hex1 Hex2) as (Rt & Hmr & Hex & HRt).
    { destruct (decide (R2 = [])) as [|Hne]; [by right|left]. by apply Hcap, HR2. }
    assert (Hgu : given_up ns (ext_add ext p) (r_net s) Rt (out ++ out2)) by (by eexists).
    assert (Hneed : Rt <> [] -> too_many D k \/ pool_full h D).
    { destruct HRt as [->|[-> ED]]; [intros H; left; by apply HR1|]. subst D0. intros H. right. split; [done|by apply HR2]. }
    assert (Hlog : link_log (n_lk (r_net s2)) = link_log (n_lk (r_net s)) ++ out ++ out2) by (by rewrite Hlog2, Hlog1, app_assoc).
    assert (Hst : others_stay s s2 (ext_add ext p) D). { eapply others_stay_trans; [exact Hst1|exact Hst2|]. intros x Hx. rewrite (mr_perm _ _ _ _ Hmr1), frags_app, nodes_app. apply elem_of_app. by right. }
    destruct Hcase as [(-> & HC2 & -> & Hc)|(Hne & HC2)].
    + rewrite Z.eqb_refl. destruct (Hdrop s2 B2 Rt [] (out ++ out2) HC2 Hcn2 Hmr Hlog Hst) as (s' & B' & E & H1 & H2 & H3). rewrite E. exists NULL, s', B', Rt, [], [], None, (out ++ out2). split; [done|]. split; [done|]. split; [done|]. split; [done|].
      split; [|by split_and!]. left. split; [|done]. right. right. split; [|done]. pose proof (Hcap Hc) as ->. pose proof (made_room_nil _ _ _ Hmr1) as ->. done.
    + rewrite (proj2 (Z.eqb_neq ipr NULL)) by done. destruct (nodes_apart_stay _ _ _ _ _ _ _ Hst2 Hin1 Hp Hep ltac:(by rewrite El1)) as (b2 & l2 & Hin2 & Eb2 & El2 & Ell2 & Er2 & Ef2).
      destruct (header_fields _ _ _ Er2) as (Fl2 & Fo2 & Fob2 & Fhl2). rewrite Eb1 in *. pose proof (made_room_apart _ _ _ _ _ Hmr2 Hap1) as Hap2. pose proof (made_room_nodes _ _ _ _ Hmr2) as Hn2.
      destruct (add_spec s2 B2 ext [] (new_dgram ipr h) D2 p b2 l2 HC2) as (q & s' & B' & E & Hlog' & Hst' & Hres); rewrite ?Eb2, ?El2, ?El1, ?Ell2, ?Ell1; try done; [by eapply made_room_full|by rewrite Fhl2, Fhl|cbn [app]; change (frags (new_dgram ipr h :: D2)) with (frags D2); unfold k in Hv; lia|].
      assert (Etl2 : p_tot_len b2 = p_tot_len b). { rewrite <- Etl1, <- (in_total _ _ _ _ Hin2), <- (in_total _ _ _ _ Hin1), Eb2, Eb1. f_equal. exact Fl2. }
      rewrite Eb2, Ell2, Ell1, Etl2, Fob2, Fob in E. change (dg_a (new_dgram ipr h)) with ipr in E. cbn [dg_fs new_dgram app] in Hres. unfold placed in Hres. rewrite Ef2, Ef1 in Hres. fold f in Hres.
      assert (Hoth2 : Forall (λ e, other h e = true) D2) by (rewrite Forall_forall in Hoth |- *; intros d Hd; apply Hoth; eapply sublist_subseteq; [apply (mr_sub _ _ _ _ Hmr2)|done]).
      assert (Hst3 : rest_stay s s' ext D (p :: l.*1)).
      { rewrite El2, El1 in Hst'. eapply rest_stay_trans; [exact Hst|exact Hst'|]. intros ys Hy x Hx Hx'. apply (made_room_apart _ _ _ _ ys Hmr) with x; [|done|done]. intros z Hz Hz'. by apply (Hy z). }
      destruct (Z.ltb_spec 65515 (f_end f)) as [Hfar|Hnear].
      { destruct Hres as [-> Hinv]. exists NULL, s', B', Rt, D2, D2, None, (out ++ out2). split; [exact E|]. split; [exact Hinv|]. split; [done|]. split; [done|]. split; [|split; [done|split; [by rewrite Hlog'|split; [done|exact Hst3]]]].
        right. split; [done|]. by apply absorbs_far. }
      cbn [place] in Hres. pose proof (new_incomplete (n_ps (r_net s2)) p b2 l2 ipr h Hin2) as Hinc. cbv zeta in Hres. change (data (n_ps (r_net s2))) with (r_mem s2) in Hinc. rewrite Ef2, Ef1 in Hinc. fold f in Hinc.
      fold (new_dgram ipr h) in Hres. change (Dgram ipr h 0 0 IP_REASS_MAXAGE []) with (new_dgram ipr h) in Hres. cbn [app] in Hres. rewrite Hinc in Hres. destruct Hres as [-> Hinv]. rewrite Eb2, Fo2, Fo in Hinv. fold fin in Hinv.
      exists NULL, s', B', Rt, D2, (put f fin (new_dgram ipr h) [f] :: D2), None, (out ++ out2). split; [exact E|]. split; [done|]. split; [done|]. split; [done|]. split; [|split; [done|split; [by rewrite Hlog'|split; [done|exact Hst3]]]].
      right. split; [done|]. by apply absorbs_new.
  - subst D0. destruct (prev_of_spec _ _ _ _ (ri_list _ _ _ _ HC1)) as (_ & _ & Hdn). rewrite (proj2 (Z.eqb_neq _ _) Hdn).
    destruct (known_spec s1 B1 ext D1 d D2 p b1 l1) as (q & s' & B' & D' & res & E & Hinv & Habs & Hres & Hlog & Hst); try done; rewrite ?Eb1, ?Er1, ?El1, ?Ell1; try done; [by rewrite Fhl|].
    rewrite Eb1, Ell1, Etl1, Fob in E. rewrite Eb1, Fo in Habs. exists q, s', B', R, (D1 ++ d :: D2), D', res, out. split; [exact E|]. split; [done|]. split; [done|]. split; [intros HR; left; by apply HR1|]. rewrite Ef1, Er1 in Habs.
    split; [by right|]. split; [done|]. split; [by rewrite Hlog|]. split; [done|]. rewrite El1 in Hst. eapply rest_stay_trans; [exact Hst1|exact Hst|]. intros ys Hy x Hx Hx'. apply (made_room_apart _ _ _ _ ys Hmr1) with x; [|done|done]. intros z Hz Hz'. by apply (Hy z).
Qed.

(** A packet held once shares no pbuf with the queue. *)
Lemma packet_apart (s : reass) B ext D p b l :
  reass_core s B (ext_add ext p) D -> chain (n_ps (r_net s)) p ((p, b) :: l) -> Forall (λ x, p_ref x.2 = 1) ((p, b) :: l) -> p <> NULL /\ p :: l.*1 ## nodes (frags D).
Proof.
  intros HC Hc Hr. pose proof (proj1 (ri_net _ _ _ _ HC)) as HI. assert (Hb : pbufs (n_ps (r_net s)) !! p = Some b) by (by destruct Hc as [(_ & ? & _) _]).
  split; [intros ->; by rewrite (inv_not_null _ _ _ HI) in Hb|]. intros x Hx Hx'. unfold nodes in Hx'. apply list_elem_of_bind in Hx' as (g & Hx' & Hg).
  pose proof Hg as Hg'. unfold frags in Hg'. apply list_elem_of_bind in Hg' as (e & Hge & He). pose proof (ri_dgrams _ _ _ _ HC) as HD. rewrite Forall_forall in HD. destruct (fseg_elem _ _ _ _ _ (do_frags _ _ (HD e He)) Hge) as (ng & bg & lg & Hat).
  pose proof (hold_pos (ext_add ext p) g (frags D) Hg) as Hpos. apply Forall_cons in Hr as [Hrb Hrl]. destruct (inv_refs _ _ _ HI _ _ Hb) as [Href _]. cbn in Hrb.
  assert (Hne : p <> f_p g). { intros ->. pose proof (held_pos _ _ Hg). unfold hold, ext_add in Href. rewrite decide_True in Href by done. lia. }
  apply (once_apart _ _ _ p ((p, b) :: l) (f_p g) ((f_p g, bg) :: lg) HI Hc) with x; try done; [by constructor|unfold hold, ext_add; rewrite decide_True by done; lia|apply (fa_chain _ _ _ _ _ Hat)|lia|].
  cbn [fmap list_fmap fst]. by rewrite <- (fa_as _ _ _ _ _ Hat).
Qed.

Lemma incoming_apart (s : reass) B ext D p b l :
  reass_core s B (ext_add ext p) D -> incoming (n_ps (r_net s)) p b l -> Forall (λ x, p_ref x.2 = 1) ((p, b) :: l) -> p <> NULL /\ p :: l.*1 ## nodes (frags D).
Proof. intros HC Hin. by eapply packet_apart, in_chain. Qed.

Lemma reass_tmr_spec ns (s : reass) B ext D :
  reass_inv s B ext D -> routes_ok ns ->
  exists s' B' out, ip_reass_tmr ns s = Ret s' /\ reass_inv s' B' ext (tick D) /\ link_log (n_lk (r_net s')) = link_log (n_lk (r_net s)) ++ out /\ expiries ns ext (r_net s) (filter (λ d, ~ 0 < dg_timer d) D) (r_net s') out.
Proof.
  intros (HC & Hcn & Hf) Hns. pose proof (ri_list _ _ _ _ HC) as HL. destruct (reass_tmr_loop_spec (ipr_fuel s) ns s B ext [] D HC Hcn Hf Hns) as (s' & B' & out & E & H1 & H2 & H3 & H4 & _); [pose proof (dlist_size _ _ HL); unfold ipr_fuel; lia|].
  exists s', B', out. unfold ip_reass_tmr. rewrite (dseg_head _ _ _ (dl_seg _ _ HL)). split; [exact E|]. split; [|done]. split; [done|]. split; [done|by apply tick_full].
Qed.

(** [k] calls of the timer. *)
Fixpoint reass_tmr_times (k : nat) (ns : netifs) (s : reass) : outcome reass :=
  match k with O => Ret s | S k => s ← ip_reass_tmr ns s; reass_tmr_times k ns s end.

Lemma reass_tmr_times_spec (k : nat) ns (s : reass) B ext D :
  reass_inv s B ext D -> routes_ok ns -> exists s' B', reass_tmr_times k ns s = Ret s' /\ reass_inv s' B' ext (Nat.iter k tick D).
Proof.
  intros HI Hns. revert s B D HI. induction k as [|k IH]; intros s B D HI; [by exists s, B|]. destruct (reass_tmr_spec ns s B ext D HI Hns) as (s1 & B1 & out & E & H1 & _). cbn [reass_tmr_times]. rewrite E. cbn [mbind outcome_bind].
  destruct (IH s1 B1 (tick D) H1) as (s' & B' & E' & H'). exists s', B'. split; [done|]. by rewrite <- Nat.iter_succ_r in H'.
Qed.

Lemma tick_timers (k : nat) D : Forall (λ d, 0 <= dg_timer d < k) D -> Nat.iter k tick D = [].
Proof.
  revert D. induction k as [|k IH]; intros D H.
  - destruct D as [|d D]; [done|]. apply Forall_cons in H as [H _]. lia.
  - rewrite Nat.iter_succ_r. apply IH. unfold tick. apply Forall_fmap, Forall_forall. intros d Hd. apply list_elem_of_filter in Hd as [Ht Hd]. rewrite Forall_forall in H. specialize (H d Hd). cbn. lia.
Qed.

(** ** Lemmas: the queue of a state *)

Lemma fseg_det (s : pst) p fs fs' : pbufs s !! NULL = None -> fseg s p fs NULL -> fseg s p fs' NULL -> fs = fs'.
Proof.
  intros Hn. revert p fs'. induction fs as [|f fs IH]; intros p [|f' fs'] H H'; [done| | |].
  - cbn in H. subst p. destruct H' as (E & nxt & b & l & Hf & _). pose proof (frag_lookup _ _ _ _ _ Hf) as Hb. rewrite <- E in Hb. congruence.
  - cbn in H'. subst p. destruct H as (E & nxt & b & l & Hf & _). pose proof (frag_lookup _ _ _ _ _ Hf) as Hb. rewrite <- E in Hb. congruence.
  - destruct H as (-> & nxt & b & l & Hf & Hs). destruct H' as (E & nxt' & b' & l' & Hf' & Hs').
    assert (El : (f_p f, b) :: l = (f_p f', b') :: l') by (eapply seg_null_unique; [exact Hn|apply (proj1 (fa_chain _ _ _ _ _ Hf))|rewrite E; apply (proj1 (fa_chain _ _ _ _ _ Hf'))]). injection El as _ <- <-.
    assert (Ef : f = f').
    { pose proof (fa_as _ _ _ _ _ Hf) as A. pose proof (fa_as _ _ _ _ _ Hf') as A'. pose proof (fa_start _ _ _ _ _ Hf) as S. pose proof (fa_start _ _ _ _ _ Hf') as S'. pose proof (fa_data _ _ _ _ _ Hf) as C. pose proof (fa_data _ _ _ _ _ Hf') as C'.
      rewrite <- E in *. destruct f, f'. cbn in *. congruence. }
    subst f'. assert (nxt = nxt') as -> by (rewrite <- (fa_next _ _ _ _ _ Hf); apply (fa_next _ _ _ _ _ Hf')). f_equal. by eapply IH.
Qed.

Lemma dseg_det (s : pst) m p D D' :
  pbufs s !! NULL = None -> m !! NULL = None -> dseg m p D NULL -> dseg m p D' NULL -> Forall (dgram_ok s) D -> Forall (dgram_ok s) D' -> D = D'.
Proof.
  intros Hn Hm. revert p D'. induction D as [|d D IH]; intros p [|d' D'] H H' HD HD'; [done| | |].
  - cbn in H. subst p. destruct H' as (_ & nxt & Hx & _). congruence.
  - cbn in H'. subst p. destruct H as (_ & nxt & Hx & _). congruence.
  - destruct H as (-> & nxt & Hx & Hs). destruct H' as (E & nxt' & Hx' & Hs'). rewrite Hx in Hx'. injection Hx' as -> Ep Eh El Ef Et. apply Forall_cons in HD as [Hd HD]. apply Forall_cons in HD' as [Hd' HD'].
    pose proof (do_frags _ _ Hd) as F. pose proof (do_frags _ _ Hd') as F'. rewrite <- Ep in F'. pose proof (fseg_det _ _ _ _ Hn F F') as Efs. f_equal; [destruct d, d'; cbn in *; congruence|by eapply IH].
Qed.

Definition queue (s : reass) (D : list dgram) : Prop := exists B ext, reass_inv s B ext D.

Lemma queue_unique (s : reass) D D' : queue s D -> queue s D' -> D = D'.
Proof.
  intros (B & ext & HC & _) (B' & ext' & HC' & _). eapply (dseg_det (n_ps (r_net s)) (r_data s)); [eapply inv_not_null; apply (proj1 (ri_net _ _ _ _ HC))| |apply (dl_seg _ _ (ri_list _ _ _ _ HC))|apply (dl_seg _ _ (ri_list _ _ _ _ HC'))|apply HC|apply HC'].
  destruct (r_data s !! NULL) as [r|] eqn:E; [|done]. exfalso. pose proof (ri_list _ _ _ _ HC) as HL. assert (Hin : NULL ∈ dg_a <$> D) by (apply (dl_dom _ _ HL); by exists r).
  pose proof (pool_holds_pos _ _ (dl_pool _ _ HL)) as Hp. rewrite Forall_forall in Hp. specialize (Hp _ Hin). unfold NULL in Hp. lia.
Qed.

End Facts.
