(* ===== verification/ReassSpec.v ===== *)
(** * Reassembly: properties

    ip4_reass and ip_reass_tmr against their specification, and that the fragments of a
    datagram give the datagram in whatever order they come. *)

From stdpp Require Import sorting.
From S2P Require Import Prelude Def ListSeg InetChksum Ip4Addr Mem Memp Pbuf PbufMem PbufRef PbufChain PbufData Header Ip4 Ip4Frag Icmp IcmpSpec Reass ReassQueue ReassFree ReassStep.

#[local] Open Scope Z_scope.
#[local] Coercion Z.of_nat : nat >-> Z.

(** ** Specification: the pieces of a datagram *)

(** The data at an offset; the pieces [ps] cover everything from [e] on, and all start at
    a multiple of 8. *)
Definition piece : Type := Z * list Z.

Fixpoint tiles (e : Z) (ps : list piece) : Prop :=
  match ps with
  | [] => True
  | (o, d) :: r => o = e /\ o mod 8 = 0 /\ d <> [] /\ tiles (e + length d) r
  end.

Definition payload (ps : list piece) : list Z := concat ps.*2.

(** The packet [c] with the piece [x] of a datagram with the header [h] and [L] bytes. *)
Definition carries (h : list Z) (L : Z) (x : piece) (c : list Z) : Prop :=
  exists chk, c = frag_header h (20 + length x.2) (x.1 / 8 + if x.1 + length x.2 =? L then 0 else 8192) chk ++ x.2.

Definition key (f : frag) : piece := (f_start f, f_data f).

(** ** Lemmas: pieces *)

Definition behind (x y : piece) : Prop := x.1 + length x.2 <= y.1 /\ x.1 < y.1.

#[local] Instance behind_antisymm : AntiSymm (=) behind.
Proof. intros x y [_ H1] [_ H2]. lia. Qed.

Lemma tiles_bounds e ps : tiles e ps -> Forall (λ x, e <= x.1 /\ x.2 <> [] /\ x.1 mod 8 = 0 /\ x.1 + length x.2 <= e + length (payload ps)) ps.
Proof.
  revert e. induction ps as [|[o d] ps IH]; intros e H; [constructor|]. destruct H as (-> & H8 & Hd & H). unfold payload in *. cbn [fmap list_fmap snd concat]. rewrite length_app. constructor; [cbn; split_and!; try done; lia|].
  eapply Forall_impl; [exact (IH _ H)|]. cbn. intros x (H1 & H2 & H3 & H4). split_and!; try done; lia.
Qed.

Lemma tiles_sorted e ps : tiles e ps -> StronglySorted behind ps.
Proof.
  revert e. induction ps as [|[o d] ps IH]; intros e H; [constructor|]. destruct H as (-> & _ & Hd & H). constructor; [by eapply IH|]. eapply Forall_impl; [exact (tiles_bounds _ _ H)|].
  intros x (H1 & _). assert (0 < length d)%nat by (destruct d; [done|cbn; lia]). unfold behind. cbn. lia.
Qed.

Lemma ordered_sorted fs : ordered fs -> StronglySorted behind (key <$> fs).
Proof.
  induction fs as [|f fs IH]; intros H; [constructor|]. cbn. constructor; [by apply IH, (ordered_cons f)|]. apply Forall_fmap. eapply Forall_impl; [exact (ordered_head _ _ H)|]. intros g Hg. exact Hg.
Qed.

(** When every piece is there they are in order. *)
Lemma all_there fs ps : ordered fs -> tiles 0 ps -> key <$> fs ≡ₚ ps -> key <$> fs = ps.
Proof. intros Ho Ht Hp. eapply (StronglySorted_unique behind); [by apply ordered_sorted|by eapply tiles_sorted|done]. Qed.

Lemma tiles_links e f fs : tiles e (key <$> f :: fs) -> f_start f = e /\ links (f :: fs) = true.
Proof.
  revert e f. induction fs as [|g fs IH]; intros e f (H1 & H2 & H3 & H4); [done|]. split; [done|]. destruct (IH _ _ H4) as [E1 E2]. change (links (f :: g :: fs)) with ((f_end f =? f_start g) && links (g :: fs)). rewrite E2, andb_true_r. apply Z.eqb_eq. unfold f_end. rewrite E1. lia.
Qed.

Lemma frag_bytes_keys fs : frag_bytes fs = payload (key <$> fs).
Proof. unfold frag_bytes, payload. rewrite <- list_fmap_compose. done. Qed.

Lemma payload_perm a b : a ≡ₚ b -> length (payload a) = length (payload b).
Proof. unfold payload. induction 1; cbn; rewrite ?length_app; lia. Qed.

Lemma payload_app a b : payload (a ++ b) = payload a ++ payload b.
Proof. unfold payload. by rewrite fmap_app, concat_app. Qed.

Lemma all_whole fs ps : ordered fs -> tiles 0 ps -> key <$> fs ≡ₚ ps -> ps <> [] -> whole fs = true /\ frag_bytes fs = payload ps.
Proof.
  intros Ho Ht Hp Hne. pose proof (all_there _ _ Ho Ht Hp) as E. rewrite frag_bytes_keys, E. split; [|done]. rewrite <- E in Ht, Hne. destruct fs as [|f fs]; [done|]. destruct (tiles_links _ _ _ Ht) as [E1 E2]. unfold whole. by rewrite E1, E2.
Qed.

Lemma ordered_last fs e g : ordered fs -> last fs = Some e -> g ∈ fs -> f_end g <= f_end e.
Proof.
  revert g. induction fs as [|f fs IH]; intros g Ho Hl Hg; [done|]. destruct fs as [|f1 fs]; [injection Hl as ->; apply list_elem_of_singleton in Hg as ->; done|].
  pose proof (ordered_cons _ _ Ho) as Ho'. change (last (f :: f1 :: fs)) with (last (f1 :: fs)) in Hl. apply elem_of_cons in Hg as [->|Hg]; [|by apply IH]. destruct Ho as (H1 & _). pose proof (IH f1 Ho' Hl ltac:(by left)). assert (f_start f1 <= f_end f1) by (unfold f_end; lia). lia.
Qed.

(** Only then is the datagram whole, when the last piece is there. *)
Lemma whole_all fs ps R : ordered fs -> tiles 0 ps -> (key <$> fs) ++ R ≡ₚ ps -> whole fs = true -> (exists g, g ∈ fs /\ f_end g = length (payload ps)) -> R = [].
Proof.
  intros Ho Ht Hp Hw (g & Hg & Eg). destruct fs as [|f fs]; [by apply not_elem_of_nil in Hg|]. unfold whole in Hw. apply andb_true_iff in Hw as [H0 Hk]. bool_to_prop.
  destruct (last (f :: fs)) as [e|] eqn:El; [|by apply last_None in El]. pose proof (links_length _ _ _ El Hk) as E. pose proof (ordered_last _ _ _ Ho El Hg). pose proof (payload_perm _ _ Hp) as Hlp. rewrite payload_app, length_app, <- frag_bytes_keys in Hlp.
  destruct R as [|x R]; [done|]. pose proof (tiles_bounds _ _ Ht) as Hb. rewrite <- Hp in Hb. apply Forall_app in Hb as [_ Hb]. apply Forall_cons in Hb as [(_ & Hx & _) _].
  change (payload (x :: R)) with (x.2 ++ payload R) in Hlp. rewrite length_app in Hlp. assert (0 < length x.2)%nat by (destruct x.2; [done|cbn; lia]). lia.
Qed.

(** A piece that is not there yet has a place. *)
Lemma place_some f fs : Forall (λ g, behind (key f) (key g) \/ behind (key g) (key f)) fs -> exists a c, place f fs = Some (a, c).
Proof.
  induction fs as [|g fs IH]; intros H; [by exists [], []|]. apply Forall_cons in H as [Hg H]. cbn [place]. unfold behind, key in Hg. cbn [fst snd] in Hg. destruct Hg as [[H1 H2]|[H1 H2]].
  - rewrite (proj2 (Z.ltb_lt _ _) H2). rewrite (proj2 (Z.ltb_ge (f_start g) (f_end f))) by (unfold f_end; lia). by eexists _, _.
  - rewrite (proj2 (Z.ltb_ge _ _)) by lia. rewrite (proj2 (Z.eqb_neq _ _)) by lia. rewrite (proj2 (Z.ltb_ge (f_start f) (f_end g))) by (unfold f_end; lia). destruct (IH H) as (a & c & ->). by exists (g :: a), c.
Qed.

Lemma tiles_behind e ps K x R : tiles e ps -> K ++ x :: R ≡ₚ ps -> Forall (λ y, behind x y \/ behind y x) K.
Proof.
  intros Ht Hp. apply tiles_sorted in Ht. assert (Hps : exists A C, ps = A ++ x :: C /\ A ++ C ≡ₚ K ++ R).
  { assert (Hx : x ∈ ps) by (rewrite <- Hp; apply elem_of_app; right; by left). apply list_elem_of_split in Hx as (A & C & ->). exists A, C. split; [done|]. rewrite <- Permutation_middle in Hp. rewrite <- (Permutation_middle A C x) in Hp. by apply Permutation_cons_inv in Hp. }
  destruct Hps as (A & C & -> & Hac). apply Forall_forall. intros y Hy. assert (Hy' : y ∈ A ++ C) by (rewrite Hac; apply elem_of_app; by left). apply elem_of_app in Hy' as [Hy'|Hy'].
  - right. eapply (StronglySorted_app_1_elem_of behind A (x :: C)); [done|done|by left].
  - left. apply StronglySorted_app_1_r, StronglySorted_cons in Ht as [Ht _]. rewrite Forall_forall in Ht. by apply Ht.
Qed.

(** ** Lemmas: headers *)

Lemma frag_header_fields h len off chk :
  length h = 20%nat -> let fh := frag_header h len off chk in
  take 1 fh = take 1 h /\ le_val (take 2 (drop 6 fh)) = off / 256 + 256 * (off mod 256) /\ forall x, same_datagram x fh = same_datagram x h.
Proof.
  intros HL fh. unfold fh. clear fh. explode 20 h HL. unfold frag_header. splices. split; [done|]. split; [cbn; lia|]. intros x. done.
Qed.

Lemma frag_header_again h len off chk len' off' chk' : length h = 20%nat -> frag_header (frag_header h len off chk) len' off' chk' = frag_header h len' off' chk'.
Proof. intros HL. explode 20 h HL. unfold frag_header. splices. done. Qed.

Lemma land_bit x k : 0 <= k -> (Z.land x (2 ^ k) =? 0) = negb (Z.testbit x k).
Proof.
  intros Hk. destruct (Z.testbit x k) eqn:E; cbn [negb].
  - apply Z.eqb_neq. intros H. apply (f_equal (λ z, Z.testbit z k)) in H. rewrite Z.land_spec, E, Z.pow2_bits_true, Z.bits_0 in H by done. done.
  - apply Z.eqb_eq. apply Z.bits_inj'. intros n Hn. rewrite Z.land_spec, Z.bits_0, Z.pow2_bits_eqb by done. destruct (Z.eqb_spec k n) as [<-|]; [by rewrite E|by rewrite andb_false_r].
Qed.

Section Order.
Context `{MO : MemOptions} {MOk : MemOptionsOk} `{PO : PbufOptions} {POk : PbufOptionsOk} {St : Type} `{!PacketMemory St} {Lk : Type} `{LL : !LinkLayer Lk St} {Pl : Type} `{EP : !ElementPool Pl}.
Abbreviation reass := (reass (St := St) (Lk := Lk) (Pl := Pl)).
Abbreviation pst := (pstate (St := St)).

(** What the code reads of a packet that carries a piece. *)
Lemma carries_fields (s : pst) p b l h L x :
  incoming s p b l -> carries h L x (contents (data s) ((p, b) :: l)) -> length h = 20%nat -> take 1 h = [0x45] -> x.1 mod 8 = 0 -> 0 <= x.1 -> x.1 + length x.2 <= 65515 ->
  IPH_HL_BYTES (data s) (p_payload b) = 20 /\ key (frag_of s p b l) = x
  /\ (Z.land (IPH_OFFSET (data s) (p_payload b)) (PP_HTONS IP_MF) =? 0) = (x.1 + length x.2 =? L)
  /\ exists u v w, read_bytes (data s) (p_payload b) 20 = frag_header h u v w.
Proof.
  intros Hin (chk & Ec) Hh H45 H8 H0 Hmax. set (mf := if x.1 + length x.2 =? L then 0 else 8192) in *. set (fh := frag_header h (20 + length x.2) (x.1 / 8 + mf) chk) in *.
  assert (Hfh : length fh = 20%nat) by (by apply frag_header_length). pose proof (in_len _ _ _ _ Hin) as Hlen. destruct (frag_header_fields h (20 + length x.2) (x.1 / 8 + mf) chk Hh) as (F1 & F2 & _). fold fh in F1, F2.
  assert (Er : read_bytes (data s) (p_payload b) 20 = fh) by (rewrite (read_contents s p b l 20), Ec by lia; by rewrite take_app_length').
  assert (Hmf : mf = 0 \/ mf = 8192) by (unfold mf; case_match; [by left|by right]). assert (Hu : is_u16 (x.1 / 8 + mf) /\ 0 <= x.1 / 8 < 8192) by (unfold_c; Z.div_mod_to_equations; lia).
  assert (Eo : IPH_OFFSET (data s) (p_payload b) = (x.1 / 8 + mf) / 256 + 256 * ((x.1 / 8 + mf) mod 256)) by (unfold IPH_OFFSET; by rewrite (load_at _ _ 6 2 20), Er by lia).
  assert (Eh : lwip_htons (IPH_OFFSET (data s) (p_payload b)) = x.1 / 8 + mf).
  { rewrite Eo. unfold lwip_htons. rewrite PP_HTONS_arith by (unfold_c; Z.div_mod_to_equations; lia). unfold is_u16 in Hu. Z.div_mod_to_equations. lia. }
  assert (Eob : IPH_OFFSET_BYTES (data s) (p_payload b) = x.1).
  { unfold IPH_OFFSET_BYTES. rewrite Eh, Z.land_comm, land_offmask. rewrite u16_small; unfold_c; Z.div_mod_to_equations; lia. }
  split_and!.
  - unfold IPH_HL_BYTES, IPH_HL, iph_vhl. rewrite (load_0 _ _ 1 20), Er, F1, H45 by lia. done.
  - unfold key, frag_of. cbn [f_start f_data]. rewrite Eob, Ec, drop_app_length' by done. by destruct x.
  - change (PP_HTONS IP_MF) with (2 ^ 5). rewrite land_bit, Eo, Z.testbit_odd, Z.shiftr_div_pow2 by lia. change (2 ^ 5) with 32. rewrite Zodd_mod. unfold mf in *. unfold is_u16 in Hu. clear -Hu Hmf.
    destruct (x.1 + length x.2 =? L); [replace (_ mod 2) with 0 by (Z.div_mod_to_equations; lia); done|replace (_ mod 2) with 1 by (Z.div_mod_to_equations; lia); done].
  - eexists _, _, _. exact Er.
Qed.

(** ** Lemmas: a datagram that is not complete *)

(** The datagram [d] has the pieces [K] of a datagram with the header [h] and the pieces
    [ps]. *)
Record partial (h : list Z) (ps K : list piece) (d : dgram) : Prop := Partial {
  pt_keys : key <$> dg_fs d ≡ₚ K;
  pt_order : ordered (dg_fs d);
  pt_hdr : exists u v w, dg_hdr d = frag_header h u v w;
  pt_last : Z.land (dg_flags d) IP_REASS_FLAG_LASTFRAG <> 0 <-> exists x, x ∈ K /\ x.1 + length x.2 = length (payload ps);
  pt_len : (exists x, x ∈ K /\ x.1 + length x.2 = length (payload ps)) -> dg_len d = length (payload ps)
}.

Lemma same_datagram_refl h : same_datagram h h = true.
Proof. unfold same_datagram. by rewrite !Z.eqb_refl. Qed.

Lemma same_datagram_comm x y : same_datagram x y = same_datagram y x.
Proof. unfold same_datagram. f_equal; [f_equal|]; apply Z.eqb_sym. Qed.

Lemma other_header h u v w d : length h = 20%nat -> other (frag_header h u v w) d = other h d.
Proof. intros HL. unfold other. by destruct (frag_header_fields h u v w HL) as (_ & _ & ->). Qed.

Lemma partial_same h ps K d : length h = 20%nat -> partial h ps K d -> other h d = false.
Proof.
  intros HL [_ _ (u & v & w & E) _ _]. unfold other. rewrite E, same_datagram_comm. destruct (frag_header_fields h u v w HL) as (_ & _ & ->). by rewrite same_datagram_refl.
Qed.

Lemma others_header h u v w D : length h = 20%nat -> Forall (λ e, other (frag_header h u v w) e = true) D <-> Forall (λ e, other h e = true) D.
Proof. intros HL. rewrite !Forall_forall. setoid_rewrite (other_header h u v w _ HL). done. Qed.

Lemma absorbs_first h u v w f D D' res ps :
  length h = 20%nat -> f_end f <= 65515 -> Forall (λ e, other h e = true) D -> absorbs (frag_header h u v w) f (f_end f =? length (payload ps)) D D' res ->
  exists d, D' = d :: D /\ res = None /\ partial h ps [key f] d.
Proof.
  intros HL Hnear Ho Ha. apply (others_header h u v w) in Ho; [|done]. assert (Hc : forall D1 d D2, D = D1 ++ d :: D2 -> other (frag_header h u v w) d = false -> False).
  { intros D1 d D2 -> Hd. apply Forall_app in Ho as [_ Ho]. apply Forall_cons in Ho as [Ho _]. congruence. }
  inversion Ha as [D1 d D2 Hd _ _ E1 E2 E3|D1 d D2 a c Hd _ _ d' E1 E2 E3|D0 e _ _ E1 E2 E3|D0 _ Hfar E1 E2 E3]; subst; [by destruct (Hc D1 d D2)|by destruct (Hc D1 d D2)| |lia].
  eexists. split; [done|]. split; [done|]. split; cbn [dg_fs dg_hdr dg_flags dg_len put new_dgram]; try done; [by eexists _, _, _| |].
  - destruct (Z.eqb_spec (f_end f) (length (payload ps))) as [E|E]; split; try done.
    + intros _. exists (key f). split; [by left|done].
    + intros (x & Hx & Ex). apply list_elem_of_singleton in Hx as ->. by destruct E.
  - intros (x & Hx & Ex). apply list_elem_of_singleton in Hx as ->. change (f_end f = length (payload ps)) in Ex. rewrite (proj2 (Z.eqb_eq _ _) Ex). exact Ex.
Qed.

Lemma tiles_last e ps : tiles e ps -> ps <> [] -> exists x, x ∈ ps /\ x.1 + length x.2 = e + length (payload ps).
Proof.
  revert e. induction ps as [|[o d] ps IH]; intros e H Hne; [done|]. destruct H as (-> & _ & _ & H). change (payload ((e, d) :: ps)) with (d ++ payload ps). rewrite length_app. destruct ps as [|y ps]; [exists (e, d); split; [by left|cbn; lia]|].
  destruct (IH _ H ltac:(done)) as (x & Hx & Ex). exists x. split; [by right|lia].
Qed.

(** One more piece. *)
Lemma partial_put h hd ps K d f a c :
  partial h ps K d -> (exists u v w, hd = frag_header h u v w) -> place f (dg_fs d) = Some (a, c) -> length h = 20%nat ->
  partial h ps (key f :: K) (put f (f_end f =? length (payload ps)) (adopt hd d) (a ++ f :: c)).
Proof.
  intros [H1 H2 H3 H4 H5] Hhd Hp HL. pose proof (place_app _ _ _ _ Hp) as Ea. assert (Ead : dg_flags (adopt hd d) = dg_flags d /\ dg_len (adopt hd d) = dg_len d) by (unfold adopt; by case_match). destruct Ead as [Ead1 Ead2].
  split; cbn [dg_fs dg_hdr dg_flags dg_len put]; rewrite ?Ead1, ?Ead2.
  - rewrite fmap_app, fmap_cons, <- Permutation_middle, <- fmap_app, <- Ea. by constructor.
  - by eapply place_ordered.
  - unfold adopt. case_match; [exact Hhd|done].
  - destruct (Z.eqb_spec (f_end f) (length (payload ps))) as [E|E]; [split; [intros _; exists (key f); split; [by left|done]|intros _; apply last_flag]|]. rewrite H4. split; intros (x & Hx & Ex).
    + exists x. split; [by right|done].
    + apply elem_of_cons in Hx as [->|Hx]; [by destruct E|by exists x].
  - intros (x & Hx & Ex). destruct (Z.eqb_spec (f_end f) (length (payload ps))) as [E|E]; [done|]. apply elem_of_cons in Hx as [->|Hx]; [by destruct E|]. apply H5. by exists x.
Qed.

Lemma partial_complete h ps K R d : partial h ps K d -> tiles 0 ps -> ps <> [] -> K ++ R ≡ₚ ps -> complete d = bool_decide (R = []).
Proof.
  intros [H1 H2 H3 H4 H5] Ht Hne Hp. unfold complete. case_bool_decide as HR.
  - subst R. rewrite app_nil_r in Hp. destruct (all_whole (dg_fs d) ps H2 Ht) as [-> _]; [by rewrite H1|done|]. rewrite andb_true_r. apply negb_true_iff, Z.eqb_neq, H4. destruct (tiles_last _ _ Ht Hne) as (x & Hx & Ex). exists x. split; [by rewrite Hp|done].
  - apply andb_false_iff. destruct (Z.eqb_spec (Z.land (dg_flags d) IP_REASS_FLAG_LASTFRAG) 0) as [E|E]; [by left|right]. destruct (whole (dg_fs d)) eqn:Ew; [|done]. destruct HR. apply (whole_all (dg_fs d) ps R H2 Ht); [by rewrite H1|done|].
    apply H4 in E as (x & Hx & Ex). rewrite <- H1 in Hx. apply list_elem_of_fmap in Hx as (g & -> & Hg). by exists g.
Qed.

Lemma absorbs_more h hd f D d D' res ps K R :
  length h = 20%nat -> f_end f <= 65515 -> (exists u v w, hd = frag_header h u v w) -> partial h ps K d -> tiles 0 ps -> K ++ key f :: R ≡ₚ ps -> Forall (λ e, other h e = true) D ->
  absorbs hd f (f_end f =? length (payload ps)) (d :: D) D' res ->
  exists d', partial h ps (key f :: K) d' /\ (D', res) = if decide (R = []) then (D, Some d') else (d' :: D, None).
Proof.
  intros HL Hnear Hhd Hpt Ht Hp Ho Ha. pose proof (partial_same _ _ _ _ HL Hpt) as Hd. assert (Hoh : forall e, other hd e = other h e) by (intros e; destruct Hhd as (u & v & w & ->); by apply other_header).
  assert (Hsplit : forall D1 e D2, d :: D = D1 ++ e :: D2 -> Forall (λ e, other hd e = true) D1 -> D1 = [] /\ e = d /\ D2 = D).
  { intros D1 e D2 E HF. destruct D1 as [|g D1]; [by injection E as -> ->|]. injection E as <- _. apply Forall_cons in HF as [HF _]. rewrite Hoh in HF. congruence. }
  destruct (place_some f (dg_fs d)) as (a0 & c0 & Epl).
  { pose proof (tiles_behind _ _ _ _ _ Ht Hp) as Hb. rewrite <- (pt_keys _ _ _ _ Hpt) in Hb. by apply Forall_fmap in Hb. }
  inversion Ha as [D1 e D2 _ HF Hpl E1 E2 E3|D1 e D2 a c _ HF Hpl d' E1 E2 E3|D0 e HF _ E1 E2 E3|D0 _ Hfar E1 E2 E3]; subst; [..|lia]; try rewrite placed_near in Hpl by done.
  - destruct (Hsplit D1 e D2) as (-> & -> & ->); [done|done|]. congruence.
  - destruct (Hsplit D1 e D2) as (-> & -> & ->); [done|done|]. pose proof (partial_put _ _ _ _ _ _ _ _ Hpt Hhd Hpl HL) as Hpt'. fold d' in Hpt'. exists d'. split; [done|]. cbn [app].
    assert (Hps : ps <> []) by (intros ->; by apply Permutation_nil_r in Hp; destruct K). assert (Hp' : (key f :: K) ++ R ≡ₚ ps) by (rewrite <- Hp; by rewrite <- Permutation_middle).
    rewrite (partial_complete h ps _ R d' Hpt' Ht Hps Hp'). destruct (decide (R = [])) as [->|HR]; [by rewrite bool_decide_true|by rewrite bool_decide_false].
  - apply Forall_cons in HF as [HF _]. rewrite Hoh in HF. congruence.
Qed.

(** ** Packets that arrive *)

(** Packets with the bytes and the number of pbufs of the list come one after the other,
    and ip4_reass returns the pointers [qs].  In between the rest of the system may do
    what it likes, as long as it leaves the queue alone. *)
Inductive arrivals (ns : netifs) : reass -> list (list Z * nat) -> list Z -> reass -> Prop :=
| arrivals_nil s : arrivals ns s [] [] s
| arrivals_cons s s1 s2 s3 B ext D p b l cs q qs :
    queue s D -> reass_inv s1 B (ext_add ext p) D -> incoming (n_ps (r_net s1)) p b l -> Forall (λ x, p_ref x.2 = 1) ((p, b) :: l) ->
    ip4_reass ns s1 p = Ret (q, s2) -> arrivals ns s2 cs qs s3 ->
    arrivals ns s ((contents (r_mem s1) ((p, b) :: l), S (length l)) :: cs) (q :: qs) s3.

Lemma absorbs_nodes h f fin D D' res : absorbs h f fin D D' res -> (length (nodes (frags D')) <= length (nodes (frags D)) + length (f_as f))%nat.
Proof.
  intros [D1 d D2 _ _ _|D1 d D2 a c _ _ Hp d'|D0 e _ _|D0 _ _]; [..|lia].
  - assert (Ef : dg_fs (adopt h d) = dg_fs d) by (unfold adopt; by case_match). rewrite !frags_app, !frags_cons, Ef. lia.
  - apply placed_place in Hp. pose proof (place_app _ _ _ _ Hp) as Ea. assert (Hd' : length (nodes (dg_fs d')) = (length (nodes (dg_fs d)) + length (f_as f))%nat) by (cbn [dg_fs d' put]; rewrite Ea, !nodes_app, nodes_cons, !length_app; lia).
    destruct (complete d'); rewrite !frags_middle || rewrite (frags_middle D1 d D2); rewrite ?frags_middle, !nodes_app, !length_app; lia.
  - rewrite frags_cons, nodes_app, length_app. cbn [dg_fs put new_dgram]. rewrite nodes_cons, length_app. cbn. lia.
Qed.

(** The queue with what has come of a datagram. *)
Definition waiting (h : list Z) (ps K : list piece) (D Q : list dgram) : Prop :=
  (K = [] /\ Q = D /\ (length D < pool_cap)%nat) \/ exists d, Q = d :: D /\ partial h ps K d /\ K <> [].

(** One packet, when there is room for it. *)
Lemma arrival_step ns (s s' : reass) B ext D Q p b l h ps K x R q :
  reass_inv s B (ext_add ext p) Q -> routes_ok ns -> incoming (n_ps (r_net s)) p b l -> Forall (λ x, p_ref x.2 = 1) ((p, b) :: l) -> ip4_reass ns s p = Ret (q, s') ->
  length h = 20%nat -> take 1 h = [0x45] -> tiles 0 ps -> length (payload ps) <= 65515 -> Forall (λ e, other h e = true) D -> waiting h ps K D Q -> K ++ x :: R ≡ₚ ps ->
  carries h (length (payload ps)) x (contents (r_mem s) ((p, b) :: l)) -> length (nodes (frags Q)) + S (length l) <= IP_REASS_MAX_PBUFS ->
  (exists d, R <> [] /\ q = NULL /\ partial h ps (x :: K) d /\ queue s' (d :: D) /\ (length (nodes (frags (d :: D))) <= length (nodes (frags Q)) + S (length l))%nat)
  \/ (exists d, R = [] /\ partial h ps (x :: K) d /\ queue s' D /\ delivered (n_ps (r_net s')) q d).
Proof.
  intros Hinv Hns Hin Hr E HL H45 Ht Hmax Ho Hw Hp Hcar Hroom. destruct (incoming_apart _ _ _ _ _ _ _ (proj1 Hinv) Hin Hr) as [Hpn Hap].
  pose proof (tiles_bounds _ _ Ht) as Hb. rewrite <- Hp in Hb. apply Forall_app in Hb as [_ Hb]. apply Forall_cons in Hb as [(Hx0 & Hxd & Hx8 & Hxe) _].
  destruct (carries_fields _ _ _ _ _ _ _ Hin Hcar HL H45 Hx8 Hx0 ltac:(lia)) as (Fhl & Fk & Ffin & (u & v & w & Fh)).
  destruct (reass_spec ns s B ext Q p b l Hinv Hns Hin Hpn Hap) as (q0 & s0 & B' & R0 & D0 & D' & res & out & E0 & Hinv' & Hmr & HR0 & Habs & Hres & _). rewrite E in E0. injection E0 as <- <-.
  unfold r_mem in *. rewrite Fh, Ffin in *. set (f := frag_of _ p b l) in *. replace (x.1 + length x.2) with (f_end f) in Habs, Ffin by (rewrite <- Fk; done).
  assert (Hnf : ~ pool_full (frag_header h u v w) Q).
  { intros [Hf1 Hf2]. destruct Hw as [(-> & -> & Hw)|(d & -> & Hpt & _)]; [lia|]. apply Forall_cons in Hf1 as [Hf1 _]. rewrite (other_header h u v w _ HL), (partial_same _ _ _ _ HL Hpt) in Hf1. done. }
  assert (R0 = []) as ->. { destruct (decide (R0 = [])) as [|Hne]; [done|]. destruct (HR0 Hne) as [H|H]; [unfold too_many in H; lia|done]. }
  pose proof (made_room_nil _ _ _ Hmr) as ->. destruct Habs as [[[H|[H|[H _]]] _]|[_ Habs]]; [done|unfold too_many in H; lia|done|]. pose proof (absorbs_nodes _ _ _ _ _ _ Habs) as Hn.
  assert (Hnear : f_end f <= 65515) by (unfold f_end; change (f_start f) with (key f).1; change (f_data f) with (key f).2; rewrite Fk; lia).
  assert (Hfa : length (f_as f) = S (length l)) by (cbn; by rewrite length_fmap). rewrite Hfa in Hn. destruct Hw as [(-> & -> & Hw)|(d & -> & Hpt & HK)].
  - destruct (absorbs_first _ _ _ _ _ _ _ _ _ HL Hnear Ho Habs) as (d & -> & -> & Hpt). rewrite Fk in Hpt. left. exists d. split_and!; try done; [|by eexists _, _]. intros ->.
    destruct ps as [|[o y] [|z ps]]; [by apply Permutation_nil_r in Hp| |by apply Permutation_length in Hp]. apply Permutation_singleton_inj in Hp as ->. destruct Ht as (-> & _). apply (in_last _ _ _ _ Hin).
    + assert (Efin : f_end f = length (payload [(0, y)])) by (unfold f_end; change (f_start f) with (key f).1; change (f_data f) with (key f).2; rewrite Fk; unfold payload; cbn; by rewrite app_nil_r).
      apply Z.eqb_eq. rewrite Ffin. apply Z.eqb_eq. exact Efin.
    + change (IPH_OFFSET_BYTES _ _) with (key f).1. by rewrite Fk.
  - rewrite <- Fk in Hp. destruct (absorbs_more h (frag_header h u v w) f D d D' res ps K R HL Hnear ltac:(by eexists _, _, _) Hpt Ht Hp Ho Habs) as (d' & Hpt' & Eres). rewrite Fk in Hpt'.
    destruct (decide (R = [])) as [->|HR]; injection Eres as -> ->; [right|left]; exists d'; split_and!; try done; by eexists _, _.
Qed.

Lemma arrivals_order ns (s s' : reass) cs qs :
  arrivals ns s cs qs s' -> routes_ok ns -> forall h ps K R D Q,
  length h = 20%nat -> take 1 h = [0x45] -> tiles 0 ps -> length (payload ps) <= 65515 -> Forall (λ e, other h e = true) D ->
  queue s Q -> waiting h ps K D Q -> K ++ R ≡ₚ ps -> R <> [] -> Forall2 (λ x c, carries h (length (payload ps)) x c.1) R cs ->
  length (nodes (frags Q)) + sum_list cs.*2 <= IP_REASS_MAX_PBUFS ->
  exists q lq chk, let hdr := frag_header h (length (payload ps) + 20) 0 chk in
    qs = replicate (pred (length cs)) NULL ++ [q] /\ q <> NULL /\ queue s' D
    /\ chain (n_ps (r_net s')) q lq /\ own_data lq /\ contents (r_mem s') lq = hdr ++ payload ps /\ inet_chksum 0 hdr = 0.
Proof.
  intros Ha Hns. induction Ha as [s|s s1 s2 s3 B ext Q' p b l cs q qs HQ' Hinv Hin Hr E Ha IH]; intros h ps K R D Q HL H45 Ht Hmax Ho HQ Hw Hp HR Hcar Hroom.
  { apply Forall2_nil_inv_r in Hcar. done. }
  pose proof (queue_unique _ _ _ HQ HQ') as <-. apply Forall2_cons_inv_r in Hcar as (x & R' & Hc & Hcar & ->). cbn [fst] in Hc. rewrite fmap_cons in Hroom. cbn [snd] in Hroom. change (sum_list (S (length l) :: cs.*2)) with (S (length l) + sum_list cs.*2)%nat in Hroom.
  destruct (arrival_step ns s1 s2 B ext D Q p b l h ps K x R' q Hinv Hns Hin Hr E HL H45 Ht Hmax Ho Hw Hp Hc ltac:(lia)) as [(d & HR' & -> & Hpt & HQ2 & Hn)|(d & -> & Hpt & HQ2 & (Hq & lq & chk & Hlq & Hown & _ & Hcont & Hchk & _))].
  - destruct (IH h ps (x :: K) R' D (d :: D)) as (q & lq & chk & -> & Hrest); try done; [right; by exists d|rewrite <- Hp; by rewrite <- Permutation_middle|lia|].
    exists q, lq, chk. split; [|exact Hrest]. destruct cs as [|c cs]; [by apply Forall2_nil_inv_r in Hcar|done].
  - apply Forall2_nil_inv_l in Hcar as ->. inversion Ha; subst. exists q, lq, chk. destruct (pt_hdr _ _ _ _ Hpt) as (u & v & w & Eh).
    assert (Hp' : x :: K ≡ₚ ps) by (rewrite <- Hp; by rewrite <- Permutation_middle, app_nil_r). assert (Hne : ps <> []) by (intros ->; by apply Permutation_nil_r in Hp').
    destruct (tiles_last _ _ Ht Hne) as (y & Hy & Ey). assert (El : dg_len d = length (payload ps)) by (apply (pt_len _ _ _ _ Hpt); exists y; split; [by rewrite Hp'|done]).
    destruct (all_whole (dg_fs d) ps (pt_order _ _ _ _ Hpt) Ht) as [_ Ef]; [by rewrite (pt_keys _ _ _ _ Hpt)|done|]. rewrite Eh, El, frag_header_again in * by done. rewrite Ef in Hcont. by split_and!.
Qed.

(** ** Lemmas: the fragments of ip4_frag are pieces *)

Definition uniform (P : list Z) (size i n : nat) : list piece := (λ j : nat, (Z.of_nat (j * size), take size (drop (j * size) P))) <$> seq i n.

Lemma uniform_tiles (P : list Z) (size i n : nat) :
  (0 < size)%nat -> Z.of_nat size mod 8 = 0 -> ((i + n) * size < length P + size)%nat -> tiles (i * size)%nat (uniform P size i n).
Proof.
  intros Hs H8. revert i. induction n as [|n IH]; intros i Hn; [exact I|]. unfold uniform. cbn [seq fmap list_fmap]. fold (uniform P size (S i) n). cbn [tiles].
  assert (Hd : length (take size (drop (i * size) P)) = Nat.min size (length P - i * size)) by (by rewrite length_take, length_drop).
  split; [done|]. split; [rewrite Nat2Z.inj_mul, Z.mul_mod, H8, Z.mul_0_r by lia; done|]. split; [intros E; rewrite E in Hd; cbn in Hd; nia|].
  destruct n as [|n]; [exact I|]. rewrite Hd. replace (Z.of_nat (i * size) + Nat.min size (length P - i * size)) with (Z.of_nat (S i * size)) by nia. apply IH. nia.
Qed.

Lemma uniform_payload P size i n : payload (uniform P size i n) = take (n * size) (drop (i * size) P).
Proof.
  revert i. induction n as [|n IH]; intros i; [done|]. unfold uniform. cbn [seq fmap list_fmap]. fold (uniform P size (S i) n).
  change (payload (_ :: uniform P size (S i) n)) with (take size (drop (i * size) P) ++ payload (uniform P size (S i) n)). rewrite IH. replace (S i * size)%nat with (i * size + size)%nat by lia. rewrite <- drop_drop. cbn [Nat.mul]. apply take_take_drop.
Qed.

Lemma fragments_carry h P nfb fs :
  0 < nfb -> length P <= 65515 -> (forall (i : nat) f, fs !! i = Some f -> exists chk, f = fragment h P nfb 0 false i chk) ->
  length fs = frag_count (length P) nfb :> Z ->
  let ps := uniform P (Z.to_nat (8 * nfb)) 0 (length fs) in
  tiles 0 ps /\ payload ps = P /\ Forall2 (carries h (length P)) ps fs.
Proof.
  intros Hn Hmax Hfs Hl ps. set (size := Z.to_nat (8 * nfb)) in *. unfold frag_count in Hl. assert (Hsz : Z.of_nat size = 8 * nfb) by (unfold size; lia).
  assert (Hb : (length fs * size < length P + size /\ length P <= length fs * size)%nat).
  { pose proof (Z.div_mod (length P + 8 * nfb - 1) (8 * nfb) ltac:(lia)). pose proof (Z.mod_pos_bound (length P + 8 * nfb - 1) (8 * nfb) ltac:(lia)). rewrite <- Hl in *. nia. }
  assert (Epay : payload ps = P) by (unfold ps; rewrite uniform_payload; rewrite take_ge by (cbn; rewrite drop_0; lia); by rewrite drop_0).
  split; [|split; [done|]]. { apply (uniform_tiles P size 0 (length fs)); [lia|rewrite Hsz; Z.div_mod_to_equations; lia|cbn; lia]. }
  apply Forall2_same_length_lookup_2; [unfold ps, uniform; by rewrite length_fmap, length_seq|]. intros i x f Hx Hf. destruct (Hfs i f Hf) as (chk & ->). exists chk. pose proof (lookup_lt_Some _ _ _ Hf) as Hi.
  unfold ps, uniform in Hx. rewrite list_lookup_fmap, lookup_seq_lt in Hx by done. cbn in Hx. injection Hx as <-. cbn [fst snd]. unfold fragment. fold size. cbn [orb].
  assert (Hii : (i * size < length P)%nat) by nia. assert (Hd : length (take size (drop (i * size) P)) = Nat.min size (length P - i * size)) by (by rewrite length_take, length_drop). do 2 f_equal.
  - replace (Z.of_nat (i * size) / 8) with (i * nfb) by (apply (Z.div_unique_exact _ 8); nia). rewrite Z.add_0_l, Z.mod_small by nia. f_equal. rewrite Hd.
    case_bool_decide as Hm; [rewrite (proj2 (Z.eqb_neq _ _)) by lia; done|rewrite (proj2 (Z.eqb_eq _ _)) by lia; done].
Qed.

(** Packets in another order carry the pieces in another order. *)
Lemma Forall2_order {A B} (P : A -> B -> Prop) l k k' : Forall2 P l k -> k' ≡ₚ k -> exists l', l' ≡ₚ l /\ Forall2 P l' k'.
Proof.
  intros HF Hp. symmetry in Hp. revert l HF. induction Hp as [|y k k' Hp IH|y z k|k1 k2 k3 _ IH1 _ IH2]; intros l HF.
  - exists l. by apply Forall2_nil_inv_r in HF as ->.
  - apply Forall2_cons_inv_r in HF as (x & l0 & Hx & HF & ->). destruct (IH l0 HF) as (l' & H1 & H2). exists (x :: l'). split; [by constructor|by constructor].
  - apply Forall2_cons_inv_r in HF as (x & l0 & Hx & HF & ->). apply Forall2_cons_inv_r in HF as (x' & l1 & Hx' & HF & ->). exists (x' :: x :: l1). split; [constructor|by repeat constructor].
  - destruct (IH1 l HF) as (l1 & H1 & H2). destruct (IH2 l1 H2) as (l2 & H3 & H4). exists l2. split; [by etrans|done].
Qed.

Lemma any_order ns (s s' : reass) cs qs h ps fs D :
  arrivals ns s cs qs s' -> routes_ok ns -> queue s D -> Forall (λ e, other h e = true) D -> (length D < pool_cap)%nat ->
  length h = 20%nat -> take 1 h = [0x45] -> tiles 0 ps -> length (payload ps) <= 65515 -> ps <> [] ->
  Forall2 (carries h (length (payload ps))) ps fs -> cs.*1 ≡ₚ fs -> length (nodes (frags D)) + sum_list cs.*2 <= IP_REASS_MAX_PBUFS ->
  exists q lq chk, let hdr := frag_header h (length (payload ps) + 20) 0 chk in
    qs = replicate (pred (length cs)) NULL ++ [q] /\ q <> NULL /\ queue s' D
    /\ chain (n_ps (r_net s')) q lq /\ own_data lq /\ contents (r_mem s') lq = hdr ++ payload ps /\ inet_chksum 0 hdr = 0.
Proof.
  intros Ha Hns HQ Ho Hcap HL H45 Ht Hmax Hne Hcar Hp Hroom. destruct (Forall2_order _ _ _ _ Hcar Hp) as (R & HR & HF).
  apply (arrivals_order ns s s' cs qs Ha Hns h ps [] R D D); try done; [by left| |exact (proj1 (Forall2_fmap_r fst _ _ _) HF)].
  intros ->. by apply Permutation_nil_l in HR.
Qed.

(** ** Properties *)

(** C6: ip4_reass against its specification.  For a fragment that comes from the IP
    input (its packet held once; a first fragment with 8 bytes of data in its first pbuf),
    the call returns; the invariant of the queue holds again.  When there are too many
    pbufs or the pool is empty, whole datagrams [R], none of them the fragment's own, are
    dropped first, each with an ICMP message to its source when its first fragment had
    come, there is a route and the heap has room; then the fragment is dropped, or the
    queue absorbs it: it takes its place in its datagram, or starts a new one, unless it
    overlaps another or its data ends beyond 65515, the longest datagram.  The end may be
    anywhere up to the largest offset and length, but for a fragment with more to follow
    not from 65516 to 65535, where the code has no check.  The result is NULL, or the
    datagram that it completes, as one packet.  The other packets of the system stay. *)
Theorem ip4_reass_correct ns (s : reass) B ext D p b l :
  reass_inv s B (ext_add ext p) D -> routes_ok ns -> incoming (n_ps (r_net s)) p b l -> Forall (λ x, p_ref x.2 = 1) ((p, b) :: l) ->
  let m := r_mem s in
  let h := read_bytes m (p_payload b) 20 in
  let f := frag_of (n_ps (r_net s)) p b l in
  let fin := Z.land (IPH_OFFSET m (p_payload b)) (PP_HTONS IP_MF) =? 0 in
  let k := S (length l) in
  exists q s' B' R D0 D' res out, ip4_reass ns s p = Ret (q, s')
    /\ reass_inv s' B' (match res with Some _ => ext_add ext q | None => ext end) D'
    /\ made_room h D R D0 /\ (R <> [] -> too_many D k \/ pool_full h D)
    /\ ((IPH_HL_BYTES m (p_payload b) <> 20 \/ too_many D0 k \/ pool_full h D /\ D0 = []) /\ D' = D0 /\ res = None
        \/ IPH_HL_BYTES m (p_payload b) = 20 /\ absorbs h f fin D0 D' res)
    /\ match res with Some d => delivered (n_ps (r_net s')) q d | None => q = NULL end
    /\ link_log (n_lk (r_net s')) = link_log (n_lk (r_net s)) ++ out /\ given_up ns (ext_add ext p) (r_net s) R out
    /\ rest_stay s s' ext D (p :: l.*1).
Proof.
  intros Hinv Hns Hin Hr. destruct (incoming_apart _ _ _ _ _ _ _ (proj1 Hinv) Hin Hr) as [Hp Hap].
  exact (reass_spec ns s B ext D p b l Hinv Hns Hin Hp Hap).
Qed.

(** C7: the timer.  ip_reass_tmr takes one second off every datagram and drops those that
    had none left; for each of these whose first fragment had come and to whose source
    there is a route, an ICMP time exceeded message with its header and 8 bytes of data
    goes out, unless the heap has no room for it at that point; the invariant holds again. *)
Theorem ip_reass_tmr_correct ns (s : reass) B ext D :
  reass_inv s B ext D -> routes_ok ns ->
  exists s' B' out, ip_reass_tmr ns s = Ret s' /\ reass_inv s' B' ext (tick D)
    /\ link_log (n_lk (r_net s')) = link_log (n_lk (r_net s)) ++ out /\ expiries ns ext (r_net s) (filter (λ d, ~ 0 < dg_timer d) D) (r_net s') out.
Proof. apply reass_tmr_spec. Qed.

(** C8: no datagram waits for ever.  After IP_REASS_MAXAGE + 1 calls of the timer nothing
    is left: the list is empty, no pbuf is counted, every element is back in the pool, and
    the packets have no more references than the rest of the system holds. *)
Theorem reass_gives_up ns (s : reass) B ext D :
  reass_inv s B ext D -> routes_ok ns ->
  exists s' B', reass_tmr_times (Z.to_nat (IP_REASS_MAXAGE + 1)) ns s = Ret s' /\ reassdatagrams s' = NULL /\ r_data s' = ∅
    /\ ip_reass_pbufcount s' = 0 /\ pool_holds (r_pool s') [] /\ net_ok (r_net s') B' ext.
Proof.
  intros Hinv Hns. destruct (reass_tmr_times_spec (Z.to_nat (IP_REASS_MAXAGE + 1)) ns s B ext D Hinv Hns) as (s' & B' & E & HI). exists s', B'.
  rewrite tick_timers in HI by (eapply Forall_impl; [apply (ri_dgrams _ _ _ _ (proj1 Hinv))|]; intros d Hd; pose proof (do_timer _ _ Hd); unfold IP_REASS_MAXAGE in *; lia).
  destruct HI as ([[H1 _ H3 H4] H5 _ _] & [H6 _] & _). split; [done|]. split; [exact H1|]. split; [|split; [exact H6|split; [exact H4|]]].
  - apply map_empty. intros a. destruct (r_data s' !! a) eqn:Ea; [|done]. assert (Hin : a ∈ dg_a <$> []) by (apply H3; by eexists). by apply not_elem_of_nil in Hin.
  - eapply net_ok_ext; [|exact H5]. intros a. unfold hold. cbn. lia.
Qed.

(** the order does not matter.  The fragments of a datagram (a header of 20 bytes and
    pieces that cover the data) come in any order, each in its own packet; there are
    no others with the same addresses and ID in the queue, and room for them.  Then every
    call but the last returns NULL and the last one returns a packet with the header of
    the datagram, its length and a valid checksum, and all the data in order; the rest of
    the queue is what it was. *)
Theorem reass_any_order ns (s s' : reass) cs qs h ps fs D :
  arrivals ns s cs qs s' -> routes_ok ns -> queue s D -> Forall (λ e, other h e = true) D -> (length D < pool_cap)%nat ->
  length h = 20%nat -> take 1 h = [0x45] -> tiles 0 ps -> length (payload ps) <= 65515 -> ps <> [] ->
  Forall2 (carries h (length (payload ps))) ps fs -> cs.*1 ≡ₚ fs -> length (nodes (frags D)) + sum_list cs.*2 <= IP_REASS_MAX_PBUFS ->
  exists q lq chk, let hdr := frag_header h (length (payload ps) + 20) 0 chk in
    qs = replicate (pred (length cs)) NULL ++ [q] /\ q <> NULL /\ queue s' D
    /\ chain (n_ps (r_net s')) q lq /\ own_data lq /\ contents (r_mem s') lq = hdr ++ payload ps /\ inet_chksum 0 hdr = 0.
Proof. apply any_order. Qed.

(** C5: fragmentation and reassembly.  One host sends a datagram of 20 bytes of header
    and some data with ip4_frag, with success, to an interface whose MTU (from 28) minus the
    header is a multiple of 8; the fragments on the wire reach another (or the same) host in
    any order, each in a packet of its own, whose queue has no fragment with the same
    addresses and ID, a free element in its pool, and room for the pbufs of all fragments
    within IP_REASS_MAX_PBUFS.  Then every call of ip4_reass but the last returns NULL, and
    the packet that the last one returns has the bytes of the datagram: the same data, and
    the same header but for the checksum and the flags. *)
Theorem frag_reass_roundtrip (n n' : net (St := St) (Lk := Lk)) B ext p b l nif dest fs ns (s s' : reass) cs qs D :
  net_inv n B ext -> chain (n_ps n) p ((p, b) :: l) -> own_data ((p, b) :: l) -> (0 < ext p)%nat ->
  let C := contents (data (n_ps n)) ((p, b) :: l) in
  20 <= p_len b -> 20 < p_tot_len b -> Forall is_u8 (take 20 C) -> take 1 C = [0x45] -> lwip_htons (IPH_OFFSET (data (n_ps n)) (p_payload b)) mod 16384 = 0 ->
  28 <= netif_mtu nif < 65536 -> (netif_mtu nif - 20) mod 8 = 0 ->
  ip4_frag n p nif dest = Ret (ERR_OK, n') -> link_log (n_lk n') = link_log (n_lk n) ++ map (λ f, (netif_num nif, dest, f)) fs ->
  arrivals ns s cs qs s' -> cs.*1 ≡ₚ fs -> routes_ok ns -> queue s D -> Forall (λ e, other (take 20 C) e = true) D -> (length D < pool_cap)%nat ->
  length (nodes (frags D)) + sum_list cs.*2 <= IP_REASS_MAX_PBUFS ->
  exists q lq chk, let hdr := frag_header (take 20 C) (p_tot_len b) 0 chk in
    qs = replicate (pred (length cs)) NULL ++ [q] /\ q <> NULL /\ queue s' D
    /\ chain (n_ps (r_net s')) q lq /\ own_data lq /\ contents (r_mem s') lq = hdr ++ drop 20 C /\ inet_chksum 0 hdr = 0.
Proof.
  intros HI Hc Hown He C Hlen Htot Hu H1 Hoff Hmtu H8 E Hlog Ha Hp Hns HQ Ho Hcap Hroom. pose proof (chain_cons _ _ _ _ _ Hc) as (_ & Hb & _ & _ & Ht & Hut & Htl).
  assert (HlC : Z.of_nat (length C) = p_tot_len b) by (unfold C; rewrite contents_addrs, length_fmap, Ht; exact (addrs_length _ (proj2 Hc))).
  assert (Hhl : IPH_HL_BYTES (data (n_ps n)) (p_payload b) = 20).
  { unfold IPH_HL_BYTES, IPH_HL, iph_vhl. rewrite (load_0 _ _ 1 20), (read_contents _ p b l 20) by lia. fold C. rewrite take_take. change (1 `min` 20)%nat with 1%nat. by rewrite H1. }
  destruct (frag_spec n B ext p b l nif dest 0 HI Hc Hown He Hlen Hu Hhl Hmtu H8) as (e & n1 & B1 & fs1 & E1 & _ & Hlog1 & Hfs & Hcase). fold C in Hfs, Hcase. rewrite E in E1. injection E1 as <- <-. destruct Hcase as [(_ & Hcount & _)|[Hf _]]; [|by vm_compute in Hf].
  rewrite Hlog in Hlog1. apply app_inv_head in Hlog1. apply (f_equal (map snd)) in Hlog1. rewrite !map_map in Hlog1. cbn [snd] in Hlog1. rewrite !map_id in Hlog1. subst fs1.
  set (field := lwip_htons _) in *. set (nfb := (netif_mtu nif - 20) / 8) in *.
  assert (Emf : (Z.land field IP_MF =? 0) = true). { change IP_MF with (2 ^ 13). rewrite land_bit, Z.testbit_odd, Z.shiftr_div_pow2, Zodd_mod by lia. change (2 ^ 13) with 8192. replace (field / 8192 mod 2) with 0 by (Z.div_mod_to_equations; lia). done. }
  assert (Eo : field mod 8192 = 0) by (Z.div_mod_to_equations; lia). rewrite Emf, Eo in Hfs. cbn [negb] in Hfs.
  assert (HlP : length (drop 20 C) = p_tot_len b - 20 :> Z) by (rewrite length_drop; lia). rewrite <- HlP in Hcount.
  destruct (fragments_carry (take 20 C) (drop 20 C) nfb fs) as (Htiles & Epay & Hcar); [unfold nfb; Z.div_mod_to_equations; lia|unfold is_u16 in Hut; lia|intros i f Hf; by destruct (Hfs i f Hf) as [? _]|done|].
  set (ps := uniform _ _ _ _) in *. destruct (any_order ns s s' cs qs (take 20 C) ps fs D) as (q & lq & chk & Hres); try done.
  - rewrite length_take. lia.
  - rewrite take_take. exact H1.
  - rewrite Epay, HlP. unfold is_u16 in Hut. lia.
  - intros Eps. rewrite Eps in Epay. apply (f_equal (@length Z)) in Epay. change (length (payload [])) with 0%nat in Epay. lia.
  - by rewrite Epay.
  - exists q, lq, chk. rewrite Epay in Hres. replace (length (drop 20 C) + 20) with (p_tot_len b) in Hres by lia. exact Hres.
Qed.
End Order.

(** ** Witnesses *)

(** A pool of two elements; the packet of Ip4Frag.v goes out in fragments of 68 and 52
    bytes, and they come to a host, in two packets in RAM, the second one first. *)
#[local] Instance dgram_pool : ElementPool memp_state :=
  memp_element_pool two_descs 1 (MempDesc 24 2 2000) two_descs_ok eq_refl.
Abbreviation reass0 := (reass (St := pmem_state) (Lk := list (Z * Z * list Z)) (Pl := memp_state)).

Definition nif68 : netif := Netif 1 0x0a01a8c0 0x00ffffff 0x0101a8c0 0x27 [2; 0; 0; 0; 0; 1] 68 true.
Definition on_wire : list (list Z) :=
  match ip4_frag frag_net p2 nif68 0x0201a8c0 with Ret (_, n) => map snd (link_log (n_lk n)) | Trap _ => [] end.

Definition packet_of (s : pstate (St := pmem_state)) (c : list Z) : Z * pstate :=
  match pbuf_alloc s PBUF_RAW (Z.of_nat (length c)) PBUF_RAM with
  | Ret (q, s) => match pbufs s !! q with Some b => (q, with_data s (write_bytes (data s) (p_payload b) c)) | None => (NULL, s) end
  | Trap _ => (NULL, s)
  end.

Definition got1 : Z * pstate := packet_of ps0 (nth 0 on_wire []).
Definition got2 : Z * pstate := packet_of (snd got1) (nth 1 on_wire []).
Definition receive0 : reass0 := Reass (Net (snd got2) [] 0) ∅ NULL 0 memp0.
Definition receive1 : reass0 := match ip4_reass netifs0 receive0 (fst got2) with Ret (_, s) => s | Trap _ => receive0 end.
Definition receive2 : Z * reass0 := match ip4_reass netifs0 receive1 (fst got1) with Ret r => r | Trap _ => (NULL, receive1) end.

Definition pbuf_at (s : pstate (St := pmem_state)) (p : Z) : pbuf := default (Pbuf 0 0 0 0 0 0 0 0) (pbufs s !! p).

Lemma packet_of_inv s B ext c :
  pbuf_inv s B ext -> length c < 65536 -> fst (packet_of s c) <> NULL ->
  exists B', pbuf_inv (snd (packet_of s c)) B' (ext_add ext (fst (packet_of s c))).
Proof.
  intros HI Hc. unfold packet_of. destruct (alloc_ram_one s B ext PBUF_RAW (length c) HI ltac:(vm_compute; intuition congruence) ltac:(unfold_c; lia)) as [(st & _ & E & _)|(q & st & k & x & E & _ & _ & _ & HI')]; rewrite E.
  - cbn [pbufs with_pmem]. rewrite (inv_not_null _ _ _ HI). done.
  - set (s' := set_pbuf _ q _) in *. assert (Hb : pbufs s' !! q = Some (Pbuf NULL x (length c) (length c) (u8 PBUF_RAM) 0 1 NETIF_NO_INDEX)) by apply lookup_insert_eq.
    rewrite Hb. cbn [fst snd]. intros _. eexists. apply inv_data. exact HI'.
Qed.

Lemma routes0_ok : routes_ok netifs0.
Proof.
  intros dest nif E. unfold ip4_route in E. cbn [ip4_default_multicast_netif netif_list netif_default netifs0 route_loop] in E. assert (nif = nif0) as ->.
  { destruct (ip4_addr_ismulticast dest); destruct (route_matches dest nif0); congruence. }
  vm_compute. intuition congruence.
Qed.

Lemma got2_inv : exists B, pbuf_inv (snd got2) B (ext_add (ext_add no_ext (fst got1)) (fst got2)).
Proof.
  destruct (packet_of_inv ps0 ∅ no_ext (nth 0 on_wire []) ps0_inv) as (B1 & HI1); [vm_compute; reflexivity|vm_compute; congruence|].
  unfold got2. apply (packet_of_inv (snd got1) B1 (ext_add no_ext (fst got1)) (nth 1 on_wire []) HI1); vm_compute; congruence.
Qed.

Lemma receive0_inv : exists B, reass_inv receive0 B (ext_add (ext_add no_ext (fst got1)) (fst got2)) [].
Proof.
  destruct got2_inv as (B2 & HI2).
  exists B2. split; [split|split; [|constructor]].
  - split; [done|constructor|intros a|].
    + cbn [r_data receive0]. rewrite lookup_empty. split; [by intros [? ?]|]. intros H. by apply not_elem_of_nil in H.
    + exists [[]; []], []. split; [exact memp0_rep|]. done.
  - split; [|vm_compute; intuition congruence]. eapply inv_ext_eq; [|exact HI2]. intros a _. unfold hold. change (held (frags []) a) with 0%nat. cbn [link_holds wire]. lia.
  - constructor.
  - constructor.
  - split; [done|]. vm_compute. congruence.
Qed.

Lemma got2_incoming : incoming (snd got2) (fst got2) (pbuf_at (snd got2) (fst got2)) [].
Proof.
  split; try (vm_compute; intuition congruence).
  - repeat constructor; vm_compute; reflexivity.
  - apply (bool_decide_unpack _). vm_compute. exact I.
Qed.

Lemma got1_incoming : incoming (n_ps (r_net receive1)) (fst got1) (pbuf_at (n_ps (r_net receive1)) (fst got1)) [].
Proof.
  split; try (vm_compute; intuition congruence).
  - repeat constructor; vm_compute; reflexivity.
  - apply (bool_decide_unpack _). vm_compute. exact I.
Qed.

Lemma ret_pair {A B} (x x' : A) (y y' : B) : Ret (x, y) = Ret (x', y') -> x = x' /\ y = y'.
Proof. by intros [= -> ->]. Qed.

Lemma got_refs : Forall (λ x, p_ref x.2 = 1) [(fst got2, pbuf_at (snd got2) (fst got2))] /\ Forall (λ x, p_ref x.2 = 1) [(fst got1, pbuf_at (n_ps (r_net receive1)) (fst got1))].
Proof. split; repeat constructor; vm_compute; reflexivity. Qed.

Lemma receive1_run : ip4_reass netifs0 receive0 (fst got2) = Ret (NULL, receive1).
Proof.
  assert (Ev : match ip4_reass netifs0 receive0 (fst got2) with Ret (q, _) => q | Trap _ => -1 end = NULL) by (vm_compute; reflexivity).
  unfold receive1. destruct (ip4_reass netifs0 receive0 (fst got2)) as [[q s]|w]; [by rewrite Ev|discriminate Ev].
Qed.

Lemma receive2_run : ip4_reass netifs0 receive1 (fst got1) = Ret receive2.
Proof.
  assert (Ev : match ip4_reass netifs0 receive1 (fst got1) with Ret _ => true | Trap _ => false end = true) by (vm_compute; reflexivity).
  unfold receive2. by destruct (ip4_reass netifs0 receive1 (fst got1)).
Qed.

Lemma receive1_inv : exists B D, reass_inv receive1 B (ext_add no_ext (fst got1)) D.
Proof.
  destruct receive0_inv as (B & HI). destruct (incoming_apart _ _ _ _ _ _ _ (proj1 HI) got2_incoming (proj1 got_refs)) as [Hp Hap].
  destruct (reass_spec netifs0 receive0 B _ [] _ _ _ HI routes0_ok got2_incoming Hp Hap) as (q & s' & B' & R & D0 & D' & res & out & E & HI' & _ & _ & _ & Hres & _).
  rewrite receive1_run in E. apply ret_pair in E as [<- <-]. destruct res as [d|]; [by destruct Hres as [[] _]|]. by exists B', D'.
Qed.

Lemma got_contents :
  contents (r_mem receive0) [(fst got2, pbuf_at (snd got2) (fst got2))] = nth 1 on_wire []
  /\ contents (r_mem receive1) [(fst got1, pbuf_at (n_ps (r_net receive1)) (fst got1))] = nth 0 on_wire [].
Proof. split; vm_compute; reflexivity. Qed.

Lemma both_arrive : arrivals netifs0 receive0 [(nth 1 on_wire [], 1%nat); (nth 0 on_wire [], 1%nat)] [NULL; fst receive2] (snd receive2).
Proof.
  destruct receive0_inv as (B0 & HI0), receive1_inv as (B1 & D1 & HI1). destruct got_refs as [Hr2 Hr1], got_contents as [<- <-].
  eapply (arrivals_cons netifs0 receive0 receive0 receive1 _ B0 _ [] _ _ []); [by eexists _, _|exact HI0|exact got2_incoming|exact Hr2|exact receive1_run|].
  eapply (arrivals_cons netifs0 receive1 receive1 (snd receive2) _ B1 _ D1 _ _ []); [by eexists _, _|exact HI1|exact got1_incoming|exact Hr1| |constructor].
  rewrite receive2_run. by destruct receive2.
Qed.

Lemma receive0_queue : queue receive0 [].
Proof. destruct receive0_inv as (B & HI). by eexists _, _. Qed.

Lemma ip4_reass_correct_witness : exists s', ip4_reass netifs0 receive0 (fst got2) = Ret (NULL, s').
Proof.
  destruct receive0_inv as (B & HI). destruct (ip4_reass_correct netifs0 receive0 B _ [] _ _ [] HI routes0_ok got2_incoming (proj1 got_refs)) as (q & s' & _ & _ & _ & _ & _ & _ & E & _).
  exists s'. rewrite E. rewrite receive1_run in E. apply ret_pair in E as [<- _]. reflexivity.
Defined.

Lemma ip_reass_tmr_correct_witness : exists s', ip_reass_tmr netifs0 receive1 = Ret s'.
Proof.
  destruct receive1_inv as (B & D & HI). destruct (ip_reass_tmr_correct netifs0 receive1 B _ D HI routes0_ok) as (s' & _ & _ & E & _). exists s'. exact E.
Defined.

Lemma reass_gives_up_witness : exists s', reass_tmr_times 16 netifs0 receive1 = Ret s' /\ reassdatagrams s' = NULL.
Proof.
  destruct receive1_inv as (B & D & HI). destruct (reass_gives_up netifs0 receive1 B _ D HI routes0_ok) as (s' & _ & E & H & _). exists s'. split; [exact E|exact H].
Defined.

(** The header and the pieces of the datagram. *)
Definition sent_hdr : list Z := take 20 iphdr0.
Definition sent_pieces : list piece := [(0, drop 20 (nth 0 on_wire [])); (48, drop 20 (nth 1 on_wire []))].

Lemma sent_carried : Forall2 (carries sent_hdr (length (payload sent_pieces))) sent_pieces [nth 0 on_wire []; nth 1 on_wire []].
Proof.
  constructor; [|constructor; [|constructor]].
  - exists (le_val (take 2 (drop 10 (nth 0 on_wire [])))). vm_compute. reflexivity.
  - exists (le_val (take 2 (drop 10 (nth 1 on_wire [])))). vm_compute. reflexivity.
Qed.

Lemma reass_any_order_witness : exists q, [NULL; fst receive2] = [NULL; q] /\ q <> NULL.
Proof.
  destruct (reass_any_order netifs0 receive0 (snd receive2) [(nth 1 on_wire [], 1%nat); (nth 0 on_wire [], 1%nat)] [NULL; fst receive2] sent_hdr sent_pieces [nth 0 on_wire []; nth 1 on_wire []] []) as (q & _ & _ & E & Hq & _).
  - exact both_arrive.
  - exact routes0_ok.
  - exact receive0_queue.
  - constructor.
  - vm_compute. lia.
  - vm_compute. reflexivity.
  - reflexivity.
  - vm_compute. intuition congruence.
  - vm_compute. congruence.
  - discriminate.
  - exact sent_carried.
  - apply Permutation_swap.
  - vm_compute. congruence.
  - exists q. split; [exact E|exact Hq].
Defined.

Lemma frag_run : exists n', ip4_frag frag_net p2 nif68 0x0201a8c0 = Ret (ERR_OK, n')
  /\ link_log (n_lk n') = link_log (n_lk frag_net) ++ map (λ f, (netif_num nif68, 0x0201a8c0, f)) [nth 0 on_wire []; nth 1 on_wire []].
Proof.
  assert (Ev : match ip4_frag frag_net p2 nif68 0x0201a8c0 with
    | Ret (e, n') => (e, link_log (n_lk n')) | Trap _ => (ERR_MEM, []) end
    = (ERR_OK, link_log (n_lk frag_net) ++ map (λ f, (netif_num nif68, 0x0201a8c0, f)) [nth 0 on_wire []; nth 1 on_wire []])) by (vm_compute; reflexivity).
  destruct (ip4_frag frag_net p2 nif68 0x0201a8c0) as [[e n']|w]; [|apply (f_equal fst) in Ev; discriminate Ev]. exists n'.
  pose proof (f_equal fst Ev) as E1. pose proof (f_equal snd Ev) as E2. cbn [fst snd] in E1, E2. split; [by rewrite E1|exact E2].
Qed.

Lemma frag_reass_roundtrip_witness : exists q lq chk, [NULL; fst receive2] = [NULL; q]
  /\ contents (r_mem (snd receive2)) lq = frag_header sent_hdr 100 0 chk ++ read_bytes (data frag_ps) (p2 + SIZEOF_STRUCT_PBUF + 54 + 20) 80.
Proof.
  destruct ps2_inv as (B & b1 & a2 & b2 & b & HI & _ & Hc2 & _ & _ & _ & _ & _ & L & R & T & C & P & Ho). destruct frag_run as (n' & Ef & El).
  assert (HC : contents (data (n_ps frag_net)) [(p2, b)] = sent_hdr ++ read_bytes (data frag_ps) (p2 + SIZEOF_STRUCT_PBUF + 54 + 20) 80).
  { unfold contents, node_bytes. cbn [fmap list_fmap concat snd]. rewrite app_nil_r, P, L. vm_compute. reflexivity. }
  assert (Hh : length sent_hdr = 20%nat) by (vm_compute; reflexivity).
  pose proof (frag_reass_roundtrip frag_net n' B (ext_add (ext_add no_ext p1) p2) p2 b [] nif68 0x0201a8c0 [nth 0 on_wire []; nth 1 on_wire []] netifs0 receive0 (snd receive2) [(nth 1 on_wire [], 1%nat); (nth 0 on_wire [], 1%nat)] [NULL; fst receive2] []) as Ha.
  cbv zeta in Ha. rewrite HC, T, take_app_length', drop_app_length' in Ha by (by rewrite Hh).
  destruct Ha as (q & lq & chk & E & _ & _ & _ & _ & Hcont & _).
  - eapply inv_ext_eq; [|apply inv_data; exact HI]. intros a _. cbn [link_holds wire]. lia.
  - exact Hc2.
  - apply Forall_cons in Ho as [_ Ho]. apply Forall_cons in Ho as [_ Ho]. exact Ho.
  - unfold ext_add. rewrite (decide_True (P := p2 = p2)) by reflexivity. lia.
  - rewrite L. lia.
  - lia.
  - apply (bool_decide_unpack _). vm_compute. exact I.
  - reflexivity.
  - rewrite P. vm_compute. reflexivity.
  - vm_compute. intuition congruence.
  - vm_compute. reflexivity.
  - exact Ef.
  - exact El.
  - exact both_arrive.
  - apply Permutation_swap.
  - exact routes0_ok.
  - exact receive0_queue.
  - constructor.
  - vm_compute. lia.
  - vm_compute. congruence.
  - exists q, lq, chk. split; [exact E|exact Hcont].
Defined.

(** ** Data behind the last fragment *)

(** A fragment of 8 bytes, [k], at the offset [off]. *)
Definition piece8 (off : Z) (mf : bool) (k : Z) : list Z :=
  [0x45; 0; 0; 28; 0; 7; (if mf then 0x20 else 0); off / 8; 64; 17; 0; 0; 192; 168; 1; 10; 192; 168; 1; 2; k; k; k; k; k; k; k; k].
Definition arrive (s : reass0) (c : list Z) : Z * reass0 :=
  let '(p, ps) := packet_of (n_ps (r_net s)) c in
  match ip4_reass netifs0 (with_rnet s (with_ps (r_net s) ps)) p with Ret r => r | Trap _ => (-1, s) end.
Definition nothing_yet : reass0 := Reass (Net ps0 [] 0) ∅ NULL 0 memp0.

(** a fragment that lies behind the last one is queued and becomes part of the
    packet.  The fragment at offset 8 without the flag says that the datagram has 16
    bytes of data; another at 16 is accepted, and when the one at 0 comes the packet
    returned has 44 bytes and an IP header that says 36. *)
Theorem reass_beyond_last :
  let s1 := snd (arrive nothing_yet (piece8 8 false 2)) in
  let s2 := snd (arrive s1 (piece8 16 true 3)) in
  let '(q, s3) := arrive s2 (piece8 0 true 1) in
  match pbufs (n_ps (r_net s3)) !! q with
  | Some b => Some (p_tot_len b, lwip_htons (IPH_LEN (r_mem s3) (p_payload b)))
  | None => None
  end = Some (44, 36).
Proof. vm_compute. reflexivity. Qed.
