(* ===== verification/Igmp.v ===== *)
(** * Multicast group membership (src/lwip/src/core/ipv4/igmp.c)

    The host side of IGMP version 2: the list of groups of each interface (the
    all-systems group first), joining and leaving, queries and reports of others, the
    timers, and the messages.  The structures are elements of the pool
    MEMP_IGMP_GROUP ([ElementPool] of Memp.v), linked by addresses; the head of each
    list is client data of the interface.  Messages go out through ip4_output_if_opt
    of Ip4.v.  igmp_mac_filter, a function of the driver, is a record of its calls;
    LWIP_RAND() is a parameter. *)

From S2P Require Import Prelude Def ListSeg InetChksum Ip4Addr Mem Memp Pbuf PbufMem PbufRef PbufChain PbufData Header Ip4 Ip4Frag.

#[local] Open Scope Z_scope.
#[local] Coercion Z.of_nat : nat >-> Z.

(** ** Constants (include/lwip/prot/igmp.h, include/lwip/igmp.h) *)

Definition IGMP_TTL : Z := 1.
Definition IGMP_MINLEN : Z := 8.
Definition ROUTER_ALERT : Z := 0x9404.
Definition ROUTER_ALERTLEN : Z := 4.
Definition IGMP_MEMB_QUERY : Z := 0x11.
Definition IGMP_V2_MEMB_REPORT : Z := 0x16.
Definition IGMP_LEAVE_GROUP : Z := 0x17.
Definition IGMP_GROUP_NON_MEMBER : Z := 0.
Definition IGMP_GROUP_DELAYING_MEMBER : Z := 1.
Definition IGMP_GROUP_IDLE_MEMBER : Z := 2.
Definition IGMP_TMR_INTERVAL : Z := 100.
Definition IGMP_V1_DELAYING_MEMBER_TMR : Z := 1000 / IGMP_TMR_INTERVAL.
Definition IGMP_JOIN_DELAYING_MEMBER_TMR : Z := 500 / IGMP_TMR_INTERVAL.

Definition IP4_ADDR (a b c d : Z) : Z := PP_HTONL (Z.lor (Z.shiftl a 24) (Z.lor (Z.shiftl b 16) (Z.lor (Z.shiftl c 8) d))).

(** struct igmp_msg *)
Definition igmp_msgtype (m : bytes) (h : Z) : Z := load 1 m h.
Definition igmp_maxresp (m : bytes) (h : Z) : Z := load 1 m (h + 1).
Definition igmp_group_address (m : bytes) (h : Z) : Z := load 4 m (h + 4).
Definition igmp_msgtype_set (m : bytes) (h x : Z) : bytes := store 1 m h x.
Definition igmp_maxresp_set (m : bytes) (h x : Z) : bytes := store 1 m (h + 1) x.
Definition igmp_checksum_set (m : bytes) (h x : Z) : bytes := store 2 m (h + 2) x.
Definition igmp_group_address_set (m : bytes) (h x : Z) : bytes := store 4 m (h + 4) x.

(** ** State *)

Record igmp_group := IgmpGroup {
  g_next : Z;
  group_address : Z;
  last_reporter_flag : Z;
  group_state : Z;
  g_timer : Z;
  g_use : Z
}.

Definition with_next (g : igmp_group) (x : Z) : igmp_group :=
  IgmpGroup x (group_address g) (last_reporter_flag g) (group_state g) (g_timer g) (g_use g).
Definition with_reporter (g : igmp_group) (x : Z) : igmp_group :=
  IgmpGroup (g_next g) (group_address g) x (group_state g) (g_timer g) (g_use g).
Definition with_state (g : igmp_group) (x : Z) : igmp_group :=
  IgmpGroup (g_next g) (group_address g) (last_reporter_flag g) x (g_timer g) (g_use g).
Definition with_timer (g : igmp_group) (x : Z) : igmp_group :=
  IgmpGroup (g_next g) (group_address g) (last_reporter_flag g) (group_state g) x (g_use g).
Definition with_use (g : igmp_group) (x : Z) : igmp_group :=
  IgmpGroup (g_next g) (group_address g) (last_reporter_flag g) (group_state g) (g_timer g) x.

Section Igmp.
Context `{MO : MemOptions} `{PO : PbufOptions} {St : Type} `{!PacketMemory St} {Lk : Type} `{!LinkLayer Lk St}
  {Pl : Type} `{!ElementPool Pl} (rnd : nat -> Z).

Abbreviation inet := (net (St := St) (Lk := Lk)).

(** The groups by address, netif_igmp_data of the interfaces by their number (no
    entry is NULL), the pool, the number of calls of LWIP_RAND so far, the calls of
    igmp_mac_filter (interface, address, whether the address was added), the two
    static addresses and the counter lwip_stats.igmp.memerr (the other counters are
    left out). *)
Record igmp := Igmp {
  i_net : inet;
  i_groups : gmap Z igmp_group;
  i_heads : gmap Z Z;
  i_pool : Pl;
  i_rand : nat;
  i_filter : list (Z * Z * bool);
  allsystems : Z;
  allrouters : Z;
  i_memerr : Z
}.

Definition with_net (s : igmp) (x : inet) : igmp :=
  Igmp x (i_groups s) (i_heads s) (i_pool s) (i_rand s) (i_filter s) (allsystems s) (allrouters s) (i_memerr s).
Definition with_groups (s : igmp) (x : gmap Z igmp_group) : igmp :=
  Igmp (i_net s) x (i_heads s) (i_pool s) (i_rand s) (i_filter s) (allsystems s) (allrouters s) (i_memerr s).
Definition with_heads (s : igmp) (x : gmap Z Z) : igmp :=
  Igmp (i_net s) (i_groups s) x (i_pool s) (i_rand s) (i_filter s) (allsystems s) (allrouters s) (i_memerr s).
Definition with_pool (s : igmp) (x : Pl) : igmp :=
  Igmp (i_net s) (i_groups s) (i_heads s) x (i_rand s) (i_filter s) (allsystems s) (allrouters s) (i_memerr s).
Definition with_rand (s : igmp) (x : nat) : igmp :=
  Igmp (i_net s) (i_groups s) (i_heads s) (i_pool s) x (i_filter s) (allsystems s) (allrouters s) (i_memerr s).
Definition with_filter (s : igmp) (x : list (Z * Z * bool)) : igmp :=
  Igmp (i_net s) (i_groups s) (i_heads s) (i_pool s) (i_rand s) x (allsystems s) (allrouters s) (i_memerr s).

Definition with_memerr (s : igmp) (x : Z) : igmp :=
  Igmp (i_net s) (i_groups s) (i_heads s) (i_pool s) (i_rand s) (i_filter s) (allsystems s) (allrouters s) x.

Definition netif_igmp_data (s : igmp) (nif : netif) : Z := default NULL (i_heads s !! netif_num nif).
Definition set_igmp_data (s : igmp) (nif : netif) (x : Z) : igmp := with_heads s (<[netif_num nif := x]> (i_heads s)).

(** Following a pointer to a group; a freed element is a dangling pointer. *)
Definition group_at (s : igmp) (a : Z) : outcome igmp_group :=
  match i_groups s !! a with Some g => Ret g | None => Trap "igmp: dangling group pointer" end.
Definition set_group (s : igmp) (a : Z) (g : igmp_group) : igmp := with_groups s (<[a := g]> (i_groups s)).

(** Enough rounds for a loop over a list of groups. *)
Definition group_fuel (s : igmp) : nat := S (size (i_groups s)).

(** netif->igmp_mac_filter, called when it is not NULL. *)
Definition igmp_mac_filter (s : igmp) (nif : netif) (addr : Z) (add : bool) : igmp :=
  if netif_igmp_mac_filter nif then with_filter s (i_filter s ++ [(netif_num nif, addr, add)]) else s.

(** ** Messages *)

Definition igmp_ip_output_if (n : inet) (p : Z) (src dest : Z) (nif : netif) : outcome (err_t * inet) :=
  let ra := le_list 2 (PP_HTONS ROUTER_ALERT) ++ le_list 2 0 in
  ip4_output_if_opt n p (Some src) (Some dest) IGMP_TTL 0 IP_PROTO_IGMP nif ra ROUTER_ALERTLEN.

Definition igmp_send (s : igmp) (nif : netif) (group : Z) (type : Z) : outcome igmp :=
  '(p, ps) ← pbuf_alloc (n_ps (i_net s)) PBUF_TRANSPORT IGMP_MINLEN PBUF_RAM;
  let s := with_net s (with_ps (i_net s) ps) in
  if negb (p =? NULL) then
    b ← deref ps p;
    let igmp := p_payload b in
    LWIP_ASSERT "igmp_send: check that first pbuf can hold struct igmp_msg" (8 <=? p_len b);;
    let src := netif_ip4_addr nif in
    g ← group_at s group;
    let '(s, dest, m) :=
      if type =? IGMP_V2_MEMB_REPORT then
        (set_group s group (with_reporter g 1), group_address g, igmp_group_address_set (data ps) igmp (group_address g))
      else if type =? IGMP_LEAVE_GROUP then
        (s, allrouters s, igmp_group_address_set (data ps) igmp (group_address g))
      else (s, NULL, data ps) in
    n ← (if (type =? IGMP_V2_MEMB_REPORT) || (type =? IGMP_LEAVE_GROUP) then
           let m := igmp_msgtype_set m igmp type in
           let m := igmp_maxresp_set m igmp 0 in
           let m := igmp_checksum_set m igmp 0 in
           let m := igmp_checksum_set m igmp (inet_chksum igmp (read_bytes m igmp (Z.to_nat IGMP_MINLEN))) in
           '(_, n) ← igmp_ip_output_if (with_ps (i_net s) (with_data ps m)) p src dest nif;
           Ret n
         else Ret (i_net s));
    '(_, ps) ← pbuf_free (n_ps n) p;
    Ret (with_net s (with_ps n ps))
  else Ret (with_memerr s (u16 (i_memerr s + 1))).

(** ** Timers *)

Definition igmp_start_timer (s : igmp) (group max_time : Z) : outcome igmp :=
  g ← group_at s group;
  let '(t, s) := if 2 <? max_time then (u16 (rnd (i_rand s) mod max_time), with_rand s (S (i_rand s))) else (1, s) in
  let t := if t =? 0 then 1 else t in
  Ret (set_group s group (with_timer g t)).

Definition igmp_delaying_member (s : igmp) (group maxresp : Z) : outcome igmp :=
  g ← group_at s group;
  if (group_state g =? IGMP_GROUP_IDLE_MEMBER)
     || ((group_state g =? IGMP_GROUP_DELAYING_MEMBER) && ((g_timer g =? 0) || (maxresp <? g_timer g)))
  then
    s ← igmp_start_timer s group maxresp;
    g ← group_at s group;
    Ret (set_group s group (with_state g IGMP_GROUP_DELAYING_MEMBER))
  else Ret s.

(** The loops that delay a report for every group from [group] on. *)
Fixpoint delaying_loop (fuel : nat) (s : igmp) (group maxresp : Z) : outcome igmp :=
  if group =? NULL then Ret s
  else
    match fuel with
    | O => Trap "igmp: fuel"
    | S fuel =>
        s ← igmp_delaying_member s group maxresp;
        g ← group_at s group;
        delaying_loop fuel s (g_next g) maxresp
    end.

Definition igmp_timeout (s : igmp) (nif : netif) (group : Z) : outcome igmp :=
  g ← group_at s group;
  if (group_state g =? IGMP_GROUP_DELAYING_MEMBER) && negb (ip4_addr_cmp (group_address g) (allsystems s))
  then igmp_send (set_group s group (with_state g IGMP_GROUP_IDLE_MEMBER)) nif group IGMP_V2_MEMB_REPORT
  else Ret s.

(** The loop of igmp_tmr over the groups of one interface. *)
Fixpoint tmr_loop (fuel : nat) (s : igmp) (nif : netif) (group : Z) : outcome igmp :=
  if group =? NULL then Ret s
  else
    match fuel with
    | O => Trap "igmp: fuel"
    | S fuel =>
        g ← group_at s group;
        s ← (if 0 <? g_timer g then
               let t := u16 (g_timer g - 1) in
               let s := set_group s group (with_timer g t) in
               if t =? 0 then igmp_timeout s nif group else Ret s
             else Ret s);
        g ← group_at s group;
        tmr_loop fuel s nif (g_next g)
    end.

Fixpoint igmp_tmr (s : igmp) (nifs : list netif) : outcome igmp :=
  match nifs with
  | [] => Ret s
  | nif :: nifs =>
      s ← tmr_loop (group_fuel s) s nif (netif_igmp_data s nif);
      igmp_tmr s nifs
  end.

(** ** The lists of groups *)

Fixpoint lookfor_loop (fuel : nat) (s : igmp) (group addr : Z) : outcome Z :=
  if group =? NULL then Ret NULL
  else
    match fuel with
    | O => Trap "igmp: fuel"
    | S fuel =>
        g ← group_at s group;
        if ip4_addr_cmp (group_address g) addr then Ret group else lookfor_loop fuel s (g_next g) addr
    end.

Definition igmp_lookfor_group (s : igmp) (ifp : netif) (addr : Z) : outcome Z :=
  lookfor_loop (group_fuel s) s (netif_igmp_data s ifp) addr.

Definition igmp_lookup_group (s : igmp) (ifp : netif) (addr : Z) : outcome (Z * igmp) :=
  let list_head := netif_igmp_data s ifp in
  group ← igmp_lookfor_group s ifp addr;
  if negb (group =? NULL) then Ret (group, s)
  else
    '(r, pool) ← pool_malloc (i_pool s);
    let s := with_pool s pool in
    match r with
    | None => Ret (NULL, s)
    | Some group =>
        if list_head =? NULL then
          LWIP_ASSERT "igmp_lookup_group: first group must be allsystems" (ip4_addr_cmp addr (allsystems s));;
          Ret (group, set_igmp_data (set_group s group (IgmpGroup NULL addr 0 IGMP_GROUP_NON_MEMBER 0 0)) ifp group)
        else
          LWIP_ASSERT "igmp_lookup_group: all except first group must not be allsystems" (negb (ip4_addr_cmp addr (allsystems s)));;
          h ← group_at s list_head;
          let s := set_group s group (IgmpGroup (g_next h) addr 0 IGMP_GROUP_NON_MEMBER 0 0) in
          Ret (group, set_group s list_head (with_next h group))
    end.

Fixpoint remove_loop (fuel : nat) (s : igmp) (tmp_group group : Z) : outcome (err_t * igmp) :=
  if tmp_group =? NULL then Ret (ERR_ARG, s)
  else
    match fuel with
    | O => Trap "igmp: fuel"
    | S fuel =>
        t ← group_at s tmp_group;
        if g_next t =? group then
          g ← group_at s group;
          Ret (ERR_OK, set_group s tmp_group (with_next t (g_next g)))
        else remove_loop fuel s (g_next t) group
    end.

Definition igmp_remove_group (s : igmp) (nif : netif) (group : Z) : outcome (err_t * igmp) :=
  remove_loop (group_fuel s) s (netif_igmp_data s nif) group.

(** memp_free(MEMP_IGMP_GROUP, group) *)
Definition free_group (s : igmp) (group : Z) : outcome igmp :=
  pool ← pool_free (i_pool s) group;
  Ret (with_groups (with_pool s pool) (delete group (i_groups s))).

(** ** Starting, stopping, reporting *)

Definition igmp_init (s : igmp) : igmp :=
  Igmp (i_net s) (i_groups s) (i_heads s) (i_pool s) (i_rand s) (i_filter s) (IP4_ADDR 224 0 0 1) (IP4_ADDR 224 0 0 2) (i_memerr s).

Definition igmp_start (s : igmp) (nif : netif) : outcome (err_t * igmp) :=
  '(group, s) ← igmp_lookup_group s nif (allsystems s);
  if negb (group =? NULL) then
    g ← group_at s group;
    let s := set_group s group (with_use (with_state g IGMP_GROUP_IDLE_MEMBER) (u8 (g_use g + 1))) in
    Ret (ERR_OK, igmp_mac_filter s nif (allsystems s) true)
  else Ret (ERR_MEM, s).

Fixpoint stop_loop (fuel : nat) (s : igmp) (nif : netif) (group : Z) : outcome igmp :=
  if group =? NULL then Ret s
  else
    match fuel with
    | O => Trap "igmp: fuel"
    | S fuel =>
        g ← group_at s group;
        let s := igmp_mac_filter s nif (group_address g) false in
        s ← free_group s group;
        stop_loop fuel s nif (g_next g)
    end.

Definition igmp_stop (s : igmp) (nif : netif) : outcome (err_t * igmp) :=
  let group := netif_igmp_data s nif in
  s ← stop_loop (group_fuel s) (set_igmp_data s nif NULL) nif group;
  Ret (ERR_OK, s).

(** The groups of an interface but the first, the all-systems group. *)
Definition second_group (s : igmp) (nif : netif) : outcome Z :=
  let group := netif_igmp_data s nif in
  if negb (group =? NULL) then g ← group_at s group; Ret (g_next g) else Ret group.

Definition igmp_report_groups (s : igmp) (nif : netif) : outcome igmp :=
  group ← second_group s nif;
  delaying_loop (group_fuel s) s group IGMP_JOIN_DELAYING_MEMBER_TMR.

(** ** Input *)

Definition with_packet (s : igmp) (m : bytes) : igmp :=
  with_net s (with_ps (i_net s) (with_data (n_ps (i_net s)) m)).
Definition packet_data (s : igmp) : bytes := data (n_ps (i_net s)).

(** case IGMP_MEMB_QUERY of the switch; [h] is the message, [group] the group of the
    destination address. *)
Definition memb_query (s : igmp) (inp : netif) (h dest group : Z) : outcome igmp :=
  if ip4_addr_cmp dest (allsystems s) && ip4_addr_isany_val (igmp_group_address (packet_data s) h) then
    let s := if igmp_maxresp (packet_data s) h =? 0
             then with_packet s (igmp_maxresp_set (packet_data s) h IGMP_V1_DELAYING_MEMBER_TMR) else s in
    groupref ← second_group s inp;
    delaying_loop (group_fuel s) s groupref (igmp_maxresp (packet_data s) h)
  else if negb (ip4_addr_isany_val (igmp_group_address (packet_data s) h)) then
    group ← (if ip4_addr_cmp dest (allsystems s) then igmp_lookfor_group s inp (igmp_group_address (packet_data s) h)
             else Ret group);
    if negb (group =? NULL) then igmp_delaying_member s group (igmp_maxresp (packet_data s) h) else Ret s
  else Ret s.

(** case IGMP_V2_MEMB_REPORT *)
Definition memb_report (s : igmp) (group : Z) : outcome igmp :=
  g ← group_at s group;
  if group_state g =? IGMP_GROUP_DELAYING_MEMBER
  then Ret (set_group s group (with_reporter (with_state (with_timer g 0) IGMP_GROUP_IDLE_MEMBER) 0))
  else Ret s.

Definition igmp_input (s : igmp) (p : Z) (inp : netif) (dest : Z) : outcome igmp :=
  let finish s := '(_, ps) ← pbuf_free (n_ps (i_net s)) p; Ret (with_net s (with_ps (i_net s) ps)) in
  b ← deref (n_ps (i_net s)) p;
  if p_len b <? IGMP_MINLEN then finish s
  else
    let h := p_payload b in
    if negb (inet_chksum h (read_bytes (packet_data s) h (Z.to_nat (p_len b))) =? 0) then finish s
    else
      group ← igmp_lookfor_group s inp dest;
      if group =? NULL then finish s
      else
        s ← (if igmp_msgtype (packet_data s) h =? IGMP_MEMB_QUERY then memb_query s inp h dest group
             else if igmp_msgtype (packet_data s) h =? IGMP_V2_MEMB_REPORT then memb_report s group
             else Ret s);
        finish s.

(** ** Joining and leaving *)

Definition igmp_joingroup_netif (s : igmp) (nif : netif) (groupaddr : Z) : outcome (err_t * igmp) :=
  LWIP_ERROR "igmp_joingroup_netif: attempt to join non-multicast address" (ip4_addr_ismulticast groupaddr);;
  LWIP_ERROR "igmp_joingroup_netif: attempt to join allsystems address" (negb (ip4_addr_cmp groupaddr (allsystems s)));;
  LWIP_ERROR "igmp_joingroup_netif: attempt to join on non-IGMP netif" (negb (Z.land (netif_flags nif) NETIF_FLAG_IGMP =? 0));;
  '(group, s) ← igmp_lookup_group s nif groupaddr;
  if negb (group =? NULL) then
    g ← group_at s group;
    s ← (if negb (group_state g =? IGMP_GROUP_NON_MEMBER) then Ret s
         else
           let s := if g_use g =? 0 then igmp_mac_filter s nif groupaddr true else s in
           s ← igmp_send s nif group IGMP_V2_MEMB_REPORT;
           s ← igmp_start_timer s group IGMP_JOIN_DELAYING_MEMBER_TMR;
           g ← group_at s group;
           Ret (set_group s group (with_state g IGMP_GROUP_DELAYING_MEMBER)));
    g ← group_at s group;
    Ret (ERR_OK, set_group s group (with_use g (u8 (g_use g + 1))))
  else Ret (ERR_MEM, s).

(** The interfaces igmp_joingroup and igmp_leavegroup act on. *)
Definition igmp_netif_matches (nif : netif) (ifaddr : Z) : bool :=
  negb (Z.land (netif_flags nif) NETIF_FLAG_IGMP =? 0)
  && (ip4_addr_isany_val ifaddr || ip4_addr_cmp (netif_ip4_addr nif) ifaddr).

Fixpoint join_loop (s : igmp) (nifs : list netif) (ifaddr groupaddr : Z) (err : err_t) : outcome (err_t * igmp) :=
  match nifs with
  | [] => Ret (err, s)
  | nif :: nifs =>
      if igmp_netif_matches nif ifaddr then
        '(err, s) ← igmp_joingroup_netif s nif groupaddr;
        if negb (bool_decide (err = ERR_OK)) then Ret (err, s) else join_loop s nifs ifaddr groupaddr err
      else join_loop s nifs ifaddr groupaddr err
  end.

Definition igmp_joingroup (s : igmp) (nifs : list netif) (ifaddr groupaddr : Z) : outcome (err_t * igmp) :=
  LWIP_ERROR "igmp_joingroup: attempt to join non-multicast address" (ip4_addr_ismulticast groupaddr);;
  LWIP_ERROR "igmp_joingroup: attempt to join allsystems address" (negb (ip4_addr_cmp groupaddr (allsystems s)));;
  join_loop s nifs ifaddr groupaddr ERR_VAL.

Definition igmp_leavegroup_netif (s : igmp) (nif : netif) (groupaddr : Z) : outcome (err_t * igmp) :=
  LWIP_ERROR "igmp_leavegroup_netif: attempt to leave non-multicast address" (ip4_addr_ismulticast groupaddr);;
  LWIP_ERROR "igmp_leavegroup_netif: attempt to leave allsystems address" (negb (ip4_addr_cmp groupaddr (allsystems s)));;
  LWIP_ERROR "igmp_leavegroup_netif: attempt to leave on non-IGMP netif" (negb (Z.land (netif_flags nif) NETIF_FLAG_IGMP =? 0));;
  group ← igmp_lookfor_group s nif groupaddr;
  if negb (group =? NULL) then
    g ← group_at s group;
    if g_use g <=? 1 then
      '(_, s) ← igmp_remove_group s nif group;
      g ← group_at s group;
      s ← (if negb (last_reporter_flag g =? 0) then igmp_send s nif group IGMP_LEAVE_GROUP else Ret s);
      let s := igmp_mac_filter s nif groupaddr false in
      s ← free_group s group;
      Ret (ERR_OK, s)
    else Ret (ERR_OK, set_group s group (with_use g (u8 (g_use g - 1))))
  else Ret (ERR_VAL, s).

Fixpoint leave_loop (s : igmp) (nifs : list netif) (ifaddr groupaddr : Z) (err : err_t) : outcome (err_t * igmp) :=
  match nifs with
  | [] => Ret (err, s)
  | nif :: nifs =>
      if igmp_netif_matches nif ifaddr then
        '(res, s) ← igmp_leavegroup_netif s nif groupaddr;
        leave_loop s nifs ifaddr groupaddr (if negb (bool_decide (err = ERR_OK)) then res else err)
      else leave_loop s nifs ifaddr groupaddr err
  end.

Definition igmp_leavegroup (s : igmp) (nifs : list netif) (ifaddr groupaddr : Z) : outcome (err_t * igmp) :=
  LWIP_ERROR "igmp_leavegroup: attempt to leave non-multicast address" (ip4_addr_ismulticast groupaddr);;
  LWIP_ERROR "igmp_leavegroup: attempt to leave allsystems address" (negb (ip4_addr_cmp groupaddr (allsystems s)));;
  leave_loop s nifs ifaddr groupaddr ERR_VAL.
End Igmp.
