(* ===== verification/IgmpSpec.v ===== *)
(** * Properties of IGMP

    The invariant of the lists of groups, what each operation of Igmp.v does to them,
    the messages, and the behaviour of the timers. *)

From S2P Require Import Prelude Def ListSeg InetChksum Ip4Addr Mem Memp Pbuf PbufMem PbufRef PbufChain PbufData Header Ip4 Ip4Frag Igmp.

#[local] Open Scope Z_scope.
#[local] Coercion Z.of_nat : nat >-> Z.

(** ** Specification: the messages (RFC 2236) *)

Definition igmp_message (type addr chk : Z) : list Z := [type; 0; chk mod 256; chk / 256] ++ le_bytes4 addr.

(** [f] is an IGMP message about [addr] from [src] to [dest] in an IP packet with the
    router alert option, TTL 1 and valid checksums. *)
Definition igmp_packet (src id type dest addr : Z) (f : list Z) : Prop :=
  exists hchk chk, let hdr := ip_header 24 0 32 id 0 1 2 hchk src dest ++ [0x94; 0x04; 0; 0] in
    f = hdr ++ igmp_message type addr chk
    /\ inet_chksum 0 hdr = 0 /\ inet_chksum 0 (igmp_message type addr chk) = 0.

Section Facts.
Context `{MO : MemOptions} {MOk : MemOptionsOk} `{PO : PbufOptions} {POk : PbufOptionsOk} {St : Type} `{!PacketMemory St}
  {Lk : Type} `{LL : !LinkLayer Lk St} {Pl : Type} `{EP : !ElementPool Pl} (rnd : nat -> Z).
Abbreviation inet := (net (St := St) (Lk := Lk)).
Abbreviation igmp := (igmp (St := St) (Lk := Lk) (Pl := Pl)).

(** ** Lemmas: sending *)

(** The interfaces IGMP can send on: the address is one, and the MTU fits. *)
Definition netif_ok (nif : netif) : Prop :=
  is_u32 (netif_ip4_addr nif) /\ (netif_mtu nif = 0 \/ 32 <= netif_mtu nif).

Lemma igmp_message_spec m a type addr :
  is_u8 type -> is_u32 addr ->
  let m1 := igmp_checksum_set (igmp_maxresp_set (igmp_msgtype_set (igmp_group_address_set m a addr) a type) a 0) a 0 in
  let m2 := igmp_checksum_set m1 a (inet_chksum a (read_bytes m1 a 8)) in
  exists chk, read_bytes m2 a 8 = igmp_message type addr chk /\ inet_chksum 0 (igmp_message type addr chk) = 0
    /\ forall x, ~ (a <= x < a + 8) -> byte m2 x = byte m x.
Proof.
  intros Ht Ha m1 m2.
  assert (Hm1 : read_bytes m1 a 8 = igmp_message type addr 0).
  { unfold m1, igmp_checksum_set, igmp_maxresp_set, igmp_msgtype_set, igmp_group_address_set.
    rewrite !read_store_at by lia. rewrite read_store_0 by lia. rewrite read_store_at by lia.
    pose proof (read_bytes_length m a 8) as HM. clear m1 m2. generalize dependent (read_bytes m a 8). intros y HM. explode 8 y HM.
    unfold igmp_message, le_bytes4. splices. rewrite !Z.div_div by lia.
    repeat match goal with |- _ :: _ = _ :: _ => apply f_equal2 end; try done; wrap_solve. }
  set (chk := inet_chksum a (read_bytes m1 a 8)) in m2. exists chk.
  pose proof (inet_chksum_range a (read_bytes m1 a 8)) as Hc. fold chk in Hc. split_and!.
  - unfold m2, igmp_checksum_set. rewrite read_store_at by lia. rewrite Hm1. unfold igmp_message, le_bytes4. splices.
    repeat match goal with |- _ :: _ = _ :: _ => apply f_equal2 end; try done; wrap_solve.
  - unfold chk. rewrite Hm1. apply (chksum_field_verifies a 0 [type; 0] (le_bytes4 addr)); try done.
    + repeat constructor; try done; unfold_c; lia.
    + apply le_bytes4_range.
  - intros x Hx. unfold m2, m1, igmp_checksum_set, igmp_maxresp_set, igmp_msgtype_set, igmp_group_address_set.
    rewrite !byte_store by lia. done.
Qed.

(** The packet in [q] with the message [msg] is sent with the router alert option and
    freed. *)
Lemma igmp_output_spec (n : inet) B ext q b src dest nif :
  net_inv n B (ext_add ext q) -> is_u16 (ip_id n) -> chain (n_ps n) q [(q, b)] -> q <> NULL -> p_ref b = 1 -> p_tot_len b = 8 ->
  headroom q b [] 24 -> is_u32 dest -> is_u32 src -> src = netif_ip4_addr nif -> netif_mtu nif = 0 \/ 32 <= netif_mtu nif ->
  exists e c n1 ps B' hchk, igmp_ip_output_if n q src dest nif = Ret (e, n1) /\ pbuf_free (n_ps n1) q = Ret (c, ps)
    /\ net_ok (with_ps n1 ps) B' ext
    /\ let hdr := ip_header 24 0 32 (ip_id n) 0 1 2 hchk src dest ++ [0x94; 0x04; 0; 0] in
       link_log (n_lk n1) = link_log (n_lk n) ++ [(netif_num nif, dest, hdr ++ contents (data (n_ps n)) [(q, b)])]
       /\ inet_chksum 0 hdr = 0.
Proof.
  intros HI Hid Hc Hq Hr Ht Hroom Hd Hs Hsrc Hmtu. set (ra := [0x94; 0x04; 0; 0]).
  destruct (output_opt_src_spec n B (ext_add ext q) q b [] (Some src) dest 1 0 2 nif ra 0) as (e & n1 & B1 & hchk & E & HI1 & Hid1 & Hlog & [Hv _]);
    try done; try (unfold_c; cbn; lia).
  { unfold ext_add. rewrite decide_True by done. lia. } { repeat constructor; unfold_c; lia. } { rewrite Ht. exact Hmtu. }
  destruct (free_inv (n_ps n1) B1 (λ a, (ext a + link_holds (n_lk n1) a)%nat) q) as (c & ps & B2 & Ef & HI2 & _); [|done|].
  { eapply inv_ext_eq; [|exact HI1]. intros a _. unfold ext_add. case_decide; lia. }
  exists e, c, n1, ps, B2, hchk. rewrite Ht in Hlog, Hv. change (pad4 ra) with ra in Hlog, Hv.
  split_and!; [|exact Ef|split; [exact HI2|cbn; rewrite Hid1; apply u16_range]|split; [exact Hlog|exact Hv]].
  unfold igmp_ip_output_if, ip4_output_if_opt. cbn [default option_map from_option].
  rewrite <- Hsrc.
  change (le_list 2 (PP_HTONS ROUTER_ALERT) ++ le_list 2 0) with ra. change (Z.of_nat (length ra)) with ROUTER_ALERTLEN in E.
  case_if; exact E.
Qed.

Lemma transport_room : 24 <= PBUF_TRANSPORT.
Proof. pose proof hlen_range as (? & ? & ? & ?). unfold PBUF_TRANSPORT, PBUF_TRANSPORT_HLEN. lia. Qed.

(** A message is allocated, written, sent and freed: what is left is what the
    interface was given, unless there was no memory. *)
Lemma igmp_send_spec (s : igmp) B ext nif a g type :
  net_ok (i_net s) B ext -> netif_ok nif -> i_groups s !! a = Some g -> is_u32 (group_address g) -> is_u32 (allrouters s) ->
  type = IGMP_V2_MEMB_REPORT \/ type = IGMP_LEAVE_GROUP ->
  let report := type =? IGMP_V2_MEMB_REPORT in
  exists n B', net_ok n B' ext
    /\ ((igmp_send s nif a type = Ret (with_memerr (with_net s n) (u16 (i_memerr s + 1))) /\ link_log (n_lk n) = link_log (n_lk (i_net s))
         /\ exists st, ram_fits PBUF_TRANSPORT 8 -> pm_mem_malloc (pmem (n_ps (i_net s))) (ram_request PBUF_TRANSPORT 8) = Ret (None, st))
        \/ exists f, let dest := if report then group_address g else allrouters s in
             igmp_send s nif a type = Ret (with_net (if report then set_group s a (with_reporter g 1) else s) n)
             /\ link_log (n_lk n) = link_log (n_lk (i_net s)) ++ [(netif_num nif, dest, f)]
             /\ igmp_packet (netif_ip4_addr nif) (ip_id (i_net s)) type dest (group_address g) f).
Proof.
  intros [HI Hid] [Hna Hmtu] Hg Hga Hra Htype report. set (dest := if report then group_address g else allrouters s).
  pose proof transport_room as Htr. assert (Hlay : 0 <= PBUF_TRANSPORT <= PBUF_TRANSPORT) by lia.
  assert (Ht8 : is_u8 type) by (unfold_c; destruct Htype as [->| ->]; unfold IGMP_V2_MEMB_REPORT, IGMP_LEAVE_GROUP; lia).
  destruct (alloc_ram_one (n_ps (i_net s)) B _ PBUF_TRANSPORT 8 HI Hlay ltac:(unfold_c; lia)) as [(st & Em & E & HI')|(q & st & k & x & E & Hx & Hq & Hnew & HI')].
  { exists (with_ps (i_net s) (with_pmem (n_ps (i_net s)) st)), B. split; [done|]. left. unfold igmp_send, IGMP_MINLEN. rewrite E.
    cbn [mbind outcome_bind]. rewrite Z.eqb_refl. by eauto. }
  cbn zeta in E, HI'. set (b := Pbuf NULL x 8 8 _ _ _ _) in *. set (s1 := set_pbuf _ q b) in *.
  destruct (igmp_message_spec (data s1) x type (group_address g) Ht8 Hga) as (chk & Hrd & Hv & _).
  set (m1 := igmp_checksum_set (igmp_maxresp_set _ _ _) _ 0) in *. set (m2 := igmp_checksum_set m1 _ _) in *.
  set (s2 := with_data s1 m2) in *.
  destruct (igmp_output_spec (with_ps (i_net s) s2) (<[q := BHeap k]> B) ext q b (netif_ip4_addr nif) dest nif)
    as (e & c & n1 & ps & B' & hchk & Eo & Ef & Hok & Hlog & Hhv); try done.
  { eapply inv_ext_eq; [|apply inv_data; exact HI']. intros y _. unfold ext_add. cbn. case_decide; lia. }
  { split; [split_and!; [done|apply lookup_insert_eq|done]|]. cbn. unfold_c. lia. }
  { destruct (layer_facts _ Hlay) as (? & _). split_and!; [done|cbn; rewrite Hx; lia|cbn; lia|]. intros y _ Hy. by apply not_elem_of_nil in Hy. }
  { unfold dest. by case_match. }
  exists (with_ps n1 ps), B'. split; [done|]. right.
  exists ((ip_header 24 0 32 (ip_id (i_net s)) 0 1 2 hchk (netif_ip4_addr nif) dest ++ [0x94; 0x04; 0; 0]) ++ igmp_message type (group_address g) chk).
  split_and!; [|rewrite <- Hrd; exact Hlog|by exists hchk, chk].
  unfold igmp_send, IGMP_MINLEN. rewrite E. cbn [mbind outcome_bind]. rewrite (proj2 (Z.eqb_neq q NULL)) by done. cbn [negb].
  rewrite (deref_ok s1 q b) by apply lookup_insert_eq. cbn [mbind outcome_bind]. rewrite LWIP_ASSERT_ok by done. cbn [mbind outcome_bind].
  unfold group_at at 1. cbn [with_net i_groups]. rewrite Hg. cbn [mbind outcome_bind].
  change (Z.to_nat 8) with 8%nat. change (p_payload b) with x.
  destruct Htype as [-> | ->]; cbv iota beta zeta delta [report Z.eqb IGMP_V2_MEMB_REPORT IGMP_LEAVE_GROUP Pos.eqb orb] in *; fold m1 m2.
  all: match goal with |- context [igmp_ip_output_if ?n _ _ _ _] => change n with (with_ps (i_net s) s2) end.
  all: change (allrouters (with_net s (with_ps (i_net s) s1))) with (allrouters s).
  all: unfold dest in Eo; rewrite Eo; cbn [mbind outcome_bind]; rewrite Ef; cbn [mbind outcome_bind]; done.
Qed.

(** ** The invariant *)

(** The lists [L] of groups of the interfaces: they are linked in memory, hold every
    group once, and the pool has handed out exactly their elements. *)
Record shape (G : gmap Z igmp_group) (H : gmap Z Z) (P : Pl) (L : Z -> list (Z * igmp_group)) : Prop := Shape {
  sh_seg n : lseg g_next G (default NULL (H !! n)) (L n) NULL;
  sh_dom a : is_Some (G !! a) -> exists n, a ∈ (L n).*1;
  sh_apart n n' : n <> n' -> (L n).*1 ## (L n').*1;
  sh_pool : pool_holds P (map_to_list G).*1
}.

(** A group the host is a member of: its timer runs exactly in state "delaying". *)
Definition member_ok (sys : Z) (g : igmp_group) : Prop :=
  is_u32 (group_address g) /\ ip4_addr_ismulticast (group_address g) = true /\ group_address g <> sys /\ is_u8 (g_use g)
  /\ (group_state g = IGMP_GROUP_DELAYING_MEMBER /\ 0 < g_timer g < 256 \/ group_state g = IGMP_GROUP_IDLE_MEMBER /\ g_timer g = 0).

(** The list of an interface: the all-systems group first, then the groups joined,
    each once. *)
Definition list_ok (sys : Z) (l : list (Z * igmp_group)) : Prop :=
  match l with
  | [] => True
  | (_, g) :: l =>
      group_address g = sys /\ is_u8 (g_use g) /\ 0 <= g_timer g < 256
      /\ Forall (λ x, member_ok sys x.2) l /\ NoDup ((λ x, group_address x.2) <$> l)
  end.

Record igmp_inv (s : igmp) (L : Z -> list (Z * igmp_group)) : Prop := IgmpInv {
  gi_shape : shape (i_groups s) (i_heads s) (i_pool s) L;
  gi_list n : list_ok (allsystems s) (L n);
  gi_addrs : allsystems s = IP4_ADDR 224 0 0 1 /\ allrouters s = IP4_ADDR 224 0 0 2
}.

Definition set_list (L : Z -> list (Z * igmp_group)) (n : Z) (l : list (Z * igmp_group)) : Z -> list (Z * igmp_group) :=
  λ m, if decide (m = n) then l else L m.

(** ** Lemmas: the shape *)

Section Shape.
Context G H P L (HS : shape G H P L).

Lemma shape_null : G !! NULL = None.
Proof.
  destruct (G !! NULL) as [g|] eqn:Eg; [|done]. pose proof (pool_holds_pos _ _ (sh_pool _ _ _ _ HS)) as Hp. rewrite Forall_forall in Hp.
  specialize (Hp NULL). unfold NULL in *. assert (0 < 0) as Hz; [|lia]. apply Hp, elem_of_keys. eauto.
Qed.

Lemma shape_lookup n a g : (a, g) ∈ L n -> G !! a = Some g.
Proof. intros Hin. by eapply lseg_lookup; [apply (sh_seg _ _ _ _ HS n)|]. Qed.

Lemma shape_length n : (length (L n) <= size G)%nat.
Proof. eapply lseg_length; [apply (sh_seg _ _ _ _ HS n)|apply shape_null]. Qed.

Lemma shape_NoDup n : NoDup (L n).*1.
Proof. eapply lseg_NoDup; [apply (sh_seg _ _ _ _ HS n)|apply shape_null]. Qed.

Lemma shape_elem n a : a ∈ (L n).*1 -> exists g, (a, g) ∈ L n /\ G !! a = Some g.
Proof.
  intros Ha. apply list_elem_of_fmap in Ha as ([b g] & -> & Ha). exists g. split; [done|]. by eapply shape_lookup.
Qed.

(** A group changes, but not its link. *)
Lemma shape_upd a g g' :
  G !! a = Some g -> g_next g' = g_next g -> shape (<[a := g']> G) H P (λ n, upd a g' (L n)).
Proof.
  intros Ha Hn. split.
  - intros n. eapply lseg_upd; [apply (sh_seg _ _ _ _ HS n)|done|done].
  - intros b Hb. destruct (sh_dom _ _ _ _ HS b) as [n Hin].
    { destruct (decide (b = a)) as [->|Hne]; [eauto|by rewrite lookup_insert_ne in Hb]. }
    exists n. by rewrite upd_fst.
  - intros n n' Hne. rewrite !upd_fst. by apply (sh_apart _ _ _ _ HS).
  - eapply pool_holds_perm; [symmetry; by eapply keys_update|apply (sh_pool _ _ _ _ HS)].
Qed.

(** A new element of the pool is none of the groups. *)
Lemma shape_fresh P' e : pool_holds P' (e :: (map_to_list G).*1) -> G !! e = None /\ e <> NULL /\ forall n, e ∉ (L n).*1.
Proof.
  intros Hp. pose proof (pool_holds_NoDup _ _ Hp) as Hn. apply NoDup_cons in Hn as [Hn _]. pose proof (pool_holds_pos _ _ Hp) as Hpos.
  apply Forall_cons in Hpos as [Hpos _]. assert (HG : G !! e = None) by (apply eq_None_not_Some; by rewrite <- elem_of_keys).
  split_and!; [done|unfold NULL; lia|]. intros n Hin. destruct (shape_elem n e Hin) as (g & _ & Hg). congruence.
Qed.

(** The list of one interface changes, and with it only groups of that list or new
    ones. *)
Lemma shape_change G' H' P' n l' :
  lseg g_next G' (default NULL (H' !! n)) l' NULL -> (forall m, m <> n -> H' !! m = H !! m) ->
  (forall m a, m <> n -> a ∈ (L m).*1 -> G' !! a = G !! a /\ a ∉ l'.*1) ->
  (forall a, is_Some (G' !! a) -> a ∈ l'.*1 \/ is_Some (G !! a) /\ a ∉ (L n).*1) ->
  pool_holds P' (map_to_list G').*1 -> shape G' H' P' (set_list L n l').
Proof.
  intros Hl HH Hm Hdom Hp. split; [| | |done].
  - intros m. unfold set_list. case_decide as Hd; [by subst m|]. rewrite HH by done.
    eapply lseg_frame; [apply (sh_seg _ _ _ _ HS m)|]. intros a g Ha. apply (Hm m a Hd). apply list_elem_of_fmap. by exists (a, g).
  - intros a Ha. destruct (Hdom a Ha) as [Hin|[Hs Hn]]; [exists n; unfold set_list; by rewrite decide_True|].
    destruct (sh_dom _ _ _ _ HS a Hs) as [m Hin]. exists m. unfold set_list. rewrite decide_False; [done|by intros ->].
  - intros m m' Hne x Hx Hx'. unfold set_list in Hx, Hx'. destruct (decide (m = n)), (decide (m' = n)); [congruence|..].
    + by apply (Hm m' x).
    + by apply (Hm m x).
    + by apply (sh_apart _ _ _ _ HS m m' Hne x).
Qed.

(** The first group of an interface. *)
Lemma shape_first P' n e g :
  L n = [] -> pool_holds P' (e :: (map_to_list G).*1) -> g_next g = NULL ->
  shape (<[e := g]> G) (<[n := e]> H) P' (set_list L n [(e, g)]).
Proof.
  intros HL Hp Hg. destruct (shape_fresh P' e Hp) as (HG & He & Hfr). apply shape_change.
  - rewrite lookup_insert_eq. cbn. split_and!; [done|apply lookup_insert_eq|done].
  - intros m Hm. by rewrite lookup_insert_ne.
  - intros m a Hm Ha. assert (a <> e) by (intros ->; by apply (Hfr m)). rewrite lookup_insert_ne by done. split; [done|].
    cbn. by rewrite list_elem_of_singleton.
  - intros a Ha. destruct (decide (a = e)) as [->|Hne]; [left; by left|right]. rewrite lookup_insert_ne in Ha by done.
    split; [done|]. rewrite HL. apply not_elem_of_nil.
  - eapply pool_holds_perm; [symmetry; by apply keys_insert|done].
Qed.

(** A new group behind the first one. *)
Lemma shape_second P' n h hg l e g :
  L n = (h, hg) :: l -> pool_holds P' (e :: (map_to_list G).*1) -> g_next g = g_next hg ->
  shape (<[h := with_next hg e]> (<[e := g]> G)) H P' (set_list L n ((h, with_next hg e) :: (e, g) :: l)).
Proof.
  intros HL Hp Hg. destruct (shape_fresh P' e Hp) as (HG & He & Hfr). pose proof (sh_seg _ _ _ _ HS n) as Hs. rewrite HL in Hs.
  destruct Hs as (Hh & Hhg & Hs). pose proof (shape_NoDup n) as Hnd. rewrite HL in Hnd. apply NoDup_cons in Hnd as [Hhl _].
  assert (Hhe : h <> e) by congruence. assert (Hel : e ∉ l.*1) by (intros Hin; apply (Hfr n); rewrite HL; by right).
  apply shape_change.
  - rewrite Hh. cbn. rewrite lookup_insert_eq, lookup_insert_ne, lookup_insert_eq by done. split_and!; try done. rewrite Hg.
    apply lseg_insert; [|done]. by apply lseg_insert.
  - done.
  - intros m a Hm Ha. assert (a <> e) by (intros ->; by apply (Hfr m)).
    assert (Hnl : a ∉ (h :: l.*1)) by (intros Hin; apply (sh_apart _ _ _ _ HS m n Hm a Ha); by rewrite HL).
    apply not_elem_of_cons in Hnl as [? ?]. rewrite !lookup_insert_ne by done. split; [done|]. cbn. by rewrite !not_elem_of_cons.
  - intros a Ha. destruct (decide (a ∈ h :: e :: l.*1)) as [Hin|Hnin]; [by left|right]. rewrite !not_elem_of_cons in Hnin.
    destruct Hnin as (? & ? & ?). rewrite !lookup_insert_ne in Ha by done. split; [done|]. rewrite HL. cbn. by rewrite not_elem_of_cons.
  - eapply pool_holds_perm; [|exact Hp]. symmetry. rewrite (keys_update _ h hg) by (by rewrite lookup_insert_ne). by apply keys_insert.
Qed.

(** A group behind another one is taken out of its list; the pool has it back. *)
Lemma shape_remove P' n l1 t tg a g l2 :
  L n = l1 ++ (t, tg) :: (a, g) :: l2 -> pool_holds P' (map_to_list (delete a G)).*1 ->
  shape (delete a (<[t := with_next tg (g_next g)]> G)) H P' (set_list L n (l1 ++ (t, with_next tg (g_next g)) :: l2)).
Proof.
  intros HL Hp. pose proof (sh_seg _ _ _ _ HS n) as Hs. rewrite HL in Hs. apply lseg_app in Hs as (q & Hs1 & Hs2).
  destruct Hs2 as (-> & Ht & Ha' & Ha & Hs2). pose proof (shape_NoDup n) as Hnd. rewrite HL, fmap_app in Hnd.
  apply NoDup_app in Hnd as (_ & Hd1 & Hnd). cbn in Hnd, Hd1. apply NoDup_cons in Hnd as [Ht2 Hnd]. apply NoDup_cons in Hnd as [Ha2 _].
  apply not_elem_of_cons in Ht2 as [Hta Ht2].
  assert (Ht1 : t ∉ l1.*1) by (intros Hin; apply (Hd1 t Hin); by left). assert (Ha1 : a ∉ l1.*1) by (intros Hin; apply (Hd1 a Hin); right; by left).
  apply shape_change.
  - apply lseg_app. exists t. split; [by apply lseg_delete, Ha1; apply lseg_insert|]. cbn.
    rewrite lookup_delete_ne, lookup_insert_eq by done. split_and!; try done. apply lseg_delete; [|done]. by apply lseg_insert.
  - done.
  - intros m b Hm Hb. assert (Hnl : b ∉ (L n).*1) by (intros Hin; by apply (sh_apart _ _ _ _ HS m n Hm b)).
    rewrite HL, fmap_app in Hnl. cbn in Hnl. rewrite elem_of_app, !elem_of_cons in Hnl.
    rewrite lookup_delete_ne, lookup_insert_ne by (intros ->; tauto). split; [done|]. rewrite fmap_app. cbn. rewrite elem_of_app, elem_of_cons. tauto.
  - intros b Hb. destruct (decide (b = a)) as [->|Hba]; [by rewrite lookup_delete_eq in Hb; destruct Hb|]. rewrite lookup_delete_ne in Hb by done.
    rewrite HL, !fmap_app. cbn. rewrite !elem_of_app, !elem_of_cons. destruct (decide (b = t)) as [->|Hbt]; [by left; right; left|].
    rewrite lookup_insert_ne in Hb by done. destruct (decide (b ∈ l1.*1)), (decide (b ∈ l2.*1)); try tauto.
  - eapply pool_holds_perm; [|exact Hp]. rewrite delete_insert_ne by done. symmetry. eapply keys_update. by rewrite lookup_delete_ne.
Qed.
End Shape.

Lemma shape_ext G H P L L' : (forall n, L n = L' n) -> shape G H P L -> shape G H P L'.
Proof.
  intros E [H1 H2 H3 H4]. split.
  - intros n. rewrite <- E. apply H1.
  - intros a Ha. destruct (H2 a Ha) as [n Hn]. exists n. by rewrite <- E.
  - intros n n' Hne. rewrite <- !E. by apply H3.
  - done.
Qed.

Lemma set_list_eq L n l : set_list L n l n = l.
Proof. unfold set_list. by rewrite decide_True. Qed.

Lemma set_list_twice L n l l' m : set_list (set_list L n l) n l' m = set_list L n l' m.
Proof. unfold set_list. by case_decide. Qed.

Lemma set_list_id L n m : set_list L n (L n) m = L m.
Proof. unfold set_list. case_decide; [by subst|done]. Qed.

(** One group of the list of [n] changes, but not its link. *)
Lemma shape_upd_in G H P L n l1 a g g' l2 :
  shape G H P L -> L n = l1 ++ (a, g) :: l2 -> g_next g' = g_next g ->
  shape (<[a := g']> G) H P (set_list L n (l1 ++ (a, g') :: l2)).
Proof.
  intros HS HL Hg. assert (Hin : (a, g) ∈ L n) by (rewrite HL; apply elem_of_app; right; by left).
  pose proof (shape_lookup _ _ _ _ HS n a g Hin) as Ha. eapply shape_ext; [|by apply (shape_upd _ _ _ _ HS a g g')].
  intros m. unfold set_list. case_decide as Hd.
  - subst m. rewrite HL, upd_app, upd_cons_eq. pose proof (shape_NoDup _ _ _ _ HS n) as Hnd. rewrite HL, fmap_app in Hnd.
    apply NoDup_app in Hnd as (_ & Hd & Hnd). apply NoDup_cons in Hnd as [Hnd _].
    rewrite !upd_id; [done|done|]. intros Hx. apply (Hd a Hx). by left.
  - apply upd_id. intros Hx. apply (sh_apart _ _ _ _ HS m n Hd a Hx). apply list_elem_of_fmap. by exists (a, g).
Qed.

Lemma lseg_start G p (a : Z) (g : igmp_group) l e : lseg g_next G p ((a, g) :: l) e -> p = a /\ G !! a = Some g /\ lseg g_next G (g_next g) l e.
Proof. done. Qed.

Lemma group_at_ok (s : igmp) a g : i_groups s !! a = Some g -> group_at s a = Ret g.
Proof. intros Ha. unfold group_at. by rewrite Ha. Qed.

(** ** Lemmas: looking for a group *)

Fixpoint find_group (addr : Z) (l : list (Z * igmp_group)) : option (Z * igmp_group) :=
  match l with
  | [] => None
  | (a, g) :: l => if group_address g =? addr then Some (a, g) else find_group addr l
  end.

Lemma find_group_Some addr l a g : find_group addr l = Some (a, g) -> group_address g = addr /\ exists l1 l2, l = l1 ++ (a, g) :: l2.
Proof.
  induction l as [|[b h] l IH]; [done|]. cbn. destruct (Z.eqb_spec (group_address h) addr).
  - intros [= -> ->]. split; [done|]. by exists [], l.
  - intros Hf. destruct (IH Hf) as (? & l1 & l2 & ->). split; [done|]. by exists ((b, h) :: l1), l2.
Qed.

Lemma find_group_None addr l : find_group addr l = None -> Forall (λ x, group_address x.2 <> addr) l.
Proof.
  induction l as [|[b h] l IH]; [constructor|]. cbn. destruct (Z.eqb_spec (group_address h) addr); [done|]. intros Hf. constructor; auto.
Qed.

Lemma lookfor_loop_spec fuel (s : igmp) p l addr :
  lseg g_next (i_groups s) p l NULL -> i_groups s !! NULL = None -> (length l < fuel)%nat ->
  lookfor_loop fuel s p addr = Ret (match find_group addr l with Some (a, _) => a | None => NULL end).
Proof.
  intros Hs Hn. revert p l Hs. induction fuel as [|fuel IH]; intros p [|[a g] l] Hs Hf; cbn in Hf; [lia|lia|..]; cbn [lookfor_loop].
  - cbn in Hs. subst p. by rewrite Z.eqb_refl.
  - apply lseg_start in Hs as (-> & Ha & Hs). rewrite (proj2 (Z.eqb_neq a NULL)) by congruence.
    rewrite (group_at_ok s a g Ha). cbn [mbind outcome_bind find_group]. unfold ip4_addr_cmp. case_if; [done|]. apply IH; [done|lia].
Qed.

Lemma lookfor_spec (s : igmp) L nif addr :
  shape (i_groups s) (i_heads s) (i_pool s) L ->
  igmp_lookfor_group s nif addr = Ret (match find_group addr (L (netif_num nif)) with Some (a, _) => a | None => NULL end).
Proof.
  intros HS. apply lookfor_loop_spec; [apply (sh_seg _ _ _ _ HS)|by eapply shape_null|].
  pose proof (shape_length _ _ _ _ HS (netif_num nif)). unfold group_fuel. lia.
Qed.

(** ** Lemmas: timers *)

(** The value igmp_start_timer takes, with the k-th random number. *)
Definition timer_value (k : nat) (max_time : Z) : Z :=
  let t := if 2 <? max_time then u16 (rnd k mod max_time) else 1 in
  if t =? 0 then 1 else t.

Lemma timer_value_range k m : 0 <= m < 256 -> 1 <= timer_value k m <= Z.max 1 (m - 1).
Proof.
  intros Hm. unfold timer_value. destruct (Z.ltb_spec 2 m); [|cbn; lia]. pose proof (Z.mod_pos_bound (rnd k) m ltac:(lia)).
  rewrite u16_small by lia. case_if; lia.
Qed.

Lemma start_timer_spec (s : igmp) a g m :
  i_groups s !! a = Some g ->
  exists k, igmp_start_timer rnd s a m = Ret (set_group (with_rand s k) a (with_timer g (timer_value (i_rand s) m))).
Proof.
  intros Ha. unfold igmp_start_timer, timer_value. rewrite (group_at_ok s a g Ha). cbn [mbind outcome_bind].
  destruct (2 <? m); [by exists (S (i_rand s))|]. exists (i_rand s). by destruct s.
Qed.

(** When igmp_delaying_member restarts the timer. *)
Definition needs_delay (maxresp : Z) (g : igmp_group) : bool :=
  (group_state g =? IGMP_GROUP_IDLE_MEMBER)
  || ((group_state g =? IGMP_GROUP_DELAYING_MEMBER) && ((g_timer g =? 0) || (maxresp <? g_timer g))).

(** A report of the group is delayed by less than [maxresp]. *)
Definition delayed (maxresp : Z) (g g' : igmp_group) : Prop :=
  if needs_delay maxresp g
  then exists t, 1 <= t <= Z.max 1 (maxresp - 1) /\ g' = with_state (with_timer g t) IGMP_GROUP_DELAYING_MEMBER
  else g' = g.

Lemma delaying_spec (s : igmp) a g m :
  i_groups s !! a = Some g -> 0 <= m < 256 ->
  exists k g', igmp_delaying_member rnd s a m = Ret (set_group (with_rand s k) a g') /\ delayed m g g' /\ g_next g' = g_next g.
Proof.
  intros Ha Hm. unfold igmp_delaying_member, delayed. rewrite (group_at_ok s a g Ha). cbn [mbind outcome_bind]. fold (needs_delay m g).
  destruct (needs_delay m g).
  - destruct (start_timer_spec s a g m Ha) as (k & E). rewrite E. cbn [mbind outcome_bind].
    rewrite (group_at_ok _ a (with_timer g (timer_value (i_rand s) m))) by apply lookup_insert_eq. cbn [mbind outcome_bind].
    exists k. eexists. split_and!; [|eexists; split; [by apply timer_value_range|done]|done].
    unfold set_group. cbn [with_groups i_groups]. by rewrite insert_insert_eq.
  - exists (i_rand s), g. split_and!; [|done|done]. unfold set_group. rewrite insert_id by done. by destruct s.
Qed.

Lemma delaying_loop_spec fuel (s : igmp) L n p l1 l m :
  shape (i_groups s) (i_heads s) (i_pool s) L -> L n = l1 ++ l -> lseg g_next (i_groups s) p l NULL -> (length l < fuel)%nat -> 0 <= m < 256 ->
  exists k G l', delaying_loop rnd fuel s p m = Ret (with_groups (with_rand s k) G)
    /\ shape G (i_heads s) (i_pool s) (set_list L n (l1 ++ l')) /\ Forall2 (λ x y, y.1 = x.1 /\ delayed m x.2 y.2) l l'.
Proof.
  intros HS HL Hs Hf Hm. revert s L p l1 l HS HL Hs Hf. induction fuel as [|fuel IH]; intros s L p l1 [|[a g] l] HS HL Hs Hf; cbn in Hf; [lia|lia|..]; cbn [delaying_loop].
  - cbn in Hs. subst p. rewrite Z.eqb_refl. exists (i_rand s), (i_groups s), []. split_and!; [by destruct s| |constructor].
    eapply shape_ext; [|exact HS]. intros x. rewrite <- HL. by rewrite set_list_id.
  - apply lseg_start in Hs as (-> & Ha & Hs). pose proof (shape_null _ _ _ _ HS) as Hnull.
    rewrite (proj2 (Z.eqb_neq a NULL)) by congruence.
    destruct (delaying_spec s a g m Ha Hm) as (k & g' & E & Hd & Hn). rewrite E. cbn [mbind outcome_bind].
    rewrite (group_at_ok _ a g') by apply lookup_insert_eq. cbn [mbind outcome_bind].
    pose proof (shape_upd_in _ _ _ L n l1 a g g' l HS HL Hn) as HS'.
    destruct (IH (set_group (with_rand s k) a g') _ (g_next g') (l1 ++ [(a, g')]) l HS') as (k' & G & l' & E' & HS2 & HF).
    { rewrite set_list_eq, <- app_assoc. done. }
    { rewrite Hn. apply lseg_insert; [done|]. pose proof (shape_NoDup _ _ _ _ HS n) as Hnd. rewrite HL, fmap_app in Hnd.
      apply NoDup_app in Hnd as (_ & _ & Hnd). by apply NoDup_cons in Hnd as [Hnd _]. }
    { lia. }
    rewrite E'. exists k', G, ((a, g') :: l'). split_and!; [done| |by constructor].
    eapply shape_ext; [|exact HS2]. intros x. rewrite set_list_twice, <- app_assoc. done.
Qed.

(** ** The timer of one group *)

Definition expires (sys : Z) (g : igmp_group) : bool :=
  (group_state g =? IGMP_GROUP_DELAYING_MEMBER) && negb (group_address g =? sys).

(** What one call of igmp_tmr does to a group, what it sends, and the number of
    reports lost because the heap had no room. *)
Inductive tick (sys : Z) (nif : netif) (g : igmp_group) : igmp_group -> list (Z * Z * list Z) -> nat -> Prop :=
  | tick_off : g_timer g = 0 -> tick sys nif g g [] 0
  | tick_run : 1 < g_timer g -> tick sys nif g (with_timer g (g_timer g - 1)) [] 0
  | tick_report id f :
      g_timer g = 1 -> expires sys g = true ->
      igmp_packet (netif_ip4_addr nif) id IGMP_V2_MEMB_REPORT (group_address g) (group_address g) f ->
      tick sys nif g (with_reporter (with_state (with_timer g 0) IGMP_GROUP_IDLE_MEMBER) 1) [(netif_num nif, group_address g, f)] 0
  | tick_lost : g_timer g = 1 -> expires sys g = true -> tick sys nif g (with_state (with_timer g 0) IGMP_GROUP_IDLE_MEMBER) [] 1
  | tick_quiet : g_timer g = 1 -> expires sys g = false -> tick sys nif g (with_timer g 0) [] 0.

Inductive ticks (sys : Z) (nif : netif) : list (Z * igmp_group) -> list (Z * igmp_group) -> list (Z * Z * list Z) -> nat -> Prop :=
  | ticks_nil : ticks sys nif [] [] [] 0
  | ticks_cons a g g' l l' fs fs' k k' :
      tick sys nif g g' fs k -> ticks sys nif l l' fs' k' -> ticks sys nif ((a, g) :: l) ((a, g') :: l') (fs ++ fs') (k + k').

(** The counter after [k] more messages lost. *)
Definition bump (k : nat) (x : Z) : Z := Nat.iter k (λ x, u16 (x + 1)) x.

Lemma bump_add k k' x : bump (k + k') x = bump k' (bump k x).
Proof. unfold bump. rewrite Nat.add_comm. apply Nat.iter_add. Qed.

Lemma bump_small (k : nat) x : is_u16 x -> bump k x = u16 (x + k).
Proof.
  intros Hx. induction k as [|k IH]; [by rewrite Z.add_0_r, u16_small|]. change (bump (S k) x) with (u16 (bump k x + 1)). rewrite IH. wrap_solve.
Qed.

Lemma tick_spec (s : igmp) B ext nif a g :
  net_ok (i_net s) B ext -> netif_ok nif -> i_groups s !! a = Some g -> is_u32 (group_address g) -> is_u32 (allrouters s) -> is_u16 (g_timer g) ->
  exists n B' g' fs k,
    (if 0 <? g_timer g then
       let t := u16 (g_timer g - 1) in
       let s := set_group s a (with_timer g t) in
       if t =? 0 then igmp_timeout s nif a else Ret s
     else Ret s) = Ret (with_memerr (with_net (set_group s a g') n) (bump k (i_memerr s)))
    /\ net_ok n B' ext /\ link_log (n_lk n) = link_log (n_lk (i_net s)) ++ fs /\ tick (allsystems s) nif g g' fs k /\ g_next g' = g_next g.
Proof.
  intros Hok Hnif Ha Hga Hra Ht. assert (Hid : forall g', with_memerr (with_net (set_group s a g') (i_net s)) (bump 0 (i_memerr s)) = set_group s a g') by (intros; by destruct s).
  destruct (Z.ltb_spec 0 (g_timer g)) as [Hpos|Hz].
  2:{ exists (i_net s), B, g, [], 0%nat. rewrite app_nil_r, Hid. split_and!; try done; [|constructor; unfold_c; lia].
      unfold set_group. rewrite insert_id by done. by destruct s. }
  cbn zeta. rewrite u16_small by (unfold_c; lia). destruct (Z.eqb_spec (g_timer g - 1) 0) as [H1|H1].
  2:{ exists (i_net s), B, (with_timer g (g_timer g - 1)), [], 0%nat. rewrite app_nil_r, Hid. split_and!; try done. constructor. lia. }
  rewrite H1. unfold igmp_timeout. rewrite (group_at_ok _ a (with_timer g 0)) by apply lookup_insert_eq. cbn [mbind outcome_bind].
  unfold ip4_addr_cmp. cbn [with_timer group_state group_address]. change (allsystems (set_group s a _)) with (allsystems s). fold (expires (allsystems s) g).
  destruct (expires (allsystems s) g) eqn:Hex.
  2:{ exists (i_net s), B, (with_timer g 0), [], 0%nat. rewrite app_nil_r, Hid. split_and!; try done. apply tick_quiet; [lia|done]. }
  set (g1 := with_state (with_timer g 0) IGMP_GROUP_IDLE_MEMBER). set (s1 := set_group (set_group s a (with_timer g 0)) a g1).
  assert (Es1 : forall g', set_group s1 a g' = set_group s a g').
  { intros g'. unfold s1, set_group. cbn [with_groups i_groups]. by rewrite !insert_insert_eq. }
  destruct (igmp_send_spec s1 B ext nif a g1 IGMP_V2_MEMB_REPORT Hok Hnif (lookup_insert_eq _ _ _) Hga Hra (or_introl eq_refl))
    as (n & B' & Hok' & [(E & Hlog & _)|(f & E & Hlog & Hf)]).
  - exists n, B', g1, [], 1%nat. rewrite E, app_nil_r. split_and!; try done; [|apply tick_lost; [lia|done]].
    unfold s1. do 3 f_equal. unfold set_group. cbn [with_groups i_groups]. by rewrite insert_insert_eq.
  - change (IGMP_V2_MEMB_REPORT =? IGMP_V2_MEMB_REPORT) with true in E, Hlog, Hf. cbv iota in E, Hlog, Hf.
    exists n, B', (with_reporter g1 1), [(netif_num nif, group_address g, f)], 0%nat. rewrite E, Es1. split_and!; try done.
    apply (tick_report _ _ _ (ip_id (i_net s)) f); [lia|done|done].
Qed.

Lemma tmr_loop_spec fuel (s : igmp) B ext L n nif p l1 l :
  shape (i_groups s) (i_heads s) (i_pool s) L -> L n = l1 ++ l -> lseg g_next (i_groups s) p l NULL -> (length l < fuel)%nat ->
  net_ok (i_net s) B ext -> netif_ok nif -> is_u32 (allrouters s) -> Forall (λ x, is_u32 (group_address x.2) /\ is_u16 (g_timer x.2)) l ->
  exists n' B' G l' fs k, tmr_loop fuel s nif p = Ret (with_memerr (with_groups (with_net s n') G) (bump k (i_memerr s)))
    /\ shape G (i_heads s) (i_pool s) (set_list L n (l1 ++ l')) /\ net_ok n' B' ext
    /\ link_log (n_lk n') = link_log (n_lk (i_net s)) ++ fs /\ ticks (allsystems s) nif l l' fs k.
Proof.
  intros HS HL Hs Hf Hok Hnif Hra Hl. revert s B L p l1 l HS HL Hs Hf Hok Hra Hl.
  induction fuel as [|fuel IH]; intros s B L p l1 [|[a g] l] HS HL Hs Hf Hok Hra Hl; cbn in Hf; [lia|lia|..]; cbn [tmr_loop].
  - cbn in Hs. subst p. rewrite Z.eqb_refl. exists (i_net s), B, (i_groups s), [], [], 0%nat. rewrite app_nil_r in HL. rewrite !app_nil_r.
    split; [by destruct s|]. split; [|split; [done|split; [done|constructor]]].
    eapply shape_ext; [|exact HS]. intros x. rewrite <- HL. by rewrite set_list_id.
  - apply lseg_start in Hs as (-> & Ha & Hs). pose proof (shape_null _ _ _ _ HS) as Hnull. apply Forall_cons in Hl as [[Hg1 Hg2] Hl].
    rewrite (proj2 (Z.eqb_neq a NULL)) by congruence. rewrite (group_at_ok s a g Ha). cbn [mbind outcome_bind].
    destruct (tick_spec s B ext nif a g Hok Hnif Ha Hg1 Hra Hg2) as (n1 & B1 & g' & fs & k1 & E & Hok1 & Hlog & Htick & Hn).
    cbn zeta in E |- *. rewrite E. cbn [mbind outcome_bind].
    rewrite (group_at_ok _ a g') by apply lookup_insert_eq. cbn [mbind outcome_bind].
    pose proof (shape_upd_in _ _ _ L n l1 a g g' l HS HL Hn) as HS'.
    destruct (IH (with_memerr (with_net (set_group s a g') n1) (bump k1 (i_memerr s))) B1 _ (g_next g') (l1 ++ [(a, g')]) l HS') as (n2 & B2 & G & l' & fs' & k2 & E' & HS2 & Hok2 & Hlog2 & HT); try done.
    { rewrite set_list_eq, <- app_assoc. done. }
    { rewrite Hn. apply lseg_insert; [done|]. pose proof (shape_NoDup _ _ _ _ HS n) as Hnd. rewrite HL, fmap_app in Hnd.
      apply NoDup_app in Hnd as (_ & _ & Hnd). by apply NoDup_cons in Hnd as [Hnd _]. }
    { lia. }
    rewrite E'. exists n2, B2, G, ((a, g') :: l'), (fs ++ fs'), (k1 + k2)%nat. rewrite bump_add. split_and!; try done.
    + eapply shape_ext; [|exact HS2]. intros x. rewrite set_list_twice, <- app_assoc. done.
    + rewrite Hlog2. cbn [with_net with_memerr i_net]. by rewrite Hlog, <- app_assoc.
    + by constructor.
Qed.

(** ** Lemmas: joining *)

Definition filter_calls (nif : netif) (addr : Z) (add : bool) : list (Z * Z * bool) :=
  if netif_igmp_mac_filter nif then [(netif_num nif, addr, add)] else [].

Lemma mac_filter_spec (s : igmp) nif addr add :
  igmp_mac_filter s nif addr add = with_filter s (i_filter s ++ filter_calls nif addr add).
Proof. unfold igmp_mac_filter, filter_calls. case_if; [done|]. rewrite app_nil_r. by destruct s. Qed.

Lemma set_list_ok sys L n l m : (forall k, list_ok sys (L k)) -> list_ok sys l -> list_ok sys (set_list L n l m).
Proof. intros HL Hl. unfold set_list. by case_decide. Qed.

Lemma list_ok_new sys h hg l e g x :
  list_ok sys ((h, hg) :: l) -> member_ok sys g -> Forall (λ y, group_address y.2 <> group_address g) l ->
  list_ok sys ((h, with_next hg x) :: (e, g) :: l).
Proof.
  intros (H1 & H2 & H3 & H4 & H5) Hg Hl. do 3 (split; [done|]). split; [by constructor|]. cbn. constructor; [|done].
  intros Hin. apply list_elem_of_fmap in Hin as (y & Ey & Hy). rewrite Forall_forall in Hl. by apply (Hl y Hy).
Qed.

(** A group that is not in the list of an interface that was started. *)
Lemma lookup_new_spec (s : igmp) L nif addr h hg l :
  shape (i_groups s) (i_heads s) (i_pool s) L -> L (netif_num nif) = (h, hg) :: l -> find_group addr (L (netif_num nif)) = None ->
  addr <> allsystems s ->
  let g0 := IgmpGroup (g_next hg) addr 0 IGMP_GROUP_NON_MEMBER 0 0 in
  if decide (size (i_groups s) < pool_cap)%nat then
    exists e P, igmp_lookup_group s nif addr = Ret (e, set_group (set_group (with_pool s P) e g0) h (with_next hg e))
      /\ e <> NULL /\ e <> h
      /\ shape (<[h := with_next hg e]> (<[e := g0]> (i_groups s))) (i_heads s) P (set_list L (netif_num nif) ((h, with_next hg e) :: (e, g0) :: l))
  else exists P, igmp_lookup_group s nif addr = Ret (NULL, with_pool s P) /\ shape (i_groups s) (i_heads s) P L.
Proof.
  intros HS HL Hf Haddr g0. unfold igmp_lookup_group. rewrite (lookfor_spec s L nif addr HS), Hf. cbn [mbind outcome_bind].
  rewrite Z.eqb_refl. cbn [negb]. pose proof (pool_malloc_law _ _ (sh_pool _ _ _ _ HS)) as Hm.
  rewrite length_fmap, length_map_to_list in Hm.
  assert (Hseg : lseg g_next (i_groups s) (default NULL (i_heads s !! netif_num nif)) ((h, hg) :: l) NULL) by (rewrite <- HL; apply (sh_seg _ _ _ _ HS)).
  destruct Hseg as (Hhead & Hhg & _). pose proof (shape_null _ _ _ _ HS) as Hnull.
  case_decide.
  - destruct Hm as (e & P & -> & Hp). cbn [mbind outcome_bind]. destruct (shape_fresh _ _ _ _ HS P e Hp) as (He & Hen & _).
    unfold netif_igmp_data. rewrite Hhead, (proj2 (Z.eqb_neq h NULL)) by congruence.
    rewrite LWIP_ASSERT_ok by (apply negb_true_iff; by apply Z.eqb_neq). cbn [mbind outcome_bind].
    rewrite (group_at_ok _ h hg) by done. cbn [mbind outcome_bind]. exists e, P. split_and!; [done|done|congruence|].
    by apply (shape_second _ _ _ _ HS).
  - destruct Hm as (P & -> & Hp). cbn [mbind outcome_bind]. exists P. split; [done|].
    destruct HS as [? ? ? ?]. by split.
Qed.

(** The end of a join to a new group. *)
Lemma join_finish_spec (s : igmp) e g :
  i_groups s !! e = Some g ->
  exists k t, 1 <= t <= 4
    /\ (s ← (s ← igmp_start_timer rnd s e IGMP_JOIN_DELAYING_MEMBER_TMR;
             g ← group_at s e;
             Ret (set_group s e (with_state g IGMP_GROUP_DELAYING_MEMBER)));
        g ← group_at s e;
        Ret (ERR_OK, set_group s e (with_use g (u8 (g_use g + 1)))))
       = Ret (ERR_OK, set_group (with_rand s k) e (with_use (with_state (with_timer g t) IGMP_GROUP_DELAYING_MEMBER) (u8 (g_use g + 1)))).
Proof.
  intros Hg. destruct (start_timer_spec s e g IGMP_JOIN_DELAYING_MEMBER_TMR Hg) as (k & E).
  exists k, (timer_value (i_rand s) IGMP_JOIN_DELAYING_MEMBER_TMR). split; [apply timer_value_range; vm_compute; intuition congruence|].
  rewrite E. cbn [mbind outcome_bind]. rewrite (group_at_ok _ e (with_timer g (timer_value (i_rand s) IGMP_JOIN_DELAYING_MEMBER_TMR))) by apply lookup_insert_eq.
  cbn [mbind outcome_bind]. erewrite group_at_ok by apply lookup_insert_eq. cbn [mbind outcome_bind].
  unfold set_group. cbn [with_groups i_groups]. by rewrite !insert_insert_eq.
Qed.

Lemma join_new_inv (s s' : igmp) L n h hg l e g0 g P :
  igmp_inv s L -> L n = (h, hg) :: l ->
  shape (<[h := with_next hg e]> (<[e := g0]> (i_groups s))) (i_heads s) P (set_list L n ((h, with_next hg e) :: (e, g0) :: l)) ->
  g_next g = g_next g0 -> member_ok (allsystems s) g -> Forall (λ y, group_address y.2 <> group_address g) l ->
  i_groups s' = <[e := g]> (<[h := with_next hg e]> (<[e := g0]> (i_groups s))) -> i_heads s' = i_heads s -> i_pool s' = P ->
  allsystems s' = allsystems s -> allrouters s' = allrouters s ->
  igmp_inv s' (set_list L n ((h, with_next hg e) :: (e, g) :: l)).
Proof.
  intros [_ Hlist Haddrs] HL HS Hn Hg Hl EG EH EP' Es Er. split; [|intros m; rewrite Es; apply set_list_ok; [done|]|by rewrite Es, Er].
  - rewrite EG, EH, EP'. eapply shape_ext; [|by apply (shape_upd_in _ _ _ _ n [(h, with_next hg e)] e g0 g l HS); [apply set_list_eq|]].
    intros m. apply set_list_twice.
  - apply list_ok_new; try done. rewrite <- HL. apply Hlist.
Qed.

Lemma join_new_spec (s : igmp) B ext L nif addr h hg l :
  igmp_inv s L -> net_ok (i_net s) B ext -> netif_ok nif -> L (netif_num nif) = (h, hg) :: l -> find_group addr l = None ->
  is_u32 addr -> ip4_addr_ismulticast addr = true -> addr <> allsystems s -> Z.land (netif_flags nif) NETIF_FLAG_IGMP <> 0 ->
  (size (i_groups s) < pool_cap)%nat ->
  exists s' B' e r t fs, igmp_joingroup_netif rnd s nif addr = Ret (ERR_OK, s')
    /\ igmp_inv s' (set_list L (netif_num nif) ((h, with_next hg e) :: (e, IgmpGroup (g_next hg) addr r IGMP_GROUP_DELAYING_MEMBER t 1) :: l))
    /\ net_ok (i_net s') B' ext /\ 1 <= t <= 4 /\ i_filter s' = i_filter s ++ filter_calls nif addr true
    /\ link_log (n_lk (i_net s')) = link_log (n_lk (i_net s)) ++ fs
    /\ (r = 1 /\ i_memerr s' = i_memerr s
        /\ (exists f, fs = [(netif_num nif, addr, f)] /\ igmp_packet (netif_ip4_addr nif) (ip_id (i_net s)) IGMP_V2_MEMB_REPORT addr addr f)
        \/ r = 0 /\ i_memerr s' = u16 (i_memerr s + 1) /\ fs = [] /\ exists st, ram_fits PBUF_TRANSPORT 8 -> pm_mem_malloc (pmem (n_ps (i_net s))) (ram_request PBUF_TRANSPORT 8) = Ret (None, st)).
Proof.
  intros [HS Hlist Haddrs] Hok Hnif HL Hf Hau Hmc Hne Hfl Hcap.
  pose proof (Hlist (netif_num nif)) as Hl. rewrite HL in Hl. pose proof Hl as (Hhsys & _).
  assert (Hra : is_u32 (allrouters s)) by (rewrite (proj2 Haddrs); vm_compute; intuition congruence).
  pose proof (lookup_new_spec s L nif addr h hg l HS HL) as Hlk. rewrite decide_True in Hlk by done.
  destruct Hlk as (e & P & Elk & Hen & Heh & HS1); [rewrite HL; cbn; by rewrite Hhsys, (proj2 (Z.eqb_neq _ _) (not_eq_sym Hne))|done|].
  set (g0 := IgmpGroup (g_next hg) addr 0 IGMP_GROUP_NON_MEMBER 0 0) in *.
  set (s1 := set_group (set_group (with_pool s P) e g0) h (with_next hg e)) in *.
  assert (Hg0 : i_groups s1 !! e = Some g0) by (cbn; rewrite lookup_insert_ne by done; apply lookup_insert_eq).
  unfold igmp_joingroup_netif. rewrite !LWIP_ERROR_ok by (done || (apply negb_true_iff; by apply Z.eqb_neq)). cbn [mbind outcome_bind].
  rewrite Elk. cbn [mbind outcome_bind]. rewrite (proj2 (Z.eqb_neq e NULL)) by done. cbn [negb].
  rewrite (group_at_ok s1 e g0 Hg0). cbn [mbind outcome_bind group_state g0 g_use Z.eqb negb]. change (0 =? IGMP_GROUP_NON_MEMBER) with true. cbn [negb].
  rewrite mac_filter_spec. set (s2 := with_filter s1 _).
  change (negb (IGMP_GROUP_NON_MEMBER =? IGMP_GROUP_NON_MEMBER)) with false. cbv iota.
  pose proof (find_group_None _ _ Hf) as Hnot.
  assert (Hmem : forall r t, 1 <= t <= 4 -> member_ok (allsystems s) (IgmpGroup (g_next hg) addr r IGMP_GROUP_DELAYING_MEMBER t 1)).
  { intros r t Ht. split; [done|]. split; [done|]. split; [done|]. split; [unfold_c; cbn; lia|]. left. split; [done|]. cbn. lia. }
  destruct (igmp_send_spec s2 B ext nif e g0 IGMP_V2_MEMB_REPORT Hok Hnif Hg0 Hau Hra (or_introl eq_refl))
    as (n & B' & Hok' & [(E & Hlog & Hst)|(f & E & Hlog & Hpkt)]).
  - rewrite E. cbn [mbind outcome_bind]. destruct (join_finish_spec (with_memerr (with_net s2 n) (u16 (i_memerr s2 + 1))) e g0 Hg0) as (k & t & Ht & Efin).
    eexists _, B', e, 0, t, []. split; [exact Efin|]. split; [by eapply (join_new_inv s _ L (netif_num nif) h hg l e g0 _ P); eauto|]. rewrite app_nil_r. do 3 (split; [done|]). split; [done|]. by right.
  - change (IGMP_V2_MEMB_REPORT =? IGMP_V2_MEMB_REPORT) with true in E, Hlog, Hpkt. cbv iota in E, Hlog, Hpkt.
    rewrite E. cbn [mbind outcome_bind].
    destruct (join_finish_spec (with_net (set_group s2 e (with_reporter g0 1)) n) e (with_reporter g0 1) (lookup_insert_eq _ _ _)) as (k & t & Ht & Efin).
    eexists _, B', e, 1, t, _. split; [exact Efin|]. split.
    { eapply (join_new_inv s _ L (netif_num nif) h hg l e g0 _ P); [by split|exact HL|exact HS1|done|by apply Hmem|exact Hnot| |done..].
      cbn. by rewrite insert_insert_eq. }
    do 3 (split; [done|]). split; [exact Hlog|]. left. eauto.
Qed.

(** ** Lemmas: leaving *)

Lemma remove_loop_spec fuel (s : igmp) p l1 t tg a g l2 :
  lseg g_next (i_groups s) p (l1 ++ (t, tg) :: (a, g) :: l2) NULL -> i_groups s !! NULL = None ->
  (length (l1 ++ (t, tg) :: (a, g) :: l2) < fuel)%nat ->
  remove_loop fuel s p a = Ret (ERR_OK, set_group s t (with_next tg (g_next g))).
Proof.
  intros Hs Hnull. revert p fuel Hs. induction l1 as [|[x xg] l1 IH]; intros p [|fuel] Hs Hf; cbn in Hf; [lia| |lia|]; cbn [app remove_loop] in *.
  - destruct Hs as (-> & Ht & Hn & Ha & _). rewrite (proj2 (Z.eqb_neq t NULL)) by congruence. rewrite (group_at_ok s t tg Ht). cbn [mbind outcome_bind].
    rewrite Hn, Z.eqb_refl, (group_at_ok s a g Ha). done.
  - pose proof (lseg_NoDup _ _ _ _ _ Hs Hnull) as Hnd. destruct Hs as (-> & Hx & Hs). rewrite (proj2 (Z.eqb_neq x NULL)) by congruence.
    rewrite (group_at_ok s x xg Hx). cbn [mbind outcome_bind].
    assert (Hne : g_next xg <> a).
    { intros Hxa. cbn in Hnd. apply NoDup_cons in Hnd as [_ Hnd]. rewrite fmap_app in Hnd. apply NoDup_app in Hnd as (_ & Hd & Hnd). cbn in Hd, Hnd.
      destruct l1 as [|[y yg] l1]; destruct Hs as (Hy & _); rewrite Hxa in Hy; subst a.
      - apply NoDup_cons in Hnd as [Hnd _]. apply Hnd. by left.
      - apply (Hd y); [by left|right; by left]. }
    rewrite (proj2 (Z.eqb_neq _ a)) by done. apply IH; [done|lia].
Qed.

Lemma free_group_spec (s : igmp) a :
  pool_holds (i_pool s) (map_to_list (i_groups s)).*1 -> is_Some (i_groups s !! a) ->
  exists P, free_group s a = Ret (with_groups (with_pool s P) (delete a (i_groups s))) /\ pool_holds P (map_to_list (delete a (i_groups s))).*1.
Proof.
  intros Hp [g Hg]. rewrite <- (insert_delete_id (i_groups s) a g Hg) in Hp.
  eapply pool_holds_perm in Hp; [|by apply keys_insert, lookup_delete_eq].
  destruct (pool_free_law _ _ _ Hp) as (P & E & HP). exists P. unfold free_group. by rewrite E.
Qed.

Lemma list_ok_remove sys l1 t tg a g l2 x :
  list_ok sys (l1 ++ (t, tg) :: (a, g) :: l2) -> list_ok sys (l1 ++ (t, with_next tg x) :: l2).
Proof.
  destruct l1 as [|[h hg] l1]; cbn.
  - intros (H1 & H2 & H3 & H4 & H5). apply Forall_cons in H4 as [_ H4]. apply NoDup_cons in H5 as [_ H5]. tauto.
  - intros (H1 & H2 & H3 & H4 & H5). do 3 (split; [done|]). rewrite Forall_app, !Forall_cons in H4. destruct H4 as (H4 & H6 & _ & H7).
    rewrite Forall_app, Forall_cons. split; [by split_and!|]. rewrite !fmap_app in *. cbn in *.
    apply NoDup_app in H5 as (N1 & N2 & N3). apply NoDup_cons in N3 as [N3 N4]. apply NoDup_cons in N4 as [_ N4].
    apply NoDup_app. split; [done|]. split; [intros y Hy Hy'; apply (N2 y Hy)|constructor; [|done]].
    + apply elem_of_cons in Hy' as [->|Hy']; [by left|by right; right].
    + intros Hin. apply N3. by right.
Qed.

(** The end of a leave: the group, out of its list, is disabled and freed. *)
Lemma leave_finish_spec (s : igmp) L nif addr l1 t tg a g l2 n e :
  igmp_inv s L -> L (netif_num nif) = l1 ++ (t, tg) :: (a, g) :: l2 -> t <> a -> i_groups s !! a = Some g -> i_groups s !! t = Some tg ->
  exists s', (s ← free_group (igmp_mac_filter (with_memerr (with_net (set_group s t (with_next tg (g_next g))) n) e) nif addr false) a; Ret (ERR_OK, s)) = Ret (ERR_OK, s')
    /\ igmp_inv s' (set_list L (netif_num nif) (l1 ++ (t, with_next tg (g_next g)) :: l2))
    /\ i_net s' = n /\ i_memerr s' = e /\ i_filter s' = i_filter s ++ filter_calls nif addr false.
Proof.
  intros [HS Hlist Haddrs] HL Hta Ha Ht. rewrite mac_filter_spec. set (s1 := with_filter _ _).
  destruct (free_group_spec s1 a) as (P & E & HP).
  { eapply pool_holds_perm; [symmetry; by eapply keys_update|apply (sh_pool _ _ _ _ HS)]. } { cbn. rewrite lookup_insert_ne by done. eauto. }
  rewrite E. cbn [mbind outcome_bind]. eexists. split; [done|]. split; [|done]. split; [|intros m; apply set_list_ok; [done|]|done].
  - cbn in *. apply (shape_remove _ _ _ _ HS P (netif_num nif) l1 t tg a g l2 HL). eapply pool_holds_perm; [|exact HP].
    rewrite delete_insert_ne by done. eapply keys_update. by rewrite lookup_delete_ne.
  - eapply list_ok_remove. rewrite <- HL. apply Hlist.
Qed.

Lemma leave_last_spec (s : igmp) B ext L nif addr l1 t tg a g l2 :
  igmp_inv s L -> net_ok (i_net s) B ext -> netif_ok nif -> L (netif_num nif) = l1 ++ (t, tg) :: (a, g) :: l2 ->
  find_group addr (L (netif_num nif)) = Some (a, g) -> ip4_addr_ismulticast addr = true -> addr <> allsystems s ->
  Z.land (netif_flags nif) NETIF_FLAG_IGMP <> 0 -> is_u32 addr -> g_use g <= 1 ->
  exists s' B' fs, igmp_leavegroup_netif s nif addr = Ret (ERR_OK, s')
    /\ igmp_inv s' (set_list L (netif_num nif) (l1 ++ (t, with_next tg (g_next g)) :: l2))
    /\ net_ok (i_net s') B' ext /\ i_filter s' = i_filter s ++ filter_calls nif addr false
    /\ link_log (n_lk (i_net s')) = link_log (n_lk (i_net s)) ++ fs
    /\ (last_reporter_flag g <> 0 /\ i_memerr s' = i_memerr s /\ (exists f, fs = [(netif_num nif, allrouters s, f)]
          /\ igmp_packet (netif_ip4_addr nif) (ip_id (i_net s)) IGMP_LEAVE_GROUP (allrouters s) addr f)
        \/ fs = [] /\ (last_reporter_flag g = 0 /\ i_memerr s' = i_memerr s \/ i_memerr s' = u16 (i_memerr s + 1) /\ exists st, ram_fits PBUF_TRANSPORT 8 ->
             pm_mem_malloc (pmem (n_ps (i_net s))) (ram_request PBUF_TRANSPORT 8) = Ret (None, st))).
Proof.
  intros HInv Hok Hnif HL Hf Hmc Hne Hfl Hau Huse. pose proof HInv as [HS Hlist Haddrs].
  assert (Hra : is_u32 (allrouters s)) by (rewrite (proj2 Haddrs); vm_compute; intuition congruence).
  destruct (find_group_Some _ _ _ _ Hf) as (Hga & _). pose proof (shape_null _ _ _ _ HS) as Hnull.
  pose proof (sh_seg _ _ _ _ HS (netif_num nif)) as Hseg. rewrite HL in Hseg.
  assert (Ha : i_groups s !! a = Some g) by (eapply (shape_lookup _ _ _ _ HS (netif_num nif)); rewrite HL; apply elem_of_app; right; right; by left).
  assert (Hta : t <> a). { pose proof (lseg_NoDup _ _ _ _ _ Hseg Hnull) as Hnd. rewrite fmap_app in Hnd. apply NoDup_app in Hnd as (_ & _ & Hnd).
    cbn in Hnd. apply NoDup_cons in Hnd as [Hnd _]. intros ->. apply Hnd. by left. }
  unfold igmp_leavegroup_netif. rewrite !LWIP_ERROR_ok by (done || (apply negb_true_iff; by apply Z.eqb_neq)). cbn [mbind outcome_bind].
  rewrite (lookfor_spec s L nif addr HS), Hf. cbn [mbind outcome_bind]. rewrite (proj2 (Z.eqb_neq a NULL)) by congruence. cbn [negb].
  rewrite (group_at_ok s a g Ha). cbn [mbind outcome_bind]. rewrite (proj2 (Z.leb_le _ _) Huse).
  unfold igmp_remove_group, netif_igmp_data. rewrite (remove_loop_spec (group_fuel s) s _ l1 t tg a g l2 Hseg Hnull).
  2:{ rewrite <- HL. pose proof (shape_length _ _ _ _ HS (netif_num nif)). unfold group_fuel. lia. }
  cbn [mbind outcome_bind]. set (s1 := set_group s t (with_next tg (g_next g))).
  assert (Ha1 : i_groups s1 !! a = Some g) by (cbn; by rewrite lookup_insert_ne).
  rewrite (group_at_ok s1 a g Ha1). cbn [mbind outcome_bind].
  assert (Ht : i_groups s !! t = Some tg) by (eapply (shape_lookup _ _ _ _ HS (netif_num nif)); rewrite HL; apply elem_of_app; right; by left).
  destruct (Z.eqb_spec (last_reporter_flag g) 0) as [Hr|Hr]; cbn [negb].
  - cbn [mbind outcome_bind]. destruct (leave_finish_spec s L nif addr l1 t tg a g l2 (i_net s) (i_memerr s) HInv HL Hta Ha Ht) as (s' & E & HI' & En & Ee & Ef).
    exists s', B, []. rewrite app_nil_r, En. split; [rewrite <- E; by destruct s|]. do 4 (split; [done|]). right. split; [done|]. left. by split.
  - destruct (igmp_send_spec s1 B ext nif a g IGMP_LEAVE_GROUP Hok Hnif Ha1 ltac:(by rewrite Hga) Hra (or_intror eq_refl))
      as (n & B' & Hok' & [(E & Hlog & Hst)|(f & E & Hlog & Hpkt)]).
    + destruct (leave_finish_spec s L nif addr l1 t tg a g l2 n (u16 (i_memerr s + 1)) HInv HL Hta Ha Ht) as (s' & E' & HI' & En & Ee & Ef).
      exists s', B', []. rewrite E, app_nil_r, En. cbn [mbind outcome_bind]. split; [exact E'|]. do 4 (split; [done|]). right. split; [done|]. by right.
    + destruct (leave_finish_spec s L nif addr l1 t tg a g l2 n (i_memerr s) HInv HL Hta Ha Ht) as (s' & E' & HI' & En & Ee & Ef).
      change (IGMP_LEAVE_GROUP =? IGMP_V2_MEMB_REPORT) with false in E, Hlog, Hpkt. cbv iota in E, Hlog, Hpkt. rewrite Hga in Hpkt.
      exists s', B', [(netif_num nif, allrouters s, f)]. rewrite E, En. cbn [mbind outcome_bind]. split; [exact E'|]. do 4 (split; [done|]). left. eauto.
Qed.

(** ** Lemmas: changes that keep the invariant *)

(** The list of one interface in place of the old one. *)
Lemma inv_set_list (s s' : igmp) L n l :
  igmp_inv s L -> shape (i_groups s') (i_heads s') (i_pool s') (set_list L n l) -> list_ok (allsystems s) l ->
  allsystems s' = allsystems s -> allrouters s' = allrouters s -> igmp_inv s' (set_list L n l).
Proof.
  intros [_ Hlist Haddrs] HS Hl Es Er. split; [done|intros m; rewrite Es; by apply set_list_ok|by rewrite Es, Er].
Qed.

Lemma list_ok_map sys (R : igmp_group -> igmp_group -> Prop) (l l' : list (Z * igmp_group)) :
  (forall g g', R g g' -> group_address g' = group_address g /\ (member_ok sys g -> member_ok sys g')) ->
  Forall2 (λ x y, y.1 = x.1 /\ R x.2 y.2) l l' ->
  Forall (λ x, member_ok sys x.2) l -> Forall (λ x, member_ok sys x.2) l' /\ (λ x, group_address x.2) <$> l' = (λ x, group_address x.2) <$> l.
Proof.
  intros HR HF. induction HF as [|x y l l' [_ Hxy] _ IH]; intros Hl; [by split|]. apply Forall_cons in Hl as [Hx Hl].
  destruct (IH Hl) as [IH1 IH2], (HR _ _ Hxy) as [Ha Hm]. split; [constructor; auto|]. cbn. by rewrite Ha, IH2.
Qed.

Lemma delayed_ok sys m g g' : 0 <= m < 256 -> delayed m g g' -> group_address g' = group_address g /\ (member_ok sys g -> member_ok sys g').
Proof.
  intros Hm. unfold delayed. destruct (needs_delay m g); [|by intros ->]. intros (t & Ht & ->). split; [done|].
  intros (H1 & H2 & H3 & H4 & _). do 4 (split; [done|]). left. split; [done|]. cbn. lia.
Qed.

Lemma list_ok_delayed sys h hg l l' m :
  0 <= m < 256 -> list_ok sys ((h, hg) :: l) -> Forall2 (λ x y, y.1 = x.1 /\ delayed m x.2 y.2) l l' -> list_ok sys ((h, hg) :: l').
Proof.
  intros Hm (H1 & H2 & H3 & H4 & H5) HF. do 3 (split; [done|]).
  destruct (list_ok_map sys (delayed m) l l' (λ g g', delayed_ok sys m g g' Hm) HF H4) as [Ha Hb]. split; [done|by rewrite Hb].
Qed.

(** One group of a list changes, but not its address. *)
Lemma list_ok_upd sys l1 a g g' l2 :
  list_ok sys (l1 ++ (a, g) :: l2) -> group_address g' = group_address g -> is_u8 (g_use g') -> 0 <= g_timer g' < 256 ->
  (member_ok sys g -> member_ok sys g') -> list_ok sys (l1 ++ (a, g') :: l2).
Proof.
  destruct l1 as [|[h hg] l1]; cbn; intros (H1 & H2 & H3 & H4 & H5) Ha Hu Ht Hm.
  - split; [congruence|]. do 2 (split; [done|]). by split.
  - do 3 (split; [done|]). rewrite Forall_app, Forall_cons in *. destruct H4 as (H4 & H6 & H7). split; [split; [done|split; [by apply Hm|done]]|].
    rewrite !fmap_app in *. cbn in *. by rewrite Ha.
Qed.

Lemma inv_upd (s : igmp) L n a g g' l1 l2 s' :
  igmp_inv s L -> L n = l1 ++ (a, g) :: l2 -> g_next g' = g_next g -> group_address g' = group_address g -> is_u8 (g_use g') -> 0 <= g_timer g' < 256 ->
  (member_ok (allsystems s) g -> member_ok (allsystems s) g') ->
  i_groups s' = <[a := g']> (i_groups s) -> i_heads s' = i_heads s -> i_pool s' = i_pool s -> allsystems s' = allsystems s -> allrouters s' = allrouters s ->
  igmp_inv s' (set_list L n (l1 ++ (a, g') :: l2)).
Proof.
  intros HI HL Hn Ha Hu Ht Hm EG EH EP' Es Er. pose proof HI as [HS Hlist _]. eapply inv_set_list; try done.
  - rewrite EG, EH, EP'. by apply (shape_upd_in _ _ _ L n l1 a g g' l2).
  - eapply list_ok_upd; try done. rewrite <- HL. apply Hlist.
Qed.

(** The groups behind the first of an interface. *)
Lemma second_group_spec (s : igmp) L nif :
  shape (i_groups s) (i_heads s) (i_pool s) L ->
  exists p, second_group s nif = Ret p
    /\ match L (netif_num nif) with [] => p = NULL | _ :: l => lseg g_next (i_groups s) p l NULL end.
Proof.
  intros HS. pose proof (sh_seg _ _ _ _ HS (netif_num nif)) as Hseg. pose proof (shape_null _ _ _ _ HS) as Hnull. unfold second_group, netif_igmp_data.
  destruct (L (netif_num nif)) as [|[h hg] l].
  - cbn in Hseg. rewrite Hseg, Z.eqb_refl. by exists NULL.
  - destruct Hseg as (-> & Hh & Hs). rewrite (proj2 (Z.eqb_neq h NULL)) by congruence. cbn [negb]. rewrite (group_at_ok s h hg Hh). by exists (g_next hg).
Qed.

(** Delaying the reports of all groups of an interface but the first. *)
Lemma delay_all_spec (s : igmp) L nif m :
  igmp_inv s L -> 0 <= m < 256 ->
  exists k G l', (p ← second_group s nif; delaying_loop rnd (group_fuel s) s p m) = Ret (with_groups (with_rand s k) G)
    /\ igmp_inv (with_groups (with_rand s k) G) (set_list L (netif_num nif) l')
    /\ match L (netif_num nif) with [] => l' = [] | x :: l => exists l2, l' = x :: l2 /\ Forall2 (λ x y, y.1 = x.1 /\ delayed m x.2 y.2) l l2 end.
Proof.
  intros HI Hm. pose proof HI as [HS Hlist Haddrs]. destruct (second_group_spec s L nif HS) as (p & E & Hp). rewrite E. cbn [mbind outcome_bind].
  pose proof (shape_length _ _ _ _ HS (netif_num nif)) as Hlen. pose proof (Hlist (netif_num nif)) as Hok.
  destruct (L (netif_num nif)) as [|[h hg] l] eqn:HL.
  - subst p. exists (i_rand s), (i_groups s), []. split; [by destruct s|]. split; [|done]. eapply inv_set_list; try done.
    eapply shape_ext; [|exact HS]. intros k. rewrite <- HL. by rewrite set_list_id.
  - destruct (delaying_loop_spec (group_fuel s) s L (netif_num nif) p [(h, hg)] l m HS HL Hp) as (k & G & l' & E' & HS' & HF); [unfold group_fuel; cbn in Hlen; lia|done|].
    exists k, G, ((h, hg) :: l'). split; [done|]. split; [|by exists l']. eapply inv_set_list; try done. by eapply list_ok_delayed.
Qed.

(** ** Lemmas: starting and stopping *)

Lemma start_spec (s : igmp) L nif :
  igmp_inv s L ->
  exists e s' L', igmp_start s nif = Ret (e, s') /\ igmp_inv s' L' /\ i_net s' = i_net s
    /\ (forall m, m <> netif_num nif -> L' m = L m)
    /\ match L (netif_num nif) with
       | (h, hg) :: l => e = ERR_OK /\ L' (netif_num nif) = (h, with_use (with_state hg IGMP_GROUP_IDLE_MEMBER) (u8 (g_use hg + 1))) :: l
       | [] => if decide (size (i_groups s) < pool_cap)%nat
               then e = ERR_OK /\ exists h, L' (netif_num nif) = [(h, IgmpGroup NULL (allsystems s) 0 IGMP_GROUP_IDLE_MEMBER 0 1)]
               else e = ERR_MEM /\ L' (netif_num nif) = []
       end.
Proof.
  intros HI. pose proof HI as [HS Hlist Haddrs]. pose proof (shape_null _ _ _ _ HS) as Hnull. pose proof (Hlist (netif_num nif)) as Hok.
  pose proof (sh_seg _ _ _ _ HS (netif_num nif)) as Hseg.
  assert (Hother : forall l m, m <> netif_num nif -> set_list L (netif_num nif) l m = L m) by (intros l m Hm; unfold set_list; by rewrite decide_False).
  unfold igmp_start, igmp_lookup_group. rewrite (lookfor_spec s L nif _ HS). cbn [mbind outcome_bind].
  destruct (L (netif_num nif)) as [|[h hg] l] eqn:HL.
  - cbn [find_group]. rewrite Z.eqb_refl. cbn [negb]. pose proof (pool_malloc_law _ _ (sh_pool _ _ _ _ HS)) as Hm.
    rewrite length_fmap, length_map_to_list in Hm. case_decide.
    + destruct Hm as (e & P & -> & Hp). cbn [mbind outcome_bind]. destruct (shape_fresh _ _ _ _ HS P e Hp) as (_ & Hen & _).
      unfold netif_igmp_data. cbn in Hseg. rewrite Hseg, Z.eqb_refl. rewrite LWIP_ASSERT_ok by apply Z.eqb_refl. cbn [mbind outcome_bind].
      rewrite (proj2 (Z.eqb_neq e NULL)) by done. cbn [negb]. erewrite group_at_ok by apply lookup_insert_eq. cbn [mbind outcome_bind].
      rewrite mac_filter_spec. set (g1 := with_use _ _). eexists ERR_OK, _, (set_list L (netif_num nif) [(e, g1)]). split; [done|]. split; [|split; [done|split; [by apply Hother|]]].
      * eapply inv_set_list; [exact HI| |split; [done|]; split; [apply u8_range|]; split; [cbn; lia|]; split; constructor|done|done].
        cbn. rewrite insert_insert_eq. by apply (shape_first _ _ _ _ HS P).
      * split; [done|]. exists e. apply set_list_eq.
    + destruct Hm as (P & -> & Hp). cbn [mbind outcome_bind]. rewrite Z.eqb_refl. cbn [negb].
      eexists ERR_MEM, _, L. split; [done|]. split; [|split; [done|split; [done|split; [done|exact HL]]]]. split; [|done|done]. destruct HS as [? ? ? ?]. by split.
  - destruct Hok as (Hsys & Hu & Ht & Hmem & Hnd). destruct Hseg as (_ & Hh & _). cbn [find_group]. rewrite Hsys, Z.eqb_refl.
    assert (Hhn : (h =? NULL) = false) by (apply Z.eqb_neq; congruence).
    rewrite Hhn. cbn [negb mbind outcome_bind]. rewrite Hhn. cbn [negb]. rewrite (group_at_ok s h hg Hh). cbn [mbind outcome_bind].
    rewrite mac_filter_spec. set (g1 := with_use _ _). eexists ERR_OK, _, (set_list L (netif_num nif) ((h, g1) :: l)). split; [done|].
    split; [|split; [done|split; [by apply Hother|]]; split; [done|apply set_list_eq]].
    eapply (inv_upd s L (netif_num nif) h hg g1 [] l); try done; [apply u8_range|]. intros (_ & _ & Hne & _). congruence.
Qed.

Lemma stop_loop_spec fuel (s : igmp) L nif p l H :
  shape (i_groups s) H (i_pool s) L -> L (netif_num nif) = l -> default NULL (H !! netif_num nif) = p -> i_heads s = <[netif_num nif := NULL]> H ->
  (length l < fuel)%nat ->
  exists P G fc, stop_loop fuel s nif p = Ret (with_filter (with_groups (with_pool s P) G) (i_filter s ++ fc))
    /\ shape G (<[netif_num nif := NULL]> H) P (set_list L (netif_num nif) []).
Proof.
  set (n := netif_num nif).
  revert s L p l H. induction fuel as [|fuel IH]; intros s L p l H HS HL Hp EH Hf; [lia|]. cbn [stop_loop].
  pose proof (shape_null _ _ _ _ HS) as Hnull. pose proof (sh_seg _ _ _ _ HS n) as Hseg. rewrite Hp, HL in Hseg. destruct l as [|[a g] l].
  - cbn in Hseg. subst p. rewrite (proj2 (Z.eqb_eq _ _) Hseg). exists (i_pool s), (i_groups s), []. rewrite app_nil_r. split; [by destruct s|].
    apply (shape_change _ _ _ _ HS); [by rewrite lookup_insert_eq|intros m Hm; by rewrite lookup_insert_ne|..].
    + intros m a Hm Ha. split; [done|apply not_elem_of_nil].
    + intros a Ha. right. split; [done|]. rewrite HL. apply not_elem_of_nil.
    + apply HS.
  - destruct Hseg as (-> & Ha & Hseg). rewrite (proj2 (Z.eqb_neq a NULL)) by congruence. rewrite (group_at_ok s a g Ha). cbn [mbind outcome_bind].
    rewrite mac_filter_spec. set (s1 := with_filter s _). destruct (free_group_spec s1 a) as (P & E & HP); [apply HS|eauto|].
    rewrite E. cbn [mbind outcome_bind]. set (s2 := with_groups _ _).
    pose proof (shape_NoDup _ _ _ _ HS n) as Hnd. rewrite HL in Hnd. cbn in Hnd. apply NoDup_cons in Hnd as [Hal _].
    assert (HS' : shape (i_groups s2) (<[n := g_next g]> H) (i_pool s2) (set_list L n l)).
    { apply (shape_change _ _ _ _ HS); [rewrite lookup_insert_eq; by apply lseg_delete|intros m Hm; by rewrite lookup_insert_ne|..|done].
      - intros m b Hm Hb. assert (Hnb : b ∉ a :: l.*1) by (intros Hin; apply (sh_apart _ _ _ _ HS m n Hm b Hb); by rewrite HL).
        apply not_elem_of_cons in Hnb as [Hba Hbl]. split; [by apply lookup_delete_ne|done].
      - intros b [x Hb]. change (delete a (i_groups s) !! b = Some x) in Hb. apply lookup_delete_Some in Hb as [Hba Hb]. rewrite HL. cbn. destruct (decide (b ∈ l.*1)); [by left|right].
        split; [eauto|]. by apply not_elem_of_cons. }
    destruct (IH s2 _ (g_next g) l (<[n := g_next g]> H) HS') as (P2 & G2 & fc & E2 & HS2).
    { apply set_list_eq. } { by rewrite lookup_insert_eq. } { rewrite insert_insert_eq. exact EH. } { cbn in Hf. lia. }
    rewrite E2. exists P2, G2, (filter_calls nif (group_address g) false ++ fc). split.
    + unfold s2, s1. cbn. by rewrite <- app_assoc.
    + rewrite insert_insert_eq in HS2. eapply shape_ext; [|exact HS2]. intros m. apply set_list_twice.
Qed.

Lemma stop_spec (s : igmp) L nif :
  igmp_inv s L ->
  exists s', igmp_stop s nif = Ret (ERR_OK, s') /\ igmp_inv s' (set_list L (netif_num nif) []) /\ i_net s' = i_net s.
Proof.
  intros HI. pose proof HI as [HS Hlist Haddrs]. unfold igmp_stop.
  destruct (stop_loop_spec (group_fuel s) (set_igmp_data s nif NULL) L nif (netif_igmp_data s nif) _ (i_heads s) HS eq_refl eq_refl eq_refl)
    as (P & G & fc & E & HS'). { pose proof (shape_length _ _ _ _ HS (netif_num nif)). unfold group_fuel. lia. }
  rewrite E. cbn [mbind outcome_bind]. eexists. split; [done|]. split; [|done]. by eapply inv_set_list.
Qed.

(** ** Lemmas: input *)

(** A report of another member. *)
Definition heard (g : igmp_group) : igmp_group :=
  if group_state g =? IGMP_GROUP_DELAYING_MEMBER
  then with_reporter (with_state (with_timer g 0) IGMP_GROUP_IDLE_MEMBER) 0 else g.

(** What a message of the given type, maximum response time and group address, sent
    to [dest], does to the list [l] of the interface. *)
Definition reaction (sys dest type maxresp group : Z) (l l' : list (Z * igmp_group)) : Prop :=
  match find_group dest l with
  | None => l' = l
  | Some (d, dg) =>
      if type =? IGMP_MEMB_QUERY then
        if (dest =? sys) && (group =? 0) then
          match l with
          | [] => l' = []
          | x :: l => exists l2, l' = x :: l2
              /\ Forall2 (λ x y, y.1 = x.1 /\ delayed (if maxresp =? 0 then 10 else maxresp) x.2 y.2) l l2
          end
        else if negb (group =? 0) then
          match find_group (if dest =? sys then group else dest) l with
          | Some (a, g) => exists g' l1 l2, l = l1 ++ (a, g) :: l2 /\ delayed maxresp g g' /\ l' = l1 ++ (a, g') :: l2
          | None => l' = l
          end
        else l' = l
      else if type =? IGMP_V2_MEMB_REPORT then exists l1 l2, l = l1 ++ (d, dg) :: l2 /\ l' = l1 ++ (d, heard dg) :: l2
      else l' = l
  end.

(** The state after the switch of igmp_input differs from [s] in the groups, the
    random numbers and one byte of the packet. *)
Definition reacted (s : igmp) (L : Z -> list (Z * igmp_group)) (n dest type maxresp group : Z) (s' : igmp) : Prop :=
  exists m k G l', s' = with_groups (with_rand (with_packet s m) k) G /\ igmp_inv s' (set_list L n l')
    /\ reaction (allsystems s) dest type maxresp group (L n) l'.

Lemma delayed_range sys m g g' :
  0 <= m < 256 -> delayed m g g' -> is_u8 (g_use g) -> 0 <= g_timer g < 256 ->
  g_next g' = g_next g -> group_address g' = group_address g /\ is_u8 (g_use g') /\ 0 <= g_timer g' < 256 /\ (member_ok sys g -> member_ok sys g').
Proof.
  intros Hm Hd Hu Ht Hn. destruct (delayed_ok sys m g g' Hm Hd) as [H1 H2]. split; [done|]. unfold delayed in Hd.
  destruct (needs_delay m g); [|by subst g']. destruct Hd as (t & Hr & ->). split; [done|]. split; [cbn; lia|done].
Qed.

Lemma list_ok_elem sys l a g : list_ok sys l -> (a, g) ∈ l -> is_u8 (g_use g) /\ 0 <= g_timer g < 256.
Proof.
  destruct l as [|[h hg] l]; [by intros _ ?%not_elem_of_nil|]. intros (_ & Hu & Ht & Hm & _) [[= -> ->]|Hin]%elem_of_cons; [done|].
  rewrite Forall_forall in Hm. destruct (Hm _ Hin) as (_ & _ & _ & H1 & H2). split; [done|]. cbn in H2. lia.
Qed.

Lemma reacted_same (s : igmp) L n dest type maxresp group :
  igmp_inv s L -> reaction (allsystems s) dest type maxresp group (L n) (L n) -> reacted s L n dest type maxresp group s.
Proof.
  intros HI Hr. exists (packet_data s), (i_rand s), (i_groups s), (L n). split; [by destruct s as [[[] ? ?] ? ? ? ? ? ? ? ?]|]. split; [|done].
  pose proof HI as [HS Hlist Haddrs]. eapply inv_set_list; try done. eapply shape_ext; [|exact HS]. intros m. by rewrite set_list_id.
Qed.

(** One group is delayed. *)
Lemma delay_one_spec (s : igmp) L n l1 a g l2 m :
  igmp_inv s L -> L n = l1 ++ (a, g) :: l2 -> 0 <= m < 256 ->
  exists k g', igmp_delaying_member rnd s a m = Ret (with_groups (with_rand s k) (<[a := g']> (i_groups s))) /\ delayed m g g'
    /\ igmp_inv (with_groups (with_rand s k) (<[a := g']> (i_groups s))) (set_list L n (l1 ++ (a, g') :: l2)).
Proof.
  intros HI HL Hm. pose proof HI as [HS Hlist Haddrs]. assert (Hin : (a, g) ∈ L n) by (rewrite HL; apply elem_of_app; right; by left).
  destruct (list_ok_elem _ _ _ _ (Hlist n) Hin) as [Hu Ht].
  destruct (delaying_spec s a g m (shape_lookup _ _ _ _ HS n a g Hin) Hm) as (k & g' & E & Hd & Hn). exists k, g'. split; [exact E|]. split; [done|].
  destruct (delayed_range (allsystems s) m g g' Hm Hd Hu Ht Hn) as (H1 & H2 & H3 & H4). by eapply (inv_upd s L n a g g' l1 l2).
Qed.

Lemma memb_query_spec (s : igmp) L inp h dest d dg :
  igmp_inv s L -> find_group dest (L (netif_num inp)) = Some (d, dg) ->
  0 <= igmp_maxresp (packet_data s) h < 256 ->
  exists s', memb_query rnd s inp h dest d = Ret s'
    /\ reacted s L (netif_num inp) dest IGMP_MEMB_QUERY (igmp_maxresp (packet_data s) h) (igmp_group_address (packet_data s) h) s'.
Proof.
  intros HI Hf Hm. pose proof HI as [HS Hlist Haddrs]. pose proof (shape_null _ _ _ _ HS) as Hnull. unfold memb_query, ip4_addr_cmp, ip4_addr_isany_val, IPADDR_ANY.
  set (maxresp := igmp_maxresp _ _) in *. set (grp := igmp_group_address _ _).
  destruct ((dest =? allsystems s) && (grp =? 0)) eqn:Egen.
  - set (s1 := if maxresp =? 0 then _ else s).
    assert (Hs1 : exists m, s1 = with_packet s m).
    { unfold s1. case_if; [eauto|]. exists (packet_data s). by destruct s as [[[] ? ?] ? ? ? ? ? ? ? ?]. }
    assert (Hm1 : igmp_maxresp (packet_data s1) h = if maxresp =? 0 then 10 else maxresp).
    { unfold s1. case_if; [|done]. unfold igmp_maxresp, packet_data, igmp_maxresp_set. cbn [with_packet with_net i_net n_ps with_ps data with_data].
      by rewrite load_store by (vm_compute; intuition congruence). }
    rewrite Hm1. destruct Hs1 as (m & Es1). rewrite Es1 in *. clear Es1 s1.
    destruct (delay_all_spec (with_packet s m) L inp (if maxresp =? 0 then 10 else maxresp)) as (k & G & l' & E & HI' & Hl); [by split|case_if; lia|].
    rewrite E. eexists. split; [done|]. exists m, k, G, l'. split; [done|]. split; [done|]. unfold reaction. by rewrite Hf, Z.eqb_refl, Egen.
  - destruct (grp =? 0) eqn:Eg; cbn [negb].
    { eexists. split; [done|]. apply reacted_same; [done|]. unfold reaction. rewrite Hf, Z.eqb_refl, Eg. by rewrite Egen. }
    assert (El : (if dest =? allsystems s then igmp_lookfor_group s inp grp else Ret d)
      = Ret (match find_group (if dest =? allsystems s then grp else dest) (L (netif_num inp)) with Some (a, _) => a | None => NULL end)).
    { case_if; [apply (lookfor_spec s L inp grp HS)|by rewrite Hf]. }
    rewrite El. cbn [mbind outcome_bind].
    destruct (find_group (if dest =? allsystems s then grp else dest) (L (netif_num inp))) as [[a g]|] eqn:Ef.
    + destruct (find_group_Some _ _ _ _ Ef) as (_ & l1 & l2 & HL).
      assert (Ha : i_groups s !! a = Some g) by (eapply (shape_lookup _ _ _ _ HS (netif_num inp)); rewrite HL; apply elem_of_app; right; by left).
      rewrite (proj2 (Z.eqb_neq a NULL)) by congruence. cbn [negb].
      destruct (delay_one_spec s L (netif_num inp) l1 a g l2 maxresp HI HL Hm) as (k & g' & E & Hd & HI'). eexists. split; [exact E|].
      exists (packet_data s), k, (<[a := g']> (i_groups s)), (l1 ++ (a, g') :: l2). split; [by destruct s as [[[] ? ?] ? ? ? ? ? ? ? ?]|]. split; [done|].
      unfold reaction. rewrite Hf, Z.eqb_refl, Eg, andb_false_r, Ef. cbn [negb]. eauto 10.
    + rewrite Z.eqb_refl. cbn [negb]. eexists. split; [done|]. apply reacted_same; [done|]. unfold reaction. by rewrite Hf, Z.eqb_refl, Eg, andb_false_r, Ef.
Qed.

Lemma memb_report_spec (s : igmp) L inp dest d dg maxresp grp :
  igmp_inv s L -> find_group dest (L (netif_num inp)) = Some (d, dg) ->
  exists s', memb_report s d = Ret s' /\ reacted s L (netif_num inp) dest IGMP_V2_MEMB_REPORT maxresp grp s'.
Proof.
  intros HI Hf. pose proof HI as [HS Hlist Haddrs]. destruct (find_group_Some _ _ _ _ Hf) as (_ & l1 & l2 & HL).
  assert (Hin : (d, dg) ∈ L (netif_num inp)) by (rewrite HL; apply elem_of_app; right; by left).
  pose proof (shape_lookup _ _ _ _ HS _ _ _ Hin) as Hd. destruct (list_ok_elem _ _ _ _ (Hlist _) Hin) as [Hu Ht].
  exists (set_group s d (heard dg)). split.
  - unfold memb_report, heard. rewrite (group_at_ok s d dg Hd). cbn [mbind outcome_bind]. case_if; [done|].
    unfold set_group. rewrite insert_id by done. by destruct s.
  - exists (packet_data s), (i_rand s), (<[d := heard dg]> (i_groups s)), (l1 ++ (d, heard dg) :: l2).
    split; [by destruct s as [[[] ? ?] ? ? ? ? ? ? ? ?]|]. split.
    + eapply (inv_upd s L (netif_num inp) d dg (heard dg) l1 l2); try done; unfold heard; case_if; try done; try (cbn; lia).
      intros (H1 & H2 & H3 & H4 & _). do 4 (split; [done|]). by right.
    + unfold reaction. rewrite Hf. change (IGMP_V2_MEMB_REPORT =? IGMP_MEMB_QUERY) with false. rewrite Z.eqb_refl. eauto.
Qed.

Lemma free_packet_spec (n : inet) B ext p :
  net_ok n B (ext_add ext p) -> p <> NULL ->
  exists c ps B', pbuf_free (n_ps n) p = Ret (c, ps) /\ net_ok (with_ps n ps) B' ext.
Proof.
  intros [HI Hid] Hp. destruct (free_inv (n_ps n) B (λ a, (ext a + link_holds (n_lk n) a)%nat) p) as (c & ps & B' & E & HI' & _); [|done|].
  { eapply inv_ext_eq; [|exact HI]. intros a _. unfold ext_add. case_decide; lia. }
  exists c, ps, B'. split; [done|]. by split.
Qed.

(** The end of igmp_input: the packet is freed. *)
Lemma input_done (s s2 : igmp) L B ext p n l' m :
  net_ok (i_net s) B (ext_add ext p) -> p <> NULL -> igmp_inv s2 (set_list L n l') -> i_net s2 = with_ps (i_net s) (with_data (n_ps (i_net s)) m) ->
  exists s' B', ('(_, ps) ← pbuf_free (n_ps (i_net s2)) p; Ret (with_net s2 (with_ps (i_net s2) ps))) = Ret s'
    /\ igmp_inv s' (set_list L n l') /\ net_ok (i_net s') B' ext /\ link_log (n_lk (i_net s')) = link_log (n_lk (i_net s)).
Proof.
  intros [Hn Hid] Hp HI2 En. destruct (free_packet_spec (i_net s2) B ext p) as (c & ps & B' & E & Hok'); [|done|].
  { rewrite En. split; [by apply inv_data|done]. }
  rewrite E. cbn [mbind outcome_bind]. eexists _, B'. split; [done|]. destruct HI2 as [? ? ?]. split; [by split|]. split; [done|]. cbn. by rewrite En.
Qed.

Lemma inv_list_id (s : igmp) L n : igmp_inv s L -> igmp_inv s (set_list L n (L n)).
Proof.
  intros HI. pose proof HI as [HS Hlist Haddrs]. apply (inv_set_list s s L n); [done| |apply Hlist|done|done].
  eapply shape_ext; [|exact HS]. intros m. by rewrite set_list_id.
Qed.

Lemma maxresp_range m h n : Forall is_u8 (read_bytes m h n) -> (2 <= n)%nat -> 0 <= igmp_maxresp m h < 256.
Proof.
  intros Hm Hn. unfold igmp_maxresp. rewrite (load_at _ h 1 1 n) by lia. change (Z.to_nat 1) with 1%nat.
  pose proof (read_bytes_length m h n) as Hl. destruct (read_bytes m h n) as [|x0 [|x1 msg]]; cbn in Hl; [lia|lia|].
  apply Forall_cons in Hm as [_ Hm]. apply Forall_cons in Hm as [Hx _]. cbn [take drop le_val]. rewrite take_0. cbn [le_val]. unfold is_u8 in Hx. lia.
Qed.

Lemma input_spec (s : igmp) L B ext p b inp dest :
  igmp_inv s L -> net_ok (i_net s) B (ext_add ext p) -> pbufs (n_ps (i_net s)) !! p = Some b ->
  let h := p_payload b in
  let msg := read_bytes (packet_data s) h (Z.to_nat (p_len b)) in
  Forall is_u8 msg ->
  exists s' B' l', igmp_input rnd s p inp dest = Ret s' /\ igmp_inv s' (set_list L (netif_num inp) l') /\ net_ok (i_net s') B' ext
    /\ link_log (n_lk (i_net s')) = link_log (n_lk (i_net s))
    /\ if decide (8 <= p_len b /\ inet_chksum h msg = 0)
       then reaction (allsystems s) dest (igmp_msgtype (packet_data s) h) (igmp_maxresp (packet_data s) h)
              (igmp_group_address (packet_data s) h) (L (netif_num inp)) l'
       else l' = L (netif_num inp).
Proof.
  intros HI Hok Hb h msg Hmsg. pose proof HI as [HS Hlist Haddrs]. pose proof (shape_null _ _ _ _ HS) as Hnull.
  assert (Hp : p <> NULL) by (intros ->; by rewrite (inv_not_null _ _ _ (proj1 Hok)) in Hb).
  assert (Enet : i_net s = with_ps (i_net s) (with_data (n_ps (i_net s)) (packet_data s))) by (by destruct s as [[[] ? ?] ? ? ? ? ? ? ? ?]).
  pose proof (input_done s s L B ext p (netif_num inp) _ _ Hok Hp (inv_list_id s L _ HI) Enet) as Hsame.
  unfold igmp_input. rewrite (deref_ok _ _ _ Hb). cbn [mbind outcome_bind]. fold h. fold msg.
  destruct (Z.ltb_spec (p_len b) IGMP_MINLEN) as [Hlen|Hlen]; unfold IGMP_MINLEN in Hlen.
  { destruct Hsame as (s' & B' & E & H1 & H2 & H3). exists s', B', (L (netif_num inp)). rewrite decide_False by lia. by split_and!. }
  destruct (Z.eqb_spec (inet_chksum h msg) 0) as [Hck|Hck]; cbn [negb].
  2:{ destruct Hsame as (s' & B' & E & H1 & H2 & H3). exists s', B', (L (netif_num inp)). rewrite decide_False by tauto. by split_and!. }
  assert (Hvalid : 8 <= p_len b /\ inet_chksum h msg = 0) by (split; [lia|done]). rewrite (lookfor_spec s L inp dest HS). cbn [mbind outcome_bind].
  pose proof (maxresp_range _ _ _ Hmsg ltac:(lia)) as Hm8.
  destruct (find_group dest (L (netif_num inp))) as [[d dg]|] eqn:Hf.
  2:{ rewrite Z.eqb_refl. destruct Hsame as (s' & B' & E & H1 & H2 & H3). exists s', B', (L (netif_num inp)). rewrite decide_True by done. split; [done|]. do 3 (split; [done|]).
      unfold reaction. by rewrite Hf. }
  destruct (find_group_Some _ _ _ _ Hf) as (_ & l1 & l2 & HL).
  assert (Hd : i_groups s !! d = Some dg) by (eapply (shape_lookup _ _ _ _ HS (netif_num inp)); rewrite HL; apply elem_of_app; right; by left).
  rewrite (proj2 (Z.eqb_neq d NULL)) by congruence.
  assert (Hrun : exists s2, (if igmp_msgtype (packet_data s) h =? IGMP_MEMB_QUERY then memb_query rnd s inp h dest d
      else if igmp_msgtype (packet_data s) h =? IGMP_V2_MEMB_REPORT then memb_report s d else Ret s) = Ret s2
    /\ reacted s L (netif_num inp) dest (igmp_msgtype (packet_data s) h) (igmp_maxresp (packet_data s) h) (igmp_group_address (packet_data s) h) s2).
  { destruct (Z.eqb_spec (igmp_msgtype (packet_data s) h) IGMP_MEMB_QUERY) as [->|Hq]; [by apply memb_query_spec with dg|].
    destruct (Z.eqb_spec (igmp_msgtype (packet_data s) h) IGMP_V2_MEMB_REPORT) as [->|Hr]; [by apply memb_report_spec with dg|].
    eexists. split; [done|]. apply reacted_same; [done|]. unfold reaction.
    by rewrite Hf, (proj2 (Z.eqb_neq _ IGMP_MEMB_QUERY)), (proj2 (Z.eqb_neq _ IGMP_V2_MEMB_REPORT)). }
  destruct Hrun as (s2 & -> & m & k & G & l' & Es2 & HI2 & Hreact). cbn [mbind outcome_bind].
  destruct (input_done s s2 L B ext p (netif_num inp) l' m Hok Hp HI2 ltac:(by subst s2)) as (s' & B' & E & H1 & H2 & H3). exists s', B', l'. rewrite decide_True by done. by split_and!.
Qed.

(** ** Lemmas: the timer of all interfaces *)

Lemma tick_ok sys nif g g' fs k :
  tick sys nif g g' fs k ->
  group_address g' = group_address g /\ g_use g' = g_use g /\ (0 <= g_timer g < 256 -> 0 <= g_timer g' < 256) /\ (member_ok sys g -> member_ok sys g').
Proof.
  intros Ht. assert (Hidle : forall r, member_ok sys g -> member_ok sys (IgmpGroup (g_next g) (group_address g) r IGMP_GROUP_IDLE_MEMBER 0 (g_use g))).
  { intros r (H1 & H2 & H3 & H4 & _). do 4 (split; [done|]). by right. }
  destruct Ht as [Ht|Ht|id f Ht He Hf|Ht He|Ht He]; split_and!; try done; try (cbn; lia); try apply Hidle.
  - intros (H1 & H2 & H3 & H4 & H5). do 4 (split; [done|]). cbn. lia.
  - intros (H1 & H2 & H3 & H4 & [[H5 _]|[_ H5]]); [|lia]. unfold expires in He. rewrite H5, Z.eqb_refl in He. cbn in He.
    apply negb_false_iff, Z.eqb_eq in He. done.
Qed.

Lemma ticks_tail_ok sys nif l l' fs k :
  ticks sys nif l l' fs k -> Forall (λ x, member_ok sys x.2) l ->
  Forall (λ x, member_ok sys x.2) l' /\ (λ x, group_address x.2) <$> l' = (λ x, group_address x.2) <$> l.
Proof.
  intros HT. induction HT as [|a g g' l l' fs fs' k k' Ht _ IH]; intros Hl; [by split|]. apply Forall_cons in Hl as [Hg Hl].
  destruct (IH Hl) as [IH1 IH2]. destruct (tick_ok _ _ _ _ _ _ Ht) as (Ha & _ & _ & Hm). split; [constructor; auto|]. cbn. by rewrite Ha, IH2.
Qed.

Lemma list_ok_ticks sys nif l l' fs k : list_ok sys l -> ticks sys nif l l' fs k -> list_ok sys l'.
Proof.
  intros Hl HT. destruct HT as [|a g g' l l' fs fs' k k' Ht HT]; [done|]. destruct Hl as (H1 & H2 & H3 & H4 & H5).
  destruct (tick_ok _ _ _ _ _ _ Ht) as (Ha & Hu & Htm & _). destruct (ticks_tail_ok _ _ _ _ _ _ HT H4) as [H6 H7].
  split; [congruence|]. split; [by rewrite Hu|]. split; [by apply Htm|]. split; [done|by rewrite H7].
Qed.

Lemma list_ok_bounds sys l : is_u32 sys -> list_ok sys l -> Forall (λ x, is_u32 (group_address x.2) /\ is_u16 (g_timer x.2)) l.
Proof.
  intros Hs. destruct l as [|[h hg] l]; [by constructor|]. intros (H1 & H2 & H3 & H4 & _). constructor; [split; cbn; [by rewrite H1|unfold_c; lia]|].
  eapply Forall_impl; [exact H4|]. intros [a g] (H5 & _ & _ & _ & H6). split; [done|]. cbn in *. unfold_c. lia.
Qed.

Lemma inv_static (s : igmp) L : igmp_inv s L -> is_u32 (allsystems s) /\ is_u32 (allrouters s).
Proof. intros [_ _ [-> ->]]. vm_compute. intuition congruence. Qed.

(** Each interface of [nifs] has one tick. *)
Inductive all_ticks (sys : Z) (L L' : Z -> list (Z * igmp_group)) : list netif -> list (Z * Z * list Z) -> nat -> Prop :=
  | all_nil : all_ticks sys L L' [] [] 0
  | all_cons nif nifs fs fs' k k' :
      ticks sys nif (L (netif_num nif)) (L' (netif_num nif)) fs k -> all_ticks sys L L' nifs fs' k' ->
      all_ticks sys L L' (nif :: nifs) (fs ++ fs') (k + k').

Lemma all_ticks_ext sys L1 L2 L' nifs fs k :
  (forall nif, nif ∈ nifs -> L1 (netif_num nif) = L2 (netif_num nif)) -> all_ticks sys L1 L' nifs fs k -> all_ticks sys L2 L' nifs fs k.
Proof.
  intros HL HT. induction HT as [|nif nifs fs fs' k k' Ht _ IH]; constructor; [rewrite <- HL by (by left); done|]. apply IH. intros n Hn. apply HL. by right.
Qed.

Lemma tmr_spec (s : igmp) L B ext nifs :
  igmp_inv s L -> net_ok (i_net s) B ext -> Forall netif_ok nifs -> NoDup (netif_num <$> nifs) ->
  exists s' L' B' fs k, igmp_tmr s nifs = Ret s' /\ igmp_inv s' L' /\ net_ok (i_net s') B' ext /\ allsystems s' = allsystems s
    /\ i_memerr s' = bump k (i_memerr s)
    /\ link_log (n_lk (i_net s')) = link_log (n_lk (i_net s)) ++ fs /\ all_ticks (allsystems s) L L' nifs fs k
    /\ (forall m, m ∉ (netif_num <$> nifs) -> L' m = L m).
Proof.
  intros HI Hok Hn Hnd. revert s L B HI Hok. induction nifs as [|nif nifs IH]; intros s L B HI Hok; cbn [igmp_tmr].
  - exists s, L, B, [], 0%nat. rewrite app_nil_r. do 6 (split; [done|]). split; [constructor|done].
  - apply Forall_cons in Hn as [Hn1 Hn]. apply NoDup_cons in Hnd as [Hnin Hnd]. pose proof HI as [HS Hlist Haddrs]. destruct (inv_static s L HI) as [Hu1 Hu2].
    destruct (tmr_loop_spec (group_fuel s) s B ext L (netif_num nif) nif (netif_igmp_data s nif) [] (L (netif_num nif))) as (n1 & B1 & G & l' & fs & k & E & HS1 & Hok1 & Hlog & HT); try done.
    { apply (sh_seg _ _ _ _ HS). } { pose proof (shape_length _ _ _ _ HS (netif_num nif)). unfold group_fuel. lia. }
    { apply (list_ok_bounds (allsystems s)); [done|apply Hlist]. }
    rewrite E. cbn [mbind outcome_bind app] in *. set (s1 := with_memerr (with_groups (with_net s n1) G) (bump k (i_memerr s))) in *.
    assert (HI1 : igmp_inv s1 (set_list L (netif_num nif) l')) by (eapply inv_set_list; try done; by eapply list_ok_ticks).
    destruct (IH Hn Hnd s1 _ B1 HI1 Hok1) as (s2 & L2 & B2 & fs2 & k2 & E2 & HI2 & Hok2 & Hsys & Hme & Hlog2 & HT2 & Hfr).
    exists s2, L2, B2, (fs ++ fs2), (k + k2)%nat. do 4 (split; [done|]). split; [by rewrite Hme, bump_add|]. split; [rewrite Hlog2; cbn; by rewrite Hlog, app_assoc|]. split.
    + constructor; [by rewrite Hfr, set_list_eq|]. eapply all_ticks_ext; [|exact HT2]. intros n Hin. unfold set_list. rewrite decide_False; [done|].
      intros En. apply Hnin. rewrite <- En. apply list_elem_of_fmap. by exists n.
    + intros m Hm. cbn in Hm. apply not_elem_of_cons in Hm as [Hm1 Hm2]. rewrite Hfr by done. unfold set_list. by rewrite decide_False.
Qed.
End Facts.
