(* ===== verification/IgmpSafe.v ===== *)
(** * IGMP as a whole

    The functional behaviour of joining, leaving, messages and timers, and that no
    sequence of operations breaks the invariant or reaches an assertion. *)

From S2P Require Import Prelude Def ListSeg InetChksum Ip4Addr Mem Memp Pbuf PbufMem PbufRef PbufChain PbufData Header Ip4 Ip4Frag Igmp IgmpSpec.

#[local] Open Scope Z_scope.
#[local] Coercion Z.of_nat : nat >-> Z.

Section Safe.
Context `{MO : MemOptions} {MOk : MemOptionsOk} `{PO : PbufOptions} {POk : PbufOptionsOk} {St : Type} `{!PacketMemory St}
  {Lk : Type} `{LL : !LinkLayer Lk St} {Pl : Type} `{EP : !ElementPool Pl} (rnd : nat -> Z).
Abbreviation inet := (net (St := St) (Lk := Lk)).
Abbreviation igmp := (igmp (St := St) (Lk := Lk) (Pl := Pl)).

(** What an interface is a member of: its groups without the links. *)
Definition members (l : list (Z * igmp_group)) : list igmp_group := (λ x, with_next x.2 NULL) <$> l.

(** The heap had no room for a message. *)
Definition no_room (ps : pstate (St := St)) : Prop :=
  exists st, ram_fits PBUF_TRANSPORT 8 -> pm_mem_malloc (pmem ps) (ram_request PBUF_TRANSPORT 8) = Ret (None, st).

(** The addresses and interfaces that can be joined. *)
Definition joinable (s : igmp) (nif : netif) (addr : Z) : Prop :=
  netif_ok nif /\ Z.land (netif_flags nif) NETIF_FLAG_IGMP <> 0
  /\ is_u32 addr /\ ip4_addr_ismulticast addr = true /\ addr <> allsystems s.

(** ** Lemmas: joining and leaving *)

Lemma join_spec (s : igmp) L B ext nif addr x tl :
  igmp_inv s L -> net_ok (i_net s) B ext -> joinable s nif addr -> L (netif_num nif) = x :: tl ->
  exists e s' L' B' fs, igmp_joingroup_netif rnd s nif addr = Ret (e, s') /\ igmp_inv s' L' /\ net_ok (i_net s') B' ext
    /\ (forall m, m <> netif_num nif -> L' m = L m) /\ link_log (n_lk (i_net s')) = link_log (n_lk (i_net s)) ++ fs
    /\ match find_group addr (L (netif_num nif)) with
       | Some (a, g) => e = ERR_OK /\ fs = [] /\ i_filter s' = i_filter s
           /\ exists l1 l2, L (netif_num nif) = l1 ++ (a, g) :: l2 /\ L' (netif_num nif) = l1 ++ (a, with_use g (u8 (g_use g + 1))) :: l2
       | None =>
           if decide (size (i_groups s) < pool_cap)%nat then
             e = ERR_OK /\ i_filter s' = i_filter s ++ filter_calls nif addr true
             /\ exists r t, 1 <= t <= 4
                  /\ members (L' (netif_num nif)) = with_next x.2 NULL :: IgmpGroup NULL addr r IGMP_GROUP_DELAYING_MEMBER t 1 :: members tl
                  /\ (r = 1 /\ i_memerr s' = i_memerr s /\ (exists f, fs = [(netif_num nif, addr, f)]
                        /\ igmp_packet (netif_ip4_addr nif) (ip_id (i_net s)) IGMP_V2_MEMB_REPORT addr addr f)
                      \/ r = 0 /\ i_memerr s' = u16 (i_memerr s + 1) /\ fs = [] /\ no_room (n_ps (i_net s)))
           else e = ERR_MEM /\ fs = [] /\ L' = L /\ i_filter s' = i_filter s
       end.
Proof.
  intros HI Hok (Hnif & Hfl & Hau & Hmc & Hne) HL. pose proof HI as [HS Hlist Haddrs]. destruct x as [h hg].
  assert (Hother : forall l m, m <> netif_num nif -> set_list L (netif_num nif) l m = L m) by (intros l m Hm; unfold set_list; by rewrite decide_False).
  destruct (find_group addr (L (netif_num nif))) as [[a g]|] eqn:Hf.
  - destruct (find_group_Some _ _ _ _ Hf) as (Hga & l1 & l2 & Hl). assert (Hin : (a, g) ∈ L (netif_num nif)) by (rewrite Hl; apply elem_of_app; right; by left).
    pose proof (shape_lookup _ _ _ _ HS _ _ _ Hin) as Ha. destruct (list_ok_elem _ _ _ _ (Hlist _) Hin) as [Hu Ht].
    assert (Hmem : member_ok (allsystems s) g).
    { pose proof (Hlist (netif_num nif)) as Hlo. rewrite HL in Hlo, Hin. destruct Hlo as (Hsys & _ & _ & Hm & _). apply elem_of_cons in Hin as [[= -> ->]|Hin]; [congruence|].
      rewrite Forall_forall in Hm. apply (Hm _ Hin). }
    exists ERR_OK, (set_group s a (with_use g (u8 (g_use g + 1)))), (set_list L (netif_num nif) (l1 ++ (a, with_use g (u8 (g_use g + 1))) :: l2)), B, []. split; [|split; [|split; [exact Hok|split; [by apply Hother|split; [by rewrite app_nil_r|]]]]].
    + unfold igmp_joingroup_netif. rewrite !LWIP_ERROR_ok by (done || (apply negb_true_iff; by apply Z.eqb_neq)). cbn [mbind outcome_bind].
      unfold igmp_lookup_group. rewrite (lookfor_spec s L nif addr HS), Hf. cbn [mbind outcome_bind].
      assert (Han : (a =? NULL) = false) by (apply Z.eqb_neq; pose proof (shape_null _ _ _ _ HS); congruence). rewrite Han. cbn [negb mbind outcome_bind].
      rewrite Han. cbn [negb]. rewrite (group_at_ok s a g Ha). cbn [mbind outcome_bind].
      assert (Hst : (group_state g =? IGMP_GROUP_NON_MEMBER) = false) by (destruct Hmem as (_ & _ & _ & _ & [[-> _]|[-> _]]); done). rewrite Hst. cbn [negb mbind outcome_bind].
      rewrite (group_at_ok s a g Ha). cbn [mbind outcome_bind]. reflexivity.
    + eapply (inv_upd s L (netif_num nif) a g _ l1 l2); try done; [apply u8_range|]. intros (H1 & H2 & H3 & _ & H5). do 3 (split; [done|]). split; [apply u8_range|done].
    + do 3 (split; [done|]). exists l1, l2. split; [done|apply set_list_eq].
  - case_decide as Hcap.
    + assert (Hf2 : find_group addr tl = None) by (rewrite HL in Hf; cbn in Hf; by destruct (group_address hg =? addr)).
      destruct (join_new_spec rnd s B ext L nif addr h hg tl HI Hok Hnif HL Hf2 Hau Hmc Hne Hfl Hcap) as (s' & B' & e & r & t & fs & E & HI' & Hok' & Ht & Hfil & Hlog & Hr).
      eexists ERR_OK, s', _, B', fs. split; [exact E|]. split; [exact HI'|]. split; [done|]. split; [by apply Hother|]. split; [done|]. split; [done|]. split; [done|].
      exists r, t. split; [done|]. split; [by rewrite set_list_eq|]. exact Hr.
    + pose proof (lookup_new_spec s L nif addr h hg tl HS HL Hf Hne) as Hlk. rewrite decide_False in Hlk by done. destruct Hlk as (P & Elk & HS').
      exists ERR_MEM, (with_pool s P), L, B, []. rewrite app_nil_r. split; [|split; [|by split_and!; try apply Hok]].
      * unfold igmp_joingroup_netif. rewrite !LWIP_ERROR_ok by (done || (apply negb_true_iff; by apply Z.eqb_neq)). cbn [mbind outcome_bind].
        rewrite Elk. cbn [mbind outcome_bind]. rewrite Z.eqb_refl. done.
      * by split.
Qed.

Lemma leave_spec (s : igmp) L B ext nif addr :
  igmp_inv s L -> net_ok (i_net s) B ext -> joinable s nif addr ->
  exists e s' L' B' fs, igmp_leavegroup_netif s nif addr = Ret (e, s') /\ igmp_inv s' L' /\ net_ok (i_net s') B' ext
    /\ (forall m, m <> netif_num nif -> L' m = L m) /\ link_log (n_lk (i_net s')) = link_log (n_lk (i_net s)) ++ fs
    /\ match find_group addr (L (netif_num nif)) with
       | None => e = ERR_VAL /\ s' = s /\ fs = []
       | Some (a, g) =>
           e = ERR_OK
           /\ if g_use g <=? 1 then
                i_filter s' = i_filter s ++ filter_calls nif addr false
                /\ (exists m1 m2, members (L (netif_num nif)) = m1 ++ with_next g NULL :: m2 /\ members (L' (netif_num nif)) = m1 ++ m2)
                /\ (last_reporter_flag g <> 0 /\ i_memerr s' = i_memerr s /\ (exists f, fs = [(netif_num nif, allrouters s, f)]
                      /\ igmp_packet (netif_ip4_addr nif) (ip_id (i_net s)) IGMP_LEAVE_GROUP (allrouters s) addr f)
                    \/ fs = [] /\ (last_reporter_flag g = 0 /\ i_memerr s' = i_memerr s
                                   \/ i_memerr s' = u16 (i_memerr s + 1) /\ no_room (n_ps (i_net s))))
              else fs = [] /\ i_filter s' = i_filter s
                /\ exists l1 l2, L (netif_num nif) = l1 ++ (a, g) :: l2 /\ L' (netif_num nif) = l1 ++ (a, with_use g (g_use g - 1)) :: l2
       end.
Proof.
  intros HI Hok (Hnif & Hfl & Hau & Hmc & Hne). pose proof HI as [HS Hlist Haddrs].
  assert (Hother : forall l m, m <> netif_num nif -> set_list L (netif_num nif) l m = L m) by (intros l m Hm; unfold set_list; by rewrite decide_False).
  destruct (find_group addr (L (netif_num nif))) as [[a g]|] eqn:Hf.
  2:{ exists ERR_VAL, s, L, B, []. rewrite app_nil_r. split; [|by split_and!; try apply Hok]. unfold igmp_leavegroup_netif. rewrite !LWIP_ERROR_ok by (done || (apply negb_true_iff; by apply Z.eqb_neq)). cbn [mbind outcome_bind]. rewrite (lookfor_spec s L nif addr HS), Hf. cbn [mbind outcome_bind].
      by rewrite Z.eqb_refl. }
  destruct (find_group_Some _ _ _ _ Hf) as (Hga & l1 & l2 & Hl). assert (Hin : (a, g) ∈ L (netif_num nif)) by (rewrite Hl; apply elem_of_app; right; by left).
  pose proof (shape_lookup _ _ _ _ HS _ _ _ Hin) as Ha. destruct (list_ok_elem _ _ _ _ (Hlist _) Hin) as [Hu Ht].
  destruct (Z.leb_spec (g_use g) 1) as [Huse|Huse].
  - destruct l1 as [|y l1 _] using rev_ind.
    { pose proof (Hlist (netif_num nif)) as Hlo. rewrite Hl in Hlo. destruct Hlo as (Hsys & _). congruence. }
    destruct y as [t tg]. rewrite <- app_assoc in Hl. cbn [app] in Hl.
    destruct (leave_last_spec s B ext L nif addr l1 t tg a g l2 HI Hok Hnif Hl Hf Hmc Hne Hfl Hau Huse) as (s' & B' & fs & E & HI' & Hok' & Hfil & Hlog & Hfs).
    eexists ERR_OK, s', _, B', fs. split; [exact E|]. split; [exact HI'|]. split; [done|]. split; [by apply Hother|]. split; [done|]. split; [done|]. split; [done|]. split; [|exact Hfs].
    exists (members (l1 ++ [(t, tg)])), (members l2). rewrite set_list_eq, Hl. unfold members. rewrite !fmap_app. cbn. by rewrite <- !app_assoc.
  - exists ERR_OK, (set_group s a (with_use g (g_use g - 1))), (set_list L (netif_num nif) (l1 ++ (a, with_use g (g_use g - 1)) :: l2)), B, [].
    rewrite app_nil_r. split; [|split; [|split; [exact Hok|split; [by apply Hother|split; [done|split; [done|do 2 (split; [done|])]]]]]].
    + unfold igmp_leavegroup_netif. rewrite !LWIP_ERROR_ok by (done || (apply negb_true_iff; by apply Z.eqb_neq)). cbn [mbind outcome_bind]. rewrite (lookfor_spec s L nif addr HS), Hf. cbn [mbind outcome_bind].
      rewrite (proj2 (Z.eqb_neq a NULL)) by (pose proof (shape_null _ _ _ _ HS); congruence). cbn [negb]. rewrite (group_at_ok s a g Ha). cbn [mbind outcome_bind].
      rewrite (proj2 (Z.leb_gt _ _) Huse). by rewrite u8_small by (unfold_c; lia).
    + eapply (inv_upd s L (netif_num nif) a g _ l1 l2); try done; [unfold_c; cbn; lia|]. intros (H1 & H2 & H3 & _ & H5). do 3 (split; [done|]). split; [unfold_c; cbn; lia|done].
    + exists l1, l2. split; [done|apply set_list_eq].
Qed.

(** ** Sequences of operations *)

Inductive igmp_op :=
  | OpStart (nif : netif) | OpStop (nif : netif) | OpReport (nif : netif)
  | OpJoin (nif : netif) (addr : Z) | OpLeave (nif : netif) (addr : Z)
  | OpJoinAll (nifs : list netif) (ifaddr addr : Z) | OpLeaveAll (nifs : list netif) (ifaddr addr : Z)
  | OpTmr (nifs : list netif)
  (** other traffic changes the network state to [n] *)
  | OpNet (n : inet)
  (** a packet [p] has come in *)
  | OpInput (n : inet) (p : Z) (inp : netif) (dest : Z).

Definition run_op (s : igmp) (op : igmp_op) : outcome igmp :=
  match op with
  | OpStart nif => '(_, s) ← igmp_start s nif; Ret s
  | OpStop nif => '(_, s) ← igmp_stop s nif; Ret s
  | OpReport nif => igmp_report_groups rnd s nif
  | OpJoin nif addr => '(_, s) ← igmp_joingroup_netif rnd s nif addr; Ret s
  | OpLeave nif addr => '(_, s) ← igmp_leavegroup_netif s nif addr; Ret s
  | OpJoinAll nifs ifaddr addr => '(_, s) ← igmp_joingroup rnd s nifs ifaddr addr; Ret s
  | OpLeaveAll nifs ifaddr addr => '(_, s) ← igmp_leavegroup s nifs ifaddr addr; Ret s
  | OpTmr nifs => igmp_tmr s nifs
  | OpNet n => Ret (with_net s n)
  | OpInput n p inp dest => igmp_input rnd (with_net s n) p inp dest
  end.

(** What the callers of IGMP see to: multicast addresses, interfaces with IGMP that
    were started before they join, packets that are theirs to hand over. *)
Definition allowed (ext : Z -> nat) (s : igmp) (op : igmp_op) : Prop :=
  match op with
  | OpStart _ | OpStop _ | OpReport _ => True
  | OpJoin nif addr => joinable s nif addr /\ netif_igmp_data s nif <> NULL
  | OpLeave nif addr => joinable s nif addr
  | OpJoinAll nifs ifaddr addr => is_u32 addr /\ ip4_addr_ismulticast addr = true /\ addr <> allsystems s
      /\ Forall (λ nif, netif_ok nif /\ (igmp_netif_matches nif ifaddr = true -> netif_igmp_data s nif <> NULL)) nifs
  | OpLeaveAll nifs ifaddr addr => is_u32 addr /\ ip4_addr_ismulticast addr = true /\ addr <> allsystems s /\ Forall netif_ok nifs
  | OpTmr nifs => Forall netif_ok nifs /\ NoDup (netif_num <$> nifs)
  | OpNet n => exists B, net_ok n B ext
  | OpInput n p _ _ => exists B b, net_ok n B (ext_add ext p) /\ pbufs (n_ps n) !! p = Some b
      /\ Forall is_u8 (read_bytes (data (n_ps n)) (p_payload b) (Z.to_nat (p_len b)))
  end.

Inductive reachable (ext : Z -> nat) (s0 : igmp) : igmp -> Prop :=
  | reach_init : reachable ext s0 s0
  | reach_step s op s' : reachable ext s0 s -> allowed ext s op -> run_op s op = Ret s' -> reachable ext s0 s'.

(** The invariant with the references of the network. *)
Definition safe_state (ext : Z -> nat) (s : igmp) : Prop := exists L B, igmp_inv s L /\ net_ok (i_net s) B ext.

(** The list of an interface that was started. *)
Lemma started_list (s : igmp) L nif : igmp_inv s L -> netif_igmp_data s nif <> NULL -> exists x tl, L (netif_num nif) = x :: tl.
Proof.
  intros [HS _ _] Hn. pose proof (sh_seg _ _ _ _ HS (netif_num nif)) as Hs. destruct (L (netif_num nif)) as [|x tl]; [by cbn in Hs|eauto].
Qed.

Lemma matches_flag nif ifaddr : igmp_netif_matches nif ifaddr = true -> Z.land (netif_flags nif) NETIF_FLAG_IGMP <> 0.
Proof. unfold igmp_netif_matches. intros H%andb_true_iff. destruct H as [H _]. by apply negb_true_iff, Z.eqb_neq in H. Qed.

Lemma list_started (s : igmp) L nif : igmp_inv s L -> L (netif_num nif) <> [] <-> netif_igmp_data s nif <> NULL.
Proof.
  intros HI. pose proof HI as [HS _ _]. pose proof (sh_seg _ _ _ _ HS (netif_num nif)) as Hs. pose proof (shape_null _ _ _ _ HS) as Hn. unfold netif_igmp_data.
  destruct (L (netif_num nif)) as [|[h hg] l]; cbn in Hs; [done|]. destruct Hs as (-> & Hh & _). split; [|done]. intros _ ->. congruence.
Qed.

Lemma inv_allsystems (s s' : igmp) L L' : igmp_inv s L -> igmp_inv s' L' -> allsystems s' = allsystems s.
Proof. intros [_ _ [-> _]] [_ _ [-> _]]. done. Qed.

(** A join leaves the list of its interface with at least the first group. *)
Lemma join_loop_safe (s : igmp) L B ext nifs ifaddr addr err :
  igmp_inv s L -> net_ok (i_net s) B ext -> is_u32 addr -> ip4_addr_ismulticast addr = true -> addr <> allsystems s ->
  Forall (λ nif, netif_ok nif /\ (igmp_netif_matches nif ifaddr = true -> L (netif_num nif) <> [])) nifs ->
  exists e s' L' B', join_loop rnd s nifs ifaddr addr err = Ret (e, s') /\ igmp_inv s' L' /\ net_ok (i_net s') B' ext.
Proof.
  intros HI Hok Hau Hmc Hne Hn. revert s L B err HI Hok Hne Hn. induction nifs as [|nif nifs IH]; intros s L B err HI Hok Hne Hn; cbn [join_loop]; [by eauto 10|].
  apply Forall_cons in Hn as [[Hnif Hst] Hn]. destruct (igmp_netif_matches nif ifaddr) eqn:Em; [|by apply (IH s L B)].
  destruct (L (netif_num nif)) as [|x tl] eqn:HL; [by specialize (Hst eq_refl)|].
  destruct (join_spec s L B ext nif addr x tl HI Hok ltac:(split; [done|split; [by eapply matches_flag|done]]) HL) as (e & s1 & L1 & B1 & fs & E & HI1 & Hok1 & Hoth & _ & Hcase).
  rewrite E. cbn [mbind outcome_bind]. case_if; [by eauto 10|]. apply (IH s1 L1 B1); try done; [by rewrite (inv_allsystems s s1 L L1)|].
  eapply Forall_impl; [exact Hn|]. intros n [Hn1 Hn2]. split; [done|]. intros Hm. specialize (Hn2 Hm).
  destruct (decide (netif_num n = netif_num nif)) as [->|Hnn]; [|by rewrite Hoth].
  rewrite HL in Hcase. destruct (find_group addr (x :: tl)) as [[a g]|].
  - destruct Hcase as (_ & _ & _ & l1 & l2 & _ & ->). by destruct l1.
  - case_decide; [|destruct Hcase as (_ & _ & -> & _); by rewrite HL]. destruct Hcase as (_ & _ & r & t & _ & Hmem & _). intros Enil. by rewrite Enil in Hmem.
Qed.

Lemma leave_loop_safe (s : igmp) L B ext nifs ifaddr addr err :
  igmp_inv s L -> net_ok (i_net s) B ext -> is_u32 addr -> ip4_addr_ismulticast addr = true -> addr <> allsystems s -> Forall netif_ok nifs ->
  exists e s' L' B', leave_loop s nifs ifaddr addr err = Ret (e, s') /\ igmp_inv s' L' /\ net_ok (i_net s') B' ext.
Proof.
  intros HI Hok Hau Hmc Hne Hn. revert s L B err HI Hok Hne. induction nifs as [|nif nifs IH]; intros s L B err HI Hok Hne; cbn [leave_loop]; [by eauto 10|].
  apply Forall_cons in Hn as [Hnif Hn]. destruct (igmp_netif_matches nif ifaddr) eqn:Em; [|by apply (IH Hn s L B)].
  destruct (leave_spec s L B ext nif addr HI Hok ltac:(split; [done|split; [by eapply matches_flag|done]])) as (e & s1 & L1 & B1 & fs & E & HI1 & Hok1 & _).
  rewrite E. cbn [mbind outcome_bind]. apply (IH Hn s1 L1 B1); try done. by rewrite (inv_allsystems s s1 L L1).
Qed.

Lemma op_safe ext (s : igmp) op : safe_state ext s -> allowed ext s op -> exists s', run_op s op = Ret s' /\ safe_state ext s'.
Proof.
  intros (L & B & HI & Hok) Ha. pose proof HI as [HS Hlist Haddrs].
  destruct op as [nif|nif|nif|nif addr|nif addr|nifs ifaddr addr|nifs ifaddr addr|nifs|n|n p inp dest]; cbn [run_op allowed] in *.
  - destruct (start_spec s L nif HI) as (e & s' & L' & -> & HI' & En & _). eexists. split; [done|]. exists L', B. by rewrite En.
  - destruct (stop_spec s L nif HI) as (s' & -> & HI' & En). eexists. split; [done|]. eexists _, B. split; [done|]. by rewrite En.
  - destruct (delay_all_spec rnd s L nif IGMP_JOIN_DELAYING_MEMBER_TMR HI ltac:(vm_compute; intuition congruence)) as (k & G & l' & E & HI' & _).
    eexists. split; [exact E|]. by eexists _, B.
  - destruct Ha as [Hj Hst]. destruct (started_list s L nif HI Hst) as (x & tl & HL).
    destruct (join_spec s L B ext nif addr x tl HI Hok Hj HL) as (e & s' & L' & B' & fs & -> & HI' & Hok' & _). eexists. split; [done|]. by exists L', B'.
  - destruct (leave_spec s L B ext nif addr HI Hok Ha) as (e & s' & L' & B' & fs & -> & HI' & Hok' & _). eexists. split; [done|]. by exists L', B'.
  - destruct Ha as (H1 & H2 & H3 & H4). unfold igmp_joingroup. rewrite !LWIP_ERROR_ok by (done || (apply negb_true_iff; by apply Z.eqb_neq)). cbn [mbind outcome_bind].
    destruct (join_loop_safe s L B ext nifs ifaddr addr ERR_VAL HI Hok H1 H2 H3) as (e & s' & L' & B' & -> & HI' & Hok').
    { eapply Forall_impl; [exact H4|]. intros n [Hn Hm]. split; [done|]. intros Hx. by apply (list_started s L n HI), Hm. }
    eexists. split; [done|]. by exists L', B'.
  - destruct Ha as (H1 & H2 & H3 & H4). unfold igmp_leavegroup. rewrite !LWIP_ERROR_ok by (done || (apply negb_true_iff; by apply Z.eqb_neq)). cbn [mbind outcome_bind].
    destruct (leave_loop_safe s L B ext nifs ifaddr addr ERR_VAL HI Hok H1 H2 H3 H4) as (e & s' & L' & B' & -> & HI' & Hok'). eexists. split; [done|]. by exists L', B'.
  - destruct Ha as [H1 H2]. destruct (tmr_spec s L B ext nifs HI Hok H1 H2) as (s' & L' & B' & fs & k & E & HI' & Hok' & _). exists s'. split; [done|]. by exists L', B'.
  - destruct Ha as (B' & Hn). eexists. split; [done|]. exists L, B'. split; [by split|done].
  - destruct Ha as (B' & b & Hn & Hb & Hm).
    destruct (input_spec rnd (with_net s n) L B' ext p b inp dest ltac:(by split) Hn Hb Hm) as (s' & B2 & l' & E & HI' & Hok' & _). exists s'. split; [done|]. by eexists _, B2.
Qed.

(** ** Properties *)

(** C24: joining a group.  On an interface that was started, a group that is already in
    its list gets one use more (modulo 256) and nothing else happens; a new one is
    put behind the all-systems group with one use, in state "delaying" with a timer of
    1 to 4 ticks, its address is enabled in the MAC filter, and a report for it goes
    out at once (with the router alert option, TTL 1 and valid checksums) unless the
    heap has no room, which is counted; with no free element in the pool the result is ERR_MEM and
    nothing changes.  The other interfaces keep their lists. *)
Theorem igmp_joingroup_netif_correct (s : igmp) L B ext nif addr x tl :
  igmp_inv s L -> net_ok (i_net s) B ext -> joinable s nif addr -> L (netif_num nif) = x :: tl ->
  exists e s' L' B' fs, igmp_joingroup_netif rnd s nif addr = Ret (e, s') /\ igmp_inv s' L' /\ net_ok (i_net s') B' ext
    /\ (forall m, m <> netif_num nif -> L' m = L m) /\ link_log (n_lk (i_net s')) = link_log (n_lk (i_net s)) ++ fs
    /\ match find_group addr (L (netif_num nif)) with
       | Some (a, g) => e = ERR_OK /\ fs = [] /\ i_filter s' = i_filter s
           /\ exists l1 l2, L (netif_num nif) = l1 ++ (a, g) :: l2 /\ L' (netif_num nif) = l1 ++ (a, with_use g (u8 (g_use g + 1))) :: l2
       | None =>
           if decide (size (i_groups s) < pool_cap)%nat then
             e = ERR_OK /\ i_filter s' = i_filter s ++ filter_calls nif addr true
             /\ exists r t, 1 <= t <= 4
                  /\ members (L' (netif_num nif)) = with_next x.2 NULL :: IgmpGroup NULL addr r IGMP_GROUP_DELAYING_MEMBER t 1 :: members tl
                  /\ (r = 1 /\ i_memerr s' = i_memerr s /\ (exists f, fs = [(netif_num nif, addr, f)]
                        /\ igmp_packet (netif_ip4_addr nif) (ip_id (i_net s)) IGMP_V2_MEMB_REPORT addr addr f)
                      \/ r = 0 /\ i_memerr s' = u16 (i_memerr s + 1) /\ fs = [] /\ no_room (n_ps (i_net s)))
           else e = ERR_MEM /\ fs = [] /\ L' = L /\ i_filter s' = i_filter s
       end.
Proof. apply join_spec. Qed.

(** C25: leaving a group.  The result is ERR_VAL, and nothing happens, when the group is
    not in the list.  With more than one use the count goes down; otherwise the group
    is taken out of the list, disabled in the MAC filter and given back to the pool,
    and a leave message goes to the all-routers address exactly when this host was the
    last to report (and the heap has room). *)
Theorem igmp_leavegroup_netif_correct (s : igmp) L B ext nif addr :
  igmp_inv s L -> net_ok (i_net s) B ext -> joinable s nif addr ->
  exists e s' L' B' fs, igmp_leavegroup_netif s nif addr = Ret (e, s') /\ igmp_inv s' L' /\ net_ok (i_net s') B' ext
    /\ (forall m, m <> netif_num nif -> L' m = L m) /\ link_log (n_lk (i_net s')) = link_log (n_lk (i_net s)) ++ fs
    /\ match find_group addr (L (netif_num nif)) with
       | None => e = ERR_VAL /\ s' = s /\ fs = []
       | Some (a, g) =>
           e = ERR_OK
           /\ if g_use g <=? 1 then
                i_filter s' = i_filter s ++ filter_calls nif addr false
                /\ (exists m1 m2, members (L (netif_num nif)) = m1 ++ with_next g NULL :: m2 /\ members (L' (netif_num nif)) = m1 ++ m2)
                /\ (last_reporter_flag g <> 0 /\ i_memerr s' = i_memerr s /\ (exists f, fs = [(netif_num nif, allrouters s, f)]
                      /\ igmp_packet (netif_ip4_addr nif) (ip_id (i_net s)) IGMP_LEAVE_GROUP (allrouters s) addr f)
                    \/ fs = [] /\ (last_reporter_flag g = 0 /\ i_memerr s' = i_memerr s
                                   \/ i_memerr s' = u16 (i_memerr s + 1) /\ no_room (n_ps (i_net s))))
              else fs = [] /\ i_filter s' = i_filter s
                /\ exists l1 l2, L (netif_num nif) = l1 ++ (a, g) :: l2 /\ L' (netif_num nif) = l1 ++ (a, with_use g (g_use g - 1)) :: l2
       end.
Proof. apply leave_spec. Qed.

(** C22: whatever sequence of operations runs (interfaces started and stopped, groups
    joined and left, reports, timer ticks, packets, other traffic), the lists of
    groups stay well formed: linked, each group in one list and once, the all-systems
    group first, the timer running exactly in state "delaying", the elements of the
    pool all accounted for; and every allowed operation returns, without an assertion,
    a dangling pointer or an endless loop. *)
Theorem igmp_reachable_safe ext (s0 s : igmp) op :
  safe_state ext s0 -> reachable ext s0 s -> allowed ext s op ->
  safe_state ext s /\ exists s', run_op s op = Ret s' /\ safe_state ext s'.
Proof.
  intros H0 Hr Ha. assert (Hs : safe_state ext s).
  { clear Ha op. induction Hr as [|s op s' _ IH Ha E]; [done|]. destruct (op_safe ext s op IH Ha) as (s2 & E2 & Hs2). rewrite E in E2. by injection E2 as <-. }
  split; [done|]. by apply op_safe.
Qed.

(** C26: a message of the link.  It is dropped when it is too short or its checksum is
    wrong; a general query delays the report of every group joined by less than the
    maximum response time (1 s for a version 1 query), a query for one group that
    group's, and a report of another member cancels the own one and the duty to send a
    leave message.  The packet is freed in any case, nothing is sent. *)
Theorem igmp_input_correct (s : igmp) L B ext p b inp dest :
  igmp_inv s L -> net_ok (i_net s) B (ext_add ext p) -> pbufs (n_ps (i_net s)) !! p = Some b ->
  let h := p_payload b in
  let msg := read_bytes (packet_data s) h (Z.to_nat (p_len b)) in
  Forall is_u8 msg ->
  exists s' B' l', igmp_input rnd s p inp dest = Ret s' /\ igmp_inv s' (set_list L (netif_num inp) l') /\ net_ok (i_net s') B' ext
    /\ link_log (n_lk (i_net s')) = link_log (n_lk (i_net s))
    /\ if decide (8 <= p_len b /\ inet_chksum h msg = 0)
       then reaction (allsystems s) dest (igmp_msgtype (packet_data s) h) (igmp_maxresp (packet_data s) h)
              (igmp_group_address (packet_data s) h) (L (netif_num inp)) l'
       else l' = L (netif_num inp).
Proof. apply input_spec. Qed.

(** ** The delay of a report *)

(** [k] calls of igmp_tmr. *)
Fixpoint tmr_times (k : nat) (s : igmp) (nifs : list netif) : outcome igmp :=
  match k with
  | O => Ret s
  | S k => s ← igmp_tmr s nifs; tmr_times k s nifs
  end.

(** The number of groups of the interfaces. *)
Definition group_count (L : Z -> list (Z * igmp_group)) (nifs : list netif) : nat := sum_list_with (λ nif, length (L (netif_num nif))) nifs.

Lemma tick_count sys nif g g' fs k : tick sys nif g g' fs k -> (k <= 1)%nat.
Proof. by destruct 1; lia. Qed.

Lemma ticks_count sys nif l l' fs k : ticks sys nif l l' fs k -> (k <= length l)%nat /\ length l' = length l.
Proof.
  induction 1 as [|a g g' l l' fs fs' k k' Ht _ [IH1 IH2]]; [done|]. pose proof (tick_count _ _ _ _ _ _ Ht). cbn. lia.
Qed.

Lemma all_ticks_count sys L L' nifs fs k : all_ticks sys L L' nifs fs k -> (k <= group_count L nifs)%nat /\ group_count L' nifs = group_count L nifs.
Proof.
  induction 1 as [|nif nifs fs fs' k k' Ht _ [IH1 IH2]]; [done|]. destruct (ticks_count _ _ _ _ _ _ Ht). unfold group_count in *. cbn. lia.
Qed.

Lemma ticks_elem sys nif l l' fs k a g :
  ticks sys nif l l' fs k -> (a, g) ∈ l -> exists g' fs1 k1, (a, g') ∈ l' /\ tick sys nif g g' fs1 k1 /\ (forall f, f ∈ fs1 -> f ∈ fs) /\ (k1 <= k)%nat.
Proof.
  intros HT. induction HT as [|b h h' l l' fs fs' k k' Ht _ IH]; [by intros ?%not_elem_of_nil|]. intros [[= -> ->]|Hin]%elem_of_cons.
  - exists h', fs, k. split; [by left|]. split; [done|]. split; [intros f Hf; apply elem_of_app; by left|lia].
  - destruct (IH Hin) as (g' & fs1 & k1 & Hg' & Ht' & Hsub & Hk). exists g', fs1, k1. split; [by right|]. split; [done|].
    split; [intros f Hf; apply elem_of_app; right; auto|lia].
Qed.

Lemma all_ticks_elem sys L L' nifs fs k nif :
  all_ticks sys L L' nifs fs k -> nif ∈ nifs ->
  exists fs1 k1, ticks sys nif (L (netif_num nif)) (L' (netif_num nif)) fs1 k1 /\ (forall f, f ∈ fs1 -> f ∈ fs) /\ (k1 <= k)%nat.
Proof.
  intros HT. induction HT as [|n nifs fs fs' k k' Ht _ IH]; [by intros ?%not_elem_of_nil|]. intros [->|Hin]%elem_of_cons.
  - exists fs, k. split; [done|]. split; [intros f Hf; apply elem_of_app; by left|lia].
  - destruct (IH Hin) as (fs1 & k1 & Ht1 & Hsub & Hk). exists fs1, k1. split; [done|]. split; [intros f Hf; apply elem_of_app; right; auto|lia].
Qed.

(** The timer of a group that is delaying runs. *)
Lemma delaying_timer (s : igmp) L n a g :
  igmp_inv s L -> (a, g) ∈ L n -> group_address g <> allsystems s -> group_state g = IGMP_GROUP_DELAYING_MEMBER -> 0 < g_timer g.
Proof.
  intros HI Hg Hne Hst. pose proof (gi_list _ _ HI n) as Hl. destruct (L n) as [|[h hg] l]; [by apply not_elem_of_nil in Hg|].
  destruct Hl as (Hsys & _ & _ & Hm & _). apply elem_of_cons in Hg as [[= -> ->]|Hg]; [congruence|]. rewrite Forall_forall in Hm.
  destruct (Hm _ Hg) as (_ & _ & _ & _ & [[_ ?]|[Hidle _]]); [cbn in *; lia|]. cbn in Hidle. rewrite Hst in Hidle. discriminate.
Qed.

(** After the time of the timer: the report is among what was sent, or lost. *)
Lemma report_due_count (t : nat) (s : igmp) L B ext nifs nif a g :
  igmp_inv s L -> net_ok (i_net s) B ext -> Forall netif_ok nifs -> NoDup (netif_num <$> nifs) -> nif ∈ nifs ->
  (a, g) ∈ L (netif_num nif) -> group_address g <> allsystems s -> group_state g = IGMP_GROUP_DELAYING_MEMBER -> t = Z.to_nat (g_timer g) ->
  exists s' L' B' g' fs k, tmr_times t s nifs = Ret s' /\ igmp_inv s' L' /\ net_ok (i_net s') B' ext
    /\ (a, g') ∈ L' (netif_num nif) /\ group_state g' = IGMP_GROUP_IDLE_MEMBER /\ g_timer g' = 0
    /\ link_log (n_lk (i_net s')) = link_log (n_lk (i_net s)) ++ fs /\ i_memerr s' = bump k (i_memerr s) /\ (k <= t * group_count L nifs)%nat
    /\ ((exists id f, (netif_num nif, group_address g, f) ∈ fs
           /\ igmp_packet (netif_ip4_addr nif) id IGMP_V2_MEMB_REPORT (group_address g) (group_address g) f)
        \/ (0 < k)%nat).
Proof.
  intros HI Hok Hn Hnd Hin Hg Hne Hst Hk. revert s L B g HI Hok Hg Hne Hst Hk.
  induction t as [|t IH]; intros s L B g HI Hok Hg Hne Hst Hk; pose proof (delaying_timer s L _ a g HI Hg Hne Hst) as Ht0; [lia|]. cbn [tmr_times].
  destruct (tmr_spec s L B ext nifs HI Hok Hn Hnd) as (s1 & L1 & B1 & fs & k & E & HI1 & Hok1 & Hsys & Hme & Hlog & HT & _). rewrite E. cbn [mbind outcome_bind].
  destruct (all_ticks_count _ _ _ _ _ _ HT) as [Hc1 Hc2].
  destruct (all_ticks_elem _ _ _ _ _ _ _ HT Hin) as (fs1 & k1 & HT1 & Hs1 & Hk1). destruct (ticks_elem _ _ _ _ _ _ _ _ HT1 Hg) as (g1 & fs2 & k2 & Hg1 & Htick & Hs2 & Hk2).
  assert (Hex : expires (allsystems s) g = true) by (unfold expires; rewrite Hst, Z.eqb_refl; cbn; by apply negb_true_iff, Z.eqb_neq).
  destruct Htick as [Htm|Htm|id f Htm _ Hf|Htm _|Htm Hx]; [lia| | | |congruence].
  - destruct (IH s1 L1 B1 _ HI1 Hok1 Hg1) as (s' & L' & B' & g' & fs' & k' & E' & HI' & Hok' & Hg' & Hs' & Ht' & Hlog' & Hme' & Hc' & Hsent); [by rewrite Hsys|done|cbn; lia|].
    exists s', L', B', g', (fs ++ fs'), (k + k')%nat. do 6 (split; [done|]). split; [by rewrite Hlog', Hlog, app_assoc|].
    split; [by rewrite Hme', Hme, bump_add|]. split; [rewrite Hc2 in Hc'; lia|].
    destruct Hsent as [(id & f & Hf & Hpk)|Hno]; [left|right; lia]. exists id, f. split; [|done]. apply elem_of_app. by right.
  - assert (t = 0%nat) as -> by lia. exists s1, L1, B1. eexists _, fs, k. do 3 (split; [done|]). split; [exact Hg1|]. do 4 (split; [done|]). split; [lia|].
    left. exists id, f. split; [|done]. apply Hs1, Hs2. by left.
  - assert (t = 0%nat) as -> by lia. exists s1, L1, B1. eexists _, fs, k. do 3 (split; [done|]). split; [exact Hg1|]. do 4 (split; [done|]). split; [lia|]. right. lia.
Qed.

(** C23: a delayed report goes out.  When the timer of a group in state "delaying" is
    [t], then after [t] ticks of igmp_tmr the group is idle with its timer stopped; and
    when no message was lost for lack of memory in the meantime (by the counter memerr,
    which cannot wrap around in so few ticks) a report for the group has been sent on
    its interface. *)
Theorem igmp_report_due (s : igmp) L B ext nifs nif a g :
  igmp_inv s L -> net_ok (i_net s) B ext -> Forall netif_ok nifs -> NoDup (netif_num <$> nifs) -> nif ∈ nifs ->
  (a, g) ∈ L (netif_num nif) -> group_address g <> allsystems s -> group_state g = IGMP_GROUP_DELAYING_MEMBER ->
  is_u16 (i_memerr s) -> g_timer g * group_count L nifs < 65536 ->
  exists s' L' B' g' fs, tmr_times (Z.to_nat (g_timer g)) s nifs = Ret s' /\ igmp_inv s' L' /\ net_ok (i_net s') B' ext
    /\ (a, g') ∈ L' (netif_num nif) /\ group_state g' = IGMP_GROUP_IDLE_MEMBER /\ g_timer g' = 0
    /\ link_log (n_lk (i_net s')) = link_log (n_lk (i_net s)) ++ fs
    /\ (i_memerr s' = i_memerr s ->
        exists id f, (netif_num nif, group_address g, f) ∈ fs
          /\ igmp_packet (netif_ip4_addr nif) id IGMP_V2_MEMB_REPORT (group_address g) (group_address g) f).
Proof.
  intros HI Hok Hn Hnd Hin Hg Hne Hst Hu Hsmall. pose proof (delaying_timer s L _ a g HI Hg Hne Hst) as Ht0.
  destruct (report_due_count (Z.to_nat (g_timer g)) s L B ext nifs nif a g) as (s' & L' & B' & g' & fs & k & E & H1 & H2 & H3 & H4 & H5 & H6 & H7 & H8 & H9); try done.
  exists s', L', B', g', fs. do 7 (split; [done|]). intros Hsame. destruct H9 as [H9|H9]; [done|exfalso].
  rewrite H7, bump_small in Hsame by done. assert (k < 65536) by nia. revert Hsame. unfold is_u16 in Hu. unfold u16. Z.div_mod_to_equations. lia.
Qed.

(** ** Joining and leaving again *)

Lemma list_ok_addrs sys l : list_ok sys l -> NoDup (group_address <$> members l).
Proof.
  destruct l as [|[h hg] l]; [constructor|]. intros (Hs & _ & _ & Hm & Hnd). unfold members. rewrite <- list_fmap_compose. cbn. constructor; [|exact Hnd].
  intros Hin. apply list_elem_of_fmap in Hin as ([a g] & Ea & Hin). rewrite Forall_forall in Hm. destruct (Hm _ Hin) as (_ & _ & Hne & _). cbn in *. congruence.
Qed.

Lemma find_group_members addr l : find_group addr l = None <-> addr ∉ (group_address <$> members l).
Proof.
  unfold members. induction l as [|[a g] l IH]; cbn; [split; [intros _; apply not_elem_of_nil|done]|]. rewrite not_elem_of_cons.
  destruct (Z.eqb_spec (group_address g) addr); [split; [done|intros [? _]; congruence]|]. rewrite IH. split; [intros; split; [congruence|done]|by intros [_ ?]].
Qed.

Lemma find_group_at sys addr l1 a g l2 :
  list_ok sys (l1 ++ (a, g) :: l2) -> group_address g = addr -> find_group addr (l1 ++ (a, g) :: l2) = Some (a, g).
Proof.
  intros Hl Hg. pose proof (list_ok_addrs _ _ Hl) as Hnd. clear Hl. induction l1 as [|[b h] l1 IH]; cbn in *.
  - by rewrite (proj2 (Z.eqb_eq _ _) Hg).
  - apply NoDup_cons in Hnd as [Hb Hnd]. rewrite (proj2 (Z.eqb_neq _ _)); [by apply IH|]. intros Eb. apply Hb. rewrite Eb, <- Hg.
    apply list_elem_of_fmap. exists (with_next g NULL). split; [done|]. unfold members. apply list_elem_of_fmap. exists (a, g). split; [done|].
    apply elem_of_app. right. by left.
Qed.

Lemma shape_dom G H P L a : shape G H P L -> a ∈ dom G <-> exists n, a ∈ (L n).*1.
Proof.
  intros HS. rewrite elem_of_dom. split; [apply HS|]. intros [n Hn]. destruct (shape_elem _ _ _ _ HS n a Hn) as (g & _ & Hg). eauto.
Qed.

(** joining a new group and leaving it again gives back the lists as they were and
    the element to the pool; the MAC filter is told of both. *)
Theorem igmp_join_leave (s : igmp) L B ext nif addr x tl :
  igmp_inv s L -> net_ok (i_net s) B ext -> joinable s nif addr -> L (netif_num nif) = x :: tl ->
  find_group addr (L (netif_num nif)) = None -> (size (i_groups s) < pool_cap)%nat ->
  exists s1 s2 L2 B2, igmp_joingroup_netif rnd s nif addr = Ret (ERR_OK, s1) /\ igmp_leavegroup_netif s1 nif addr = Ret (ERR_OK, s2)
    /\ igmp_inv s2 L2 /\ net_ok (i_net s2) B2 ext /\ (forall m, members (L2 m) = members (L m)) /\ dom (i_groups s2) = dom (i_groups s)
    /\ i_filter s2 = i_filter s ++ filter_calls nif addr true ++ filter_calls nif addr false.
Proof.
  intros HI Hok (Hnif & Hfl & Hau & Hmc & Hne) HL Hf Hcap. destruct x as [h hg].
  assert (Hf2 : find_group addr tl = None) by (rewrite HL in Hf; cbn in Hf; by destruct (group_address hg =? addr)).
  destruct (join_new_spec rnd s B ext L nif addr h hg tl HI Hok Hnif HL Hf2 Hau Hmc Hne Hfl Hcap) as (s1 & B1 & e & r & t & fs & E1 & HI1 & Hok1 & _ & Hfil1 & _).
  set (g := IgmpGroup (g_next hg) addr r _ t 1) in *. set (L1 := set_list L (netif_num nif) _) in *.
  assert (HL1 : L1 (netif_num nif) = [] ++ (h, with_next hg e) :: (e, g) :: tl) by apply set_list_eq.
  assert (Hf1 : find_group addr (L1 (netif_num nif)) = Some (e, g)).
  { rewrite HL1. apply (find_group_at (allsystems s1) addr [(h, with_next hg e)]); [|done]. pose proof (gi_list _ _ HI1 (netif_num nif)) as Hl. by rewrite HL1 in Hl. }
  destruct (leave_last_spec s1 B1 ext L1 nif addr [] h (with_next hg e) e g tl HI1 Hok1 Hnif HL1 Hf1 Hmc) as (s2 & B2 & fs2 & E2 & HI2 & Hok2 & Hfil2 & _);
    [by rewrite (inv_allsystems s s1 L L1)|done|done|cbn; lia|].
  eexists s1, s2, _, B2. split; [exact E1|]. split; [exact E2|]. split; [exact HI2|]. split; [exact Hok2|].
  assert (Hsame : forall m, (set_list L1 (netif_num nif) ([] ++ (h, with_next (with_next hg e) (g_next g)) :: tl) m) = L m).
  { intros m. unfold L1. rewrite set_list_twice. unfold set_list. case_decide; [|done]. subst m. rewrite HL. cbn. by destruct hg. }
  split; [intros m; by rewrite Hsame|]. split; [|by rewrite Hfil2, Hfil1, app_assoc].
  apply set_eq. intros a. rewrite (shape_dom _ _ _ _ a (gi_shape _ _ HI2)), (shape_dom _ _ _ _ a (gi_shape _ _ HI)).
  split; intros [m Hm]; exists m; by rewrite Hsame in *.
Qed.

(** the count of uses is 8 bits wide.  When a group that was joined 255 times is
    joined once more the count is 0, and the next leave takes the group out of the list
    although 255 users of it have not left. *)
Theorem igmp_use_wraps (s : igmp) L B ext nif addr x tl a g :
  igmp_inv s L -> net_ok (i_net s) B ext -> joinable s nif addr -> L (netif_num nif) = x :: tl ->
  find_group addr (L (netif_num nif)) = Some (a, g) -> g_use g = 255 ->
  exists s1 s2 L2 B2, igmp_joingroup_netif rnd s nif addr = Ret (ERR_OK, s1) /\ igmp_leavegroup_netif s1 nif addr = Ret (ERR_OK, s2)
    /\ igmp_inv s2 L2 /\ net_ok (i_net s2) B2 ext /\ find_group addr (L2 (netif_num nif)) = None.
Proof.
  intros HI Hok Hj HL Hf Hu.
  destruct (join_spec s L B ext nif addr x tl HI Hok Hj HL) as (e & s1 & L1 & B1 & fs & E1 & HI1 & Hok1 & _ & _ & Hcase). rewrite Hf in Hcase.
  destruct Hcase as (-> & _ & _ & l1 & l2 & HLn & HL1). destruct (find_group_Some _ _ _ _ Hf) as (Hga & _). rewrite Hu in HL1. change (u8 (255 + 1)) with 0 in HL1.
  assert (Hf1 : find_group addr (L1 (netif_num nif)) = Some (a, with_use g 0)).
  { rewrite HL1. apply (find_group_at (allsystems s1)); [|done]. rewrite <- HL1. apply HI1. }
  assert (Hj1 : joinable s1 nif addr) by (unfold joinable in *; by rewrite (inv_allsystems s s1 L L1)).
  destruct (leave_spec s1 L1 B1 ext nif addr HI1 Hok1 Hj1) as (e2 & s2 & L2 & B2 & fs2 & E2 & HI2 & Hok2 & _ & _ & Hcase2). rewrite Hf1 in Hcase2.
  destruct Hcase2 as (-> & Hcase2). cbn [g_use with_use Z.leb Z.compare] in Hcase2. destruct Hcase2 as (_ & (m1 & m2 & Hm & Hm2) & _).
  exists s1, s2, L2, B2. do 4 (split; [done|]). apply find_group_members. rewrite Hm2.
  pose proof (list_ok_addrs _ _ (gi_list _ _ HI1 (netif_num nif))) as Hnd. rewrite Hm, fmap_app in Hnd. cbn in Hnd. rewrite Hga in Hnd.
  rewrite fmap_app. apply NoDup_app in Hnd as (_ & Hd & Hnd). apply NoDup_cons in Hnd as [Hnd _].
  intros [Hin|Hin]%elem_of_app; [|done]. apply (Hd addr Hin). by left.
Qed.
End Safe.

(** ** Witnesses: one interface, and a pool with two elements *)

#[local] Instance group_pool : ElementPool memp_state :=
  memp_element_pool two_descs 1 (MempDesc 24 2 2000) two_descs_ok eq_refl.

Definition rnd7 : nat -> Z := λ _, 7.
Definition no_net : net (St := pmem_state) (Lk := list (Z * Z * list Z)) := Net ps0 [] 0.
Definition igmp0 : igmp (Pl := memp_state) := igmp_init (Igmp no_net ∅ ∅ memp0 0 [] 0 0 0).
Definition igmp1 : igmp (Pl := memp_state) := match igmp_start igmp0 nif0 with Ret (_, s) => s | Trap _ => igmp0 end.
Definition addr239 : Z := IP4_ADDR 239 1 2 3.
Definition igmp2 : igmp (Pl := memp_state) := match igmp_joingroup_netif rnd7 igmp1 nif0 addr239 with Ret (_, s) => s | Trap _ => igmp1 end.

Lemma igmp0_inv : igmp_inv igmp0 (λ _, []) /\ net_ok (i_net igmp0) ∅ no_ext.
Proof.
  split; [split|split].
  - split.
    + intros n. cbn. by rewrite lookup_empty.
    + intros a [g Hg]. cbn in Hg. by rewrite lookup_empty in Hg.
    + intros n n' _ x Hx. by apply not_elem_of_nil in Hx.
    + exists [[]; []], []. split; [exact memp0_rep|]. done.
  - intros n. exact I.
  - done.
  - exact ps0_inv.
  - vm_compute. intuition congruence.
Qed.

Lemma nif0_ok : netif_ok nif0.
Proof. split; [vm_compute; intuition congruence|right; vm_compute; intuition congruence]. Qed.

Lemma igmp1_inv :
  exists L h, igmp_inv igmp1 L /\ net_ok (i_net igmp1) ∅ no_ext /\ L 1 = [(h, IgmpGroup NULL (IP4_ADDR 224 0 0 1) 0 IGMP_GROUP_IDLE_MEMBER 0 1)].
Proof.
  destruct igmp0_inv as [HI Hok]. destruct (start_spec igmp0 _ nif0 HI) as (e & s' & L' & E & HI' & En & _ & Hl). cbn match in Hl.
  rewrite decide_True in Hl by (vm_compute; lia). destruct Hl as (_ & h & Hl).
  assert (Es : igmp1 = s') by (unfold igmp1; by rewrite E). rewrite Es. exists L', h. split; [exact HI'|]. split; [by rewrite En|exact Hl].
Qed.

Lemma addr239_joinable (s : igmp (St := pmem_state) (Lk := list (Z * Z * list Z)) (Pl := memp_state)) L : igmp_inv s L -> joinable s nif0 addr239.
Proof.
  intros HI. split; [exact nif0_ok|]. split; [vm_compute; congruence|]. split; [vm_compute; intuition congruence|]. split; [reflexivity|].
  rewrite (proj1 (gi_addrs _ _ HI)). vm_compute. congruence.
Qed.

Lemma igmp1_size : (size (i_groups igmp1) < pool_cap)%nat.
Proof. vm_compute. lia. Qed.

(** The group joined is in the list, with one use and a running timer. *)
Lemma igmp2_inv :
  exists L x a g B, igmp_inv igmp2 L /\ net_ok (i_net igmp2) B no_ext /\ L 1 = [x; (a, g)] /\ find_group addr239 (L 1) = Some (a, g)
    /\ g_use g = 1 /\ group_state g = IGMP_GROUP_DELAYING_MEMBER /\ 1 <= g_timer g <= 4 /\ is_u16 (i_memerr igmp2).
Proof.
  destruct igmp1_inv as (L & h & HI & Hok & HL). pose proof (addr239_joinable igmp1 L HI) as (Hnif & Hfl & Hau & Hmc & Hne).
  destruct (join_new_spec rnd7 igmp1 ∅ no_ext L nif0 addr239 h _ [] HI Hok Hnif HL eq_refl Hau Hmc Hne Hfl igmp1_size)
    as (s' & B' & e & r & t & fs & E & HI' & Hok' & Ht & _ & _ & Hr).
  assert (Hme : is_u16 (i_memerr s')).
  { destruct Hr as [(_ & -> & _)|(_ & -> & _)]; [vm_compute; intuition congruence|apply u16_range]. }
  assert (Es : igmp2 = s') by (unfold igmp2; by rewrite E). rewrite Es. clear Es E.
  set (g := IgmpGroup _ addr239 r _ t 1) in *. eexists _, _, e, g, B'. split; [exact HI'|]. split; [exact Hok'|]. split; [apply set_list_eq|].
  split; [rewrite set_list_eq; reflexivity|]. do 3 (split; [done|]). exact Hme.
Qed.

Lemma igmp_joingroup_netif_correct_witness : exists e s', igmp_joingroup_netif rnd7 igmp1 nif0 addr239 = Ret (e, s') /\ e = ERR_OK.
Proof.
  destruct igmp1_inv as (L & h & HI & Hok & HL).
  destruct (igmp_joingroup_netif_correct rnd7 igmp1 L ∅ no_ext nif0 addr239 _ _ HI Hok (addr239_joinable igmp1 L HI) HL)
    as (e & s' & L' & B' & fs & E & _ & _ & _ & _ & Hcase).
  change (netif_num nif0) with 1 in Hcase. rewrite HL in Hcase. change (find_group addr239 _) with (@None (Z * igmp_group)) in Hcase.
  cbv iota in Hcase. rewrite decide_True in Hcase by exact igmp1_size. exists e, s'. split; [exact E|exact (proj1 Hcase)].
Defined.

Lemma igmp_leavegroup_netif_correct_witness : exists e s', igmp_leavegroup_netif igmp2 nif0 addr239 = Ret (e, s') /\ e = ERR_OK.
Proof.
  destruct igmp2_inv as (L & x & a & g & B & HI & Hok & HL & Hf & _).
  destruct (igmp_leavegroup_netif_correct igmp2 L B no_ext nif0 addr239 HI Hok (addr239_joinable igmp2 L HI)) as (e & s' & L' & B' & fs & E & _ & _ & _ & _ & Hcase).
  change (netif_num nif0) with 1 in Hcase. rewrite Hf in Hcase. exists e, s'. split; [exact E|exact (proj1 Hcase)].
Defined.

Lemma igmp_join_leave_witness : exists s1 s2, igmp_joingroup_netif rnd7 igmp1 nif0 addr239 = Ret (ERR_OK, s1)
  /\ igmp_leavegroup_netif s1 nif0 addr239 = Ret (ERR_OK, s2) /\ dom (i_groups s2) = dom (i_groups igmp1).
Proof.
  destruct igmp1_inv as (L & h & HI & Hok & HL).
  destruct (igmp_join_leave rnd7 igmp1 L ∅ no_ext nif0 addr239 _ _ HI Hok (addr239_joinable igmp1 L HI) HL) as (s1 & s2 & L2 & B2 & E1 & E2 & _ & _ & _ & Hd & _).
  - change (netif_num nif0) with 1. rewrite HL. reflexivity.
  - exact igmp1_size.
  - exists s1, s2. split; [exact E1|]. split; [exact E2|exact Hd].
Defined.

Lemma igmp0_safe : safe_state no_ext igmp0.
Proof. exists (λ _, []), ∅. exact igmp0_inv. Qed.

Lemma igmp1_reachable : reachable rnd7 no_ext igmp0 igmp1.
Proof. apply (reach_step rnd7 no_ext igmp0 igmp0 (OpStart nif0)); [constructor|exact I|]. cbn [run_op]. unfold igmp1. destruct igmp0_inv as [HI _].
  destruct (start_spec igmp0 _ nif0 HI) as (e & s' & L' & -> & _). reflexivity. Qed.

Lemma igmp_reachable_safe_witness : exists s', run_op rnd7 igmp1 (OpJoin nif0 addr239) = Ret s' /\ safe_state no_ext s'.
Proof.
  destruct igmp1_inv as (L & h & HI & Hok & HL).
  apply (igmp_reachable_safe rnd7 no_ext igmp0 igmp1 (OpJoin nif0 addr239) igmp0_safe igmp1_reachable).
  split; [exact (addr239_joinable igmp1 L HI)|]. apply (list_started igmp1 L nif0 HI). change (netif_num nif0) with 1. rewrite HL. discriminate.
Defined.

(** The state of [igmp2] with the count of 255 joins. *)
Lemma joined_255 (s : igmp (St := pmem_state) (Lk := list (Z * Z * list Z)) (Pl := memp_state)) L x a g :
  igmp_inv s L -> L 1 = [x; (a, g)] -> 0 <= g_timer g < 256 -> group_address g = addr239 ->
  exists s' L', igmp_inv s' L' /\ i_net s' = i_net s /\ L' 1 = [x; (a, with_use g 255)] /\ find_group addr239 (L' 1) = Some (a, with_use g 255).
Proof.
  intros HI HL Ht Hga. exists (set_group s a (with_use g 255)), (set_list L 1 ([x] ++ (a, with_use g 255) :: [])).
  assert (HI' : igmp_inv (set_group s a (with_use g 255)) (set_list L 1 ([x] ++ (a, with_use g 255) :: []))).
  { apply (inv_upd s L 1 a g (with_use g 255) [x] [] _ HI HL); try done.
    intros (H1 & H2 & H3 & _ & H5). split; [exact H1|]. split; [exact H2|]. split; [exact H3|]. split; [done|exact H5]. }
  split; [exact HI'|]. split; [done|]. split; [apply set_list_eq|]. rewrite set_list_eq.
  apply (find_group_at (allsystems s) addr239 [x] a (with_use g 255) []); [|exact Hga].
  pose proof (gi_list _ _ HI' 1) as Hl. rewrite set_list_eq in Hl. exact Hl.
Qed.

Lemma igmp_use_wraps_witness :
  exists s s1 s2, igmp_joingroup_netif rnd7 s nif0 addr239 = Ret (ERR_OK, s1) /\ igmp_leavegroup_netif s1 nif0 addr239 = Ret (ERR_OK, s2).
Proof.
  destruct igmp2_inv as (L & x & a & g & B & HI & Hok & HL & Hf & _ & _ & Ht & _). destruct (find_group_Some _ _ _ _ Hf) as (Hga & _).
  destruct (joined_255 igmp2 L x a g HI HL ltac:(lia) Hga) as (s & L' & HI' & En & HL' & Hf').
  destruct (igmp_use_wraps rnd7 s L' B no_ext nif0 addr239 x [(a, with_use g 255)] a (with_use g 255) HI') as (s1 & s2 & _ & _ & E1 & E2 & _).
  - rewrite En. exact Hok.
  - exact (addr239_joinable s L' HI').
  - exact HL'.
  - exact Hf'.
  - reflexivity.
  - exists s, s1, s2. split; [exact E1|exact E2].
Defined.

Lemma igmp_report_due_witness : exists k s', tmr_times k igmp2 [nif0] = Ret s'.
Proof.
  destruct igmp2_inv as (L & x & a & g & B & HI & Hok & HL & Hf & Hu & Hst & Ht & Hme). destruct (find_group_Some _ _ _ _ Hf) as (Hga & _).
  destruct (igmp_report_due rnd7 igmp2 L B no_ext [nif0] nif0 a g HI Hok) as (s' & _ & _ & _ & _ & E & _).
  - apply Forall_singleton. exact nif0_ok.
  - apply NoDup_singleton.
  - left.
  - change (netif_num nif0) with 1. rewrite HL. right. left.
  - rewrite Hga, (proj1 (gi_addrs _ _ HI)). vm_compute. congruence.
  - exact Hst.
  - exact Hme.
  - unfold group_count. cbn [sum_list_with]. change (netif_num nif0) with 1. rewrite HL. cbn [length]. lia.
  - exists (Z.to_nat (g_timer g)), s'. exact E.
Defined.

(** A general query of version 1 (its maximum response time is 0) in the packet in RAM
    of PbufChain.v. *)
Definition query : list Z := [0x11; 0; 0xee; 0xff; 0; 0; 0; 0].
Definition query_net : net (St := pmem_state) (Lk := list (Z * Z * list Z)) :=
  Net (with_data ps2 (write_bytes ∅ (p2 + SIZEOF_STRUCT_PBUF + 54) query)) [] 0.

Lemma igmp_input_correct_witness : exists s', igmp_input rnd7 (with_net igmp1 query_net) p2 nif0 (IP4_ADDR 224 0 0 1) = Ret s'.
Proof.
  destruct igmp1_inv as (L & h & HI & _ & HL). destruct ps2_inv as (B & b1 & a2 & b2 & b & HIp & _ & Hc2 & _ & _ & _ & _ & _ & Lb & R & T & C & P & Ho).
  destruct (igmp_input_correct rnd7 (with_net igmp1 query_net) L B (ext_add no_ext p1) p2 b nif0 (IP4_ADDR 224 0 0 1)) as (s' & _ & _ & E & _).
  - destruct HI as [H1 H2 H3]. split; [exact H1|exact H2|exact H3].
  - split; [|vm_compute; intuition congruence]. eapply inv_ext_eq; [|apply inv_data; exact HIp]. intros y _. cbn [link_holds wire]. lia.
  - exact (proj1 (proj2 (chain_cons _ _ _ _ _ Hc2))).
  - apply bytes_ok_read. apply bytes_ok_write; [intros y; vm_compute; intuition congruence|]. repeat constructor; vm_compute; intuition congruence.
  - exists s'. exact E.
Defined.
