(* ===== verification/Udp.v ===== *)
(** * UDP (src/lwip/src/core/udp.c)

    The control blocks (elements of the pool MEMP_UDP_PCB, linked by addresses in the
    list udp_pcbs), binding and connecting, sending through ip4_output_if_src, and the
    demultiplexing of received datagrams.  A receive callback is a parameter: a
    function of its address, its argument, the control block, the packet and the
    sender, on the whole state, since it may call back into UDP.

    Options: IPv4 only, LWIP_UDPLITE 0, LWIP_CHECKSUM_ON_COPY 0, CHECKSUM_GEN_UDP and
    CHECKSUM_CHECK_UDP 1, SO_REUSE, IP_SOF_BROADCAST and IP_SOF_BROADCAST_RECV 0,
    LWIP_MULTICAST_TX_OPTIONS 1 (by LWIP_IGMP), LWIP_ICMP 1. *)

From S2P Require Import Prelude Def ListSeg InetChksum Ip4Addr Mem Memp Pbuf PbufMem PbufRef PbufChain PbufData Header Ip4 Ip4Frag Icmp.

#[local] Open Scope Z_scope.
#[local] Coercion Z.of_nat : nat >-> Z.

(** ** Constants and structures (include/lwip/udp.h, prot/udp.h, ip.h, netif.h) *)

Definition UDP_LOCAL_PORT_RANGE_START : Z := 0xc000.
Definition UDP_LOCAL_PORT_RANGE_END : Z := 0xffff.
Definition UDP_ENSURE_LOCAL_PORT_RANGE (port : Z) : Z :=
  u16 (Z.land port (u16 (Z.lnot UDP_LOCAL_PORT_RANGE_START)) + UDP_LOCAL_PORT_RANGE_START).
Definition UDP_HLEN : Z := 8.
Definition UDP_TTL : Z := 255.
Definition UDP_FLAGS_NOCHKSUM : Z := 0x01.
Definition UDP_FLAGS_CONNECTED : Z := 0x04.
Definition UDP_FLAGS_MULTICAST_LOOP : Z := 0x08.
Definition PBUF_FLAG_MCASTLOOP : Z := 0x04.

(** struct udp_hdr *)
Definition udph_src (m : bytes) (h : Z) : Z := load 2 m h.
Definition udph_dest (m : bytes) (h : Z) : Z := load 2 m (h + 2).
Definition udph_chksum (m : bytes) (h : Z) : Z := load 2 m (h + 6).
Definition udph_src_set (m : bytes) (h x : Z) : bytes := store 2 m h x.
Definition udph_dest_set (m : bytes) (h x : Z) : bytes := store 2 m (h + 2) x.
Definition udph_len_set (m : bytes) (h x : Z) : bytes := store 2 m (h + 4) x.
Definition udph_chksum_set (m : bytes) (h x : Z) : bytes := store 2 m (h + 6) x.

Definition netif_get_index (nif : netif) : Z := u8 (netif_num nif + 1).

Fixpoint by_index_loop (l : list netif) (idx : Z) : option netif :=
  match l with
  | [] => None
  | nif :: l => if idx =? netif_get_index nif then Some nif else by_index_loop l idx
  end.

Definition netif_get_by_index (ns : netifs) (idx : Z) : option netif :=
  if negb (idx =? NETIF_NO_INDEX) then by_index_loop (netif_list ns) idx else None.

(** struct udp_pcb; a callback is known by its address. *)
Record udp_pcb := UdpPcb {
  local_ip : Z;
  remote_ip : Z;
  netif_idx : Z;
  so_options : Z;
  pcb_tos : Z;
  pcb_ttl : Z;
  pcb_next : Z;
  pcb_flags : Z;
  local_port : Z;
  remote_port : Z;
  mcast_ip4 : Z;
  mcast_ifindex : Z;
  mcast_ttl : Z;
  recv : option Z;
  recv_arg : Z
}.

Definition with_pcb_next (b : udp_pcb) (x : Z) : udp_pcb :=
  UdpPcb (local_ip b) (remote_ip b) (netif_idx b) (so_options b) (pcb_tos b) (pcb_ttl b) x (pcb_flags b) (local_port b) (remote_port b)
    (mcast_ip4 b) (mcast_ifindex b) (mcast_ttl b) (recv b) (recv_arg b).
Definition with_local (b : udp_pcb) (ip port : Z) : udp_pcb :=
  UdpPcb ip (remote_ip b) (netif_idx b) (so_options b) (pcb_tos b) (pcb_ttl b) (pcb_next b) (pcb_flags b) port (remote_port b)
    (mcast_ip4 b) (mcast_ifindex b) (mcast_ttl b) (recv b) (recv_arg b).
Definition with_remote (b : udp_pcb) (ip port flags : Z) : udp_pcb :=
  UdpPcb (local_ip b) ip (netif_idx b) (so_options b) (pcb_tos b) (pcb_ttl b) (pcb_next b) flags (local_port b) port
    (mcast_ip4 b) (mcast_ifindex b) (mcast_ttl b) (recv b) (recv_arg b).
Definition with_netif_idx (b : udp_pcb) (x : Z) : udp_pcb :=
  UdpPcb (local_ip b) (remote_ip b) x (so_options b) (pcb_tos b) (pcb_ttl b) (pcb_next b) (pcb_flags b) (local_port b) (remote_port b)
    (mcast_ip4 b) (mcast_ifindex b) (mcast_ttl b) (recv b) (recv_arg b).
Definition with_recv (b : udp_pcb) (f : option Z) (arg : Z) : udp_pcb :=
  UdpPcb (local_ip b) (remote_ip b) (netif_idx b) (so_options b) (pcb_tos b) (pcb_ttl b) (pcb_next b) (pcb_flags b) (local_port b) (remote_port b)
    (mcast_ip4 b) (mcast_ifindex b) (mcast_ttl b) f arg.

Section Udp.
Context `{MO : MemOptions} `{PO : PbufOptions} {St : Type} `{!PacketMemory St} {Lk : Type} `{!LinkLayer Lk St}
  {Pl : Type} `{!ElementPool Pl}.

Abbreviation inet := (net (St := St) (Lk := Lk)).

(** ** State *)

(** The layers below, the control blocks by address, the list of the active ones, the
    pool and the last local port. *)
Record udp := Udp {
  u_net : inet;
  u_pcbs : gmap Z udp_pcb;
  udp_pcbs : Z;
  u_pool : Pl;
  udp_port : Z
}.

Definition with_unet (s : udp) (x : inet) : udp := Udp x (u_pcbs s) (udp_pcbs s) (u_pool s) (udp_port s).
Definition with_pcbs (s : udp) (x : gmap Z udp_pcb) : udp := Udp (u_net s) x (udp_pcbs s) (u_pool s) (udp_port s).
Definition with_head (s : udp) (x : Z) : udp := Udp (u_net s) (u_pcbs s) x (u_pool s) (udp_port s).
Definition with_upool (s : udp) (x : Pl) : udp := Udp (u_net s) (u_pcbs s) (udp_pcbs s) x (udp_port s).
Definition with_port (s : udp) (x : Z) : udp := Udp (u_net s) (u_pcbs s) (udp_pcbs s) (u_pool s) x.

(** Following a pointer to a control block; a freed one is a dangling pointer. *)
Definition pcb_at (s : udp) (a : Z) : outcome udp_pcb :=
  match u_pcbs s !! a with Some b => Ret b | None => Trap "udp: dangling pcb pointer" end.
Definition set_pcb (s : udp) (a : Z) (b : udp_pcb) : udp := with_pcbs s (<[a := b]> (u_pcbs s)).

(** The loops over udp_pcbs from [pcb] on: [body] gives the new values of the local
    variables and whether the loop is left. *)
Fixpoint pcb_loop {A} (fuel : nat) (s : udp) (body : Z -> udp_pcb -> A -> A * bool) (pcb : Z) (a : A) : outcome A :=
  if pcb =? NULL then Ret a
  else
    match fuel with
    | O => Trap "udp: fuel"
    | S fuel =>
        b ← pcb_at s pcb;
        let '(a, stop) := body pcb b a in
        if stop then Ret a else pcb_loop fuel s body (pcb_next b) a
    end.

Definition for_pcbs {A} (s : udp) (body : Z -> udp_pcb -> A -> A * bool) (a : A) : outcome A :=
  pcb_loop (S (size (u_pcbs s))) s body (udp_pcbs s) a.

(** ** Ports *)

Definition udp_init (s : udp) (rnd : Z) : udp := with_port s (UDP_ENSURE_LOCAL_PORT_RANGE rnd).

(** The rounds of udp_new_port from the label again on; [n] counts the ports in use. *)
Fixpoint new_port_loop (fuel : nat) (s : udp) (n : Z) : outcome (Z * udp) :=
  match fuel with
  | O => Trap "udp_new_port: fuel"
  | S fuel =>
      let last := udp_port s =? UDP_LOCAL_PORT_RANGE_END in
      let s := with_port s (u16 (udp_port s + 1)) in
      let s := if last then with_port s UDP_LOCAL_PORT_RANGE_START else s in
      used ← for_pcbs s (λ _ pcb used, if local_port pcb =? udp_port s then (true, true) else (used, false)) false;
      if used : bool then
        let n := u16 (n + 1) in
        if UDP_LOCAL_PORT_RANGE_END - UDP_LOCAL_PORT_RANGE_START <? n then Ret (0, s) else new_port_loop fuel s n
      else Ret (udp_port s, s)
  end.

Definition udp_new_port (s : udp) : outcome (Z * udp) :=
  new_port_loop (S (Z.to_nat (UDP_LOCAL_PORT_RANGE_END - UDP_LOCAL_PORT_RANGE_START))) s 0.

(** ** Binding and connecting *)

(** Whether [pcb] is on the list. *)
Definition on_list (s : udp) (pcb : Z) : outcome bool :=
  for_pcbs s (λ ipcb _ found, if pcb =? ipcb then (true, true) else (found, false)) false.

(** The test of udp_bind on one other control block. *)
Definition bind_conflict (pcb ipaddr port : Z) (ipcb : Z) (b : udp_pcb) : bool :=
  negb (pcb =? ipcb)
  && ((local_port b =? port)
      && (ip4_addr_cmp (local_ip b) ipaddr || ip4_addr_isany_val ipaddr || ip4_addr_isany_val (local_ip b))).

Definition udp_bind (s : udp) (pcb : Z) (ipaddr : option Z) (port : Z) : outcome (err_t * udp) :=
  let ipaddr := default IPADDR_ANY ipaddr in
  LWIP_ERROR "udp_bind: invalid pcb" (negb (pcb =? NULL));;
  rebind ← on_list s pcb;
  '(e, port, s) ←
    (if port =? 0 then
       '(port, s) ← udp_new_port s;
       Ret (if port =? 0 then ERR_USE else ERR_OK, port, s)
     else
       used ← for_pcbs s (λ ipcb b used, if bind_conflict pcb ipaddr port ipcb b then (true, true) else (used, false)) false;
       Ret (if used : bool then ERR_USE else ERR_OK, port, s));
  if negb (bool_decide (e = ERR_OK)) then Ret (e, s)
  else
    b ← pcb_at s pcb;
    let b := with_local b ipaddr port in
    Ret (ERR_OK, if negb rebind then with_head (set_pcb s pcb (with_pcb_next b (udp_pcbs s))) pcb else set_pcb s pcb b).

Definition udp_bind_netif (s : udp) (pcb : Z) (nif : option netif) : outcome udp :=
  b ← pcb_at s pcb;
  Ret (set_pcb s pcb (with_netif_idx b (match nif with Some nif => netif_get_index nif | None => NETIF_NO_INDEX end))).

Definition udp_connect (s : udp) (pcb ipaddr port : Z) : outcome (err_t * udp) :=
  LWIP_ERROR "udp_connect: invalid pcb" (negb (pcb =? NULL));;
  b ← pcb_at s pcb;
  '(e, s) ← (if local_port b =? 0 then udp_bind s pcb (Some (local_ip b)) (local_port b) else Ret (ERR_OK, s));
  if negb (bool_decide (e = ERR_OK)) then Ret (e, s)
  else
    b ← pcb_at s pcb;
    let s := set_pcb s pcb (with_remote b ipaddr port (Z.lor (pcb_flags b) UDP_FLAGS_CONNECTED)) in
    found ← on_list s pcb;
    if found : bool then Ret (ERR_OK, s)
    else
      b ← pcb_at s pcb;
      Ret (ERR_OK, with_head (set_pcb s pcb (with_pcb_next b (udp_pcbs s))) pcb).

Definition udp_clear_flags (flags clr : Z) : Z := u8 (Z.land flags (u8 (Z.land (Z.lnot clr) 0xff))).

Definition udp_disconnect (s : udp) (pcb : Z) : outcome udp :=
  LWIP_ERROR "udp_disconnect: invalid pcb" (negb (pcb =? NULL));;
  b ← pcb_at s pcb;
  Ret (set_pcb s pcb (with_netif_idx (with_remote b IPADDR_ANY 0 (udp_clear_flags (pcb_flags b) UDP_FLAGS_CONNECTED)) NETIF_NO_INDEX)).

Definition udp_recv (s : udp) (pcb : Z) (f : option Z) (arg : Z) : outcome udp :=
  LWIP_ERROR "udp_recv: invalid pcb" (negb (pcb =? NULL));;
  b ← pcb_at s pcb;
  Ret (set_pcb s pcb (with_recv b f arg)).

Definition udp_remove (s : udp) (pcb : Z) : outcome udp :=
  LWIP_ERROR "udp_remove: invalid pcb" (negb (pcb =? NULL));;
  s ← (if udp_pcbs s =? pcb then b ← pcb_at s pcb; Ret (with_head s (pcb_next b))
       else
         prev ← for_pcbs s (λ pcb2 b2 prev, if negb (pcb_next b2 =? NULL) && (pcb_next b2 =? pcb) then (pcb2, true) else (prev, false)) NULL;
         if prev =? NULL then Ret s
         else
           b2 ← pcb_at s prev;
           b ← pcb_at s pcb;
           Ret (set_pcb s prev (with_pcb_next b2 (pcb_next b))));
  pool ← pool_free (u_pool s) pcb;
  Ret (with_pcbs (with_upool s pool) (delete pcb (u_pcbs s))).

(** A control block of zeroes but for the TTLs. *)
Definition new_pcb : udp_pcb := UdpPcb 0 0 0 0 0 UDP_TTL NULL 0 0 0 0 0 UDP_TTL None 0.

Definition udp_new (s : udp) : outcome (Z * udp) :=
  '(r, pool) ← pool_malloc (u_pool s);
  let s := with_upool s pool in
  match r with
  | None => Ret (NULL, s)
  | Some pcb => Ret (pcb, set_pcb s pcb new_pcb)
  end.

(** The type of the addresses does not matter with IPv4 only. *)
Definition udp_new_ip_type (s : udp) (type : Z) : outcome (Z * udp) := udp_new s.

(** The loop of udp_netif_ip_addr_changed. *)
Fixpoint addr_changed_loop (fuel : nat) (s : udp) (old_addr new_addr upcb : Z) : outcome udp :=
  if upcb =? NULL then Ret s
  else
    match fuel with
    | O => Trap "udp: fuel"
    | S fuel =>
        b ← pcb_at s upcb;
        let s := if ip4_addr_cmp (local_ip b) old_addr then set_pcb s upcb (with_local b new_addr (local_port b)) else s in
        addr_changed_loop fuel s old_addr new_addr (pcb_next b)
    end.

Definition udp_netif_ip_addr_changed (s : udp) (old_addr new_addr : Z) : outcome udp :=
  if negb (ip4_addr_isany_val old_addr) && negb (ip4_addr_isany_val new_addr)
  then addr_changed_loop (S (size (u_pcbs s))) s old_addr new_addr (udp_pcbs s)
  else Ret s.

(** ** Sending *)

(** The part of udp_sendto_if_src that puts a pbuf with room for the header in front
    when [p] has none: the packet to send, NULL without memory. *)
Definition header_pbuf (n : inet) (p : Z) : outcome (Z * inet) :=
  '(r, ps) ← pbuf_add_header (n_ps n) p UDP_HLEN;
  let n := with_ps n ps in
  if negb (r =? 0) then
    '(q, ps) ← pbuf_alloc ps PBUF_IP UDP_HLEN PBUF_RAM;
    let n := with_ps n ps in
    if q =? NULL then Ret (NULL, n)
    else
      b ← deref ps p;
      if negb (p_tot_len b =? 0) then ps ← pbuf_chain ps q p; Ret (q, with_ps n ps)
      else Ret (q, n)
  else Ret (p, n).

(** The part that writes the header at the start of [q]. *)
Definition write_udp_header (n : inet) (pcb : udp_pcb) (q dst_ip dst_port src_ip : Z) : outcome inet :=
  qb ← deref (n_ps n) q;
  LWIP_ASSERT "check that first pbuf can hold struct udp_hdr" (UDP_HLEN <=? p_len qb);;
  let udphdr := p_payload qb in
  let m := udph_src_set (data (n_ps n)) udphdr (lwip_htons (local_port pcb)) in
  let m := udph_dest_set m udphdr (lwip_htons dst_port) in
  let m := udph_chksum_set m udphdr 0 in
  let ps := with_data (n_ps n) m in
  let ps := if negb (Z.land (pcb_flags pcb) UDP_FLAGS_MULTICAST_LOOP =? 0) && ip4_addr_ismulticast dst_ip
            then set_pbuf ps q (with_flags qb (Z.lor (p_flags qb) PBUF_FLAG_MCASTLOOP)) else ps in
  let ps := with_data ps (udph_len_set (data ps) udphdr (lwip_htons (p_tot_len qb))) in
  if Z.land (pcb_flags pcb) UDP_FLAGS_NOCHKSUM =? 0 then
    segs ← chain_segs ps q;
    let udpchksum := inet_chksum_pseudo segs IP_PROTO_UDP (p_tot_len qb) src_ip dst_ip in
    let udpchksum := if udpchksum =? 0 then 0xffff else udpchksum in
    Ret (with_ps n (with_data ps (udph_chksum_set (data ps) udphdr udpchksum)))
  else Ret (with_ps n ps).

Definition udp_sendto_if_src (s : udp) (pcb p dst_ip dst_port : Z) (nif : netif) (src_ip : Z) : outcome (err_t * udp) :=
  LWIP_ERROR "udp_sendto_if_src: invalid pcb" (negb (pcb =? NULL));;
  LWIP_ERROR "udp_sendto_if_src: invalid pbuf" (negb (p =? NULL));;
  b ← pcb_at s pcb;
  '(e, s) ← (if local_port b =? 0 then udp_bind s pcb (Some (local_ip b)) (local_port b) else Ret (ERR_OK, s));
  if negb (bool_decide (e = ERR_OK)) then Ret (e, s)
  else
    b ← pcb_at s pcb;
    pb ← deref (n_ps (u_net s)) p;
    if u16 (p_tot_len pb + UDP_HLEN) <? p_tot_len pb then Ret (ERR_MEM, s)
    else
      '(q, n) ← header_pbuf (u_net s) p;
      if q =? NULL then Ret (ERR_MEM, with_unet s n)
      else
        n ← write_udp_header n b q dst_ip dst_port src_ip;
        let ttl := if ip4_addr_ismulticast dst_ip then mcast_ttl b else pcb_ttl b in
        '(e, n) ← ip4_output_if_src n q (Some src_ip) (Some dst_ip) ttl (pcb_tos b) IP_PROTO_UDP nif;
        n ← (if negb (q =? p) then net_free n q else Ret n);
        Ret (e, with_unet s n).

Definition udp_sendto_if (s : udp) (pcb p dst_ip dst_port : Z) (nif : netif) : outcome (err_t * udp) :=
  LWIP_ERROR "udp_sendto_if: invalid pcb" (negb (pcb =? NULL));;
  LWIP_ERROR "udp_sendto_if: invalid pbuf" (negb (p =? NULL));;
  b ← pcb_at s pcb;
  if ip4_addr_isany_val (local_ip b) || ip4_addr_ismulticast (local_ip b)
  then udp_sendto_if_src s pcb p dst_ip dst_port nif (netif_ip4_addr nif)
  else if negb (ip4_addr_cmp (local_ip b) (netif_ip4_addr nif)) then Ret (ERR_RTE, s)
  else udp_sendto_if_src s pcb p dst_ip dst_port nif (local_ip b).

(** The interface udp_sendto chooses. *)
Definition udp_route (ns : netifs) (b : udp_pcb) (dst_ip : Z) : option netif :=
  if negb (netif_idx b =? NETIF_NO_INDEX) then netif_get_by_index ns (netif_idx b)
  else
    let nif :=
      if ip4_addr_ismulticast dst_ip then
        if negb (mcast_ifindex b =? NETIF_NO_INDEX) then netif_get_by_index ns (mcast_ifindex b)
        else if negb (ip4_addr_isany_val (mcast_ip4 b)) && negb (ip4_addr_cmp (mcast_ip4 b) IPADDR_BROADCAST)
        then ip4_route ns (mcast_ip4 b) else None
      else None in
    match nif with
    | Some nif => Some nif
    | None => ip4_route ns dst_ip
    end.

Definition udp_sendto (ns : netifs) (s : udp) (pcb p dst_ip dst_port : Z) : outcome (err_t * udp) :=
  LWIP_ERROR "udp_sendto: invalid pcb" (negb (pcb =? NULL));;
  LWIP_ERROR "udp_sendto: invalid pbuf" (negb (p =? NULL));;
  b ← pcb_at s pcb;
  match udp_route ns b dst_ip with
  | None => Ret (ERR_RTE, s)
  | Some nif => udp_sendto_if s pcb p dst_ip dst_port nif
  end.

Definition udp_send (ns : netifs) (s : udp) (pcb p : Z) : outcome (err_t * udp) :=
  LWIP_ERROR "udp_send: invalid pcb" (negb (pcb =? NULL));;
  LWIP_ERROR "udp_send: invalid pbuf" (negb (p =? NULL));;
  b ← pcb_at s pcb;
  udp_sendto ns s pcb p (remote_ip b) (remote_port b).

(** ** Receiving *)

Definition udp_input_local_match (ig : ip_globals) (b : udp_pcb) (inp : netif) (broadcast : bool) : bool :=
  if negb (netif_idx b =? NETIF_NO_INDEX) && negb (netif_idx b =? netif_get_index (current_input_netif ig)) then false
  else if broadcast then
    ip4_addr_isany_val (local_ip b) || (current_iphdr_dest ig =? IPADDR_BROADCAST)
    || ip4_addr_netcmp (local_ip b) (current_iphdr_dest ig) (netif_ip4_netmask inp)
  else ip4_addr_isany_val (local_ip b) || ip4_addr_cmp (local_ip b) (current_iphdr_dest ig).

(** The control block is connected to the sender of the datagram (or its remote end is
    the wildcard). *)
Definition remote_match (ig : ip_globals) (b : udp_pcb) (src : Z) : bool :=
  (remote_port b =? src) && (ip4_addr_isany_val (remote_ip b) || ip4_addr_cmp (remote_ip b) (current_iphdr_src ig)).

(** The local variables of the loop of udp_input: the matching control block, prev and
    uncon_pcb, which is kept with the block it points to. *)
Record demux := Demux { dm_pcb : Z; dm_prev : Z; dm_uncon : option (Z * udp_pcb) }.

(** One round of the loop. *)
Definition demux_body (ig : ip_globals) (inp : netif) (broadcast : bool) (src dest : Z) (pcb : Z) (b : udp_pcb) (d : demux) : demux * bool :=
  if (local_port b =? dest) && udp_input_local_match ig b inp broadcast then
    let uncon :=
      if Z.land (pcb_flags b) UDP_FLAGS_CONNECTED =? 0 then
        match dm_uncon d with
        | None => Some (pcb, b)
        | Some (u, ub) =>
            if broadcast && (current_iphdr_dest ig =? IPADDR_BROADCAST)
               && (negb (ip4_addr_cmp (local_ip ub) (netif_ip4_addr inp)) && ip4_addr_cmp (local_ip b) (netif_ip4_addr inp))
            then Some (pcb, b) else Some (u, ub)
        end
      else dm_uncon d in
    if remote_match ig b src then (Demux pcb (dm_prev d) uncon, true) else (Demux NULL pcb uncon, false)
  else (Demux NULL pcb (dm_uncon d), false).

(** The loop with what follows it: the control block the datagram is for (NULL: none);
    a fully matching one is moved to the front of the list. *)
Definition udp_demux (s : udp) (ig : ip_globals) (inp : netif) (broadcast : bool) (src dest : Z) : outcome (Z * udp) :=
  d ← for_pcbs s (demux_body ig inp broadcast src dest) (Demux NULL NULL None);
  if negb (dm_pcb d =? NULL) then
    if negb (dm_prev d =? NULL) then
      prev ← pcb_at s (dm_prev d);
      b ← pcb_at s (dm_pcb d);
      let s := set_pcb s (dm_prev d) (with_pcb_next prev (pcb_next b)) in
      let s := set_pcb s (dm_pcb d) (with_pcb_next b (udp_pcbs s)) in
      Ret (dm_pcb d, with_head s (dm_pcb d))
    else Ret (dm_pcb d, s)
  else Ret (match dm_uncon d with Some (u, _) => u | None => NULL end, s).

(** pbuf_free at the end of udp_input. *)
Definition input_free (s : udp) (p : Z) : outcome udp := n ← net_free (u_net s) p; Ret (with_unet s n).

(** The datagram is for us: it is checked, and handed over or answered with an error. *)
Definition udp_deliver (recv_fn : Z -> Z -> Z -> Z -> Z -> Z -> udp -> outcome udp)
    (ns : netifs) (s : udp) (ig : ip_globals) (p pcb src udphdr : Z) (broadcast : bool) : outcome udp :=
  ok ← (if negb (udph_chksum (data (n_ps (u_net s))) udphdr =? 0) then
          b ← deref (n_ps (u_net s)) p;
          segs ← chain_segs (n_ps (u_net s)) p;
          Ret (inet_chksum_pseudo segs IP_PROTO_UDP (p_tot_len b) (current_iphdr_src ig) (current_iphdr_dest ig) =? 0)
        else Ret true);
  if negb ok then input_free s p
  else
    '(r, ps) ← pbuf_remove_header (n_ps (u_net s)) p UDP_HLEN;
    if negb (r =? 0) then Trap "pbuf_remove_header failed"
    else
      let s := with_unet s (with_ps (u_net s) ps) in
      if negb (pcb =? NULL) then
        b ← pcb_at s pcb;
        match recv b with
        | Some f => recv_fn f (recv_arg b) pcb p (current_iphdr_src ig) src s
        | None => input_free s p
        end
      else
        s ← (if negb broadcast && negb (ip4_addr_ismulticast (current_iphdr_dest ig)) then
               '(_, ps) ← pbuf_header_force (n_ps (u_net s)) p (current_ip_header_tot_len ig + UDP_HLEN);
               n ← icmp_dest_unreach ns (with_ps (u_net s) ps) p ICMP_DUR_PORT;
               Ret (with_unet s n)
             else Ret s);
        input_free s p.

Definition udp_input (recv_fn : Z -> Z -> Z -> Z -> Z -> Z -> udp -> outcome udp)
    (ns : netifs) (s : udp) (ig : ip_globals) (p : Z) (inp : netif) : outcome udp :=
  LWIP_ASSERT "udp_input: invalid pbuf" (negb (p =? NULL));;
  pb ← deref (n_ps (u_net s)) p;
  if p_len pb <? UDP_HLEN then input_free s p
  else
    let udphdr := p_payload pb in
    let broadcast := ip4_addr_isbroadcast_u32 (current_iphdr_dest ig) (current_netif ig) in
    let src := lwip_htons (udph_src (data (n_ps (u_net s))) udphdr) in
    let dest := lwip_htons (udph_dest (data (n_ps (u_net s))) udphdr) in
    '(pcb, s) ← udp_demux s ig inp broadcast src dest;
    let for_us := negb (pcb =? NULL) || ip4_addr_cmp (netif_ip4_addr inp) (current_iphdr_dest ig) in
    if for_us then udp_deliver recv_fn ns s ig p pcb src udphdr broadcast else input_free s p.
End Udp.
