(* ===== verification/UdpSpec.v ===== *)
(** * Properties of UDP: control blocks

    The invariant of the list of control blocks, what binding, connecting and the other
    operations do to it, and the search for a free port. *)

From S2P Require Import Prelude Def ListSeg InetChksum Ip4Addr Mem Memp Pbuf PbufMem PbufRef PbufChain PbufData Header Ip4 Ip4Frag Icmp Udp.

#[local] Open Scope Z_scope.
#[local] Coercion Z.of_nat : nat >-> Z.

(** ** Specification *)

(** The fields have their C types. *)
Definition pcb_ok (b : udp_pcb) : Prop :=
  is_u32 (local_ip b) /\ is_u32 (remote_ip b) /\ is_u32 (mcast_ip4 b) /\ is_u16 (local_port b) /\ is_u16 (remote_port b)
  /\ is_u8 (netif_idx b) /\ is_u8 (pcb_tos b) /\ is_u8 (pcb_ttl b) /\ is_u8 (mcast_ttl b) /\ is_u8 (mcast_ifindex b) /\ is_u8 (pcb_flags b).

(** A loop over a list of control blocks that can be left. *)
Fixpoint loop_list {A} (body : Z -> udp_pcb -> A -> A * bool) (l : list (Z * udp_pcb)) (a : A) : A :=
  match l with
  | [] => a
  | (p, b) :: l => let '(a, stop) := body p b a in if stop then a else loop_list body l a
  end.

Definition ports (L : list (Z * udp_pcb)) : list Z := (λ x, local_port x.2) <$> L.

(** Two local addresses that one datagram can be for. *)
Definition overlap (x y : Z) : Prop := x = y \/ x = IPADDR_ANY \/ y = IPADDR_ANY.

(** No two control blocks are bound to the same port with overlapping addresses. *)
Definition exclusive (L : list (Z * udp_pcb)) : Prop :=
  forall a b a' b', (a, b) ∈ L -> (a', b') ∈ L -> a <> a' -> local_port b = local_port b' -> ~ overlap (local_ip b) (local_ip b').

Section Pcbs.
Context `{MO : MemOptions} `{PO : PbufOptions} {St : Type} `{!PacketMemory St} {Lk : Type} `{LL : !LinkLayer Lk St} {Pl : Type} `{EP : !ElementPool Pl}.
Abbreviation udp := (udp (St := St) (Lk := Lk) (Pl := Pl)).

(** ** The invariant *)

(** [L] is the list udp_pcbs: it holds the control blocks that are bound, the pool has
    handed out those in the store, and the fields and the last port are in range. *)
Record udp_inv (s : udp) (L : list (Z * udp_pcb)) : Prop := UdpInv {
  ui_seg : lseg pcb_next (u_pcbs s) (udp_pcbs s) L NULL;
  ui_pool : pool_holds (u_pool s) (map_to_list (u_pcbs s)).*1;
  ui_type a b : u_pcbs s !! a = Some b -> pcb_ok b;
  ui_bound a b : u_pcbs s !! a = Some b -> local_port b <> 0 <-> a ∈ L.*1;
  ui_port : UDP_LOCAL_PORT_RANGE_START <= udp_port s <= UDP_LOCAL_PORT_RANGE_END
}.

Section Inv.
Context (s : udp) (L : list (Z * udp_pcb)) (HI : udp_inv s L).

Lemma ui_null : u_pcbs s !! NULL = None.
Proof.
  destruct (u_pcbs s !! NULL) as [b|] eqn:Eb; [|done]. pose proof (pool_holds_pos _ _ (ui_pool _ _ HI)) as Hp. rewrite Forall_forall in Hp.
  specialize (Hp NULL). unfold NULL in *. assert (0 < 0) as Hz; [|lia]. apply Hp, elem_of_keys. eauto.
Qed.

Lemma ui_lookup a b : (a, b) ∈ L -> u_pcbs s !! a = Some b.
Proof. intros Hin. by eapply lseg_lookup; [apply (ui_seg _ _ HI)|]. Qed.

Lemma ui_NoDup : NoDup L.*1.
Proof. eapply lseg_NoDup; [apply (ui_seg _ _ HI)|apply ui_null]. Qed.

Lemma ui_length : (length L <= size (u_pcbs s))%nat.
Proof. eapply lseg_length; [apply (ui_seg _ _ HI)|apply ui_null]. Qed.

Lemma ui_elem a b : u_pcbs s !! a = Some b -> a ∈ L.*1 -> (a, b) ∈ L.
Proof.
  intros Ha Hin. apply list_elem_of_fmap in Hin as ([a' b'] & E & Hin). cbn in E. subst a'. pose proof (ui_lookup _ _ Hin). congruence.
Qed.
End Inv.

Lemma pcb_at_ok (s : udp) a b : u_pcbs s !! a = Some b -> pcb_at s a = Ret b.
Proof. intros Ha. unfold pcb_at. by rewrite Ha. Qed.

(** ** Lemmas: the loops *)

Lemma pcb_loop_spec {A} (s : udp) (body : Z -> udp_pcb -> A -> A * bool) (fuel : nat) pcb l a :
  u_pcbs s !! NULL = None -> lseg pcb_next (u_pcbs s) pcb l NULL -> (length l < fuel)%nat ->
  pcb_loop fuel s body pcb a = Ret (loop_list body l a).
Proof.
  intros Hn. revert fuel pcb a. induction l as [|[p b] l IH]; intros fuel pcb a Hs Hf.
  - cbn in Hs. subst pcb. destruct fuel; cbn; done.
  - destruct Hs as (-> & Hb & Hs). destruct fuel as [|fuel]; [cbn in Hf; lia|]. cbn [pcb_loop loop_list].
    rewrite (proj2 (Z.eqb_neq p NULL)) by congruence. rewrite (pcb_at_ok _ _ _ Hb). cbn [mbind outcome_bind].
    destruct (body p b a) as [a' []]; [done|]. apply IH; [done|cbn in Hf; lia].
Qed.

Lemma for_pcbs_spec {A} (s : udp) L (body : Z -> udp_pcb -> A -> A * bool) a :
  udp_inv s L -> for_pcbs s body a = Ret (loop_list body L a).
Proof.
  intros HI. apply pcb_loop_spec; [by eapply ui_null|apply (ui_seg _ _ HI)|]. pose proof (ui_length _ _ HI). lia.
Qed.

(** A loop that looks for a control block. *)
Lemma loop_search (test : Z -> udp_pcb -> bool) l :
  loop_list (λ p b (found : bool), if test p b then (true, true) else (found, false)) l false = existsb (λ x, test x.1 x.2) l.
Proof. induction l as [|[p b] l IH]; cbn; [done|]. by destruct (test p b). Qed.

Lemma on_list_spec (s : udp) L pcb : udp_inv s L -> on_list s pcb = Ret (bool_decide (pcb ∈ L.*1)).
Proof.
  intros HI. unfold on_list. rewrite (for_pcbs_spec s L) by done. rewrite (loop_search (λ ipcb _, pcb =? ipcb)). f_equal.
  apply eq_true_iff_eq. rewrite existsb_exists, bool_decide_eq_true, list_elem_of_fmap. split.
  - intros ([a b] & Hin & E%Z.eqb_eq). exists (a, b). split; [done|]. by apply list_elem_of_In.
  - intros ([a b] & -> & Hin). exists (a, b). split; [by apply list_elem_of_In|]. by apply Z.eqb_refl.
Qed.

(** ** Lemmas: ports *)

(** The port [i] rounds after the port [k]. *)
Definition port_after (k i : Z) : Z := UDP_LOCAL_PORT_RANGE_START + (k - UDP_LOCAL_PORT_RANGE_START + i) mod 0x4000.

Lemma new_port_step k i :
  UDP_LOCAL_PORT_RANGE_START <= k <= UDP_LOCAL_PORT_RANGE_END -> 0 <= i ->
  (if port_after k i =? UDP_LOCAL_PORT_RANGE_END then UDP_LOCAL_PORT_RANGE_START else u16 (port_after k i + 1)) = port_after k (i + 1).
Proof.
  unfold port_after, UDP_LOCAL_PORT_RANGE_START, UDP_LOCAL_PORT_RANGE_END. intros Hk Hi. unfold u16. case_if; bool_to_prop; Z.div_mod_to_equations; lia.
Qed.

Lemma port_after_range k i : UDP_LOCAL_PORT_RANGE_START <= port_after k i <= UDP_LOCAL_PORT_RANGE_END.
Proof. unfold port_after, UDP_LOCAL_PORT_RANGE_START, UDP_LOCAL_PORT_RANGE_END. Z.div_mod_to_equations. lia. Qed.

Lemma port_after_all k p :
  UDP_LOCAL_PORT_RANGE_START <= k <= UDP_LOCAL_PORT_RANGE_END -> UDP_LOCAL_PORT_RANGE_START <= p <= UDP_LOCAL_PORT_RANGE_END ->
  exists i, 1 <= i <= 0x4000 /\ p = port_after k i.
Proof.
  unfold port_after, UDP_LOCAL_PORT_RANGE_START, UDP_LOCAL_PORT_RANGE_END. intros Hk Hp. exists ((p - k - 1) mod 0x4000 + 1).
  split; Z.div_mod_to_equations; lia.
Qed.

Lemma inv_with_port (s : udp) L k :
  udp_inv s L -> UDP_LOCAL_PORT_RANGE_START <= k <= UDP_LOCAL_PORT_RANGE_END -> udp_inv (with_port s k) L.
Proof. intros [H1 H2 H3 H4 H5] Hk. by split. Qed.

Lemma new_port_loop_spec (fuel : nat) (s : udp) L k n :
  udp_inv s L -> UDP_LOCAL_PORT_RANGE_START <= k <= UDP_LOCAL_PORT_RANGE_END -> udp_port s = port_after k n -> 0 <= n -> n + fuel = 0x4000 -> (0 < fuel)%nat ->
  (forall i, 1 <= i <= n -> port_after k i ∈ ports L) ->
  exists port x, new_port_loop fuel s n = Ret (port, with_port s x) /\ UDP_LOCAL_PORT_RANGE_START <= x <= UDP_LOCAL_PORT_RANGE_END
    /\ (port = x /\ x ∉ ports L \/ port = 0 /\ forall p, UDP_LOCAL_PORT_RANGE_START <= p <= UDP_LOCAL_PORT_RANGE_END -> p ∈ ports L).
Proof.
  revert s n. induction fuel as [|fuel IH]; intros s n HI Hk Hp Hn Hf Hpos Hused; [lia|]. cbn [new_port_loop].
  set (s1 := if udp_port s =? UDP_LOCAL_PORT_RANGE_END then _ else _).
  assert (Es1 : s1 = with_port s (port_after k (n + 1))).
  { unfold s1. rewrite <- new_port_step, Hp by done. by case_if. }
  clearbody s1. subst s1. pose proof (port_after_range k (n + 1)) as Hr.
  rewrite (for_pcbs_spec _ L) by (by apply inv_with_port). cbn [mbind outcome_bind udp_port with_port].
  rewrite (loop_search (λ _ pcb, local_port pcb =? port_after k (n + 1))). destruct (existsb _ L) eqn:Ex.
  - assert (Hin : port_after k (n + 1) ∈ ports L).
    { apply existsb_exists in Ex as ([a b] & Hin & E%Z.eqb_eq). apply list_elem_of_fmap. exists (a, b). split; [done|]. by apply list_elem_of_In. }
    assert (Hused' : forall i, 1 <= i <= n + 1 -> port_after k i ∈ ports L).
    { intros i Hi. destruct (decide (i = n + 1)) as [->|]; [done|apply Hused; lia]. }
    rewrite u16_small by (unfold_c; lia). change (UDP_LOCAL_PORT_RANGE_END - UDP_LOCAL_PORT_RANGE_START) with 0x3fff.
    destruct (Z.ltb_spec 0x3fff (n + 1)) as [Hlast|Hmore].
    + exists 0, (port_after k (n + 1)). split; [done|]. split; [done|]. right. split; [done|]. intros p Hrange.
      destruct (port_after_all k p Hk Hrange) as (i & Hi & ->). apply Hused'. lia.
    + apply (IH (with_port s (port_after k (n + 1))) (n + 1)); try done; [by apply inv_with_port|lia|lia|lia].
  - exists (port_after k (n + 1)), (port_after k (n + 1)). split; [done|]. split; [done|]. left. split; [done|]. intros Hin.
    apply list_elem_of_fmap in Hin as ([a b] & E & Hin). apply not_true_iff_false in Ex. apply Ex, existsb_exists. exists (a, b).
    split; [by apply list_elem_of_In|]. by apply Z.eqb_eq.
Qed.

Lemma new_port_spec (s : udp) L :
  udp_inv s L ->
  exists port x, udp_new_port s = Ret (port, with_port s x) /\ UDP_LOCAL_PORT_RANGE_START <= x <= UDP_LOCAL_PORT_RANGE_END
    /\ (port = x /\ x ∉ ports L \/ port = 0 /\ forall p, UDP_LOCAL_PORT_RANGE_START <= p <= UDP_LOCAL_PORT_RANGE_END -> p ∈ ports L).
Proof.
  intros HI. unfold udp_new_port. apply (new_port_loop_spec _ s L (udp_port s) 0 HI (ui_port _ _ HI)); try lia.
  - pose proof (ui_port _ _ HI) as Hp. unfold port_after, UDP_LOCAL_PORT_RANGE_START, UDP_LOCAL_PORT_RANGE_END in *. rewrite Z.add_0_r, Z.mod_small; lia.
  - change (UDP_LOCAL_PORT_RANGE_END - UDP_LOCAL_PORT_RANGE_START) with 0x3fff. rewrite Nat2Z.inj_succ, Z2Nat.id by lia. lia.
Qed.

(** ** Lemmas: changing control blocks *)

(** A control block changes, but not its link nor whether it is bound. *)
Lemma inv_set_pcb (s : udp) L a b b' :
  udp_inv s L -> u_pcbs s !! a = Some b -> pcb_next b' = pcb_next b -> pcb_ok b' -> (local_port b' <> 0 <-> local_port b <> 0) ->
  udp_inv (set_pcb s a b') (upd a b' L).
Proof.
  intros [H1 H2 H3 H4 H5] Ha Hn Hok Hp. split; cbn.
  - by apply (lseg_upd _ _ _ _ _ _ b).
  - eapply pool_holds_perm; [symmetry; by apply (keys_update _ a b)|done].
  - intros c x Hc. apply lookup_insert_Some in Hc as [[<- <-]|[_ Hc]]; [done|by eapply H3].
  - intros c x Hc. rewrite upd_fst. apply lookup_insert_Some in Hc as [[<- <-]|[_ Hc]]; [rewrite Hp|]; by apply H4.
  - done.
Qed.

(** A control block that was not bound is put in front of the list. *)
Lemma inv_push (s : udp) L a b b' :
  udp_inv s L -> u_pcbs s !! a = Some b -> a ∉ L.*1 -> pcb_next b' = udp_pcbs s -> pcb_ok b' -> local_port b' <> 0 ->
  udp_inv (with_head (set_pcb s a b') a) ((a, b') :: L).
Proof.
  intros [H1 H2 H3 H4 H5] Ha Hin Hn Hok Hp. split; cbn.
  - rewrite lookup_insert_eq. split; [done|]. split; [done|]. rewrite Hn. by apply lseg_insert.
  - eapply pool_holds_perm; [symmetry; by apply (keys_update _ a b)|done].
  - intros c x Hc. apply lookup_insert_Some in Hc as [[<- <-]|[_ Hc]]; [done|by eapply H3].
  - intros c x Hc. rewrite elem_of_cons. apply lookup_insert_Some in Hc as [[<- <-]|[Hne Hc]]; [tauto|]. rewrite (H4 _ _ Hc). naive_solver.
  - done.
Qed.

Lemma pcb_ok_local b ip port : pcb_ok b -> is_u32 ip -> is_u16 port -> pcb_ok (with_local b ip port).
Proof. intros (H1 & H2 & H3 & H4 & H5 & H6) Hi Hp. do 5 (split; [done|]). exact H6. Qed.

Lemma pcb_ok_next b x : pcb_ok b -> pcb_ok (with_pcb_next b x).
Proof. done. Qed.

(** ** Lemmas: binding *)

Lemma conflict_spec pcb ip port a b :
  bind_conflict pcb ip port a b = true <-> a <> pcb /\ local_port b = port /\ overlap (local_ip b) ip.
Proof.
  unfold bind_conflict, overlap, ip4_addr_cmp, ip4_addr_isany_val. rewrite !andb_true_iff, !orb_true_iff, negb_true_iff, !Z.eqb_eq, Z.eqb_neq. naive_solver.
Qed.

(** The list after a successful bind. *)
Definition bound_list (s : udp) (L : list (Z * udp_pcb)) (pcb : Z) (b : udp_pcb) (ip port : Z) : list (Z * udp_pcb) :=
  if decide (pcb ∈ L.*1) then upd pcb (with_local b ip port) L else (pcb, with_pcb_next (with_local b ip port) (udp_pcbs s)) :: L.

(** The end of udp_bind. *)
Lemma bind_end (s : udp) L pcb b ip port :
  udp_inv s L -> u_pcbs s !! pcb = Some b -> is_u32 ip -> is_u16 port -> port <> 0 ->
  let b1 := with_local b ip port in
  let s' := if negb (bool_decide (pcb ∈ L.*1)) then with_head (set_pcb s pcb (with_pcb_next b1 (udp_pcbs s))) pcb else set_pcb s pcb b1 in
  udp_inv s' (bound_list s L pcb b ip port).
Proof.
  intros HI Hb Hip Hp Hp0 b1 s'. assert (Hok : pcb_ok b1) by (apply pcb_ok_local; [by eapply ui_type|done|done]). unfold s', bound_list. case_decide as Hin.
  - rewrite bool_decide_true by done. apply (inv_set_pcb s L pcb b); try done. cbn. split; [|done]. intros _. by apply (ui_bound _ _ HI pcb b).
  - rewrite bool_decide_false by done. by apply (inv_push s L pcb b).
Qed.

Definition no_conflict (L : list (Z * udp_pcb)) (pcb ip port : Z) : Prop :=
  forall a c, (a, c) ∈ L -> a <> pcb -> local_port c = port -> ~ overlap (local_ip c) ip.

Lemma bind_spec (s : udp) L pcb b ipaddr port :
  udp_inv s L -> u_pcbs s !! pcb = Some b -> is_u32 (default IPADDR_ANY ipaddr) -> is_u16 port ->
  let ip := default IPADDR_ANY ipaddr in
  exists e s', udp_bind s pcb ipaddr port = Ret (e, s')
    /\ (e = ERR_USE /\ (exists x, s' = with_port s x) /\ udp_inv s' L
          /\ (if port =? 0 then forall q, UDP_LOCAL_PORT_RANGE_START <= q <= UDP_LOCAL_PORT_RANGE_END -> q ∈ ports L else ~ no_conflict L pcb ip port)
        \/ e = ERR_OK /\ u_net s' = u_net s /\ exists port' n, u_pcbs s' = <[pcb := with_pcb_next (with_local b ip port') n]> (u_pcbs s) /\ udp_inv s' (bound_list s L pcb b ip port') /\ no_conflict L pcb ip port'
          /\ is_u16 port' /\ port' <> 0
          /\ (if port =? 0 then UDP_LOCAL_PORT_RANGE_START <= port' <= UDP_LOCAL_PORT_RANGE_END /\ port' ∉ ports L else port' = port)).
Proof.
  intros HI Hb Hip Hport ip. unfold udp_bind. fold ip. pose proof (ui_null _ _ HI) as Hnull.
  rewrite LWIP_ERROR_ok by (apply negb_true_iff, Z.eqb_neq; congruence). cbn [mbind outcome_bind]. rewrite (on_list_spec s L pcb HI). cbn [mbind outcome_bind].
  destruct (Z.eqb_spec port 0) as [->|Hp0].
  - destruct (new_port_spec s L HI) as (q & x & E & Hx & Hq). rewrite E. cbn [mbind outcome_bind]. pose proof (inv_with_port s L x HI Hx) as HI'.
    destruct Hq as [[-> Hfree]|[-> Hall]].
    + assert (Hx0 : x <> 0) by (unfold UDP_LOCAL_PORT_RANGE_START in Hx; lia). rewrite (proj2 (Z.eqb_neq x 0)) by done. cbn [mbind outcome_bind].
      rewrite bool_decide_true by done. cbn [negb]. rewrite (pcb_at_ok (with_port s x) pcb b Hb). cbn [mbind outcome_bind].
      assert (Hx16 : is_u16 x) by (unfold UDP_LOCAL_PORT_RANGE_START, UDP_LOCAL_PORT_RANGE_END in Hx; unfold_c; lia).
      eexists _, _. split; [reflexivity|]. right. split; [done|]. split; [by case_if|]. exists x, (if decide (pcb ∈ L.*1) then pcb_next b else udp_pcbs s).
      split; [by case_bool_decide; case_decide|]. split; [exact (bind_end (with_port s x) L pcb b ip x HI' Hb Hip Hx16 Hx0)|]. split; [|done].
      intros a c Hin _ Hc _. apply Hfree. rewrite <- Hc. apply list_elem_of_fmap. by exists (a, c).
    + cbn [mbind outcome_bind Z.eqb]. rewrite bool_decide_false by done. cbn [negb]. eexists _, _. split; [reflexivity|]. left. by split_and!; [|exists x|..].
  - rewrite (for_pcbs_spec s L) by done. cbn [mbind outcome_bind]. rewrite (loop_search (λ ipcb c, bind_conflict pcb ip port ipcb c)).
    destruct (existsb _ L) eqn:Ex; cbn [mbind outcome_bind].
    + rewrite bool_decide_false by done. cbn [negb]. eexists _, _. split; [reflexivity|]. left. split; [done|]. split; [exists (udp_port s); by destruct s|]. split; [done|].
      intros Hno. apply existsb_exists in Ex as ([a c] & Hin & Hc). apply conflict_spec in Hc as (H1 & H2 & H3). apply list_elem_of_In in Hin. by apply (Hno a c).
    + rewrite bool_decide_true by done. cbn [negb]. rewrite (pcb_at_ok s pcb b Hb). cbn [mbind outcome_bind]. eexists _, _. split; [reflexivity|]. right. split; [done|].
      split; [by case_if|]. exists port, (if decide (pcb ∈ L.*1) then pcb_next b else udp_pcbs s). split; [by case_bool_decide; case_decide|].
      split; [by apply bind_end|]. split; [|done]. intros a c Hin Ha Hc Ho.
      apply not_true_iff_false in Ex. apply Ex, existsb_exists. exists (a, c). split; [by apply list_elem_of_In|]. by apply conflict_spec.
Qed.

Lemma upd_elem_of pcb (c : udp_pcb) L a b : (a, b) ∈ upd pcb c L -> (a = pcb /\ b = c) \/ (a <> pcb /\ (a, b) ∈ L).
Proof.
  intros Hin. apply list_elem_of_fmap in Hin as ([a' b'] & E & Hin). cbn in E. case_decide as Hd; injection E as -> ->; naive_solver.
Qed.

Lemma exclusive_bind (s : udp) L pcb b ip port : exclusive L -> no_conflict L pcb ip port -> exclusive (bound_list s L pcb b ip port).
Proof.
  intros Hex Hno. assert (Hel : forall a c, (a, c) ∈ bound_list s L pcb b ip port -> a = pcb /\ local_ip c = ip /\ local_port c = port \/ a <> pcb /\ (a, c) ∈ L).
  { intros a c. unfold bound_list. case_decide as Hin; [intros [[-> ->]|[? ?]]%upd_elem_of; [by left|by right]|].
    rewrite elem_of_cons. intros [[= -> ->]|Ha]; [by left|right]. split; [|done]. intros ->. apply Hin, list_elem_of_fmap. by exists (pcb, c). }
  intros a c a' c' Ha Ha' Hne Hport Hov. destruct (Hel _ _ Ha) as [(-> & E1 & E2)|[H1 H2]], (Hel _ _ Ha') as [(-> & E3 & E4)|[H3 H4]]; [done|..].
  - rewrite E1 in Hov. apply (Hno a' c' H4 H3); [congruence|]. unfold overlap in *. naive_solver.
  - rewrite E3 in Hov. by apply (Hno a c H2 H1); [congruence|].
  - by apply (Hex a c a' c').
Qed.

(** ** Lemmas: creating and removing *)

Lemma new_pcb_ok : pcb_ok new_pcb.
Proof. unfold pcb_ok, new_pcb, UDP_TTL; cbn. unfold_c. lia. Qed.

Lemma new_spec (s : udp) L :
  udp_inv s L ->
  exists pcb s', udp_new s = Ret (pcb, s') /\ udp_inv s' L /\ u_net s' = u_net s
    /\ if decide (size (u_pcbs s) < pool_cap)%nat then pcb <> NULL /\ u_pcbs s !! pcb = None /\ u_pcbs s' = <[pcb := new_pcb]> (u_pcbs s)
       else pcb = NULL /\ u_pcbs s' = u_pcbs s.
Proof.
  intros HI. pose proof HI as [H1 H2 H3 H4 H5]. pose proof (pool_malloc_law _ _ H2) as Hm. rewrite length_fmap, length_map_to_list in Hm. unfold udp_new. case_decide.
  - destruct Hm as (e & P & -> & Hp). cbn [mbind outcome_bind]. pose proof (pool_holds_NoDup _ _ Hp) as Hn. apply NoDup_cons in Hn as [Hn _].
    pose proof (pool_holds_pos _ _ Hp) as Hpos. apply Forall_cons in Hpos as [Hpos _].
    assert (He : u_pcbs s !! e = None) by (apply eq_None_not_Some; by rewrite <- elem_of_keys).
    assert (HeL : e ∉ L.*1). { intros Hin. apply list_elem_of_fmap in Hin as ([a b] & -> & Hin). pose proof (ui_lookup _ _ HI _ _ Hin). cbn in *. congruence. }
    exists e, (set_pcb (with_upool s P) e new_pcb). split; [done|]. split; [|split_and!; [done|unfold NULL; lia|done|done]]. split; cbn.
    + by apply lseg_insert.
    + eapply pool_holds_perm; [symmetry; by apply keys_insert|done].
    + intros a b Ha. apply lookup_insert_Some in Ha as [[<- <-]|[_ Ha]]; [apply new_pcb_ok|by eapply H3].
    + intros a b Ha. apply lookup_insert_Some in Ha as [[<- <-]|[_ Ha]]; [by cbn|by apply H4].
    + done.
  - destruct Hm as (P & -> & Hp). cbn [mbind outcome_bind]. exists NULL, (with_upool s P). split; [done|]. split; [|done]. by split.
Qed.

(** The list without the links. *)
Definition blocks (L : list (Z * udp_pcb)) : list (Z * udp_pcb) := (λ x, (x.1, with_pcb_next x.2 NULL)) <$> L.

Lemma blocks_absent pcb l : pcb ∉ l.*1 -> filter (λ x, x.1 <> pcb) (blocks l) = blocks l.
Proof.
  induction l as [|[a x] l IH]; [done|]. change (blocks ((a, x) :: l)) with ((a, with_pcb_next x NULL) :: blocks l). cbn [fmap list_fmap fst].
  rewrite not_elem_of_cons. intros [? ?]. rewrite filter_cons_True by (cbn; congruence). by rewrite IH.
Qed.

Lemma loop_prev m h L pcb :
  lseg pcb_next m h L NULL -> h <> pcb -> pcb <> NULL ->
  let r := loop_list (λ pcb2 b2 prev, if negb (pcb_next b2 =? NULL) && (pcb_next b2 =? pcb) then (pcb2, true) else (prev, false)) L NULL in
  r = NULL /\ pcb ∉ L.*1 \/ exists l1 prev pb b l2, L = l1 ++ (prev, pb) :: (pcb, b) :: l2 /\ r = prev.
Proof.
  intros Hs Hh Hp. revert h Hs Hh. induction L as [|[a x] l IH]; intros h Hs Hh; [left; split; [done|apply not_elem_of_nil]|].
  destruct Hs as (-> & Hx & Hs). cbn [loop_list]. destruct (Z.eqb_spec (pcb_next x) pcb) as [E|E].
  - rewrite (proj2 (Z.eqb_neq (pcb_next x) NULL)) by congruence. cbn [negb andb]. right. destruct l as [|[c y] l]; [cbn in Hs; congruence|].
    destruct Hs as (Ec & _). exists [], a, x, y, l. split; [|done]. cbn. congruence.
  - rewrite andb_false_r. destruct (IH _ Hs E) as [[Er Hno]|(l1 & prev & pb & b & l2 & -> & Er)].
    + left. split; [done|]. cbn. rewrite not_elem_of_cons. split; [congruence|done].
    + right. exists ((a, x) :: l1), prev, pb, b, l2. split; [done|]. exact Er.
Qed.

(** Taking a control block out of the store. *)
Lemma inv_free (s : udp) L pcb b :
  udp_inv s L -> u_pcbs s !! pcb = Some b ->
  forall s1 L1, lseg pcb_next (u_pcbs s1) (udp_pcbs s1) L1 NULL -> pcb ∉ L1.*1 -> (forall a, a <> pcb -> a ∈ L1.*1 <-> a ∈ L.*1) ->
  (forall a x, u_pcbs s1 !! a = Some x -> exists y n, u_pcbs s !! a = Some y /\ x = with_pcb_next y n) -> (map_to_list (u_pcbs s1)).*1 ≡ₚ (map_to_list (u_pcbs s)).*1 ->
  u_pool s1 = u_pool s -> udp_port s1 = udp_port s -> u_net s1 = u_net s ->
  exists s', (pool ← pool_free (u_pool s1) pcb; Ret (with_pcbs (with_upool s1 pool) (delete pcb (u_pcbs s1)))) = Ret s'
    /\ udp_inv s' L1 /\ u_pcbs s' = delete pcb (u_pcbs s1) /\ u_net s' = u_net s.
Proof.
  intros [H1 H2 H3 H4 H5] Hb s1 L1 Hseg Hno HL Hst Hkeys Epool Eport Enet.
  assert (Hs1 : is_Some (u_pcbs s1 !! pcb)) by (apply elem_of_keys; rewrite Hkeys; apply elem_of_keys; eauto). destruct Hs1 as [b1 Hb1].
  eapply pool_holds_perm in H2; [|symmetry; exact Hkeys]. rewrite <- Epool in H2. rewrite <- (insert_delete_id (u_pcbs s1) pcb b1 Hb1) in H2.
  eapply pool_holds_perm in H2; [|by apply keys_insert, lookup_delete_eq]. destruct (pool_free_law _ _ _ H2) as (P & E & HP). rewrite E. cbn [mbind outcome_bind].
  eexists. split; [reflexivity|]. split; [|done]. split; cbn.
  - by apply lseg_delete.
  - done.
  - intros a x Ha. apply lookup_delete_Some in Ha as [_ Ha]. destruct (Hst _ _ Ha) as (y & n & Hy & ->). apply pcb_ok_next. by eapply H3.
  - intros a x Ha. apply lookup_delete_Some in Ha as [Hne Ha]. destruct (Hst _ _ Ha) as (y & n & Hy & ->). cbn. rewrite HL by done. by apply H4.
  - by rewrite Eport.
Qed.

Lemma remove_spec (s : udp) L pcb b :
  udp_inv s L -> u_pcbs s !! pcb = Some b ->
  exists s' L', udp_remove s pcb = Ret s' /\ udp_inv s' L' /\ u_net s' = u_net s /\ u_pcbs s' !! pcb = None
    /\ (forall a, a <> pcb -> is_Some (u_pcbs s' !! a) <-> is_Some (u_pcbs s !! a))
    /\ blocks L' = filter (λ x, x.1 <> pcb) (blocks L).
Proof.
  intros HI Hb. pose proof (ui_null _ _ HI) as Hnull. pose proof (ui_NoDup _ _ HI) as Hnd. pose proof (ui_seg _ _ HI) as Hseg. unfold udp_remove.
  assert (Hpn : pcb <> NULL) by congruence. rewrite LWIP_ERROR_ok by (by apply negb_true_iff, Z.eqb_neq). cbn [mbind outcome_bind].
  destruct (Z.eqb_spec (udp_pcbs s) pcb) as [Eh|Eh].
  - rewrite (pcb_at_ok s pcb b Hb). cbn [mbind outcome_bind]. destruct L as [|[a x] l]; [cbn in Hseg; congruence|]. destruct Hseg as (Ea & Hx & Hs).
    assert (a = pcb) as -> by congruence. rewrite Hb in Hx. injection Hx as <-. cbn in Hnd. apply NoDup_cons in Hnd as [Hno Hnd].
    destruct (inv_free s _ pcb b HI Hb (with_head s (pcb_next b)) l) as (s' & E & HI' & Hst & Hnet); try done.
    { intros a Ha. cbn. rewrite elem_of_cons. naive_solver. } { intros a y Hy. exists y, (pcb_next y). split; [done|by destruct y]. }
    exists s', l. split; [exact E|]. split; [done|]. split; [done|]. rewrite Hst. split; [apply lookup_delete_eq|].
    split; [intros a Ha; cbn; by rewrite lookup_delete_ne|]. change (blocks ((pcb, b) :: l)) with ((pcb, with_pcb_next b NULL) :: blocks l).
    rewrite filter_cons_False by (cbn; tauto). by rewrite blocks_absent.
  - rewrite (for_pcbs_spec s L) by done. cbn [mbind outcome_bind]. destruct (loop_prev _ _ _ pcb Hseg Eh Hpn) as [[Er Hno]|(l1 & prev & pb & b' & l2 & HL & Er)]; rewrite Er.
    + rewrite Z.eqb_refl. cbn [mbind outcome_bind].
      destruct (inv_free s L pcb b HI Hb s L) as (s' & E & HI' & Hst & Hnet); try done. { intros a y Hy. exists y, (pcb_next y). split; [done|by destruct y]. }
      exists s', L. split; [exact E|]. split; [done|]. split; [done|]. rewrite Hst. split; [apply lookup_delete_eq|].
      split; [intros a Ha; cbn; by rewrite lookup_delete_ne|by rewrite blocks_absent].
    + subst L. pose proof Hseg as Hseg'. apply lseg_app in Hseg' as (q & Hs1 & Hq). destruct Hq as (-> & Hpb & Hnx & Hb' & Hs2).
      rewrite Hb in Hb'. injection Hb' as <-. rewrite fmap_app in Hnd. cbn in Hnd. apply NoDup_app in Hnd as (Hnd1 & Hd & Hnd2).
      apply NoDup_cons in Hnd2 as [Hp1 Hnd2]. apply NoDup_cons in Hnd2 as [Hp2 Hnd2]. rewrite not_elem_of_cons in Hp1. destruct Hp1 as [Hpp Hp1].
      rewrite (proj2 (Z.eqb_neq prev NULL)) by congruence. rewrite (pcb_at_ok s prev pb Hpb), (pcb_at_ok s pcb b Hb). cbn [mbind outcome_bind].
      assert (Hl1 : prev ∉ l1.*1 /\ pcb ∉ l1.*1). { split; intros Hin; apply (Hd _ Hin); [by left|by right; left]. } destruct Hl1 as [Hl1 Hl1'].
      destruct (inv_free s _ pcb b HI Hb (set_pcb s prev (with_pcb_next pb (pcb_next b))) (l1 ++ (prev, with_pcb_next pb (pcb_next b)) :: l2))
        as (s' & E & HI' & Hst & Hnet); try done.
      { apply lseg_app. exists prev. split; [by apply lseg_insert|]. cbn. rewrite lookup_insert_eq. split_and!; [done|done|]. by apply lseg_insert. }
      { rewrite fmap_app. cbn. rewrite elem_of_app, elem_of_cons. naive_solver. }
      { intros a Ha. rewrite !fmap_app. cbn. rewrite !elem_of_app, !elem_of_cons. naive_solver. }
      { intros a y Hy. cbn in Hy. apply lookup_insert_Some in Hy as [[<- <-]|[_ Hy]]; [by eexists _, _|]. exists y, (pcb_next y). split; [done|by destruct y]. }
      { cbn. by apply (keys_update _ prev pb). }
      exists s', (l1 ++ (prev, with_pcb_next pb (pcb_next b)) :: l2). split; [exact E|]. split; [done|]. split; [done|]. rewrite Hst. split; [apply lookup_delete_eq|]. split.
      * intros a Ha. cbn. rewrite lookup_delete_ne by done. destruct (decide (a = prev)) as [->|]; [rewrite lookup_insert_eq, Hpb; naive_solver|by rewrite lookup_insert_ne].
      * unfold blocks in *. rewrite !fmap_app, filter_app, !fmap_cons. rewrite blocks_absent by done. rewrite filter_cons_True by (cbn; congruence). rewrite filter_cons_False by (cbn; tauto).
        by rewrite blocks_absent.
Qed.

Lemma exclusive_blocks L L' : blocks L' ⊆ blocks L -> exclusive L -> exclusive L'.
Proof.
  intros Hsub Hex a b a' b' H1 H2 Hne Hp Ho.
  assert (Hin : forall c x, (c, x) ∈ L' -> exists y, (c, y) ∈ L /\ local_ip y = local_ip x /\ local_port y = local_port x).
  { intros c x Hx. assert (Hc : (c, with_pcb_next x NULL) ∈ blocks L) by (apply Hsub, list_elem_of_fmap; by exists (c, x)).
    apply list_elem_of_fmap in Hc as ([c' y] & E & Hy). cbn in E. injection E as -> E1 E2 E3 E4 E5 E6 E7 E8 E9. exists y. by rewrite E1, E8. }
  destruct (Hin _ _ H1) as (y & Hy & E1 & E2), (Hin _ _ H2) as (y' & Hy' & E3 & E4). apply (Hex _ _ _ _ Hy Hy' Hne); [congruence|]. by rewrite E1, E3.
Qed.

(** ** Lemmas: the other operations *)

(** A change that keeps the local end keeps the list of local ends. *)
Lemma exclusive_upd L a b b' :
  (a, b) ∈ L -> local_ip b' = local_ip b -> local_port b' = local_port b -> exclusive L -> exclusive (upd a b' L).
Proof.
  intros Hin Ei Ep Hex c x c' x' H1 H2 Hne Hp Ho.
  apply upd_elem_of in H1, H2. destruct H1 as [[-> ->]|[N1 H1]], H2 as [[-> ->]|[N2 H2]]; [done|..].
  - rewrite Ei in Ho. rewrite Ep in Hp. by apply (Hex _ _ _ _ Hin H2 Hne).
  - rewrite Ei in Ho. rewrite Ep in Hp. by apply (Hex _ _ _ _ H1 Hin Hne).
  - by apply (Hex _ _ _ _ H1 H2 Hne).
Qed.

Lemma upd_none (L : list (Z * udp_pcb)) a b : a ∉ L.*1 -> upd a b L = L.
Proof.
  induction L as [|[c x] l IH]; [done|]. cbn. rewrite not_elem_of_cons. intros [Hne Hno]. rewrite decide_False by congruence. f_equal. by apply IH.
Qed.

(** What every operation guarantees that leaves the local ends alone. *)
Definition keeps_ends (s : udp) (L : list (Z * udp_pcb)) (s' : udp) (L' : list (Z * udp_pcb)) : Prop :=
  udp_inv s' L' /\ u_net s' = u_net s /\ dom (u_pcbs s') = dom (u_pcbs s) /\ (exclusive L -> exclusive L').

Lemma set_keeps_ends (s : udp) L a b b' :
  udp_inv s L -> u_pcbs s !! a = Some b -> pcb_next b' = pcb_next b -> pcb_ok b' -> local_ip b' = local_ip b -> local_port b' = local_port b ->
  keeps_ends s L (set_pcb s a b') (upd a b' L).
Proof.
  intros HI Ha Hn Hok Ei Ep. split; [apply (inv_set_pcb s L a b); [done..|by rewrite Ep]|]. split; [done|]. split.
  - cbn. rewrite dom_insert_L. apply elem_of_dom_2 in Ha. set_solver.
  - destruct (decide (a ∈ L.*1)) as [Hin|Hno]; [|by rewrite upd_none]. apply (exclusive_upd L a b); [by eapply ui_elem|done..].
Qed.

Lemma pcb_ok_remote b ip port fl : pcb_ok b -> is_u32 ip -> is_u16 port -> is_u8 fl -> pcb_ok (with_remote b ip port fl).
Proof. intros (H1 & H2 & H3 & H4 & H5 & H6 & H7 & H8 & H9 & H10 & H11) Hi Hp Hf. do 10 (split; [done|]). exact Hf. Qed.

Lemma pcb_ok_netif b x : pcb_ok b -> is_u8 x -> pcb_ok (with_netif_idx b x).
Proof. intros (H1 & H2 & H3 & H4 & H5 & H6 & H7) Hx. do 5 (split; [done|]). by split. Qed.

Lemma clear_flags_range f c : is_u8 (udp_clear_flags f c).
Proof. unfold udp_clear_flags, u8. unfold_c. Z.div_mod_to_equations. lia. Qed.

Lemma bind_netif_spec (s : udp) L pcb b nif :
  udp_inv s L -> u_pcbs s !! pcb = Some b ->
  exists s' L', udp_bind_netif s pcb nif = Ret s' /\ keeps_ends s L s' L'
    /\ u_pcbs s' = <[pcb := with_netif_idx b (match nif with Some nif => netif_get_index nif | None => NETIF_NO_INDEX end)]> (u_pcbs s).
Proof.
  intros HI Hb. unfold udp_bind_netif. rewrite (pcb_at_ok s pcb b Hb). cbn [mbind outcome_bind]. eexists _, _. split; [reflexivity|]. split; [|done].
  apply (set_keeps_ends s L pcb b); try done. apply pcb_ok_netif; [by eapply ui_type|]. destruct nif; unfold netif_get_index, NETIF_NO_INDEX, u8; unfold_c; Z.div_mod_to_equations; lia.
Qed.

Lemma recv_spec (s : udp) L pcb b f arg :
  udp_inv s L -> u_pcbs s !! pcb = Some b ->
  exists s', udp_recv s pcb f arg = Ret s' /\ keeps_ends s L s' (upd pcb (with_recv b f arg) L) /\ u_pcbs s' = <[pcb := with_recv b f arg]> (u_pcbs s).
Proof.
  intros HI Hb. unfold udp_recv. pose proof (ui_null _ _ HI). rewrite LWIP_ERROR_ok by (apply negb_true_iff, Z.eqb_neq; congruence). cbn [mbind outcome_bind].
  rewrite (pcb_at_ok s pcb b Hb). cbn [mbind outcome_bind]. eexists _. split; [reflexivity|]. split; [|done].
  apply (set_keeps_ends s L pcb b); try done. exact (ui_type _ _ HI _ _ Hb).
Qed.

(** A control block without its remote end. *)
Definition disconnected (b : udp_pcb) : udp_pcb :=
  with_netif_idx (with_remote b IPADDR_ANY 0 (udp_clear_flags (pcb_flags b) UDP_FLAGS_CONNECTED)) NETIF_NO_INDEX.

Lemma disconnect_spec (s : udp) L pcb b :
  udp_inv s L -> u_pcbs s !! pcb = Some b ->
  exists s' L', udp_disconnect s pcb = Ret s' /\ keeps_ends s L s' L' /\ u_pcbs s' = <[pcb := disconnected b]> (u_pcbs s).
Proof.
  intros HI Hb. unfold udp_disconnect. pose proof (ui_null _ _ HI). rewrite LWIP_ERROR_ok by (apply negb_true_iff, Z.eqb_neq; congruence). cbn [mbind outcome_bind].
  rewrite (pcb_at_ok s pcb b Hb). cbn [mbind outcome_bind]. eexists _, _. split; [reflexivity|]. split; [|done].
  apply (set_keeps_ends s L pcb b); try done. apply pcb_ok_netif; [|unfold NETIF_NO_INDEX; unfold_c; lia].
  apply pcb_ok_remote; [by eapply ui_type|unfold IPADDR_ANY; unfold_c; lia..|apply clear_flags_range].
Qed.

(** A control block with its remote end. *)
Definition connected (b : udp_pcb) (ip port : Z) : udp_pcb := with_remote b ip port (Z.lor (pcb_flags b) UDP_FLAGS_CONNECTED).

Lemma connected_ok b ip port : pcb_ok b -> is_u32 ip -> is_u16 port -> pcb_ok (connected b ip port).
Proof.
  intros Hb Hi Hp. apply pcb_ok_remote; [done..|]. destruct Hb as (_ & _ & _ & _ & _ & _ & _ & _ & _ & _ & Hf). unfold UDP_FLAGS_CONNECTED. unfold_c. 
  split; [apply Z.lor_nonneg; lia|]. apply (Z.log2_lt_cancel _ 256). rewrite Z.log2_lor by lia.
  change (Z.log2 256) with 8. destruct (decide (pcb_flags b = 0)) as [->|]; [done|]. apply Z.max_lub_lt; [apply Z.log2_lt_pow2; lia|done].
Qed.

(** The end of udp_connect, on a control block that is bound. *)
Lemma connect_end (s : udp) L pcb b ip port :
  udp_inv s L -> u_pcbs s !! pcb = Some b -> local_port b <> 0 -> is_u32 ip -> is_u16 port ->
  (b ← pcb_at s pcb;
   let s := set_pcb s pcb (with_remote b ip port (Z.lor (pcb_flags b) UDP_FLAGS_CONNECTED)) in
   found ← on_list s pcb;
   if found : bool then Ret (ERR_OK, s)
   else
     b ← pcb_at s pcb;
     Ret (ERR_OK, with_head (set_pcb s pcb (with_pcb_next b (udp_pcbs s))) pcb))
  = Ret (ERR_OK, set_pcb s pcb (connected b ip port))
  /\ keeps_ends s L (set_pcb s pcb (connected b ip port)) (upd pcb (connected b ip port) L).
Proof.
  intros HI Hb Hl Hip Hport. assert (Hk : keeps_ends s L (set_pcb s pcb (connected b ip port)) (upd pcb (connected b ip port) L)).
  { apply (set_keeps_ends s L pcb b); try done. apply connected_ok; [by eapply ui_type|done..]. }
  split; [|done]. rewrite (pcb_at_ok s pcb b Hb). cbn [mbind outcome_bind]. cbv zeta. fold (connected b ip port). rewrite (on_list_spec _ _ pcb (proj1 Hk)). cbn [mbind outcome_bind].
  rewrite upd_fst, bool_decide_true; [done|]. by apply (ui_bound _ _ HI pcb b).
Qed.

Lemma bound_list_elem (s : udp) L pcb b ip port : pcb ∈ (bound_list s L pcb b ip port).*1.
Proof. unfold bound_list. case_decide; [by rewrite upd_fst|by left]. Qed.

Lemma connect_spec (s : udp) L pcb b ip port :
  udp_inv s L -> u_pcbs s !! pcb = Some b -> is_u32 ip -> is_u16 port ->
  exists e s' L', udp_connect s pcb ip port = Ret (e, s') /\ udp_inv s' L' /\ u_net s' = u_net s /\ dom (u_pcbs s') = dom (u_pcbs s) /\ (exclusive L -> exclusive L')
    /\ (e = ERR_USE /\ local_port b = 0 /\ u_pcbs s' = u_pcbs s /\ L' = L /\ (forall q, UDP_LOCAL_PORT_RANGE_START <= q <= UDP_LOCAL_PORT_RANGE_END -> q ∈ ports L)
        \/ e = ERR_OK /\ exists q n, u_pcbs s' = <[pcb := connected (with_pcb_next (with_local b (local_ip b) q) n) ip port]> (u_pcbs s)
             /\ if local_port b =? 0 then UDP_LOCAL_PORT_RANGE_START <= q <= UDP_LOCAL_PORT_RANGE_END /\ q ∉ ports L else q = local_port b).
Proof.
  intros HI Hb Hip Hport. unfold udp_connect. pose proof (ui_null _ _ HI) as Hnull. rewrite LWIP_ERROR_ok by (apply negb_true_iff, Z.eqb_neq; congruence). cbn [mbind outcome_bind].
  rewrite (pcb_at_ok s pcb b Hb). cbn [mbind outcome_bind]. pose proof (ui_type _ _ HI _ _ Hb) as Hok. destruct (Z.eqb_spec (local_port b) 0) as [E0|E0].
  - destruct (bind_spec s L pcb b (Some (local_ip b)) (local_port b) HI Hb) as (e & s1 & E & Hr); [apply Hok|apply Hok|]. rewrite E. cbn [mbind outcome_bind]. rewrite E0 in Hr. cbn [Z.eqb] in Hr.
    destruct Hr as [(-> & (x & ->) & HI1 & Hall)|(-> & Hnet & q & n & Hst & HI1 & Hno & Hq & Hq0 & Hqr)].
    + rewrite bool_decide_false by done. cbn [negb]. eexists _, _, L. split; [reflexivity|]. do 4 (split; [done|]). left. done.
    + rewrite bool_decide_true by done. cbn [negb]. set (b1 := with_pcb_next _ _) in Hst. assert (Hb1 : u_pcbs s1 !! pcb = Some b1) by (rewrite Hst; apply lookup_insert_eq).
      destruct (connect_end s1 _ pcb b1 ip port HI1 Hb1) as [E1 (K1 & K2 & K3 & K4)]; [done..|]. cbv zeta in E1 |- *. rewrite E1. eexists _, _, _. split; [reflexivity|]. split; [exact K1|].
      split; [congruence|]. split. { rewrite K3, Hst, dom_insert_L. apply elem_of_dom_2 in Hb. set_solver. }
      split; [intros Hex; by apply K4, exclusive_bind|]. right. split; [done|]. exists q, n. cbn [default]. split; [|done]. cbn. rewrite Hst. by rewrite insert_insert_eq.
  - cbn [mbind outcome_bind]. rewrite bool_decide_true by done. cbn [negb]. destruct (connect_end s L pcb b ip port HI Hb E0) as [E1 (K1 & K2 & K3 & K4)]; [done..|]. cbv zeta in E1 |- *. rewrite E1.
    eexists _, _, _. split; [reflexivity|]. do 4 (split; [done|]). right. split; [done|]. exists (local_port b), (pcb_next b). split; [|done]. cbn. by f_equal.
Qed.

(** ** Lemmas: a changed interface address *)

Definition moved (old new : Z) (b : udp_pcb) : udp_pcb := if local_ip b =? old then with_local b new (local_port b) else b.

Lemma upd_middle (l1 l2 : list (Z * udp_pcb)) a b c : a ∉ l1.*1 -> a ∉ l2.*1 -> upd a c (l1 ++ (a, b) :: l2) = l1 ++ (a, c) :: l2.
Proof.
  intros H1 H2. unfold upd. rewrite fmap_app, fmap_cons. fold (upd a c l1). fold (upd a c l2). rewrite !upd_none by done. cbn. by rewrite decide_True.
Qed.

Lemma addr_changed_loop_spec (fuel : nat) (s : udp) l1 l2 old new upcb :
  udp_inv s (l1 ++ l2) -> lseg pcb_next (u_pcbs s) upcb l2 NULL -> (length l2 < fuel)%nat -> is_u32 new ->
  exists s', addr_changed_loop fuel s old new upcb = Ret s' /\ udp_inv s' (l1 ++ ((λ x, (x.1, moved old new x.2)) <$> l2)) /\ u_net s' = u_net s
    /\ dom (u_pcbs s') = dom (u_pcbs s) /\ (forall a, a ∉ l2.*1 -> u_pcbs s' !! a = u_pcbs s !! a).
Proof.
  revert fuel s l1 upcb. induction l2 as [|[a b] l2 IH]; intros fuel s l1 upcb HI Hs Hf Hnew.
  - cbn in Hs. subst. exists s. split; [by destruct fuel|done].
  - destruct fuel as [|fuel]; [cbn in Hf; lia|]. destruct Hs as (-> & Hb & Hs). cbn [addr_changed_loop].
    pose proof (ui_null _ _ HI) as Hnull. rewrite (proj2 (Z.eqb_neq a NULL)) by congruence. rewrite (pcb_at_ok s a b Hb). cbn [mbind outcome_bind].
    set (s1 := if ip4_addr_cmp _ _ then _ else _).
    pose proof (ui_NoDup _ _ HI) as Hnd. rewrite fmap_app in Hnd. cbn in Hnd. apply NoDup_app in Hnd as (_ & Hd & Hnd2). apply NoDup_cons in Hnd2 as [Hna Hnd2].
    assert (Ha1 : a ∉ l1.*1) by (intros Hin; apply (Hd _ Hin); by left).
    assert (Hs1 : udp_inv s1 (l1 ++ (a, moved old new b) :: l2) /\ lseg pcb_next (u_pcbs s1) (pcb_next b) l2 NULL /\ u_net s1 = u_net s /\ dom (u_pcbs s1) = dom (u_pcbs s)
      /\ forall c, c <> a -> u_pcbs s1 !! c = u_pcbs s !! c).
    { unfold s1, moved, ip4_addr_cmp. destruct (Z.eqb_spec (local_ip b) old); [|done].
      split. { rewrite <- (upd_middle l1 l2 a b) by done. apply (inv_set_pcb s _ a b); try done. apply pcb_ok_local; [by eapply ui_type|done|]. apply (ui_type _ _ HI _ _ Hb). }
      cbn. split; [by apply lseg_insert|]. split; [done|]. split; [rewrite dom_insert_L; apply elem_of_dom_2 in Hb; set_solver|]. intros c Hc. by rewrite lookup_insert_ne. }
    clearbody s1. destruct Hs1 as (HI1 & Hseg1 & Hn1 & Hd1 & Hl1). change ((a, moved old new b) :: l2) with ([(a, moved old new b)] ++ l2) in HI1. rewrite app_assoc in HI1.
    destruct (IH fuel s1 _ _ HI1 Hseg1) as (s' & E & HI' & Hn' & Hd' & Hl'); [cbn in Hf; lia|done|]. exists s'. split; [exact E|]. split; [by rewrite <- app_assoc in HI'|].
    split; [congruence|]. split; [congruence|]. intros c Hc. cbn in Hc. apply not_elem_of_cons in Hc as [Hc1 Hc2]. rewrite Hl' by done. by apply Hl1.
Qed.

Lemma addr_changed_spec (s : udp) L old new :
  udp_inv s L -> is_u32 new ->
  exists s' L', udp_netif_ip_addr_changed s old new = Ret s' /\ udp_inv s' L' /\ u_net s' = u_net s /\ dom (u_pcbs s') = dom (u_pcbs s)
    /\ L' = (if (old =? IPADDR_ANY) || (new =? IPADDR_ANY) then L else (λ x, (x.1, moved old new x.2)) <$> L).
Proof.
  intros HI Hnew. unfold udp_netif_ip_addr_changed, ip4_addr_isany_val. rewrite <- negb_orb. destruct (_ || _); cbn [negb]; [by exists s, L|].
  destruct (addr_changed_loop_spec (S (size (u_pcbs s))) s [] L old new (udp_pcbs s) HI) as (s' & E & H1 & H2 & H3 & _); [apply (ui_seg _ _ HI)|pose proof (ui_length _ _ HI); lia|done|].
  by exists s', ((λ x, (x.1, moved old new x.2)) <$> L).
Qed.

(** ** Calls of the interface *)

Inductive udp_op :=
  | OpNew
  | OpBind (pcb : Z) (ip : option Z) (port : Z)
  | OpBindNetif (pcb : Z) (nif : option netif)
  | OpConnect (pcb ip port : Z)
  | OpDisconnect (pcb : Z)
  | OpRecv (pcb : Z) (f : option Z) (arg : Z)
  | OpRemove (pcb : Z)
  | OpAddrChanged (old new : Z).

Definition run_udp (s : udp) (o : udp_op) : outcome udp :=
  match o with
  | OpNew => '(_, s) ← udp_new s; Ret s
  | OpBind pcb ip port => '(_, s) ← udp_bind s pcb ip port; Ret s
  | OpBindNetif pcb nif => udp_bind_netif s pcb nif
  | OpConnect pcb ip port => '(_, s) ← udp_connect s pcb ip port; Ret s
  | OpDisconnect pcb => udp_disconnect s pcb
  | OpRecv pcb f arg => udp_recv s pcb f arg
  | OpRemove pcb => udp_remove s pcb
  | OpAddrChanged old new => udp_netif_ip_addr_changed s old new
  end.

(** What the caller owes: a control block that is allocated, and arguments of the C types. *)
Definition allowed (s : udp) (o : udp_op) : Prop :=
  match o with
  | OpNew => True
  | OpBind pcb ip port => is_Some (u_pcbs s !! pcb) /\ is_u32 (default IPADDR_ANY ip) /\ is_u16 port
  | OpConnect pcb ip port => is_Some (u_pcbs s !! pcb) /\ is_u32 ip /\ is_u16 port
  | OpBindNetif pcb _ | OpDisconnect pcb | OpRecv pcb _ _ | OpRemove pcb => is_Some (u_pcbs s !! pcb)
  | OpAddrChanged _ new => is_u32 new
  end.

Inductive udp_reachable (s0 : udp) : udp -> Prop :=
  | udp_reach_start : udp_reachable s0 s0
  | udp_reach_step s o s' : udp_reachable s0 s -> allowed s o -> run_udp s o = Ret s' -> udp_reachable s0 s'.

(** One call. *)
Lemma run_udp_spec (s : udp) L o :
  udp_inv s L -> allowed s o ->
  exists s' L', run_udp s o = Ret s' /\ udp_inv s' L' /\ u_net s' = u_net s
    /\ (exclusive L -> match o with OpAddrChanged _ _ => True | _ => exclusive L' end).
Proof.
  intros HI Ha. destruct o as [|pcb ip port|pcb nif|pcb ip port|pcb|pcb f arg|pcb|old new]; cbn [run_udp allowed] in *.
  - destruct (new_spec s L HI) as (pcb & s' & E & HI' & Hn & _). rewrite E. by exists s', L.
  - destruct Ha as ([b Hb] & Hip & Hp). destruct (bind_spec s L pcb b ip port HI Hb Hip Hp) as (e & s' & E & Hr). rewrite E. cbn [mbind outcome_bind].
    destruct Hr as [(-> & (x & ->) & HI' & _)|(-> & Hn & q & n & _ & HI' & Hno & _)]; [by eexists _, L|]. eexists s', _. split; [done|]. split; [exact HI'|]. split; [done|].
    intros Hex. by apply exclusive_bind.
  - destruct Ha as [b Hb]. destruct (bind_netif_spec s L pcb b nif HI Hb) as (s' & L' & E & (H1 & H2 & _ & H3) & _). by exists s', L'.
  - destruct Ha as ([b Hb] & Hip & Hp). destruct (connect_spec s L pcb b ip port HI Hb Hip Hp) as (e & s' & L' & E & H1 & H2 & _ & H3 & _). rewrite E. by exists s', L'.
  - destruct Ha as [b Hb]. destruct (disconnect_spec s L pcb b HI Hb) as (s' & L' & E & (H1 & H2 & _ & H3) & _). by exists s', L'.
  - destruct Ha as [b Hb]. destruct (recv_spec s L pcb b f arg HI Hb) as (s' & E & (H1 & H2 & _ & H3) & _). by eexists s', _.
  - destruct Ha as [b Hb]. destruct (remove_spec s L pcb b HI Hb) as (s' & L' & E & H1 & H2 & _ & _ & HL). exists s', L'. do 3 (split; [done|]).
    apply exclusive_blocks. rewrite HL. intros x Hx. by apply list_elem_of_filter in Hx as [_ ?].
  - destruct (addr_changed_spec s L old new HI Ha) as (s' & L' & E & H1 & H2 & _). by exists s', L'.
Qed.

Lemma udp_reachable_inv s0 L0 s : udp_inv s0 L0 -> udp_reachable s0 s -> exists L, udp_inv s L.
Proof.
  intros HI Hr. induction Hr as [|s o s' _ [L IH] Ha E]; [by exists L0|]. destruct (run_udp_spec s L o IH Ha) as (s1 & L1 & E1 & HI1 & _).
  exists L1. rewrite E in E1. by injection E1 as ->.
Qed.

(** ** Theorems *)

(** The search for a free local port ends, within one round for every port of the
    range: it gives a port of the range that no control block has, or 0 when every port
    of the range is taken, which needs 16384 control blocks. *)
Theorem udp_new_port_correct (s : udp) L :
  udp_inv s L ->
  exists port s', udp_new_port s = Ret (port, s') /\ udp_inv s' L
    /\ (UDP_LOCAL_PORT_RANGE_START <= port <= UDP_LOCAL_PORT_RANGE_END /\ port ∉ ports L
        \/ port = 0 /\ (forall p, UDP_LOCAL_PORT_RANGE_START <= p <= UDP_LOCAL_PORT_RANGE_END -> p ∈ ports L) /\ 0x4000 <= length L).
Proof.
  intros HI. destruct (new_port_spec s L HI) as (port & x & E & Hx & Hr). exists port, (with_port s x). split; [done|]. split; [by apply inv_with_port|].
  destruct Hr as [[-> Hno]|[-> Hall]]; [by left|right]. split; [done|]. split; [done|].
  assert (Hsub : seqZ UDP_LOCAL_PORT_RANGE_START 0x4000 ⊆+ ports L).
  { apply NoDup_submseteq; [apply NoDup_seqZ|]. intros p Hp%elem_of_seqZ. apply Hall. unfold UDP_LOCAL_PORT_RANGE_START, UDP_LOCAL_PORT_RANGE_END in *. lia. }
  apply submseteq_length in Hsub. rewrite length_seqZ in Hsub. unfold ports in Hsub. rewrite length_fmap in Hsub. lia.
Qed.

(** C20: udp_bind gives ERR_USE, and changes nothing but the last port, exactly when
    another control block has the port with an overlapping address (or, asked for any
    port, when none is free); otherwise the control block gets the address and the
    port and is on the list, and no two control blocks on the list overlap if none
    did before. *)
Theorem udp_bind_correct (s : udp) L pcb b ipaddr port :
  udp_inv s L -> u_pcbs s !! pcb = Some b -> is_u32 (default IPADDR_ANY ipaddr) -> is_u16 port ->
  let ip := default IPADDR_ANY ipaddr in
  exists e s' L', udp_bind s pcb ipaddr port = Ret (e, s') /\ udp_inv s' L' /\ (exclusive L -> exclusive L')
    /\ (e = ERR_USE /\ L' = L /\ u_pcbs s' = u_pcbs s /\ udp_pcbs s' = udp_pcbs s
          /\ (if port =? 0 then forall q, UDP_LOCAL_PORT_RANGE_START <= q <= UDP_LOCAL_PORT_RANGE_END -> q ∈ ports L else ~ no_conflict L pcb ip port)
        \/ e = ERR_OK /\ exists port' n, (port = port' \/ port = 0 /\ port' ∉ ports L) /\ port' <> 0 /\ no_conflict L pcb ip port'
             /\ u_pcbs s' = <[pcb := with_pcb_next (with_local b ip port') n]> (u_pcbs s) /\ pcb ∈ L'.*1).
Proof.
  intros HI Hb Hip Hp ip. destruct (bind_spec s L pcb b ipaddr port HI Hb Hip Hp) as (e & s' & E & Hr). fold ip in Hr.
  destruct Hr as [(-> & (x & ->) & HI' & Hu)|(-> & Hn & q & n & Hst & HI' & Hno & Hq & Hq0 & Hqp)].
  - eexists _, _, L. split; [exact E|]. do 2 (split; [done|]). by left.
  - eexists _, s', _. split; [exact E|]. split; [exact HI'|]. split; [intros Hex; by apply exclusive_bind|]. right. split; [done|]. exists q, n.
    split; [destruct (Z.eqb_spec port 0); [right; split; [done|apply Hqp]|left; by rewrite Hqp]|]. do 3 (split; [done|]). apply bound_list_elem.
Qed.

(** C19: From a sound state, any sequence of calls on allocated control blocks runs
    without a dangling pointer, an endless list or a failed check, and every state it
    reaches is sound: the list holds exactly the bound control blocks, the pool those
    that are allocated, all fields are in the range of their types. *)
Theorem udp_reachable_safe (s0 : udp) L0 s o :
  udp_inv s0 L0 -> udp_reachable s0 s -> allowed s o ->
  exists s' L', run_udp s o = Ret s' /\ udp_inv s' L' /\ u_net s' = u_net s.
Proof.
  intros HI Hr Ha. destruct (udp_reachable_inv s0 L0 s HI Hr) as [L HL]. destruct (run_udp_spec s L o HL Ha) as (s' & L' & E & H1 & H2 & _). by exists s', L'.
Qed.

(** C21: Every call but the change of an interface address keeps the promise of
    udp_bind: no two control blocks on the list have the same port and overlapping
    addresses. *)
Theorem udp_exclusive_invariant (s : udp) L o :
  udp_inv s L -> allowed s o -> exclusive L -> (forall old new, o <> OpAddrChanged old new) ->
  exists s' L', run_udp s o = Ret s' /\ udp_inv s' L' /\ exclusive L'.
Proof.
  intros HI Ha Hex Ho. destruct (run_udp_spec s L o HI Ha) as (s' & L' & E & H1 & _ & H2). exists s', L'. split; [done|]. split; [done|].
  specialize (H2 Hex). destruct o; try done. by destruct (Ho old new).
Qed.

(** A change of an interface address moves every listed control block bound to the
    old address to the new one without the check of udp_bind: two control blocks that
    were apart get the same address and port. *)
Theorem udp_addr_change_clash (s : udp) L old new a b a' b' :
  udp_inv s L -> (a, b) ∈ L -> (a', b') ∈ L -> a <> a' -> local_ip b = old -> local_ip b' = new -> local_port b = local_port b' ->
  old <> IPADDR_ANY -> new <> IPADDR_ANY -> old <> new ->
  exists s' L', udp_netif_ip_addr_changed s old new = Ret s' /\ udp_inv s' L' /\ ~ exclusive L'.
Proof.
  intros HI Ha Ha' Hne Eo En Ep Ho Hn Hon. assert (Hnew : is_u32 new) by (rewrite <- En; apply (ui_type _ _ HI a'), (ui_lookup _ _ HI _ _ Ha')).
  destruct (addr_changed_spec s L old new HI Hnew) as (s' & L' & E & HI' & _ & _ & HL). exists s', L'. split; [done|]. split; [done|].
  rewrite (proj2 (Z.eqb_neq _ _) Ho), (proj2 (Z.eqb_neq _ _) Hn) in HL. cbn [orb] in HL. intros Hex.
  assert (H1 : (a, moved old new b) ∈ L') by (rewrite HL; apply list_elem_of_fmap; by exists (a, b)).
  assert (H2 : (a', moved old new b') ∈ L') by (rewrite HL; apply list_elem_of_fmap; by exists (a', b')).
  assert (E1 : moved old new b = with_local b new (local_port b)) by (unfold moved; by rewrite Eo, Z.eqb_refl).
  assert (E2 : moved old new b' = b') by (unfold moved; rewrite En; by rewrite (proj2 (Z.eqb_neq new old)) by congruence).
  rewrite E1 in H1. rewrite E2 in H2. apply (Hex _ _ _ _ H1 H2 Hne Ep). left. cbn. congruence.
Qed.
End Pcbs.

(** ** Witnesses: a pool of three control blocks *)

#[export] Instance pcb_pool : ElementPool memp_state :=
  memp_element_pool two_descs 0 (MempDesc 16 3 1000) two_descs_ok eq_refl.

Abbreviation udp_wire := (udp (St := pmem_state) (Lk := list (Z * Z * list Z)) (Pl := memp_state)).
Definition udp_on (n : net (St := pmem_state) (Lk := list (Z * Z * list Z))) : udp_wire := udp_init (Udp n ∅ NULL memp0 0) 12345.
Definition udp0 : udp_wire := udp_on (Net ps0 [] 0).

(** 192.168.1.2 and 192.168.1.3, in network byte order. *)
Definition host_a : Z := 0x0201a8c0.
Definition host_b : Z := 0x0301a8c0.

Lemma udp_on_inv n : udp_inv (udp_on n) [].
Proof.
  split.
  - done.
  - exists [[]; []], []. split; [exact memp0_rep|]. done.
  - intros a b Hb. cbn in Hb. by rewrite lookup_empty in Hb.
  - intros a b Hb. cbn in Hb. by rewrite lookup_empty in Hb.
  - vm_compute. intuition congruence.
Qed.

Lemma host_a_ok : is_u32 host_a.
Proof. vm_compute. intuition congruence. Qed.

Lemma host_b_ok : is_u32 host_b.
Proof. vm_compute. intuition congruence. Qed.

Lemma port_7400 : is_u16 7400.
Proof. vm_compute. intuition congruence. Qed.

(** A new control block on an interface without any. *)
Lemma udp_one n :
  exists pcb s, udp_new (udp_on n) = Ret (pcb, s) /\ udp_inv s [] /\ u_net s = n /\ u_pcbs s = {[pcb := new_pcb]} /\ pcb <> NULL.
Proof.
  destruct (new_spec (udp_on n) [] (udp_on_inv n)) as (pcb & s & E & HI & Hn & Hc). exists pcb, s. split; [exact E|]. split; [exact HI|]. split; [by rewrite Hn|].
  rewrite decide_True in Hc by (vm_compute; lia). destruct Hc as (H1 & _ & H2). split; [exact H2|exact H1].
Qed.

(** Two control blocks, bound to the same port with two addresses. *)
Lemma udp_two :
  exists (s : udp_wire) L a b a' b', udp_reachable udp0 s /\ udp_inv s L /\ exclusive L /\ (a, b) ∈ L /\ (a', b') ∈ L /\ a <> a'
    /\ local_ip b = host_a /\ local_ip b' = host_b /\ local_port b = 7400 /\ local_port b' = 7400.
Proof.
  destruct (udp_one (Net ps0 [] 0)) as (a & s1 & E1 & HI1 & Hn1 & Hst1 & Ha). destruct (new_spec s1 [] HI1) as (a' & s2 & E2 & HI2 & Hn2 & Hc).
  rewrite Hst1, map_size_singleton, decide_True in Hc by (vm_compute; lia). destruct Hc as (Ha' & Hnew & Hst2). rewrite lookup_singleton_None in Hnew.
  assert (Hl : u_pcbs s2 !! a = Some new_pcb) by (rewrite Hst2, lookup_insert_ne by congruence; apply lookup_singleton_eq).
  destruct (bind_spec s2 [] a new_pcb (Some host_a) 7400 HI2 Hl host_a_ok port_7400) as (e & s3 & E3 & Hr). cbn match in Hr.
  destruct Hr as [(_ & _ & _ & Hf)|(He & _ & q & n & Hst3 & HI3 & Hno & _ & _ & ->)]; [destruct Hf; intros c d Hcd; by apply not_elem_of_nil in Hcd|].
  rewrite He in E3. clear He. assert (Hl' : u_pcbs s3 !! a' = Some new_pcb) by (rewrite Hst3, lookup_insert_ne by congruence; rewrite Hst2; apply lookup_insert_eq).
  set (L3 := bound_list _ _ _ _ _ _) in HI3. cbn in L3.
  assert (Hno' : no_conflict L3 a' host_b 7400).
  { intros c d Hcd _ _ Ho. unfold L3, bound_list in Hcd. rewrite decide_False in Hcd by apply not_elem_of_nil. apply list_elem_of_singleton in Hcd. injection Hcd as -> ->.
    vm_compute in Ho. intuition congruence. }
  destruct (bind_spec s3 L3 a' new_pcb (Some host_b) 7400 HI3 Hl' host_b_ok port_7400) as (e' & s4 & E4 & Hr). cbn match in Hr.
  destruct Hr as [(_ & _ & _ & Hf)|(He & _ & q & n' & Hst4 & HI4 & _ & _ & _ & ->)]; [by destruct Hf|].
  rewrite He in E4. clear He. exists s4, (bound_list s3 L3 a' new_pcb host_b 7400), a, (with_pcb_next (with_local new_pcb host_a 7400) n), a', (with_pcb_next (with_local new_pcb host_b 7400) n').
  split.
  { apply (udp_reach_step _ s3 (OpBind a' (Some host_b) 7400)); [|split; [by eexists|split; [exact host_b_ok|exact port_7400]]|cbn [run_udp]; by rewrite E4].
    apply (udp_reach_step _ s2 (OpBind a (Some host_a) 7400)); [|split; [by eexists|split; [exact host_a_ok|exact port_7400]]|cbn [run_udp]; by rewrite E3].
    apply (udp_reach_step _ s1 OpNew); [|done|cbn [run_udp]; by rewrite E2]. apply (udp_reach_step _ udp0 OpNew); [constructor|done|cbn [run_udp]; unfold udp0; by rewrite E1]. }
  split; [exact HI4|]. split; [apply exclusive_bind; [apply exclusive_bind; [|done]|done]; intros c d c' d' Hcd; by apply not_elem_of_nil in Hcd|].
  assert (Hel : forall c x, u_pcbs s4 !! c = Some x -> local_port x <> 0 -> (c, x) ∈ bound_list s3 L3 a' new_pcb host_b 7400).
  { intros c x Hx Hp. apply (ui_elem s4 _ HI4); [done|]. by apply (ui_bound _ _ HI4 c x). }
  split; [apply Hel; [rewrite Hst4, lookup_insert_ne, Hst3 by congruence; apply lookup_insert_eq|done]|].
  split; [apply Hel; [rewrite Hst4; apply lookup_insert_eq|done]|]. split; [congruence|]. done.
Qed.

Lemma udp_new_port_correct_witness : exists port s', udp_new_port udp0 = Ret (port, s') /\ UDP_LOCAL_PORT_RANGE_START <= port <= UDP_LOCAL_PORT_RANGE_END.
Proof.
  destruct (udp_new_port_correct udp0 [] (udp_on_inv _)) as (port & s' & E & _ & [[Hp _]|(_ & _ & Hf)]); [|cbn in Hf; lia]. exists port, s'. split; [exact E|exact Hp].
Defined.

Lemma udp_bind_correct_witness : exists (s : udp_wire) pcb e s', udp_bind s pcb (Some host_a) 7400 = Ret (e, s') /\ e = ERR_OK.
Proof.
  destruct (udp_one (Net ps0 [] 0)) as (pcb & s & E1 & HI & _ & Hst & _).
  destruct (udp_bind_correct s [] pcb new_pcb (Some host_a) 7400 HI) as (e & s' & L' & E & _ & _ & [(_ & _ & _ & _ & Hf)|[He _]]).
  - rewrite Hst. apply lookup_singleton_eq.
  - exact host_a_ok.
  - exact port_7400.
  - destruct Hf. intros c d Hcd. by apply not_elem_of_nil in Hcd.
  - exists s, pcb, e, s'. split; [exact E|exact He].
Defined.

Lemma udp_reachable_safe_witness : exists (s s' : udp_wire) a, udp_remove s a = Ret s'.
Proof.
  destruct udp_two as (s & L & a & b & a' & b' & Hr & HI & _ & Ha & _).
  destruct (udp_reachable_safe udp0 [] s (OpRemove a) (udp_on_inv _) Hr) as (s' & L' & E & _); [exists b; exact (ui_lookup s L HI _ _ Ha)|].
  exists s, s', a. exact E.
Defined.

Lemma udp_exclusive_invariant_witness : exists (s s' : udp_wire) a L', udp_disconnect s a = Ret s' /\ udp_inv s' L' /\ exclusive L'.
Proof.
  destruct udp_two as (s & L & a & b & a' & b' & Hr & HI & Hex & Ha & _).
  destruct (udp_exclusive_invariant s L (OpDisconnect a) HI) as (s' & L' & E & HI' & Hex'); [exists b; exact (ui_lookup s L HI _ _ Ha)|exact Hex|done|].
  exists s, s', a, L'. split; [exact E|]. split; [exact HI'|exact Hex'].
Defined.

Lemma udp_addr_change_clash_witness :
  exists (s s' : udp_wire) L L', udp_inv s L /\ exclusive L /\ udp_netif_ip_addr_changed s host_a host_b = Ret s' /\ udp_inv s' L' /\ ~ exclusive L'.
Proof.
  destruct udp_two as (s & L & a & b & a' & b' & Hr & HI & Hex & Ha & Ha' & Hne & E1 & E2 & E3 & E4).
  destruct (udp_addr_change_clash s L host_a host_b a b a' b' HI Ha Ha' Hne E1 E2) as (s' & L' & E & HI' & Hex'); [congruence|vm_compute; congruence..|].
  exists s, s', L, L'. split; [exact HI|]. split; [exact Hex|]. split; [exact E|]. split; [exact HI'|exact Hex'].
Defined.
