(* ===== verification/UdpInput.v ===== *)
(** * Properties of UDP: receiving

    Which control block a datagram is for, and what udp_input does with it. *)

From S2P Require Import Prelude Def ListSeg InetChksum Ip4Addr Mem Memp Pbuf PbufMem PbufRef PbufChain PbufData Header Ip4 Ip4Frag Icmp IcmpSpec Udp UdpSpec.

#[local] Open Scope Z_scope.
#[local] Coercion Z.of_nat : nat >-> Z.

(** ** Specification: demultiplexing *)

Section Spec.
Context (ig : ip_globals) (inp : netif) (broadcast : bool) (src dest : Z).

(** The local end of the control block takes the datagram. *)
Definition local_end (x : Z * udp_pcb) : bool := (local_port x.2 =? dest) && udp_input_local_match ig x.2 inp broadcast.

(** Both ends match. *)
Definition full_match (x : Z * udp_pcb) : bool := local_end x && remote_match ig x.2 src.

Definition unconnected (x : Z * udp_pcb) : bool := local_end x && (Z.land (pcb_flags x.2) UDP_FLAGS_CONNECTED =? 0).

(** Bound to the address of the receiving interface. *)
Definition at_netif (x : Z * udp_pcb) : bool := ip4_addr_cmp (local_ip x.2) (netif_ip4_addr inp).

(** Sent to 255.255.255.255. *)
Definition limited : bool := broadcast && (current_iphdr_dest ig =? IPADDR_BROADCAST).

(** The unconnected control block that takes the datagram when no one matches fully:
    the first, but for a limited broadcast one at the interface's address is better. *)
Definition best_unconnected (L : list (Z * udp_pcb)) : option (Z * udp_pcb) :=
  let us := List.filter unconnected L in
  match (if limited then List.find at_netif us else None) with
  | Some x => Some x
  | None => head us
  end.

Definition receiver (L : list (Z * udp_pcb)) : option (Z * udp_pcb) :=
  match List.find full_match L with Some x => Some x | None => best_unconnected L end.

(** ** Lemmas: the loop *)

(** What a round does to uncon_pcb. *)
Definition uncon_step (u : option (Z * udp_pcb)) (x : Z * udp_pcb) : option (Z * udp_pcb) :=
  if unconnected x then
    match u with
    | None => Some x
    | Some y => if limited && (negb (at_netif y) && at_netif x) then Some x else Some y
    end
  else u.

Lemma body_eq pcb b d :
  demux_body ig inp broadcast src dest pcb b d =
  if full_match (pcb, b) then (Demux pcb (dm_prev d) (uncon_step (dm_uncon d) (pcb, b)), true)
  else (Demux NULL pcb (uncon_step (dm_uncon d) (pcb, b)), false).
Proof.
  unfold demux_body, full_match, uncon_step, unconnected, local_end, limited, at_netif. cbn [snd]. destruct (_ && udp_input_local_match _ _ _ _); [|done]. cbn [andb].
  destruct (Z.land _ _ =? 0); [|done]. destruct (dm_uncon d) as [[u ub]|]; done.
Qed.

Definition last_addr (prev : Z) (l : list (Z * udp_pcb)) : Z := default prev (fst <$> last l).

Lemma last_addr_cons prev x l : last_addr prev (x :: l) = last_addr x.1 l.
Proof. unfold last_addr. destruct l as [|y l]; [done|]. change (last (x :: y :: l)) with (last (y :: l)). destruct (last (y :: l)) eqn:E; [done|]. by apply last_None in E. Qed.

Lemma demux_none l prev u :
  Forall (λ x, full_match x = false) l ->
  loop_list (demux_body ig inp broadcast src dest) l (Demux NULL prev u) = Demux NULL (last_addr prev l) (fold_left uncon_step l u).
Proof.
  revert prev u. induction l as [|[p b] l IH]; intros prev u Hl; [done|]. apply Forall_cons in Hl as [Hx Hl]. cbn [loop_list fold_left].
  rewrite body_eq, Hx. cbn [dm_prev dm_uncon]. rewrite IH by done. by rewrite last_addr_cons.
Qed.

Lemma demux_some l1 p b l2 prev u :
  Forall (λ x, full_match x = false) l1 -> full_match (p, b) = true ->
  exists u', loop_list (demux_body ig inp broadcast src dest) (l1 ++ (p, b) :: l2) (Demux NULL prev u) = Demux p (last_addr prev l1) u'.
Proof.
  revert prev u. induction l1 as [|[q c] l IH]; intros prev u Hl Hx.
  - cbn [app loop_list]. rewrite body_eq, Hx. by eexists.
  - apply Forall_cons in Hl as [Hq Hl]. cbn [app loop_list]. rewrite body_eq, Hq. cbn [dm_prev dm_uncon]. rewrite last_addr_cons. by apply IH.
Qed.

Lemma find_split {A} (f : A -> bool) l :
  match List.find f l with
  | Some x => exists l1 l2, l = l1 ++ x :: l2 /\ Forall (λ y, f y = false) l1 /\ f x = true
  | None => Forall (λ y, f y = false) l
  end.
Proof.
  induction l as [|x l IH]; cbn; [constructor|]. destruct (f x) eqn:E; [by exists [], l; split_and!|].
  destruct (List.find f l) as [y|]; [|by constructor]. destruct IH as (l1 & l2 & -> & H1 & H2). exists (x :: l1), l2. split_and!; [done|by constructor|done].
Qed.

Lemma uncon_fold_some l y :
  fold_left uncon_step l (Some y) = if limited && negb (at_netif y) then Some (default y (List.find at_netif (List.filter unconnected l))) else Some y.
Proof.
  revert y. induction l as [|x l IH]; intros y; cbn [fold_left List.filter List.find]; [by case_if|]. unfold uncon_step at 2. destruct (unconnected x); [|by rewrite IH].
  destruct limited eqn:El; cbn [andb]; [|by rewrite IH]. cbn [List.find]. destruct (at_netif y) eqn:Ey, (at_netif x) eqn:Ex; cbn [negb andb]; rewrite IH, ?Ey, ?Ex; done.
Qed.

Lemma uncon_fold l : fold_left uncon_step l None = best_unconnected l.
Proof.
  unfold best_unconnected. induction l as [|x l IH]; cbn [fold_left List.filter]; [by case_if|]. unfold uncon_step at 2. destruct (unconnected x); [|done].
  rewrite uncon_fold_some. cbn [List.find head]. destruct limited; cbn [andb]; [|done]. destruct (at_netif x); cbn [negb]; [done|]. by destruct (List.find _ _).
Qed.
End Spec.

Section Input.
Context `{MO : MemOptions} {MOk : MemOptionsOk} `{PO : PbufOptions} {POk : PbufOptionsOk} {St : Type} `{!PacketMemory St} {Lk : Type} `{LL : !LinkLayer Lk St} {Pl : Type} `{EP : !ElementPool Pl}.
Abbreviation udp := (udp (St := St) (Lk := Lk) (Pl := Pl)).
Abbreviation inet := (net (St := St) (Lk := Lk)).

(** ** Lemmas: the front of the list *)

(** A control block is moved to the front of the list. *)
Lemma inv_front (s : udp) l1 prev pb pcb b l2 :
  udp_inv s (l1 ++ (prev, pb) :: (pcb, b) :: l2) ->
  let s' := with_head (set_pcb (set_pcb s prev (with_pcb_next pb (pcb_next b))) pcb (with_pcb_next b (udp_pcbs s))) pcb in
  udp_inv s' ((pcb, with_pcb_next b (udp_pcbs s)) :: l1 ++ (prev, with_pcb_next pb (pcb_next b)) :: l2).
Proof.
  intros HI s'. pose proof (ui_NoDup _ _ HI) as Hnd. pose proof HI as [H1 H2 H3 H4 H5]. apply lseg_app in H1 as (q & Hs1 & Hq). destruct Hq as (-> & Hpb & Hnx & Hb & Hs2).
  rewrite fmap_app in Hnd. cbn in Hnd. apply NoDup_app in Hnd as (Hnd1 & Hd & Hnd2).
  apply NoDup_cons in Hnd2 as [Hp1 Hnd2]. apply NoDup_cons in Hnd2 as [Hp2 Hnd2]. apply not_elem_of_cons in Hp1 as [Hpp Hp1].
  assert (Hl1 : prev ∉ l1.*1 /\ pcb ∉ l1.*1). { split; intros Hin; apply (Hd _ Hin); [by left|by right; left]. } destruct Hl1 as [Hl1 Hl1'].
  assert (Hst : forall a x, u_pcbs s' !! a = Some x -> exists y n, u_pcbs s !! a = Some y /\ x = with_pcb_next y n).
  { intros a x Hx. cbn in Hx. apply lookup_insert_Some in Hx as [[<- <-]|[Hne Hx]]; [by eexists _, _|]. apply lookup_insert_Some in Hx as [[<- <-]|[_ Hx]]; [by eexists _, _|].
    exists x, (pcb_next x). split; [done|by destruct x]. }
  split.
  - cbn. rewrite lookup_insert_eq. split; [done|]. split; [done|]. apply lseg_app. exists prev. split; [by repeat (apply lseg_insert; [|done])|]. cbn.
    rewrite lookup_insert_ne, lookup_insert_eq by congruence. split; [done|]. split; [done|]. by repeat (apply lseg_insert; [|done]).
  - cbn. eapply pool_holds_perm; [|exact H2]. symmetry. rewrite (keys_update _ pcb b); [by apply (keys_update _ prev pb)|]. by rewrite lookup_insert_ne by congruence.
  - intros a x Hx. destruct (Hst _ _ Hx) as (y & n & Hy & ->). apply pcb_ok_next. by eapply H3.
  - intros a x Hx. destruct (Hst _ _ Hx) as (y & n & Hy & ->). change (local_port (with_pcb_next y n)) with (local_port y). rewrite (H4 _ _ Hy). rewrite fmap_cons, !fmap_app. cbn. rewrite elem_of_cons, !elem_of_app, !elem_of_cons. tauto.
  - done.
Qed.

Section Demux.
Context (ig : ip_globals) (inp : netif) (broadcast : bool) (src dest : Z).
Abbreviation full := (full_match ig inp broadcast src dest).
Abbreviation rcv := (receiver ig inp broadcast src dest).

Lemma blocks_app l1 l2 : blocks (l1 ++ l2) = blocks l1 ++ blocks l2.
Proof. unfold blocks. by rewrite fmap_app. Qed.

Lemma blocks_cons p b l : blocks ((p, b) :: l) = (p, with_pcb_next b NULL) :: blocks l.
Proof. done. Qed.

Lemma demux_spec (s : udp) L :
  udp_inv s L ->
  exists s' L', udp_demux s ig inp broadcast src dest = Ret (default NULL (fst <$> rcv L), s') /\ udp_inv s' L' /\ u_net s' = u_net s
    /\ blocks L' = match List.find full L with Some x => blocks [x] ++ filter (λ y, y.1 <> x.1) (blocks L) | None => blocks L end
    /\ forall pcb b, rcv L = Some (pcb, b) -> exists n, u_pcbs s' !! pcb = Some (with_pcb_next b n).
Proof.
  intros HI. pose proof (ui_null _ _ HI) as Hnull. pose proof (ui_NoDup _ _ HI) as Hnd. unfold udp_demux. rewrite (for_pcbs_spec s L) by done. cbn [mbind outcome_bind]. pose proof (find_split full L) as Hf. unfold receiver.
  destruct (List.find full L) as [[p b]|].
  - destruct Hf as (l1 & l2 & HL & Hl1 & Hpb). destruct (demux_some ig inp broadcast src dest l1 p b l2 NULL None Hl1 Hpb) as (u & E). rewrite <- HL in E. rewrite E. cbn [dm_pcb dm_prev fmap option_fmap option_map default fst].
    assert (Hb : u_pcbs s !! p = Some b) by (apply (ui_lookup _ _ HI); rewrite HL; apply elem_of_app; right; by left).
    rewrite (proj2 (Z.eqb_neq p NULL)) by congruence. cbn [negb]. destruct (decide (l1 = [])) as [->|Hne].
    + cbn [last_addr last fmap option_fmap option_map default]. unfold last_addr. cbn. exists s, L. split; [done|]. do 2 (split; [done|]). split.
      * rewrite HL in Hnd |- *. cbn [app] in Hnd |- *. rewrite blocks_cons. rewrite filter_cons_False by (cbn; tauto). cbn in Hnd. apply NoDup_cons in Hnd as [Hno _]. by rewrite blocks_absent.
      * intros pcb b' [= <- <-]. exists (pcb_next b). rewrite Hb. by destruct b.
    + destruct (exists_last Hne) as (l0 & [prev pb] & ->). replace (last_addr NULL (l0 ++ [(prev, pb)])) with prev by (unfold last_addr; by rewrite last_snoc).
      rewrite <- app_assoc in HL. cbn [app] in HL. subst L.
      assert (Hpv : u_pcbs s !! prev = Some pb) by (apply (ui_lookup _ _ HI), elem_of_app; right; by left).
      rewrite (proj2 (Z.eqb_neq prev NULL)) by congruence. cbn [negb]. rewrite (pcb_at_ok s prev pb Hpv), (pcb_at_ok s p b Hb). cbn [mbind outcome_bind].
      eexists _, _. split; [reflexivity|]. split; [exact (inv_front s l0 prev pb p b l2 HI)|]. split; [done|]. split.
      * rewrite fmap_app in Hnd. cbn in Hnd. apply NoDup_app in Hnd as (_ & Hd & Hnd2). apply NoDup_cons in Hnd2 as [Hp1 Hnd2]. apply NoDup_cons in Hnd2 as [Hp2 Hnd2].
        apply not_elem_of_cons in Hp1 as [Hpp Hp1]. assert (Hl0 : p ∉ l0.*1) by (intros Hin; apply (Hd _ Hin); right; by left).
        rewrite !blocks_cons, !blocks_app, !blocks_cons, filter_app, filter_cons_True, filter_cons_False by (cbn; congruence || tauto). cbn [fst]. by rewrite !blocks_absent.
      * intros pcb b' [= <- <-]. exists (udp_pcbs s). cbn. apply lookup_insert_eq.
  - rewrite (demux_none ig inp broadcast src dest L NULL None Hf). cbn [dm_pcb dm_uncon]. rewrite Z.eqb_refl. cbn [negb]. rewrite uncon_fold. exists s, L.
    split; [by destruct (best_unconnected _ _ _ _ L) as [[u ub]|]|]. do 3 (split; [done|]). intros pcb b Hbest. exists (pcb_next b).
    assert (Hin : (pcb, b) ∈ L).
    { unfold best_unconnected in Hbest. assert (Hu : (pcb, b) ∈ List.filter (unconnected ig inp broadcast dest) L).
      { destruct (if limited _ _ then _ else _) as [y|] eqn:Ey.
        - injection Hbest as ->. destruct (limited _ _); [|done]. apply List.find_some in Ey as [Hin _]. by apply list_elem_of_In.
        - destruct (List.filter _ L); [done|]. injection Hbest as ->. by left. }
      apply list_elem_of_In in Hu. apply List.filter_In in Hu as [Hu _]. by apply list_elem_of_In. }
    rewrite (ui_lookup _ _ HI _ _ Hin). by destruct b.
Qed.
End Demux.

(** ** Specification: what becomes of a datagram *)

Definition be16 (d : list Z) : Z := match d with a :: b :: _ => 256 * a + b | _ => 0 end.

(** The checksum field is zero, or the checksum over the pseudo header and the datagram
    is right. *)
Definition valid_datagram (ig : ip_globals) (d : list Z) : Prop :=
  be16 (drop 6 d) = 0
  \/ rfc1071_checksum (pseudo_header (current_iphdr_src ig) (current_iphdr_dest ig) IP_PROTO_UDP (length d) ++ d) = 0.

#[export] Instance valid_datagram_dec ig d : Decision (valid_datagram ig d).
Proof. unfold valid_datagram. apply _. Defined.

Inductive verdict :=
  | VDrop
  | VDeliver (f arg pcb : Z)
  | VUnreachable.

Definition dest_broadcast (ig : ip_globals) : bool := ip4_addr_isbroadcast_u32 (current_iphdr_dest ig) (current_netif ig).

(** [first] is the number of bytes of the datagram [d] in the first pbuf. *)
Definition udp_verdict (ig : ip_globals) (inp : netif) (L : list (Z * udp_pcb)) (first : Z) (d : list Z) : verdict :=
  if first <? UDP_HLEN then VDrop
  else if decide (valid_datagram ig d) then
    match receiver ig inp (dest_broadcast ig) (be16 d) (be16 (drop 2 d)) L with
    | Some (pcb, b) => match recv b with Some f => VDeliver f (recv_arg b) pcb | None => VDrop end
    | None =>
        if (netif_ip4_addr inp =? current_iphdr_dest ig) && negb (dest_broadcast ig) && negb (ip4_addr_ismulticast (current_iphdr_dest ig))
        then VUnreachable else VDrop
    end
  else VDrop.

(** ** Lemmas: the header *)

Lemma htons_be16 d : Forall is_u8 d -> (2 <= length d)%nat -> lwip_htons (le_val (take 2 d)) = be16 d.
Proof.
  destruct d as [|x [|y d]]; cbn [length]; [lia|lia|]. rewrite !Forall_cons. intros (Hx & Hy & _) _. cbn [take le_val be16]. rewrite Z.mul_0_r, Z.add_0_r.
  rewrite htons_word by (unfold_c; lia). unfold_c. cbn. Z.div_mod_to_equations. lia.
Qed.

Lemma be16_zero d : Forall is_u8 d -> (2 <= length d)%nat -> le_val (take 2 d) = 0 <-> be16 d = 0.
Proof.
  destruct d as [|x [|y d]]; cbn [length]; [lia|lia|]. rewrite !Forall_cons. intros (Hx & Hy & _) _. cbn [take le_val be16]. rewrite Z.mul_0_r, Z.add_0_r. unfold_c. lia.
Qed.

(** The checks on the checksum in udp_input. *)
Lemma udp_check_spec (n : inet) B ext ig p b l :
  pbuf_inv (n_ps n) B ext -> chain (n_ps n) p ((p, b) :: l) -> 8 <= p_len b -> is_u32 (current_iphdr_src ig) -> is_u32 (current_iphdr_dest ig) ->
  let d := contents (data (n_ps n)) ((p, b) :: l) in
  Forall is_u8 d ->
  (if negb (udph_chksum (data (n_ps n)) (p_payload b) =? 0) then
     b ← deref (n_ps n) p;
     segs ← chain_segs (n_ps n) p;
     Ret (inet_chksum_pseudo segs IP_PROTO_UDP (p_tot_len b) (current_iphdr_src ig) (current_iphdr_dest ig) =? 0)
   else Ret true) = Ret (bool_decide (valid_datagram ig d)).
Proof.
  intros HI Hc Hl Hs Hd d H8. pose proof (chain_cons _ _ _ _ _ Hc) as (_ & Hb & _ & Hbl & Ht & Hut & Htl).
  assert (HLd : Z.of_nat (length d) = p_tot_len b).
  { unfold d. rewrite contents_length by (apply tot_ok_lens, Hc). symmetry. exact Ht. }
  assert (Hd6 : Forall is_u8 (drop 6 d)) by (by apply Forall_drop). assert (HL6 : (2 <= length (drop 6 d))%nat) by (rewrite length_drop; lia).
  pose proof (header_load (n_ps n) p b l 6 2 Hc ltac:(lia)) as E6. fold d in E6. unfold udph_chksum. change (p_payload b + 6) with (p_payload b + Z.of_nat 6). rewrite E6.
  unfold valid_datagram. destruct (Z.eqb_spec (le_val (take 2 (drop 6 d))) 0) as [E0|E0]; cbn [negb].
  - rewrite bool_decide_true; [done|]. left. by apply be16_zero.
  - rewrite (deref_ok _ _ _ Hb). cbn [mbind outcome_bind]. destruct (chain_segs_spec (n_ps n) B _ p _ HI Hc) as (segs & Es & Hseg & Hsok). rewrite Es. cbn [mbind outcome_bind].
    rewrite chksum_pseudo_rfc; [|by apply Hsok|unfold IP_PROTO_UDP; unfold_c; lia|done|done|done]. rewrite Hseg. fold d. rewrite <- HLd. f_equal.
    apply eq_true_iff_eq. rewrite Z.eqb_eq, bool_decide_eq_true. split; [by right|]. intros [Hz|]; [|done]. destruct E0. by apply be16_zero.
Qed.

(** ** Lemmas: handing over and answering *)

Lemma inv_with_net (s : udp) L n : udp_inv s L -> udp_inv (with_unet s n) L.
Proof. intros [H1 H2 H3 H4 H5]. by split. Qed.

Lemma input_free_spec (s : udp) L B ext p :
  udp_inv s L -> net_ok (u_net s) B (ext_add ext p) -> p <> NULL ->
  exists s' B', input_free s p = Ret s' /\ udp_inv s' L /\ net_ok (u_net s') B' ext /\ link_log (n_lk (u_net s')) = link_log (n_lk (u_net s)).
Proof.
  intros HI Hok Hp. destruct (net_free_spec (u_net s) B ext p Hok Hp) as (n' & B' & E & Hok' & Hlk & _). unfold input_free. rewrite E. cbn [mbind outcome_bind].
  exists (with_unet s n'), B'. split; [done|]. split; [by apply inv_with_net|]. split; [done|]. cbn. by rewrite Hlk.
Qed.

(** The packet after udp_input has taken the UDP header off. *)
Definition stripped (b : pbuf) : pbuf := with_tot_len (with_len (with_payload b (p_payload b + UDP_HLEN)) (p_len b - UDP_HLEN)) (p_tot_len b - UDP_HLEN).

(** The answer to a datagram for a port that no one has. *)
Definition port_error (ns : netifs) (n : inet) (from : Z) (orig : list Z) (fs : list (Z * Z * list Z)) : Prop :=
  match ip4_route ns from with
  | None => fs = []
  | Some nif =>
      heap_full (n_ps n) PBUF_IP 36 /\ fs = []
      \/ exists hchk chk, let hdr := ip_header 20 0 56 (ip_id n) 0 ICMP_TTL IP_PROTO_ICMP hchk (netif_ip4_addr nif) from in
           fs = [(netif_num nif, from, hdr ++ icmp_error ICMP_DUR ICMP_DUR_PORT chk orig)]
           /\ inet_chksum 0 hdr = 0 /\ inet_chksum 0 (icmp_error ICMP_DUR ICMP_DUR_PORT chk orig) = 0
  end.

(** The IP header of the datagram is in front of it. *)
Record behind_header (n : inet) (p : Z) (b : pbuf) (hlen : Z) : Prop := BehindHeader {
  bh_hlen : 20 <= hlen;
  bh_room : p + SIZEOF_STRUCT_PBUF <= p_payload b - hlen;
  bh_tot : p_tot_len b + hlen < 65536;
  bh_bytes : Forall is_u8 (read_bytes (data (n_ps n)) (p_payload b - hlen) (Z.to_nat hlen))
}.

Lemma unreach_spec ns (n : inet) B ext p b l hlen :
  net_ok n B (ext_add ext p) -> chain (n_ps n) p ((p, b) :: l) -> p <> NULL -> own_data ((p, b) :: l) -> 8 <= p_len b -> behind_header n p b hlen ->
  let d := contents (data (n_ps n)) ((p, b) :: l) in
  let from := iph_src (data (n_ps n)) (p_payload b - hlen) in
  Forall is_u8 d -> (forall nif, ip4_route ns from = Some nif -> can_send nif 56) ->
  exists s1 n1 n' B' fs,
    pbuf_header_force (set_pbuf (n_ps n) p (stripped b)) p (hlen + UDP_HLEN) = Ret (0, s1)
    /\ icmp_dest_unreach ns (with_ps n s1) p ICMP_DUR_PORT = Ret n1 /\ net_free n1 p = Ret n' /\ net_ok n' B' ext
    /\ link_log (n_lk n') = link_log (n_lk n) ++ fs /\ pmem s1 = pmem (n_ps n)
    /\ port_error ns (with_ps n s1) from (take 28 (read_bytes (data (n_ps n)) (p_payload b - hlen) (Z.to_nat hlen) ++ d)) fs.
Proof.
  intros [HI Hid] Hc Hp Hown Hl [Hh Hroom Htot Hh8] d from H8 Hsend. pose proof (chain_cons _ _ _ _ _ Hc) as (_ & Hb & _ & Hbl & Ht & Hut & Htl).
  apply Forall_cons in Hown as [[Hcg Hcu] Hown]. cbn in Hcg, Hcu.
  pose proof (remove_header_spec (n_ps n) B _ p b l UDP_HLEN HI Hc ltac:(unfold UDP_HLEN; lia)) as (_ & Hc1 & HI1 & Hcon1). fold (stripped b) in Hc1, HI1, Hcon1.
  pose proof (add_header_spec _ B _ p (stripped b) l (hlen + 8) true HI1 Hc1 ltac:(unfold_c; lia)) as Ha. cbn zeta in Ha.
  assert (Hok : (hlen + 8 =? 0) || ((p_tot_len (stripped b) + (hlen + 8) <? 65536)
    && (if is_contiguous (stripped b) then p + SIZEOF_STRUCT_PBUF <=? p_payload (stripped b) - (hlen + 8) else true)) = true).
  { change (is_contiguous (stripped b)) with (is_contiguous b). rewrite Hcg. cbn [p_tot_len p_payload stripped with_tot_len with_len with_payload]. unfold UDP_HLEN.
    apply orb_true_intro. right. apply andb_true_iff. rewrite Z.ltb_lt, Z.leb_le. clear - Htot Hroom. lia. }
  change (hlen + UDP_HLEN) with (hlen + 8). rewrite Hok in Ha. destruct Ha as (Ea & Hc2 & HI2 & Hcon2). set (b2 := with_tot_len _ _) in Ea, Hc2, HI2, Hcon2.
  assert (Hb2 : p_payload b2 = p_payload b - hlen /\ p_len b2 = p_len b + hlen) by (unfold b2, stripped, UDP_HLEN; cbn; lia). destruct Hb2 as [Epay Elen].
  set (s1 := set_pbuf _ p b2) in *. assert (Hb2 : pbufs s1 !! p = Some b2) by (apply lookup_insert_eq).
  destruct (own_block s1 B _ p b2 28 HI2 Hb2 Hcg Hcu ltac:(lia)) as (k & Hk & R1 & R2).
  assert (Eo : read_bytes (data s1) (p_payload b2) 28 = take 28 (read_bytes (data (n_ps n)) (p_payload b - hlen) (Z.to_nat hlen) ++ d)).
  { unfold d. rewrite contents_cons. unfold node_bytes. cbn [snd]. rewrite Epay. change (data s1) with (data (n_ps n)). rewrite app_assoc, take_app_le by (rewrite length_app, !read_bytes_length; lia).
    rewrite !read_bytes_range, <- fmap_app. replace (p_payload b) with (p_payload b - hlen + Z.to_nat hlen) at 3 by lia. rewrite <- range_app, <- fmap_take, range_take by lia. done. }
  destruct (response_spec ns (with_ps n s1) B (ext_add ext p) p b2 k ICMP_DUR ICMP_DUR_PORT) as (n1 & B1 & fs & E1 & Hok1 & Hlog1 & Hfs); try done.
  - cbn [n_ps with_ps]. rewrite Eo. apply Forall_take, Forall_app. by split.
  - cbn [n_ps with_ps]. rewrite Epay. exact Hsend.
  - destruct (net_free_spec n1 B1 ext p Hok1 Hp) as (n' & B' & E & Hok' & Hlk & _). exists s1, n1, n', B', fs. split; [|split; [exact E1|split; [exact E|split; [exact Hok'|split]]]].
    + unfold pbuf_header_force, pbuf_header_impl. rewrite (proj2 (Z.ltb_ge _ _)) by lia. exact Ea.
    + by rewrite Hlk, Hlog1.
    + split; [done|]. unfold port_error. cbn [n_ps with_ps] in Hfs. rewrite Eo, Epay in Hfs. exact Hfs.
Qed.

Lemma udp_input_ports (n : inet) p b l :
  chain (n_ps n) p ((p, b) :: l) -> 8 <= p_len b ->
  let d := contents (data (n_ps n)) ((p, b) :: l) in
  Forall is_u8 d ->
  lwip_htons (udph_src (data (n_ps n)) (p_payload b)) = be16 d /\ lwip_htons (udph_dest (data (n_ps n)) (p_payload b)) = be16 (drop 2 d).
Proof.
  intros Hc Hl d H8. pose proof (chain_cons _ _ _ _ _ Hc) as (_ & _ & _ & _ & Ht & _ & Htl).
  assert (HLd : Z.of_nat (length d) = p_tot_len b) by (unfold d; rewrite contents_length by (apply tot_ok_lens, Hc); symmetry; exact Ht).
  pose proof (header_load (n_ps n) p b l 0 2 Hc ltac:(lia)) as E0. pose proof (header_load (n_ps n) p b l 2 2 Hc ltac:(lia)) as E2. fold d in E0, E2.
  change (Z.of_nat 0) with 0 in E0. rewrite Z.add_0_r in E0. change (Z.of_nat 2) with 2 in E2. unfold udph_src, udph_dest. rewrite E0, E2.
  split; apply htons_be16; [done|lia|by apply Forall_drop|rewrite length_drop; lia].
Qed.

(** The list after a datagram: a control block that matches fully comes to the front. *)
Definition fronted (ig : ip_globals) (inp : netif) (first : Z) (d : list Z) (L L' : list (Z * udp_pcb)) : Prop :=
  blocks L' =
    match List.find (full_match ig inp (dest_broadcast ig) (be16 d) (be16 (drop 2 d))) L with
    | Some x => if first <? UDP_HLEN then blocks L else blocks [x] ++ filter (λ y, y.1 <> x.1) (blocks L)
    | None => blocks L
    end.

(** What udp_input does with a datagram. *)
Lemma udp_input_spec recv_fn ns (s : udp) L B ext ig p b l inp :
  udp_inv s L -> net_ok (u_net s) B (ext_add ext p) -> chain (n_ps (u_net s)) p ((p, b) :: l) -> p <> NULL -> own_data ((p, b) :: l) ->
  let hlen := current_ip_header_tot_len ig in
  behind_header (u_net s) p b hlen -> is_u32 (current_iphdr_src ig) -> is_u32 (current_iphdr_dest ig) ->
  let d := contents (data (n_ps (u_net s))) ((p, b) :: l) in
  let h := read_bytes (data (n_ps (u_net s))) (p_payload b - hlen) (Z.to_nat hlen) in
  let from := iph_src (data (n_ps (u_net s))) (p_payload b - hlen) in
  Forall is_u8 d -> (forall nif, ip4_route ns from = Some nif -> can_send nif 56) ->
  exists s' L', udp_inv s' L' /\ fronted ig inp (p_len b) d L L'
    /\ match udp_verdict ig inp L (p_len b) d with
       | VDeliver f arg pcb =>
           exists b', udp_input recv_fn ns s ig p inp = recv_fn f arg pcb p (current_iphdr_src ig) (be16 d) s'
             /\ net_ok (u_net s') B (ext_add ext p) /\ n_lk (u_net s') = n_lk (u_net s)
             /\ chain (n_ps (u_net s')) p ((p, b') :: l) /\ contents (data (n_ps (u_net s'))) ((p, b') :: l) = drop 8 d
       | VUnreachable =>
           udp_input recv_fn ns s ig p inp = Ret s'
             /\ exists B' fs n1, net_ok (u_net s') B' ext /\ link_log (n_lk (u_net s')) = link_log (n_lk (u_net s)) ++ fs
                  /\ ip_id n1 = ip_id (u_net s) /\ pmem (n_ps n1) = pmem (n_ps (u_net s)) /\ port_error ns n1 from (take 28 (h ++ d)) fs
       | VDrop =>
           udp_input recv_fn ns s ig p inp = Ret s'
             /\ exists B', net_ok (u_net s') B' ext /\ link_log (n_lk (u_net s')) = link_log (n_lk (u_net s))
       end.
Proof.
  intros HI Hok Hc Hp Hown hlen Hbh Hs Hde d h from H8 Hsend. pose proof (chain_cons _ _ _ _ _ Hc) as (_ & Hb & _ & Hbl & Ht & Hut & Htl).
  unfold udp_input, udp_verdict, fronted. rewrite LWIP_ASSERT_ok by (by apply negb_true_iff, Z.eqb_neq). cbn [mbind outcome_bind]. rewrite (deref_ok _ _ _ Hb). cbn [mbind outcome_bind].
  destruct (Z.ltb_spec (p_len b) UDP_HLEN) as [Hshort|Hlen].
  { destruct (input_free_spec s L B ext p HI Hok Hp) as (s' & B' & E & HI' & Hok' & Hlog). rewrite E. exists s', L. split; [done|]. split; [by destruct (List.find _ _)|]. split; [done|]. by exists B'. }
  unfold UDP_HLEN in Hlen. destruct (udp_input_ports (u_net s) p b l Hc Hlen H8) as [Esrc Edest]. cbv zeta in Esrc, Edest. fold d in Esrc, Edest. cbv zeta. rewrite Esrc, Edest. fold (dest_broadcast ig).
  set (bc := dest_broadcast ig). set (src := be16 d). set (dest := be16 (drop 2 d)).
  destruct (demux_spec ig inp bc src dest s L HI) as (s1 & L1 & E1 & HI1 & En & Hbk & Hpcb). rewrite E1. cbn [mbind outcome_bind].
  pose proof (udp_check_spec (u_net s) B _ ig p b l (proj1 Hok) Hc Hlen Hs Hde H8) as Hchk. cbv zeta in Hchk. fold d in Hchk.
  assert (Hfree : forall s0, udp_inv s0 L1 -> u_net s0 = u_net s \/ u_net s0 = with_ps (u_net s) (set_pbuf (n_ps (u_net s)) p (stripped b)) ->
    exists s' B', input_free s0 p = Ret s' /\ udp_inv s' L1 /\ net_ok (u_net s') B' ext /\ link_log (n_lk (u_net s')) = link_log (n_lk (u_net s))).
  { intros s0 HI0 H0. destruct (input_free_spec s0 L1 B ext p HI0) as (s' & B' & E & H1 & H2 & H3); [|done|].
    - destruct H0 as [->| ->]; [done|]. split; [|apply Hok]. apply (remove_header_spec _ B _ p b l UDP_HLEN (proj1 Hok) Hc). unfold UDP_HLEN. lia.
    - exists s', B'. do 3 (split; [done|]). rewrite H3. by destruct H0 as [->| ->]. }
  assert (Hrm := remove_header_spec (n_ps (u_net s)) B _ p b l UDP_HLEN (proj1 Hok) Hc ltac:(unfold UDP_HLEN; lia)). cbn zeta in Hrm. fold (stripped b) in Hrm.
  destruct Hrm as (Erm & Hc2 & HI2 & Hcon2). unfold udp_deliver. rewrite En, Hchk, Erm. cbn [mbind outcome_bind].
  assert (HI2' : udp_inv (with_unet s1 (with_ps (u_net s) (set_pbuf (n_ps (u_net s)) p (stripped b)))) L1) by (by apply inv_with_net).
  assert (Hdrop : forall s0, udp_inv s0 L1 -> u_net s0 = u_net s \/ u_net s0 = with_ps (u_net s) (set_pbuf (n_ps (u_net s)) p (stripped b)) ->
    exists s' L', udp_inv s' L' /\ blocks L' = blocks L1 /\ input_free s0 p = Ret s' /\ exists B', net_ok (u_net s') B' ext /\ link_log (n_lk (u_net s')) = link_log (n_lk (u_net s))).
  { intros s0 H0 H0'. destruct (Hfree s0 H0 H0') as (s' & B' & E & H1 & H2 & H3). exists s', L1. do 3 (split; [done|]). by exists B'. }
  rewrite <- Hbk.
  destruct (receiver ig inp bc src dest L) as [[pcb pb]|] eqn:Er.
  - change (default NULL (fst <$> Some (pcb, pb))) with pcb. destruct (Hpcb pcb pb eq_refl) as (nx & Hlook). pose proof (ui_null _ _ HI1) as Hnull. rewrite (proj2 (Z.eqb_neq pcb NULL)) by congruence. cbn [negb orb].
    destruct (decide (valid_datagram ig d)) as [Hv|Hv]; [rewrite bool_decide_true by done|rewrite bool_decide_false by done; cbn [negb]; by apply Hdrop; [|left]]. cbn [negb Z.eqb].
    rewrite (pcb_at_ok _ pcb (with_pcb_next pb nx)) by exact Hlook. cbn [mbind outcome_bind recv recv_arg with_pcb_next].
    destruct (recv pb) as [f|]; [|by apply Hdrop; [|right]]. eexists _, L1. split; [exact HI2'|]. split; [done|]. exists (stripped b). split; [done|]. cbn [u_net with_unet n_ps n_lk with_ps].
    split; [split; [exact HI2|apply Hok]|]. split; [done|]. split; [exact Hc2|exact Hcon2].
  - change (default NULL (fst <$> @None (Z * udp_pcb))) with NULL. rewrite Z.eqb_refl. cbn [negb orb]. unfold ip4_addr_cmp. destruct (netif_ip4_addr inp =? current_iphdr_dest ig); cbn [andb].
    2:{ destruct (decide (valid_datagram ig d)); by apply Hdrop; [|left]. }
    destruct (decide (valid_datagram ig d)) as [Hv|Hv]; [rewrite bool_decide_true by done|rewrite bool_decide_false by done; cbn [negb]; by apply Hdrop; [|left]]. cbn [negb Z.eqb].
    fold bc. destruct (negb bc && negb (ip4_addr_ismulticast (current_iphdr_dest ig))); cbn [mbind outcome_bind]; [|by apply Hdrop; [|right]].
    destruct (unreach_spec ns (u_net s) B ext p b l hlen Hok Hc Hp Hown Hlen Hbh H8 Hsend) as (sf & n1 & n' & B' & fs & Ef & Ei & Efr & Hok' & Hlog & Hpm & Herr).
    cbn [u_net with_unet n_ps with_ps]. fold hlen. rewrite Ef. cbn [mbind outcome_bind]. change (with_ps (with_ps (u_net s) _) sf) with (with_ps (u_net s) sf). rewrite Ei. cbn [mbind outcome_bind].
    unfold input_free. cbn [u_net with_unet]. rewrite Efr. cbn [mbind outcome_bind]. eexists _, L1. split; [|split; [done|split; [reflexivity|]]].
    + do 2 apply inv_with_net. exact HI2'.
    + exists B', fs, (with_ps (u_net s) sf). done.
Qed.

(** ** Theorems *)

(** C17: What udp_input does with a datagram is decided by its verdict on the list of
    control blocks (the first that matches both ends, else the best unconnected one, and
    the checksum).  A datagram for a control block with a callback is handed to the
    callback without its UDP header, with the sender's address and port; one for a port
    that no one has is answered with an ICMP port unreachable that quotes its IP header
    and first 8 bytes, but not if it was sent to a broadcast or multicast address; any
    other is dropped and its packet freed.  The list keeps its control blocks. *)
Theorem udp_input_correct recv_fn ns (s : udp) L B ext ig p b l inp :
  udp_inv s L -> net_ok (u_net s) B (ext_add ext p) -> chain (n_ps (u_net s)) p ((p, b) :: l) -> p <> NULL -> own_data ((p, b) :: l) ->
  let hlen := current_ip_header_tot_len ig in
  behind_header (u_net s) p b hlen -> is_u32 (current_iphdr_src ig) -> is_u32 (current_iphdr_dest ig) ->
  let d := contents (data (n_ps (u_net s))) ((p, b) :: l) in
  let h := read_bytes (data (n_ps (u_net s))) (p_payload b - hlen) (Z.to_nat hlen) in
  let from := iph_src (data (n_ps (u_net s))) (p_payload b - hlen) in
  Forall is_u8 d -> (forall nif, ip4_route ns from = Some nif -> can_send nif 56) ->
  exists s' L', udp_inv s' L' /\ fronted ig inp (p_len b) d L L'
    /\ match udp_verdict ig inp L (p_len b) d with
       | VDeliver f arg pcb =>
           exists b', udp_input recv_fn ns s ig p inp = recv_fn f arg pcb p (current_iphdr_src ig) (be16 d) s'
             /\ net_ok (u_net s') B (ext_add ext p) /\ n_lk (u_net s') = n_lk (u_net s)
             /\ chain (n_ps (u_net s')) p ((p, b') :: l) /\ contents (data (n_ps (u_net s'))) ((p, b') :: l) = drop 8 d
       | VUnreachable =>
           udp_input recv_fn ns s ig p inp = Ret s'
             /\ exists B' fs n1, net_ok (u_net s') B' ext /\ link_log (n_lk (u_net s')) = link_log (n_lk (u_net s)) ++ fs
                  /\ ip_id n1 = ip_id (u_net s) /\ pmem (n_ps n1) = pmem (n_ps (u_net s)) /\ port_error ns n1 from (take 28 (h ++ d)) fs
       | VDrop =>
           udp_input recv_fn ns s ig p inp = Ret s'
             /\ exists B', net_ok (u_net s') B' ext /\ link_log (n_lk (u_net s')) = link_log (n_lk (u_net s))
       end.
Proof. apply udp_input_spec. Qed.
End Input.

(** ** Witnesses *)

(** A datagram of 100 bytes without a checksum, from port 7401 to port 7400, behind its
    IP header in the packet in RAM of PbufChain.v. *)
Definition dgram_net : net (Lk := list (Z * Z * list Z)) :=
  Net (with_data ps2 (write_bytes (write_bytes ∅ (echo_at - 20) iphdr0) echo_at [0x1c; 0xe9; 0x1c; 0xe8; 0; 100; 0; 0])) [] 0.

(** A callback that leaves the packet to the application. *)
Definition keep_packet : Z -> Z -> Z -> Z -> Z -> Z -> udp_wire -> outcome udp_wire := λ _ _ _ _ _ _ s, Ret s.

Lemma dgram_bytes : bytes_ok (data (n_ps dgram_net)).
Proof.
  change (bytes_ok (write_bytes (write_bytes ∅ (echo_at - 20) iphdr0) echo_at [0x1c; 0xe9; 0x1c; 0xe8; 0; 100; 0; 0])).
  assert (H0 : bytes_ok ∅) by (intros a; vm_compute; intuition congruence).
  assert (H1 : Forall is_u8 iphdr0) by (apply (bool_decide_unpack _); vm_compute; exact I).
  assert (H2 : Forall is_u8 [0x1c; 0xe9; 0x1c; 0xe8; 0; 100; 0; 0]) by (apply (bool_decide_unpack _); vm_compute; exact I).
  apply bytes_ok_write; [apply bytes_ok_write; [exact H0|exact H1]|exact H2].
Qed.

(** A control block with a callback, bound to port 7400. *)
Lemma udp_listening n :
  exists (s : udp_wire) pcb nx, u_net s = n /\ udp_inv s [(pcb, with_pcb_next (with_local (with_recv new_pcb (Some 1) 2) host_a 7400) nx)].
Proof.
  destruct (udp_one n) as (pcb & s1 & _ & HI1 & Hn1 & Hst1 & Hp). assert (Hl : u_pcbs s1 !! pcb = Some new_pcb) by (rewrite Hst1; apply lookup_singleton_eq).
  destruct (recv_spec s1 [] pcb new_pcb (Some 1) 2 HI1 Hl) as (s2 & _ & (HI2 & Hn2 & _) & Hst2). cbn [upd fmap list_fmap] in HI2.
  assert (Hl2 : u_pcbs s2 !! pcb = Some (with_recv new_pcb (Some 1) 2)) by (rewrite Hst2; apply lookup_insert_eq).
  destruct (bind_spec s2 [] pcb _ (Some host_a) 7400 HI2 Hl2 host_a_ok port_7400) as (e & s3 & _ & Hr). cbn match in Hr.
  destruct Hr as [(_ & _ & _ & Hf)|(_ & Hn3 & q & nx & _ & HI3 & _ & _ & _ & ->)]; [destruct Hf; intros c d Hcd; by apply not_elem_of_nil in Hcd|].
  exists s3, pcb, (udp_pcbs s2). split; [congruence|]. unfold bound_list in HI3. rewrite decide_False in HI3 by apply not_elem_of_nil. exact HI3.
Qed.

Lemma dgram_route : ip4_route netifs0 (iph_src (data (n_ps dgram_net)) (p2 + SIZEOF_STRUCT_PBUF + 54 - current_ip_header_tot_len echo_ig)) = Some nif0.
Proof. vm_compute. reflexivity. Qed.

Lemma dgram_verdict pcb nx :
  udp_verdict echo_ig nif0 [(pcb, with_pcb_next (with_local (with_recv new_pcb (Some 1) 2) host_a 7400) nx)] 100
    (read_bytes (data (n_ps dgram_net)) (p2 + SIZEOF_STRUCT_PBUF + 54) (Z.to_nat 100)) = VDeliver 1 2 pcb.
Proof. vm_compute. reflexivity. Qed.

Lemma nif0_sends : can_send nif0 56.
Proof. split; [vm_compute; intuition congruence|right; vm_compute; congruence]. Qed.

Lemma udp_input_correct_witness :
  exists (s s' : udp_wire), u_net s = dgram_net /\ udp_input keep_packet netifs0 s echo_ig p2 nif0 = Ret s' /\ exists B, net_ok (u_net s') B (ext_add (ext_add no_ext p1) p2).
Proof.
  destruct ps2_inv as (B & b1 & a2 & b2 & b & HI & _ & Hc2 & _ & _ & _ & _ & _ & L & R & T & C & P & Ho).
  destruct (udp_listening dgram_net) as (s & pcb & nx & En & Hinv).
  destruct (udp_input_correct keep_packet netifs0 s _ B (ext_add no_ext p1) echo_ig p2 b [] nif0 Hinv) as (s' & L' & _ & _ & Hv).
  - rewrite En. split; [|vm_compute; intuition congruence]. eapply inv_ext_eq; [|apply inv_data; exact HI]. intros a _. cbn [link_holds wire]. lia.
  - rewrite En. exact Hc2.
  - vm_compute. congruence.
  - apply Forall_cons in Ho as [_ Ho]. apply Forall_cons in Ho as [_ Ho]. exact Ho.
  - rewrite En. split; change (current_ip_header_tot_len echo_ig) with 20; [lia|rewrite P; lia|rewrite T; lia|]. apply bytes_ok_read, dgram_bytes.
  - vm_compute. intuition congruence.
  - vm_compute. intuition congruence.
  - rewrite En, contents_cons, app_nil_r. apply bytes_ok_read, dgram_bytes.
  - intros nif Hn. rewrite En, P, dgram_route in Hn. injection Hn as <-. exact nif0_sends.
  - rewrite En, contents_cons, app_nil_r, L in Hv. unfold node_bytes in Hv. cbn [snd] in Hv. rewrite P, L, dgram_verdict in Hv.
    destruct Hv as (b' & E & Hok & _). exists s, s'. split; [exact En|]. split; [exact E|]. exists B. exact Hok.
Defined.
