(* ===== verification/UdpOutput.v ===== *)
(** * Properties of UDP: sending

    What udp_sendto_if_src puts on the wire, with the UDP header in the packet itself or
    in a pbuf of its own, and that udp_input accepts it. *)

From S2P Require Import Prelude Def ListSeg InetChksum Ip4Addr Mem Memp Pbuf PbufMem PbufRef PbufChain PbufData Header Ip4 Ip4Frag Icmp IcmpSpec Udp UdpSpec UdpInput.

#[local] Open Scope Z_scope.
#[local] Coercion Z.of_nat : nat >-> Z.

(** ** Specification *)

(** The UDP header (RFC 768); the checksum is stored as computed. *)
Definition udp_header (sport dport len chk : Z) : list Z :=
  [sport / 256; sport mod 256; dport / 256; dport mod 256; len / 256; len mod 256; chk mod 256; chk / 256].

(** A checksum that is not zero and right, or zero for a control block without
    checksums. *)
Definition checksum_ok (b : udp_pcb) (src dst chk : Z) (d : list Z) : Prop :=
  if Z.land (pcb_flags b) UDP_FLAGS_NOCHKSUM =? 0
  then chk <> 0 /\ rfc1071_checksum (pseudo_header src dst IP_PROTO_UDP (length d) ++ d) = 0
  else chk = 0.

(** ** Lemmas: the header *)

Lemma udp_header_bytes sport dport len chk :
  is_u16 sport -> is_u16 dport -> is_u16 len -> is_u16 chk -> Forall is_u8 (udp_header sport dport len chk).
Proof. intros. unfold udp_header. rewrite !Forall_cons. unfold_c. split_and!; try constructor; Z.div_mod_to_equations; lia. Qed.

Lemma udp_header_stores m x sport dport len :
  is_u16 sport -> is_u16 dport -> is_u16 len ->
  let m1 := udph_chksum_set (udph_dest_set (udph_src_set m x (lwip_htons sport)) x (lwip_htons dport)) x 0 in
  let m2 := udph_len_set m1 x (lwip_htons len) in
  (forall chk, is_u16 chk -> read_bytes (udph_chksum_set m2 x chk) x 8 = udp_header sport dport len chk)
  /\ read_bytes m2 x 8 = udp_header sport dport len 0
  /\ forall y, ~ (x <= y < x + 8) -> byte m2 y = byte m y /\ forall chk, byte (udph_chksum_set m2 x chk) y = byte m y.
Proof.
  intros Hs Hd Hl m1 m2. assert (E2 : read_bytes m2 x 8 = udp_header sport dport len 0).
  { unfold m2, m1, udph_len_set, udph_chksum_set, udph_dest_set, udph_src_set. do 3 rewrite read_store_at by lia. rewrite read_store_0 by lia.
    assert (HL : length (read_bytes m x 8) = 8%nat) by apply read_bytes_length. clear -HL Hs Hd Hl. generalize dependent (read_bytes m x 8). intros q HL. explode 8 q HL.
    splices. rewrite !htons_word by done. cbn [word_sum]. unfold udp_header. repeat match goal with |- _ :: _ = _ :: _ => apply f_equal2 end; try done; wrap_solve. }
  split; [|split; [exact E2|]].
  - intros chk Hc. unfold udph_chksum_set at 1. rewrite read_store_at, E2 by lia. unfold udp_header. splices.
    repeat match goal with |- _ :: _ = _ :: _ => apply f_equal2 end; try done; wrap_solve.
  - intros y Hy. assert (E : byte m2 y = byte m y) by (unfold m2, m1, udph_len_set, udph_chksum_set, udph_dest_set, udph_src_set; by rewrite !byte_store by lia).
    split; [exact E|]. intros chk. unfold udph_chksum_set at 1. by rewrite byte_store by lia.
Qed.

(** The checksum makes the datagram valid; 0 is sent as 0xffff. *)
Lemma udp_checksum_valid pre sport dport len d :
  is_u16 sport -> is_u16 dport -> is_u16 len -> Forall is_u8 pre -> length pre mod 2 = 0 -> Forall is_u8 d ->
  let c := rfc1071_checksum (pre ++ udp_header sport dport len 0 ++ d) in
  let chk := if c =? 0 then 0xffff else c in
  is_u16 chk /\ chk <> 0 /\ rfc1071_checksum (pre ++ udp_header sport dport len chk ++ d) = 0.
Proof.
  intros Hs Hd Hl Hp He H8 c chk. pose proof (word_sum_nonneg pre Hp) as Wp. pose proof (word_sum_nonneg d H8) as Wd.
  assert (Hb : forall k, is_u16 k -> Forall is_u8 (pre ++ udp_header sport dport len k ++ d)).
  { intros k Hk. rewrite !Forall_app. split_and!; [done|by apply udp_header_bytes|done]. }
  assert (Ew : forall k, is_u16 k -> word_sum (pre ++ udp_header sport dport len k ++ d) = word_sum (pre ++ udp_header sport dport len 0 ++ d) + k).
  { intros k Hk. rewrite !word_sum_app_even by done. unfold udp_header. cbn [app word_sum]. change (0 mod 256) with 0. change (0 / 256) with 0. wrap_solve. }
  pose proof (word_sum_nonneg _ (Hb 0 ltac:(unfold_c; lia))) as W0. set (w := word_sum (pre ++ udp_header sport dport len 0 ++ d)) in *.
  assert (Ec : c = 65535 - oc_norm w) by done. assert (Hr : is_u16 (oc_norm w)) by (by apply oc_norm_range).
  assert (Hchk : is_u16 chk /\ chk <> 0) by (unfold chk; destruct (Z.eqb_spec c 0); unfold_c; lia). destruct Hchk as [H1 H2]. split; [done|]. split; [done|].
  apply rfc_valid; [by apply Hb|]. rewrite Ew by done. unfold oc_norm in Ec. clear Hb Ew Hr. unfold chk in *.
  destruct (Z.eqb_spec w 0) as [E|E], (Z.eqb_spec c 0) as [E0|E0]; Z.div_mod_to_equations; lia.
Qed.

Section Output.
Context `{MO : MemOptions} {MOk : MemOptionsOk} `{PO : PbufOptions} {POk : PbufOptionsOk} {St : Type} `{!PacketMemory St} {Lk : Type} `{LL : !LinkLayer Lk St} {Pl : Type} `{EP : !ElementPool Pl}.
Abbreviation udp := (udp (St := St) (Lk := Lk) (Pl := Pl)).
Abbreviation inet := (net (St := St) (Lk := Lk)).
Abbreviation pst := (pstate (St := St)).

(** Writing over the first [k] bytes of a packet. *)
Lemma overwrite_start (s : pst) q b l (k : nat) m :
  chain s q ((q, b) :: l) -> k <= p_len b -> range (p_payload b) k ## addrs l ->
  (forall y, ~ (p_payload b <= y < p_payload b + k) -> byte m y = byte (data s) y) ->
  contents m ((q, b) :: l) = read_bytes m (p_payload b) k ++ drop k (contents (data s) ((q, b) :: l)).
Proof.
  intros Hc Hk Hd Hm. rewrite !contents_cons, (contents_frame (data s) m l).
  2:{ intros x Hx. apply Hm. intros Hin. apply (Hd x); [by apply elem_of_range|done]. }
  rewrite !(node_bytes_split _ _ _ k) by lia. rewrite Nat2Z.id, <- !app_assoc. f_equal.
  rewrite drop_app_ge by (by rewrite read_bytes_length). rewrite read_bytes_length, Nat.sub_diag, drop_0. f_equal.
  rewrite !read_bytes_range. apply list_fmap_ext. intros i y Hy. apply list_elem_of_lookup_2, elem_of_range in Hy. apply Hm. lia.
Qed.

(** The same packet but for its flags. *)
Definition same_but_flags (b b' : pbuf) : Prop := b' = with_flags b (p_flags b') /\ is_custom b' = is_custom b.

Lemma set_flags_spec (s : pst) B ext q b l fl :
  pbuf_inv s B ext -> chain s q ((q, b) :: l) -> is_custom (with_flags b fl) = is_custom b ->
  chain (set_pbuf s q (with_flags b fl)) q ((q, with_flags b fl) :: l) /\ pbuf_inv (set_pbuf s q (with_flags b fl)) B ext.
Proof.
  intros HI [Hs Ht] Hcu. pose proof (seg_NoDup _ _ _ (inv_not_null _ _ _ HI) Hs) as Hnd. cbn [fmap list_fmap fst] in Hnd. apply NoDup_cons in Hnd as [Hpl _].
  destruct Hs as (_ & Hp & Hs). split.
  - split; [split_and!; [done|apply lookup_insert_eq|by apply seg_insert]|exact Ht].
  - apply (inv_update s B ext q b); [done|done|done|done|]. intros k _ (K1 & K2 & K3). split; [destruct k; cbn [kind_ok] in *; rewrite ?Hcu; exact K1|]. split; [by destruct k|exact K3].
Qed.

Lemma write_udp_header_spec (n : inet) B ext pcb q b l dst port src :
  pbuf_inv (n_ps n) B ext -> chain (n_ps n) q ((q, b) :: l) -> 8 <= p_len b -> range (p_payload b) 8 ## addrs l ->
  pcb_ok pcb -> is_u32 dst -> is_u32 src -> is_u16 port ->
  let d := drop 8 (contents (data (n_ps n)) ((q, b) :: l)) in
  Forall is_u8 d ->
  exists s' b' chk, write_udp_header n pcb q dst port src = Ret (with_ps n s') /\ chain s' q ((q, b') :: l) /\ pbuf_inv s' B ext /\ same_but_flags b b'
    /\ let dgram := udp_header (local_port pcb) port (p_tot_len b) chk ++ d in
       contents (data s') ((q, b') :: l) = dgram /\ (checksum_ok pcb src dst chk dgram /\ is_u16 chk).
Proof.
  intros HI Hc Hl Hdis Hok Hdst Hsrc Hport d H8. pose proof (chain_cons _ _ _ _ _ Hc) as (_ & Hb & _ & Hbl & Ht & Hut & Htl).
  assert (Hlp : is_u16 (local_port pcb)) by apply Hok. unfold write_udp_header. rewrite (deref_ok _ _ _ Hb). cbn [mbind outcome_bind].
  rewrite LWIP_ASSERT_ok by (apply Z.leb_le; unfold UDP_HLEN; lia). cbn [mbind outcome_bind].
  set (x := p_payload b) in *. destruct (udp_header_stores (data (n_ps n)) x (local_port pcb) port (p_tot_len b) Hlp Hport Hut) as (Hrd & Hrd0 & Hfr).
  set (m1 := udph_chksum_set (udph_dest_set _ _ _) x 0) in *. set (m2 := udph_len_set m1 x (lwip_htons (p_tot_len b))) in *.
  set (ps := if _ && _ then _ else _).
  assert (Hps : exists b', same_but_flags b b' /\ data ps = m1 /\ forall m, chain (with_data ps m) q ((q, b') :: l) /\ pbuf_inv (with_data ps m) B ext).
  { unfold ps. destruct (_ && _).
    - assert (Hcu : is_custom (with_flags b (Z.lor (p_flags b) PBUF_FLAG_MCASTLOOP)) = is_custom b).
      { unfold is_custom. cbn [p_flags with_flags]. rewrite Z.land_lor_distr_l. change (Z.land PBUF_FLAG_MCASTLOOP PBUF_FLAG_IS_CUSTOM) with 0. by rewrite Z.lor_0_r. }
      destruct (set_flags_spec (n_ps n) B ext q b l _ HI Hc Hcu) as [Hc' HI']. eexists. split; [|split; [done|intros m; split; [exact Hc'|exact (inv_data _ B ext m HI')]]]. done.
    - exists b. split; [split; [by destruct b|done]|]. split; [done|]. intros m. split; [exact Hc|exact (inv_data _ B ext m HI)]. }
  clearbody ps. destruct Hps as (b' & Hsb & Hdps & Hps). rewrite Hdps. fold m2. change (data (with_data ps m2)) with m2.
  assert (Hpay : p_payload b' = x /\ p_len b' = p_len b) by (by rewrite (proj1 Hsb)). destruct Hpay as [Hpay Hlen].
  assert (Hcon : forall m, (forall y, ~ (x <= y < x + 8) -> byte m y = byte (data (n_ps n)) y) -> contents m ((q, b') :: l) = read_bytes m x 8 ++ d).
  { intros m Hm. pose proof (overwrite_start (n_ps n) q b l 8 m Hc Hl Hdis Hm) as E. fold x d in E. rewrite <- E. rewrite !contents_cons. unfold node_bytes. cbn [snd]. by rewrite Hpay, Hlen. }
  assert (HLd : Z.of_nat (length d) + 8 = p_tot_len b).
  { unfold d. rewrite length_drop. pose proof (contents_length (data (n_ps n)) _ (tot_ok_lens _ (proj2 Hc))) as E. change (total ((q, b) :: l)) with (p_len b + total l) in E. lia. }
  unfold checksum_ok. destruct (Z.land (pcb_flags pcb) UDP_FLAGS_NOCHKSUM =? 0).
  - destruct (Hps m2) as [Hc2 HI2]. destruct (chain_segs_spec _ _ _ _ _ HI2 Hc2) as (segs & Es & Hseg & Hsok). rewrite Es. cbn [mbind outcome_bind]. cbn [data with_data] in Hseg, Hsok.
    rewrite Hcon in Hseg, Hsok by (intros y Hy; by apply Hfr). rewrite Hrd0 in Hseg, Hsok.
    assert (H80 : Forall is_u8 (udp_header (local_port pcb) port (p_tot_len b) 0 ++ d)) by (apply Forall_app; split; [apply udp_header_bytes; try done; unfold_c; lia|done]).
    rewrite chksum_pseudo_rfc; [|by apply Hsok|unfold IP_PROTO_UDP; unfold_c; lia|done|done|done]. rewrite Hseg.
    assert (Hpre : Forall is_u8 (pseudo_header src dst IP_PROTO_UDP (p_tot_len b)) /\ length (pseudo_header src dst IP_PROTO_UDP (p_tot_len b)) mod 2 = 0).
    { split; [|done]. unfold pseudo_header, le_bytes4, IP_PROTO_UDP. cbn [app]. rewrite !Forall_cons. split_and!; try constructor; wrap_solve. }
    destruct (udp_checksum_valid _ (local_port pcb) port (p_tot_len b) d Hlp Hport Hut (proj1 Hpre) (proj2 Hpre) H8) as (Hr & Hnz & Hv). set (chk := if _ =? 0 then _ else _) in *.
    destruct (Hps (udph_chksum_set m2 x chk)) as [Hc3 HI3]. eexists _, b', chk. split; [reflexivity|]. split; [exact Hc3|]. split; [exact HI3|]. split; [done|]. split.
    + cbn [data with_data]. rewrite Hcon by (intros y Hy; by apply Hfr). by rewrite Hrd.
    + split; [|done]. split; [done|]. rewrite length_app. change (length (udp_header _ _ _ _)) with 8%nat. rewrite Nat2Z.inj_add. replace (Z.of_nat 8 + length d) with (p_tot_len b) by lia. exact Hv.
  - destruct (Hps m2) as [Hc2 HI2]. eexists _, b', 0. split; [reflexivity|]. split; [exact Hc2|]. split; [exact HI2|]. split; [done|]. split; [|split; [done|unfold_c; lia]].
    cbn [data with_data]. rewrite Hcon by (intros y Hy; by apply Hfr). by rewrite Hrd0.
Qed.

(** ** Lemmas: sending *)

(** A datagram on the wire: the IP header, the UDP header and the data. *)
Definition sent (n n' : inet) (b : udp_pcb) (nif : netif) (sport src dst port : Z) (d : list Z) : Prop :=
  exists hchk chk,
    let ttl := if ip4_addr_ismulticast dst then mcast_ttl b else pcb_ttl b in
    let len := length d + 8 in
    let hdr := ip_header 20 (pcb_tos b) (len + 20) (ip_id n) 0 ttl IP_PROTO_UDP hchk src dst in
    let dgram := udp_header sport port len chk ++ d in
    link_log (n_lk n') = link_log (n_lk n) ++ [(netif_num nif, dst, hdr ++ dgram)]
    /\ inet_chksum 0 hdr = 0 /\ checksum_ok b src dst chk dgram /\ Forall is_u8 (hdr ++ dgram).

(** Room for an IP header in front of the packet. *)
Definition ip_room (q : Z) (b : pbuf) : Prop := q + SIZEOF_STRUCT_PBUF <= p_payload b - 20 /\ p_tot_len b + 20 < 65536.

#[local] Instance ip_room_dec q b : Decision (ip_room q b).
Proof. unfold ip_room. apply _. Defined.

(** Without that room ip4_output_if_src fails. *)
Lemma output_no_room (n : inet) B ext q b l src dst ttl tos proto nif :
  pbuf_inv (n_ps n) B ext -> chain (n_ps n) q ((q, b) :: l) -> p_ref b = 1 -> is_contiguous b = true -> ~ ip_room q b ->
  ip4_output_if_src n q src (Some dst) ttl tos proto nif = Ret (ERR_BUF, n).
Proof.
  intros HI Hc Hr Hcg Hno. pose proof (chain_cons _ _ _ _ _ Hc) as (_ & Hb & _). pose proof (add_header_spec (n_ps n) B ext q b l 20 false HI Hc ltac:(lia)) as Ha. cbv zeta in Ha.
  unfold ip4_output_if_src, ip4_output_if_opt_src. rewrite (deref_ok _ _ _ Hb). cbn [mbind outcome_bind]. rewrite LWIP_ASSERT_ok by (by apply Z.eqb_eq). cbn [mbind outcome_bind].
  unfold write_options. cbn [Z.eqb mbind outcome_bind]. rewrite bool_decide_true by done. cbn [negb]. unfold pbuf_add_header, IP_HLEN.
  assert (Ef : (20 =? 0) || ((p_tot_len b + 20 <? 65536) && (if is_contiguous b then q + SIZEOF_STRUCT_PBUF <=? p_payload b - 20 else false)) = false).
  { rewrite Hcg. cbn [Z.eqb orb]. apply andb_false_iff. rewrite Z.ltb_ge, Z.leb_gt. unfold ip_room in Hno. lia. }
  rewrite Ef in Ha. rewrite Ha. cbn [mbind outcome_bind Z.eqb negb]. by destruct n.
Qed.

(** The datagram goes out, or there is no room for its IP header. *)
Definition sent_or_not (n n' : inet) (e : err_t) (room : Prop) {D : Decision room} (b : udp_pcb) (nif : netif) (sport src dst port : Z) (d : list Z) : Prop :=
  if decide room then sent n n' b nif sport src dst port d else e = ERR_BUF /\ link_log (n_lk n') = link_log (n_lk n).

Lemma datagram_spec (n : inet) B ext pcb q b l dst port src nif :
  net_ok n B ext -> chain (n_ps n) q ((q, b) :: l) -> (0 < ext q)%nat -> p_ref b = 1 -> 8 <= p_len b -> range (p_payload b) 8 ## addrs l ->
  is_contiguous b = true -> (ip_room q b -> headroom q b l 20) ->
  pcb_ok pcb -> is_u32 dst -> is_u32 src -> is_u16 port -> (ip_room q b -> netif_mtu nif = 0 \/ p_tot_len b + 20 <= netif_mtu nif) ->
  let d := drop 8 (contents (data (n_ps n)) ((q, b) :: l)) in
  Forall is_u8 d ->
  exists n1 e n' B', write_udp_header n pcb q dst port src = Ret n1
    /\ ip4_output_if_src n1 q (Some src) (Some dst) (if ip4_addr_ismulticast dst then mcast_ttl pcb else pcb_ttl pcb) (pcb_tos pcb) IP_PROTO_UDP nif = Ret (e, n')
    /\ net_ok n' B' ext /\ sent_or_not n n' e (ip_room q b) pcb nif (local_port pcb) src dst port d.
Proof.
  intros [HI Hid] Hc He Hr Hl Hdis Hcg Hroom Hok Hdst Hsrc Hport Hmtu d H8. pose proof (chain_cons _ _ _ _ _ Hc) as (_ & _ & _ & Hbl & Ht & Hut & Htl).
  destruct (write_udp_header_spec n B _ pcb q b l dst port src HI Hc Hl Hdis Hok Hdst Hsrc Hport H8) as (s1 & b' & chk & E1 & Hc1 & HI1 & [Hsb Hcu] & Hcon & Hchk & Hu). fold d in Hcon, Hchk.
  destruct Hok as (_ & _ & _ & Hlp & _ & _ & Htos & Httl & Hmttl & _). unfold sent_or_not. destruct (decide (ip_room q b)) as [Hir|Hir].
  2:{ exists (with_ps n s1), ERR_BUF, (with_ps n s1), B. split; [exact E1|]. split; [|split; [by split|done]]. eapply (output_no_room (with_ps n s1)); [exact HI1|exact Hc1|by rewrite Hsb|unfold is_contiguous in *; by rewrite Hsb|unfold ip_room in *; by rewrite Hsb]. }
  specialize (Hroom Hir). specialize (Hmtu Hir).
  destruct (output_opt_src_spec (with_ps n s1) B ext q b' l (Some src) dst (if ip4_addr_ismulticast dst then mcast_ttl pcb else pcb_ttl pcb) (pcb_tos pcb) IP_PROTO_UDP nif [] 0)
    as (e & n' & B' & hchk & E & HI' & Hid' & Hlog & Hv & Hhu); try done.
  { by rewrite Hsb. } { by case_if. } { by rewrite Hsb. } { by rewrite Hsb. }
  exists (with_ps n s1), e, n', B'. split; [exact E1|]. split; [exact E|]. split; [split; [exact HI'|rewrite Hid'; apply u16_range]|].
  exists hchk, chk. cbv zeta. assert (HLd : Z.of_nat (length d) + 8 = p_tot_len b).
  { unfold d. rewrite length_drop. pose proof (contents_length (data (n_ps n)) _ (tot_ok_lens _ (proj2 Hc))) as El. change (total ((q, b) :: l)) with (p_len b + total l) in El. lia. }
  rewrite HLd. assert (Ht' : p_tot_len b' = p_tot_len b) by (by rewrite Hsb). cbv zeta in Hlog, Hv. rewrite Ht' in Hlog, Hv. rewrite app_nil_r in Hlog, Hv.
  change (length (pad4 [])) with 0%nat in Hlog, Hv. change (20 + Z.of_nat 0) with 20 in Hlog, Hv. split; [rewrite Hlog; cbn [n_lk with_ps n_ps data]; by rewrite Hcon|split; [exact Hv|split; [exact Hchk|]]].
  rewrite !Forall_app. split; [|split; [by apply udp_header_bytes|done]]. destruct Hroom as (_ & _ & Hr20 & _). apply ip_header_bytes; try done; first [lia|by case_if|unfold_c; cbn in *; lia].
Qed.

(** The packet at [q] has room for the UDP header at its start and [d] behind. *)
Record ready (n : inet) B ext q b l (d : list Z) : Prop := Ready {
  rd_ok : net_ok n B ext;
  rd_chain : chain (n_ps n) q ((q, b) :: l);
  rd_ext : (0 < ext q)%nat;
  rd_ref : p_ref b = 1;
  rd_len : 8 <= p_len b;
  rd_tot : p_tot_len b = length d + 8;
  rd_apart : range (p_payload b) 8 ## addrs l;
  rd_cont : is_contiguous b = true;
  rd_room : ip_room q b -> headroom q b l 20;
  rd_data : drop 8 (contents (data (n_ps n)) ((q, b) :: l)) = d
}.

(** Room for the UDP header in the packet itself. *)
Definition udp_room (p : Z) (b : pbuf) : Prop := p + SIZEOF_STRUCT_PBUF <= p_payload b - 8.

(** Room in place. *)
Lemma ready_in_place (n : inet) B ext p b l :
  net_ok n B ext -> chain (n_ps n) p ((p, b) :: l) -> (0 < ext p)%nat -> p_ref b = 1 -> own_data ((p, b) :: l) -> p_tot_len b + 8 < 65536 -> udp_room p b ->
  exists n1, header_pbuf n p = Ret (p, n1) /\ ready n1 B ext p (grown b 8) l (contents (data (n_ps n)) ((p, b) :: l)) /\ n_lk n1 = n_lk n /\ ip_id n1 = ip_id n.
Proof.
  intros [HI Hid] Hc He Hr Hown Htot Hroom. pose proof (chain_cons _ _ _ _ _ Hc) as (_ & _ & _ & Hbl & Ht & Hut & Htl).
  assert (Hcg : is_contiguous b = true) by (by apply Forall_cons in Hown as [[? _] _]).
  assert (Hhead : forall k, 0 <= k -> p + SIZEOF_STRUCT_PBUF <= p_payload b - k -> p_tot_len b + k < 65536 -> headroom p b l k).
  { intros k Hk Hk1 Hk2. pose proof (grown_apart (n_ps n) B _ p b l k HI Hc Hown ltac:(lia) Hk1 Hk2) as Hap. split; [done|]. split; [done|]. split; [done|]. intros x Hx. apply Hap. apply elem_of_range in Hx. apply elem_of_range. unfold_c. lia. }
  pose proof (grown_apart (n_ps n) B _ p b l 8 HI Hc Hown ltac:(lia) Hroom Htot) as Hap.
  destruct (prepend_spec (n_ps n) B _ p b l 8 HI Hc ltac:(lia) (Hhead 8 ltac:(lia) Hroom Htot)) as [E Hpre].
  destruct (Hpre (data (n_ps n)) ltac:(done)) as (Hc1 & HI1 & Hcon). exists (with_ps n (set_pbuf (n_ps n) p (grown b 8))). split; [|split; [|done]].
  { unfold header_pbuf, UDP_HLEN. rewrite E. done. }
  split; try done.
  - cbn. unfold_c. lia.
  - rewrite contents_length by (apply tot_ok_lens, Hc). change (total ((p, b) :: l)) with (p_len b + total l). rewrite <- Ht. done.
  - intros x Hx. apply Hap. apply elem_of_range in Hx. cbn in Hx. apply elem_of_range. unfold_c. lia.
  - intros [H1 H2]. cbn in H1, H2. apply (headroom_grown p b l 8 20); [lia|lia|]. apply Hhead; lia.
  - change (data (n_ps (with_ps n (set_pbuf (n_ps n) p (grown b 8))))) with (data (n_ps n)). rewrite Hcon. rewrite drop_app_ge by (rewrite read_bytes_length; lia).
    by rewrite read_bytes_length, Nat.sub_diag, drop_0.
Qed.

(** A pbuf of its own for the header. *)
Lemma ready_separate (n : inet) B ext p b l q x k st :
  let qb := Pbuf NULL x 8 8 (u8 PBUF_RAM) 0 1 NETIF_NO_INDEX in
  let s1 := set_pbuf (with_pmem (n_ps n) st) q qb in
  net_ok (with_ps n s1) (<[q := BHeap k]> B) (ext_add ext q) -> pbufs (n_ps n) !! q = None -> q <> NULL -> x = q + SIZEOF_STRUCT_PBUF + LWIP_MEM_ALIGN_SIZE PBUF_IP ->
  chain (n_ps n) p ((p, b) :: l) -> (0 < ext p)%nat -> p_ref b = 1 -> own_data ((p, b) :: l) -> p_tot_len b + 8 < 65536 ->
  let d := contents (data (n_ps n)) ((p, b) :: l) in
  exists s2 qb' lq, (b ← deref s1 p; if negb (p_tot_len b =? 0) then ps ← pbuf_chain s1 q p; Ret (q, with_ps (with_ps n s1) ps) else Ret (q, with_ps n s1)) = Ret (q, with_ps n s2)
    /\ ready (with_ps n s2) (<[q := BHeap k]> B) (ext_add ext q) q qb' lq d /\ q + SIZEOF_STRUCT_PBUF <= p_payload qb' - 20.
Proof.
  intros qb s1 [HI Hid] Hnew Hq Hx Hc He Hr Hown Htot d. pose proof (chain_cons _ _ _ _ _ Hc) as (_ & Hb & _ & Hbl & Ht & Hut & Htl). cbn [n_ps n_lk with_ps] in HI.
  destruct ip_layer_range as [Hlay H20]. destruct (layer_facts _ Hlay) as (Hal & _).
  assert (Hpq : p <> q) by congruence. assert (Hql : q ∉ ((p, b) :: l).*1).
  { intros Hin. apply list_elem_of_fmap in Hin as ([a c] & -> & Hin). pose proof (lseg_lookup _ _ _ _ _ _ _ (proj1 Hc) Hin) as Hl. cbn in *. congruence. }
  assert (Hc1 : chain s1 p ((p, b) :: l)) by (split; [by apply seg_insert; [apply Hc|]|apply Hc]).
  assert (Hcq : chain s1 q [(q, qb)]).
  { split; [split_and!; [done|apply lookup_insert_eq|done]|]. split_and!; [unfold_c; cbn; lia|done|unfold_c; cbn; lia|done]. }
  assert (HLd : Z.of_nat (length d) = p_tot_len b).
  { unfold d. rewrite contents_length by (apply tot_ok_lens, Hc). symmetry. exact Ht. }
  rewrite (deref_ok s1 p b) by (unfold s1; cbn; by rewrite lookup_insert_ne). cbn [mbind outcome_bind].
  assert (Hfin : forall s2 qb' lq, pbuf_inv s2 (<[q := BHeap k]> B) (λ a, (ext_add ext q a + link_holds (n_lk n) a)%nat) -> chain s2 q ((q, qb') :: lq) -> same_data (q, qb) (q, qb') ->
    own_data lq -> contents (data s2) ((q, qb') :: lq) = read_bytes (data (n_ps n)) x 8 ++ d -> ready (with_ps n s2) (<[q := BHeap k]> B) (ext_add ext q) q qb' lq d /\ q + SIZEOF_STRUCT_PBUF <= p_payload qb' - 20).
  { intros s2 qb' lq HI2 Hc2 (_ & Ep & El & Ety & Efl & _ & Er) Hol Hcon. cbn [snd] in *. pose proof (chain_cons _ _ _ _ _ Hc2) as (_ & _ & _ & _ & Ht2 & Hut2 & _).
    assert (Htq : p_tot_len qb' = length d + 8).
    { pose proof (contents_length (data s2) _ (tot_ok_lens _ (proj2 Hc2))) as E. rewrite Hcon, length_app, read_bytes_length in E. change (total ((q, qb') :: lq)) with (p_len qb' + total lq) in E. lia. }
    assert (Hown2 : own_data ((q, qb') :: lq)).
    { apply Forall_cons. split; [|done]. cbn [snd]. unfold is_contiguous, is_custom. rewrite <- Ety, <- Efl. done. }
    assert (Hroom2 : q + SIZEOF_STRUCT_PBUF <= p_payload qb' - 20) by (rewrite <- Ep; cbn; lia).
    
    split; [|exact Hroom2]. split; try done.
    - unfold ext_add. rewrite decide_True by done. lia.
    - by rewrite <- El.
    - intros y Hy. pose proof (grown_apart s2 _ _ q qb' lq 0 HI2 Hc2 Hown2 ltac:(lia) ltac:(lia) ltac:(lia)) as Hap. rewrite <- El in Hap. cbn [p_len qb] in Hap. apply Hap. apply elem_of_range in Hy. apply elem_of_range. lia.
    - by apply Forall_cons in Hown2 as [[? _] _].
    - intros [_ Ht20]. pose proof (grown_apart s2 _ _ q qb' lq 20 HI2 Hc2 Hown2 ltac:(lia) Hroom2 Ht20) as Hap. rewrite <- El in Hap. cbn [p_len qb] in Hap.
      split; [apply Forall_cons in Hown2 as [[? _] _]; done|]. split; [done|]. split; [lia|]. intros y Hy. apply Hap. apply elem_of_range in Hy. apply elem_of_range. lia.
    - cbn [n_ps with_ps]. rewrite Hcon. rewrite drop_app_ge by (rewrite read_bytes_length; lia). by rewrite read_bytes_length, Nat.sub_diag, drop_0. }
  assert (Hcq0 : contents (data s1) [(q, qb)] = read_bytes (data (n_ps n)) x 8) by (rewrite contents_cons; change (contents (data s1) []) with (@nil Z); by rewrite app_nil_r).
  destruct (Z.eqb_spec (p_tot_len b) 0) as [E0|E0]; cbn [negb].
  - exists s1, qb, []. split; [done|]. apply Hfin; [exact HI|exact Hcq|by split_and!|constructor|]. assert (Ed : d = []) by (apply length_zero_iff_nil; lia). by rewrite Hcq0, Ed, app_nil_r.
  - destruct (chain_two_spec s1 _ _ q p [(q, qb)] b l HI) as (s2 & lh' & E & Hc2 & _ & Hsame & Hd2 & HI2); try done.
    + unfold ext_add. rewrite decide_False by done. lia.
    + intros y Hy Hy'. apply list_elem_of_singleton in Hy. cbn in Hy. by subst y.
    + change (total [(q, qb)]) with 8. change (total ((p, b) :: l)) with (p_len b + total l). lia.
    + lia.
    + rewrite E. cbn [mbind outcome_bind]. apply Forall2_cons_inv_l in Hsame as ([q' qb'] & lh0 & Hsd & Hsame & ->). apply Forall2_nil_inv_l in Hsame as ->. pose proof Hsd as (Eq & _). cbn in Eq. subst q'.
      exists s2, qb', ((p, with_ref b (p_ref b + 1)) :: l). split; [done|]. cbn [app] in Hc2. apply Hfin; [exact HI2|exact Hc2|exact Hsd| |].
      * apply Forall_cons in Hown as [? ?]. by apply Forall_cons.
      * rewrite contents_cons, Hd2. destruct Hsd as (_ & Ep & El & _). unfold node_bytes. cbn [snd] in *. by rewrite <- Ep, <- El.
Qed.

(** A packet given to udp_sendto_if_src: the caller holds it, its data is its own, and when
    both headers leave its length in 16 bits it fits the MTU of the interface. *)
Record outgoing (n : inet) B ext p b l nif : Prop := Outgoing {
  og_ok : net_ok n B ext;
  og_null : p <> NULL;
  og_chain : chain (n_ps n) p ((p, b) :: l);
  og_ext : (0 < ext p)%nat;
  og_ref : p_ref b = 1;
  og_own : own_data ((p, b) :: l);
  og_bytes : Forall is_u8 (contents (data (n_ps n)) ((p, b) :: l));
  og_mtu : p_tot_len b + 28 < 65536 -> netif_mtu nif = 0 \/ p_tot_len b + 28 <= netif_mtu nif
}.

(** The packet can be sent: it has room for both headers or for neither. *)
Record sendable (n : inet) B ext p b l nif : Prop := Sendable {
  sd_out : outgoing n B ext p b l nif;
  sd_tot : p_tot_len b + 28 < 65536;
  sd_room : udp_room p b -> p + SIZEOF_STRUCT_PBUF <= p_payload b - 28
}.

Lemma header_pbuf_spec (n : inet) B ext p b l nif :
  outgoing n B ext p b l nif -> p_tot_len b + 8 < 65536 ->
  let d := contents (data (n_ps n)) ((p, b) :: l) in
  exists q n1, header_pbuf n p = Ret (q, n1) /\ n_lk n1 = n_lk n /\ ip_id n1 = ip_id n
    /\ (q = NULL /\ ~ udp_room p b /\ heap_full (n_ps n) PBUF_IP 8 /\ net_ok n1 B ext
        \/ q = p /\ udp_room p b /\ ready n1 B ext p (grown b 8) l d
        \/ q <> NULL /\ q <> p /\ ~ udp_room p b /\ exists B1 qb lq, ready n1 B1 (ext_add ext q) q qb lq d /\ q + SIZEOF_STRUCT_PBUF <= p_payload qb - 20).
Proof.
  intros [[HI Hid] Hp Hc He Hr Hown H8 Hmtu] Htot d. pose proof (chain_cons _ _ _ _ _ Hc) as (_ & Hb & _ & Hbl & Ht & Hut & Htl).
  assert (Hcg : is_contiguous b = true) by (by apply Forall_cons in Hown as [[? _] _]).
  destruct (decide (p + SIZEOF_STRUCT_PBUF <= p_payload b - 8)) as [Hr8|Hr8].
  { destruct (ready_in_place n B ext p b l (conj HI Hid) Hc He Hr Hown Htot Hr8) as (n1 & E & Hrd & Hlk & Hi). exists p, n1. split; [exact E|]. do 2 (split; [done|]).
    right. left. by split_and!. }
  pose proof (add_header_spec (n_ps n) B _ p b l 8 false HI Hc ltac:(lia)) as Ha. cbn zeta in Ha. rewrite Hcg, (proj2 (Z.leb_gt _ _)) in Ha by lia. rewrite andb_false_r in Ha. cbn [orb Z.eqb] in Ha.
  unfold header_pbuf, UDP_HLEN, pbuf_add_header. rewrite Ha. cbn [mbind outcome_bind negb Z.eqb]. destruct ip_layer_range as [Hlay H20]. change (with_ps n (n_ps n)) with n || idtac.
  destruct (alloc_ram_one (n_ps n) B _ PBUF_IP 8 HI Hlay ltac:(unfold_c; lia)) as [(st & Em & E & HI')|(q & st & k & x & E & Hx & Hq & Hnew & HI')]; rewrite E; cbn [mbind outcome_bind].
  - rewrite Z.eqb_refl. eexists NULL, _. split; [reflexivity|]. do 2 (split; [done|]). left. split; [done|]. split; [done|]. split; [by exists st|]. by split.
  - rewrite (proj2 (Z.eqb_neq q NULL)) by done. cbn zeta in HI'. set (qb := Pbuf NULL x 8 8 _ _ _ _) in *. set (s1 := set_pbuf _ q qb) in *.
    destruct (ready_separate n B ext p b l q x k st) as (s2 & qb' & lq & Es & Hrd & Hqr); try done.
    { split; [|exact Hid]. eapply inv_ext_eq; [|exact HI']. intros a _. unfold ext_add. cbn. case_decide; lia. }
    fold qb s1 in Es. change (with_ps (with_ps n (n_ps n)) s1) with (with_ps n s1). rewrite Es. exists q, (with_ps n s2). split; [done|]. do 2 (split; [done|]). right. right.
    split; [done|]. split; [congruence|]. split; [done|]. by eexists _, _, _.
Qed.

(** How a call for the data [d] in the packet [p] ends.  Data that leaves no room for the
    UDP header in the length is refused with ERR_MEM.  With room for the UDP header in the
    packet, it is sent when the IP header has room too, and refused with ERR_BUF when not.
    Without, the header gets a pbuf of its own, with room for the IP header (ERR_MEM when
    the heap has none), and only the length can be in the way. *)
Definition send_outcome (n n' : inet) (e : err_t) (b : udp_pcb) (nif : netif) (sport src dst port p : Z) (pb : pbuf) (d : list Z) : Prop :=
  let unsent := link_log (n_lk n') = link_log (n_lk n) in
  let len_ok := p_tot_len pb + 28 < 65536 in
  if decide (65536 <= p_tot_len pb + 8) then e = ERR_MEM /\ unsent
  else if decide (p + SIZEOF_STRUCT_PBUF <= p_payload pb - 8)
  then sent_or_not n n' e (p + SIZEOF_STRUCT_PBUF <= p_payload pb - 28 /\ len_ok) b nif sport src dst port d
  else e = ERR_MEM /\ heap_full (n_ps n) PBUF_IP 8 /\ unsent \/ sent_or_not n n' e len_ok b nif sport src dst port d.

Lemma sent_or_not_iff (n n' : inet) e (P Q : Prop) {DP : Decision P} {DQ : Decision Q} b nif sport src dst port d :
  (P <-> Q) -> sent_or_not n n' e P b nif sport src dst port d -> sent_or_not n n' e Q b nif sport src dst port d.
Proof. intros E. unfold sent_or_not. destruct (decide P), (decide Q); tauto. Qed.

(** The rest of udp_sendto_if_src, for a control block that is bound. *)
Lemma send_bound (s : udp) L B ext pcb b p pb l dst port nif src :
  udp_inv s L -> u_pcbs s !! pcb = Some b -> outgoing (u_net s) B ext p pb l nif -> is_u32 dst -> is_u16 port -> is_u32 src ->
  let n := u_net s in
  exists e s' B',
    (b ← pcb_at s pcb;
     pb ← deref (n_ps (u_net s)) p;
     if u16 (p_tot_len pb + UDP_HLEN) <? p_tot_len pb then Ret (ERR_MEM, s)
     else
       '(q, n) ← header_pbuf (u_net s) p;
       if q =? NULL then Ret (ERR_MEM, with_unet s n)
       else
         n ← write_udp_header n b q dst port src;
         let ttl := if ip4_addr_ismulticast dst then mcast_ttl b else pcb_ttl b in
         '(e, n) ← ip4_output_if_src n q (Some src) (Some dst) ttl (pcb_tos b) IP_PROTO_UDP nif;
         n ← (if negb (q =? p) then net_free n q else Ret n);
         Ret (e, with_unet s n)) = Ret (e, s')
    /\ s' = with_unet s (u_net s') /\ net_ok (u_net s') B' ext
    /\ send_outcome n (u_net s') e b nif (local_port b) src dst port p pb (contents (data (n_ps n)) ((p, pb) :: l)).
Proof.
  intros HI Hb Hog Hdst Hport Hsrc n. pose proof (chain_cons _ _ _ _ _ (og_chain _ _ _ _ _ _ _ Hog)) as (_ & Hpb & _ & Hbl & Ht & Hut & Htl).
  rewrite (pcb_at_ok s pcb b Hb), (deref_ok _ _ _ Hpb). cbn [mbind outcome_bind]. unfold send_outcome. cbv zeta.
  destruct (decide (65536 <= p_tot_len pb + 8)) as [Hbig|Hfit].
  { assert (Hw : u16 (p_tot_len pb + UDP_HLEN) = p_tot_len pb + 8 - 65536) by (unfold UDP_HLEN, is_u16 in *; wrap_solve).
    rewrite Hw, (proj2 (Z.ltb_lt _ _)) by lia. exists ERR_MEM, s, B. split; [done|]. split; [by destruct s|]. split; [apply Hog|done]. }
  rewrite u16_small by (unfold UDP_HLEN; unfold_c; lia). rewrite (proj2 (Z.ltb_ge _ _)) by (unfold UDP_HLEN; lia).
  destruct (header_pbuf_spec (u_net s) B ext p pb l nif Hog ltac:(lia)) as (q & n1 & E & Hlk & Hid & Hq). rewrite E. cbn [mbind outcome_bind]. fold n in Hlk, Hid, Hq.
  set (d := contents (data (n_ps n)) ((p, pb) :: l)) in *.
  assert (HLd : Z.of_nat (length d) = p_tot_len pb) by (unfold d; rewrite contents_length by (apply tot_ok_lens, (og_chain _ _ _ _ _ _ _ Hog)); symmetry; exact Ht).
  assert (Hgo : forall B1 ext1 qb lq, ready n1 B1 ext1 q qb lq d ->
    exists n2 e n3 B3, write_udp_header n1 b q dst port src = Ret n2
      /\ ip4_output_if_src n2 q (Some src) (Some dst) (if ip4_addr_ismulticast dst then mcast_ttl b else pcb_ttl b) (pcb_tos b) IP_PROTO_UDP nif = Ret (e, n3)
      /\ net_ok n3 B3 ext1 /\ sent_or_not n n3 e (ip_room q qb) b nif (local_port b) src dst port d).
  { intros B1 ext1 qb lq [R1 R2 R3 R4 R5 R6 R7 Rc R8 R9].
    destruct (datagram_spec n1 B1 ext1 b q qb lq dst port src nif R1 R2 R3 R4 R5 R7 Rc R8 (ui_type _ _ HI _ _ Hb) Hdst Hsrc Hport) as (n2 & e & n3 & B3 & E1 & E2 & Hok & Hs).
    - intros [_ Ht20]. rewrite R6, HLd in *. destruct (og_mtu _ _ _ _ _ _ _ Hog ltac:(lia)); [by left|right; lia].
    - rewrite R9. apply Hog.
    - exists n2, e, n3, B3. do 3 (split; [done|]). rewrite R9 in Hs. unfold sent_or_not, sent in *. by rewrite Hlk, Hid in Hs. }
  destruct Hq as [(-> & Hno & Hfull & Hok1)|[(-> & Hur & Hrd)|(Hqn & Hqp & Hno & B1 & qb & lq & Hrd & Hqr)]].
  - rewrite Z.eqb_refl. eexists _, _, B. split; [reflexivity|]. split; [done|]. split; [exact Hok1|]. rewrite decide_False by done. left. split; [done|]. split; [done|]. cbn. by rewrite Hlk.
  - rewrite (proj2 (Z.eqb_neq p NULL)) by apply Hog. destruct (Hgo _ _ _ _ Hrd) as (n2 & e & n3 & B3 & E1 & E2 & Hok & Hs). rewrite E1. cbn [mbind outcome_bind]. cbv zeta. rewrite E2. cbn [mbind outcome_bind].
    rewrite Z.eqb_refl. cbn [negb mbind outcome_bind]. eexists _, _, B3. split; [reflexivity|]. split; [done|]. split; [exact Hok|]. rewrite decide_True by exact Hur. eapply sent_or_not_iff; [|exact Hs]. unfold ip_room. cbn. lia.
  - rewrite (proj2 (Z.eqb_neq q NULL)) by done. destruct (Hgo _ _ _ _ Hrd) as (n2 & e & n3 & B3 & E1 & E2 & Hok & Hs). rewrite E1. cbn [mbind outcome_bind]. cbv zeta. rewrite E2. cbn [mbind outcome_bind].
    rewrite (proj2 (Z.eqb_neq q p)) by done. cbn [negb]. destruct (net_free_spec n3 B3 ext q Hok Hqn) as (n4 & B4 & Ef & Hok4 & Hlk4 & _). rewrite Ef. cbn [mbind outcome_bind].
    eexists _, _, B4. split; [reflexivity|]. split; [done|]. split; [exact Hok4|]. rewrite decide_False by done. right. unfold sent_or_not, sent in *. cbn [u_net with_unet]. rewrite Hlk4. eapply sent_or_not_iff; [|exact Hs].
    unfold ip_room. rewrite (rd_tot _ _ _ _ _ _ _ Hrd), HLd. lia.
Qed.

(** A packet with room for both headers is sent. *)
Lemma outcome_sent (n n' : inet) B ext p pb l nif e b sport src dst port d :
  sendable n B ext p pb l nif -> udp_room p pb -> send_outcome n n' e b nif sport src dst port p pb d -> exists f, link_log (n_lk n') = link_log (n_lk n) ++ [f].
Proof.
  intros [_ Htot Hr] Hu Ho. unfold send_outcome, sent_or_not in Ho. cbv zeta in Ho. rewrite (decide_False (P := 65536 <= _)), (decide_True (P := p + _ <= _)), decide_True in Ho by (done || lia || (split; [by apply Hr|done])).
  destruct Ho as (hchk & chk & Hlog & _). by eexists.
Qed.

Lemma sendto_bound_any (s : udp) L B ext pcb b p pb l dst port nif src :
  udp_inv s L -> u_pcbs s !! pcb = Some b -> local_port b <> 0 -> outgoing (u_net s) B ext p pb l nif -> is_u32 dst -> is_u16 port -> is_u32 src ->
  let n := u_net s in
  exists e s' B', udp_sendto_if_src s pcb p dst port nif src = Ret (e, s') /\ s' = with_unet s (u_net s') /\ net_ok (u_net s') B' ext
    /\ send_outcome n (u_net s') e b nif (local_port b) src dst port p pb (contents (data (n_ps n)) ((p, pb) :: l)).
Proof.
  intros HI Hb Hl Hog Hdst Hport Hsrc n. pose proof (ui_null _ _ HI) as Hnull. unfold udp_sendto_if_src.
  rewrite !LWIP_ERROR_ok by (apply negb_true_iff, Z.eqb_neq; apply Hog || congruence). cbn [mbind outcome_bind].
  rewrite (pcb_at_ok s pcb b Hb). cbn [mbind outcome_bind]. rewrite (proj2 (Z.eqb_neq _ _) Hl). cbn [mbind outcome_bind]. rewrite bool_decide_true by done. cbn [negb].
  destruct (send_bound s L B ext pcb b p pb l dst port nif src HI Hb Hog Hdst Hport Hsrc) as (e & s' & B' & E1 & Hrest). cbv zeta in E1 |- *. rewrite E1. by exists e, s', B'.
Qed.

(** A packet that can be sent is sent, or the heap has no room for its header. *)
Lemma sendto_bound (s : udp) L B ext pcb b p pb l dst port nif src :
  udp_inv s L -> u_pcbs s !! pcb = Some b -> local_port b <> 0 -> sendable (u_net s) B ext p pb l nif -> is_u32 dst -> is_u16 port -> is_u32 src ->
  let n := u_net s in
  exists e s' B', udp_sendto_if_src s pcb p dst port nif src = Ret (e, s') /\ s' = with_unet s (u_net s') /\ net_ok (u_net s') B' ext
    /\ (e = ERR_MEM /\ ~ udp_room p pb /\ heap_full (n_ps n) PBUF_IP 8 /\ link_log (n_lk (u_net s')) = link_log (n_lk n)
        \/ sent n (u_net s') b nif (local_port b) src dst port (contents (data (n_ps n)) ((p, pb) :: l))).
Proof.
  intros HI Hb Hl [Hog Htot Hroom] Hdst Hport Hsrc n. destruct (sendto_bound_any s L B ext pcb b p pb l dst port nif src HI Hb Hl Hog Hdst Hport Hsrc) as (e & s' & B' & E & Es & Hok & Ho).
  exists e, s', B'. do 3 (split; [done|]). unfold send_outcome, sent_or_not in Ho. cbv zeta in Ho. rewrite (decide_False (P := 65536 <= _)) in Ho by lia. destruct (decide (p + SIZEOF_STRUCT_PBUF <= p_payload pb - 8)) as [Hu|Hu].
  - rewrite decide_True in Ho by (split; [by apply Hroom|done]). by right.
  - rewrite decide_True in Ho by done. destruct Ho as [(? & ? & ?)|?]; [left; by split_and!|by right].
Qed.

(** ** Theorems *)

(** C18: udp_sendto_if_src binds an unbound control block to a free port first (ERR_USE
    when there is none).  For a packet of the caller's own data that fits the MTU of the
    interface with both headers (when their length fits 16 bits at all) it then sends
    exactly one packet to the interface: an IPv4 header with the control block's TOS and
    TTL (the multicast TTL for a multicast destination) and a right header checksum, a UDP
    header with both ports, the length and a checksum that is right and not zero (or zero
    for a control block without checksums), and the data.  Nothing is sent, and only then,
    when the length with the UDP header overflows (ERR_MEM), when the packet has no room
    for the UDP header and the heap none for another pbuf (ERR_MEM), when it has room for
    the UDP header but not for the IP header (ERR_BUF), and when the length with both
    overflows (ERR_BUF).  References to packets stay counted. *)
Theorem udp_sendto_if_src_correct (s : udp) L B ext pcb b p pb l dst port nif src :
  udp_inv s L -> u_pcbs s !! pcb = Some b -> outgoing (u_net s) B ext p pb l nif -> is_u32 dst -> is_u16 port -> is_u32 src ->
  let n := u_net s in
  exists e s' L', udp_sendto_if_src s pcb p dst port nif src = Ret (e, s') /\ udp_inv s' L'
    /\ (e = ERR_USE /\ local_port b = 0 /\ (forall q, UDP_LOCAL_PORT_RANGE_START <= q <= UDP_LOCAL_PORT_RANGE_END -> q ∈ ports L)
          /\ u_net s' = n /\ u_pcbs s' = u_pcbs s
        \/ exists sport nx B',
             u_pcbs s' = <[pcb := with_pcb_next (with_local b (local_ip b) sport) nx]> (u_pcbs s) /\ net_ok (u_net s') B' ext
             /\ (if local_port b =? 0 then UDP_LOCAL_PORT_RANGE_START <= sport <= UDP_LOCAL_PORT_RANGE_END /\ sport ∉ ports L else sport = local_port b)
             /\ send_outcome n (u_net s') e b nif sport src dst port p pb (contents (data (n_ps n)) ((p, pb) :: l))).
Proof.
  intros HI Hb Hsd Hdst Hport Hsrc n. pose proof (ui_null _ _ HI) as Hnull. pose proof (ui_type _ _ HI _ _ Hb) as Hok. destruct (Z.eqb_spec (local_port b) 0) as [E0|E0].
  - unfold udp_sendto_if_src. rewrite !LWIP_ERROR_ok by (apply negb_true_iff, Z.eqb_neq; apply Hsd || congruence). cbn [mbind outcome_bind].
    rewrite (pcb_at_ok s pcb b Hb). cbn [mbind outcome_bind]. rewrite (proj2 (Z.eqb_eq _ _) E0).
    destruct (bind_spec s L pcb b (Some (local_ip b)) (local_port b) HI Hb) as (e & s1 & E & Hr); [apply Hok|apply Hok|]. rewrite E. cbn [mbind outcome_bind]. rewrite E0 in Hr. cbn [Z.eqb] in Hr.
    destruct Hr as [(-> & (x & ->) & HI1 & Hall)|(-> & Hnet & q & nx & Hst & HI1 & Hno & Hq & Hq0 & Hqr)].
    + rewrite bool_decide_false by done. cbn [negb]. eexists _, _, L. split; [reflexivity|]. split; [done|]. by left.
    + rewrite bool_decide_true by done. cbn [negb]. set (b1 := with_pcb_next _ nx) in Hst. assert (Hb1 : u_pcbs s1 !! pcb = Some b1) by (rewrite Hst; apply lookup_insert_eq).
      rewrite <- Hnet in Hsd. destruct (send_bound s1 _ B ext pcb b1 p pb l dst port nif src HI1 Hb1 Hsd Hdst Hport Hsrc) as (e & s' & B' & E1 & Es & Hok' & Hout).
      cbv zeta in E1 |- *. rewrite E1. eexists e, s', _. split; [done|]. split; [rewrite Es; by apply inv_with_net|]. right. exists q, nx, B'. split; [by rewrite Es|]. split; [done|]. split; [done|].
      rewrite Hnet in Hout. exact Hout.
  - destruct (sendto_bound_any s L B ext pcb b p pb l dst port nif src HI Hb E0 Hsd Hdst Hport Hsrc) as (e & s' & B' & E1 & Es & Hok' & Hout).
    exists e, s', L. split; [done|]. split; [rewrite Es; by apply inv_with_net|]. right. exists (local_port b), (pcb_next b), B'.
    split; [rewrite Es; cbn; symmetry; apply insert_id; rewrite Hb; by destruct b|]. split; [done|]. split; [done|]. exact Hout.
Qed.

(** What a receiver sees of a datagram that was sent. *)
Lemma sent_verdict (n n' : inet) b nif sport src dst port d ig inp L pcb rb f :
  sent n n' b nif sport src dst port d -> is_u16 sport -> is_u16 port -> is_u16 (length d + 8) ->
  current_iphdr_src ig = src -> current_iphdr_dest ig = dst ->
  receiver ig inp (dest_broadcast ig) sport port L = Some (pcb, rb) -> recv rb = Some f ->
  exists hdr dgram, link_log (n_lk n') = link_log (n_lk n) ++ [(netif_num nif, dst, hdr ++ dgram)] /\ length hdr = 20%nat
    /\ be16 dgram = sport /\ drop 8 dgram = d
    /\ udp_verdict ig inp L (length dgram) dgram = VDeliver f (recv_arg rb) pcb.
Proof.
  intros (hchk & chk & Hlog & _ & Hck & _) Hs Hp Hl Es Ed Hrc Hf. set (dgram := udp_header sport port (length d + 8) chk ++ d) in *.
  eexists _, dgram. split; [exact Hlog|]. split; [done|].
  assert (Hports : be16 dgram = sport /\ be16 (drop 2 dgram) = port) by (unfold dgram; cbn; Z.div_mod_to_equations; lia). destruct Hports as [E1 E2].
  split; [exact E1|]. split; [done|]. unfold udp_verdict. rewrite E1, E2, Hrc, Hf.
  rewrite (proj2 (Z.ltb_ge _ _)) by (unfold UDP_HLEN, dgram; rewrite length_app; cbn; lia). destruct (decide (valid_datagram ig dgram)) as [|Hv]; [done|]. destruct Hv.
  unfold valid_datagram. rewrite Es, Ed. unfold checksum_ok in Hck. destruct (Z.land _ _ =? 0); [right; apply Hck|left]. unfold dgram. by rewrite Hck.
Qed.

(** What a bound control block sends with udp_sendto_if_src is accepted at its
    destination, if the packet has room for the headers: a receiver whose control
    blocks have one for the destination port hands the data, with the sender's address
    and port, to its callback (whatever the data, also when its checksum is 0). *)
Theorem udp_roundtrip (s : udp) L B ext pcb b p pb l dst port nif src ig inp L' pcb' rb f :
  udp_inv s L -> u_pcbs s !! pcb = Some b -> local_port b <> 0 -> sendable (u_net s) B ext p pb l nif -> udp_room p pb ->
  is_u32 dst -> is_u16 port -> is_u32 src ->
  current_iphdr_src ig = src -> current_iphdr_dest ig = dst ->
  receiver ig inp (dest_broadcast ig) (local_port b) port L' = Some (pcb', rb) -> recv rb = Some f ->
  exists e s' hdr dgram, udp_sendto_if_src s pcb p dst port nif src = Ret (e, s')
    /\ link_log (n_lk (u_net s')) = link_log (n_lk (u_net s)) ++ [(netif_num nif, dst, hdr ++ dgram)] /\ length hdr = 20%nat
    /\ be16 dgram = local_port b /\ drop 8 dgram = contents (data (n_ps (u_net s))) ((p, pb) :: l)
    /\ udp_verdict ig inp L' (length dgram) dgram = VDeliver f (recv_arg rb) pcb'.
Proof.
  intros HI Hb Hl Hsd Hroom Hdst Hport Hsrc Es Ed Hrc Hf.
  destruct (sendto_bound s L B ext pcb b p pb l dst port nif src HI Hb Hl Hsd Hdst Hport Hsrc) as (e & s' & B' & E & _ & _ & [(_ & Hno & _)|Hs]); [done|].
  destruct (sent_verdict _ _ _ _ _ _ _ _ _ ig inp L' pcb' rb f Hs) as (hdr & dgram & H1 & H2 & H3 & H4 & H5); try done.
  - apply (ui_type _ _ HI _ _ Hb).
  - pose proof (og_chain _ _ _ _ _ _ _ (sd_out _ _ _ _ _ _ _ Hsd)) as Hc. pose proof (sd_tot _ _ _ _ _ _ _ Hsd). pose proof (chain_cons _ _ _ _ _ Hc) as (_ & _ & _ & _ & Ht & _).
    rewrite contents_length by (apply tot_ok_lens, Hc). change (total ((p, pb) :: l)) with (p_len pb + total l). rewrite <- Ht. destruct (proj2 Hc) as (_ & _ & Hut & _). unfold_c. lia.
  - by exists e, s', hdr, dgram.
Qed.
End Output.

(** ** Witnesses *)

(** The packet in RAM of PbufChain.v, with 100 bytes. *)
Lemma sendable_p2 : exists B b, sendable net0 B (ext_add (ext_add no_ext p1) p2) p2 b [] nif0 /\ udp_room p2 b.
Proof.
  destruct ps2_inv as (B & b1 & a2 & b2 & b & HI & _ & Hc2 & _ & _ & _ & _ & _ & L & R & T & C & P & Ho).
  assert (H0 : bytes_ok (data ps2)) by (intros a; vm_compute; intuition congruence).
  exists B, b. split; [split; [split|..]|].
  - split; [|vm_compute; intuition congruence]. eapply inv_ext_eq; [|exact HI]. intros a _. cbn [link_holds wire]. lia.
  - vm_compute. congruence.
  - exact Hc2.
  - unfold ext_add. rewrite (decide_True (P := p2 = p2)) by reflexivity. lia.
  - exact R.
  - apply Forall_cons in Ho as [_ Ho]. apply Forall_cons in Ho as [_ Ho]. exact Ho.
  - rewrite contents_cons, app_nil_r. apply bytes_ok_read, H0.
  - intros _. right. rewrite T. vm_compute. congruence.
  - rewrite T. lia.
  - intros _. rewrite P. lia.
  - unfold udp_room. rewrite P. lia.
Qed.

Lemma udp_sendto_if_src_correct_witness :
  exists (s s' : udp_wire) e pcb f, u_net s = net0 /\ udp_sendto_if_src s pcb p2 host_b 7401 nif0 host_a = Ret (e, s') /\ link_log (n_lk (u_net s')) = [f].
Proof.
  destruct sendable_p2 as (B & b & Hsd & Hroom). destruct (udp_listening net0) as (s & pcb & nx & En & Hinv). rewrite <- En in Hsd.
  destruct (udp_sendto_if_src_correct s _ B _ pcb _ p2 b [] host_b 7401 nif0 host_a Hinv (ui_lookup s _ Hinv _ _ (list_elem_of_here _ _)) (sd_out _ _ _ _ _ _ _ Hsd))
    as (e & s' & L' & E & _ & [(_ & E0 & _)|(sport & nx' & B' & _ & _ & _ & Ho)]).
  - exact host_b_ok.
  - vm_compute. intuition congruence.
  - exact host_a_ok.
  - discriminate E0.
  - destruct (outcome_sent _ _ _ _ _ _ _ _ _ _ _ _ _ _ _ Hsd Hroom Ho) as [f Hlog]. exists s, s', e, pcb, f. split; [exact En|]. split; [exact E|]. rewrite Hlog, En. exact (app_nil_l _).
Defined.

Lemma listening_receives pcb nx :
  receiver echo_ig nif0 (dest_broadcast echo_ig) 7400 7400 [(pcb, with_pcb_next (with_local (with_recv new_pcb (Some 1) 2) host_a 7400) nx)]
  = Some (pcb, with_pcb_next (with_local (with_recv new_pcb (Some 1) 2) host_a 7400) nx).
Proof. vm_compute. reflexivity. Qed.

Lemma port_7400_bound : 7400 <> 0.
Proof. discriminate. Qed.

Lemma echo_src_ok : is_u32 (current_iphdr_src echo_ig).
Proof. vm_compute. intuition congruence. Qed.

Lemma udp_roundtrip_witness :
  exists (s s' : udp_wire) e pcb hdr dgram, udp_sendto_if_src s pcb p2 host_a 7400 nif0 (current_iphdr_src echo_ig) = Ret (e, s')
    /\ link_log (n_lk (u_net s')) = [(1, host_a, hdr ++ dgram)] /\ be16 dgram = 7400.
Proof.
  destruct sendable_p2 as (B & b & Hsd & Hroom). destruct (udp_listening net0) as (s & pcb & nx & En & Hinv). rewrite <- En in Hsd.
  destruct (udp_roundtrip s _ B _ pcb (with_pcb_next (with_local (with_recv new_pcb (Some 1) 2) host_a 7400) nx) p2 b [] host_a 7400 nif0
              (current_iphdr_src echo_ig) echo_ig nif0 _ pcb _ 1 Hinv (ui_lookup s _ Hinv _ _ (list_elem_of_here _ _)) port_7400_bound Hsd Hroom host_a_ok port_7400
              echo_src_ok eq_refl eq_refl (listening_receives pcb nx) eq_refl) as (e & s' & hdr & dgram & E & Hlog & _ & Hp & _).
  exists s, s', e, pcb, hdr, dgram. split; [exact E|]. split; [|exact Hp]. rewrite Hlog, En. reflexivity.
Defined.
