(* ===== verification/Ip4Input.v ===== *)
(** * IPv4 input (src/lwip/src/core/ipv4/ip4.c)

    ip4_input checks a received packet, finds the interface that accepts it, passes
    fragments through ip4_reass and hands the packet to ICMP, IGMP, UDP or TCP; ip4_forward
    sends on a packet for another host.  The state is that of all of them around one
    network: the packets, the link layer and the IP header ID.

    Options: IP_FORWARD is a parameter (0 by default), IP_REASSEMBLY and
    IP_OPTIONS_ALLOWED 1, LWIP_RAW, LWIP_NETIF_LOOPBACK, LWIP_AUTOIP, LWIP_DHCP and
    IP_FORWARD_ALLOW_TX_ON_RX_NETIF 0, no hooks.  tcp_input is a parameter: TCP is not
    modelled. *)

From S2P Require Import Prelude Def ListSeg InetChksum Ip4Addr Mem Memp Pbuf PbufMem PbufRef PbufChain PbufData Header Ip4 Ip4Frag Icmp Reass Igmp Udp.

#[local] Open Scope Z_scope.
#[local] Coercion Z.of_nat : nat >-> Z.

(** ** Constants (include/lwip/ip4_addr.h, pbuf.h, icmp.h) *)

Definition IP_CLASSA (a : Z) : bool := Z.land a 0x80000000 =? 0.
Definition IP_CLASSA_NET : Z := 0xff000000.
Definition IP_CLASSA_NSHIFT : Z := 24.
Definition IP_MULTICAST (a : Z) : bool := Z.land a 0xf0000000 =? 0xe0000000.
Definition IP_EXPERIMENTAL (a : Z) : bool := Z.land a 0xf0000000 =? 0xf0000000.
Definition IP_LOOPBACKNET : Z := 127.
Definition PBUF_FLAG_LLBCAST : Z := 0x08.
Definition PBUF_FLAG_LLMCAST : Z := 0x10.
Definition ICMP_DUR_FRAG : Z := 4.
Definition ICMP_TE_TTL : Z := 0.

(** Pointers to interfaces are compared by the interface number. *)
Definition same_netif (a b : netif) : bool := netif_num a =? netif_num b.

Section Input.
Context `{MO : MemOptions} `{PO : PbufOptions} {St : Type} `{!PacketMemory St} {Lk : Type} `{!LinkLayer Lk St}
  {Pr : Type} `{PrP : !ElementPool Pr} {Pi : Type} `{PiP : !ElementPool Pi} {Pu : Type} `{PuP : !ElementPool Pu}.

Abbreviation inet := (net (St := St) (Lk := Lk)).
Abbreviation reass := (reass (St := St) (Lk := Lk) (Pl := Pr)).
Abbreviation igmp := (igmp (St := St) (Lk := Lk) (Pl := Pi)).
Abbreviation udp := (udp (St := St) (Lk := Lk) (Pl := Pu)).

Context (rnd : nat -> Z) (recv_fn : Z -> Z -> Z -> Z -> Z -> Z -> udp -> outcome udp)
  (tcp_input : inet -> ip_globals -> Z -> netif -> outcome inet) (IP_FORWARD : bool).

(** ** State *)

(** The network and the modules above it; the network in a module's own state is replaced
    by [k_net] whenever the module runs. *)
Record stack := Stack { k_net : inet; k_reass : reass; k_igmp : igmp; k_udp : udp }.

Definition in_reass (s : stack) : reass := with_rnet (k_reass s) (k_net s).
Definition in_igmp (s : stack) : igmp := with_net (k_igmp s) (k_net s).
Definition in_udp (s : stack) : udp := with_unet (k_udp s) (k_net s).
Definition put_net (s : stack) (n : inet) : stack := Stack n (k_reass s) (k_igmp s) (k_udp s).
Definition put_reass (s : stack) (x : reass) : stack := Stack (r_net x) x (k_igmp s) (k_udp s).
Definition put_igmp (s : stack) (x : igmp) : stack := Stack (i_net x) (k_reass s) x (k_udp s).
Definition put_udp (s : stack) (x : udp) : stack := Stack (u_net x) (k_reass s) (k_igmp s) x.

Definition k_mem (s : stack) : bytes := data (n_ps (k_net s)).

(** ** Forwarding *)

Definition ip4_canforward (b : pbuf) (dest : Z) : bool :=
  let addr := lwip_htonl dest in
  if negb (Z.land (p_flags b) PBUF_FLAG_LLBCAST =? 0) then false
  else if negb (Z.land (p_flags b) PBUF_FLAG_LLMCAST =? 0) || IP_MULTICAST addr then false
  else if IP_EXPERIMENTAL addr then false
  else if IP_CLASSA addr then
    let net := Z.land addr IP_CLASSA_NET in
    negb ((net =? 0) || (net =? u32 (Z.shiftl IP_LOOPBACKNET IP_CLASSA_NSHIFT)))
  else true.

(** The incremental update of the checksum when the TTL goes down by one. *)
Definition ttl_chksum (c : Z) : Z :=
  if PP_HTONS (0xffff - 0x100) <=? c then u16 (c + PP_HTONS 0x100 + 1) else u16 (c + PP_HTONS 0x100).

Definition ip4_forward (ns : netifs) (n : inet) (p iphdr : Z) (inp : netif) (dest : Z) : outcome inet :=
  b ← deref (n_ps n) p;
  if negb (ip4_canforward b dest) then Ret n
  else if ip4_addr_islinklocal dest then Ret n
  else
    match ip4_route ns dest with
    | None => Ret n
    | Some nif =>
        if same_netif nif inp then Ret n
        else
          let m := data (n_ps n) in
          let m := IPH_TTL_SET m iphdr (IPH_TTL m iphdr - 1) in
          let n := with_ps n (with_data (n_ps n) m) in
          if IPH_TTL m iphdr =? 0 then
            if negb (IPH_PROTO m iphdr =? IP_PROTO_ICMP) then icmp_time_exceeded ns n p ICMP_TE_TTL else Ret n
          else
            let m := IPH_CHKSUM_SET m iphdr (ttl_chksum (IPH_CHKSUM m iphdr)) in
            let n := with_ps n (with_data (n_ps n) m) in
            if negb (netif_mtu nif =? 0) && (netif_mtu nif <? p_tot_len b) then
              if Z.land (IPH_OFFSET m iphdr) (PP_HTONS IP_DF) =? 0 then
                '(_, n) ← ip4_frag n p nif dest; Ret n
              else icmp_dest_unreach ns n p ICMP_DUR_FRAG
            else '(_, n) ← netif_output n nif p dest; Ret n
    end.

(** ** Accepting a packet *)

Definition ip4_input_accept (dest : Z) (nif : netif) : bool :=
  netif_is_up nif && negb (ip4_addr_isany_val (netif_ip4_addr nif))
  && (ip4_addr_cmp dest (netif_ip4_addr nif) || ip4_addr_isbroadcast_u32 dest nif).

(** The loop over the other interfaces. *)
Fixpoint accept_loop (l : list netif) (inp : netif) (dest : Z) : option netif :=
  match l with
  | [] => None
  | nif :: l => if same_netif nif inp then accept_loop l inp dest else if ip4_input_accept dest nif then Some nif else accept_loop l inp dest
  end.

(** The interface that the packet is for, and check_ip_src. *)
Definition find_netif (ns : netifs) (s : stack) (inp : netif) (src dest : Z) : outcome (option netif * bool) :=
  if ip4_addr_ismulticast dest then
    group ← (if negb (Z.land (netif_flags inp) NETIF_FLAG_IGMP =? 0) then igmp_lookfor_group (in_igmp s) inp dest else Ret NULL);
    if negb (group =? NULL) then
      Ret (Some inp, negb (ip4_addr_cmp dest (IP4_ADDR 224 0 0 1) && ip4_addr_isany_val src))
    else Ret (None, true)
  else if ip4_input_accept dest inp then Ret (Some inp, true)
  else Ret (if negb (ip4_addr_isloopback dest) then accept_loop (netif_list ns) inp dest else None, true).

(** ** Delivery *)

(** pbuf_free(p); return ERR_OK *)
Definition input_drop (s : stack) (p : Z) : outcome (err_t * stack) := n ← net_free (k_net s) p; Ret (ERR_OK, put_net s n).

(** case default of the switch *)
Definition unknown_proto (ns : netifs) (s : stack) (p hlen : Z) (nif : netif) (dest : Z) : outcome (err_t * stack) :=
  s ← (if negb (ip4_addr_isbroadcast_u32 dest nif) && negb (ip4_addr_ismulticast dest) then
         '(_, ps) ← pbuf_header_force (n_ps (k_net s)) p hlen;
         n ← icmp_dest_unreach ns (with_ps (k_net s) ps) p ICMP_DUR_PROTO;
         Ret (put_net s n)
       else Ret s);
  input_drop s p.

(** The switch over the protocol. *)
Definition dispatch (ns : netifs) (s : stack) (ig : ip_globals) (p hlen : Z) (inp : netif) (proto : Z) : outcome (err_t * stack) :=
  if proto =? IP_PROTO_UDP then u ← udp_input recv_fn ns (in_udp s) ig p inp; Ret (ERR_OK, put_udp s u)
  else if proto =? IP_PROTO_TCP then n ← tcp_input (k_net s) ig p inp; Ret (ERR_OK, put_net s n)
  else if proto =? IP_PROTO_ICMP then n ← icmp_input (k_net s) ig p inp; Ret (ERR_OK, put_net s n)
  else if proto =? IP_PROTO_IGMP then i ← igmp_input rnd (in_igmp s) p inp (current_iphdr_dest ig); Ret (ERR_OK, put_igmp s i)
  else unknown_proto ns s p hlen (current_netif ig) (current_iphdr_dest ig).

(** The end of ip4_input: [p] is the whole packet. *)
Definition deliver (ns : netifs) (s : stack) (p hlen : Z) (nif inp : netif) (src dest : Z) : outcome (err_t * stack) :=
  b ← deref (n_ps (k_net s)) p;
  let iphdr := p_payload b in
  let ig := IpGlobals nif inp iphdr (IPH_HL_BYTES (k_mem s) iphdr) src dest in
  '(_, ps) ← pbuf_remove_header (n_ps (k_net s)) p hlen;
  let s := put_net s (with_ps (k_net s) ps) in
  dispatch ns s ig p hlen inp (IPH_PROTO (k_mem s) iphdr).

(** A packet that no interface accepts. *)
Definition not_for_us (ns : netifs) (s : stack) (p : Z) (inp : netif) (dest : Z) : outcome (err_t * stack) :=
  s ← (if IP_FORWARD && negb (ip4_addr_isbroadcast_u32 dest inp) then
         b ← deref (n_ps (k_net s)) p;
         n ← ip4_forward ns (k_net s) p (p_payload b) inp dest;
         Ret (put_net s n)
       else Ret s);
  input_drop s p.

(** ** ip4_input *)

Definition ip4_input (ns : netifs) (s : stack) (p : Z) (inp : netif) : outcome (err_t * stack) :=
  b ← deref (n_ps (k_net s)) p;
  let iphdr := p_payload b in
  if negb (IPH_V (k_mem s) iphdr =? 4) then input_drop s p
  else
    let iphdr_hlen := IPH_HL_BYTES (k_mem s) iphdr in
    let iphdr_len := lwip_htons (IPH_LEN (k_mem s) iphdr) in
    ps ← (if iphdr_len <? p_tot_len b then pbuf_realloc (n_ps (k_net s)) p iphdr_len else Ret (n_ps (k_net s)));
    let s := put_net s (with_ps (k_net s) ps) in
    b ← deref ps p;
    if (p_len b <? iphdr_hlen) || (p_tot_len b <? iphdr_len) || (iphdr_hlen <? IP_HLEN) then input_drop s p
    else if negb (inet_chksum iphdr (read_bytes (k_mem s) iphdr (Z.to_nat iphdr_hlen)) =? 0) then input_drop s p
    else
      let dest := iph_dest (k_mem s) iphdr in
      let src := iph_src (k_mem s) iphdr in
      '(nif, check_ip_src) ← find_netif ns s inp src dest;
      if check_ip_src && (ip4_addr_isbroadcast_u32 src inp || ip4_addr_ismulticast src) then input_drop s p
      else
        match nif with
        | None => not_for_us ns s p inp dest
        | Some nif =>
            if negb (Z.land (IPH_OFFSET (k_mem s) iphdr) (PP_HTONS (Z.lor IP_OFFMASK IP_MF)) =? 0) then
              '(p, r) ← ip4_reass ns (in_reass s) p;
              let s := put_reass s r in
              if p =? NULL then Ret (ERR_OK, s) else deliver ns s p iphdr_hlen nif inp src dest
            else deliver ns s p iphdr_hlen nif inp src dest
        end.
End Input.
