(* ===== verification/Ip4InputSpec.v ===== *)
(** * IPv4 input: properties

    What ip4_input does with a packet, as a function of the bytes of the packet, the
    interfaces and the groups joined; that each module above gets the packet the way it
    needs it; and forwarding. *)

From S2P Require Import Prelude Def ListSeg InetChksum Ip4Addr Mem Memp Pbuf PbufMem PbufRef PbufChain PbufData Header Ip4 Ip4Frag Icmp IcmpSpec Reass ReassQueue ReassFree ReassStep ReassSpec Igmp IgmpSpec IgmpSafe Udp UdpSpec UdpInput Ip4Input.

#[local] Open Scope Z_scope.
#[local] Coercion Z.of_nat : nat >-> Z.

(** ** Specification: the header *)

(** The fields of the IP header at the start of the bytes [C]. *)
Definition h_version (C : list Z) : Z := le_val (take 1 C) / 16.
Definition h_hlen (C : list Z) : Z := 4 * (le_val (take 1 C) mod 16).
Definition h_len (C : list Z) : Z := be16 (drop 2 C).
Definition h_offset (C : list Z) : Z := be16 (drop 6 C).
Definition h_ttl (C : list Z) : Z := le_val (take 1 (drop 8 C)).
Definition h_proto (C : list Z) : Z := le_val (take 1 (drop 9 C)).
Definition h_src (C : list Z) : Z := le_val (take 4 (drop 12 C)).
Definition h_dest (C : list Z) : Z := le_val (take 4 (drop 16 C)).

(** A packet with the bytes [C], [first] of them in its first pbuf, has a good header: the
    header is in the first pbuf, the packet is as long as it says, and the checksum is
    right. *)
Definition good_header (first : Z) (C : list Z) : bool :=
  (20 <=? first) && (h_version C =? 4) && (20 <=? h_hlen C) && (h_hlen C <=? first) && (h_hlen C <=? h_len C) && (h_len C <=? length C)
  && (rfc1071_checksum (take (Z.to_nat (h_hlen C)) C) =? 0).

(** ** Specification: the interface *)

(** The interface has joined the group. *)
Definition joined (L : Z -> list (Z * igmp_group)) (inp : netif) (dest : Z) : bool :=
  negb (Z.land (netif_flags inp) NETIF_FLAG_IGMP =? 0) && match find_group dest (L (netif_num inp)) with Some _ => true | None => false end.

(** The interface that a packet to [dest] is for. *)
Definition accepting (ns : netifs) (L : Z -> list (Z * igmp_group)) (inp : netif) (dest : Z) : option netif :=
  if ip4_addr_ismulticast dest then if joined L inp dest then Some inp else None
  else if ip4_input_accept dest inp then Some inp
  else if ip4_addr_isloopback dest then None
  else List.find (λ nif, negb (same_netif nif inp) && ip4_input_accept dest nif) (netif_list ns).

(** The source is one host; 0.0.0.0 may write to the all systems group. *)
Definition good_source (L : Z -> list (Z * igmp_group)) (inp : netif) (src dest : Z) : bool :=
  (ip4_addr_ismulticast dest && joined L inp dest && ip4_addr_cmp dest (IP4_ADDR 224 0 0 1) && ip4_addr_isany_val src)
  || negb (ip4_addr_isbroadcast_u32 src inp || ip4_addr_ismulticast src).

(** ** Specification: the verdict *)

Inductive ip_verdict := IDrop | INotForUs | IReass (nif : netif) | IDeliver (nif : netif).

Definition input_verdict (ns : netifs) (L : Z -> list (Z * igmp_group)) (inp : netif) (first : Z) (C : list Z) : ip_verdict :=
  if good_header first C && good_source L inp (h_src C) (h_dest C) then
    match accepting ns L inp (h_dest C) with
    | None => INotForUs
    | Some nif => if h_offset C mod 16384 =? 0 then IDeliver nif else IReass nif
    end
  else IDrop.

(** ** Lemmas: the header in memory *)

Lemma offset_flags_all :
  forallb (λ a, forallb (λ b, Bool.eqb (Z.land (a + 256 * b) (PP_HTONS (Z.lor IP_OFFMASK IP_MF)) =? 0) ((256 * a + b) mod 16384 =? 0)) (Z.of_nat <$> seq 0 256)) (Z.of_nat <$> seq 0 256) = true.
Proof. vm_compute. reflexivity. Qed.

Lemma offset_flags a b : is_u8 a -> is_u8 b -> (Z.land (a + 256 * b) (PP_HTONS (Z.lor IP_OFFMASK IP_MF)) =? 0) = ((256 * a + b) mod 16384 =? 0).
Proof.
  intros Ha Hb. pose proof offset_flags_all as H. rewrite forallb_forall in H. assert (Hin : forall x, is_u8 x -> In x (Z.of_nat <$> seq 0 256)).
  { intros x Hx. apply list_elem_of_In, list_elem_of_fmap. exists (Z.to_nat x). unfold is_u8 in Hx. split; [lia|]. apply elem_of_seq. lia. }
  specialize (H a (Hin a Ha)). rewrite forallb_forall in H. specialize (H b (Hin b Hb)). by apply Bool.eqb_prop in H.
Qed.

(** The fields the code reads. *)
Lemma header_reads m a C :
  read_bytes m a 20 = take 20 C -> Forall is_u8 C -> (20 <= length C)%nat ->
  IPH_V m a = h_version C /\ IPH_HL_BYTES m a = h_hlen C /\ lwip_htons (IPH_LEN m a) = h_len C
  /\ (Z.land (IPH_OFFSET m a) (PP_HTONS (Z.lor IP_OFFMASK IP_MF)) =? 0) = (h_offset C mod 16384 =? 0)
  /\ IPH_PROTO m a = h_proto C /\ IPH_TTL m a = h_ttl C /\ iph_src m a = h_src C /\ iph_dest m a = h_dest C
  /\ lwip_htons (IPH_OFFSET m a) = h_offset C /\ is_u8 (h_proto C) /\ is_u32 (h_src C) /\ is_u32 (h_dest C) /\ is_u16 (h_len C).
Proof.
  intros E H8 HL. unfold IPH_V, IPH_HL_BYTES, IPH_HL, iph_vhl, IPH_LEN, IPH_OFFSET, IPH_PROTO, IPH_TTL, iph_src, iph_dest, h_version, h_hlen, h_len, h_offset, h_proto, h_ttl, h_src, h_dest.
  rewrite (load_0 m a 1 20), !(load_at m a _ _ 20), E by lia. clear E m. assert (Hsplit : C = take 20 C ++ drop 20 C) by (by rewrite take_drop). revert Hsplit. generalize (drop 20 C) as R. intros R HC.
  assert (HT : length (take 20 C) = 20%nat) by (rewrite length_take; lia). revert HC HT. generalize (take 20 C) as T. intros T -> HT. clear HL. apply Forall_app in H8 as [H8 _]. explode 20 T HT.
  repeat match goal with H : Forall is_u8 (_ :: _) |- _ => apply Forall_cons in H as [? H] end.
  assert (Hb : forall x y, is_u8 x -> is_u8 y -> lwip_htons (le_val [x; y]) = 256 * x + y) by (intros x y Hx Hy; exact (htons_be16 [x; y] ltac:(constructor; [exact Hx|constructor; [exact Hy|constructor]]) ltac:(cbn; lia))).
  change (Z.to_nat 2) with 2%nat. change (Z.to_nat 6) with 6%nat. change (Z.to_nat 8) with 8%nat. change (Z.to_nat 9) with 9%nat. change (Z.to_nat 12) with 12%nat. change (Z.to_nat 16) with 16%nat.
  cbn [take drop app be16]. rewrite take_0, !Hb by done. assert (Hv : le_val [z] = z) by (cbn; lia). rewrite Hv. unfold is_u8 in *. split_and!; try done.
  - by rewrite Z.shiftr_div_pow2.
  - change 15 with (Z.ones 4). rewrite Z.land_ones by lia. change (2 ^ 4) with 16. rewrite u8_small by (unfold_c; Z.div_mod_to_equations; lia). lia.
  - replace (le_val [z5; z6]) with (z5 + 256 * z6) by (cbn; lia). by apply offset_flags.
  - cbn. lia.
  - cbn. lia.
  - unfold is_u32. change (2 ^ 32) with 4294967296. change (2 ^ 8) with 256 in *. cbn. lia.
  - unfold is_u32. change (2 ^ 32) with 4294967296. change (2 ^ 8) with 256 in *. cbn. lia.
  - unfold_c. lia.
Qed.

Section Spec.
Context `{MO : MemOptions} {MOk : MemOptionsOk} `{PO : PbufOptions} {POk : PbufOptionsOk} {St : Type} `{!PacketMemory St} {Lk : Type} `{LL : !LinkLayer Lk St}
  {Pr : Type} `{PrP : !ElementPool Pr} {Pi : Type} `{PiP : !ElementPool Pi} {Pu : Type} `{PuP : !ElementPool Pu}.
Abbreviation inet := (net (St := St) (Lk := Lk)).
Abbreviation pst := (pstate (St := St)).
Abbreviation udp := (udp (St := St) (Lk := Lk) (Pl := Pu)).
Abbreviation stack := (stack (St := St) (Lk := Lk) (Pr := Pr) (Pi := Pi) (Pu := Pu)).
Context (rnd : nat -> Z) (recv_fn : Z -> Z -> Z -> Z -> Z -> Z -> udp -> outcome udp)
  (tcp_input : inet -> ip_globals -> Z -> netif -> outcome inet) (IP_FORWARD : bool).
Abbreviation ip4_input := (ip4_input rnd recv_fn tcp_input IP_FORWARD).
Abbreviation dispatch := (dispatch rnd recv_fn tcp_input).

(** A packet from a driver: every pbuf held once, the data in memory of its own, which can
    be trimmed.  (The header is read before its length is checked.) *)
Record received (s : pst) (p : Z) (b : pbuf) (l : list (Z * pbuf)) : Prop := Received {
  rc_chain : chain s p ((p, b) :: l);
  rc_own : own_data ((p, b) :: l);
  rc_refs : Forall (λ x, p_ref x.2 = 1) ((p, b) :: l);
  rc_bytes : Forall is_u8 (contents (data s) ((p, b) :: l));
  rc_clen : length l < 65535;
  rc_header : Forall is_u8 (read_bytes (data s) (p_payload b) 20);
  rc_trim a n : a ∈ p :: l.*1 -> trim_ok (pmem s) a n
}.

(** The modules above keep their own state; the network may change. *)
Definition modules_stay (s s' : stack) : Prop := k_reass s' = k_reass s /\ k_igmp s' = k_igmp s /\ k_udp s' = k_udp s.

(** The packet is freed and nothing else happens. *)
Definition dropped (s s' : stack) (ext : Z -> nat) (D : list dgram) : Prop :=
  (exists B', reass_inv (in_reass s') B' ext D) /\ modules_stay s s' /\ link_log (n_lk (k_net s')) = link_log (n_lk (k_net s)).

(** ** Lemmas: dropping and trimming *)

Lemma modules_stay_trans s1 s2 s3 : modules_stay s1 s2 -> modules_stay s2 s3 -> modules_stay s1 s3.
Proof. unfold modules_stay. intuition congruence. Qed.

Lemma drop_spec (s : stack) B ext D p :
  reass_inv (in_reass s) B (ext_add ext p) D -> p <> NULL -> exists s', input_drop s p = Ret (ERR_OK, s') /\ dropped s s' ext D.
Proof.
  intros (HC & Hcn & Hf) Hp. destruct (null_return_spec _ _ _ _ _ HC Hp) as (r & B' & E & HC' & Ecn & Hlog & _). unfold null_return in E. cbn [r_net in_reass with_rnet] in E. unfold input_drop.
  destruct (net_free (k_net s) p) as [n|]; [|done]. cbn [mbind outcome_bind] in E |- *. injection E as <-. exists (put_net s n). split; [done|]. split; [|done]. exists B'. split; [exact HC'|]. split; [|done]. by eapply counted_frags.
Qed.

Lemma trimmed_facts l l' (k : nat) : Forall2 trimmed (take k l) l' ->
  (forall a, a ∈ l'.*1 -> a ∈ l.*1) /\ (length l' <= length l)%nat
  /\ (own_data l -> Forall (λ x, p_ref x.2 = 1) l -> own_data l' /\ Forall (λ x, p_ref x.2 = 1) l').
Proof.
  revert k l'. induction l as [|x l IH]; intros k l' H; [rewrite take_nil in H; apply Forall2_nil_inv_l in H as ->; split; [done|]; split; [cbn; lia|done]|].
  destruct k as [|k]; [apply Forall2_nil_inv_l in H as ->; split; [by intros a Ha; apply not_elem_of_nil in Ha|]; split; [cbn; lia|intros _ _; split; constructor]|].
  apply Forall2_cons_inv_l in H as (y & l1 & (E1 & _ & E3 & E4 & E5 & _) & H & ->). destruct (IH k l1 H) as (I1 & I2 & I3). split; [|split; [cbn; lia|]].
  - intros a Ha. cbn [fmap list_fmap] in *. rewrite E1 in Ha. apply elem_of_cons in Ha as [->|Ha]; [by left|right; by apply I1].
  - intros Ho Hr. apply Forall_cons in Ho as [[Ho1 Ho2] Ho]. apply Forall_cons in Hr as [Hr1 Hr]. destruct (I3 Ho Hr) as [I4 I5]. split; constructor; try done; [|by rewrite E5].
    unfold is_contiguous, is_custom in *. by rewrite E3, E4.
Qed.

(** The packet [p] with the first [len] bytes of what it was, and the rest of the system as
    it was. *)
Lemma trim_spec (s : stack) B ext D p b l len :
  reass_inv (in_reass s) B (ext_add ext p) D -> received (n_ps (k_net s)) p b l -> is_u16 len ->
  exists ps b' l' B', (if len <? p_tot_len b then pbuf_realloc (n_ps (k_net s)) p len else Ret (n_ps (k_net s))) = Ret ps
    /\ reass_inv (in_reass (put_net s (with_ps (k_net s) ps))) B' (ext_add ext p) D /\ chain ps p ((p, b') :: l') /\ own_data ((p, b') :: l')
    /\ Forall (λ x, p_ref x.2 = 1) ((p, b') :: l') /\ length l' < 65535 /\ data ps = data (n_ps (k_net s)) /\ p_payload b' = p_payload b /\ p_flags b' = p_flags b
    /\ p_len b' = Z.min (p_len b) len /\ p_tot_len b' = Z.min (p_tot_len b) len
    /\ contents (data ps) ((p, b') :: l') = take (Z.to_nat len) (contents (data (n_ps (k_net s))) ((p, b) :: l)).
Proof.
  intros (HC & Hcn & Hf) Hrc Hlen. pose proof Hrc as [Hc Hown Hr H8 Hcl Hrh Htr]. pose proof (chain_cons _ _ _ _ _ Hc) as (_ & Hb & _ & Hbl & Ht & Hut & Htl). pose proof (ri_net _ _ _ _ HC) as Hok.
  pose proof (contents_length (data (n_ps (k_net s))) _ (tot_ok_lens _ (proj2 Hc))) as HlC. change (total ((p, b) :: l)) with (p_len b + total l) in HlC.
  destruct (Z.ltb_spec len (p_tot_len b)) as [Hlt|Hge].
  2:{ exists (n_ps (k_net s)), b, l, B. split; [done|]. split; [split; [by destruct s as [[] ? ? ?]|done]|]. unfold is_u16, is_u16 in *. split_and!; try done; [lia|lia|]. by rewrite take_ge by lia. }
  destruct (realloc_spec (n_ps (k_net s)) B _ p ((p, b) :: l) len (proj1 Hok) Hc ltac:(done)) as (ps & l1 & B' & E & Hc' & Htot & Hcont & Hd & HI' & _ & (k & Htrim) & (x & r & [p' b'] & l' & Ex & -> & Hmin) & Hfr).
  { change (total ((p, b) :: l)) with (p_len b + total l). unfold is_u16 in Hlen. lia. }
  { intros a c n Hin. apply Htr. apply (list_elem_of_fmap_2 fst) in Hin. exact Hin. }
  injection Ex as <- <-. cbn [fst snd] in Hmin. assert (p' = p) as -> by (by destruct Hc' as [(-> & _) _]). pose proof (chain_cons _ _ _ _ _ Hc') as (_ & _ & _ & _ & Ht' & _ & Htl'). change (total ((p, b') :: l')) with (p_len b' + total l') in Htot.
  exists ps, b', l', B'. split; [done|].
  destruct (trimmed_facts _ _ _ Htrim) as (Hsub & Hfl & Hkeep). destruct (Hkeep Hown Hr) as [Hown' Hr'].
  destruct (packet_apart _ _ _ _ _ _ _ HC Hc Hr) as [_ Hap].
  split; [split; [|split; [exact Hcn|exact Hf]]|].
  - destruct HC as [HL _ HD Hnd]. split; [by destruct HL|split; [exact HI'|apply Hok]| |done]. eapply dgrams_keep; [exact HD|]. apply Forall_forall. intros g Hg. apply keeps_pbufs; [|done].
    intros y Hy. apply Hfr. intros Hy'. apply (Hap y Hy'). by apply (elem_nodes g).
  - unfold is_u16 in *. pose proof (Forall2_length _ _ _ Htrim) as Hll. cbn in Hll. rewrite length_take in Hll. split_and!; try done; try lia.
    + apply Forall2_cons in Htrim as [(_ & ? & _) _]. done.
    + apply Forall2_cons in Htrim as [(_ & _ & _ & ? & _) _]. done.
    + by rewrite Hd.
Qed.

(** ** Lemmas: the interface *)

Lemma accept_loop_find l inp dest : accept_loop l inp dest = List.find (λ nif, negb (same_netif nif inp) && ip4_input_accept dest nif) l.
Proof. induction l as [|nif l IH]; [done|]. cbn [accept_loop List.find]. rewrite IH. by destruct (same_netif nif inp), (ip4_input_accept dest nif). Qed.

Lemma find_group_some addr l a g : find_group addr l = Some (a, g) -> (a, g) ∈ l.
Proof. induction l as [|[x y] l IH]; [done|]. cbn. case_if; [intros [= -> ->]; by left|]. intros Hf. right. by apply IH. Qed.

Lemma find_netif_spec ns (s : stack) L inp src dest :
  igmp_inv (in_igmp s) L ->
  exists c, find_netif ns s inp src dest = Ret (accepting ns L inp dest, c) /\ c && (ip4_addr_isbroadcast_u32 src inp || ip4_addr_ismulticast src) = negb (good_source L inp src dest).
Proof.
  intros HI. unfold find_netif, accepting, good_source. set (bad := ip4_addr_isbroadcast_u32 src inp || ip4_addr_ismulticast src). destruct (ip4_addr_ismulticast dest) eqn:Em.
  - unfold joined. destruct (negb (Z.land (netif_flags inp) NETIF_FLAG_IGMP =? 0)); cbn [andb mbind outcome_bind]; [|exists true; split; [done|by destruct bad]].
    rewrite (lookfor_spec _ _ _ _ (gi_shape _ _ HI)). cbn [mbind outcome_bind]. destruct (find_group dest (L (netif_num inp))) as [[a g]|] eqn:Ef; [|exists true; split; [done|by destruct bad]].
    assert (Ha : a <> NULL).
    { intros ->. apply find_group_some in Ef. pose proof (lseg_lookup _ _ _ _ _ _ _ (sh_seg _ _ _ _ (gi_shape _ _ HI) (netif_num inp)) Ef) as Hl. by rewrite (shape_null _ _ _ _ (gi_shape _ _ HI)) in Hl. }
    rewrite (proj2 (Z.eqb_neq _ _) Ha). eexists. split; [done|]. by destruct (ip4_addr_cmp dest _), (ip4_addr_isany_val src), bad.
  - exists true. rewrite accept_loop_find. destruct (ip4_input_accept dest inp); [split; [done|by destruct bad]|]. by destruct (ip4_addr_isloopback dest), bad.
Qed.

(** ** Lemmas: the checks *)

(** The packet [p], of the first pbuf [b], is cut when it is longer than [len]. *)
Definition cut_to (s : pst) (p : Z) (b : pbuf) (len : Z) : outcome pst := if len <? p_tot_len b then pbuf_realloc s p len else Ret s.

(** The packet after the checks, cut to its IP length. *)
Record whole_packet (s s1 : stack) (B1 : gmap Z block) (ext : Z -> nat) (D : list dgram) (p : Z) (b b1 : pbuf) (l1 : list (Z * pbuf)) (C : list Z) : Prop := WholePacket {
  wp_inv : reass_inv (in_reass s1) B1 (ext_add ext p) D;
  wp_chain : chain (n_ps (k_net s1)) p ((p, b1) :: l1);
  wp_own : own_data ((p, b1) :: l1);
  wp_refs : Forall (λ x, p_ref x.2 = 1) ((p, b1) :: l1);
  wp_clen : length l1 < 65535;
  wp_payload : p_payload b1 = p_payload b;
  wp_flags : p_flags b1 = p_flags b;
  wp_first : p_len b1 = Z.min (p_len b) (h_len C);
  wp_tot : p_tot_len b1 = h_len C;
  wp_mem : k_mem s1 = k_mem s;
  wp_contents : contents (k_mem s1) ((p, b1) :: l1) = take (Z.to_nat (h_len C)) C;
  wp_bytes : Forall is_u8 C;
  wp_len : h_len C <= length C;
  wp_stay : modules_stay s s1;
  wp_log : n_lk (k_net s1) = n_lk (k_net s);
  wp_cut : cut_to (n_ps (k_net s)) p b (h_len C) = Ret (n_ps (k_net s1));
  wp_net : k_net s1 = with_ps (k_net s) (n_ps (k_net s1))
}.

Lemma good_header_iff first C :
  good_header first C = true <-> 20 <= first /\ h_version C = 4 /\ 20 <= h_hlen C <= first /\ h_hlen C <= h_len C /\ h_len C <= length C /\ rfc1071_checksum (take (Z.to_nat (h_hlen C)) C) = 0.
Proof. unfold good_header. rewrite !andb_true_iff, !Z.leb_le, !Z.eqb_eq. lia. Qed.

Lemma load_u16 m a : Forall is_u8 (read_bytes m a 20) -> is_u16 (IPH_LEN m a).
Proof.
  intros H. unfold IPH_LEN. rewrite (load_at m a 2 2 20) by lia. assert (HL : length (read_bytes m a 20) = 20%nat) by apply read_bytes_length. revert H HL. generalize (read_bytes m a 20) as T. intros T H HL. explode 20 T HL.
  do 4 apply Forall_cons in H as [? H]. unfold is_u8, is_u16 in *. change (2 ^ 16) with 65536. change (2 ^ 8) with 256 in *. change (Z.to_nat 2) with 2%nat. cbn. lia.
Qed.

Lemma checks_spec ns (s : stack) B ext D L p b l inp :
  reass_inv (in_reass s) B (ext_add ext p) D -> igmp_inv (in_igmp s) L -> received (n_ps (k_net s)) p b l ->
  let C := contents (k_mem s) ((p, b) :: l) in
  if good_header (p_len b) C && good_source L inp (h_src C) (h_dest C) then
    exists s1 b1 l1 B1, whole_packet s s1 B1 ext D p b b1 l1 C
      /\ ip4_input ns s p inp =
           match accepting ns L inp (h_dest C) with
           | None => not_for_us IP_FORWARD ns s1 p inp (h_dest C)
           | Some nif =>
               if h_offset C mod 16384 =? 0 then deliver rnd recv_fn tcp_input ns s1 p (h_hlen C) nif inp (h_src C) (h_dest C)
               else '(q, r) ← ip4_reass ns (in_reass s1) p;
                    let s2 := put_reass s1 r in
                    if q =? NULL then Ret (ERR_OK, s2) else deliver rnd recv_fn tcp_input ns s2 q (h_hlen C) nif inp (h_src C) (h_dest C)
           end
  else exists s', ip4_input ns s p inp = Ret (ERR_OK, s') /\ dropped s s' ext D.
Proof.
  intros HR HI Hrc C. pose proof Hrc as [Hc Hown Hr H8 Hcl Hrh Htr]. change (Forall is_u8 C) in H8. pose proof (chain_cons _ _ _ _ _ Hc) as (_ & Hb & _ & Hbl & Ht & Hut & Htl).
  destruct (packet_apart _ _ _ _ _ _ _ (proj1 HR) Hc Hr) as [Hp _].
  assert (HlC : Z.of_nat (length C) = p_tot_len b) by (unfold C; rewrite (contents_length (k_mem s) _ (tot_ok_lens _ (proj2 Hc))); symmetry; exact Ht).
  unfold Ip4Input.ip4_input. rewrite (deref_ok _ _ _ Hb). cbn [mbind outcome_bind]. cbn zeta.
  set (iphdr := p_payload b). set (len := lwip_htons (IPH_LEN (k_mem s) iphdr)). assert (Hlen : is_u16 len) by (by apply lwip_htons_range, load_u16).
  destruct (trim_spec s B ext D p b l len HR Hrc Hlen) as (ps & b1 & l1 & B1 & Etr & HR1 & Hc1 & Hown1 & Hr1 & Hcl1 & Hd1 & Ep1 & Ef1 & El1 & Et1 & Ec1).
  set (s1 := put_net s (with_ps (k_net s) ps)) in *. fold (k_mem s) in Ec1. fold C in Ec1. rewrite Etr. cbn [mbind outcome_bind].
  pose proof (chain_cons _ _ _ _ _ Hc1) as (_ & Hb1 & _). rewrite (deref_ok _ _ _ Hb1). cbn [mbind outcome_bind]. fold s1.
  assert (Em1 : k_mem s1 = k_mem s) by exact Hd1. rewrite !Em1.
  assert (Hdrop1 : exists s', input_drop s1 p = Ret (ERR_OK, s') /\ dropped s s' ext D).
  { destruct (drop_spec s1 B1 ext D p HR1 Hp) as (s' & E & H1 & H2 & H3). exists s'. split; [done|]. split; [done|]. split; [by eapply modules_stay_trans|done]. }
  destruct (decide (20 <= p_len b)) as [H20|H20].
  2:{ assert (Eg : good_header (p_len b) C = false). { apply not_true_iff_false. rewrite good_header_iff. lia. } rewrite Eg. cbn [andb].
      destruct (negb (IPH_V (k_mem s) iphdr =? 4)); [exact (drop_spec s B ext D p HR Hp)|]. 
      assert (Hbad : (p_len b1 <? IPH_HL_BYTES (k_mem s) iphdr) || (p_tot_len b1 <? len) || (IPH_HL_BYTES (k_mem s) iphdr <? IP_HLEN) = true).
      { apply orb_true_iff. rewrite orb_true_iff, !Z.ltb_lt. unfold IP_HLEN. lia. }
      rewrite Hbad. exact Hdrop1. }
  assert (Er : read_bytes (k_mem s) iphdr 20 = take 20 C) by (apply (read_contents (n_ps (k_net s)) p b l 20); lia).
  destruct (header_reads _ _ _ Er H8 ltac:(lia)) as (Fv & Fh & Fl & Fo & Fp & _ & Fs & Fd & _). fold len in Fl. rewrite Fv, Fh, Fo, Fs, Fd.
  destruct (Z.eqb_spec (h_version C) 4) as [Ev|Ev]; cbn [negb].
  2:{ assert (Eg : good_header (p_len b) C = false) by (apply not_true_iff_false; rewrite good_header_iff; lia). rewrite Eg. exact (drop_spec s B ext D p HR Hp). }
  pose proof (IPH_HL_BYTES_range (k_mem s) iphdr) as Hhr. rewrite Fh in Hhr. rewrite Fl in *.
  destruct ((p_len b1 <? h_hlen C) || (p_tot_len b1 <? h_len C) || (h_hlen C <? IP_HLEN)) eqn:Ebad.
  { assert (Eg : good_header (p_len b) C = false). { apply not_true_iff_false. rewrite good_header_iff. rewrite !orb_true_iff, !Z.ltb_lt in Ebad. unfold IP_HLEN in Ebad. lia. } rewrite Eg. exact Hdrop1. }
  rewrite !orb_false_iff, !Z.ltb_ge in Ebad. unfold IP_HLEN in Ebad. destruct Ebad as [[Hb1' Hb2'] Hb3'].
  assert (Erh : read_bytes (k_mem s) iphdr (Z.to_nat (h_hlen C)) = take (Z.to_nat (h_hlen C)) C) by (apply (read_contents (n_ps (k_net s)) p b l); lia). rewrite Erh.
  rewrite inet_chksum_rfc; [|by apply Forall_take|rewrite length_take; lia].
  destruct (Z.eqb_spec (rfc1071_checksum (take (Z.to_nat (h_hlen C)) C)) 0) as [Ek|Ek]; cbn [negb].
  2:{ assert (Eg : good_header (p_len b) C = false) by (apply not_true_iff_false; rewrite good_header_iff; tauto). rewrite Eg. exact Hdrop1. }
  assert (Eg : good_header (p_len b) C = true) by (apply good_header_iff; unfold is_u16 in *; split_and!; try done; lia). rewrite Eg. cbn [andb].
  assert (HI1 : igmp_inv (in_igmp s1) L) by (by destruct HI). destruct (find_netif_spec ns s1 L inp (h_src C) (h_dest C) HI1) as (c & -> & Hsrc). cbn [mbind outcome_bind]. rewrite Hsrc.
  destruct (good_source L inp (h_src C) (h_dest C)); cbn [negb]; [|exact Hdrop1].
  exists s1, b1, l1, B1. split; [split; try done; lia|]. destruct (accepting ns L inp (h_dest C)); [|done]. by destruct (h_offset C mod 16384 =? 0).
Qed.

(** ** Lemmas: handing over *)

(** The packet [p] with the data [d] behind the IP header [hdr], which is still in memory in
    front of it. *)
Record handed (s : stack) (p : Z) (b : pbuf) (l : list (Z * pbuf)) (hdr d : list Z) : Prop := Handed {
  hd_chain : chain (n_ps (k_net s)) p ((p, b) :: l);
  hd_own : own_data ((p, b) :: l);
  hd_contents : contents (k_mem s) ((p, b) :: l) = d;
  hd_header : read_bytes (k_mem s) (p_payload b - length hdr) (length hdr) = hdr;
  hd_room : p + SIZEOF_STRUCT_PBUF <= p_payload b - length hdr;
  hd_tot : p_tot_len b = length d /\ length hdr + length d < 65536;
  hd_bytes : Forall is_u8 (hdr ++ d)
}.

Lemma own_room (s : pst) B ext p b : pbuf_inv s B ext -> pbufs s !! p = Some b -> is_contiguous b = true -> is_custom b = false -> p + SIZEOF_STRUCT_PBUF <= p_payload b.
Proof.
  intros HI Hb Hcg Hcu. destruct (proj1 (inv_dom _ _ _ HI p) ltac:(eauto)) as [k Hk]. destruct (inv_node _ _ _ HI p b k Hb Hk) as (Hkind & Hp & _).
  destruct k; cbn [kind_ok payload_ok] in *; try lia; exfalso; intuition congruence.
Qed.

Lemma deliver_spec ns (s : stack) B ext D p b l nif inp src dest :
  reass_inv (in_reass s) B (ext_add ext p) D -> p ∉ nodes (frags D) -> chain (n_ps (k_net s)) p ((p, b) :: l) -> own_data ((p, b) :: l) ->
  let T := contents (k_mem s) ((p, b) :: l) in
  let hlen := h_hlen T in
  Forall is_u8 T -> 20 <= hlen <= p_len b ->
  exists s' b', deliver rnd recv_fn tcp_input ns s p hlen nif inp src dest = dispatch ns s' (IpGlobals nif inp (p_payload b) hlen src dest) p hlen inp (h_proto T)
    /\ reass_inv (in_reass s') B (ext_add ext p) D /\ modules_stay s s' /\ n_lk (k_net s') = n_lk (k_net s) /\ k_mem s' = k_mem s
    /\ handed s' p b' l (take (Z.to_nat hlen) T) (drop (Z.to_nat hlen) T)
    /\ b' = with_tot_len (with_len (with_payload b (p_payload b + hlen)) (p_len b - hlen)) (p_tot_len b - hlen).
Proof.
  intros (HC & Hcn & Hf) Hpn Hc Hown T hlen H8 Hh. pose proof (chain_cons _ _ _ _ _ Hc) as (_ & Hb & _ & Hbl & Ht & Hut & Htl). pose proof (ri_net _ _ _ _ HC) as Hok.
  assert (HlT : Z.of_nat (length T) = p_tot_len b) by (unfold T; rewrite (contents_length (k_mem s) _ (tot_ok_lens _ (proj2 Hc))); symmetry; exact Ht).
  destruct (remove_header_spec (n_ps (k_net s)) B _ p b l hlen (proj1 Hok) Hc ltac:(lia)) as (E & Hc' & HI' & Hcont). set (b' := with_tot_len _ _) in *.
  unfold deliver. rewrite (deref_ok _ _ _ Hb). cbn [mbind outcome_bind]. cbn zeta. rewrite E. cbn [mbind outcome_bind]. set (s' := put_net s _).
  assert (Er : read_bytes (k_mem s) (p_payload b) 20 = take 20 T) by (apply (read_contents (n_ps (k_net s)) p b l 20); lia).
  destruct (header_reads _ _ _ Er H8 ltac:(lia)) as (_ & Fh & _ & _ & Fp & _). change (k_mem s') with (k_mem s). rewrite Fh, Fp. fold hlen.
  exists s', b'. split; [done|]. split; [|split; [done|split; [done|split; [done|split; [|done]]]]].
  - split; [|split; [exact Hcn|exact Hf]]. destruct HC as [HL _ HD Hnd]. split; [by destruct HL|split; [exact HI'|apply Hok]| |done]. eapply dgrams_keep; [exact HD|]. apply Forall_forall. intros g Hg. apply keeps_pbufs; [|done].
    intros y Hy. cbn. apply lookup_insert_ne. intros <-. apply Hpn. by apply (elem_nodes g).
  - assert (Elh : Z.of_nat (length (take (Z.to_nat hlen) T)) = hlen) by (rewrite length_take; lia). apply Forall_cons in Hown as [[Hcg Hcu] Hown]. split.
    + exact Hc'.
    + by constructor.
    + exact Hcont.
    + rewrite Elh. replace (p_payload b' - hlen) with (p_payload b) by (cbn; lia). replace (length (take (Z.to_nat hlen) T)) with (Z.to_nat hlen) by lia. apply (read_contents (n_ps (k_net s)) p b l). lia.
    + rewrite Elh. replace (p_payload b' - hlen) with (p_payload b) by (cbn; lia). by eapply own_room; [apply Hok|..].
    + rewrite Elh, length_drop. cbn [p_tot_len b' with_tot_len]. unfold is_u16 in Hut. lia.
    + by rewrite take_drop.
Qed.

(** ** Lemmas: a fragment *)

Definition last_frag (C : list Z) : bool := negb (Z.testbit (h_offset C) 13).

(** What is asked of the fragment at the start of [C]: it is the last of its datagram, or
    its data ends within the longest datagram or beyond 65535 (the code does not look for
    one that ends in between), and the first of a datagram has 8 bytes of data in the first
    pbuf, from which an ICMP message can be made. *)
Definition frag_fits (first : Z) (C : list Z) : Prop :=
  (let e := 8 * (h_offset C mod 8192) + (h_len C - 20) in e <= 65515 \/ 65536 <= e \/ last_frag C = true) /\ (h_offset C mod 8192 = 0 -> 28 <= Z.min first (h_len C)).

Lemma offset_mf_all :
  forallb (λ a, forallb (λ b, Bool.eqb (Z.land (a + 256 * b) (PP_HTONS IP_MF) =? 0) (negb (Z.testbit (256 * a + b) 13)) && (Z.land (256 * a + b) IP_OFFMASK =? (256 * a + b) mod 8192)
    && (((256 * a + b) mod 16384 =? 0) || Z.testbit (256 * a + b) 13 || negb ((256 * a + b) mod 8192 =? 0))) (Z.of_nat <$> seq 0 256)) (Z.of_nat <$> seq 0 256) = true.
Proof. vm_compute. reflexivity. Qed.

Lemma byte_in x : is_u8 x -> In x (Z.of_nat <$> seq 0 256).
Proof. intros Hx. apply list_elem_of_In, list_elem_of_fmap. exists (Z.to_nat x). unfold is_u8 in Hx. split; [lia|]. apply elem_of_seq. lia. Qed.

Lemma offset_xy m a C :
  read_bytes m a 20 = take 20 C -> Forall is_u8 C -> (20 <= length C)%nat -> exists x y, is_u8 x /\ is_u8 y /\ IPH_OFFSET m a = x + 256 * y /\ h_offset C = 256 * x + y.
Proof.
  intros E H8 HL. unfold IPH_OFFSET, h_offset. rewrite !(load_at m a _ _ 20), E by lia. clear E m. assert (Hsplit : C = take 20 C ++ drop 20 C) by (by rewrite take_drop). revert Hsplit. generalize (drop 20 C) as R. intros R HC.
  assert (HT : length (take 20 C) = 20%nat) by (rewrite length_take; lia). revert HC HT. generalize (take 20 C) as T. intros T -> HT. clear HL. apply Forall_app in H8 as [H8 _]. explode 20 T HT.
  repeat match goal with H : Forall is_u8 (_ :: _) |- _ => apply Forall_cons in H as [? H] end. exists z5, z6. change (Z.to_nat 6) with 6%nat. cbn [take drop app be16]. split_and!; try done. cbn. lia.
Qed.

Lemma frag_reads m a C :
  read_bytes m a 20 = take 20 C -> Forall is_u8 C -> (20 <= length C)%nat ->
  IPH_OFFSET_BYTES m a = 8 * (h_offset C mod 8192) /\ (Z.land (IPH_OFFSET m a) (PP_HTONS IP_MF) =? 0) = last_frag C /\ (h_offset C mod 16384 <> 0 -> last_frag C = true -> h_offset C mod 8192 <> 0).
Proof.
  intros E H8 HL. pose proof (header_reads m a C E H8 HL) as (_ & _ & _ & _ & _ & _ & _ & _ & Eo & _). unfold IPH_OFFSET_BYTES, last_frag. rewrite Eo.
  destruct (offset_xy m a C E H8 HL) as (x & y & Hx & Hy & -> & ->). pose proof offset_mf_all as H. rewrite forallb_forall in H. specialize (H x (byte_in x Hx)). rewrite forallb_forall in H. specialize (H y (byte_in y Hy)). cbv beta in H.
  apply andb_true_iff in H as [H H3]. apply andb_true_iff in H as [H1 H2]. apply Bool.eqb_prop in H1. apply Z.eqb_eq in H2. rewrite H1, H2. pose proof (Z.mod_pos_bound (256 * x + y) 8192 ltac:(lia)). rewrite u16_small by (unfold_c; lia). split; [lia|]. split; [done|].
  intros Hne Hl E0. rewrite E0, (proj2 (Z.eqb_neq _ _) Hne) in H3. destruct (Z.testbit (256 * x + y) 13); [done|]. by cbn in H3.
Qed.

(** What the fragments of the completed datagram share. *)
Lemma absorbs_done h f fin D0 D' d :
  absorbs h f fin D0 D' (Some d) ->
  (dg_hdr d = h \/ exists e, e ∈ D0 /\ dg_hdr d = dg_hdr e) /\ f :: frags D0 ≡ₚ dg_fs d ++ frags D'.
Proof.
  inversion 1 as [|D1 e D2 a c Ho Hf Hp dd E1 E2 E3| |]; subst. destruct (complete dd) eqn:Ec; [|done]. injection E3 as <-. split.
  - unfold dd. cbn [dg_hdr put]. unfold adopt. case_match; [by left|]. right. exists e. split; [|done]. apply elem_of_app. right. by left.
  - rewrite frags_middle. cbn [dg_fs dd put]. rewrite (place_app _ _ _ _ (placed_place _ _ _ Hp)). by rewrite <- Permutation_middle.
Qed.

Lemma fseg_bytes (s : pst) p fs e : fseg s p fs e -> Forall (λ f, Forall is_u8 (f_data f)) fs.
Proof. revert p. induction fs as [|f fs IH]; intros p H; [constructor|]. destruct H as (_ & nxt & b & l & Hat & Hs). constructor; [|by eapply IH]. rewrite <- (fa_data _ _ _ _ _ Hat). apply Forall_drop, (fa_bytes _ _ _ _ _ Hat). Qed.

Lemma frags_bytes (s : pst) D : Forall (dgram_ok s) D -> Forall (λ f, Forall is_u8 (f_data f)) (frags D).
Proof. intros HD. unfold frags. induction HD as [|d D Hd HD IH]; [constructor|]. cbn. apply Forall_app. split; [by eapply fseg_bytes, do_frags|done]. Qed.

Lemma frag_bytes_u8 fs : Forall (λ f, Forall is_u8 (f_data f)) fs -> Forall is_u8 (frag_bytes fs).
Proof. intros H. unfold frag_bytes. induction H as [|f fs Hf H IH]; [constructor|]. cbn. apply Forall_app. by split. Qed.

(** What happens to a fragment with the header [h]: [R] are the datagrams given up to make
    room for its [k] pbufs, [D0] those left, [D'] the queue behind it, and [res] the datagram
    it completes. *)
Definition frag_handled (hlen : Z) (h : list Z) (f : frag) (fin : bool) (D R D0 D' : list dgram) (res : option dgram) : Prop :=
  let k := length (f_as f) in
  made_room h D R D0 /\ (R <> [] -> too_many D k \/ pool_full (Pl := Pr) h D)
  /\ ((hlen <> 20 \/ too_many D0 k \/ pool_full (Pl := Pr) h D /\ D0 = []) /\ D' = D0 /\ res = None \/ hlen = 20 /\ absorbs h f fin D0 D' res).

Lemma header_kept h len chk R : length h = 20%nat -> h_hlen (frag_header h len 0 chk ++ R) = h_hlen h /\ h_proto (frag_header h len 0 chk ++ R) = h_proto h.
Proof. intros HL. explode 20 h HL. unfold h_hlen, h_proto, frag_header. splices. done. Qed.

Lemma header_of_20 (C : list Z) : h_hlen C = 20 -> le_val (take 1 (take 20 C)) mod 16 = 5.
Proof. unfold h_hlen. rewrite take_take. change (1 `min` 20)%nat with 1%nat. lia. Qed.

Lemma whole_incoming (s s1 : stack) B1 ext D p b b1 l1 C :
  whole_packet s s1 B1 ext D p b b1 l1 C -> good_header (p_len b) C = true -> h_offset C mod 16384 <> 0 -> frag_fits (p_len b) C ->
  incoming (n_ps (k_net s1)) p b1 l1 /\ frag_of (n_ps (k_net s1)) p b1 l1 = Frag (p :: l1.*1) (8 * (h_offset C mod 8192)) (drop 20 (take (Z.to_nat (h_len C)) C))
  /\ read_bytes (k_mem s1) (p_payload b1) 20 = take 20 C /\ IPH_HL_BYTES (k_mem s1) (p_payload b1) = h_hlen C
  /\ (Z.land (IPH_OFFSET (k_mem s1) (p_payload b1)) (PP_HTONS IP_MF) =? 0) = last_frag C.
Proof.
  intros [Hinv Hc Hown Hr Hcl Ep Ef Efi Et Em Ec H8 Hlen Hst Hlog _ _] Hg Hoff [Hend Hfirst]. apply good_header_iff in Hg as (G1 & G2 & G3 & G4 & G5 & G6). pose proof (chain_cons _ _ _ _ _ Hc) as (_ & Hb & _ & Hbl & Ht & Hut & Htl).
  assert (Er : read_bytes (k_mem s1) (p_payload b1) 20 = take 20 C).
  { change (k_mem s1) with (data (n_ps (k_net s1))). rewrite (read_contents (n_ps (k_net s1)) p b1 l1 20) by lia. change (data (n_ps (k_net s1))) with (k_mem s1). rewrite Ec, take_take. f_equal. lia. }
  destruct (header_reads _ _ _ Er H8 ltac:(lia)) as (_ & Fh & Fl & _). destruct (frag_reads _ _ _ Er H8 ltac:(lia)) as (Fo & Fm & Flast).
  split_and!; try done.
  - split; try done; try (change (data (n_ps (k_net s1))) with (k_mem s1)); [rewrite Ec; by apply Forall_take|lia|lia| | |]; rewrite Fo; [intros E; rewrite Efi; apply Hfirst; lia| |].
    + intros E. apply Z.eqb_eq in E. rewrite Fm in E. specialize (Flast Hoff E). lia.
    + cbv zeta in Hend |- *. destruct Hend as [?|[?|Hl]]; [left; lia|right; left; lia|]. do 2 right. apply Z.eqb_eq. by rewrite Fm.
  - unfold frag_of. change (data (n_ps (k_net s1))) with (k_mem s1). by rewrite Fo, Ec.
Qed.

Lemma frag_path_spec ns (s s1 : stack) B1 ext D p b b1 l1 C nif inp :
  whole_packet s s1 B1 ext D p b b1 l1 C -> routes_ok ns -> good_header (p_len b) C = true -> h_offset C mod 16384 <> 0 -> frag_fits (p_len b) C ->
  let code := '(q, r) ← ip4_reass ns (in_reass s1) p;
              let s2 := put_reass s1 r in
              if q =? NULL then Ret (ERR_OK, s2) else deliver rnd recv_fn tcp_input ns s2 q (h_hlen C) nif inp (h_src C) (h_dest C) in
  exists ps xs R D0 D' res out s' B', cut_to (n_ps (k_net s)) p b (h_len C) = Ret ps
    /\ frag_handled (h_hlen C) (take 20 C) (Frag xs (8 * (h_offset C mod 8192)) (drop 20 (take (Z.to_nat (h_len C)) C))) (last_frag C) D R D0 D' res
    /\ link_log (n_lk (k_net s')) = link_log (n_lk (k_net s)) ++ out /\ given_up (Pl := Pr) ns (ext_add ext p) (with_ps (k_net s) ps) R out /\ k_igmp s' = k_igmp s /\ k_udp s' = k_udp s
    /\ match res with
       | None => code = Ret (ERR_OK, s') /\ reass_inv (in_reass s') B' ext D'
       | Some d => exists q b' l' chk, let hdr := frag_header (dg_hdr d) (dg_len d + 20) 0 chk in
           code = dispatch ns s' (IpGlobals nif inp (p_payload b' - 20) 20 (h_src C) (h_dest C)) q 20 inp (h_proto (dg_hdr d))
           /\ reass_inv (in_reass s') B' (ext_add ext q) D' /\ handed s' q b' l' hdr (frag_bytes (dg_fs d)) /\ inet_chksum 0 hdr = 0
       end.
Proof.
  intros Hw Hns Hg Hoff Hfit code. destruct (whole_incoming _ _ _ _ _ _ _ _ _ _ Hw Hg Hoff Hfit) as (Hin & Efr & Er & Eh & Em). pose proof (wp_inv _ _ _ _ _ _ _ _ _ _ Hw) as Hinv.
  destruct (packet_apart _ _ _ _ _ _ _ (proj1 Hinv) (wp_chain _ _ _ _ _ _ _ _ _ _ Hw) (wp_refs _ _ _ _ _ _ _ _ _ _ Hw)) as [Hp Hap]. destruct (wp_stay _ _ _ _ _ _ _ _ _ _ Hw) as (_ & Es1 & Es2).
  destruct (reass_spec ns (in_reass s1) B1 ext D p b1 l1 Hinv Hns Hin Hp Hap) as (q & r & B' & R & D0 & D' & res & out & E & Hinv' & Hmr & HR & Hcase & Hres & Hlog & Hex & _).
  change (r_mem (in_reass s1)) with (k_mem s1) in *. change (n_ps (r_net (in_reass s1))) with (n_ps (k_net s1)) in *. rewrite Er, Eh, Em, Efr in *. unfold code. rewrite E. cbn [mbind outcome_bind]. cbv zeta.
  assert (Ein : in_reass (put_reass s1 r) = r) by (by destruct r). assert (Hlog' : link_log (n_lk (r_net r)) = link_log (n_lk (k_net s)) ++ out) by (rewrite Hlog; f_equal; by rewrite <- (wp_log _ _ _ _ _ _ _ _ _ _ Hw)).
  change (r_net (in_reass s1)) with (k_net s1) in Hex. rewrite (wp_net _ _ _ _ _ _ _ _ _ _ Hw) in Hex. pose proof (wp_cut _ _ _ _ _ _ _ _ _ _ Hw) as Hcut.
  assert (Hfh : frag_handled (h_hlen C) (take 20 C) (Frag (p :: l1.*1) (8 * (h_offset C mod 8192)) (drop 20 (take (Z.to_nat (h_len C)) C))) (last_frag C) D R D0 D' res).
  { unfold frag_handled. cbn [f_as length]. cbv zeta. rewrite length_fmap. split; [exact Hmr|]. split; [exact HR|exact Hcase]. }
  destruct res as [d|].
  2:{ subst q. exists (n_ps (k_net s1)), (p :: l1.*1), R, D0, D', None, out, (put_reass s1 r), B'. split; [done|]. split; [done|]. rewrite Z.eqb_refl, Ein. split; [exact Hlog'|]. split; [done|]. split; [exact Es1|]. split; [exact Es2|]. by split. }
  destruct Hres as (Hq & lq & chk & Hlc & Hlo & Hln & Hcont & Hchk & (q' & bq & r' & -> & Hlf) & Hu8). assert (q' = q) as -> by (by destruct Hlc as [(-> & _) _]).
  destruct Hcase as [(_ & _ & ?)|[H20 Habs]]; [done|]. destruct (absorbs_done _ _ _ _ _ _ Habs) as [Hhdr Hperm].
  pose proof (ri_dgrams _ _ _ _ (proj1 Hinv)) as HD. assert (HD0 : forall e, e ∈ D0 -> dgram_ok (n_ps (k_net s1)) e).
  { intros e He. rewrite Forall_forall in HD. apply HD. eapply sublist_subseteq; [apply (mr_sub _ _ _ _ Hmr)|done]. }
  pose proof (wp_bytes _ _ _ _ _ _ _ _ _ _ Hw) as H8. apply good_header_iff in Hg as (_ & _ & _ & G4 & G5 & _).
  assert (Hd20 : length (dg_hdr d) = 20%nat /\ h_hlen (dg_hdr d) = 20).
  { destruct Hhdr as [->|(e & He & ->)]; [split; [rewrite length_take; lia|]; unfold h_hlen; rewrite header_of_20 by done; lia|]. destruct (HD0 e He) as [_ _ [H1 _] _ _ _ H7]. split; [done|]. unfold h_hlen. lia. }
  destruct Hd20 as [Hd20 Hdh]. destruct (header_kept (dg_hdr d) (dg_len d + 20) chk (frag_bytes (dg_fs d)) Hd20) as [Ek Ekp]. rewrite Hdh in Ek.
  assert (Hfb : Forall is_u8 (frag_bytes (dg_fs d))).
  { apply frag_bytes_u8. assert (HF : Forall (λ f, Forall is_u8 (f_data f)) (dg_fs d ++ frags D')); [|by apply Forall_app in HF as [? _]]. rewrite <- Hperm. constructor; [cbn; by apply Forall_drop, Forall_take|].
    apply (frags_bytes (n_ps (k_net s1))), Forall_forall. exact HD0. }
  assert (Hqn : q ∉ nodes (frags D')).
  { intros Hq'. pose proof (ri_apart _ _ _ _ (proj1 Hinv)) as Hnd. rewrite (mr_perm _ _ _ _ Hmr), frags_app, nodes_app in Hnd. apply NoDup_app in Hnd as (_ & _ & Hnd).
    assert (HN : NoDup (nodes (dg_fs d ++ frags D'))). { rewrite <- Hperm, nodes_cons. cbn [f_as]. apply NoDup_app. split; [|split; [|done]]; [apply (seg_NoDup (pbufs (n_ps (k_net s1))) p ((p, b1) :: l1)); [apply (inv_not_null _ _ _ (proj1 (ri_net _ _ _ _ (proj1 Hinv))))|apply (in_chain _ _ _ _ Hin)]|exact (made_room_apart _ _ _ _ _ Hmr Hap)]. }
    rewrite nodes_app in HN. apply NoDup_app in HN as (_ & HN & _). apply (HN q); [rewrite <- Hln; by left|done]. }
  rewrite (proj2 (Z.eqb_neq q NULL) Hq). rewrite <- Ein in Hinv'. change (data (n_ps (r_net r))) with (k_mem (put_reass s1 r)) in Hcont.
  destruct (deliver_spec ns (put_reass s1 r) B' ext D' q bq r' nif inp (h_src C) (h_dest C) Hinv' Hqn Hlc Hlo) as (s' & b' & Ed & Hi & (_ & S1 & S2) & Hl & _ & Hh & Eb); rewrite ?Hcont, ?Ek; [apply Forall_app; by split|lia|].
  rewrite Hcont, Ek in *. rewrite Ekp in Ed. exists (n_ps (k_net s1)), (p :: l1.*1), R, D0, D', (Some d), out, s', B'. split; [done|]. split; [done|]. split; [by rewrite Hl|]. split; [done|]. split; [by rewrite S1|]. split; [by rewrite S2|].
  exists q, b', r', chk. cbv zeta. rewrite H20, Ed. split; [|split; [done|split; [|done]]].
  - rewrite Eb. cbn [p_payload with_payload with_len with_tot_len]. replace (p_payload bq + 20 - 20) with (p_payload bq) by lia. exact eq_refl.
  - change (Z.to_nat 20) with 20%nat in Hh. rewrite take_app_length', drop_app_length' in Hh by (by rewrite frag_header_length). exact Hh.
Qed.

Lemma whole_drop ns (s s1 : stack) B1 ext D p b b1 l1 C inp dest r :
  whole_packet s s1 B1 ext D p b b1 l1 C -> r = not_for_us false ns s1 p inp dest -> exists s', r = Ret (ERR_OK, s') /\ dropped s s' ext D.
Proof.
  intros Hw ->. pose proof (wp_inv _ _ _ _ _ _ _ _ _ _ Hw) as Hinv. destruct (packet_apart _ _ _ _ _ _ _ (proj1 Hinv) (wp_chain _ _ _ _ _ _ _ _ _ _ Hw) (wp_refs _ _ _ _ _ _ _ _ _ _ Hw)) as [Hp _].
  destruct (drop_spec s1 B1 ext D p Hinv Hp) as (s' & E & H1 & H2 & H3). exists s'. split; [exact E|]. split; [done|].
  split; [by eapply modules_stay_trans; [apply (wp_stay _ _ _ _ _ _ _ _ _ _ Hw)|]|]. by rewrite H3, (wp_log _ _ _ _ _ _ _ _ _ _ Hw).
Qed.

Lemma whole_deliver ns (s s1 : stack) B1 ext D p b b1 l1 C nif inp :
  whole_packet s s1 B1 ext D p b b1 l1 C -> good_header (p_len b) C = true ->
  let hlen := Z.to_nat (h_hlen C) in
  exists s' b' l' B', deliver rnd recv_fn tcp_input ns s1 p (h_hlen C) nif inp (h_src C) (h_dest C) = dispatch ns s' (IpGlobals nif inp (p_payload b) (h_hlen C) (h_src C) (h_dest C)) p (h_hlen C) inp (h_proto C)
    /\ reass_inv (in_reass s') B' (ext_add ext p) D /\ modules_stay s s' /\ n_lk (k_net s') = n_lk (k_net s)
    /\ handed s' p b' l' (take hlen C) (drop hlen (take (Z.to_nat (h_len C)) C)) /\ p_payload b' = p_payload b + h_hlen C /\ p_len b' = Z.min (p_len b) (h_len C) - h_hlen C.
Proof.
  intros Hw Hg hlen. pose proof Hw as [Hinv Hc Hown Hr Hcl Ep Ef Efi Et Em Ec H8 Hlen Hst Hlog]. apply good_header_iff in Hg as (G1 & G2 & G3 & G4 & G5 & G6).
  destruct (packet_apart _ _ _ _ _ _ _ (proj1 Hinv) Hc Hr) as [_ Hap].
  assert (ET : h_hlen (take (Z.to_nat (h_len C)) C) = h_hlen C /\ h_proto (take (Z.to_nat (h_len C)) C) = h_proto C).
  { unfold h_hlen, h_proto. rewrite skipn_firstn_comm, !take_take. split; repeat f_equal; lia. }
  destruct ET as [ET1 ET2]. destruct (deliver_spec ns s1 B1 ext D p b1 l1 nif inp (h_src C) (h_dest C) Hinv) as (s' & b' & E & H1 & H2 & H3 & H4 & H5 & Hb'); try done; [|rewrite Ec; by apply Forall_take|rewrite Ec, ET1; lia|].
  { intros Hx. apply (Hap p); [by left|done]. }
  rewrite Ec, ET1 in *. rewrite ET2, Ep in E. exists s', b', l1, B1. split; [exact E|]. split; [done|]. split; [by eapply modules_stay_trans|]. split; [by rewrite H3|].
  fold hlen in H5. rewrite take_take, Nat.min_l in H5 by lia. split; [exact H5|]. rewrite Hb'. cbn [p_payload p_len with_payload with_len with_tot_len]. rewrite Ep, Efi. done.
Qed.

(** ** Lemmas: a datagram for a control block *)

(** The packet is for the UDP module, and a control block has a callback for it. *)
Lemma udp_receive ns (s : stack) B ext D L Lu p b l inp nif f arg pcb :
  reass_inv (in_reass s) B (ext_add ext p) D -> igmp_inv (in_igmp s) L -> routes_ok ns -> received (n_ps (k_net s)) p b l -> udp_inv (in_udp s) Lu ->
  let C := contents (k_mem s) ((p, b) :: l) in
  let hlen := h_hlen C in
  let d := drop (Z.to_nat hlen) (take (Z.to_nat (h_len C)) C) in
  input_verdict ns L inp (p_len b) C = IDeliver nif -> h_proto C = IP_PROTO_UDP ->
  udp_verdict (IpGlobals nif inp (p_payload b) hlen (h_src C) (h_dest C)) inp Lu (Z.min (p_len b) (h_len C) - hlen) d = VDeliver f arg pcb ->
  exists s' u b' l' B', ip4_input ns s p inp = (u' ← recv_fn f arg pcb p (h_src C) (be16 d) u; Ret (ERR_OK, put_udp s' u'))
    /\ net_ok (u_net u) B' (ext_add (hold ext (frags D)) p) /\ n_lk (u_net u) = n_lk (k_net s) /\ chain (n_ps (u_net u)) p ((p, b') :: l') /\ contents (data (n_ps (u_net u))) ((p, b') :: l') = drop 8 d.
Proof.
  intros HR HI Hns Hrc HU C hlen d Hv Hpr Huv. pose proof (checks_spec ns s B ext D L p b l inp HR HI Hrc) as Hck. cbv zeta in Hck. fold C in Hck. unfold input_verdict in Hv.
  destruct (good_header (p_len b) C && good_source L inp (h_src C) (h_dest C)) eqn:Eg; [|done]. apply andb_true_iff in Eg as [Eg _]. destruct Hck as (s1 & b1 & l1 & B1 & Hw & E).
  destruct (accepting ns L inp (h_dest C)) as [nif'|]; [|done]. destruct (h_offset C mod 16384 =? 0); [|done]. injection Hv as ->.
  destruct (whole_deliver ns _ _ _ _ _ _ _ _ _ _ nif inp Hw Eg) as (s2 & b2 & l2 & B2 & E2 & Hinv & (_ & _ & Hku) & Hlk & Hh & Epl & Ele). fold hlen d in Hh, E2, Epl, Ele. fold hlen in E. rewrite E2 in E. rewrite E. clear E E2.
  unfold Ip4Input.dispatch. rewrite Hpr. cbn [Z.eqb IP_PROTO_UDP Pos.eqb]. change (IP_PROTO_UDP =? IP_PROTO_UDP) with true. cbv iota.
  pose proof Hh as [Hc Hown Hcon Hhdr Hroom Htot H8]. pose proof (wp_bytes _ _ _ _ _ _ _ _ _ _ Hw) as HC8. pose proof Eg as Eg'. apply good_header_iff in Eg' as (G1 & G2 & G3 & G4 & G5 & G6). fold hlen in G3, G4.
  assert (Elh : Z.of_nat (length (take (Z.to_nat hlen) C)) = hlen) by (rewrite length_take; lia).
  assert (Hp : p <> NULL) by (intros ->; destruct Hc as [(_ & Hb & _) _]; pose proof (inv_not_null _ _ _ (proj1 (ri_net _ _ _ _ (proj1 Hinv)))) as Hn; cbn in Hn; congruence).
  assert (Hsd : is_u32 (h_src C) /\ is_u32 (h_dest C)).
  { assert (Er : read_bytes (k_mem s1) (p_payload b1) 20 = take 20 C).
    { change (k_mem s1) with (data (n_ps (k_net s1))). rewrite (read_contents (n_ps (k_net s1)) p b1 l1 20) by (rewrite (wp_first _ _ _ _ _ _ _ _ _ _ Hw); lia). change (data (n_ps (k_net s1))) with (k_mem s1). rewrite (wp_contents _ _ _ _ _ _ _ _ _ _ Hw), take_take. f_equal. lia. }
    destruct (header_reads _ _ _ Er HC8 ltac:(lia)) as (_ & _ & _ & _ & _ & _ & _ & _ & _ & _ & H1 & H2 & _). by split. }
  destruct (udp_input_spec recv_fn ns (in_udp s2) Lu B2 (hold ext (frags D)) (IpGlobals nif inp (p_payload b) hlen (h_src C) (h_dest C)) p b2 l2 inp) as (u & L' & _ & _ & Hu); try done.
  - unfold in_udp. rewrite Hku. change (with_unet (k_udp s) (k_net s2)) with (with_unet (in_udp s) (k_net s2)). by apply inv_with_net.
  - eapply net_ok_ext; [|apply (ri_net _ _ _ _ (proj1 Hinv))]. intros a. apply hold_add.
  - cbn [current_ip_header_tot_len u_net in_udp with_unet]. rewrite Elh in Hroom, Hhdr, Htot. split; [lia|lia|lia|]. change (data (n_ps (k_net s2))) with (k_mem s2). replace (Z.to_nat hlen) with (length (take (Z.to_nat hlen) C)) by lia. rewrite Hhdr. by apply Forall_take.
  - apply Hsd.
  - apply Hsd.
  - cbn [u_net in_udp with_unet]. change (data (n_ps (k_net s2))) with (k_mem s2). rewrite Hcon. unfold d. by apply Forall_drop, Forall_take.
  - intros nf Hr. by eapply Hns.
  - change (data (n_ps (u_net (in_udp s2)))) with (k_mem s2) in Hu. rewrite Hcon, Ele, Huv in Hu. destruct Hu as (b' & -> & H1 & H2 & H3 & H4). cbn [current_iphdr_src]. exists s2, u, b', l2, B2. split; [done|]. split; [done|]. split; [by rewrite H2|]. split; [done|exact H4].
Qed.

(** ** Theorems *)

(** C2: What ip4_input does with a packet is decided by its verdict on the bytes, the
    interfaces and the groups joined.  A packet with a bad header (version, lengths,
    checksum) or source is freed, and nothing else happens; so is one that no interface
    accepts, when packets are not forwarded.  A whole packet for an interface is cut to its
    IP length and handed to the protocol of its header, behind the header, with the
    addresses of the header.  A fragment goes to the queue of fragments; the datagram that
    it completes is handed on the same way, under a header with a valid checksum.  Of a
    fragment this is shown under [frag_fits]: it is the last one, or ends by 65515 or beyond
    65535, and a first one has 8 bytes of data in its first pbuf. *)
Theorem ip4_input_correct ns (s : stack) B ext D L p b l inp :
  reass_inv (in_reass s) B (ext_add ext p) D -> igmp_inv (in_igmp s) L -> routes_ok ns -> received (n_ps (k_net s)) p b l ->
  let C := contents (k_mem s) ((p, b) :: l) in
  let hlen := Z.to_nat (h_hlen C) in
  match input_verdict ns L inp (p_len b) C with
  | IDrop => exists s', ip4_input ns s p inp = Ret (ERR_OK, s') /\ dropped s s' ext D
  | INotForUs =>
      if IP_FORWARD then exists s1 b1 l1 B1, whole_packet s s1 B1 ext D p b b1 l1 C /\ ip4_input ns s p inp = not_for_us true ns s1 p inp (h_dest C)
      else exists s', ip4_input ns s p inp = Ret (ERR_OK, s') /\ dropped s s' ext D
  | IDeliver nif =>
      exists s' b' l' B', ip4_input ns s p inp = dispatch ns s' (IpGlobals nif inp (p_payload b) (h_hlen C) (h_src C) (h_dest C)) p (h_hlen C) inp (h_proto C)
        /\ reass_inv (in_reass s') B' (ext_add ext p) D /\ modules_stay s s' /\ n_lk (k_net s') = n_lk (k_net s)
        /\ handed s' p b' l' (take hlen C) (drop hlen (take (Z.to_nat (h_len C)) C)) /\ p_payload b' = p_payload b + h_hlen C /\ p_len b' = Z.min (p_len b) (h_len C) - h_hlen C
  | IReass nif =>
      frag_fits (p_len b) C ->
      exists ps xs R D0 D' res out s' B', cut_to (n_ps (k_net s)) p b (h_len C) = Ret ps
        /\ frag_handled (h_hlen C) (take 20 C) (Frag xs (8 * (h_offset C mod 8192)) (drop 20 (take (Z.to_nat (h_len C)) C))) (last_frag C) D R D0 D' res
        /\ link_log (n_lk (k_net s')) = link_log (n_lk (k_net s)) ++ out /\ given_up (Pl := Pr) ns (ext_add ext p) (with_ps (k_net s) ps) R out /\ k_igmp s' = k_igmp s /\ k_udp s' = k_udp s
        /\ match res with
           | None => ip4_input ns s p inp = Ret (ERR_OK, s') /\ reass_inv (in_reass s') B' ext D'
           | Some d => exists q b' l' chk, let hdr := frag_header (dg_hdr d) (dg_len d + 20) 0 chk in
               ip4_input ns s p inp = dispatch ns s' (IpGlobals nif inp (p_payload b' - 20) 20 (h_src C) (h_dest C)) q 20 inp (h_proto (dg_hdr d))
               /\ reass_inv (in_reass s') B' (ext_add ext q) D' /\ handed s' q b' l' hdr (frag_bytes (dg_fs d)) /\ inet_chksum 0 hdr = 0
           end
  end.
Proof.
  intros HR HI Hns Hrc C hlen. pose proof (checks_spec ns s B ext D L p b l inp HR HI Hrc) as Hck. cbv zeta in Hck. fold C in Hck. unfold input_verdict.
  destruct (good_header (p_len b) C && good_source L inp (h_src C) (h_dest C)) eqn:Eg; [|exact Hck]. apply andb_true_iff in Eg as [Eg _].
  destruct Hck as (s1 & b1 & l1 & B1 & Hw & E). destruct (accepting ns L inp (h_dest C)) as [nif|].
  2:{ destruct IP_FORWARD; [by exists s1, b1, l1, B1|]. by eapply whole_drop. }
  destruct (Z.eqb_spec (h_offset C mod 16384) 0) as [Eo|Eo].
  - rewrite E. by eapply whole_deliver.
  - intros Hfit. rewrite E. by eapply frag_path_spec.
Qed.

(** ** Lemmas for witnesses *)

Lemma bytes_ok_contents m l : bytes_ok m -> Forall is_u8 (contents m l).
Proof. intros Hm. induction l as [|x l IH]; [constructor|]. rewrite contents_cons. apply Forall_app. split; [by apply bytes_ok_read|done]. Qed.

Lemma received_data (s : pst) p b l m : received s p b l -> bytes_ok m -> received (with_data s m) p b l.
Proof. intros [H1 H2 H3 H4 H5 H6 H7] Hm. split; try done; [by apply bytes_ok_contents|by apply bytes_ok_read]. Qed.

End Spec.

(** ** Witnesses: a host with two empty buffers of the pool, and what came into them *)

#[local] Existing Instance dgram_pool.
#[local] Existing Instance group_pool.
Abbreviation wire_net := (net (St := pmem_state) (Lk := list (Z * Z * list Z))).

(** The packet in the pool of PbufRef.v, with the bytes [c] in its first pbuf at [x]. *)
Definition got_net (x : Z) (c : list Z) : wire_net := Net (with_data ps1 (write_bytes ∅ x c)) [] 0.
Definition got_reass (x : Z) (c : list Z) : reass0 := Reass (got_net x c) ∅ NULL 0 memp0.

Lemma got_packet :
  exists b l, received ps1 p1 b l /\ p_len b = 590 /\ total ((p1, b) :: l) = 1000 /\ forall c, Forall is_u8 c -> length c <= 590 ->
    let n := got_net (p_payload b) c in
    received (n_ps n) p1 b l /\ (exists pad, contents (data (n_ps n)) ((p1, b) :: l) = c ++ pad) /\ exists B, reass_inv (got_reass (p_payload b) c) B (ext_add no_ext p1) [].
Proof.
  destruct ps1_inv as (l & Hp & Hc & Hln & Hr & HI). destruct l as [|[a1 b1] [|[a2 b2] [|? ?]]]; try discriminate Hln. injection Hln as L1 L2. pose proof (proj1 (proj1 Hc)) as Ea. subst a1.
  assert (Hown : own_data [(p1, b1); (a2, b2)]).
  { apply Forall_forall. intros [x c] Hin. assert (Hx : adds ∅ [(p1, b1); (a2, b2)].*1 BPool !! x = Some BPool) by (apply lookup_adds, list_elem_of_fmap; exists (x, c); split; [reflexivity|exact Hin]).
    destruct (inv_node _ _ _ HI x c BPool (seg_lookup _ _ _ _ _ _ (proj1 Hc) Hin) Hx) as ((K1 & _ & K2) & _). split; [exact K2|exact K1]. }
  assert (Htr : forall a n, a ∈ p1 :: [(a2, b2)].*1 -> trim_ok (pmem ps1) a n).
  { intros a n Ha. eapply pool_trim_possible; [exact (inv_holds _ _ _ HI)|apply lookup_adds; exact Ha|discriminate]. }
  assert (H0 : bytes_ok ∅) by (intros a; vm_compute; intuition congruence).
  assert (Hrec : received ps1 p1 b1 [(a2, b2)]).
  { assert (Hm : bytes_ok (data ps1)) by (intros a; vm_compute; intuition congruence). split; [exact Hc|exact Hown|exact Hr| |cbn; lia|by apply bytes_ok_read|exact Htr]. by apply bytes_ok_contents. }
  exists b1, [(a2, b2)]. split; [exact Hrec|]. split; [exact L1|]. split; [unfold total; cbn; rewrite L1, L2; reflexivity|]. intros c Hc8 Hlc n. split; [|split].
  - apply (received_data ps1 _ _ _ _ Hrec). by apply bytes_ok_write.
  - eexists. rewrite contents_cons. unfold node_bytes. cbn [snd]. rewrite L1. change (data (n_ps n)) with (write_bytes ∅ (p_payload b1) c). replace (write_bytes ∅ (p_payload b1) c) with (write_bytes ∅ (p_payload b1 + 0%nat) c) at 1 by (by rewrite Z.add_0_r).
    rewrite read_splice by lia. unfold splice. rewrite take_0. cbn [app]. rewrite <- app_assoc. reflexivity.
  - exists (adds ∅ [(p1, b1); (a2, b2)].*1 BPool). split; [split|split; [|constructor]].
    + split; [done|constructor|intros a|].
      * cbn [r_data got_reass]. rewrite lookup_empty. split; [by intros [? ?]|]. intros H. by apply not_elem_of_nil in H.
      * exists [[]; []], []. split; [exact memp0_rep|]. done.
    + split; [|vm_compute; intuition congruence]. eapply inv_ext_eq; [|apply inv_data; exact HI]. intros a _. unfold hold. change (held (frags []) a) with 0%nat. cbn [link_holds wire]. lia.
    + constructor.
    + constructor.
    + split; [done|]. vm_compute. congruence.
Qed.

(** The host 192.168.1.2. *)
Definition nif_a : netif := Netif 1 host_a 0x00ffffff 0x0101a8c0 0x27 [2; 0; 0; 0; 0; 2] 1500 true.
Definition netifs_a : netifs := Netifs [nif_a] None None.

Lemma routes_a : routes_ok netifs_a.
Proof.
  intros dest nif E. unfold ip4_route in E. cbn [ip4_default_multicast_netif netif_list netif_default netifs_a route_loop] in E. assert (nif = nif_a) as ->.
  { destruct (ip4_addr_ismulticast dest); destruct (route_matches dest nif_a); congruence. }
  vm_compute. intuition congruence.
Qed.

Definition no_tcp : wire_net -> ip_globals -> Z -> netif -> outcome wire_net := λ n _ _ _, Ret n.

(** An echo request to 192.168.1.2, with padding behind it. *)
Definition echo_frame : list Z := [0x45; 0; 0; 28; 0; 7; 0; 0; 64; 1; 0xf7; 0x7d; 192; 168; 1; 10; 192; 168; 1; 2; 8; 0; 0xf7; 0xfa; 0; 2; 0; 3].

Lemma echo_frame_ok : Forall is_u8 echo_frame.
Proof. apply (bool_decide_unpack _). vm_compute. exact I. Qed.

Lemma echo_frame_verdict pad : length pad = 972%nat -> input_verdict netifs_a (λ _, []) nif_a 590 (echo_frame ++ pad) = IDeliver nif_a.
Proof.
  intros HL. unfold input_verdict.
  assert (E : good_header 590 (echo_frame ++ pad) = true).
  { apply good_header_iff. rewrite length_app, HL. split_and!; try (vm_compute; intuition congruence); vm_compute; reflexivity. }
  rewrite E. vm_compute. reflexivity.
Qed.

Lemma no_groups (n : wire_net) : igmp_inv (with_net igmp0 n) (λ _, []).
Proof. destruct igmp0_inv as [[H1 H2 H3] _]. by split. Qed.

Lemma ip4_input_correct_witness :
  exists (s s' : stack (St := pmem_state) (Lk := list (Z * Z * list Z)) (Pr := memp_state) (Pi := memp_state) (Pu := memp_state)) ig b' l',
    ip4_input rnd7 keep_packet no_tcp false netifs_a s p1 nif_a = dispatch rnd7 keep_packet no_tcp netifs_a s' ig p1 20 nif_a IP_PROTO_ICMP
    /\ contents (k_mem s') ((p1, b') :: l') = drop 20 echo_frame.
Proof.
  destruct got_packet as (b & l & _ & Hlen & Ht & Hg). destruct (Hg echo_frame echo_frame_ok ltac:(vm_compute; congruence)) as (Hrc & (pad & Hpad) & B & HR).
  set (n := got_net (p_payload b) echo_frame) in *. set (s := Stack n (got_reass (p_payload b) echo_frame) igmp0 (udp_on n)).
  assert (Hlp : length pad = 972%nat).
  { pose proof (contents_length (data (n_ps n)) _ (tot_ok_lens _ (proj2 (rc_chain _ _ _ _ Hrc)))) as E. rewrite Hpad, length_app, Ht in E. change (length echo_frame) with 28%nat in E. lia. }
  pose proof (ip4_input_correct rnd7 keep_packet no_tcp false netifs_a s B no_ext [] (λ _, []) p1 b l nif_a HR (no_groups n) routes_a Hrc) as Hin. cbv zeta in Hin.
  change (k_mem s) with (data (n_ps n)) in Hin. rewrite Hpad, Hlen, echo_frame_verdict in Hin by exact Hlp.
  destruct Hin as (s' & b' & l' & B' & E & _ & _ & _ & Hh & _). exists s, s', (IpGlobals nif_a nif_a (p_payload b) (h_hlen (echo_frame ++ pad)) (h_src (echo_frame ++ pad)) (h_dest (echo_frame ++ pad))), b', l'. split; [exact E|].
  exact (hd_contents _ _ _ _ _ _ Hh).
Defined.
