(* ===== verification/Ip4Forward.v ===== *)
(** * IPv4 forwarding

    What ip4_forward sends, as a function of the bytes of the packet and the interfaces,
    and that the checksum it updates stays valid. *)

From S2P Require Import Prelude Def ListSeg InetChksum Ip4Addr Mem Memp Pbuf PbufMem PbufRef PbufChain PbufData Header Ip4 Ip4Frag Icmp IcmpSpec Reass ReassQueue ReassFree ReassSpec Igmp Udp UdpSpec UdpInput Ip4Input Ip4InputSpec.

#[local] Open Scope Z_scope.
#[local] Coercion Z.of_nat : nat >-> Z.

(** ** Specification *)

(** The packet [C] with its TTL one less; [hop] also changes the checksum. *)
Definition expired (C : list Z) : list Z := splice 8 [u8 (h_ttl C - 1)] C.
Definition hop (C : list Z) : list Z := splice 10 (le_list 2 (ttl_chksum (le_val (take 2 (drop 10 C))))) (expired C).

Inductive fwd_verdict := FNone | FExpired (report : bool) | FTooBig | FFrag (nif : netif) | FSend (nif : netif).

Definition forward_verdict (ns : netifs) (b : pbuf) (inp : netif) (C : list Z) : fwd_verdict :=
  if ip4_canforward b (h_dest C) && negb (ip4_addr_islinklocal (h_dest C)) then
    match ip4_route ns (h_dest C) with
    | None => FNone
    | Some nif =>
        if same_netif nif inp then FNone
        else if h_ttl C =? 1 then FExpired (negb (h_proto C =? IP_PROTO_ICMP))
        else if negb (netif_mtu nif =? 0) && (netif_mtu nif <? length C) then if Z.testbit (h_offset C) 14 then FTooBig else FFrag nif
        else FSend nif
    end
  else FNone.

(** ** Lemmas: the checksum *)

Lemma ttl_chksum_spec c : is_u16 c -> is_u16 (ttl_chksum c) /\ (ttl_chksum c = c + 1 /\ c < 65534 \/ ttl_chksum c = c + 1 - 65535 /\ 65534 <= c).
Proof.
  intros Hc. unfold ttl_chksum. change (PP_HTONS (0xffff - 0x100)) with 65534. change (PP_HTONS 0x100) with 1. destruct (Z.leb_spec 65534 c).
  - replace (u16 (c + 1 + 1)) with (c + 1 - 65535) by (unfold u16; unfold_c; Z.div_mod_to_equations; lia). unfold_c. lia.
  - rewrite u16_small by (unfold_c; lia). unfold_c. lia.
Qed.

(** The packet written out up to its checksum. *)
Lemma hop_words C : Forall is_u8 C -> (12 <= length C)%nat ->
  exists pre t pr c0 c1 R, C = pre ++ [t; pr; c0; c1] ++ R /\ length pre = 8%nat /\ h_ttl C = t /\ is_u8 t /\ is_u8 pr /\ is_u8 c0 /\ is_u8 c1 /\ Forall is_u8 pre /\ Forall is_u8 R
    /\ expired C = pre ++ [u8 (t - 1); pr; c0; c1] ++ R /\ hop C = pre ++ [u8 (t - 1); pr] ++ le_list 2 (ttl_chksum (c0 + 256 * c1)) ++ R.
Proof.
  intros H8 HL. exists (take 8 C). assert (Hs : C = take 12 C ++ drop 12 C) by (by rewrite take_drop). assert (HT : length (take 12 C) = 12%nat) by (rewrite length_take; lia).
  revert Hs HT. generalize (drop 12 C) as R. generalize (take 12 C) as T. intros T R -> HT. explode 12 T HT. repeat match goal with H : Forall is_u8 (_ :: _) |- _ => apply Forall_cons in H as [? H] end.
  cbn [app] in H8. repeat match goal with H : Forall is_u8 (_ :: _) |- _ => apply Forall_cons in H as [? H] end.
  exists z7, z8, z9, z10, R. unfold hop, expired, h_ttl. cbn [app take drop]. replace (le_val [z7]) with z7 by (cbn; lia).
  rewrite !take_0. repeat (split; [done || (cbn; lia)|]). split; [rewrite !Forall_cons; do 8 (split; [done|]); constructor|]. split; [done|]. split; [done|]. replace (le_val [z9; z10]) with (z9 + 256 * z10) by (cbn; lia). done.
Qed.

(** The update keeps a valid checksum valid, if the TTL was not 0. *)
Lemma hop_valid C (k : nat) :
  Forall is_u8 C -> (12 <= k <= length C)%nat -> h_ttl C <> 0 -> h_version C <> 0 -> rfc1071_checksum (take k C) = 0 -> rfc1071_checksum (take k (hop C)) = 0.
Proof.
  intros H8 Hk Ht Hv Hc. destruct (hop_words C H8 ltac:(lia)) as (pre & t & pr & c0 & c1 & R & EC & Hpre & Et & Ht8 & Hpr & Hc0 & Hc1 & Hpre8 & HR & _ & Eh). rewrite Et in Ht.
  assert (Hcut : forall u v x y, take k (pre ++ [u; v; x; y] ++ R) = pre ++ [u; v; x; y] ++ take (k - 12) R).
  { intros u v x y. rewrite take_app_ge by lia. f_equal. rewrite take_app_ge by (cbn; lia). cbn [length]. do 2 f_equal. lia. }
  assert (Hws : forall u v x y, word_sum (take k (pre ++ [u; v; x; y] ++ R)) = word_sum pre + (u + 256 * v) + (x + 256 * y) + word_sum (take (k - 12) R)).
  { intros u v x y. rewrite Hcut, word_sum_app_even by (rewrite Hpre; done). rewrite word_sum_app_even by done. cbn [word_sum]. lia. }
  assert (Hpos : 0 < word_sum pre).
  { destruct pre as [|z0 [|z1 pre]]; [done|done|]. rewrite EC in Hv. unfold h_version in Hv. cbn [app take le_val] in Hv.
    apply Forall_cons in Hpre8 as [P0 Hpre8]. apply Forall_cons in Hpre8 as [P1 Hpre8]. pose proof (word_sum_nonneg pre Hpre8). cbn [word_sum]. unfold is_u8 in *. change (2 ^ 8) with 256 in *. Z.div_mod_to_equations. lia. }
  set (c := c0 + 256 * c1) in *. assert (Hcu : is_u16 c) by (unfold c; unfold_c; lia). destruct (ttl_chksum_spec c Hcu) as [Hc' Hcase]. set (c' := ttl_chksum c) in *.
  assert (Eh' : hop C = pre ++ [t - 1; pr; c' mod 256; c' / 256] ++ R).
  { rewrite Eh. cbn [le_list app]. rewrite u8_small by (unfold_c; lia). replace (c' / 256 mod 256) with (c' / 256) by (unfold_c; Z.div_mod_to_equations; lia). done. }
  assert (Hb : Forall is_u8 (hop C)). { rewrite Eh'. rewrite !Forall_app, !Forall_cons. unfold is_u8, is_u16 in *. change (2 ^ 8) with 256 in *. change (2 ^ 16) with 65536 in *. split_and!; try done; try (Z.div_mod_to_equations; lia); constructor. }
  pose proof (word_sum_nonneg (take (k - 12) R) ltac:(by apply Forall_take)) as HRn.
  apply rfc_valid; [by apply Forall_take|]. apply rfc_valid in Hc; [|by apply Forall_take]. rewrite EC, Hws in Hc. rewrite Eh', Hws. unfold is_u8, is_u16, c in *. change (2 ^ 8) with 256 in *. change (2 ^ 16) with 65536 in *.
  pose proof (Z.div_mod c' 256 ltac:(lia)). assert (Ec : c' mod 256 + 256 * (c' / 256) = c') by lia. rewrite Ec.
  split; [lia|]. destruct Hcase as [[-> _]|[-> _]].
  - rewrite <- (proj2 Hc). f_equal. lia.
  - rewrite <- (proj2 Hc). replace (word_sum pre + (t - 1 + 256 * pr) + (c0 + 256 * c1 + 1 - 65535) + word_sum (take (k - 12) R)) with (word_sum pre + (t + 256 * pr) + (c0 + 256 * c1) + word_sum (take (k - 12) R) + (-1) * 65535) by lia. apply Z.mod_add. lia.
Qed.

(** ** Lemmas: the header *)

Lemma offset_df_all :
  forallb (λ a, forallb (λ b, Bool.eqb (Z.land (a + 256 * b) (PP_HTONS IP_DF) =? 0) (negb (Z.testbit (256 * a + b) 14))) (Z.of_nat <$> seq 0 256)) (Z.of_nat <$> seq 0 256) = true.
Proof. vm_compute. reflexivity. Qed.

Lemma df_reads m a C :
  read_bytes m a 20 = take 20 C -> Forall is_u8 C -> (20 <= length C)%nat -> (Z.land (IPH_OFFSET m a) (PP_HTONS IP_DF) =? 0) = negb (Z.testbit (h_offset C) 14).
Proof.
  intros E H8 HL. destruct (offset_xy m a C E H8 HL) as (x & y & Hx & Hy & -> & ->). pose proof offset_df_all as H. rewrite forallb_forall in H. specialize (H x (byte_in x Hx)). rewrite forallb_forall in H. specialize (H y (byte_in y Hy)). by apply Bool.eqb_prop in H.
Qed.

(** The other fields stay. *)
Lemma hop_fields C X :
  Forall is_u8 C -> (20 <= length C)%nat -> X = expired C \/ X = hop C ->
  h_hlen X = h_hlen C /\ h_offset X = h_offset C /\ h_proto X = h_proto C /\ h_src X = h_src C /\ h_dest X = h_dest C /\ h_ttl X = u8 (h_ttl C - 1) /\ length X = length C.
Proof.
  intros H8 HL HX. destruct (hop_words C H8 ltac:(lia)) as (pre & t & pr & c0 & c1 & R & EC & Hpre & Et & Ht8 & _ & _ & _ & _ & _ & Ee & Eh). rewrite Et. clear Et H8.
  assert (EX : exists d0 d1, X = pre ++ [u8 (t - 1); pr; d0; d1] ++ R) by (destruct HX as [->| ->]; eexists _, _; [exact Ee|exact Eh]). destruct EX as (d0 & d1 & ->). clear Ee Eh HX. subst C. unfold h_hlen, h_offset, h_proto, h_src, h_dest, h_ttl.
  explode 8 pre Hpre. cbn [app take drop be16 length le_val]. split_and!; try done; lia.
Qed.

Section Forward.
Context `{MO : MemOptions} {MOk : MemOptionsOk} `{PO : PbufOptions} {POk : PbufOptionsOk} {St : Type} `{!PacketMemory St} {Lk : Type} `{LL : !LinkLayer Lk St}.
Abbreviation inet := (net (St := St) (Lk := Lk)).

(** The packet at [p] is held and has the bytes [C], the IP header and 8 bytes more in the
    first pbuf. *)
Record transit (n : inet) (B : gmap Z block) (ext : Z -> nat) (p : Z) (b : pbuf) (l : list (Z * pbuf)) (C : list Z) : Prop := Transit {
  tr_ok : net_ok n B ext;
  tr_chain : chain (n_ps n) p ((p, b) :: l);
  tr_own : own_data ((p, b) :: l);
  tr_ext : (0 < ext p)%nat;
  tr_ref : p_ref b = 1;
  tr_contents : contents (data (n_ps n)) ((p, b) :: l) = C;
  tr_bytes : Forall is_u8 C;
  tr_len : 28 <= p_len b
}.

(** An ICMP error about the packet [orig] is sent, if there is a route to its source and
    memory. *)
Definition reported (ns : netifs) (n : inet) (type code : Z) (orig : list Z) (out : list (Z * Z * list Z)) : Prop :=
  match ip4_route ns (h_src orig) with
  | None => out = []
  | Some nif =>
      heap_full (n_ps n) PBUF_IP 36 /\ out = []
      \/ exists hchk chk, let hdr := ip_header 20 0 56 (ip_id n) 0 ICMP_TTL IP_PROTO_ICMP hchk (netif_ip4_addr nif) (h_src orig) in
           out = [(netif_num nif, h_src orig, hdr ++ icmp_error type code chk (take 28 orig))] /\ inet_chksum 0 hdr = 0 /\ inet_chksum 0 (icmp_error type code chk (take 28 orig)) = 0
  end.

Lemma transit_write (n : inet) B ext p b l C (k : nat) vs :
  transit n B ext p b l C -> k + length vs <= 28 -> Forall is_u8 vs ->
  transit (with_ps n (with_data (n_ps n) (write_bytes (data (n_ps n)) (p_payload b + k) vs))) B ext p b l (splice k vs C).
Proof.
  intros [H1 H2 H3 H4 H5 H6 H7 H8] Hk Hvs. split; try done.
  - by apply net_ok_data.
  - cbn [n_ps with_ps data with_data]. rewrite (contents_write (n_ps n) B _ p b l k vs (proj1 H1) H2 H3) by lia. by rewrite H6.
  - unfold splice. repeat apply Forall_app_2; [by apply Forall_take|done|by apply Forall_drop].
Qed.

Lemma transit_reads (n : inet) B ext p b l C :
  transit n B ext p b l C -> read_bytes (data (n_ps n)) (p_payload b) 20 = take 20 C /\ Z.of_nat (length C) = p_tot_len b /\ (28 <= length C)%nat.
Proof.
  intros [H1 H2 H3 H4 H5 H6 H7 H8]. pose proof (chain_cons _ _ _ _ _ H2) as (_ & _ & _ & Hbl & Ht & Hut & Htl).
  assert (HlC : Z.of_nat (length C) = p_tot_len b) by (rewrite <- H6, (contents_length _ _ (tot_ok_lens _ (proj2 H2))); symmetry; exact Ht). split; [|lia].
  rewrite (read_contents (n_ps n) p b l 20) by lia. by rewrite H6.
Qed.

Lemma report_spec ns (n : inet) B ext p b l C type code :
  transit n B ext p b l C -> routes_ok ns -> is_u8 type -> is_u8 code ->
  exists n' B' out, icmp_send_response ns n p type code = Ret n' /\ net_ok n' B' ext /\ link_log (n_lk n') = link_log (n_lk n) ++ out /\ reported ns n type code C out.
Proof.
  intros HT Hns Ht Hcd. destruct (transit_reads _ _ _ _ _ _ _ HT) as (Er & HlC & HL). pose proof HT as [H1 H2 H3 H4 H5 H6 H7 H8]. pose proof (chain_cons _ _ _ _ _ H2) as (_ & Hb & _).
  apply Forall_cons in H3 as [[Hcg Hcu] _]. cbn in Hcg, Hcu. destruct (own_block (n_ps n) B _ p b 28 (proj1 H1) Hb Hcg Hcu ltac:(lia)) as (k & Hk & R1 & R2).
  assert (Eo : read_bytes (data (n_ps n)) (p_payload b) 28 = take 28 C) by (rewrite (read_contents (n_ps n) p b l 28) by lia; by rewrite H6).
  destruct (header_reads _ _ _ Er H7 ltac:(lia)) as (_ & _ & _ & _ & _ & _ & Es & _).
  destruct (response_spec ns n B ext p b k type code H1 Hb Hk R1 R2 Ht Hcd) as (n' & B' & fs & E & Hok & Hlog & Hfs); [rewrite Eo; by apply Forall_take|intros nif Hr; by eapply Hns|].
  cbv zeta in Hfs. rewrite Es, Eo in Hfs. exists n', B', fs. split; [done|]. split; [done|]. split; [done|]. unfold reported. destruct (ip4_route ns (h_src C)); exact Hfs.
Qed.

(** The fragments [fs] of a packet that is forwarded to [nif]: each with a valid header
    checksum and not longer than the MTU, and all of them, unless the heap refused the
    memory for the next one.  ip4_frag does not take packets with options. *)
Definition forwarded_in_pieces (n' : inet) B' ext (nif : netif) (C : list Z) (fs : list (list Z)) : Prop :=
  let nfb := (netif_mtu nif - 20) / 8 in
  if h_hlen C =? 20 then
    (forall (i : nat) f, fs !! i = Some f ->
       (exists chk, f = fragment_out (take 20 (hop C)) (drop 20 (hop C)) nfb (h_offset C mod 8192) (Z.testbit (h_offset C) 13) (netif_mtu nif - 20) i chk)
       /\ inet_chksum 0 (take 20 f) = 0 /\ length f <= netif_mtu nif)
    /\ (length fs = frag_count (length C - 20) nfb :> Z /\ concat (drop 20 <$> fs) = drop 20 C
        \/ length fs < frag_count (length C - 20) nfb
           /\ refused (n_ps n') B' (λ a, (ext a + link_holds (n_lk n') a)%nat) (Z.min (length C - 20 - length fs * (8 * nfb)) (8 * nfb)))
  else fs = [].

Lemma frag_hop (n : inet) B ext p b l C nif dest lg :
  transit n B ext p b l (hop C) -> Forall is_u8 C -> (28 <= length C)%nat -> 28 <= netif_mtu nif < 65536 -> link_log (n_lk n) = lg ->
  exists n' B' fs, ('(_, n) ← ip4_frag n p nif dest; Ret n) = Ret n' /\ net_inv n' B' ext /\ link_log (n_lk n') = lg ++ map (λ f, (netif_num nif, dest, f)) fs
    /\ forwarded_in_pieces n' B' ext nif C fs.
Proof.
  intros HT H7 HL Hm <-. pose proof HT as [K1 K2 K3 K4 K5 K6 K7 K8]. destruct (transit_reads _ _ _ _ _ _ _ HT) as (Er & HlC & HLh). destruct (hop_fields C (hop C) H7 ltac:(lia) ltac:(by right)) as (Y1 & Y2 & _ & _ & _ & _ & Y7).
  destruct (header_reads _ _ _ Er K7 ltac:(lia)) as (_ & Fh & _ & _ & _ & _ & _ & _ & Fo & _). rewrite Y1 in Fh. rewrite Y2 in Fo. unfold forwarded_in_pieces. destruct (Z.eqb_spec (h_hlen C) 20) as [Hh20|Hh20].
  - rewrite Hh20 in Fh. destruct (frag_any n B ext p b l nif dest 0 (proj1 K1) K2 K3 K4) as (e & n' & B' & fs & E & HI & Hlog & Hfs & Hend); [lia|rewrite K6; by apply Forall_take|exact Fh|done|].
    rewrite K6, Fo in *. exists n', B', fs. rewrite E. cbn [mbind outcome_bind]. split; [done|]. split; [done|]. split; [done|]. split.
    + intros i f Hf. destruct (Hfs i f Hf) as ((chk & ->) & Hck & Hfl). split; [|done]. exists chk. f_equal. change IP_MF with (2 ^ 13). by rewrite land_bit, negb_involutive by lia.
    + rewrite <- HlC, Y7 in Hend. destruct Hend as [(_ & Hk & Hc)|(_ & Hk & Hno)]; [left|right; by split]. split; [done|]. rewrite Hc.
      destruct (hop_words C H7 ltac:(lia)) as (pre & t & pr & c0 & c1 & R & EC & Hpre & _ & _ & _ & _ & _ & _ & _ & _ & Eh). rewrite Eh, EC. explode 8 pre Hpre. done.
  - pose proof (chain_cons _ _ _ _ _ K2) as (_ & Hb & _). exists n, B, []. rewrite app_nil_r. unfold ip4_frag. rewrite (deref_ok _ _ _ Hb). cbn [mbind outcome_bind]. rewrite Fh.
    apply Z.eqb_neq in Hh20. change IP_HLEN with 20. rewrite Hh20. cbn [negb mbind outcome_bind]. split; [done|]. split; [apply K1|done].
Qed.

(** What ip4_forward does with a packet. *)
Lemma forward_spec ns (n : inet) B ext p b l C inp :
  transit n B ext p b l C -> routes_ok ns ->
  match forward_verdict ns b inp C with
  | FNone => ip4_forward ns n p (p_payload b) inp (h_dest C) = Ret n
  | FExpired report =>
      exists n' B' out, ip4_forward ns n p (p_payload b) inp (h_dest C) = Ret n' /\ net_ok n' B' ext /\ link_log (n_lk n') = link_log (n_lk n) ++ out
        /\ if report then reported ns n ICMP_TE ICMP_TE_TTL (expired C) out else out = []
  | FTooBig =>
      exists n' B' out, ip4_forward ns n p (p_payload b) inp (h_dest C) = Ret n' /\ net_ok n' B' ext /\ link_log (n_lk n') = link_log (n_lk n) ++ out
        /\ reported ns n ICMP_DUR ICMP_DUR_FRAG (hop C) out
  | FFrag nif =>
      28 <= netif_mtu nif < 65536 ->
      exists n' B' fs, ip4_forward ns n p (p_payload b) inp (h_dest C) = Ret n' /\ net_inv n' B' ext
        /\ link_log (n_lk n') = link_log (n_lk n) ++ map (λ f, (netif_num nif, h_dest C, f)) fs /\ forwarded_in_pieces n' B' ext nif C fs
  | FSend nif =>
      exists n' B', ip4_forward ns n p (p_payload b) inp (h_dest C) = Ret n' /\ net_ok n' B' ext /\ link_log (n_lk n') = link_log (n_lk n) ++ [(netif_num nif, h_dest C, hop C)]
        /\ (good_header (p_len b) C = true -> h_ttl C <> 0 -> rfc1071_checksum (take (Z.to_nat (h_hlen C)) (hop C)) = 0)
  end.
Proof.
  intros HT Hns. pose proof HT as [H1 H2 H3 H4 H5 H6 H7 H8]. destruct (transit_reads _ _ _ _ _ _ _ HT) as (Er & HlC & HL). pose proof (chain_cons _ _ _ _ _ H2) as (_ & Hb & _ & Hbl & Ht & Hut & Htl).
  unfold forward_verdict, ip4_forward. rewrite (deref_ok _ _ _ Hb). cbn [mbind outcome_bind]. destruct (ip4_canforward b (h_dest C)); [|done]. cbn [negb andb]. destruct (ip4_addr_islinklocal (h_dest C)); [done|]. cbn [negb].
  destruct (ip4_route ns (h_dest C)) as [nif|]; [|done]. destruct (same_netif nif inp); [done|]. cbv zeta.
  destruct (header_reads _ _ _ Er H7 ltac:(lia)) as (_ & _ & _ & _ & _ & Fttl & _ & _ & _ & _).
  assert (Htu : is_u8 (h_ttl C)) by (destruct (hop_words C H7 ltac:(lia)) as (? & ? & ? & ? & ? & ? & _ & _ & -> & ? & _); done).
  assert (HT1 : transit (with_ps n (with_data (n_ps n) (IPH_TTL_SET (data (n_ps n)) (p_payload b) (IPH_TTL (data (n_ps n)) (p_payload b) - 1)))) B ext p b l (expired C)).
  { unfold IPH_TTL_SET, expired. rewrite Fttl, store_write_bytes. replace (le_list 1 (u8 (h_ttl C - 1))) with [u8 (h_ttl C - 1)] by (cbn; unfold u8; by rewrite Z.mod_mod).
    apply (transit_write n B ext p b l C 8 _ HT); [cbn; lia|repeat constructor; apply u8_range]. }
  set (m1 := IPH_TTL_SET _ _ _) in *. set (n1 := with_ps n (with_data (n_ps n) m1)) in *.
  destruct (transit_reads _ _ _ _ _ _ _ HT1) as (Er1 & _). change (data (n_ps n1)) with m1 in Er1. destruct (hop_fields C (expired C) H7 ltac:(lia) ltac:(by left)) as (X1 & X2 & X3 & X4 & X5 & X6 & X7).
  pose proof (tr_bytes _ _ _ _ _ _ _ HT1) as H71. destruct (header_reads _ _ _ Er1 H71 ltac:(lia)) as (_ & _ & _ & _ & Fp1 & Ft1 & _). rewrite Ft1, Fp1, X3, X6.
  assert (Ez : (u8 (h_ttl C - 1) =? 0) = (h_ttl C =? 1)). { unfold is_u8 in Htu. unfold u8. change (2 ^ 8) with 256 in *. destruct (Z.eqb_spec (h_ttl C) 1) as [->|]; [done|]. apply Z.eqb_neq. Z.div_mod_to_equations. lia. }
  rewrite Ez. destruct (Z.eqb_spec (h_ttl C) 1) as [E1|E1].
  { destruct (negb (h_proto C =? IP_PROTO_ICMP)).
    - destruct (report_spec ns n1 B ext p b l (expired C) ICMP_TE ICMP_TE_TTL HT1 Hns) as (n' & B' & out & E & Hok & Hlog & Hrep); [unfold ICMP_TE; unfold_c; lia|unfold ICMP_TE_TTL; unfold_c; lia|]. exists n', B', out. split; [done|]. split; [done|]. split; [done|exact Hrep].
    - exists n1, B, []. rewrite app_nil_r. split; [done|]. split; [apply HT1|]. done. }
  assert (HT2 : transit (with_ps n1 (with_data (n_ps n1) (IPH_CHKSUM_SET m1 (p_payload b) (ttl_chksum (IPH_CHKSUM m1 (p_payload b)))))) B ext p b l (hop C)).
  { assert (Ec : IPH_CHKSUM m1 (p_payload b) = le_val (take 2 (drop 10 C))).
    { unfold IPH_CHKSUM. rewrite (load_at m1 _ 10 2 20), Er1 by lia. destruct (hop_words C H7 ltac:(lia)) as (pre & t & pr & c0 & c1 & R & EC & Hpre & _ & _ & _ & _ & _ & _ & _ & Ee & _). rewrite Ee, EC. explode 8 pre Hpre. done. }
    rewrite Ec. unfold IPH_CHKSUM_SET, hop. rewrite store_write_bytes. change m1 with (data (n_ps n1)) at 1. apply (transit_write n1 B ext p b l (expired C) 10 _ HT1); [cbn; lia|apply le_list_bytes]. }
  set (m2 := IPH_CHKSUM_SET _ _ _) in *. change (with_data (n_ps n1) m2) with (with_data (n_ps n) m2) in *. set (n2 := with_ps n1 (with_data (n_ps n) m2)) in *.
  destruct (transit_reads _ _ _ _ _ _ _ HT2) as (Er2 & _). change (data (n_ps n2)) with m2 in Er2. destruct (hop_fields C (hop C) H7 ltac:(lia) ltac:(by right)) as (Y1 & Y2 & Y3 & Y4 & Y5 & Y6 & Y7).
  pose proof (tr_bytes _ _ _ _ _ _ _ HT2) as H72. rewrite (df_reads _ _ _ Er2 H72), Y2 by lia. rewrite <- HlC.
  pose proof HT2 as [K1 K2 K3 K4 K5 K6 _ _].
  destruct (negb (netif_mtu nif =? 0) && (netif_mtu nif <? length C)).
  - destruct (Z.testbit (h_offset C) 14); cbn [negb].
    + destruct (report_spec ns n2 B ext p b l (hop C) ICMP_DUR ICMP_DUR_FRAG HT2 Hns) as (n' & B' & out & E & Hok & Hlog & Hrep); [unfold ICMP_DUR; unfold_c; lia|unfold ICMP_DUR_FRAG; unfold_c; lia|]. exists n', B', out. split; [done|]. split; [done|]. split; [done|exact Hrep].
    + intros Hm. by eapply frag_hop.
  - destruct (netif_output_spec n2 B ext nif p b l (h_dest C) (proj1 K1) K2 K4 K5) as (e & n' & B' & E & HI' & Hid & Hlog & _). rewrite E. cbn [mbind outcome_bind]. exists n', B'. split; [done|]. split; [split; [done|rewrite Hid; apply K1]|]. split; [by rewrite Hlog, K6|].
    intros Hg Ht0. apply good_header_iff in Hg as (G1 & G2 & G3 & G4 & G5 & G6). apply hop_valid; try done; [lia|rewrite G2; done].
Qed.

(** ** Theorems *)

(** C9: What ip4_forward does with a packet for another host.  It does nothing with a
    packet that came as a link layer broadcast or multicast, one for an address that must
    not be forwarded, one without a route, or one whose route is the interface it came
    from.  Else the TTL goes down by one.  At 0 the source gets an ICMP time exceeded
    (unless the packet is ICMP).  A packet that fits is sent to the interface with its new
    TTL and a header checksum that is valid again, all other bytes as they were.  A larger
    one that must not be fragmented is reported to its source; else it goes out in
    fragments, each with a valid header checksum and not longer than the MTU (from 28),
    with all the data, unless the heap refuses the memory for the next fragment; with IP
    options nothing is sent.  References to packets stay counted.  The IP header and 8
    bytes are in the first pbuf, and the packet is in its own memory. *)
Theorem ip4_forward_correct ns (n : inet) B ext p b l C inp :
  transit n B ext p b l C -> routes_ok ns ->
  match forward_verdict ns b inp C with
  | FNone => ip4_forward ns n p (p_payload b) inp (h_dest C) = Ret n
  | FExpired report =>
      exists n' B' out, ip4_forward ns n p (p_payload b) inp (h_dest C) = Ret n' /\ net_ok n' B' ext /\ link_log (n_lk n') = link_log (n_lk n) ++ out
        /\ if report then reported ns n ICMP_TE ICMP_TE_TTL (expired C) out else out = []
  | FTooBig =>
      exists n' B' out, ip4_forward ns n p (p_payload b) inp (h_dest C) = Ret n' /\ net_ok n' B' ext /\ link_log (n_lk n') = link_log (n_lk n) ++ out
        /\ reported ns n ICMP_DUR ICMP_DUR_FRAG (hop C) out
  | FFrag nif =>
      28 <= netif_mtu nif < 65536 ->
      exists n' B' fs, ip4_forward ns n p (p_payload b) inp (h_dest C) = Ret n' /\ net_inv n' B' ext
        /\ link_log (n_lk n') = link_log (n_lk n) ++ map (λ f, (netif_num nif, h_dest C, f)) fs /\ forwarded_in_pieces n' B' ext nif C fs
  | FSend nif =>
      exists n' B', ip4_forward ns n p (p_payload b) inp (h_dest C) = Ret n' /\ net_ok n' B' ext /\ link_log (n_lk n') = link_log (n_lk n) ++ [(netif_num nif, h_dest C, hop C)]
        /\ (good_header (p_len b) C = true -> h_ttl C <> 0 -> rfc1071_checksum (take (Z.to_nat (h_hlen C)) (hop C)) = 0)
  end.
Proof. apply forward_spec. Qed.

(** C39: A packet that arrives with the TTL 0 is not dropped: the TTL wraps around, and the
    packet is sent on with the TTL 255. *)
Theorem ip4_forward_ttl_zero ns (n : inet) B ext p b l C inp nif :
  transit n B ext p b l C -> routes_ok ns -> forward_verdict ns b inp C = FSend nif -> h_ttl C = 0 ->
  exists n' X, ip4_forward ns n p (p_payload b) inp (h_dest C) = Ret n' /\ link_log (n_lk n') = link_log (n_lk n) ++ [(netif_num nif, h_dest C, X)] /\ h_ttl X = 255 /\ h_dest X = h_dest C.
Proof.
  intros HT Hns Hv H0. pose proof (forward_spec ns n B ext p b l C inp HT Hns) as H. rewrite Hv in H. destruct H as (n' & B' & E & _ & Hlog & _). exists n', (hop C). split; [done|]. split; [done|].
  destruct (transit_reads _ _ _ _ _ _ _ HT) as (_ & _ & HL). destruct (hop_fields C (hop C) (tr_bytes _ _ _ _ _ _ _ HT) ltac:(lia) ltac:(by right)) as (_ & _ & _ & _ & Hd & Ht & _). rewrite Ht, H0. done.
Qed.
End Forward.

(** ** Witnesses: a router between 192.168.1.0/24 and 10.0.0.0/24 *)

#[local] Existing Instance dgram_pool.

Definition nif_c : netif := Netif 2 0x0100000a 0x00ffffff 0 0x27 [2; 0; 0; 0; 0; 3] 1500 true.
Definition netifs_ac : netifs := Netifs [nif_a; nif_c] None None.

Lemma routes_ac : routes_ok netifs_ac.
Proof.
  intros dest nif E. unfold ip4_route in E. cbn [ip4_default_multicast_netif netif_list netif_default netifs_ac route_loop] in E. assert (Hnif : nif = nif_a \/ nif = nif_c).
  { destruct (ip4_addr_ismulticast dest); destruct (route_matches dest nif_a); [left; congruence| |left; congruence|]; (destruct (route_matches dest nif_c); [right|]; congruence). }
  destruct Hnif as [->| ->]; vm_compute; intuition congruence.
Qed.

(** A packet from 192.168.1.10 to 10.0.0.9 with the TTL [ttl]. *)
Definition transit_frame (ttl c0 c1 : Z) : list Z := [0x45; 0; 0; 28; 0; 7; 0; 0; ttl; 17; c0; c1; 192; 168; 1; 10; 10; 0; 0; 9; 1; 2; 3; 4; 5; 6; 7; 8].

Lemma p1_flags b : pbufs ps1 !! p1 = Some b -> p_flags b = 0.
Proof. intros H. assert (E : (p_flags <$> pbufs ps1 !! p1) = Some 0) by (vm_compute; reflexivity). rewrite H in E. by injection E. Qed.

Lemma transit_got ttl c0 c1 :
  is_u8 ttl -> is_u8 c0 -> is_u8 c1 -> exists b l n B pad, transit n B (ext_add no_ext p1) p1 b l (transit_frame ttl c0 c1 ++ pad) /\ p_flags b = 0 /\ length (transit_frame ttl c0 c1 ++ pad) = 1000 :> Z /\ link_log (n_lk n) = [].
Proof.
  intros H1 H2 H3. destruct got_packet as (b & l & Hrc0 & Hlen & Htot & Hg). assert (Hu : Forall is_u8 (transit_frame ttl c0 c1)) by (unfold transit_frame; rewrite !Forall_cons; split_and!; try done; try (unfold_c; lia); constructor).
  destruct (Hg (transit_frame ttl c0 c1) Hu ltac:(cbn; lia)) as (Hrc & (pad & Hpad) & B & HR). set (n := got_net (p_payload b) (transit_frame ttl c0 c1)) in *. exists b, l, n, B, pad. pose proof Hrc as [R1 R2 R3 R4 R5 R6 R7]. apply Forall_cons in R3 as [R3 _].
  split; [|split; [|split; [|done]]].
  - split; [|exact R1|exact R2| |exact R3|exact Hpad|by rewrite <- Hpad|lia].
    + eapply net_ok_ext; [|apply (ri_net _ _ _ _ (proj1 HR))]. intros a. unfold hold. change (held (frags []) a) with 0%nat. lia.
    + unfold ext_add. rewrite (decide_True (P := p1 = p1)) by reflexivity. lia.
  - apply p1_flags. by destruct (rc_chain _ _ _ _ Hrc0) as [(_ & ? & _) _].
  - rewrite <- Hpad. rewrite (contents_length _ _ (tot_ok_lens _ (proj2 R1))). exact Htot.
Qed.

(** The pad is behind what is looked at. *)
Lemma transit_verdict ttl c0 c1 pad b :
  is_u8 ttl -> ttl <> 1 -> p_flags b = 0 -> length (transit_frame ttl c0 c1 ++ pad) = 1000 :> Z -> forward_verdict netifs_ac b nif_a (transit_frame ttl c0 c1 ++ pad) = FSend nif_c.
Proof.
  intros Ht H1 Hf HL. unfold forward_verdict. rewrite HL. assert (Ed : h_dest (transit_frame ttl c0 c1 ++ pad) = 0x0900000a) by reflexivity. rewrite Ed.
  assert (Ec : ip4_canforward b 0x0900000a = true) by (unfold ip4_canforward; rewrite Hf; vm_compute; reflexivity). rewrite Ec. assert (Er : ip4_route netifs_ac 0x0900000a = Some nif_c) by (vm_compute; reflexivity). rewrite Er.
  assert (Et : h_ttl (transit_frame ttl c0 c1 ++ pad) = ttl) by (unfold h_ttl, transit_frame; cbn [app take drop le_val]; lia). rewrite Et, (proj2 (Z.eqb_neq _ _) H1). vm_compute. reflexivity.
Qed.

Lemma ip4_forward_correct_witness :
  exists (n n' : wire_net) b X, ip4_forward netifs_ac n p1 (p_payload b) nif_a 0x0900000a = Ret n' /\ link_log (n_lk n') = [(2, 0x0900000a, X)] /\ rfc1071_checksum (take 20 X) = 0.
Proof.
  destruct (transit_got 64 0xaf 0x0f) as (b & l & n & B & pad & HT & Hf & HL & Hlk); try (unfold_c; lia).
  pose proof (ip4_forward_correct netifs_ac n B _ p1 b l _ nif_a HT routes_ac) as H. rewrite transit_verdict in H by (try done; unfold_c; lia).
  destruct H as (n' & B' & E & _ & Hlog & Hck). exists n, n', b, (hop (transit_frame 64 0xaf 0x0f ++ pad)). split; [exact E|]. split; [rewrite Hlog, Hlk; reflexivity|].
  apply Hck; [|discriminate]. apply good_header_iff. rewrite HL. pose proof (tr_len _ _ _ _ _ _ _ HT). change (h_hlen (transit_frame 64 0xaf 0x0f ++ pad)) with 20. change (h_len (transit_frame 64 0xaf 0x0f ++ pad)) with 28.
  repeat (split; [lia || reflexivity|]). vm_compute. reflexivity.
Defined.

Lemma ip4_forward_ttl_zero_witness :
  exists (n n' : wire_net) b X, ip4_forward netifs_ac n p1 (p_payload b) nif_a 0x0900000a = Ret n' /\ link_log (n_lk n') = [(2, 0x0900000a, X)] /\ h_ttl X = 255.
Proof.
  destruct (transit_got 0 0xef 0x0f) as (b & l & n & B & pad & HT & Hf & HL & Hlk); try (unfold_c; lia).
  destruct (ip4_forward_ttl_zero netifs_ac n B _ p1 b l _ nif_a nif_c HT routes_ac) as (n' & X & E & Hlog & Hx & _); [apply transit_verdict; try done; unfold_c; lia|reflexivity|].
  exists n, n', b, X. split; [exact E|]. split; [rewrite Hlog, Hlk; reflexivity|exact Hx].
Defined.
