(* ===== verification/Etharp.v ===== *)
(** * ARP and Ethernet (src/lwip/src/core/ipv4/etharp.c, src/lwip/src/netif/ethernet.c)

    The ARP table with the packets that wait for an answer, and the Ethernet header in
    front of outgoing and incoming frames.  etharp_output is the output function of an
    Ethernet interface, ethernet_input its input function.

    The headers are read and written in the payload of the packets.  A pointer to an
    interface is its number.  netif->linkoutput is the driver: [linkoutput] says what it
    returns for a frame after the frames before; the frames handed to it are recorded, and
    the driver copies them.  ip4_input, which ethernet_input calls, is a parameter here.

    Options: ARP_QUEUEING, ETHARP_SUPPORT_STATIC_ENTRIES, ETHARP_SUPPORT_VLAN,
    ETH_PAD_SIZE, LWIP_NETIF_HWADDRHINT, LWIP_AUTOIP and LWIP_DHCP 0,
    ETHARP_TABLE_MATCH_NETIF 1, no hooks, and LWIP_DEBUG is defined. *)

From S2P Require Import Prelude Def ListSeg InetChksum Ip4Addr Mem Memp Pbuf PbufMem PbufRef PbufChain PbufData Header Ip4 Udp Ip4Input.

#[local] Open Scope Z_scope.
#[local] Coercion Z.of_nat : nat >-> Z.

(** ** Constants (etharp.c, include/lwip/opt.h, netif.h, prot/etharp.h, ethernet.h, ieee.h, iana.h) *)

Definition ARP_TABLE_SIZE : Z := 10.
Definition ARP_MAXAGE : Z := 300.
Definition ARP_AGE_REREQUEST_USED_UNICAST : Z := ARP_MAXAGE - 30.
Definition ARP_AGE_REREQUEST_USED_BROADCAST : Z := ARP_MAXAGE - 15.
Definition ARP_MAXPENDING : Z := 5.
Definition ETHARP_FLAG_TRY_HARD : Z := 1.
Definition ETHARP_FLAG_FIND_ONLY : Z := 2.
Definition NETIF_ADDR_IDX_MAX : Z := 0x7F.
Definition NETIF_FLAG_ETHARP : Z := 0x08.
Definition SIZEOF_ETH_HDR : Z := 14.
Definition SIZEOF_ETHARP_HDR : Z := 28.
Definition ETH_HWADDR_LEN : Z := 6.
Definition ETHTYPE_IP : Z := 0x0800.
Definition ETHTYPE_ARP : Z := 0x0806.
Definition LWIP_IANA_HWTYPE_ETHERNET : Z := 1.
Definition ARP_REQUEST : Z := 1.
Definition ARP_REPLY : Z := 2.
Definition LL_IP4_MULTICAST_ADDR_0 : Z := 0x01.
Definition LL_IP4_MULTICAST_ADDR_1 : Z := 0x00.
Definition LL_IP4_MULTICAST_ADDR_2 : Z := 0x5e.
Definition ethbroadcast : list Z := [0xff; 0xff; 0xff; 0xff; 0xff; 0xff].
Definition ethzero : list Z := [0; 0; 0; 0; 0; 0].

Definition PBUF_NEEDS_COPY (b : pbuf) : bool := negb (Z.land (p_type_internal b) PBUF_TYPE_FLAG_DATA_VOLATILE =? 0).

(** struct eth_hdr at [h] *)
Definition eth_dest (m : bytes) (h : Z) : list Z := read_bytes m h 6.
Definition eth_type (m : bytes) (h : Z) : Z := load 2 m (h + 12).
Definition eth_dest_set (m : bytes) (h : Z) (a : list Z) : bytes := write_bytes m h a.
Definition eth_src_set (m : bytes) (h : Z) (a : list Z) : bytes := write_bytes m (h + 6) a.
Definition eth_type_set (m : bytes) (h x : Z) : bytes := store 2 m (h + 12) x.

(** struct etharp_hdr at [h] *)
Definition arph_hwtype (m : bytes) (h : Z) : Z := load 2 m h.
Definition arph_proto (m : bytes) (h : Z) : Z := load 2 m (h + 2).
Definition arph_hwlen (m : bytes) (h : Z) : Z := load 1 m (h + 4).
Definition arph_protolen (m : bytes) (h : Z) : Z := load 1 m (h + 5).
Definition arph_opcode (m : bytes) (h : Z) : Z := load 2 m (h + 6).
Definition arph_shwaddr (m : bytes) (h : Z) : list Z := read_bytes m (h + 8) 6.
Definition arph_sipaddr (m : bytes) (h : Z) : Z := load 4 m (h + 14).
Definition arph_dipaddr (m : bytes) (h : Z) : Z := load 4 m (h + 24).
Definition arph_hwtype_set (m : bytes) (h x : Z) : bytes := store 2 m h x.
Definition arph_proto_set (m : bytes) (h x : Z) : bytes := store 2 m (h + 2) x.
Definition arph_hwlen_set (m : bytes) (h x : Z) : bytes := store 1 m (h + 4) x.
Definition arph_protolen_set (m : bytes) (h x : Z) : bytes := store 1 m (h + 5) x.
Definition arph_opcode_set (m : bytes) (h x : Z) : bytes := store 2 m (h + 6) x.
Definition arph_shwaddr_set (m : bytes) (h : Z) (a : list Z) : bytes := write_bytes m (h + 8) a.
Definition arph_sipaddr_set (m : bytes) (h x : Z) : bytes := store 4 m (h + 14) x.
Definition arph_dhwaddr_set (m : bytes) (h : Z) (a : list Z) : bytes := write_bytes m (h + 18) a.
Definition arph_dipaddr_set (m : bytes) (h x : Z) : bytes := store 4 m (h + 24) x.

(** ** The table *)

Inductive etharp_state :=
| ETHARP_STATE_EMPTY | ETHARP_STATE_PENDING | ETHARP_STATE_STABLE
| ETHARP_STATE_STABLE_REREQUESTING_1 | ETHARP_STATE_STABLE_REREQUESTING_2.

#[global] Instance etharp_state_eq_dec : EqDecision etharp_state.
Proof. solve_decision. Defined.

(** state >= ETHARP_STATE_STABLE *)
Definition is_stable (st : etharp_state) : bool :=
  match st with ETHARP_STATE_EMPTY | ETHARP_STATE_PENDING => false | _ => true end.

Record etharp_entry := EtharpEntry {
  e_q : Z;
  e_ipaddr : Z;
  e_netif : option Z;
  e_ethaddr : list Z;
  e_ctime : Z;
  e_state : etharp_state
}.

Definition with_q (e : etharp_entry) (x : Z) : etharp_entry := EtharpEntry x (e_ipaddr e) (e_netif e) (e_ethaddr e) (e_ctime e) (e_state e).
Definition with_ctime (e : etharp_entry) (x : Z) : etharp_entry := EtharpEntry (e_q e) (e_ipaddr e) (e_netif e) (e_ethaddr e) x (e_state e).
Definition with_estate (e : etharp_entry) (x : etharp_state) : etharp_entry := EtharpEntry (e_q e) (e_ipaddr e) (e_netif e) (e_ethaddr e) (e_ctime e) x.
Definition empty_entry : etharp_entry := EtharpEntry NULL 0 None ethzero 0 ETHARP_STATE_EMPTY.

(** ** Searching the table *)

(** The candidates of etharp_find_entry for a new entry, ARP_TABLE_SIZE for none. *)
Record scan := Scan {
  sc_empty : Z;
  sc_stable : Z; sc_age_stable : Z;
  sc_pending : Z; sc_age_pending : Z;
  sc_queue : Z; sc_age_queue : Z
}.

Definition scan_start : scan := Scan ARP_TABLE_SIZE ARP_TABLE_SIZE 0 ARP_TABLE_SIZE 0 ARP_TABLE_SIZE 0.

(** One entry that does not match. *)
Definition scan_step (e : etharp_entry) (i : Z) (a : scan) : scan :=
  if bool_decide (e_state e = ETHARP_STATE_EMPTY) then
    if sc_empty a =? ARP_TABLE_SIZE
    then Scan i (sc_stable a) (sc_age_stable a) (sc_pending a) (sc_age_pending a) (sc_queue a) (sc_age_queue a) else a
  else if bool_decide (e_state e = ETHARP_STATE_PENDING) then
    if negb (e_q e =? NULL) then
      if sc_age_queue a <=? e_ctime e
      then Scan (sc_empty a) (sc_stable a) (sc_age_stable a) (sc_pending a) (sc_age_pending a) i (e_ctime e) else a
    else
      if sc_age_pending a <=? e_ctime e
      then Scan (sc_empty a) (sc_stable a) (sc_age_stable a) i (e_ctime e) (sc_queue a) (sc_age_queue a) else a
  else
    if sc_age_stable a <=? e_ctime e
    then Scan (sc_empty a) i (e_ctime e) (sc_pending a) (sc_age_pending a) (sc_queue a) (sc_age_queue a) else a.

Definition entry_matches (e : etharp_entry) (ipaddr : Z) (nif : netif) : bool :=
  negb (bool_decide (e_state e = ETHARP_STATE_EMPTY)) && ip4_addr_cmp ipaddr (e_ipaddr e) && bool_decide (e_netif e = Some (netif_num nif)).

(** The sweep over the table: the entry that matches, or the candidates. *)
Fixpoint scan_loop (l : list etharp_entry) (i : Z) (ipaddr : Z) (nif : netif) (a : scan) : Z + scan :=
  match l with
  | [] => inr a
  | e :: l => if entry_matches e ipaddr nif then inl i else scan_loop l (i + 1) ipaddr nif (scan_step e i a)
  end.

(** The candidate to recycle. *)
Definition recycle (a : scan) : option Z :=
  if sc_stable a <? ARP_TABLE_SIZE then Some (sc_stable a)
  else if sc_pending a <? ARP_TABLE_SIZE then Some (sc_pending a)
  else if sc_queue a <? ARP_TABLE_SIZE then Some (sc_queue a)
  else None.

Section Arp.
Context `{MO : MemOptions} `{PO : PbufOptions} {St : Type} `{!PacketMemory St}.
Context (linkoutput : list (Z * list Z) -> netif -> list Z -> err_t).
Abbreviation pst := (pstate (St := St)).

(** ** State *)

Record arp := Arp {
  a_ps : pst;
  a_log : list (Z * list Z);
  arp_table : list etharp_entry;
  etharp_cached_entry : Z
}.

Definition with_aps (s : arp) (x : pst) : arp := Arp x (a_log s) (arp_table s) (etharp_cached_entry s).
Definition with_alog (s : arp) (x : list (Z * list Z)) : arp := Arp (a_ps s) x (arp_table s) (etharp_cached_entry s).
Definition with_table (s : arp) (x : list etharp_entry) : arp := Arp (a_ps s) (a_log s) x (etharp_cached_entry s).
Definition ETHARP_SET_ADDRHINT (s : arp) (x : Z) : arp := Arp (a_ps s) (a_log s) (arp_table s) x.
Definition a_mem (s : arp) : bytes := data (a_ps s).

(** arp_table[i] *)
Definition entry_at (s : arp) (i : Z) : outcome etharp_entry :=
  match arp_table s !! Z.to_nat i with Some e => if i <? 0 then Trap "arp_table" else Ret e | None => Trap "arp_table" end.
Definition set_entry (s : arp) (i : Z) (e : etharp_entry) : arp := with_table s (<[Z.to_nat i := e]> (arp_table s)).

Definition arp_free (s : arp) (p : Z) : outcome arp := '(_, ps) ← pbuf_free (a_ps s) p; Ret (with_aps s ps).

(** The static variables at the start. *)
Definition arp_start (ps : pst) : arp := Arp ps [] (replicate (Z.to_nat ARP_TABLE_SIZE) empty_entry) 0.

(** ** ethernet.c: output *)

(** netif->linkoutput(netif, p) *)
Definition netif_linkoutput (s : arp) (nif : netif) (p : Z) : err_t * arp :=
  let frame := contents (a_mem s) (packet (chain_fuel (a_ps s)) (a_ps s) p) in
  (linkoutput (a_log s) nif frame, with_alog s (a_log s ++ [(netif_num nif, frame)])).

Definition ethernet_output (s : arp) (nif : netif) (p : Z) (src dst : list Z) (type : Z) : outcome (err_t * arp) :=
  let eth_type_be := lwip_htons type in
  '(r, ps) ← pbuf_add_header (a_ps s) p SIZEOF_ETH_HDR;
  if negb (r =? 0) then Ret (ERR_BUF, with_aps s ps)
  else
    b ← deref ps p;
    let ethhdr := p_payload b in
    let m := eth_type_set (data ps) ethhdr eth_type_be in
    let m := eth_dest_set m ethhdr dst in
    let m := eth_src_set m ethhdr src in
    LWIP_ASSERT "netif->hwaddr_len must be 6 for ethernet_output!" (Z.of_nat (length (netif_hwaddr nif)) =? ETH_HWADDR_LEN);;
    Ret (netif_linkoutput (with_aps s (with_data ps m)) nif p).

(** ** Sending ARP messages *)

Definition etharp_raw (s : arp) (nif : netif) (ethsrc_addr ethdst_addr hwsrc_addr : list Z) (ipsrc_addr : Z) (hwdst_addr : list Z) (ipdst_addr opcode : Z) : outcome (err_t * arp) :=
  '(p, ps) ← pbuf_alloc (a_ps s) PBUF_LINK SIZEOF_ETHARP_HDR PBUF_RAM;
  let s := with_aps s ps in
  if p =? NULL then Ret (ERR_MEM, s)
  else
    b ← deref ps p;
    LWIP_ASSERT "check that first pbuf can hold struct etharp_hdr" (SIZEOF_ETHARP_HDR <=? p_len b);;
    let hdr := p_payload b in
    let m := arph_opcode_set (data ps) hdr (lwip_htons opcode) in
    LWIP_ASSERT "netif->hwaddr_len must be the same as ETH_HWADDR_LEN for etharp!" (Z.of_nat (length (netif_hwaddr nif)) =? ETH_HWADDR_LEN);;
    let m := arph_shwaddr_set m hdr hwsrc_addr in
    let m := arph_dhwaddr_set m hdr hwdst_addr in
    let m := arph_sipaddr_set m hdr ipsrc_addr in
    let m := arph_dipaddr_set m hdr ipdst_addr in
    let m := arph_hwtype_set m hdr (PP_HTONS LWIP_IANA_HWTYPE_ETHERNET) in
    let m := arph_proto_set m hdr (PP_HTONS ETHTYPE_IP) in
    let m := arph_hwlen_set m hdr ETH_HWADDR_LEN in
    let m := arph_protolen_set m hdr 4 in
    '(_, s) ← ethernet_output (with_aps s (with_data ps m)) nif p ethsrc_addr ethdst_addr ETHTYPE_ARP;
    s ← arp_free s p;
    Ret (ERR_OK, s).

Definition etharp_request_dst (s : arp) (nif : netif) (ipaddr : Z) (hw_dst_addr : list Z) : outcome (err_t * arp) :=
  etharp_raw s nif (netif_hwaddr nif) hw_dst_addr (netif_hwaddr nif) (netif_ip4_addr nif) ethzero ipaddr ARP_REQUEST.

Definition etharp_request (s : arp) (nif : netif) (ipaddr : Z) : outcome (err_t * arp) := etharp_request_dst s nif ipaddr ethbroadcast.

Definition etharp_gratuitous (s : arp) (nif : netif) : outcome (err_t * arp) := etharp_request s nif (netif_ip4_addr nif).

(** ** Entries *)

Definition etharp_free_entry (s : arp) (i : Z) : outcome arp :=
  e ← entry_at s i;
  s ← (if negb (e_q e =? NULL) then arp_free s (e_q e) else Ret s);
  Ret (set_entry s i empty_entry).

(** etharp_find_entry with an address; None for ERR_MEM. *)
Definition etharp_find_entry (s : arp) (ipaddr flags : Z) (nif : netif) : outcome (option Z * arp) :=
  match scan_loop (arp_table s) 0 ipaddr nif scan_start with
  | inl i => Ret (Some i, s)
  | inr a =>
      if negb (Z.land flags ETHARP_FLAG_FIND_ONLY =? 0) || ((sc_empty a =? ARP_TABLE_SIZE) && (Z.land flags ETHARP_FLAG_TRY_HARD =? 0))
      then Ret (None, s)
      else
        '(r, s) ← (if sc_empty a <? ARP_TABLE_SIZE then Ret (Some (sc_empty a), s)
                   else
                     match recycle a with
                     | None => Ret (None, s)
                     | Some i =>
                         e ← entry_at s i;
                         LWIP_ASSERT "arp_table[i].q == NULL" (negb (sc_stable a <? ARP_TABLE_SIZE) || (e_q e =? NULL));;
                         s ← etharp_free_entry s i;
                         Ret (Some i, s)
                     end);
        match r with
        | None => Ret (None, s)
        | Some i =>
            LWIP_ASSERT "i < ARP_TABLE_SIZE" (i <? ARP_TABLE_SIZE);;
            e ← entry_at s i;
            LWIP_ASSERT "arp_table[i].state == ETHARP_STATE_EMPTY" (bool_decide (e_state e = ETHARP_STATE_EMPTY));;
            Ret (Some i, set_entry s i (EtharpEntry (e_q e) ipaddr (Some (netif_num nif)) (e_ethaddr e) 0 (e_state e)))
        end
  end.

(** etharp_update_arp_entry once the entry [i] is there: it becomes stable, and the packet that waits is sent. *)
Definition make_stable (s : arp) (nif : netif) (i : Z) (ethaddr : list Z) : outcome (err_t * arp) :=
  e ← entry_at s i;
  let s := set_entry s i (EtharpEntry (e_q e) (e_ipaddr e) (Some (netif_num nif)) ethaddr 0 ETHARP_STATE_STABLE) in
  e ← entry_at s i;
  if negb (e_q e =? NULL) then
    let p := e_q e in
    let s := set_entry s i (with_q e NULL) in
    '(_, s) ← ethernet_output s nif p (netif_hwaddr nif) ethaddr ETHTYPE_IP;
    s ← arp_free s p;
    Ret (ERR_OK, s)
  else Ret (ERR_OK, s).

Definition etharp_update_arp_entry (s : arp) (nif : netif) (ipaddr : Z) (ethaddr : list Z) (flags : Z) : outcome (err_t * arp) :=
  LWIP_ASSERT "netif->hwaddr_len == ETH_HWADDR_LEN" (Z.of_nat (length (netif_hwaddr nif)) =? ETH_HWADDR_LEN);;
  if ip4_addr_isany_val ipaddr || ip4_addr_isbroadcast_u32 ipaddr nif || ip4_addr_ismulticast ipaddr then Ret (ERR_ARG, s)
  else
    '(r, s) ← etharp_find_entry s ipaddr flags nif;
    match r with
    | None => Ret (ERR_MEM, s)
    | Some i => make_stable s nif i ethaddr
    end.

(** The loop of etharp_cleanup_netif over the last [k] entries. *)
Fixpoint cleanup_loop (k : nat) (i : Z) (s : arp) (nif : netif) : outcome arp :=
  match k with
  | O => Ret s
  | S k =>
      e ← entry_at s i;
      s ← (if negb (bool_decide (e_state e = ETHARP_STATE_EMPTY)) && bool_decide (e_netif e = Some (netif_num nif)) then etharp_free_entry s i else Ret s);
      cleanup_loop k (i + 1) s nif
  end.

Definition etharp_cleanup_netif (s : arp) (nif : netif) : outcome arp := cleanup_loop (Z.to_nat ARP_TABLE_SIZE) 0 s nif.

(** The index and the address; None for -1. *)
Definition etharp_find_addr (s : arp) (nif : netif) (ipaddr : Z) : outcome (option (Z * list Z * Z) * arp) :=
  '(r, s) ← etharp_find_entry s ipaddr ETHARP_FLAG_FIND_ONLY nif;
  match r with
  | None => Ret (None, s)
  | Some i =>
      e ← entry_at s i;
      Ret (if is_stable (e_state e) then Some (i, e_ethaddr e, e_ipaddr e) else None, s)
  end.

Definition etharp_get_entry (s : arp) (i : Z) : outcome (option (Z * option Z * list Z)) :=
  if i <? ARP_TABLE_SIZE then
    e ← entry_at s i;
    Ret (if is_stable (e_state e) then Some (e_ipaddr e, e_netif e, e_ethaddr e) else None)
  else Ret None.

(** ** The timer *)

(** The interface with a number. *)
Definition netif_at (ns : netifs) (n : option Z) : outcome netif :=
  match List.find (λ nif, bool_decide (Some (netif_num nif) = n)) (netif_list ns) with Some nif => Ret nif | None => Trap "invalid pointer to struct netif" end.

(** One entry that is in use. *)
Definition tmr_entry (ns : netifs) (s : arp) (i : Z) (e : etharp_entry) : outcome arp :=
  let e := with_ctime e (u16 (e_ctime e + 1)) in
  let s := set_entry s i e in
  if (ARP_MAXAGE <=? e_ctime e) || (bool_decide (e_state e = ETHARP_STATE_PENDING) && (ARP_MAXPENDING <=? e_ctime e)) then etharp_free_entry s i
  else if bool_decide (e_state e = ETHARP_STATE_STABLE_REREQUESTING_1) then Ret (set_entry s i (with_estate e ETHARP_STATE_STABLE_REREQUESTING_2))
  else if bool_decide (e_state e = ETHARP_STATE_STABLE_REREQUESTING_2) then Ret (set_entry s i (with_estate e ETHARP_STATE_STABLE))
  else if bool_decide (e_state e = ETHARP_STATE_PENDING) then
    nif ← netif_at ns (e_netif e);
    '(_, s) ← etharp_request s nif (e_ipaddr e);
    Ret s
  else Ret s.

Fixpoint arp_tmr_loop (k : nat) (ns : netifs) (i : Z) (s : arp) : outcome arp :=
  match k with
  | O => Ret s
  | S k =>
      e ← entry_at s i;
      s ← (if negb (bool_decide (e_state e = ETHARP_STATE_EMPTY)) then tmr_entry ns s i e else Ret s);
      arp_tmr_loop k ns (i + 1) s
  end.

Definition etharp_tmr (ns : netifs) (s : arp) : outcome arp := arp_tmr_loop (Z.to_nat ARP_TABLE_SIZE) ns 0 s.

(** ** Receiving ARP messages *)

Definition etharp_input (s : arp) (p : Z) (nif : netif) : outcome arp :=
  b ← deref (a_ps s) p;
  let hdr := p_payload b in
  if negb (arph_hwtype (a_mem s) hdr =? PP_HTONS LWIP_IANA_HWTYPE_ETHERNET) || negb (arph_hwlen (a_mem s) hdr =? ETH_HWADDR_LEN)
     || negb (arph_protolen (a_mem s) hdr =? 4) || negb (arph_proto (a_mem s) hdr =? PP_HTONS ETHTYPE_IP)
  then arp_free s p
  else
    let sipaddr := arph_sipaddr (a_mem s) hdr in
    let dipaddr := arph_dipaddr (a_mem s) hdr in
    let for_us := if ip4_addr_isany_val (netif_ip4_addr nif) then false else ip4_addr_cmp dipaddr (netif_ip4_addr nif) in
    '(_, s) ← etharp_update_arp_entry s nif sipaddr (arph_shwaddr (a_mem s) hdr) (if for_us then ETHARP_FLAG_TRY_HARD else ETHARP_FLAG_FIND_ONLY);
    s ← (if (arph_opcode (a_mem s) hdr =? PP_HTONS ARP_REQUEST) && for_us then
           '(_, s) ← etharp_raw s nif (netif_hwaddr nif) (arph_shwaddr (a_mem s) hdr) (netif_hwaddr nif) (netif_ip4_addr nif) (arph_shwaddr (a_mem s) hdr) sipaddr ARP_REPLY;
           Ret s
         else Ret s);
    arp_free s p.

(** ** Output *)

Definition etharp_output_to_arp_index (s : arp) (nif : netif) (q arp_idx : Z) : outcome (err_t * arp) :=
  e ← entry_at s arp_idx;
  LWIP_ASSERT "arp_table[arp_idx].state >= ETHARP_STATE_STABLE" (is_stable (e_state e));;
  s ← (if bool_decide (e_state e = ETHARP_STATE_STABLE) then
         if ARP_AGE_REREQUEST_USED_BROADCAST <=? e_ctime e then
           '(r, s) ← etharp_request s nif (e_ipaddr e);
           Ret (if bool_decide (r = ERR_OK) then set_entry s arp_idx (with_estate e ETHARP_STATE_STABLE_REREQUESTING_1) else s)
         else if ARP_AGE_REREQUEST_USED_UNICAST <=? e_ctime e then
           '(r, s) ← etharp_request_dst s nif (e_ipaddr e) (e_ethaddr e);
           Ret (if bool_decide (r = ERR_OK) then set_entry s arp_idx (with_estate e ETHARP_STATE_STABLE_REREQUESTING_1) else s)
         else Ret s
       else Ret s);
  ethernet_output s nif q (netif_hwaddr nif) (e_ethaddr e) ETHTYPE_IP.

(** Whether a pbuf of the packet must be copied. *)
Fixpoint copy_needed (fuel : nat) (ps : pst) (p : Z) : outcome bool :=
  if p =? NULL then Ret false
  else
    match fuel with
    | O => Trap "etharp_query: fuel"
    | S fuel =>
        b ← deref ps p;
        LWIP_ASSERT "no packet queues allowed!" (negb (p_len b =? p_tot_len b) || (p_next b =? NULL));;
        if PBUF_NEEDS_COPY b then Ret true else copy_needed fuel ps (p_next b)
    end.

(** The packet [q] is queued on the pending entry [i]. *)
Definition queue_packet (s : arp) (i q : Z) : outcome (err_t * arp) :=
  c ← copy_needed (chain_fuel (a_ps s)) (a_ps s) q;
  '(p, ps) ← (if (c : bool) then pbuf_clone (a_ps s) PBUF_LINK PBUF_RAM q else ps ← pbuf_ref (a_ps s) q; Ret (q, ps));
  let s := with_aps s ps in
  if negb (p =? NULL) then
    e ← entry_at s i;
    s ← (if negb (e_q e =? NULL) then arp_free s (e_q e) else Ret s);
    Ret (ERR_OK, set_entry s i (with_q e p))
  else Ret (ERR_MEM, s).

Definition etharp_query (s : arp) (nif : netif) (ipaddr q : Z) : outcome (err_t * arp) :=
  if ip4_addr_isbroadcast_u32 ipaddr nif || ip4_addr_ismulticast ipaddr || ip4_addr_isany_val ipaddr then Ret (ERR_ARG, s)
  else
    '(r, s) ← etharp_find_entry s ipaddr ETHARP_FLAG_TRY_HARD nif;
    match r with
    | None => Ret (ERR_MEM, s)
    | Some i =>
        LWIP_ASSERT "type overflow" (i <? NETIF_ADDR_IDX_MAX);;
        e ← entry_at s i;
        let is_new_entry := bool_decide (e_state e = ETHARP_STATE_EMPTY) in
        let s := if is_new_entry then set_entry s i (EtharpEntry (e_q e) (e_ipaddr e) (Some (netif_num nif)) (e_ethaddr e) (e_ctime e) ETHARP_STATE_PENDING) else s in
        '(result, s) ← (if is_new_entry || (q =? NULL) then etharp_request s nif ipaddr else Ret (ERR_MEM, s));
        if q =? NULL then Ret (result, s)
        else
          e ← entry_at s i;
          if is_stable (e_state e) then
            ethernet_output (ETHARP_SET_ADDRHINT s i) nif q (netif_hwaddr nif) (e_ethaddr e) ETHTYPE_IP
          else if bool_decide (e_state e = ETHARP_STATE_PENDING) then queue_packet s i q
          else Ret (result, s)
    end.

(** The loop for a stable entry. *)
Fixpoint stable_loop (l : list etharp_entry) (i : Z) (dst : Z) (nif : netif) : option Z :=
  match l with
  | [] => None
  | e :: l =>
      if is_stable (e_state e) && bool_decide (e_netif e = Some (netif_num nif)) && ip4_addr_cmp dst (e_ipaddr e) then Some i
      else stable_loop l (i + 1) dst nif
  end.

(** The hardware address for a multicast address. *)
Definition mcastaddr (ipaddr : Z) : list Z :=
  [LL_IP4_MULTICAST_ADDR_0; LL_IP4_MULTICAST_ADDR_1; LL_IP4_MULTICAST_ADDR_2;
   Z.land (ip4_addr_get_byte ipaddr 1) 0x7f; ip4_addr_get_byte ipaddr 2; ip4_addr_get_byte ipaddr 3].

(** A packet to one host, through [dst_addr]. *)
Definition output_unicast (s : arp) (nif : netif) (q dst_addr : Z) : outcome (err_t * arp) :=
  e ← entry_at s (etharp_cached_entry s);
  if is_stable (e_state e) && bool_decide (e_netif e = Some (netif_num nif)) && ip4_addr_cmp dst_addr (e_ipaddr e)
  then etharp_output_to_arp_index s nif q (etharp_cached_entry s)
  else
    match stable_loop (arp_table s) 0 dst_addr nif with
    | Some i => etharp_output_to_arp_index (ETHARP_SET_ADDRHINT s i) nif q i
    | None => etharp_query s nif dst_addr q
    end.

Definition etharp_output (s : arp) (nif : netif) (q ipaddr : Z) : outcome (err_t * arp) :=
  LWIP_ASSERT "q != NULL" (negb (q =? NULL));;
  if ip4_addr_isbroadcast_u32 ipaddr nif then ethernet_output s nif q (netif_hwaddr nif) ethbroadcast ETHTYPE_IP
  else if ip4_addr_ismulticast ipaddr then ethernet_output s nif q (netif_hwaddr nif) (mcastaddr ipaddr) ETHTYPE_IP
  else if negb (ip4_addr_netcmp ipaddr (netif_ip4_addr nif) (netif_ip4_netmask nif)) && negb (ip4_addr_islinklocal ipaddr) then
    if negb (ip4_addr_isany_val (netif_ip4_gw nif)) then output_unicast s nif q (netif_ip4_gw nif) else Ret (ERR_RTE, s)
  else output_unicast s nif q ipaddr.

(** ** ethernet.c: input *)

Context (ip4_input : arp -> Z -> netif -> outcome arp).

Definition with_if_idx (b : pbuf) (x : Z) : pbuf :=
  Pbuf (p_next b) (p_payload b) (p_tot_len b) (p_len b) (p_type_internal b) (p_flags b) (p_ref b) x.

(** The flags for the destination address of the frame. *)
Definition ll_flags (dest : list Z) (flags : Z) : Z :=
  if negb (Z.land (default 0 (dest !! 0%nat)) 1 =? 0) then
    if default 0 (dest !! 0%nat) =? LL_IP4_MULTICAST_ADDR_0 then
      if (default 0 (dest !! 1%nat) =? LL_IP4_MULTICAST_ADDR_1) && (default 0 (dest !! 2%nat) =? LL_IP4_MULTICAST_ADDR_2)
      then Z.lor flags PBUF_FLAG_LLMCAST else flags
    else if bool_decide (dest = ethbroadcast) then Z.lor flags PBUF_FLAG_LLBCAST else flags
  else flags.

Definition ethernet_input (s : arp) (p : Z) (nif : netif) : outcome (err_t * arp) :=
  let free_and_return (s : arp) : outcome (err_t * arp) := s ← arp_free s p; Ret (ERR_OK, s) in
  b ← deref (a_ps s) p;
  if p_len b <=? SIZEOF_ETH_HDR then free_and_return s
  else
    let b := if p_if_idx b =? NETIF_NO_INDEX then with_if_idx b (netif_get_index nif) else b in
    let ethhdr := p_payload b in
    let type := eth_type (a_mem s) ethhdr in
    let b := with_flags b (ll_flags (eth_dest (a_mem s) ethhdr) (p_flags b)) in
    let s := with_aps s (set_pbuf (a_ps s) p b) in
    if (type =? PP_HTONS ETHTYPE_IP) || (type =? PP_HTONS ETHTYPE_ARP) then
      if Z.land (netif_flags nif) NETIF_FLAG_ETHARP =? 0 then free_and_return s
      else
        '(r, ps) ← pbuf_remove_header (a_ps s) p SIZEOF_ETH_HDR;
        let s := with_aps s ps in
        if negb (r =? 0) then free_and_return s
        else s ← (if type =? PP_HTONS ETHTYPE_IP then ip4_input s p nif else etharp_input s p nif); Ret (ERR_OK, s)
    else free_and_return s.
End Arp.
