(* ===== verification/EtharpTable.v ===== *)
(** * The ARP table as a cache (src/lwip/src/core/ipv4/etharp.c)

    Which entry the sweep of etharp_find_entry finds: the one for the address, or else
    the first empty one, or else the least valuable one: the oldest stable entry, the
    oldest pending entry without a packet, the oldest pending entry with a packet. *)

From S2P Require Import Prelude Ip4Addr Pbuf Udp Ip4Input Etharp.

#[local] Open Scope Z_scope.
#[local] Coercion Z.of_nat : nat >-> Z.

(** ** The kinds of entries *)

Definition c_empty (e : etharp_entry) : bool := bool_decide (e_state e = ETHARP_STATE_EMPTY).
Definition c_stable (e : etharp_entry) : bool := is_stable (e_state e).
Definition c_pending (e : etharp_entry) : bool := bool_decide (e_state e = ETHARP_STATE_PENDING) && (e_q e =? NULL).
Definition c_queue (e : etharp_entry) : bool := bool_decide (e_state e = ETHARP_STATE_PENDING) && negb (e_q e =? NULL).

(** No entry of a kind, the first one, an oldest one. *)
Definition no_entry (P : etharp_entry -> bool) (T : list etharp_entry) : Prop := Forall (λ e, P e = false) T.
Definition first_entry (P : etharp_entry -> bool) (T : list etharp_entry) (i : nat) : Prop :=
  (exists e, T !! i = Some e /\ P e = true) /\ no_entry P (take i T).
Definition oldest (P : etharp_entry -> bool) (T : list etharp_entry) (i : nat) : Prop :=
  exists e, T !! i = Some e /\ P e = true /\ Forall (λ e', P e' = true -> e_ctime e' <= e_ctime e) T.

(** The entry to give up when none is empty, and the entry for a new address. *)
Definition victim (T : list etharp_entry) (i : nat) : Prop :=
  oldest c_stable T i \/ no_entry c_stable T /\ (oldest c_pending T i \/ no_entry c_pending T /\ oldest c_queue T i).
Definition chosen (T : list etharp_entry) (i : nat) : Prop := first_entry c_empty T i \/ no_entry c_empty T /\ victim T i.

(** ** The sweep *)

(** The candidate of a kind after the entries [T]. *)
Definition cand (P : etharp_entry -> bool) (T : list etharp_entry) (idx age : Z) : Prop :=
  idx = ARP_TABLE_SIZE /\ age = 0 /\ no_entry P T
  \/ exists i e, idx = Z.of_nat i /\ T !! i = Some e /\ P e = true /\ age = e_ctime e /\ Forall (λ e', P e' = true -> e_ctime e' <= e_ctime e) T.

Lemma cand_skip P T idx age e : P e = false -> cand P T idx age -> cand P (T ++ [e]) idx age.
Proof.
  intros He [(-> & -> & Hn)|(i & x & -> & Hi & Hx & -> & Hf)]; [left|right].
  - split_and!; try done. apply Forall_app. by split; [|constructor].
  - exists i, x. rewrite lookup_app_l by (by eapply lookup_lt_Some). split_and!; try done.
    apply Forall_app. split; [done|]. constructor; [congruence|done].
Qed.

Lemma cand_see P T idx age e :
  P e = true -> 0 <= e_ctime e -> cand P T idx age ->
  if age <=? e_ctime e then cand P (T ++ [e]) (Z.of_nat (length T)) (e_ctime e) else cand P (T ++ [e]) idx age.
Proof.
  intros He Hc Hcand. destruct (age <=? e_ctime e) eqn:E; bool_to_prop.
  - right. exists (length T), e. rewrite list_lookup_middle by done. split_and!; try done. apply Forall_app. split; [|by constructor].
    destruct Hcand as [(_ & _ & Hn)|(i & x & _ & _ & _ & -> & Hf)]; eapply Forall_impl; try done; cbn; [congruence|].
    intros e' H1 H2. specialize (H1 H2). lia.
  - destruct Hcand as [(_ & -> & _)|(i & x & -> & Hi & Hx & -> & Hf)]; [lia|]. right.
    exists i, x. rewrite lookup_app_l by (by eapply lookup_lt_Some). split_and!; try done. apply Forall_app. split; [done|]. constructor; [lia|done].
Qed.

Record scanned (T : list etharp_entry) (a : scan) : Prop := Scanned {
  sd_empty : sc_empty a = ARP_TABLE_SIZE /\ no_entry c_empty T \/ exists i, sc_empty a = Z.of_nat i /\ first_entry c_empty T i;
  sd_stable : cand c_stable T (sc_stable a) (sc_age_stable a);
  sd_pending : cand c_pending T (sc_pending a) (sc_age_pending a);
  sd_queue : cand c_queue T (sc_queue a) (sc_age_queue a)
}.

Lemma first_entry_app P T e i : first_entry P T i -> first_entry P (T ++ [e]) i.
Proof.
  intros [(x & Hi & Hx) Hn]. pose proof (lookup_lt_Some _ _ _ Hi). split; [exists x; by rewrite lookup_app_l|]. by rewrite take_app_le by lia.
Qed.

Lemma empty_skip T e a :
  c_empty e = false -> sc_empty a = ARP_TABLE_SIZE /\ no_entry c_empty T \/ (exists i, sc_empty a = Z.of_nat i /\ first_entry c_empty T i) ->
  sc_empty a = ARP_TABLE_SIZE /\ no_entry c_empty (T ++ [e]) \/ (exists i, sc_empty a = Z.of_nat i /\ first_entry c_empty (T ++ [e]) i).
Proof.
  intros He [[Ha Hn]|(i & Ha & Hi)]; [left|right; exists i; by split; [|apply first_entry_app]].
  split; [done|]. apply Forall_app. by split; [|constructor].
Qed.

Lemma scan_step_spec T e a :
  (length T < 10)%nat -> 0 <= e_ctime e -> scanned T a -> scanned (T ++ [e]) (scan_step e (Z.of_nat (length T)) a).
Proof.
  intros Hlen Hc [H1 H2 H3 H4]. unfold scan_step. destruct (e_state e) eqn:Est; cbn [bool_decide]; repeat first [rewrite bool_decide_eq_false_2 by done | rewrite bool_decide_eq_true_2 by done].
  3-5: assert (c_empty e = false /\ c_stable e = true /\ c_pending e = false /\ c_queue e = false) as (E1 & E2 & E3 & E4) by (unfold c_empty, c_stable, c_pending, c_queue; by rewrite Est).
  3-5: pose proof (cand_see _ _ _ _ _ E2 Hc H2) as H2'; destruct (sc_age_stable a <=? e_ctime e); split; cbn; try (by apply cand_skip); try (by apply empty_skip); done.
  - (* empty *)
    assert (c_empty e = true /\ c_stable e = false /\ c_pending e = false /\ c_queue e = false) as (E1 & E2 & E3 & E4) by (unfold c_empty, c_stable, c_pending, c_queue; by rewrite Est).
    destruct (sc_empty a =? ARP_TABLE_SIZE) eqn:E; bool_to_prop; split; cbn; try (by apply cand_skip).
    + right. exists (length T). split; [done|]. split; [exists e; by rewrite list_lookup_middle|]. rewrite take_app_length.
      destruct H1 as [[_ H1]|(i & Hi & (x & Hx & _) & _)]; [done|]. apply lookup_lt_Some in Hx. unfold ARP_TABLE_SIZE in *. lia.
    + destruct H1 as [[? _]|(i & Hi & H1)]; [lia|]. right. exists i. by split; [|apply first_entry_app].
  - (* pending *)
    assert (c_empty e = false /\ c_stable e = false) as (E1 & E2) by (unfold c_empty, c_stable; by rewrite Est).
    assert (c_pending e = (e_q e =? NULL) /\ c_queue e = negb (e_q e =? NULL)) as (E3 & E4) by (unfold c_pending, c_queue; by rewrite Est).
    destruct (e_q e =? NULL) eqn:Eq; cbn [negb] in *.
    + pose proof (cand_see _ _ _ _ _ E3 Hc H3) as H3'. destruct (sc_age_pending a <=? e_ctime e); split; cbn; try (by apply cand_skip); try (by apply empty_skip); done.
    + pose proof (cand_see _ _ _ _ _ E4 Hc H4) as H4'. destruct (sc_age_queue a <=? e_ctime e); split; cbn; try (by apply cand_skip); try (by apply empty_skip); done.
Qed.

Lemma scan_loop_spec T l a ipaddr nif :
  (length T + length l <= 10)%nat -> Forall (λ e, 0 <= e_ctime e) l -> scanned T a -> no_entry (λ e, entry_matches e ipaddr nif) T ->
  match scan_loop l (Z.of_nat (length T)) ipaddr nif a with
  | inl i => exists n, i = Z.of_nat n /\ first_entry (λ e, entry_matches e ipaddr nif) (T ++ l) n
  | inr a' => scanned (T ++ l) a' /\ no_entry (λ e, entry_matches e ipaddr nif) (T ++ l)
  end.
Proof.
  revert T a. induction l as [|e l IH]; intros T a Hlen Hage Hs Hno; cbn [scan_loop]; [by rewrite app_nil_r|].
  apply Forall_cons in Hage as [He Hage]. cbn in Hlen. destruct (entry_matches e ipaddr nif) eqn:Em.
  - exists (length T). split; [done|]. split; [exists e; by rewrite list_lookup_middle|]. by rewrite take_app_length.
  - specialize (IH (T ++ [e]) (scan_step e (length T) a)). rewrite <- (assoc_L app T [e] l) in IH. cbn [app] in IH.
    rewrite length_app in IH. cbn [length] in IH. replace (Z.of_nat (length T + 1)) with (Z.of_nat (length T) + 1) in IH by lia. apply IH; [lia|done| |].
    + apply scan_step_spec; [lia|done|done].
    + apply Forall_app. by split; [|constructor].
Qed.

Lemma scanned_start : scanned [] scan_start.
Proof. split; left; split_and!; done || constructor. Qed.

Lemma entry_kinds e : c_empty e = false -> c_stable e = false -> c_pending e = false -> c_queue e = true.
Proof. unfold c_empty, c_stable, c_pending, c_queue. destruct (e_state e); try done. cbn. by destruct (e_q e =? NULL). Qed.

(** What the sweep over the whole table finds. *)
Lemma scan_spec T ipaddr nif :
  length T = 10%nat -> Forall (λ e, 0 <= e_ctime e) T ->
  match scan_loop T 0 ipaddr nif scan_start with
  | inl i => exists n, i = Z.of_nat n /\ first_entry (λ e, entry_matches e ipaddr nif) T n
  | inr a => no_entry (λ e, entry_matches e ipaddr nif) T
      /\ ((exists n, sc_empty a = Z.of_nat n /\ first_entry c_empty T n)
          \/ sc_empty a = ARP_TABLE_SIZE /\ no_entry c_empty T
             /\ exists n, recycle a = Some (Z.of_nat n) /\ victim T n /\ (sc_stable a < ARP_TABLE_SIZE -> oldest c_stable T n))
  end.
Proof.
  intros Hlen Hage. pose proof (scan_loop_spec [] T scan_start ipaddr nif ltac:(cbn; lia) Hage scanned_start ltac:(constructor)) as H. cbn [length Z.of_nat app] in H.
  destruct (scan_loop _ _ _ _ _) as [i|a]; [done|]. destruct H as [[H1 H2 H3 H4] Hno]. split; [done|].
  destruct H1 as [[H1 Hne]|H1]; [right|by left]. do 2 (split; [done|]). unfold recycle.
  assert (Hlt : forall i (e : etharp_entry), T !! i = Some e -> Z.of_nat i < ARP_TABLE_SIZE) by (intros i e Hi; apply lookup_lt_Some in Hi; unfold ARP_TABLE_SIZE; lia).
  destruct H2 as [(-> & _ & N2)|(i & e & -> & Hi & He & _ & Hf)].
  2:{ rewrite (proj2 (Z.ltb_lt _ _) (Hlt _ _ Hi)). exists i. split; [done|]. assert (oldest c_stable T i) by (by exists e). split; [by left|done]. }
  rewrite Z.ltb_irrefl. destruct H3 as [(-> & _ & N3)|(i & e & -> & Hi & He & _ & Hf)].
  2:{ rewrite (proj2 (Z.ltb_lt _ _) (Hlt _ _ Hi)). exists i. split; [done|]. split; [|lia]. right. split; [done|]. left. by exists e. }
  rewrite Z.ltb_irrefl. destruct H4 as [(-> & _ & N4)|(i & e & -> & Hi & He & _ & Hf)].
  2:{ rewrite (proj2 (Z.ltb_lt _ _) (Hlt _ _ Hi)). exists i. split; [done|]. split; [|lia]. right. split; [done|]. right. split; [done|]. by exists e. }
  exfalso. destruct T as [|e T]; [done|]. apply Forall_cons in Hne as [? _], N2 as [? _], N3 as [? _], N4 as [? _].
  pose proof (entry_kinds e). intuition congruence.
Qed.
