(* ===== verification/EtharpSpec.v ===== *)
(** * ARP and Ethernet: specification (src/lwip/src/core/ipv4/etharp.c, src/lwip/src/netif/ethernet.c)

    The invariant of the ARP table with the packets it holds, the frames that leave the
    interface, and what each operation does to them. *)

From S2P Require Import Prelude Def ListSeg InetChksum Ip4Addr Mem Memp Pbuf PbufMem PbufRef PbufChain PbufData Header Ip4 Icmp IcmpSpec Udp UdpInput Ip4Input Etharp EtharpTable.

#[local] Open Scope Z_scope.
#[local] Coercion Z.of_nat : nat >-> Z.

(** ** The frames *)

Definition eth_frame (dst src : list Z) (type : Z) (payload : list Z) : list Z := dst ++ src ++ [type / 256; type mod 256] ++ payload.

Definition arp_message (opcode : Z) (shw : list Z) (sip : Z) (dhw : list Z) (dip : Z) : list Z :=
  [0; 1; 8; 0; 6; 4; opcode / 256; opcode mod 256] ++ shw ++ le_list 4 sip ++ dhw ++ le_list 4 dip.

(** An ARP request of the interface for [ip], sent to [dst]. *)
Definition arp_request_frame (nif : netif) (dst : list Z) (ip : Z) : list Z :=
  eth_frame dst (netif_hwaddr nif) ETHTYPE_ARP (arp_message ARP_REQUEST (netif_hwaddr nif) (netif_ip4_addr nif) ethzero ip).

(** The interface has an Ethernet address. *)
Definition is_mac (a : list Z) : Prop := length a = 6%nat.

(** ** Lemmas: stores *)

Lemma htons_list x : is_u16 x -> le_list 2 (lwip_htons x) = [x / 256; x mod 256].
Proof. intros Hx. unfold lwip_htons. rewrite PP_HTONS_arith by done. cbn. repeat (apply f_equal2; [wrap_solve|]). done. Qed.

Lemma read_splice_at m a o vs N :
  0 <= o -> (Z.to_nat o + length vs <= N)%nat -> read_bytes (write_bytes m (a + o) vs) a N = splice (Z.to_nat o) vs (read_bytes m a N).
Proof. intros Ho Hk. rewrite <- read_splice by done. by rewrite Z2Nat.id. Qed.

Lemma read_splice_0 m a vs N : (length vs <= N)%nat -> read_bytes (write_bytes m a vs) a N = splice 0 vs (read_bytes m a N).
Proof. intros Hk. rewrite <- read_splice by done. by rewrite Z.add_0_r. Qed.

Lemma eth_stores m h src dst type :
  is_mac src -> is_mac dst -> is_u16 type ->
  let m' := eth_src_set (eth_dest_set (eth_type_set m h (lwip_htons type)) h dst) h src in
  read_bytes m' h 14 = eth_frame dst src type [] /\ forall x, ~ (h <= x < h + 14) -> byte m' x = byte m x.
Proof.
  intros Hs Hd Ht m'. unfold is_mac in Hs, Hd. unfold m', eth_src_set, eth_dest_set, eth_type_set. split.
  - rewrite read_splice_at, read_splice_0, read_store_at, htons_list by (done || lia).
    assert (HL : length (read_bytes m h 14) = 14%nat) by apply read_bytes_length. clear -Hs Hd HL. generalize dependent (read_bytes m h 14). intros q HL.
    explode 14 q HL. explode 6 src Hs. explode 6 dst Hd. unfold eth_frame. generalize (type / 256), (type mod 256). intros. splices. done.
  - intros x Hx. rewrite !byte_write_bytes by lia. by rewrite byte_store by lia.
Qed.

Lemma arp_stores m h opcode shw sip dhw dip :
  is_mac shw -> is_mac dhw -> is_u16 opcode ->
  let m' := arph_protolen_set (arph_hwlen_set (arph_proto_set (arph_hwtype_set (arph_dipaddr_set (arph_sipaddr_set (arph_dhwaddr_set
              (arph_shwaddr_set (arph_opcode_set m h (lwip_htons opcode)) h shw) h dhw) h sip) h dip)
              h (PP_HTONS LWIP_IANA_HWTYPE_ETHERNET)) h (PP_HTONS ETHTYPE_IP)) h ETH_HWADDR_LEN) h 4 in
  read_bytes m' h 28 = arp_message opcode shw sip dhw dip /\ forall x, ~ (h <= x < h + 28) -> byte m' x = byte m x.
Proof.
  intros Hs Hd Ho m'. unfold is_mac in Hs, Hd.
  unfold m', arph_protolen_set, arph_hwlen_set, arph_proto_set, arph_hwtype_set, arph_dipaddr_set, arph_sipaddr_set, arph_dhwaddr_set, arph_shwaddr_set, arph_opcode_set. split.
  - do 3 rewrite read_store_at by lia. rewrite read_store_0 by lia. do 2 rewrite read_store_at by lia. do 2 rewrite read_splice_at by lia.
    rewrite read_store_at, (htons_list opcode) by (done || lia).
    assert (HL : length (read_bytes m h 28) = 28%nat) by apply read_bytes_length. clear -Hs Hd HL. generalize dependent (read_bytes m h 28). intros q HL.
    explode 28 q HL. explode 6 shw Hs. explode 6 dhw Hd. unfold arp_message. generalize (opcode / 256), (opcode mod 256). intros.
    pose proof (le_list_length 4 sip) as L1. pose proof (le_list_length 4 dip) as L2. generalize dependent (le_list 4 sip). generalize dependent (le_list 4 dip).
    intros l2 L2 l1 L1. explode 4 l1 L1. explode 4 l2 L2. splices. done.
  - intros x Hx. do 6 rewrite byte_store by lia. rewrite !byte_write_bytes by lia. by rewrite byte_store by lia.
Qed.

Section Spec.
Context `{MO : MemOptions} {MOk : MemOptionsOk} `{PO : PbufOptions} {POk : PbufOptionsOk} {St : Type} `{!PacketMemory St}.
Context (linkoutput : list (Z * list Z) -> netif -> list Z -> err_t) (link_room : 14 <= PBUF_LINK).
Abbreviation arp := (arp (St := St)).
Abbreviation pst := (pstate (St := St)).
Abbreviation ethernet_output := (ethernet_output linkoutput).
Abbreviation etharp_raw := (etharp_raw linkoutput).
Implicit Types s : arp.
Implicit Types ps : pst.

(** ** Sending a frame *)

(** The packet [p] has gone out as [F]. *)
Definition sent_state (s : arp) (nif : netif) (p : Z) (b : pbuf) (m : bytes) (F : list Z) : arp :=
  with_alog (with_aps s (with_data (set_pbuf (a_ps s) p (grown b 14)) m)) (a_log s ++ [(netif_num nif, F)]).

Lemma ethernet_output_spec s B ext nif p b l src dst type :
  pbuf_inv (a_ps s) B ext -> chain (a_ps s) p ((p, b) :: l) -> headroom p b l 14 -> is_mac (netif_hwaddr nif) -> is_mac src -> is_mac dst -> is_u16 type ->
  let F := eth_frame dst src type (contents (a_mem s) ((p, b) :: l)) in
  exists m, ethernet_output s nif p src dst type = Ret (linkoutput (a_log s) nif F, sent_state s nif p b m F)
    /\ (forall x, ~ (p_payload b - 14 <= x < p_payload b) -> byte m x = byte (a_mem s) x)
    /\ let ps' := with_data (set_pbuf (a_ps s) p (grown b 14)) m in pbuf_inv ps' B ext /\ chain ps' p ((p, grown b 14) :: l).
Proof.
  intros HI Hc Hroom Hhw Hs Hd Ht F. destruct (prepend_spec (a_ps s) B ext p b l 14 HI Hc ltac:(lia) Hroom) as (E & Hm). unfold ethernet_output.
  change SIZEOF_ETH_HDR with 14. rewrite E. cbn [mbind outcome_bind negb Z.eqb]. rewrite (deref_ok _ p (grown b 14)) by apply lookup_insert_eq. cbn [mbind outcome_bind].
  rewrite LWIP_ASSERT_ok by (unfold is_mac in Hhw; apply Z.eqb_eq; unfold ETH_HWADDR_LEN; lia). cbn [mbind outcome_bind]. change (p_payload (grown b 14)) with (p_payload b - 14).
  change (data (set_pbuf (a_ps s) p (grown b 14))) with (a_mem s). set (m := eth_src_set _ _ _).
  destruct (eth_stores (a_mem s) (p_payload b - 14) src dst type Hs Hd Ht) as [Hrd Hfr]. fold m in Hrd, Hfr.
  assert (Hout : forall x, ~ (p_payload b - 14 <= x < p_payload b) -> byte m x = byte (a_mem s) x) by (intros x Hx; apply Hfr; lia).
  destruct (Hm m Hout) as (Hc' & HI' & Hcont). change (Z.to_nat 14) with 14%nat in Hcont. rewrite Hrd in Hcont.
  exists m. split; [|by split]. unfold netif_linkoutput, sent_state. cbn [a_mem a_ps with_aps data with_data a_log]. change (data (set_pbuf _ _ _)) with (a_mem s).
  set (ps' := with_data _ m) in *.
  assert (EF : contents m (packet (chain_fuel ps') ps' p) = F).
  { rewrite (packet_chain ps' p ((p, grown b 14) :: l)); [|by eapply inv_not_null|apply Hc'|eapply chain_fuel_ok; [by eapply inv_not_null|done]].
    rewrite Hcont. unfold F, eth_frame. by rewrite <- !app_assoc. }
  by rewrite EF.
Qed.

(** The memory of the blocks in use is as before. *)
Definition same_blocks (B : gmap Z block) (m m' : bytes) : Prop :=
  forall a k x, B !! a = Some k -> a <= x < a + block_size k -> byte m' x = byte m x.

(** Sending a new ARP message: it is sent, or the heap was full; nothing else changes. *)
Lemma etharp_raw_spec s B ext nif ethsrc ethdst hwsrc ipsrc hwdst ipdst opcode :
  pbuf_inv (a_ps s) B ext -> is_mac (netif_hwaddr nif) -> is_mac ethsrc -> is_mac ethdst -> is_mac hwsrc -> is_mac hwdst -> is_u16 opcode ->
  exists r ps' out, etharp_raw s nif ethsrc ethdst hwsrc ipsrc hwdst ipdst opcode = Ret (r, with_alog (with_aps s ps') (a_log s ++ out))
    /\ (r = ERR_OK /\ out = [(netif_num nif, eth_frame ethdst ethsrc ETHTYPE_ARP (arp_message opcode hwsrc ipsrc hwdst ipdst))]
        \/ r = ERR_MEM /\ out = [] /\ heap_full (a_ps s) PBUF_LINK 28)
    /\ pbuf_inv ps' B ext /\ pbufs ps' = pbufs (a_ps s) /\ same_blocks B (a_mem s) (data ps').
Proof.
  intros HI Hhw H1 H2 H3 H4 Hop. unfold etharp_raw. change SIZEOF_ETHARP_HDR with 28. pose proof link_layer_range as Hlay.
  destruct (alloc_ram_one (a_ps s) B _ PBUF_LINK 28 HI Hlay ltac:(unfold_c; lia)) as [(st & Em & E & HI')|(q & st & k & x & E & Hx & Hq & Hnew & HI')];
    rewrite E; cbn [mbind outcome_bind].
  { rewrite Z.eqb_refl. exists ERR_MEM, (with_pmem (a_ps s) st), []. rewrite app_nil_r. split; [done|]. split; [right; split_and!; try done; by exists st|]. by split_and!. }
  rewrite (proj2 (Z.eqb_neq q NULL)) by done. cbn zeta in HI'. set (qb := Pbuf NULL x 28 28 _ _ _ _) in *. set (s1 := set_pbuf _ q qb) in *.
  rewrite (deref_ok s1 q qb) by apply lookup_insert_eq. cbn [mbind outcome_bind]. rewrite (LWIP_ASSERT_ok "check that first pbuf can hold struct etharp_hdr") by done. cbn [mbind outcome_bind].
  rewrite LWIP_ASSERT_ok by (unfold is_mac in Hhw; apply Z.eqb_eq; unfold ETH_HWADDR_LEN; lia). cbn [mbind outcome_bind].
  change (p_payload qb) with x. change (data s1) with (a_mem s). set (m := arph_protolen_set _ _ _).
  destruct (arp_stores (a_mem s) x opcode hwsrc ipsrc hwdst ipdst H3 H4 Hop) as [Hrd Hfr]. fold m in Hrd, Hfr.
  assert (Hcq : chain (with_data s1 m) q [(q, qb)]).
  { split; [split_and!; [done|apply lookup_insert_eq|done]|]. split_and!; [unfold_c; cbn; lia|done|unfold_c; cbn; lia|done]. }
  destruct (layer_facts _ Hlay) as (Hal & _).
  assert (Hroom : headroom q qb [] 14) by (split_and!; [done|cbn; lia|cbn; lia|intros y _ Hy; by apply not_elem_of_nil in Hy]).
  destruct (ethernet_output_spec (with_aps (with_aps s s1) (with_data s1 m)) _ _ nif q qb [] ethsrc ethdst ETHTYPE_ARP (inv_data _ _ _ m HI') Hcq Hroom Hhw H1 H2 ltac:(unfold_c; done))
    as (m2 & Eo & Hfr2 & HI2 & Hc2). cbn [a_ps with_aps] in HI2, Hc2. cbn [mbind outcome_bind]. rewrite Eo. cbn [mbind outcome_bind]. set (F := eth_frame _ _ _ _) in *.
  assert (EF : F = eth_frame ethdst ethsrc ETHTYPE_ARP (arp_message opcode hwsrc ipsrc hwdst ipdst)).
  { unfold F. f_equal. rewrite contents_cons. change (contents _ []) with (@nil Z). rewrite app_nil_r. exact Hrd. }
  set (ps2 := with_data _ m2) in *. unfold arp_free, sent_state. cbn [a_ps with_alog with_aps]. fold ps2. unfold pbuf_free. rewrite (proj2 (Z.eqb_neq q NULL)) by done.
  destruct (free_loop_prefix (chain_fuel ps2) ps2 (<[q := BHeap k]> B) ext q 0 [(q, grown qb 14)] NULL) as (ps3 & Ef & HI3 & Hp3 & Hd3 & _);
    [done|unfold chain_fuel; lia|done|apply Hc2|by constructor|by left|].
  rewrite Ef. cbn [mbind outcome_bind].
  exists ERR_OK, ps3, [(netif_num nif, F)]. split; [done|]. split; [left; by rewrite EF|].
  cbn [dels fmap list_fmap fold_left fst] in HI3, Hp3. assert (HBq : B !! q = None).
  { destruct (B !! q) eqn:EB; [|done]. destruct (proj2 (inv_dom _ _ _ HI q) ltac:(eauto)) as [? ?]. congruence. }
  rewrite delete_insert_id in HI3 by done.
  assert (Hpb : pbufs ps3 = pbufs (a_ps s)).
  { rewrite Hp3. unfold ps2, s1. cbn. rewrite insert_insert_eq, delete_insert_id by done. unfold dec. by rewrite (inv_not_null _ _ _ HI). }
  split; [done|]. split; [done|]. intros a ka y Ha Hy. rewrite Hd3. change (data ps2) with m2.
  assert (Hay : ~ (x - 14 <= y < x + 28)).
  { intros Hxy. assert (Haq : a <> q) by congruence. pose proof (inv_lookup _ _ _ q (grown qb 14) HI2 (lookup_insert_eq _ _ _)) as (kq & Hkq & (_ & Hpay & _) & _).
    rewrite lookup_insert_eq in Hkq. injection Hkq as <-. cbn [payload_ok] in Hpay. destruct sizeof_pbuf_facts as [Hsz _].
    destruct (mem_holds_disjoint _ _ _ _ _ _ (inv_holds _ _ _ HI2) (eq_trans (lookup_insert_ne B q a _ (not_eq_sym Haq)) Ha) (lookup_insert_eq _ _ _) Haq); cbn in *; lia. }
  rewrite Hfr2 by (cbn; lia). cbn [a_mem a_ps with_aps data with_data]. apply Hfr. lia.
Qed.

(** ** The invariant *)

(** The number of entries that hold the packet [a]. *)
Definition hold (x a : Z) : nat := if decide (x = a) then 1 else 0.
Definition queued (T : list etharp_entry) (a : Z) : nat := foldr (λ e n, (hold (e_q e) a + n)%nat) 0%nat T.

(** A packet that waits for an answer: it carries its data, starts a chain of its own, and has room for the Ethernet header. *)
Definition waiting (ps : pst) (q : Z) (C : list Z) : Prop :=
  exists b l, chain ps q ((q, b) :: l) /\ own_data ((q, b) :: l) /\ q + SIZEOF_STRUCT_PBUF <= p_payload b - 14 /\ p_tot_len b + 14 < 65536
    /\ preds (pbufs ps) q = 0%nat /\ contents (data ps) ((q, b) :: l) = C.

Definition waits (ps : pst) (e : etharp_entry) (w : option (list Z)) : Prop :=
  match w with None => e_q e = NULL | Some C => e_q e <> NULL /\ waiting ps (e_q e) C end.

Definition entry_ok (e : etharp_entry) : Prop :=
  match e_state e with
  | ETHARP_STATE_EMPTY => e = empty_entry
  | ETHARP_STATE_PENDING => 0 <= e_ctime e < ARP_MAXPENDING /\ e_netif e <> None
  | _ => 0 <= e_ctime e < ARP_MAXAGE /\ e_netif e <> None /\ e_q e = NULL /\ is_mac (e_ethaddr e)
  end.

Definition same_key (e e' : etharp_entry) : Prop := e_ipaddr e = e_ipaddr e' /\ e_netif e = e_netif e'.

(** The table [W] of the packets that wait; [ext] are the pointers to packets from outside. *)
Record arp_inv (s : arp) (B : gmap Z block) (ext : Z -> nat) (W : list (option (list Z))) : Prop := ArpInv {
  ai_pbuf : pbuf_inv (a_ps s) B (λ a, (ext a + queued (arp_table s) a)%nat);
  ai_len : length (arp_table s) = 10%nat;
  ai_cached : 0 <= etharp_cached_entry s < ARP_TABLE_SIZE;
  ai_entries : Forall entry_ok (arp_table s);
  ai_unique i j e e' : arp_table s !! i = Some e -> arp_table s !! j = Some e' -> c_empty e = false -> c_empty e' = false -> same_key e e' -> i = j;
  ai_distinct q : q <> NULL -> (queued (arp_table s) q <= 1)%nat;
  ai_wait : Forall2 (waits (a_ps s)) (arp_table s) W
}.

(** ** Lemmas: the pointers of the table *)

Lemma queued_insert T i e e' a : T !! i = Some e -> (hold (e_q e) a + queued (<[i := e']> T) a = hold (e_q e') a + queued T a)%nat.
Proof.
  unfold queued. revert i. induction T as [|x T IH]; intros [|i] Hi; try done.
  - injection Hi as ->. change (<[0%nat := e']> (e :: T)) with (e' :: T). cbn [foldr]. lia.
  - change (<[S i := e']> (x :: T)) with (x :: <[i := e']> T). cbn [foldr]. specialize (IH i Hi). lia.
Qed.

Lemma queued_pos T i e : T !! i = Some e -> (0 < queued T (e_q e))%nat.
Proof.
  unfold queued. revert i. induction T as [|x T IH]; intros [|i] Hi; cbn in Hi |- *; try done; [|specialize (IH _ Hi); lia].
  injection Hi as ->. unfold hold at 1. rewrite decide_True by done. lia.
Qed.

(** ** Lemmas: packets that wait stay *)

Lemma own_refs (l l' : list (Z * pbuf)) : Forall2 (λ x y, y = (x.1, with_ref x.2 (p_ref y.2))) l l' -> own_data l -> own_data l'.
Proof. induction 1 as [|x y l l' -> _ IH]; intros Ho; [constructor|]. apply Forall_cons in Ho as [? ?]. constructor; [done|by apply IH]. Qed.

Lemma waiting_refs ps ps' B' ext' q C :
  pbufs ps !! NULL = None -> pbuf_inv ps' B' ext' -> only_refs (pbufs ps) (pbufs ps') -> data ps' = data ps -> is_Some (pbufs ps' !! q) ->
  waiting ps q C -> waiting ps' q C.
Proof.
  intros Hn HI Ho Hd Hq (b & l & Hc & Hown & Hroom & Ht & Hp & HC). destruct (only_refs_packet ps ps' B' ext' q _ Hn HI Ho Hd Hc (or_intror Hq)) as (l' & Hc' & HF & HC').
  pose proof (own_refs _ _ HF Hown) as Hown'. apply Forall2_cons_inv_l in HF as (y & l'' & Ey & HF & ->). destruct y as [a' b']. cbn in Ey. injection Ey as -> Eb.
  exists b', l''. split; [done|]. split; [done|]. assert (p_payload b' = p_payload b /\ p_tot_len b' = p_tot_len b) as [-> ->] by (by rewrite Eb).
  do 2 (split; [done|]). split; [pose proof (only_refs_preds _ _ q Ho); lia|]. by rewrite HC'.
Qed.

(** Pbufs that are not of the packet change, and memory that is not of its blocks. *)
Lemma waiting_frame ps ps' B ext q C :
  pbuf_inv ps B ext -> waiting ps q C -> preds (pbufs ps') q = 0%nat ->
  (forall a b l, chain ps q l -> (a, b) ∈ l -> pbufs ps' !! a = Some b) ->
  (forall l, chain ps q l -> own_data l -> forall x, x ∈ addrs l -> byte (data ps') x = byte (data ps) x) -> waiting ps' q C.
Proof.
  intros HI (b & l & Hc & Hown & Hroom & Ht & Hp & HC) Hp' Hl Hd. exists b, l. split; [|do 4 (split; [done|]); rewrite <- HC; apply contents_frame; by apply Hd].
  split; [|apply Hc]. eapply pseg_frame; [apply Hc|]. intros a c Hin. rewrite (Hl _ _ _ Hc Hin). symmetry. by eapply seg_lookup; [apply Hc|].
Qed.

Lemma waiting_blocks ps ps' B ext q C :
  pbuf_inv ps B ext -> pbufs ps' = pbufs ps -> same_blocks B (data ps) (data ps') -> waiting ps q C -> waiting ps' q C.
Proof.
  intros HI Hp Hd Hw. apply (waiting_frame ps ps' B ext q C HI Hw).
  - rewrite Hp. by destruct Hw as (? & ? & _ & _ & _ & _ & ? & _).
  - intros a b l Hc Hin. rewrite Hp. by eapply seg_lookup; [apply Hc|].
  - intros l Hc Hown x Hx. destruct (own_in_blocks _ _ _ _ _ _ HI (proj1 Hc) Hown x Hx) as (a & k & Ha & Hxa). by eapply Hd.
Qed.

(** A header goes in front of another packet. *)
Lemma waiting_grow ps B ext p b l m q C :
  pbuf_inv ps B ext -> chain ps p ((p, b) :: l) -> is_custom b = false -> headroom p b l 14 -> preds (pbufs ps) p = 0%nat -> p <> q ->
  (forall x, ~ (p_payload b - 14 <= x < p_payload b) -> byte m x = byte (data ps) x) ->
  waiting ps q C -> waiting (with_data (set_pbuf ps p (grown b 14)) m) q C.
Proof.
  intros HI Hc Hcu (Hcg & Hroom & Htot & _) Hp0 Hne Hm Hw. pose proof (chain_cons _ _ _ _ _ Hc) as (_ & Hb & _ & Hbl & _ & Hut & _).
  assert (Hnin : forall l', chain ps q l' -> p ∉ l'.*1).
  { intros l' Hc' Hin. destruct l' as [|[a c] l']; [by apply not_elem_of_nil in Hin|]. pose proof (chain_cons _ _ _ _ _ Hc') as (-> & Ha & Hc'' & _).
    cbn in Hin. apply elem_of_cons in Hin as [->|Hin]; [done|]. pose proof (preds_zero _ _ Hp0) as Hz. destruct (seg_unreferenced _ _ _ _ p (proj1 Hc'') Hz (Hz _ _ Ha)) as [Hnn _]. by apply Hnn. }
  apply (waiting_frame ps _ B ext q C HI Hw).
  - cbn. rewrite (preds_insert_same _ _ b) by done. by destruct Hw as (? & ? & _ & _ & _ & _ & ? & _).
  - intros a c l' Hc' Hin. cbn. rewrite lookup_insert_ne; [by eapply seg_lookup; [apply Hc'|]|]. intros ->. apply (Hnin _ Hc'), list_elem_of_fmap. by exists (a, c).
  - intros l' Hc' Hown x Hx. cbn. apply Hm. intros Hin.
    pose proof (add_header_spec ps B ext p b l 14 false HI Hc ltac:(lia)) as Ha. cbn zeta in Ha.
    rewrite Hcg, (proj2 (Z.leb_le _ _) Hroom), (proj2 (Z.ltb_lt _ _) Htot), orb_true_r in Ha. destruct Ha as (_ & _ & HI' & _).
    destruct (own_data_block _ _ _ p (grown b 14) x HI' (lookup_insert_eq _ _ _) Hcg Hcu) as (k & Hk & R); [apply elem_of_range; cbn; unfold_c; lia|].
    apply elem_of_addrs in Hx as ([a c] & Hin' & Hx). assert (Hap : p <> a) by (intros <-; apply (Hnin _ Hc'), list_elem_of_fmap; by exists (p, c)).
    pose proof (proj1 (Forall_forall _ _) Hown _ Hin') as [? ?]. destruct (own_data_block _ _ _ a c x HI) as (k' & Hk' & R'); try done; [by eapply seg_lookup; [apply Hc'|]|].
    destruct (mem_holds_disjoint _ _ _ _ _ _ (inv_holds _ _ _ HI) Hk Hk' Hap); lia.
Qed.

(** ** Lemmas: steps that keep the invariant *)

Lemma inv_wait s B ext W q : arp_inv s B ext W -> q <> NULL -> (0 < queued (arp_table s) q)%nat -> is_Some (pbufs (a_ps s) !! q).
Proof. intros HI Hq Hp. apply (inv_ext _ _ _ (ai_pbuf _ _ _ _ HI) q Hq). lia. Qed.

(** The packets change, the table does not. *)
Lemma inv_packets s B ext W ps' B' ext' lg :
  arp_inv s B ext W -> pbuf_inv ps' B' (λ a, (ext' a + queued (arp_table s) a)%nat) ->
  (forall q C, q <> NULL -> (0 < queued (arp_table s) q)%nat -> waiting (a_ps s) q C -> waiting ps' q C) ->
  arp_inv (with_alog (with_aps s ps') lg) B' ext' W.
Proof.
  intros [H1 H2 H3 H4 H5 H6 H7] HI Hw. split; try done. cbn. apply Forall2_same_length_lookup in H7 as [Hl H7]. apply Forall2_same_length_lookup. split; [done|].
  intros i e w He Hi. specialize (H7 i e w He Hi). destruct w as [C|]; [|done]. destruct H7 as [Hq Hwt]. split; [done|]. apply Hw; try done. by eapply queued_pos.
Qed.

(** An entry changes: pointers move between the table and the outside. *)
Lemma inv_entry s B ext W ext' i e e' w' :
  arp_inv s B ext W -> arp_table s !! i = Some e -> entry_ok e' -> waits (a_ps s) e' w' ->
  (c_empty e' = true \/ forall j x, arp_table s !! j = Some x -> j <> i -> c_empty x = false -> ~ same_key x e') ->
  (forall a, a <> NULL -> (ext a + hold (e_q e) a = ext' a + hold (e_q e') a)%nat) ->
  (e_q e' = NULL \/ e_q e' = e_q e \/ queued (arp_table s) (e_q e') = 0%nat) ->
  arp_inv (set_entry s (Z.of_nat i) e') B ext' (<[i := w']> W).
Proof.
  intros [H1 H2 H3 H4 H5 H6 H7] Hi Hok Hw Hk He Hq. unfold set_entry. rewrite Nat2Z.id. split; cbn [arp_table with_table a_ps etharp_cached_entry].
  - eapply inv_ext_eq; [|exact H1]. intros a Ha. cbn beta. specialize (He a Ha). pose proof (queued_insert _ i e e' a Hi). lia.
  - by rewrite length_insert.
  - done.
  - by apply Forall_insert.
  - intros j1 j2 e1 e2 L1 L2 N1 N2 Hs. apply list_lookup_insert_Some in L1 as [(<- & <- & _)|[D1 L1]], L2 as [(<- & <- & _)|[D2 L2]]; try done.
    + exfalso. destruct Hk as [Hk|Hk]; [congruence|]. apply (Hk _ _ L2 (not_eq_sym D2) N2). by destruct Hs.
    + exfalso. destruct Hk as [Hk|Hk]; [congruence|]. by apply (Hk _ _ L1 (not_eq_sym D1) N1).
    + by eapply H5.
  - intros q Hn. specialize (H6 q Hn). pose proof (queued_insert _ i e e' q Hi) as Q. unfold hold in Q. repeat case_decide; subst; lia.
  - by apply Forall2_insert.
Qed.

(** The hint of the last entry used. *)
Lemma inv_hint s B ext W i : arp_inv s B ext W -> 0 <= i < ARP_TABLE_SIZE -> arp_inv (ETHARP_SET_ADDRHINT s i) B ext W.
Proof. intros [] Hi. by split. Qed.

Lemma inv_refs_only s B ext W ps' B' ext' lg :
  arp_inv s B ext W -> pbuf_inv ps' B' (λ a, (ext' a + queued (arp_table s) a)%nat) -> only_refs (pbufs (a_ps s)) (pbufs ps') -> data ps' = data (a_ps s) ->
  arp_inv (with_alog (with_aps s ps') lg) B' ext' W.
Proof.
  intros HI HI' Ho Hd. eapply inv_packets; [done|done|]. intros q C Hq Hp Hw. eapply waiting_refs; try done; [eapply inv_not_null, HI|].
  apply (inv_ext _ _ _ HI' q Hq). lia.
Qed.

(** pbuf_free of a packet held from outside. *)
Lemma arp_free_spec s B ext W p :
  arp_inv s B (ext_add ext p) W -> p <> NULL ->
  exists ps' B', arp_free s p = Ret (with_aps s ps') /\ arp_inv (with_aps s ps') B' ext W /\ B' ⊆ B /\ data ps' = a_mem s /\ only_refs (pbufs (a_ps s)) (pbufs ps').
Proof.
  intros HI Hp. destruct (free_inv (a_ps s) B (λ a, (ext a + queued (arp_table s) a)%nat) p) as (c & ps' & B' & E & HI' & HB & Hd & Ho); [|done|].
  { eapply inv_ext_eq; [|apply HI]. intros a _. unfold ext_add. case_decide; lia. }
  exists ps', B'. unfold arp_free. rewrite E. split; [done|]. split; [|done].
  by apply (inv_refs_only s B (ext_add ext p) W ps' B' ext (a_log s)).
Qed.

(** Sending a packet that is not in the table. *)
Lemma arp_sent_inv s B ext W nif p b l m F :
  arp_inv s B ext W -> chain (a_ps s) p ((p, b) :: l) -> is_custom b = false -> headroom p b l 14 -> preds (pbufs (a_ps s)) p = 0%nat -> queued (arp_table s) p = 0%nat ->
  (forall x, ~ (p_payload b - 14 <= x < p_payload b) -> byte m x = byte (a_mem s) x) ->
  (forall ext0, pbuf_inv (a_ps s) B ext0 -> pbuf_inv (with_data (set_pbuf (a_ps s) p (grown b 14)) m) B ext0) ->
  arp_inv (sent_state s nif p b m F) B ext W.
Proof.
  intros HI Hc Hcu Hroom Hp0 Hq0 Hm HI'. eapply inv_packets; [done|apply HI', HI|]. intros q C Hq Hp Hw.
  eapply waiting_grow; try done; [apply HI|]. intros ->. lia.
Qed.

Lemma ref_one s B ext W p b : arp_inv s B ext W -> pbufs (a_ps s) !! p = Some b -> (0 < ext p)%nat -> p_ref b = 1 ->
  ext p = 1%nat /\ preds (pbufs (a_ps s)) p = 0%nat /\ queued (arp_table s) p = 0%nat.
Proof. intros HI Hb He Hr. destruct (inv_refs _ _ _ (ai_pbuf _ _ _ _ HI) _ _ Hb) as [E _]. lia. Qed.

(** ** Lemmas: sending *)

Lemma send_spec s B ext W nif p b l src dst type :
  arp_inv s B ext W -> chain (a_ps s) p ((p, b) :: l) -> is_custom b = false -> headroom p b l 14 -> preds (pbufs (a_ps s)) p = 0%nat -> queued (arp_table s) p = 0%nat ->
  is_mac (netif_hwaddr nif) -> is_mac src -> is_mac dst -> is_u16 type ->
  let F := eth_frame dst src type (contents (a_mem s) ((p, b) :: l)) in
  exists ps', ethernet_output s nif p src dst type = Ret (linkoutput (a_log s) nif F, with_alog (with_aps s ps') (a_log s ++ [(netif_num nif, F)]))
    /\ arp_inv (with_alog (with_aps s ps') (a_log s ++ [(netif_num nif, F)])) B ext W
    /\ (forall a, a <> p -> pbufs ps' !! a = pbufs (a_ps s) !! a) /\ forall x, ~ (p_payload b - 14 <= x < p_payload b) -> byte (data ps') x = byte (a_mem s) x.
Proof.
  intros HI Hc Hcu Hroom Hp0 Hq0 Hhw Hs Hd Ht F. destruct (ethernet_output_spec s B _ nif p b l src dst type (ai_pbuf _ _ _ _ HI) Hc Hroom Hhw Hs Hd Ht) as (m & E & Hm & HI' & _).
  eexists. split; [exact E|]. fold F. split; [|split; [intros a Ha; cbn; by rewrite lookup_insert_ne|exact Hm]]. apply (arp_sent_inv s B ext W nif p b l m F); try done. intros ext0 H0.
  by destruct (prepend_spec (a_ps s) B ext0 p b l 14 H0 Hc ltac:(lia) Hroom) as (_ & Hx); destruct (Hx m Hm) as (_ & ? & _).
Qed.

Lemma raw_spec s B ext W nif ethsrc ethdst hwsrc ipsrc hwdst ipdst opcode :
  arp_inv s B ext W -> is_mac (netif_hwaddr nif) -> is_mac ethsrc -> is_mac ethdst -> is_mac hwsrc -> is_mac hwdst -> is_u16 opcode ->
  exists r ps' out, let s' := with_alog (with_aps s ps') (a_log s ++ out) in
    etharp_raw s nif ethsrc ethdst hwsrc ipsrc hwdst ipdst opcode = Ret (r, s')
    /\ (r = ERR_OK /\ out = [(netif_num nif, eth_frame ethdst ethsrc ETHTYPE_ARP (arp_message opcode hwsrc ipsrc hwdst ipdst))]
        \/ r = ERR_MEM /\ out = [] /\ heap_full (a_ps s) PBUF_LINK 28)
    /\ arp_inv s' B ext W /\ pbufs ps' = pbufs (a_ps s) /\ same_blocks B (a_mem s) (data ps').
Proof.
  intros HI Hhw H1 H2 H3 H4 Hop. destruct (etharp_raw_spec s B _ nif ethsrc ethdst hwsrc ipsrc hwdst ipdst opcode (ai_pbuf _ _ _ _ HI) Hhw H1 H2 H3 H4 Hop) as (r & ps' & out & E & Hout & HI' & Hp & Hd).
  exists r, ps', out. do 2 (split; [done|]). split; [|done]. eapply inv_packets; [done|done|]. intros q C Hq Hpos Hw. by apply (waiting_blocks (a_ps s) ps' B _ q C (ai_pbuf _ _ _ _ HI)).
Qed.

(** ** Packets on the way out *)

(** The data of the packet is in its own pbufs or in pbufs held from outside. *)
Definition safe_data (B : gmap Z block) (ext : Z -> nat) (l : list (Z * pbuf)) : Prop :=
  forall x, x ∈ addrs l -> exists a k, B !! a = Some k /\ a <= x < a + block_size k /\ (a <> NULL /\ (0 < ext a)%nat \/ a ∈ l.*1).

(** The packet [p] with the bytes [C], held by its sender alone, with room for the Ethernet header; the pbufs that do not
    carry their data are of a type that the code copies. *)
Definition out_packet (ps : pst) (B : gmap Z block) (ext : Z -> nat) (p : Z) (C : list Z) : Prop :=
  exists b l, chain ps p ((p, b) :: l) /\ p_ref b = 1 /\ is_custom b = false /\ headroom p b l 14 /\ contents (data ps) ((p, b) :: l) = C
    /\ safe_data B ext ((p, b) :: l) /\ no_empty_tail ((p, b) :: l)
    /\ Forall (λ x, is_contiguous x.2 = true /\ is_custom x.2 = false \/ PBUF_NEEDS_COPY x.2 = true) l.

Lemma refs_addrs (l l' : list (Z * pbuf)) : Forall2 (λ x y, y = (x.1, with_ref x.2 (p_ref y.2))) l l' -> addrs l' = addrs l /\ l'.*1 = l.*1 /\ total l' = total l.
Proof. induction 1 as [|x y l l' -> _ (IH1 & IH2 & IH3)]; [done|]. rewrite !addrs_cons, IH1, !fmap_cons, IH2. split_and!; try done. cbn. unfold total in IH3. by rewrite IH3. Qed.

Lemma refs_tail (l l' : list (Z * pbuf)) : Forall2 (λ x y, y = (x.1, with_ref x.2 (p_ref y.2))) l l' -> no_empty_tail l -> no_empty_tail l'.
Proof.
  induction 1 as [|x y l l' -> HF IH]; [done|]. intros [Ha Hb]. split; [|by apply IH]. destruct (refs_addrs _ _ HF) as (_ & _ & ->). intros Hl. apply Ha. intros ->. apply Hl. by inversion HF.
Qed.

Lemma out_refs ps ps' B B' (ext ext' : Z -> nat) p C :
  pbufs ps !! NULL = None -> pbuf_inv ps' B' ext' -> only_refs (pbufs ps) (pbufs ps') -> data ps' = data ps -> B' ⊆ B -> (forall a, (ext a <= ext' a)%nat) ->
  (forall b, pbufs ps !! p = Some b -> p_ref b = 1 -> pbufs ps' !! p = Some b) -> out_packet ps B ext p C -> out_packet ps' B' ext p C.
Proof.
  intros Hn HI Ho Hd HB He Hp (b & l & Hc & Hr & Hcu & Hroom & HC & Hs & Hne & Hf). pose proof (chain_cons _ _ _ _ _ Hc) as (_ & Hb & _). specialize (Hp b Hb Hr).
  destruct (only_refs_packet ps ps' B' ext' p _ Hn HI Ho Hd Hc (or_intror (ex_intro _ _ Hp))) as (l' & Hc' & HF & HC').
  pose proof (refs_addrs _ _ HF) as (Ea & E1 & _). pose proof (refs_tail _ _ HF Hne) as Hne'. apply Forall2_cons_inv_l in HF as ([a' b'] & l'' & Ey & HF & ->). cbn in Ey. injection Ey as -> Eb.
  pose proof (chain_cons _ _ _ _ _ Hc') as (_ & Hb' & _). rewrite Hp in Hb'. injection Hb' as <-. exists b, l''. do 3 (split; [done|]).
  destruct Hroom as (R1 & R2 & R3 & R4). split; [split_and!; try done; by rewrite (proj1 (refs_addrs _ _ HF))|]. split; [by rewrite HC'|]. split; [|split; [done|]].
  - intros x Hx. rewrite Ea in Hx. destruct (Hs x Hx) as (a & k & Ha & Hr' & Hor).
    assert (is_Some (pbufs ps' !! a)) as Hsome.
    { destruct Hor as [[Han Hor]|Hor]; [apply (inv_ext _ _ _ HI a Han); specialize (He a); lia|]. rewrite <- E1 in Hor. apply list_elem_of_fmap in Hor as ([a1 c] & -> & Hin).
      exists c. by eapply seg_lookup; [apply Hc'|]. }
    destruct (proj1 (inv_dom _ _ _ HI a) Hsome) as [k' Hk']. pose proof (lookup_weaken _ _ _ _ Hk' HB) as Hk. rewrite Ha in Hk. injection Hk as <-.
    exists a, k. split; [done|]. split; [done|]. destruct Hor as [Hor|Hor]; [by left|right]. by rewrite E1.
  - clear -HF Hf. induction HF as [|x y l l' -> _ IH]; [constructor|]. apply Forall_cons in Hf as [? ?]. constructor; [done|by apply IH].
Qed.

Lemma out_blocks ps ps' B ext p C : pbufs ps' = pbufs ps -> same_blocks B (data ps) (data ps') -> out_packet ps B ext p C -> out_packet ps' B ext p C.
Proof.
  intros Hp Hd (b & l & Hc & Hr & Hcu & Hroom & HC & Hs & Hne & Hf). exists b, l. split; [by destruct Hc; split; [rewrite Hp|]|]. do 3 (split; [done|]). split; [|done].
  rewrite <- HC. apply contents_frame. intros x Hx. destruct (Hs x Hx) as (a & k & Ha & Hxa & _). by eapply Hd.
Qed.

(** ** Lemmas: finding an entry *)

Lemma entry_at_ok s n e : arp_table s !! n = Some e -> entry_at s (Z.of_nat n) = Ret e.
Proof. intros Hn. unfold entry_at. rewrite Nat2Z.id, Hn. by rewrite (proj2 (Z.ltb_ge _ _)) by lia. Qed.

Lemma entry_at_set s n e : (n < length (arp_table s))%nat -> entry_at (set_entry s (Z.of_nat n) e) (Z.of_nat n) = Ret e.
Proof. intros Hn. apply entry_at_ok. cbn. rewrite Nat2Z.id. by apply list_lookup_insert_eq. Qed.

Lemma set_entry_twice s i e e' : set_entry (set_entry s i e) i e' = set_entry s i e'.
Proof. unfold set_entry, with_table. cbn. by rewrite list_insert_insert_eq. Qed.

Lemma arp_free_other s s1 ps' p : a_ps s1 = a_ps s -> arp_free s1 p = Ret (with_aps s1 ps') -> arp_free s p = Ret (with_aps s ps').
Proof. unfold arp_free. intros ->. destruct (pbuf_free (a_ps s) p) as [[c x]|]; [|done]. cbn. intros E. by injection E as ->. Qed.

Lemma inv_entry_at s B ext W n : arp_inv s B ext W -> (n < 10)%nat -> exists e w, arp_table s !! n = Some e /\ W !! n = Some w /\ entry_ok e /\ waits (a_ps s) e w.
Proof.
  intros HI Hn. destruct (lookup_lt_is_Some_2 (arp_table s) n) as [e He]; [by rewrite (ai_len _ _ _ _ HI)|].
  destruct (Forall2_lookup_l _ _ _ _ _ (ai_wait _ _ _ _ HI) He) as (w & Hw & Hww). exists e, w. split_and!; try done. by apply (Forall_lookup_1 _ _ _ _ (ai_entries _ _ _ _ HI) He).
Qed.

Lemma free_entry_spec s B ext W n e :
  arp_inv s B ext W -> arp_table s !! n = Some e ->
  exists ps' B', etharp_free_entry s (Z.of_nat n) = Ret (set_entry (with_aps s ps') (Z.of_nat n) empty_entry)
    /\ arp_inv (set_entry (with_aps s ps') (Z.of_nat n) empty_entry) B' ext (<[n := None]> W)
    /\ B' ⊆ B /\ data ps' = a_mem s /\ only_refs (pbufs (a_ps s)) (pbufs ps').
Proof.
  intros HI Hn. unfold etharp_free_entry. rewrite (entry_at_ok _ _ _ Hn). cbn [mbind outcome_bind].
  assert (Hs1 : forall ext', (forall a, a <> NULL -> (ext a + hold (e_q e) a = ext' a)%nat) -> arp_inv (set_entry s (Z.of_nat n) empty_entry) B ext' (<[n := None]> W)).
  { intros ext' He. apply (inv_entry s B ext W ext' n e); try done; [by left| |by left]. intros a Ha. rewrite (He a Ha). cbn. unfold hold. rewrite (decide_False (P := NULL = a)) by congruence. lia. }
  destruct (e_q e =? NULL) eqn:Eq; bool_to_prop; cbn [negb].
  - exists (a_ps s), B. cbn [mbind outcome_bind]. replace (with_aps s (a_ps s)) with s by (by destruct s). do 2 (split; [try done|]); [|split_and!; [done|done|apply only_refs_refl]].
    apply Hs1. intros a Ha. unfold hold. rewrite decide_False by congruence. lia.
  - destruct (arp_free_spec (set_entry s (Z.of_nat n) empty_entry) B ext (<[n := None]> W) (e_q e)) as (ps' & B' & E & HI' & HB & Hd & Ho); [|done|].
    { apply Hs1. intros a Ha. unfold ext_add, hold. repeat case_decide; subst; (done || lia). }
    rewrite (arp_free_other s (set_entry s (Z.of_nat n) empty_entry) ps' (e_q e) eq_refl E). cbn [mbind outcome_bind]. by exists ps', B'.
Qed.

Definition fresh_entry (ip : Z) (nif : netif) : etharp_entry := EtharpEntry NULL ip (Some (netif_num nif)) ethzero 0 ETHARP_STATE_EMPTY.

Lemma entry_age e : entry_ok e -> 0 <= e_ctime e.
Proof. unfold entry_ok. destruct (e_state e); [intros ->; done|lia..]. Qed.

Lemma find_entry_spec s B ext W ip flags nif :
  arp_inv s B ext W ->
  let matching := λ e, entry_matches e ip nif in
  let find_only := negb (Z.land flags ETHARP_FLAG_FIND_ONLY =? 0) in
  let try_hard := negb (Z.land flags ETHARP_FLAG_TRY_HARD =? 0) in
  (exists n, etharp_find_entry s ip flags nif = Ret (Some (Z.of_nat n), s) /\ first_entry matching (arp_table s) n)
  \/ no_entry matching (arp_table s)
     /\ (etharp_find_entry s ip flags nif = Ret (None, s) /\ (find_only = true \/ no_entry c_empty (arp_table s) /\ try_hard = false)
         \/ exists n ps1 B1, let s1 := set_entry (with_aps s ps1) (Z.of_nat n) empty_entry in
              etharp_find_entry s ip flags nif = Ret (Some (Z.of_nat n), set_entry (with_aps s ps1) (Z.of_nat n) (fresh_entry ip nif))
              /\ find_only = false /\ (first_entry c_empty (arp_table s) n \/ try_hard = true /\ no_entry c_empty (arp_table s) /\ victim (arp_table s) n)
              /\ arp_inv s1 B1 ext (<[n := None]> W) /\ B1 ⊆ B /\ data ps1 = a_mem s /\ only_refs (pbufs (a_ps s)) (pbufs ps1)).
Proof.
  intros HI matching find_only try_hard. unfold etharp_find_entry.
  pose proof (scan_spec (arp_table s) ip nif (ai_len _ _ _ _ HI) ltac:(eapply Forall_impl; [apply HI|apply entry_age])) as Hscan.
  destruct (scan_loop _ _ _ _ _) as [i|a]; [left; destruct Hscan as (n & -> & Hf); by exists n|right]. destruct Hscan as [Hno Hcand]. split; [done|].
  fold find_only. rewrite <- (negb_involutive (Z.land flags ETHARP_FLAG_TRY_HARD =? 0)). fold try_hard.
  destruct find_only; cbn [orb]; [left; split; [done|by left]|]. destruct Hcand as [(n & En & Hf)|(Ee & Hne & n & Er & Hv & Hst)].
  - right. pose proof Hf as [(e & Hn & He) _]. pose proof (lookup_lt_Some _ _ _ Hn) as Hlt. rewrite (ai_len _ _ _ _ HI) in Hlt.
    rewrite En. rewrite (proj2 (Z.eqb_neq _ _)) by (unfold ARP_TABLE_SIZE; lia). cbn [andb]. rewrite (proj2 (Z.ltb_lt n ARP_TABLE_SIZE)) by (unfold ARP_TABLE_SIZE; lia).
    cbn [mbind outcome_bind]. rewrite (LWIP_ASSERT_ok "i < ARP_TABLE_SIZE") by (apply Z.ltb_lt; unfold ARP_TABLE_SIZE; lia). cbn [mbind outcome_bind].
    rewrite (entry_at_ok _ _ _ Hn). cbn [mbind outcome_bind]. pose proof (bool_decide_eq_true_1 _ He) as Es.
    assert (e = empty_entry) as ->. { pose proof (Forall_lookup_1 _ _ _ _ (ai_entries _ _ _ _ HI) Hn) as Hok. unfold entry_ok in Hok. by rewrite Es in Hok. }
    cbn [LWIP_ASSERT]. exists n, (a_ps s), B. replace (with_aps s (a_ps s)) with s by (by destruct s). do 2 (split; [done|]). split; [by left|].
    assert (set_entry s (Z.of_nat n) empty_entry = s) as ->. { unfold set_entry, with_table. rewrite Nat2Z.id, list_insert_id by done. by destruct s. }
    assert (<[n := None]> W = W) as ->. { destruct (inv_entry_at s B ext W n HI Hlt) as (e & w & He' & Hw & _ & Hww). rewrite Hn in He'. injection He' as <-. destruct w as [C|]; [by destruct Hww|]. by apply list_insert_id. }
    split_and!; try done. apply only_refs_refl.
  - rewrite Ee. cbn [Z.eqb andb]. destruct try_hard; cbn [negb]; [right|left; by split; [|right]]. change (ARP_TABLE_SIZE =? ARP_TABLE_SIZE) with true. cbn [andb].
    change (ARP_TABLE_SIZE <? ARP_TABLE_SIZE) with false. rewrite Er. assert (exists e, arp_table s !! n = Some e) as [e Hn] by (destruct Hv as [(e & ? & _)|[_ [(e & ? & _)|[_ (e & ? & _)]]]]; by exists e).
    pose proof (lookup_lt_Some _ _ _ Hn) as Hlt. rewrite (ai_len _ _ _ _ HI) in Hlt. rewrite (entry_at_ok _ _ _ Hn). cbn [mbind outcome_bind].
    rewrite LWIP_ASSERT_ok.
    2:{ destruct (sc_stable a <? ARP_TABLE_SIZE) eqn:Es; bool_to_prop; [|done]. destruct (Hst Es) as (e' & He' & Hce & _). rewrite Hn in He'. injection He' as <-.
        pose proof (Forall_lookup_1 _ _ _ _ (ai_entries _ _ _ _ HI) Hn) as Hok. unfold entry_ok, c_stable in *. destruct (e_state e); try done; destruct Hok as (_ & _ & -> & _); done. }
    cbn [mbind outcome_bind]. destruct (free_entry_spec s B ext W n e HI Hn) as (ps1 & B1 & Ef & HI1 & HB & Hd & Ho). rewrite Ef. cbn [mbind outcome_bind].
    rewrite (LWIP_ASSERT_ok "i < ARP_TABLE_SIZE") by (apply Z.ltb_lt; unfold ARP_TABLE_SIZE; lia). cbn [mbind outcome_bind].
    rewrite entry_at_set by (cbn; by rewrite (ai_len _ _ _ _ HI)). cbn [mbind outcome_bind]. cbn [LWIP_ASSERT]. rewrite set_entry_twice.
    exists n, ps1, B1. split_and!; try done. by right.
Qed.

(** ** Lemmas: learning an address *)

Abbreviation make_stable := (make_stable linkoutput).
Abbreviation etharp_update_arp_entry := (etharp_update_arp_entry linkoutput).

Definition stable_entry (ip : Z) (nif : netif) (mac : list Z) : etharp_entry := EtharpEntry NULL ip (Some (netif_num nif)) mac 0 ETHARP_STATE_STABLE.

(** A packet with one reference, held from outside, stays as it is. *)
Definition keeps (s s' : arp) (B : gmap Z block) (ext : Z -> nat) : Prop :=
  forall p b, pbufs (a_ps s) !! p = Some b -> (0 < ext p)%nat -> p_ref b = 1 ->
    pbufs (a_ps s') !! p = Some b /\ forall k x, B !! p = Some k -> p <= x < p + block_size k -> byte (a_mem s') x = byte (a_mem s) x.

Lemma arp_keeps_refl s s' B ext : a_ps s' = a_ps s -> keeps s s' B ext.
Proof. intros E p b Hb _ _. unfold a_mem. by rewrite E. Qed.

Lemma arp_keeps_trans s1 s2 s3 B1 B2 (ext : Z -> nat) ext2 :
  keeps s1 s2 B1 ext -> keeps s2 s3 B2 ext -> B2 ⊆ B1 -> pbuf_inv (a_ps s2) B2 ext2 -> keeps s1 s3 B1 ext.
Proof.
  intros H12 H23 HB HI p b Hb He Hr. destruct (H12 p b Hb He Hr) as [Hb2 Hd2]. destruct (H23 p b Hb2 He Hr) as [Hb3 Hd3]. split; [done|]. intros k x Hk Hx.
  destruct (proj1 (inv_dom _ _ _ HI p) ltac:(eauto)) as [k' Hk']. pose proof (lookup_weaken _ _ _ _ Hk' HB) as E. rewrite Hk in E. injection E as <-.
  rewrite (Hd3 k x Hk' Hx). by apply (Hd2 k).
Qed.

(** Memory is freed. *)
Lemma keeps_free s B ext W ext0 p ps' B' :
  arp_inv s B (ext_add ext p) W -> pbuf_inv ps' B' (λ a, (ext a + queued (arp_table s) a)%nat) -> only_refs (pbufs (a_ps s)) (pbufs ps') -> data ps' = a_mem s ->
  (forall a, (ext0 a <= ext a)%nat) -> keeps s (with_aps s ps') B ext0.
Proof.
  intros HI HI' Ho Hd He r b Hb Hr H1. split; [|intros; unfold a_mem; cbn; by rewrite Hd]. assert (Hrn : r <> NULL) by (intros ->; by rewrite (inv_not_null _ _ _ (ai_pbuf _ _ _ _ HI)) in Hb).
  cbn. apply (free_keeps_held (a_ps s) B B' (λ a, (ext a + queued (arp_table s) a)%nat) p ps' r b); try done; [|specialize (He r); lia].
  eapply inv_ext_eq; [|apply HI]. intros a _. unfold ext_add. case_decide; lia.
Qed.

Lemma waiting_packet ps B ext q C :
  pbuf_inv ps B ext -> waiting ps q C ->
  exists b l, chain ps q ((q, b) :: l) /\ is_contiguous b = true /\ is_custom b = false /\ headroom q b l 14 /\ preds (pbufs ps) q = 0%nat /\ contents (data ps) ((q, b) :: l) = C.
Proof.
  intros HI (b & l & Hc & Hown & Hroom & Ht & Hp & HC). exists b, l. pose proof (grown_apart ps B ext q b l 14 HI Hc Hown ltac:(lia) Hroom Ht) as Hap.
  apply Forall_cons in Hown as [[Hcg Hcu] _]. do 3 (split; [done|]). split; [|done]. do 3 (split; [done|]). intros x Hx. apply Hap. apply elem_of_range. apply elem_of_range in Hx.
  pose proof (chain_cons _ _ _ _ _ Hc) as (_ & _ & _ & Hbl & _). unfold_c. lia.
Qed.

Lemma make_stable_idle s nif n mac e :
  arp_table s !! n = Some e -> e_q e = NULL -> make_stable s nif (Z.of_nat n) mac = Ret (ERR_OK, set_entry s (Z.of_nat n) (stable_entry (e_ipaddr e) nif mac)).
Proof.
  intros Hn Hq. unfold make_stable. rewrite (entry_at_ok _ _ _ Hn). cbn [mbind outcome_bind]. rewrite entry_at_set by (by eapply lookup_lt_Some). cbn [mbind outcome_bind e_q].
  rewrite Hq. done.
Qed.

Lemma make_stable_wait s B ext W nif n mac e C :
  arp_inv s B ext W -> arp_table s !! n = Some e -> c_empty e = false -> e_netif e = Some (netif_num nif) -> W !! n = Some (Some C) ->
  is_mac (netif_hwaddr nif) -> is_mac mac ->
  exists ps' B', let s' := set_entry (with_alog (with_aps s ps') (a_log s ++ [(netif_num nif, eth_frame mac (netif_hwaddr nif) ETHTYPE_IP C)])) (Z.of_nat n) (stable_entry (e_ipaddr e) nif mac) in
    make_stable s nif (Z.of_nat n) mac = Ret (ERR_OK, s') /\ arp_inv s' B' ext (<[n := None]> W) /\ B' ⊆ B /\ keeps s s' B ext.
Proof.
  intros HI Hn Hne Hnif HW Hhw Hmac. destruct (Forall2_lookup_lr _ _ _ _ _ _ (ai_wait _ _ _ _ HI) Hn HW) as [Hq Hw].
  unfold make_stable. rewrite (entry_at_ok _ _ _ Hn). cbn [mbind outcome_bind]. rewrite entry_at_set by (by eapply lookup_lt_Some). cbn [mbind outcome_bind e_q with_q e_ipaddr e_netif e_ethaddr e_ctime e_state].
  rewrite (proj2 (Z.eqb_neq _ _) Hq). cbn [negb]. rewrite set_entry_twice. pose (s2 := set_entry s (Z.of_nat n) (stable_entry (e_ipaddr e) nif mac)).
  match goal with |- context [set_entry s (Z.of_nat n) ?x] => change (set_entry s (Z.of_nat n) x) with s2 end.
  assert (HI2 : arp_inv s2 B (ext_add ext (e_q e)) (<[n := None]> W)).
  { apply (inv_entry s B ext W _ n e); try done.
    - right. intros j x Hj Hjn Hx [K1 K2]. apply Hjn. apply (ai_unique _ _ _ _ HI j n x e); try done. split; [exact K1|]. rewrite Hnif. exact K2.
    - intros a Ha. unfold ext_add, hold. cbn [e_q stable_entry]. repeat case_decide; subst; (done || lia).
    - by left. }
  assert (Hq0 : queued (arp_table s2) (e_q e) = 0%nat).
  { pose proof (queued_insert _ n e (stable_entry (e_ipaddr e) nif mac) (e_q e) Hn) as Q. pose proof (ai_distinct _ _ _ _ HI _ Hq). unfold hold in Q. cbn [stable_entry e_q] in Q.
    rewrite decide_True, decide_False in Q by done. unfold s2, set_entry. cbn [arp_table with_table]. rewrite Nat2Z.id. lia. }
  destruct (waiting_packet _ _ _ _ _ (ai_pbuf _ _ _ _ HI) Hw) as (b & l & Hc & Hcg & Hcu & Hroom & Hp0 & HC).
  destruct (send_spec s2 B _ _ nif (e_q e) b l (netif_hwaddr nif) mac ETHTYPE_IP HI2 Hc Hcu Hroom Hp0 Hq0 Hhw Hhw Hmac ltac:(unfold_c; done)) as (ps3 & Es & HI3 & Hpb3 & Hd3).
  change (a_mem s2) with (data (a_ps s)) in Es, HI3, Hd3. rewrite HC in Es, HI3. rewrite Es. cbn [mbind outcome_bind]. set (s3 := with_alog _ _) in *.
  destruct (arp_free_spec s3 B ext (<[n := None]> W) (e_q e) HI3 Hq) as (ps4 & B' & Ef & HI4 & HB & Hd4 & Ho4). rewrite Ef. cbn [mbind outcome_bind].
  exists ps4, B'. split; [done|]. split; [exact HI4|]. split; [done|].
  eapply (arp_keeps_trans s s3 _ B B ext); [|eapply (keeps_free s3 B ext _ ext (e_q e) ps4 B' HI3); [apply HI4|done|done|done]|done|apply HI3].
  intros r rb Hrb Hre Hr1. destruct (ref_one s B ext W r rb HI Hrb Hre Hr1) as (_ & _ & Hrq).
  assert (Hrne : r <> e_q e) by (intros ->; pose proof (queued_pos _ _ _ Hn); lia). split; [cbn; by rewrite Hpb3|]. intros k x Hk Hx. apply Hd3. intros Hin.
  pose proof (chain_cons _ _ _ _ _ Hc) as (_ & Hb & _ & Hbl & _). destruct Hroom as (_ & Hroom & Htot & _).
  pose proof (add_header_spec (a_ps s) B _ (e_q e) b l 14 false (ai_pbuf _ _ _ _ HI) Hc ltac:(lia)) as Ha. cbn zeta in Ha.
  rewrite Hcg, (proj2 (Z.leb_le _ _) Hroom), (proj2 (Z.ltb_lt _ _) Htot), orb_true_r in Ha. destruct Ha as (_ & _ & HI' & _).
  destruct (own_data_block _ _ _ (e_q e) (grown b 14) x HI' (lookup_insert_eq _ _ _) Hcg Hcu) as (k' & Hk' & R); [apply elem_of_range; cbn; unfold_c; lia|].
  destruct (mem_holds_disjoint _ _ _ _ _ _ (inv_holds _ _ _ HI') Hk Hk' Hrne); lia.
Qed.

(** No host has the address. *)
Definition unusable (ip : Z) (nif : netif) : bool := ip4_addr_isany_val ip || ip4_addr_isbroadcast_u32 ip nif || ip4_addr_ismulticast ip.

(** [mac] is learned for [ip]: an entry for [ip] becomes stable and the packet that waits there is sent; without one, a new entry is made when
    the message is for us. *)
Definition learned (for_us : bool) (T : list etharp_entry) (W : list (option (list Z))) (ip : Z) (nif : netif) (mac : list Z)
    (T' : list etharp_entry) (W' : list (option (list Z))) (out : list (Z * list Z)) : Prop :=
  if unusable ip nif then T' = T /\ W' = W /\ out = []
  else
    (exists n, first_entry (λ e, entry_matches e ip nif) T n /\ T' = <[n := stable_entry ip nif mac]> T /\ W' = <[n := None]> W
       /\ out = match W !! n with Some (Some C) => [(netif_num nif, eth_frame mac (netif_hwaddr nif) ETHTYPE_IP C)] | _ => [] end)
    \/ no_entry (λ e, entry_matches e ip nif) T
       /\ (if for_us then exists n, chosen T n /\ T' = <[n := stable_entry ip nif mac]> T /\ W' = <[n := None]> W /\ out = []
           else T' = T /\ W' = W /\ out = []).

Lemma matches_key e ip nif : entry_matches e ip nif = true -> c_empty e = false /\ e_ipaddr e = ip /\ e_netif e = Some (netif_num nif).
Proof.
  unfold entry_matches, c_empty. intros H. apply andb_true_iff in H as [H H3]. apply andb_true_iff in H as [H1 H2]. apply negb_true_iff in H1. split; [done|].
  split; [symmetry; by apply Z.eqb_eq|by apply bool_decide_eq_true_1 in H3].
Qed.

Lemma matches_none T ip nif e : no_entry (λ e, entry_matches e ip nif) T -> e_ipaddr e = ip -> e_netif e = Some (netif_num nif) ->
  forall j x, T !! j = Some x -> c_empty x = false -> ~ same_key x e.
Proof.
  intros Hno Hi Hn j x Hj Hx [K1 K2]. pose proof (Forall_lookup_1 _ _ _ _ Hno Hj) as Hm. cbn in Hm. unfold entry_matches in Hm. unfold c_empty in Hx.
  rewrite Hx, K2, Hn, K1, Hi in Hm. unfold ip4_addr_cmp in Hm. rewrite Z.eqb_refl in Hm. rewrite bool_decide_eq_true_2 in Hm by done. done.
Qed.

(** A new entry in the place of [n]. *)
Lemma inv_new_entry s B ext W n e ip nif :
  arp_inv s B ext (<[n := None]> W) -> arp_table s !! n = Some empty_entry -> entry_ok e -> e_q e = NULL -> e_ipaddr e = ip -> e_netif e = Some (netif_num nif) ->
  no_entry (λ e, entry_matches e ip nif) (arp_table s) -> arp_inv (set_entry s (Z.of_nat n) e) B ext (<[n := None]> W).
Proof.
  intros HI Hn Hok Hq Hi Hnf Hno. rewrite <- (list_insert_insert_eq W n None None). apply (inv_entry s B ext _ ext n empty_entry); try done.
  - right. intros j x Hj _ Hx. by eapply matches_none.
  - intros a _. by rewrite Hq.
  - by left.
Qed.

Lemma no_entry_insert P T n e : no_entry P T -> P e = false -> no_entry P (<[n := e]> T).
Proof. intros Hn He. by apply Forall_insert. Qed.

Lemma queued_empty T n q : q <> NULL -> (queued (<[n := empty_entry]> T) q <= queued T q)%nat.
Proof.
  intros Hq. destruct (T !! n) as [e|] eqn:Hn; [|by rewrite list_insert_ge by (by apply lookup_ge_None)].
  pose proof (queued_insert T n e empty_entry q Hn) as Q. unfold hold in Q. cbn [e_q empty_entry] in Q. rewrite (decide_False (P := NULL = q)) in Q by congruence. lia.
Qed.

(** Packets of the table are freed. *)
Lemma keeps_refs s s1 B B1 ext W W1 :
  arp_inv s B ext W -> arp_inv s1 B1 ext W1 -> only_refs (pbufs (a_ps s)) (pbufs (a_ps s1)) -> a_mem s1 = a_mem s ->
  (forall q, q <> NULL -> (queued (arp_table s1) q <= queued (arp_table s) q)%nat) -> keeps s s1 B ext.
Proof.
  intros HI HI1 Ho Hd Hq p b Hb He Hr. destruct (ref_one s B ext W p b HI Hb He Hr) as (E1 & Hp0 & Hq0). split; [|intros; by rewrite Hd].
  assert (Hpn : p <> NULL) by (intros ->; by rewrite (inv_not_null _ _ _ (ai_pbuf _ _ _ _ HI)) in Hb).
  destruct (inv_held _ _ _ p (ai_pbuf _ _ _ _ HI1) Hpn) as (b' & Hb'); [lia|]. destruct (Ho _ _ Hb') as (b0 & Hb0 & Eb). rewrite Hb in Hb0. injection Hb0 as <-.
  rewrite Hb', Eb. f_equal. destruct (inv_refs _ _ _ (ai_pbuf _ _ _ _ HI1) _ _ Hb') as [R Hpos]. cbn beta in R. pose proof (only_refs_preds _ _ p Ho). specialize (Hq p Hpn).
  assert (p_ref b' = p_ref b) as -> by lia. by destruct b.
Qed.

Lemma update_spec s B ext W nif ip mac (for_us : bool) :
  arp_inv s B ext W -> is_mac (netif_hwaddr nif) -> is_mac mac ->
  exists r s' B' W' out, etharp_update_arp_entry s nif ip mac (if for_us then ETHARP_FLAG_TRY_HARD else ETHARP_FLAG_FIND_ONLY) = Ret (r, s')
    /\ arp_inv s' B' ext W' /\ B' ⊆ B /\ keeps s s' B ext /\ a_log s' = a_log s ++ out /\ etharp_cached_entry s' = etharp_cached_entry s
    /\ learned for_us (arp_table s) W ip nif mac (arp_table s') W' out.
Proof.
  intros HI Hhw Hmac. unfold etharp_update_arp_entry, learned. fold (unusable ip nif). rewrite LWIP_ASSERT_ok by (unfold is_mac in Hhw; apply Z.eqb_eq; unfold ETH_HWADDR_LEN; lia).
  cbn [mbind outcome_bind]. destruct (unusable ip nif).
  { exists ERR_ARG, s, B, W, []. rewrite app_nil_r. split_and!; done. }
  destruct (find_entry_spec s B ext W ip (if for_us then ETHARP_FLAG_TRY_HARD else ETHARP_FLAG_FIND_ONLY) nif HI) as [(n & E & Hf)|(Hno & [[E Hfl]|(n & ps1 & B1 & E & Hfo & Hch & HI1 & HB & Hd & Ho)])];
    rewrite E; cbn [mbind outcome_bind].
  - pose proof Hf as [(e & Hn & Hm) _]. destruct (matches_key _ _ _ Hm) as (Hne & <- & Hnif). pose proof (lookup_lt_Some _ _ _ Hn) as Hlt. rewrite (ai_len _ _ _ _ HI) in Hlt.
    destruct (inv_entry_at s B ext W n HI Hlt) as (e' & w & He' & Hw & Hok & Hww). rewrite Hn in He'. injection He' as <-. destruct w as [C|].
    + destruct (make_stable_wait s B ext W nif n mac e C HI Hn Hne Hnif Hw Hhw Hmac) as (ps' & B' & Es & HI' & HB & Hk). eexists _, _, B', _, _. split; [exact Es|].
      split; [exact HI'|]. do 2 (split; [done|]). split; [done|]. split; [done|]. left. exists n. split; [done|]. rewrite Hw. unfold set_entry. cbn. by rewrite Nat2Z.id.
    + eexists _, _, B, _, []. split; [by apply make_stable_idle|]. split; [|split; [done|split; [by apply arp_keeps_refl|split; [by rewrite app_nil_r|split; [done|]]]]].
      * apply (inv_entry s B ext W ext n e _ None HI Hn); try done; [|intros a _; by rewrite Hww|by left].
        right. intros j x Hj Hjn Hx [K1 K2]. apply Hjn. apply (ai_unique _ _ _ _ HI j n x e); try done. split; [exact K1|]. rewrite Hnif. exact K2.
      * left. exists n. split; [done|]. rewrite Hw. unfold set_entry. cbn. by rewrite Nat2Z.id.
  - exists ERR_MEM, s, B, W, []. rewrite app_nil_r. split_and!; try done. right. split; [done|]. by destruct for_us; [destruct Hfl as [|[_ ?]]|].
  - set (s1 := set_entry _ _ empty_entry) in HI1. assert (for_us = true) as -> by (by destruct for_us).
    assert (Hnlt : (n < 10)%nat). { destruct Hch as [[(e & Hn & _) _]|(_ & _ & [(e & Hn & _)|[_ [(e & Hn & _)|[_ (e & Hn & _)]]]])]; apply lookup_lt_Some in Hn; by rewrite (ai_len _ _ _ _ HI) in Hn. }
    rewrite <- (set_entry_twice _ _ empty_entry). fold s1. assert (Hs1 : arp_table s1 = <[n := empty_entry]> (arp_table s)) by (unfold s1, set_entry; cbn; by rewrite Nat2Z.id).
    rewrite (make_stable_idle _ nif n mac (fresh_entry ip nif)); [|cbn; rewrite Nat2Z.id, list_lookup_insert_eq; [done|by rewrite !length_insert, (ai_len _ _ _ _ HI)]|done].
    rewrite set_entry_twice. eexists _, _, B1, _, []. split; [reflexivity|]. split.
    { apply (inv_new_entry s1 B1 ext W n _ ip nif HI1); try done; [rewrite Hs1; apply list_lookup_insert_eq; by rewrite (ai_len _ _ _ _ HI)|].
      rewrite Hs1. by apply no_entry_insert. }
    split; [done|]. split; [by apply (keeps_refs s s1 B B1 ext W (<[n := None]> W) HI HI1 Ho Hd); intros q Hq; rewrite Hs1; apply queued_empty|].
    split; [by rewrite app_nil_r|]. split; [done|]. right. split; [done|]. exists n.
    split; [|by unfold s1, set_entry; cbn; rewrite Nat2Z.id, list_insert_insert_eq]. destruct Hch as [Hch|(_ & H1 & H2)]; [by left|right; by split].
Qed.

(** ** Receiving *)

Abbreviation etharp_input := (etharp_input linkoutput).

(** The fields of the ARP message [h]. *)
Definition ah_valid (h : list Z) : bool := bool_decide (take 6 h = [0; 1; 8; 0; 6; 4]).
Definition ah_opcode (h : list Z) : Z := be16 (drop 6 h).
Definition ah_shw (h : list Z) : list Z := take 6 (drop 8 h).
Definition ah_sip (h : list Z) : Z := le_val (take 4 (drop 14 h)).
Definition ah_dip (h : list Z) : Z := le_val (take 4 (drop 24 h)).

(** The message asks for the address of the interface. *)
Definition asks_us (h : list Z) (nif : netif) : bool := negb (ip4_addr_isany_val (netif_ip4_addr nif)) && (ah_dip h =? netif_ip4_addr nif).

Definition arp_reply_frame (nif : netif) (h : list Z) : list Z :=
  eth_frame (ah_shw h) (netif_hwaddr nif) ETHTYPE_ARP (arp_message ARP_REPLY (netif_hwaddr nif) (netif_ip4_addr nif) (ah_shw h) (ah_sip h)).

Lemma arp_fields m a :
  let h := read_bytes m a 28 in
  Forall is_u8 h ->
  (negb (arph_hwtype m a =? PP_HTONS LWIP_IANA_HWTYPE_ETHERNET) || negb (arph_hwlen m a =? ETH_HWADDR_LEN) || negb (arph_protolen m a =? 4) || negb (arph_proto m a =? PP_HTONS ETHTYPE_IP))
    = negb (ah_valid h)
  /\ arph_sipaddr m a = ah_sip h /\ arph_dipaddr m a = ah_dip h /\ arph_shwaddr m a = ah_shw h /\ (arph_opcode m a =? PP_HTONS ARP_REQUEST) = (ah_opcode h =? ARP_REQUEST).
Proof.
  intros h H8. unfold arph_hwtype, arph_hwlen, arph_protolen, arph_proto, arph_sipaddr, arph_dipaddr, arph_shwaddr, arph_opcode.
  rewrite (load_0 m a 2 28), !(load_at m a _ _ 28) by lia. change 8 with (Z.of_nat 8). rewrite (read_part m a 8 6 28) by lia. fold h.
  assert (HL : length h = 28%nat) by apply read_bytes_length. clearbody h. unfold ah_valid, ah_sip, ah_dip, ah_shw, ah_opcode.
  change (PP_HTONS LWIP_IANA_HWTYPE_ETHERNET) with 256. change (PP_HTONS ETHTYPE_IP) with 8. change (PP_HTONS ARP_REQUEST) with 256. change ETH_HWADDR_LEN with 6. change ARP_REQUEST with 1.
  explode 28 h HL. do 8 (apply Forall_cons in H8 as [? H8]). clear H8.
  lazy beta iota zeta delta [Z.to_nat Pos.to_nat Pos.iter_op Nat.add drop take le_val be16]. unfold_c. split; [|split_and!; try done].
  - apply eq_iff_eq_true. rewrite !orb_true_iff, !negb_true_iff, !Z.eqb_neq, bool_decide_eq_false. split; [intros Hx E; injection E; lia|]. intros Hx.
    destruct (decide (z = 0 /\ z0 = 1 /\ z1 = 8 /\ z2 = 0 /\ z3 = 6 /\ z4 = 4)) as [(-> & -> & -> & -> & -> & ->)|]; [done|lia].
  - apply eq_iff_eq_true. rewrite !Z.eqb_eq. lia.
Qed.

(** An ARP message in one pbuf, held by us alone. *)
Definition arp_packet (ps : pst) (p : Z) (h : list Z) : Prop :=
  exists b, pbufs ps !! p = Some b /\ p_ref b = 1 /\ is_contiguous b = true /\ is_custom b = false /\ 28 <= p_len b
    /\ read_bytes (data ps) (p_payload b) 28 = h /\ Forall is_u8 h.

Lemma packet_keeps s s' B ext ext0 p h :
  pbuf_inv (a_ps s) B ext0 -> keeps s s' B ext -> (0 < ext p)%nat -> arp_packet (a_ps s) p h -> arp_packet (a_ps s') p h.
Proof.
  intros HI Hk He (b & Hb & Hr & Hcg & Hcu & Hlen & Hh & H8). destruct (Hk p b Hb He Hr) as [Hb' Hd]. exists b. do 5 (split; [done|]). split; [|done]. rewrite <- Hh.
  rewrite !read_bytes_range. apply list_fmap_ext. intros i x Hx. apply list_elem_of_lookup_2, elem_of_range in Hx.
  destruct (own_data_block _ _ _ p b x HI Hb Hcg Hcu) as (k & Hk' & R); [apply elem_of_range; cbn; lia|]. by apply (Hd k).
Qed.

(** Reading and answering an ARP message. *)
Lemma etharp_input_spec s B ext W nif p h :
  arp_inv s B (ext_add ext p) W -> p <> NULL -> arp_packet (a_ps s) p h -> is_mac (netif_hwaddr nif) ->
  exists s' B' W' out, etharp_input s p nif = Ret s' /\ arp_inv s' B' ext W' /\ a_log s' = a_log s ++ out /\ etharp_cached_entry s' = etharp_cached_entry s
    /\ if ah_valid h then
         exists r s1 out1 out2, etharp_update_arp_entry s nif (ah_sip h) (ah_shw h) (if asks_us h nif then ETHARP_FLAG_TRY_HARD else ETHARP_FLAG_FIND_ONLY) = Ret (r, s1)
           /\ out = out1 ++ out2 /\ learned (asks_us h nif) (arp_table s) W (ah_sip h) nif (ah_shw h) (arp_table s') W' out1
           /\ if asks_us h nif && (ah_opcode h =? ARP_REQUEST)
              then out2 = [(netif_num nif, arp_reply_frame nif h)] \/ out2 = [] /\ heap_full (a_ps s1) PBUF_LINK 28 else out2 = []
       else arp_table s' = arp_table s /\ W' = W /\ out = [].
Proof.
  intros HI Hp Hpk Hhw. pose proof Hpk as (b & Hb & Hr & Hcg & Hcu & Hlen & Hh & H8). unfold etharp_input. rewrite (deref_ok _ _ _ Hb). cbn [mbind outcome_bind].
  destruct (arp_fields (a_mem s) (p_payload b)) as (F1 & F2 & F3 & F4 & F5); [change (data (a_ps s)) with (a_mem s) in Hh; by rewrite Hh|].
  change (data (a_ps s)) with (a_mem s) in Hh. rewrite Hh in F1, F2, F3, F4, F5. rewrite F1. destruct (ah_valid h); cbn [negb].
  2:{ destruct (arp_free_spec s B ext W p HI Hp) as (ps' & B' & E & HI' & _). exists (with_aps s ps'), B', W, []. rewrite app_nil_r. by split_and!. }
  rewrite F2, F3, F4. replace (if ip4_addr_isany_val (netif_ip4_addr nif) then false else ip4_addr_cmp (ah_dip h) (netif_ip4_addr nif)) with (asks_us h nif) by (unfold asks_us, ip4_addr_cmp; by destruct (ip4_addr_isany_val _)).
  assert (Hsh : is_mac (ah_shw h)). { unfold is_mac, ah_shw. rewrite length_take, length_drop. rewrite <- Hh, read_bytes_length. done. }
  assert (Hep : (0 < ext_add ext p p)%nat) by (unfold ext_add; rewrite decide_True by done; lia).
  destruct (update_spec s B (ext_add ext p) W nif (ah_sip h) (ah_shw h) (asks_us h nif) HI Hhw Hsh) as (r & s1 & B1 & W1 & out1 & E1 & HI1 & HB1 & Hk1 & Hlog1 & Hc1 & Hl1).
  rewrite E1. cbn [mbind outcome_bind]. pose proof (packet_keeps s s1 B (ext_add ext p) _ p h (ai_pbuf _ _ _ _ HI) Hk1 Hep Hpk) as Hpk1.
  destruct Hpk1 as (b1 & Hb1 & _ & _ & _ & _ & Hh1 & _). destruct (Hk1 p b Hb Hep Hr) as [Hb1' _]. rewrite Hb1 in Hb1'. injection Hb1' as ->.
  destruct (arp_fields (a_mem s1) (p_payload b)) as (_ & _ & _ & G4 & G5); [change (data (a_ps s1)) with (a_mem s1) in Hh1; by rewrite Hh1|].
  change (data (a_ps s1)) with (a_mem s1) in Hh1. rewrite Hh1 in G4, G5. rewrite G4, G5, (andb_comm (ah_opcode h =? ARP_REQUEST)). destruct (asks_us h nif && (ah_opcode h =? ARP_REQUEST)).
  - destruct (raw_spec s1 B1 (ext_add ext p) W1 nif (netif_hwaddr nif) (ah_shw h) (netif_hwaddr nif) (netif_ip4_addr nif) (ah_shw h) (ah_sip h) ARP_REPLY HI1 Hhw Hhw Hsh Hhw Hsh ltac:(unfold_c; done))
      as (r2 & ps2 & out2 & E2 & Hout2 & HI2 & _). rewrite E2. cbn [mbind outcome_bind]. destruct (arp_free_spec _ B1 ext W1 p HI2 Hp) as (ps' & B' & E & HI' & _). rewrite E.
    exists (with_aps (with_alog (with_aps s1 ps2) (a_log s1 ++ out2)) ps'), B', W1, (out1 ++ out2). split; [done|]. split; [done|]. split; [cbn; by rewrite Hlog1, app_assoc|]. split; [done|].
    exists r, s1, out1, out2. split; [done|]. split; [done|]. split; [done|]. destruct Hout2 as [[_ ->]|(_ & -> & Hfull)]; [by left|by right].
  - cbn [mbind outcome_bind]. destruct (arp_free_spec s1 B1 ext W1 p HI1 Hp) as (ps' & B' & E & HI' & _). rewrite E. exists (with_aps s1 ps'), B', W1, out1.
    split_and!; try done. exists r, s1, out1, []. rewrite app_nil_r. by split_and!.
Qed.

(** ** Sending through the table *)

Abbreviation etharp_request := (etharp_request linkoutput).
Abbreviation etharp_request_dst := (etharp_request_dst linkoutput).
Abbreviation etharp_output_to_arp_index := (etharp_output_to_arp_index linkoutput).
Abbreviation etharp_query := (etharp_query linkoutput).
Abbreviation etharp_output := (etharp_output linkoutput).

Lemma arp_request_spec s B ext W nif ip dst :
  arp_inv s B ext W -> is_mac (netif_hwaddr nif) -> is_mac dst ->
  exists r ps' out, let s' := with_alog (with_aps s ps') (a_log s ++ out) in
    etharp_request_dst s nif ip dst = Ret (r, s')
    /\ (r = ERR_OK /\ out = [(netif_num nif, arp_request_frame nif dst ip)] \/ r = ERR_MEM /\ out = [] /\ heap_full (a_ps s) PBUF_LINK 28)
    /\ arp_inv s' B ext W /\ pbufs ps' = pbufs (a_ps s) /\ same_blocks B (a_mem s) (data ps').
Proof. intros HI Hhw Hd. by apply raw_spec. Qed.

Lemma mac_constants : is_mac ethbroadcast /\ is_mac ethzero.
Proof. done. Qed.

(** The packet goes out to [dst]. *)
Lemma out_send s B ext W nif p C dst :
  arp_inv s B ext W -> out_packet (a_ps s) B ext p C -> (0 < ext p)%nat -> is_mac (netif_hwaddr nif) -> is_mac dst ->
  let F := eth_frame dst (netif_hwaddr nif) ETHTYPE_IP C in
  exists ps', let s' := with_alog (with_aps s ps') (a_log s ++ [(netif_num nif, F)]) in
    ethernet_output s nif p (netif_hwaddr nif) dst ETHTYPE_IP = Ret (linkoutput (a_log s) nif F, s') /\ arp_inv s' B ext W.
Proof.
  intros HI (b & l & Hc & Hr & Hcu & Hroom & HC & _) He Hhw Hd F. pose proof (chain_cons _ _ _ _ _ Hc) as (_ & Hb & _). destruct (ref_one s B ext W p b HI Hb He Hr) as (_ & Hp0 & Hq0).
  destruct (send_spec s B ext W nif p b l (netif_hwaddr nif) dst ETHTYPE_IP HI Hc Hcu Hroom Hp0 Hq0 Hhw Hhw Hd ltac:(unfold_c; done)) as (ps' & E & HI' & _).
  change (data (a_ps s)) with (a_mem s) in HC. rewrite HC in E, HI'. by exists ps'.
Qed.

(** A stable entry near its end is asked for again: by unicast in the last 30 seconds, by broadcast in the last 15, every other second. *)
Definition refresh (e : etharp_entry) : option (list Z) :=
  if bool_decide (e_state e = ETHARP_STATE_STABLE) then
    if ARP_AGE_REREQUEST_USED_BROADCAST <=? e_ctime e then Some ethbroadcast
    else if ARP_AGE_REREQUEST_USED_UNICAST <=? e_ctime e then Some (e_ethaddr e) else None
  else None.

Definition refreshed (s : arp) (nif : netif) (e : etharp_entry) (e' : etharp_entry) (out : list (Z * list Z)) : Prop :=
  match refresh e with
  | None => e' = e /\ out = []
  | Some dst => e' = with_estate e ETHARP_STATE_STABLE_REREQUESTING_1 /\ out = [(netif_num nif, arp_request_frame nif dst (e_ipaddr e))]
                \/ e' = e /\ out = [] /\ heap_full (a_ps s) PBUF_LINK 28
  end.

Lemma set_entry_id s n e : arp_table s !! n = Some e -> set_entry s (Z.of_nat n) e = s.
Proof. intros Hn. unfold set_entry, with_table. rewrite Nat2Z.id, list_insert_id by done. by destruct s. Qed.

(** The state of an entry changes, its key and its packet do not. *)
Lemma inv_restate s B ext W n e e' :
  arp_inv s B ext W -> arp_table s !! n = Some e -> c_empty e = false -> entry_ok e' -> e_q e' = e_q e -> same_key e e' ->
  arp_inv (set_entry s (Z.of_nat n) e') B ext W.
Proof.
  intros HI Hn Hne Hok Hq Hk. pose proof (lookup_lt_Some _ _ _ Hn) as Hlt. rewrite (ai_len _ _ _ _ HI) in Hlt. destruct (inv_entry_at s B ext W n HI Hlt) as (e0 & w & He0 & Hw & _ & Hww).
  rewrite Hn in He0. injection He0 as <-. rewrite <- (list_insert_id W n w Hw). apply (inv_entry s B ext W ext n e); try done.
  - unfold waits in *. by rewrite Hq.
  - right. intros j x Hj Hjn Hx [K1 K2]. apply Hjn. apply (ai_unique _ _ _ _ HI j n x e); try done. destruct Hk. split; congruence.
  - intros a _. by rewrite Hq.
  - by right; left.
Qed.

Lemma index_spec s B ext W nif p C n e :
  arp_inv s B ext W -> arp_table s !! n = Some e -> c_stable e = true -> out_packet (a_ps s) B ext p C -> (0 < ext p)%nat -> is_mac (netif_hwaddr nif) ->
  exists s' e' out, let F := eth_frame (e_ethaddr e) (netif_hwaddr nif) ETHTYPE_IP C in
    etharp_output_to_arp_index s nif p (Z.of_nat n) = Ret (linkoutput (a_log s ++ out) nif F, s') /\ arp_inv s' B ext W
    /\ refreshed s nif e e' out /\ arp_table s' = <[n := e']> (arp_table s) /\ a_log s' = a_log s ++ out ++ [(netif_num nif, F)] /\ etharp_cached_entry s' = etharp_cached_entry s.
Proof.
  intros HI Hn Hst Hpk He Hhw. unfold etharp_output_to_arp_index. rewrite (entry_at_ok _ _ _ Hn). cbn [mbind outcome_bind]. rewrite LWIP_ASSERT_ok by done. cbn [mbind outcome_bind].
  pose proof (Forall_lookup_1 _ _ _ _ (ai_entries _ _ _ _ HI) Hn) as Hok. assert (Hmac : is_mac (e_ethaddr e)) by (unfold entry_ok, c_stable in *; by destruct (e_state e); try done; destruct Hok as (_ & _ & _ & ?)).
  assert (Hq : forall dst, is_mac dst -> e_state e = ETHARP_STATE_STABLE -> exists s1 e' out,
    ('(r, s0) ← etharp_request_dst s nif (e_ipaddr e) dst; Ret (if bool_decide (r = ERR_OK) then set_entry s0 (Z.of_nat n) (with_estate e ETHARP_STATE_STABLE_REREQUESTING_1) else s0)) = Ret s1
    /\ arp_inv s1 B ext W /\ out_packet (a_ps s1) B ext p C /\ arp_table s1 = <[n := e']> (arp_table s) /\ a_log s1 = a_log s ++ out /\ etharp_cached_entry s1 = etharp_cached_entry s
    /\ (e' = with_estate e ETHARP_STATE_STABLE_REREQUESTING_1 /\ out = [(netif_num nif, arp_request_frame nif dst (e_ipaddr e))] \/ e' = e /\ out = [] /\ heap_full (a_ps s) PBUF_LINK 28)).
  { intros dst Hd Es. destruct (arp_request_spec s B ext W nif (e_ipaddr e) dst HI Hhw Hd) as (r & ps1 & out & E & Hout & HI1 & Hp1 & Hd1). rewrite E. cbn [mbind outcome_bind]. set (s1 := with_alog _ _) in *.
    assert (Hpk1 : out_packet (a_ps s1) B ext p C) by (by apply (out_blocks (a_ps s))). destruct Hout as [[-> ->]|(-> & -> & Hfull)].
    - eexists _, _, _. split; [reflexivity|]. split; [|split; [exact Hpk1|]].
      + apply (inv_restate s1 B ext W n e); try done; [unfold c_empty; by rewrite Es|]. unfold entry_ok in Hok. by rewrite Es in Hok.
      + split; [unfold set_entry; cbn [arp_table with_table]; by rewrite Nat2Z.id|]. split; [done|]. split; [done|by left].
    - exists s1, e, []. split; [done|]. split; [done|]. split; [done|]. split; [cbn; by rewrite list_insert_id|]. split; [done|]. split; [done|by right]. }
  assert (Hgo : exists s1 e' out, (if bool_decide (e_state e = ETHARP_STATE_STABLE) then
         if ARP_AGE_REREQUEST_USED_BROADCAST <=? e_ctime e then
           '(r, s0) ← etharp_request s nif (e_ipaddr e); Ret (if bool_decide (r = ERR_OK) then set_entry s0 (Z.of_nat n) (with_estate e ETHARP_STATE_STABLE_REREQUESTING_1) else s0)
         else if ARP_AGE_REREQUEST_USED_UNICAST <=? e_ctime e then
           '(r, s0) ← etharp_request_dst s nif (e_ipaddr e) (e_ethaddr e); Ret (if bool_decide (r = ERR_OK) then set_entry s0 (Z.of_nat n) (with_estate e ETHARP_STATE_STABLE_REREQUESTING_1) else s0)
         else Ret s else Ret s) = Ret s1
    /\ arp_inv s1 B ext W /\ out_packet (a_ps s1) B ext p C /\ arp_table s1 = <[n := e']> (arp_table s) /\ a_log s1 = a_log s ++ out /\ etharp_cached_entry s1 = etharp_cached_entry s /\ refreshed s nif e e' out).
  { unfold refreshed, refresh. assert (Hno : exists s1 e' out, Ret s = Ret s1 /\ arp_inv s1 B ext W /\ out_packet (a_ps s1) B ext p C /\ arp_table s1 = <[n := e']> (arp_table s) /\ a_log s1 = a_log s ++ out
        /\ etharp_cached_entry s1 = etharp_cached_entry s /\ e' = e /\ out = []).
    { exists s, e, []. rewrite app_nil_r, list_insert_id by done. by split_and!. }
    case_bool_decide as Es; [|done]. destruct (_ <=? e_ctime e); [by apply (Hq ethbroadcast)|]. by destruct (_ <=? e_ctime e); [apply (Hq (e_ethaddr e))|]. }
  destruct Hgo as (s1 & e' & out & E1 & HI1 & Hpk1 & HT1 & Hlog1 & Hc1 & Hrf). rewrite E1. cbn [mbind outcome_bind].
  destruct (out_send s1 B ext W nif p C (e_ethaddr e) HI1 Hpk1 He Hhw Hmac) as (ps' & Eo & HI'). rewrite Eo, Hlog1. eexists _, e', out. split; [reflexivity|]. rewrite <- Hlog1. split; [exact HI'|].
  split; [done|]. split; [done|]. split; [cbn; by rewrite Hlog1, app_assoc|done].
Qed.

(** ** Lemmas: queueing a packet *)

Lemma copy_needed_spec fuel ps p l :
  pbufs ps !! NULL = None -> chain ps p l -> no_empty_tail l -> (length l < fuel)%nat -> copy_needed fuel ps p = Ret (existsb (λ x, PBUF_NEEDS_COPY x.2) l).
Proof.
  intros Hn. revert p l. induction fuel as [|fuel IH]; intros p l Hc Hne Hf; [lia|]. cbn [copy_needed]. destruct l as [|[a b] l].
  { by rewrite (proj2 (chain_null _ _ _ Hc Hn) eq_refl), Z.eqb_refl. }
  pose proof (chain_cons _ _ _ _ _ Hc) as (-> & Hb & Hc' & Hu & Ht & _). rewrite (proj2 (Z.eqb_neq a NULL)) by congruence. rewrite (deref_ok _ _ _ Hb). cbn [mbind outcome_bind].
  destruct Hne as [Hne Hne']. rewrite LWIP_ASSERT_ok.
  2:{ apply orb_true_iff. destruct l as [|y l]; [right; apply Z.eqb_eq; by apply (chain_null _ _ _ Hc' Hn)|left]. specialize (Hne ltac:(done)). apply negb_true_iff, Z.eqb_neq. lia. }
  cbn [mbind outcome_bind existsb snd]. destruct (PBUF_NEEDS_COPY b); [done|]. apply (IH _ _ Hc' Hne'). cbn in Hf. lia.
Qed.

(** The packet [q], which we hold, becomes the packet of the entry; the one before is dropped. *)
Lemma arp_enqueue_spec s B ext W n e q C :
  arp_inv s B (ext_add ext q) W -> arp_table s !! n = Some e -> e_state e = ETHARP_STATE_PENDING -> q <> NULL -> queued (arp_table s) q = 0%nat -> waiting (a_ps s) q C ->
  exists ps' B', let s' := set_entry (with_aps s ps') (Z.of_nat n) (with_q e q) in
    (s0 ← (if negb (e_q e =? NULL) then arp_free s (e_q e) else Ret s); Ret (ERR_OK, set_entry s0 (Z.of_nat n) (with_q e q))) = Ret (ERR_OK, s')
    /\ arp_inv s' B' ext (<[n := Some C]> W).
Proof.
  intros HI Hn Est Hq Hq0 Hw. pose proof (Forall_lookup_1 _ _ _ _ (ai_entries _ _ _ _ HI) Hn) as Hok. set (s2 := set_entry s (Z.of_nat n) (with_q e q)).
  assert (Hs2 : forall ext', (forall a, a <> NULL -> (ext a + hold (e_q e) a = ext' a)%nat) -> arp_inv s2 B ext' (<[n := Some C]> W)).
  { intros ext' He. apply (inv_entry s B _ W _ n e _ _ HI Hn).
    - unfold entry_ok in *. cbn. by rewrite Est in *.
    - by split.
    - right. intros j x Hj Hjn Hx Hk. apply Hjn. apply (ai_unique _ _ _ _ HI j n x e); try done. unfold c_empty. by rewrite Est.
    - intros a Ha. rewrite <- (He a Ha). unfold ext_add, hold. cbn [e_q with_q]. repeat case_decide; subst; (done || lia).
    - right. by right. }
  destruct (e_q e =? NULL) eqn:Eq; bool_to_prop; cbn [negb].
  - exists (a_ps s), B. cbn [mbind outcome_bind]. replace (with_aps s (a_ps s)) with s by (by destruct s). split; [done|]. apply Hs2. intros a Ha. unfold hold. rewrite decide_False by congruence. lia.
  - destruct (arp_free_spec s2 B ext (<[n := Some C]> W) (e_q e)) as (ps' & B' & E & HI' & _); [|done|].
    { apply Hs2. intros a Ha. unfold ext_add, hold. repeat case_decide; subst; (done || lia). }
    rewrite (arp_free_other s s2 ps' (e_q e) eq_refl E). cbn [mbind outcome_bind]. by exists ps', B'.
Qed.

(** The fresh copy of a packet. *)
Lemma clone_spec s B ext W p C :
  arp_inv s B ext W -> out_packet (a_ps s) B ext p C ->
  exists q ps', pbuf_clone (a_ps s) PBUF_LINK PBUF_RAM p = Ret (q, ps')
    /\ (q = NULL /\ heap_full (a_ps s) PBUF_LINK (length C) /\ arp_inv (with_aps s ps') B ext W
        \/ q <> NULL /\ queued (arp_table s) q = 0%nat /\ waiting ps' q C /\ exists B', arp_inv (with_aps s ps') B' (ext_add ext q) W).
Proof.
  intros HI (b & l & Hc & Hr & Hcu & Hroom & HC & Hs & Hne & _). assert (Hin : in_blocks B ((p, b) :: l)) by (intros x Hx; destruct (Hs x Hx) as (a & k & ? & ? & _); eauto).
  assert (Htot : Z.of_nat (length C) = total ((p, b) :: l)) by (rewrite <- HC; apply contents_length, tot_ok_lens, Hc).
  destruct (clone_ram_spec (a_ps s) B _ PBUF_LINK p ((p, b) :: l) (ai_pbuf _ _ _ _ HI) Hc ltac:(done) Hin Hne link_layer_range)
    as [(st & Em & E & HI')|(q & ps' & qb & k & E & Hp & Hfr & Hq & Hnx & Hl & Ht & Hcont & HI' & Hpay & Hd)]; rewrite E.
  { exists NULL, (with_pmem (a_ps s) st). split; [done|left]. split; [done|]. split; [exists st; by rewrite Htot|]. by apply (inv_packets s B ext W _ B ext (a_log s)). }
  exists q, ps'. split; [done|right]. destruct (fresh_unreferenced _ _ _ q (ai_pbuf _ _ _ _ HI) Hq Hfr) as [Hq0 Hp0]. split; [done|]. split; [lia|].
  assert (Hqb : pbufs ps' !! q = Some qb) by (rewrite Hp; apply lookup_insert_eq). destruct (inv_lookup _ _ _ _ _ HI' Hqb) as (k' & Hk' & (Hkind & _) & _). rewrite lookup_insert_eq in Hk'. injection Hk' as <-. destruct Hkind as (Hcu' & _ & Hcg').
  split.
  - exists qb, []. pose proof (chain_total _ _ _ Hc). split; [split; [by split_and!; [| |rewrite Hnx]|]|].
    { split_and!; [unfold_c; lia|cbn; lia|unfold_c; lia|done]. }
    split; [by apply Forall_singleton|]. destruct (layer_facts _ link_layer_range) as (? & _). split; [lia|]. destruct Hroom as (_ & _ & Hroom & _). pose proof (chain_cons _ _ _ _ _ Hc) as (_ & _ & _ & _ & Hbt & _).
    split; [change (total ((p, b) :: l)) with (p_len b + total l) in *; lia|]. split.
    + rewrite Hp, preds_insert_new by done. unfold link_to. rewrite decide_False by congruence. lia.
    + rewrite contents_cons. change (contents _ []) with (@nil Z). by rewrite app_nil_r, Hcont.
  - exists (<[q := BHeap k]> B). apply (inv_packets s B ext W ps' _ (ext_add ext q) (a_log s) HI).
    + eapply inv_ext_eq; [|exact HI']. intros a _. unfold ext_add. case_decide; lia.
    + intros r Cr Hr0 Hrq Hw. assert (Hrs : is_Some (pbufs (a_ps s) !! r)) by (by eapply inv_wait). apply (waiting_frame (a_ps s) ps' B _ r Cr (ai_pbuf _ _ _ _ HI) Hw).
      * rewrite Hp, preds_insert_new by done. unfold link_to. rewrite decide_False by congruence. by destruct Hw as (? & ? & _ & _ & _ & _ & ? & _).
      * intros a c l' Hc' Hin'. pose proof (seg_lookup _ _ _ _ _ _ (proj1 Hc') Hin') as Ha. rewrite Hp, lookup_insert_ne by congruence. done.
      * intros l' Hc' Hown x Hx. apply Hd. intros Hx'. destruct (own_in_blocks _ _ _ _ _ _ (ai_pbuf _ _ _ _ HI) (proj1 Hc') Hown x Hx) as (a & ka & Ha & Rx).
        destruct (own_data_block _ _ _ q qb x HI' Hqb Hcg' Hcu' Hx') as (kq & Hkq & Rq). assert (Haq : a <> q).
        { intros ->. destruct (proj2 (inv_dom _ _ _ (ai_pbuf _ _ _ _ HI) q) ltac:(eauto)) as [? ?]. congruence. }
        destruct (mem_holds_disjoint _ _ _ _ _ _ (inv_holds _ _ _ HI') (eq_trans (lookup_insert_ne B q a _ (not_eq_sym Haq)) Ha) Hkq Haq); lia.
Qed.

Lemma existsb_false_Forall {A} (f : A -> bool) l : existsb f l = false -> Forall (λ x, f x = false) l.
Proof. induction l as [|x l IH]; cbn; [constructor|]. intros [? ?]%orb_false_iff. constructor; [done|by apply IH]. Qed.

(** The packet of the entry after queue_packet. *)
Definition queued_as (s s' : arp) (n : nat) (e : etharp_entry) (W W' : list (option (list Z))) (C : list Z) (r : err_t) : Prop :=
  r = ERR_OK /\ W' = <[n := Some C]> W /\ (exists q, arp_table s' = <[n := with_q e q]> (arp_table s))
  \/ r = ERR_MEM /\ W' = W /\ arp_table s' = arp_table s /\ heap_full (a_ps s) PBUF_LINK (length C).

Lemma queue_spec s B ext W n e p C :
  arp_inv s B ext W -> arp_table s !! n = Some e -> e_state e = ETHARP_STATE_PENDING -> out_packet (a_ps s) B ext p C -> (0 < ext p)%nat ->
  exists r s' B' W', queue_packet s (Z.of_nat n) p = Ret (r, s') /\ arp_inv s' B' ext W' /\ a_log s' = a_log s /\ etharp_cached_entry s' = etharp_cached_entry s
    /\ queued_as s s' n e W W' C r.
Proof.
  intros HI Hn Est Hpk He. pose proof (inv_not_null _ _ _ (ai_pbuf _ _ _ _ HI)) as Hnull. pose proof Hpk as (b & l & Hc & Hr & Hcu & Hroom & HC & Hs & Hne & Hf).
  unfold queue_packet. rewrite (copy_needed_spec _ (a_ps s) p ((p, b) :: l) Hnull Hc Hne) by (by eapply chain_fuel_ok). cbn [mbind outcome_bind].
  assert (Hgo : forall q ps1 B1, arp_inv (with_aps s ps1) B1 (ext_add ext q) W -> q <> NULL -> queued (arp_table s) q = 0%nat -> waiting ps1 q C ->
    exists r s' B' W', (e0 ← entry_at (with_aps s ps1) (Z.of_nat n); s0 ← (if negb (e_q e0 =? NULL) then arp_free (with_aps s ps1) (e_q e0) else Ret (with_aps s ps1)); Ret (ERR_OK, set_entry s0 (Z.of_nat n) (with_q e0 q))) = Ret (r, s')
      /\ arp_inv s' B' ext W' /\ a_log s' = a_log s /\ etharp_cached_entry s' = etharp_cached_entry s /\ queued_as s s' n e W W' C r).
  { intros q ps1 B1 HI1 Hq Hq0 Hw. rewrite (entry_at_ok _ n e) by done. cbn [mbind outcome_bind]. destruct (arp_enqueue_spec _ B1 ext W n e q C HI1 Hn Est Hq Hq0 Hw) as (ps' & B' & E & HI'). rewrite E.
    eexists _, _, B', _. split; [reflexivity|]. split; [exact HI'|]. split; [done|]. split; [done|]. left. split; [done|]. split; [done|]. exists q. unfold set_entry. cbn [arp_table with_table with_aps]. by rewrite Nat2Z.id. }
  destruct (existsb _ _) eqn:Ecp.
  - destruct (clone_spec s B ext W p C HI Hpk) as (q & ps1 & E & [(-> & Hfull & HI1)|(Hq & Hq0 & Hw & B1 & HI1)]); rewrite E; cbn [mbind outcome_bind].
    + rewrite Z.eqb_refl. exists ERR_MEM, (with_aps s ps1), B, W. split_and!; try done. by right.
    + rewrite (proj2 (Z.eqb_neq q NULL)) by done. cbn [negb]. by apply (Hgo q ps1 B1).
  - pose proof (chain_cons _ _ _ _ _ Hc) as (_ & Hb & _). destruct (ref_one s B ext W p b HI Hb He Hr) as (_ & Hp0 & Hq0). destruct (ref_spec (a_ps s) B _ p b (ai_pbuf _ _ _ _ HI) Hb ltac:(lia)) as [E HI1].
    rewrite E. cbn [mbind outcome_bind]. assert (Hpn : p <> NULL) by congruence. rewrite (proj2 (Z.eqb_neq p NULL)) by done. cbn [negb].
    pose proof (only_refs_set (pbufs (a_ps s)) p b (p_ref b + 1) Hb) as Ho. apply (Hgo p _ B); try done.
    + apply (inv_refs_only s B ext W _ B _ (a_log s) HI); try done. eapply inv_ext_eq; [|exact HI1]. intros a _. unfold ext_add. case_decide; lia.
    + apply (waiting_refs (a_ps s) _ B _ p C Hnull HI1 Ho eq_refl); [exists (with_ref b (p_ref b + 1)); apply lookup_insert_eq|]. exists b, l. destruct Hroom as (R1 & R2 & R3 & R4).
      cbn [existsb] in Ecp. apply orb_false_iff in Ecp as [_ Ecp]. split_and!; try done. apply Forall_cons. split; [done|].
      eapply Forall_impl; [apply Forall_and; split; [exact Hf|apply (existsb_false_Forall _ l Ecp)]|]. cbn. intros x [[Hx|Hx] Hx']; [done|congruence].
Qed.

(** ** Lemmas: asking for an address *)

Definition pending_entry (a : Z) (nif : netif) : etharp_entry := EtharpEntry NULL a (Some (netif_num nif)) ethzero 0 ETHARP_STATE_PENDING.

(** The entry has the hardware address of [a]. *)
Definition resolved (a : Z) (nif : netif) (e : etharp_entry) : bool :=
  is_stable (e_state e) && bool_decide (e_netif e = Some (netif_num nif)) && ip4_addr_cmp a (e_ipaddr e).

(** The packet [C] waits for the address of [a]: on the entry that asks for it, or on a new one with a request sent. *)
Definition waits_for (s s' : arp) (a : Z) (nif : netif) (W W' : list (option (list Z))) (C : list Z) (r : err_t) (out : list (Z * list Z)) : Prop :=
  (exists n e, first_entry (λ e, entry_matches e a nif) (arp_table s) n /\ arp_table s !! n = Some e /\ queued_as s s' n e W W' C r /\ out = [])
  \/ no_entry (λ e, entry_matches e a nif) (arp_table s)
     /\ exists n s0 s1, etharp_find_entry s a ETHARP_FLAG_TRY_HARD nif = Ret (Some (Z.of_nat n), s0) /\ chosen (arp_table s) n
        /\ arp_table s1 = <[n := pending_entry a nif]> (arp_table s) /\ queued_as s1 s' n (pending_entry a nif) (<[n := None]> W) W' C r
        /\ (out = [(netif_num nif, arp_request_frame nif ethbroadcast a)] \/ out = [] /\ heap_full (a_ps s0) PBUF_LINK 28).

Lemma matches_pending e a nif : entry_matches e a nif = true -> resolved a nif e = false -> e_state e = ETHARP_STATE_PENDING.
Proof.
  unfold entry_matches, resolved. intros H1 H2. apply andb_true_iff in H1 as [H1 H3]. apply andb_true_iff in H1 as [H1 H4]. rewrite H3, H4, !andb_true_r in H2.
  destruct (e_state e); try done.
Qed.

Lemma query_spec s B ext W nif a p C :
  arp_inv s B ext W -> unusable a nif = false -> no_entry (resolved a nif) (arp_table s) -> out_packet (a_ps s) B ext p C -> p <> NULL -> (0 < ext p)%nat -> is_mac (netif_hwaddr nif) ->
  exists r s' B' W' out, etharp_query s nif a p = Ret (r, s') /\ arp_inv s' B' ext W' /\ a_log s' = a_log s ++ out /\ waits_for s s' a nif W W' C r out.
Proof.
  intros HI Hu Hnr Hpk Hp He Hhw. unfold etharp_query. replace (ip4_addr_isbroadcast_u32 a nif || ip4_addr_ismulticast a || ip4_addr_isany_val a) with (unusable a nif) by (unfold unusable; by destruct (ip4_addr_isany_val a), (ip4_addr_isbroadcast_u32 a nif), (ip4_addr_ismulticast a)).
  rewrite Hu. destruct (find_entry_spec s B ext W a ETHARP_FLAG_TRY_HARD nif HI) as [(n & E & Hf)|(Hno & [[_ [Hfl|[_ Hfl]]]|(n & ps1 & B1 & E & _ & Hch & HI1 & HB & Hd & Ho)])]; try done;
    rewrite E; cbn [mbind outcome_bind].
  - pose proof Hf as [(e & Hn & Hm) _]. pose proof (lookup_lt_Some _ _ _ Hn) as Hlt. rewrite (ai_len _ _ _ _ HI) in Hlt. pose proof (Forall_lookup_1 _ _ _ _ Hnr Hn) as Hnr'. pose proof (matches_pending _ _ _ Hm Hnr') as Est.
    rewrite LWIP_ASSERT_ok by (apply Z.ltb_lt; unfold NETIF_ADDR_IDX_MAX; lia). cbn [mbind outcome_bind]. rewrite (entry_at_ok _ _ _ Hn). cbn [mbind outcome_bind]. rewrite Est. cbn [orb].
    change (bool_decide (ETHARP_STATE_PENDING = ETHARP_STATE_EMPTY)) with false. cbn iota. rewrite (proj2 (Z.eqb_neq p NULL)) by done. cbn [orb mbind outcome_bind].
    rewrite (entry_at_ok _ _ _ Hn). cbn [mbind outcome_bind]. rewrite Est. cbn [is_stable]. change (bool_decide (ETHARP_STATE_PENDING = ETHARP_STATE_PENDING)) with true. cbn iota.
    destruct (queue_spec s B ext W n e p C HI Hn Est Hpk He) as (r & s' & B' & W' & Eq & HI' & Hlog & _ & Hqa). rewrite Eq. exists r, s', B', W', [].
    rewrite app_nil_r. do 3 (split; [done|]). left. by exists n, e.
  - set (s1 := set_entry _ _ empty_entry) in HI1. set (s0 := set_entry _ _ (fresh_entry a nif)) in *.
    assert (Hlt : (n < 10)%nat). { destruct Hch as [[(e & Hn & _) _]|(_ & _ & [(e & Hn & _)|[_ [(e & Hn & _)|[_ (e & Hn & _)]]]])]; apply lookup_lt_Some in Hn; by rewrite (ai_len _ _ _ _ HI) in Hn. }
    assert (Hlen : length (arp_table (with_aps s ps1)) = 10%nat) by apply HI.
    rewrite LWIP_ASSERT_ok by (apply Z.ltb_lt; unfold NETIF_ADDR_IDX_MAX; lia). cbn [mbind outcome_bind]. assert (Hat : entry_at s0 (Z.of_nat n) = Ret (fresh_entry a nif)) by (apply entry_at_set; lia). rewrite Hat. cbn [mbind outcome_bind fresh_entry e_state e_q e_ipaddr e_ethaddr e_ctime].
    change (bool_decide (ETHARP_STATE_EMPTY = ETHARP_STATE_EMPTY)) with true. cbn iota. cbn [orb]. assert (Hset : forall e, set_entry s0 (Z.of_nat n) e = set_entry (with_aps s ps1) (Z.of_nat n) e) by (intros e; apply set_entry_twice). rewrite Hset. fold (pending_entry a nif). set (s2 := set_entry _ _ (pending_entry a nif)).
    assert (HT1 : arp_table s1 = <[n := empty_entry]> (arp_table s)) by (unfold s1, set_entry; cbn [arp_table with_table with_aps]; by rewrite Nat2Z.id).
    assert (HI2 : arp_inv s2 B1 ext (<[n := None]> W)).
    { unfold s2. rewrite <- (set_entry_twice _ _ empty_entry). apply (inv_new_entry s1 B1 ext W n _ a nif HI1); try done; [rewrite HT1; apply list_lookup_insert_eq; by rewrite (ai_len _ _ _ _ HI)|].
      rewrite HT1. by apply no_entry_insert. }
    assert (Hpk2 : out_packet (a_ps s2) B1 ext p C).
    { pose proof (keeps_refs s s1 B B1 ext W _ HI HI1 Ho Hd ltac:(intros q Hq; rewrite HT1; by apply queued_empty)) as Hk. apply (out_refs (a_ps s) ps1 B B1 ext _ p C (inv_not_null _ _ _ (ai_pbuf _ _ _ _ HI)) (ai_pbuf _ _ _ _ HI1) Ho Hd HB); [intros x; lia| |done].
      intros b Hb Hr. by destruct (Hk p b Hb He Hr). }
    destruct (arp_request_spec s2 B1 ext _ nif a ethbroadcast HI2 Hhw ltac:(done)) as (r1 & ps3 & out & Eq & Hout & HI3 & Hp3 & Hd3). unfold etharp_request. rewrite Eq. cbn [mbind outcome_bind].
    rewrite (proj2 (Z.eqb_neq p NULL)) by done. set (s3 := with_alog _ _) in *. assert (Hn3 : arp_table s3 !! n = Some (pending_entry a nif)) by (cbn; rewrite Nat2Z.id; apply list_lookup_insert_eq; by rewrite (ai_len _ _ _ _ HI)).
    rewrite (entry_at_ok _ _ _ Hn3). cbn [mbind outcome_bind pending_entry e_state is_stable]. change (bool_decide (ETHARP_STATE_PENDING = ETHARP_STATE_PENDING)) with true. cbn iota.
    destruct (queue_spec s3 B1 ext _ n (pending_entry a nif) p C HI3 Hn3 eq_refl ltac:(by apply (out_blocks (a_ps s2))) He) as (r & s' & B' & W' & Eqq & HI' & Hlog & _ & Hqa). rewrite Eqq.
    exists r, s', B', W', out. split; [done|]. split; [done|]. split; [by rewrite Hlog|]. right. split; [done|]. exists n, s0, s3. split; [done|]. split; [destruct Hch as [Hch|(_ & H1 & H2)]; [by left|right; by split]|].
    split; [unfold s3, s2, set_entry; cbn [arp_table with_table with_aps with_alog]; by rewrite Nat2Z.id|]. split; [done|]. destruct Hout as [[_ ->]|(_ & -> & Hfull)]; [by left|by right].
Qed.

(** ** Lemmas: output *)

Lemma stable_loop_spec T i a nif :
  match stable_loop T i a nif with
  | Some j => exists n e, j = i + Z.of_nat n /\ T !! n = Some e /\ resolved a nif e = true
  | None => no_entry (resolved a nif) T
  end.
Proof.
  revert i. induction T as [|e T IH]; intros i; cbn [stable_loop]; [constructor|]. fold (resolved a nif e). destruct (resolved a nif e) eqn:Er; [by exists 0%nat, e; rewrite Z.add_0_r|].
  specialize (IH (i + 1)). destruct (stable_loop T (i + 1) a nif); [|by constructor]. destruct IH as (n & x & -> & Hn & Hx). exists (S n), x. split; [lia|done].
Qed.

(** Where the packet for [ip] goes on the link: to a hardware address, to the host [a], nowhere. *)
Inductive link_dest := ToLink (mac : list Z) | ToHost (a : Z) | NoRoute.

Definition link_dest_of (nif : netif) (ip : Z) : link_dest :=
  if ip4_addr_isbroadcast_u32 ip nif then ToLink ethbroadcast
  else if ip4_addr_ismulticast ip then ToLink (mcastaddr ip)
  else if ip4_addr_netcmp ip (netif_ip4_addr nif) (netif_ip4_netmask nif) || ip4_addr_islinklocal ip then ToHost ip
  else if ip4_addr_isany_val (netif_ip4_gw nif) then NoRoute else ToHost (netif_ip4_gw nif).

(** The packet [C] goes to the host [a]: to its hardware address, which may be asked for again, or it waits. *)
Definition to_host (s s' : arp) (a : Z) (nif : netif) (W W' : list (option (list Z))) (C : list Z) (r : err_t) (out : list (Z * list Z)) : Prop :=
  (exists n e e' out1, let F := eth_frame (e_ethaddr e) (netif_hwaddr nif) ETHTYPE_IP C in
     arp_table s !! n = Some e /\ resolved a nif e = true /\ refreshed s nif e e' out1
     /\ r = linkoutput (a_log s ++ out1) nif F /\ out = out1 ++ [(netif_num nif, F)] /\ arp_table s' = <[n := e']> (arp_table s) /\ W' = W)
  \/ no_entry (resolved a nif) (arp_table s)
     /\ if unusable a nif then r = ERR_ARG /\ out = [] /\ arp_table s' = arp_table s /\ W' = W else waits_for s s' a nif W W' C r out.

Lemma unicast_spec s B ext W nif a p C :
  arp_inv s B ext W -> out_packet (a_ps s) B ext p C -> p <> NULL -> (0 < ext p)%nat -> is_mac (netif_hwaddr nif) ->
  exists r s' B' W' out, output_unicast linkoutput s nif p a = Ret (r, s') /\ arp_inv s' B' ext W' /\ a_log s' = a_log s ++ out /\ to_host s s' a nif W W' C r out.
Proof.
  intros HI Hpk Hp He Hhw. unfold output_unicast.
  assert (Hstable : forall n e s1, arp_inv s1 B ext W -> a_ps s1 = a_ps s -> a_log s1 = a_log s -> arp_table s1 = arp_table s -> arp_table s !! n = Some e -> resolved a nif e = true ->
    exists r s' B' W' out, etharp_output_to_arp_index s1 nif p (Z.of_nat n) = Ret (r, s') /\ arp_inv s' B' ext W' /\ a_log s' = a_log s ++ out /\ to_host s s' a nif W W' C r out).
  { intros n e s1 HI1 Eps Elog ET Hn Hr. destruct (index_spec s1 B ext W nif p C n e HI1) as (s' & e' & out & E & HI' & Hrf & HT' & Hlog & _); try done; [by rewrite ET| |by rewrite Eps|].
    { unfold resolved in Hr. apply andb_true_iff in Hr as [Hr _]. by apply andb_true_iff in Hr as [Hr _]. }
    rewrite E. eexists _, s', B, W, _. split; [reflexivity|]. split; [done|]. rewrite Hlog, Elog. split; [reflexivity|]. left. exists n, e, e', out. do 2 (split; [done|]).
    split; [unfold refreshed in *; by rewrite <- Eps|]. split; [done|]. split; [done|]. by rewrite HT', ET. }
  pose proof (ai_cached _ _ _ _ HI) as Hcache. destruct (inv_entry_at s B ext W (Z.to_nat (etharp_cached_entry s)) HI) as (e & w & Hn & _); [unfold ARP_TABLE_SIZE in Hcache; lia|].
  assert (Ec : etharp_cached_entry s = Z.of_nat (Z.to_nat (etharp_cached_entry s))) by lia. assert (Hat : entry_at s (etharp_cached_entry s) = Ret e) by (rewrite Ec; by apply entry_at_ok). rewrite Hat. cbn [mbind outcome_bind]. fold (resolved a nif e). destruct (resolved a nif e) eqn:Er.
  - rewrite Ec. by apply (Hstable _ e s).
  - pose proof (stable_loop_spec (arp_table s) 0 a nif) as Hl. destruct (stable_loop _ _ _ _) as [j|].
    + destruct Hl as (n & e1 & -> & Hn1 & Hr1). cbn [Z.add]. pose proof (lookup_lt_Some _ _ _ Hn1) as Hlt. rewrite (ai_len _ _ _ _ HI) in Hlt. apply (Hstable n e1); try done.
      apply inv_hint; [done|]. unfold ARP_TABLE_SIZE. lia.
    + destruct (unusable a nif) eqn:Eu.
      * exists ERR_ARG, s, B, W, []. rewrite app_nil_r. split; [|split; [done|split; [done|right; split; [done|rewrite Eu; by split_and!]]]].
        unfold etharp_query. unfold unusable in Eu. by replace (ip4_addr_isbroadcast_u32 a nif || ip4_addr_ismulticast a || ip4_addr_isany_val a) with true by (by destruct (ip4_addr_isany_val a), (ip4_addr_isbroadcast_u32 a nif), (ip4_addr_ismulticast a)).
      * destruct (query_spec s B ext W nif a p C HI Eu Hl Hpk Hp He Hhw) as (r & s' & B' & W' & out & E & HI' & Hlog & Hw). exists r, s', B', W', out. do 3 (split; [done|]). right. split; [done|]. by rewrite Eu.
Qed.

Lemma output_spec s B ext W nif ip p C :
  arp_inv s B ext W -> out_packet (a_ps s) B ext p C -> p <> NULL -> (0 < ext p)%nat -> is_mac (netif_hwaddr nif) ->
  exists r s' B' W' out, etharp_output s nif p ip = Ret (r, s') /\ arp_inv s' B' ext W' /\ a_log s' = a_log s ++ out
    /\ match link_dest_of nif ip with
       | ToLink mac => let F := eth_frame mac (netif_hwaddr nif) ETHTYPE_IP C in
           out = [(netif_num nif, F)] /\ r = linkoutput (a_log s) nif F /\ arp_table s' = arp_table s /\ W' = W
       | NoRoute => out = [] /\ r = ERR_RTE /\ arp_table s' = arp_table s /\ W' = W
       | ToHost a => to_host s s' a nif W W' C r out
       end.
Proof.
  intros HI Hpk Hp He Hhw. unfold etharp_output, link_dest_of. rewrite LWIP_ASSERT_ok by (by apply negb_true_iff, Z.eqb_neq). cbn [mbind outcome_bind]. cbv zeta.
  destruct (ip4_addr_isbroadcast_u32 ip nif).
  { destruct (out_send s B ext W nif p C ethbroadcast HI Hpk He Hhw ltac:(done)) as (ps' & E & HI'). rewrite E. eexists _, _, B, W, _. split; [reflexivity|]. by split_and!. }
  destruct (ip4_addr_ismulticast ip).
  { destruct (out_send s B ext W nif p C (mcastaddr ip) HI Hpk He Hhw ltac:(done)) as (ps' & E & HI'). rewrite E. eexists _, _, B, W, _. split; [reflexivity|]. by split_and!. }
  rewrite <- negb_orb. destruct (_ || ip4_addr_islinklocal ip); cbn [negb]; [by apply (unicast_spec s B)|]. destruct (ip4_addr_isany_val (netif_ip4_gw nif)); cbn [negb]; [|by apply (unicast_spec s B)].
  exists ERR_RTE, s, B, W, []. rewrite app_nil_r. by split_and!.
Qed.
End Spec.
