(* ===== verification/EtharpCorrect.v ===== *)
(** * ARP and Ethernet: theorems (src/lwip/src/core/ipv4/etharp.c, src/lwip/src/netif/ethernet.c)

    The timer, the frames that come in, and the properties of the module, with their
    witnesses. *)

From S2P Require Import Prelude Def ListSeg InetChksum Ip4Addr Mem Memp Pbuf PbufMem PbufRef PbufChain PbufData Header Ip4 Icmp IcmpSpec Udp UdpInput Ip4Input Etharp EtharpTable EtharpSpec.

#[local] Open Scope Z_scope.
#[local] Coercion Z.of_nat : nat >-> Z.

(** ** One second later *)

Definition expires (e : etharp_entry) : bool :=
  negb (c_empty e) && ((ARP_MAXAGE <=? e_ctime e + 1) || (bool_decide (e_state e = ETHARP_STATE_PENDING) && (ARP_MAXPENDING <=? e_ctime e + 1))).

Definition next_state (st : etharp_state) : etharp_state :=
  match st with
  | ETHARP_STATE_STABLE_REREQUESTING_1 => ETHARP_STATE_STABLE_REREQUESTING_2
  | ETHARP_STATE_STABLE_REREQUESTING_2 => ETHARP_STATE_STABLE
  | st => st
  end.

Definition tick (e : etharp_entry) : etharp_entry :=
  if c_empty e then e else if expires e then empty_entry else with_estate (with_ctime e (e_ctime e + 1)) (next_state (e_state e)).

Section Correct.
Context `{MO : MemOptions} {MOk : MemOptionsOk} `{PO : PbufOptions} {POk : PbufOptionsOk} {St : Type} `{!PacketMemory St}.
Context (linkoutput : list (Z * list Z) -> netif -> list Z -> err_t) (link_room : 14 <= PBUF_LINK).
Abbreviation arp := (arp (St := St)).
Abbreviation pst := (pstate (St := St)).
Abbreviation tmr_entry := (tmr_entry linkoutput).
Implicit Types s : arp.

(** A pending entry asks again. *)
Definition asks_again (ns : netifs) (s : arp) (e : etharp_entry) (out : list (Z * list Z)) : Prop :=
  if bool_decide (e_state e = ETHARP_STATE_PENDING) && negb (expires e) then
    exists nif, netif_at ns (e_netif e) = Ret nif
      /\ (out = [(netif_num nif, arp_request_frame nif ethbroadcast (e_ipaddr e))] \/ out = [] /\ heap_full (a_ps s) PBUF_LINK 28)
  else out = [].

(** Every entry that asks has its interface. *)
Definition netifs_there (ns : netifs) (T : list etharp_entry) : Prop :=
  Forall (λ e, e_state e = ETHARP_STATE_PENDING -> exists nif, netif_at ns (e_netif e) = Ret nif /\ is_mac (netif_hwaddr nif)) T.

Lemma tmr_entry_spec ns s B ext W n e :
  arp_inv s B ext W -> arp_table s !! n = Some e -> c_empty e = false ->
  (e_state e = ETHARP_STATE_PENDING -> exists nif, netif_at ns (e_netif e) = Ret nif /\ is_mac (netif_hwaddr nif)) ->
  exists s' B' out, tmr_entry ns s (Z.of_nat n) e = Ret s' /\ arp_inv s' B' ext (if expires e then <[n := None]> W else W)
    /\ arp_table s' = <[n := tick e]> (arp_table s) /\ a_log s' = a_log s ++ out /\ asks_again ns s e out.
Proof.
  intros HI Hn Hne Hnif. pose proof (Forall_lookup_1 _ _ _ _ (ai_entries _ _ _ _ HI) Hn) as Hok. pose proof (lookup_lt_Some _ _ _ Hn) as Hlt.
  assert (Hage : 0 <= e_ctime e < 300). { unfold entry_ok, ARP_MAXAGE, ARP_MAXPENDING, c_empty in *. destruct (e_state e); [done|lia..]. }
  unfold tmr_entry, asks_again, tick. rewrite Hne, u16_small by lia. set (e1 := with_ctime e (e_ctime e + 1)). set (s1 := set_entry s (Z.of_nat n) e1).
  assert (HT1 : arp_table s1 = <[n := e1]> (arp_table s)) by (unfold s1, set_entry; cbn [arp_table with_table]; by rewrite Nat2Z.id).
  replace ((ARP_MAXAGE <=? e_ctime e1) || (bool_decide (e_state e1 = ETHARP_STATE_PENDING) && (ARP_MAXPENDING <=? e_ctime e1))) with (expires e) by (unfold expires; by rewrite Hne).
  destruct (expires e) eqn:Ex.
  - (* expired: the age of the entry does not matter when it is freed *)
    destruct (free_entry_spec s B ext W n e HI Hn) as (ps' & B' & E & HI' & _). exists (set_entry (with_aps s ps') (Z.of_nat n) empty_entry), B', [].
    split; [|split; [exact HI'|]].
    + unfold etharp_free_entry in *. unfold s1. rewrite entry_at_set by done. rewrite (entry_at_ok _ _ _ Hn) in E. cbn [mbind outcome_bind] in E |- *. change (e_q e1) with (e_q e).
      destruct (negb (e_q e =? NULL)); [|cbn [mbind outcome_bind] in E |- *; rewrite set_entry_twice; exact E].
      unfold arp_free in *. change (a_ps (set_entry s (Z.of_nat n) e1)) with (a_ps s). destruct (pbuf_free (a_ps s) (e_q e)) as [[c x]|]; [|done]. cbn [mbind outcome_bind] in E |- *.
      change (with_aps (set_entry s (Z.of_nat n) e1) x) with (set_entry (with_aps s x) (Z.of_nat n) e1). by rewrite set_entry_twice.
    + split; [unfold set_entry; cbn [arp_table with_table with_aps]; by rewrite Nat2Z.id|]. split; [by rewrite app_nil_r|]. by rewrite andb_false_r.
  - assert (Hinv : forall st, c_empty (with_estate e1 st) = false -> entry_ok (with_estate e1 st) -> arp_inv (set_entry s (Z.of_nat n) (with_estate e1 st)) B ext W).
    { intros st _ Hok'. by apply (inv_restate s B ext W n e). }
    assert (Hset : forall st, arp_table (set_entry s (Z.of_nat n) (with_estate e1 st)) = <[n := with_estate e1 st]> (arp_table s)) by (intros st; unfold set_entry; cbn [arp_table with_table]; by rewrite Nat2Z.id).
    unfold expires in Ex. rewrite Hne in Ex. cbn [negb andb] in Ex. apply orb_false_iff in Ex as [Ex1 Ex2]. bool_to_prop. rewrite andb_true_r. unfold s1. rewrite !set_entry_twice.
    change (e_state e1) with (e_state e) in *. replace e1 with (with_estate e1 (e_state e)) by (by destruct e). unfold entry_ok in Hok. unfold c_empty in Hne.
    destruct (e_state e) eqn:Est; try done; cbn [next_state]; repeat first [rewrite bool_decide_eq_false_2 by done | rewrite bool_decide_eq_true_2 by done].
    + rewrite bool_decide_eq_true_2 in Ex2 by done. bool_to_prop. destruct (Hnif eq_refl) as (nif & Hat & Hhw). change (e_netif (with_estate e1 ETHARP_STATE_PENDING)) with (e_netif e). rewrite Hat. cbn [mbind outcome_bind].
      assert (HI1 : arp_inv (set_entry s (Z.of_nat n) (with_estate e1 ETHARP_STATE_PENDING)) B ext W) by (apply Hinv; [done|]; cbn; split; [unfold ARP_MAXPENDING in *; lia|apply Hok]).
      destruct (arp_request_spec linkoutput link_room _ B ext W nif (e_ipaddr e) ethbroadcast HI1 Hhw ltac:(done)) as (r & ps' & out & E & Hout & HI' & _).
      unfold etharp_request. change (e_ipaddr (with_estate e1 ETHARP_STATE_PENDING)) with (e_ipaddr e). rewrite E. cbn [mbind outcome_bind]. eexists _, B, out. split; [reflexivity|]. split; [exact HI'|].
      split; [apply Hset|]. split; [done|]. exists nif. split; [done|]. destruct Hout as [[_ ->]|(_ & -> & Hfull)]; [by left|by right].
    + eexists _, B, []. split; [reflexivity|]. split; [apply Hinv; [done|]; cbn; unfold ARP_MAXAGE in *; split; [lia|apply Hok]|]. split; [apply Hset|]. split; [by rewrite app_nil_r|done].
    + eexists _, B, []. split; [reflexivity|]. split; [apply Hinv; [done|]; cbn; unfold ARP_MAXAGE in *; split; [lia|apply Hok]|]. split; [apply Hset|]. split; [by rewrite app_nil_r|done].
    + eexists _, B, []. split; [reflexivity|]. split; [apply Hinv; [done|]; cbn; unfold ARP_MAXAGE in *; split; [lia|apply Hok]|]. split; [apply Hset|]. split; [by rewrite app_nil_r|done].
Qed.

(** The run of the timer over the entries [l] from number [i] on. *)
Inductive tmr_run (ns : netifs) : nat -> list etharp_entry -> arp -> list (Z * list Z) -> arp -> Prop :=
| run_nil i s : tmr_run ns i [] s [] s
| run_cons i e l s s1 s2 o out :
    (if c_empty e then s1 = s /\ o = [] else tmr_entry ns s (Z.of_nat i) e = Ret s1 /\ asks_again ns s e o) ->
    tmr_run ns (S i) l s1 out s2 -> tmr_run ns i (e :: l) s (o ++ out) s2.

Definition drop_expired (e : etharp_entry) (w : option (list Z)) : option (list Z) := if expires e then None else w.

Lemma arp_tmr_loop_spec ns l s B ext W1 W2 T1 :
  arp_inv s B ext (W1 ++ W2) -> arp_table s = T1 ++ l -> length W1 = length T1 -> netifs_there ns l ->
  exists s' B' out, arp_tmr_loop linkoutput (length l) ns (Z.of_nat (length T1)) s = Ret s' /\ tmr_run ns (length T1) l s out s'
    /\ arp_inv s' B' ext (W1 ++ zip_with drop_expired l W2) /\ arp_table s' = T1 ++ (tick <$> l) /\ a_log s' = a_log s ++ out.
Proof.
  revert s B W1 W2 T1. induction l as [|e l IH]; intros s B W1 W2 T1 HI HT HW Hns.
  { exists s, B, []. pose proof (Forall2_length _ _ _ (ai_wait _ _ _ _ HI)) as Hl. rewrite HT, !length_app in Hl. cbn in Hl. destruct W2; [|cbn in Hl; lia].
    split; [done|]. split; [constructor|]. split; [done|]. split; [done|]. by rewrite app_nil_r. }
  pose proof (Forall2_length _ _ _ (ai_wait _ _ _ _ HI)) as Hl. rewrite HT, !length_app in Hl. cbn in Hl. destruct W2 as [|w W2]; [cbn in Hl; lia|].
  apply Forall_cons in Hns as [Hnif Hns]. assert (Hn : arp_table s !! length T1 = Some e) by (rewrite HT; by apply list_lookup_middle).
  cbn [length arp_tmr_loop]. rewrite (entry_at_ok _ _ _ Hn). cbn [mbind outcome_bind].
  assert (Hstep : exists s1 B1 o, (if negb (bool_decide (e_state e = ETHARP_STATE_EMPTY)) then tmr_entry ns s (Z.of_nat (length T1)) e else Ret s) = Ret s1
    /\ (if c_empty e then s1 = s /\ o = [] else tmr_entry ns s (Z.of_nat (length T1)) e = Ret s1 /\ asks_again ns s e o)
    /\ arp_inv s1 B1 ext ((W1 ++ [drop_expired e w]) ++ W2) /\ arp_table s1 = (T1 ++ [tick e]) ++ l /\ a_log s1 = a_log s ++ o).
  { fold (c_empty e). destruct (c_empty e) eqn:Ee; cbn [negb].
    - exists s, B, []. do 2 (split; [done|]). rewrite app_nil_r, <- !(assoc_L app). unfold tick, drop_expired, expires. rewrite Ee. by split_and!.
    - destruct (tmr_entry_spec ns s B ext _ (length T1) e HI Hn Ee Hnif) as (s1 & B1 & o & E & HI1 & HT1 & Hlog & Hasks). exists s1, B1, o. split; [done|]. split; [done|].
      split; [|split; [rewrite HT1, HT, insert_app_r_alt, Nat.sub_diag, <- (assoc_L app) by done; done|done]].
      replace ((W1 ++ [drop_expired e w]) ++ W2) with (if expires e then <[length T1 := None]> (W1 ++ w :: W2) else W1 ++ w :: W2); [done|].
      unfold drop_expired. rewrite <- (assoc_L app). destruct (expires e); [|done]. rewrite <- HW, insert_app_r_alt, Nat.sub_diag by done. done. }
  destruct Hstep as (s1 & B1 & o & E1 & Hrun & HI1 & HT1 & Hlog1). rewrite E1. cbn [mbind outcome_bind].
  destruct (IH s1 B1 (W1 ++ [drop_expired e w]) W2 (T1 ++ [tick e]) HI1 HT1 ltac:(rewrite !length_app; cbn; lia) Hns) as (s' & B' & out & E & Hruns & HI' & HT' & Hlog').
  rewrite length_app in E, Hruns. cbn [length] in E, Hruns. replace (length T1 + 1)%nat with (S (length T1)) in E, Hruns by lia. replace (Z.of_nat (length T1) + 1) with (Z.of_nat (S (length T1))) by lia.
  rewrite E. exists s', B', (o ++ out). split; [done|]. split; [by econstructor|]. cbn [zip_with]. rewrite <- (assoc_L app) in HI'. rewrite <- (assoc_L app) in HT'. split; [exact HI'|]. split; [exact HT'|]. by rewrite Hlog', Hlog1, (assoc_L app).
Qed.

(** ** Taking an interface away *)

Definition of_netif (nif : netif) (e : etharp_entry) : bool := negb (c_empty e) && bool_decide (e_netif e = Some (netif_num nif)).

Lemma cleanup_loop_spec nif l s B ext W1 W2 T1 :
  arp_inv s B ext (W1 ++ W2) -> arp_table s = T1 ++ l -> length W1 = length T1 ->
  exists s' B', cleanup_loop (length l) (Z.of_nat (length T1)) s nif = Ret s'
    /\ arp_inv s' B' ext (W1 ++ zip_with (λ e w, if of_netif nif e then None else w) l W2)
    /\ arp_table s' = T1 ++ ((λ e, if of_netif nif e then empty_entry else e) <$> l) /\ a_log s' = a_log s.
Proof.
  revert s B W1 W2 T1. induction l as [|e l IH]; intros s B W1 W2 T1 HI HT HW; pose proof (Forall2_length _ _ _ (ai_wait _ _ _ _ HI)) as Hl; rewrite HT, !length_app in Hl; cbn in Hl.
  { exists s, B. destruct W2; [|cbn in Hl; lia]. by split_and!. }
  destruct W2 as [|w W2]; [cbn in Hl; lia|]. assert (Hn : arp_table s !! length T1 = Some e) by (rewrite HT; by apply list_lookup_middle).
  cbn [length cleanup_loop]. rewrite (entry_at_ok _ _ _ Hn). cbn [mbind outcome_bind]. fold (c_empty e) (of_netif nif e).
  assert (Hstep : exists s1 B1, (if of_netif nif e then etharp_free_entry s (Z.of_nat (length T1)) else Ret s) = Ret s1
    /\ arp_inv s1 B1 ext ((W1 ++ [if of_netif nif e then None else w]) ++ W2) /\ arp_table s1 = (T1 ++ [if of_netif nif e then empty_entry else e]) ++ l /\ a_log s1 = a_log s).
  { rewrite <- !(assoc_L app). destruct (of_netif nif e); [|by exists s, B]. destruct (free_entry_spec s B ext _ (length T1) e HI Hn) as (ps' & B' & E & HI' & _). eexists _, B'. split; [exact E|].
    rewrite <- HW in HI' at 2. rewrite insert_app_r_alt, Nat.sub_diag in HI' by done. split; [exact HI'|]. split; [|done]. unfold set_entry. cbn [arp_table with_table with_aps]. rewrite Nat2Z.id, HT, insert_app_r_alt, Nat.sub_diag by done. done. }
  destruct Hstep as (s1 & B1 & E1 & HI1 & HT1 & Hlog1). rewrite E1. cbn [mbind outcome_bind].
  destruct (IH s1 B1 _ W2 _ HI1 HT1 ltac:(rewrite !length_app; cbn; lia)) as (s' & B' & E & HI' & HT' & Hlog'). rewrite length_app in E. cbn [length] in E.
  replace (Z.of_nat (length T1 + 1)) with (Z.of_nat (length T1) + 1) in E by lia. rewrite E. exists s', B'. split; [done|]. cbn [zip_with]. rewrite <- (assoc_L app) in HI'. rewrite <- (assoc_L app) in HT'. split; [exact HI'|]. split; [exact HT'|congruence].
Qed.

(** ** Frames that come in *)

Inductive eth_verdict := EDrop | EIp | EArp.

Definition eth_verdict_of (nif : netif) (len : Z) (F : list Z) : eth_verdict :=
  if (len <=? SIZEOF_ETH_HDR) || (Z.land (netif_flags nif) NETIF_FLAG_ETHARP =? 0) then EDrop
  else if be16 (drop 12 F) =? ETHTYPE_IP then EIp
  else if be16 (drop 12 F) =? ETHTYPE_ARP then EArp else EDrop.

Lemma waiting_other (ps : pst) B ext p b b' q C :
  pbuf_inv ps B ext -> pbufs ps !! p = Some b -> p_next b' = p_next b -> preds (pbufs ps) p = 0%nat -> p <> q -> waiting ps q C -> waiting (set_pbuf ps p b') q C.
Proof.
  intros HI Hb Hnx Hp0 Hne Hw. apply (waiting_frame ps _ B ext q C HI Hw).
  - cbn. rewrite (preds_insert_same _ _ b) by done. by destruct Hw as (? & ? & _ & _ & _ & _ & ? & _).
  - intros a c l' Hc' Hin. cbn. rewrite lookup_insert_ne; [by eapply seg_lookup; [apply Hc'|]|]. intros <-. destruct l' as [|[x y] l']; [by apply not_elem_of_nil in Hin|].
    pose proof (chain_cons _ _ _ _ _ Hc') as (-> & Hx & Hc'' & _). pose proof (preds_zero _ _ Hp0) as Hz. destruct (seg_unreferenced _ _ _ _ p (proj1 Hc'') Hz (Hz _ _ Hx)) as [Hnn _].
    apply elem_of_cons in Hin as [[= -> ->]|Hin]; [done|]. apply Hnn, list_elem_of_fmap. by exists (p, c).
  - done.
Qed.

(** The first pbuf of a packet that is not in the table changes. *)
Lemma inv_head s B ext W p b b' :
  arp_inv s B ext W -> pbufs (a_ps s) !! p = Some b -> p_next b' = p_next b -> preds (pbufs (a_ps s)) p = 0%nat -> queued (arp_table s) p = 0%nat ->
  pbuf_inv (set_pbuf (a_ps s) p b') B (λ a, (ext a + queued (arp_table s) a)%nat) -> arp_inv (with_aps s (set_pbuf (a_ps s) p b')) B ext W.
Proof.
  intros HI Hb Hnx Hp0 Hq0 HI'. apply (inv_packets s B ext W _ B ext (a_log s) HI HI'). intros q C Hq Hqq Hw. apply (waiting_other _ B _ p b b' q C (ai_pbuf _ _ _ _ HI)); try done.
  intros ->. lia.
Qed.

Lemma ll_flags_custom dest f : (Z.land (ll_flags dest f) PBUF_FLAG_IS_CUSTOM =? 0) = (Z.land f PBUF_FLAG_IS_CUSTOM =? 0).
Proof.
  assert (H : forall x, Z.land x PBUF_FLAG_IS_CUSTOM = 0 -> Z.land (Z.lor f x) PBUF_FLAG_IS_CUSTOM = Z.land f PBUF_FLAG_IS_CUSTOM) by (intros x Hx; by rewrite Z.land_lor_distr_l, Hx, Z.lor_0_r).
  unfold ll_flags. repeat case_match; try done; by rewrite H.
Qed.

Context (ip4_input : arp -> Z -> netif -> outcome arp).
Abbreviation ethernet_input := (ethernet_input linkoutput ip4_input).
Abbreviation etharp_input := (etharp_input linkoutput).

(** The packet behind the Ethernet header, as the upper layer gets it. *)
Record entered (s s1 : arp) (B : gmap Z block) (ext : Z -> nat) (W : list (option (list Z))) (p : Z) (b b1 : pbuf) (l : list (Z * pbuf)) (F : list Z) : Prop := Entered {
  en_inv : arp_inv s1 B (ext_add ext p) W;
  en_chain : chain (a_ps s1) p ((p, b1) :: l);
  en_bytes : contents (a_mem s1) ((p, b1) :: l) = drop 14 F;
  en_ref : p_ref b1 = 1;
  en_payload : p_payload b1 = p_payload b + 14 /\ p_len b1 = p_len b - 14 /\ is_contiguous b1 = is_contiguous b /\ is_custom b1 = is_custom b;
  en_flags : p_flags b1 = ll_flags (take 6 F) (p_flags b);
  en_rest : arp_table s1 = arp_table s /\ a_log s1 = a_log s /\ etharp_cached_entry s1 = etharp_cached_entry s
}.

Lemma input_drop s B ext W p : arp_inv s B (ext_add ext p) W -> p <> NULL ->
  exists s' B', (s0 ← arp_free s p; Ret (ERR_OK, s0)) = Ret (ERR_OK, s') /\ arp_inv s' B' ext W /\ arp_table s' = arp_table s /\ a_log s' = a_log s.
Proof. intros HI Hp. destruct (arp_free_spec s B ext W p HI Hp) as (ps' & B' & E & HI' & _). rewrite E. by exists (with_aps s ps'), B'. Qed.

Lemma eth_fields m a (F : list Z) : read_bytes m a 14 = take 14 F -> Forall is_u8 (take 14 F) ->
  eth_dest m a = take 6 F /\ (eth_type m a =? PP_HTONS ETHTYPE_IP) = (be16 (drop 12 F) =? ETHTYPE_IP) /\ (eth_type m a =? PP_HTONS ETHTYPE_ARP) = (be16 (drop 12 F) =? ETHTYPE_ARP).
Proof.
  intros HF H8. assert (HL : length (take 14 F) = 14%nat) by (rewrite <- HF; apply read_bytes_length). unfold eth_dest, eth_type. rewrite (load_at m a 12 2 14) by lia.
  replace (read_bytes m a 6) with (take 6 (read_bytes m a 14)) by (symmetry; rewrite <- (Z.add_0_r a) at 1; apply (read_part m a 0 6 14); lia). rewrite HF.
  rewrite <- (take_drop 14 F). generalize dependent (take 14 F). generalize (drop 14 F). intros R h _ H8 HL. explode 14 h HL. do 12 (apply Forall_cons in H8 as [_ H8]). apply Forall_cons in H8 as [? H8]. apply Forall_cons in H8 as [? _].
  change (PP_HTONS ETHTYPE_IP) with 8. change (PP_HTONS ETHTYPE_ARP) with 0x608. unfold ETHTYPE_IP, ETHTYPE_ARP. lazy beta iota zeta delta [Z.to_nat Pos.to_nat Pos.iter_op Nat.add drop take le_val be16 app]. unfold_c.
  split; [done|]. split; apply eq_iff_eq_true; rewrite !Z.eqb_eq; lia.
Qed.

Lemma ethernet_input_spec s B ext W nif p b l F :
  arp_inv s B (ext_add ext p) W -> p <> NULL -> chain (a_ps s) p ((p, b) :: l) -> p_ref b = 1 -> contents (a_mem s) ((p, b) :: l) = F -> Forall is_u8 (take 14 F) ->
  match eth_verdict_of nif (p_len b) F with
  | EDrop => exists s' B', ethernet_input s p nif = Ret (ERR_OK, s') /\ arp_inv s' B' ext W /\ arp_table s' = arp_table s /\ a_log s' = a_log s
  | EIp => exists s1 b1, entered s s1 B ext W p b b1 l F /\ ethernet_input s p nif = (s' ← ip4_input s1 p nif; Ret (ERR_OK, s'))
  | EArp => exists s1 b1, entered s s1 B ext W p b b1 l F /\ ethernet_input s p nif = (s' ← etharp_input s1 p nif; Ret (ERR_OK, s'))
  end.
Proof.
  intros HI Hp Hc Hr HF H8. pose proof (chain_cons _ _ _ _ _ Hc) as (_ & Hb & _ & Hbl & _). unfold ethernet_input, eth_verdict_of. rewrite (deref_ok _ _ _ Hb). cbn [mbind outcome_bind]. cbv zeta.
  change SIZEOF_ETH_HDR with 14. destruct (p_len b <=? 14) eqn:El; bool_to_prop; cbn [orb]; [by apply (input_drop s B)|].
  assert (He : (0 < ext_add ext p p)%nat) by (unfold ext_add; rewrite decide_True by done; lia). destruct (ref_one s B _ W p b HI Hb He Hr) as (_ & Hp0 & Hq0).
  assert (E14 : read_bytes (a_mem s) (p_payload b) 14 = take 14 F).
  { rewrite <- HF, contents_cons. unfold node_bytes. cbn [snd]. replace (Z.to_nat (p_len b)) with (14 + (Z.to_nat (p_len b) - 14))%nat by lia. rewrite read_bytes_app, <- (assoc_L app).
    by rewrite take_app_le, take_ge by (rewrite read_bytes_length; lia). }
  destruct (eth_fields (a_mem s) (p_payload b) F E14 H8) as (Ed & Ei & Ea).
  set (b0 := if p_if_idx b =? NETIF_NO_INDEX then with_if_idx b (netif_get_index nif) else b).
  assert (H0 : p_payload b0 = p_payload b /\ p_len b0 = p_len b /\ p_tot_len b0 = p_tot_len b /\ p_next b0 = p_next b /\ p_ref b0 = p_ref b /\ p_flags b0 = p_flags b /\ p_type_internal b0 = p_type_internal b) by (unfold b0; case_match; by split_and!).
  destruct H0 as (D1 & D2 & D3 & D4 & D5 & D6 & D7). rewrite D1, D6, Ed, Ei, Ea. set (b1 := with_flags b0 (ll_flags (take 6 F) (p_flags b))). set (s1 := with_aps s (set_pbuf (a_ps s) p b1)).
  assert (Hcu : is_custom b1 = is_custom b) by (unfold is_custom; cbn; by rewrite ll_flags_custom). assert (Hcg : is_contiguous b1 = is_contiguous b) by (unfold is_contiguous; cbn; by rewrite D7).
  assert (HI1 : arp_inv s1 B (ext_add ext p) W).
  { apply (inv_head s B _ W p b b1 HI Hb); try done. apply (inv_update _ _ _ p b b1 (ai_pbuf _ _ _ _ HI) Hb); try done. intros k _ (K1 & K2 & K3 & K4).
    split; [|split; [|split]]; [|destruct k; cbn in *; lia|cbn; by rewrite D2|cbn; by rewrite D3]. unfold kind_ok, pbuf_get_allocsrc in *. cbn. rewrite D7. destruct k; rewrite ?Hcu, ?Hcg; exact K1. }
  assert (Hc1 : chain (a_ps s1) p ((p, b1) :: l)).
  { destruct Hc as [Hs Ht]. split; [|by cbn; rewrite D2, D3]. pose proof (seg_NoDup _ _ _ (inv_not_null _ _ _ (ai_pbuf _ _ _ _ HI)) Hs) as Hnd. cbn [fmap list_fmap fst] in Hnd. apply NoDup_cons in Hnd as [Hpl _].
    destruct Hs as (_ & _ & Hs). split; [done|]. split; [apply lookup_insert_eq|]. apply seg_insert; [|done]. change (p_next b1) with (p_next b0). by rewrite D4. }
  assert (Hgo : forall up : arp -> outcome arp,
    if Z.land (netif_flags nif) NETIF_FLAG_ETHARP =? 0 then True else
    exists s2 b2, entered s s2 B ext W p b b2 l F /\ ('(r, ps) ← pbuf_remove_header (a_ps s1) p 14; if negb (r =? 0) then s0 ← arp_free (with_aps s1 ps) p; Ret (ERR_OK, s0) else s' ← up (with_aps s1 ps); Ret (ERR_OK, s'))
      = (s' ← up s2; Ret (ERR_OK, s'))).
  { intros up. case_match; [done|]. destruct (remove_header_spec (a_ps s1) B _ p b1 l 14 (ai_pbuf _ _ _ _ HI1) Hc1 ltac:(cbn; lia)) as (E & Hc2 & HI2 & Hcont). set (b2 := with_tot_len _ _) in *.
    rewrite E. cbn [mbind outcome_bind negb Z.eqb]. exists (with_aps s1 (set_pbuf (a_ps s1) p b2)), b2. split; [|done]. split; try done.
    - apply (inv_head s1 B _ W p b1 b2 HI1); try done; [apply lookup_insert_eq|]. cbn. by rewrite (preds_insert_same _ _ b).
    - etrans; [exact Hcont|]. change (Z.to_nat 14) with 14%nat. f_equal. rewrite <- HF, !contents_cons. f_equal. unfold node_bytes. cbn. by rewrite D1, D2.
    - cbn. by rewrite D5.
    - cbn. by rewrite D1, D2. }
  destruct (Z.land (netif_flags nif) NETIF_FLAG_ETHARP =? 0).
  - destruct ((_ =? ETHTYPE_IP) || _); by apply (input_drop s1 B).
  - destruct (be16 (drop 12 F) =? ETHTYPE_IP); cbn [orb]; [exact (Hgo (λ x, ip4_input x p nif))|]. destruct (be16 (drop 12 F) =? ETHTYPE_ARP); [exact (Hgo (λ x, etharp_input x p nif))|]. by apply (input_drop s1 B).
Qed.

(** ** Properties *)

(** C13: etharp_find_entry returns the entry for the address and the interface when there is one and changes nothing.  Without one it makes no entry
    when it may only search, or when no entry is empty and it may not try hard; otherwise it gives the first empty entry, or else gives up the
    oldest stable one, or else the oldest pending one without a packet, or else the oldest pending one, whose packet it frees.  The new entry has the
    address, everything else is as before, and the invariant of the table is kept. *)
Theorem etharp_find_entry_correct s B ext W ip flags nif :
  arp_inv s B ext W ->
  let matching := λ e, entry_matches e ip nif in
  let find_only := negb (Z.land flags ETHARP_FLAG_FIND_ONLY =? 0) in
  let try_hard := negb (Z.land flags ETHARP_FLAG_TRY_HARD =? 0) in
  (exists n, etharp_find_entry s ip flags nif = Ret (Some (Z.of_nat n), s) /\ first_entry matching (arp_table s) n)
  \/ no_entry matching (arp_table s)
     /\ (etharp_find_entry s ip flags nif = Ret (None, s) /\ (find_only = true \/ no_entry c_empty (arp_table s) /\ try_hard = false)
         \/ exists n ps1 B1, let s1 := set_entry (with_aps s ps1) (Z.of_nat n) empty_entry in
              etharp_find_entry s ip flags nif = Ret (Some (Z.of_nat n), set_entry (with_aps s ps1) (Z.of_nat n) (fresh_entry ip nif))
              /\ find_only = false /\ (first_entry c_empty (arp_table s) n \/ try_hard = true /\ no_entry c_empty (arp_table s) /\ victim (arp_table s) n)
              /\ arp_inv s1 B1 ext (<[n := None]> W) /\ B1 ⊆ B /\ data ps1 = a_mem s /\ only_refs (pbufs (a_ps s)) (pbufs ps1)).
Proof. apply find_entry_spec. Qed.

(** C11: etharp_output sends a packet for a broadcast address to the Ethernet broadcast address and one for a multicast address to its group address, without the
    table.  A packet for another address goes to the host itself when it is on the link, to the gateway otherwise, or fails with ERR_RTE without a
    gateway.  When the table has the host's hardware address the frame is sent there, after a new request in the last 30 seconds of the entry
    (by unicast, then by broadcast).  Otherwise the packet waits: on the entry that already asks for the address, in place of an older packet and without another request (the
    comment of etharp_query says that one is sent), or on a new entry, with a request broadcast unless the heap has no room for it.  It never reaches an
    assertion, and the table, the packets that wait and the reference counts stay consistent. *)
Theorem etharp_output_correct s B ext W nif ip p C :
  arp_inv s B ext W -> out_packet (a_ps s) B ext p C -> p <> NULL -> (0 < ext p)%nat -> is_mac (netif_hwaddr nif) ->
  exists r s' B' W' out, etharp_output linkoutput s nif p ip = Ret (r, s') /\ arp_inv s' B' ext W' /\ a_log s' = a_log s ++ out
    /\ match link_dest_of nif ip with
       | ToLink mac => let F := eth_frame mac (netif_hwaddr nif) ETHTYPE_IP C in
           out = [(netif_num nif, F)] /\ r = linkoutput (a_log s) nif F /\ arp_table s' = arp_table s /\ W' = W
       | NoRoute => out = [] /\ r = ERR_RTE /\ arp_table s' = arp_table s /\ W' = W
       | ToHost a => to_host linkoutput s s' a nif W W' C r out
       end.
Proof. apply output_spec, link_room. Qed.

(** C12: etharp_input drops a message that is not ARP for IPv4 over Ethernet.  From any other it learns the sender's address: an entry for the sender becomes
    stable with the new hardware address and age 0, and the packet that waited there is sent to it; without an entry one is made when the
    message asks for our address.  A request for our address is answered to the sender, unless the heap is full.  The message is freed, and the
    table, the packets that wait and the reference counts stay consistent. *)
Theorem etharp_input_correct s B ext W nif p h :
  arp_inv s B (ext_add ext p) W -> p <> NULL -> arp_packet (a_ps s) p h -> is_mac (netif_hwaddr nif) ->
  exists s' B' W' out, etharp_input s p nif = Ret s' /\ arp_inv s' B' ext W' /\ a_log s' = a_log s ++ out /\ etharp_cached_entry s' = etharp_cached_entry s
    /\ if ah_valid h then
         exists r s1 out1 out2, etharp_update_arp_entry linkoutput s nif (ah_sip h) (ah_shw h) (if asks_us h nif then ETHARP_FLAG_TRY_HARD else ETHARP_FLAG_FIND_ONLY) = Ret (r, s1)
           /\ out = out1 ++ out2 /\ learned (asks_us h nif) (arp_table s) W (ah_sip h) nif (ah_shw h) (arp_table s') W' out1
           /\ if asks_us h nif && (ah_opcode h =? ARP_REQUEST)
              then out2 = [(netif_num nif, arp_reply_frame nif h)] \/ out2 = [] /\ heap_full (a_ps s1) PBUF_LINK 28 else out2 = []
       else arp_table s' = arp_table s /\ W' = W /\ out = [].
Proof. apply etharp_input_spec, link_room. Qed.

(** C16: ethernet_input frees a frame that has no more than the Ethernet header, another type than IPv4 and ARP, or comes from an interface without ARP.
    An IPv4 packet goes to ip4_input and an ARP message to etharp_input, without the header, with the flag for a link-layer broadcast or
    multicast address, still held by one reference. *)
Theorem ethernet_input_correct s B ext W nif p b l F :
  arp_inv s B (ext_add ext p) W -> p <> NULL -> chain (a_ps s) p ((p, b) :: l) -> p_ref b = 1 -> contents (a_mem s) ((p, b) :: l) = F -> Forall is_u8 (take 14 F) ->
  match eth_verdict_of nif (p_len b) F with
  | EDrop => exists s' B', ethernet_input s p nif = Ret (ERR_OK, s') /\ arp_inv s' B' ext W /\ arp_table s' = arp_table s /\ a_log s' = a_log s
  | EIp => exists s1 b1, entered s s1 B ext W p b b1 l F /\ ethernet_input s p nif = (s' ← ip4_input s1 p nif; Ret (ERR_OK, s'))
  | EArp => exists s1 b1, entered s s1 B ext W p b b1 l F /\ ethernet_input s p nif = (s' ← etharp_input s1 p nif; Ret (ERR_OK, s'))
  end.
Proof. apply ethernet_input_spec. Qed.

Lemma arp_tmr_spec ns s B ext W :
  arp_inv s B ext W -> netifs_there ns (arp_table s) ->
  exists s' B' out, etharp_tmr linkoutput ns s = Ret s' /\ tmr_run ns 0 (arp_table s) s out s' /\ arp_inv s' B' ext (zip_with drop_expired (arp_table s) W)
    /\ arp_table s' = tick <$> arp_table s /\ a_log s' = a_log s ++ out.
Proof.
  intros HI Hns. destruct (arp_tmr_loop_spec ns (arp_table s) s B ext [] W [] HI eq_refl eq_refl Hns) as (s' & B' & out & E & H). rewrite (ai_len _ _ _ _ HI) in E. by exists s', B', out.
Qed.

(** C14: etharp_tmr makes every entry a second older, frees a stable entry at the age of ARP_MAXAGE and a pending one at ARP_MAXPENDING with the
    packet that waits, lets an entry that has asked again do so after two seconds, and repeats the request of each pending entry (when the heap
    is not full).  The table, the packets and the reference counts stay consistent. *)
Theorem etharp_tmr_correct ns s B ext W :
  arp_inv s B ext W -> netifs_there ns (arp_table s) ->
  exists s' B' out, etharp_tmr linkoutput ns s = Ret s' /\ tmr_run ns 0 (arp_table s) s out s' /\ arp_inv s' B' ext (zip_with drop_expired (arp_table s) W)
    /\ arp_table s' = tick <$> arp_table s /\ a_log s' = a_log s ++ out.
Proof. apply arp_tmr_spec. Qed.

(** [k] runs of the timer. *)
Fixpoint tmr_runs (k : nat) (ns : netifs) (s : arp) : outcome arp :=
  match k with O => Ret s | S k => s ← etharp_tmr linkoutput ns s; tmr_runs k ns s end.

(** The age of an entry that is not empty grows. *)
Definition left_to (e : etharp_entry) : Z := if c_empty e then 0 else ARP_MAXAGE - e_ctime e.

Lemma tick_left e : entry_ok e -> 0 <= left_to e /\ left_to (tick e) <= Z.max 0 (left_to e - 1) /\ (left_to e = 0 -> e = empty_entry).
Proof.
  intros Hok. destruct (c_empty e) eqn:Ee.
  - assert (e = empty_entry) as -> by (unfold entry_ok, c_empty in *; by destruct (e_state e)). vm_compute. by split_and!.
  - assert (Hage : 0 <= e_ctime e < ARP_MAXAGE) by (unfold entry_ok, c_empty, ARP_MAXAGE, ARP_MAXPENDING in *; destruct (e_state e); [done|lia..]).
    assert (L : left_to e = ARP_MAXAGE - e_ctime e) by (unfold left_to; by rewrite Ee). rewrite L. split; [lia|]. split; [|lia]. unfold tick. rewrite Ee.
    destruct (expires e); [change (left_to empty_entry) with 0; lia|]. unfold left_to. replace (c_empty (with_estate _ _)) with false by (unfold c_empty in *; cbn; by destruct (e_state e)). cbn. lia.
Qed.

Lemma tick_there ns T : netifs_there ns T -> netifs_there ns (tick <$> T).
Proof.
  intros H. apply Forall_fmap. eapply Forall_impl; [exact H|]. intros e He. cbn. unfold tick. destruct (c_empty e); [done|]. destruct (expires e); [done|]. cbn in He |- *. destruct (e_state e) eqn:Es; cbn; try done.
Qed.

Lemma all_empty T : Forall (λ e, e = empty_entry) T -> T = replicate (length T) empty_entry.
Proof. induction 1 as [|e T -> _ IH]; [done|]. cbn. by f_equal. Qed.

Lemma none_waits s B ext W : arp_inv s B ext W -> arp_table s = replicate 10 empty_entry -> W = replicate 10 None.
Proof.
  intros HI HT. pose proof (ai_wait _ _ _ _ HI) as H. rewrite HT in H. cbn in H. repeat (apply Forall2_cons_inv_l in H as (w & ? & Hw & H & ->); destruct w; [by destruct Hw|clear Hw]). apply Forall2_nil_inv_l in H. by subst.
Qed.

(** C15: whatever is in the table, without traffic it is empty after ARP_MAXAGE runs of the timer, every packet that waited is freed, and the timer
    never fails. *)
Theorem arp_table_expires ns s B ext W :
  arp_inv s B ext W -> netifs_there ns (arp_table s) ->
  exists s' B', tmr_runs (Z.to_nat ARP_MAXAGE) ns s = Ret s' /\ arp_table s' = replicate 10 empty_entry /\ arp_inv s' B' ext (replicate 10 None).
Proof.
  intros HI Hns. assert (Hk : forall k s B W, arp_inv s B ext W -> netifs_there ns (arp_table s) -> Forall (λ e, left_to e <= Z.of_nat k) (arp_table s) ->
    exists s' B' W', tmr_runs k ns s = Ret s' /\ arp_inv s' B' ext W' /\ Forall (λ e, left_to e <= 0) (arp_table s')).
  { clear s B W HI Hns. induction k as [|k IH]; intros s B W HI Hns Hl; [by exists s, B, W|]. cbn [tmr_runs]. destruct (arp_tmr_spec ns s B ext W HI Hns) as (s1 & B1 & out & E & _ & HI1 & HT1 & _). rewrite E. cbn [mbind outcome_bind].
    apply (IH s1 B1 _ HI1); rewrite HT1; [by apply tick_there|]. apply Forall_fmap. eapply Forall_impl; [apply Forall_and; split; [exact Hl|apply HI]|]. intros e [He Hok]. destruct (tick_left e Hok). cbn in *. lia. }
  destruct (Hk (Z.to_nat ARP_MAXAGE) s B W HI Hns) as (s' & B' & W' & E & HI' & Hl').
  { eapply Forall_impl; [apply HI|]. intros e Hok. pose proof (entry_age e Hok). unfold left_to, ARP_MAXAGE. destruct (c_empty e); lia. }
  assert (HT : arp_table s' = replicate 10 empty_entry).
  { rewrite <- (ai_len _ _ _ _ HI'). apply all_empty. eapply Forall_impl; [apply Forall_and; split; [exact Hl'|apply HI']|]. intros e [He Hok]. destruct (tick_left e Hok) as (? & _ & He'). apply He'. lia. }
  exists s', B'. split; [done|]. split; [done|]. by rewrite <- (none_waits s' B' ext W' HI' HT).
Qed.

(** etharp_cleanup_netif empties the entries of the interface, with their packets, and no other. *)
Theorem etharp_cleanup_netif_correct s B ext W nif :
  arp_inv s B ext W ->
  exists s' B', etharp_cleanup_netif s nif = Ret s' /\ arp_inv s' B' ext (zip_with (λ e w, if of_netif nif e then None else w) (arp_table s) W)
    /\ arp_table s' = (λ e, if of_netif nif e then empty_entry else e) <$> arp_table s /\ a_log s' = a_log s.
Proof.
  intros HI. destruct (cleanup_loop_spec nif (arp_table s) s B ext [] W [] HI eq_refl eq_refl) as (s' & B' & E & H). rewrite (ai_len _ _ _ _ HI) in E. by exists s', B'.
Qed.



















Lemma arp_inv_ext s B (ext ext' : Z -> nat) W : (forall a, a <> NULL -> ext a = ext' a) -> arp_inv s B ext W -> arp_inv s B ext' W.
Proof. intros He [H1 H2 H3 H4 H5 H6 H7]. split; try done. eapply inv_ext_eq; [|exact H1]. intros a Ha. cbn beta. by rewrite He. Qed.

Lemma empty_queued k q : q <> NULL -> queued (replicate k empty_entry) q = 0%nat.
Proof.
  intros Hq. induction k as [|k IH]; [done|]. change (queued (replicate (S k) empty_entry) q) with (hold NULL q + queued (replicate k empty_entry) q)%nat.
  rewrite IH. unfold hold. by rewrite decide_False by congruence.
Qed.

Lemma empty_waits (ps : pst) k : Forall2 (waits ps) (replicate k empty_entry) (replicate k None).
Proof. induction k; by constructor. Qed.

(** The module starts in a state that satisfies the invariant. *)
Lemma arp_start_inv (ps : pst) B ext : pbuf_inv ps B ext -> arp_inv (arp_start ps) B ext (replicate 10 None).
Proof.
  intros HI. split; try done.
  - eapply inv_ext_eq; [|exact HI]. intros a Ha. cbn beta. unfold arp_start. cbn [arp_table]. rewrite empty_queued by done. lia.
  - by apply Forall_replicate.
  - intros i j e e' Hi _ He. apply lookup_replicate in Hi as [-> _]. done.
  - intros q Hq. unfold arp_start. cbn [arp_table]. rewrite empty_queued by done. lia.
  - apply empty_waits.
Qed.
End Correct.

(** ** Witnesses *)

(** The host 192.168.1.2 on an Ethernet, with the packets of PbufChain.v: one to send in RAM, and one in the pool in which the message [h] has come in. *)
Definition nif_e : netif := Netif 1 0x0201a8c0 0x00ffffff 0x0101a8c0 0x2f [2; 0; 0; 0; 0; 2] 1500 true.
Definition netifs_e : netifs := Netifs [nif_e] None None.
Definition link0 : list (Z * list Z) -> netif -> list Z -> err_t := λ _ _ _, ERR_OK.
Definition payload1 : Z := match pbufs ps2 !! p1 with Some b => p_payload b | None => 0 end.
Definition ether (h : list Z) : arp (St := pmem_state) := arp_start (with_data ps2 (write_bytes ∅ payload1 h)).

(** The answer of 192.168.1.10, and its question for our address. *)
Definition arp_answer : list Z := arp_message ARP_REPLY [2; 0; 0; 0; 0; 1] 0x0a01a8c0 [2; 0; 0; 0; 0; 2] (netif_ip4_addr nif_e).
Definition arp_question : list Z := arp_message ARP_REQUEST [2; 0; 0; 0; 0; 1] 0x0a01a8c0 ethzero (netif_ip4_addr nif_e).

Lemma own_safe (s : pstate (St := pmem_state)) B ext (ext' : Z -> nat) p l : pbuf_inv s B ext -> chain s p l -> own_data l -> safe_data B ext' l.
Proof.
  intros HI Hc Ho x Hx. apply elem_of_addrs in Hx as ([a b] & Hin & Hx). pose proof (proj1 (Forall_forall _ _) Ho _ Hin) as [? ?].
  destruct (own_data_block s B ext a b x HI) as (k & Hk & R); try done; [by eapply seg_lookup; [apply Hc|]|]. exists a, k. split; [done|]. split; [done|]. right. apply list_elem_of_fmap. by exists (a, b).
Qed.

Lemma own_out_packet (s : pstate (St := pmem_state)) B ext (ext' : Z -> nat) p b :
  pbuf_inv s B ext -> chain s p [(p, b)] -> p_ref b = 1 -> is_contiguous b = true -> is_custom b = false -> p + SIZEOF_STRUCT_PBUF <= p_payload b - 14 -> p_tot_len b + 14 < 65536 ->
  exists C, out_packet s B ext' p C /\ Z.of_nat (length C) = p_len b.
Proof.
  intros HI Hc Hr Hcg Hcu Hroom Ht. exists (contents (data s) [(p, b)]). split; [|rewrite (contents_length _ _ (tot_ok_lens _ (proj2 Hc))); cbn; lia].
  assert (Ho : own_data [(p, b)]) by (by apply Forall_singleton). exists b, []. split; [done|]. split; [done|]. split; [done|]. split; [|split; [done|split; [by eapply own_safe|split; [by split|constructor]]]].
  split_and!; try done. intros x _ Hx. by apply not_elem_of_nil in Hx.
Qed.

Lemma ether_ok h :
  exists B b1 a2 b2 C, arp_inv (ether h) B (ext_add (ext_add no_ext p1) p2) (replicate 10 None) /\ chain (a_ps (ether h)) p1 [(p1, b1); (a2, b2)]
    /\ p_len b1 = 590 /\ p_ref b1 = 1 /\ is_contiguous b1 = true /\ is_custom b1 = false /\ p_payload b1 = payload1
    /\ out_packet (a_ps (ether h)) B (ext_add (ext_add no_ext p1) p2) p2 C /\ length C = 100%nat.
Proof.
  destruct ps2_inv as (B & b1 & a2 & b2 & b & HI & Hc1 & Hc2 & _ & L1 & _ & R1 & _ & L & R & T & Cg & P & Ho). pose proof (inv_data _ _ _ (write_bytes ∅ payload1 h) HI) as HId.
  apply Forall_cons in Ho as [[O1 O2] Ho]. apply Forall_cons in Ho as [_ Ho]. cbn [snd] in O1, O2. pose proof Ho as Ho2. apply Forall_cons in Ho2 as [[_ O4] _]. cbn [snd] in O4.
  destruct (own_out_packet _ B _ (ext_add (ext_add no_ext p1) p2) p2 b HId Hc2 R Cg O4 ltac:(rewrite P; lia) ltac:(rewrite T; lia)) as (C & Hout & HC).
  exists B, b1, a2, b2, C. split; [apply arp_start_inv; exact HId|]. split; [exact Hc1|]. split; [exact L1|]. split; [exact R1|]. split; [exact O1|]. split; [exact O2|].
  split; [unfold payload1; pose proof (chain_cons _ _ _ _ _ Hc1) as (_ & Hb1 & _); rewrite Hb1; reflexivity|]. split; [exact Hout|]. rewrite L in HC. exact (Nat2Z.inj _ 100 HC).
Qed.

Lemma written_front m a h (k : nat) : (length h <= k)%nat -> exists R, read_bytes (write_bytes m a h) a k = h ++ R.
Proof. intros Hk. rewrite read_splice_0 by done. unfold splice. rewrite take_0. by eexists. Qed.

Lemma ether_message h : length h = 28%nat -> Forall is_u8 h ->
  exists B, arp_inv (ether h) B (ext_add (ext_add no_ext p2) p1) (replicate 10 None) /\ arp_packet (a_ps (ether h)) p1 h.
Proof.
  intros Hl H8. destruct (ether_ok h) as (B & b1 & a2 & b2 & C & HI & Hc & L1 & R1 & O1 & O2 & P1 & _). exists B. split; [eapply arp_inv_ext; [|exact HI]; intros a _; apply ext_add_comm|].
  exists b1. split; [apply (chain_cons _ _ _ _ _ Hc)|]. split; [exact R1|]. split; [exact O1|]. split; [exact O2|]. split; [rewrite L1; lia|]. split; [|exact H8]. rewrite P1.
  destruct (written_front ∅ payload1 h 28 ltac:(lia)) as (R & E). change (data (a_ps (ether h))) with (write_bytes ∅ payload1 h).
  assert (HR : R = []). { pose proof (read_bytes_length (write_bytes ∅ payload1 h) payload1 28) as HL. rewrite E, length_app in HL. destruct R; [reflexivity|cbn in HL; lia]. }
  rewrite E, HR. apply app_nil_r.
Qed.

Lemma message_bytes : Forall is_u8 arp_answer /\ Forall is_u8 arp_question.
Proof. split; apply (bool_decide_unpack _); vm_compute; exact I. Qed.

Lemma link_room0 : 14 <= PBUF_LINK.
Proof. vm_compute. discriminate. Qed.

Lemma p12_null : p1 <> NULL /\ p2 <> NULL.
Proof. split; vm_compute; discriminate. Qed.

Lemma held2 : (0 < ext_add (ext_add no_ext p1) p2 p2)%nat.
Proof. unfold ext_add at 1. rewrite decide_True by reflexivity. apply Nat.lt_0_succ. Qed.

Lemma etharp_find_entry_correct_witness : exists s', etharp_find_entry (ether arp_answer) 0x0a01a8c0 ETHARP_FLAG_TRY_HARD nif_e = Ret (Some 0, s').
Proof.
  destruct (ether_ok arp_answer) as (B & _ & _ & _ & _ & HI & _).
  assert (Ev : match etharp_find_entry (ether arp_answer) 0x0a01a8c0 ETHARP_FLAG_TRY_HARD nif_e with Ret (Some i, _) => i =? 0 | _ => false end = true) by (vm_compute; reflexivity).
  destruct (etharp_find_entry_correct (ether arp_answer) B (ext_add (ext_add no_ext p1) p2) (replicate 10 None) 0x0a01a8c0 ETHARP_FLAG_TRY_HARD nif_e HI)
    as [(n & E & _)|(_ & [[E _]|(n & ps & B1 & E & _)])]; rewrite E in Ev |- *; [|discriminate Ev|]; apply Z.eqb_eq in Ev; rewrite Ev; eexists; reflexivity.
Defined.

Lemma etharp_output_correct_witness : exists r s', etharp_output link0 (ether arp_answer) nif_e p2 0x0a01a8c0 = Ret (r, s') /\ length (a_log s') = 1%nat.
Proof.
  destruct (ether_ok arp_answer) as (B & b1 & a2 & b2 & C & HI & _ & _ & _ & _ & _ & _ & Hout & _).
  destruct (etharp_output_correct link0 link_room0 (ether arp_answer) B (ext_add (ext_add no_ext p1) p2) (replicate 10 None) nif_e 0x0a01a8c0 p2 C HI Hout (proj2 p12_null) held2 eq_refl)
    as (r & s' & B' & W' & out & E & _). exists r, s'. split; [exact E|].
  assert (Ev : match etharp_output link0 (ether arp_answer) nif_e p2 0x0a01a8c0 with Ret (_, s') => length (a_log s') | _ => 0%nat end = 1%nat) by (vm_compute; reflexivity).
  rewrite E in Ev. exact Ev.
Defined.

Lemma etharp_input_correct_witness : exists s', etharp_input link0 (ether arp_question) p1 nif_e = Ret s' /\ length (a_log s') = 1%nat.
Proof.
  destruct (ether_message arp_question eq_refl (proj2 message_bytes)) as (B & HI & Hpk).
  destruct (etharp_input_correct link0 link_room0 (ether arp_question) B (ext_add no_ext p2) (replicate 10 None) nif_e p1 arp_question HI (proj1 p12_null) Hpk eq_refl)
    as (s' & B' & W' & out & E & _). exists s'. split; [exact E|].
  assert (Ev : match etharp_input link0 (ether arp_question) p1 nif_e with Ret s' => length (a_log s') | _ => 0%nat end = 1%nat) by (vm_compute; reflexivity).
  rewrite E in Ev. exact Ev.
Defined.

(** The question in a frame for everyone. *)
Definition question_frame : list Z := eth_frame ethbroadcast [2; 0; 0; 0; 0; 1] ETHTYPE_ARP arp_question.

Lemma question_verdict R : eth_verdict_of nif_e 590 (question_frame ++ R) = EArp.
Proof. vm_compute. reflexivity. Qed.

Lemma question_header R : Forall is_u8 (take 14 (question_frame ++ R)).
Proof. rewrite take_app_le by (vm_compute; lia). apply (bool_decide_unpack _). vm_compute. exact I. Qed.

Lemma ether_frame f : length f <= 590 ->
  exists B b l R, arp_inv (ether f) B (ext_add (ext_add no_ext p2) p1) (replicate 10 None) /\ chain (a_ps (ether f)) p1 ((p1, b) :: l) /\ p_ref b = 1 /\ p_len b = 590
    /\ contents (a_mem (ether f)) ((p1, b) :: l) = f ++ R.
Proof.
  intros Hl. destruct (ether_ok f) as (B & b1 & a2 & b2 & C & HI & Hc & L1 & R1 & _ & _ & P1 & _). destruct (written_front ∅ payload1 f 590 ltac:(lia)) as (R & E).
  exists B, b1, [(a2, b2)], (R ++ contents (a_mem (ether f)) [(a2, b2)]). split; [eapply arp_inv_ext; [|exact HI]; intros a _; apply ext_add_comm|]. split; [exact Hc|]. split; [exact R1|]. split; [exact L1|].
  rewrite contents_cons, app_assoc. f_equal. unfold node_bytes. cbn [snd]. rewrite L1, P1. exact E.
Qed.

Lemma ethernet_input_correct_witness :
  exists s1, ethernet_input link0 (λ s _ _, Ret s) (ether question_frame) p1 nif_e = (s' ← etharp_input link0 s1 p1 nif_e; Ret (ERR_OK, s')).
Proof.
  destruct (ether_frame question_frame ltac:(vm_compute; discriminate)) as (B & b & l & R & HI & Hc & Hr & Hlen & HF).
  pose proof (ethernet_input_correct link0 (λ s _ _, Ret s) (ether question_frame) B (ext_add no_ext p2) (replicate 10 None) nif_e p1 b l (question_frame ++ R) HI (proj1 p12_null) Hc Hr HF (question_header R)) as Hin.
  rewrite Hlen, question_verdict in Hin. destruct Hin as (s1 & b1 & _ & E). exists s1. exact E.
Defined.

(** The table after the packet has been sent to 192.168.1.10: a packet waits. *)
Definition with_netif (e : etharp_entry) : bool := bool_decide (e_state e <> ETHARP_STATE_PENDING) || bool_decide (e_netif e = Some 1).

Lemma ether_asked :
  exists s1 B1 W1, etharp_output link0 (ether arp_answer) nif_e p2 0x0a01a8c0 = Ret (ERR_OK, s1) /\ arp_inv s1 B1 (ext_add (ext_add no_ext p1) p2) W1
    /\ netifs_there netifs_e (arp_table s1) /\ existsb c_queue (arp_table s1) = true.
Proof.
  destruct (ether_ok arp_answer) as (B & b1 & a2 & b2 & C & HI & _ & _ & _ & _ & _ & _ & Hout & _).
  destruct (output_spec link0 link_room0 (ether arp_answer) B (ext_add (ext_add no_ext p1) p2) (replicate 10 None) nif_e 0x0a01a8c0 p2 C HI Hout (proj2 p12_null) held2 eq_refl) as (r & s1 & B1 & W1 & out & E & HI1 & _).
  assert (Ev : match etharp_output link0 (ether arp_answer) nif_e p2 0x0a01a8c0 with Ret (r, s1) => bool_decide (r = ERR_OK) && forallb with_netif (arp_table s1) && existsb c_queue (arp_table s1) | _ => false end = true) by (vm_compute; reflexivity).
  rewrite E in Ev. apply andb_true_iff in Ev as [Ev Eq]. apply andb_true_iff in Ev as [Er Ev]. apply bool_decide_eq_true_1 in Er. subst r. exists s1, B1, W1. split; [exact E|]. split; [exact HI1|]. split; [|exact Eq].
  apply Forall_forall. intros e He Hp. apply list_elem_of_In in He. pose proof (proj1 (forallb_forall _ _) Ev e He) as Hw. unfold with_netif in Hw. rewrite bool_decide_eq_false_2 in Hw by (intros Hn; exact (Hn Hp)).
  apply bool_decide_eq_true_1 in Hw. rewrite Hw. exists nif_e. split; reflexivity.
Qed.

Lemma etharp_tmr_correct_witness : exists s s', etharp_tmr link0 netifs_e s = Ret s' /\ existsb c_queue (arp_table s) = true /\ arp_table s' = tick <$> arp_table s.
Proof.
  destruct ether_asked as (s1 & B1 & W1 & _ & HI1 & Hns & Hq). destruct (etharp_tmr_correct link0 link_room0 netifs_e s1 B1 (ext_add (ext_add no_ext p1) p2) W1 HI1 Hns) as (s' & B' & out & E & _ & _ & HT & _).
  exists s1, s'. split; [exact E|]. split; [exact Hq|exact HT].
Defined.

Lemma arp_table_expires_witness : exists s s', tmr_runs link0 (Z.to_nat ARP_MAXAGE) netifs_e s = Ret s' /\ existsb c_queue (arp_table s) = true /\ arp_table s' = replicate 10 empty_entry.
Proof.
  destruct ether_asked as (s1 & B1 & W1 & _ & HI1 & Hns & Hq). destruct (arp_table_expires link0 link_room0 netifs_e s1 B1 (ext_add (ext_add no_ext p1) p2) W1 HI1 Hns) as (s' & B' & E & HT & _).
  exists s1, s'. split; [exact E|]. split; [exact Hq|exact HT].
Defined.





