(* ===== verification/Netif.v ===== *)
(** * Network interfaces (src/lwip/src/core/netif.c)

    The list of the interfaces, the default interface and the counter for the numbers,
    with the calls into the protocols: an interface that comes up announces its address
    (etharp_gratuitous) and its groups (igmp_report_groups), one that goes down loses its
    ARP entries (etharp_cleanup_netif), and a change of address reaches the control
    blocks of UDP and TCP.

    The structures are in a map from addresses.  The fields that the other components
    read are the record [netif] of Ip4Addr.v.  The protocols are the models of Etharp.v,
    Igmp.v and Udp.v side by side ([protocols]): of the calls made here only those of ARP
    touch packet memory.  TCP is a parameter, which may send through the others.  The
    function [init] of the driver is an argument of netif_add; it may change any field of
    the structure it gets.

    Options: LWIP_IPV4, LWIP_ARP, LWIP_IGMP, LWIP_UDP and LWIP_TCP 1; LWIP_SINGLE_NETIF,
    LWIP_IPV6, LWIP_RAW, LWIP_DHCP, LWIP_AUTOIP, LWIP_HAVE_LOOPIF, ENABLE_LOOPBACK, the
    status, link, remove and extended callbacks, LWIP_NETIF_HWADDRHINT,
    LWIP_NUM_NETIF_CLIENT_DATA and MIB2 0. *)

From S2P Require Import Prelude Def ListSeg InetChksum Ip4Addr Mem Memp Pbuf PbufMem PbufRef PbufChain PbufData Header Ip4 Igmp Udp Ip4Input Etharp.

#[local] Open Scope Z_scope.
#[local] Coercion Z.of_nat : nat >-> Z.

(** ** Constants and data (include/lwip/netif.h) *)

Definition NETIF_FLAG_ETHERNET : Z := 0x10.
Definition NETIF_NAMESIZE : Z := 6.
Definition NETIF_REPORT_TYPE_IPV4 : Z := 0x01.
Definition NETIF_REPORT_TYPE_IPV6 : Z := 0x02.

(** The address of netif_null_output_ip4. *)
Definition NETIF_NULL_OUTPUT_IP4 : Z := 1.

(** The fields that only netif.c and the driver use: the name, the link of the list, the
    state of the driver and the functions. *)
Record netif_struct := NetifStruct {
  nf : netif;
  nf_name : Z * Z;
  nf_next : Z;
  nf_state : Z;
  nf_output : Z;
  nf_input : Z
}.

Definition nif_set_num (n : netif) (x : Z) : netif :=
  Netif x (netif_ip4_addr n) (netif_ip4_netmask n) (netif_ip4_gw n) (netif_flags n) (netif_hwaddr n) (netif_mtu n) (netif_igmp_mac_filter n).
Definition nif_set_addr (n : netif) (x : Z) : netif :=
  Netif (netif_num n) x (netif_ip4_netmask n) (netif_ip4_gw n) (netif_flags n) (netif_hwaddr n) (netif_mtu n) (netif_igmp_mac_filter n).
Definition nif_set_netmask (n : netif) (x : Z) : netif :=
  Netif (netif_num n) (netif_ip4_addr n) x (netif_ip4_gw n) (netif_flags n) (netif_hwaddr n) (netif_mtu n) (netif_igmp_mac_filter n).
Definition nif_set_gw (n : netif) (x : Z) : netif :=
  Netif (netif_num n) (netif_ip4_addr n) (netif_ip4_netmask n) x (netif_flags n) (netif_hwaddr n) (netif_mtu n) (netif_igmp_mac_filter n).
Definition nif_set_flags (n : netif) (x : Z) : netif :=
  Netif (netif_num n) (netif_ip4_addr n) (netif_ip4_netmask n) (netif_ip4_gw n) x (netif_hwaddr n) (netif_mtu n) (netif_igmp_mac_filter n).

(** The macros netif_set_flags and netif_clear_flags. *)
Definition netif_set_flags (n : netif) (set_flags : Z) : netif := nif_set_flags n (u8 (Z.lor (netif_flags n) set_flags)).
Definition netif_clear_flags (n : netif) (clr_flags : Z) : netif :=
  nif_set_flags n (u8 (Z.land (netif_flags n) (u8 (Z.land (Z.lnot clr_flags) 0xff)))).

Definition has_flag (n : netif) (f : Z) : bool := negb (Z.land (netif_flags n) f =? 0).

Definition with_fields (x : netif_struct) (n : netif) : netif_struct :=
  NetifStruct n (nf_name x) (nf_next x) (nf_state x) (nf_output x) (nf_input x).
Definition with_link (x : netif_struct) (q : Z) : netif_struct :=
  NetifStruct (nf x) (nf_name x) q (nf_state x) (nf_output x) (nf_input x).

(** What netif_add writes before the driver runs; the name, the hardware address and the
    link keep what the memory held. *)
Definition reset_fields (x : netif_struct) (state input num : Z) : netif_struct :=
  NetifStruct (Netif num IPADDR_ANY IPADDR_ANY IPADDR_ANY 0 (netif_hwaddr (nf x)) 0 false)
    (nf_name x) (nf_next x) state NETIF_NULL_OUTPUT_IP4 input.

(** atoi of the C library: white space, a sign, and the digits up to the first other
    character. *)
Definition is_space (c : Z) : bool := (c =? 0x20) || ((0x09 <=? c) && (c <=? 0x0d)).
Fixpoint digits_value (s : list Z) (a : Z) : Z :=
  match s with
  | c :: s => if (0x30 <=? c) && (c <=? 0x39) then digits_value s (a * 10 + (c - 0x30)) else a
  | [] => a
  end.
Fixpoint c_atoi (s : list Z) : Z :=
  match s with
  | c :: s' =>
      if is_space c then c_atoi s'
      else if c =? 0x2d then - digits_value s' 0
      else if c =? 0x2b then digits_value s' 0
      else digits_value s 0
  | [] => 0
  end.

Section Netif.
Context `{MO : MemOptions} `{PO : PbufOptions} {St : Type} `{!PacketMemory St} {Lk : Type} `{!LinkLayer Lk St}
  {Pi : Type} {PiP : ElementPool Pi} {Pu : Type} {PuP : ElementPool Pu} {Tc : Type}.
Context (linkoutput : list (Z * list Z) -> netif -> list Z -> err_t) (rnd : nat -> Z).

Abbreviation arp := (arp (St := St)).
Abbreviation igmp := (igmp (St := St) (Lk := Lk) (Pl := Pi)).
Abbreviation udp := (udp (St := St) (Lk := Lk) (Pl := Pu)).

(** The protocols. *)
Record protocols := Protocols {
  k_arp : arp;
  k_igmp : igmp;
  k_udp : udp;
  k_tcp : Tc
}.

Definition with_karp (k : protocols) (x : arp) : protocols := Protocols x (k_igmp k) (k_udp k) (k_tcp k).
Definition with_kigmp (k : protocols) (x : igmp) : protocols := Protocols (k_arp k) x (k_udp k) (k_tcp k).
Definition with_kudp (k : protocols) (x : udp) : protocols := Protocols (k_arp k) (k_igmp k) x (k_tcp k).

(** tcp_netif_ip_addr_changed; None is the pointer NULL. *)
Context (tcp_netif_ip_addr_changed : protocols -> Z -> option Z -> outcome protocols).

(** The structures by address and the static variables netif_list, netif_default and
    netif_num. *)
Record nstate := NState {
  ns_nifs : gmap Z netif_struct;
  ns_list : Z;
  ns_default : Z;
  ns_num : Z;
  ns_stack : protocols
}.

Definition with_nifs (s : nstate) (x : gmap Z netif_struct) : nstate := NState x (ns_list s) (ns_default s) (ns_num s) (ns_stack s).
Definition with_nlist (s : nstate) (x : Z) : nstate := NState (ns_nifs s) x (ns_default s) (ns_num s) (ns_stack s).
Definition with_default (s : nstate) (x : Z) : nstate := NState (ns_nifs s) (ns_list s) x (ns_num s) (ns_stack s).
Definition with_nnum (s : nstate) (x : Z) : nstate := NState (ns_nifs s) (ns_list s) (ns_default s) x (ns_stack s).
Definition with_stack (s : nstate) (x : protocols) : nstate := NState (ns_nifs s) (ns_list s) (ns_default s) (ns_num s) x.

Definition nif_at (s : nstate) (a : Z) : outcome netif_struct :=
  match ns_nifs s !! a with Some x => Ret x | None => Trap "netif: dangling pointer" end.
Definition set_nif (s : nstate) (a : Z) (x : netif_struct) : nstate := with_nifs s (<[a := x]> (ns_nifs s)).
Definition on_stack (s : nstate) (f : protocols -> outcome protocols) : outcome nstate := k ← f (ns_stack s); Ret (with_stack s k).

(** The calls into the protocols; their results are not looked at. *)
Definition call_gratuitous (nif : netif) (k : protocols) : outcome protocols :=
  '(_, a) ← etharp_gratuitous linkoutput (k_arp k) nif; Ret (with_karp k a).
Definition call_cleanup (nif : netif) (k : protocols) : outcome protocols := a ← etharp_cleanup_netif (k_arp k) nif; Ret (with_karp k a).
Definition call_report (nif : netif) (k : protocols) : outcome protocols := g ← igmp_report_groups rnd (k_igmp k) nif; Ret (with_kigmp k g).
Definition call_start (nif : netif) (k : protocols) : outcome protocols := '(_, g) ← igmp_start (k_igmp k) nif; Ret (with_kigmp k g).
Definition call_stop (nif : netif) (k : protocols) : outcome protocols := '(_, g) ← igmp_stop (k_igmp k) nif; Ret (with_kigmp k g).

(** ** Reports and addresses *)

Definition netif_issue_reports (s : nstate) (netif : Z) (report_type : Z) : outcome nstate :=
  LWIP_ASSERT "netif_issue_reports: invalid netif" (negb (netif =? NULL));;
  x ← nif_at s netif;
  if negb (has_flag (nf x) NETIF_FLAG_LINK_UP) || negb (has_flag (nf x) NETIF_FLAG_UP) then Ret s
  else if negb (Z.land report_type NETIF_REPORT_TYPE_IPV4 =? 0) && negb (ip4_addr_isany_val (netif_ip4_addr (nf x))) then
    s ← (if has_flag (nf x) NETIF_FLAG_ETHARP then on_stack s (call_gratuitous (nf x)) else Ret s);
    if has_flag (nf x) NETIF_FLAG_IGMP then on_stack s (call_report (nf x)) else Ret s
  else Ret s.

(** udp_netif_ip_addr_changed does nothing when the new address is NULL, as for the
    address 0.0.0.0. *)
Definition netif_do_ip_addr_changed (old_addr : Z) (new_addr : option Z) (k : protocols) : outcome protocols :=
  k ← tcp_netif_ip_addr_changed k old_addr new_addr;
  u ← udp_netif_ip_addr_changed (k_udp k) old_addr (default IPADDR_ANY new_addr);
  Ret (with_kudp k u).

(** Whether the address was changed. *)
Definition netif_do_set_ipaddr (s : nstate) (netif ipaddr : Z) : outcome (bool * nstate) :=
  x ← nif_at s netif;
  if negb (ip4_addr_cmp ipaddr (netif_ip4_addr (nf x))) then
    s ← on_stack s (netif_do_ip_addr_changed (netif_ip4_addr (nf x)) (Some ipaddr));
    let s := set_nif s netif (with_fields x (nif_set_addr (nf x) ipaddr)) in
    s ← netif_issue_reports s netif NETIF_REPORT_TYPE_IPV4;
    Ret (true, s)
  else Ret (false, s).

Definition netif_set_ipaddr (s : nstate) (netif : Z) (ipaddr : option Z) : outcome nstate :=
  LWIP_ERROR "netif_set_ipaddr: invalid netif" (negb (netif =? NULL));;
  '(_, s) ← netif_do_set_ipaddr s netif (default IPADDR_ANY ipaddr); Ret s.

Definition netif_do_set_netmask (s : nstate) (netif netmask : Z) : outcome (bool * nstate) :=
  x ← nif_at s netif;
  if negb (ip4_addr_cmp netmask (netif_ip4_netmask (nf x)))
  then Ret (true, set_nif s netif (with_fields x (nif_set_netmask (nf x) netmask)))
  else Ret (false, s).

Definition netif_set_netmask (s : nstate) (netif : Z) (netmask : option Z) : outcome nstate :=
  LWIP_ERROR "netif_set_netmask: invalid netif" (negb (netif =? NULL));;
  '(_, s) ← netif_do_set_netmask s netif (default IPADDR_ANY netmask); Ret s.

Definition netif_do_set_gw (s : nstate) (netif gw : Z) : outcome (bool * nstate) :=
  x ← nif_at s netif;
  if negb (ip4_addr_cmp gw (netif_ip4_gw (nf x)))
  then Ret (true, set_nif s netif (with_fields x (nif_set_gw (nf x) gw)))
  else Ret (false, s).

Definition netif_set_gw (s : nstate) (netif : Z) (gw : option Z) : outcome nstate :=
  LWIP_ERROR "netif_set_gw: invalid netif" (negb (netif =? NULL));;
  '(_, s) ← netif_do_set_gw s netif (default IPADDR_ANY gw); Ret s.

Definition netif_set_addr (s : nstate) (netif : Z) (ipaddr netmask gw : option Z) : outcome nstate :=
  let ipaddr := default IPADDR_ANY ipaddr in
  let netmask := default IPADDR_ANY netmask in
  let gw := default IPADDR_ANY gw in
  let remove := ip4_addr_isany_val ipaddr in
  s ← (if remove then '(_, s) ← netif_do_set_ipaddr s netif ipaddr; Ret s else Ret s);
  '(_, s) ← netif_do_set_netmask s netif netmask;
  '(_, s) ← netif_do_set_gw s netif gw;
  if negb remove then '(_, s) ← netif_do_set_ipaddr s netif ipaddr; Ret s else Ret s.

(** ** Up and down *)

Definition netif_set_up (s : nstate) (netif : Z) : outcome nstate :=
  LWIP_ERROR "netif_set_up: invalid netif" (negb (netif =? NULL));;
  x ← nif_at s netif;
  if negb (has_flag (nf x) NETIF_FLAG_UP) then
    let s := set_nif s netif (with_fields x (netif_set_flags (nf x) NETIF_FLAG_UP)) in
    netif_issue_reports s netif (Z.lor NETIF_REPORT_TYPE_IPV4 NETIF_REPORT_TYPE_IPV6)
  else Ret s.

Definition netif_set_down (s : nstate) (netif : Z) : outcome nstate :=
  LWIP_ERROR "netif_set_down: invalid netif" (negb (netif =? NULL));;
  x ← nif_at s netif;
  if has_flag (nf x) NETIF_FLAG_UP then
    let x := with_fields x (netif_clear_flags (nf x) NETIF_FLAG_UP) in
    let s := set_nif s netif x in
    if has_flag (nf x) NETIF_FLAG_ETHARP then on_stack s (call_cleanup (nf x)) else Ret s
  else Ret s.

Definition netif_set_link_up (s : nstate) (netif : Z) : outcome nstate :=
  LWIP_ERROR "netif_set_link_up: invalid netif" (negb (netif =? NULL));;
  x ← nif_at s netif;
  if negb (has_flag (nf x) NETIF_FLAG_LINK_UP) then
    let s := set_nif s netif (with_fields x (netif_set_flags (nf x) NETIF_FLAG_LINK_UP)) in
    netif_issue_reports s netif (Z.lor NETIF_REPORT_TYPE_IPV4 NETIF_REPORT_TYPE_IPV6)
  else Ret s.

Definition netif_set_link_down (s : nstate) (netif : Z) : outcome nstate :=
  LWIP_ERROR "netif_set_link_down: invalid netif" (negb (netif =? NULL));;
  x ← nif_at s netif;
  if has_flag (nf x) NETIF_FLAG_LINK_UP
  then Ret (set_nif s netif (with_fields x (netif_clear_flags (nf x) NETIF_FLAG_LINK_UP)))
  else Ret s.

Definition netif_set_default (s : nstate) (netif : Z) : nstate := with_default s netif.

(** ** Adding *)

(** The [for] loop over the list: whether it was left at an interface with the number
    [num] (the pointer netif2 is then not NULL). *)
Fixpoint num_taken (fuel : nat) (s : nstate) (netif num num_netifs netif2 : Z) : outcome bool :=
  if netif2 =? NULL then Ret false
  else
    match fuel with
    | O => Trap "netif_add: list: fuel"
    | S fuel =>
        x ← nif_at s netif2;
        LWIP_ASSERT "netif already added" (negb (netif2 =? netif));;
        LWIP_ASSERT "too many netifs, max. supported number is 255" (num_netifs + 1 <=? 255);;
        if netif_num (nf x) =? num then Ret true else num_taken fuel s netif num (num_netifs + 1) (nf_next x)
    end.

(** The [do] loop, from the value [num] of netif->num to the value it ends with. *)
Fixpoint num_search (fuel : nat) (s : nstate) (netif num : Z) : outcome Z :=
  match fuel with
  | O => Trap "netif_add: number: fuel"
  | S fuel =>
      let num := if num =? 255 then 0 else num in
      taken ← num_taken (S (size (ns_nifs s))) s netif num 0 (ns_list s);
      if (taken : bool) then num_search fuel s netif (u8 (num + 1)) else Ret num
  end.

(** [fuel] bounds the search for a number.  netif->client_data, which IGMP keeps by the
    number of the interface, is cleared once the number is known: in between only the
    driver runs. *)
Definition netif_add (fuel : nat) (s : nstate) (netif : Z) (ipaddr netmask gw : option Z) (state : Z)
    (init : option (netif_struct -> err_t * netif_struct)) (input : Z) : outcome (Z * nstate) :=
  LWIP_ERROR "netif_add: invalid netif" (negb (netif =? NULL));;
  match init with
  | None => Trap "netif_add: No init function given"
  | Some init =>
      x ← nif_at s netif;
      let s := set_nif s netif (reset_fields x state input (ns_num s)) in
      s ← netif_set_addr s netif ipaddr netmask gw;
      x ← nif_at s netif;
      let r := init x in
      let err := fst r in let x := snd r in
      let s := set_nif s netif x in
      if negb (bool_decide (err = ERR_OK)) then Ret (NULL, s)
      else
        num ← num_search fuel s netif (netif_num (nf x));
        let x := with_fields x (nif_set_num (nf x) num) in
        let k := ns_stack s in
        let s := with_stack s (with_kigmp k (set_igmp_data (k_igmp k) (nf x) NULL)) in
        let s := with_nnum s (if num =? 254 then 0 else u8 (num + 1)) in
        let s := with_nlist (set_nif s netif (with_link x (ns_list s))) netif in
        s ← (if has_flag (nf x) NETIF_FLAG_IGMP then on_stack s (call_start (nf x)) else Ret s);
        Ret (netif, s)
  end.

Definition netif_add_noaddr (fuel : nat) (s : nstate) (netif state : Z) (init : option (netif_struct -> err_t * netif_struct)) (input : Z) :
  outcome (Z * nstate) := netif_add fuel s netif None None None state init input.

(** ** Removing *)

(** The loop that looks for the interface before [netif] and takes [netif] out. *)
Fixpoint unlink_loop (fuel : nat) (s : nstate) (netif tmp_netif : Z) : outcome nstate :=
  if tmp_netif =? NULL then Ret s
  else
    match fuel with
    | O => Trap "netif_remove: fuel"
    | S fuel =>
        t ← nif_at s tmp_netif;
        if nf_next t =? netif then x ← nif_at s netif; Ret (set_nif s tmp_netif (with_link t (nf_next x)))
        else unlink_loop fuel s netif (nf_next t)
    end.

Definition netif_remove (s : nstate) (netif : Z) : outcome nstate :=
  if netif =? NULL then Ret s
  else
    x ← nif_at s netif;
    s ← (if negb (ip4_addr_isany_val (netif_ip4_addr (nf x)))
         then on_stack s (netif_do_ip_addr_changed (netif_ip4_addr (nf x)) None) else Ret s);
    s ← (if has_flag (nf x) NETIF_FLAG_IGMP then on_stack s (call_stop (nf x)) else Ret s);
    s ← (if netif_is_up (nf x) then netif_set_down s netif else Ret s);
    let s := if ns_default s =? netif then netif_set_default s NULL else s in
    if ns_list s =? netif then x ← nif_at s netif; Ret (with_nlist s (nf_next x))
    else unlink_loop (S (size (ns_nifs s))) s netif (ns_list s).

(** ** Finding *)

(** The loops NETIF_FOREACH that return the first interface with a property, or NULL. *)
Fixpoint find_loop (fuel : nat) (s : nstate) (P : netif_struct -> bool) (netif : Z) : outcome Z :=
  if netif =? NULL then Ret NULL
  else
    match fuel with
    | O => Trap "netif: list: fuel"
    | S fuel => x ← nif_at s netif; if P x then Ret netif else find_loop fuel s P (nf_next x)
    end.

Definition first_netif (s : nstate) (P : netif_struct -> bool) : outcome Z := find_loop (S (size (ns_nifs s))) s P (ns_list s).

Definition netif_by_index (s : nstate) (idx : Z) : outcome Z :=
  if negb (idx =? NETIF_NO_INDEX) then first_netif s (λ x, idx =? netif_get_index (nf x)) else Ret NULL.

(** The name without its terminator; &name[2] is past the end of a shorter one. *)
Definition netif_find (s : nstate) (name : option (list Z)) : outcome Z :=
  match name with
  | None => Ret NULL
  | Some (c0 :: c1 :: rest) =>
      let num := u8 (c_atoi rest) in
      first_netif s (λ x, (num =? netif_num (nf x)) && (c0 =? (nf_name x).1) && (c1 =? (nf_name x).2))
  | Some _ => Trap "netif_find: reads past the name"
  end.

Definition netif_name_to_index (s : nstate) (name : option (list Z)) : outcome Z :=
  netif ← netif_find s name;
  if negb (netif =? NULL) then x ← nif_at s netif; Ret (netif_get_index (nf x)) else Ret NETIF_NO_INDEX.

(** The buffer [name] after the call, or None for NULL. *)
Definition netif_index_to_name (s : nstate) (idx : Z) (name : list Z) : outcome (option (list Z)) :=
  netif ← netif_by_index s idx;
  if negb (netif =? NULL) then
    x ← nif_at s netif;
    match lwip_itoa (take (Z.to_nat (NETIF_NAMESIZE - 2)) (drop 2 name)) (idx - 1) with
    | Some out => Ret (Some ((nf_name x).1 :: (nf_name x).2 :: out ++ drop (Z.to_nat NETIF_NAMESIZE) name))
    | None => Trap "lwip_itoa"
    end
  else Ret None.

(** ** Input and output functions *)

Context (ip4_input : arp -> Z -> netif -> outcome arp).

Definition netif_input (s : arp) (p : Z) (inp : netif) : outcome (err_t * arp) :=
  LWIP_ASSERT "netif_input: invalid pbuf" (negb (p =? NULL));;
  if negb (Z.land (netif_flags inp) (Z.lor NETIF_FLAG_ETHARP NETIF_FLAG_ETHERNET) =? 0)
  then ethernet_input linkoutput ip4_input s p inp
  else s ← ip4_input s p inp; Ret (ERR_OK, s).

Definition netif_null_output_ip4 (p ipaddr : Z) : err_t := ERR_IF.
End Netif.
