(* ===== verification/NetifSpec.v ===== *)
(** * Network interfaces: the theorems

    The invariant of the list (distinct numbers from 0 to 254, a default that is on the
    list, groups only on interfaces of the list, and the invariants of the protocols), the
    search for a number, and what each operation does. *)

From S2P Require Import Prelude Def ListSeg InetChksum Ip4Addr Mem Memp Pbuf PbufMem PbufRef PbufChain PbufData Header Ip4 IcmpSpec Igmp IgmpSpec IgmpSafe Udp UdpSpec Ip4Input Etharp EtharpTable EtharpSpec EtharpCorrect Netif.

#[local] Open Scope Z_scope.
#[local] Coercion Z.of_nat : nat >-> Z.

(** ** Specification *)

(** The numbers of the interfaces of a list. *)
Definition numbers (L : list (Z * netif_struct)) : list Z := (λ x, netif_num (nf x.2)) <$> L.

(** The widths of the fields, and an address of six bytes where ARP is used. *)
Definition netif_typed (n : netif) : Prop :=
  is_u8 (netif_num n) /\ is_u32 (netif_ip4_addr n) /\ is_u32 (netif_ip4_netmask n) /\ is_u32 (netif_ip4_gw n) /\ is_u8 (netif_flags n)
  /\ (has_flag n NETIF_FLAG_ETHARP = true -> is_mac (netif_hwaddr n)).

(** [n] is the first number that is not in [T] when counting from [start], round after 254. *)
Definition first_free_num (T : list Z) (start n : Z) : Prop :=
  exists d : nat, (d < 255)%nat /\ n = (start + d) mod 255 /\ ~ (n ∈ T) /\ forall j : nat, (j < d)%nat -> (start + j) mod 255 ∈ T.

(** ** Lemmas: numbers *)

Lemma first_failure (P : nat -> Prop) `{forall j, Decision (P j)} (n : nat) :
  (exists j, (j < n)%nat /\ ~ P j) -> exists d, (d < n)%nat /\ ~ P d /\ forall j, (j < d)%nat -> P j.
Proof.
  intros (j & Hj & Hn). induction j as [j IH] using lt_wf_ind. destruct (decide (Forall P (seq 0 j))) as [Ha|Ha].
  - exists j. split; [done|]. split; [done|]. intros i Hi. rewrite Forall_forall in Ha. apply Ha, elem_of_seq. lia.
  - apply not_Forall_Exists in Ha; [|solve_decision]. apply Exists_exists in Ha as (i & Hi & Hp). apply elem_of_seq in Hi. apply (IH i); [lia|lia|done].
Qed.

(** The numbers in the order in which they are tried. *)
Definition tried (start : Z) : list Z := (λ j : nat, (start + j) mod 255) <$> seq 0 255.

Lemma tried_nodup start : NoDup (tried start).
Proof.
  apply NoDup_fmap_2_strong; [|apply NoDup_seq]. intros i j Hi Hj E. apply elem_of_seq in Hi, Hj. revert E.
  Z.div_mod_to_equations. lia.
Qed.

Lemma first_free_exists (T : list Z) start : (length T < 255)%nat -> exists n, first_free_num T start n.
Proof.
  intros HT. destruct (first_failure (λ j : nat, (start + j) mod 255 ∈ T) 255) as (d & Hd & Hn & Hj).
  - destruct (decide (Forall (λ n, n ∈ T) (tried start))) as [Hs|Hs].
    + rewrite Forall_forall in Hs. apply (NoDup_submseteq _ _ (tried_nodup start)), submseteq_length in Hs. unfold tried in Hs. rewrite length_fmap, length_seq in Hs. lia.
    + apply not_Forall_Exists in Hs; [|solve_decision]. apply Exists_exists in Hs as (n & Hin & Hn).
      apply list_elem_of_fmap in Hin as (j & -> & Hj). apply elem_of_seq in Hj. exists j. split; [lia|exact Hn].
  - exists ((start + d) mod 255). by exists d.
Qed.

Lemma full_numbers (T : list Z) n : NoDup T -> Forall (λ x, 0 <= x <= 254) T -> length T = 255%nat -> 0 <= n <= 254 -> n ∈ T.
Proof.
  intros Hd Hr Hl Hn. assert (Hp : T ≡ₚ tried 0).
  { apply submseteq_length_Permutation; [|unfold tried; rewrite length_fmap, length_seq; lia]. apply NoDup_submseteq; [done|].
    intros x Hx. rewrite Forall_forall in Hr. specialize (Hr x Hx). apply list_elem_of_fmap. exists (Z.to_nat x). split; [|apply elem_of_seq; lia].
    rewrite Z.mod_small; lia. }
  rewrite Hp. apply list_elem_of_fmap. exists (Z.to_nat n). split; [|apply elem_of_seq; lia]. rewrite Z.mod_small; lia.
Qed.

(** ** Lemmas: flags *)

Lemma has_flag_bit n i : 0 <= i -> has_flag n (2 ^ i) = Z.testbit (netif_flags n) i.
Proof.
  intros Hi. unfold has_flag. destruct (Z.eqb_spec (Z.land (netif_flags n) (2 ^ i)) 0) as [E|E]; cbn.
  - apply (f_equal (λ z, Z.testbit z i)) in E. rewrite Z.land_spec, Z.pow2_bits_true, andb_true_r, Z.bits_0 in E by done. done.
  - destruct (Z.testbit (netif_flags n) i) eqn:Eb; [done|]. exfalso. apply E, Z.bits_inj'. intros j Hj. rewrite Z.land_spec, Z.bits_0, Z.pow2_bits_eqb by done.
    destruct (Z.eqb_spec i j) as [<-|]; [by rewrite Eb|apply andb_false_r].
Qed.

Lemma u8_bit z i : 0 <= i < 8 -> Z.testbit (u8 z) i = Z.testbit z i.
Proof. intros Hi. unfold u8. apply Z.mod_pow2_bits_low. lia. Qed.

Lemma has_flag_set n i j : 0 <= i < 8 -> 0 <= j < 8 -> has_flag (netif_set_flags n (2 ^ j)) (2 ^ i) = has_flag n (2 ^ i) || (j =? i).
Proof. intros Hi Hj. rewrite !has_flag_bit by lia. cbn. by rewrite u8_bit, Z.lor_spec, Z.pow2_bits_eqb by lia. Qed.

Lemma has_flag_clear n i j : 0 <= i < 8 -> 0 <= j < 8 -> has_flag (netif_clear_flags n (2 ^ j)) (2 ^ i) = has_flag n (2 ^ i) && negb (j =? i).
Proof.
  intros Hi Hj. rewrite !has_flag_bit by lia. cbn. rewrite u8_bit, Z.land_spec, u8_bit, Z.land_spec, Z.lnot_spec, Z.pow2_bits_eqb by lia.
  change 0xff with (Z.ones 8). rewrite Z.ones_spec_low by lia. by rewrite andb_true_r.
Qed.

(** The two flags that the operations change. *)
Definition link_state (n : netif) : bool * bool := (has_flag n NETIF_FLAG_UP, has_flag n NETIF_FLAG_LINK_UP).

(** The other flags. *)
Definition kept_flags : list Z := [NETIF_FLAG_BROADCAST; NETIF_FLAG_ETHARP; NETIF_FLAG_ETHERNET; NETIF_FLAG_IGMP].

(** The flags as powers of two. *)
Ltac flags_as_bits :=
  unfold link_state, kept_flags; rewrite !Forall_cons;
  change NETIF_FLAG_UP with (2 ^ 0); change NETIF_FLAG_BROADCAST with (2 ^ 1); change NETIF_FLAG_LINK_UP with (2 ^ 2);
  change NETIF_FLAG_ETHARP with (2 ^ 3); change NETIF_FLAG_ETHERNET with (2 ^ 4); change NETIF_FLAG_IGMP with (2 ^ 5).

Lemma set_up_flags n : link_state (netif_set_flags n NETIF_FLAG_UP) = (true, has_flag n NETIF_FLAG_LINK_UP)
  /\ Forall (λ f, has_flag (netif_set_flags n NETIF_FLAG_UP) f = has_flag n f) kept_flags.
Proof. flags_as_bits. rewrite !has_flag_set by lia. cbn. by rewrite !orb_false_r, orb_true_r. Qed.

Lemma set_link_flags n : link_state (netif_set_flags n NETIF_FLAG_LINK_UP) = (has_flag n NETIF_FLAG_UP, true)
  /\ Forall (λ f, has_flag (netif_set_flags n NETIF_FLAG_LINK_UP) f = has_flag n f) kept_flags.
Proof. flags_as_bits. rewrite !has_flag_set by lia. cbn. by rewrite !orb_false_r, orb_true_r. Qed.

Lemma clear_up_flags n : link_state (netif_clear_flags n NETIF_FLAG_UP) = (false, has_flag n NETIF_FLAG_LINK_UP)
  /\ Forall (λ f, has_flag (netif_clear_flags n NETIF_FLAG_UP) f = has_flag n f) kept_flags.
Proof. flags_as_bits. rewrite !has_flag_clear by lia. cbn. by rewrite !andb_true_r, andb_false_r. Qed.

Lemma clear_link_flags n : link_state (netif_clear_flags n NETIF_FLAG_LINK_UP) = (has_flag n NETIF_FLAG_UP, false)
  /\ Forall (λ f, has_flag (netif_clear_flags n NETIF_FLAG_LINK_UP) f = has_flag n f) kept_flags.
Proof. flags_as_bits. rewrite !has_flag_clear by lia. cbn. by rewrite !andb_true_r, andb_false_r. Qed.

Lemma typed_flags n f : netif_typed n -> is_u8 f -> Forall (λ g, has_flag (nif_set_flags n f) g = has_flag n g) kept_flags -> netif_typed (nif_set_flags n f).
Proof.
  intros (? & ? & ? & ? & ? & Hm) Hf HF. split_and!; try done. intros He. apply Hm. rewrite <- He. symmetry. rewrite Forall_forall in HF. apply HF. unfold kept_flags. set_solver.
Qed.

Section Spec.
Context `{MO : MemOptions} {MOk : MemOptionsOk} `{PO : PbufOptions} {POk : PbufOptionsOk} {St : Type} `{!PacketMemory St}
  {Lk : Type} `{LL : !LinkLayer Lk St} {Pi : Type} {PiP : ElementPool Pi} {Pu : Type} {PuP : ElementPool Pu} {Tc : Type}.
Context (linkoutput : list (Z * list Z) -> netif -> list Z -> err_t) (link_room : 14 <= PBUF_LINK) (rnd : nat -> Z).

Abbreviation protocols := (protocols (St := St) (Lk := Lk) (Pi := Pi) (Pu := Pu) (Tc := Tc)).
Abbreviation nstate := (nstate (St := St) (Lk := Lk) (Pi := Pi) (Pu := Pu) (Tc := Tc)).

(** The search for a number over the list [L] of the state. *)
Section Search.
Context (s : nstate) (L : list (Z * netif_struct)) (a : Z).
Context (Hseg : lseg nf_next (ns_nifs s) (ns_list s) L NULL) (Hnull : ns_nifs s !! NULL = None) (Hnew : a ∉ L.*1)
  (Hlen : (length L <= 255)%nat).

Lemma num_taken_spec (fuel : nat) num cnt q l :
  lseg nf_next (ns_nifs s) q l NULL -> a ∉ l.*1 -> cnt + length l <= 255 -> (length l < fuel)%nat ->
  num_taken fuel s a num cnt q = Ret (bool_decide (num ∈ numbers l)).
Proof.
  revert fuel cnt q. induction l as [|[b x] l IH]; intros fuel cnt q Hs Ha Hc Hf.
  - cbn in Hs. subst q. destruct fuel; reflexivity.
  - destruct Hs as (-> & Hb & Hs). destruct fuel as [|fuel]; [cbn in Hf; lia|]. cbn [num_taken].
    assert (b <> NULL) as Hb0 by (intros ->; congruence). apply Z.eqb_neq in Hb0 as Hb0'. rewrite Hb0'. unfold nif_at. rewrite Hb. cbn [mbind outcome_bind].
    cbn in Ha. apply not_elem_of_cons in Ha as [Hab Ha]. cbn in Hc, Hf.
    rewrite !LWIP_ASSERT_ok by (by apply negb_true_iff, Z.eqb_neq || by apply Z.leb_le; lia). cbn [mbind outcome_bind].
    destruct (Z.eqb_spec (netif_num (nf x)) num) as [E|E].
    + rewrite bool_decide_true; [done|]. subst num. by left.
    + rewrite (IH fuel) by (done || lia). f_equal. apply bool_decide_ext. cbn. rewrite elem_of_cons. naive_solver.
Qed.

Lemma num_search_eq (fuel : nat) num :
  num_search (S fuel) s a num =
  let num := if num =? 255 then 0 else num in
  if bool_decide (num ∈ numbers L) then num_search fuel s a (u8 (num + 1)) else Ret num.
Proof.
  cbn [num_search]. cbv zeta. rewrite (num_taken_spec _ _ _ _ L) by (done || lia || (pose proof (lseg_length _ _ _ _ _ Hseg Hnull); lia)).
  cbn [mbind outcome_bind]. by destruct (bool_decide _).
Qed.

Lemma round_255 num : 0 <= num <= 255 -> (if num =? 255 then 0 else num) = num mod 255.
Proof. intros Hn. destruct (Z.eqb_spec num 255) as [->|]; [done|]. by rewrite Z.mod_small by lia. Qed.

Lemma num_search_spec (d fuel : nat) num :
  0 <= num <= 255 -> (d < fuel)%nat -> (num + d) mod 255 ∉ numbers L -> (forall j : nat, (j < d)%nat -> (num + j) mod 255 ∈ numbers L) ->
  num_search fuel s a num = Ret ((num + d) mod 255).
Proof.
  revert fuel num. induction d as [|d IH]; intros fuel num Hn Hf Hd Hj; (destruct fuel as [|fuel]; [lia|]); rewrite num_search_eq; cbv zeta; rewrite round_255 by done.
  - rewrite Z.add_0_r in *. by rewrite bool_decide_false.
  - specialize (Hj 0%nat) as H0. rewrite Z.add_0_r in H0. rewrite bool_decide_true by (apply H0; lia).
    pose proof (Z.mod_pos_bound num 255 ltac:(lia)) as Hr. rewrite u8_small by lia.
    assert (Hshift : forall k : nat, (num mod 255 + 1 + k) mod 255 = (num + S k) mod 255).
    { intros k. rewrite <- Z.add_assoc, Zplus_mod_idemp_l. f_equal. lia. }
    rewrite IH; [by rewrite Hshift|lia|lia|by rewrite Hshift|]. intros j Hj'. rewrite Hshift. apply Hj. lia.
Qed.

(** With every number taken the search never ends. *)
Lemma num_search_hangs (fuel : nat) num :
  (forall n, 0 <= n <= 254 -> n ∈ numbers L) -> 0 <= num <= 255 -> num_search fuel s a num = Trap "netif_add: number: fuel".
Proof.
  intros Hall. revert num. induction fuel as [|fuel IH]; intros num Hn; [done|]. rewrite num_search_eq. cbv zeta.
  pose proof (Z.mod_pos_bound num 255 ltac:(lia)) as Hr. rewrite round_255, bool_decide_true by (done || apply Hall; lia).
  apply IH. rewrite u8_small; lia.
Qed.
End Search.

(** ** The invariant *)

(** [ext] are the pointers to packets from outside. *)
Context (ext : Z -> nat).

(** The protocols; the groups of the interfaces are [G]. *)
Record protocols_ok (k : protocols) (G : Z -> list (Z * igmp_group)) : Prop := ProtocolsOk {
  so_arp : exists B W, arp_inv (k_arp k) B ext W;
  so_igmp : igmp_inv (k_igmp k) G;
  so_udp : exists P, udp_inv (k_udp k) P
}.

(** What the interfaces rely on of TCP: a change of an address is dealt with, through
    the layers below, and leaves IGMP and UDP alone. *)
Class TcpPromise (tcp : protocols -> Z -> option Z -> outcome protocols) : Prop := {
  tcp_law k G old new : protocols_ok k G ->
    exists k', tcp k old new = Ret k' /\ protocols_ok k' G /\ k_igmp k' = k_igmp k /\ k_udp k' = k_udp k
}.

Context (tcp : protocols -> Z -> option Z -> outcome protocols) `{TP : !TcpPromise tcp}.

(** The interfaces of the list are [L], in their order. *)
Record nets_inv (s : nstate) (L : list (Z * netif_struct)) (G : Z -> list (Z * igmp_group)) : Prop := NetsInv {
  ni_seg : lseg nf_next (ns_nifs s) (ns_list s) L NULL;
  ni_null : ns_nifs s !! NULL = None;
  ni_type a x : ns_nifs s !! a = Some x -> netif_typed (nf x);
  ni_nums : NoDup (numbers L);
  ni_range : Forall (λ n, 0 <= n <= 254) (numbers L);
  ni_next : 0 <= ns_num s <= 254;
  ni_default : ns_default s = NULL \/ ns_default s ∈ L.*1;
  ni_stack : protocols_ok (ns_stack s) G;
  ni_owned n : G n <> [] -> exists x, x ∈ L /\ netif_num (nf x.2) = n /\ has_flag (nf x.2) NETIF_FLAG_IGMP = true
}.

(** ** Lemmas: the invariant *)

Lemma ni_elem s L G a x y : nets_inv s L G -> ns_nifs s !! a = Some x -> (a, y) ∈ L -> y = x.
Proof. intros HI Ha Hy. pose proof (lseg_lookup _ _ _ _ _ _ _ (ni_seg _ _ _ HI) Hy). congruence. Qed.

Lemma upd_elem a x' (L : list (Z * netif_struct)) z : z ∈ L -> (if decide (z.1 = a) then (a, x') else z) ∈ upd a x' L.
Proof. intros Hz. unfold upd. apply list_elem_of_fmap. by exists z. Qed.

Lemma numbers_upd s L G a x x' :
  nets_inv s L G -> ns_nifs s !! a = Some x -> netif_num (nf x') = netif_num (nf x) -> numbers (upd a x' L) = numbers L.
Proof.
  intros HI Ha Hn. unfold numbers, upd. rewrite <- list_fmap_compose. apply list_fmap_ext. intros i [b y] Hi. cbn. case_decide as Hb; [|done]. subst b.
  cbn. rewrite (ni_elem _ _ _ a x y HI Ha); [done|]. by eapply list_elem_of_lookup_2.
Qed.

Lemma upd_same s L G a x : nets_inv s L G -> ns_nifs s !! a = Some x -> upd a x L = L.
Proof.
  intros HI Ha. unfold upd. rewrite <- (list_fmap_id L) at 2. apply list_fmap_ext. intros i [b y] Hi. cbn. case_decide as Hb; [|done]. subst b.
  by rewrite (ni_elem _ _ _ a x y HI Ha) by (by eapply list_elem_of_lookup_2).
Qed.

Lemma upd_twice {A} a (x y : A) L : upd a y (upd a x L) = upd a y L.
Proof.
  unfold upd. rewrite <- list_fmap_compose. apply list_fmap_ext. intros i [b z] _. cbn. repeat case_decide; done || (cbn in *; congruence).
Qed.

(** Another state of the protocols. *)
Lemma inv_with_stack s L G G' k :
  nets_inv s L G -> protocols_ok k G' -> (forall n, G' n <> [] -> G n <> []) -> nets_inv (with_stack s k) L G'.
Proof. intros [] Hk HG. split; try done. intros n Hn. eauto. Qed.

(** Other fields of an interface, with the same number, link and flag of IGMP. *)
Lemma inv_set_nif s L G a x x' :
  nets_inv s L G -> ns_nifs s !! a = Some x -> nf_next x' = nf_next x -> netif_num (nf x') = netif_num (nf x) ->
  has_flag (nf x') NETIF_FLAG_IGMP = has_flag (nf x) NETIF_FLAG_IGMP -> netif_typed (nf x') ->
  nets_inv (set_nif s a x') (upd a x' L) G.
Proof.
  intros HI Ha Hnext Hnum Hflag Hty. pose proof (numbers_upd _ _ _ _ _ _ HI Ha Hnum) as EN. pose proof HI as [H1 H2 H3 H4 H5 H6 H7 H8 H9].
  split; cbn [set_nif with_nifs ns_nifs ns_list ns_default ns_num ns_stack]; rewrite ?EN, ?upd_fst; try done.
  - by eapply lseg_upd.
  - rewrite lookup_insert_ne by (intros ->; congruence). done.
  - intros b y Hb. apply lookup_insert_Some in Hb as [[_ <-]|[_ Hb]]; [done|]. by eapply H3.
  - intros n Hn. destruct (H9 n Hn) as ([b y] & Hin & E1 & E2). eexists. split; [by apply upd_elem|]. cbn. case_decide as Eb; [|done]. subst b. cbn in *.
    rewrite (ni_elem _ _ _ a x y HI Ha Hin) in *. cbn. by rewrite Hnum, Hflag.
Qed.

(** ** Lemmas: the calls into the protocols *)

(** The announcement of the address goes out, unless there is no memory for it. *)
Definition announced (n : netif) (a a' : arp (St := St)) : Prop :=
  arp_table a' = arp_table a
  /\ (a_log a' = a_log a ++ [(netif_num n, arp_request_frame n ethbroadcast (netif_ip4_addr n))]
      \/ a_log a' = a_log a /\ heap_full (a_ps a) PBUF_LINK 28).

(** The groups of the interface, but for the all-systems group, are due to be reported
    within half a second. *)
Definition groups_due (n : netif) (G G' : Z -> list (Z * igmp_group)) : Prop :=
  exists l', G' = set_list G (netif_num n) l'
    /\ match G (netif_num n) with
       | [] => l' = []
       | x :: l => exists l2, l' = x :: l2 /\ Forall2 (λ x y, y.1 = x.1 /\ delayed IGMP_JOIN_DELAYING_MEMBER_TMR x.2 y.2) l l2
       end.

Lemma gratuitous_ok k G n :
  protocols_ok k G -> is_mac (netif_hwaddr n) ->
  exists a, call_gratuitous linkoutput n k = Ret (with_karp k a) /\ protocols_ok (with_karp k a) G /\ announced n (k_arp k) a.
Proof.
  intros [(B & W & Ha) Hg Hu] Hhw. unfold call_gratuitous, etharp_gratuitous, etharp_request.
  destruct (arp_request_spec linkoutput link_room (k_arp k) B ext W n (netif_ip4_addr n) ethbroadcast Ha Hhw (proj1 mac_constants)) as (r & ps & out & -> & Hout & Ha' & _).
  cbn [mbind outcome_bind]. eexists. split; [done|]. split; [by split; [exists B, W| |]|]. split; [done|]. cbn.
  destruct Hout as [[_ ->]|(_ & -> & Hf)]; [by left|right]. by rewrite app_nil_r.
Qed.

Lemma cleanup_ok k G n :
  protocols_ok k G ->
  exists a, call_cleanup n k = Ret (with_karp k a) /\ protocols_ok (with_karp k a) G
    /\ arp_table a = (λ e, if of_netif n e then empty_entry else e) <$> arp_table (k_arp k) /\ a_log a = a_log (k_arp k).
Proof.
  intros [(B & W & Ha) Hg Hu]. unfold call_cleanup. destruct (etharp_cleanup_netif_correct (k_arp k) B ext W n Ha) as (a & B' & -> & Ha' & HT & Hlog).
  cbn [mbind outcome_bind]. exists a. split; [done|]. split; [|done]. split; [by eexists B', _|done|done].
Qed.

Lemma report_ok k G n :
  protocols_ok k G -> exists g G', call_report rnd n k = Ret (with_kigmp k g) /\ protocols_ok (with_kigmp k g) G' /\ groups_due n G G'.
Proof.
  intros [Ha Hg Hu]. unfold call_report, igmp_report_groups.
  destruct (delay_all_spec rnd (k_igmp k) G n IGMP_JOIN_DELAYING_MEMBER_TMR Hg ltac:(vm_compute; intuition congruence)) as (c & H & l' & E & Hg' & Hl).
  rewrite E. cbn [mbind outcome_bind]. eexists _, _. split; [done|]. split; [by split|]. by exists l'.
Qed.

Lemma stop_ok k G n :
  protocols_ok k G -> exists g, call_stop n k = Ret (with_kigmp k g) /\ protocols_ok (with_kigmp k g) (set_list G (netif_num n) []).
Proof.
  intros [Ha Hg Hu]. unfold call_stop. destruct (stop_spec (k_igmp k) G n Hg) as (g & -> & Hg' & _). cbn [mbind outcome_bind]. exists g. split; [done|by split].
Qed.

(** The interface is in the group of all systems only, if the pool has an element. *)
Definition groups_started (k : protocols) (n : Z) (G G' : Z -> list (Z * igmp_group)) : Prop :=
  (forall m, m <> n -> G' m = G m)
  /\ if decide (size (i_groups (k_igmp k)) < pool_cap (ElementPool := PiP))%nat then exists h, G' n = [(h, IgmpGroup NULL (allsystems (k_igmp k)) 0 IGMP_GROUP_IDLE_MEMBER 0 1)] else G' n = [].

Lemma start_ok k G n :
  protocols_ok k G -> G (netif_num n) = [] -> exists g G', call_start n k = Ret (with_kigmp k g) /\ protocols_ok (with_kigmp k g) G' /\ groups_started k (netif_num n) G G'.
Proof.
  intros [Ha Hg Hu] Hn. unfold call_start. destruct (start_spec (k_igmp k) G n Hg) as (e & g & G' & -> & Hg' & _ & HG & Hst). cbn [mbind outcome_bind]. rewrite Hn in Hst.
  exists g, G'. split; [done|]. split; [by split|]. split; [done|]. by case_decide; destruct Hst.
Qed.

(** The control blocks of UDP that are bound to the old address move to the new one. *)
Lemma addr_changed_ok k G old new :
  protocols_ok k G -> is_u32 (default IPADDR_ANY new) ->
  exists k', netif_do_ip_addr_changed tcp old new k = Ret k' /\ protocols_ok k' G /\ tcp k old new = Ret (with_kudp k' (k_udp k)) /\ k_igmp k' = k_igmp k
    /\ exists P, udp_inv (k_udp k) P
       /\ udp_inv (k_udp k') (if (old =? IPADDR_ANY) || (default IPADDR_ANY new =? IPADDR_ANY) then P else (λ x, (x.1, moved old (default IPADDR_ANY new) x.2)) <$> P).
Proof.
  intros Hk Hnew. unfold netif_do_ip_addr_changed. destruct (so_udp _ _ Hk) as (P & HP). destruct (tcp_law k G old new Hk) as (k1 & -> & [Ha Hg _] & Eg & Eu).
  cbn [mbind outcome_bind]. rewrite Eu. destruct (addr_changed_spec (k_udp k) P old (default IPADDR_ANY new) HP Hnew) as (u & P' & -> & HP' & _ & _ & EP').
  cbn [mbind outcome_bind]. eexists. split; [done|]. split; [by split; [| |exists P']|]. split; [rewrite <- Eu; by destruct k1|]. split; [done|]. exists P. split; [done|]. cbn. by rewrite <- EP'.
Qed.

(** ** Lemmas: reports and addresses *)

Definition operational (n : netif) : bool := has_flag n NETIF_FLAG_LINK_UP && has_flag n NETIF_FLAG_UP.

(** The reports of an interface that can send and has an address. *)
Definition reports_sent (n : netif) (k k' : protocols) (G G' : Z -> list (Z * igmp_group)) : Prop :=
  if operational n && negb (netif_ip4_addr n =? IPADDR_ANY) then
    k_udp k' = k_udp k /\ k_tcp k' = k_tcp k
    /\ (if has_flag n NETIF_FLAG_ETHARP then announced n (k_arp k) (k_arp k') else k_arp k' = k_arp k)
    /\ (if has_flag n NETIF_FLAG_IGMP then groups_due n G G' else k_igmp k' = k_igmp k /\ G' = G)
  else k' = k /\ G' = G.

Lemma groups_due_owned n G G' m : groups_due n G G' -> G' m <> [] -> G m <> [].
Proof.
  intros (l' & -> & Hl). unfold set_list. case_decide as E; [|done]. subst m. by destruct (G (netif_num n)); [intros H; by subst l'|].
Qed.

Lemma nif_at_eq (s : nstate) a x : ns_nifs s !! a = Some x -> nif_at s a = Ret x.
Proof. intros Ha. unfold nif_at. by rewrite Ha. Qed.

Lemma nif_nonnull s L G a x : nets_inv s L G -> ns_nifs s !! a = Some x -> (a =? NULL) = false.
Proof. intros HI Ha. apply Z.eqb_neq. intros ->. pose proof (ni_null _ _ _ HI). congruence. Qed.

Lemma issue_reports_spec s L G a x rt :
  nets_inv s L G -> ns_nifs s !! a = Some x -> (Z.land rt NETIF_REPORT_TYPE_IPV4 =? 0) = false ->
  exists k' G', netif_issue_reports linkoutput rnd s a rt = Ret (with_stack s k') /\ reports_sent (nf x) (ns_stack s) k' G G' /\ nets_inv (with_stack s k') L G'.
Proof.
  intros HI Ha Hrt. unfold netif_issue_reports, reports_sent, operational. rewrite (nif_nonnull _ _ _ _ _ HI Ha), LWIP_ASSERT_ok by done.
  cbn [mbind outcome_bind]. rewrite (nif_at_eq s a x Ha). cbn [mbind outcome_bind]. rewrite <- negb_andb, Hrt. unfold ip4_addr_isany_val.
  destruct (_ && _); cbn [negb andb]; [|exists (ns_stack s), G; split; [by destruct s|]; split; [done|by destruct s]].
  destruct (netif_ip4_addr (nf x) =? IPADDR_ANY); cbn [negb]; [exists (ns_stack s), G; split; [by destruct s|]; split; [done|by destruct s]|].
  pose proof (ni_stack _ _ _ HI) as Hk. destruct (ni_type _ _ _ HI _ _ Ha) as (_ & _ & _ & _ & _ & Hmac).
  assert (exists k1, (if has_flag (nf x) NETIF_FLAG_ETHARP then on_stack s (call_gratuitous linkoutput (nf x)) else Ret s) = Ret (with_stack s k1)
    /\ protocols_ok k1 G /\ k_udp k1 = k_udp (ns_stack s) /\ k_tcp k1 = k_tcp (ns_stack s) /\ k_igmp k1 = k_igmp (ns_stack s)
    /\ (if has_flag (nf x) NETIF_FLAG_ETHARP then announced (nf x) (k_arp (ns_stack s)) (k_arp k1) else k_arp k1 = k_arp (ns_stack s))) as (k1 & -> & Hk1 & E1 & E2 & E3 & Hann).
  { destruct (has_flag _ NETIF_FLAG_ETHARP); [|exists (ns_stack s); split; [by destruct s|done]].
    destruct (gratuitous_ok (ns_stack s) G (nf x) Hk (Hmac eq_refl)) as (r & E & Hk1 & Hr). unfold on_stack. rewrite E. cbn [mbind outcome_bind]. by eexists. }
  cbn [mbind outcome_bind]. destruct (has_flag _ NETIF_FLAG_IGMP).
  - destruct (report_ok k1 G (nf x) Hk1) as (g & G' & E & Hk2 & Hdue). unfold on_stack. cbn [with_stack ns_stack]. rewrite E. cbn [mbind outcome_bind].
    exists (with_kigmp k1 g), G'. split; [done|]. split; [done|]. eapply inv_with_stack; [done|done|]. intros m. by apply (groups_due_owned (nf x)).
  - exists k1, G. split; [done|]. split; [done|]. by eapply inv_with_stack.
Qed.

(** The interface at [a] is now [x'], and the list and the static variables are the same. *)
Definition settled (s : nstate) (L : list (Z * netif_struct)) (a : Z) (x' : netif_struct) (s' : nstate) (G' : Z -> list (Z * igmp_group)) : Prop :=
  ns_nifs s' = <[a := x']> (ns_nifs s) /\ ns_list s' = ns_list s /\ ns_default s' = ns_default s /\ ns_num s' = ns_num s
  /\ nets_inv s' (upd a x' L) G'.

Lemma settled_trans s L a x1 s1 G1 x2 s2 G2 : settled s L a x1 s1 G1 -> settled s1 (upd a x1 L) a x2 s2 G2 -> settled s L a x2 s2 G2.
Proof.
  intros (E1 & E2 & E3 & E4 & _) (F1 & F2 & F3 & F4 & HI). rewrite E1, insert_insert_eq in F1. rewrite upd_twice in HI. by split_and!; try congruence.
Qed.

Lemma settled_same s L G a x : nets_inv s L G -> ns_nifs s !! a = Some x -> settled s L a x s G.
Proof.
  intros HI Ha. split; [by rewrite insert_id|]. split_and!; try done. by rewrite (upd_same s L G).
Qed.

Lemma settled_at s L a x' s' G' : settled s L a x' s' G' -> ns_nifs s' !! a = Some x'.
Proof. intros (-> & _). apply lookup_insert_eq. Qed.

Lemma settled_set s L G a x n :
  nets_inv s L G -> ns_nifs s !! a = Some x -> netif_num n = netif_num (nf x) -> has_flag n NETIF_FLAG_IGMP = has_flag (nf x) NETIF_FLAG_IGMP ->
  netif_typed n -> nets_inv (set_nif s a (with_fields x n)) (upd a (with_fields x n) L) G.
Proof. intros. by eapply inv_set_nif. Qed.

Lemma typed_addr n x : netif_typed n -> is_u32 x -> netif_typed (nif_set_addr n x).
Proof. intros (? & ? & ? & ? & ? & ?) Hx. by split_and!. Qed.

Lemma typed_netmask n x : netif_typed n -> is_u32 x -> netif_typed (nif_set_netmask n x).
Proof. intros (? & ? & ? & ? & ? & ?) Hx. by split_and!. Qed.

Lemma typed_gw n x : netif_typed n -> is_u32 x -> netif_typed (nif_set_gw n x).
Proof. intros (? & ? & ? & ? & ? & ?) Hx. by split_and!. Qed.

Lemma set_addr_id x : with_fields x (nif_set_addr (nf x) (netif_ip4_addr (nf x))) = x.
Proof. by destruct x as [[]]. Qed.

Lemma set_netmask_id x : with_fields x (nif_set_netmask (nf x) (netif_ip4_netmask (nf x))) = x.
Proof. by destruct x as [[]]. Qed.

Lemma set_gw_id x : with_fields x (nif_set_gw (nf x) (netif_ip4_gw (nf x))) = x.
Proof. by destruct x as [[]]. Qed.

(** The address [old] of an interface is now [new]: TCP has been told, and the control
    blocks of UDP that were bound to it have the new one (none when one of them is 0). *)
Definition address_moved (old new : Z) (k k' : protocols) : Prop :=
  tcp k old (Some new) = Ret (with_kudp k' (k_udp k)) /\ k_igmp k' = k_igmp k
  /\ exists P, udp_inv (k_udp k) P
       /\ udp_inv (k_udp k') (if (old =? IPADDR_ANY) || (new =? IPADDR_ANY) then P else (λ x, (x.1, moved old new x.2)) <$> P).

(** What a new configuration [n'] of an interface that was [n] does to the protocols. *)
Definition readdressed (n n' : netif) (k k' : protocols) (G G' : Z -> list (Z * igmp_group)) : Prop :=
  if netif_ip4_addr n' =? netif_ip4_addr n then k' = k /\ G' = G
  else exists k1, address_moved (netif_ip4_addr n) (netif_ip4_addr n') k k1 /\ reports_sent n' k1 k' G G'.

Lemma do_set_ipaddr_spec s L G a x ip :
  nets_inv s L G -> ns_nifs s !! a = Some x -> is_u32 ip -> let n' := nif_set_addr (nf x) ip in
  exists c s' G', netif_do_set_ipaddr linkoutput rnd tcp s a ip = Ret (c, s') /\ settled s L a (with_fields x n') s' G' /\ readdressed (nf x) n' (ns_stack s) (ns_stack s') G G'.
Proof.
  intros HI Ha Hip n'. unfold netif_do_set_ipaddr, readdressed, n'. rewrite (nif_at_eq s a x Ha). cbn [mbind outcome_bind netif_ip4_addr nif_set_addr]. unfold ip4_addr_cmp.
  destruct (Z.eqb_spec ip (netif_ip4_addr (nf x))) as [->|Hne]; cbn [negb]; [exists false, s, G; split; [done|]; rewrite set_addr_id; split; [by eapply settled_same|done]|].
  destruct (addr_changed_ok (ns_stack s) G (netif_ip4_addr (nf x)) (Some ip) (ni_stack _ _ _ HI) Hip) as (k & E & Hk & Ht & Eg & P & HP & HP').
  unfold on_stack. rewrite E. cbn [mbind outcome_bind]. pose proof (inv_with_stack s L G G k HI Hk ltac:(done)) as HI1.
  pose proof (settled_set (with_stack s k) L G a x (nif_set_addr (nf x) ip) HI1 Ha eq_refl eq_refl (typed_addr _ _ (ni_type _ _ _ HI _ _ Ha) Hip)) as HI2.
  destruct (issue_reports_spec _ _ _ a _ NETIF_REPORT_TYPE_IPV4 HI2 (lookup_insert_eq _ _ _) eq_refl) as (k' & G' & E' & Hrep & HI3).
  rewrite E'. cbn [mbind outcome_bind]. eexists true, _, G'. split; [done|]. split; [by split_and!|]. exists k. split; [|exact Hrep]. split; [exact Ht|]. split; [done|]. by exists P.
Qed.

Lemma do_set_netmask_spec s L G a x nm :
  nets_inv s L G -> ns_nifs s !! a = Some x -> is_u32 nm ->
  exists c s', netif_do_set_netmask s a nm = Ret (c, s') /\ settled s L a (with_fields x (nif_set_netmask (nf x) nm)) s' G /\ ns_stack s' = ns_stack s.
Proof.
  intros HI Ha Hnm. unfold netif_do_set_netmask. rewrite (nif_at_eq s a x Ha). cbn [mbind outcome_bind]. unfold ip4_addr_cmp.
  destruct (Z.eqb_spec nm (netif_ip4_netmask (nf x))) as [->|Hne]; cbn [negb]; [exists false, s; split; [done|]; rewrite set_netmask_id; split; [by eapply settled_same|done]|].
  eexists true, _. split; [done|]. split; [|done]. split_and!; try done. apply settled_set; try done. apply typed_netmask; [by eapply ni_type|done].
Qed.

Lemma do_set_gw_spec s L G a x gw :
  nets_inv s L G -> ns_nifs s !! a = Some x -> is_u32 gw ->
  exists c s', netif_do_set_gw s a gw = Ret (c, s') /\ settled s L a (with_fields x (nif_set_gw (nf x) gw)) s' G /\ ns_stack s' = ns_stack s.
Proof.
  intros HI Ha Hgw. unfold netif_do_set_gw. rewrite (nif_at_eq s a x Ha). cbn [mbind outcome_bind]. unfold ip4_addr_cmp.
  destruct (Z.eqb_spec gw (netif_ip4_gw (nf x))) as [->|Hne]; cbn [negb]; [exists false, s; split; [done|]; rewrite set_gw_id; split; [by eapply settled_same|done]|].
  eexists true, _. split; [done|]. split; [|done]. split_and!; try done. apply settled_set; try done. apply typed_gw; [by eapply ni_type|done].
Qed.

(** The addresses that netif_set_addr configures. *)
Definition configured (n : netif) (ip nm gw : option Z) : netif :=
  nif_set_addr (nif_set_gw (nif_set_netmask n (default IPADDR_ANY nm)) (default IPADDR_ANY gw)) (default IPADDR_ANY ip).


Lemma set_addr_spec s L G a x ip nm gw :
  nets_inv s L G -> ns_nifs s !! a = Some x -> is_u32 (default IPADDR_ANY ip) -> is_u32 (default IPADDR_ANY nm) -> is_u32 (default IPADDR_ANY gw) ->
  let n' := configured (nf x) ip nm gw in
  exists s' G', netif_set_addr linkoutput rnd tcp s a ip nm gw = Ret s' /\ settled s L a (with_fields x n') s' G' /\ readdressed (nf x) n' (ns_stack s) (ns_stack s') G G'.
Proof.
  intros HI Ha Hip Hnm Hgw. unfold netif_set_addr, configured. destruct (ip4_addr_isany_val _); cbn [negb].
  - destruct (do_set_ipaddr_spec s L G a x _ HI Ha Hip) as (c1 & s1 & G1 & -> & H1 & Hr). cbn [mbind outcome_bind]. pose proof H1 as (_ & _ & _ & _ & I1).
    destruct (do_set_netmask_spec s1 _ G1 a _ _ I1 (settled_at _ _ _ _ _ _ H1) Hnm) as (c2 & s2 & -> & H2 & K2). cbn [mbind outcome_bind]. pose proof H2 as (_ & _ & _ & _ & I2).
    destruct (do_set_gw_spec s2 _ G1 a _ _ I2 (settled_at _ _ _ _ _ _ H2) Hgw) as (c3 & s3 & -> & H3 & K3). cbn [mbind outcome_bind]. exists s3, G1. split; [done|].
    split; [exact (settled_trans _ _ _ _ _ _ _ _ _ (settled_trans _ _ _ _ _ _ _ _ _ H1 H2) ltac:(rewrite upd_twice in H3; exact H3))|]. rewrite K3, K2. exact Hr.
  - cbn [mbind outcome_bind]. destruct (do_set_netmask_spec s L G a x _ HI Ha Hnm) as (c2 & s2 & -> & H2 & K2). cbn [mbind outcome_bind]. pose proof H2 as (_ & _ & _ & _ & I2).
    destruct (do_set_gw_spec s2 _ G a _ _ I2 (settled_at _ _ _ _ _ _ H2) Hgw) as (c3 & s3 & -> & H3 & K3). cbn [mbind outcome_bind]. pose proof H3 as (_ & _ & _ & _ & I3).
    destruct (do_set_ipaddr_spec s3 _ G a _ _ I3 (settled_at _ _ _ _ _ _ H3) Hip) as (c1 & s1 & G1 & -> & H1 & Hr). cbn [mbind outcome_bind]. exists s1, G1. split; [done|].
    split; [exact (settled_trans _ _ _ _ _ _ _ _ _ (settled_trans _ _ _ _ _ _ _ _ _ H2 H3) ltac:(rewrite upd_twice in H1; exact H1))|]. rewrite K3, K2 in Hr. exact Hr.
Qed.

(** ** Lemmas: up and down *)

Inductive link_event := EvUp | EvDown | EvLinkUp | EvLinkDown.

Definition run_event (s : nstate) (a : Z) (ev : link_event) : outcome nstate :=
  match ev with
  | EvUp => netif_set_up linkoutput rnd s a
  | EvDown => netif_set_down s a
  | EvLinkUp => netif_set_link_up linkoutput rnd s a
  | EvLinkDown => netif_set_link_down s a
  end.

(** The state machine: whether the interface is up, and whether its link is. *)
Definition link_step (ev : link_event) (st : bool * bool) : bool * bool :=
  match ev with
  | EvUp => (true, st.2)
  | EvDown => (false, st.2)
  | EvLinkUp => (st.1, true)
  | EvLinkDown => (st.1, false)
  end.

(** What an event does to the protocols: reports when the interface becomes able to
    send, a clean table when it goes down. *)
Definition event_effect (ev : link_event) (n n' : netif) (k k' : protocols) (G G' : Z -> list (Z * igmp_group)) : Prop :=
  if bool_decide (link_state n <> (true, true) /\ link_state n' = (true, true)) then reports_sent n' k k' G G'
  else
    G' = G /\ k_igmp k' = k_igmp k /\ k_udp k' = k_udp k /\ k_tcp k' = k_tcp k
    /\ match ev with
       | EvDown =>
           if has_flag n NETIF_FLAG_UP && has_flag n NETIF_FLAG_ETHARP
           then arp_table (k_arp k') = (λ e, if of_netif n e then empty_entry else e) <$> arp_table (k_arp k) /\ a_log (k_arp k') = a_log (k_arp k)
           else k_arp k' = k_arp k
       | _ => k_arp k' = k_arp k
       end.

Lemma kept_igmp n n' : Forall (λ f, has_flag n' f = has_flag n f) kept_flags -> has_flag n' NETIF_FLAG_IGMP = has_flag n NETIF_FLAG_IGMP.
Proof. rewrite Forall_forall. intros HF. apply HF. unfold kept_flags. set_solver. Qed.

Lemma operational_state n : operational n = bool_decide (link_state n = (true, true)).
Proof. unfold operational, link_state. by destruct (has_flag n NETIF_FLAG_LINK_UP), (has_flag n NETIF_FLAG_UP). Qed.

(** Nothing to do. *)
Lemma event_none s L G a x ev :
  nets_inv s L G -> ns_nifs s !! a = Some x -> link_step ev (link_state (nf x)) = link_state (nf x) -> (ev = EvDown -> has_flag (nf x) NETIF_FLAG_UP = false) ->
  exists s' n' G', Ret s = Ret s' /\ settled s L a (with_fields x n') s' G' /\ n' = nif_set_flags (nf x) (netif_flags n')
    /\ link_state n' = link_step ev (link_state (nf x)) /\ Forall (λ f, has_flag n' f = has_flag (nf x) f) kept_flags
    /\ event_effect ev (nf x) n' (ns_stack s) (ns_stack s') G G'.
Proof.
  intros HI Ha Hst Hd. exists s, (nf x), G. split; [done|]. replace (with_fields x (nf x)) with x by (by destruct x). split; [by eapply settled_same|].
  split; [by destruct (nf x)|]. split; [done|]. split; [by rewrite Forall_forall|]. unfold event_effect. rewrite bool_decide_false by (intros [Hn Hy]; done).
  split_and!; try done. destruct ev; try done. by rewrite Hd.
Qed.

(** A flag is set, and what has to be reported is. *)
Lemma event_set s L G a x ev f rt :
  nets_inv s L G -> ns_nifs s !! a = Some x -> let n' := netif_set_flags (nf x) f in
  ev <> EvDown -> (Z.land rt NETIF_REPORT_TYPE_IPV4 =? 0) = false -> link_state (nf x) <> link_state n' ->
  link_state n' = link_step ev (link_state (nf x)) /\ Forall (λ f, has_flag n' f = has_flag (nf x) f) kept_flags ->
  exists s' n' G', netif_issue_reports linkoutput rnd (set_nif s a (with_fields x (netif_set_flags (nf x) f))) a rt = Ret s'
    /\ settled s L a (with_fields x n') s' G' /\ n' = nif_set_flags (nf x) (netif_flags n')
    /\ link_state n' = link_step ev (link_state (nf x)) /\ Forall (λ f, has_flag n' f = has_flag (nf x) f) kept_flags
    /\ event_effect ev (nf x) n' (ns_stack s) (ns_stack s') G G'.
Proof.
  intros HI Ha n' Hev Hrt Hch [Hst HF].
  pose proof (settled_set s L G a x n' HI Ha eq_refl (kept_igmp _ _ HF) (typed_flags _ _ (ni_type _ _ _ HI _ _ Ha) (u8_range _) HF)) as HI1.
  destruct (issue_reports_spec _ _ _ a _ rt HI1 (lookup_insert_eq _ _ _) Hrt) as (k' & G' & E & Hr & HI2). eexists _, n', G'. split; [exact E|].
  split; [by split_and!|]. split; [done|]. split; [done|]. split; [done|]. unfold event_effect. cbn [with_stack ns_stack] in *.
  cbn [with_fields nf set_nif with_nifs ns_stack] in Hr. case_bool_decide as Hb; [done|]. unfold reports_sent in Hr. rewrite operational_state, bool_decide_false in Hr by (intros E'; apply Hb; split; [congruence|exact E']).
  destruct Hr as [-> ->]. split_and!; try done. by destruct ev.
Qed.

(** The whole state machine of netif_set_up, netif_set_down, netif_set_link_up and netif_set_link_down. *)
Lemma event_spec s L G a x ev :
  nets_inv s L G -> ns_nifs s !! a = Some x ->
  exists s' n' G', run_event s a ev = Ret s' /\ settled s L a (with_fields x n') s' G' /\ n' = nif_set_flags (nf x) (netif_flags n')
    /\ link_state n' = link_step ev (link_state (nf x)) /\ Forall (λ f, has_flag n' f = has_flag (nf x) f) kept_flags
    /\ event_effect ev (nf x) n' (ns_stack s) (ns_stack s') G G'.
Proof.
  intros HI Ha. pose proof (nif_nonnull _ _ _ _ _ HI Ha) as Hnn.
  destruct ev; cbn [run_event]; unfold netif_set_up, netif_set_down, netif_set_link_up, netif_set_link_down; rewrite Hnn, LWIP_ERROR_ok by done;
    cbn [mbind outcome_bind]; rewrite (nif_at_eq s a x Ha); cbn [mbind outcome_bind].
  - destruct (has_flag (nf x) NETIF_FLAG_UP) eqn:Eu; cbn [negb]; [eapply event_none; try done; unfold link_state; by rewrite Eu|].
    eapply event_set; try done; [by rewrite (proj1 (set_up_flags _)); unfold link_state; rewrite Eu|apply set_up_flags].
  - destruct (has_flag (nf x) NETIF_FLAG_UP) eqn:Eu; [|eapply event_none; try done; unfold link_state; by rewrite Eu].
    destruct (clear_up_flags (nf x)) as [Hst HF]. set (n' := netif_clear_flags (nf x) NETIF_FLAG_UP) in *.
    pose proof (settled_set s L G a x n' HI Ha eq_refl (kept_igmp _ _ HF) (typed_flags _ _ (ni_type _ _ _ HI _ _ Ha) (u8_range _) HF)) as HI1.
    assert (Harp : has_flag n' NETIF_FLAG_ETHARP = has_flag (nf x) NETIF_FLAG_ETHARP) by (rewrite Forall_forall in HF; apply HF; unfold kept_flags; set_solver).
    unfold event_effect. rewrite Eu. cbn [nf with_fields andb]. rewrite Harp. destruct (has_flag (nf x) NETIF_FLAG_ETHARP).
    + destruct (cleanup_ok (ns_stack s) G n' (ni_stack _ _ _ HI)) as (r & E & Hk & HT & Hlog). unfold on_stack. cbn [set_nif with_nifs ns_stack]. rewrite E. cbn [mbind outcome_bind].
      eexists _, n', G. split; [done|]. split; [split_and!; try done; by eapply inv_with_stack|]. split; [done|]. split; [done|]. split; [done|].
      rewrite bool_decide_false by (rewrite Hst; naive_solver). by split_and!.
    + eexists _, n', G. split; [done|]. split; [by split_and!|]. split; [done|]. split; [done|]. split; [done|].
      rewrite bool_decide_false by (rewrite Hst; naive_solver). by split_and!.
  - destruct (has_flag (nf x) NETIF_FLAG_LINK_UP) eqn:Eu; cbn [negb]; [eapply event_none; try done; unfold link_state; by rewrite Eu|].
    eapply event_set; try done; [by rewrite (proj1 (set_link_flags _)); unfold link_state; rewrite Eu|apply set_link_flags].
  - destruct (has_flag (nf x) NETIF_FLAG_LINK_UP) eqn:Eu; [|eapply event_none; try done; unfold link_state; by rewrite Eu].
    destruct (clear_link_flags (nf x)) as [Hst HF]. set (n' := netif_clear_flags (nf x) NETIF_FLAG_LINK_UP) in *.
    pose proof (settled_set s L G a x n' HI Ha eq_refl (kept_igmp _ _ HF) (typed_flags _ _ (ni_type _ _ _ HI _ _ Ha) (u8_range _) HF)) as HI1.
    eexists _, n', G. split; [done|]. split; [by split_and!|]. split; [done|]. split; [done|]. split; [done|].
    unfold event_effect. rewrite bool_decide_false by (rewrite Hst; naive_solver). by split_and!.
Qed.

(** ** Lemmas: adding *)

(** A structure that is not on the list. *)
Lemma inv_unlisted s L G a x : nets_inv s L G -> a ∉ L.*1 -> (a =? NULL) = false -> netif_typed (nf x) -> nets_inv (set_nif s a x) L G.
Proof.
  intros [H1 H2 H3 H4 H5 H6 H7 H8 H9] Ha Hnn Hty. split; try done; cbn [set_nif with_nifs ns_nifs ns_list].
  - by apply lseg_insert.
  - rewrite lookup_insert_ne; [done|]. by apply Z.eqb_neq.
  - intros b y Hb. apply lookup_insert_Some in Hb as [[_ <-]|[_ Hb]]; [done|]. by eapply H3.
Qed.

Lemma settled_unlisted s L a x' s' G' : settled s L a x' s' G' -> a ∉ L.*1 -> nets_inv s' L G'.
Proof. intros (_ & _ & _ & _ & HI) Ha. by rewrite upd_id in HI. Qed.

(** netif->client_data of an interface without groups. *)
Lemma clear_data_ok (g : igmp (St := St) (Lk := Lk) (Pl := Pi)) G n : igmp_inv g G -> G (netif_num n) = [] -> igmp_inv (set_igmp_data g n NULL) G.
Proof.
  intros [[H1 H2 H3 H4] Hl Ha] Hn. split; [|done|done]. split; [|done|done|done]. cbn. intros m. destruct (decide (m = netif_num n)) as [->|Hne].
  - rewrite lookup_insert_eq, Hn. done.
  - rewrite lookup_insert_ne by done. apply H1.
Qed.

(** The interface at the head of the list, with a number of its own. *)
Lemma inv_cons s L G a x n k :
  nets_inv s L G -> a ∉ L.*1 -> (a =? NULL) = false -> netif_typed (nf x) -> netif_num (nf x) = n -> 0 <= n <= 254 -> n ∉ numbers L -> protocols_ok k G ->
  nets_inv (with_nlist (set_nif (with_nnum (with_stack s k) (if n =? 254 then 0 else u8 (n + 1))) a (with_link x (ns_list s))) a) ((a, with_link x (ns_list s)) :: L) G.
Proof.
  intros HI Ha Hnn Hty Hn Hr Hf Hk. pose proof (inv_unlisted s L G a (with_link x (ns_list s)) HI Ha Hnn Hty) as [H1 H2 H3 H4 H5 H6 H7 H8 H9].
  split; cbn [with_nlist set_nif with_nifs with_nnum with_stack ns_nifs ns_list ns_num ns_default ns_stack] in *; try done.
  - cbn. rewrite lookup_insert_eq. done.
  - cbn. constructor; [|done]. by rewrite Hn.
  - cbn. constructor; [|done]. by rewrite Hn.
  - destruct (n =? 254) eqn:E; [lia|]. rewrite u8_small; lia.
  - cbn. destruct H7 as [|H7]; [by left|right]. by right.
  - intros m Hm. destruct (H9 m Hm) as (y & Hy & ?). exists y. split; [by right|done].
Qed.

Lemma free_no_groups s L G n : nets_inv s L G -> n ∉ numbers L -> G n = [].
Proof.
  intros HI Hn. destruct (G n) as [|y l] eqn:E; [done|]. destruct (ni_owned _ _ _ HI n) as (z & Hz & Ez & _); [by rewrite E|]. exfalso. apply Hn. subst n.
  apply list_elem_of_fmap. by exists z.
Qed.

Lemma next_number n : 0 <= n <= 254 -> (if n =? 254 then 0 else u8 (n + 1)) = (n + 1) mod 255.
Proof. intros Hn. destruct (Z.eqb_spec n 254) as [->|]; [done|]. rewrite u8_small, Z.mod_small; lia. Qed.

(** The driver keeps to the widths of the fields. *)
Definition init_typed (init : netif_struct -> err_t * netif_struct) : Prop := forall y, netif_typed (nf y) -> netif_typed (nf (init y).2).

(** The structure that the driver gets. *)
Definition prepared (s : nstate) (x : netif_struct) (ip nm gw : option Z) (state input : Z) : netif_struct :=
  let y := reset_fields x state input (ns_num s) in with_fields y (configured (nf y) ip nm gw).

(** An interface without flags is not reported. *)
Lemma readdressed_quiet n n' k k' G G' : netif_flags n' = 0 -> readdressed n n' k k' G G' -> G' = G /\ k_igmp k' = k_igmp k.
Proof.
  intros Hf. unfold readdressed, reports_sent, operational, has_flag. rewrite Hf. case_match; [by intros [-> ->]|]. by intros (k1 & (_ & E & _) & -> & ->).
Qed.

(** netif_add up to the search for a number. *)
Lemma add_prepare fuel s L G a x ip nm gw state init input :
  nets_inv s L G -> ns_nifs s !! a = Some x -> a ∉ L.*1 -> init_typed init ->
  is_u32 (default IPADDR_ANY ip) -> is_u32 (default IPADDR_ANY nm) -> is_u32 (default IPADDR_ANY gw) ->
  let r := init (prepared s x ip nm gw state input) in
  exists s1, nets_inv s1 L G /\ k_igmp (ns_stack s1) = k_igmp (ns_stack s) /\ ns_nifs s1 = <[a := r.2]> (ns_nifs s) /\ ns_list s1 = ns_list s /\ ns_default s1 = ns_default s /\ ns_num s1 = ns_num s /\ netif_typed (nf r.2)
    /\ netif_add linkoutput rnd tcp fuel s a ip nm gw state (Some init) input =
       if negb (bool_decide (r.1 = ERR_OK)) then Ret (NULL, s1)
       else
         num ← num_search fuel s1 a (netif_num (nf r.2));
         let x := with_fields r.2 (nif_set_num (nf r.2) num) in
         let k := with_kigmp (ns_stack s1) (set_igmp_data (k_igmp (ns_stack s1)) (nf x) NULL) in
         let s := with_nlist (set_nif (with_nnum (with_stack s1 k) (if num =? 254 then 0 else u8 (num + 1))) a (with_link x (ns_list s1))) a in
         s ← (if has_flag (nf x) NETIF_FLAG_IGMP then on_stack s (call_start (nf x)) else Ret s);
         Ret (a, s).
Proof.
  intros HI Ha Hout Hinit Hip Hnm Hgw r. pose proof (nif_nonnull _ _ _ _ _ HI Ha) as Hnn. unfold netif_add. rewrite Hnn, LWIP_ERROR_ok by done.
  cbn [mbind outcome_bind]. rewrite (nif_at_eq s a x Ha). cbn [mbind outcome_bind]. set (y := reset_fields x state input (ns_num s)).
  assert (Hy : netif_typed (nf y)).
  { pose proof (ni_next _ _ _ HI). unfold netif_typed, y. cbn. unfold is_u8, is_u32, IPADDR_ANY. split_and!; try lia. done. }
  pose proof (inv_unlisted s L G a y HI Hout Hnn Hy) as HI0.
  destruct (set_addr_spec (set_nif s a y) L G a y ip nm gw HI0 (lookup_insert_eq _ _ _) Hip Hnm Hgw) as (s1 & G1 & E & H1 & Hre). apply readdressed_quiet in Hre as [-> Hk]; [|done]. rewrite E. cbn [mbind outcome_bind].
  rewrite (nif_at_eq s1 a _ (settled_at _ _ _ _ _ _ H1)). cbn [mbind outcome_bind]. fold (prepared s x ip nm gw state input). fold r.
  pose proof (settled_unlisted _ _ _ _ _ _ H1 Hout) as HI1. destruct H1 as (E1 & E2 & E3 & E4 & _).
  assert (Hr : netif_typed (nf r.2)).
  { apply Hinit. apply (ni_type _ _ _ HI1 a). rewrite E1. apply lookup_insert_eq. }
  exists (set_nif s1 a r.2). split; [by apply inv_unlisted|]. split; [done|]. split; [cbn; rewrite E1; cbn; by rewrite !insert_insert_eq|]. do 4 (split; [done|]). reflexivity.
Qed.

(** netif_add with a driver that succeeds and a free number. *)
Lemma netif_add_spec (fuel : nat) s L G a x ip nm gw state init input n :
  nets_inv s L G -> ns_nifs s !! a = Some x -> a ∉ L.*1 -> (length L <= 255)%nat -> init_typed init ->
  is_u32 (default IPADDR_ANY ip) -> is_u32 (default IPADDR_ANY nm) -> is_u32 (default IPADDR_ANY gw) ->
  let r := init (prepared s x ip nm gw state input) in
  r.1 = ERR_OK -> first_free_num (numbers L) (netif_num (nf r.2)) n -> (255 <= fuel)%nat ->
  let x' := with_link (with_fields r.2 (nif_set_num (nf r.2) n)) (ns_list s) in
  exists s' G', netif_add linkoutput rnd tcp fuel s a ip nm gw state (Some init) input = Ret (a, s')
    /\ nets_inv s' ((a, x') :: L) G' /\ ns_nifs s' = <[a := x']> (ns_nifs s) /\ ns_default s' = ns_default s /\ ns_num s' = (n + 1) mod 255
    /\ if has_flag (nf r.2) NETIF_FLAG_IGMP then groups_started (ns_stack s) n G G' else G' = G.
Proof.
  intros HI Ha Hout Hlen Hinit Hip Hnm Hgw r Hr (d & Hd & En & Hfree & Hj) Hf x'.
  destruct (add_prepare fuel s L G a x ip nm gw state init input HI Ha Hout Hinit Hip Hnm Hgw) as (s1 & HI1 & Ek & E0 & E1 & E2 & E3 & Hty & E). fold r in E, Hty, E0. rewrite E, Hr.
  rewrite bool_decide_true by done. cbn [negb]. clear E. destruct Hty as (Hu & Hty). assert (0 <= netif_num (nf r.2) <= 255) as Hu' by (unfold is_u8 in Hu; lia).
  rewrite (num_search_spec s1 L a (ni_seg _ _ _ HI1) (ni_null _ _ _ HI1) Hout Hlen d fuel (netif_num (nf r.2)) Hu') by (lia || done || by rewrite <- En). rewrite <- En.
  cbn [mbind outcome_bind]. assert (Hn : 0 <= n <= 254) by (pose proof (Z.mod_pos_bound (netif_num (nf r.2) + d) 255 ltac:(lia)); lia).
  set (y := with_fields r.2 (nif_set_num (nf r.2) n)) in *. assert (Hty' : netif_typed (nf y)) by (destruct Hty as (? & ? & ? & ? & ?); split_and!; try done; unfold is_u8; cbn; lia).
  pose proof (free_no_groups _ _ _ n HI1 Hfree) as HG. destruct (ni_stack _ _ _ HI1) as [Sa Sg Su].
  set (k := with_kigmp _ _). assert (Hk : protocols_ok k G) by (split; [done|by apply clear_data_ok|done]).
  pose proof (inv_cons s1 L G a y n k HI1 Hout (nif_nonnull _ _ _ _ _ HI Ha) Hty' eq_refl Hn Hfree Hk) as HI2. cbv zeta. rewrite next_number in HI2 |- * by done.
  rewrite E1 in HI2 |- *. fold x' in HI2 |- *. set (s2 := with_nlist _ a) in *. assert (En2 : ns_nifs s2 = <[a := x']> (ns_nifs s)) by (cbn; by rewrite E0, insert_insert_eq).
  change (has_flag (nf r.2) NETIF_FLAG_IGMP) with (has_flag (nf y) NETIF_FLAG_IGMP). destruct (has_flag (nf y) NETIF_FLAG_IGMP) eqn:Eg.
  - destruct (start_ok k G (nf y) Hk HG) as (g & G2 & Es & Hk2 & HG2). unfold on_stack. change (ns_stack s2) with k. rewrite Es. cbn [mbind outcome_bind].
    exists (with_stack s2 (with_kigmp k g)), G2. split; [done|]. split; [|split; [done|split; [done|split; [done|]]]; unfold groups_started in *; cbn in HG2; by rewrite Ek in HG2]. destruct HI2 as [H1 H2 H3 H4 H5 H6 H7 H8 H9]. split; try done.
    intros m Hm. destruct (decide (m = n)) as [->|Hne]; [eexists; split; [by left|]; by split|]. apply H9. by rewrite <- (proj1 HG2 m).
  - cbn [mbind outcome_bind]. by exists s2, G.
Qed.

(** ** Lemmas: removing *)

(** The interfaces of a list as the other modules see them. *)
Definition fields (L : list (Z * netif_struct)) : list (Z * netif) := (λ y, (y.1, nf y.2)) <$> L.

Lemma fields_eq L L' : fields L' = fields L -> L'.*1 = L.*1 /\ numbers L' = numbers L.
Proof.
  intros E. split.
  - apply (f_equal (fmap fst)) in E. unfold fields in E. rewrite <- !list_fmap_compose in E. exact E.
  - apply (f_equal (fmap (λ y, netif_num y.2))) in E. unfold fields in E. rewrite <- !list_fmap_compose in E. exact E.
Qed.

Lemma fields_elem L L' z : fields L' = fields L -> z ∈ L -> exists z', z' ∈ L' /\ z'.1 = z.1 /\ nf z'.2 = nf z.2.
Proof.
  intros E Hz. assert (Hf : (z.1, nf z.2) ∈ fields L') by (rewrite E; unfold fields; apply list_elem_of_fmap; by exists z).
  unfold fields in Hf. apply list_elem_of_fmap in Hf as (z' & [= E1 E2] & Hz'). by exists z'.
Qed.

(** The list without one interface, which has no groups. *)
Lemma inv_without s s' L1 a x L2 L' G :
  nets_inv s (L1 ++ (a, x) :: L2) G -> G (netif_num (nf x)) = [] -> fields L' = fields (L1 ++ L2) ->
  lseg nf_next (ns_nifs s') (ns_list s') L' NULL -> ns_nifs s' !! NULL = None -> (forall b, nf <$> (ns_nifs s' !! b) = nf <$> (ns_nifs s !! b)) ->
  ns_default s' = (if ns_default s =? a then NULL else ns_default s) -> ns_num s' = ns_num s -> ns_stack s' = ns_stack s -> nets_inv s' L' G.
Proof.
  intros [H1 H2 H3 H4 H5 H6 H7 H8 H9] HG Ef Hs Hn Hty Hd Hnum Hst. destruct (fields_eq _ _ Ef) as [E1 E2].
  assert (EN : numbers (L1 ++ (a, x) :: L2) ≡ₚ netif_num (nf x) :: numbers (L1 ++ L2)) by (unfold numbers; by rewrite <- Permutation_middle).
  assert (Hnd : NoDup (netif_num (nf x) :: numbers (L1 ++ L2))) by (by rewrite <- EN). apply NoDup_cons in Hnd as [_ Hnd].
  split; try done; rewrite ?E1, ?E2, ?Hnum, ?Hst; try done.
  - intros b y Hb. specialize (Hty b). rewrite Hb in Hty. destruct (ns_nifs s !! b) as [z|] eqn:Hz; [|done]. cbn in Hty. injection Hty as ->. by eapply H3.
  - rewrite EN in H5. by apply Forall_cons in H5 as [_ H5].
  - rewrite Hd. destruct (Z.eqb_spec (ns_default s) a) as [|Hne]; [by left|]. destruct H7 as [H7|H7]; [by left|right]. rewrite fmap_app, fmap_cons in H7. rewrite fmap_app. set_solver.
  - intros n Hgn. destruct (H9 n Hgn) as (z & Hz & Ez & Efl). assert (Hz' : z ∈ L1 ++ L2).
    { apply elem_of_app in Hz as [Hz|Hz]; [apply elem_of_app; by left|]. apply elem_of_cons in Hz as [->|Hz]; [cbn in Ez; subst n; done|]. apply elem_of_app. by right. }
    destruct (fields_elem _ _ z Ef Hz') as (z' & Hin & _ & En). exists z'. by rewrite En.
Qed.

(** The walk to the interface before [a]. *)
Lemma unlink_loop_spec (fuel : nat) (s : nstate) a x L1 b y L2 q :
  lseg nf_next (ns_nifs s) q ((L1 ++ [(b, y)]) ++ (a, x) :: L2) NULL -> ns_nifs s !! NULL = None -> NoDup (((L1 ++ [(b, y)]) ++ (a, x) :: L2).*1) -> (length L1 < fuel)%nat ->
  unlink_loop fuel s a q = Ret (set_nif s b (with_link y (nf_next x))).
Proof.
  intros Hs Hn. revert fuel q Hs. induction L1 as [|[c z] L1 IH]; intros fuel q Hs Hnd Hf; (destruct fuel as [|fuel]; [lia|]).
  - destruct Hs as (-> & Hb & Ha & Hx & _). cbn [unlink_loop]. rewrite (proj2 (Z.eqb_neq b NULL)) by congruence. rewrite (nif_at_eq s b y Hb). cbn [mbind outcome_bind].
    rewrite Ha, Z.eqb_refl, (nif_at_eq s a x) by congruence. done.
  - pose proof Hs as (-> & Hc & Hs'). cbn [unlink_loop]. rewrite (proj2 (Z.eqb_neq c NULL)) by congruence. rewrite (nif_at_eq s c z Hc). cbn [mbind outcome_bind].
    assert (Hne : nf_next z <> a).
    { intros E. cbn in Hnd. apply NoDup_cons in Hnd as [_ Hnd]. assert (Hnx : exists w l, L1 ++ [(b, y)] = (nf_next z, w) :: l).
      { destruct L1 as [|[d w] L1]; cbn in Hs' |- *; destruct Hs' as (-> & _); by eexists _, _. }
      destruct Hnx as (w & l & El). rewrite El in Hnd. cbn in Hnd. apply NoDup_cons in Hnd as [Hnd _]. apply Hnd. rewrite E, fmap_app, fmap_cons. apply elem_of_app. right. by left. }
    rewrite (proj2 (Z.eqb_neq _ _) Hne). apply IH; [done| |cbn in Hf; lia]. cbn in Hnd. by apply NoDup_cons in Hnd as [_ ?].
Qed.

(** The end of netif_remove. *)
Definition unlink (s : nstate) (a : Z) : outcome nstate :=
  let s := if ns_default s =? a then netif_set_default s NULL else s in
  if ns_list s =? a then x ← nif_at s a; Ret (with_nlist s (nf_next x)) else unlink_loop (S (size (ns_nifs s))) s a (ns_list s).

Lemma unlink_spec s L1 a x L2 G :
  nets_inv s (L1 ++ (a, x) :: L2) G -> G (netif_num (nf x)) = [] ->
  exists s' L', unlink s a = Ret s' /\ nets_inv s' L' G /\ fields L' = fields (L1 ++ L2)
    /\ ns_default s' = (if ns_default s =? a then NULL else ns_default s) /\ ns_num s' = ns_num s /\ ns_stack s' = ns_stack s
    /\ forall b, nf <$> (ns_nifs s' !! b) = nf <$> (ns_nifs s !! b).
Proof.
  intros HI HG. unfold unlink. cbv zeta. set (s0 := if ns_default s =? a then _ else _).
  assert (E0 : ns_nifs s0 = ns_nifs s /\ ns_list s0 = ns_list s /\ ns_num s0 = ns_num s /\ ns_stack s0 = ns_stack s /\ ns_default s0 = if ns_default s =? a then NULL else ns_default s) by (unfold s0; by case_match).
  destruct E0 as (En & El & Eu & Ek & Ed). pose proof (ni_seg _ _ _ HI) as Hs. pose proof (ni_null _ _ _ HI) as Hnull. pose proof (lseg_NoDup _ _ _ _ _ Hs Hnull) as Hnd.
  assert (Hx : ns_nifs s !! a = Some x) by (eapply lseg_lookup; [exact Hs|apply elem_of_app; right; by left]). rewrite El, En.
  destruct L1 as [|[b y] L1 _] using rev_ind.
  - destruct Hs as (Ea & _ & Hs). rewrite Ea, Z.eqb_refl. unfold nif_at. rewrite En, Hx. cbn [mbind outcome_bind]. eexists _, L2. split; [done|]. cbn [with_nlist ns_default ns_num ns_stack ns_nifs].
    split; [|by split_and!; try rewrite En]. eapply (inv_without s _ [] a x L2 L2 G); try done; cbn; by rewrite ?En.
  - rewrite <- app_assoc in Hs, Hnd. cbn [app] in Hs, Hnd.
    assert (Hh : ns_list s <> a).
    { intros E. rewrite E in Hs. rewrite !fmap_app, !fmap_cons in Hnd. destruct L1 as [|[c z] L1]; cbn in Hs, Hnd; destruct Hs as (<- & _); apply NoDup_cons in Hnd as [Hnd _]; apply Hnd; set_solver. }
    rewrite (proj2 (Z.eqb_neq _ _) Hh). assert (Hb : ns_nifs s !! b = Some y) by (eapply lseg_lookup; [exact Hs|apply elem_of_app; right; by left]).
    pose proof (ni_seg _ _ _ HI) as Hs2. pose proof (lseg_length _ _ _ _ _ Hs2 Hnull) as Hln. rewrite !length_app in Hln. cbn in Hln.
    rewrite (unlink_loop_spec _ s0 a x L1 b y L2 (ns_list s)); [|by rewrite En|by rewrite En|by rewrite <- app_assoc|lia].
    set (y' := with_link y (nf_next x)). exists (set_nif s0 b y'), (L1 ++ (b, y') :: L2). split; [done|]. cbn [set_nif with_nifs ns_default ns_num ns_stack ns_nifs].
    assert (Hnf : forall c, nf <$> (<[b := y']> (ns_nifs s0) !! c) = nf <$> (ns_nifs s !! c)).
    { intros c. rewrite En. destruct (decide (c = b)) as [->|Hcb]; [by rewrite lookup_insert_eq, Hb|by rewrite lookup_insert_ne]. }
    assert (Ef : fields (L1 ++ (b, y') :: L2) = fields ((L1 ++ [(b, y)]) ++ L2)) by (unfold fields; by rewrite <- app_assoc, !fmap_app).
    split; [|by split_and!]. eapply (inv_without s _ (L1 ++ [(b, y)]) a x L2 _ G); try done; cbn [set_nif with_nifs ns_nifs ns_list].
    + rewrite En, El. rewrite fmap_app in Hnd. apply NoDup_app in Hnd as (_ & Hd1 & Hnd). rewrite !fmap_cons in Hd1, Hnd. apply NoDup_cons in Hnd as [Hb2 Hnd].
      apply lseg_app in Hs as (q & Hs1 & (-> & _ & _ & _ & Hs3)). apply lseg_app. exists b. split; [apply lseg_insert; [exact Hs1|]|].
      * intros Hin. apply (Hd1 b Hin). by left.
      * cbn. rewrite lookup_insert_eq. split; [done|]. split; [done|]. apply lseg_insert; [exact Hs3|]. intros Hin. apply Hb2. by right.
    + rewrite En, lookup_insert_ne; [done|]. intros ->. congruence.
Qed.

(** What netif_remove tells the protocols before the interface goes down. *)
Definition remove_told (s : nstate) (x : netif_struct) : outcome protocols :=
  if netif_ip4_addr (nf x) =? IPADDR_ANY then Ret (ns_stack s) else netif_do_ip_addr_changed tcp (netif_ip4_addr (nf x)) None (ns_stack s).

Lemma told_ok s L G x :
  nets_inv s L G -> exists k, remove_told s x = Ret k /\ protocols_ok k G /\ exists P, udp_inv (k_udp (ns_stack s)) P /\ udp_inv (k_udp k) P.
Proof.
  intros HI. unfold remove_told. pose proof (ni_stack _ _ _ HI) as Hk. destruct (so_udp _ _ Hk) as [P HP].
  destruct (_ =? IPADDR_ANY); [exists (ns_stack s); by eauto|]. destruct (addr_changed_ok _ G (netif_ip4_addr (nf x)) None Hk ltac:(done)) as (k & E & Hk' & _ & _ & P' & HP1 & HP2).
  cbn [default] in HP2. change (IPADDR_ANY =? IPADDR_ANY) with true in HP2. rewrite orb_true_r in HP2. exists k. by eauto.
Qed.

(** The groups of the interface, if any, are gone. *)
Lemma stopped_ok k L s a x G :
  nets_inv s L G -> (a, x) ∈ L -> protocols_ok k G ->
  exists k2 G2, (if has_flag (nf x) NETIF_FLAG_IGMP then call_stop (nf x) k else Ret k) = Ret k2 /\ protocols_ok k2 G2
    /\ k_arp k2 = k_arp k /\ k_udp k2 = k_udp k /\ forall m, G2 m = if decide (m = netif_num (nf x)) then [] else G m.
Proof.
  intros HI Hin Hk. destruct (has_flag (nf x) NETIF_FLAG_IGMP) eqn:Eg.
  - destruct (stop_ok k G (nf x) Hk) as (g & -> & Hk2). by eexists _, _.
  - exists k, G. do 4 (split; [done|]). intros m. case_decide as Em; [|done]. subst m. destruct (G (netif_num (nf x))) as [|z l] eqn:E; [done|]. exfalso.
    destruct (ni_owned _ _ _ HI (netif_num (nf x))) as (w & Hw & Ew & Ef); [by rewrite E|]. assert (w = (a, x)) as ->; [|cbn in Ef; congruence].
    apply list_elem_of_lookup_1 in Hw as [i Hi], Hin as [j Hj]. pose proof (ni_nums _ _ _ HI) as Hnd.
    assert (i = j) as ->; [|congruence]. apply (NoDup_lookup _ _ _ (netif_num (nf x)) Hnd); unfold numbers; rewrite list_lookup_fmap, ?Hi, ?Hj; cbn; congruence.
Qed.

Lemma netif_remove_spec s L1 a x L2 G :
  nets_inv s (L1 ++ (a, x) :: L2) G ->
  exists s' L' G' k, netif_remove tcp s a = Ret s' /\ nets_inv s' L' G' /\ fields L' = fields (L1 ++ L2)
    /\ ns_default s' = (if ns_default s =? a then NULL else ns_default s) /\ ns_num s' = ns_num s
    /\ remove_told s x = Ret k /\ k_udp (ns_stack s') = k_udp k /\ (exists P, udp_inv (k_udp (ns_stack s)) P /\ udp_inv (k_udp (ns_stack s')) P)
    /\ (forall m, G' m = if decide (m = netif_num (nf x)) then [] else G m)
    /\ (if has_flag (nf x) NETIF_FLAG_UP && has_flag (nf x) NETIF_FLAG_ETHARP
        then arp_table (k_arp (ns_stack s')) = (λ e, if of_netif (nf x) e then empty_entry else e) <$> arp_table (k_arp k) /\ a_log (k_arp (ns_stack s')) = a_log (k_arp k)
        else k_arp (ns_stack s') = k_arp k)
    /\ exists y, ns_nifs s' !! a = Some y /\ has_flag (nf y) NETIF_FLAG_UP = false.
Proof.
  intros HI. set (L := L1 ++ (a, x) :: L2) in HI. assert (Hin : (a, x) ∈ L) by (apply elem_of_app; right; by left). pose proof (lseg_lookup _ _ _ _ _ _ _ (ni_seg _ _ _ HI) Hin) as Hx.
  pose proof (nif_nonnull _ _ _ _ _ HI Hx) as Hnn. destruct (told_ok s L G x HI) as (k & Et & Hk & HP). destruct (stopped_ok k L s a x G HI Hin Hk) as (k2 & G2 & Es & Hk2 & Ea & Eu & HG2).
  set (s2 := with_stack s k2). assert (HI2 : nets_inv s2 L G2) by (eapply inv_with_stack; [done|done|]; intros m; rewrite HG2; by case_decide).
  destruct (event_spec s2 L G2 a x EvDown HI2 Hx) as (s3 & n' & G3 & Ed & Hse & En' & Hls & HF & Hef). cbn [run_event] in Ed.
  unfold event_effect in Hef. rewrite bool_decide_false in Hef by (rewrite Hls; cbn; naive_solver). destruct Hef as (-> & _ & Eu3 & _ & Harp). cbn [s2 with_stack ns_stack] in Eu3, Harp.
  pose proof Hse as (E1 & E2 & E3 & E4 & HI3). assert (EL : upd a (with_fields x n') L = L1 ++ (a, with_fields x n') :: L2).
  { pose proof (lseg_NoDup _ _ _ _ _ (ni_seg _ _ _ HI) (ni_null _ _ _ HI)) as Hnd. unfold L in *. rewrite fmap_app, fmap_cons in Hnd. apply NoDup_app in Hnd as (_ & Hd1 & Hnd). apply NoDup_cons in Hnd as [Hd2 _].
    rewrite upd_app, upd_cons_eq, !upd_id; [done|done|]. intros Hin'. apply (Hd1 a Hin'). by left. }
  rewrite EL in HI3. assert (Hnum : netif_num n' = netif_num (nf x)) by (by rewrite En').
  destruct (unlink_spec s3 L1 a _ L2 G2 HI3) as (s' & L' & Eu' & HI' & Ef & Edf & Enm & Est & Hnf); [cbn; rewrite Hnum, HG2; by rewrite decide_True|].
  exists s', L', G2, k. split.
  - unfold netif_remove. rewrite Hnn, (nif_at_eq s a x Hx). cbn [mbind outcome_bind]. unfold ip4_addr_isany_val.
    assert (EA : (if negb (netif_ip4_addr (nf x) =? IPADDR_ANY) then on_stack s (netif_do_ip_addr_changed tcp (netif_ip4_addr (nf x)) None) else Ret s) = Ret (with_stack s k)).
    { unfold remove_told in Et. destruct (netif_ip4_addr (nf x) =? IPADDR_ANY); cbn [negb]; [injection Et as <-; by destruct s|]. unfold on_stack. by rewrite Et. }
    rewrite EA. cbn [mbind outcome_bind].
    assert (EB : (if has_flag (nf x) NETIF_FLAG_IGMP then on_stack (with_stack s k) (call_stop (nf x)) else Ret (with_stack s k)) = Ret s2).
    { unfold on_stack. cbn [with_stack ns_stack]. destruct (has_flag (nf x) NETIF_FLAG_IGMP); [by rewrite Es|]. by injection Es as <-. }
    rewrite EB. cbn [mbind outcome_bind]. change (netif_is_up (nf x)) with (has_flag (nf x) NETIF_FLAG_UP).
    assert (EC : (if has_flag (nf x) NETIF_FLAG_UP then netif_set_down s2 a else Ret s2) = Ret s3).
    { destruct (has_flag (nf x) NETIF_FLAG_UP) eqn:Eup; [done|]. rewrite <- Ed. unfold netif_set_down. rewrite Hnn, LWIP_ERROR_ok by done. cbn [mbind outcome_bind]. rewrite (nif_at_eq s2 a x Hx). cbn [mbind outcome_bind]. by rewrite Eup. }
    rewrite EC. cbn [mbind outcome_bind]. exact Eu'.
  - split; [done|]. split; [exact Ef|]. split; [rewrite Edf, E3; done|]. split; [by rewrite Enm, E4|]. split; [done|]. rewrite Est, Eu3, Eu. split; [done|]. split; [exact HP|]. split; [done|]. split; [by rewrite <- Ea|].
    specialize (Hnf a). rewrite E1, lookup_insert_eq in Hnf. destruct (ns_nifs s' !! a) as [y|]; [|done]. exists y. split; [done|]. cbn in Hnf. injection Hnf as ->. unfold link_state in Hls. cbn in Hls. by injection Hls.
Qed.

(** ** Lemmas: finding *)

Lemma find_loop_spec (fuel : nat) (s : nstate) P q l :
  lseg nf_next (ns_nifs s) q l NULL -> ns_nifs s !! NULL = None -> (length l < fuel)%nat ->
  find_loop fuel s P q = Ret (match List.find (λ y, P y.2) l with Some y => y.1 | None => NULL end).
Proof.
  intros Hs Hn. revert fuel q Hs. induction l as [|[b y] l IH]; intros fuel q Hs Hf.
  - cbn in Hs. subst q. by destruct fuel.
  - destruct Hs as (-> & Hb & Hs). destruct fuel as [|fuel]; [cbn in Hf; lia|]. cbn [find_loop List.find snd]. rewrite (proj2 (Z.eqb_neq b NULL)) by congruence.
    rewrite (nif_at_eq s b y Hb). cbn [mbind outcome_bind]. destruct (P y); [done|]. apply IH; [done|]. cbn in Hf. lia.
Qed.

Lemma first_netif_spec s L G P : nets_inv s L G -> first_netif s P = Ret (match List.find (λ y, P y.2) L with Some y => y.1 | None => NULL end).
Proof.
  intros HI. unfold first_netif. apply find_loop_spec; [apply HI|apply HI|]. pose proof (lseg_length _ _ _ _ _ (ni_seg _ _ _ HI) (ni_null _ _ _ HI)). lia.
Qed.

(** The numbers tell the interfaces apart. *)
Lemma find_number s L G (P : netif_struct -> bool) a x :
  nets_inv s L G -> (a, x) ∈ L -> P x = true -> (forall y, P y = true -> netif_num (nf y) = netif_num (nf x)) -> List.find (λ y, P y.2) L = Some (a, x).
Proof.
  intros HI Hin Hp Hq. pose proof (ni_nums _ _ _ HI) as Hnd. clear HI. induction L as [|[b y] L IH]; [by apply not_elem_of_nil in Hin|]. cbn [List.find snd]. cbn in Hnd. apply NoDup_cons in Hnd as [Hni Hnd].
  apply elem_of_cons in Hin as [[= -> ->]|Hin]; [by rewrite Hp|]. destruct (P y) eqn:Ey; [|by apply IH]. exfalso. apply Hni. rewrite (Hq y Ey). apply list_elem_of_fmap. by exists (a, x).
Qed.

(** lwip_itoa and atoi on the numbers of interfaces. *)
Definition itoa_ok (b : list Z) (n : Z) : bool :=
  match lwip_itoa b n with Some out => (c_atoi (cstr out) =? n) && (length out =? 4)%nat | None => false end.

Lemma itoa_all b1 b2 b3 b4 : forallb (itoa_ok [b1; b2; b3; b4]) (seqZ 0 255) = true.
Proof. vm_compute. reflexivity. Qed.

Lemma itoa_number b n : length b = 4%nat -> 0 <= n <= 254 -> exists out, lwip_itoa b n = Some out /\ c_atoi (cstr out) = n /\ length out = 4%nat.
Proof.
  intros Hb Hn. destruct b as [|b1 [|b2 [|b3 [|b4 [|]]]]]; try discriminate Hb. pose proof (itoa_all b1 b2 b3 b4) as H. rewrite forallb_forall in H.
  specialize (H n ltac:(apply list_elem_of_In, elem_of_seqZ; lia)). unfold itoa_ok in H. destruct (lwip_itoa _ n) as [out|]; [|done]. apply andb_true_iff in H as [H1 H2].
  exists out. split; [done|]. split; [by apply Z.eqb_eq|by apply Nat.eqb_eq].
Qed.

(** ** Sequences of calls *)

Inductive netif_op :=
| OpAdd (a : Z) (ip nm gw : option Z) (state : Z) (init : netif_struct -> err_t * netif_struct) (input : Z)
| OpSetAddr (a : Z) (ip nm gw : option Z)
| OpEvent (a : Z) (ev : link_event)
| OpDefault (a : Z)
| OpRemove (a : Z).

(** A search for a number looks at 255 of them at most. *)
Definition exec (op : netif_op) (s : nstate) : outcome nstate :=
  match op with
  | OpAdd a ip nm gw state init input => '(_, s) ← netif_add linkoutput rnd tcp 255 s a ip nm gw state (Some init) input; Ret s
  | OpSetAddr a ip nm gw => netif_set_addr linkoutput rnd tcp s a ip nm gw
  | OpEvent a ev => run_event s a ev
  | OpDefault a => Ret (netif_set_default s a)
  | OpRemove a => netif_remove tcp s a
  end.

Definition addresses_ok (ip nm gw : option Z) : Prop := is_u32 (default IPADDR_ANY ip) /\ is_u32 (default IPADDR_ANY nm) /\ is_u32 (default IPADDR_ANY gw).

(** What the calls ask of their caller: a structure is added when it is not on the list,
    which has fewer than 255 interfaces; the default is on the list; what is removed is. *)
Definition allowed (op : netif_op) (s : nstate) (L : list (Z * netif_struct)) : Prop :=
  match op with
  | OpAdd a ip nm gw state init input => is_Some (ns_nifs s !! a) /\ a ∉ L.*1 /\ (length L < 255)%nat /\ init_typed init /\ addresses_ok ip nm gw
  | OpSetAddr a ip nm gw => is_Some (ns_nifs s !! a) /\ addresses_ok ip nm gw
  | OpEvent a _ => is_Some (ns_nifs s !! a)
  | OpDefault a => a = NULL \/ a ∈ L.*1
  | OpRemove a => a = NULL \/ a ∈ L.*1
  end.

(** The states that such calls lead to from an empty list, with the interfaces in it. *)
Inductive nets_reach : nstate -> list (Z * netif_struct) -> Prop :=
| reach_start s : nets_inv s [] (λ _, []) -> nets_reach s []
| reach_call s L op s' L' : nets_reach s L -> allowed op s L -> exec op s = Ret s' -> lseg nf_next (ns_nifs s') (ns_list s') L' NULL -> nets_reach s' L'.

Lemma add_outcome (fuel : nat) s L G a x ip nm gw state init input :
  nets_inv s L G -> ns_nifs s !! a = Some x -> a ∉ L.*1 -> (length L < 255)%nat -> init_typed init -> addresses_ok ip nm gw -> (255 <= fuel)%nat ->
  let r := init (prepared s x ip nm gw state input) in
  exists s', netif_add linkoutput rnd tcp fuel s a ip nm gw state (Some init) input = Ret (if bool_decide (r.1 = ERR_OK) then a else NULL, s')
    /\ ns_default s' = ns_default s
    /\ if bool_decide (r.1 = ERR_OK) then
         exists n G', let x' := with_link (with_fields r.2 (nif_set_num (nf r.2) n)) (ns_list s) in
           first_free_num (numbers L) (netif_num (nf r.2)) n /\ ns_nifs s' = <[a := x']> (ns_nifs s) /\ nets_inv s' ((a, x') :: L) G' /\ ns_num s' = (n + 1) mod 255
           /\ if has_flag (nf r.2) NETIF_FLAG_IGMP then groups_started (ns_stack s) n G G' else G' = G
       else ns_nifs s' = <[a := r.2]> (ns_nifs s) /\ nets_inv s' L G /\ ns_list s' = ns_list s /\ ns_num s' = ns_num s.
Proof.
  intros HI Ha Hout Hlen Hinit (Hip & Hnm & Hgw) Hf r. case_bool_decide as Hr.
  - destruct (first_free_exists (numbers L) (netif_num (nf r.2))) as [n Hn]; [unfold numbers; by rewrite length_fmap|].
    destruct (netif_add_spec fuel s L G a x ip nm gw state init input n HI Ha Hout ltac:(lia) Hinit Hip Hnm Hgw Hr Hn Hf) as (s' & G' & E & HI' & En & Ed & Eu & Hg). exists s'. split; [exact E|]. split; [done|]. by exists n, G'.
  - destruct (add_prepare fuel s L G a x ip nm gw state init input HI Ha Hout Hinit Hip Hnm Hgw) as (s1 & HI1 & _ & E0 & E1 & E2 & E3 & _ & E). fold r in E, E0. rewrite bool_decide_false in E by done. by exists s1.
Qed.

Lemma inv_default s L G a : nets_inv s L G -> a = NULL \/ a ∈ L.*1 -> nets_inv (netif_set_default s a) L G.
Proof. intros [] Ha. by split. Qed.

(** Every call that is allowed returns, in a state with the invariant. *)
Lemma exec_ok op s L G : nets_inv s L G -> allowed op s L -> exists s' L' G', exec op s = Ret s' /\ nets_inv s' L' G'.
Proof.
  intros HI. destruct op as [a ip nm gw state init input|a ip nm gw|a ev|a|a]; cbn [allowed exec].
  - intros ([x Ha] & Hout & Hlen & Hinit & Had). destruct (add_outcome 255 s L G a x ip nm gw state init input HI Ha Hout Hlen Hinit Had ltac:(lia)) as (s' & E & _ & H). rewrite E. cbn [mbind outcome_bind].
    case_bool_decide; [destruct H as (n & G' & _ & _ & HI' & _); by eexists _, _, _|]. destruct H as (_ & HI' & _). by eexists _, _, _.
  - intros ([x Ha] & Hip & Hnm & Hgw). destruct (set_addr_spec s L G a x ip nm gw HI Ha Hip Hnm Hgw) as (s' & G' & E & (_ & _ & _ & _ & HI') & _). by eexists _, _, _.
  - intros [x Ha]. destruct (event_spec s L G a x ev HI Ha) as (s' & n' & G' & E & (_ & _ & _ & _ & HI') & _). by eexists _, _, _.
  - intros Ha. eexists _, L, G. split; [done|]. by apply inv_default.
  - intros [->|Ha]; [exists s, L, G; by split|]. apply list_elem_of_fmap in Ha as ([b x] & -> & Hin). apply list_elem_of_split in Hin as (L1 & L2 & ->).
    destruct (netif_remove_spec s L1 b x L2 G HI) as (s' & L' & G' & k & E & HI' & _). by eexists _, _, _.
Qed.

Lemma reach_inv s L : nets_reach s L -> exists G, nets_inv s L G.
Proof.
  induction 1 as [s HI|s L op s' L' _ [G HI] Ha E Hs]; [by eexists|]. destruct (exec_ok op s L G HI Ha) as (s1 & L1 & G1 & E1 & HI1). rewrite E in E1. injection E1 as <-.
  exists G1. by rewrite (lseg_det _ _ _ _ _ _ Hs (ni_seg _ _ _ HI1) (ni_null _ _ _ HI1)).
Qed.

(** ** Theorems *)

(** netif_add, for a structure that is not on the list, which has fewer than 255 interfaces.
    It resets the structure, gives it the addresses and calls the driver.  When the driver
    fails, the result is NULL and the list is what it was.  Otherwise the interface gets
    the first number from 0 to 254 that no other has, counting up from the one the driver
    left and round after 254, and becomes the head of the list; the next search starts
    behind this number, and with the flag for IGMP the interface joins the group of all
    systems if the pool has an element.  The search ends: 255 steps are enough. *)
Theorem netif_add_correct (fuel : nat) s L G a x ip nm gw state init input :
  nets_inv s L G -> ns_nifs s !! a = Some x -> a ∉ L.*1 -> (length L < 255)%nat -> init_typed init -> addresses_ok ip nm gw -> (255 <= fuel)%nat ->
  let r := init (prepared s x ip nm gw state input) in
  exists s', netif_add linkoutput rnd tcp fuel s a ip nm gw state (Some init) input = Ret (if bool_decide (r.1 = ERR_OK) then a else NULL, s')
    /\ ns_default s' = ns_default s
    /\ if bool_decide (r.1 = ERR_OK) then
         exists n G', let x' := with_link (with_fields r.2 (nif_set_num (nf r.2) n)) (ns_list s) in
           first_free_num (numbers L) (netif_num (nf r.2)) n /\ ns_nifs s' = <[a := x']> (ns_nifs s) /\ nets_inv s' ((a, x') :: L) G' /\ ns_num s' = (n + 1) mod 255
           /\ if has_flag (nf r.2) NETIF_FLAG_IGMP then groups_started (ns_stack s) n G G' else G' = G
       else ns_nifs s' = <[a := r.2]> (ns_nifs s) /\ nets_inv s' L G /\ ns_list s' = ns_list s /\ ns_num s' = ns_num s.
Proof. apply add_outcome. Qed.

(** C38: Whatever the sequence of netif_add, netif_set_addr, netif_set_up, netif_set_down,
    netif_set_link_up, netif_set_link_down, netif_set_default and netif_remove, with the
    structures that the calls ask for: the interfaces on the list have different numbers
    from 0 to 254, the default is on the list or NULL, only interfaces of the list with
    the flag for IGMP have groups, the invariants of ARP, IGMP and UDP hold, and the next
    call that is allowed returns. *)
Theorem netif_reachable_safe s L :
  nets_reach s L ->
  NoDup (numbers L) /\ Forall (λ n, 0 <= n <= 254) (numbers L) /\ (ns_default s = NULL \/ ns_default s ∈ L.*1)
  /\ (exists G, protocols_ok (ns_stack s) G /\ forall n, G n <> [] -> exists x, x ∈ L /\ netif_num (nf x.2) = n /\ has_flag (nf x.2) NETIF_FLAG_IGMP = true)
  /\ forall op, allowed op s L -> exists s' L', exec op s = Ret s' /\ nets_reach s' L'.
Proof.
  intros Hr. destruct (reach_inv s L Hr) as [G HI]. pose proof HI as [H1 H2 H3 H4 H5 H6 H7 H8 H9]. do 3 (split; [done|]). split; [by exists G|].
  intros op Ha. destruct (exec_ok op s L G HI Ha) as (s' & L' & G' & E & HI'). exists s', L'. split; [done|]. eapply reach_call; [done|done|done|apply HI'].
Qed.

(** With 255 interfaces on the list netif_add never ends, however long it runs: the
    assertion that is to stop it, "too many netifs, max. supported number is 255", is
    never reached, since the walk over the list ends at the interface that has the number. *)
Theorem netif_add_full (fuel : nat) s L G a x ip nm gw state init input :
  nets_inv s L G -> ns_nifs s !! a = Some x -> a ∉ L.*1 -> length L = 255%nat -> init_typed init -> addresses_ok ip nm gw ->
  (init (prepared s x ip nm gw state input)).1 = ERR_OK ->
  netif_add linkoutput rnd tcp fuel s a ip nm gw state (Some init) input = Trap "netif_add: number: fuel".
Proof.
  intros HI Ha Hout Hlen Hinit (Hip & Hnm & Hgw) Hr. destruct (add_prepare fuel s L G a x ip nm gw state init input HI Ha Hout Hinit Hip Hnm Hgw) as (s1 & HI1 & _ & _ & _ & _ & _ & [Hu _] & E).
  rewrite E, Hr, bool_decide_true by done. cbn [negb]. rewrite (num_search_hangs s1 L a (ni_seg _ _ _ HI1) (ni_null _ _ _ HI1) Hout ltac:(lia)); [done| |unfold is_u8 in Hu; lia].
  intros n Hn. apply full_numbers; [apply HI1|apply HI1|unfold numbers; by rewrite length_fmap|done].
Qed.

(** netif_set_addr sets the three addresses (0.0.0.0 for NULL) and nothing else of the
    interfaces.  A new address is told to TCP and moves the control blocks of UDP that
    were bound to the old one, and an interface that is up with its link announces it by
    ARP and reports its groups; the same address changes nothing in the protocols. *)
Theorem netif_set_addr_correct s L G a x ip nm gw :
  nets_inv s L G -> ns_nifs s !! a = Some x -> addresses_ok ip nm gw ->
  let n' := configured (nf x) ip nm gw in
  exists s' G', netif_set_addr linkoutput rnd tcp s a ip nm gw = Ret s' /\ settled s L a (with_fields x n') s' G' /\ readdressed (nf x) n' (ns_stack s) (ns_stack s') G G'.
Proof. intros HI Ha (Hip & Hnm & Hgw). by apply set_addr_spec. Qed.

(** C40: netif_set_up, netif_set_down, netif_set_link_up and netif_set_link_down are a state
    machine on two flags; the other flags and fields stay.  When the interface becomes able
    to send, and only then, it announces its address by ARP and its groups are due to be
    reported; when it goes down its entries leave the ARP table. *)
Theorem netif_link_events_correct s L G a x ev :
  nets_inv s L G -> ns_nifs s !! a = Some x ->
  exists s' n' G', run_event s a ev = Ret s' /\ settled s L a (with_fields x n') s' G' /\ n' = nif_set_flags (nf x) (netif_flags n')
    /\ link_state n' = link_step ev (link_state (nf x)) /\ Forall (λ f, has_flag n' f = has_flag (nf x) f) kept_flags
    /\ event_effect ev (nf x) n' (ns_stack s) (ns_stack s') G G'.
Proof. apply event_spec. Qed.

(** netif_remove of an interface of the list takes it out and leaves the others in their
    order; it is not the default any more, it is down, its groups are gone and no others;
    its ARP entries are gone when it was up; TCP is told, and the control blocks of UDP
    stay as they are. *)
Theorem netif_remove_correct s L1 a x L2 G :
  nets_inv s (L1 ++ (a, x) :: L2) G ->
  exists s' L' G' k, netif_remove tcp s a = Ret s' /\ nets_inv s' L' G' /\ fields L' = fields (L1 ++ L2)
    /\ ns_default s' = (if ns_default s =? a then NULL else ns_default s) /\ ns_num s' = ns_num s
    /\ remove_told s x = Ret k /\ k_udp (ns_stack s') = k_udp k /\ (exists P, udp_inv (k_udp (ns_stack s)) P /\ udp_inv (k_udp (ns_stack s')) P)
    /\ (forall m, G' m = if decide (m = netif_num (nf x)) then [] else G m)
    /\ (if has_flag (nf x) NETIF_FLAG_UP && has_flag (nf x) NETIF_FLAG_ETHARP
        then arp_table (k_arp (ns_stack s')) = (λ e, if of_netif (nf x) e then empty_entry else e) <$> arp_table (k_arp k) /\ a_log (k_arp (ns_stack s')) = a_log (k_arp k)
        else k_arp (ns_stack s') = k_arp k)
    /\ exists y, ns_nifs s' !! a = Some y /\ has_flag (nf y) NETIF_FLAG_UP = false.
Proof. apply netif_remove_spec. Qed.

(** The list as the argument that the functions of the other modules take. *)
Definition view (s : nstate) (L : list (Z * netif_struct)) (mc : option netif) : netifs := Netifs ((λ y, nf y.2) <$> L) (nf <$> (ns_nifs s !! ns_default s)) mc.

Lemma by_index_loop_find (m : gmap Z netif_struct) l idx :
  m !! NULL = None -> (forall b y, (b, y) ∈ l -> m !! b = Some y) ->
  nf <$> (m !! (match List.find (λ y, idx =? netif_get_index (nf y.2)) l with Some y => y.1 | None => NULL end)) = by_index_loop ((λ y, nf y.2) <$> l) idx.
Proof.
  intros Hn. induction l as [|[b y] l IH]; intros Hl; [cbn; by rewrite Hn|]. cbn [List.find snd fmap list_fmap by_index_loop].
  destruct (idx =? netif_get_index (nf y)); [cbn; by rewrite (Hl b y (list_elem_of_here _ _))|]. apply IH. intros c z Hz. apply Hl. by right.
Qed.

(** netif_get_by_index on the list of structures finds the interface that the function of
    Udp.v finds in the list that it is given. *)
Theorem netif_by_index_refines s L G idx mc :
  nets_inv s L G -> exists a, netif_by_index s idx = Ret a /\ nf <$> (ns_nifs s !! a) = netif_get_by_index (view s L mc) idx.
Proof.
  intros HI. unfold netif_by_index, netif_get_by_index. destruct (negb (idx =? NETIF_NO_INDEX)); [|exists NULL; split; [done|]; by rewrite (ni_null _ _ _ HI)].
  rewrite (first_netif_spec s L G _ HI). eexists. split; [done|]. apply by_index_loop_find; [apply HI|]. intros b y Hb. eapply lseg_lookup; [apply HI|done].
Qed.

Lemma find_index s L G a x : nets_inv s L G -> (a, x) ∈ L -> netif_by_index s (netif_num (nf x) + 1) = Ret a /\ netif_get_index (nf x) = netif_num (nf x) + 1.
Proof.
  intros HI Hin. assert (Hr : forall y, y ∈ L -> 0 <= netif_num (nf y.2) <= 254).
  { intros y Hy. pose proof (ni_range _ _ _ HI) as H. rewrite Forall_forall in H. apply H. unfold numbers. apply list_elem_of_fmap. by exists y. }
  pose proof (Hr _ Hin) as Hn. cbn in Hn. assert (Eg : netif_get_index (nf x) = netif_num (nf x) + 1) by (unfold netif_get_index; by rewrite u8_small by lia).
  split; [|done]. unfold netif_by_index, NETIF_NO_INDEX. rewrite (proj2 (Z.eqb_neq _ _)) by lia. cbn [negb]. rewrite (first_netif_spec s L G _ HI).
  assert (Ef : List.find (λ y, netif_num (nf x) + 1 =? netif_get_index (nf y.2)) L = Some (a, x)); [|by rewrite Ef].
  pose proof (ni_nums _ _ _ HI) as Hnd. clear HI. induction L as [|[b y] L IH]; [by apply not_elem_of_nil in Hin|]. cbn [List.find snd]. cbn in Hnd. apply NoDup_cons in Hnd as [Hni Hnd].
  apply elem_of_cons in Hin as [[= -> ->]|Hin]; [by rewrite Eg, Z.eqb_refl|]. pose proof (Hr (b, y) (list_elem_of_here _ _)) as Hy. cbn in Hy.
  destruct (Z.eqb_spec (netif_num (nf x) + 1) (netif_get_index (nf y))) as [E|_].
  - exfalso. apply Hni. unfold netif_get_index in E. rewrite u8_small in E by lia. replace (netif_num (nf y)) with (netif_num (nf x)) by lia. apply list_elem_of_fmap. by exists (a, x).
  - apply IH; [done| |done]. intros z Hz. apply Hr. by right.
Qed.

(** The index and the name of an interface of the list: netif_index_to_name writes its two
    letters and its number into a buffer of NETIF_NAMESIZE bytes, and netif_find and
    netif_name_to_index give back from that string the interface and the index.  Its
    letters are assumed not to be 0. *)
Theorem netif_name_index_roundtrip s L G a x buf :
  nets_inv s L G -> (a, x) ∈ L -> (nf_name x).1 <> 0 -> (nf_name x).2 <> 0 -> length buf = Z.to_nat NETIF_NAMESIZE ->
  let idx := netif_num (nf x) + 1 in
  exists out, netif_index_to_name s idx buf = Ret (Some out) /\ length out = length buf
    /\ netif_find s (Some (cstr out)) = Ret a /\ netif_name_to_index s (Some (cstr out)) = Ret idx.
Proof.
  intros HI Hin Hn1 Hn2 Hb idx. destruct (find_index s L G a x HI Hin) as [Ei Eg]. pose proof (lseg_lookup _ _ _ _ _ _ _ (ni_seg _ _ _ HI) Hin) as Hx. pose proof (nif_nonnull _ _ _ _ _ HI Hx) as Hnn.
  assert (Hr : 0 <= netif_num (nf x) <= 254).
  { pose proof (ni_range _ _ _ HI) as H. rewrite Forall_forall in H. apply H. unfold numbers. apply list_elem_of_fmap. by exists (a, x). }
  change (Z.to_nat NETIF_NAMESIZE) with 6%nat in Hb. destruct (itoa_number (take 4 (drop 2 buf)) (netif_num (nf x))) as (dig & Ed & Eat & El); [rewrite length_take, length_drop; lia|lia|].
  assert (Ec : cstr ((nf_name x).1 :: (nf_name x).2 :: dig) = (nf_name x).1 :: (nf_name x).2 :: cstr dig) by (cbn [cstr]; by rewrite !(proj2 (Z.eqb_neq _ _)) by done).
  assert (Ef : netif_find s (Some (cstr ((nf_name x).1 :: (nf_name x).2 :: dig))) = Ret a).
  { rewrite Ec. unfold netif_find. rewrite Eat, u8_small by lia. rewrite (first_netif_spec s L G _ HI).
    rewrite (find_number s L G (λ y, (netif_num (nf x) =? netif_num (nf y)) && ((nf_name x).1 =? (nf_name y).1) && ((nf_name x).2 =? (nf_name y).2)) a x HI Hin); [done| |].
    - by rewrite !Z.eqb_refl.
    - intros y Hy. apply andb_true_iff in Hy as [Hy _]. apply andb_true_iff in Hy as [Hy _]. symmetry. by apply Z.eqb_eq. }
  exists ((nf_name x).1 :: (nf_name x).2 :: dig). split; [|split; [cbn; lia|split; [exact Ef|]]].
  - unfold netif_index_to_name. fold idx in Ei. rewrite Ei. cbn [mbind outcome_bind]. rewrite Hnn. cbn [negb]. rewrite (nif_at_eq s a x Hx). cbn [mbind outcome_bind]. change (Z.to_nat (NETIF_NAMESIZE - 2)) with 4%nat.
    replace (idx - 1) with (netif_num (nf x)) by (unfold idx; lia). rewrite Ed. change (Z.to_nat NETIF_NAMESIZE) with 6%nat. rewrite drop_ge, app_nil_r by lia. done.
  - unfold netif_name_to_index. rewrite Ef. cbn [mbind outcome_bind]. rewrite Hnn. cbn [negb]. rewrite (nif_at_eq s a x Hx). cbn [mbind outcome_bind]. by rewrite Eg.
Qed.
End Spec.

(** ** Witnesses *)

Abbreviation protocols0 := (protocols (St := pmem_state) (Lk := list (Z * Z * list Z)) (Pi := memp_state) (Pu := memp_state) (Tc := unit)).
Abbreviation nstate0 := (nstate (St := pmem_state) (Lk := list (Z * Z * list Z)) (Pi := memp_state) (Pu := memp_state) (Tc := unit)).

Abbreviation nets_inv0 := (nets_inv (PiP := group_pool) (PuP := pcb_pool) no_ext).

(** A TCP without connections. *)
Definition no_tcp (k : protocols0) (old : Z) (new : option Z) : outcome protocols0 := Ret k.

#[local] Instance no_tcp_promise : TcpPromise (PiP := group_pool) (PuP := pcb_pool) no_ext no_tcp.
Proof. constructor. intros k G old new Hk. exists k. done. Qed.

(** 256 structures as the loader leaves them, and no interface. *)
Definition blank : netif_struct := NetifStruct (Netif 0 0 0 0 0 [] 0 false) (0, 0) NULL NULL NULL NULL.
Definition blanks : gmap Z netif_struct := list_to_map ((λ a, (a, blank)) <$> seqZ 1 256).
Definition nets0 : nstate0 := NState blanks NULL NULL 0 (Protocols (arp_start ps0) igmp0 udp0 tt).

(** A driver for Ethernet with IGMP. *)
Definition eth_init (x : netif_struct) : err_t * netif_struct :=
  (ERR_OK, NetifStruct (Netif (netif_num (nf x)) (netif_ip4_addr (nf x)) (netif_ip4_netmask (nf x)) (netif_ip4_gw (nf x)) 0x3e [2; 0; 0; 0; 0; 1] 1500 false)
     (0x65, 0x6e) (nf_next x) (nf_state x) 2 (nf_input x)).

Lemma eth_init_typed : init_typed eth_init.
Proof.
  intros x (H1 & H2 & H3 & H4 & _). split; [exact H1|]. split; [exact H2|]. split; [exact H3|]. split; [exact H4|]. split; [vm_compute; intuition congruence|].
  intros _. reflexivity.
Qed.

Lemma blanks_lookup a x : blanks !! a = Some x -> x = blank.
Proof. intros H. apply elem_of_list_to_map_2, list_elem_of_fmap in H as (b & [= _ ->] & _). done. Qed.

Lemma blanks_there a : 1 <= a <= 256 -> blanks !! a = Some blank.
Proof.
  intros Ha. apply elem_of_list_to_map_1.
  - rewrite <- list_fmap_compose. rewrite (list_fmap_ext _ id) by done. rewrite list_fmap_id. apply NoDup_seqZ.
  - apply list_elem_of_fmap. exists a. split; [done|]. apply elem_of_seqZ. lia.
Qed.

Lemma nets0_inv : nets_inv0 nets0 [] (λ _, []).
Proof.
  split.
  - reflexivity.
  - apply not_elem_of_list_to_map_1. intros H. rewrite <- list_fmap_compose in H. apply list_elem_of_fmap in H as (b & E & Hb). apply elem_of_seqZ in Hb. cbn in E. unfold NULL in E. lia.
  - intros a x Hx. cbn in Hx. apply blanks_lookup in Hx. subst x. vm_compute. intuition congruence.
  - constructor.
  - constructor.
  - vm_compute. intuition congruence.
  - by left.
  - split; [exists ∅, (replicate 10 None); apply arp_start_inv, ps0_inv|exact (proj1 igmp0_inv)|exists []; apply udp_on_inv].
  - done.
Qed.

Definition host_e : Z := IP4_ADDR 192 168 1 2.
Definition mask_e : Z := IP4_ADDR 255 255 255 0.

Lemma addresses_e : addresses_ok (Some host_e) (Some mask_e) None.
Proof. vm_compute. intuition congruence. Qed.

(** One interface for Ethernet. *)
Lemma nets_one : exists s x G, netif_add (PiP := group_pool) link0 rnd7 no_tcp 255 nets0 1 (Some host_e) (Some mask_e) None NULL (Some eth_init) 3 = Ret (1, s)
  /\ nets_inv0 s [(1, x)] G /\ ns_nifs s !! 1 = Some x /\ netif_num (nf x) = 0 /\ nf_name x = (0x65, 0x6e).
Proof.
  destruct (add_outcome (PiP := group_pool) (PuP := pcb_pool) link0 link_room0 rnd7 no_ext no_tcp 255 nets0 [] (λ _, []) 1 blank (Some host_e) (Some mask_e) None NULL eth_init 3 nets0_inv (blanks_there 1 ltac:(lia)) ltac:(apply not_elem_of_nil) ltac:(cbn; lia)
    eth_init_typed addresses_e ltac:(lia)) as (s & E & _ & n & G & (d & _ & Hn & _ & Hj) & En & HI & _).
  destruct d as [|d]; [|specialize (Hj 0%nat (Nat.lt_0_succ _)); destruct (not_elem_of_nil _ Hj)].
  eexists s, _, G. split; [exact E|]. split; [exact HI|]. split; [rewrite En; apply lookup_insert_eq|]. split; [exact Hn|reflexivity].
Qed.

Lemma netif_add_correct_witness :
  exists s x, netif_add (PiP := group_pool) link0 rnd7 no_tcp 255 nets0 1 (Some host_e) (Some mask_e) None NULL (Some eth_init) 3 = Ret (1, s)
    /\ ns_list s = 1 /\ ns_nifs s !! 1 = Some x /\ netif_num (nf x) = 0 /\ ns_num s = 1.
Proof.
  destruct (netif_add_correct (PiP := group_pool) (PuP := pcb_pool) link0 link_room0 rnd7 no_ext no_tcp 255 nets0 [] (λ _, []) 1 blank (Some host_e) (Some mask_e) None NULL eth_init 3
    nets0_inv (blanks_there 1 ltac:(lia)) ltac:(apply not_elem_of_nil) ltac:(cbn; lia) eth_init_typed addresses_e ltac:(lia))
    as (s & E & _ & n & G & (d & Hd & Hn & _ & Hj) & En & HI & Eu & _).
  destruct d as [|d]; [|specialize (Hj 0%nat (Nat.lt_0_succ _)); destruct (not_elem_of_nil _ Hj)].
  exists s, (with_link (with_fields (eth_init (prepared nets0 blank (Some host_e) (Some mask_e) None NULL 3)).2
    (nif_set_num (nf (eth_init (prepared nets0 blank (Some host_e) (Some mask_e) None NULL 3)).2) n)) (ns_list nets0)).
  split; [exact E|]. split; [exact (proj1 (ni_seg _ _ _ _ HI))|]. split; [rewrite En; apply lookup_insert_eq|]. rewrite Eu, Hn. split; reflexivity.
Defined.

Lemma netif_reachable_safe_witness :
  exists s s' : nstate0, netif_add (PiP := group_pool) link0 rnd7 no_tcp 255 nets0 1 (Some host_e) (Some mask_e) None NULL (Some eth_init) 3 = Ret (1, s)
    /\ netif_set_up link0 rnd7 s 1 = Ret s'.
Proof.
  destruct nets_one as (s & x & G & E & HI & Hx & _).
  destruct (netif_reachable_safe (PiP := group_pool) (PuP := pcb_pool) link0 link_room0 rnd7 no_ext no_tcp s [(1, x)]) as (_ & _ & _ & _ & Hnext).
  - eapply (reach_call _ _ _ _ nets0 [] (OpAdd 1 (Some host_e) (Some mask_e) None NULL eth_init 3)).
    + apply reach_start, nets0_inv.
    + split; [exists blank; apply blanks_there; lia|]. split; [apply not_elem_of_nil|]. split; [cbn; lia|]. split; [exact eth_init_typed|exact addresses_e].
    + cbn [exec]. rewrite E. reflexivity.
    + apply HI.
  - destruct (Hnext (OpEvent 1 EvUp)) as (s' & L' & E' & _); [by exists x|]. exists s, s'. split; [exact E|exact E'].
Defined.

(** The link is up already: the interface announces itself. *)
Lemma netif_link_events_correct_witness :
  exists s s' : nstate0, netif_set_up link0 rnd7 s 1 = Ret s' /\ length (a_log (k_arp (ns_stack s))) = 0%nat /\ length (a_log (k_arp (ns_stack s'))) = 1%nat.
Proof.
  destruct nets_one as (s & x & G & E & HI & Hx & _).
  destruct (netif_link_events_correct (PiP := group_pool) (PuP := pcb_pool) link0 link_room0 rnd7 no_ext no_tcp s [(1, x)] G 1 x EvUp HI Hx) as (s' & n' & G' & E' & _).
  exists s, s'. split; [exact E'|].
  assert (Ev : match netif_add (PiP := group_pool) link0 rnd7 no_tcp 255 nets0 1 (Some host_e) (Some mask_e) None NULL (Some eth_init) 3 with
               | Ret (_, s) => match netif_set_up link0 rnd7 s 1 with
                               | Ret s' => (length (a_log (k_arp (ns_stack s))) =? 0)%nat && (length (a_log (k_arp (ns_stack s'))) =? 1)%nat | Trap _ => false end
               | Trap _ => false end = true) by (vm_compute; reflexivity).
  rewrite E in Ev. cbn [run_event] in E'. rewrite E' in Ev. apply andb_true_iff in Ev as [E1 E2]. split; apply Nat.eqb_eq; [exact E1|exact E2].
Defined.

Lemma netif_set_addr_correct_witness : exists s s' : nstate0, netif_set_addr link0 rnd7 no_tcp s 1 (Some (IP4_ADDR 192 168 1 3)) (Some mask_e) None = Ret s'.
Proof.
  destruct nets_one as (s & x & G & E & HI & Hx & _).
  destruct (netif_set_addr_correct (PiP := group_pool) (PuP := pcb_pool) link0 link_room0 rnd7 no_ext no_tcp s [(1, x)] G 1 x (Some (IP4_ADDR 192 168 1 3)) (Some mask_e) None HI Hx) as (s' & _ & E' & _); [vm_compute; intuition congruence|].
  exists s, s'. exact E'.
Defined.

Lemma netif_remove_correct_witness : exists s s' : nstate0, netif_remove (PiP := group_pool) no_tcp s 1 = Ret s' /\ ns_list s' = NULL.
Proof.
  destruct nets_one as (s & x & G & E & HI & Hx & _).
  destruct (netif_remove_correct (PiP := group_pool) (PuP := pcb_pool) link0 link_room0 rnd7 no_ext no_tcp s [] 1 x [] G HI) as (s' & L' & G' & k & E' & HI' & HL & _).
  exists s, s'. split; [exact E'|]. destruct L' as [|y L']; [exact (ni_seg _ _ _ _ HI')|discriminate HL].
Defined.

Lemma netif_by_index_refines_witness : exists (s : nstate0) a, netif_by_index s 1 = Ret a.
Proof.
  destruct nets_one as (s & x & G & E & HI & Hx & _).
  destruct (netif_by_index_refines (PiP := group_pool) (PuP := pcb_pool) no_ext s [(1, x)] G 1 None HI) as (a & E' & _). exists s, a. exact E'.
Defined.

Lemma netif_name_index_roundtrip_witness : exists (s : nstate0) out, netif_index_to_name s 1 (replicate 6 0xff) = Ret (Some out) /\ netif_find s (Some (cstr out)) = Ret 1.
Proof.
  destruct nets_one as (s & x & G & _ & HI & _ & Hn & Hname).
  destruct (netif_name_index_roundtrip (PiP := group_pool) (PuP := pcb_pool) no_ext s [(1, x)] G 1 x (replicate 6 0xff) HI) as (out & E1 & _ & E2 & _).
  - left.
  - rewrite Hname. discriminate.
  - rewrite Hname. discriminate.
  - reflexivity.
  - rewrite Hn in E1. exists s, out. split; [exact E1|exact E2].
Defined.

(** As many interfaces as there are numbers. *)
Lemma nets_many (n : nat) : (n <= 255)%nat ->
  exists (s : nstate0) L G, nets_inv0 s L G /\ length L = n /\ (forall a, 1 <= a <= 256 -> is_Some (ns_nifs s !! a)) /\ Forall (λ y, 1 <= y.1 <= n) L.
Proof.
  induction n as [|n IH]; intros Hn.
  - exists nets0, [], (λ _, []). split; [exact nets0_inv|]. split; [done|]. split; [|constructor]. intros a Ha. exists blank. by apply blanks_there.
  - destruct IH as (s & L & G & HI & Hl & Hs & Hr); [lia|]. destruct (Hs (n + 1)) as [x Hx]; [lia|].
    assert (Hout : n + 1 ∉ L.*1).
    { intros Hi. apply list_elem_of_fmap in Hi as (y & Ey & Hy). rewrite Forall_forall in Hr. specialize (Hr y Hy). cbn beta in Hr. lia. }
    destruct (add_outcome (PiP := group_pool) (PuP := pcb_pool) link0 link_room0 rnd7 no_ext no_tcp 255 s L G (n + 1) x (Some host_e) (Some mask_e) None NULL eth_init 3 HI Hx Hout ltac:(lia)
      eth_init_typed addresses_e ltac:(lia)) as (s' & _ & _ & k & G' & _ & En & HI' & _).
    eexists s', _, G'. split; [exact HI'|]. split; [cbn; lia|]. split.
    + intros a Ha. rewrite En. apply lookup_insert_is_Some'. right. by apply Hs.
    + constructor; [cbn; lia|]. eapply Forall_impl; [exact Hr|]. cbn. intros y Hy. lia.
Qed.

Lemma netif_add_full_witness :
  exists s : nstate0, forall fuel : nat, netif_add (PiP := group_pool) link0 rnd7 no_tcp fuel s 256 (Some host_e) (Some mask_e) None NULL (Some eth_init) 3 = Trap "netif_add: number: fuel".
Proof.
  destruct (nets_many 255 (le_n _)) as (s & L & G & HI & Hl & Hs & Hr). destruct (Hs 256) as [x Hx]; [lia|]. exists s. intros fuel.
  apply (netif_add_full (PiP := group_pool) (PuP := pcb_pool) link0 link_room0 rnd7 no_ext no_tcp fuel s L G 256 x (Some host_e) (Some mask_e) None NULL eth_init 3 HI Hx); [|exact Hl|exact eth_init_typed|exact addresses_e|reflexivity].
  intros Hi. apply list_elem_of_fmap in Hi as (y & Ey & Hy). rewrite Forall_forall in Hr. specialize (Hr y Hy). cbn beta in Hr. lia.
Defined.
