(* ===== verification/EndToEnd.v ===== *)
(** * From one host to another

    udp_sendto_if_src on one host and ip4_input on another: the layers of UdpOutput.v,
    Ip4.v, Ip4InputSpec.v and UdpInput.v together. *)

From S2P Require Import Prelude Def ListSeg InetChksum Ip4Addr Mem Memp Pbuf PbufMem PbufRef PbufChain PbufData Header Ip4 Ip4Frag Icmp IcmpSpec Reass ReassQueue ReassFree ReassStep ReassSpec Igmp IgmpSpec IgmpSafe Udp UdpSpec UdpInput UdpOutput Ip4Input Ip4InputSpec.

#[local] Open Scope Z_scope.
#[local] Coercion Z.of_nat : nat >-> Z.

Section Hosts.
Context `{MO : MemOptions} {MOk : MemOptionsOk} `{PO : PbufOptions} {POk : PbufOptionsOk} {St : Type} `{!PacketMemory St} {Lk : Type} `{LL : !LinkLayer Lk St}
  {Pr : Type} `{PrP : !ElementPool Pr} {Pi : Type} `{PiP : !ElementPool Pi} {Pu : Type} `{PuP : !ElementPool Pu}.
Abbreviation inet := (net (St := St) (Lk := Lk)).
Abbreviation udp := (udp (St := St) (Lk := Lk) (Pl := Pu)).
Abbreviation stack := (stack (St := St) (Lk := Lk) (Pr := Pr) (Pi := Pi) (Pu := Pu)).
Context (rnd : nat -> Z) (recv_fn : Z -> Z -> Z -> Z -> Z -> Z -> udp -> outcome udp)
  (tcp_input : inet -> ip_globals -> Z -> netif -> outcome inet) (IP_FORWARD : bool).

(** ** Lemmas *)

(** The header that ip4_output writes, as ip4_input reads it. *)
Lemma header_fields_sent tos tot id ttl proto chk src dst R :
  is_u16 tot -> is_u8 proto -> is_u32 src -> is_u32 dst ->
  let C := ip_header 20 tos tot id 0 ttl proto chk src dst ++ R in
  h_version C = 4 /\ h_hlen C = 20 /\ h_len C = tot /\ h_offset C = 0 /\ h_proto C = proto /\ h_src C = src /\ h_dest C = dst.
Proof.
  intros Ht Hp Hs Hd C. unfold C, h_version, h_hlen, h_len, h_offset, h_proto, h_src, h_dest, ip_header, le_bytes4. cbn [app take drop be16 le_val].
  rewrite take_0. split_and!; try done; cbn [le_val]; [unfold_c; Z.div_mod_to_equations; lia|lia|unfold_c; Z.div_mod_to_equations; lia|unfold_c; Z.div_mod_to_equations; lia].
Qed.

(** A frame with a good header, perhaps with padding behind it. *)
Lemma good_frame tos id ttl proto chk src dst d pad first :
  is_u16 (length d + 20) -> is_u8 proto -> is_u32 src -> is_u32 dst ->
  let hdr := ip_header 20 tos (length d + 20) id 0 ttl proto chk src dst in
  Forall is_u8 hdr -> inet_chksum 0 hdr = 0 -> 20 <= first -> good_header first (hdr ++ d ++ pad) = true.
Proof.
  intros Ht Hp Hs Hd hdr H8 Hc Hf. destruct (header_fields_sent tos (length d + 20) id ttl proto chk src dst (d ++ pad) Ht Hp Hs Hd) as (E1 & E2 & E3 & _). fold hdr in E1, E2, E3.
  apply good_header_iff. rewrite E1, E2, E3. assert (HL : length hdr = 20%nat) by done. rewrite !length_app, HL. split_and!; try done; try lia.
  change (Z.to_nat 20) with 20%nat. rewrite take_app_length' by done. rewrite inet_chksum_rfc in Hc; [done|done|rewrite HL; lia].
Qed.

(** What happens to a datagram that was sent. *)
Lemma sent_received (n n' : inet) b nif sport src dst port dat :
  sent n n' b nif sport src dst port dat -> is_u16 sport -> is_u16 port -> is_u32 src -> is_u32 dst -> is_u16 (length dat + 28) ->
  exists frame, link_log (n_lk n') = link_log (n_lk n) ++ [(netif_num nif, dst, frame)] /\ Forall is_u8 frame /\ length frame = length dat + 28 :> Z
    /\ forall ns (s : stack) Br extr D L Lr q qb ql inp onif pcb' rb f pad,
         reass_inv (in_reass s) Br (ext_add extr q) D -> igmp_inv (in_igmp s) L -> routes_ok ns -> udp_inv (in_udp s) Lr ->
         received (n_ps (k_net s)) q qb ql -> contents (k_mem s) ((q, qb) :: ql) = frame ++ pad -> 28 <= p_len qb ->
         accepting ns L inp dst = Some onif -> good_source L inp src dst = true ->
         let ig := IpGlobals onif inp (p_payload qb) 20 src dst in
         receiver ig inp (dest_broadcast ig) sport port Lr = Some (pcb', rb) -> recv rb = Some f ->
         exists s' u qb' ql' B', ip4_input rnd recv_fn tcp_input IP_FORWARD ns s q inp = (u' ← recv_fn f (recv_arg rb) pcb' q src sport u; Ret (ERR_OK, put_udp s' u'))
           /\ net_ok (u_net u) B' (ext_add (hold extr (frags D)) q) /\ n_lk (u_net u) = n_lk (k_net s)
           /\ chain (n_ps (u_net u)) q ((q, qb') :: ql') /\ contents (data (n_ps (u_net u))) ((q, qb') :: ql') = dat.
Proof.
  intros (hchk & chk & Hlog & Hhc & Hck & H8) Hsp Hdp Hs Hd Hlen. cbv zeta in Hlog, Hhc, Hck, H8. set (dgram := udp_header sport port (length dat + 8) chk ++ dat) in *. set (ttl := if ip4_addr_ismulticast dst then _ else _) in *.
  assert (Hld : Z.of_nat (length dgram) = length dat + 8) by (unfold dgram; rewrite length_app; change (length (udp_header _ _ _ _)) with 8%nat; lia).
  replace (length dat + 8 + 20) with (Z.of_nat (length dgram) + 20) in * by lia. set (hdr := ip_header 20 (pcb_tos b) (length dgram + 20) (ip_id n) 0 ttl IP_PROTO_UDP hchk src dst) in *.
  assert (HL : length hdr = 20%nat) by done. pose proof H8 as H8'. apply Forall_app in H8' as [H8h H8d].
  exists (hdr ++ dgram). split; [exact Hlog|]. split; [done|]. split; [rewrite length_app, HL; lia|].
  intros ns s Br extr D L Lr q qb ql inp onif pcb' rb f pad HR HI Hns HU Hrc HC Hfirst Hacc Hsrc ig Hrv Hf. set (C := contents (k_mem s) ((q, qb) :: ql)) in *. rewrite <- app_assoc in HC.
  assert (Hlu : is_u16 (length dgram + 20)) by (unfold_c; lia). assert (Hpu : is_u8 IP_PROTO_UDP) by (unfold IP_PROTO_UDP; unfold_c; lia).
  destruct (header_fields_sent (pcb_tos b) (length dgram + 20) (ip_id n) ttl IP_PROTO_UDP hchk src dst (dgram ++ pad) Hlu Hpu Hs Hd) as (F1 & F2 & F3 & F4 & F5 & F6 & F7). fold hdr in F1, F2, F3, F4, F5, F6, F7. rewrite <- HC in *.
  pose proof (good_frame (pcb_tos b) (ip_id n) ttl IP_PROTO_UDP hchk src dst dgram pad (p_len qb) Hlu Hpu Hs Hd H8h Hhc ltac:(lia)) as Hg. fold hdr in Hg. rewrite <- HC in Hg.
  assert (Ed : drop (Z.to_nat 20) (take (Z.to_nat (length dgram + 20)) C) = dgram).
  { rewrite HC, app_assoc, take_app_length' by (rewrite length_app, HL; lia). apply drop_app_length'. by rewrite HL. }
  destruct (udp_receive rnd recv_fn tcp_input IP_FORWARD ns s Br extr D L Lr q qb ql inp onif f (recv_arg rb) pcb' HR HI Hns Hrc HU) as (s' & u & b' & l' & B' & R1 & R2 & R3 & R4 & R5).
  - fold C. unfold input_verdict. rewrite Hg, F6, F7, Hsrc, Hacc, F4. done.
  - exact F5.
  - fold C. rewrite F2, F3, F6, F7, Ed. fold ig. unfold udp_verdict. assert (Hports : be16 dgram = sport /\ be16 (drop 2 dgram) = port) by (unfold dgram; cbn; Z.div_mod_to_equations; lia). destruct Hports as [P1 P2]. rewrite P1, P2, Hrv, Hf.
    rewrite (proj2 (Z.ltb_ge _ _)) by (unfold UDP_HLEN; lia). destruct (decide (valid_datagram ig dgram)) as [|Hv]; [done|]. destruct Hv.
    unfold valid_datagram, ig. cbn [current_iphdr_src current_iphdr_dest]. unfold checksum_ok in Hck. destruct (Z.land _ _ =? 0); [right; apply Hck|left]. unfold dgram. by rewrite Hck.
  - fold C in R1, R5. rewrite F2, F3, F6, Ed in R1. rewrite F2, F3, Ed in R5. assert (P1 : be16 dgram = sport) by (unfold dgram; cbn; Z.div_mod_to_equations; lia). rewrite P1 in R1. exists s', u, b', l', B'. split; [exact R1|]. do 3 (split; [done|]). by rewrite R5.
Qed.

(** ** Theorems *)

(** C1: A datagram that a bound control block sends with udp_sendto_if_src arrives: the
    interface gets one frame, and whenever another host gets a packet that starts with this
    frame (perhaps with padding behind it, in any pbufs), whose first pbuf has the headers,
    on an interface that accepts the destination, and a control block there is the receiver
    for the ports, then ip4_input calls its callback with the sender's address and port and
    a packet with exactly the data that was sent. *)
Theorem udp_end_to_end (su : udp) Lu B ext pcb b p pb l dst port nif src :
  udp_inv su Lu -> u_pcbs su !! pcb = Some b -> local_port b <> 0 -> sendable (u_net su) B ext p pb l nif -> udp_room p pb ->
  is_u32 dst -> is_u16 port -> is_u32 src ->
  let dat := contents (data (n_ps (u_net su))) ((p, pb) :: l) in
  exists e su' frame, udp_sendto_if_src su pcb p dst port nif src = Ret (e, su')
    /\ link_log (n_lk (u_net su')) = link_log (n_lk (u_net su)) ++ [(netif_num nif, dst, frame)] /\ Forall is_u8 frame /\ length frame = length dat + 28 :> Z
    /\ forall ns (s : stack) Br extr D L Lr q qb ql inp onif pcb' rb f pad,
         reass_inv (in_reass s) Br (ext_add extr q) D -> igmp_inv (in_igmp s) L -> routes_ok ns -> udp_inv (in_udp s) Lr ->
         received (n_ps (k_net s)) q qb ql -> contents (k_mem s) ((q, qb) :: ql) = frame ++ pad -> 28 <= p_len qb ->
         accepting ns L inp dst = Some onif -> good_source L inp src dst = true ->
         let ig := IpGlobals onif inp (p_payload qb) 20 src dst in
         receiver ig inp (dest_broadcast ig) (local_port b) port Lr = Some (pcb', rb) -> recv rb = Some f ->
         exists s' u qb' ql' B', ip4_input rnd recv_fn tcp_input IP_FORWARD ns s q inp = (u' ← recv_fn f (recv_arg rb) pcb' q src (local_port b) u; Ret (ERR_OK, put_udp s' u'))
           /\ net_ok (u_net u) B' (ext_add (hold extr (frags D)) q) /\ n_lk (u_net u) = n_lk (k_net s)
           /\ chain (n_ps (u_net u)) q ((q, qb') :: ql') /\ contents (data (n_ps (u_net u))) ((q, qb') :: ql') = dat.
Proof.
  intros HI Hb Hl Hsd Hroom Hdst Hport Hsrc dat.
  destruct (sendto_bound su Lu B ext pcb b p pb l dst port nif src HI Hb Hl Hsd Hdst Hport Hsrc) as (e & su' & B' & E & _ & _ & [(_ & Hno & _)|Hs]); [done|].
  assert (Hlen : is_u16 (length dat + 28)).
  { pose proof (og_chain _ _ _ _ _ _ _ (sd_out _ _ _ _ _ _ _ Hsd)) as Hc. pose proof (sd_tot _ _ _ _ _ _ _ Hsd). pose proof (chain_cons _ _ _ _ _ Hc) as (_ & _ & _ & _ & Ht & _).
    unfold dat. rewrite contents_length by (apply tot_ok_lens, Hc). change (total ((p, pb) :: l)) with (p_len pb + total l). rewrite <- Ht. destruct (proj2 Hc) as (_ & _ & Hut & _). unfold_c. lia. }
  destruct (sent_received _ _ _ _ _ _ _ _ _ Hs) as (frame & H1 & H2 & H3 & H4); [apply (ui_type _ _ HI _ _ Hb)|done|done|done|done|].
  exists e, su', frame. do 4 (split; [done|]). exact H4.
Qed.
End Hosts.

(** ** Witnesses *)

Definition src_b : Z := current_iphdr_src echo_ig.

Lemma one_pbuf (ps : pstate (St := pmem_state)) q b b' : chain ps q [(q, b)] -> chain ps q [(q, b')] -> length (contents (data ps) [(q, b)]) = p_len b' :> Z.
Proof. intros Hc Hc'. assert (b = b') as -> by (destruct Hc as [(_ & H1 & _) _], Hc' as [(_ & H2 & _) _]; congruence). rewrite contents_length by (apply tot_ok_lens, Hc'). unfold total. cbn. lia. Qed.

Lemma p2_data B b : sendable net0 B (ext_add (ext_add no_ext p1) p2) p2 b [] nif0 -> length (contents (data (n_ps net0)) [(p2, b)]) = 100 :> Z.
Proof.
  intros Hsd. destruct ps2_inv as (B' & b1 & a2 & b2 & b' & _ & _ & Hc2 & _ & _ & _ & _ & _ & L & _). rewrite <- L.
  exact (one_pbuf (n_ps net0) p2 b b' (og_chain _ _ _ _ _ _ _ (sd_out _ _ _ _ _ _ _ Hsd)) Hc2).
Qed.

Lemma host_a_accepts : accepting netifs_a (λ _, []) nif_a host_a = Some nif_a.
Proof. vm_compute. reflexivity. Qed.

Lemma src_b_good : good_source (λ _, []) nif_a src_b host_a = true.
Proof. vm_compute. reflexivity. Qed.

Lemma host_a_receives x pcb nx :
  receiver (IpGlobals nif_a nif_a x 20 src_b host_a) nif_a (dest_broadcast (IpGlobals nif_a nif_a x 20 src_b host_a)) 7400 7400 [(pcb, with_pcb_next (with_local (with_recv new_pcb (Some 1) 2) host_a 7400) nx)]
  = Some (pcb, with_pcb_next (with_local (with_recv new_pcb (Some 1) 2) host_a 7400) nx).
Proof. vm_compute. reflexivity. Qed.

Lemma udp_end_to_end_witness :
  exists (su su' : udp_wire) e pcb frame (s : stack (St := pmem_state) (Lk := list (Z * Z * list Z)) (Pr := memp_state) (Pi := memp_state) (Pu := memp_state)) s' u b l pb,
    udp_sendto_if_src su pcb p2 host_a 7400 nif0 src_b = Ret (e, su') /\ link_log (n_lk (u_net su')) = [(1, host_a, frame)]
    /\ ip4_input (PrP := dgram_pool) rnd7 keep_packet no_tcp false netifs_a s p1 nif_a = Ret (ERR_OK, put_udp s' u)
    /\ contents (data (n_ps (u_net u))) ((p1, b) :: l) = contents (data (n_ps (u_net su))) [(p2, pb)].
Proof.
  destruct sendable_p2 as (B & pb & Hsd & Hroom). destruct (udp_listening net0) as (su & pcb & nx & En & Hinv). pose proof (p2_data B pb Hsd) as Hld. rewrite <- En in Hsd, Hld.
  destruct (udp_end_to_end (PrP := dgram_pool) (PiP := group_pool) (PuP := pcb_pool) rnd7 keep_packet no_tcp false su _ B _ pcb (with_pcb_next (with_local (with_recv new_pcb (Some 1) 2) host_a 7400) nx) p2 pb [] host_a 7400 nif0 src_b
              Hinv (ui_lookup su _ Hinv _ _ (list_elem_of_here _ _)) port_7400_bound Hsd Hroom host_a_ok port_7400 echo_src_ok) as (e & su' & frame & E & Hlog & H8 & HL & Hrecv).
  destruct got_packet as (b & l & _ & Hlen & _ & Hg). rewrite Hld in HL. destruct (Hg frame H8 ltac:(lia)) as (Hrc & (pad & Hpad) & Br & HR).
  set (n := got_net (p_payload b) frame) in *. destruct (udp_listening n) as (sr & pcbr & nxr & Enr & Hinvr).
  set (s := Stack n (got_reass (p_payload b) frame) igmp0 sr).
  assert (HU : udp_inv (in_udp s) [(pcbr, with_pcb_next (with_local (with_recv new_pcb (Some 1) 2) host_a 7400) nxr)]) by (apply inv_with_net; exact Hinvr).
  destruct (Hrecv netifs_a s Br no_ext [] (λ _, []) _ p1 b l nif_a nif_a pcbr _ 1 pad HR (no_groups n) routes_a HU Hrc Hpad ltac:(lia) host_a_accepts src_b_good (host_a_receives _ pcbr nxr) eq_refl)
    as (s' & u & b' & l' & B' & Ein & _ & _ & _ & Hcon).
  exists su, su', e, pcb, frame, s, s', u, b', l', pb. split; [exact E|]. split; [rewrite Hlog, En; reflexivity|]. split; [exact Ein|exact Hcon].
Defined.
